(* ===== verification/_CoqProject ===== *)
-Q . S2P
Prelude.v
Numbers.v
Atom.v
AtomSpec.v
Keymap.v
State.v
KeymapSpec.v
Filters.v
Apply.v
Server.v
Safety.v
Reach.v
Keys.v
ServerSpec.v
Utf8.v
KeysymTables.v
Keysym.v
Client.v
ClientSpec.v
Machine.v
Overlays.v
Events.v
MachineInv.v
MachineSpec.v
KeysymNames.v
KeysymName.v
Scanner.v
Compose.v
ComposeTree.v
ComposeSpec.v
ComposeIter.v
ComposeParser.v
ComposeParse.v
ComposeDump.v
Expr.v
ExprSpec.v
Vmod.v
VmodSpec.v
KeyAliases.v
Derived.v
DerivedInv.v
DerivedSpec.v
SymOverlays.v
SymOverlaysSpec.v
Actions.v
Sections.v
Safe.v
ActionsSpec.v
Keycodes.v
KeycodesStore.v
KeycodesDict.v
KeycodesSpec.v
Types.v
TypesSpec.v
Compat.v
CompatStore.v
CompatSpec.v
Symbols.v
SymbolsCopy.v
SymbolsInv.v
SymbolsSpec.v
SymbolsFind.v
SymbolsCopySpec.v
CompileKeymap.v
CompileKeymapSpec.v
Rules.v
RulesSpec.v
RulesNames.v
RulesBytes.v
Rmlvo.v
RmlvoSpec.v
KeymapNew.v
KeymapNewSpec.v
KeymapLexer.v
KeymapParser.v
KeymapLexerSpec.v
KeymapGrammar.v
KeymapParserValues.v
KeymapParserSpec.v
KeymapTextSpec.v
