(* ===== verification/Prelude.v ===== *)
(** * A verification development for libxkbcommon

    libxkbcommon turns the names that a user gives to a keyboard (rules, model,
    layout, variant, options) or the text of a keymap into a compiled keymap,
    and keeps the state of a keyboard that uses it: which keysyms, characters,
    modifiers, layouts and indicators a sequence of key events gives.  It also
    has compose tables, that turn sequences of keysyms into text.  This library
    translates the C code, function by function under the names of the source,
    into executable definitions, and proves what makes it correct.

    ** The program and its model

    Names of the user (rmlvo.c, context-priv.c) go through the rules files
    (xkbcomp/rules.c), which give the names of the components of a keymap; those
    make a file of include statements (xkbcomp/xkbcomp.c, ast-build.c), whose
    sections (keycodes, types, compat, symbols) are compiled one after the other
    into the keymap (xkbcomp/keymap.c); a keymap has states (state.c) for a
    server, a client or a state machine.  The text of a keymap goes through the
    lexer and the parser (xkbcomp/scanner.c, keywords.c, parser.c) to the same
    sections.

    - Machine words, errors, the result monad: [Prelude].  Numbers and classes
      of characters (utils-numbers.h, utils.h), constant arrays: [Numbers].
      The scanner of the text formats (scanner-utils.h): [Scanner].
    - Atoms (atom.c): [Atom], with [AtomSpec].
    - Keymaps as data and their queries (keymap.h, keymap.c, keymap-priv.c):
      [Keymap], with a keymap for the witnesses, and [KeymapSpec].
    - Keyboard states (state.c): [State] for the components and their
      derivation, [Filters] for the array of filters and the handlers of the
      actions, [Apply] for their dispatch, [Server] for the server API, [Client]
      for the client API, [Machine] for the state machine, its builder and its
      events.  Proofs: [Safety] (modifiers are counted, handlers are in bounds)
      and [Reach] (invariant of the reachable states), [Keys] and [ServerSpec] (effect of
      key events), [ClientSpec], [Overlays], [Events], [MachineInv] and
      [MachineSpec].
    - Keysyms (utf8.c, utf8-decoding.c, keysym-utf.c, keysym-case-mappings.c,
      keysym.c, keysym-names.h): [Utf8], [KeysymTables], [Keysym],
      [KeysymNames], [KeysymName].
    - Compose (src/compose): [Compose] for tables, states and iterators
      (table.h, table.c, state.c), [ComposeParser] for the text format and the
      dump (parser.c, escape.h, dump.c).  Proofs: [ComposeTree], [ComposeSpec],
      [ComposeIter], [ComposeParse], [ComposeDump].
    - Parts shared by the sections of a keymap: [Expr] (expr.c) with [ExprSpec],
      [Vmod] (vmod.c) with [VmodSpec], [Actions] (action.c, text.c) with
      [ActionsSpec], [KeyAliases] and [Derived] (the end of keymap.c) with
      [DerivedInv] and [DerivedSpec], [SymOverlays] (the overlays of a key, in
      symbols.c) with [SymOverlaysSpec], [Sections] (include statements and
      merges, include.c), [Safe] (the results that are in bounds).
    - Sections: [Keycodes] (keycodes.c) with [KeycodesStore], [KeycodesDict],
      [KeycodesSpec]; [Types] (types.c) with [TypesSpec]; [Compat] (compat.c)
      with [CompatStore], [CompatSpec]; [Symbols] and [SymbolsCopy] (symbols.c)
      with [SymbolsInv], [SymbolsSpec], [SymbolsFind], [SymbolsCopySpec].
    - The compilation of a keymap (keymap.c, xkbcomp.c): [CompileKeymap] with
      [CompileKeymapSpec].
    - Texts of keymaps: [KeymapLexer] (scanner.c, keywords.c), [KeymapParser]
      (the tables, the actions and the automaton of parser.c, the nodes of
      ast-build.c, the creation of a keymap from a text in xkbcomp.c and
      keymap.c).  Proofs: [KeymapLexerSpec], [KeymapGrammar] (the rules of
      parser.y, and what the tables know, checked by computation),
      [KeymapParserValues] (the actions and the kinds of the values),
      [KeymapParserSpec] (the automaton), [KeymapTextSpec] (from a text to a
      keymap).
    - Rules (rules.c): [Rules] with [RulesSpec], [RulesNames], [RulesBytes].  Names: [Rmlvo] (rmlvo.c, context-priv.c) with [RmlvoSpec].
      From names to a keymap: [KeymapNew] (xkbcomp.c, ast-build.c, keymap.c)
      with [KeymapNewSpec].

    ** How the code is read

    State is passed explicitly.  A computation that can do what C leaves
    undefined, or fail an assertion, has type [result A]: a value, or the
    [fault] it meets, among them an access out of bounds, an overflow of signed
    integers, a use after free, a failed assertion (assertions are enabled) and
    a lack of fuel.  An error that the code returns is a value ([option], a
    boolean or an enumeration), so that the two are never confused.  Integers
    are of type [Z] with the conversions of their C types written out ([u32],
    [i32], [u8], ...).  Pointers into an array that may move are indices paired
    with what tells that the array moved; memory that has owners (the arrays of
    actions of a compat section, the overlays of the default key, the groups of
    a rules file that was unmapped) is modelled with its sharing.

    Assumptions on the world: allocations succeed, and sizes stay in the range
    of [size_t]; the environment and the names chosen at build time are a record
    ([rmlvo_context] of [Rmlvo]); the file system is a function from names to
    contents ([find_rules], [find_include]), any function; the files that the
    sections include are found and parsed by a parameter ([parse], [parse_file]),
    and the theorems ask that its trees be those of the parser: well formed, the
    lists of a key made of keysyms or of actions.  The table of atoms that
    expressions refer to is the final one: it only grows, and texts of atoms do
    not change (proved in [AtomSpec]).  A value of the union of the parser
    carries the member that was written, and reading another one is a fault.
    The raw bytes of a private action are those of a little-endian machine.
    Messages are not modelled, but for the assertions and memory accesses that
    making their arguments does.

    ** What is proved

    - Reachable states: whatever the events and updates, a server state, and a
      state machine above it, keeps its invariant; every call ends within its
      bounds, the one fault left being named and exhibited
      ([ServerSpec.reachable_states_ok], [ServerSpec.update_key_safe],
      [MachineSpec.machine_safe], [ServerSpec.release_use_after_realloc]).
    - Meaning of the handlers: latches, mappings of modifiers, shortcuts,
      overlays, derived components; a client that applies the events of a
      machine simulates it ([MachineSpec.companion_mirrors]).
    - Sections: any statements and included files are compiled within the depth
      of includes, and give data in order; stores are refined to dictionaries,
      and the derived fields to their definition.
    - End to end: a keymap compiled from sections satisfies the invariant that
      states need, and a key event on its machines is handled to its end
      ([CompileKeymapSpec]); so is one made from the names of the user
      ([KeymapNewSpec.keymap_from_names_ok]), and one made from any bytes of
      text ([KeymapTextSpec.keymap_from_text_ok]).
    - Texts: the lexer reads the keywords of its list and no other, the parser
      ends on any bytes with no fault of its tables, stack or values, accepts
      texts of the grammar only, and chooses the map asked for
      ([KeymapLexerSpec], [KeymapParserSpec]).
    - Rules: whatever the files, the resolution of names ends with the named
      faults only; the layouts that a rule selects, the merge of its values and
      the buffer of pending values meet their specifications; a builder is
      equivalent to the text of its names ([RmlvoSpec]).
    - Compose: a table is a dictionary, states follow it, the parser is total,
      a dump reads back, a sequence ends.
    - Formats: UTF-8, names of keysyms, escapes, include statements and names
      of the user are round trips; integers are within their bounds.

    ** Bounds and fuel

    Recursions that follow the input have as fuel its length plus one (scanners,
    lexers, lists split at commas); the theorems show that they never lack it,
    each step taking one byte at least.  Includes nest up to the depth that
    the source allows: 15 for sections (fuel 16), 5 for rules (fuel 6) and for
    compose files (the recursion is on the levels left).  Searches of [find_key_for_symbol] are bounded by the largest
    number of groups and of levels ([groups_bound], [levels_bound]).  The
    automaton of the parser has 16 steps for each byte left and 16 more
    ([yyfuel]): the weights of [KeymapGrammar] decrease at each reduction and
    grow by at most 8 when a token, of one byte at least, is shifted; its stack
    grows up to [YYMAXDEPTH], where the parser returns [YYNOMEM] as the code
    does.  Filters
    apply to synthetic keys one level deep ([apply_all_depth]).  Growing arrays
    and probing loops have their capacities.  Lack of fuel is a fault, and no
    theorem of safety allows it.

    ** Not modelled

    Of the parser, what follows a shift of the error token (no state shifts
    one), the positions and messages of errors, and what frees the values of a
    parsing that fails; converse of its soundness, that every text of the
    grammar is accepted, is not proved.  The parsing of an included file in the
    table of atoms of the moment is left to a parameter, the tables of the files
    being one.  The registry (registry.c) reads XML through
    libxml2, the X11 back end speaks to a server through xcb, and the tools,
    tests and benchmarks are programs around the library.  Contexts, include
    paths and the paths of the locale (context.c, include.c in part,
    compose/paths.c) are accesses to the file system and the environment.
    Reference counts and the freeing of objects that have one owner are left
    out, as are the comparison of keymaps (keymap-compare.c), the serialization
    of a keymap (keymap-dump.c) and messages. *)

From Stdlib Require Import ZArith Lia Btauto.
From stdpp Require Import base tactics list numbers.

#[global] Open Scope Z_scope.

(** ** Machine integers

    The C code works on [uint32_t] masks and indices, [int32_t] groups,
    [int16_t] counters and [uint8_t] overlay masks.  They are integers of
    type [Z] here, and every operation that can leave the width is followed
    by the conversion of its C type. *)

Definition u32 (x : Z) : Z := x mod 2 ^ 32.
Definition u8 (x : Z) : Z := x mod 2 ^ 8.

(** Two's complement conversion to a signed type of [w] bits. *)
Definition sext (w : Z) (x : Z) : Z :=
  let y := x mod 2 ^ w in
  if y <? 2 ^ (w - 1) then y else y - 2 ^ w.

Definition i32 (x : Z) : Z := sext 32 x.
Definition i16 (x : Z) : Z := sext 16 x.

Definition is_u32 (x : Z) : Prop := 0 <= x < 2 ^ 32.
Definition is_i32 (x : Z) : Prop := - 2 ^ 31 <= x < 2 ^ 31.

(** C truth value of [x & f]. *)
Definition has_flag (x f : Z) : bool := negb (Z.land x f =? 0).

(** [UINT32_C(1) << i]. *)
Definition bit (i : Z) : Z := Z.shiftl 1 i.

Lemma u32_range x : is_u32 (u32 x).
Proof. unfold is_u32, u32. apply Z.mod_pos_bound. lia. Qed.

Lemma u32_id x : is_u32 x -> u32 x = x.
Proof. unfold is_u32, u32. intros. by apply Z.mod_small. Qed.

Lemma sext_id w x : 0 < w -> - 2 ^ (w - 1) <= x < 2 ^ (w - 1) -> sext w x = x.
Proof.
  intros Hw Hx. unfold sext.
  assert (Hp : 2 ^ w = 2 * 2 ^ (w - 1)).
  { replace w with (Z.succ (w - 1)) at 1 by lia. rewrite Z.pow_succ_r by lia. lia. }
  destruct (Z_le_gt_dec 0 x).
  - rewrite Z.mod_small by lia. destruct (Z.ltb_spec x (2 ^ (w - 1))); lia.
  - replace (x mod 2 ^ w) with (x + 2 ^ w).
    2:{ rewrite <- (Z.mod_small (x + 2 ^ w) (2 ^ w)) by lia.
        rewrite <- (Z.mul_1_l (2 ^ w)) at 1. by rewrite Z.mod_add by lia. }
    destruct (Z.ltb_spec (x + 2 ^ w) (2 ^ (w - 1))); lia.
Qed.

Lemma sext_range w x : 0 < w -> - 2 ^ (w - 1) <= sext w x < 2 ^ (w - 1).
Proof.
  intros Hw. unfold sext.
  assert (Hp : 2 ^ w = 2 * 2 ^ (w - 1)).
  { replace w with (Z.succ (w - 1)) at 1 by lia. rewrite Z.pow_succ_r by lia. lia. }
  pose proof (Z.mod_pos_bound x (2 ^ w) ltac:(lia)).
  destruct (Z.ltb_spec (x mod 2 ^ w) (2 ^ (w - 1))); lia.
Qed.

Lemma i32_id x : is_i32 x -> i32 x = x.
Proof. intros H. apply sext_id; [lia | exact H]. Qed.

Lemma i32_range x : is_i32 (i32 x).
Proof. exact (sext_range 32 x ltac:(lia)). Qed.

Lemma i32_u32 x : is_i32 x -> i32 (u32 x) = x.
Proof.
  intros H. rewrite <- (i32_id x H) at 2. unfold i32, u32, sext. by rewrite Z.mod_mod.
Qed.

(** ** Bit masks

    [Z.testbit] is the reference reading of a mask: a mask equation is proved
    bit by bit by [bitblast], with the rewriting rules of the database
    [mask_bits]. *)

Lemma bit_spec i j : 0 <= i -> Z.testbit (bit i) j = (i =? j).
Proof.
  intros Hi. unfold bit. rewrite Z.shiftl_1_l.
  destruct (Z.eqb_spec i j) as [<-|Hne].
  - by apply Z.pow2_bits_true.
  - by apply Z.pow2_bits_false.
Qed.

Create Rewrite HintDb mask_bits.
#[export] Hint Rewrite Z.land_spec Z.lor_spec Z.ldiff_spec Z.lxor_spec
  Z.testbit_0_l : mask_bits.

Ltac bitblast :=
  apply Z.bits_inj'; let i := fresh "i" in let Hi := fresh "Hi" in
  intros i Hi; autorewrite with mask_bits;
  repeat match goal with
         | H : @eq Z ?a ?b |- _ =>
             lazymatch a with
             | context [Z.land _ _] => idtac
             | context [Z.lor _ _] => idtac
             | context [Z.ldiff _ _] => idtac
             | _ => fail
             end;
             apply (f_equal (fun z => Z.testbit z i)) in H;
             autorewrite with mask_bits in H
         end;
  repeat match goal with
         | |- context [Z.testbit ?a ?j] => destruct (Z.testbit a j) eqn:?
         end; simpl in *; try congruence; try btauto.

(** A mask is a [uint32_t] exactly when it has no bit at 32 or above. *)
Lemma is_u32_bits x : 0 <= x -> (forall i, 32 <= i -> Z.testbit x i = false) -> is_u32 x.
Proof.
  intros Hx Hb. split; [done|].
  replace x with (x mod 2 ^ 32); [apply Z.mod_pos_bound; lia|].
  apply Z.bits_inj'. intros i Hi.
  destruct (Z_lt_le_dec i 32).
  - by rewrite Z.mod_pow2_bits_low.
  - rewrite Z.mod_pow2_bits_high by lia. by rewrite Hb.
Qed.

Lemma u32_testbit_high x i : is_u32 x -> 32 <= i -> Z.testbit x i = false.
Proof.
  intros Hx Hi. rewrite <- (u32_id x Hx). unfold u32.
  apply Z.mod_pow2_bits_high. lia.
Qed.

Lemma is_u32_land_l a b : is_u32 a -> is_u32 (Z.land a b).
Proof.
  intros Ha. apply is_u32_bits.
  - apply Z.land_nonneg. left. apply Ha.
  - intros i Hi. rewrite Z.land_spec, u32_testbit_high; done.
Qed.

Lemma is_u32_land_r a b : is_u32 b -> is_u32 (Z.land a b).
Proof. rewrite Z.land_comm. apply is_u32_land_l. Qed.

Lemma is_u32_lor a b : is_u32 a -> is_u32 b -> is_u32 (Z.lor a b).
Proof.
  intros Ha Hb. apply is_u32_bits.
  - apply Z.lor_nonneg. split; [apply Ha | apply Hb].
  - intros i Hi. rewrite Z.lor_spec, !u32_testbit_high; done.
Qed.

Lemma is_u32_ldiff a b : is_u32 a -> is_u32 (Z.ldiff a b).
Proof.
  intros Ha. apply is_u32_bits.
  - apply Z.ldiff_nonneg. left. apply Ha.
  - intros i Hi. rewrite Z.ldiff_spec, u32_testbit_high; done.
Qed.

Lemma is_u32_0 : is_u32 0.
Proof. unfold is_u32. lia. Qed.

(** Concrete masks are checked by computation. *)
Lemma is_u32_check x : (0 <=? x) && (x <? 2 ^ 32) = true -> is_u32 x.
Proof. intros [?%Z.leb_le ?%Z.ltb_lt]%andb_true_iff. by split. Qed.

Lemma is_u32_bit i : 0 <= i < 32 -> is_u32 (bit i).
Proof.
  intros Hi. apply is_u32_bits.
  - unfold bit. apply Z.shiftl_nonneg. lia.
  - intros j Hj. rewrite bit_spec by lia. destruct (Z.eqb_spec i j); lia.
Qed.

Create HintDb masks.
#[export] Hint Resolve is_u32_land_l is_u32_lor is_u32_ldiff is_u32_0 u32_range
  is_u32_bit i32_range : masks.

Lemma has_flag_true x f : has_flag x f = true <-> Z.land x f <> 0.
Proof. unfold has_flag. rewrite negb_true_iff. apply Z.eqb_neq. Qed.

Lemma has_flag_false x f : has_flag x f = false <-> Z.land x f = 0.
Proof. unfold has_flag. rewrite negb_false_iff. apply Z.eqb_eq. Qed.

Lemma land_bit x i : 0 <= i -> Z.land x (bit i) = if Z.testbit x i then bit i else 0.
Proof.
  intros Hi. apply Z.bits_inj'. intros j Hj. rewrite Z.land_spec, bit_spec by done.
  destruct (Z.eqb_spec i j) as [->|Hne].
  - destruct (Z.testbit x j); simpl; [by rewrite bit_spec, Z.eqb_refl|].
    by rewrite Z.testbit_0_l.
  - rewrite andb_false_r. destruct (Z.testbit x i); [|by rewrite Z.testbit_0_l].
    rewrite bit_spec by done. by destruct (Z.eqb_spec i j).
Qed.

Lemma bit_nonzero i : 0 <= i -> bit i <> 0.
Proof.
  intros Hi Heq. assert (Z.testbit (bit i) i = true) as H.
  { rewrite bit_spec by done. apply Z.eqb_refl. }
  rewrite Heq, Z.testbit_0_l in H. done.
Qed.

Lemma has_flag_bit x i : 0 <= i -> has_flag x (bit i) = Z.testbit x i.
Proof.
  intros Hi. unfold has_flag. rewrite land_bit by done.
  destruct (Z.testbit x i); [|done].
  apply negb_true_iff, Z.eqb_neq. by apply bit_nonzero.
Qed.

(** ** Computations with state and faults

    The server side of the library threads a mutable state through handlers
    that may dereference stale or null pointers or fail an assertion.  A
    computation returns [Ok] with the new state, or the [fault] that a C
    execution would run into. *)

Inductive fault :=
| FaultAssert            (** an [assert] of the source fails *)
| FaultUseAfterRealloc   (** a pointer into a [darray] is used after the array moved *)
| FaultUseAfterFree      (** an allocated array is freed or read after it was freed *)
| FaultNullEvents        (** [events->queue] is accessed with [events == NULL] *)
| FaultNull              (** a null pointer is dereferenced *)
| FaultOutOfBounds       (** an array is indexed out of its bounds *)
| FaultShift             (** a shift by at least the width of the type *)
| FaultOverflow          (** a signed operation leaves its type *)
| FaultOverlap           (** [memcpy] between overlapping objects, or a read of an
                             object that another one has overwritten *)
| FaultUnion             (** a member of a union is read that is not the one
                             written *)
| FaultFuel.             (** the model's recursion bound is exhausted *)

Inductive result (A : Type) :=
| Ok (a : A)
| Fault (f : fault).
Arguments Ok {A} a.
Arguments Fault {A} f.

Definition M (S A : Type) : Type := S -> result (A * S).

Section monad.
Context {S : Type}.

Definition ret {A} (a : A) : M S A := fun s => Ok (a, s).
Definition bind {A B} (m : M S A) (k : A -> M S B) : M S B := fun s =>
  match m s with Ok (a, s') => k a s' | Fault f => Fault f end.
Definition fail {A} (f : fault) : M S A := fun _ => Fault f.
Definition gets {A} (f : S -> A) : M S A := fun s => Ok (f s, s).
Definition modify (f : S -> S) : M S unit := fun s => Ok (tt, f s).

(** [wp m s E Q]: run from [s], [m] ends in a value and state satisfying
    [Q], or in a fault satisfying [E].  With [E] the false predicate this
    is total correctness, with the true one it is partial correctness. *)
Definition wp {A} (m : M S A) (s : S) (E : fault -> Prop) (Q : A -> S -> Prop) : Prop :=
  match m s with Ok (a, s') => Q a s' | Fault f => E f end.

Lemma wp_ret {A} (a : A) s E (Q : A -> S -> Prop) : wp (ret a) s E Q <-> Q a s.
Proof. done. Qed.

Lemma wp_bind {A B} (m : M S A) (k : A -> M S B) s E Q :
  wp (bind m k) s E Q <-> wp m s E (fun a s' => wp (k a) s' E Q).
Proof. unfold wp, bind. by destruct (m s) as [[a s']|f]. Qed.

Lemma wp_fail {A} f s E (Q : A -> S -> Prop) : wp (fail f) s E Q <-> E f.
Proof. done. Qed.

Lemma wp_gets {A} (f : S -> A) s E Q : wp (gets f) s E Q <-> Q (f s) s.
Proof. done. Qed.

Lemma wp_modify f s E Q : wp (modify f) s E Q <-> Q tt (f s).
Proof. done. Qed.

Lemma wp_mono {A} (m : M S A) s (E E' : fault -> Prop) (Q Q' : A -> S -> Prop) :
  wp m s E Q -> (forall f, E f -> E' f) -> (forall a s', Q a s' -> Q' a s') ->
  wp m s E' Q'.
Proof. unfold wp. intros H HE HQ. destruct (m s) as [[a s']|f]; auto. Qed.

Lemma wp_and {A} (m : M S A) s (E : fault -> Prop) (Q1 Q2 : A -> S -> Prop) :
  wp m s E Q1 -> wp m s E Q2 -> wp m s E (fun a s' => Q1 a s' /\ Q2 a s').
Proof. unfold wp. destruct (m s) as [[a s']|f]; auto. Qed.

Lemma wp_if {A} (b : bool) (m1 m2 : M S A) s E Q :
  (b = true -> wp m1 s E Q) -> (b = false -> wp m2 s E Q) ->
  wp (if b then m1 else m2) s E Q.
Proof. destruct b; auto. Qed.

Lemma wp_ok {A} (m : M S A) s E (Q : A -> S -> Prop) a s' :
  wp m s E Q -> m s = Ok (a, s') -> Q a s'.
Proof. unfold wp. intros H Hm. by rewrite Hm in H. Qed.

Lemma wp_total {A} (m : M S A) s (Q : A -> S -> Prop) :
  wp m s (fun _ => False) Q -> exists a s', m s = Ok (a, s') /\ Q a s'.
Proof. unfold wp. destruct (m s) as [[a s']|f]; [eauto | done]. Qed.

(** An invariant [R s0 s] relating the state before and after. *)
Definition keeps {A} (R : S -> S -> Prop) (m : M S A) : Prop :=
forall s, wp m s (fun _ => True) (fun _ s' => R s s').

Section keeps.
Context (R : S -> S -> Prop) `{!PreOrder R}.

Lemma keeps_ret {A} (a : A) : keeps R (ret a).
Proof. intros s. apply wp_ret. reflexivity. Qed.
Lemma keeps_fail {A} f : keeps R (@fail A f).
Proof. by intros s. Qed.
Lemma keeps_gets {A} (f : S -> A) : keeps R (gets f).
Proof. intros s. apply wp_gets. reflexivity. Qed.
Lemma keeps_modify f : (forall s, R s (f s)) -> keeps R (modify f).
Proof. intros H s. by apply wp_modify. Qed.
Lemma keeps_bind {A B} (m : M S A) (k : A -> M S B) :
  keeps R m -> (forall a, keeps R (k a)) -> keeps R (bind m k).
Proof.
  intros Hm Hk s. apply wp_bind. eapply wp_mono; [apply Hm | done |].
  intros a s' H. eapply wp_mono; [apply Hk | done |].
  intros b s'' H'. by transitivity s'.
Qed.
Lemma keeps_if {A} (b : bool) (m1 m2 : M S A) :
  keeps R m1 -> keeps R m2 -> keeps R (if b then m1 else m2).
Proof. by destruct b. Qed.
End keeps.
End monad.

Declare Scope xkb_scope.
Delimit Scope xkb_scope with xkb.
Notation "'let*' x ':=' m 'in' k" := (bind m (fun x => k))
  (at level 10, x name, m at level 100, k at level 200) : xkb_scope.
Notation "m ';;;' k" := (bind m (fun _ => k))
  (at level 100, k at level 200, right associativity) : xkb_scope.
Notation "'when' b 'do' m" := (if b then m else ret tt)
  (at level 10, b at level 100, m at level 99) : xkb_scope.
#[global] Open Scope xkb_scope.

(** [wp_step] pushes [wp] through the head of a computation. *)
Ltac wp_step :=
  lazymatch goal with
  | |- wp (bind _ _) _ _ _ => apply wp_bind
  | |- wp (ret _) _ _ _ => apply wp_ret
  | |- wp (gets _) _ _ _ => apply wp_gets
  | |- wp (modify _) _ _ _ => apply wp_modify
  | |- wp (fail _) _ _ _ => apply wp_fail
  | |- wp (if _ then _ else _) _ _ _ => apply wp_if; intros ?
  end; cbv beta.
