(* ===== verification/Numbers.v ===== *)
(** * Parsing of numbers and classes of characters (src/utils-numbers.h, src/utils.h)

    The parsers of unsigned integers in decimal and hexadecimal digits, over a
    buffer of bytes with the terminating zero beyond its end, and the tests of
    ASCII characters.  [max] is the largest value of the type. *)

From Stdlib Require Import ZArith Lia.
From stdpp Require Import base tactics list numbers pmap.
From S2P Require Import Prelude.

(** ** Characters (src/utils.h) *)

Definition between (lo hi c : Z) : bool := (c >=? lo) && (c <=? hi).

(** A [char] above 127 is negative, and in none of the classes. *)
Definition is_ascii (c : Z) : bool := c <? 128.
Definition is_space (c : Z) : bool := (c =? 32) || between 9 13 c.
Definition is_alpha (c : Z) : bool := between 97 122 c || between 65 90 c.
Definition is_digit (c : Z) : bool := between 48 57 c.
Definition is_alnum (c : Z) : bool := is_alpha c || is_digit c.
Definition is_xdigit (c : Z) : bool := between 48 57 c || between 97 102 c || between 65 70 c.
Definition is_graph (c : Z) : bool := between 33 126 c.

(** Code points allowed in string literals. *)
Definition is_valid_char (cp : Z) : bool := negb (cp =? 0).

(** ** Strings

    A string is the list of its bytes, without the terminating zero. *)

(** The string in a buffer: up to the next zero. *)
Fixpoint cstr (bytes : list Z) : list Z :=
  match bytes with
  | [] => []
  | b :: bytes => if b =? 0 then [] else b :: cstr bytes
  end.

(** [snprintf(buffer, size, "%s", str)]: the length of the whole string, and
    the buffer. *)
Definition snprintf_s (buffer : list Z) (size : Z) (str : list Z) : Z * list Z :=
  (Z.of_nat (length str),
   if size =? 0 then buffer
   else let w := take (Z.to_nat size - 1) str ++ [0] in w ++ drop (length w) buffer).

(** ** Numbers *)

Definition UINT32_MAX : Z := 2 ^ 32 - 1.
Definition UINT64_MAX : Z := 2 ^ 64 - 1.

(** [(unsigned char) (s[i] - '0')]. *)
Definition dec_digit (c : Z) : Z := u8 (c - 48).

(** The loop, with the index where it stops and the bytes left. *)
Fixpoint parse_dec_loop (max : Z) (s : list Z) (len i : nat) (value : Z) : nat * list Z * Z :=
  match s, len with
  | c :: s', S len' =>
      if (dec_digit c <? 10) && (value <=? max / 10) && (value * 10 <=? max - dec_digit c)
      then parse_dec_loop max s' len' (S i) (value * 10 + (c - 48))
      else (i, s, value)
  | _, _ => (i, s, value)
  end.

(** The returned count, and [*out]. *)
Definition parse_dec_to (max : Z) (s : list Z) (len : nat) : Z * Z :=
  let '(i, rest, value) := parse_dec_loop max s len 0 0 in
  (if Nat.leb len i || (dec_digit (default 0 (rest !! 0%nat)) >=? 10) then Z.of_nat i else -1, value).

Definition digits__ : list Z :=
  [0xff; 0xff; 0xff; 0xff; 0xff; 0xff; 0xff; 0xff; 0xff; 0xff; 0xff; 0xff; 0xff; 0xff; 0xff; 0xff;
   0xff; 0xff; 0xff; 0xff; 0xff; 0xff; 0xff; 0xff; 0xff; 0xff; 0xff; 0xff; 0xff; 0xff; 0xff; 0xff;
   0xff; 0xff; 0xff; 0xff; 0xff; 0xff; 0xff; 0xff; 0xff; 0xff; 0xff; 0xff; 0xff; 0xff; 0xff; 0xff;
   0; 1; 2; 3; 4; 5; 6; 7; 8; 9; 0xff; 0xff; 0xff; 0xff; 0xff; 0xff;
   0xff; 10; 11; 12; 13; 14; 15; 0xff; 0xff; 0xff; 0xff; 0xff; 0xff; 0xff; 0xff; 0xff;
   0xff; 0xff; 0xff; 0xff; 0xff; 0xff; 0xff; 0xff; 0xff; 0xff; 0xff; 0xff; 0xff; 0xff; 0xff; 0xff;
   0xff; 10; 11; 12; 13; 14; 15; 0xff; 0xff; 0xff; 0xff; 0xff; 0xff; 0xff; 0xff; 0xff;
   0xff; 0xff; 0xff; 0xff; 0xff; 0xff; 0xff; 0xff; 0xff; 0xff; 0xff; 0xff; 0xff; 0xff; 0xff; 0xff;
   0xff; 0xff; 0xff; 0xff; 0xff; 0xff; 0xff; 0xff; 0xff; 0xff; 0xff; 0xff; 0xff; 0xff; 0xff; 0xff;
   0xff; 0xff; 0xff; 0xff; 0xff; 0xff; 0xff; 0xff; 0xff; 0xff; 0xff; 0xff; 0xff; 0xff; 0xff; 0xff;
   0xff; 0xff; 0xff; 0xff; 0xff; 0xff; 0xff; 0xff; 0xff; 0xff; 0xff; 0xff; 0xff; 0xff; 0xff; 0xff;
   0xff; 0xff; 0xff; 0xff; 0xff; 0xff; 0xff; 0xff; 0xff; 0xff; 0xff; 0xff; 0xff; 0xff; 0xff; 0xff;
   0xff; 0xff; 0xff; 0xff; 0xff; 0xff; 0xff; 0xff; 0xff; 0xff; 0xff; 0xff; 0xff; 0xff; 0xff; 0xff;
   0xff; 0xff; 0xff; 0xff; 0xff; 0xff; 0xff; 0xff; 0xff; 0xff; 0xff; 0xff; 0xff; 0xff; 0xff; 0xff;
   0xff; 0xff; 0xff; 0xff; 0xff; 0xff; 0xff; 0xff; 0xff; 0xff; 0xff; 0xff; 0xff; 0xff; 0xff; 0xff;
   0xff; 0xff; 0xff; 0xff; 0xff; 0xff; 0xff; 0xff; 0xff; 0xff; 0xff; 0xff; 0xff; 0xff; 0xff; 0xff].

Definition hex_digit (c : Z) : Z := digits__ !!! Z.to_nat c.

Fixpoint parse_hex_loop (max : Z) (s : list Z) (len i : nat) (value : Z) : nat * list Z * Z :=
  match s, len with
  | c :: s', S len' =>
      if (hex_digit c <? 16) && (value <=? Z.shiftr max 4)
      then parse_hex_loop max s' len' (S i) (value * 16 + hex_digit c)
      else (i, s, value)
  | _, _ => (i, s, value)
  end.

Definition parse_hex_to (max : Z) (s : list Z) (len : nat) : Z * Z :=
  let '(i, rest, value) := parse_hex_loop max s len 0 0 in
  (if Nat.leb len i || negb (is_xdigit (default 0 (rest !! 0%nat))) then Z.of_nat i else -1, value).

Definition parse_dec_to_uint32_t := parse_dec_to UINT32_MAX.
Definition parse_dec_to_uint64_t := parse_dec_to UINT64_MAX.
Definition parse_hex_to_uint32_t := parse_hex_to UINT32_MAX.
Definition parse_hex_to_uint64_t := parse_hex_to UINT64_MAX.

(** ** Specification

    The digits at the start of the buffer, and their value in a base. *)

Fixpoint prefix_of_class (f : Z -> bool) (s : list Z) (len : nat) : list Z :=
  match s, len with
  | c :: s, S len => if f c then c :: prefix_of_class f s len else []
  | _, _ => []
  end.

Definition value_in (base : Z) (digit : Z -> Z) (ds : list Z) (v : Z) : Z :=
  foldl (fun v c => v * base + digit c) v ds.

Definition is_char (c : Z) : Prop := 0 <= c < 256.

Lemma value_in_ge base digit ds v :
  1 <= base -> 0 <= v -> Forall (fun c => 0 <= digit c) ds -> v <= value_in base digit ds v.
Proof.
  intros Hb. revert v. induction ds as [|c ds IH]; intros v Hv Hd; cbn; [lia|].
  apply Forall_cons_1 in Hd as [Hc Hd]. transitivity (v * base + digit c); [nia|]. apply IH; [nia|done].
Qed.

(** [i] digits were read; an overflow is met with a digit left. *)
Definition parsed (base : Z) (digit : Z -> Z) (isd : Z -> bool) (max : Z) (s : list Z) (len : nat)
    (r : Z * Z) : Prop :=
  let ds := prefix_of_class isd s len in
  if value_in base digit ds 0 <=? max then r = (Z.of_nat (length ds), value_in base digit ds 0)
  else fst r = -1 /\ 0 <= snd r <= max.

Section loops.
Context (base : Z) (digit : Z -> Z) (isd : Z -> bool) (max : Z).
Context (loop : list Z -> nat -> nat -> Z -> nat * list Z * Z).
Hypothesis (Hbase : 2 <= base) (Hmax : 0 <= max).
Hypothesis Hzero : isd 0 = false.
Hypothesis Hdigit : forall c, is_char c -> isd c = true -> 0 <= digit c.
(** A turn of the loop: a digit that fits is read. *)
Hypothesis Hstep : forall s len i v, 0 <= v <= max -> Forall is_char s ->
  loop s len i v =
    match s, len with
    | c :: s', S len' =>
        if isd c && (v * base + digit c <=? max) then loop s' len' (S i) (v * base + digit c)
        else (i, s, v)
    | _, _ => (i, s, v)
    end.

Lemma loop_spec s : forall len i v, Forall is_char s -> 0 <= v <= max ->
  let ds := prefix_of_class isd s len in
  let '(i', rest, v') := loop s len i v in
  is_char (default 0 (rest !! 0%nat)) /\ (i <= i' <= i + len)%nat /\ 0 <= v' <= max /\
  if value_in base digit ds v <=? max
  then i' = (i + length ds)%nat /\ v' = value_in base digit ds v /\
       ((i' < i + len)%nat -> isd (default 0 (rest !! 0%nat)) = false)
  else (i' < i + len)%nat /\ isd (default 0 (rest !! 0%nat)) = true.
Proof using Hbase Hmax Hdigit Hzero Hstep.
  induction s as [|c s IH]; intros len i v Hs Hv ds.
  { rewrite Hstep by done. unfold ds. cbn. rewrite (proj2 (Z.leb_le v max)) by lia.
    split; [done|]. split; [lia|]. split; [done|]. split; [lia|done]. }
  pose proof Hs as Hs'. apply Forall_cons_1 in Hs' as [Hc Hs']. rewrite Hstep by done. unfold ds.
  destruct len as [|len].
  { cbn. rewrite (proj2 (Z.leb_le v max)) by lia. split; [done|]. split; [lia|]. split; [done|]. split; [lia|]. split; [done|lia]. }
  cbn [prefix_of_class]. destruct (isd c) eqn:Hd; cbn [andb].
  - pose proof (Hdigit c Hc Hd) as Hd0. cbn [value_in foldl].
    fold (value_in base digit (prefix_of_class isd s len) (v * base + digit c)).
    destruct (Z.leb_spec (v * base + digit c) max) as [Hle|Hgt].
    + specialize (IH len (S i) (v * base + digit c) Hs' ltac:(nia)). cbn zeta in IH.
      destruct (loop s len (S i) (v * base + digit c)) as [[i' rest] v'].
      destruct IH as (Hch & Hi & Hv' & IH). split; [done|]. split; [lia|]. split; [done|].
      destruct (value_in _ _ _ _ <=? max).
      * destruct IH as (-> & -> & Hrest). split; [cbn [length]; lia|]. split; [done|]. intros Hlt. apply Hrest. lia.
      * destruct IH as (Hlt & Hrest). split; [lia|done].
    + split; [done|]. split; [lia|]. split; [done|].
      assert (Forall (fun c => 0 <= digit c) (prefix_of_class isd s len)) as Hall.
      { clear -Hs' Hdigit. revert len. induction s as [|c s IH]; intros [|len]; cbn; try apply Forall_nil_2.
        apply Forall_cons_1 in Hs' as [Hc Hs]. destruct (isd c) eqn:E; [|apply Forall_nil_2].
        apply Forall_cons_2; [by apply Hdigit|by apply IH]. }
      pose proof (value_in_ge base digit _ (v * base + digit c) ltac:(lia) ltac:(nia) Hall).
      rewrite (proj2 (Z.leb_gt _ _)) by lia. split; [lia|done].
  - split; [done|]. split; [lia|]. split; [done|]. cbn [value_in foldl]. rewrite (proj2 (Z.leb_le v max)) by lia.
    split; [cbn; lia|]. split; done.
Qed.
End loops.

Lemma dec_digit_char c : is_char c -> (dec_digit c <? 10) = is_digit c /\ (is_digit c = true -> dec_digit c = c - 48).
Proof.
  intros Hc. unfold dec_digit, is_digit, between, u8, is_char in *.
  destruct (Z.geb_spec c 48), (Z.leb_spec c 57); cbn [andb];
    first [rewrite Z.mod_small by lia; split; [lia|done] | split; [|done]; apply Z.ltb_ge].
  all: try (rewrite Z.mod_small by lia; lia).
  all: replace (c - 48) with (c + 208 + -1 * 2 ^ 8) by lia; rewrite Z.mod_add, Z.mod_small by lia; lia.
Qed.

Definition hex_value (c : Z) : Z :=
  if between 48 57 c then c - 48 else if between 97 102 c then c - 87 else if between 65 70 c then c - 55 else 255.

(** The table holds the values of the hexadecimal digits. *)
Lemma hex_digit_value c : is_char c -> hex_digit c = hex_value c.
Proof.
  intros Hc. assert (forallb (fun n => hex_digit (Z.of_nat n) =? hex_value (Z.of_nat n)) (seq 0 256) = true) as H
    by (vm_compute; reflexivity).
  rewrite forallb_forall in H. specialize (H (Z.to_nat c)). rewrite Z2Nat.id in H by (unfold is_char in Hc; lia).
  apply Z.eqb_eq, H, in_seq. unfold is_char in Hc. lia.
Qed.

Lemma parse_dec_loop_step max s len i v : 0 <= max -> 0 <= v <= max -> Forall is_char s ->
  parse_dec_loop max s len i v =
    match s, len with
    | c :: s', S len' =>
        if is_digit c && (v * 10 + dec_digit c <=? max) then parse_dec_loop max s' len' (S i) (v * 10 + dec_digit c)
        else (i, s, v)
    | _, _ => (i, s, v)
    end.
Proof.
  intros Hm Hv Hs. destruct s as [|c s], len as [|len]; cbn [parse_dec_loop]; try done.
  apply Forall_cons_1 in Hs as [Hc _]. destruct (dec_digit_char c Hc) as [-> Hd].
  destruct (is_digit c); [|done]. rewrite <- Hd by done. cbn [andb].
  assert (0 <= dec_digit c) by apply Z.mod_pos_bound, eq_refl.
  replace ((v <=? max / 10) && (v * 10 <=? max - dec_digit c)) with (v * 10 + dec_digit c <=? max); [done|].
  pose proof (Z.div_mod max 10). pose proof (Z.mod_pos_bound max 10). lia.
Qed.

Lemma hex_class c : is_char c -> (hex_digit c <? 16) = is_xdigit c /\ (is_xdigit c = true -> 0 <= hex_digit c < 16).
Proof.
  intros Hc. rewrite hex_digit_value by done. unfold hex_value, is_xdigit, between, is_char in *.
  destruct (Z.geb_spec c 48), (Z.leb_spec c 57), (Z.geb_spec c 97), (Z.leb_spec c 102), (Z.geb_spec c 65), (Z.leb_spec c 70);
    cbn [andb orb]; split; try done; lia.
Qed.

Lemma parse_hex_loop_step max s len i v : max mod 16 = 15 -> 0 <= v <= max -> Forall is_char s ->
  parse_hex_loop max s len i v =
    match s, len with
    | c :: s', S len' =>
        if is_xdigit c && (v * 16 + hex_digit c <=? max) then parse_hex_loop max s' len' (S i) (v * 16 + hex_digit c)
        else (i, s, v)
    | _, _ => (i, s, v)
    end.
Proof.
  intros Hm Hv Hs. destruct s as [|c s], len as [|len]; cbn [parse_hex_loop]; try done.
  apply Forall_cons_1 in Hs as [Hc _]. destruct (hex_class c Hc) as [-> Hd].
  destruct (is_xdigit c); [|done]. specialize (Hd eq_refl). cbn [andb].
  replace (v <=? Z.shiftr max 4) with (v * 16 + hex_digit c <=? max); [done|].
  rewrite Z.shiftr_div_pow2 by lia. change (2 ^ 4) with 16. pose proof (Z.div_mod max 16). lia.
Qed.

Lemma prefix_le isd s : forall len, (length (prefix_of_class isd s len) <= len)%nat.
Proof. induction s as [|c s IH]; intros [|len]; cbn; try lia. destruct (isd c); cbn; [specialize (IH len)|]; lia. Qed.

Lemma parsed_intro base digit isd max s len i (rest : list Z) v (stop : Z -> bool) :
  (forall c, is_char c -> stop c = negb (isd c)) ->
  is_char (default 0 (rest !! 0%nat)) -> 0 <= v <= max -> (0 <= i <= 0 + len)%nat ->
  (if value_in base digit (prefix_of_class isd s len) 0 <=? max
   then i = (0 + length (prefix_of_class isd s len))%nat /\ v = value_in base digit (prefix_of_class isd s len) 0 /\
        ((i < 0 + len)%nat -> isd (default 0 (rest !! 0%nat)) = false)
   else (i < 0 + len)%nat /\ isd (default 0 (rest !! 0%nat)) = true) ->
  parsed base digit isd max s len
    (if Nat.leb len i || stop (default 0 (rest !! 0%nat)) then Z.of_nat i else -1, v).
Proof.
  intros Hstop Hc Hv Hi H. unfold parsed. destruct (value_in _ _ _ 0 <=? max).
  - destruct H as (-> & -> & H). cbn [Nat.add] in *. f_equal. rewrite Hstop by done.
    destruct (Nat.leb_spec len (length (prefix_of_class isd s len))) as [|Hlt]; [done|]. by rewrite H.
  - destruct H as (Hlt & H). rewrite (proj2 (Nat.leb_gt _ _)), Hstop, H by (done || lia). done.
Qed.

(** The decimal parser reads the digits at the start of the buffer, up to
    [len] bytes: it returns their number and their value, or -1 when the value
    does not fit the type. *)
Theorem parse_dec_spec (max : Z) (s : list Z) (len : nat) :
  0 <= max -> Forall is_char s -> parsed 10 dec_digit is_digit max s len (parse_dec_to max s len).
Proof.
  intros Hm Hs. unfold parse_dec_to.
  pose proof (loop_spec 10 dec_digit is_digit max (parse_dec_loop max) ltac:(lia) Hm eq_refl
    ltac:(intros c _ _; apply Z.mod_pos_bound, eq_refl)
    ltac:(intros; by apply parse_dec_loop_step) s len O 0 Hs ltac:(lia)) as H.
  destruct (parse_dec_loop max s len 0 0) as [[i rest] v]. destruct H as (Hc & Hi & Hv & H).
  apply (parsed_intro 10 dec_digit is_digit max s len i rest v (fun c => dec_digit c >=? 10)); try done.
  intros c Hc'. destruct (dec_digit_char c Hc') as [<- _]. rewrite Z.geb_leb. apply Z.leb_antisym.
Qed.

Theorem parse_hex_spec (max : Z) (s : list Z) (len : nat) :
  0 <= max -> max mod 16 = 15 -> Forall is_char s ->
  parsed 16 hex_digit is_xdigit max s len (parse_hex_to max s len).
Proof.
  intros Hm Hmod Hs. unfold parse_hex_to.
  pose proof (loop_spec 16 hex_digit is_xdigit max (parse_hex_loop max) ltac:(lia) Hm eq_refl
    ltac:(intros c Hc Hd; by apply (hex_class c Hc))
    ltac:(intros; by apply parse_hex_loop_step) s len O 0 Hs ltac:(lia)) as H.
  destruct (parse_hex_loop max s len 0 0) as [[i rest] v]. destruct H as (Hc & Hi & Hv & H).
  by apply (parsed_intro 16 hex_digit is_xdigit max s len i rest v (fun c => negb (is_xdigit c))).
Qed.

Lemma parse_dec_spec_witness :
  parsed 10 dec_digit is_digit UINT32_MAX [52; 50; 65] 3 (parse_dec_to UINT32_MAX [52; 50; 65] 3).
Proof.
  apply (parse_dec_spec UINT32_MAX [52; 50; 65] 3); [discriminate|].
  repeat constructor; discriminate.
Defined.

(** ** Constant arrays

    A large constant array of the source is a list, entry for entry; the map
    built from it has its entries by index, so that the definitions that
    index it evaluate in a few steps. *)

Definition array (A : Type) : Type := Pmap A.

(** The map from [i] on; the index [i] is the key [i + 1]. *)
Fixpoint fill {A} (l : list A) (key : positive) (m : array A) : array A :=
  match l with
  | [] => m
  | x :: l => fill l (Pos.succ key) (<[key := x]> m)
  end.

Definition array_of {A} (l : list A) : array A := fill l 1%positive ∅.

Definition array_get {A} (a : array A) (i : Z) : option A :=
  match i with
  | Z0 => a !! 1%positive
  | Zpos p => a !! Pos.succ p
  | Zneg _ => None
  end.

Lemma fill_lookup {A} (l : list A) : forall k m j,
  fill l k m !! j =
    if decide (k ≤ j < k + Pos.of_nat (S (length l)))%positive
    then match l !! (Pos.to_nat j - Pos.to_nat k)%nat with Some x => Some x | None => m !! j end
    else m !! j.
Proof.
  induction l as [|x l IH]; intros k m j; cbn [fill]; [by destruct (decide _)|].
  rewrite IH. clear IH. cbn [length]. destruct (decide (j = k)) as [->|Hne].
  - rewrite decide_False by lia. rewrite lookup_insert_eq, decide_True by lia.
    by replace (Pos.to_nat k - Pos.to_nat k)%nat with O by lia.
  - rewrite lookup_insert_ne by done. destruct (decide (k ≤ j < k + Pos.of_nat (S (S (length l))))%positive).
    + rewrite decide_True by lia.
      by replace (Pos.to_nat j - Pos.to_nat k)%nat with (S (Pos.to_nat j - Pos.to_nat (Pos.succ k))) by lia.
    + by rewrite decide_False by lia.
Qed.

(** The map has the entries of the list. *)
Lemma array_get_of {A} (l : list A) i : 0 <= i -> array_get (array_of l) i = l !! Z.to_nat i.
Proof.
  intros Hi. assert (array_get (array_of l) i = array_of l !! Z.to_pos (i + 1)) as ->.
  { destruct i as [|p|p]; [done| |lia]. cbn [array_get]. f_equal. lia. }
  unfold array_of. rewrite fill_lookup. destruct (decide _) as [Hd|Hd].
  - replace (Pos.to_nat (Z.to_pos (i + 1)) - Pos.to_nat 1)%nat with (Z.to_nat i) by lia.
    by destruct (l !! Z.to_nat i).
  - rewrite lookup_empty. symmetry. apply lookup_ge_None_2. lia.
Qed.
