(* ===== verification/Atom.v ===== *)
(** * Atoms (src/atom.c)

    The interning of strings: an insert-only hash table with linear probing
    from strings to atoms, and an array from atoms to strings.  Strings are
    lists of bytes without their terminating zero; the array begins with the
    null pointer, for [XKB_ATOM_NONE] (0).  Allocations succeed, and the sizes stay
    below the range of their types. *)

From Stdlib Require Import ZArith Lia.
From stdpp Require Import base tactics list numbers.
From S2P Require Import Prelude.

(** The bytes from both ends. *)
Fixpoint hash_loop (fuel : nat) (string : list Z) (len i : nat) (hash : Z) : Z :=
  match fuel with
  | O => hash
  | S fuel =>
      let hash := u32 (Z.lxor hash (string !!! i) * 0x01000193) in
      let hash := u32 (Z.lxor hash (string !!! (len - 1 - i)%nat) * 0x01000193) in
      hash_loop fuel string len (S i) hash
  end.

Definition hash_buf (string : list Z) (len : nat) : Z :=
  hash_loop ((len + 1) / 2) string len 0 2166136261.

Record atom_table := mk_atom_table {
  at_index : list nat;
  at_strings : list (option (list Z))
}.

Definition index_size (t : atom_table) : nat := length (at_index t).

Definition atom_table_new : atom_table := mk_atom_table (replicate 4 0%nat) [None].

Definition atom_table_size (t : atom_table) : nat := length (at_strings t).

Definition atom_text (t : atom_table) (atom : nat) : result (option (list Z)) :=
  match at_strings t !! atom with
  | Some s => Ok s
  | None => Fault FaultAssert
  end.

(** [(hash + i) & (index_size - 1)]. *)
Definition index_pos (size : nat) (hash : Z) (i : nat) : nat :=
  Z.to_nat (Z.land (hash + Z.of_nat i) (Z.of_nat size - 1)).

(** The first empty slot takes the atom [j]. *)
Fixpoint place_atom (fuel : nat) (index : list nat) (hash : Z) (i j : nat) : result (list nat) :=
  match fuel with
  | O => Ok index
  | S fuel =>
      let pos := index_pos (length index) hash i in
      if Nat.eqb pos 0 then place_atom fuel index hash (S i) j
      else match index !! pos with
      | None => Fault FaultOutOfBounds
      | Some atom =>
          if Nat.eqb atom 0 then Ok (<[pos := j]> index)
          else place_atom fuel index hash (S i) j
      end
  end.

Fixpoint rehash (strings : list (option (list Z))) (j : nat) (index : list nat) : result (list nat) :=
  match strings with
  | [] => Ok index
  | None :: _ => Fault FaultNull
  | Some s :: strings =>
      match place_atom (length index) index (hash_buf s (length s)) 0 j with
      | Ok index => rehash strings (S j) index
      | Fault f => Fault f
      end
  end.

Definition grow (t : atom_table) : result atom_table :=
  if Nat.ltb (index_size t / 5 * 4) (length (at_strings t)) then
    match rehash (drop 1 (at_strings t)) 1 (replicate (index_size t * 2) 0%nat) with
    | Ok index => Ok (mk_atom_table index (at_strings t))
    | Fault f => Fault f
    end
  else Ok t.

(** [strncmp(existing, string, len) == 0 && existing[len] == 0]: both stop at
    a zero; the last access may be out of the string. *)
Fixpoint strncmp_eq (s1 s2 : list Z) (n : nat) : bool :=
  match n with
  | O => true
  | S n =>
      let c1 := default 0 (s1 !! 0%nat) in
      let c2 := default 0 (s2 !! 0%nat) in
      if c1 =? c2 then (c1 =? 0) || strncmp_eq (drop 1 s1) (drop 1 s2) n else false
  end.

Definition same_value (existing string : list Z) (len : nat) : result bool :=
  if strncmp_eq existing string len then
    if Nat.ltb (length existing) len then Fault FaultOutOfBounds
    else Ok (Nat.eqb len (length existing))
  else Ok false.

(** [strndup]. *)
Fixpoint strndup (string : list Z) (n : nat) : list Z :=
  match n, string with
  | S n, b :: string => if b =? 0 then [] else b :: strndup string n
  | _, _ => []
  end.

Fixpoint probe (fuel : nat) (t : atom_table) (string : list Z) (len : nat) (add : bool)
    (hash : Z) (i : nat) : result (nat * atom_table) :=
  match fuel with
  | O => Fault FaultAssert
  | S fuel =>
      let pos := index_pos (index_size t) hash i in
      if Nat.eqb pos 0 then probe fuel t string len add hash (S i)
      else match at_index t !! pos with
      | None => Fault FaultOutOfBounds
      | Some existing_atom =>
          if Nat.eqb existing_atom 0 then
            if add then
              let new_atom := length (at_strings t) in
              Ok (new_atom, mk_atom_table (<[pos := new_atom]> (at_index t))
                              (at_strings t ++ [Some (strndup string len)]))
            else Ok (O, t)
          else match at_strings t !! existing_atom with
          | None => Fault FaultOutOfBounds
          | Some None => Fault FaultNull
          | Some (Some existing_value) =>
              match same_value existing_value string len with
              | Fault f => Fault f
              | Ok true => Ok (existing_atom, t)
              | Ok false => probe fuel t string len add hash (S i)
              end
          end
      end
  end.

Definition atom_intern (t : atom_table) (string : list Z) (len : nat) (add : bool)
    : result (nat * atom_table) :=
  match grow t with
  | Fault f => Fault f
  | Ok t => probe (index_size t) t string len add (hash_buf string len) 0
  end.
