(* ===== verification/AtomSpec.v ===== *)
(** * Atoms: the table implements a list of distinct strings

    [atom_intern] gives a string the position of the string in the list of
    the strings interned so far, and adds it at the end when asked to; probing
    always finds an empty slot. *)

From Stdlib Require Import ZArith Lia.
From stdpp Require Import base tactics list numbers.
From S2P Require Import Prelude Atom.

Definition hash_of (s : list Z) : Z := hash_buf s (length s).

Definition no_nul (s : list Z) : Prop := Forall (fun b => b <> 0) s.

(** Probing from the hash of [s] meets the atom [j] before an empty slot. *)
Definition occupied (index : list nat) (pos : nat) : Prop :=
  pos = O \/ exists a, index !! pos = Some a /\ a <> O.

Definition reaches (index : list nat) (hash : Z) (j : nat) : Prop :=
  exists i, (i < length index)%nat /\ index_pos (length index) hash i <> O /\
    index !! index_pos (length index) hash i = Some j /\
    forall i', (i' < i)%nat -> occupied index (index_pos (length index) hash i').

(** The index of the strings [ss], whose atoms are their positions from 1. *)
Record index_ok (index : list nat) (ss : list (list Z)) : Prop := {
  io_size : exists k, length index = (2 ^ k)%nat;
  io_atom : forall pos a, index !! pos = Some a -> a <> O -> (a <= length ss)%nat;
  io_inj : forall p q a, index !! p = Some a -> index !! q = Some a -> a <> O -> p = q;
  io_reach : forall j s, ss !! j = Some s -> reaches index (hash_of s) (S j)
}.

Record atoms_ok (t : atom_table) (ss : list (list Z)) : Prop := {
  ao_strings : at_strings t = None :: (Some <$> ss);
  ao_nodup : NoDup ss;
  ao_nul : Forall no_nul ss;
  ao_index : index_ok (at_index t) ss;
  ao_load : (S (length ss) <= index_size t / 5 * 4 + 1)%nat;
  ao_four : (4 <= index_size t)%nat
}.

(** ** Hashes and positions *)

Lemma hash_loop_range fuel s len : forall i h, is_u32 h -> is_u32 (hash_loop fuel s len i h).
Proof. induction fuel as [|fuel IH]; intros i h Hh; [done|]. apply IH, u32_range. Qed.

Lemma hash_range s len : 0 <= hash_buf s len.
Proof. apply hash_loop_range. unfold is_u32. lia. Qed.

Lemma index_pos_mod k h i :
  0 <= h -> index_pos (2 ^ k) h i = Z.to_nat ((h + Z.of_nat i) mod 2 ^ Z.of_nat k).
Proof.
  intros Hh. unfold index_pos. f_equal. rewrite Nat2Z.inj_pow.
  replace (Z.of_nat 2 ^ Z.of_nat k - 1) with (Z.ones (Z.of_nat k)) by (rewrite Z.ones_equiv; lia).
  apply Z.land_ones. lia.
Qed.

Lemma index_pos_lt k h i : 0 <= h -> (index_pos (2 ^ k) h i < 2 ^ k)%nat.
Proof.
  intros Hh. rewrite index_pos_mod by done. pose proof (Z.mod_pos_bound (h + Z.of_nat i) (2 ^ Z.of_nat k)).
  apply Nat2Z.inj_lt. rewrite Nat2Z.inj_pow, Z2Nat.id by lia. lia.
Qed.

Lemma index_pos_surj k h p : 0 <= h -> (p < 2 ^ k)%nat -> exists i, (i < 2 ^ k)%nat /\ index_pos (2 ^ k) h i = p.
Proof.
  intros Hh Hp. assert (0 < 2 ^ Z.of_nat k) as Hk by lia.
  assert (Z.of_nat p < 2 ^ Z.of_nat k) as Hp' by (apply Nat2Z.inj_lt in Hp; rewrite Nat2Z.inj_pow in Hp; lia).
  pose proof (Z.mod_pos_bound (Z.of_nat p - h) _ Hk) as Hb.
  exists (Z.to_nat ((Z.of_nat p - h) mod 2 ^ Z.of_nat k)). split.
  - apply Nat2Z.inj_lt. rewrite Nat2Z.inj_pow, Z2Nat.id by lia. lia.
  - rewrite index_pos_mod, Z2Nat.id by lia. rewrite Z.add_mod_idemp_r by lia.
    replace (h + (Z.of_nat p - h)) with (Z.of_nat p) by lia. rewrite Z.mod_small by lia. lia.
Qed.

(** ** Empty slots *)

Lemma free_slot index ss : index_ok index ss -> (S (length ss) < length index)%nat ->
  exists p, p <> O /\ index !! p = Some O.
Proof.
  intros H Hlen. destruct (decide (Exists (fun a => a = O) (drop 1 index))) as [He|He].
  - apply list.Exists_exists in He as (a & Ha & ->). apply list_elem_of_lookup in Ha as [p Hp].
    rewrite lookup_drop in Hp. exists (1 + p)%nat. done.
  - rewrite <- Forall_Exists_neg, Forall_lookup in He. exfalso.
    enough (length (drop 1 index) <= length (seq 1 (length ss)))%nat as Hle.
    { rewrite length_drop, length_seq in Hle. lia. }
    apply submseteq_length, NoDup_submseteq.
    + apply NoDup_alt. intros i j a Hi Hj. pose proof (He i a Hi). rewrite lookup_drop in Hi, Hj.
      pose proof (io_inj _ _ H _ _ _ Hi Hj). lia.
    + intros a Ha. apply list_elem_of_lookup in Ha as [p Hp]. pose proof (He p a Hp) as Hn.
      rewrite lookup_drop in Hp. apply elem_of_seq. pose proof (io_atom _ _ H _ _ Hp Hn). lia.
Qed.

(** The first empty slot from a hash. *)
Lemma first_free index ss h : index_ok index ss -> (S (length ss) < length index)%nat -> 0 <= h ->
  exists i, (i < length index)%nat /\ index_pos (length index) h i <> O /\
    index !! index_pos (length index) h i = Some O /\
    forall i', (i' < i)%nat -> occupied index (index_pos (length index) h i').
Proof.
  intros H Hlen Hh. destruct (free_slot _ _ H Hlen) as (p & Hp & Hfree). destruct (io_size _ _ H) as [k Hk].
  destruct (index_pos_surj k h p Hh) as (n & Hn & Hpos).
  { rewrite <- Hk. by eapply lookup_lt_Some. }
  rewrite <- Hk in *.
  assert (forall m, (m <= length index)%nat ->
    (exists i, (i < m)%nat /\ index_pos (length index) h i <> O /\
      index !! index_pos (length index) h i = Some O /\
      forall i', (i' < i)%nat -> occupied index (index_pos (length index) h i')) \/
    (forall i', (i' < m)%nat -> occupied index (index_pos (length index) h i'))) as Hsearch.
  { induction m as [|m IH]; intros Hm; [right; lia|].
    destruct IH as [(i & Hi & Hrest)|Hocc]; [lia|left; exists i; split; [lia|done]|].
    pose proof (index_pos_lt k h m Hh) as Hlt. rewrite <- Hk in Hlt.
    destruct (lookup_lt_is_Some_2 index _ Hlt) as [a Ha].
    destruct (decide (index_pos (length index) h m = O)) as [E|E];
      [right; intros i' Hi'; destruct (decide (i' = m)) as [->|]; [by left|apply Hocc; lia]|].
    destruct (decide (a = O)) as [->|Ha0]; [left; exists m; split; [lia|done]|].
    right. intros i' Hi'. destruct (decide (i' = m)) as [->|]; [right; by exists a|apply Hocc; lia]. }
  destruct (Hsearch (length index)) as [(i & Hi)|Hocc]; [done|by exists i|].
  destruct (Hocc n Hn) as [E|(a & Ha & Ha0)]; congruence.
Qed.

(** ** Placing an atom *)

Lemma place_atom_at index h j n : (n < length index)%nat ->
  index_pos (length index) h n <> O -> index !! index_pos (length index) h n = Some O ->
  (forall i', (i' < n)%nat -> occupied index (index_pos (length index) h i')) ->
  forall fuel i, (i <= n)%nat -> (n < i + fuel)%nat ->
  place_atom fuel index h i j = Ok (<[index_pos (length index) h n := j]> index).
Proof.
  intros Hn Hp Hfree Hocc fuel. induction fuel as [|fuel IH]; intros i Hi Hf; [lia|]. cbn [place_atom].
  destruct (decide (i = n)) as [->|Hne].
  - by rewrite (proj2 (Nat.eqb_neq _ _) Hp), Hfree.
  - destruct (Hocc i) as [->|(a & Ha & Ha0)]; [lia|by apply IH; lia|].
    destruct (Nat.eqb _ 0); [apply IH; lia|]. rewrite Ha, (proj2 (Nat.eqb_neq _ _) Ha0). apply IH; lia.
Qed.

Lemma occupied_insert index p j q : j <> O -> occupied index q -> occupied (<[p := j]> index) q.
Proof.
  intros Hj [->|(a & Ha & Ha0)]; [by left|]. right. pose proof (lookup_lt_Some _ _ _ Ha).
  destruct (decide (p = q)) as [->|]; [exists j; by rewrite list_lookup_insert_eq|].
  exists a. by rewrite list_lookup_insert_ne.
Qed.

(** The next string in the first empty slot. *)
Lemma index_ok_insert index ss s n : index_ok index ss ->
  let pos := index_pos (length index) (hash_of s) n in
  (n < length index)%nat -> pos <> O -> index !! pos = Some O ->
  (forall i', (i' < n)%nat -> occupied index (index_pos (length index) (hash_of s) i')) ->
  index_ok (<[pos := S (length ss)]> index) (ss ++ [s]).
Proof.
  intros H pos Hn Hp Hfree Hocc. pose proof (lookup_lt_Some _ _ _ Hfree) as Hlt.
  assert (forall q a, <[pos := S (length ss)]> index !! q = Some a ->
    (q = pos /\ a = S (length ss)) \/ (q <> pos /\ index !! q = Some a)) as Hcase.
  { intros q a Hq. destruct (decide (q = pos)) as [->|Hne].
    - rewrite list_lookup_insert_eq in Hq by done. left. split; congruence.
    - rewrite list_lookup_insert_ne in Hq by done. by right. }
  split.
  - rewrite length_insert. apply H.
  - intros q a Hq Ha. rewrite length_app. cbn. destruct (Hcase q a Hq) as [[_ ->]|[_ Hq']]; [lia|].
    pose proof (io_atom _ _ H _ _ Hq' Ha). lia.
  - intros p q a Hp' Hq Ha. destruct (Hcase p a Hp') as [[-> ->]|[Hn1 Hp1]];
      destruct (Hcase q _ Hq) as [[-> E]|[Hn2 Hq1]]; [done| | |].
    + pose proof (io_atom _ _ H _ _ Hq1 Ha). lia.
    + subst a. pose proof (io_atom _ _ H _ _ Hp1 Ha). lia.
    + by apply (io_inj _ _ H p q a).
  - intros j s' Hj. unfold reaches. rewrite length_insert. apply lookup_app_Some in Hj as [Hj|[Hge Hj]].
    + destruct (io_reach _ _ H j s' Hj) as (i & Hi & Hpos & Hat & Hbefore). exists i.
      split; [done|]. split; [done|]. split.
      * rewrite list_lookup_insert_ne; [done|]. intros E. rewrite <- E, Hfree in Hat. done.
      * intros i' Hi'. apply occupied_insert; [done|]. by apply Hbefore.
    + apply list_lookup_singleton_Some in Hj as [Hz <-]. exists n.
      split; [done|]. split; [done|]. split.
      * fold pos. rewrite list_lookup_insert_eq by done. f_equal. lia.
      * intros i' Hi'. apply occupied_insert; [done|]. by apply Hocc.
Qed.

Lemma index_ok_empty k : index_ok (replicate (2 ^ k) 0%nat) [].
Proof.
  split; [exists k; apply length_replicate| | |done].
  - intros pos a Ha Hne. by apply lookup_replicate in Ha as [-> _].
  - intros p q a Hp _ Hne. by apply lookup_replicate in Hp as [-> _].
Qed.

Lemma rehash_spec rest : forall index ss, index_ok index ss ->
  (S (length (ss ++ rest)) < length index)%nat ->
  exists index', rehash (Some <$> rest) (S (length ss)) index = Ok index' /\
    index_ok index' (ss ++ rest) /\ length index' = length index.
Proof.
  induction rest as [|s rest IH]; intros index ss H Hlen.
  { exists index. by rewrite app_nil_r. }
  rewrite length_app in Hlen. cbn [length] in Hlen. cbn [fmap list_fmap rehash].
  destruct (first_free index ss (hash_of s) H ltac:(lia) (hash_range _ _)) as (n & Hn & Hp & Hfree & Hocc).
  rewrite (place_atom_at index (hash_of s) (S (length ss)) n) by (done || lia).
  pose proof (index_ok_insert index ss s n H Hn Hp Hfree Hocc) as H'.
  destruct (IH _ _ H') as (index' & E & Hok & Hl).
  { rewrite length_insert, !length_app. cbn. lia. }
  exists index'. rewrite length_app, Nat.add_1_r in E. rewrite <- app_assoc in Hok.
  rewrite length_insert in Hl. done.
Qed.

(** Growing keeps the strings, and leaves an empty slot. *)
Lemma grow_spec t ss : atoms_ok t ss ->
  exists t', grow t = Ok t' /\ atoms_ok t' ss /\ (S (length ss) < index_size t')%nat /\
    (S (length ss) <= index_size t' / 5 * 4)%nat.
Proof.
  intros [Hs Hnd Hnul Hi Hload Hfour]. unfold grow. rewrite Hs. cbn [length]. rewrite length_fmap.
  change (drop 1 (None :: (Some <$> ss))) with (Some <$> ss).
  pose proof (Nat.div_mod_eq (index_size t) 5) as Hd. pose proof (Nat.mod_upper_bound (index_size t) 5 ltac:(lia)).
  destruct (Nat.ltb_spec (index_size t / 5 * 4) (S (length ss))) as [Hlt|Hge].
  - destruct (io_size _ _ Hi) as [k Hk]. unfold index_size in *.
    pose proof (Nat.div_mod_eq (length (at_index t) * 2) 5) as Hd2.
    pose proof (Nat.mod_upper_bound (length (at_index t) * 2) 5 ltac:(lia)).
    assert (length (at_index t) * 2 = 2 ^ S k)%nat as Hk2 by (rewrite Nat.pow_succ_r'; lia).
    destruct (rehash_spec ss (replicate (2 ^ S k) 0%nat) [] (index_ok_empty (S k))) as (index' & E & Hok & Hl).
    { rewrite length_replicate. cbn [app]. lia. }
    cbn [length] in E. rewrite Hk2, E. rewrite length_replicate in Hl. eexists. split; [done|]. cbn [at_index].
    unfold index_size. cbn [at_index]. rewrite Hl, <- Hk2.
    split; [|lia]. split; unfold index_size; cbn [at_index at_strings]; try done; rewrite ?Hl, <- ?Hk2; lia.
  - exists t. split; [done|]. split; [by split|]. lia.
Qed.

(** ** Comparison of strings *)

Lemma strncmp_eq_prefix s : forall existing, no_nul s -> no_nul existing ->
  strncmp_eq existing s (length s) = true <-> s `prefix_of` existing.
Proof.
  induction s as [|b s IH]; intros existing Hs He; [split; [intros _; apply prefix_nil|done]|].
  apply Forall_cons_1 in Hs as [Hb Hs]. cbn [length strncmp_eq]. destruct existing as [|c existing].
  - change (default 0 (@nil Z !! 0%nat)) with 0. change (default 0 ((b :: s) !! 0%nat)) with b.
    rewrite (proj2 (Z.eqb_neq 0 b)) by done. split; [done|]. intros [l E]. done.
  - apply Forall_cons_1 in He as [Hc He]. change (default 0 ((b :: s) !! 0%nat)) with b.
    change (default 0 ((c :: existing) !! 0%nat)) with c. cbn [drop].
    destruct (Z.eqb_spec c b) as [->|Hne].
    + rewrite (proj2 (Z.eqb_neq b 0)) by done. cbn [orb]. rewrite drop_0, drop_0, IH by done.
      split; [apply prefix_cons|apply prefix_cons_inv_2].
    + split; [done|]. intros Hp. apply prefix_cons_inv_1 in Hp. congruence.
Qed.

Lemma same_value_spec existing s : no_nul s -> no_nul existing ->
  same_value existing s (length s) = Ok (bool_decide (existing = s)).
Proof.
  intros Hs He. unfold same_value. destruct (strncmp_eq existing s (length s)) eqn:E.
  - apply strncmp_eq_prefix in E as [l ->]; [|done..]. rewrite length_app.
    rewrite (proj2 (Nat.ltb_ge _ _)) by lia. f_equal. destruct l as [|b l].
    + rewrite app_nil_r, bool_decide_true by done. apply Nat.eqb_eq. cbn. lia.
    + rewrite bool_decide_false; [apply Nat.eqb_neq; cbn; lia|]. intros E.
      apply (f_equal length) in E. rewrite length_app in E. cbn in E. lia.
  - rewrite bool_decide_false; [done|]. intros ->.
    assert (strncmp_eq s s (length s) = true) by by apply strncmp_eq_prefix. congruence.
Qed.

Lemma strndup_id s : no_nul s -> strndup s (length s) = s.
Proof.
  induction 1 as [|b s Hb _ IH]; [done|]. cbn. by rewrite (proj2 (Z.eqb_neq b 0) Hb), IH.
Qed.

(** ** Probing *)

Section probing.
Context (t : atom_table) (ss : list (list Z)) (s : list Z) (add : bool).
Hypothesis (Ht : atoms_ok t ss) (Hs : no_nul s).

Lemma lookup_string a : a <> O -> (a <= length ss)%nat ->
  exists v, ss !! (a - 1)%nat = Some v /\ at_strings t !! a = Some (Some v) /\ no_nul v.
Proof using Ht.
  intros Ha Hle. destruct (lookup_lt_is_Some_2 ss (a - 1)) as [v Hv]; [lia|]. exists v.
  split; [done|]. rewrite (ao_strings _ _ Ht). destruct a as [|a]; [done|].
  change ((None :: (Some <$> ss)) !! S a) with ((Some <$> ss) !! a). rewrite list_lookup_fmap. replace (S a - 1)%nat with a in Hv by lia. rewrite Hv. split; [done|].
  pose proof (ao_nul _ _ Ht) as Hn. rewrite Forall_lookup in Hn. by apply (Hn a).
Qed.

(** A slot on the way holds the atom of the string, or is passed. *)
Lemma probe_occupied fuel i : occupied (at_index t) (index_pos (index_size t) (hash_of s) i) ->
  (exists j, ss !! j = Some s /\ probe (S fuel) t s (length s) add (hash_of s) i = Ok (S j, t)) \/
  probe (S fuel) t s (length s) add (hash_of s) i = probe fuel t s (length s) add (hash_of s) (S i).
Proof using Ht Hs.
  intros [E|(a & Ha & Ha0)].
  { right. cbn [probe]. by rewrite E. }
  cbn [probe]. destruct (Nat.eqb _ 0); [by right|]. rewrite Ha, (proj2 (Nat.eqb_neq _ _) Ha0).
  pose proof (io_atom _ _ (ao_index _ _ Ht) _ _ Ha Ha0) as Hle.
  destruct (lookup_string a Ha0 Hle) as (v & Hv & -> & Hnv). rewrite same_value_spec by done.
  destruct (decide (v = s)) as [->|Hne].
  - left. exists (a - 1)%nat. split; [done|]. rewrite bool_decide_true by done.
    by replace (S (a - 1)) with a by lia.
  - right. by rewrite bool_decide_false.
Qed.

Lemma probe_found j : ss !! j = Some s ->
  probe (index_size t) t s (length s) add (hash_of s) 0 = Ok (S j, t).
Proof using Ht Hs.
  intros Hj. destruct (io_reach _ _ (ao_index _ _ Ht) j s Hj) as (n & Hn & Hp & Hat & Hocc).
  assert (forall fuel i, (i <= n)%nat -> (n < i + fuel)%nat ->
    probe fuel t s (length s) add (hash_of s) i = Ok (S j, t)) as Hall; [|apply Hall; unfold index_size; lia].
  induction fuel as [|fuel IH]; intros i Hi Hf; [lia|].
  destruct (probe_occupied fuel i) as [(j' & Hj' & E)|E].
  - destruct (decide (i = n)) as [->|]; [right; by exists (S j)|]. apply Hocc. lia.
  - rewrite E. by rewrite (NoDup_lookup _ _ _ _ (ao_nodup _ _ Ht) Hj Hj').
  - destruct (decide (i = n)) as [->|]; [|rewrite E; apply IH; lia].
    cbn [probe]. unfold index_size. rewrite (proj2 (Nat.eqb_neq _ _) Hp), Hat.
    change (Nat.eqb (S j) 0) with false. cbn iota.
    destruct (lookup_string (S j)) as (v & Hv & -> & Hnv); [done|by apply lookup_lt_Some in Hj|].
    replace (S j - 1)%nat with j in Hv by lia. assert (v = s) as -> by congruence.
    by rewrite same_value_spec, bool_decide_true.
Qed.

Lemma probe_new : s ∉ ss -> (S (length ss) < index_size t)%nat ->
  exists n, let pos := index_pos (index_size t) (hash_of s) n in
    index_ok (<[pos := S (length ss)]> (at_index t)) (ss ++ [s]) /\
    probe (index_size t) t s (length s) add (hash_of s) 0 =
      Ok (if add then (S (length ss), mk_atom_table (<[pos := S (length ss)]> (at_index t)) (at_strings t ++ [Some s]))
          else (O, t)).
Proof using Ht Hs.
  intros Hnew Hroom.
  destruct (first_free (at_index t) ss (hash_of s) (ao_index _ _ Ht) Hroom (hash_range _ _)) as (n & Hn & Hp & Hfree & Hocc).
  exists n. split; [by apply index_ok_insert; first [apply Ht|done]|].
  assert (forall fuel i, (i <= n)%nat -> (n < i + fuel)%nat ->
    probe fuel t s (length s) add (hash_of s) i = probe 1 t s (length s) add (hash_of s) n) as Hall.
  { induction fuel as [|fuel IH]; intros i Hi Hf; [lia|]. destruct (decide (i = n)) as [->|].
    - cbn [probe]. unfold index_size. by rewrite (proj2 (Nat.eqb_neq _ _) Hp), Hfree.
    - destruct (probe_occupied fuel i) as [(j' & Hj' & E)|E]; [apply Hocc; lia| |rewrite E; apply IH; lia].
      exfalso. apply Hnew. by eapply list_elem_of_lookup_2. }
  rewrite Hall by (unfold index_size; lia). cbn [probe]. unfold index_size.
  rewrite (proj2 (Nat.eqb_neq _ _) Hp), Hfree. cbn iota.
  rewrite strndup_id, (ao_strings _ _ Ht) by done. cbn [length]. rewrite length_fmap. by destruct add.
Qed.
End probing.

(** ** Interning *)

Definition str_index (ss : list (list Z)) (s : list Z) : option nat :=
  fst <$> list_find (fun s' => s' = s) ss.

(** What interning does to the list of strings. *)
Definition intern_spec (ss : list (list Z)) (s : list Z) (add : bool) : nat * list (list Z) :=
  match str_index ss s with
  | Some j => (S j, ss)
  | None => if add then (S (length ss), ss ++ [s]) else (O, ss)
  end.

Lemma atom_table_new_ok : atoms_ok atom_table_new [].
Proof.
  split; [done|apply NoDup_nil_2|apply Forall_nil_2| |cbn; lia|cbn; lia]. apply (index_ok_empty 2).
Qed.

Lemma atom_intern_ok (t : atom_table) (ss : list (list Z)) (s : list Z) (add : bool) :
  atoms_ok t ss -> no_nul s ->
  exists t', atom_intern t s (length s) add = Ok (fst (intern_spec ss s add), t') /\
    atoms_ok t' (snd (intern_spec ss s add)).
Proof.
  intros Ht Hs. unfold atom_intern, intern_spec, str_index. fold (hash_of s).
  destruct (grow_spec t ss Ht) as (t1 & -> & Ht1 & Hroom & Hload).
  destruct (list_find _ ss) as [[j s']|] eqn:E; cbn [fmap option_fmap option_map fst snd].
  - apply list_find_Some in E as (Hj & -> & _). exists t1. by rewrite (probe_found t1 ss s add Ht1 Hs j).
  - apply list_find_None in E. rewrite list.Forall_forall in E.
    destruct (probe_new t1 ss s add Ht1 Hs) as (n & Hok & ->); [|done|].
    { intros Hin. by apply (E s Hin). }
    destruct add; [|by exists t1]. eexists. split; [done|].
    split; cbn [at_strings at_index snd]; unfold index_size; cbn [at_index].
    + rewrite (ao_strings _ _ Ht1), fmap_app. done.
    + apply list.NoDup_app. split; [apply Ht1|]. split; [|apply NoDup_singleton].
      intros x Hx ->%list_elem_of_singleton. by apply (E s Hx).
    + rewrite list.Forall_app. split; [apply Ht1|by apply Forall_singleton].
    + exact Hok.
    + rewrite length_insert, length_app. unfold index_size in Hload. cbn [length]. lia.
    + rewrite length_insert. apply Ht1.
Qed.

(** C39. Interning a string gives the position of the string among those interned
    before, or adds it at the end, or gives no atom; the table goes on to
    represent the list of strings, and probing always finds its slot. *)
Theorem atom_intern_spec (t : atom_table) (ss : list (list Z)) (s : list Z) (add : bool) :
  atoms_ok t ss -> no_nul s ->
  exists t', atom_intern t s (length s) add = Ok (fst (intern_spec ss s add), t') /\
    atoms_ok t' (snd (intern_spec ss s add)).
Proof. apply atom_intern_ok. Qed.

Definition sample_strings : list (list Z) :=
  [[60; 65]; [65]; []; [1; 2; 3]; [66]; [67; 68]; [69]; [70]; [71; 72; 73]; [74]; [75]; [76]; [77]].

(** Strings interned one after the other, with their atoms. *)
Fixpoint intern_all (t : atom_table) (ss : list (list Z)) : result (list nat * atom_table) :=
  match ss with
  | [] => Ok ([], t)
  | s :: ss =>
      match atom_intern t s (length s) true with
      | Fault f => Fault f
      | Ok (a, t) => match intern_all t ss with
                     | Fault f => Fault f
                     | Ok (l, t) => Ok (a :: l, t)
                     end
      end
  end.

Lemma intern_spec_lookup ss s :
  exists j, fst (intern_spec ss s true) = S j /\ snd (intern_spec ss s true) !! j = Some s /\
    ss `prefix_of` snd (intern_spec ss s true).
Proof.
  unfold intern_spec, str_index. destruct (list_find _ ss) as [[j s']|] eqn:E; cbn [fmap option_fmap option_map fst snd].
  - apply list_find_Some in E as (Hj & -> & _). by exists j.
  - exists (length ss). split; [done|]. split; [by apply list_lookup_middle|]. by exists [s].
Qed.

Lemma atom_text_spec t ss j : atoms_ok t ss -> atom_text t (S j) = match ss !! j with Some s => Ok (Some s) | None => Fault FaultAssert end.
Proof.
  intros Ht. unfold atom_text. rewrite (ao_strings _ _ Ht).
  change ((None :: (Some <$> ss)) !! S j) with ((Some <$> ss) !! j). rewrite list_lookup_fmap. by destruct (ss !! j).
Qed.

Lemma intern_all_ok l : forall t ss, atoms_ok t ss -> Forall no_nul l ->
  exists atoms t' ss', intern_all t l = Ok (atoms, t') /\ atoms_ok t' ss' /\ ss `prefix_of` ss' /\
    length atoms = length l /\
    forall i s, l !! i = Some s -> exists j, atoms !! i = Some (S j) /\ ss' !! j = Some s.
Proof.
  induction l as [|s l IH]; intros t ss Ht Hl; [by exists [], t, ss|].
  apply Forall_cons_1 in Hl as [Hs Hl]. cbn [intern_all].
  destruct (atom_intern_ok t ss s true Ht Hs) as (t1 & -> & Ht1).
  destruct (intern_spec_lookup ss s) as (j & Hj & Hat & Hpre).
  destruct (IH t1 _ Ht1 Hl) as (atoms & t2 & ss2 & -> & Ht2 & Hpre2 & Hlen & Hall).
  exists (fst (intern_spec ss s true) :: atoms), t2, ss2. split; [done|]. split; [done|].
  split; [by etransitivity|]. split; [cbn; by rewrite Hlen|].
  intros [|i] s' Hs'; [|by apply Hall]. injection Hs' as <-. exists j. rewrite Hj. split; [done|].
  by eapply prefix_lookup_Some.
Qed.

(** Interning strings in a new table, then asking for their texts, gives the
    strings back; two strings have the same atom exactly when they are equal,
    and none has the null atom. *)
Theorem atoms_round_trip (l : list (list Z)) :
  Forall no_nul l ->
  exists atoms t, intern_all atom_table_new l = Ok (atoms, t) /\ length atoms = length l /\
    (forall i s, l !! i = Some s -> exists a, atoms !! i = Some a /\ a <> O /\ atom_text t a = Ok (Some s)) /\
    (forall i i' s s' a a', l !! i = Some s -> l !! i' = Some s' -> atoms !! i = Some a -> atoms !! i' = Some a' ->
      a = a' <-> s = s').
Proof.
  intros Hl. destruct (intern_all_ok l atom_table_new [] atom_table_new_ok Hl)
    as (atoms & t & ss & E & Ht & _ & Hlen & Hall).
  exists atoms, t. split; [done|]. split; [done|]. split.
  - intros i s Hi. destruct (Hall i s Hi) as (j & Hj & Hs). exists (S j). split; [done|]. split; [done|].
    by rewrite (atom_text_spec t ss j Ht), Hs.
  - intros i i' s s' a a' Hi Hi' Ha Ha'. destruct (Hall i s Hi) as (j & Hj & Hs).
    destruct (Hall i' s' Hi') as (j' & Hj' & Hs'). rewrite Ha in Hj. rewrite Ha' in Hj'.
    injection Hj as ->. injection Hj' as ->. split.
    + intros [= ->]. congruence.
    + intros ->. f_equal. by apply (NoDup_lookup ss j j' s'); [apply Ht|..].
Qed.

Lemma sample_strings_no_nul : Forall no_nul sample_strings.
Proof. apply (bool_decide_unpack _). vm_compute. exact I. Qed.

Lemma atom_intern_spec_witness :
  exists t', atom_intern atom_table_new [65] (length [65]) true = Ok (fst (intern_spec [] [65] true), t') /\
    atoms_ok t' (snd (intern_spec [] [65] true)).
Proof.
  apply (atom_intern_spec atom_table_new [] [65] true atom_table_new_ok).
  apply (bool_decide_unpack _). vm_compute. exact I.
Defined.

Lemma atoms_round_trip_witness :
  exists atoms t, intern_all atom_table_new sample_strings = Ok (atoms, t) /\ length atoms = length sample_strings.
Proof.
  destruct (atoms_round_trip sample_strings sample_strings_no_nul) as (atoms & t & H1 & H2 & _).
  exists atoms, t. split; [exact H1|exact H2].
Defined.

Example sample_interned :
  match intern_all atom_table_new sample_strings with
  | Ok (atoms, t) => (atoms, index_size t, match atom_intern t [66] 1 false with Ok (a, _) => a | _ => O end)
  | Fault _ => ([], O, O)
  end = ([1; 2; 3; 4; 5; 6; 7; 8; 9; 10; 11; 12; 13]%nat, 32%nat, 5%nat).
Proof. vm_compute. reflexivity. Qed.
