(* ===== verification/Keymap.v ===== *)
(** * The compiled keymap: data of [src/keymap.h] and its accessors

    Types, keys, groups, levels, actions, modifiers and LEDs of a compiled
    keymap, the lookups of [src/keymap.h] and [src/keymap-priv.c], and the
    queries of [src/keymap.c].  The keymap is immutable once compiled: an
    embedded [const struct xkb_key_type *] is the type itself, a pointer to a
    key is the key's index in [keys] where its identity matters (see
    [key_addr]). *)

From Stdlib Require Import ZArith Lia.
From stdpp Require Import base tactics list numbers.
From S2P Require Import Prelude.

(** ** Constants *)

Definition XKB_MAX_GROUPS : Z := 32.
Definition XKB_MAX_MODS : nat := 32.
Definition XKB_LAYOUT_INVALID : Z := 0xffffffff.
Definition XKB_LEVEL_INVALID : Z := 0xffffffff.
Definition XKB_KEYCODE_INVALID : Z := 0xffffffff.
Definition XKB_MOD_INVALID : Z := 0xffffffff.
Definition XKB_LED_INVALID : Z := 0xffffffff.
Definition XKB_ATOM_NONE : Z := 0.
Definition XKB_KEY_NoSymbol : Z := 0.
Definition MOD_REAL_MASK_ALL : Z := 0xff.
Definition XKB_MOD_ALL : Z := 0xffffffff.
Definition MOD_REAL : Z := 1.
Definition MOD_VIRT : Z := 2.
Definition MOD_BOTH : Z := 3.
Definition XKB_KEYMAP_FORMAT_TEXT_V1 : Z := 1.
Definition XKB_KEYMAP_FORMAT_TEXT_V2 : Z := 2.

(** [enum xkb_action_flags], the flags the key actions test. *)
Definition ACTION_LOCK_CLEAR : Z := 2 ^ 0.
Definition ACTION_LATCH_TO_LOCK : Z := 2 ^ 1.
Definition ACTION_LOCK_NO_LOCK : Z := 2 ^ 2.
Definition ACTION_LOCK_NO_UNLOCK : Z := 2 ^ 3.
Definition ACTION_ABSOLUTE_SWITCH : Z := 2 ^ 5.
Definition ACTION_LOCK_ON_RELEASE : Z := 2 ^ 10.
Definition ACTION_UNLOCK_ON_PRESS : Z := 2 ^ 11.
Definition ACTION_LATCH_ON_PRESS : Z := 2 ^ 12.

(** [enum xkb_action_controls] *)
Definition CONTROL_STICKY_KEYS : Z := 2 ^ 0.
Definition CONTROL_IGNORE_GROUP_LOCK : Z := 2 ^ 20.
Definition CONTROL_OVERLAYS : Z := 0x1fe. (** OVERLAY1 .. OVERLAY8, bits 1 to 8 *)
Definition CONTROL_ALL_BOOLEAN_V1 : Z :=
  (** REPEAT, SLOW, DEBOUNCE, STICKY_KEYS, MOUSE_KEYS, MOUSE_KEYS_ACCEL, AX,
      AX_TIMEOUT, AX_FEEDBACK, BELL, OVERLAY1, OVERLAY2, IGNORE_GROUP_LOCK *)
  foldr Z.lor 0 (map bit [10; 11; 12; 0; 14; 15; 16; 17; 18; 19; 1; 2; 20]).
Definition CONTROL_ALL_BOOLEAN : Z :=
  foldr Z.lor CONTROL_ALL_BOOLEAN_V1 (map bit [3; 4; 5; 6; 7; 8]).

(** ** Actions

    [union xkb_action]: one constructor per member of the union; the members
    shared by several action types carry the type tag.  A private action
    whose explicit type is that of the internal actions is read through the
    member [internal] by the code, hence is an [act_internal]. *)

Record xkb_mods := mk_xkb_mods {
  m_mods : Z;  (** original real+virtual mods in definition *)
  m_mask : Z   (** computed effective mask *)
}.

Inductive mod_action_type := MOD_SET | MOD_LATCH | MOD_LOCK.
Inductive group_action_type := GROUP_SET | GROUP_LATCH | GROUP_LOCK.
Inductive ctrl_action_type := CTRL_SET | CTRL_LOCK.
Inductive btn_action_type := PTR_BUTTON | PTR_LOCK.

Record xkb_redirect_key_action := mk_redirect {
  r_keycode : Z;
  r_affect : Z;
  r_mods : Z
}.

Inductive xkb_action :=
| act_none
| act_void
| act_mods (t : mod_action_type) (flags : Z) (mods : xkb_mods)
| act_group (t : group_action_type) (flags : Z) (group : Z)
| act_ptr_move (flags x y : Z)
| act_btn (t : btn_action_type) (flags count button : Z)
| act_ptr_default (flags value : Z)
| act_terminate
| act_switch_vt (flags screen : Z)
| act_ctrls (t : ctrl_action_type) (flags ctrls : Z)
| act_redirect (r : xkb_redirect_key_action)
| act_unsupported_legacy
| act_unknown
| act_private (type : Z) (data : list Z)  (** type 19, or 21 to 255 *)
| act_internal (flags : Z) (clear_latched_mods : Z).

(** The type tag: [enum xkb_action_type]. *)
Definition action_type (a : xkb_action) : Z :=
  match a with
  | act_none => 0 | act_void => 1
  | act_mods MOD_SET _ _ => 2 | act_mods MOD_LATCH _ _ => 3 | act_mods MOD_LOCK _ _ => 4
  | act_group GROUP_SET _ _ => 5 | act_group GROUP_LATCH _ _ => 6
  | act_group GROUP_LOCK _ _ => 7
  | act_ptr_move _ _ _ => 8
  | act_btn PTR_BUTTON _ _ _ => 9 | act_btn PTR_LOCK _ _ _ => 10
  | act_ptr_default _ _ => 11 | act_terminate => 12 | act_switch_vt _ _ => 13
  | act_ctrls CTRL_SET _ _ => 14 | act_ctrls CTRL_LOCK _ _ => 15
  | act_redirect _ => 16 | act_unsupported_legacy => 17 | act_unknown => 18
  | act_private t _ => t
  | act_internal _ _ => 20
  end.

#[global] Instance xkb_mods_eq_dec : EqDecision xkb_mods.
Proof. solve_decision. Defined.
#[global] Instance mod_action_type_eq_dec : EqDecision mod_action_type.
Proof. solve_decision. Defined.
#[global] Instance group_action_type_eq_dec : EqDecision group_action_type.
Proof. solve_decision. Defined.
#[global] Instance ctrl_action_type_eq_dec : EqDecision ctrl_action_type.
Proof. solve_decision. Defined.
#[global] Instance btn_action_type_eq_dec : EqDecision btn_action_type.
Proof. solve_decision. Defined.
#[global] Instance redirect_eq_dec : EqDecision xkb_redirect_key_action.
Proof. solve_decision. Defined.
#[global] Instance xkb_action_eq_dec : EqDecision xkb_action.
Proof. solve_decision. Defined.

(** ** Key types, levels, groups and keys *)

Record xkb_key_type_entry := mk_entry {
  e_level : Z;
  e_mods : xkb_mods;
  e_preserve : xkb_mods
}.

Record xkb_key_type := mk_key_type {
  t_mods : xkb_mods;
  t_num_levels : Z;
  t_entries : list xkb_key_type_entry
}.

(** [struct xkb_level].  [lv_syms] is the storage of the keysyms: the inline
    [s.sym] (one item) when [lv_num_syms <= 1], else the array [s.syms], that
    holds the upper case keysyms after the lower ones when [lv_has_upper]. *)
Record xkb_level := mk_level {
  lv_num_syms : nat;
  lv_upper : Z;
  lv_has_upper : bool;
  lv_syms : list Z;
  lv_actions : list xkb_action
}.

Record xkb_group := mk_group {
  g_type : xkb_key_type;
  g_levels : list xkb_level
}.

(** [enum xkb_layout_out_of_range_policy] *)
Inductive out_of_range_policy := LAYOUT_WRAP | LAYOUT_CLAMP | LAYOUT_REDIRECT.

(** [struct xkb_key].  The targets of the overlays are keys of the same
    keymap: [k_overlays_keys] holds their indices; it has one item, inline,
    when [k_overlays_inline] and else one item per bit of [k_overlays]. *)
Record xkb_key := mk_key {
  k_keycode : Z;
  k_name : Z;
  k_repeats : bool;
  k_overlays : Z;
  k_overlays_inline : bool;
  k_overlays_keys : list nat;
  k_policy : out_of_range_policy;
  k_redirect_group : Z;
  k_groups : list xkb_group
}.

Definition k_num_groups (k : xkb_key) : Z := Z.of_nat (length (k_groups k)).

Record xkb_mod := mk_mod {
  mod_name : Z;
  mod_type : Z;
  mod_mapping : Z
}.

Record xkb_led := mk_led {
  led_name : Z;
  led_which_groups : Z;
  led_groups : Z;
  led_which_mods : Z;
  led_mods : xkb_mods;
  led_ctrls : Z
}.

Record xkb_key_alias := mk_alias { al_real : Z; al_alias : Z }.

Record xkb_keymap := mk_keymap {
  km_format : Z;
  km_leds : list xkb_led;
  km_min_key_code : Z;
  km_max_key_code : Z;
  km_num_keys_low : Z;
  km_keys : list xkb_key;
  km_key_aliases : list xkb_key_alias;
  km_mods : list xkb_mod;
  km_canonical_state_mask : Z;
  km_num_groups : Z;
  km_group_names : list Z
}.

Definition km_num_keys (km : xkb_keymap) : Z := Z.of_nat (length (km_keys km)).
Definition km_num_mods (km : xkb_keymap) : Z := Z.of_nat (length (km_mods km)).
Definition km_num_leds (km : xkb_keymap) : Z := Z.of_nat (length (km_leds km)).

(** Array access by an index of the C code. *)
Definition item {A} (l : list A) (i : Z) : option A :=
  if i <? 0 then None else l !! Z.to_nat i.

(** ** [XkbKey]: keycode to key

    The result is the index of the key in [km_keys] (the pointer
    [&keymap->keys[i]]), or [None] for [NULL].  High keycodes are found by
    binary search; the bound on the loop is the number of candidates. *)

Fixpoint XkbKey_search (fuel : nat) (keys : list xkb_key) (kc lower upper : Z) : option nat :=
  match fuel with
  | O => None
  | S fuel =>
      if lower <? upper then
        let mid := lower + (upper - 1 - lower) / 2 in
        match keys !! Z.to_nat mid with
        | None => None
        | Some key =>
            if k_keycode key <? kc then XkbKey_search fuel keys kc (mid + 1) upper
            else if k_keycode key >? kc then XkbKey_search fuel keys kc lower mid
            else Some (Z.to_nat mid)
        end
      else None
  end.

Definition XkbKey (km : xkb_keymap) (kc : Z) : option nat :=
  if (kc <? km_min_key_code km) || (kc >? km_max_key_code km) then None
  else if kc <? km_num_keys_low km then Some (Z.to_nat kc)
  else XkbKey_search (S (length (km_keys km))) (km_keys km) kc
         (km_num_keys_low km) (km_num_keys km).

Definition key_at (km : xkb_keymap) (i : nat) : option xkb_key := km_keys km !! i.

(** [XkbKey] followed by the dereference of the returned pointer. *)
Definition lookup_key (km : xkb_keymap) (kc : Z) : option xkb_key :=
  match XkbKey km kc with Some i => key_at km i | None => None end.

(** ** Levels and groups *)

Definition entry_is_active (e : xkb_key_type_entry) : bool :=
  (m_mods (e_mods e) =? 0) || negb (m_mask (e_mods e) =? 0).

Definition XkbWrapGroupIntoRange (group num_groups : Z) (policy : out_of_range_policy)
    (out_of_range_group_number : Z) : Z :=
  if num_groups =? 0 then XKB_LAYOUT_INVALID
  else if (group >=? 0) && (u32 group <? num_groups) then u32 group
  else match policy with
  | LAYOUT_REDIRECT =>
      if out_of_range_group_number >=? num_groups then 0 else out_of_range_group_number
  | LAYOUT_CLAMP => if group <? 0 then 0 else num_groups - 1
  | LAYOUT_WRAP =>
      let rem := Z.rem group (i32 num_groups) in
      if rem >=? 0 then u32 rem else u32 (rem + i32 num_groups)
  end.

Definition xkb_keymap_key_effective_layout (k : xkb_key) (layout : Z) : Z :=
  XkbWrapGroupIntoRange (i32 layout) (k_num_groups k) (k_policy k) (k_redirect_group k).

(** [XkbKeyNumLevels], for a layout of the key. *)
Definition XkbKeyNumLevels (k : xkb_key) (layout : Z) : Z :=
  match item (k_groups k) layout with
  | Some g => t_num_levels (g_type g)
  | None => 0
  end.

Definition xkb_keymap_key_get_level (k : xkb_key) (layout level : Z) : option xkb_level :=
  let layout := xkb_keymap_key_effective_layout k layout in
  if layout =? XKB_LAYOUT_INVALID then None
  else if level >=? XkbKeyNumLevels k layout then None
  else match item (k_groups k) layout with
       | Some g => item (g_levels g) level
       | None => None
       end.

(** The returned list is the array [*actions] of [count] items. *)
Definition xkb_keymap_key_get_actions_by_level (k : xkb_key) (layout level : Z)
    : list xkb_action :=
  let layout := xkb_keymap_key_effective_layout k layout in
  if layout =? XKB_LAYOUT_INVALID then []
  else if level >=? XkbKeyNumLevels k layout then []
  else match item (k_groups k) layout with
       | Some g => match item (g_levels g) level with
                   | Some lv => lv_actions lv
                   | None => []
                   end
       | None => []
       end.

(** ** Comparisons *)

Definition XkbModNameToIndex (mods : list xkb_mod) (name type : Z) : Z :=
  match list_find (fun m => has_flag (mod_type m) type = true /\ name = mod_name m) mods with
  | Some (i, _) => Z.of_nat i
  | None => XKB_MOD_INVALID
  end.

Definition level_sym (lv : xkb_level) : Z := default XKB_KEY_NoSymbol (lv_syms lv !! 0%nat).

Definition XkbLevelsSameSyms (a b : xkb_level) : bool :=
  if negb (Nat.eqb (lv_num_syms a) (lv_num_syms b)) then false
  else if Nat.leb (lv_num_syms a) 1 then level_sym a =? level_sym b
  else bool_decide (take (lv_num_syms a) (lv_syms a) = take (lv_num_syms a) (lv_syms b)).

Definition action_equal (a b : xkb_action) : bool :=
  if negb (action_type a =? action_type b) then false
  else match a, b with
  | act_none, _ | act_void, _ => true
  | act_mods _ fl m, act_mods _ fl' m' =>
      (fl =? fl') && (m_mask m =? m_mask m') && (m_mods m =? m_mods m')
  | act_group _ fl g, act_group _ fl' g' => (fl =? fl') && (g =? g')
  | act_ptr_move fl x y, act_ptr_move fl' x' y' => (fl =? fl') && (x =? x') && (y =? y')
  | act_btn _ fl c b, act_btn _ fl' c' b' => (fl =? fl') && (b =? b') && (c =? c')
  | act_ptr_default fl v, act_ptr_default fl' v' => (fl =? fl') && (v =? v')
  | act_terminate, _ => true
  | act_switch_vt fl s, act_switch_vt fl' s' => (fl =? fl') && (s =? s')
  | act_ctrls _ fl c, act_ctrls _ fl' c' => (fl =? fl') && (c =? c')
  | act_redirect r, act_redirect r' =>
      (r_keycode r =? r_keycode r') && (r_affect r =? r_affect r') && (r_mods r =? r_mods r')
  | act_unsupported_legacy, _ | act_unknown, _ => true
  | act_internal fl c, act_internal fl' c' => (fl =? fl') && (c =? c')
  | act_private _ d, act_private _ d' => bool_decide (d = d')
  | _, _ => false
  end.

(** [a.action] of a level without action is zeroed: an [act_none]. *)
Definition XkbLevelsSameActions (a b : xkb_level) : bool :=
  if negb (Nat.eqb (length (lv_actions a)) (length (lv_actions b))) then false
  else if Nat.leb (length (lv_actions a)) 1 then
    action_equal (default act_none (lv_actions a !! 0%nat))
                 (default act_none (lv_actions b !! 0%nat))
  else forallb (fun '(x, y) => action_equal x y) (zip (lv_actions a) (lv_actions b)).

(** ** Modifier resolution: [mod_mask_get_effective] (src/state.c)

    The real modifiers are kept; each virtual modifier adds its mapping. *)

Definition mod_mask_get_effective (km : xkb_keymap) (mods : Z) : Z :=
  foldl (fun mask '(i, m) => if has_flag mods (bit i) then Z.lor mask (mod_mapping m) else mask)
    (Z.land mods MOD_REAL_MASK_ALL)
    (zip (map Z.of_nat (seq 8 (length (drop 8 (km_mods km))))) (drop 8 (km_mods km))).

Definition resolve_to_canonical_mods (km : xkb_keymap) (mods : Z) : Z :=
  Z.lor (Z.land mods (km_canonical_state_mask km))
        (mod_mask_get_effective km (Z.ldiff mods (km_canonical_state_mask km))).

(** ** Queries of src/keymap.c *)

Definition xkb_keymap_mod_get_mask2 (km : xkb_keymap) (idx : Z) : Z :=
  if idx >=? km_num_mods km then 0
  else match item (km_mods km) idx with Some m => mod_mapping m | None => 0 end.

Definition xkb_keymap_num_layouts_for_key (km : xkb_keymap) (kc : Z) : Z :=
  match lookup_key km kc with Some k => k_num_groups k | None => 0 end.

Definition xkb_keymap_num_levels_for_key (km : xkb_keymap) (kc layout : Z) : Z :=
  match lookup_key km kc with
  | None => 0
  | Some k =>
      let layout := xkb_keymap_key_effective_layout k layout in
      if layout =? XKB_LAYOUT_INVALID then 0 else XkbKeyNumLevels k layout
  end.

(** The loop [for (i = 0; i < num_entries && count < masks_size; i++)] that
    collects the masks of the entries of a level. *)
Fixpoint collect_masks (entries : list xkb_key_type_entry) (level : Z) (size : nat) : list Z :=
  match entries, size with
  | [], _ | _, O => []
  | e :: es, S size' =>
      if entry_is_active e && (e_level e =? level)
      then m_mask (e_mods e) :: collect_masks es level size'
      else collect_masks es level size
  end.

Definition xkb_keymap_key_get_mods_for_level (km : xkb_keymap) (kc layout level : Z)
    (masks_size : nat) : list Z :=
  match lookup_key km kc with
  | None => []
  | Some k =>
      let layout := xkb_keymap_key_effective_layout k layout in
      if layout =? XKB_LAYOUT_INVALID then []
      else if level >=? XkbKeyNumLevels k layout then []
      else match item (k_groups k) layout with
      | None => []
      | Some g =>
          let entries := t_entries (g_type g) in
          let empty_mapped :=
            existsb (fun e => entry_is_active e && (m_mask (e_mods e) =? 0)) entries in
          if (level =? 0) && negb empty_mapped && Nat.ltb 0 masks_size
          then 0 :: collect_masks entries level (masks_size - 1)
          else collect_masks entries level masks_size
      end
  end.

(** The returned list is the array [*syms_out] of [count] items. *)
Definition level_get_syms (lv : xkb_level) : list Z := take (lv_num_syms lv) (lv_syms lv).

Definition xkb_keymap_key_get_syms_by_level (km : xkb_keymap) (kc layout level : Z) : list Z :=
  match lookup_key km kc with
  | None => []
  | Some k => match xkb_keymap_key_get_level k layout level with
              | None => []
              | Some lv => level_get_syms lv
              end
  end.

Definition xkb_keymap_key_repeats (km : xkb_keymap) (kc : Z) : bool :=
  match lookup_key km kc with Some k => k_repeats k | None => false end.

(** First index of [xkb_keys_foreach]. *)
Definition keys_start (km : xkb_keymap) : nat :=
  if km_num_keys_low km =? 0 then 0%nat else Z.to_nat (km_min_key_code km).

(** [xkb_keymap_key_for_each]: the keycodes the callback is called with. *)
Definition xkb_keymap_key_for_each (km : xkb_keymap) : list Z :=
  map k_keycode (drop (keys_start km) (km_keys km)).

(** *** The key iterator *)

Record xkb_keymap_key_iterator := mk_key_iterator {
  it_descending : bool;       (** [increment < 0] *)
  it_skip_unbound : bool;
  it_min : nat;
  it_max : nat;
  it_next : option nat
}.

Definition xkb_keymap_key_iterator_new (km : xkb_keymap) (descending skip_unbound : bool)
    : xkb_keymap_key_iterator :=
  if km_num_keys km =? 0 then mk_key_iterator false false 0 0 None
  else
    let min := keys_start km in
    let max := (length (km_keys km) - 1)%nat in
    mk_key_iterator descending skip_unbound min max (Some (if descending then max else min)).

(** [next += increment], [None] when it leaves the interval [min, max]. *)
Definition it_advance (it : xkb_keymap_key_iterator) (n : nat) : option nat :=
  if it_descending it
  then if Nat.leb n (it_min it) then None else Some (n - 1)%nat
  else if Nat.leb (it_max it) n then None else Some (n + 1)%nat.

Definition it_skipped (it : xkb_keymap_key_iterator) (k : xkb_key) : bool :=
  (k_name k =? XKB_ATOM_NONE) || (it_skip_unbound it && (k_num_groups k =? 0)).

Fixpoint it_loop (fuel : nat) (km : xkb_keymap) (it : xkb_keymap_key_iterator) (n : nat)
    : option nat :=
  match fuel with
  | O => None
  | S fuel =>
      match key_at km n with
      | None => None
      | Some k =>
          if it_skipped it k then
            match it_advance it n with
            | None => None
            | Some n' => it_loop fuel km it n'
            end
          else Some n
      end
  end.

Definition it_set_next (it : xkb_keymap_key_iterator) (n : option nat) :=
  mk_key_iterator (it_descending it) (it_skip_unbound it) (it_min it) (it_max it) n.

Definition xkb_keymap_key_iterator_next (km : xkb_keymap) (it : xkb_keymap_key_iterator)
    : Z * xkb_keymap_key_iterator :=
  match it_next it with
  | None => (XKB_KEYCODE_INVALID, it)
  | Some n =>
      match it_loop (S (length (km_keys km))) km it n with
      | None => (XKB_KEYCODE_INVALID, it_set_next it None)
      | Some n' =>
          match key_at km n' with
          | Some k => (k_keycode k, it_set_next it (it_advance it n'))
          | None => (XKB_KEYCODE_INVALID, it)
          end
      end
  end.

(** ** Well-formed keymaps

    What the compiler of keymaps establishes and the lookups rely on. *)

Record key_type_wf (t : xkb_key_type) : Prop := {
  twf_entry_level : Forall (fun e => 0 <= e_level e < t_num_levels t) (t_entries t);
  twf_levels : 0 < t_num_levels t < XKB_LEVEL_INVALID
}.

Record group_wf (g : xkb_group) : Prop := {
  gwf_type : key_type_wf (g_type g);
  gwf_levels : Z.of_nat (length (g_levels g)) = t_num_levels (g_type g)
}.

Record key_wf (k : xkb_key) : Prop := {
  kwf_groups : Forall group_wf (k_groups k);
  kwf_num_groups : k_num_groups k <= XKB_MAX_GROUPS;
  kwf_redirect : 0 <= k_redirect_group k < 2 ^ 8
}.

Record keymap_wf (km : xkb_keymap) : Prop := {
  kmwf_keys : Forall key_wf (km_keys km);
  kmwf_min : 0 <= km_min_key_code km;
  kmwf_low_le : 0 <= km_num_keys_low km <= km_num_keys km;
  (** low keycodes are the indices of their keys *)
  kmwf_low : forall i k, km_keys km !! i = Some k -> Z.of_nat i < km_num_keys_low km ->
             km_min_key_code km <= Z.of_nat i -> k_keycode k = Z.of_nat i;
  (** high keycodes are above the low ones, in increasing order *)
  kmwf_high : forall i j k k', km_keys km !! i = Some k -> km_keys km !! j = Some k' ->
              km_num_keys_low km <= Z.of_nat i -> (i < j)%nat -> k_keycode k < k_keycode k';
  kmwf_high_range : forall i k, km_keys km !! i = Some k -> km_num_keys_low km <= Z.of_nat i ->
              km_num_keys_low km <= k_keycode k;
  kmwf_num_groups : 0 <= km_num_groups km <= XKB_MAX_GROUPS;
  kmwf_num_mods : (length (km_mods km) <= XKB_MAX_MODS)%nat;
  kmwf_mapping : Forall (fun m => is_u32 (mod_mapping m)) (km_mods km);
  kmwf_mask : is_u32 (km_canonical_state_mask km);
  kmwf_num_leds : (length (km_leds km) <= 32)%nat
}.

(** ** Array access *)

Lemma item_Some {A} (l : list A) i x :
  item l i = Some x <-> 0 <= i /\ l !! Z.to_nat i = Some x.
Proof. unfold item. destruct (Z.ltb_spec i 0); split; [done | lia | auto | tauto]. Qed.

Lemma item_lt {A} (l : list A) i x : item l i = Some x -> 0 <= i < Z.of_nat (length l).
Proof. intros [? H]%item_Some. apply lookup_lt_Some in H. lia. Qed.

Lemma item_is_Some {A} (l : list A) i :
  0 <= i < Z.of_nat (length l) -> exists x, item l i = Some x.
Proof.
  intros Hi. destruct (lookup_lt_is_Some_2 l (Z.to_nat i)) as [x Hx]; [lia|].
  exists x. apply item_Some. split; [lia | done].
Qed.

Lemma item_None {A} (l : list A) i : Z.of_nat (length l) <= i -> item l i = None.
Proof.
  intros Hi. unfold item. destruct (Z.ltb_spec i 0); [done|].
  apply lookup_ge_None. lia.
Qed.

(** ** Group wrapping *)

Lemma wrap_rem group n :
  is_i32 group -> 0 < n <= XKB_MAX_GROUPS ->
  (let rem := Z.rem group (i32 n) in
   if rem >=? 0 then u32 rem else u32 (rem + i32 n)) = group mod n.
Proof.
  intros Hg Hn. assert (i32 n = n) as ->.
  { apply i32_id. unfold is_i32, XKB_MAX_GROUPS in *. lia. }
  cbv zeta. pose proof (Z.rem_bound_abs group n ltac:(lia)) as Hb.
  pose proof (Z.quot_rem' group n) as Hqr. unfold XKB_MAX_GROUPS in *.
  rewrite Z.geb_leb. destruct (Z.leb_spec 0 (Z.rem group n)).
  - rewrite u32_id by (unfold is_u32; lia).
    apply (Z.mod_unique group n (Z.quot group n)); lia.
  - rewrite u32_id by (unfold is_u32; lia).
    apply (Z.mod_unique group n (Z.quot group n - 1)); lia.
Qed.

(** The three policies, for a group in or out of range. *)
Lemma XkbWrapGroupIntoRange_eq group n policy red :
  is_i32 group -> 0 < n <= XKB_MAX_GROUPS ->
  XkbWrapGroupIntoRange group n policy red =
    if (0 <=? group) && (group <? n) then group
    else match policy with
         | LAYOUT_WRAP => group mod n
         | LAYOUT_CLAMP => Z.max 0 (Z.min group (n - 1))
         | LAYOUT_REDIRECT => if red <? n then red else 0
         end.
Proof.
  intros Hg Hn. unfold XkbWrapGroupIntoRange.
  destruct (Z.eqb_spec n 0); [lia|]. rewrite Z.geb_leb.
  destruct (Z.leb_spec 0 group) as [Hge|Hlt]; cbn [andb].
  - rewrite u32_id by (unfold is_u32, is_i32 in *; lia).
    destruct (Z.ltb_spec group n); [done|]. destruct policy.
    + by apply wrap_rem.
    + destruct (Z.ltb_spec group 0); lia.
    + rewrite Z.geb_leb. destruct (Z.leb_spec n red), (Z.ltb_spec red n); lia.
  - destruct policy.
    + by apply wrap_rem.
    + destruct (Z.ltb_spec group 0); lia.
    + rewrite Z.geb_leb. destruct (Z.leb_spec n red), (Z.ltb_spec red n); lia.
Qed.

Lemma wrap_bound group n policy red :
  is_i32 group -> 0 < n <= XKB_MAX_GROUPS -> 0 <= red ->
  0 <= XkbWrapGroupIntoRange group n policy red < n.
Proof.
  intros Hg Hn Hr. rewrite XkbWrapGroupIntoRange_eq by done.
  destruct (Z.leb_spec 0 group), (Z.ltb_spec group n); cbn [andb]; [lia|..];
    destruct policy; try (apply Z.mod_pos_bound; lia); try lia;
    destruct (Z.ltb_spec red n); lia.
Qed.

Lemma wrap_no_groups group policy red :
  XkbWrapGroupIntoRange group 0 policy red = XKB_LAYOUT_INVALID.
Proof. done. Qed.

Lemma wrap_fixed group n policy red :
  0 <= group < n -> n <= XKB_MAX_GROUPS -> XkbWrapGroupIntoRange group n policy red = group.
Proof.
  intros Hg Hn. unfold XKB_MAX_GROUPS in *.
  rewrite XkbWrapGroupIntoRange_eq by (unfold is_i32, XKB_MAX_GROUPS; lia).
  destruct (Z.leb_spec 0 group), (Z.ltb_spec group n); cbn; lia.
Qed.

(** The effective layout of a key is one of its groups, or the key has none. *)
Lemma effective_layout_bound k layout :
  key_wf k ->
  xkb_keymap_key_effective_layout k layout = XKB_LAYOUT_INVALID /\ k_groups k = [] \/
  0 <= xkb_keymap_key_effective_layout k layout < k_num_groups k.
Proof.
  intros Hwf. unfold xkb_keymap_key_effective_layout.
  destruct (k_groups k) as [|g gs] eqn:Hgs.
  - left. unfold k_num_groups. by rewrite Hgs.
  - right. apply wrap_bound; [apply i32_range | | apply (kwf_redirect k Hwf)].
    split; [unfold k_num_groups; rewrite Hgs; cbn; lia | apply (kwf_num_groups k Hwf)].
Qed.

(** ** Binary search *)

Section search.
Context (keys : list xkb_key) (low : Z).
Hypothesis Hsorted : forall i j k k', keys !! i = Some k -> keys !! j = Some k' ->
  low <= Z.of_nat i -> (i < j)%nat -> k_keycode k < k_keycode k'.
Hypothesis Hlow : 0 <= low.

Lemma keycode_mono i j k k' : keys !! i = Some k -> keys !! j = Some k' ->
  low <= Z.of_nat i -> low <= Z.of_nat j -> k_keycode k < k_keycode k' -> (i < j)%nat.
Proof.
  intros Hi Hj Li Lj Hk. destruct (Nat.lt_trichotomy i j) as [?|[->|Hgt]]; [done|..].
  - rewrite Hi in Hj. injection Hj as ->. lia.
  - pose proof (Hsorted j i k' k Hj Hi Lj Hgt). lia.
Qed.

Lemma XkbKey_search_sound fuel kc lower upper i :
  low <= lower -> XkbKey_search fuel keys kc lower upper = Some i ->
  exists k, keys !! i = Some k /\ k_keycode k = kc /\ lower <= Z.of_nat i < upper.
Proof.
  revert lower upper. induction fuel as [|fuel IH]; intros lower upper Hl; [done|].
  cbn. destruct (Z.ltb_spec lower upper); [|done].
  set (mid := lower + (upper - 1 - lower) / 2).
  assert (lower <= mid < upper).
  { pose proof (Z.div_pos (upper - 1 - lower) 2).
    pose proof (Z.div_le_upper_bound (upper - 1 - lower) 2 (upper - 1 - lower)). lia. }
  destruct (keys !! Z.to_nat mid) as [k|] eqn:Hk; [|done].
  destruct (Z.ltb_spec (k_keycode k) kc).
  { intros (k' & ? & ? & ?)%IH; [|lia]. exists k'. repeat split; try done; lia. }
  rewrite Z.gtb_ltb. destruct (Z.ltb_spec kc (k_keycode k)).
  { intros (k' & ? & ? & ?)%IH; [|lia]. exists k'. repeat split; try done; lia. }
  intros [= <-]. exists k. repeat split; [done | lia | lia | lia].
Qed.

Lemma XkbKey_search_complete fuel kc lower upper i k :
  low <= lower -> upper <= Z.of_nat (length keys) -> upper - lower < Z.of_nat fuel ->
  keys !! i = Some k -> k_keycode k = kc -> lower <= Z.of_nat i < upper ->
  XkbKey_search fuel keys kc lower upper = Some i.
Proof.
  intros Hl Hu Hf Hi Hkc Hr. revert lower upper Hl Hu Hf Hr.
  induction fuel as [|fuel IH]; intros lower upper Hl Hu Hf Hr; [lia|].
  cbn. destruct (Z.ltb_spec lower upper); [|lia].
  set (mid := lower + (upper - 1 - lower) / 2).
  assert (lower <= mid < upper).
  { pose proof (Z.div_pos (upper - 1 - lower) 2).
    pose proof (Z.div_le_upper_bound (upper - 1 - lower) 2 (upper - 1 - lower)). lia. }
  destruct (lookup_lt_is_Some_2 keys (Z.to_nat mid)) as [k' Hk']; [lia|]. rewrite Hk'.
  destruct (Z.ltb_spec (k_keycode k') kc).
  { assert (Z.to_nat mid < i)%nat by (apply (keycode_mono _ _ k' k); try done; lia).
    apply IH; lia. }
  rewrite Z.gtb_ltb. destruct (Z.ltb_spec kc (k_keycode k')).
  { assert (i < Z.to_nat mid)%nat by (apply (keycode_mono _ _ k k'); try done; lia).
    apply IH; lia. }
  destruct (Nat.lt_trichotomy i (Z.to_nat mid)) as [Hlt|[->|Hlt]]; [|done|].
  - pose proof (Hsorted _ _ k k' Hi Hk' ltac:(lia) Hlt). lia.
  - pose proof (Hsorted _ _ k' k Hk' Hi ltac:(lia) Hlt). lia.
Qed.
End search.

Section lookup.
Context (km : xkb_keymap) (Hwf : keymap_wf km).

Lemma XkbKey_sound kc i :
  XkbKey km kc = Some i ->
  exists k, key_at km i = Some k /\ k_keycode k = kc /\
            km_min_key_code km <= kc <= km_max_key_code km /\
            (Z.of_nat i < km_num_keys_low km -> km_min_key_code km <= Z.of_nat i).
Proof.
  unfold XkbKey, key_at. pose proof (kmwf_min km Hwf). pose proof (kmwf_low_le km Hwf).
  destruct (Z.ltb_spec kc (km_min_key_code km)); [done|].
  rewrite Z.gtb_ltb. destruct (Z.ltb_spec (km_max_key_code km) kc); [done|]. cbn [orb].
  destruct (Z.ltb_spec kc (km_num_keys_low km)).
  - intros [= <-]. unfold km_num_keys in *.
    destruct (lookup_lt_is_Some_2 (km_keys km) (Z.to_nat kc)) as [k Hk]; [lia|].
    exists k. split; [done|]. split; [|lia].
    rewrite (kmwf_low km Hwf _ _ Hk); lia.
  - intros (k & ? & ? & ?)%(XkbKey_search_sound _ (km_num_keys_low km)); [|lia..].
    exists k. repeat split; try done; lia.
Qed.

Lemma XkbKey_complete i k :
  key_at km i = Some k ->
  km_min_key_code km <= k_keycode k <= km_max_key_code km ->
  (Z.of_nat i < km_num_keys_low km -> km_min_key_code km <= Z.of_nat i) ->
  XkbKey km (k_keycode k) = Some i.
Proof.
  unfold XkbKey, key_at. intros Hk Hr Hi.
  pose proof (kmwf_min km Hwf). pose proof (kmwf_low_le km Hwf).
  destruct (Z.ltb_spec (k_keycode k) (km_min_key_code km)); [lia|].
  rewrite Z.gtb_ltb. destruct (Z.ltb_spec (km_max_key_code km) (k_keycode k)); [lia|].
  cbn [orb]. destruct (Z_lt_le_dec (Z.of_nat i) (km_num_keys_low km)).
  - rewrite (kmwf_low km Hwf _ _ Hk) by auto.
    destruct (Z.ltb_spec (Z.of_nat i) (km_num_keys_low km)); [|lia].
    f_equal. lia.
  - pose proof (kmwf_high_range km Hwf _ _ Hk ltac:(lia)).
    destruct (Z.ltb_spec (k_keycode k) (km_num_keys_low km)); [lia|].
    pose proof (lookup_lt_Some _ _ _ Hk). unfold km_num_keys.
    apply (XkbKey_search_complete _ (km_num_keys_low km) (kmwf_high km Hwf)) with (k := k);
      try done; lia.
Qed.

Lemma lookup_key_wf kc k : lookup_key km kc = Some k -> key_wf k /\ k_keycode k = kc.
Proof.
  unfold lookup_key. destruct (XkbKey km kc) as [i|] eqn:Hi; [|done].
  apply XkbKey_sound in Hi as (k' & Hk' & ? & _). rewrite Hk'. intros [= ->].
  split; [|done]. by apply (Forall_lookup_1 _ _ _ _ (kmwf_keys km Hwf) Hk').
Qed.
End lookup.

(** ** The iterator enumerates the keys *)

(** What a client gets by calling [next] until [XKB_KEYCODE_INVALID]. *)
Fixpoint iterator_drain (fuel : nat) (km : xkb_keymap) (it : xkb_keymap_key_iterator) : list Z :=
  match fuel with
  | O => []
  | S fuel =>
      let '(kc, it') := xkb_keymap_key_iterator_next km it in
      if kc =? XKB_KEYCODE_INVALID then [] else kc :: iterator_drain fuel km it'
  end.

Section iterator.
Context (km : xkb_keymap) (it : xkb_keymap_key_iterator).

(** The keys still ahead of the iterator at position [n]. *)
Definition it_rest (n : nat) : list xkb_key :=
  if it_descending it then rev (drop (it_min it) (take (S n) (km_keys km))) else drop n (km_keys km).

Lemma it_rest_length n : (length (it_rest n) <= length (km_keys km))%nat.
Proof.
  unfold it_rest. destruct (it_descending it);
    rewrite ?length_rev, ?length_drop, ?length_take; lia.
Qed.

Hypothesis Hmax : it_max it = (length (km_keys km) - 1)%nat.

Lemma it_rest_step n k :
  key_at km n = Some k -> (it_min it <= n)%nat ->
  it_rest n = k :: match it_advance it n with Some n' => it_rest n' | None => [] end /\
  (forall n', it_advance it n = Some n' -> (it_min it <= n')%nat /\ exists k', key_at km n' = Some k').
Proof.
  unfold key_at, it_rest, it_advance. intros Hk Hn.
  pose proof (lookup_lt_Some _ _ _ Hk) as Hlt. destruct (it_descending it).
  - rewrite (take_S_r _ _ _ Hk), drop_app_le by (rewrite length_take; lia).
    rewrite rev_app_distr. cbn. split.
    + f_equal. destruct (Nat.leb_spec n (it_min it)).
      * rewrite drop_ge; [done | rewrite length_take; lia].
      * by replace (S (n - 1)) with n by lia.
    + intros n'. destruct (Nat.leb_spec n (it_min it)); [done|]. intros [= <-].
      split; [lia|]. apply lookup_lt_is_Some_2. lia.
  - split.
    + rewrite (drop_S _ _ _ Hk). f_equal. destruct (Nat.leb_spec (it_max it) n).
      * apply drop_ge. lia.
      * f_equal. lia.
    + intros n'. destruct (Nat.leb_spec (it_max it) n); [done|]. intros [= <-].
      split; [lia|]. apply lookup_lt_is_Some_2. lia.
Qed.

Lemma it_loop_spec fuel n k :
  key_at km n = Some k -> (it_min it <= n)%nat -> (length (it_rest n) < fuel)%nat ->
  match it_loop fuel km it n with
  | None => filter (fun k => it_skipped it k = false) (it_rest n) = []
  | Some n' => exists k', key_at km n' = Some k' /\ (it_min it <= n')%nat /\
      it_skipped it k' = false /\ (length (it_rest n') <= length (it_rest n))%nat /\
      filter (fun k => it_skipped it k = false) (it_rest n) =
        filter (fun k => it_skipped it k = false) (it_rest n')
  end.
Proof.
  revert n k. induction fuel as [|fuel IH]; intros n k Hk Hn Hf; [lia|].
  cbn. rewrite Hk. destruct (it_skipped it k) eqn:Hs; [|eauto 10].
  destruct (it_rest_step n k Hk Hn) as [Hr Hadv]. rewrite Hr in Hf |- *.
  rewrite filter_cons_False by congruence.
  destruct (it_advance it n) as [n'|]; [|done].
  destruct (Hadv n' eq_refl) as (Hn' & k' & Hk').
  specialize (IH n' k' Hk' Hn' ltac:(cbn in Hf; lia)).
  destruct (it_loop fuel km it n') as [m|]; [|done].
  destruct IH as (k'' & ? & ? & ? & ? & ?). exists k''. repeat split; try done. cbn; lia.
Qed.
End iterator.

Lemma iterator_drain_spec km it fuel :
  it_max it = (length (km_keys km) - 1)%nat ->
  Forall (fun k => k_keycode k <> XKB_KEYCODE_INVALID) (km_keys km) ->
  forall n k, it_next it = Some n -> key_at km n = Some k -> (it_min it <= n)%nat ->
  (length (it_rest km it n) < fuel)%nat ->
  iterator_drain fuel km it =
    map k_keycode (filter (fun k => it_skipped it k = false) (it_rest km it n)).
Proof.
  intros Hmax Hcodes. revert it Hmax. induction fuel as [|fuel IH]; [lia|].
  intros it Hmax n k Hnext Hk Hn Hf. cbn.
  unfold xkb_keymap_key_iterator_next. rewrite Hnext.
  pose proof (it_loop_spec km it Hmax (S (length (km_keys km))) n k Hk Hn) as Hl.
  pose proof (it_rest_length km it n). specialize (Hl ltac:(lia)).
  destruct (it_loop _ km it n) as [n'|]; [|by rewrite Hl].
  destruct Hl as (k' & Hk' & Hn' & Hs & Hlen & ->). rewrite Hk'.
  pose proof (Forall_lookup_1 _ _ _ _ Hcodes Hk') as Hne. cbn in Hne.
  destruct (Z.eqb_spec (k_keycode k') XKB_KEYCODE_INVALID); [done|].
  destruct (it_rest_step km it Hmax n' k' Hk' Hn') as [Hr Hadv].
  rewrite Hr in Hlen |- *. rewrite filter_cons_True by done. cbn. f_equal.
  destruct (it_advance it n') as [m|] eqn:Hm.
  - destruct (Hadv m eq_refl) as (Hmm & km' & Hkm). cbn in Hlen.
    apply (IH (it_set_next it (Some m)) Hmax m km' eq_refl Hkm Hmm).
    change (it_rest km (it_set_next it (Some m)) m) with (it_rest km it m). lia.
  - destruct fuel; reflexivity.
Qed.

(** ** Canonical modifier masks *)

Lemma mod_mask_get_effective_0 km : mod_mask_get_effective km 0 = 0.
Proof.
  unfold mod_mask_get_effective. rewrite Z.land_0_l.
  generalize (zip (map Z.of_nat (seq 8 (length (drop 8 (km_mods km))))) (drop 8 (km_mods km))).
  intros l. induction l as [|[i m] l IH]; [done|]. cbn.
  by replace (has_flag 0 (bit i)) with false by (unfold has_flag; by rewrite Z.land_0_l).
Qed.

(** A mask of canonical modifiers resolves to itself. *)
Lemma resolve_canonical_id km mods :
  Z.ldiff mods (km_canonical_state_mask km) = 0 -> resolve_to_canonical_mods km mods = mods.
Proof.
  intros H. unfold resolve_to_canonical_mods. rewrite H, mod_mask_get_effective_0, Z.lor_0_r.
  apply Z.bits_inj'. intros i Hi. apply (f_equal (fun z => Z.testbit z i)) in H.
  rewrite Z.ldiff_spec, Z.testbit_0_l in H. rewrite Z.land_spec.
  destruct (Z.testbit mods i), (Z.testbit (km_canonical_state_mask km) i); done.
Qed.

(** ** A sample keymap

    A small well-formed keymap with one key per kind of action, on which the
    witnesses of the theorems are evaluated. *)

Definition Shift : Z := bit 0.
Definition Lock : Z := bit 1.
Definition Control : Z := bit 2.

Definition pure (m : Z) : xkb_mods := mk_xkb_mods m m.

Definition one_level : xkb_key_type :=
  mk_key_type (pure 0) 1 [mk_entry 0 (pure 0) (pure 0)].
Definition two_level : xkb_key_type :=
  mk_key_type (pure (Z.lor Shift Lock)) 2
    [mk_entry 1 (pure Shift) (pure 0); mk_entry 1 (pure Lock) (pure Lock)].

Definition sym_level (sym upper : Z) : xkb_level := mk_level 1 upper false [sym] [].
Definition act_level (a : xkb_action) : xkb_level := mk_level 0 0 false [0] [a].

Definition mk_simple_key (kc : Z) (groups : list xkb_group) : xkb_key :=
  mk_key kc (100 + kc) true 0 false [] LAYOUT_WRAP 0 groups.

Definition action_key (kc : Z) (a : xkb_action) : xkb_key :=
  mk_simple_key kc [mk_group one_level [act_level a]].
Definition letter_key (kc lower upper : Z) : xkb_key :=
  mk_simple_key kc [mk_group two_level [sym_level lower upper; sym_level upper upper];
                    mk_group one_level [sym_level (lower + 1) (upper + 1)]].

(** Keycodes 0 to 15 are low, 5000 is high; 0 is below [min_key_code]. *)
Definition sample_keys : list xkb_key :=
  [ mk_key 0 0 false 0 false [] LAYOUT_WRAP 0 [];
    letter_key 1 0x61 0x41;
    action_key 2 (act_mods MOD_SET 0 (pure Shift));
    action_key 3 (act_mods MOD_SET 0 (pure Shift));
    action_key 4 (act_mods MOD_LOCK 0 (pure Lock));
    action_key 5 (act_mods MOD_LATCH 0 (pure Shift));
    action_key 6 (act_mods MOD_SET ACTION_LOCK_CLEAR (pure Control));
    action_key 7 (act_group GROUP_SET 0 1);
    action_key 8 (act_group GROUP_LOCK 0 1);
    action_key 9 (act_group GROUP_LATCH 0 1);
    action_key 10 (act_ctrls CTRL_LOCK 0 CONTROL_STICKY_KEYS);
    action_key 11 (act_redirect (mk_redirect 1 Shift Shift));
    action_key 12 (act_group GROUP_SET 0 2);
    action_key 13 (act_ctrls CTRL_LOCK 0 (bit 1));
    mk_key 14 114 true 1 true [1%nat] LAYOUT_WRAP 0 [mk_group one_level [sym_level 0x78 0x58]];
    action_key 15 act_void;
    letter_key 5000 0x7a 0x5a ].

Definition real_mod (i : Z) : xkb_mod := mk_mod (10 + i) MOD_REAL (bit i).

Definition sample_keymap : xkb_keymap :=
  mk_keymap XKB_KEYMAP_FORMAT_TEXT_V1
    [ mk_led 50 0 0 (2 ^ 2) (pure Lock) 0; mk_led 51 (2 ^ 7) 2 0 (pure 0) 0 ]
    1 5000 16 sample_keys [mk_alias 101 201]
    (map real_mod [0; 1; 2; 3; 4; 5; 6; 7] ++ [mk_mod 18 MOD_VIRT (bit 4)])
    0xff 2 [30; 31].

(** The same keymap in the second format. *)
Definition sample_keymap_v2 : xkb_keymap :=
  mk_keymap XKB_KEYMAP_FORMAT_TEXT_V2 (km_leds sample_keymap) 1 5000 16 sample_keys
    (km_key_aliases sample_keymap) (km_mods sample_keymap) 0xff 2 [30; 31].

Ltac forall_items := cbn; repeat (apply Forall_cons_2; [cbn|]); try apply Forall_nil_2.

Lemma one_level_wf : key_type_wf one_level.
Proof. split; [forall_items; lia | cbn; unfold XKB_LEVEL_INVALID; lia]. Qed.

Lemma two_level_wf : key_type_wf two_level.
Proof. split; [forall_items; lia | cbn; unfold XKB_LEVEL_INVALID; lia]. Qed.

Lemma sample_keys_wf : Forall key_wf sample_keys.
Proof.
  forall_items; (split; [forall_items | cbn; unfold k_num_groups, XKB_MAX_GROUPS; cbn; lia..]);
    (split; [auto using one_level_wf, two_level_wf | cbn; lia]).
Qed.

Lemma sample_keymap_wf : keymap_wf sample_keymap.
Proof.
  split; cbn; unfold km_num_keys, XKB_MAX_GROUPS, XKB_MAX_MODS, is_u32; cbn; try lia.
  - exact sample_keys_wf.
  - intros i k Hk Hi Hmin.
    do 16 (destruct i as [|i]; [cbn in Hk; first [lia | by injection Hk as <-]|]). lia.
  - intros i j k k' Hi Hj Hlow Hlt. apply lookup_lt_Some in Hj. cbn in Hj. lia.
  - intros i k Hk Hlow. pose proof (lookup_lt_Some _ _ _ Hk) as Hlt. cbn in Hlt.
    replace i with 16%nat in Hk by lia. cbn in Hk. injection Hk as <-. cbn. lia.
  - apply (bool_decide_unpack (Forall (fun m => is_u32 (mod_mapping m)) (km_mods sample_keymap))). reflexivity.
Qed.
