(* ===== verification/State.v ===== *)
(** * The keyboard state components (src/state.c, src/state-priv.h)

    [struct state_components], the base [struct xkb_state] shared by every
    kind of state, the derived components (effective modifiers and group,
    LEDs), the change masks and the serialisation functions. *)

From Stdlib Require Import ZArith Lia Btauto.
From stdpp Require Import base tactics list numbers.
From S2P Require Import Prelude Keymap.

(** ** [enum xkb_state_component] *)

Definition XKB_STATE_MODS_DEPRESSED : Z := 2 ^ 0.
Definition XKB_STATE_MODS_LATCHED : Z := 2 ^ 1.
Definition XKB_STATE_MODS_LOCKED : Z := 2 ^ 2.
Definition XKB_STATE_MODS_EFFECTIVE : Z := 2 ^ 3.
Definition XKB_STATE_LAYOUT_DEPRESSED : Z := 2 ^ 4.
Definition XKB_STATE_LAYOUT_LATCHED : Z := 2 ^ 5.
Definition XKB_STATE_LAYOUT_LOCKED : Z := 2 ^ 6.
Definition XKB_STATE_LAYOUT_EFFECTIVE : Z := 2 ^ 7.
Definition XKB_STATE_LEDS : Z := 2 ^ 8.
Definition XKB_STATE_CONTROLS : Z := 2 ^ 9.

(** ** The components *)

Record state_components := mk_components {
  base_group : Z;      (** int32_t, may be negative *)
  latched_group : Z;   (** int32_t *)
  locked_group : Z;    (** int32_t *)
  group : Z;           (** effective, uint32_t *)
  base_mods : Z;
  latched_mods : Z;
  locked_mods : Z;
  mods : Z;            (** effective *)
  leds : Z;
  controls : Z
}.

#[global] Instance state_components_eq_dec : EqDecision state_components.
Proof. solve_decision. Defined.

Definition set_base_group v c := mk_components v (latched_group c) (locked_group c) (group c)
  (base_mods c) (latched_mods c) (locked_mods c) (mods c) (leds c) (controls c).
Definition set_latched_group v c := mk_components (base_group c) v (locked_group c) (group c)
  (base_mods c) (latched_mods c) (locked_mods c) (mods c) (leds c) (controls c).
Definition set_locked_group v c := mk_components (base_group c) (latched_group c) v (group c)
  (base_mods c) (latched_mods c) (locked_mods c) (mods c) (leds c) (controls c).
Definition set_group v c := mk_components (base_group c) (latched_group c) (locked_group c) v
  (base_mods c) (latched_mods c) (locked_mods c) (mods c) (leds c) (controls c).
Definition set_base_mods v c := mk_components (base_group c) (latched_group c) (locked_group c)
  (group c) v (latched_mods c) (locked_mods c) (mods c) (leds c) (controls c).
Definition set_latched_mods v c := mk_components (base_group c) (latched_group c) (locked_group c)
  (group c) (base_mods c) v (locked_mods c) (mods c) (leds c) (controls c).
Definition set_locked_mods v c := mk_components (base_group c) (latched_group c) (locked_group c)
  (group c) (base_mods c) (latched_mods c) v (mods c) (leds c) (controls c).
Definition set_mods v c := mk_components (base_group c) (latched_group c) (locked_group c)
  (group c) (base_mods c) (latched_mods c) (locked_mods c) v (leds c) (controls c).
Definition set_leds v c := mk_components (base_group c) (latched_group c) (locked_group c)
  (group c) (base_mods c) (latched_mods c) (locked_mods c) (mods c) v (controls c).
Definition set_controls v c := mk_components (base_group c) (latched_group c) (locked_group c)
  (group c) (base_mods c) (latched_mods c) (locked_mods c) (mods c) (leds c) v.

(** All zero: the components after [calloc]. *)
Definition zero_components : state_components := mk_components 0 0 0 0 0 0 0 0 0 0.

(** [enum xkb_state_mode_internal] *)
Inductive state_mode :=
| CLIENT_STATE | SERVER_COMPANION | LEGACY_MIXED_STATE | LEGACY_SERVER_STATE | SERVER_STATE.

#[global] Instance out_of_range_policy_eq_dec : EqDecision out_of_range_policy.
Proof. solve_decision. Defined.
#[global] Instance state_mode_eq_dec : EqDecision state_mode.
Proof. solve_decision. Defined.

(** [mode > SERVER_COMPANION]: the object is a [struct xkb_server_state]. *)
Definition is_server_mode (m : state_mode) : bool :=
  match m with CLIENT_STATE | SERVER_COMPANION => false | _ => true end.

(** [struct xkb_state]; the reference count is kept by the modules that
    allocate and free states. *)
Record xkb_state := mk_state {
  st_keymap : xkb_keymap;
  st_components : state_components;
  st_policy : out_of_range_policy;   (** [out_of_range_group.policy] *)
  st_redirect : Z;                   (** [out_of_range_group.redirect_group], 6 bits *)
  st_mode : state_mode
}.

Definition st_set_components (c : state_components) (s : xkb_state) : xkb_state :=
  mk_state (st_keymap s) c (st_policy s) (st_redirect s) (st_mode s).
Definition st_set_policy (p : out_of_range_policy) (s : xkb_state) : xkb_state :=
  mk_state (st_keymap s) (st_components s) p (st_redirect s) (st_mode s).
Definition st_set_redirect (r : Z) (s : xkb_state) : xkb_state :=
  mk_state (st_keymap s) (st_components s) (st_policy s) r (st_mode s).

(** ** Change masks *)

Definition get_state_component_changes (a b : state_components) : Z :=
  let add (changed : bool) (flag mask : Z) := if changed then Z.lor mask flag else mask in
  add (negb (controls a =? controls b)) XKB_STATE_CONTROLS
  (add (negb (leds a =? leds b)) XKB_STATE_LEDS
  (add (negb (locked_mods a =? locked_mods b)) XKB_STATE_MODS_LOCKED
  (add (negb (latched_mods a =? latched_mods b)) XKB_STATE_MODS_LATCHED
  (add (negb (base_mods a =? base_mods b)) XKB_STATE_MODS_DEPRESSED
  (add (negb (mods a =? mods b)) XKB_STATE_MODS_EFFECTIVE
  (add (negb (locked_group a =? locked_group b)) XKB_STATE_LAYOUT_LOCKED
  (add (negb (latched_group a =? latched_group b)) XKB_STATE_LAYOUT_LATCHED
  (add (negb (base_group a =? base_group b)) XKB_STATE_LAYOUT_DEPRESSED
  (add (negb (group a =? group b)) XKB_STATE_LAYOUT_EFFECTIVE 0))))))))).

(** ** Key type entries and levels *)

Definition get_entry_for_mods (t : xkb_key_type) (mods : Z) : option xkb_key_type_entry :=
  match list_find (fun e => entry_is_active e && (m_mask (e_mods e) =? mods) = true)
          (t_entries t) with
  | Some (_, e) => Some e
  | None => None
  end.

(** [key->groups[group].type] is read: the callers give a group of the key. *)
Definition get_entry_for_key_state (s : xkb_state) (key : xkb_key) (group : Z)
    : option xkb_key_type_entry :=
  match item (k_groups key) group with
  | Some g => get_entry_for_mods (g_type g)
                (Z.land (mods (st_components s)) (m_mask (t_mods (g_type g))))
  | None => None
  end.

Definition state_key_get_level (s : xkb_state) (key : xkb_key) (layout : Z) : Z :=
  if layout >=? k_num_groups key then XKB_LEVEL_INVALID
  else match get_entry_for_key_state s key layout with
       | Some e => e_level e
       | None => 0
       end.

Definition xkb_state_key_get_level (s : xkb_state) (kc layout : Z) : Z :=
  match lookup_key (st_keymap s) kc with
  | Some key => state_key_get_level s key layout
  | None => XKB_LEVEL_INVALID
  end.

Definition state_key_get_layout (s : xkb_state) (key : xkb_key) : Z :=
  xkb_keymap_key_effective_layout key (group (st_components s)).

Definition xkb_state_key_get_layout (s : xkb_state) (kc : Z) : Z :=
  match lookup_key (st_keymap s) kc with
  | Some key => state_key_get_layout s key
  | None => XKB_LAYOUT_INVALID
  end.

(** The actions of the key in the current state: [dummy_action] when the
    level has none. *)
Definition xkb_key_get_actions (s : xkb_state) (key : xkb_key) : list xkb_action :=
  let layout := state_key_get_layout s key in
  let level := state_key_get_level s key layout in
  if level =? XKB_LEVEL_INVALID then [act_none]
  else match xkb_keymap_key_get_actions_by_level key layout level with
       | [] => [act_none]
       | actions => actions
       end.

(** ** LEDs and derived components *)

(** The condition under which the loop of [xkb_state_led_update_all] turns a
    LED on, its three tests in order. *)
Definition led_is_on (led : xkb_led) (c : state_components) : bool :=
  let by_mods :=
    if negb (led_which_mods led =? 0) && negb (m_mask (led_mods led) =? 0) then
      let pick flag v := if has_flag (led_which_mods led) flag then v else 0 in
      let mod_mask :=
        Z.lor (Z.lor (Z.lor (pick XKB_STATE_MODS_EFFECTIVE (mods c))
                            (pick XKB_STATE_MODS_DEPRESSED (base_mods c)))
                     (pick XKB_STATE_MODS_LATCHED (latched_mods c)))
              (pick XKB_STATE_MODS_LOCKED (locked_mods c)) in
      has_flag (m_mask (led_mods led)) mod_mask
    else false in
  let by_groups :=
    if negb (led_which_groups led =? 0) then
      if negb (led_groups led =? 0) then
        let pick flag v := if has_flag (led_which_groups led) flag then v else 0 in
        let group_mask :=
          Z.lor (Z.lor (Z.lor (pick XKB_STATE_LAYOUT_EFFECTIVE (bit (group c)))
                              (pick XKB_STATE_LAYOUT_LOCKED (bit (locked_group c))))
                       (if has_flag (led_which_groups led) XKB_STATE_LAYOUT_DEPRESSED &&
                           negb (base_group c =? 0) then led_groups led else 0))
                (if has_flag (led_which_groups led) XKB_STATE_LAYOUT_LATCHED &&
                    negb (latched_group c =? 0) then led_groups led else 0) in
        has_flag (led_groups led) group_mask
      else
        (has_flag (led_which_groups led) XKB_STATE_LAYOUT_DEPRESSED && (base_group c =? 0)) ||
        (has_flag (led_which_groups led) XKB_STATE_LAYOUT_LATCHED && (latched_group c =? 0))
    else false in
  by_mods || by_groups || has_flag (led_ctrls led) (controls c).

Fixpoint led_update_loop (idx : Z) (ledl : list xkb_led) (c : state_components) : Z :=
  match ledl with
  | [] => 0
  | led :: rest =>
      Z.lor (if led_is_on led c then bit idx else 0) (led_update_loop (idx + 1) rest c)
  end.

Definition led_update_all (km : xkb_keymap) (c : state_components) : state_components :=
  set_leds (led_update_loop 0 (km_leds km) c) c.

Definition wrap_or_0 (wrapped : Z) : Z :=
  if wrapped =? XKB_LAYOUT_INVALID then 0 else wrapped.

(** The sum of the three groups is an [int32_t] sum of the source. *)
Definition update_derived (s : xkb_state) (c : state_components) : state_components :=
  let km := st_keymap s in
  let c := set_mods (Z.lor (Z.lor (base_mods c) (latched_mods c)) (locked_mods c)) c in
  let wrapped := XkbWrapGroupIntoRange (locked_group c) (km_num_groups km)
                   (st_policy s) (st_redirect s) in
  let c := set_locked_group (i32 (wrap_or_0 wrapped)) c in
  let wrapped := XkbWrapGroupIntoRange
                   (i32 (i32 (base_group c + latched_group c) + locked_group c))
                   (km_num_groups km) (st_policy s) (st_redirect s) in
  let c := set_group (wrap_or_0 wrapped) c in
  led_update_all km c.

Definition xkb_state_update_derived (s : xkb_state) : xkb_state :=
  st_set_components (update_derived s (st_components s)) s.

Definition xkb_state_init (km : xkb_keymap) (mode : state_mode) : xkb_state :=
  xkb_state_update_derived (mk_state km zero_components LAYOUT_WRAP 0 mode).

(** ** Serialisation *)

Definition serialize_mods (c : state_components) (type : Z) : Z :=
  if has_flag type XKB_STATE_MODS_EFFECTIVE then mods c
  else
    let pick flag v := if has_flag type flag then v else 0 in
    Z.lor (Z.lor (pick XKB_STATE_MODS_DEPRESSED (base_mods c))
                 (pick XKB_STATE_MODS_LATCHED (latched_mods c)))
          (pick XKB_STATE_MODS_LOCKED (locked_mods c)).

Definition serialize_layout (c : state_components) (type : Z) : Z :=
  if has_flag type XKB_STATE_LAYOUT_EFFECTIVE then group c
  else
    let pick flag v := if has_flag type flag then v else 0 in
    u32 (i32 (i32 (pick XKB_STATE_LAYOUT_DEPRESSED (base_group c) +
                   pick XKB_STATE_LAYOUT_LATCHED (latched_group c)) +
              pick XKB_STATE_LAYOUT_LOCKED (locked_group c))).

Definition serialize_controls (c : state_components) (type : Z) : Z :=
  if has_flag type XKB_STATE_CONTROLS then Z.land (controls c) CONTROL_ALL_BOOLEAN else 0.

Definition xkb_state_serialize_mods (s : xkb_state) (type : Z) : Z :=
  serialize_mods (st_components s) type.
Definition xkb_state_serialize_layout (s : xkb_state) (type : Z) : Z :=
  serialize_layout (st_components s) type.
Definition xkb_state_serialize_enabled_controls (s : xkb_state) (type : Z) : Z :=
  serialize_controls (st_components s) type.

(** ** Lemmas on the change mask *)

Lemma lor_if_testbit (b : bool) (mask flag : Z) i :
  Z.testbit (if b then Z.lor mask flag else mask) i =
  Z.testbit mask i || (b && Z.testbit flag i).
Proof. destruct b; cbn; [by rewrite Z.lor_spec | by rewrite orb_false_r]. Qed.

(** The bit of each component, and no other. *)
Definition changed_bit (a b : state_components) (i : Z) : bool :=
  if i =? 0 then negb (base_mods a =? base_mods b)
  else if i =? 1 then negb (latched_mods a =? latched_mods b)
  else if i =? 2 then negb (locked_mods a =? locked_mods b)
  else if i =? 3 then negb (mods a =? mods b)
  else if i =? 4 then negb (base_group a =? base_group b)
  else if i =? 5 then negb (latched_group a =? latched_group b)
  else if i =? 6 then negb (locked_group a =? locked_group b)
  else if i =? 7 then negb (group a =? group b)
  else if i =? 8 then negb (leds a =? leds b)
  else if i =? 9 then negb (controls a =? controls b)
  else false.

Lemma changes_testbit a b i :
  0 <= i -> Z.testbit (get_state_component_changes a b) i = changed_bit a b i.
Proof.
  intros Hi. unfold get_state_component_changes. cbv zeta.
  rewrite !lor_if_testbit, Z.testbit_0_l.
  change XKB_STATE_CONTROLS with (bit 9). change XKB_STATE_LEDS with (bit 8).
  change XKB_STATE_MODS_LOCKED with (bit 2). change XKB_STATE_MODS_LATCHED with (bit 1).
  change XKB_STATE_MODS_DEPRESSED with (bit 0). change XKB_STATE_MODS_EFFECTIVE with (bit 3).
  change XKB_STATE_LAYOUT_LOCKED with (bit 6). change XKB_STATE_LAYOUT_LATCHED with (bit 5).
  change XKB_STATE_LAYOUT_DEPRESSED with (bit 4). change XKB_STATE_LAYOUT_EFFECTIVE with (bit 7).
  rewrite !bit_spec by lia. unfold changed_bit.
  repeat match goal with |- context [negb ?x] => generalize (negb x); intros ? end.
  do 10 (match goal with |- context [if i =? ?n then _ else _] =>
    destruct (Z.eqb_spec i n) as [->|]; [cbn; by rewrite ?andb_false_r, ?andb_true_r, ?orb_false_r|] end).
  repeat (match goal with |- context [?n =? i] =>
    destruct (Z.eqb_spec n i); [lia|] end).
  by rewrite !andb_false_r.
Qed.

Lemma changes_zero a b : get_state_component_changes a b = 0 <-> a = b.
Proof.
  split; [|intros ->; unfold get_state_component_changes; by rewrite !Z.eqb_refl].
  intros H. assert (forall i, 0 <= i -> changed_bit a b i = false) as Hb.
  { intros i Hi. rewrite <- changes_testbit by done. by rewrite H, Z.testbit_0_l. }
  pose proof (Hb 0 ltac:(lia)). pose proof (Hb 1 ltac:(lia)). pose proof (Hb 2 ltac:(lia)).
  pose proof (Hb 3 ltac:(lia)). pose proof (Hb 4 ltac:(lia)). pose proof (Hb 5 ltac:(lia)).
  pose proof (Hb 6 ltac:(lia)). pose proof (Hb 7 ltac:(lia)). pose proof (Hb 8 ltac:(lia)).
  pose proof (Hb 9 ltac:(lia)). clear H Hb. unfold changed_bit in *. cbn in *.
  destruct a, b; cbn in *.
  repeat match goal with H : negb _ = false |- _ => apply negb_false_iff, Z.eqb_eq in H end.
  congruence.
Qed.

(** ** Lemmas on the derived components *)

Lemma led_update_loop_testbit idx ledl c i :
  0 <= idx -> 0 <= i ->
  Z.testbit (led_update_loop idx ledl c) i =
    match item ledl (i - idx) with Some led => led_is_on led c | None => false end.
Proof.
  revert idx. induction ledl as [|led rest IH]; intros idx Hidx Hi.
  - cbn. rewrite Z.testbit_0_l. unfold item. by destruct (i - idx <? 0).
  - cbn. rewrite Z.lor_spec, IH by lia. unfold item.
    destruct (Z.lt_trichotomy i idx) as [Hlt|[->|Hgt]].
    + destruct (Z.ltb_spec (i - (idx + 1)) 0), (Z.ltb_spec (i - idx) 0); try lia.
      destruct (led_is_on led c); [rewrite bit_spec by lia|by rewrite Z.testbit_0_l].
      destruct (Z.eqb_spec idx i); [lia|done].
    + rewrite Z.sub_diag. destruct (Z.ltb_spec (idx - (idx + 1)) 0); [|lia]. change ((led :: rest) !! Z.to_nat 0) with (Some led). cbn.
      rewrite orb_false_r. destruct (led_is_on led c) eqn:E; [|by rewrite Z.testbit_0_l].
      by rewrite bit_spec, Z.eqb_refl by lia.
    + destruct (Z.ltb_spec (i - (idx + 1)) 0), (Z.ltb_spec (i - idx) 0); try lia.
      replace (Z.to_nat (i - idx)) with (S (Z.to_nat (i - (idx + 1)))) by lia. cbn.
      replace (Z.testbit (if led_is_on led c then bit idx else 0) i) with false; [done|].
      destruct (led_is_on led c); [rewrite bit_spec by lia|by rewrite Z.testbit_0_l].
      destruct (Z.eqb_spec idx i); [lia|done].
Qed.

(** The LEDs only read the other components. *)
Lemma led_is_on_leds led c v : led_is_on led (set_leds v c) = led_is_on led c.
Proof. done. Qed.

Lemma led_update_loop_leds idx ledl c v :
  led_update_loop idx ledl (set_leds v c) = led_update_loop idx ledl c.
Proof. revert idx. induction ledl as [|led rest IH]; intros idx; cbn; [done|]. by rewrite IH. Qed.

(** What [xkb_state_update_derived] establishes. *)
Record derived_ok (s : xkb_state) (c : state_components) : Prop := {
  der_mods : mods c = Z.lor (Z.lor (base_mods c) (latched_mods c)) (locked_mods c);
  der_locked : locked_group c =
    wrap_or_0 (XkbWrapGroupIntoRange (locked_group c) (km_num_groups (st_keymap s))
                 (st_policy s) (st_redirect s));
  der_locked_range : 0 <= locked_group c < Z.max 1 (km_num_groups (st_keymap s));
  der_group : group c =
    wrap_or_0 (XkbWrapGroupIntoRange
      (i32 (i32 (base_group c + latched_group c) + locked_group c))
      (km_num_groups (st_keymap s)) (st_policy s) (st_redirect s));
  der_group_range : 0 <= group c < Z.max 1 (km_num_groups (st_keymap s));
  der_leds : leds c = led_update_loop 0 (km_leds (st_keymap s)) c
}.

Lemma derived_ok_ext s s' c :
  st_keymap s' = st_keymap s -> st_policy s' = st_policy s -> st_redirect s' = st_redirect s ->
  derived_ok s c -> derived_ok s' c.
Proof. intros Hk Hp Hr []. split; by rewrite ?Hk, ?Hp, ?Hr. Qed.

Lemma wrap_or_0_range g n policy red :
  is_i32 g -> 0 <= n <= XKB_MAX_GROUPS -> 0 <= red ->
  0 <= wrap_or_0 (XkbWrapGroupIntoRange g n policy red) < Z.max 1 n.
Proof.
  intros Hg Hn Hr. unfold wrap_or_0. destruct (Z.eqb_spec n 0) as [->|].
  - rewrite wrap_no_groups. cbn. lia.
  - pose proof (wrap_bound g n policy red Hg ltac:(lia) Hr).
    unfold XKB_LAYOUT_INVALID, XKB_MAX_GROUPS in *.
    destruct (Z.eqb_spec (XkbWrapGroupIntoRange g n policy red) 0xffffffff); lia.
Qed.

Lemma wrap_or_0_fixed g n policy red :
  0 <= g < Z.max 1 n -> 0 <= n <= XKB_MAX_GROUPS ->
  wrap_or_0 (XkbWrapGroupIntoRange g n policy red) = g.
Proof.
  intros Hg Hn. unfold wrap_or_0. destruct (Z.eqb_spec n 0) as [->|].
  - rewrite wrap_no_groups. cbn. lia.
  - rewrite wrap_fixed by lia. unfold XKB_LAYOUT_INVALID, XKB_MAX_GROUPS in *.
    destruct (Z.eqb_spec g 0xffffffff); lia.
Qed.

Section derived.
Context (s : xkb_state).
Hypothesis Hgroups : 0 <= km_num_groups (st_keymap s) <= XKB_MAX_GROUPS.
Hypothesis Hredirect : 0 <= st_redirect s.

Lemma update_derived_ok c : is_i32 (locked_group c) -> derived_ok s (update_derived s c).
Proof.
  intros Hl. unfold update_derived, led_update_all.
  pose proof (wrap_or_0_range (locked_group c) _ (st_policy s) _ Hl Hgroups Hredirect) as Hr.
  cbn [locked_group set_mods].
  set (l := wrap_or_0 (XkbWrapGroupIntoRange (locked_group c) _ _ _)) in *.
  assert (i32 l = l) as ->.
  { apply i32_id. unfold is_i32, XKB_MAX_GROUPS in *. lia. }
  split; cbn; try done.
  - by rewrite wrap_or_0_fixed.
  - apply wrap_or_0_range; [apply i32_range | done | done].
  - by rewrite led_update_loop_leds.
Qed.

(** The derived components are a fixed point. *)
Lemma update_derived_fixed c : derived_ok s c -> update_derived s c = c.
Proof.
  intros [Hm Hl Hlr Hg Hgr Hleds]. unfold update_derived, led_update_all. cbn -[XkbWrapGroupIntoRange].
  rewrite <- Hl, <- Hm.
  assert (i32 (locked_group c) = locked_group c) as ->.
  { apply i32_id. unfold is_i32, XKB_MAX_GROUPS in *. lia. }
  rewrite <- Hg. destruct c; cbn in *. unfold set_leds; cbn. f_equal. by rewrite Hleds at 2.
Qed.
End derived.

(** Components with the same base, latched and locked parts derive the same. *)
Lemma update_derived_ext s c c' :
  base_group c = base_group c' -> latched_group c = latched_group c' ->
  locked_group c = locked_group c' -> base_mods c = base_mods c' ->
  latched_mods c = latched_mods c' -> locked_mods c = locked_mods c' ->
  controls c = controls c' -> update_derived s c = update_derived s c'.
Proof.
  intros. destruct c, c'; cbn in *; subst.
  unfold update_derived, led_update_all, set_leds, set_group, set_locked_group, set_mods.
  cbn. f_equal.
  match goal with |- led_update_loop _ _ ?c1 = led_update_loop _ _ ?c2 =>
    symmetry; exact (led_update_loop_leds 0 _ c1 (leds c2)) end.
Qed.
