(* ===== verification/KeymapSpec.v ===== *)
(** * Properties of keymap queries and of the derived components

    The lookups of a compiled keymap against their specifications, the
    enumeration of keys, the modifiers of a level, and the effective
    components with the change masks. *)

From Stdlib Require Import ZArith Lia.
From stdpp Require Import base tactics list numbers.
From S2P Require Import Prelude Keymap State.

(** ** Lookups *)

(** [XkbKey] finds the key of a keycode in range, and nothing else: direct
    indexing of the low keycodes and binary search of the high ones agree with
    a search through the keys. *)
Theorem XkbKey_spec km kc i :
  keymap_wf km ->
  XkbKey km kc = Some i <->
  exists k, key_at km i = Some k /\ k_keycode k = kc /\
            km_min_key_code km <= kc <= km_max_key_code km /\
            (Z.of_nat i < km_num_keys_low km -> km_min_key_code km <= Z.of_nat i).
Proof.
  intros Hwf. split; [by apply XkbKey_sound|].
  intros (k & Hk & <- & Hr & Hi). by apply XkbKey_complete.
Qed.

Lemma XkbKey_spec_witness :
  XkbKey sample_keymap 5000 = Some 16%nat <->
  exists k, key_at sample_keymap 16 = Some k /\ k_keycode k = 5000 /\
            km_min_key_code sample_keymap <= 5000 <= km_max_key_code sample_keymap /\
            (Z.of_nat 16 < km_num_keys_low sample_keymap ->
             km_min_key_code sample_keymap <= Z.of_nat 16).
Proof. exact (XkbKey_spec sample_keymap 5000 16 sample_keymap_wf). Defined.

(** A group out of range is wrapped, clamped or redirected into the groups
    of the key; one in range is kept. *)
Theorem XkbWrapGroupIntoRange_spec group n policy redirect :
  is_i32 group -> 0 < n <= XKB_MAX_GROUPS -> 0 <= redirect ->
  let r := XkbWrapGroupIntoRange group n policy redirect in
  0 <= r < n /\
  (0 <= group < n -> r = group) /\
  (~ (0 <= group < n) ->
   match policy with
   | LAYOUT_WRAP => r = group mod n
   | LAYOUT_CLAMP => r = if group <? 0 then 0 else n - 1
   | LAYOUT_REDIRECT => r = if redirect <? n then redirect else 0
   end).
Proof.
  intros Hg Hn Hr. cbv zeta. split; [by apply wrap_bound|].
  rewrite XkbWrapGroupIntoRange_eq by done. split; intros H.
  - destruct (Z.leb_spec 0 group), (Z.ltb_spec group n); cbn; lia.
  - destruct (Z.leb_spec 0 group), (Z.ltb_spec group n); cbn; try lia;
      destruct policy; try done; destruct (Z.ltb_spec group 0); lia.
Qed.

Lemma XkbWrapGroupIntoRange_spec_witness :
  let r := XkbWrapGroupIntoRange (-1) 4 LAYOUT_WRAP 0 in
  0 <= r < 4 /\ (0 <= -1 < 4 -> r = -1) /\ (~ (0 <= -1 < 4) -> r = -1 mod 4).
Proof.
  apply (XkbWrapGroupIntoRange_spec (-1) 4 LAYOUT_WRAP 0); unfold is_i32, XKB_MAX_GROUPS; lia.
Defined.

(** ** The iterator of keys *)

Lemma filter_rev_list {A} (P : A -> Prop) `{forall x, Decision (P x)} (l : list A) :
  filter P (rev l) = rev (filter P l).
Proof.
  induction l as [|x l IH]; [done|]. cbn [rev]. rewrite list.filter_app, IH, !filter_cons, filter_nil.
  destruct (decide (P x)); cbn; by rewrite ?app_nil_r.
Qed.

(** Calling [xkb_keymap_key_iterator_next] until it answers
    [XKB_KEYCODE_INVALID] lists the keycodes of the keys, in ascending or
    descending order, but the unnamed ones and, on demand, the unbound ones. *)
Theorem key_iterator_enumerates km descending skip_unbound :
  keymap_wf km -> Forall (fun k => k_keycode k <> XKB_KEYCODE_INVALID) (km_keys km) ->
  (keys_start km < length (km_keys km))%nat ->
  let wanted k := (k_name k =? XKB_ATOM_NONE) || (skip_unbound && (k_num_groups k =? 0)) = false in
  let keys := map k_keycode (filter wanted (drop (keys_start km) (km_keys km))) in
  iterator_drain (S (length (km_keys km))) km
    (xkb_keymap_key_iterator_new km descending skip_unbound) =
  if descending then rev keys else keys.
Proof.
  intros Hwf Hcodes Hlen. cbv zeta. unfold xkb_keymap_key_iterator_new.
  destruct (Z.eqb_spec (km_num_keys km) 0) as [H0|_]; [unfold km_num_keys in H0; lia|].
  set (start := keys_start km) in *. set (last := (length (km_keys km) - 1)%nat).
  set (it := mk_key_iterator descending skip_unbound start last (Some (if descending then last else start))).
  destruct (lookup_lt_is_Some_2 (km_keys km) (if descending then last else start)) as [k Hk].
  { destruct descending; lia. }
  rewrite (iterator_drain_spec km it (S (length (km_keys km))) eq_refl Hcodes
    (if descending then last else start) k eq_refl Hk).
  - unfold it_rest, it_skipped. cbn [it_descending it_min it_skip_unbound it]. destruct descending; [|done].
    rewrite firstn_all2 by lia. rewrite <- map_rev. f_equal.
    by rewrite filter_rev_list.
  - cbn. destruct descending; lia.
  - pose proof (it_rest_length km it (if descending then last else start)). lia.
Qed.

Lemma key_iterator_enumerates_witness :
  let wanted k := (k_name k =? XKB_ATOM_NONE) || (true && (k_num_groups k =? 0)) = false in
  let keys := map k_keycode (filter wanted (drop (keys_start sample_keymap) sample_keys)) in
  iterator_drain (S (length sample_keys)) sample_keymap
    (xkb_keymap_key_iterator_new sample_keymap true true) = rev keys.
Proof.
  refine (key_iterator_enumerates sample_keymap true true sample_keymap_wf _ _).
  - repeat (apply Forall_cons_2; [vm_compute; discriminate|]). apply Forall_nil_2.
  - vm_compute. lia.
Defined.

(** ** The modifiers of a level *)

(** The level that the entries of a type give to a mask. *)
Definition level_of_mods (t : xkb_key_type) (mask : Z) : Z :=
  match get_entry_for_mods t mask with Some e => e_level e | None => 0 end.

Lemma collect_masks_elem entries level size mask :
  (length entries <= size)%nat ->
  mask ∈ collect_masks entries level size <->
  exists e, e ∈ entries /\ entry_is_active e = true /\ e_level e = level /\ m_mask (e_mods e) = mask.
Proof.
  revert size. induction entries as [|e es IH]; intros size Hs.
  - cbn. assert (mask ∈ [] <-> exists e : xkb_key_type_entry, e ∈ [] /\ entry_is_active e = true /\
      e_level e = level /\ m_mask (e_mods e) = mask) as H; [|by destruct size].
    split; [by intros ?%elem_of_nil|]. intros (e & He & _). by apply elem_of_nil in He.
  - destruct size as [|size]; cbn in *; [lia|].
    destruct (entry_is_active e && (e_level e =? level)) eqn:H.
    + apply andb_true_iff in H as [Ha Hl%Z.eqb_eq]. rewrite elem_of_cons, IH by lia. split.
      * intros [->|(e' & ? & ?)]; [exists e; by rewrite elem_of_cons; auto|].
        exists e'. rewrite elem_of_cons. auto.
      * intros (e' & [->|He]%elem_of_cons & Ha' & Hl' & Hm); [by left|]. right. eauto.
    + rewrite IH by lia. split.
      * intros (e' & ? & ?). exists e'. rewrite elem_of_cons. auto.
      * intros (e' & [->|He]%elem_of_cons & Ha' & Hl' & Hm); [|eauto].
        rewrite Ha', Hl', Z.eqb_refl in H. done.
Qed.

(** The active entries of a type have different masks. *)
Definition distinct_masks (t : xkb_key_type) : Prop :=
  forall e e', e ∈ t_entries t -> e' ∈ t_entries t ->
    entry_is_active e = true -> entry_is_active e' = true ->
    m_mask (e_mods e) = m_mask (e_mods e') -> e = e'.

Lemma get_entry_for_mods_spec t mask e :
  distinct_masks t ->
  get_entry_for_mods t mask = Some e <->
  e ∈ t_entries t /\ entry_is_active e = true /\ m_mask (e_mods e) = mask.
Proof.
  intros Hd. unfold get_entry_for_mods. split.
  - destruct (list_find _ _) as [[i e']|] eqn:H; [|done]. intros [= ->].
    apply list_find_Some in H as (Hi & [Ha Hm]%andb_true_iff & _).
    split; [by eapply list_elem_of_lookup_2|]. split; [done|]. by apply Z.eqb_eq.
  - intros (He & Ha & Hm). destruct (list_find _ _) as [[i e']|] eqn:H.
    + apply list_find_Some in H as (Hi & [Ha' Hm'%Z.eqb_eq]%andb_true_iff & _).
      f_equal. apply Hd; try done; [by eapply list_elem_of_lookup_2 | congruence].
    + apply list_find_None in H. rewrite Forall_forall in H. exfalso. apply (H e); [by apply list_elem_of_In|].
      rewrite Ha. by apply Z.eqb_eq.
Qed.

(** The masks of a level are those its entries map to it, with the empty mask
    for the first level when no entry maps it. *)
Theorem key_get_mods_for_level_spec km kc k layout level g size mask :
  lookup_key km kc = Some k ->
  item (k_groups k) (xkb_keymap_key_effective_layout k layout) = Some g ->
  xkb_keymap_key_effective_layout k layout <> XKB_LAYOUT_INVALID ->
  level < t_num_levels (g_type g) -> distinct_masks (g_type g) ->
  (length (t_entries (g_type g)) < size)%nat ->
  mask ∈ xkb_keymap_key_get_mods_for_level km kc layout level size <->
  (exists e, get_entry_for_mods (g_type g) mask = Some e /\ e_level e = level) \/
  (mask = 0 /\ level = 0 /\ get_entry_for_mods (g_type g) 0 = None).
Proof.
  intros Hk Hg Hi Hl Hd Hs. unfold xkb_keymap_key_get_mods_for_level. rewrite Hk.
  destruct (Z.eqb_spec (xkb_keymap_key_effective_layout k layout) XKB_LAYOUT_INVALID) as [?|_]; [done|].
  unfold XkbKeyNumLevels. rewrite Hg. destruct (Z.geb_spec level (t_num_levels (g_type g))) as [?|_]; [lia|].
  set (t := g_type g) in *.
  assert (forall n, (length (t_entries t) <= n)%nat ->
    mask ∈ collect_masks (t_entries t) level n <->
    exists e, get_entry_for_mods t mask = Some e /\ e_level e = level) as Hc.
  { intros n Hn. rewrite collect_masks_elem by done. split.
    - intros (e & He & Ha & Hlv & Hm). exists e. by rewrite get_entry_for_mods_spec.
    - intros (e & He & Hlv). rewrite get_entry_for_mods_spec in He by done. naive_solver. }
  assert (existsb (fun e => entry_is_active e && (m_mask (e_mods e) =? 0)) (t_entries t) = false <->
    get_entry_for_mods t 0 = None) as H0.
  { destruct (get_entry_for_mods t 0) as [e|] eqn:He.
    - apply get_entry_for_mods_spec in He as (He & Ha & Hm); [|done].
      split; [|done]. intros Hx. exfalso. revert Hx. apply not_false_iff_true, existsb_exists.
      exists e. rewrite Ha, Hm. split; [by apply list_elem_of_In | done].
    - split; [done|]. intros _. apply not_true_is_false. rewrite existsb_exists.
      intros (e & He'%list_elem_of_In & [Ha Hm%Z.eqb_eq]%andb_true_iff).
      assert (get_entry_for_mods t 0 = Some e) as Hx by by apply get_entry_for_mods_spec. congruence. }
  destruct (Nat.ltb_spec 0 size); [|lia]. rewrite andb_true_r.
  destruct (Z.eqb_spec level 0) as [->|Hne]; cbn [andb].
  - destruct (existsb _ _) eqn:Hx; cbn [negb].
    + rewrite Hc by lia. split; [by left|]. intros [?|(_ & _ & Hn)]; [done|].
      apply H0 in Hn. congruence.
    + rewrite elem_of_cons, Hc by lia. destruct H0 as [H0 _]. naive_solver.
  - rewrite Hc by lia. naive_solver.
Qed.

Lemma key_get_mods_for_level_spec_witness :
  Lock ∈ xkb_keymap_key_get_mods_for_level sample_keymap 1 0 1 10 <->
  (exists e, get_entry_for_mods two_level Lock = Some e /\ e_level e = 1) \/
  (Lock = 0 /\ 1 = 0 /\ get_entry_for_mods two_level 0 = None).
Proof.
  refine (key_get_mods_for_level_spec sample_keymap 1 (letter_key 1 0x61 0x41) 0 1
    (mk_group two_level [sym_level 0x61 0x41; sym_level 0x41 0x41]) 10 Lock _ _ _ _ _ _).
  - reflexivity.
  - reflexivity.
  - discriminate.
  - reflexivity.
  - intros e e' He He' _ _ Hm. cbn in He, He'. rewrite !elem_of_cons in He, He'.
    destruct He as [->|[->|He]]; [..|by apply elem_of_nil in He];
      (destruct He' as [->|[->|He']]; [..|by apply elem_of_nil in He']); done.
  - cbn. lia.
Defined.

(** ** Effective components *)


Definition sample_client : xkb_state :=
  mk_state sample_keymap (set_locked_group 5 (set_locked_mods Lock zero_components))
    LAYOUT_CLAMP 0 CLIENT_STATE.


(** Bit [i] of the LEDs is the state of the [i]th indicator of the keymap, and
    there is no other bit. *)
Theorem led_update_all_spec km c i :
  0 <= i ->
  Z.testbit (leds (led_update_all km c)) i =
    match item (km_leds km) i with Some led => led_is_on led c | None => false end.
Proof.
  intros Hi. unfold led_update_all. cbn. rewrite led_update_loop_testbit by lia.
  by rewrite Z.sub_0_r.
Qed.

Lemma led_update_all_spec_witness :
  Z.testbit (leds (led_update_all sample_keymap (st_components sample_client))) 0 = true.
Proof. exact (led_update_all_spec sample_keymap (st_components sample_client) 0 ltac:(lia)). Defined.

(** The change mask has exactly the bits of the components that differ, hence
    is empty exactly for equal components. *)
Theorem get_state_component_changes_spec a b :
  (forall i, 0 <= i -> Z.testbit (get_state_component_changes a b) i = changed_bit a b i) /\
  (get_state_component_changes a b = 0 <-> a = b).
Proof. split; [intros i; apply changes_testbit | apply changes_zero]. Qed.
