(* ===== verification/Filters.v ===== *)
(** * Server state and key action filters (src/state.c)

    [struct xkb_server_state], the array of filters, the handlers of the key
    actions ([xkb_filter_*_new] and [xkb_filter_*_func]), the latch and lock
    updates they call, and [xkb_filter_apply_all].

    Handlers are computations of [M sctx]: the context holds the server state
    and the events collection ([None] for the [NULL] of the legacy API).  A
    [struct xkb_filter *] is an index in the filters array; the array keeps
    its allocation size, so that a pointer used after the array has been
    reallocated is a fault ([FaultUseAfterRealloc]). *)

From Stdlib Require Import ZArith Lia.
From stdpp Require Import base tactics list numbers.
From S2P Require Import Prelude Keymap State.

(** ** Keys and directions *)

Inductive xkb_key_direction := KEY_UP | KEY_DOWN | KEY_REPEATED.

#[global] Instance key_direction_eq_dec : EqDecision xkb_key_direction.
Proof. solve_decision. Defined.

(** Addresses of keys: a key of the keymap, or one of the synthetic keys of
    [update_latch_modifiers] and [update_latch_group]. *)
Inductive key_addr :=
| KeymapKey (i : nat)
| synthetic_key
| synthetic_key_break_mod_latch
| synthetic_key_break_group_latch.

#[global] Instance key_addr_eq_dec : EqDecision key_addr.
Proof. solve_decision. Defined.

(** A [const struct xkb_key *]: the address, compared by the filters, and the
    key it points to. *)
Record key_ptr := mk_key_ptr { kp_addr : key_addr; kp_key : xkb_key }.

(** ** Filters *)

(** The function pointer [func] of an active filter. *)
Inductive filter_func :=
| group_set_func | group_lock_func | group_latch_func
| mod_set_func | mod_lock_func | mod_latch_func
| ctrls_func | redirect_key_func.

#[global] Instance filter_func_eq_dec : EqDecision filter_func.
Proof. solve_decision. Defined.

Record xkb_filter := mk_filter {
  f_action : xkb_action;
  f_key : option key_addr;
  f_func : option filter_func;
  f_priv : Z;
  f_refcnt : Z
}.

Definition f_set_action v f := mk_filter v (f_key f) (f_func f) (f_priv f) (f_refcnt f).
Definition f_set_key v f := mk_filter (f_action f) v (f_func f) (f_priv f) (f_refcnt f).
Definition f_set_func v f := mk_filter (f_action f) (f_key f) v (f_priv f) (f_refcnt f).
Definition f_set_priv v f := mk_filter (f_action f) (f_key f) (f_func f) v (f_refcnt f).
Definition f_set_refcnt v f := mk_filter (f_action f) (f_key f) (f_func f) (f_priv f) v.

(** A slot after [darray_resize0]. *)
Definition zero_filter : xkb_filter := mk_filter act_none None None 0 0.

(** Fields of the members [mods], [group], [ctrls] of the action of a filter. *)
Definition a_flags (a : xkb_action) : Z :=
  match a with
  | act_mods _ fl _ | act_group _ fl _ | act_ctrls _ fl _ => fl
  | _ => 0
  end.
Definition a_mask (a : xkb_action) : Z :=
  match a with act_mods _ _ m => m_mask m | _ => 0 end.
Definition a_group (a : xkb_action) : Z :=
  match a with act_group _ _ g => g | _ => 0 end.
Definition a_ctrls (a : xkb_action) : Z :=
  match a with act_ctrls _ _ c => c | _ => 0 end.

Definition a_set_flags (fl : Z) (a : xkb_action) : xkb_action :=
  match a with
  | act_mods t _ m => act_mods t fl m
  | act_group t _ g => act_group t fl g
  | act_ctrls t _ c => act_ctrls t fl c
  | a => a
  end.

Definition f_flags (f : xkb_filter) : Z := a_flags (f_action f).
Definition f_mask (f : xkb_filter) : Z := a_mask (f_action f).
Definition f_set_flags (fl : Z) (f : xkb_filter) : xkb_filter :=
  f_set_action (a_set_flags fl (f_action f)) f.

(** ** Server state *)

(** [enum xkb_a11y_flags] *)
Definition XKB_A11Y_STICKY_KEYS_NO_SIMULTANEOUS_KEYS : Z := 2 ^ 0.
Definition XKB_A11Y_STICKY_KEYS_LATCH_TO_LOCK : Z := 2 ^ 1.
Definition XKB_A11Y_LATCH_SIMULTANEOUS_KEYS : Z := 2 ^ 2.

(** [enum xkb_internal_action_flags] *)
Definition INTERNAL_BREAKS_GROUP_LATCH : Z := 2 ^ 0.
Definition INTERNAL_BREAKS_MOD_LATCH : Z := 2 ^ 1.

Record xkb_server_state := mk_server {
  ss_base : xkb_state;
  ss_filters : list xkb_filter;
  ss_alloc : nat;              (** [filters.alloc] *)
  ss_flags : Z;
  ss_set_mods : Z;
  ss_clear_mods : Z;
  ss_mod_key_count : list Z    (** [int16_t mod_key_count[XKB_MAX_MODS]] *)
}.

Definition ss_set_base v s := mk_server v (ss_filters s) (ss_alloc s) (ss_flags s)
  (ss_set_mods s) (ss_clear_mods s) (ss_mod_key_count s).
Definition ss_set_filters v s := mk_server (ss_base s) v (ss_alloc s) (ss_flags s)
  (ss_set_mods s) (ss_clear_mods s) (ss_mod_key_count s).
Definition ss_set_alloc v s := mk_server (ss_base s) (ss_filters s) v (ss_flags s)
  (ss_set_mods s) (ss_clear_mods s) (ss_mod_key_count s).
Definition ss_set_flags v s := mk_server (ss_base s) (ss_filters s) (ss_alloc s) v
  (ss_set_mods s) (ss_clear_mods s) (ss_mod_key_count s).
Definition ss_set_set_mods v s := mk_server (ss_base s) (ss_filters s) (ss_alloc s) (ss_flags s)
  v (ss_clear_mods s) (ss_mod_key_count s).
Definition ss_set_clear_mods v s := mk_server (ss_base s) (ss_filters s) (ss_alloc s)
  (ss_flags s) (ss_set_mods s) v (ss_mod_key_count s).
Definition ss_set_mod_key_count v s := mk_server (ss_base s) (ss_filters s) (ss_alloc s)
  (ss_flags s) (ss_set_mods s) (ss_clear_mods s) v.

Definition ss_components (s : xkb_server_state) : state_components := st_components (ss_base s).
Definition ss_set_components (c : state_components) (s : xkb_server_state) : xkb_server_state :=
  ss_set_base (st_set_components c (ss_base s)) s.

(** ** Events *)

Inductive xkb_event :=
| EvKey (direction : xkb_key_direction) (keycode : Z)
| EvComponents (components : state_components) (changed : Z).

(** [struct xkb_events]: the queue and the read cursor. *)
Record xkb_events := mk_events { ev_next : nat; ev_queue : list xkb_event }.

(** ** Computations *)

Record sctx := mk_sctx {
  sc_state : xkb_server_state;
  sc_events : option xkb_events
}.

Definition upd_state (f : xkb_server_state -> xkb_server_state) : M sctx unit :=
  modify (fun x => mk_sctx (f (sc_state x)) (sc_events x)).
Definition get_comps : M sctx state_components := gets (fun x => ss_components (sc_state x)).
Definition upd_comps (f : state_components -> state_components) : M sctx unit :=
  upd_state (fun s => ss_set_components (f (ss_components s)) s).
Definition upd_set_mods (f : Z -> Z) : M sctx unit :=
  upd_state (fun s => ss_set_set_mods (f (ss_set_mods s)) s).
Definition upd_clear_mods (f : Z -> Z) : M sctx unit :=
  upd_state (fun s => ss_set_clear_mods (f (ss_clear_mods s)) s).

(** Dereference of a [struct xkb_filter *]. *)
Definition get_filter (i : nat) : M sctx xkb_filter := fun x =>
  match ss_filters (sc_state x) !! i with
  | Some f => Ok (f, x)
  | None => Fault FaultOutOfBounds
  end.
Definition upd_filter (i : nat) (g : xkb_filter -> xkb_filter) : M sctx unit :=
  upd_state (fun s => ss_set_filters (alter g i (ss_filters s)) s).

(** [darray_append(events->queue, e)] *)
Definition append_event (e : xkb_event) : M sctx unit := fun x =>
  match sc_events x with
  | None => Fault FaultNullEvents
  | Some evs => Ok (tt, mk_sctx (sc_state x)
                          (Some (mk_events (ev_next evs) (ev_queue evs ++ [e]))))
  end.
Definition get_queue : M sctx (list xkb_event) := fun x =>
  match sc_events x with
  | None => Fault FaultNullEvents
  | Some evs => Ok (ev_queue evs, x)
  end.

(** [darray_next_alloc]: doubling from 4; the fuel is the needed size. *)
Fixpoint next_alloc_loop (fuel alloc need : nat) : nat :=
  match fuel with
  | O => alloc
  | S fuel => if Nat.ltb alloc need then next_alloc_loop fuel (2 * alloc) need else alloc
  end.
Definition darray_next_alloc (alloc need : nat) : nat :=
  next_alloc_loop need (if Nat.eqb alloc 0 then 4 else alloc)%nat need.

(** First inactive slot, or a new slot at the end of the array. *)
Definition xkb_filter_new : M sctx nat :=
  let* s := gets sc_state in
  let* i := (match list_find (fun f => f_func f = None) (ss_filters s) with
             | Some (i, _) => ret i
             | None =>
                 let size := length (ss_filters s) in
                 upd_state (fun s => ss_set_filters (ss_filters s ++ [zero_filter]) s) ;;;
                 (when Nat.ltb (ss_alloc s) (size + 1)
                  do upd_state (ss_set_alloc (darray_next_alloc (ss_alloc s) (size + 1)))) ;;;
                 ret size
             end) in
  upd_filter i (f_set_refcnt 1) ;;;
  ret i.

Inductive xkb_filter_result := FILTER_CONSUME | FILTER_CONTINUE.

(** ** Group set *)

(** [apply_group_delta]: the new value of the component. *)
Definition apply_group_delta (f : xkb_filter) (v : Z) : Z :=
  if has_flag (f_flags f) ACTION_ABSOLUTE_SWITCH then a_group (f_action f)
  else i32 (v + a_group (f_action f)).

Definition xkb_filter_group_set_new (i : nat) : M sctx unit :=
  let* f := get_filter i in
  let* c := get_comps in
  upd_filter i (f_set_priv (u32 (base_group c))) ;;;
  upd_comps (fun c => set_base_group (apply_group_delta f (base_group c)) c).

(** The [switch (direction)] common to the handlers: [Some] result when the
    event is consumed, [None] when the key is finally released. *)
Definition filter_key_count (i : nat) (direction : xkb_key_direction)
    : M sctx (option xkb_filter_result) :=
  match direction with
  | KEY_DOWN => upd_filter i (fun f => f_set_refcnt (f_refcnt f + 1) f) ;;;
                ret (Some FILTER_CONSUME)
  | KEY_REPEATED => ret (Some FILTER_CONSUME)
  | KEY_UP =>
      upd_filter i (fun f => f_set_refcnt (f_refcnt f - 1) f) ;;;
      let* f := get_filter i in
      ret (if f_refcnt f >? 0 then Some FILTER_CONSUME else None)
  end.

Definition is_filter_key (f : xkb_filter) (key : key_ptr) : bool :=
  bool_decide (f_key f = Some (kp_addr key)).

Definition xkb_filter_group_set_func (i : nat) (key : key_ptr) (direction : xkb_key_direction)
    : M sctx xkb_filter_result :=
  let* f := get_filter i in
  if negb (is_filter_key f key) then
    upd_filter i (fun f => f_set_flags (Z.ldiff (f_flags f) ACTION_LOCK_CLEAR) f) ;;;
    ret FILTER_CONTINUE
  else
    let* r := filter_key_count i direction in
    match r with
    | Some r => ret r
    | None =>
        upd_comps (set_base_group (i32 (f_priv f))) ;;;
        (when has_flag (f_flags f) ACTION_LOCK_CLEAR do upd_comps (set_locked_group 0)) ;;;
        upd_filter i (f_set_func None) ;;;
        ret FILTER_CONTINUE
    end.

(** ** Group lock *)

Definition xkb_filter_group_lock_new (i : nat) : M sctx unit :=
  let* f := get_filter i in
  if has_flag (f_flags f) ACTION_LOCK_ON_RELEASE then ret tt
  else upd_comps (fun c => set_locked_group (apply_group_delta f (locked_group c)) c).

Definition xkb_filter_group_lock_func (i : nat) (key : key_ptr) (direction : xkb_key_direction)
    : M sctx xkb_filter_result :=
  let* f := get_filter i in
  if negb (is_filter_key f key) then
    (when has_flag (f_flags f) ACTION_LOCK_ON_RELEASE && bool_decide (direction = KEY_DOWN)
     do upd_filter i (fun f => f_set_flags (Z.ldiff (f_flags f) ACTION_LOCK_ON_RELEASE) f)) ;;;
    ret FILTER_CONTINUE
  else
    let* r := filter_key_count i direction in
    match r with
    | Some r => ret r
    | None =>
        (when has_flag (f_flags f) ACTION_LOCK_ON_RELEASE
         do upd_comps (fun c => set_locked_group (apply_group_delta f (locked_group c)) c)) ;;;
        upd_filter i (f_set_func None) ;;;
        ret FILTER_CONTINUE
    end.

(** ** Latches *)

Definition xkb_action_breaks_latch (a : xkb_action) (flag mask : Z) : bool :=
  match a with
  | act_none | act_void | act_btn _ _ _ _ | act_ctrls _ _ _ | act_switch_vt _ _
  | act_terminate | act_redirect _ => true
  | act_internal fl clear => has_flag fl flag && (Z.land clear mask =? mask)
  | _ => false
  end.

(** [enum xkb_key_latch_state] *)
Definition NO_LATCH : Z := 0.
Definition LATCH_KEY_DOWN : Z := 1.
Definition LATCH_PENDING : Z := 2.

(** [union group_latch_priv]: two low bits of latch state, 30 bits of signed
    group delta. *)
Definition group_latch_priv (latch delta : Z) : Z := u32 (latch mod 4 + 4 * delta).
Definition priv_latch (priv : Z) : Z := priv mod 4.
Definition priv_group_delta (priv : Z) : Z := sext 30 (priv / 4).

Definition xkb_filter_group_latch_new (i : nat) : M sctx unit :=
  let* f := get_filter i in
  let* c := get_comps in
  let delta := if has_flag (f_flags f) ACTION_ABSOLUTE_SWITCH
               then i32 (a_group (f_action f) - base_group c)
               else a_group (f_action f) in
  upd_filter i (f_set_priv (group_latch_priv LATCH_KEY_DOWN delta)) ;;;
  upd_comps (fun c => set_base_group (apply_group_delta f (base_group c)) c).

(** [latched_group -= delta] and the like. *)
Definition sub_latched_group (d : Z) : M sctx unit :=
  upd_comps (fun c => set_latched_group (i32 (latched_group c - d)) c).
Definition add_latched_group (d : Z) : M sctx unit :=
  upd_comps (fun c => set_latched_group (i32 (latched_group c + d)) c).
Definition sub_base_group (d : Z) : M sctx unit :=
  upd_comps (fun c => set_base_group (i32 (base_group c - d)) c).

(** [actions[k]] repeats the latch of filter action [a], or is the plain set
    action from which sticky keys derive it. *)
Definition repeats_group_latch (a act : xkb_action) (sticky_keys : bool) : bool :=
  match act with
  | act_group GROUP_LATCH fl g => (g =? a_group a) && (fl =? a_flags a)
  | act_group GROUP_SET fl _ =>
      sticky_keys && (fl =? Z.ldiff (a_flags a) ACTION_LATCH_TO_LOCK)
  | _ => false
  end.

(** The loop over the actions of a key pressed while the latch is pending;
    [Some] result for the [return]s inside the loop. *)
Fixpoint group_latch_pending (i : nat) (key : key_ptr) (f : xkb_filter) (sticky_keys : bool)
    (actions : list xkb_action) : M sctx (option xkb_filter_result) :=
  match actions with
  | [] => ret None
  | act :: rest =>
      if repeats_group_latch (f_action f) act sticky_keys then
        if has_flag (f_flags f) ACTION_LATCH_TO_LOCK && negb (a_group (f_action f) =? 0) then
          (* Promote to lock *)
          upd_filter i (fun f => f_set_action
            (act_group GROUP_LOCK (a_flags (f_action f)) (a_group (f_action f))) f) ;;;
          upd_filter i (f_set_func (Some group_lock_func)) ;;;
          xkb_filter_group_lock_new i ;;;
          sub_latched_group (priv_group_delta (f_priv f)) ;;;
          upd_filter i (f_set_key (Some (kp_addr key))) ;;;
          ret (Some FILTER_CONSUME)
        else group_latch_pending i key f sticky_keys rest
      else if xkb_action_breaks_latch act INTERNAL_BREAKS_GROUP_LATCH 0 then
        sub_latched_group (priv_group_delta (f_priv f)) ;;;
        upd_filter i (f_set_func None) ;;;
        ret (Some FILTER_CONTINUE)
      else group_latch_pending i key f sticky_keys rest
  end.

(** The latch state after the press of a key while the latching key is down. *)
Definition latch_key_down_press (flags : Z) (breaks : xkb_action -> bool)
    (actions : list xkb_action) : Z :=
  if has_flag flags XKB_A11Y_LATCH_SIMULTANEOUS_KEYS
  then if existsb breaks actions then NO_LATCH else LATCH_KEY_DOWN
  else NO_LATCH.

Definition xkb_filter_group_latch_func (i : nat) (key : key_ptr) (direction : xkb_key_direction)
    : M sctx xkb_filter_result :=
  let* f := get_filter i in
  let latch := priv_latch (f_priv f) in
  let delta := priv_group_delta (f_priv f) in
  let finish (latch : Z) :=
    upd_filter i (f_set_priv (group_latch_priv latch delta)) ;;; ret FILTER_CONTINUE in
  if bool_decide (direction = KEY_DOWN) then
    let* s := gets sc_state in
    let actions := xkb_key_get_actions (ss_base s) (kp_key key) in
    if latch =? LATCH_KEY_DOWN then
      finish (latch_key_down_press (ss_flags s)
                (fun a => xkb_action_breaks_latch a INTERNAL_BREAKS_GROUP_LATCH 0) actions)
    else if latch =? LATCH_PENDING then
      let sticky_keys := has_flag (controls (ss_components s)) CONTROL_STICKY_KEYS in
      let* r := group_latch_pending i key f sticky_keys actions in
      match r with
      | Some r => ret r
      | None => finish latch
      end
    else if latch =? NO_LATCH then finish latch
    else fail FaultAssert
  else if negb (is_filter_key f key) then finish latch
  else if bool_decide (direction = KEY_REPEATED) then ret FILTER_CONSUME
  else
    let* c := get_comps in
    if has_flag (f_flags f) ACTION_LOCK_CLEAR && negb (locked_group c =? 0) then
      (if latch =? LATCH_PENDING then sub_latched_group delta else sub_base_group delta) ;;;
      upd_comps (set_locked_group 0) ;;;
      upd_filter i (f_set_func None) ;;;
      finish latch
    else if latch =? NO_LATCH then
      sub_base_group delta ;;;
      upd_filter i (f_set_func None) ;;;
      finish latch
    else if latch =? LATCH_KEY_DOWN then
      sub_base_group delta ;;;
      add_latched_group delta ;;;
      finish LATCH_PENDING
    else finish latch.

(** ** Modifier set *)

Definition unlock_flags : Z := Z.lor ACTION_UNLOCK_ON_PRESS ACTION_LOCK_CLEAR.

Definition clear_locked_mods (m : Z) : M sctx unit :=
  upd_comps (fun c => set_locked_mods (Z.ldiff (locked_mods c) m) c).
Definition clear_latched_mods (m : Z) : M sctx unit :=
  upd_comps (fun c => set_latched_mods (Z.ldiff (latched_mods c) m) c).

Definition xkb_filter_mod_set_new (i : nat) : M sctx unit :=
  let* f := get_filter i in
  let* c := get_comps in
  let mask := f_mask f in
  (if Z.land (f_flags f) unlock_flags =? unlock_flags then
     upd_filter i (f_set_priv (Z.ldiff mask (locked_mods c))) ;;;
     clear_locked_mods mask
   else upd_filter i (f_set_priv mask)) ;;;
  let* f := get_filter i in
  upd_set_mods (fun m => Z.lor m (f_priv f)).

Definition xkb_filter_mod_set_func (i : nat) (key : key_ptr) (direction : xkb_key_direction)
    : M sctx xkb_filter_result :=
  let* f := get_filter i in
  if negb (is_filter_key f key) then
    upd_filter i (fun f => f_set_flags (Z.ldiff (f_flags f) ACTION_LOCK_CLEAR) f) ;;;
    ret FILTER_CONTINUE
  else
    let* r := filter_key_count i direction in
    match r with
    | Some r => ret r
    | None =>
        upd_clear_mods (fun m => Z.lor m (f_priv f)) ;;;
        (when Z.land (f_flags f) unlock_flags =? ACTION_LOCK_CLEAR
         do clear_locked_mods (f_mask f)) ;;;
        upd_filter i (f_set_func None) ;;;
        ret FILTER_CONTINUE
    end.

(** ** Modifier lock *)

Definition xkb_filter_mod_lock_new (i : nat) : M sctx unit :=
  let* f := get_filter i in
  let* c := get_comps in
  let mask := f_mask f in
  let priv := Z.land (locked_mods c) mask in
  upd_filter i (f_set_priv priv) ;;;
  if negb (priv =? 0) && has_flag (f_flags f) ACTION_UNLOCK_ON_PRESS then
    (when negb (has_flag (f_flags f) ACTION_LOCK_NO_UNLOCK) do clear_locked_mods priv) ;;;
    upd_filter i (f_set_func None)
  else
    upd_set_mods (fun m => Z.lor m mask) ;;;
    (when negb (has_flag (f_flags f) ACTION_LOCK_NO_LOCK)
     do upd_comps (fun c => set_locked_mods (Z.lor (locked_mods c) mask) c)).

Definition xkb_filter_mod_lock_func (i : nat) (key : key_ptr) (direction : xkb_key_direction)
    : M sctx xkb_filter_result :=
  let* f := get_filter i in
  if negb (is_filter_key f key) then ret FILTER_CONTINUE
  else
    let* r := filter_key_count i direction in
    match r with
    | Some r => ret r
    | None =>
        upd_clear_mods (fun m => Z.lor m (f_mask f)) ;;;
        (when negb (has_flag (f_flags f) ACTION_LOCK_NO_UNLOCK)
         do clear_locked_mods (f_priv f)) ;;;
        upd_filter i (f_set_func None) ;;;
        ret FILTER_CONTINUE
    end.

(** ** Modifier latch *)

Definition unlockOnPress_flags : Z := Z.lor ACTION_UNLOCK_ON_PRESS ACTION_LATCH_ON_PRESS.

Definition xkb_filter_mod_latch_new (i : nat) : M sctx unit :=
  let* f := get_filter i in
  let* c := get_comps in
  let mask := f_mask f in
  if has_flag (f_flags f) ACTION_LOCK_CLEAR && has_flag (f_flags f) unlockOnPress_flags &&
     (Z.land (locked_mods c) mask =? mask) then
    clear_locked_mods mask ;;;
    upd_filter i (f_set_func None)
  else if has_flag (f_flags f) ACTION_LATCH_ON_PRESS then
    upd_filter i (f_set_priv LATCH_PENDING) ;;;
    upd_comps (fun c => set_latched_mods (Z.lor (latched_mods c) mask) c)
  else
    upd_filter i (f_set_priv LATCH_KEY_DOWN) ;;;
    upd_set_mods (fun m => Z.lor m mask).

Definition repeats_mod_latch (a act : xkb_action) (sticky_keys : bool) : bool :=
  match act with
  | act_mods MOD_LATCH fl m => (fl =? a_flags a) && (m_mask m =? a_mask a)
  | act_mods MOD_SET fl m =>
      sticky_keys && (fl =? Z.ldiff (a_flags a) ACTION_LATCH_TO_LOCK) &&
      (m_mask m =? a_mask a)
  | _ => false
  end.

Definition a_set_mod_type (t : mod_action_type) (a : xkb_action) : xkb_action :=
  match a with act_mods _ fl m => act_mods t fl m | a => a end.

Fixpoint mod_latch_pending (i : nat) (key : key_ptr) (f : xkb_filter) (sticky_keys : bool)
    (actions : list xkb_action) : M sctx (option xkb_filter_result) :=
  match actions with
  | [] => ret None
  | act :: rest =>
      if repeats_mod_latch (f_action f) act sticky_keys then
        (if has_flag (f_flags f) ACTION_LATCH_TO_LOCK then
           (* Mutate the action to LockMods() *)
           upd_filter i (fun f => f_set_action (a_set_mod_type MOD_LOCK (f_action f)) f) ;;;
           upd_filter i (f_set_func (Some mod_lock_func)) ;;;
           xkb_filter_mod_lock_new i
         else
           (* Mutate the action to SetMods() *)
           upd_filter i (fun f => f_set_action (a_set_mod_type MOD_SET (f_action f)) f) ;;;
           upd_filter i (f_set_func (Some mod_set_func)) ;;;
           xkb_filter_mod_set_new i) ;;;
        upd_filter i (f_set_key (Some (kp_addr key))) ;;;
        clear_latched_mods (f_mask f) ;;;
        ret (Some FILTER_CONSUME)
      else if xkb_action_breaks_latch act INTERNAL_BREAKS_MOD_LATCH (f_mask f) then
        clear_latched_mods (f_mask f) ;;;
        upd_filter i (f_set_func None) ;;;
        ret (Some FILTER_CONTINUE)
      else mod_latch_pending i key f sticky_keys rest
  end.

Definition xkb_filter_mod_latch_func (i : nat) (key : key_ptr) (direction : xkb_key_direction)
    : M sctx xkb_filter_result :=
  let* f := get_filter i in
  let latch := f_priv f in
  let mask := f_mask f in
  let finish (latch : Z) :=
    upd_filter i (f_set_priv latch) ;;; ret FILTER_CONTINUE in
  if bool_decide (direction = KEY_DOWN) then
    let* s := gets sc_state in
    let actions := xkb_key_get_actions (ss_base s) (kp_key key) in
    if latch =? LATCH_KEY_DOWN then
      finish (latch_key_down_press (ss_flags s)
                (fun a => xkb_action_breaks_latch a INTERNAL_BREAKS_MOD_LATCH mask) actions)
    else if latch =? LATCH_PENDING then
      let sticky_keys := has_flag (controls (ss_components s)) CONTROL_STICKY_KEYS in
      let* r := mod_latch_pending i key f sticky_keys actions in
      match r with
      | Some r => ret r
      | None => finish latch
      end
    else if latch =? NO_LATCH then finish latch
    else fail FaultAssert
  else if negb (is_filter_key f key) then finish latch
  else if bool_decide (direction = KEY_REPEATED) then ret FILTER_CONSUME
  else
    let* c := get_comps in
    if has_flag (f_flags f) ACTION_LOCK_CLEAR && negb (has_flag (f_flags f) unlockOnPress_flags) &&
       (Z.land (locked_mods c) mask =? mask) then
      (if latch =? LATCH_PENDING then clear_latched_mods mask
       else upd_clear_mods (fun m => Z.lor m mask)) ;;;
      clear_locked_mods mask ;;;
      upd_filter i (f_set_func None) ;;;
      finish latch
    else if latch =? NO_LATCH then
      upd_clear_mods (fun m => Z.lor m mask) ;;;
      upd_filter i (f_set_func None) ;;;
      finish latch
    else if negb (has_flag (f_flags f) ACTION_LATCH_ON_PRESS) then
      upd_clear_mods (fun m => Z.lor m mask) ;;;
      upd_comps (fun c => set_latched_mods (Z.lor (latched_mods c) mask) c) ;;;
      finish LATCH_PENDING
    else finish latch.
