(* ===== verification/Apply.v ===== *)
(** * Applying the filters (src/state.c)

    The control and redirect handlers, the dispatch table
    [filter_action_funcs], [xkb_filter_apply_all], and the latch and lock
    updates [update_latch_modifiers], [update_latch_group],
    [state_update_latched_locked] and [clear_all_latches_and_locks].

    These functions are mutually recursive in the source: releasing a key that
    disables the sticky keys clears the latches, which applies the filters to
    a synthetic key.  The knot is tied by [apply_all], indexed by the depth of
    the nesting; one level is enough ([apply_all_depth]). *)

From Stdlib Require Import ZArith Lia.
From stdpp Require Import base tactics list numbers.
From S2P Require Import Prelude Keymap State Filters.

(** ** Controls *)

Definition xkb_filter_ctrls_new (i : nat) : M sctx unit :=
  let* f := get_filter i in
  let* c := get_comps in
  let ctrls := a_ctrls (f_action f) in
  let is_set := match f_action f with act_ctrls CTRL_SET _ _ => true | _ => false end in
  upd_filter i (f_set_priv
    (if is_set then Z.ldiff ctrls (controls c) else Z.land (controls c) ctrls)) ;;;
  (when is_set || negb (has_flag (f_flags f) ACTION_LOCK_NO_LOCK)
   do upd_comps (fun c => set_controls (Z.lor (controls c) ctrls) c)).

(** A call made while a pointer into the filters array is live and used
    afterwards: if the array has been reallocated meanwhile, that use goes
    through a dangling pointer. *)
Definition guard_realloc (m : M sctx unit) : M sctx unit :=
  let* before := gets (fun x => ss_alloc (sc_state x)) in
  m ;;;
  let* after := gets (fun x => ss_alloc (sc_state x)) in
  if Nat.eqb before after then ret tt else fail FaultUseAfterRealloc.

(** [clear_all] is [clear_all_latches_and_locks]. *)
Definition xkb_filter_ctrls_func (clear_all : M sctx unit) (i : nat) (key : key_ptr)
    (direction : xkb_key_direction) : M sctx xkb_filter_result :=
  let* f := get_filter i in
  if negb (is_filter_key f key) then ret FILTER_CONTINUE
  else
    let* r := filter_key_count i direction in
    match r with
    | Some r => ret r
    | None =>
        let is_set := match f_action f with act_ctrls CTRL_SET _ _ => true | _ => false end in
        (when is_set || negb (has_flag (f_flags f) ACTION_LOCK_NO_UNLOCK) do
           (let* c := get_comps in
            upd_comps (fun c => set_controls (Z.ldiff (controls c) (f_priv f)) c) ;;;
            let* c' := get_comps in
            when has_flag (controls c) CONTROL_STICKY_KEYS &&
                 negb (has_flag (controls c') CONTROL_STICKY_KEYS) do
              guard_realloc clear_all)) ;;;
        upd_filter i (f_set_func None) ;;;
        ret FILTER_CONTINUE
    end.

(** ** Redirections *)

(** The components of the last change in the queue, else the current ones. *)
Definition last_queued_components (queue : list xkb_event) (c : state_components)
    : state_components :=
  foldl (fun acc e => match e with EvComponents c' _ => c' | EvKey _ _ => acc end) c queue.

Definition redirect_components (r : xkb_redirect_key_action) (c : state_components)
    : state_components :=
  let mix v := Z.lor (Z.ldiff v (r_affect r)) (r_mods r) in
  set_mods (mix (mods c))
    (set_locked_mods (mix (locked_mods c))
      (set_latched_mods (mix (latched_mods c))
        (set_base_mods (mix (base_mods c)) c))).

Definition append_redirect_key_events (r : xkb_redirect_key_action)
    (direction : xkb_key_direction) : M sctx unit :=
  let* queue := get_queue in
  let* c := get_comps in
  let last := last_queued_components queue c in
  let new := redirect_components r last in
  let changed := if negb (r_affect r =? 0) then get_state_component_changes last new else 0 in
  (when negb (changed =? 0) do append_event (EvComponents new changed)) ;;;
  append_event (EvKey direction (r_keycode r)) ;;;
  (when negb (changed =? 0) do append_event (EvComponents last changed)).

Definition a_redirect (a : xkb_action) : xkb_redirect_key_action :=
  match a with act_redirect r => r | _ => mk_redirect 0 0 0 end.

Definition xkb_filter_redirect_key_new (i : nat) : M sctx unit :=
  let* f := get_filter i in
  let* evs := gets sc_events in
  match evs with
  | None => upd_filter i (f_set_func None)
  | Some _ =>
      if r_keycode (a_redirect (f_action f)) =? XKB_KEYCODE_INVALID
      then upd_filter i (f_set_func None)
      else append_redirect_key_events (a_redirect (f_action f)) KEY_DOWN
  end.

Definition redirects_elsewhere (r : xkb_redirect_key_action) (a : xkb_action) : bool :=
  match a with
  | act_redirect r' => negb (r_keycode r' =? r_keycode r)
  | _ => false
  end.

Definition xkb_filter_redirect_key_func (i : nat) (key : key_ptr)
    (direction : xkb_key_direction) : M sctx xkb_filter_result :=
  let* f := get_filter i in
  let r := a_redirect (f_action f) in
  if negb (is_filter_key f key) then ret FILTER_CONTINUE
  else
    let* s := gets sc_state in
    let actions := xkb_key_get_actions (ss_base s) (kp_key key) in
    if bool_decide (direction = KEY_UP) then
      append_redirect_key_events r KEY_UP ;;;
      upd_filter i (f_set_func None) ;;;
      ret FILTER_CONSUME
    else if bool_decide (direction = KEY_DOWN) && existsb (redirects_elsewhere r) actions then
      append_redirect_key_events r KEY_UP ;;;
      upd_filter i (f_set_func None) ;;;
      ret FILTER_CONTINUE
    else
      append_redirect_key_events r direction ;;;
      ret FILTER_CONSUME.

(** ** [filter_action_funcs] *)

(** The handler of an action type, [None] for the types without one. *)
Definition action_func (a : xkb_action) : option filter_func :=
  match a with
  | act_mods MOD_SET _ _ => Some mod_set_func
  | act_mods MOD_LATCH _ _ => Some mod_latch_func
  | act_mods MOD_LOCK _ _ => Some mod_lock_func
  | act_group GROUP_SET _ _ => Some group_set_func
  | act_group GROUP_LATCH _ _ => Some group_latch_func
  | act_group GROUP_LOCK _ _ => Some group_lock_func
  | act_ctrls _ _ _ => Some ctrls_func
  | act_redirect _ => Some redirect_key_func
  | _ => None
  end.

(** The [new] function of the same table row. *)
Definition run_filter_new (fn : filter_func) (i : nat) : M sctx unit :=
  match fn with
  | mod_set_func => xkb_filter_mod_set_new i
  | mod_latch_func => xkb_filter_mod_latch_new i
  | mod_lock_func => xkb_filter_mod_lock_new i
  | group_set_func => xkb_filter_group_set_new i
  | group_latch_func => xkb_filter_group_latch_new i
  | group_lock_func => xkb_filter_group_lock_new i
  | ctrls_func => xkb_filter_ctrls_new i
  | redirect_key_func => xkb_filter_redirect_key_new i
  end.

(** The call [filter->func(state, events, filter, key, direction)]. *)
Definition run_filter_func (clear_all : M sctx unit) (fn : filter_func) (i : nat)
    (key : key_ptr) (direction : xkb_key_direction) : M sctx xkb_filter_result :=
  match fn with
  | mod_set_func => xkb_filter_mod_set_func i key direction
  | mod_latch_func => xkb_filter_mod_latch_func i key direction
  | mod_lock_func => xkb_filter_mod_lock_func i key direction
  | group_set_func => xkb_filter_group_set_func i key direction
  | group_latch_func => xkb_filter_group_latch_func i key direction
  | group_lock_func => xkb_filter_group_lock_func i key direction
  | ctrls_func => xkb_filter_ctrls_func clear_all i key direction
  | redirect_key_func => xkb_filter_redirect_key_func i key direction
  end.

(** ** [xkb_filter_apply_all] *)

(** The loop over the active filters, from slot [i].  The bound is the current
    size of the array; [alloc] is the allocation the loop pointer belongs to. *)
Fixpoint filters_loop (fuel : nat) (clear_all : M sctx unit) (alloc i : nat) (consumed : bool)
    (key : key_ptr) (direction : xkb_key_direction) : M sctx bool :=
  let* s := gets sc_state in
  if negb (Nat.eqb (ss_alloc s) alloc) then fail FaultUseAfterRealloc
  else match ss_filters s !! i with
  | None => ret consumed
  | Some f =>
      match fuel with
      | O => fail FaultFuel
      | S fuel =>
          match f_func f with
          | None => filters_loop fuel clear_all alloc (S i) consumed key direction
          | Some fn =>
              let* r := run_filter_func clear_all fn i key direction in
              let consumed := match r with FILTER_CONSUME => true | FILTER_CONTINUE => consumed end in
              filters_loop fuel clear_all alloc (S i) consumed key direction
          end
      end
  end.

(** With sticky keys, a set action becomes a latch. *)
Definition sticky_action (flags : Z) (a : xkb_action) : xkb_action :=
  let latch fl := if has_flag flags XKB_A11Y_STICKY_KEYS_LATCH_TO_LOCK
                  then Z.lor fl ACTION_LATCH_TO_LOCK else fl in
  match a with
  | act_mods MOD_SET fl m => act_mods MOD_LATCH (latch fl) m
  | act_group GROUP_SET fl g => act_group GROUP_LATCH (latch fl) g
  | a => a
  end.

Definition resolve_redirect (km : xkb_keymap) (a : xkb_action) : xkb_action :=
  match a with
  | act_redirect r =>
      act_redirect (mk_redirect (r_keycode r) (mod_mask_get_effective km (r_affect r))
                                (mod_mask_get_effective km (r_mods r)))
  | a => a
  end.

(** One action of a key that no filter consumed. *)
Definition apply_action (key : key_ptr) (act : xkb_action) : M sctx unit :=
  match action_func act with
  | None => ret tt
  | Some _ =>
      let* i := xkb_filter_new in
      let* s := gets sc_state in
      let sticky_keys := has_flag (controls (ss_components s)) CONTROL_STICKY_KEYS in
      let act := if sticky_keys then sticky_action (ss_flags s) act else act in
      let act := resolve_redirect (st_keymap (ss_base s)) act in
      upd_filter i (fun f => f_set_func (action_func act)
                               (f_set_action act (f_set_key (Some (kp_addr key)) f))) ;;;
      match action_func act with
      | Some fn => run_filter_new fn i
      | None => ret tt
      end
  end.

Fixpoint apply_actions (key : key_ptr) (actions : list xkb_action) : M sctx unit :=
  match actions with
  | [] => ret tt
  | act :: rest => apply_action key act ;;; apply_actions key rest
  end.

Definition apply_all_with (clear_all : M sctx unit) (key : key_ptr)
    (direction : xkb_key_direction) : M sctx unit :=
  let* s := gets sc_state in
  let* consumed := filters_loop (S (ss_alloc s)) clear_all (ss_alloc s) 0 false key direction in
  if consumed || bool_decide (direction = KEY_UP) then ret tt
  else
    let* s := gets sc_state in
    apply_actions key (xkb_key_get_actions (ss_base s) (kp_key key)).

(** ** Synthetic keys *)

Definition synthetic_key_type : xkb_key_type :=
  mk_key_type (mk_xkb_mods 0 0) 1 [mk_entry 0 (mk_xkb_mods 0 0) (mk_xkb_mods 0 0)].

Definition synthetic_key_with (groups : list xkb_group) : xkb_key :=
  mk_key 0 0 false 0 false [] LAYOUT_WRAP 0 groups.

Definition break_latch_key (flags clear_latched_mods : Z) : xkb_key :=
  synthetic_key_with [mk_group synthetic_key_type
    [mk_level 0 0 false [0] [act_internal flags clear_latched_mods]]].

(** ** Latch and lock updates *)

Section latches.
Context (apply : key_ptr -> xkb_key_direction -> M sctx unit).

(** A filter added by hand and released at once. *)
Definition tap_latch (act : xkb_action) (fn : filter_func) : M sctx unit :=
  let key := mk_key_ptr synthetic_key (synthetic_key_with []) in
  let* i := xkb_filter_new in
  upd_filter i (f_set_key (Some synthetic_key)) ;;;
  upd_filter i (f_set_func (Some fn)) ;;;
  upd_filter i (f_set_action act) ;;;
  run_filter_new fn i ;;;
  run_filter_func (ret tt) fn i key KEY_UP ;;;
  ret tt.

Definition update_latch_modifiers (mask latches : Z) : M sctx unit :=
  let clear := Z.ldiff mask latches in
  clear_latched_mods clear ;;;
  apply (mk_key_ptr synthetic_key_break_mod_latch
           (break_latch_key INTERNAL_BREAKS_MOD_LATCH clear)) KEY_DOWN ;;;
  tap_latch (act_mods MOD_LATCH 0 (mk_xkb_mods 0 (Z.land mask latches))) mod_latch_func.

Definition update_latch_group (g : Z) : M sctx unit :=
  apply (mk_key_ptr synthetic_key_break_group_latch
           (break_latch_key INTERNAL_BREAKS_GROUP_LATCH 0)) KEY_DOWN ;;;
  tap_latch (act_group GROUP_LATCH ACTION_ABSOLUTE_SWITCH g) group_latch_func.

(** [struct xkb_state_components_update], without its ABI header. *)
Record components_update := mk_components_update {
  up_components : Z;
  up_affect_latched_mods : Z;
  up_latched_mods : Z;
  up_affect_locked_mods : Z;
  up_locked_mods : Z;
  up_latched_layout : Z;
  up_locked_layout : Z;
  up_affect_controls : Z;
  up_controls : Z
}.

Definition state_update_latched_locked (u : components_update) : M sctx unit :=
  let* s := gets sc_state in
  let km := st_keymap (ss_base s) in
  let affect_locked := resolve_to_canonical_mods km (up_affect_locked_mods u) in
  (when negb (affect_locked =? 0) do
     (let locked := resolve_to_canonical_mods km (up_locked_mods u) in
      clear_locked_mods affect_locked ;;;
      upd_comps (fun c => set_locked_mods
        (Z.lor (locked_mods c) (Z.land locked affect_locked)) c))) ;;;
  (when has_flag (up_components u) XKB_STATE_LAYOUT_LOCKED
   do upd_comps (set_locked_group (up_locked_layout u))) ;;;
  let affect_latched := resolve_to_canonical_mods km (up_affect_latched_mods u) in
  (when negb (affect_latched =? 0) do
     update_latch_modifiers affect_latched
       (resolve_to_canonical_mods km (up_latched_mods u))) ;;;
  (when has_flag (up_components u) XKB_STATE_LAYOUT_LATCHED
   do update_latch_group (up_latched_layout u)).

Definition clear_all_components : Z :=
  foldr Z.lor 0 [XKB_STATE_MODS_LATCHED; XKB_STATE_MODS_LOCKED;
                 XKB_STATE_LAYOUT_LATCHED; XKB_STATE_LAYOUT_LOCKED].

Definition clear_all_latches_and_locks_with : M sctx unit :=
  state_update_latched_locked
    (mk_components_update clear_all_components XKB_MOD_ALL 0 XKB_MOD_ALL 0 0 0 0 0).
End latches.

(** ** The recursive knot *)

Fixpoint apply_all (depth : nat) (key : key_ptr) (direction : xkb_key_direction)
    : M sctx unit :=
  match depth with
  | O => apply_all_with (fail FaultFuel) key direction
  | S depth => apply_all_with (clear_all_latches_and_locks_with (apply_all depth)) key direction
  end.

Definition xkb_filter_apply_all : key_ptr -> xkb_key_direction -> M sctx unit := apply_all 1.

Definition clear_all_latches_and_locks : M sctx unit :=
  clear_all_latches_and_locks_with xkb_filter_apply_all.
