(* ===== verification/Server.v ===== *)
(** * The server state API (src/state.c)

    Creation of server states, [xkb_state_update_key],
    [xkb_state_update_latched_locked] and [xkb_state_update_synthetic] with
    the checks of its argument (src/abi-check.h).

    The [assert]s that guard the mode of the state are followed in the source
    by the same test returning an error, for builds without assertions: the
    model is that of such builds. *)

From Stdlib Require Import ZArith Lia.
From stdpp Require Import base tactics list numbers.
From S2P Require Import Prelude Keymap State Filters Apply.

(** ** Creation *)

Definition xkb_server_state_init (km : xkb_keymap) (mode : state_mode)
    (a11y_affect a11y_flags : Z) : xkb_server_state :=
  let flags :=
    if negb (km_format km =? XKB_KEYMAP_FORMAT_TEXT_V1) &&
       negb (has_flag a11y_affect XKB_A11Y_LATCH_SIMULTANEOUS_KEYS)
    then Z.lor a11y_flags XKB_A11Y_LATCH_SIMULTANEOUS_KEYS else a11y_flags in
  mk_server (xkb_state_init km mode) [] 0 flags 0 0 (replicate XKB_MAX_MODS 0).

Definition xkb_state_new (km : xkb_keymap) : xkb_server_state :=
  xkb_server_state_init km LEGACY_MIXED_STATE 0 0.

(** [xkb_state_new_with_mode]: a client or a server object.  The argument is
    the raw value of the C enumeration. *)
Inductive new_state := NewClient (s : xkb_state) | NewServer (s : xkb_server_state).

Definition xkb_state_new_with_mode (km : xkb_keymap) (mode : Z) : option new_state :=
  if mode =? 0 then Some (NewClient (xkb_state_init km CLIENT_STATE))
  else if mode =? 1 then Some (NewClient (xkb_state_init km SERVER_COMPANION))
  else if mode =? 2 then Some (NewServer (xkb_server_state_init km LEGACY_SERVER_STATE 0 0))
  else None.

(** ** Base modifiers and key counts *)

Definition count_at (counts : list Z) (i : nat) : Z := default 0 (counts !! i).

(** [for (i = 0, bit = 1; set_mods; i++, bit <<= 1)] *)
Fixpoint commit_set_loop (fuel : nat) (i : nat) (set_mods base : Z) (counts : list Z)
    : Z * list Z :=
  match fuel with
  | O => (base, counts)
  | S fuel =>
      if set_mods =? 0 then (base, counts)
      else
        let b := bit (Z.of_nat i) in
        if has_flag set_mods b then
          commit_set_loop fuel (S i) (Z.ldiff set_mods b) (Z.lor base b)
            (<[i := i16 (count_at counts i + 1)]> counts)
        else commit_set_loop fuel (S i) set_mods base counts
  end.

Fixpoint commit_clear_loop (fuel : nat) (i : nat) (clear_mods base : Z) (counts : list Z)
    : Z * list Z :=
  match fuel with
  | O => (base, counts)
  | S fuel =>
      if clear_mods =? 0 then (base, counts)
      else
        let b := bit (Z.of_nat i) in
        if has_flag clear_mods b then
          let n := i16 (count_at counts i - 1) in
          if n <=? 0 then
            commit_clear_loop fuel (S i) (Z.ldiff clear_mods b) (Z.ldiff base b)
              (<[i := 0]> counts)
          else commit_clear_loop fuel (S i) (Z.ldiff clear_mods b) base (<[i := n]> counts)
        else commit_clear_loop fuel (S i) clear_mods base counts
  end.

Definition commit_mods (s : xkb_server_state) : xkb_server_state :=
  let c := ss_components s in
  let '(base, counts) :=
    commit_set_loop 32 0 (ss_set_mods s) (base_mods c) (ss_mod_key_count s) in
  let '(base, counts) := commit_clear_loop 32 0 (ss_clear_mods s) base counts in
  ss_set_components (set_base_mods base c)
    (ss_set_mod_key_count counts (ss_set_clear_mods 0 (ss_set_set_mods 0 s))).

(** ** Enabled controls *)

Definition upd_derived : M sctx unit :=
  upd_state (fun s => ss_set_base (xkb_state_update_derived (ss_base s)) s).

Definition state_update_enabled_controls (affect ctrls : Z) : M sctx unit :=
  let affect := Z.land affect CONTROL_ALL_BOOLEAN in
  let* c := get_comps in
  upd_comps (fun c => set_controls
    (Z.lor (Z.ldiff (controls c) affect) (Z.land ctrls affect)) c) ;;;
  let* c' := get_comps in
  (when has_flag (controls c) CONTROL_STICKY_KEYS &&
        negb (has_flag (controls c') CONTROL_STICKY_KEYS)
   do clear_all_latches_and_locks) ;;;
  upd_derived.

(** Sticky keys are switched off by a key press while a modifier is held. *)
Definition breaks_sticky_keys (s : xkb_server_state) (direction : xkb_key_direction) : bool :=
  bool_decide (direction = KEY_DOWN) &&
  has_flag (controls (ss_components s)) CONTROL_STICKY_KEYS &&
  has_flag (ss_flags s) XKB_A11Y_STICKY_KEYS_NO_SIMULTANEOUS_KEYS &&
  negb (base_mods (ss_components s) =? 0).

(** ** [xkb_state_update_key] *)

(** From the reset of [set_mods] to the update of the derived components. *)
Definition process_key_actions (key : key_ptr) (direction : xkb_key_direction) : M sctx unit :=
  upd_state (fun s => ss_set_clear_mods 0 (ss_set_set_mods 0 s)) ;;;
  xkb_filter_apply_all key direction ;;;
  upd_state commit_mods ;;;
  upd_derived.

Definition update_key (kc : Z) (direction : xkb_key_direction) : M sctx Z :=
  let* s := gets sc_state in
  if negb (is_server_mode (st_mode (ss_base s))) then ret 0
  else
    let km := st_keymap (ss_base s) in
    match XkbKey km kc with
    | None => ret 0
    | Some i =>
        match key_at km i with
        | None => fail FaultOutOfBounds
        | Some key =>
            if bool_decide (direction = KEY_REPEATED) && negb (k_repeats key) then ret 0
            else
              (when breaks_sticky_keys s direction
               do state_update_enabled_controls CONTROL_STICKY_KEYS 0) ;;;
              let* prev := get_comps in
              process_key_actions (mk_key_ptr (KeymapKey i) key) direction ;;;
              let* c := get_comps in
              ret (get_state_component_changes prev c)
        end
    end.

(** The public functions pass [NULL] for the events. *)
Definition run_legacy {A} (m : M sctx A) (s : xkb_server_state) : result (A * xkb_server_state) :=
  match m (mk_sctx s None) with
  | Ok (a, x) => Ok (a, sc_state x)
  | Fault f => Fault f
  end.

Definition xkb_state_update_key (s : xkb_server_state) (kc : Z)
    (direction : xkb_key_direction) : result (Z * xkb_server_state) :=
  run_legacy (update_key kc direction) s.

(** ** [xkb_state_update_latched_locked] *)

Definition update_latched_locked (affect_latched latched : Z) (affect_latched_layout : bool)
    (latched_layout : Z) (affect_locked locked : Z) (affect_locked_layout : bool)
    (locked_layout : Z) : M sctx Z :=
  let* s := gets sc_state in
  if negb (is_server_mode (st_mode (ss_base s))) then ret 0
  else
    let* prev := get_comps in
    let components := foldr Z.lor 0
      [ if negb (affect_latched =? 0) || negb (latched =? 0) then XKB_STATE_MODS_LATCHED else 0;
        if negb (affect_locked =? 0) || negb (locked =? 0) then XKB_STATE_MODS_LOCKED else 0;
        if affect_latched_layout then XKB_STATE_LAYOUT_LATCHED else 0;
        if affect_locked_layout then XKB_STATE_LAYOUT_LOCKED else 0 ] in
    state_update_latched_locked xkb_filter_apply_all
      (mk_components_update components affect_latched latched affect_locked locked
         latched_layout locked_layout 0 0) ;;;
    upd_derived ;;;
    let* c := get_comps in
    ret (get_state_component_changes prev c).

Definition xkb_state_update_latched_locked (s : xkb_server_state)
    (affect_latched latched : Z) (affect_latched_layout : bool)
    (latched_layout : Z) (affect_locked locked : Z) (affect_locked_layout : bool)
    (locked_layout : Z) : result (Z * xkb_server_state) :=
  run_legacy (update_latched_locked affect_latched latched affect_latched_layout latched_layout
                affect_locked locked affect_locked_layout locked_layout) s.

(** ** ABI check of versioned structs (src/abi-check.h) *)

(** [enum xkb_error_code] *)
Inductive xkb_error_code :=
| XKB_SUCCESS
| XKB_ERROR_UNSUPPORTED_MODIFIER_MASK
| XKB_ERROR_UNSUPPORTED_LAYOUT_OUT_OF_RANGE_POLICY
| XKB_ERROR_UNSUPPORTED_LAYOUT_INDEX
| XKB_ERROR_UNSUPPORTED_A11Y_FLAGS
| XKB_ERROR_UNEXPECTED_STATE_MODE
| XKB_ERROR_ABI_INVALID_STRUCT_SIZE
| XKB_ERROR_ABI_FORWARD_COMPAT
| XKB_ERROR_ABI_BACKWARD_COMPAT.

#[global] Instance xkb_error_code_eq_dec : EqDecision xkb_error_code.
Proof. solve_decision. Defined.

Definition XKB_ABI_MAX_SIZE : Z := 4096.

(** [bytes] are the [caller_size] bytes of the caller's struct; the pointer
    itself is known not to be null. *)
Definition xkb_check_versioned_struct_size (v1_size min_size meaningful caller_size : Z)
    (bytes : list Z) : xkb_error_code :=
  if (caller_size <? v1_size) || (caller_size >? XKB_ABI_MAX_SIZE)
  then XKB_ERROR_ABI_INVALID_STRUCT_SIZE
  else if caller_size <? min_size then XKB_ERROR_ABI_BACKWARD_COMPAT
  else if caller_size <=? meaningful then XKB_SUCCESS
  else if forallb (fun b => b =? 0)
            (drop (Z.to_nat meaningful) (take (Z.to_nat caller_size) bytes))
  then XKB_SUCCESS else XKB_ERROR_ABI_FORWARD_COMPAT.

(** The [size] field and the memory of a caller's struct. *)
Record abi_header := mk_abi { abi_size : Z; abi_bytes : list Z }.

(** Sizes of the structs where pointers and [size_t] have 8 bytes. *)
Definition sizeof_state_update : Z := 24.
Definition sizeof_components_update : Z := 48.
Definition offsetof_components_update_reserved : Z := 44.
Definition sizeof_layout_policy_update : Z := 16.

Record layout_policy_update := mk_layout_policy { lp_policy : Z; lp_redirect : Z }.

Record state_update := mk_state_update {
  su_abi : abi_header;
  su_components : option (abi_header * components_update);
  su_layout_policy : option (abi_header * layout_policy_update)
}.

Definition check_abi (size meaningful : Z) (h : abi_header) : xkb_error_code :=
  xkb_check_versioned_struct_size size size meaningful (abi_size h) (abi_bytes h).

Definition check_state_update_abi (u : state_update) : xkb_error_code :=
  match check_abi sizeof_state_update sizeof_state_update (su_abi u) with
  | XKB_SUCCESS =>
      let components_error := match su_components u with
        | Some (h, _) => check_abi sizeof_components_update offsetof_components_update_reserved h
        | None => XKB_SUCCESS
        end in
      match components_error with
      | XKB_SUCCESS =>
          match su_layout_policy u with
          | Some (h, _) => check_abi sizeof_layout_policy_update sizeof_layout_policy_update h
          | None => XKB_SUCCESS
          end
      | e => e
      end
  | e => e
  end.

(** ** [xkb_state_update_synthetic] *)

(** [xkb_feature_supported(XKB_FEATURE_ENUM_LAYOUT_OUT_OF_RANGE_POLICY, p)],
    decoding the values of the C enumeration. *)
Definition supported_policy (p : Z) : option out_of_range_policy :=
  if p =? 0 then Some LAYOUT_WRAP
  else if p =? 1 then Some LAYOUT_CLAMP
  else if p =? 2 then Some LAYOUT_REDIRECT
  else None.

Definition state_update_layout_policy (u : layout_policy_update) : M sctx xkb_error_code :=
  let* s := gets sc_state in
  match supported_policy (lp_policy u) with
  | None => ret XKB_ERROR_UNSUPPORTED_LAYOUT_OUT_OF_RANGE_POLICY
  | Some p =>
      if bool_decide (p = LAYOUT_REDIRECT) &&
         negb (lp_redirect u <? km_num_groups (st_keymap (ss_base s)))
      then ret XKB_ERROR_UNSUPPORTED_LAYOUT_INDEX
      else
        (when bool_decide (p = LAYOUT_REDIRECT)
         do upd_state (fun s => ss_set_base
              (st_set_redirect (lp_redirect u mod 2 ^ 6) (ss_base s)) s)) ;;;
        upd_state (fun s => ss_set_base (st_set_policy p (ss_base s)) s) ;;;
        ret XKB_SUCCESS
  end.

(** The updates common to [xkb_state_update_synthetic] and
    [xkb_machine_process_synthetic], the ABI check included. *)
Definition apply_state_update (u : state_update) : M sctx xkb_error_code :=
  match check_state_update_abi u with
  | XKB_SUCCESS =>
      let* e := (match su_layout_policy u with
                 | Some (_, lp) => state_update_layout_policy lp
                 | None => ret XKB_SUCCESS
                 end) in
      match e with
      | XKB_SUCCESS =>
          (match su_components u with
           | Some (_, cu) =>
               state_update_enabled_controls (up_affect_controls cu) (up_controls cu) ;;;
               state_update_latched_locked xkb_filter_apply_all cu
           | None => ret tt
           end) ;;;
          upd_derived ;;;
          ret XKB_SUCCESS
      | e => ret e
      end
  | e => ret e
  end.

(** Returns the error code, and the changed components on success. *)
Definition update_synthetic (u : state_update) : M sctx (xkb_error_code * Z) :=
  let* s := gets sc_state in
  if negb (is_server_mode (st_mode (ss_base s))) then ret (XKB_ERROR_UNEXPECTED_STATE_MODE, 0)
  else
    let* prev := get_comps in
    let* e := apply_state_update u in
    let* c := get_comps in
    ret (e, match e with XKB_SUCCESS => get_state_component_changes prev c | _ => 0 end).

Definition xkb_state_update_synthetic (s : xkb_server_state) (u : state_update)
    : result ((xkb_error_code * Z) * xkb_server_state) :=
  run_legacy (update_synthetic u) s.
