(* ===== verification/Safety.v ===== *)
(** * Safety of the server state

    The invariant of the server state, its preservation by every handler, and
    the faults that can occur: the handlers never fail an assertion, index out
    of bounds, touch missing events or exhaust the recursion bound; the only
    fault is the use of a filter pointer after the array moved, and it needs
    an active control filter. *)

From Stdlib Require Import ZArith Lia.
From stdpp Require Import base tactics list numbers.
From S2P Require Import Prelude Keymap State Filters Apply Server.

(** ** Base modifiers are counted

    [commit_mods], the end of [xkb_state_update_key]: the modifiers set and
    cleared by the handlers go through [mod_key_count], so that a modifier is
    depressed as long as one of its keys is.  The two loops are related to a
    bit by bit reading, on which the counting invariant is proved. *)

(** ** One modifier *)

(** The count of a modifier after the two loops. *)
Definition count_after (set clear : bool) (n : Z) : Z :=
  let n := if set then i16 (n + 1) else n in
  if clear then Z.max 0 (i16 (n - 1)) else n.

(** Whether it is depressed after them. *)
Definition base_after (set clear base : bool) (n : Z) : bool :=
  let n := if set then i16 (n + 1) else n in
  (base || set) && negb (clear && (i16 (n - 1) <=? 0)).

(** ** The loops *)

Lemma has_flag_nat m i : has_flag m (bit (Z.of_nat i)) = Z.testbit m (Z.of_nat i).
Proof. apply has_flag_bit. lia. Qed.

Lemma ldiff_bit_testbit m i j :
  0 <= i -> Z.testbit (Z.ldiff m (bit i)) j = Z.testbit m j && negb (i =? j).
Proof. intros. by rewrite Z.ldiff_spec, bit_spec. Qed.

Lemma bits_window_zero m i fuel :
  (forall j, 0 <= j -> Z.testbit m j = true -> Z.of_nat i <= j < Z.of_nat (i + fuel)) ->
  m = 0 \/ (0 < fuel)%nat.
Proof.
  intros Hw. destruct fuel; [left | right; lia]. apply Z.bits_inj'. intros j Hj.
  rewrite Z.testbit_0_l. destruct (Z.testbit m j) eqn:H; [|done].
  apply Hw in H; lia.
Qed.

(** The bits of [m] left to the loop at index [i]. *)
Definition window (m : Z) (i fuel : nat) : Prop :=
  forall j, 0 <= j -> Z.testbit m j = true -> Z.of_nat i <= j < Z.of_nat (i + fuel).

Lemma window_ldiff m i fuel :
  window m i (S fuel) -> window (Z.ldiff m (bit (Z.of_nat i))) (S i) fuel.
Proof.
  intros Hw j Hj. rewrite ldiff_bit_testbit by lia.
  intros [H Hne]%andb_true_iff. apply Hw in H; [|done].
  apply negb_true_iff, Z.eqb_neq in Hne. lia.
Qed.

Lemma window_skip m i fuel :
  window m i (S fuel) -> Z.testbit m (Z.of_nat i) = false -> window m (S i) fuel.
Proof.
  intros Hw Hi j Hj Ht. pose proof (Hw j Hj Ht).
  destruct (Z.eq_dec j (Z.of_nat i)) as [->|]; [congruence | lia].
Qed.

Lemma window_u32 m : is_u32 m -> window m 0 32.
Proof.
  intros Hm j Hj Ht. split; [lia|]. destruct (Z_lt_le_dec j 32); [lia|].
  rewrite u32_testbit_high in Ht; done.
Qed.

Lemma window_below m i fuel j :
  window m i fuel -> 0 <= j < Z.of_nat i -> Z.testbit m j = false.
Proof.
  intros Hw Hj. destruct (Z.testbit m j) eqn:H; [|done]. apply Hw in H; lia.
Qed.

Lemma count_at_insert counts i j v :
  (i < length counts)%nat ->
  count_at (<[i:=v]> counts) j = if decide (i = j) then v else count_at counts j.
Proof.
  intros Hi. unfold count_at. destruct (decide (i = j)) as [->|].
  - by rewrite list_lookup_insert_eq.
  - by rewrite list_lookup_insert_ne.
Qed.

Lemma commit_set_loop_spec fuel i m base counts :
  window m i fuel -> (i + fuel <= length counts)%nat ->
  let '(base', counts') := commit_set_loop fuel i m base counts in
  base' = Z.lor base m /\ length counts' = length counts /\
  forall j, count_at counts' j =
    if Z.testbit m (Z.of_nat j) then i16 (count_at counts j + 1) else count_at counts j.
Proof.
  revert i m base counts. induction fuel as [|fuel IH]; intros i m base counts Hw Hlen.
  - destruct (bits_window_zero m i 0 Hw) as [->|]; [|lia]. cbn.
    split; [by rewrite Z.lor_0_r|]. split; [done|]. intros j. by rewrite Z.testbit_0_l.
  - cbn [commit_set_loop]. destruct (Z.eqb_spec m 0) as [->|_].
    { split; [by rewrite Z.lor_0_r|]. split; [done|]. intros j. by rewrite Z.testbit_0_l. }
    rewrite has_flag_nat. destruct (Z.testbit m (Z.of_nat i)) eqn:Hi.
    + specialize (IH (S i) (Z.ldiff m (bit (Z.of_nat i))) (Z.lor base (bit (Z.of_nat i)))
        (<[i:=i16 (count_at counts i + 1)]> counts) (window_ldiff _ _ _ Hw)).
      rewrite length_insert in IH. specialize (IH ltac:(lia)).
      destruct (commit_set_loop _ _ _ _ _) as [base' counts'].
      destruct IH as (-> & Hl & Hc). split; [|split; [done|]].
      * apply Z.bits_inj'. intros j Hj.
        rewrite !Z.lor_spec, ldiff_bit_testbit, bit_spec by lia.
        destruct (Z.eqb_spec (Z.of_nat i) j) as [<-|]; [rewrite Hi|];
          destruct (Z.testbit base _); cbn; by rewrite ?andb_true_r.
      * intros j. rewrite Hc, ldiff_bit_testbit, count_at_insert by lia.
        destruct (decide (i = j)) as [->|].
        -- by rewrite Z.eqb_refl, andb_false_r, Hi.
        -- destruct (Z.eqb_spec (Z.of_nat i) (Z.of_nat j)); [lia|]. by rewrite andb_true_r.
    + apply IH; [by apply window_skip | lia].
Qed.

Lemma commit_clear_loop_spec fuel i m base counts :
  window m i fuel -> (i + fuel <= length counts)%nat ->
  let '(base', counts') := commit_clear_loop fuel i m base counts in
  length counts' = length counts /\
  (forall j, 0 <= j -> Z.testbit base' j =
    Z.testbit base j &&
      negb (Z.testbit m j && (i16 (count_at counts (Z.to_nat j) - 1) <=? 0))) /\
  forall j, count_at counts' j =
    if Z.testbit m (Z.of_nat j) then Z.max 0 (i16 (count_at counts j - 1)) else count_at counts j.
Proof.
  revert i m base counts. induction fuel as [|fuel IH]; intros i m base counts Hw Hlen.
  - destruct (bits_window_zero m i 0 Hw) as [->|]; [|lia]. cbn. split; [done|].
    split; intros j; rewrite Z.testbit_0_l; [|done]. intros _. by rewrite andb_true_r.
  - cbn [commit_clear_loop]. destruct (Z.eqb_spec m 0) as [->|_].
    { split; [done|]. split; intros j; rewrite Z.testbit_0_l; [|done]. intros _. by rewrite andb_true_r. }
    rewrite has_flag_nat. destruct (Z.testbit m (Z.of_nat i)) eqn:Hi;
      [|apply IH; [by apply window_skip | lia]].
    set (n := i16 (count_at counts i - 1)).
    assert (forall base1 v, v = Z.max 0 n ->
      (forall j, 0 <= j -> Z.testbit base1 j = Z.testbit base j && negb ((Z.of_nat i =? j) && (n <=? 0))) ->
      let '(base', counts') := commit_clear_loop fuel (S i) (Z.ldiff m (bit (Z.of_nat i))) base1
                                 (<[i:=v]> counts) in
      length counts' = length counts /\
      (forall j, 0 <= j -> Z.testbit base' j = Z.testbit base j &&
        negb (Z.testbit m j && (i16 (count_at counts (Z.to_nat j) - 1) <=? 0))) /\
      forall j, count_at counts' j = if Z.testbit m (Z.of_nat j)
        then Z.max 0 (i16 (count_at counts j - 1)) else count_at counts j) as Hstep.
    { intros base1 v Hv Hbase.
      specialize (IH (S i) (Z.ldiff m (bit (Z.of_nat i))) base1 (<[i:=v]> counts)
        (window_ldiff _ _ _ Hw)).
      rewrite length_insert in IH. specialize (IH ltac:(lia)).
      destruct (commit_clear_loop _ _ _ _ _) as [base' counts'].
      destruct IH as (Hl & Hb & Hc). split; [done|]. split.
      - intros j Hj. rewrite Hb, Hbase, ldiff_bit_testbit, count_at_insert by lia.
        destruct (Z.eqb_spec (Z.of_nat i) j) as [<-|].
        + rewrite Hi, Nat2Z.id, andb_false_r. cbn. by rewrite andb_true_r.
        + destruct (decide (i = Z.to_nat j)); [lia|]. cbn. by rewrite !andb_true_r.
      - intros j. rewrite Hc, ldiff_bit_testbit, count_at_insert by lia.
        destruct (decide (i = j)) as [->|].
        + by rewrite Z.eqb_refl, andb_false_r, Hi.
        + destruct (Z.eqb_spec (Z.of_nat i) (Z.of_nat j)); [lia|]. by rewrite andb_true_r. }
    cbv zeta. destruct (Z.leb_spec n 0).
    + apply Hstep; [lia|]. intros j Hj. by rewrite ldiff_bit_testbit, andb_true_r by lia.
    + apply Hstep; [lia|]. intros j Hj. by rewrite !andb_false_r, andb_true_r.
Qed.

(** ** [commit_mods] *)

Section commit.
Context (s : xkb_server_state).
Hypothesis Hset : is_u32 (ss_set_mods s).
Hypothesis Hclear : is_u32 (ss_clear_mods s).
Hypothesis Hlen : length (ss_mod_key_count s) = XKB_MAX_MODS.

Lemma commit_mods_bits :
  length (ss_mod_key_count (commit_mods s)) = XKB_MAX_MODS /\
  forall j : nat,
    count_at (ss_mod_key_count (commit_mods s)) j =
      count_after (Z.testbit (ss_set_mods s) (Z.of_nat j))
        (Z.testbit (ss_clear_mods s) (Z.of_nat j)) (count_at (ss_mod_key_count s) j) /\
    Z.testbit (base_mods (ss_components (commit_mods s))) (Z.of_nat j) =
      base_after (Z.testbit (ss_set_mods s) (Z.of_nat j))
        (Z.testbit (ss_clear_mods s) (Z.of_nat j))
        (Z.testbit (base_mods (ss_components s)) (Z.of_nat j))
        (count_at (ss_mod_key_count s) j).
Proof using Hset Hclear Hlen.
  unfold commit_mods.
  pose proof (commit_set_loop_spec 32 0 _ (base_mods (ss_components s)) (ss_mod_key_count s)
    (window_u32 _ Hset)) as H1. rewrite Hlen in H1. specialize (H1 ltac:(unfold XKB_MAX_MODS; lia)).
  destruct (commit_set_loop 32 0 _ _ _) as [base1 counts1]. destruct H1 as (-> & Hl1 & Hc1).
  pose proof (commit_clear_loop_spec 32 0 _ (Z.lor (base_mods (ss_components s)) (ss_set_mods s))
    counts1 (window_u32 _ Hclear)) as H2. rewrite Hl1 in H2. specialize (H2 ltac:(unfold XKB_MAX_MODS; lia)).
  destruct (commit_clear_loop 32 0 _ _ _) as [base2 counts2]. destruct H2 as (Hl2 & Hb2 & Hc2).
  unfold ss_components. cbn. split; [congruence|]. intros j. unfold count_after, base_after.
  rewrite Hc2, Hc1, Hb2, Z.lor_spec, Nat2Z.id, Hc1 by lia. done.
Qed.

Lemma commit_mods_base_u32 :
  is_u32 (base_mods (ss_components s)) -> is_u32 (base_mods (ss_components (commit_mods s))).
Proof using Hset Hclear Hlen.
  intros Hb. destruct commit_mods_bits as [_ H].
  assert (forall j, 0 <= j -> Z.testbit (base_mods (ss_components (commit_mods s))) j = true ->
          Z.testbit (Z.lor (base_mods (ss_components s)) (ss_set_mods s)) j = true) as Hle.
  { intros j Hj. specialize (H (Z.to_nat j)) as [_ H]. rewrite Z2Nat.id in H by done.
    rewrite H, Z.lor_spec. unfold base_after. by intros [? _]%andb_true_iff. }
  assert (is_u32 (Z.lor (base_mods (ss_components s)) (ss_set_mods s))) as Hu
    by by apply is_u32_lor.
  replace (base_mods (ss_components (commit_mods s))) with
    (Z.land (base_mods (ss_components (commit_mods s)))
            (Z.lor (base_mods (ss_components s)) (ss_set_mods s))).
  - by apply is_u32_land_r.
  - apply Z.bits_inj'. intros j Hj. rewrite Z.land_spec.
    destruct (Z.testbit (base_mods (ss_components (commit_mods s))) j) eqn:E; [|done].
    by rewrite (Hle j Hj E).
Qed.
End commit.

(** ** The invariant *)

Definition action_ok (a : xkb_action) : Prop :=
  match a with
  | act_mods _ _ m => is_u32 (m_mask m)
  | act_group _ _ g => is_i32 g
  | act_ctrls _ _ c => is_u32 c
  | act_redirect r => is_u32 (r_affect r) /\ is_u32 (r_mods r)
  | _ => True
  end.

Definition level_ok (lv : xkb_level) : Prop := Forall action_ok (lv_actions lv).
Definition key_ok (k : xkb_key) : Prop :=
  Forall (fun g => Forall level_ok (g_levels g)) (k_groups k).

Record components_ok (c : state_components) : Prop := {
  cok_base_group : is_i32 (base_group c);
  cok_latched_group : is_i32 (latched_group c);
  cok_locked_group : is_i32 (locked_group c);
  cok_base_mods : is_u32 (base_mods c);
  cok_latched_mods : is_u32 (latched_mods c);
  cok_locked_mods : is_u32 (locked_mods c);
  cok_controls : is_u32 (controls c)
}.

(** What an active handler expects of the private data of its filter. *)
Definition priv_ok (has_events : bool) (fn : option filter_func) (priv : Z) : Prop :=
  match fn with
  | Some mod_latch_func => 0 <= priv <= 2
  | Some group_latch_func => 0 <= priv_latch priv <= 2
  | Some redirect_key_func => has_events = true
  | _ => True
  end.

Record filter_ok (has_events : bool) (f : xkb_filter) : Prop := {
  fok_action : action_ok (f_action f);
  fok_priv_u32 : is_u32 (f_priv f);
  fok_priv : priv_ok has_events (f_func f) (f_priv f)
}.

(** The part of [filter_ok] that holds of a slot being filled. *)
Definition filter_weak (f : xkb_filter) : Prop :=
  action_ok (f_action f) /\ is_u32 (f_priv f).

Record server_ok (km : xkb_keymap) (s : xkb_server_state) : Prop := {
  sok_keymap : st_keymap (ss_base s) = km;
  sok_components : components_ok (ss_components s);
  sok_redirect : 0 <= st_redirect (ss_base s);
  sok_alloc : (length (ss_filters s) <= ss_alloc s)%nat;
  sok_set : is_u32 (ss_set_mods s);
  sok_clear : is_u32 (ss_clear_mods s);
  sok_counts : length (ss_mod_key_count s) = XKB_MAX_MODS
}.

Definition has_events (x : sctx) : bool :=
  match sc_events x with Some _ => true | None => false end.

Section inv.
Context (km : xkb_keymap) (b : bool).

(** All filters are in order, but perhaps the one being filled ([hole]),
    whose handler is set. *)
Record inv (hole : option (nat * option filter_func)) (n : nat) (x : sctx) : Prop := {
  inv_server : server_ok km (sc_state x);
  inv_events : has_events x = b;
  inv_size : (n <= length (ss_filters (sc_state x)))%nat;
  inv_filters : forall i f, ss_filters (sc_state x) !! i = Some f ->
    match hole with
    | Some (j, fn) => if decide (i = j) then filter_weak f /\ f_func f = fn
                      else filter_ok b f
    | None => filter_ok b f
    end
}.

(** [pres h h' n E m Q]: from the invariant with hole [h], [m] faults only in
    [E], keeps the invariant with hole [h'] and returns a value in [Q]. *)
Definition pres {A} (h h' : option (nat * option filter_func)) (n : nat) (E : fault -> Prop)
    (m : M sctx A) (Q : A -> Prop) : Prop :=
  forall x, inv h n x -> wp m x E (fun a x' => inv h' n x' /\ Q a).

Lemma pres_ret {A} h n E (a : A) (Q : A -> Prop) : Q a -> pres h h n E (ret a) Q.
Proof. intros Ha x Hx. by apply wp_ret. Qed.

Lemma pres_bind {A B} h h' h'' n E (m : M sctx A) (k : A -> M sctx B) Q R :
  pres h h' n E m Q -> (forall a, Q a -> pres h' h'' n E (k a) R) ->
  pres h h'' n E (bind m k) R.
Proof.
  intros Hm Hk x Hx. apply wp_bind. eapply wp_mono; [by apply Hm | done |].
  intros a x' [Hx' Ha]. by apply Hk.
Qed.

Lemma pres_if {A} h h' n E (c : bool) (m1 m2 : M sctx A) Q :
  pres h h' n E m1 Q -> pres h h' n E m2 Q -> pres h h' n E (if c then m1 else m2) Q.
Proof. by destruct c. Qed.

Lemma pres_mono {A} h h' n (E E' : fault -> Prop) (m : M sctx A) (Q Q' : A -> Prop) :
  pres h h' n E m Q -> (forall f, E f -> E' f) -> (forall a, Q a -> Q' a) ->
  pres h h' n E' m Q'.
Proof. intros Hm HE HQ x Hx. eapply wp_mono; [by apply Hm | done |]. intros a x' [? ?]; auto. Qed.

Lemma pres_gets_state h n E (Q : xkb_server_state -> Prop) :
  (forall s, server_ok km s -> Q s) -> pres h h n E (gets sc_state) Q.
Proof. intros HQ x Hx. apply wp_gets. split; [done | apply HQ, (inv_server _ _ _ Hx)]. Qed.

Lemma pres_get_comps h n E : pres h h n E get_comps components_ok.
Proof. intros x Hx. apply wp_gets. split; [done|]. apply (inv_server _ _ _ Hx). Qed.

Lemma pres_upd_state h n E g :
  (forall s, server_ok km s -> server_ok km (g s) /\ ss_filters (g s) = ss_filters s) ->
  pres h h n E (upd_state g) (fun _ => True).
Proof.
  intros Hg x [Hs Hb Hn Hf]. apply wp_modify. destruct (Hg _ Hs) as [Hs' Heq].
  split; [|done]. by split; cbn; rewrite ?Heq.
Qed.

Lemma pres_upd_comps h n E g :
  (forall c, components_ok c -> components_ok (g c)) ->
  pres h h n E (upd_comps g) (fun _ => True).
Proof.
  intros Hg. apply pres_upd_state. intros s []. split; [|done].
  split; try done. by apply Hg.
Qed.

Lemma pres_upd_set_mods h n E g :
  (forall m, is_u32 m -> is_u32 (g m)) -> pres h h n E (upd_set_mods g) (fun _ => True).
Proof.
  intros Hg. apply pres_upd_state. intros s []. split; [|done]. split; try done. by apply Hg.
Qed.

Lemma pres_upd_clear_mods h n E g :
  (forall m, is_u32 m -> is_u32 (g m)) -> pres h h n E (upd_clear_mods g) (fun _ => True).
Proof.
  intros Hg. apply pres_upd_state. intros s []. split; [|done]. split; try done. by apply Hg.
Qed.

Lemma pres_get_filter i n E : (i < n)%nat -> pres None None n E (get_filter i) (filter_ok b).
Proof.
  intros Hi x [Hs Hb Hn Hf]. unfold wp, get_filter.
  destruct (ss_filters (sc_state x) !! i) as [f|] eqn:H.
  - split; [by split | by apply (Hf i)].
  - apply lookup_ge_None in H. lia.
Qed.

Lemma pres_get_hole i fn n E : (i < n)%nat ->
  pres (Some (i, fn)) (Some (i, fn)) n E (get_filter i)
    (fun f => filter_weak f /\ f_func f = fn).
Proof.
  intros Hi x [Hs Hb Hn Hf]. unfold wp, get_filter.
  destruct (ss_filters (sc_state x) !! i) as [f|] eqn:H.
  - split; [by split |]. specialize (Hf i f H). cbn in Hf. by destruct (decide (i = i)).
  - apply lookup_ge_None in H. lia.
Qed.

Lemma inv_alter h h' n x i g :
  inv h n x ->
  (forall f, ss_filters (sc_state x) !! i = Some f ->
    match h' with
    | Some (j, fn) => if decide (i = j) then filter_weak (g f) /\ f_func (g f) = fn
                      else filter_ok b (g f)
    | None => filter_ok b (g f)
    end) ->
  (forall j, j <> i -> match h, h' with
     | Some (k, fn), Some (k', fn') => j = k \/ j = k' -> k = k' /\ fn = fn'
     | Some (k, _), None => j <> k
     | None, Some (k, _) => j <> k
     | None, None => True end) ->
  inv h' n (mk_sctx (ss_set_filters (alter g i (ss_filters (sc_state x))) (sc_state x))
              (sc_events x)).
Proof.
  intros [Hs Hb Hn Hf] Hg Hh. split; cbn; [|done|by rewrite length_alter|].
  - destruct Hs. split; try done. cbn. by rewrite length_alter.
  - intros j f. destruct (decide (j = i)) as [->|Hne].
    + rewrite list_lookup_alter_eq. intros (f' & Hf' & ->)%fmap_Some. by apply Hg.
    + rewrite list_lookup_alter_ne by done. intros Hj. specialize (Hf j f Hj).
      specialize (Hh j Hne). destruct h as [[k fn]|], h' as [[k' fn']|]; try done.
      * destruct (decide (j = k)), (decide (j = k')); subst; try naive_solver.
      * by destruct (decide (j = k)).
      * by destruct (decide (j = k')).
Qed.

Lemma pres_upd_filter n E i g :
  (forall f, filter_ok b f -> filter_ok b (g f)) ->
  pres None None n E (upd_filter i g) (fun _ => True).
Proof.
  intros Hg x Hx. apply wp_modify. split; [|done]. eapply inv_alter; [done| |done].
  intros f Hf. apply Hg. by apply (inv_filters _ _ _ Hx i).
Qed.

Lemma pres_upd_hole n E i fn fn' g :
  (forall f, filter_weak f -> f_func f = fn -> filter_weak (g f) /\ f_func (g f) = fn') ->
  pres (Some (i, fn)) (Some (i, fn')) n E (upd_filter i g) (fun _ => True).
Proof.
  intros Hg x Hx. apply wp_modify. split; [|done]. eapply inv_alter; [done| |].
  - intros f Hf. pose proof (inv_filters _ _ _ Hx i f Hf) as H.
    cbn in *. destruct (decide (i = i)); [|done]. apply Hg; apply H.
  - intros j Hj. cbn. intros [?|?]; contradiction.
Qed.

Lemma pres_open n E i fn g :
  (forall f, filter_ok b f -> filter_weak (g f) /\ f_func (g f) = fn) ->
  pres None (Some (i, fn)) n E (upd_filter i g) (fun _ => True).
Proof.
  intros Hg x Hx. apply wp_modify. split; [|done]. eapply inv_alter; [done| |].
  - intros f Hf. cbn. destruct (decide (i = i)); [|done].
    apply Hg. by apply (inv_filters _ _ _ Hx i).
  - intros j Hj. cbn. done.
Qed.

Lemma pres_close n E i fn g :
  (forall f, filter_weak f -> f_func f = fn -> filter_ok b (g f)) ->
  pres (Some (i, fn)) None n E (upd_filter i g) (fun _ => True).
Proof.
  intros Hg x Hx. apply wp_modify. split; [|done]. eapply inv_alter; [done| |].
  - intros f Hf. pose proof (inv_filters _ _ _ Hx i f Hf) as H.
    cbn in *. destruct (decide (i = i)); [|done]. apply Hg; apply H.
  - intros j Hj. cbn. done.
Qed.

(** A handler whose private data is unconstrained needs no filling. *)
Lemma pres_fill {A} h n E i fn (m : M sctx A) Q :
  (forall priv, priv_ok b fn priv) ->
  pres h (Some (i, fn)) n E m Q -> pres h None n E m Q.
Proof.
  intros Hp Hm x Hx. eapply wp_mono; [by apply Hm | done |].
  intros a x' [[Hs Hb Hn Hf] Ha]. split; [|done]. split; try done.
  intros j f Hj. specialize (Hf j f Hj). cbn in Hf. destruct (decide (j = i)); [|done].
  destruct Hf as [[Hw1 Hw2] Hfn]. split; try done. rewrite Hfn. apply Hp.
Qed.
End inv.

(** ** Well-formedness of the primitive updates *)

Create HintDb server.

Lemma i32_ok x : is_i32 (i32 x).
Proof. apply i32_range. Qed.

Lemma is_i32_0 : is_i32 0.
Proof. unfold is_i32. lia. Qed.

Lemma apply_group_delta_ok f v : action_ok (f_action f) -> is_i32 (apply_group_delta f v).
Proof.
  intros Ha. unfold apply_group_delta. destruct has_flag; [|apply i32_ok].
  destruct (f_action f); cbn; auto using is_i32_0.
Qed.

Lemma f_mask_ok f : action_ok (f_action f) -> is_u32 (f_mask f).
Proof. unfold f_mask. destruct (f_action f); cbn; auto using is_u32_0. Qed.

Lemma a_ctrls_ok a : action_ok a -> is_u32 (a_ctrls a).
Proof. destruct a; cbn; auto using is_u32_0. Qed.

Lemma a_group_ok a : action_ok a -> is_i32 (a_group a).
Proof. destruct a; cbn; auto using is_i32_0. Qed.

Lemma a_set_flags_ok fl a : action_ok a -> action_ok (a_set_flags fl a).
Proof. by destruct a. Qed.

Lemma a_set_mod_type_ok t a : action_ok a -> action_ok (a_set_mod_type t a).
Proof. by destruct a. Qed.

Lemma group_latch_priv_u32 l d : is_u32 (group_latch_priv l d).
Proof. apply u32_range. Qed.

Lemma priv_latch_range p : 0 <= priv_latch p < 4.
Proof. apply Z.mod_pos_bound. lia. Qed.

(** The two bit fields of [union group_latch_priv] are independent. *)
Lemma priv_latch_pack l d : priv_latch (group_latch_priv l d) = l mod 4.
Proof.
  unfold priv_latch, group_latch_priv, u32.
  rewrite <- (Z.mod_unique ((l mod 4 + 4 * d) mod 2 ^ 32) 4
    (((l mod 4 + 4 * d) mod 2 ^ 32) / 4) (l mod 4)); [done| |].
  - left. apply Z.mod_pos_bound. lia.
  - pose proof (Z.div_mod (l mod 4 + 4 * d) (2 ^ 32) ltac:(lia)).
    pose proof (Z.mod_pos_bound l 4 ltac:(lia)).
    assert (((l mod 4 + 4 * d) mod 2 ^ 32) mod 4 = l mod 4) as Hm.
    { rewrite <- (Z.mod_small (l mod 4) 4) at 2 by lia.
      replace ((l mod 4 + 4 * d) mod 2 ^ 32)
        with (l mod 4 + (d - 2 ^ 30 * ((l mod 4 + 4 * d) / 2 ^ 32)) * 4) by lia.
      apply Z.mod_add. lia. }
    pose proof (Z.div_mod ((l mod 4 + 4 * d) mod 2 ^ 32) 4 ltac:(lia)). lia.
Qed.

Lemma priv_group_delta_pack l d :
  - 2 ^ 29 <= d < 2 ^ 29 -> priv_group_delta (group_latch_priv l d) = d.
Proof.
  intros Hd. unfold priv_group_delta, group_latch_priv, u32.
  pose proof (Z.mod_pos_bound l 4 ltac:(lia)).
  assert (((l mod 4 + 4 * d) mod 2 ^ 32) / 4 = d mod 2 ^ 30) as ->.
  { symmetry. apply (Z.div_unique _ 4 _ (l mod 4)); [lia|].
    pose proof (Z.mod_pos_bound d (2 ^ 30) ltac:(lia)).
    pose proof (Z.div_mod d (2 ^ 30) ltac:(lia)).
    symmetry. apply (Z.mod_unique _ _ (d / 2 ^ 30)); lia. }
  unfold sext. rewrite Z.mod_mod by lia. change (sext 30 d = d). apply sext_id; lia.
Qed.

Lemma components_ok_set_base_group v c : is_i32 v -> components_ok c -> components_ok (set_base_group v c).
Proof. by intros ? []. Qed.
Lemma components_ok_set_latched_group v c : is_i32 v -> components_ok c -> components_ok (set_latched_group v c).
Proof. by intros ? []. Qed.
Lemma components_ok_set_locked_group v c : is_i32 v -> components_ok c -> components_ok (set_locked_group v c).
Proof. by intros ? []. Qed.
Lemma components_ok_set_base_mods v c : is_u32 v -> components_ok c -> components_ok (set_base_mods v c).
Proof. by intros ? []. Qed.
Lemma components_ok_set_latched_mods v c : is_u32 v -> components_ok c -> components_ok (set_latched_mods v c).
Proof. by intros ? []. Qed.
Lemma components_ok_set_locked_mods v c : is_u32 v -> components_ok c -> components_ok (set_locked_mods v c).
Proof. by intros ? []. Qed.
Lemma components_ok_set_controls v c : is_u32 v -> components_ok c -> components_ok (set_controls v c).
Proof. by intros ? []. Qed.

#[export] Hint Resolve components_ok_set_base_group components_ok_set_latched_group
  components_ok_set_locked_group components_ok_set_base_mods components_ok_set_latched_mods
  components_ok_set_locked_mods components_ok_set_controls
  i32_ok is_i32_0 apply_group_delta_ok f_mask_ok a_ctrls_ok a_group_ok a_set_flags_ok
  a_set_mod_type_ok group_latch_priv_u32 is_u32_land_l is_u32_lor is_u32_ldiff is_u32_0
  cok_base_group cok_latched_group cok_locked_group cok_base_mods cok_latched_mods
  cok_locked_mods cok_controls fok_action fok_priv_u32 fok_priv : server.

Section filter_ok.
Context (b : bool) (f : xkb_filter) (Hf : filter_ok b f).

Lemma filter_ok_set_flags fl : filter_ok b (f_set_flags fl f).
Proof. destruct Hf. split; cbn; auto with server. Qed.
Lemma filter_ok_set_key k : filter_ok b (f_set_key k f).
Proof. by destruct Hf. Qed.
Lemma filter_ok_set_refcnt n : filter_ok b (f_set_refcnt n f).
Proof. by destruct Hf. Qed.
Lemma filter_ok_set_none : filter_ok b (f_set_func None f).
Proof. by destruct Hf. Qed.
Lemma filter_ok_set_action a : action_ok a -> filter_ok b (f_set_action a f).
Proof. by destruct Hf. Qed.
Lemma filter_ok_weak : filter_weak f.
Proof. by destruct Hf. Qed.
End filter_ok.

Lemma filter_weak_set_action a f : action_ok a -> filter_weak f -> filter_weak (f_set_action a f).
Proof. by intros ? []. Qed.
Lemma filter_weak_set_key k f : filter_weak f -> filter_weak (f_set_key k f).
Proof. by intros []. Qed.

#[export] Hint Resolve filter_weak_set_action filter_weak_set_key filter_ok_set_flags filter_ok_set_key filter_ok_set_refcnt
  filter_ok_set_none filter_ok_set_action filter_ok_weak : server.

(** [pres_auto] runs the invariant through the primitives of a handler. *)
Ltac pres_side := first [ done | by eauto 8 with server | by intros; eauto 8 with server ].
Ltac pres_step :=
  lazymatch goal with
  | |- pres _ _ _ _ _ _ (bind (get_filter _) _) _ =>
      eapply pres_bind; [apply pres_get_filter; done | intros ? ?; cbv beta zeta]
  | |- pres _ _ _ _ _ _ (bind get_comps _) _ =>
      eapply pres_bind; [apply pres_get_comps | intros ? ?; cbv beta zeta]
  | |- pres _ _ _ _ _ _ (bind _ _) _ => eapply pres_bind; [|intros ? _; cbv beta zeta]
  | |- pres _ _ _ _ _ _ (ret _) _ => apply pres_ret; done
  | |- pres _ _ _ _ _ _ (if _ then _ else _) _ => apply pres_if
  | |- pres _ _ _ _ _ _ (upd_comps _) _ => apply pres_upd_comps; pres_side
  | |- pres _ _ _ _ _ _ (upd_set_mods _) _ => apply pres_upd_set_mods; pres_side
  | |- pres _ _ _ _ _ _ (upd_clear_mods _) _ => apply pres_upd_clear_mods; pres_side
  | |- pres _ _ _ _ _ _ (upd_filter _ _) _ => apply pres_upd_filter; pres_side
  | |- pres _ _ _ _ _ _ (clear_locked_mods _) _ => unfold clear_locked_mods
  | |- pres _ _ _ _ _ _ (clear_latched_mods _) _ => unfold clear_latched_mods
  | |- pres _ _ _ _ _ _ (sub_latched_group _) _ => unfold sub_latched_group
  | |- pres _ _ _ _ _ _ (add_latched_group _) _ => unfold add_latched_group
  | |- pres _ _ _ _ _ _ (sub_base_group _) _ => unfold sub_base_group
  end.
Ltac pres_auto := repeat pres_step.

Abbreviation no_fault := (fun _ : fault => False).
Abbreviation any := (fun _ => True).

Section handlers.
Context (km : xkb_keymap) (b : bool).
Context (n i : nat) (Hi : (i < n)%nat).

Lemma filter_key_count_pres d :
  pres km b None None n no_fault (filter_key_count i d) any.
Proof using Hi. destruct d; unfold filter_key_count; pres_auto. Qed.

Ltac key_count := eapply pres_bind; [apply filter_key_count_pres | intros [r|] _].

Lemma group_set_func_pres key d :
  pres km b None None n no_fault (xkb_filter_group_set_func i key d) any.
Proof using Hi.
  unfold xkb_filter_group_set_func. pres_step. apply pres_if; [pres_auto|].
  key_count; pres_auto.
Qed.

Lemma group_lock_func_pres key d :
  pres km b None None n no_fault (xkb_filter_group_lock_func i key d) any.
Proof using Hi.
  unfold xkb_filter_group_lock_func. pres_step. apply pres_if; [pres_auto|].
  key_count; pres_auto.
Qed.

Lemma mod_set_func_pres key d :
  pres km b None None n no_fault (xkb_filter_mod_set_func i key d) any.
Proof using Hi.
  unfold xkb_filter_mod_set_func. pres_step. apply pres_if; [pres_auto|].
  key_count; pres_auto.
Qed.

Lemma mod_lock_func_pres key d :
  pres km b None None n no_fault (xkb_filter_mod_lock_func i key d) any.
Proof using Hi.
  unfold xkb_filter_mod_lock_func. pres_step. apply pres_if; [pres_auto|].
  key_count; pres_auto.
Qed.

Lemma filter_ok_set_func fn f :
  (forall p, priv_ok b (Some fn) p) -> filter_ok b f -> filter_ok b (f_set_func (Some fn) f).
Proof. intros Hp []. split; [done | done | apply Hp]. Qed.

Lemma filter_ok_set_priv v f :
  is_u32 v -> priv_ok b (f_func f) v -> filter_ok b f -> filter_ok b (f_set_priv v f).
Proof. intros ? ? []. by split. Qed.

Lemma group_lock_new_pres E : pres km b None None n E (xkb_filter_group_lock_new i) any.
Proof using Hi. unfold xkb_filter_group_lock_new. pres_auto. Qed.
End handlers.

(** ** Filling a slot: the [new] functions *)

Section news.
Context (km : xkb_keymap) (b : bool).
Context (n i : nat) (Hi : (i < n)%nat).

Abbreviation hole fn := (Some (i, Some fn)).
Abbreviation hole_of fn := (Some (i, fn)).

Lemma hole_priv fn E v :
  is_u32 v -> pres km b (hole_of fn) (hole_of fn) n E (upd_filter i (f_set_priv v)) any.
Proof. intros Hv. apply pres_upd_hole. intros f [? ?] ?. split; [split|]; done. Qed.

Lemma hole_close fn E v :
  is_u32 v -> priv_ok b fn v ->
  pres km b (hole_of fn) None n E (upd_filter i (f_set_priv v)) any.
Proof. intros Hv Hp. apply pres_close. intros f [? ?] Hf. split; cbn; try done. by rewrite Hf. Qed.

Lemma hole_none fn E : pres km b (hole_of fn) None n E (upd_filter i (f_set_func None)) any.
Proof. apply pres_close. intros f [? ?] Hf. by split. Qed.

(** Every [new] function turns the slot being filled into a filter in order. *)
Ltac get_hole := eapply pres_bind; [by apply pres_get_hole | intros f [Hw Hfn]; cbv beta zeta].
Ltac get_c := eapply pres_bind; [apply pres_get_comps | intros c Hc; cbv beta zeta].
Ltac seq := eapply pres_bind; [|intros ? _; cbv beta zeta].

Lemma group_set_new_fills :
  pres km b (hole group_set_func) None n no_fault (xkb_filter_group_set_new i) any.
Proof using Hi.
  unfold xkb_filter_group_set_new. get_hole. get_c. seq.
  - apply hole_close; [apply u32_range | done].
  - destruct Hw. pres_auto.
Qed.

Lemma group_lock_new_fills :
  pres km b (hole group_lock_func) None n no_fault (xkb_filter_group_lock_new i) any.
Proof using Hi.
  apply pres_fill with i (Some group_lock_func); [done|].
  unfold xkb_filter_group_lock_new. get_hole. destruct Hw. pres_auto.
Qed.

Lemma group_latch_new_fills :
  pres km b (hole group_latch_func) None n no_fault (xkb_filter_group_latch_new i) any.
Proof using Hi.
  unfold xkb_filter_group_latch_new. get_hole. get_c. seq.
  - apply hole_close; [apply group_latch_priv_u32|].
    unfold priv_ok. rewrite priv_latch_pack. done.
  - destruct Hw. pres_auto.
Qed.

Lemma mod_set_new_fills :
  pres km b (hole mod_set_func) None n no_fault (xkb_filter_mod_set_new i) any.
Proof using Hi.
  unfold xkb_filter_mod_set_new. get_hole. get_c.
  pose proof (f_mask_ok f (proj1 Hw)). seq.
  - apply pres_if; [seq; [apply hole_priv; auto with server|] | apply hole_priv; auto with server].
    pres_auto.
  - apply pres_fill with i (Some mod_set_func); [done|]. clear dependent f. get_hole.
    destruct Hw. pres_auto.
Qed.

Lemma mod_lock_new_fills :
  pres km b (hole mod_lock_func) None n no_fault (xkb_filter_mod_lock_new i) any.
Proof using Hi.
  unfold xkb_filter_mod_lock_new. get_hole. get_c.
  pose proof (f_mask_ok f (proj1 Hw)). destruct Hc. seq.
  - apply hole_close; [auto with server | done].
  - pres_auto.
Qed.

Lemma mod_latch_new_fills :
  pres km b (hole mod_latch_func) None n no_fault (xkb_filter_mod_latch_new i) any.
Proof using Hi.
  unfold xkb_filter_mod_latch_new. get_hole. get_c.
  pose proof (f_mask_ok f (proj1 Hw)). apply pres_if; [|apply pres_if]; seq.
  - unfold clear_locked_mods. pres_auto.
  - apply hole_none.
  - apply hole_close; unfold LATCH_PENDING, is_u32; cbn; lia.
  - pres_auto.
  - apply hole_close; unfold LATCH_KEY_DOWN, is_u32; cbn; lia.
  - pres_auto.
Qed.

Lemma ctrls_new_fills :
  pres km b (hole ctrls_func) None n no_fault (xkb_filter_ctrls_new i) any.
Proof using Hi.
  unfold xkb_filter_ctrls_new. get_hole. get_c. pose proof (a_ctrls_ok _ (proj1 Hw)).
  destruct Hc. seq.
  - apply hole_close; [destruct (f_action f) as [ | | | | | | | | |[]| | | | | ]; auto with server | done].
  - pres_auto.
Qed.

(** *** The latch handlers *)

Lemma inv_hole x f :
  inv km b None n x -> ss_filters (sc_state x) !! i = Some f ->
  inv km b (hole_of (f_func f)) n x.
Proof.
  intros [Hs Hb Hn Hf] Hx. split; try done. intros j f' Hj. specialize (Hf j f' Hj).
  destruct (decide (j = i)) as [->|]; [|done]. rewrite Hx in Hj. injection Hj as <-.
  split; [by apply filter_ok_weak with b | done].
Qed.

(** Entry of a handler: the filter is read, its slot is open. *)
Lemma open_filter {A} E (body : xkb_filter -> M sctx A) Q x f :
  inv km b None n x -> ss_filters (sc_state x) !! i = Some f ->
  (filter_ok b f -> pres km b (hole_of (f_func f)) None n E (body f) Q) ->
  wp (bind (get_filter i) body) x E (fun a x' => inv km b None n x' /\ Q a).
Proof.
  intros Hx Hf Hb. apply wp_bind. unfold wp at 1, get_filter. rewrite Hf.
  apply Hb; [by apply (inv_filters _ _ _ _ _ Hx i) | by apply inv_hole].
Qed.

Lemma finish_pres {A} fn E v (a : A) :
  is_u32 v -> priv_ok b fn v ->
  pres km b (hole_of fn) None n E (upd_filter i (f_set_priv v) ;;; ret a) any.
Proof. intros Hv Hp. seq; [by apply hole_close | pres_auto]. Qed.

Lemma hole_comps fn E g :
  (forall c, components_ok c -> components_ok (g c)) ->
  pres km b (hole_of fn) (hole_of fn) n E (upd_comps g) any.
Proof. apply pres_upd_comps. Qed.

Lemma hole_set_none fn E :
  pres km b (hole_of fn) (hole_of None) n E (upd_filter i (f_set_func None)) any.
Proof. apply pres_upd_hole. by intros f [? ?] ?. Qed.

Lemma hole_set_func fn fn' E :
  pres km b (hole_of fn) (hole_of (Some fn')) n E (upd_filter i (f_set_func (Some fn'))) any.
Proof. apply pres_upd_hole. by intros f [? ?] ?. Qed.

Lemma hole_set_action fn E g :
  (forall a, action_ok a -> action_ok (g a)) ->
  pres km b (hole_of fn) (hole_of fn) n E
    (upd_filter i (fun f => f_set_action (g (f_action f)) f)) any.
Proof. intros Hg. apply pres_upd_hole. intros f [? ?] ?. split; [split|]; cbn; auto. Qed.

Lemma latch_key_down_press_range fl br acts : 0 <= latch_key_down_press fl br acts <= 1.
Proof.
  unfold latch_key_down_press, NO_LATCH, LATCH_KEY_DOWN.
  destruct has_flag; [|lia]. destruct existsb; lia.
Qed.

Lemma hole_to_none fn (f : xkb_filter) :
  (forall p, priv_ok b fn p) -> forall x, inv km b (hole_of fn) n x -> inv km b None n x.
Proof.
  intros Hp x [Hs Hb Hn Hf]. split; try done. intros j f' Hj. specialize (Hf j f' Hj).
  cbn in Hf. destruct (decide (j = i)); [|done]. destruct Hf as [[Hw1 Hw2] Hfn].
  split; [done | done |]. rewrite Hfn. apply Hp.
Qed.

Lemma latch_press_le2 fl br acts : 0 <= latch_key_down_press fl br acts <= 2.
Proof. pose proof (latch_key_down_press_range fl br acts). lia. Qed.

(** A loop over actions leaves the slot open, or returns with it in order. *)
Definition pending_post (fn : filter_func) (r : option xkb_filter_result) (x : sctx) : Prop :=
  match r with
  | Some _ => inv km b None n x
  | None => inv km b (hole fn) n x
  end.

Lemma pending_exit fn E (m : M sctx (option xkb_filter_result)) x :
  pres km b (hole fn) None n E m is_Some -> inv km b (hole fn) n x ->
  wp m x E (pending_post fn).
Proof.
  intros Hm Hx. eapply wp_mono; [by apply Hm | done |]. by intros r x' [Hx' [r' ->]].
Qed.

Lemma group_latch_pending_pres E key f sticky acts x :
  filter_ok b f -> inv km b (hole group_latch_func) n x ->
  wp (group_latch_pending i key f sticky acts) x E (pending_post group_latch_func).
Proof using Hi.
  intros Hf Hx. induction acts as [|act acts IH]; cbn [group_latch_pending].
  { by apply wp_ret. }
  apply wp_if; intros _; [apply wp_if; intros _; [|by apply IH]|].
  - apply pending_exit; [|done]. seq.
    { apply (hole_set_action _ _ (fun a => act_group GROUP_LOCK (a_flags a) (a_group a))).
      intros a Ha. by apply a_group_ok. }
    seq; [apply hole_set_func|]. seq.
    { eapply pres_mono; [apply group_lock_new_fills | done | done]. }
    unfold sub_latched_group. seq; [pres_auto|]. seq; [pres_auto|]. by apply pres_ret.
  - apply wp_if; intros _; [|by apply IH]. apply pending_exit; [|done].
    unfold sub_latched_group. seq; [apply hole_comps; pres_side|].
    seq; [apply hole_none|]. by apply pres_ret.
Qed.

Lemma mod_latch_pending_pres E key f sticky acts x :
  filter_ok b f -> inv km b (hole mod_latch_func) n x ->
  wp (mod_latch_pending i key f sticky acts) x E (pending_post mod_latch_func).
Proof using Hi.
  intros Hf Hx. pose proof (f_mask_ok f (fok_action b f Hf)).
  induction acts as [|act acts IH]; cbn [mod_latch_pending]; [by apply wp_ret|].
  apply wp_if; intros _.
  - apply pending_exit; [|done]. seq.
    { apply pres_if.
      all: seq; [apply (hole_set_action _ _ (a_set_mod_type _)); apply a_set_mod_type_ok|].
      all: seq; [apply hole_set_func|].
      all: eapply pres_mono; [first [apply mod_lock_new_fills | apply mod_set_new_fills] | done | done]. }
    seq; [pres_auto|]. unfold clear_latched_mods. seq; [pres_auto|]. by apply pres_ret.
  - apply wp_if; intros _; [|by apply IH]. apply pending_exit; [|done].
    unfold clear_latched_mods. seq; [apply hole_comps; pres_side|].
    seq; [apply hole_none|]. by apply pres_ret.
Qed.

Lemma pres_pending {A} fn E (m : M sctx (option xkb_filter_result))
    (k : option xkb_filter_result -> M sctx A) Q :
  (forall x, inv km b (hole fn) n x -> wp m x E (pending_post fn)) ->
  (forall r, pres km b None None n E (k (Some r)) Q) ->
  pres km b (hole fn) None n E (k None) Q ->
  pres km b (hole fn) None n E (bind m k) Q.
Proof.
  intros Hm Hs Hn x Hx. apply wp_bind. eapply wp_mono; [by apply Hm | done |].
  intros [r|] x' Hx'; [by apply Hs | by apply Hn].
Qed.

Lemma pres_gets_any {A} h E (g : sctx -> A) : pres km b h h n E (gets g) any.
Proof. intros x Hx. by apply wp_gets. Qed.

Definition ok_at (fn : filter_func) (x : sctx) : Prop :=
  exists f, ss_filters (sc_state x) !! i = Some f /\ f_func f = Some fn.

Lemma u32_of_latch v : 0 <= v <= 2 -> is_u32 v.
Proof. unfold is_u32. lia. Qed.

Lemma mod_latch_func_pres key d x :
  inv km b None n x -> ok_at mod_latch_func x ->
  wp (xkb_filter_mod_latch_func i key d) x no_fault (fun _ x' => inv km b None n x').
Proof using Hi.
  intros Hx (f & Hf & Hfn).
  destruct (decide (is_filter_key f key = true /\ d = KEY_REPEATED)) as [[Hk ->]|Hnr].
  { unfold xkb_filter_mod_latch_func. apply wp_bind. unfold wp at 1, get_filter.
    rewrite Hf. cbv beta iota zeta. rewrite Hk. exact Hx. }
  eapply wp_mono; [apply (open_filter no_fault _ any x f Hx Hf) | done | intros ? ? [? _]; assumption].
  rewrite Hfn. intros Hok. pose proof (fok_priv b f Hok) as Hp. rewrite Hfn in Hp. cbn in Hp.
  pose proof (f_mask_ok f (fok_action b f Hok)). cbv zeta.
  assert (forall v, 0 <= v <= 2 -> pres km b (hole mod_latch_func) None n no_fault
            (upd_filter i (f_set_priv v) ;;; ret FILTER_CONTINUE) any) as Hfin.
  { intros v Hv. apply finish_pres; [by apply u32_of_latch | done]. }
  destruct d; cbn [bool_decide decide key_direction_eq_dec].
  all: rewrite ?bool_decide_true, ?bool_decide_false by done.
  all: try (destruct (is_filter_key f key) eqn:Hk; [|by apply Hfin]); cbn [negb].
  - eapply pres_bind; [apply pres_get_comps | intros c Hc; cbv beta]. destruct Hc.
    unfold clear_latched_mods, clear_locked_mods.
    apply pres_if; [|apply pres_if; [|apply pres_if]].
    + seq; [apply pres_if; pres_auto|]. seq; [pres_auto|]. seq; [apply hole_set_none|].
      by apply finish_pres; [apply u32_of_latch|].
    + seq; [pres_auto|]. seq; [apply hole_set_none|].
      by apply finish_pres; [apply u32_of_latch|].
    + seq; [pres_auto|]. seq; [pres_auto|]. apply Hfin. unfold LATCH_PENDING. lia.
    + by apply Hfin.
  - seq; [apply pres_gets_any|].
    destruct (Z.eqb_spec (f_priv f) LATCH_KEY_DOWN).
    { apply Hfin. by apply latch_press_le2. }
    destruct (Z.eqb_spec (f_priv f) LATCH_PENDING).
    { eapply pres_pending; [intros; by apply mod_latch_pending_pres | |by apply Hfin].
      intros r. pres_auto. }
    destruct (Z.eqb_spec (f_priv f) NO_LATCH); [by apply Hfin|].
    unfold LATCH_KEY_DOWN, LATCH_PENDING, NO_LATCH in *. lia.
  - exfalso. by apply Hnr.
Qed.

Lemma group_latch_func_pres key d x :
  inv km b None n x -> ok_at group_latch_func x ->
  wp (xkb_filter_group_latch_func i key d) x no_fault (fun _ x' => inv km b None n x').
Proof using Hi.
  intros Hx (f & Hf & Hfn).
  destruct (decide (is_filter_key f key = true /\ d = KEY_REPEATED)) as [[Hk ->]|Hnr].
  { unfold xkb_filter_group_latch_func. apply wp_bind. unfold wp at 1, get_filter.
    rewrite Hf. cbv beta iota zeta. rewrite Hk. exact Hx. }
  eapply wp_mono; [apply (open_filter no_fault _ any x f Hx Hf) | done | intros ? ? [? _]; assumption].
  rewrite Hfn. intros Hok. pose proof (fok_priv b f Hok) as Hp. rewrite Hfn in Hp. cbn in Hp.
  cbv zeta.
  assert (forall v, 0 <= v <= 2 -> pres km b (hole group_latch_func) None n no_fault
            (upd_filter i (f_set_priv (group_latch_priv v (priv_group_delta (f_priv f)))) ;;;
             ret FILTER_CONTINUE) any) as Hfin.
  { intros v Hv. apply finish_pres; [apply group_latch_priv_u32|]. unfold priv_ok.
    rewrite priv_latch_pack, Z.mod_small by lia. done. }
  destruct d; cbn [bool_decide decide key_direction_eq_dec].
  all: rewrite ?bool_decide_true, ?bool_decide_false by done.
  all: try (destruct (is_filter_key f key) eqn:Hk; [|by apply Hfin]); cbn [negb].
  - eapply pres_bind; [apply pres_get_comps | intros c Hc; cbv beta]. destruct Hc.
    unfold sub_latched_group, sub_base_group, add_latched_group.
    apply pres_if; [|apply pres_if; [|apply pres_if]].
    + seq; [apply pres_if; pres_auto|]. seq; [pres_auto|]. seq; [apply hole_set_none|].
      by apply finish_pres; [apply group_latch_priv_u32|].
    + seq; [pres_auto|]. seq; [apply hole_set_none|].
      by apply finish_pres; [apply group_latch_priv_u32|].
    + seq; [pres_auto|]. seq; [pres_auto|]. apply Hfin. unfold LATCH_PENDING. lia.
    + by apply Hfin.
  - seq; [apply pres_gets_any|].
    destruct (Z.eqb_spec (priv_latch (f_priv f)) LATCH_KEY_DOWN).
    { apply Hfin. by apply latch_press_le2. }
    destruct (Z.eqb_spec (priv_latch (f_priv f)) LATCH_PENDING).
    { eapply pres_pending; [intros; by apply group_latch_pending_pres | |by apply Hfin].
      intros r. pres_auto. }
    destruct (Z.eqb_spec (priv_latch (f_priv f)) NO_LATCH); [by apply Hfin|].
    unfold LATCH_KEY_DOWN, LATCH_PENDING, NO_LATCH in *. lia.
  - exfalso. by apply Hnr.
Qed.

(** *** Redirections *)

Lemma append_event_pres h E e : b = true -> pres km b h h n E (append_event e) any.
Proof.
  intros -> x [Hs Hb Hn Hf]. unfold wp, append_event. unfold has_events in Hb.
  destruct (sc_events x) as [evs|] eqn:Hev; [|done]. split; [|done]. by split.
Qed.

Lemma get_queue_pres h E : b = true -> pres km b h h n E get_queue any.
Proof.
  intros -> x [Hs Hb Hn Hf]. unfold wp, get_queue. unfold has_events in Hb.
  destruct (sc_events x) as [evs|] eqn:Hev; [|done]. split; [|done].
  split; try done. unfold has_events. by rewrite Hev.
Qed.

Lemma append_redirect_pres h E r d :
  b = true -> pres km b h h n E (append_redirect_key_events r d) any.
Proof.
  intros Hb. unfold append_redirect_key_events.
  seq; [by apply get_queue_pres|]. get_c.
  repeat first [ by apply append_event_pres | by apply pres_ret | apply pres_if | seq ].
Qed.

Lemma redirect_new_fills :
  pres km b (hole redirect_key_func) None n no_fault (xkb_filter_redirect_key_new i) any.
Proof using Hi.
  unfold xkb_filter_redirect_key_new. get_hole. intros x Hx. apply wp_bind, wp_gets.
  pose proof (inv_events _ _ _ _ _ Hx) as Hb. unfold has_events in Hb.
  destruct (sc_events x) as [evs|]; [|exact (hole_none _ _ x Hx)].
  clear evs. revert x Hx. apply pres_if; [apply hole_none|].
  apply pres_fill with i (Some redirect_key_func); [by cbn|].
  by apply append_redirect_pres.
Qed.

Lemma redirect_func_pres key d x :
  inv km b None n x -> ok_at redirect_key_func x ->
  wp (xkb_filter_redirect_key_func i key d) x no_fault (fun _ x' => inv km b None n x').
Proof using Hi.
  intros Hx (f & Hf & Hfn).
  assert (b = true) as Hb.
  { pose proof (fok_priv b f (inv_filters _ _ _ _ _ Hx i f Hf)) as Hp. by rewrite Hfn in Hp. }
  enough (pres km b None None n no_fault (xkb_filter_redirect_key_func i key d) any) as Hp.
  { eapply wp_mono; [by apply Hp | done | intros ? ? [? _]; assumption]. }
  unfold xkb_filter_redirect_key_func. pres_step. apply pres_if; [pres_auto|].
  seq; [apply pres_gets_any|].
  apply pres_if; [|apply pres_if]; (seq; [by apply append_redirect_pres|]); pres_auto.
Qed.

Lemma run_filter_new_fills fn :
  pres km b (hole fn) None n no_fault (run_filter_new fn i) any.
Proof using Hi.
  destruct fn; [apply group_set_new_fills | apply group_lock_new_fills
    | apply group_latch_new_fills | apply mod_set_new_fills | apply mod_lock_new_fills
    | apply mod_latch_new_fills | apply ctrls_new_fills | apply redirect_new_fills].
Qed.

(** *** Controls *)

Definition only_realloc (f : fault) : Prop := f = FaultUseAfterRealloc.

Lemma ctrls_func_pres E clear_all key d :
  pres km b None None n E (guard_realloc clear_all) any ->
  pres km b None None n E (xkb_filter_ctrls_func clear_all i key d) any.
Proof using Hi.
  intros Hclear. unfold xkb_filter_ctrls_func. eapply pres_bind;
    [by apply pres_get_filter | intros f Hf; cbv beta zeta].
  apply pres_if; [pres_auto|].
  eapply pres_bind; [eapply pres_mono; [by apply filter_key_count_pres | done | done]
                    | intros [r|] _]; [pres_auto|].
  seq; [|pres_auto]. apply pres_if; [|by apply (pres_ret km b None n _ tt any)].
  get_c. seq; [pres_auto|]. seq; [eapply pres_mono; [apply pres_get_comps | done | done]|].
  apply pres_if; [done | by apply pres_ret].
Qed.

Lemma guard_realloc_pres m :
  pres km b None None n only_realloc m any ->
  pres km b None None n only_realloc (guard_realloc m) any.
Proof.
  intros Hm. unfold guard_realloc. seq; [apply pres_gets_any|]. seq; [exact Hm|].
  seq; [apply pres_gets_any|]. apply pres_if; [by apply pres_ret|].
  intros x Hx. exact eq_refl.
Qed.

(** A call that leaves the array in place is guarded for nothing. *)
Lemma guard_realloc_ret x : guard_realloc (ret tt) x = Ok (tt, x).
Proof. unfold guard_realloc, bind, gets. cbn. by rewrite Nat.eqb_refl. Qed.

Lemma pres_run {A} (E E' : fault -> Prop) (m : M sctx A) x :
  pres km b None None n E m any -> inv km b None n x -> (forall f, E f -> E' f) ->
  wp m x E' (fun _ x' => inv km b None n x').
Proof. intros Hm Hx HE. eapply wp_mono; [by apply Hm | done | by intros ? ? [? _]]. Qed.

Lemma run_filter_func_pres E clear_all fn key d x :
  (fn = ctrls_func -> pres km b None None n E (guard_realloc clear_all) any) ->
  inv km b None n x -> ok_at fn x ->
  wp (run_filter_func clear_all fn i key d) x E (fun _ x' => inv km b None n x').
Proof using Hi.
  intros Hc Hx Hok. destruct fn; cbn [run_filter_func].
  - by eapply pres_run; [apply group_set_func_pres | |].
  - by eapply pres_run; [apply group_lock_func_pres | |].
  - by eapply wp_mono; [apply group_latch_func_pres | |].
  - by eapply pres_run; [apply mod_set_func_pres | |].
  - by eapply pres_run; [apply mod_lock_func_pres | |].
  - by eapply wp_mono; [apply mod_latch_func_pres | |].
  - by eapply pres_run; [apply ctrls_func_pres; auto | |].
  - by eapply wp_mono; [apply redirect_func_pres | |].
Qed.
End news.

(** ** Allocation *)

Lemma next_alloc_loop_ge fuel alloc need :
  (need <= alloc * 2 ^ fuel)%nat -> (need <= next_alloc_loop fuel alloc need)%nat.
Proof.
  revert alloc. induction fuel as [|fuel IH]; intros alloc H; cbn [next_alloc_loop].
  - cbn in H. lia.
  - destruct (Nat.ltb_spec alloc need); [|lia]. apply IH. cbn [Nat.pow] in H. lia.
Qed.

Lemma darray_next_alloc_ge alloc need : (need <= darray_next_alloc alloc need)%nat.
Proof.
  apply next_alloc_loop_ge. pose proof (Nat.pow_gt_lin_r 2 need ltac:(lia)).
  destruct (Nat.eqb_spec alloc 0); nia.
Qed.

Lemma mod_mask_get_effective_u32 km m :
  Forall (fun m => is_u32 (mod_mapping m)) (km_mods km) -> is_u32 (mod_mask_get_effective km m).
Proof.
  intros Hm. unfold mod_mask_get_effective.
  assert (Forall (fun m => is_u32 (mod_mapping m)) (drop 8 (km_mods km))) as Hd
    by by apply Forall_drop.
  revert Hd. generalize (drop 8 (km_mods km)). intros l Hl.
  assert (is_u32 (Z.land m MOD_REAL_MASK_ALL)) as Hacc.
  { apply is_u32_land_r. unfold is_u32, MOD_REAL_MASK_ALL. lia. }
  revert Hacc. generalize (Z.land m MOD_REAL_MASK_ALL) as acc. generalize 8%nat as k.
  induction Hl as [|mo l Hmo Hl IH]; intros k acc Hacc; [done|]. cbn.
  apply IH. destruct has_flag; auto with server.
Qed.
