(* ===== verification/Reach.v ===== *)
(** * Reachable server states

    The invariant of [Safety] through [xkb_filter_apply_all], the latch and
    lock updates and the public entry points, for every state reachable from
    a new one; and what a fault needs. *)

From Stdlib Require Import ZArith Lia.
From stdpp Require Import base tactics list numbers.
From S2P Require Import Prelude Keymap State Filters Apply Server Safety.

(** ** Slots *)

Lemma zero_filter_ok b : filter_ok b zero_filter.
Proof. split; cbn; [done | unfold is_u32; lia | done]. Qed.

Section slots.
Context (km : xkb_keymap) (b : bool).

Lemma inv_weaken h n m x : (m <= n)%nat -> inv km b h n x -> inv km b h m x.
Proof. intros Hm []. split; try done. lia. Qed.

Lemma xkb_filter_new_inv n x E :
  inv km b None n x ->
  wp xkb_filter_new x E (fun i x' => inv km b None (Nat.max n (S i)) x').
Proof.
  intros Hx. unfold xkb_filter_new. apply wp_bind, wp_gets, wp_bind. cbv beta.
  enough (wp (match list_find (fun f => f_func f = None) (ss_filters (sc_state x)) with
           | Some (i, _) => ret i
           | None =>
               let size := length (ss_filters (sc_state x)) in
               upd_state (fun s => ss_set_filters (ss_filters s ++ [zero_filter]) s) ;;;
               (when Nat.ltb (ss_alloc (sc_state x)) (size + 1)
                do upd_state (ss_set_alloc (darray_next_alloc (ss_alloc (sc_state x)) (size + 1)))) ;;;
               ret size
           end) x E (fun i x' => inv km b None (Nat.max n (S i)) x')) as H.
  { eapply wp_mono; [exact H | done |]. intros i x' Hx'. apply wp_bind.
    eapply wp_mono; [apply (pres_upd_filter km b (Nat.max n (S i)) E i); [|exact Hx'] | done |].
    - intros f Hf. by apply filter_ok_set_refcnt.
    - intros _ x'' [? _]. by apply wp_ret. }
  destruct Hx as [Hs Hb Hn Hf]. destruct (list_find _ _) as [[i f]|] eqn:Hfind.
  - apply wp_ret. apply list_find_Some in Hfind as (Hi & _ & _).
    apply lookup_lt_Some in Hi. split; try done. lia.
  - clear Hfind. cbv zeta. apply wp_bind, wp_modify, wp_bind. destruct Hs.
    apply wp_if; intros Hlt; [apply wp_modify | apply wp_ret]; apply wp_ret.
    all: split; cbn in *; [split; try done; cbn | done | rewrite length_app; cbn; lia |].
    all: rewrite ?length_app; cbn.
    1: apply darray_next_alloc_ge.
    2: apply Nat.ltb_ge in Hlt; lia.
    all: intros j f' [Hj|[_ Hj]]%lookup_app_Some; [by apply (Hf j)|].
    all: apply list_lookup_singleton_Some in Hj as [_ <-]; apply zero_filter_ok.
Qed.
End slots.

(** ** The actions of a key *)

Definition keymap_ok (km : xkb_keymap) : Prop :=
  keymap_wf km /\ Forall key_ok (km_keys km).

Lemma key_at_ok km i k : keymap_ok km -> key_at km i = Some k -> key_ok k.
Proof. intros [_ H] Hk. exact (Forall_lookup_1 _ _ _ _ H Hk). Qed.

Lemma xkb_key_get_actions_ok s k : key_ok k -> Forall action_ok (xkb_key_get_actions s k).
Proof.
  intros Hk. unfold xkb_key_get_actions.
  assert (Forall action_ok [act_none]) as Hd by by repeat constructor.
  destruct (_ =? _); [done|].
  enough (Forall action_ok (xkb_keymap_key_get_actions_by_level k
            (state_key_get_layout s k) (state_key_get_level s k (state_key_get_layout s k)))) as H.
  { by destruct (xkb_keymap_key_get_actions_by_level _ _ _). }
  unfold xkb_keymap_key_get_actions_by_level. destruct (_ =? _); [constructor|].
  destruct (_ >=? _); [constructor|].
  destruct (item (k_groups k) _) as [g|] eqn:Hg; [|constructor].
  destruct (item (g_levels g) _) as [lv|] eqn:Hlv; [|constructor].
  apply item_Some in Hg as [_ Hg]. apply item_Some in Hlv as [_ Hlv].
  pose proof (Forall_lookup_1 _ _ _ _ Hk Hg) as Hg'.
  exact (Forall_lookup_1 _ _ _ _ Hg' Hlv).
Qed.

Lemma sticky_action_ok fl a : action_ok a -> action_ok (sticky_action fl a).
Proof. by destruct a as [| |[]|[]| | | | | | | | | | |]. Qed.

Lemma resolve_redirect_ok km a : keymap_wf km -> action_ok a -> action_ok (resolve_redirect km a).
Proof.
  intros Hkm. destruct a; cbn; try done. intros _.
  split; apply mod_mask_get_effective_u32, (kmwf_mapping km Hkm).
Qed.

Lemma sticky_action_func fl a :
  action_func a <> None -> action_func (sticky_action fl a) <> None.
Proof. by destruct a as [| |[]|[]| | | | | | | | | | |]. Qed.

Lemma resolve_redirect_func km a : action_func (resolve_redirect km a) = action_func a.
Proof. by destruct a. Qed.

Section apply.
Context (km : xkb_keymap) (b : bool) (Hkm : keymap_wf km).

Lemma apply_action_pres n E key act :
  action_ok act -> pres km b None None n E (apply_action key act) any.
Proof using Hkm.
  intros Ha x Hx. unfold apply_action.
  destruct (action_func act) as [fn0|] eqn:Hfn; [|by apply wp_ret].
  apply wp_bind. eapply wp_mono; [by apply xkb_filter_new_inv | done |]. clear x Hx.
  intros i x Hx. cbv beta. apply wp_bind, wp_gets. cbv zeta.
  set (sticky := has_flag _ _).
  set (act' := resolve_redirect _ _).
  pose proof (inv_server _ _ _ _ _ Hx) as Hs.
  assert (action_ok act' /\ action_func act' <> None) as [Ha' Hf'].
  { subst act'. rewrite (sok_keymap _ _ Hs), resolve_redirect_func. destruct sticky.
    - split; [by apply resolve_redirect_ok, sticky_action_ok | apply sticky_action_func; congruence].
    - split; [by apply resolve_redirect_ok | congruence]. }
  destruct (action_func act') as [fn|]; [|done].
  apply (wp_mono _ _ E E (fun _ x' => inv km b None (Nat.max n (S i)) x' /\ True));
    [|done|intros _ x' [H _]; split; [|done]; revert H; apply inv_weaken; lia].
  clearbody act'.
  assert (pres km b None None (Nat.max n (S i)) E
    (upd_filter i (fun f => f_set_func (Some fn) (f_set_action act' (f_set_key (Some (kp_addr key)) f))) ;;;
     run_filter_new fn i) any) as Hp; [|exact (Hp x Hx)].
  eapply pres_bind; [apply (pres_open km b _ _ i (Some fn))|].
  - intros f [Hf1 Hf2 _]. done.
  - intros _ _. eapply pres_mono; [apply run_filter_new_fills; lia | done | done].
Qed.

Lemma apply_actions_pres n E key actions :
  Forall action_ok actions -> pres km b None None n E (apply_actions key actions) any.
Proof using Hkm.
  induction 1 as [|act acts Ha _ IH]; cbn [apply_actions]; [by apply pres_ret|].
  eapply pres_bind; [by apply apply_action_pres | done].
Qed.
End apply.

(** ** What the handlers leave alone

    No handler moves the filters array, but through [clear_all]; and none
    switches the sticky keys on. *)

Definition sticky_on (x : sctx) : bool :=
  has_flag (controls (ss_components (sc_state x))) CONTROL_STICKY_KEYS.

Definition stable (x x' : sctx) : Prop :=
  ss_alloc (sc_state x') = ss_alloc (sc_state x) /\
  (sticky_on x = false -> sticky_on x' = false).

#[export] Instance stable_preorder : PreOrder stable.
Proof. split; [by split | intros x y z [? ?] [? ?]; split; [congruence | auto]]. Qed.

Lemma stable_upd_comps g :
  (forall c, controls (g c) = controls c) -> keeps stable (upd_comps g).
Proof.
  intros Hg x. apply wp_modify. split; [done|]. unfold sticky_on, ss_components. cbn.
  by rewrite Hg.
Qed.

Lemma stable_upd_state g :
  (forall s, ss_alloc (g s) = ss_alloc s /\ ss_base (g s) = ss_base s) ->
  keeps stable (upd_state g).
Proof.
  intros Hg x. apply wp_modify. destruct (Hg (sc_state x)) as [Ha Hb].
  split; [done|]. unfold sticky_on, ss_components. cbn. by rewrite Hb.
Qed.

Lemma stable_get_filter i : keeps stable (get_filter i).
Proof.
  intros x. unfold wp, get_filter. by destruct (ss_filters (sc_state x) !! i).
Qed.

Lemma stable_append_event e : keeps stable (append_event e).
Proof. intros x. unfold wp, append_event. by destruct (sc_events x). Qed.

Lemma stable_get_queue : keeps stable get_queue.
Proof. intros x. unfold wp, get_queue. by destruct (sc_events x). Qed.

Create HintDb stable.
#[export] Hint Resolve stable_get_filter stable_append_event stable_get_queue : stable.

Ltac stable_step :=
  lazymatch goal with
  | |- keeps stable (bind _ _) => apply keeps_bind; [apply _ | | intros ?]
  | |- keeps stable (ret _) => apply keeps_ret; apply _
  | |- keeps stable (fail _) => apply keeps_fail
  | |- keeps stable (gets _) => apply keeps_gets; apply _
  | |- keeps stable get_comps => apply keeps_gets; apply _
  | |- keeps stable (upd_comps _) => apply stable_upd_comps; done
  | |- keeps stable (upd_state _) => apply stable_upd_state; done
  | |- keeps stable (upd_filter _ _) => apply stable_upd_state; done
  | |- keeps stable (upd_set_mods _) => apply stable_upd_state; done
  | |- keeps stable (upd_clear_mods _) => apply stable_upd_state; done
  | |- keeps stable (if ?c then _ else _) => destruct c
  | |- keeps stable ?m =>
      first
        [ solve [eauto with stable]
        | progress cbv zeta
        | progress (unfold clear_locked_mods, clear_latched_mods, sub_latched_group,
                      add_latched_group, sub_base_group)
        | match m with context [match ?o with _ => _ end] => destruct o end ]
  end.
Ltac stable_auto := repeat stable_step.

Lemma filter_key_count_stable i d : keeps stable (filter_key_count i d).
Proof. destruct d; unfold filter_key_count; stable_auto. Qed.
#[export] Hint Resolve filter_key_count_stable : stable.

Lemma group_lock_new_stable i : keeps stable (xkb_filter_group_lock_new i).
Proof. unfold xkb_filter_group_lock_new. stable_auto. Qed.
Lemma mod_lock_new_stable i : keeps stable (xkb_filter_mod_lock_new i).
Proof. unfold xkb_filter_mod_lock_new. stable_auto. Qed.
Lemma mod_set_new_stable i : keeps stable (xkb_filter_mod_set_new i).
Proof. unfold xkb_filter_mod_set_new. stable_auto. Qed.
#[export] Hint Resolve group_lock_new_stable mod_lock_new_stable mod_set_new_stable : stable.

Lemma group_latch_pending_stable i key f sticky acts :
  keeps stable (group_latch_pending i key f sticky acts).
Proof.
  induction acts as [|act acts IH]; cbn [group_latch_pending]; stable_auto; exact IH.
Qed.
Lemma mod_latch_pending_stable i key f sticky acts :
  keeps stable (mod_latch_pending i key f sticky acts).
Proof.
  induction acts as [|act acts IH]; cbn [mod_latch_pending]; stable_auto; exact IH.
Qed.
Lemma append_redirect_stable r d : keeps stable (append_redirect_key_events r d).
Proof. unfold append_redirect_key_events. stable_auto. Qed.
#[export] Hint Resolve group_latch_pending_stable mod_latch_pending_stable
  append_redirect_stable : stable.

Lemma has_flag_ldiff x y f : has_flag (Z.ldiff x y) f = true -> has_flag x f = true.
Proof.
  rewrite !has_flag_true. intros H Hx. apply H. bitblast.
Qed.

(** The part of the control handler that may call [clear_all]. *)
Lemma ctrls_release_stable clear_all priv :
  keeps stable
    (let* c := get_comps in
     upd_comps (fun c => set_controls (Z.ldiff (controls c) priv) c) ;;;
     let* c' := get_comps in
     when has_flag (controls c) CONTROL_STICKY_KEYS &&
          negb (has_flag (controls c') CONTROL_STICKY_KEYS) do
       guard_realloc clear_all).
Proof.
  intros x. apply wp_bind, wp_gets, wp_bind, wp_modify, wp_bind, wp_gets. cbv beta.
  apply wp_if; intros Hif.
  - apply andb_true_iff in Hif as [Hon _]. apply wp_bind, wp_gets, wp_bind.
    unfold wp at 1. destruct (clear_all _) as [[[] x']|]; [|done].
    apply wp_bind, wp_gets. cbv beta. apply wp_if; [|done].
    intros Heq%Nat.eqb_eq. apply wp_ret. split; [done|].
    unfold sticky_on. rewrite Hon. done.
  - apply wp_ret. split; [done|]. unfold sticky_on. cbn. intros Hoff.
    destruct (has_flag (Z.ldiff _ _) _) eqn:H; [|done].
    apply has_flag_ldiff in H. congruence.
Qed.

Lemma ctrls_func_stable clear_all i key d :
  keeps stable (xkb_filter_ctrls_func clear_all i key d).
Proof.
  unfold xkb_filter_ctrls_func. apply keeps_bind; [apply _ | stable_auto | intros f].
  destruct (negb _); [stable_auto|].
  apply keeps_bind; [apply _ | stable_auto | intros [r|]]; [stable_auto|]. cbv zeta.
  apply keeps_bind; [apply _ | | intros _; stable_auto]. destruct (_ || _); [|stable_auto].
  apply ctrls_release_stable.
Qed.

Lemma run_filter_func_stable clear_all fn i key d :
  keeps stable (run_filter_func clear_all fn i key d).
Proof.
  destruct fn; cbn [run_filter_func].
  - unfold xkb_filter_group_set_func. stable_auto.
  - unfold xkb_filter_group_lock_func. stable_auto.
  - unfold xkb_filter_group_latch_func. stable_auto.
  - unfold xkb_filter_mod_set_func. stable_auto.
  - unfold xkb_filter_mod_lock_func. stable_auto.
  - unfold xkb_filter_mod_latch_func. stable_auto.
  - apply ctrls_func_stable.
  - unfold xkb_filter_redirect_key_func. stable_auto.
Qed.

(** ** [clear_all] is only called when a release switches the sticky keys off *)

Definition no_clear (d : xkb_key_direction) (x : sctx) : Prop :=
  d <> KEY_UP \/ sticky_on x = false.

Lemma bind_ext {A B} (m : M sctx A) (k1 k2 : A -> M sctx B) (R : sctx -> sctx -> Prop) x :
  wp m x (fun _ => True) (fun _ x' => R x x') ->
  (forall a x', R x x' -> k1 a x' = k2 a x') -> bind m k1 x = bind m k2 x.
Proof. unfold wp, bind. destruct (m x) as [[a x']|]; auto. Qed.

Lemma no_clear_stable d x x' : stable x x' -> no_clear d x -> no_clear d x'.
Proof. intros [_ H] [?|?]; [by left | right; auto]. Qed.

Lemma filter_key_count_down i d x :
  d <> KEY_UP -> wp (filter_key_count i d) x (fun _ => True) (fun r _ => is_Some r).
Proof. intros Hd. destruct d; [done | by eexists..]. Qed.

Lemma ctrls_func_no_clear c1 c2 i key d x :
  no_clear d x ->
  xkb_filter_ctrls_func c1 i key d x = xkb_filter_ctrls_func c2 i key d x.
Proof.
  intros Hn. unfold xkb_filter_ctrls_func. apply bind_ext with stable; [apply stable_get_filter|].
  intros f x1 Hx1. destruct (negb _); [done|].
  apply (no_clear_stable d _ _ Hx1) in Hn. clear x Hx1.
  destruct (decide (d = KEY_UP)) as [->|Hd].
  - destruct Hn as [?|Hoff]; [done|].
    apply bind_ext with stable; [apply filter_key_count_stable|].
    intros [r|] x2 [_ Hx2]; [done|]. specialize (Hx2 Hoff). cbv zeta.
    unfold bind at 1 3. destruct (_ || _); [|done].
    unfold bind, gets, get_comps. cbn.
    unfold sticky_on in Hx2. by rewrite Hx2.
  - unfold bind. pose proof (filter_key_count_down i d x1 Hd) as Hc. unfold wp in Hc.
    destruct (filter_key_count i d x1) as [[r x2]|]; [|done]. by destruct Hc as [r' ->].
Qed.

Lemma run_filter_func_no_clear c1 c2 fn i key d x :
  no_clear d x -> run_filter_func c1 fn i key d x = run_filter_func c2 fn i key d x.
Proof. intros Hn. destruct fn; try done. by apply ctrls_func_no_clear. Qed.

Lemma filters_loop_no_clear c1 c2 fuel alloc i consumed key d x :
  no_clear d x ->
  filters_loop fuel c1 alloc i consumed key d x = filters_loop fuel c2 alloc i consumed key d x.
Proof.
  revert i consumed x. induction fuel as [|fuel IH]; intros i consumed x Hn;
    cbn [filters_loop]; (apply bind_ext with eq; [by apply wp_gets|]);
    intros s ? <-; destruct (negb _); try done.
  destruct (_ !! i) as [f|]; [|done]. destruct (f_func f) as [fn|]; [|by apply IH].
  unfold bind. rewrite (run_filter_func_no_clear c1 c2) by done.
  pose proof (run_filter_func_stable c2 fn i key d x) as Hs. unfold wp in Hs.
  destruct (run_filter_func c2 fn i key d x) as [[r x']|]; [|done].
  apply IH. by apply no_clear_stable with x.
Qed.

Lemma apply_all_with_no_clear c1 c2 key d x :
  no_clear d x -> apply_all_with c1 key d x = apply_all_with c2 key d x.
Proof.
  intros Hn. unfold apply_all_with, bind. cbn [gets].
  by rewrite (filters_loop_no_clear c1 c2).
Qed.

(** The nesting of [apply_all] is at most one level deep. *)
Lemma apply_all_down depth depth' key d x :
  no_clear d x -> apply_all depth key d x = apply_all depth' key d x.
Proof. intros Hn. destruct depth, depth'; cbn [apply_all]; by apply apply_all_with_no_clear. Qed.

(** ** The loop over the filters *)

Section loop.
Context (km : xkb_keymap) (b : bool) (Hkm : keymap_wf km).
Context (n : nat) (E : fault -> Prop) (clear_all : M sctx unit).
Context (key : key_ptr) (d : xkb_key_direction) (P : sctx -> Prop).
Hypothesis HP : forall x x', stable x x' -> P x -> P x'.
Hypothesis Hrun : forall m i fn x, (i < m)%nat -> P x -> inv km b None m x -> ok_at i fn x ->
  wp (run_filter_func clear_all fn i key d) x E (fun _ x' => inv km b None m x').

Lemma filters_loop_pres fuel i consumed x :
  P x -> inv km b None n x -> (ss_alloc (sc_state x) < fuel + i)%nat ->
  wp (filters_loop fuel clear_all (ss_alloc (sc_state x)) i consumed key d) x E
    (fun _ x' => stable x x' /\ inv km b None n x').
Proof using HP Hrun.
  revert i consumed x. induction fuel as [|fuel IH]; intros i consumed x HPx Hx Hfuel;
    cbn [filters_loop]; apply wp_bind, wp_gets; rewrite Nat.eqb_refl; cbn [negb].
  all: destruct (ss_filters (sc_state x) !! i) as [f|] eqn:Hf; [|by apply wp_ret].
  { apply lookup_lt_Some in Hf. pose proof (sok_alloc _ _ (inv_server _ _ _ _ _ Hx)). lia. }
  destruct (f_func f) as [fn|] eqn:Hfn; [|apply IH; (done || lia)].
  assert (inv km b None (Nat.max n (S i)) x) as Hx'.
  { apply lookup_lt_Some in Hf. destruct Hx. split; try done. lia. }
  apply wp_bind. assert (wp (run_filter_func clear_all fn i key d) x E
    (fun r x' => inv km b None (Nat.max n (S i)) x' /\ stable x x')) as Hw.
  { pose proof (Hrun (Nat.max n (S i)) i fn x ltac:(lia) HPx Hx' (ex_intro _ f (conj Hf Hfn))) as H1.
    pose proof (run_filter_func_stable clear_all fn i key d x) as H2.
    unfold wp in *. by destruct (run_filter_func clear_all fn i key d x) as [[r x']|]. }
  eapply wp_mono; [exact Hw | done |]. clear Hw. intros r x' [Hx1 Hst].
  destruct (Hst) as [Hal _]. rewrite <- Hal.
  eapply wp_mono; [apply IH | done |].
  - by apply (HP x).
  - revert Hx1. apply inv_weaken. lia.
  - lia.
  - intros c x'' [Hst' Hi]. split; [by transitivity x' | done].
Qed.

Lemma apply_all_with_pres x :
  key_ok (kp_key key) -> P x -> inv km b None n x ->
  wp (apply_all_with clear_all key d) x E (fun _ x' => inv km b None n x').
Proof using HP Hrun Hkm.
  intros Hkey HPx Hx. unfold apply_all_with. apply wp_bind, wp_gets, wp_bind.
  eapply wp_mono; [apply filters_loop_pres; [done | done | lia] | done |].
  intros consumed x' [_ Hx']. cbv beta. apply wp_if; intros _; [by apply wp_ret|].
  apply wp_bind, wp_gets.
  eapply wp_mono; [apply (apply_actions_pres km b Hkm n E) | done | by intros ? ? [? _]].
  - by apply xkb_key_get_actions_ok.
  - exact Hx'.
Qed.
End loop.

Section apply_all.
Context (km : xkb_keymap) (b : bool) (Hkm : keymap_wf km).

(** Nothing faults while the sticky keys stay as they are. *)
Lemma apply_all_quiet depth n key d x :
  key_ok (kp_key key) -> no_clear d x -> inv km b None n x ->
  wp (apply_all depth key d) x no_fault (fun _ x' => inv km b None n x').
Proof using Hkm.
  intros Hkey Hn Hx.
  assert (apply_all depth key d x = apply_all_with (ret tt) key d x) as Heq.
  { destruct depth; cbn [apply_all]; by apply apply_all_with_no_clear. }
  unfold wp. rewrite Heq. apply (apply_all_with_pres km b Hkm n no_fault _ _ _ (no_clear d));
    [intros ? ?; apply no_clear_stable | | done | done | done].
  intros m i fn x' Hi _ Hx' Hok. apply run_filter_func_pres; try done. intros _ x'' Hx''.
  unfold wp. by rewrite guard_realloc_ret.
Qed.
End apply_all.

(** ** Latches set by the API *)

(** What is known of one slot. *)
Definition slot (i : nat) (phi : xkb_filter -> Prop) (x : sctx) : Prop :=
  exists f, ss_filters (sc_state x) !! i = Some f /\ phi f.

Lemma slot_upd_filter i g phi psi x E :
  slot i phi x -> (forall f, phi f -> psi (g f)) ->
  wp (upd_filter i g) x E (fun _ => slot i psi).
Proof.
  intros (f & Hf & Hphi) Hg. apply wp_modify. exists (g f). cbn.
  rewrite list_lookup_alter_eq, Hf. auto.
Qed.

Lemma slot_upd_comps i g phi x E : slot i phi x -> wp (upd_comps g) x E (fun _ => slot i phi).
Proof. intros H. apply wp_modify. exact H. Qed.

Lemma slot_upd_set_mods i g phi x E :
  slot i phi x -> wp (upd_set_mods g) x E (fun _ => slot i phi).
Proof. intros H. apply wp_modify. exact H. Qed.

Lemma slot_get_filter {A} i phi x E (k : xkb_filter -> M sctx A) Q :
  slot i phi x -> (forall f, phi f -> wp (k f) x E Q) -> wp (bind (get_filter i) k) x E Q.
Proof.
  intros (f & Hf & Hphi) Hk. apply wp_bind. unfold wp at 1, get_filter. rewrite Hf. auto.
Qed.

Definition tapped (act : xkb_action) (fn : filter_func) (f : xkb_filter) : Prop :=
  f_action f = act /\ f_func f = Some fn.

(** A latch action without flags keeps its filter. *)
Definition latch_action (act : xkb_action) (fn : filter_func) : Prop :=
  match act, fn with
  | act_mods MOD_LATCH fl _, mod_latch_func => fl = 0
  | act_group GROUP_LATCH _ _, group_latch_func => True
  | _, _ => False
  end.

Lemma latch_new_tapped act fn i x E :
  latch_action act fn -> slot i (tapped act fn) x ->
  wp (run_filter_new fn i) x E (fun _ => slot i (tapped act fn)).
Proof.
  intros Hl Hx. destruct act as [| |[]|[]| | | | | | | | | | |]; try done; destruct fn; try done.
  - cbn in Hl. subst flags. cbn [run_filter_new]. unfold xkb_filter_mod_latch_new.
    eapply slot_get_filter; [exact Hx|]. intros f [Ha Hf].
    apply wp_bind, wp_gets. cbv zeta. unfold f_flags, f_mask. rewrite Ha.
    cbn [a_flags a_mask]. apply wp_bind.
    eapply wp_mono; [eapply (slot_upd_filter i _ _ (tapped _ _) x E Hx) | done |].
    + intros f' [? ?]. by split.
    + intros ? x' Hx'. by apply slot_upd_set_mods.
  - cbn [run_filter_new]. unfold xkb_filter_group_latch_new.
    eapply slot_get_filter; [exact Hx|]. intros f [Ha Hf].
    apply wp_bind, wp_gets. cbv zeta. apply wp_bind.
    eapply wp_mono; [eapply (slot_upd_filter i _ _ (tapped _ _) x E Hx) | done |].
    + intros f' [? ?]. by split.
    + intros ? x' Hx'. by apply slot_upd_comps.
Qed.

Section tap.
Context (km : xkb_keymap) (b : bool).

Lemma tap_latch_pres n act fn :
  action_ok act -> latch_action act fn ->
  pres km b None None n no_fault (tap_latch act fn) any.
Proof.
  intros Ha Hl x Hx. unfold tap_latch. cbv zeta. apply wp_bind.
  eapply wp_mono; [exact (xkb_filter_new_inv km b n x no_fault Hx) | done |]. clear x Hx.
  intros i x Hx. cbv beta. set (m := Nat.max n (S i)) in *.
  assert (i < length (ss_filters (sc_state x)))%nat as Hi.
  { pose proof (inv_size _ _ _ _ _ Hx). lia. }
  assert (pres km b None None m no_fault
    (upd_filter i (f_set_key (Some synthetic_key)) ;;;
     upd_filter i (f_set_func (Some fn)) ;;;
     upd_filter i (f_set_action act) ;;;
     run_filter_new fn i) any) as Hfill.
  { eapply pres_bind; [apply pres_upd_filter; by intros f []|]. intros _ _.
    eapply pres_bind; [apply (pres_open km b _ _ i (Some fn)); by intros f []|]. intros _ _.
    eapply pres_bind; [apply (pres_upd_hole km b _ _ i (Some fn) (Some fn))|].
    - by intros f [? ?] ?.
    - intros _ _. apply run_filter_new_fills. lia. }
  assert (wp (upd_filter i (f_set_key (Some synthetic_key)) ;;;
     upd_filter i (f_set_func (Some fn)) ;;;
     upd_filter i (f_set_action act) ;;;
     run_filter_new fn i) x no_fault (fun _ => slot i (tapped act fn))) as Hslot.
  { apply lookup_lt_is_Some_2 in Hi as [f0 Hf0].
    apply wp_bind. eapply wp_mono; [eapply (slot_upd_filter i _ any any x no_fault); [by exists f0|done] | done |].
    intros ? x1 Hx1. apply wp_bind.
    eapply wp_mono; [eapply (slot_upd_filter i _ any (fun f => f_func f = Some fn) _ no_fault Hx1); done | done |].
    intros ? x2 Hx2. apply wp_bind.
    eapply wp_mono; [eapply (slot_upd_filter i _ _ (tapped act fn) _ no_fault Hx2); by split | done |].
    intros ? x3 Hx3. by apply latch_new_tapped. }
  specialize (Hfill x Hx).
  pose proof (wp_and _ _ _ _ _ Hfill Hslot) as Hw. clear Hfill Hslot.
  unfold wp in Hw |- *. unfold bind in Hw |- *.
  destruct (upd_filter i (f_set_key (Some synthetic_key)) x) as [[[] x1]|]; [|done].
  destruct (upd_filter i (f_set_func (Some fn)) x1) as [[[] x2]|]; [|done].
  destruct (upd_filter i (f_set_action act) x2) as [[[] x3]|]; [|done].
  destruct (run_filter_new fn i x3) as [[[] x4]|]; [|done].
  destruct Hw as [[Hx4 _] (f & Hf & Hact & Hfn)].
  pose proof (run_filter_func_pres km b m i ltac:(lia) no_fault (ret tt) fn
    (mk_key_ptr synthetic_key (synthetic_key_with [])) KEY_UP x4) as Hrun.
  unfold wp in Hrun.
  destruct (run_filter_func (ret tt) fn i (mk_key_ptr synthetic_key (synthetic_key_with [])) KEY_UP x4)
    as [[r x5]|].
  - split; [|done]. apply (inv_weaken _ _ _ m); [lia|]. apply Hrun; [|done|by exists f].
    intros -> y Hy. by destruct act as [| |[]|[]| | | | | | | | | | |].
  - apply Hrun; [|done|by exists f].
    intros -> y Hy. by destruct act as [| |[]|[]| | | | | | | | | | |].
Qed.
End tap.

(** ** Latch and lock updates, and the whole of [xkb_filter_apply_all] *)

Lemma break_latch_key_ok fl m : key_ok (break_latch_key fl m).
Proof. repeat (constructor; cbn). Qed.

Lemma resolve_canonical_u32 km m :
  keymap_wf km -> is_u32 (resolve_to_canonical_mods km m).
Proof.
  intros Hkm. apply is_u32_lor.
  - apply is_u32_land_r, (kmwf_mask km Hkm).
  - apply mod_mask_get_effective_u32, (kmwf_mapping km Hkm).
Qed.
#[export] Hint Resolve resolve_canonical_u32 : server.

(** The groups of an update come from [int32_t] fields. *)
Definition update_ok (u : components_update) : Prop :=
  is_i32 (up_latched_layout u) /\ is_i32 (up_locked_layout u).

Ltac pres_seq := eapply pres_bind; [|intros ? _; cbv beta zeta].

Section updates.
Context (km : xkb_keymap) (b : bool) (Hkm : keymap_wf km) (n : nat).
Context (apply : key_ptr -> xkb_key_direction -> M sctx unit).
Hypothesis Happly : forall key, key_ok (kp_key key) ->
  pres km b None None n no_fault (apply key KEY_DOWN) any.

Lemma update_latch_modifiers_pres mask latches :
  is_u32 mask ->
  pres km b None None n no_fault (update_latch_modifiers apply mask latches) any.
Proof using Happly.
  intros Hm. unfold update_latch_modifiers, clear_latched_mods. cbv zeta.
  pres_seq; [pres_auto|]. pres_seq; [apply Happly, break_latch_key_ok|].
  apply tap_latch_pres; [cbn; auto with server | done].
Qed.

Lemma update_latch_group_pres g :
  is_i32 g -> pres km b None None n no_fault (update_latch_group apply g) any.
Proof using Happly.
  intros Hg. unfold update_latch_group.
  pres_seq; [apply Happly, break_latch_key_ok|]. by apply tap_latch_pres.
Qed.

Lemma state_update_latched_locked_pres u :
  update_ok u -> pres km b None None n no_fault (state_update_latched_locked apply u) any.
Proof using Hkm Happly.
  intros [Hl1 Hl2]. unfold state_update_latched_locked, clear_locked_mods.
  eapply pres_bind; [apply (pres_gets_state km b _ _ _ (fun s => st_keymap (ss_base s) = km)),
                     sok_keymap|].
  intros s Hs. cbv zeta. rewrite Hs.
  pres_seq; [apply pres_if; [pres_auto|pres_auto]|].
  pres_seq; [apply pres_if; [pres_auto|pres_auto]|].
  pres_seq; [apply pres_if; [apply update_latch_modifiers_pres; auto with server|by apply pres_ret]|].
  apply pres_if; [by apply update_latch_group_pres | by apply pres_ret].
Qed.
End updates.

Section whole.
Context (km : xkb_keymap) (b : bool) (Hkm : keymap_wf km).

Lemma apply_all_down_pres depth n key :
  key_ok (kp_key key) -> pres km b None None n no_fault (apply_all depth key KEY_DOWN) any.
Proof using Hkm.
  intros Hkey x Hx. eapply wp_mono; [apply (apply_all_quiet km b Hkm depth n) | done |].
  - exact Hkey.
  - by left.
  - exact Hx.
  - by intros ? ? ?.
Qed.

Lemma clear_all_pres depth n :
  pres km b None None n no_fault (clear_all_latches_and_locks_with (apply_all depth)) any.
Proof using Hkm.
  apply state_update_latched_locked_pres; [done | | split; apply is_i32_0].
  intros key. by apply apply_all_down_pres.
Qed.

Lemma apply_all_pres n key d :
  key_ok (kp_key key) -> pres km b None None n only_realloc (xkb_filter_apply_all key d) any.
Proof using Hkm.
  intros Hkey x Hx. unfold xkb_filter_apply_all. cbn [apply_all].
  eapply wp_mono; [apply (apply_all_with_pres km b Hkm n only_realloc _ _ _ (fun _ => True)) | done |].
  - done.
  - intros m i fn x' Hi _ Hx' Hok. apply run_filter_func_pres; [done | | done | done].
    intros _. apply guard_realloc_pres. eapply pres_mono; [exact (clear_all_pres 0 m) | done | done].
  - done.
  - done.
  - exact Hx.
  - by intros ? ? ?.
Qed.
End whole.

(** ** The operations of the API *)

Lemma commit_mods_frame s : exists base counts,
  commit_mods s = ss_set_components (set_base_mods base (ss_components s))
    (ss_set_mod_key_count counts (ss_set_clear_mods 0 (ss_set_set_mods 0 s))).
Proof.
  unfold commit_mods. destruct (commit_set_loop _ _ _ _ _) as [b1 c1].
  destruct (commit_clear_loop _ _ _ _ _) as [b2 c2]. by exists b2, c2.
Qed.

Lemma commit_mods_ok km s :
  server_ok km s -> server_ok km (commit_mods s) /\ ss_filters (commit_mods s) = ss_filters s.
Proof.
  intros Hs. pose proof (commit_mods_bits s (sok_set _ _ Hs) (sok_clear _ _ Hs) (sok_counts _ _ Hs))
    as [Hlen _].
  pose proof (commit_mods_base_u32 s (sok_set _ _ Hs) (sok_clear _ _ Hs) (sok_counts _ _ Hs)
    (cok_base_mods _ (sok_components _ _ Hs))) as Hb.
  destruct (commit_mods_frame s) as (base & counts & Heq). rewrite Heq in Hlen, Hb |- *.
  destruct Hs as [Hk Hc Hr Ha H1 H2 H3]. split; [|done].
  split; try done; try apply is_u32_0. by destruct Hc.
Qed.

Lemma update_derived_components_ok km s c :
  keymap_wf km -> st_keymap s = km -> 0 <= st_redirect s ->
  components_ok c -> components_ok (update_derived s c).
Proof.
  intros Hkm Hs Hr Hc. pose proof (kmwf_num_groups km Hkm) as Hg.
  pose proof (update_derived_ok s ltac:(by rewrite Hs) Hr c (cok_locked_group c Hc)) as Hd.
  pose proof (der_locked_range _ _ Hd) as Hl. rewrite Hs in Hl.
  destruct Hc. split; try done. unfold is_i32, XKB_MAX_GROUPS in *. lia.
Qed.

(** The derived components are up to date. *)
Definition derived (s : xkb_server_state) : Prop := derived_ok (ss_base s) (ss_components s).

Section api.
Context (km : xkb_keymap) (b : bool) (Hkm : keymap_ok km).

Lemma upd_derived_pres n E : pres km b None None n E upd_derived any.
Proof using Hkm.
  apply pres_upd_state. intros s [Hk Hc Hr Ha H1 H2 H3]. split; [|done].
  split; try done. apply (update_derived_components_ok km); try done. apply Hkm.
Qed.

Lemma upd_derived_derived n x E :
  inv km b None n x ->
  wp upd_derived x E (fun _ x' => inv km b None n x' /\ derived (sc_state x')).
Proof using Hkm.
  intros Hx. apply wp_modify. split.
  - pose proof (upd_derived_pres n E x Hx) as H. apply H.
  - pose proof (inv_server _ _ _ _ _ Hx) as Hs.
    apply (derived_ok_ext (ss_base (sc_state x))); [done..|].
    apply (update_derived_ok (ss_base (sc_state x))).
    + rewrite (sok_keymap _ _ Hs). apply (kmwf_num_groups km (proj1 Hkm)).
    + apply (sok_redirect _ _ Hs).
    + apply (sok_components _ _ Hs).
Qed.

(** [rederives m]: [m] ends with the derived components up to date,
    [updates m]: it keeps them so. *)
Definition rederives {A} (E : fault -> Prop) (m : M sctx A) : Prop :=
  forall x, inv km b None 0 x ->
    wp m x E (fun _ x' => inv km b None 0 x' /\ derived (sc_state x')).

Definition updates {A} (E : fault -> Prop) (m : M sctx A) : Prop :=
  forall x, inv km b None 0 x -> derived (sc_state x) ->
    wp m x E (fun _ x' => inv km b None 0 x' /\ derived (sc_state x')).

Lemma rederives_updates {A} E (m : M sctx A) : rederives E m -> updates E m.
Proof. intros Hm x Hx _. by apply Hm. Qed.

Lemma rederives_pres {A} E (m : M sctx A) :
  rederives E m -> pres km b None None 0 E m any.
Proof. intros Hm x Hx. eapply wp_mono; [by apply Hm | done | by intros a x' [? _]]. Qed.

Lemma rederives_upd_derived E : rederives E upd_derived.
Proof using Hkm. intros x Hx. by apply upd_derived_derived. Qed.

Lemma rederives_bind {A B} E (m : M sctx A) (k : A -> M sctx B) Q :
  pres km b None None 0 E m Q -> (forall a, Q a -> rederives E (k a)) ->
  rederives E (bind m k).
Proof.
  intros Hm Hk x Hx. apply wp_bind. eapply wp_mono; [by apply Hm | done |].
  intros a x' [Hx' Ha]. by apply Hk.
Qed.

Lemma rederives_then {A B} E (m : M sctx A) (k : A -> M sctx B) :
  rederives E m -> (forall a, updates E (k a)) -> rederives E (bind m k).
Proof.
  intros Hm Hk x Hx. apply wp_bind. eapply wp_mono; [by apply Hm | done |].
  intros a x' [Hx' Ha]. by apply Hk.
Qed.

Lemma updates_ret {A} E (a : A) : updates E (ret a).
Proof. intros x Hx Hd. by apply wp_ret. Qed.

Lemma updates_gets {A} E (g : sctx -> A) : updates E (gets g).
Proof. intros x Hx Hd. by apply wp_gets. Qed.

Lemma updates_bind {A B} E (m : M sctx A) (k : A -> M sctx B) :
  updates E m -> (forall a, updates E (k a)) -> updates E (bind m k).
Proof.
  intros Hm Hk x Hx Hd. apply wp_bind. eapply wp_mono; [by apply Hm | done |].
  intros a x' [Hx' Hd']. by apply Hk.
Qed.

Lemma updates_if {A} E (c : bool) (m1 m2 : M sctx A) :
  updates E m1 -> updates E m2 -> updates E (if c then m1 else m2).
Proof. by destruct c. Qed.

Lemma enabled_controls_rederives affect ctrls :
  rederives no_fault (state_update_enabled_controls affect ctrls).
Proof using Hkm.
  unfold state_update_enabled_controls. cbv zeta.
  eapply rederives_bind; [apply pres_get_comps | intros c Hc; cbv beta zeta].
  apply rederives_bind with any.
  { apply pres_upd_comps. intros c0 Hc0. apply components_ok_set_controls; [|done].
    apply is_u32_lor; [by apply is_u32_ldiff, Hc0 | do 2 apply is_u32_land_r].
    by apply is_u32_check. }
  intros _ _. eapply rederives_bind; [apply pres_get_comps | intros c' Hc'; cbv beta zeta].
  apply rederives_bind with any; [|intros _ _; apply rederives_upd_derived].
  apply pres_if; [apply (clear_all_pres km b (proj1 Hkm) 1) | by apply pres_ret].
Qed.
End api.

Section entry_points.
Context (km : xkb_keymap) (b : bool) (Hkm : keymap_ok km).

Lemma rederives_mono {A} (E E' : fault -> Prop) (m : M sctx A) :
  rederives km b E m -> (forall f, E f -> E' f) -> rederives km b E' m.
Proof. intros Hm HE x Hx. eapply wp_mono; [by apply Hm | done | done]. Qed.

Lemma process_key_actions_rederives E key d :
  pres km b None None 0 E (xkb_filter_apply_all key d) any ->
  rederives km b E (process_key_actions key d).
Proof using Hkm.
  intros Happly. unfold process_key_actions.
  apply rederives_bind with any.
  { apply pres_upd_state. intros s []. split; [|done]. by split; cbn; auto with server. }
  intros _ _. apply rederives_bind with any; [exact Happly|].
  intros _ _. apply rederives_bind with any; [apply pres_upd_state, commit_mods_ok|].
  intros _ _. by apply rederives_upd_derived.
Qed.

Lemma update_key_updates kc d : updates km b only_realloc (update_key kc d).
Proof using Hkm.
  intros x Hx Hd. unfold update_key. apply wp_bind, wp_gets.
  pose proof (sok_keymap _ _ (inv_server _ _ _ _ _ Hx)) as Hk.
  destruct (negb _); [by apply wp_ret|]. cbv zeta. rewrite Hk.
  destruct (XkbKey km kc) as [i|] eqn:Hi; [|by apply wp_ret].
  destruct (XkbKey_sound km (proj1 Hkm) kc i Hi) as (k & Hki & _). rewrite Hki.
  pose proof (key_at_ok km i k Hkm Hki) as Hkey.
  revert x Hx Hd Hk. intros x Hx Hd _.
  destruct (_ && _); [by apply wp_ret|].
  set (breaks := breaks_sticky_keys _ _). clearbody breaks. revert x Hx Hd.
  apply updates_bind.
  { apply updates_if; [|apply updates_ret]. apply rederives_updates.
    eapply rederives_mono; [by apply enabled_controls_rederives | done]. }
  intros _. apply updates_bind; [apply updates_gets|]. intros c.
  apply updates_bind; [|intros _; apply updates_bind; [apply updates_gets | intros; apply updates_ret]].
  apply rederives_updates, process_key_actions_rederives.
  by apply apply_all_pres; [apply Hkm|].
Qed.

Lemma update_latched_locked_updates al l all_ ll ak k alk lk :
  is_i32 ll -> is_i32 lk ->
  updates km b no_fault (update_latched_locked al l all_ ll ak k alk lk).
Proof using Hkm.
  intros Hll Hlk. unfold update_latched_locked. apply updates_bind; [apply updates_gets|].
  intros s. apply updates_if; [apply updates_ret|].
  apply updates_bind; [apply updates_gets|]. intros c. cbv zeta.
  apply rederives_updates, rederives_bind with any.
  { apply state_update_latched_locked_pres; [apply Hkm | | by split].
    intros key. apply (apply_all_down_pres km b (proj1 Hkm) 1 0). }
  intros _ _. apply rederives_then; [by apply rederives_upd_derived|]. intros _.
  apply updates_bind; [apply updates_gets | intros; apply updates_ret].
Qed.

Lemma layout_policy_pres u :
  pres km b None None 0 no_fault (state_update_layout_policy u) any.
Proof using.
  unfold state_update_layout_policy.
  eapply pres_bind; [by apply (pres_gets_state km b _ _ _ any)|]. intros s _.
  destruct (supported_policy _) as [p|]; [|by apply pres_ret].
  apply pres_if; [by apply pres_ret|]. apply pres_bind with (h' := None) (Q := any).
  { apply pres_if; [|by apply pres_ret]. apply pres_upd_state. intros s0 []. split; [|done].
    split; try done. cbn. apply Z.mod_pos_bound. lia. }
  intros _ _. apply pres_bind with (h' := None) (Q := any); [|by intros; apply pres_ret].
  apply pres_upd_state. intros s0 []. by split.
Qed.

(** An error leaves the state as it was. *)
Lemma layout_policy_error u x :
  wp (state_update_layout_policy u) x no_fault
    (fun e x' => e = XKB_SUCCESS \/ x' = x).
Proof using.
  unfold state_update_layout_policy. apply wp_bind, wp_gets.
  destruct (supported_policy _) as [p|]; [|by apply wp_ret; right].
  apply wp_if; intros _; [by apply wp_ret; right|].
  destruct (bool_decide _); cbn; left; reflexivity.
Qed.

Definition state_update_ok (u : state_update) : Prop :=
  forall h cu, su_components u = Some (h, cu) -> update_ok cu.

Lemma apply_state_update_updates u :
  state_update_ok u -> updates km b no_fault (apply_state_update u).
Proof using Hkm.
  intros Hu. unfold apply_state_update.
  destruct (check_state_update_abi u); try by apply updates_ret.
  intros x Hx Hd. apply wp_bind.
  assert (wp (match su_layout_policy u with
              | Some (_, lp) => state_update_layout_policy lp
              | None => ret XKB_SUCCESS end) x no_fault
    (fun e x' => (inv km b None 0 x' /\ any e) /\ (e = XKB_SUCCESS \/ x' = x))) as Hlp.
  { destruct (su_layout_policy u) as [[h lp]|].
    - apply wp_and; [by apply layout_policy_pres | apply layout_policy_error].
    - apply wp_ret. auto. }
  eapply wp_mono; [exact Hlp | done |]. intros e x' [[Hx' _] He].
  destruct (decide (e = XKB_SUCCESS)) as [->|Hne].
  - clear He Hd. revert x' Hx'. apply rederives_bind with any.
    + destruct (su_components u) as [[h cu]|] eqn:Hc; [|by apply pres_ret].
      apply pres_bind with (h' := None) (Q := any); [by apply rederives_pres, enabled_controls_rederives|].
      intros _ _.
      apply state_update_latched_locked_pres; [apply Hkm | | by apply (Hu h)].
      intros key. apply (apply_all_down_pres km b (proj1 Hkm) 1 0).
    + intros _ _. apply rederives_then; [by apply rederives_upd_derived|].
      intros _. apply updates_ret.
  - destruct He as [?| ->]; [done|]. by destruct e; try (by apply wp_ret).
Qed.

Lemma update_synthetic_updates u :
  state_update_ok u -> updates km b no_fault (update_synthetic u).
Proof using Hkm.
  intros Hu. unfold update_synthetic. apply updates_bind; [apply updates_gets|].
  intros s. apply updates_if; [apply updates_ret|].
  apply updates_bind; [apply updates_gets|]. intros c.
  apply updates_bind; [by apply apply_state_update_updates|]. intros e.
  apply updates_bind; [apply updates_gets|]. intros c'. apply updates_ret.
Qed.

Lemma update_key_quiet kc d x :
  inv km b None 0 x -> derived (sc_state x) -> no_clear d x ->
  wp (update_key kc d) x no_fault (fun _ _ => True).
Proof using Hkm.
  intros Hx Hd Hn. unfold update_key. apply wp_bind, wp_gets.
  pose proof (sok_keymap _ _ (inv_server _ _ _ _ _ Hx)) as Hk.
  destruct (negb _); [by apply wp_ret|]. cbv zeta. rewrite Hk.
  destruct (XkbKey km kc) as [i|] eqn:Hi; [|by apply wp_ret].
  destruct (XkbKey_sound km (proj1 Hkm) kc i Hi) as (k & Hki & _). rewrite Hki.
  pose proof (key_at_ok km i k Hkm Hki) as Hkey.
  destruct (_ && _); [by apply wp_ret|]. apply wp_bind.
  assert (wp (when breaks_sticky_keys (sc_state x) d
              do state_update_enabled_controls CONTROL_STICKY_KEYS 0) x no_fault
    (fun _ x1 => (inv km b None 0 x1 /\ derived (sc_state x1)) /\ no_clear d x1)) as H.
  { apply wp_if; intros Hb; [|by apply wp_ret].
    unfold breaks_sticky_keys in Hb. apply andb_true_iff in Hb as [[[Hdn _]%andb_true_iff _]%andb_true_iff _].
    apply bool_decide_eq_true in Hdn as ->.
    eapply wp_mono; [apply (enabled_controls_rederives km b Hkm); exact Hx | done |].
    intros ? x1 H1. split; [done | by left]. }
  eapply wp_mono; [exact H | done |]. clear x Hx Hd Hn Hk H.
  intros ? x [[Hx Hd] Hn]. apply wp_bind, wp_gets, wp_bind. unfold process_key_actions.
  apply wp_bind, wp_modify, wp_bind.
  eapply wp_mono; [apply (apply_all_quiet km b (proj1 Hkm) 1 0) | done |].
  - exact Hkey.
  - exact Hn.
  - assert (pres km b None None 0 no_fault
      (upd_state (fun s => ss_set_clear_mods 0 (ss_set_set_mods 0 s))) any) as H.
    { apply pres_upd_state. intros s []. split; [|done]. by split; cbn; auto with server. }
    apply (H x Hx).
  - done.
Qed.
End entry_points.

(** ** States of the public API *)

(** The invariant of an object between two calls of the legacy API, that
    passes no events. *)
Definition state_inv (km : xkb_keymap) (s : xkb_server_state) : Prop :=
  inv km false None 0 (mk_sctx s None) /\ derived s.

Lemma zero_components_ok : components_ok zero_components.
Proof. split; first [by apply is_u32_check | apply is_i32_0]. Qed.

Lemma xkb_server_state_init_inv km mode aff fl :
  keymap_wf km -> state_inv km (xkb_server_state_init km mode aff fl).
Proof.
  intros Hkm. unfold xkb_server_state_init, xkb_state_init. split.
  - split; [|done|cbn; lia|by intros i f Hf].
    split; try done; cbn; try apply is_u32_0.
    by apply (update_derived_components_ok km); try done; apply zero_components_ok.
  - eapply derived_ok_ext; [| | |apply (update_derived_ok
      (mk_state km zero_components LAYOUT_WRAP 0 mode))]; try done.
    apply (kmwf_num_groups km Hkm).
Qed.

Lemma run_legacy_updates {A} km E (m : M sctx A) s :
  state_inv km s -> updates km false E m ->
  match run_legacy m s with
  | Ok (_, s') => state_inv km s'
  | Fault f => E f
  end.
Proof.
  intros [Hx Hd] Hm. specialize (Hm (mk_sctx s None) Hx Hd).
  unfold wp, run_legacy in *. destruct (m (mk_sctx s None)) as [[a [s' evs]]|f]; [|done].
  cbn in *. destruct Hm as [Hx' Hd']. split; [|done].
  pose proof (inv_events _ _ _ _ _ Hx') as He. by destruct evs.
Qed.

(** The calls that change a server state. *)
Inductive server_step (s s' : xkb_server_state) : Prop :=
| step_key kc d changed :
    xkb_state_update_key s kc d = Ok (changed, s') -> server_step s s'
| step_latched_locked al l all_ ll ak k alk lk changed :
    is_i32 ll -> is_i32 lk ->
    xkb_state_update_latched_locked s al l all_ ll ak k alk lk = Ok (changed, s') ->
    server_step s s'
| step_synthetic u res :
    state_update_ok u -> xkb_state_update_synthetic s u = Ok (res, s') -> server_step s s'.

Inductive reachable (km : xkb_keymap) : xkb_server_state -> Prop :=
| reachable_new mode aff fl : reachable km (xkb_server_state_init km mode aff fl)
| reachable_step s s' : reachable km s -> server_step s s' -> reachable km s'.

Lemma server_step_inv km s s' :
  keymap_ok km -> state_inv km s -> server_step s s' -> state_inv km s'.
Proof.
  intros Hkm Hs [kc d ch H|al l all_ ll ak k alk lk ch Hll Hlk H|u res Hu H].
  - pose proof (run_legacy_updates km _ _ s Hs (update_key_updates km false Hkm kc d)) as Hr.
    unfold xkb_state_update_key in H. by rewrite H in Hr.
  - pose proof (run_legacy_updates km _ _ s Hs
      (update_latched_locked_updates km false Hkm al l all_ ll ak k alk lk Hll Hlk)) as Hr.
    unfold xkb_state_update_latched_locked in H. by rewrite H in Hr.
  - pose proof (run_legacy_updates km _ _ s Hs (update_synthetic_updates km false Hkm u Hu)) as Hr.
    unfold xkb_state_update_synthetic in H. by rewrite H in Hr.
Qed.

Lemma reachable_inv km s : keymap_ok km -> reachable km s -> state_inv km s.
Proof.
  intros Hkm. induction 1 as [mode aff fl|s s' _ IH Hstep].
  - by apply xkb_server_state_init_inv, Hkm.
  - by apply (server_step_inv km s).
Qed.
