(* ===== verification/Keys.v ===== *)
(** * What a key event does

    The effect of a press or a release as an equation: which filters take part,
    which slot is allocated, and the state [xkb_state_update_key] ends in.
    Filters of other keys that have nothing to do with the event are [idle]:
    a loop over idle filters changes nothing, and a loop over filters with a
    single busy slot runs that slot's handler. *)

From Stdlib Require Import ZArith Lia.
From stdpp Require Import base tactics list numbers.
From S2P Require Import Prelude Keymap State Filters Apply Server Safety Reach.

(** ** Slots as equations *)

Definition put_slot (i : nat) (f : xkb_filter) (x : sctx) : sctx :=
  mk_sctx (ss_set_filters (<[i:=f]> (ss_filters (sc_state x))) (sc_state x)) (sc_events x).

Lemma alter_insert {A} (g : A -> A) (l : list A) i a :
  l !! i = Some a -> alter g i l = <[i:=g a]> l.
Proof.
  intros Hi. apply list_eq. intros j. destruct (decide (i = j)) as [<-|Hne].
  - rewrite list_lookup_alter_eq, Hi, list_lookup_insert_eq; [done|].
    by eapply lookup_lt_Some.
  - by rewrite list_lookup_alter_ne, list_lookup_insert_ne.
Qed.

Section slot.
Context (i : nat) (f : xkb_filter) (x : sctx).
Hypothesis Hf : ss_filters (sc_state x) !! i = Some f.

Lemma get_filter_eq : get_filter i x = Ok (f, x).
Proof using Hf. unfold get_filter. by rewrite Hf. Qed.

Lemma upd_filter_eq g : upd_filter i g x = Ok (tt, put_slot i (g f) x).
Proof using Hf. unfold upd_filter, upd_state, modify, put_slot. by rewrite (alter_insert g _ _ f). Qed.

Lemma put_slot_lookup f' : ss_filters (sc_state (put_slot i f' x)) !! i = Some f'.
Proof using Hf. apply list_lookup_insert_eq. by eapply lookup_lt_Some. Qed.

Lemma put_slot_same : put_slot i f x = x.
Proof using Hf.
  unfold put_slot. rewrite list_insert_id by done. by destruct x as [[] ?].
Qed.
End slot.

Lemma put_slot_other i j f x :
  i <> j -> ss_filters (sc_state (put_slot i f x)) !! j = ss_filters (sc_state x) !! j.
Proof. intros. by apply list_lookup_insert_ne. Qed.

Lemma put_slot_put i f g x : put_slot i f (put_slot i g x) = put_slot i f x.
Proof. unfold put_slot. cbn. by rewrite list_insert_insert_eq. Qed.

(** ** Idle filters *)

Definition idle (a : key_addr) (f : xkb_filter) : bool :=
  let other := negb (bool_decide (f_key f = Some a)) in
  match f_func f with
  | None => true
  | Some mod_set_func | Some group_set_func =>
      other && negb (has_flag (f_flags f) ACTION_LOCK_CLEAR)
  | Some group_lock_func => other && negb (has_flag (f_flags f) ACTION_LOCK_ON_RELEASE)
  | Some mod_lock_func | Some ctrls_func | Some redirect_key_func => other
  | Some mod_latch_func | Some group_latch_func => false
  end.

Lemma a_set_flags_same a : a_set_flags (a_flags a) a = a.
Proof. by destruct a. Qed.

Lemma f_set_flags_same f m :
  Z.land (f_flags f) m = 0 -> f_set_flags (Z.ldiff (f_flags f) m) f = f.
Proof.
  intros Hm. replace (Z.ldiff (f_flags f) m) with (f_flags f).
  - unfold f_set_flags, f_flags. rewrite a_set_flags_same. by destruct f.
  - bitblast.
Qed.

Lemma run_idle clear_all fn i f key d x :
  ss_filters (sc_state x) !! i = Some f -> f_func f = Some fn ->
  idle (kp_addr key) f = true ->
  run_filter_func clear_all fn i key d x = Ok (FILTER_CONTINUE, x).
Proof.
  intros Hf Hfn Hi. unfold idle in Hi. rewrite Hfn in Hi.
  destruct fn; cbn [run_filter_func]; try done.
  all: unfold xkb_filter_group_set_func, xkb_filter_group_lock_func, xkb_filter_mod_set_func,
         xkb_filter_mod_lock_func, xkb_filter_ctrls_func, xkb_filter_redirect_key_func, bind;
       rewrite (get_filter_eq i f x Hf); cbv zeta; unfold is_filter_key.
  all: try (apply andb_true_iff in Hi as [Hi Hfl]; apply negb_true_iff, has_flag_false in Hfl).
  all: rewrite Hi; try done.
  - rewrite (upd_filter_eq i f x Hf), f_set_flags_same, put_slot_same by done. done.
  - replace (has_flag _ _) with false by (symmetry; by apply has_flag_false). done.
  - rewrite (upd_filter_eq i f x Hf), f_set_flags_same, put_slot_same by done. done.
Qed.

(** The filters but slot [j] are idle. *)
Definition idle_but (a : key_addr) (j : option nat) (x : sctx) : Prop :=
  forall i f, ss_filters (sc_state x) !! i = Some f -> Some i <> j -> idle a f = true.

Lemma filters_loop_idle fuel clear_all i c key d x :
  (forall k f, (i <= k)%nat -> ss_filters (sc_state x) !! k = Some f -> idle (kp_addr key) f = true) ->
  (length (ss_filters (sc_state x)) <= fuel + i)%nat ->
  filters_loop fuel clear_all (ss_alloc (sc_state x)) i c key d x = Ok (c, x).
Proof.
  revert i. induction fuel as [|fuel IH]; intros i Hidle Hlen; cbn [filters_loop];
    unfold bind at 1; cbn [gets]; rewrite Nat.eqb_refl; cbn [negb].
  all: destruct (ss_filters (sc_state x) !! i) as [f|] eqn:Hf; [|done].
  { apply lookup_lt_Some in Hf. lia. }
  assert (filters_loop fuel clear_all (ss_alloc (sc_state x)) (S i) c key d x = Ok (c, x)) as Hrest.
  { apply IH; [|lia]. intros k g Hk. apply Hidle. lia. }
  destruct (f_func f) as [fn|] eqn:Hfn; [|done].
  unfold bind. rewrite (run_idle _ _ i f key d x Hf Hfn); [done|]. apply (Hidle i); [lia|done].
Qed.

Lemma filters_loop_one fuel clear_all i j f fn f' r c key d x x' :
  idle_but (kp_addr key) (Some j) x -> (i <= j)%nat ->
  ss_filters (sc_state x) !! j = Some f -> f_func f = Some fn ->
  run_filter_func clear_all fn j key d x = Ok (r, x') ->
  ss_alloc (sc_state x') = ss_alloc (sc_state x) ->
  ss_filters (sc_state x') = <[j:=f']> (ss_filters (sc_state x)) ->
  (length (ss_filters (sc_state x)) <= fuel + i)%nat ->
  filters_loop fuel clear_all (ss_alloc (sc_state x)) i c key d x =
    Ok (match r with FILTER_CONSUME => true | FILTER_CONTINUE => c end, x').
Proof.
  intros Hidle Hij Hj Hfn Hrun Ha Hf'. revert i Hij.
  induction fuel as [|fuel IH]; intros i Hij Hlen; cbn [filters_loop];
    unfold bind at 1; cbn [gets]; rewrite Nat.eqb_refl; cbn [negb].
  { apply lookup_lt_Some in Hj. lia. }
  destruct (decide (i = j)) as [->|Hne].
  - rewrite Hj, Hfn. unfold bind. rewrite Hrun. rewrite <- Ha. apply filters_loop_idle.
    + intros k g Hk. rewrite Hf', list_lookup_insert_ne by lia. intros Hg.
      apply (Hidle k g Hg). intros [= ->]. lia.
    + rewrite Hf', length_insert. lia.
  - destruct (ss_filters (sc_state x) !! i) as [g|] eqn:Hg.
    + destruct (f_func g) as [gn|] eqn:Hgn; [|apply IH; lia].
      unfold bind. rewrite (run_idle _ _ i g key d x Hg Hgn).
      * apply IH; lia.
      * apply (Hidle i g Hg). by intros [= ->].
    + apply lookup_ge_None in Hg. apply lookup_lt_Some in Hj. lia.
Qed.

(** ** Allocation of a slot *)

Lemma xkb_filter_new_eq x :
  (length (ss_filters (sc_state x)) <= ss_alloc (sc_state x))%nat ->
  exists i l alloc f0,
    xkb_filter_new x =
      Ok (i, mk_sctx (ss_set_alloc alloc (ss_set_filters l (sc_state x))) (sc_events x)) /\
    l !! i = Some f0 /\ f_refcnt f0 = 1 /\ (length l <= alloc)%nat /\
    (forall j g, j <> i -> l !! j = Some g -> ss_filters (sc_state x) !! j = Some g).
Proof.
  intros Hlen. unfold xkb_filter_new, bind at 1. cbn [gets].
  destruct (list_find (fun f => f_func f = None) (ss_filters (sc_state x))) as [[i f]|] eqn:Hfind.
  - apply list_find_Some in Hfind as (Hi & _ & _).
    exists i, (<[i:=f_set_refcnt 1 f]> (ss_filters (sc_state x))), (ss_alloc (sc_state x)),
      (f_set_refcnt 1 f).
    split; [|split; [|split; [|split]]].
    + unfold bind. cbn [ret]. rewrite (upd_filter_eq i f x Hi). by destruct x as [[] ?].
    + apply list_lookup_insert_eq. by eapply lookup_lt_Some.
    + done.
    + by rewrite length_insert.
    + intros j g Hj. by rewrite list_lookup_insert_ne.
  - set (l := ss_filters (sc_state x)). clear Hfind.
    exists (length l), (l ++ [f_set_refcnt 1 zero_filter]),
      (if Nat.ltb (ss_alloc (sc_state x)) (length l + 1)
       then darray_next_alloc (ss_alloc (sc_state x)) (length l + 1) else ss_alloc (sc_state x)),
      (f_set_refcnt 1 zero_filter).
    assert (alter (f_set_refcnt 1) (length l) (l ++ [zero_filter]) =
            l ++ [f_set_refcnt 1 zero_filter]) as Halter.
    { rewrite (alter_insert _ _ _ zero_filter) by by apply list_lookup_middle.
      by rewrite insert_app_r_alt, Nat.sub_diag by lia. }
    split; [|split; [|split; [|split]]].
    + unfold bind, upd_filter, upd_state, modify. fold l.
      destruct (Nat.ltb _ _); cbn; fold l; rewrite Halter; by destruct x as [[] ?].
    + by apply list_lookup_middle.
    + done.
    + rewrite length_app. change (length [_]) with 1%nat.
      destruct (Nat.ltb_spec (ss_alloc (sc_state x)) (length l + 1)); [apply darray_next_alloc_ge | lia].
    + intros j g Hj [Hg|[Hge Hg]]%lookup_app_Some; [done|].
      apply list_lookup_singleton_Some in Hg as [Hg _]. lia.
Qed.

(** ** Events *)

(** A key event that concerns a server state. *)
Record key_event (km : xkb_keymap) (s : xkb_server_state) (kc : Z) (i : nat) (key : xkb_key)
    : Prop := {
  ke_inv : state_inv km s;
  ke_mode : is_server_mode (st_mode (ss_base s)) = true;
  ke_index : XkbKey km kc = Some i;
  ke_key : key_at km i = Some key;
  ke_sticky : sticky_on (mk_sctx s None) = false
}.

(** The end of [xkb_state_update_key], after the filters. *)
Definition finish (s : xkb_server_state) : xkb_server_state :=
  ss_set_base (xkb_state_update_derived (ss_base (commit_mods s))) (commit_mods s).

Definition start (s : xkb_server_state) : xkb_server_state :=
  ss_set_clear_mods 0 (ss_set_set_mods 0 s).

Section event.
Context (km : xkb_keymap) (s : xkb_server_state) (kc : Z) (i : nat) (key : xkb_key).
Hypothesis He : key_event km s kc i key.

Lemma update_key_eq d s1 evs :
  d <> KEY_REPEATED ->
  xkb_filter_apply_all (mk_key_ptr (KeymapKey i) key) d (mk_sctx (start s) None) =
    Ok (tt, mk_sctx s1 evs) ->
  xkb_state_update_key s kc d =
    Ok (get_state_component_changes (ss_components s) (ss_components (finish s1)), finish s1).
Proof using He.
  intros Hd Happly. destruct He as [[Hinv _] Hm Hi Hk Hs].
  unfold xkb_state_update_key, run_legacy, update_key, bind at 1. cbn [gets].
  cbn [sc_state]. rewrite Hm. cbn [negb].
  pose proof (sok_keymap _ _ (inv_server _ _ _ _ _ Hinv)) as Hkm. cbn in Hkm.
  cbv zeta. rewrite Hkm, Hi, Hk. rewrite (bool_decide_false (d = KEY_REPEATED)) by done.
  cbn [andb]. unfold breaks_sticky_keys. unfold sticky_on in Hs. cbn in Hs. rewrite Hs.
  rewrite andb_false_r. cbn [andb]. unfold process_key_actions, get_comps, upd_derived,
    upd_state, modify, bind, gets, ret.
  cbv beta iota. cbn [sc_state sc_events]. fold (start s). rewrite Happly. done.
Qed.

(** A press, when every filter is idle: one action, one new filter. *)
Lemma apply_press act fn :
  idle_but (KeymapKey i) None (mk_sctx s None) ->
  xkb_key_get_actions (ss_base s) key = [act] ->
  action_func act = Some fn -> (forall r, act <> act_redirect r) ->
  exists j l alloc f,
    let x1 := mk_sctx (ss_set_alloc alloc (ss_set_filters l (start s))) None in
    l !! j = Some f /\ f_action f = act /\ f_key f = Some (KeymapKey i) /\
    f_func f = Some fn /\ f_refcnt f = 1 /\ (length l <= alloc)%nat /\
    (forall k g, k <> j -> l !! k = Some g -> ss_filters s !! k = Some g) /\
    xkb_filter_apply_all (mk_key_ptr (KeymapKey i) key) KEY_DOWN (mk_sctx (start s) None) =
      run_filter_new fn j x1.
Proof using He.
  intros Hidle Hact Hfn Hred. destruct He as [[Hinv _] Hm Hi Hk Hs].
  set (x0 := mk_sctx (start s) None).
  pose proof (sok_alloc _ _ (inv_server _ _ _ _ _ Hinv)) as Hlen. cbn in Hlen.
  destruct (xkb_filter_new_eq x0 Hlen) as (j & l & alloc & f0 & Hnew & Hj & Hr & Hl & Hother).
  set (f := mk_filter act (Some (KeymapKey i)) (Some fn) (f_priv f0) 1).
  exists j, (<[j:=f]> l), alloc, f. cbv zeta.
  pose proof (lookup_lt_Some _ _ _ Hj) as Hjl.
  split; [by apply list_lookup_insert_eq|]. do 4 (split; [done|]).
  split; [by rewrite length_insert|]. split.
  { intros k g Hne. rewrite list_lookup_insert_ne by done. by apply Hother. }
  unfold xkb_filter_apply_all. cbn [apply_all]. unfold apply_all_with, bind at 1. cbn [gets].
  unfold bind at 1. rewrite filters_loop_idle; [| |cbn; cbn in Hlen; lia].
  2:{ intros k g _ Hg. by apply (Hidle k g). }
  rewrite bool_decide_false by done. cbn [orb]. unfold bind at 1. cbn [gets].
  change (xkb_key_get_actions (ss_base (sc_state x0)) (kp_key (mk_key_ptr (KeymapKey i) key)))
    with (xkb_key_get_actions (ss_base s) key).
  rewrite Hact. cbn [apply_actions]. unfold apply_action. rewrite Hfn.
  unfold bind at 1 2. rewrite Hnew. unfold bind at 1. cbn [gets].
  assert (has_flag (controls (ss_components (sc_state
    (mk_sctx (ss_set_alloc alloc (ss_set_filters l (sc_state x0))) (sc_events x0)))))
    CONTROL_STICKY_KEYS = false) as -> by exact Hs.
  cbv zeta. replace (resolve_redirect _ act) with act by (destruct act; naive_solver).
  rewrite Hfn. unfold bind at 1.
  rewrite (upd_filter_eq j f0) by exact Hj.
  match goal with |- match ?m ?x with _ => _ end = ?m' ?x' =>
    assert (x = x') as -> end.
  { unfold put_slot. cbn. unfold f_set_func, f_set_action, f_set_key. cbn. by rewrite Hr. }
  destruct (run_filter_new fn j _) as [[[] ?]|]; done.
Qed.
End event.

(** ** The state after an event

    [mid s alloc l sm cm c] is the state [s] once the filters have run: its
    array of filters, the modifiers to set and clear, and its components. *)

Definition mid (s : xkb_server_state) (alloc : nat) (l : list xkb_filter) (sm cm : Z)
    (c : state_components) : xkb_server_state :=
  mk_server (st_set_components c (ss_base s)) l alloc (ss_flags s) sm cm (ss_mod_key_count s).

(** The depressed modifiers are those with a positive count. *)
Record counts_ok (s : xkb_server_state) : Prop := {
  co_pos : forall j : nat, 0 <= count_at (ss_mod_key_count s) j;
  co_base : forall j : nat, Z.testbit (base_mods (ss_components s)) (Z.of_nat j) =
                            (0 <? count_at (ss_mod_key_count s) j)
}.

(** There is room for one more key in the counters. *)
Definition counts_room (s : xkb_server_state) : Prop :=
  forall j : nat, count_at (ss_mod_key_count s) j < 2 ^ 15 - 1.

Lemma finish_filters s : ss_filters (finish s) = ss_filters s.
Proof. unfold finish. destruct (commit_mods_frame s) as (b & c & ->). done. Qed.

Lemma finish_alloc s : ss_alloc (finish s) = ss_alloc s.
Proof. unfold finish. destruct (commit_mods_frame s) as (b & c & ->). done. Qed.

Lemma finish_counts s : ss_mod_key_count (finish s) = ss_mod_key_count (commit_mods s).
Proof. unfold finish. destruct (commit_mods_frame s) as (b & c & ->). reflexivity. Qed.

Lemma finish_components s :
  ss_components (finish s) =
    update_derived (ss_base s)
      (set_base_mods (base_mods (ss_components (commit_mods s))) (ss_components s)).
Proof. unfold finish. destruct (commit_mods_frame s) as (b & c & ->). done. Qed.

(** [update_derived] leaves the primary components alone, the locked group
    being in range already. *)
Section derived_same.
Context (st : xkb_state) (c0 : state_components).
Hypothesis H0 : derived_ok st c0.
Hypothesis Hgroups : 0 <= km_num_groups (st_keymap st) <= XKB_MAX_GROUPS.

Lemma update_derived_locked c :
  locked_group c = locked_group c0 -> locked_group (update_derived st c) = locked_group c0.
Proof using H0 Hgroups.
  intros Hl. unfold update_derived, led_update_all. cbn. rewrite Hl.
  rewrite <- (der_locked _ _ H0). apply i32_id.
  pose proof (der_locked_range _ _ H0). unfold is_i32, XKB_MAX_GROUPS in *. lia.
Qed.

(** Back to the primary components of [c0] is back to [c0]. *)
Lemma update_derived_back c :
  base_group c = base_group c0 -> latched_group c = latched_group c0 ->
  locked_group c = locked_group c0 -> base_mods c = base_mods c0 ->
  latched_mods c = latched_mods c0 -> locked_mods c = locked_mods c0 ->
  controls c = controls c0 -> update_derived st c = c0.
Proof using H0 Hgroups.
  intros. rewrite <- (update_derived_fixed st Hgroups c0 H0). by apply update_derived_ext.
Qed.
End derived_same.

Section commit_counts.
Context (s : xkb_server_state).
Hypothesis Hset : is_u32 (ss_set_mods s).
Hypothesis Hclear : is_u32 (ss_clear_mods s).
Hypothesis Hlen : length (ss_mod_key_count s) = XKB_MAX_MODS.
Hypothesis Hcounts : counts_ok s.
Hypothesis Hroom : counts_room s.

Lemma i16_small n : - 2 ^ 15 <= n < 2 ^ 15 -> i16 n = n.
Proof. intros. by apply sext_id. Qed.

Lemma commit_mods_counts_ok : counts_ok (commit_mods s).
Proof using All.
  destruct (commit_mods_bits s Hset Hclear Hlen) as [_ H].
  split; intros j; destruct (H j) as [-> Hb]; pose proof (co_pos s Hcounts j);
    pose proof (Hroom j) as Hr; cbn in Hr; rewrite ?Hb, ?(co_base s Hcounts);
    unfold count_after, base_after;
    set (n := count_at (ss_mod_key_count s) j) in *; clearbody n.
  - destruct (Z.testbit (ss_set_mods s) _), (Z.testbit (ss_clear_mods s) _); rewrite ?(i16_small (n + 1)) by lia; rewrite ?i16_small by lia; lia.
  - destruct (Z.testbit (ss_set_mods s) _), (Z.testbit (ss_clear_mods s) _); rewrite ?(i16_small (n + 1)) by lia; rewrite ?i16_small by lia;
      cbn; destruct (Z.ltb_spec 0 n); cbn;
      repeat match goal with |- context [?a <=? ?b] => destruct (Z.leb_spec a b) end;
      repeat match goal with |- context [?a <? ?b] => destruct (Z.ltb_spec a b) end;
      try done; lia.
Qed.

(** A modifier that is only set is depressed. *)
Lemma commit_mods_set :
  ss_clear_mods s = 0 ->
  base_mods (ss_components (commit_mods s)) =
    Z.lor (base_mods (ss_components s)) (ss_set_mods s).
Proof using Hset Hclear Hlen.
  intros Hc. destruct (commit_mods_bits s Hset Hclear Hlen) as [_ H].
  apply Z.bits_inj'. intros j Hj. specialize (H (Z.to_nat j)) as [_ H].
  rewrite Z2Nat.id in H by done. rewrite H, Hc, Z.testbit_0_l, Z.lor_spec.
  unfold base_after. cbn. by rewrite andb_true_r.
Qed.
End commit_counts.

(** ** A press followed by the release *)

(** The counters are back, and so are the depressed modifiers. *)
Lemma tap_base s m s1 s2 :
  is_u32 m -> length (ss_mod_key_count s) = XKB_MAX_MODS -> counts_ok s -> counts_room s ->
  ss_mod_key_count s1 = ss_mod_key_count s ->
  base_mods (ss_components s1) = base_mods (ss_components s) ->
  ss_set_mods s1 = m -> ss_clear_mods s1 = 0 ->
  ss_mod_key_count s2 = ss_mod_key_count (commit_mods s1) ->
  base_mods (ss_components s2) = base_mods (ss_components (commit_mods s1)) ->
  ss_set_mods s2 = 0 -> ss_clear_mods s2 = m ->
  is_u32 (base_mods (ss_components s)) ->
  base_mods (ss_components (commit_mods s2)) = base_mods (ss_components s) /\
  forall j, count_at (ss_mod_key_count (commit_mods s2)) j = count_at (ss_mod_key_count s) j.
Proof.
  intros Hm Hlen Hok Hroom Hk1 Hb1 Hs1 Hc1 Hk2 Hb2 Hs2 Hc2 Hbu.
  destruct (commit_mods_bits s1) as [Hlen1 H1]; rewrite ?Hs1, ?Hc1, ?Hk1; [done | apply is_u32_0 | done|].
  destruct (commit_mods_bits s2) as [_ H2]; rewrite ?Hs2, ?Hc2, ?Hk2; [apply is_u32_0 | done | done|].
  assert (forall j : nat,
    count_at (ss_mod_key_count (commit_mods s2)) j = count_at (ss_mod_key_count s) j /\
    Z.testbit (base_mods (ss_components (commit_mods s2))) (Z.of_nat j) =
      Z.testbit (base_mods (ss_components s)) (Z.of_nat j)) as H.
  { intros j. destruct (H1 j) as [C1 B1], (H2 j) as [C2 B2].
    rewrite Hs2, Hc2, Hk2, C1 in C2. rewrite Hs2, Hc2, Hb2, Hk2, C1, B1 in B2.
    rewrite C2, B2, Hs1, Hc1, Hk1, Hb1, (co_base s Hok), Z.testbit_0_l.
    pose proof (co_pos s Hok j). pose proof (Hroom j) as Hr. cbn in Hr.
    unfold count_after, base_after. set (n := count_at (ss_mod_key_count s) j) in *. clearbody n.
    destruct (Z.testbit m (Z.of_nat j)).
    - rewrite !(i16_small (n + 1)), !i16_small by lia. split; [lia|].
      destruct (Z.ltb_spec 0 n), (Z.leb_spec (n + 1 - 1) 0); cbn; done || lia.
    - split; [done|]. destruct (0 <? n); done. }
  split; [|intros j; apply H]. apply Z.bits_inj'. intros j Hj.
  destruct (H (Z.to_nat j)) as [_ Hj']. by rewrite Z2Nat.id in Hj'.
Qed.

(** Slot [j] holds the active filter of key [i]. *)
Definition holds (s : xkb_server_state) (j i : nat) (act : xkb_action) (fn : filter_func)
    (priv : Z) : Prop :=
  exists f, ss_filters s !! j = Some f /\ f_action f = act /\ f_key f = Some (KeymapKey i) /\
            f_func f = Some fn /\ f_priv f = priv /\ f_refcnt f = 1.

Lemma key_event_next km s kc i key kc' i' key' s' d changed :
  keymap_ok km -> key_event km s kc i key ->
  XkbKey km kc' = Some i' -> key_at km i' = Some key' ->
  xkb_state_update_key s kc d = Ok (changed, s') ->
  st_mode (ss_base s') = st_mode (ss_base s) ->
  controls (ss_components s') = controls (ss_components s) ->
  key_event km s' kc' i' key'.
Proof.
  intros Hkm [Hinv Hm Hi Hk Hs] Hi' Hk' Hupd Hmode Hctl.
  split; [|congruence|done|done|].
  - apply (server_step_inv km s); [done|done|]. by eapply step_key.
  - unfold sticky_on in *. cbn in *. by rewrite Hctl.
Qed.

Lemma finish_mode s : st_mode (ss_base (finish s)) = st_mode (ss_base s).
Proof. unfold finish. destruct (commit_mods_frame s) as (b & c & ->). done. Qed.

Lemma finish_controls s : controls (ss_components (finish s)) = controls (ss_components s).
Proof. rewrite finish_components. done. Qed.

Section release.
Context (km : xkb_keymap) (s : xkb_server_state) (kc : Z) (i : nat) (key : xkb_key).
Hypothesis He : key_event km s kc i key.

Lemma apply_release j f fn f' x' :
  idle_but (KeymapKey i) (Some j) (mk_sctx s None) ->
  ss_filters s !! j = Some f -> f_func f = Some fn -> fn <> ctrls_func ->
  run_filter_func (ret tt) fn j (mk_key_ptr (KeymapKey i) key) KEY_UP (mk_sctx (start s) None) =
    Ok (FILTER_CONTINUE, x') ->
  ss_alloc (sc_state x') = ss_alloc s ->
  ss_filters (sc_state x') = <[j:=f']> (ss_filters s) ->
  xkb_filter_apply_all (mk_key_ptr (KeymapKey i) key) KEY_UP (mk_sctx (start s) None) =
    Ok (tt, x').
Proof using He.
  intros Hidle Hj Hfn Hne Hrun Ha Hl. destruct He as [[Hinv _] Hm Hi Hk Hs].
  pose proof (sok_alloc _ _ (inv_server _ _ _ _ _ Hinv)) as Hlen. cbn in Hlen.
  unfold xkb_filter_apply_all. cbn [apply_all]. unfold apply_all_with, bind at 1. cbn [gets].
  unfold bind at 1.
  rewrite (filters_loop_one _ _ 0 j f fn f' FILTER_CONTINUE _ _ _ _ x');
    [done | exact Hidle | lia | done | done | by destruct fn | done | done | cbn; lia].
Qed.
End release.

(** What a [new] function does to a context: the slot, the modifiers to set
    and the components. *)
Definition after_new (x : sctx) (j : nat) (f : xkb_filter) (sm : Z) (c : state_components) : sctx :=
  let s := sc_state x in
  mk_sctx (mid s (ss_alloc s) (<[j:=f]> (ss_filters s)) (Z.lor (ss_set_mods s) sm) (ss_clear_mods s) c)
    (sc_events x).

(** What the release of a handler does. *)
Definition after_release (x : sctx) (j : nat) (f : xkb_filter) (cm : Z) (c : state_components)
    : sctx :=
  let s := sc_state x in
  mk_sctx (mid s (ss_alloc s) (<[j:=f]> (ss_filters s)) (ss_set_mods s) (Z.lor (ss_clear_mods s) cm) c)
    (sc_events x).

Section press.
Context (km : xkb_keymap) (s : xkb_server_state) (kc : Z) (i : nat) (key : xkb_key).
Hypothesis He : key_event km s kc i key.

Lemma press_gen act fn priv sm c :
  idle_but (KeymapKey i) None (mk_sctx s None) ->
  xkb_key_get_actions (ss_base s) key = [act] ->
  action_func act = Some fn -> (forall r, act <> act_redirect r) ->
  (forall j x f, ss_filters (sc_state x) !! j = Some f -> f_action f = act ->
    ss_components (sc_state x) = ss_components s ->
    run_filter_new fn j x =
      Ok (tt, after_new x j (f_set_priv (default (f_priv f) priv) f) sm c)) ->
  exists j l alloc f,
    let s' := finish (mid s alloc l sm 0 c) in
    xkb_state_update_key s kc KEY_DOWN =
      Ok (get_state_component_changes (ss_components s) (ss_components s'), s') /\
    l !! j = Some f /\ f_action f = act /\ f_key f = Some (KeymapKey i) /\
    f_func f = Some fn /\ f_refcnt f = 1 /\ (forall p, priv = Some p -> f_priv f = p) /\
    (length l <= alloc)%nat /\
    (forall k g, k <> j -> l !! k = Some g -> ss_filters s !! k = Some g).
Proof using He.
  intros Hidle Hact Hfn Hred Hnew.
  destruct (apply_press km s kc i key He act fn Hidle Hact Hfn Hred)
    as (j & l & alloc & f & Hj & Ha & Hk & Hf & Hr & Hl & Ho & Happly).
  exists j, (<[j:=f_set_priv (default (f_priv f) priv) f]> l), alloc,
    (f_set_priv (default (f_priv f) priv) f). cbv zeta.
  pose proof (lookup_lt_Some _ _ _ Hj) as Hlt.
  split; [|split; [by apply list_lookup_insert_eq|]].
  - apply (update_key_eq km s kc i key He KEY_DOWN _ None); [done|].
    rewrite Happly, (Hnew j (mk_sctx (ss_set_alloc alloc (ss_set_filters l (start s))) None) f Hj Ha) by done. unfold after_new. cbn.
    by rewrite Z.lor_0_l.
  - do 4 (split; [done|]). split; [by intros p ->|]. split; [by rewrite length_insert|].
    intros k g Hne. rewrite list_lookup_insert_ne by done. by apply Ho.
Qed.

Lemma release_gen j f fn f' cm c :
  idle_but (KeymapKey i) (Some j) (mk_sctx s None) ->
  ss_filters s !! j = Some f -> f_func f = Some fn -> fn <> ctrls_func ->
  run_filter_func (ret tt) fn j (mk_key_ptr (KeymapKey i) key) KEY_UP (mk_sctx (start s) None) =
    Ok (FILTER_CONTINUE, after_release (mk_sctx (start s) None) j f' cm c) ->
  let s' := finish (mid s (ss_alloc s) (<[j:=f']> (ss_filters s)) 0 cm c) in
  xkb_state_update_key s kc KEY_UP =
    Ok (get_state_component_changes (ss_components s) (ss_components s'), s').
Proof using He.
  intros Hidle Hj Hfn Hne Hrun. apply (update_key_eq km s kc i key He KEY_UP _ None); [done|].
  rewrite (apply_release km s kc i key He j f fn f' _ Hidle Hj Hfn Hne Hrun); [|done|done].
  unfold after_release. cbn. by rewrite Z.lor_0_l.
Qed.
End press.

(** ** The handlers of one action, as equations *)

Lemma land_unlock_flags fl :
  has_flag fl ACTION_LOCK_CLEAR = false ->
  (Z.land fl unlock_flags =? unlock_flags) = false /\
  (Z.land fl unlock_flags =? ACTION_LOCK_CLEAR) = false.
Proof.
  intros Hf. change ACTION_LOCK_CLEAR with (bit 0) in *. rewrite has_flag_bit in Hf by lia.
  split; apply Z.eqb_neq; intros H; apply (f_equal (fun z => Z.testbit z 0)) in H;
    rewrite Z.land_spec, Hf in H; done.
Qed.

Section handlers.
Context (x : sctx) (j : nat) (f : xkb_filter).
Hypothesis Hj : ss_filters (sc_state x) !! j = Some f.

Lemma mod_set_new_eq fl m :
  f_action f = act_mods MOD_SET fl m -> has_flag fl ACTION_LOCK_CLEAR = false ->
  run_filter_new mod_set_func j x =
    Ok (tt, after_new x j (f_set_priv (m_mask m) f) (m_mask m) (ss_components (sc_state x))).
Proof using Hj.
  intros Ha Hfl. cbn [run_filter_new]. unfold xkb_filter_mod_set_new, bind at 1.
  rewrite (get_filter_eq j f x Hj). unfold bind at 1, get_comps, gets. cbv zeta.
  unfold f_flags, f_mask. rewrite Ha. cbn [a_flags a_mask].
  destruct (land_unlock_flags fl Hfl) as [-> _]. unfold bind at 1.
  rewrite (upd_filter_eq j f x Hj). unfold bind.
  rewrite (get_filter_eq j _ _ (put_slot_lookup j f x Hj _)). by destruct x as [[[]] ?].
Qed.

Lemma mod_lock_new_eq fl m :
  f_action f = act_mods MOD_LOCK fl m ->
  has_flag fl ACTION_UNLOCK_ON_PRESS = false -> has_flag fl ACTION_LOCK_NO_LOCK = false ->
  let c := ss_components (sc_state x) in
  run_filter_new mod_lock_func j x =
    Ok (tt, after_new x j (f_set_priv (Z.land (locked_mods c) (m_mask m)) f) (m_mask m)
              (set_locked_mods (Z.lor (locked_mods c) (m_mask m)) c)).
Proof using Hj.
  intros Ha Hfl Hnl. cbn [run_filter_new]. unfold xkb_filter_mod_lock_new, bind at 1.
  rewrite (get_filter_eq j f x Hj). unfold bind at 1, get_comps, gets. cbv zeta.
  unfold f_flags, f_mask. rewrite Ha. cbn [a_flags a_mask]. rewrite Hfl, Hnl, andb_false_r.
  unfold bind. rewrite (upd_filter_eq j f x Hj). by destruct x as [[[]] ?].
Qed.

Lemma mod_latch_new_eq fl m :
  f_action f = act_mods MOD_LATCH fl m ->
  has_flag fl ACTION_LOCK_CLEAR = false -> has_flag fl ACTION_LATCH_ON_PRESS = false ->
  run_filter_new mod_latch_func j x =
    Ok (tt, after_new x j (f_set_priv LATCH_KEY_DOWN f) (m_mask m) (ss_components (sc_state x))).
Proof using Hj.
  intros Ha Hfl Hnl. cbn [run_filter_new]. unfold xkb_filter_mod_latch_new, bind at 1.
  rewrite (get_filter_eq j f x Hj). unfold bind at 1, get_comps, gets. cbv zeta.
  unfold f_flags, f_mask. rewrite Ha. cbn [a_flags a_mask]. rewrite Hfl, Hnl. cbn [andb].
  unfold bind. rewrite (upd_filter_eq j f x Hj). by destruct x as [[[]] ?].
Qed.

Lemma group_set_new_eq fl g :
  f_action f = act_group GROUP_SET fl g ->
  let c := ss_components (sc_state x) in
  run_filter_new group_set_func j x =
    Ok (tt, after_new x j (f_set_priv (u32 (base_group c)) f) 0
              (set_base_group (apply_group_delta f (base_group c)) c)).
Proof using Hj.
  intros Ha. cbn [run_filter_new]. unfold xkb_filter_group_set_new, bind at 1.
  rewrite (get_filter_eq j f x Hj). unfold bind at 1, get_comps, gets.
  unfold bind. rewrite (upd_filter_eq j f x Hj). unfold after_new, mid. cbv zeta.
  rewrite Z.lor_0_r. by destruct x as [[[]] ?].
Qed.

Lemma group_lock_new_eq fl g :
  f_action f = act_group GROUP_LOCK fl g -> has_flag fl ACTION_LOCK_ON_RELEASE = false ->
  let c := ss_components (sc_state x) in
  run_filter_new group_lock_func j x =
    Ok (tt, after_new x j (f_set_priv (f_priv f) f) 0
              (set_locked_group (apply_group_delta f (locked_group c)) c)).
Proof using Hj.
  intros Ha Hfl. cbn [run_filter_new]. unfold xkb_filter_group_lock_new, bind at 1.
  rewrite (get_filter_eq j f x Hj). unfold f_flags. rewrite Ha. cbn [a_flags]. rewrite Hfl.
  unfold after_new, mid. cbv zeta.
  replace (<[j:=f_set_priv (f_priv f) f]> (ss_filters (sc_state x))) with (ss_filters (sc_state x)).
  - rewrite Z.lor_0_r. by destruct x as [[[]] ?].
  - symmetry. apply list_insert_id. rewrite Hj. by destruct f.
Qed.

(** Releases: the key of the filter, pressed once. *)
Context (a : key_addr) (key : xkb_key).
Hypothesis Hkey : f_key f = Some a.
Hypothesis Hcnt : f_refcnt f = 1.

Lemma key_count_up_eq :
  filter_key_count j KEY_UP x = Ok (None, put_slot j (f_set_refcnt 0 f) x).
Proof using Hj Hcnt.
  unfold filter_key_count, bind at 1. rewrite (upd_filter_eq j f x Hj), Hcnt. unfold bind.
  rewrite (get_filter_eq j _ _ (put_slot_lookup j f x Hj _)). done.
Qed.

Lemma is_filter_key_eq : is_filter_key f (mk_key_ptr a key) = true.
Proof using Hkey. unfold is_filter_key. by apply bool_decide_true. Qed.

Definition released : xkb_filter := f_set_func None (f_set_refcnt 0 f).

(** The end of the handlers that count the presses of their key. *)
Lemma release_end y :
  ss_filters (sc_state y) !! j = Some (f_set_refcnt 0 f) ->
  (upd_filter j (f_set_func None) ;;; ret FILTER_CONTINUE) y =
    Ok (FILTER_CONTINUE, put_slot j released y).
Proof using. intros Hy. unfold bind. by rewrite (upd_filter_eq j (f_set_refcnt 0 f) y Hy). Qed.

Lemma after_release_eq cm c :
  put_slot j released
    (mk_sctx (ss_set_clear_mods (Z.lor (ss_clear_mods (sc_state x)) cm)
       (ss_set_components c (sc_state (put_slot j (f_set_refcnt 0 f) x)))) (sc_events x)) =
  after_release x j released cm c.
Proof using. unfold put_slot, after_release. cbn. by rewrite list_insert_insert_eq. Qed.

Lemma mod_set_up_eq fl m :
  f_action f = act_mods MOD_SET fl m -> has_flag fl ACTION_LOCK_CLEAR = false ->
  run_filter_func (ret tt) mod_set_func j (mk_key_ptr a key) KEY_UP x =
    Ok (FILTER_CONTINUE, after_release x j released (f_priv f) (ss_components (sc_state x))).
Proof using All.
  intros Ha Hfl. cbn [run_filter_func]. unfold xkb_filter_mod_set_func, bind at 1.
  rewrite (get_filter_eq j f x Hj), is_filter_key_eq. cbn [negb]. unfold bind at 1.
  rewrite key_count_up_eq. unfold f_flags. rewrite Ha. cbn [a_flags].
  destruct (land_unlock_flags fl Hfl) as [_ ->]. unfold bind at 1, upd_clear_mods, upd_state, modify.
  unfold bind at 1. cbn [ret]. rewrite release_end by exact (put_slot_lookup j f x Hj _).
  rewrite <- after_release_eq. by destruct x as [[[]] ?].
Qed.

Lemma mod_lock_up_eq fl m :
  f_action f = act_mods MOD_LOCK fl m -> has_flag fl ACTION_LOCK_NO_UNLOCK = false ->
  let c := ss_components (sc_state x) in
  run_filter_func (ret tt) mod_lock_func j (mk_key_ptr a key) KEY_UP x =
    Ok (FILTER_CONTINUE, after_release x j released (m_mask m)
          (set_locked_mods (Z.ldiff (locked_mods c) (f_priv f)) c)).
Proof using All.
  intros Ha Hfl. cbn [run_filter_func]. unfold xkb_filter_mod_lock_func, bind at 1.
  rewrite (get_filter_eq j f x Hj), is_filter_key_eq. cbn [negb]. unfold bind at 1.
  rewrite key_count_up_eq. unfold f_flags, f_mask. rewrite Ha. cbn [a_flags a_mask]. rewrite Hfl.
  unfold bind at 1, upd_clear_mods, clear_locked_mods, upd_comps, upd_state, modify.
  unfold bind at 1. cbn [negb]. rewrite release_end by exact (put_slot_lookup j f x Hj _).
  cbv zeta. rewrite <- after_release_eq. by destruct x as [[[]] ?].
Qed.

Lemma group_set_up_eq fl g :
  f_action f = act_group GROUP_SET fl g -> has_flag fl ACTION_LOCK_CLEAR = false ->
  run_filter_func (ret tt) group_set_func j (mk_key_ptr a key) KEY_UP x =
    Ok (FILTER_CONTINUE, after_release x j released 0
          (set_base_group (i32 (f_priv f)) (ss_components (sc_state x)))).
Proof using All.
  intros Ha Hfl. cbn [run_filter_func]. unfold xkb_filter_group_set_func, bind at 1.
  rewrite (get_filter_eq j f x Hj), is_filter_key_eq. cbn [negb]. unfold bind at 1.
  rewrite key_count_up_eq. unfold f_flags. rewrite Ha. cbn [a_flags]. rewrite Hfl.
  unfold bind at 1, upd_comps, upd_state, modify.
  unfold bind at 1. cbn [ret]. rewrite release_end by exact (put_slot_lookup j f x Hj _).
  rewrite <- after_release_eq, Z.lor_0_r. by destruct x as [[[]] ?].
Qed.

Lemma group_lock_up_eq fl g :
  f_action f = act_group GROUP_LOCK fl g -> has_flag fl ACTION_LOCK_ON_RELEASE = false ->
  run_filter_func (ret tt) group_lock_func j (mk_key_ptr a key) KEY_UP x =
    Ok (FILTER_CONTINUE, after_release x j released 0 (ss_components (sc_state x))).
Proof using All.
  intros Ha Hfl. cbn [run_filter_func]. unfold xkb_filter_group_lock_func, bind at 1.
  rewrite (get_filter_eq j f x Hj), is_filter_key_eq. cbn [negb]. unfold bind at 1.
  rewrite key_count_up_eq. unfold f_flags. rewrite Ha. cbn [a_flags]. rewrite Hfl.
  unfold bind at 1. cbn [ret]. rewrite release_end by exact (put_slot_lookup j f x Hj _).
  rewrite <- after_release_eq, Z.lor_0_r. by destruct x as [[[]] ?].
Qed.

Lemma mod_latch_up_eq fl m :
  f_action f = act_mods MOD_LATCH fl m -> f_priv f = LATCH_KEY_DOWN ->
  has_flag fl ACTION_LOCK_CLEAR = false -> has_flag fl ACTION_LATCH_ON_PRESS = false ->
  let c := ss_components (sc_state x) in
  run_filter_func (ret tt) mod_latch_func j (mk_key_ptr a key) KEY_UP x =
    Ok (FILTER_CONTINUE, after_release x j (f_set_priv LATCH_PENDING f) (m_mask m)
          (set_latched_mods (Z.lor (latched_mods c) (m_mask m)) c)).
Proof using Hj Hkey.
  intros Ha Hp Hc Ho. cbn [run_filter_func]. unfold xkb_filter_mod_latch_func, bind at 1.
  rewrite (get_filter_eq j f x Hj). cbv zeta. rewrite is_filter_key_eq.
  rewrite !bool_decide_false by done. cbn [negb]. unfold f_flags, f_mask. rewrite Ha, Hp.
  cbn [a_flags a_mask]. rewrite Hc, Ho. unfold bind at 1. unfold get_comps, gets. cbn [andb negb].
  unfold bind, upd_clear_mods, upd_comps, upd_state, modify. cbn [Z.eqb LATCH_KEY_DOWN NO_LATCH Pos.eqb].
  rewrite (upd_filter_eq j f) by exact Hj. by destruct x as [[[]] ?].
Qed.
End handlers.

(** ** A tap: press and release of a key whose action is alone *)

(** The fields of derived components. *)
Section fields.
Context (st : xkb_state) (c : state_components).
Lemma derived_base_group : base_group (update_derived st c) = base_group c.
Proof. done. Qed.
Lemma derived_latched_group : latched_group (update_derived st c) = latched_group c.
Proof. done. Qed.
Lemma derived_base_mods : base_mods (update_derived st c) = base_mods c.
Proof. done. Qed.
Lemma derived_latched_mods : latched_mods (update_derived st c) = latched_mods c.
Proof. done. Qed.
Lemma derived_locked_mods : locked_mods (update_derived st c) = locked_mods c.
Proof. done. Qed.
Lemma derived_controls : controls (update_derived st c) = controls c.
Proof. done. Qed.
Lemma derived_mods :
  mods (update_derived st c) = Z.lor (Z.lor (base_mods c) (latched_mods c)) (locked_mods c).
Proof. done. Qed.
End fields.

Create Rewrite HintDb comps.
#[export] Hint Rewrite derived_base_group derived_latched_group derived_base_mods
  derived_latched_mods derived_locked_mods derived_controls derived_mods : comps.
#[global] Arguments update_derived : simpl never.
Ltac comps_cbn := cbn [set_base_group set_latched_group set_locked_group set_base_mods
  set_latched_mods set_locked_mods set_controls base_group latched_group locked_group group
  base_mods latched_mods locked_mods mods controls id].
Ltac comps_simpl := comps_cbn; autorewrite with comps; comps_cbn.

Lemma finish_state s :
  st_keymap (ss_base (finish s)) = st_keymap (ss_base s) /\
  st_policy (ss_base (finish s)) = st_policy (ss_base s) /\
  st_redirect (ss_base (finish s)) = st_redirect (ss_base s).
Proof. unfold finish. destruct (commit_mods_frame s) as (b & c & ->). done. Qed.

Lemma update_derived_state_ext st st' c :
  st_keymap st' = st_keymap st -> st_policy st' = st_policy st ->
  st_redirect st' = st_redirect st -> update_derived st' c = update_derived st c.
Proof. intros Hk Hp Hr. unfold update_derived. by rewrite Hk, Hp, Hr. Qed.

(** Comparisons of states unfold the loops of [commit_mods] last. *)
#[local] Strategy 1000 [commit_mods commit_set_loop commit_clear_loop].

Lemma eq_witness {A} (a : A) : exists x, x = a.
Proof. by exists a. Qed.

Lemma base_mods_update_derived st b c : base_mods (update_derived st (set_base_mods b c)) = b.
Proof. done. Qed.

Section tap.
Context (km : xkb_keymap) (s : xkb_server_state) (kc : Z) (i : nat) (key : xkb_key).
Hypothesis Hkm : keymap_ok km.
Hypothesis He : key_event km s kc i key.
Hypothesis Hidle : idle_but (KeymapKey i) None (mk_sctx s None).
Hypothesis Hok : counts_ok s.
Hypothesis Hroom : counts_room s.

Context (act : xkb_action) (fn : filter_func) (priv : option Z) (sm : Z).
Context (cp : state_components) (f' : xkb_filter -> xkb_filter).
Context (cr : state_components -> state_components).
Hypothesis Hact : xkb_key_get_actions (ss_base s) key = [act].
Hypothesis Hfn : action_func act = Some fn.
Hypothesis Hne : fn <> ctrls_func.
Hypothesis Hred : forall r, act <> act_redirect r.
Hypothesis Hsm : is_u32 sm.
Hypothesis Hcp : base_mods cp = base_mods (ss_components s).
Hypothesis Hctl : controls cp = controls (ss_components s).
Hypothesis Hnew : forall j x f, ss_filters (sc_state x) !! j = Some f -> f_action f = act ->
  ss_components (sc_state x) = ss_components s ->
  run_filter_new fn j x = Ok (tt, after_new x j (f_set_priv (default (f_priv f) priv) f) sm cp).
Hypothesis Hup : forall j x f, ss_filters (sc_state x) !! j = Some f -> f_action f = act ->
  f_key f = Some (KeymapKey i) -> f_refcnt f = 1 -> (forall p, priv = Some p -> f_priv f = p) ->
  run_filter_func (ret tt) fn j (mk_key_ptr (KeymapKey i) key) KEY_UP x =
    Ok (FILTER_CONTINUE, after_release x j (f' f) sm (cr (ss_components (sc_state x)))).
Hypothesis Hcr : forall c, base_mods (cr c) = base_mods c /\ controls (cr c) = controls c.

Lemma tap_gen :
  exists ch1 s1 ch2 s2,
    xkb_state_update_key s kc KEY_DOWN = Ok (ch1, s1) /\
    xkb_state_update_key s1 kc KEY_UP = Ok (ch2, s2) /\
    ss_components s1 = update_derived (ss_base s)
      (set_base_mods (Z.lor (base_mods (ss_components s)) sm) cp) /\
    ss_components s2 = update_derived (ss_base s)
      (set_base_mods (base_mods (ss_components s)) (cr (ss_components s1))) /\
    (forall j, count_at (ss_mod_key_count s2) j = count_at (ss_mod_key_count s) j) /\
    exists j f, f_action f = act /\ ss_filters s2 !! j = Some (f' f) /\
      (forall k g, k <> j -> ss_filters s2 !! k = Some g -> ss_filters s !! k = Some g).
Proof using All.
  destruct (press_gen km s kc i key He act fn priv sm cp Hidle Hact Hfn Hred Hnew)
    as (j & l & alloc & f & Hdown & Hj & Ha & Hk & Hf & Hr & Hp & Hl & Ho).
  cbv zeta in Hdown. destruct (eq_witness (finish (mid s alloc l sm 0 cp))) as [s1 Es1].
  rewrite <- Es1 in Hdown.
  pose proof (He) as [[Hinv _] Hm Hi Hkey Hs].
  pose proof (inv_server _ _ _ _ _ Hinv) as Hs0. cbn in Hs0.
  assert (key_event km s1 kc i key) as He1.
  { eapply key_event_next; [done | exact He | done | done | exact Hdown | |].
    - by rewrite Es1, finish_mode.
    - by rewrite Es1, finish_controls. }
  pose proof (release_gen km s1 kc i key He1 j f fn (f' f) sm (cr (ss_components s1))) as Hrel.
  specialize (Hrel ltac:(
    intros k g Hg Hkj; change (ss_filters s1 !! k = Some g) in Hg; rewrite Es1, finish_filters in Hg;
    apply (Hidle k g); [apply Ho; [congruence | exact Hg] | done])).
  assert (ss_filters s1 !! j = Some f) as Hj1 by by rewrite Es1, finish_filters.
  specialize (Hrel Hj1 Hf Hne (Hup j (mk_sctx (start s1) None) f Hj1 Ha Hk Hr Hp)).
  cbv zeta in Hrel.
  set (m2 := mid s1 (ss_alloc s1) _ 0 sm _) in Hrel.
  assert (ss_components s1 = update_derived (ss_base s)
    (set_base_mods (Z.lor (base_mods (ss_components s)) sm) cp)) as Hc1.
  { rewrite Es1, finish_components, commit_mods_set; [|done|apply is_u32_0|apply (sok_counts _ _ Hs0)|done].
    change (ss_components (mid s alloc l sm 0 cp)) with cp.
    change (ss_set_mods (mid s alloc l sm 0 cp)) with sm. rewrite Hcp.
    by apply update_derived_state_ext. }
  destruct (tap_base s sm (mid s alloc l sm 0 cp) m2) as [Hbase Hcounts]; try done.
  { apply (sok_counts _ _ Hs0). }
  { change (ss_mod_key_count m2) with (ss_mod_key_count s1). by rewrite Es1, finish_counts. }
  { change (base_mods (ss_components m2)) with (base_mods (cr (ss_components s1))).
    rewrite (proj1 (Hcr _)), Es1, finish_components. apply base_mods_update_derived. }
  { apply (sok_components _ _ Hs0). }
  eexists _, s1, _, (finish m2). split; [exact Hdown|]. split; [exact Hrel|].
  split; [exact Hc1|]. split; [|split].
  - rewrite finish_components, Hbase.
    destruct (finish_state (mid s alloc l sm 0 cp)) as (E1 & E2 & E3).
    rewrite <- Es1 in E1, E2, E3.
    apply update_derived_state_ext; [exact E1 | exact E2 | exact E3].
  - intros k. rewrite finish_counts. apply Hcounts.
  - exists j, f. split; [done|]. rewrite finish_filters. split.
    + apply list_lookup_insert_eq. by eapply lookup_lt_Some.
    + intros k g Hkj. change (ss_filters m2) with (<[j:=f' f]> (ss_filters s1)).
      rewrite list_lookup_insert_ne by done. rewrite Es1, finish_filters. by apply Ho.
Qed.
End tap.
