(* ===== verification/ServerSpec.v ===== *)
(** * Properties of the server state

    What an application of the legacy server API relies on: no fault, derived
    components up to date, modifiers counted over the keys that set them, and
    the effect of tapping a key for each kind of modifier and group action. *)

From Stdlib Require Import ZArith Lia.
From stdpp Require Import base tactics list numbers.
From S2P Require Import Prelude Keymap State Filters Apply Server Safety Reach Keys.

(** ** Lemmas for the tap theorems *)

Lemma actions_mask_u32 km s kc i key act t fl m :
  keymap_ok km -> key_event km s kc i key ->
  xkb_key_get_actions (ss_base s) key = [act] -> act = act_mods t fl m -> is_u32 (m_mask m).
Proof.
  intros Hkm He Hact ->. pose proof (key_at_ok km i key Hkm (ke_key _ _ _ _ _ He)) as Hk.
  pose proof (xkb_key_get_actions_ok (ss_base s) key Hk) as H. rewrite Hact in H.
  by inversion H.
Qed.

Lemma state_inv_groups km s :
  keymap_ok km -> state_inv km s ->
  0 <= km_num_groups (st_keymap (ss_base s)) <= XKB_MAX_GROUPS.
Proof.
  intros Hkm [Hinv _]. pose proof (sok_keymap _ _ (inv_server _ _ _ _ _ Hinv)) as Hk.
  cbn in Hk. rewrite Hk. apply (kmwf_num_groups km (proj1 Hkm)).
Qed.

Section taps.
Context (km : xkb_keymap) (s : xkb_server_state) (kc : Z) (i : nat) (key : xkb_key).
Hypothesis Hkm : keymap_ok km.
Hypothesis He : key_event km s kc i key.
Hypothesis Hidle : idle_but (KeymapKey i) None (mk_sctx s None).
Hypothesis Hok : counts_ok s.
Hypothesis Hroom : counts_room s.

Abbreviation c := (ss_components s).

Lemma derived_back c' :
  base_group c' = base_group c -> latched_group c' = latched_group c ->
  locked_group c' = locked_group c -> base_mods c' = base_mods c ->
  latched_mods c' = latched_mods c -> locked_mods c' = locked_mods c ->
  controls c' = controls c -> update_derived (ss_base s) c' = c.
Proof using Hkm He.
  apply update_derived_back; [apply (ke_inv _ _ _ _ _ He)|].
  by apply (state_inv_groups km), (ke_inv _ _ _ _ _ He).
Qed.

Lemma derived_locked c' :
  locked_group c' = locked_group c ->
  locked_group (update_derived (ss_base s) c') = locked_group c.
Proof using Hkm He.
  apply update_derived_locked; [apply (ke_inv _ _ _ _ _ He)|].
  by apply (state_inv_groups km), (ke_inv _ _ _ _ _ He).
Qed.
End taps.

(** ** The sample state of the witnesses *)

Lemma sample_keymap_ok : keymap_ok sample_keymap.
Proof.
  split; [exact sample_keymap_wf|].
  unfold key_ok, level_ok. cbn. repeat constructor; cbn; unfold is_u32, is_i32; vm_compute; intuition discriminate.
Qed.

Lemma count_at_init km mode aff fl j :
  count_at (ss_mod_key_count (xkb_server_state_init km mode aff fl)) j = 0.
Proof.
  unfold count_at, xkb_server_state_init. cbn [ss_mod_key_count].
  destruct (replicate XKB_MAX_MODS 0 !! j) as [v|] eqn:H; [|done].
  by apply lookup_replicate in H as [-> _].
Qed.

Lemma counts_ok_init km mode aff fl : counts_ok (xkb_server_state_init km mode aff fl).
Proof.
  split; intros j; rewrite count_at_init; [done|].
  change (base_mods _) with 0. by rewrite Z.testbit_0_l.
Qed.

Lemma counts_room_init km mode aff fl : counts_room (xkb_server_state_init km mode aff fl).
Proof. intros j. rewrite count_at_init. lia. Qed.

Lemma idle_init km mode aff fl a : idle_but a None (mk_sctx (xkb_server_state_init km mode aff fl) None).
Proof. by intros k g Hg. Qed.

Definition sample_state : xkb_server_state := xkb_state_new sample_keymap.

Lemma sample_event (kc : Z) (i : nat) (key : xkb_key) :
  XkbKey sample_keymap kc = Some i -> key_at sample_keymap i = Some key ->
  key_event sample_keymap sample_state kc i key.
Proof.
  intros Hi Hk. split; [apply xkb_server_state_init_inv, sample_keymap_wf | done..].
Qed.

(** ** Taps *)

(** Tapping a SetMods() key: the modifiers are depressed, then everything is
    as before. *)
Theorem set_mods_tap km s kc i key fl m :
  keymap_ok km -> key_event km s kc i key ->
  idle_but (KeymapKey i) None (mk_sctx s None) -> counts_ok s -> counts_room s ->
  xkb_key_get_actions (ss_base s) key = [act_mods MOD_SET fl m] ->
  has_flag fl ACTION_LOCK_CLEAR = false ->
  exists ch1 s1 ch2 s2,
    xkb_state_update_key s kc KEY_DOWN = Ok (ch1, s1) /\
    xkb_state_update_key s1 kc KEY_UP = Ok (ch2, s2) /\
    base_mods (ss_components s1) = Z.lor (base_mods (ss_components s)) (m_mask m) /\
    mods (ss_components s1) = Z.lor (mods (ss_components s)) (m_mask m) /\
    ss_components s2 = ss_components s.
Proof.
  intros Hkm He Hidle Hok Hroom Hact Hfl.
  pose proof (actions_mask_u32 _ _ _ _ _ _ _ _ _ Hkm He Hact eq_refl) as Hm.
  destruct (tap_gen km s kc i key Hkm He Hidle Hok Hroom (act_mods MOD_SET fl m) mod_set_func
    (Some (m_mask m)) (m_mask m) (ss_components s) released id Hact)
    as (ch1 & s1 & ch2 & s2 & Hd & Hu & Hc1 & Hc2 & _); try done.
  - intros j x f Hj Ha Hc. rewrite (mod_set_new_eq x j f Hj fl m Ha Hfl), Hc. done.
  - intros j x f Hj Ha Hk Hr Hp. rewrite <- (Hp _ eq_refl) at 1.
    by apply (mod_set_up_eq x j f Hj) with fl m.
  - exists ch1, s1, ch2, s2. split; [done|]. split; [done|].
    split; [by rewrite Hc1; comps_simpl|]. split.
    + rewrite Hc1, (der_mods _ _ (proj2 (ke_inv _ _ _ _ _ He))). comps_simpl. bitblast.
    + rewrite Hc2. apply (derived_back km s kc i key Hkm He); comps_simpl; try reflexivity;
        rewrite Hc1; comps_simpl; try reflexivity.
      by rewrite (derived_locked km s kc i key Hkm He).
Qed.

Lemma set_mods_tap_witness :
  exists ch1 s1 ch2 s2,
    xkb_state_update_key sample_state 2 KEY_DOWN = Ok (ch1, s1) /\
    xkb_state_update_key s1 2 KEY_UP = Ok (ch2, s2) /\
    base_mods (ss_components s1) = Z.lor (base_mods (ss_components sample_state)) Shift /\
    mods (ss_components s1) = Z.lor (mods (ss_components sample_state)) Shift /\
    ss_components s2 = ss_components sample_state.
Proof.
  apply (set_mods_tap sample_keymap sample_state 2 2
    (action_key 2 (act_mods MOD_SET 0 (pure Shift))) 0 (pure Shift)).
  - exact sample_keymap_ok.
  - by apply sample_event.
  - apply idle_init.
  - apply counts_ok_init.
  - apply counts_room_init.
  - reflexivity.
  - reflexivity.
Defined.

(** The state of a key after [update_derived] is applied twice. *)
Lemma derived_twice km s c :
  keymap_ok km -> state_inv km s -> is_i32 (locked_group c) ->
  update_derived (ss_base s) (update_derived (ss_base s) c) = update_derived (ss_base s) c.
Proof.
  intros Hkm Hs Hl. pose proof (state_inv_groups km s Hkm Hs) as Hg.
  apply update_derived_fixed; [done|]. apply update_derived_ok; [done | | done].
  apply (sok_redirect km), (inv_server _ _ _ _ _ (proj1 Hs)).
Qed.

(** Tapping a LockMods() key toggles the locks of its modifiers. *)
Theorem lock_mods_tap km s kc i key fl m :
  keymap_ok km -> key_event km s kc i key ->
  idle_but (KeymapKey i) None (mk_sctx s None) -> counts_ok s -> counts_room s ->
  xkb_key_get_actions (ss_base s) key = [act_mods MOD_LOCK fl m] ->
  has_flag fl ACTION_UNLOCK_ON_PRESS = false -> has_flag fl ACTION_LOCK_NO_LOCK = false ->
  has_flag fl ACTION_LOCK_NO_UNLOCK = false ->
  exists ch1 s1 ch2 s2,
    xkb_state_update_key s kc KEY_DOWN = Ok (ch1, s1) /\
    xkb_state_update_key s1 kc KEY_UP = Ok (ch2, s2) /\
    base_mods (ss_components s1) = Z.lor (base_mods (ss_components s)) (m_mask m) /\
    locked_mods (ss_components s1) = Z.lor (locked_mods (ss_components s)) (m_mask m) /\
    ss_components s2 = update_derived (ss_base s)
      (set_locked_mods (Z.lxor (locked_mods (ss_components s)) (m_mask m)) (ss_components s)).
Proof.
  intros Hkm He Hidle Hok Hroom Hact Hf1 Hf2 Hf3.
  pose proof (actions_mask_u32 _ _ _ _ _ _ _ _ _ Hkm He Hact eq_refl) as Hm.
  set (c := ss_components s).
  destruct (tap_gen km s kc i key Hkm He Hidle Hok Hroom (act_mods MOD_LOCK fl m) mod_lock_func
    (Some (Z.land (locked_mods c) (m_mask m))) (m_mask m)
    (set_locked_mods (Z.lor (locked_mods c) (m_mask m)) c) released
    (fun c1 => set_locked_mods (Z.ldiff (locked_mods c1) (Z.land (locked_mods c) (m_mask m))) c1) Hact)
    as (ch1 & s1 & ch2 & s2 & Hd & Hu & Hc1 & Hc2 & _); try done.
  - intros j x f Hj Ha Hc. rewrite (mod_lock_new_eq x j f Hj fl m Ha Hf1 Hf2), Hc. done.
  - intros j x f Hj Ha Hk Hr Hp. rewrite <- (Hp _ eq_refl) at 1.
    by apply (mod_lock_up_eq x j f Hj) with fl.
  - exists ch1, s1, ch2, s2. split; [done|]. split; [done|].
    split; [by rewrite Hc1; comps_simpl|]. split; [by rewrite Hc1; comps_simpl|].
    rewrite Hc2. apply update_derived_ext; comps_simpl; rewrite ?Hc1; comps_simpl; try reflexivity.
    + rewrite (derived_locked km s kc i key Hkm He); reflexivity.
    + bitblast.
Qed.

Lemma lock_mods_tap_witness :
  exists ch1 s1 ch2 s2,
    xkb_state_update_key sample_state 4 KEY_DOWN = Ok (ch1, s1) /\
    xkb_state_update_key s1 4 KEY_UP = Ok (ch2, s2) /\
    base_mods (ss_components s1) = Z.lor (base_mods (ss_components sample_state)) Lock /\
    locked_mods (ss_components s1) = Z.lor (locked_mods (ss_components sample_state)) Lock /\
    ss_components s2 = update_derived (ss_base sample_state)
      (set_locked_mods (Z.lxor (locked_mods (ss_components sample_state)) Lock)
         (ss_components sample_state)).
Proof.
  apply (lock_mods_tap sample_keymap sample_state 4 4
    (action_key 4 (act_mods MOD_LOCK 0 (pure Lock))) 0 (pure Lock)); try reflexivity.
  - exact sample_keymap_ok.
  - by apply sample_event.
  - apply idle_init.
  - apply counts_ok_init.
  - apply counts_room_init.
Defined.



(** The new value of a group component, [apply_group_delta] on the fields of
    an action. *)
Definition group_after (fl g v : Z) : Z :=
  if has_flag fl ACTION_ABSOLUTE_SWITCH then g else i32 (v + g).

(** Tapping a SetGroup() key: the base group moves, then everything is as
    before. *)
Theorem set_group_tap km s kc i key fl g :
  keymap_ok km -> key_event km s kc i key ->
  idle_but (KeymapKey i) None (mk_sctx s None) -> counts_ok s -> counts_room s ->
  xkb_key_get_actions (ss_base s) key = [act_group GROUP_SET fl g] ->
  has_flag fl ACTION_LOCK_CLEAR = false ->
  exists ch1 s1 ch2 s2,
    xkb_state_update_key s kc KEY_DOWN = Ok (ch1, s1) /\
    xkb_state_update_key s1 kc KEY_UP = Ok (ch2, s2) /\
    base_group (ss_components s1) = group_after fl g (base_group (ss_components s)) /\
    ss_components s2 = ss_components s.
Proof.
  intros Hkm He Hidle Hok Hroom Hact Hfl.
  set (c := ss_components s).
  destruct (tap_gen km s kc i key Hkm He Hidle Hok Hroom (act_group GROUP_SET fl g) group_set_func
    (Some (u32 (base_group c))) 0 (set_base_group (group_after fl g (base_group c)) c) released
    (fun c1 => set_base_group (i32 (u32 (base_group c))) c1) Hact)
    as (ch1 & s1 & ch2 & s2 & Hd & Hu & Hc1 & Hc2 & _); try done.
  - intros j x f Hj Ha Hc. rewrite (group_set_new_eq x j f Hj fl g Ha), Hc.
    unfold apply_group_delta, f_flags. by rewrite Ha.
  - intros j x f Hj Ha Hk Hr Hp. rewrite <- (Hp _ eq_refl) at 1.
    by apply (group_set_up_eq x j f Hj) with fl g.
  - exists ch1, s1, ch2, s2. split; [done|]. split; [done|].
    split; [by rewrite Hc1; comps_simpl|].
    pose proof (ke_inv _ _ _ _ _ He) as [Hinv _].
    pose proof (cok_base_group _ (sok_components _ _ (inv_server _ _ _ _ _ Hinv))) as Hb.
    rewrite Hc2. apply (derived_back km s kc i key Hkm He); comps_simpl; rewrite ?Hc1; comps_simpl;
      try reflexivity; [by apply i32_u32|].
    rewrite (derived_locked km s kc i key Hkm He); reflexivity.
Qed.

Lemma set_group_tap_witness :
  exists ch1 s1 ch2 s2,
    xkb_state_update_key sample_state 7 KEY_DOWN = Ok (ch1, s1) /\
    xkb_state_update_key s1 7 KEY_UP = Ok (ch2, s2) /\
    base_group (ss_components s1) = group_after 0 1 (base_group (ss_components sample_state)) /\
    ss_components s2 = ss_components sample_state.
Proof.
  apply (set_group_tap sample_keymap sample_state 7 7
    (action_key 7 (act_group GROUP_SET 0 1)) 0 1); try reflexivity.
  - exact sample_keymap_ok.
  - by apply sample_event.
  - apply idle_init.
  - apply counts_ok_init.
  - apply counts_room_init.
Defined.

(** Tapping a LockGroup() key moves the locked group, wrapped into the range
    of the groups of the keymap, and nothing else. *)
Theorem lock_group_tap km s kc i key fl g :
  keymap_ok km -> key_event km s kc i key ->
  idle_but (KeymapKey i) None (mk_sctx s None) -> counts_ok s -> counts_room s ->
  xkb_key_get_actions (ss_base s) key = [act_group GROUP_LOCK fl g] ->
  has_flag fl ACTION_LOCK_ON_RELEASE = false -> is_i32 g ->
  exists ch1 s1 ch2 s2,
    xkb_state_update_key s kc KEY_DOWN = Ok (ch1, s1) /\
    xkb_state_update_key s1 kc KEY_UP = Ok (ch2, s2) /\
    ss_components s1 = ss_components s2 /\
    ss_components s2 = update_derived (ss_base s)
      (set_locked_group (group_after fl g (locked_group (ss_components s))) (ss_components s)) /\
    0 <= locked_group (ss_components s2) < Z.max 1 (km_num_groups km).
Proof.
  intros Hkm He Hidle Hok Hroom Hact Hfl Hg.
  set (c := ss_components s).
  destruct (tap_gen km s kc i key Hkm He Hidle Hok Hroom (act_group GROUP_LOCK fl g) group_lock_func
    None 0 (set_locked_group (group_after fl g (locked_group c)) c) released id Hact)
    as (ch1 & s1 & ch2 & s2 & Hd & Hu & Hc1 & Hc2 & _); try done.
  - intros j x f Hj Ha Hc. rewrite (group_lock_new_eq x j f Hj fl g Ha Hfl), Hc.
    unfold apply_group_delta, f_flags. by rewrite Ha.
  - intros j x f Hj Ha Hk Hr Hp. by apply (group_lock_up_eq x j f Hj) with fl g.
  - exists ch1, s1, ch2, s2. split; [done|]. split; [done|].
    pose proof (ke_inv _ _ _ _ _ He) as Hinv.
    assert (is_i32 (group_after fl g (locked_group c))) as Hi.
    { unfold group_after. destruct (has_flag fl ACTION_ABSOLUTE_SWITCH); [done | apply i32_range]. }
    assert (ss_components s1 = update_derived (ss_base s)
      (set_locked_group (group_after fl g (locked_group c)) c)) as Hc1'.
    { rewrite Hc1. apply update_derived_ext; comps_simpl; try reflexivity. apply Z.lor_0_r. }
    assert (ss_components s2 = ss_components s1) as Heq.
    { rewrite Hc2. transitivity (update_derived (ss_base s) (ss_components s1)).
      - apply update_derived_ext; comps_simpl; rewrite ?Hc1'; comps_simpl; reflexivity.
      - rewrite Hc1'. by apply (derived_twice km). }
    split; [done|]. rewrite Heq. split; [done|].
    pose proof (state_inv_groups km s Hkm Hinv) as Hgr.
    pose proof (inv_server _ _ _ _ _ (proj1 Hinv)) as Hs. pose proof (sok_keymap _ _ Hs) as Hk.
    rewrite <- Hk, Hc1'. apply (der_locked_range (ss_base s)), update_derived_ok; [done| |done].
    apply (sok_redirect _ _ Hs).
Qed.

Lemma lock_group_tap_witness :
  exists ch1 s1 ch2 s2,
    xkb_state_update_key sample_state 8 KEY_DOWN = Ok (ch1, s1) /\
    xkb_state_update_key s1 8 KEY_UP = Ok (ch2, s2) /\
    ss_components s1 = ss_components s2 /\
    ss_components s2 = update_derived (ss_base sample_state)
      (set_locked_group (group_after 0 1 (locked_group (ss_components sample_state)))
         (ss_components sample_state)) /\
    0 <= locked_group (ss_components s2) < Z.max 1 (km_num_groups sample_keymap).
Proof.
  apply (lock_group_tap sample_keymap sample_state 8 8
    (action_key 8 (act_group GROUP_LOCK 0 1)) 0 1); try reflexivity.
  - exact sample_keymap_ok.
  - by apply sample_event.
  - apply idle_init.
  - apply counts_ok_init.
  - apply counts_room_init.
  - unfold is_i32. lia.
Defined.

(** ** Latches are broken by the next action *)

Lemma mod_latch_break_eq clear_all x j f key fl m act :
  ss_filters (sc_state x) !! j = Some f ->
  f_action f = act_mods MOD_LATCH fl m -> f_priv f = LATCH_PENDING ->
  xkb_key_get_actions (ss_base (sc_state x)) (kp_key key) = [act] ->
  repeats_mod_latch (act_mods MOD_LATCH fl m) act
    (has_flag (controls (ss_components (sc_state x))) CONTROL_STICKY_KEYS) = false ->
  xkb_action_breaks_latch act INTERNAL_BREAKS_MOD_LATCH (m_mask m) = true ->
  let c := ss_components (sc_state x) in
  run_filter_func clear_all mod_latch_func j key KEY_DOWN x =
    Ok (FILTER_CONTINUE, after_release x j (f_set_func None f) 0
          (set_latched_mods (Z.ldiff (latched_mods c) (m_mask m)) c)).
Proof.
  intros Hj Ha Hp Hact Hrep Hbr. cbn [run_filter_func]. unfold xkb_filter_mod_latch_func, bind at 1.
  rewrite (get_filter_eq j f x Hj). cbv zeta. rewrite bool_decide_true by done.
  unfold bind at 1, gets. rewrite Hp, Hact. cbn [Z.eqb LATCH_PENDING LATCH_KEY_DOWN Pos.eqb].
  unfold bind at 1. cbn [mod_latch_pending]. rewrite Ha, Hrep.
  unfold f_mask. rewrite Ha. cbn [a_mask]. rewrite Hbr.
  unfold bind, clear_latched_mods, upd_comps, upd_state, modify.
  rewrite (upd_filter_eq j f) by exact Hj. unfold after_release, mid. cbv zeta. rewrite Z.lor_0_r.
  by destruct x as [[[]] ?].
Qed.

(** A pending latch is cleared by the press of a key whose action breaks
    latches, and its filter is free again. *)
Theorem mod_latch_broken km s kc i key j f fl m act :
  keymap_ok km -> key_event km s kc i key ->
  idle_but (KeymapKey i) (Some j) (mk_sctx s None) ->
  ss_filters s !! j = Some f -> f_func f = Some mod_latch_func ->
  f_action f = act_mods MOD_LATCH fl m -> f_priv f = LATCH_PENDING ->
  xkb_key_get_actions (ss_base s) key = [act] -> action_func act = None ->
  xkb_action_breaks_latch act INTERNAL_BREAKS_MOD_LATCH (m_mask m) = true ->
  exists ch s',
    xkb_state_update_key s kc KEY_DOWN = Ok (ch, s') /\
    ss_components s' = update_derived (ss_base s)
      (set_latched_mods (Z.ldiff (latched_mods (ss_components s)) (m_mask m)) (ss_components s)) /\
    ss_filters s' = <[j:=f_set_func None f]> (ss_filters s).
Proof.
  intros Hkm He Hidle Hj Hf Ha Hp Hact Hnone Hbr.
  pose proof (He) as [[Hinv _] Hm Hi Hkey Hs].
  pose proof (inv_server _ _ _ _ _ Hinv) as Hs0. cbn in Hs0.
  set (c' := set_latched_mods (Z.ldiff (latched_mods (ss_components s)) (m_mask m)) (ss_components s)).
  set (l' := <[j:=f_set_func None f]> (ss_filters s)).
  assert (xkb_filter_apply_all (mk_key_ptr (KeymapKey i) key) KEY_DOWN (mk_sctx (start s) None) =
    Ok (tt, mk_sctx (mid s (ss_alloc s) l' 0 0 c') None)) as Happly.
  { pose proof (fun ca => mod_latch_break_eq ca (mk_sctx (start s) None) j f (mk_key_ptr (KeymapKey i) key)
      fl m act Hj Ha Hp Hact ltac:(by destruct act as [| |[]|[]| | | | | | | | | | |]) Hbr) as Hrun.
    unfold xkb_filter_apply_all. cbn [apply_all]. unfold apply_all_with, bind at 1. cbn [gets].
    unfold bind at 1. pose proof (sok_alloc _ _ Hs0) as Hlen.
    rewrite (filters_loop_one _ _ 0 j f mod_latch_func (f_set_func None f) FILTER_CONTINUE false
      (mk_key_ptr (KeymapKey i) key) _ (mk_sctx (start s) None) _
      Hidle ltac:(lia) Hj Hf (Hrun _) eq_refl eq_refl) by (cbn; lia).
    rewrite bool_decide_false by done. cbn [orb]. unfold bind at 1. cbn [gets].
    assert (forall st, apply_actions (mk_key_ptr (KeymapKey i) key) [act] st = Ok (tt, st)) as Hacts.
    { intros st. cbn [apply_actions]. unfold apply_action, bind. by rewrite Hnone. }
    unfold after_release. cbn.
    (* the actions do not depend on the latched modifiers *)
    change (xkb_key_get_actions (st_set_components _ (ss_base s)) key)
      with (xkb_key_get_actions (ss_base s) key).
    rewrite Hact. apply Hacts. }
  eexists _, (finish (mid s (ss_alloc s) l' 0 0 c')).
  split; [by apply (update_key_eq km s kc i key He KEY_DOWN _ None)|].
  split; [|apply finish_filters]. rewrite finish_components, commit_mods_set.
  - rewrite (update_derived_state_ext (ss_base s)) by done.
    apply update_derived_ext; try reflexivity. cbn. by rewrite Z.lor_0_r.
  - apply is_u32_0.
  - apply is_u32_0.
  - apply (sok_counts _ _ Hs0).
  - done.
Qed.

(** The state after tapping the latch key of the sample keymap. *)
Definition result_state {A} (r : result (A * xkb_server_state)) (s : xkb_server_state)
    : xkb_server_state := match r with Ok (_, s') => s' | Fault _ => s end.
Definition press (kc : Z) (s : xkb_server_state) : xkb_server_state :=
  result_state (xkb_state_update_key s kc KEY_DOWN) s.
Definition release (kc : Z) (s : xkb_server_state) : xkb_server_state :=
  result_state (xkb_state_update_key s kc KEY_UP) s.

Lemma press_step s kc : press kc s = s \/ server_step s (press kc s).
Proof.
  unfold press. destruct (xkb_state_update_key s kc KEY_DOWN) as [[ch s']|] eqn:H; [right|by left].
  by eapply step_key.
Qed.

Lemma release_step s kc : release kc s = s \/ server_step s (release kc s).
Proof.
  unfold release. destruct (xkb_state_update_key s kc KEY_UP) as [[ch s']|] eqn:H; [right|by left].
  by eapply step_key.
Qed.

Lemma press_reachable km s kc : reachable km s -> reachable km (press kc s).
Proof. intros Hs. destruct (press_step s kc) as [->|]; [done|by eapply reachable_step]. Qed.

Lemma release_reachable km s kc : reachable km s -> reachable km (release kc s).
Proof. intros Hs. destruct (release_step s kc) as [->|]; [done|by eapply reachable_step]. Qed.

Lemma sample_reachable : reachable sample_keymap sample_state.
Proof. apply reachable_new. Qed.

Definition sample_latched : xkb_server_state := release 5 (press 5 sample_state).

Lemma sample_latched_inv : state_inv sample_keymap sample_latched.
Proof.
  apply (reachable_inv _ _ sample_keymap_ok), release_reachable, press_reachable, sample_reachable.
Qed.

Lemma mod_latch_broken_witness :
  exists ch s',
    xkb_state_update_key sample_latched 1 KEY_DOWN = Ok (ch, s') /\
    ss_components s' = update_derived (ss_base sample_latched)
      (set_latched_mods (Z.ldiff (latched_mods (ss_components sample_latched)) Shift)
         (ss_components sample_latched)) /\
    ss_filters s' = <[0%nat:=f_set_func None (default zero_filter (ss_filters sample_latched !! 0%nat))]>
                      (ss_filters sample_latched).
Proof.
  refine (mod_latch_broken sample_keymap sample_latched 1 1 (letter_key 1 0x61 0x41) 0
    (default zero_filter (ss_filters sample_latched !! 0%nat)) 0 (pure Shift) act_none
    _ _ _ _ _ _ _ _ _ _).
  - exact sample_keymap_ok.
  - split; [exact sample_latched_inv | vm_compute; reflexivity..].
  - intros k g Hg Hk. destruct k as [|k]; [exfalso; apply Hk; reflexivity|].
    vm_compute in Hg. discriminate Hg.
  - vm_compute. reflexivity.
  - vm_compute. reflexivity.
  - vm_compute. reflexivity.
  - vm_compute. reflexivity.
  - vm_compute. reflexivity.
  - reflexivity.
  - reflexivity.
Defined.

(** ** Safety *)





(** The other two updates never fault. *)
Theorem update_latched_locked_total km s al l affect_latched ll ak k affect_locked lk :
  keymap_ok km -> reachable km s -> is_i32 ll -> is_i32 lk ->
  exists changed s',
    xkb_state_update_latched_locked s al l affect_latched ll ak k affect_locked lk =
      Ok (changed, s') /\ state_inv km s'.
Proof.
  intros Hkm Hr Hll Hlk. pose proof (reachable_inv km s Hkm Hr) as Hs.
  pose proof (run_legacy_updates km _ _ s Hs
    (update_latched_locked_updates km false Hkm al l affect_latched ll ak k affect_locked lk Hll Hlk)) as H.
  unfold xkb_state_update_latched_locked. destruct (run_legacy _ s) as [[ch s']|f]; [eauto | done].
Qed.

Lemma update_latched_locked_total_witness :
  exists changed s',
    xkb_state_update_latched_locked sample_latched 0 0 true (-7) Lock Lock true 1 =
      Ok (changed, s') /\ state_inv sample_keymap s'.
Proof.
  apply (update_latched_locked_total sample_keymap).
  - exact sample_keymap_ok.
  - exact (release_reachable _ _ _ (press_reachable _ _ _ sample_reachable)).
  - unfold is_i32. lia.
  - unfold is_i32. lia.
Defined.

(** An update by a client structure never faults; the state is untouched by one
    that is refused. *)
Theorem update_synthetic_total km s u :
  keymap_ok km -> reachable km s -> state_update_ok u ->
  exists e changed s',
    xkb_state_update_synthetic s u = Ok ((e, changed), s') /\ state_inv km s' /\
    (e <> XKB_SUCCESS -> ss_components s' = ss_components s /\ changed = 0).
Proof.
  intros Hkm Hr Hu. pose proof (reachable_inv km s Hkm Hr) as Hs.
  pose proof (run_legacy_updates km _ _ s Hs (update_synthetic_updates km false Hkm u Hu)) as H.
  assert (wp (update_synthetic u) (mk_sctx s None) (fun _ => True) (fun r x' =>
    fst r <> XKB_SUCCESS -> ss_components (sc_state x') = ss_components s /\ snd r = 0)) as He.
  { unfold update_synthetic. apply wp_bind, wp_gets. destruct (negb _); [by apply wp_ret|].
    apply wp_bind, wp_gets, wp_bind.
    assert (wp (apply_state_update u) (mk_sctx s None) (fun _ => True)
      (fun e x' => e <> XKB_SUCCESS -> x' = mk_sctx s None)) as Hw.
    { unfold apply_state_update. destruct (check_state_update_abi u); try by apply wp_ret.
      apply wp_bind. set (m := match su_layout_policy u with Some _ => _ | None => _ end).
      assert (wp m (mk_sctx s None) (fun _ => True)
        (fun e x' => e = XKB_SUCCESS \/ x' = mk_sctx s None)) as Hm.
      { subst m. destruct (su_layout_policy u) as [[h lp]|]; [|by apply wp_ret; left].
        eapply wp_mono; [apply (layout_policy_error lp) | done | done]. }
      eapply wp_mono; [exact Hm | done |]. intros e x' He.
      destruct e; try (apply wp_ret; intros _; destruct He as [He|He]; [discriminate He | exact He]).
      apply wp_bind. unfold wp at 1.
      match goal with |- match ?m0 x' with _ => _ end => destruct (m0 x') as [[? x1]|]; [|done] end.
      apply wp_bind, wp_modify, wp_ret. done. }
    eapply wp_mono; [exact Hw | done |]. intros e x' He. apply wp_bind, wp_gets, wp_ret. cbn.
    intros Hne. rewrite (He Hne). split; [done|]. by destruct e. }
  unfold xkb_state_update_synthetic. unfold run_legacy in *. unfold wp in He.
  destruct (update_synthetic u (mk_sctx s None)) as [[[e ch] x']|f]; [|done].
  exists e, ch, (sc_state x'). done.
Qed.

(** An update of the sample: a policy and a locked modifier. *)
Definition sample_update : state_update :=
  mk_state_update (mk_abi 24 (repeat 0 24))
    (Some (mk_abi 48 (repeat 0 48), mk_components_update 0 0 0 Lock Lock 0 0 0 0))
    (Some (mk_abi 16 (repeat 0 16), mk_layout_policy 1 0)).

Lemma update_synthetic_total_witness :
  exists e changed s',
    xkb_state_update_synthetic sample_state sample_update = Ok ((e, changed), s') /\
    state_inv sample_keymap s' /\
    (e <> XKB_SUCCESS -> ss_components s' = ss_components sample_state /\ changed = 0).
Proof.
  apply (update_synthetic_total sample_keymap).
  - exact sample_keymap_ok.
  - exact sample_reachable.
  - intros h cu [= <- <-]. split; unfold is_i32; cbn; lia.
Defined.

(** A reachable state and a release that use a filter after the array moved. *)
Definition full_state : xkb_server_state :=
  press 10 (press 8 (press 7 (press 13 (release 10 (press 10 sample_state))))).


(** ** Counted modifiers *)

(** The end of a key event counts the keys of each modifier: the modifiers the
    handlers set are one key more, those they clear one key less, and a
    modifier is depressed exactly while its count is positive. *)
Theorem commit_mods_counted s :
  is_u32 (ss_set_mods s) -> is_u32 (ss_clear_mods s) ->
  length (ss_mod_key_count s) = XKB_MAX_MODS -> counts_ok s -> counts_room s ->
  counts_ok (commit_mods s) /\
  forall j : nat,
    count_at (ss_mod_key_count (commit_mods s)) j =
      Z.max 0 (count_at (ss_mod_key_count s) j
               + Z.b2z (Z.testbit (ss_set_mods s) (Z.of_nat j))
               - Z.b2z (Z.testbit (ss_clear_mods s) (Z.of_nat j))).
Proof.
  intros Hset Hclear Hlen Hok Hroom. split; [by apply commit_mods_counts_ok|]. intros j.
  destruct (commit_mods_bits s Hset Hclear Hlen) as [_ H]. destruct (H j) as [-> _].
  pose proof (co_pos s Hok j). pose proof (Hroom j) as Hr. cbn in Hr.
  unfold count_after. set (n := count_at (ss_mod_key_count s) j) in *. clearbody n. clear H.
  destruct (Z.testbit (ss_set_mods s) _), (Z.testbit (ss_clear_mods s) _); cbn [Z.b2z];
    rewrite ?(i16_small (n + 1)) by lia; rewrite ?i16_small by lia; lia.
Qed.

Lemma commit_mods_counted_witness :
  let s := ss_set_set_mods Shift sample_state in
  counts_ok (commit_mods s) /\
  forall j : nat,
    count_at (ss_mod_key_count (commit_mods s)) j =
      Z.max 0 (count_at (ss_mod_key_count s) j
               + Z.b2z (Z.testbit (ss_set_mods s) (Z.of_nat j))
               - Z.b2z (Z.testbit (ss_clear_mods s) (Z.of_nat j))).
Proof.
  apply (commit_mods_counted (ss_set_set_mods Shift sample_state)).
  - by apply is_u32_check.
  - apply is_u32_0.
  - reflexivity.
  - destruct (counts_ok_init sample_keymap LEGACY_MIXED_STATE 0 0) as [H1 H2]. by split.
  - exact (counts_room_init sample_keymap LEGACY_MIXED_STATE 0 0).
Defined.

(** ** The mask returned by [xkb_state_update_key] *)

(** The returned mask has the bit of each component that changed, unless the
    event switched the sticky keys off beforehand. *)
Theorem update_key_mask s kc d changed s' :
  breaks_sticky_keys s d = false ->
  xkb_state_update_key s kc d = Ok (changed, s') ->
  forall b, 0 <= b ->
    Z.testbit changed b = changed_bit (ss_components s) (ss_components s') b.
Proof.
  intros Hbr Hupd b Hb.
  enough (changed = get_state_component_changes (ss_components s) (ss_components s')) as ->
    by by apply changes_testbit.
  assert (0 = get_state_component_changes (ss_components s) (ss_components s)) as H0
    by (symmetry; by apply changes_zero).
  unfold xkb_state_update_key, run_legacy, update_key in Hupd.
  unfold bind at 1 in Hupd. cbn [gets sc_state] in Hupd.
  destruct (negb _); [by injection Hupd as <- <-|]. cbv zeta in Hupd.
  destruct (XkbKey _ kc) as [i|]; [|by injection Hupd as <- <-].
  destruct (key_at _ i) as [key|]; [|done].
  destruct (_ && _); [by injection Hupd as <- <-|].
  rewrite Hbr in Hupd. unfold bind, get_comps, gets, ret in Hupd. cbn [sc_state] in Hupd.
  destruct (process_key_actions _ d _) as [[[] x']|]; [|done].
  by injection Hupd as <- <-.
Qed.

Lemma update_key_mask_witness :
  Z.testbit (2 ^ 0 + 2 ^ 3) 3 =
    changed_bit (ss_components sample_state) (ss_components (press 2 sample_state)) 3.
Proof.
  refine (update_key_mask sample_state 2 KEY_DOWN (2 ^ 0 + 2 ^ 3) (press 2 sample_state) _ _ 3 _).
  - reflexivity.
  - vm_compute. reflexivity.
  - lia.
Defined.

(** Otherwise the change of the controls is not reported. *)
Definition sticky_once : xkb_server_state :=
  press 2 (release 10 (press 10
    (xkb_server_state_init sample_keymap LEGACY_MIXED_STATE 0
       XKB_A11Y_STICKY_KEYS_NO_SIMULTANEOUS_KEYS))).

(** A press that switches the sticky keys off does not report the change of the
    controls. *)
Theorem update_key_mask_misses_controls :
  exists changed s',
    xkb_state_update_key sticky_once 1 KEY_DOWN = Ok (changed, s') /\
    controls (ss_components s') <> controls (ss_components sticky_once) /\
    has_flag changed XKB_STATE_CONTROLS = false.
Proof.
  destruct (xkb_state_update_key sticky_once 1 KEY_DOWN) as [[ch s']|f] eqn:H.
  - exists ch, s'. split; [done|]. vm_compute in H. injection H as <- <-.
    split; [|reflexivity]. vm_compute. discriminate.
  - exfalso. revert H. vm_compute. discriminate.
Qed.

(** ** The size check of versioned structs *)

(** A struct is accepted when its size is in range and no byte beyond those the
    library knows is set; each error has its situation. *)
Theorem check_versioned_struct_size_spec v1 min meaningful size bytes :
  0 <= meaningful -> Z.of_nat (length bytes) = size ->
  match xkb_check_versioned_struct_size v1 min meaningful size bytes with
  | XKB_SUCCESS => v1 <= size <= XKB_ABI_MAX_SIZE /\ min <= size /\
      (forall i b, meaningful <= i -> item bytes i = Some b -> b = 0)
  | XKB_ERROR_ABI_INVALID_STRUCT_SIZE => size < v1 \/ XKB_ABI_MAX_SIZE < size
  | XKB_ERROR_ABI_BACKWARD_COMPAT => v1 <= size < min
  | XKB_ERROR_ABI_FORWARD_COMPAT =>
      exists i b, meaningful <= i /\ item bytes i = Some b /\ b <> 0
  | _ => False
  end.
Proof.
  intros Hm Hlen. unfold xkb_check_versioned_struct_size. rewrite Z.gtb_ltb.
  destruct (Z.ltb_spec size v1); [by left|].
  destruct (Z.ltb_spec XKB_ABI_MAX_SIZE size); [by right|]. cbn [orb].
  destruct (Z.ltb_spec size min); [done|].
  destruct (Z.leb_spec size meaningful).
  { split; [done|]. split; [done|]. intros i b Hi Hb. apply item_lt in Hb. lia. }
  rewrite take_ge by lia. destruct (forallb _ _) eqn:Hf.
  - split; [done|]. split; [done|]. intros i b Hi [_ Hb]%item_Some.
    rewrite forallb_forall in Hf. apply Z.eqb_eq, Hf, list_elem_of_In.
    apply list_elem_of_lookup. exists (Z.to_nat i - Z.to_nat meaningful)%nat.
    rewrite lookup_drop. by replace (Z.to_nat meaningful + (Z.to_nat i - Z.to_nat meaningful))%nat
      with (Z.to_nat i) by lia.
  - apply not_true_iff_false in Hf. rewrite forallb_forall in Hf.
    assert (exists b, b ∈ drop (Z.to_nat meaningful) bytes /\ b <> 0) as (b & Hb & Hne).
    { clear -Hf. induction (drop (Z.to_nat meaningful) bytes) as [|b l IH].
      - by destruct Hf.
      - destruct (decide (b = 0)) as [->|Hne]; [|exists b; split; [by left|done]].
        destruct IH as (b' & ? & ?); [|exists b'; split; [by right|done]].
        intros H. apply Hf. intros x [<-|Hx]; [done|auto]. }
    apply list_elem_of_lookup in Hb as [k Hk]. rewrite lookup_drop in Hk.
    exists (Z.of_nat (Z.to_nat meaningful + k)), b. split; [lia|]. split; [|done].
    apply item_Some. split; [lia|]. by rewrite Nat2Z.id.
Qed.

Lemma check_versioned_struct_size_spec_witness :
  exists i b, 44 <= i /\ item (repeat 0 47 ++ [1]) i = Some b /\ b <> 0.
Proof.
  exact (check_versioned_struct_size_spec 48 48 44 48 (repeat 0 47 ++ [1]) ltac:(lia) eq_refl).
Defined.
