(* ===== verification/Utf8.v ===== *)
(** * UTF-8 (src/utf8.c, src/utf8-decoding.c)

    Encoding of a code point, validation of a byte string, decoding of the
    next code point.  Bytes are integers between 0 and 255 (the [uint8_t] view
    of a [char]); a C string is the list of its bytes. *)

From Stdlib Require Import ZArith Lia.
From stdpp Require Import base tactics list numbers.
From S2P Require Import Prelude Keymap.

(** ** Definitions *)

(** src/utils.h *)
Definition is_surrogate (cp : Z) : bool := (cp >=? 0xd800) && (cp <=? 0xdfff).

(** [0x80 | ((unichar >> shift) & 0x3f)] *)
Definition tail_byte (u shift : Z) : Z := Z.lor 0x80 (Z.land (Z.shiftr u shift) 0x3f).

(** The loop that fills [buffer[count]] for [count] from [length - 1] down to
    1; the bytes are listed in order. *)
Fixpoint tail_bytes_loop (count : nat) (u shift : Z) (acc : list Z) : Z * list Z :=
  match count with
  | O => (shift, acc)
  | S count => tail_bytes_loop count u (shift + 6) (tail_byte u shift :: acc)
  end.

Definition utf32_encode (length : nat) (head u : Z) : Z * list Z :=
  let '(shift, tail) := tail_bytes_loop (length - 1) u 0 [] in
  (Z.of_nat length + 1, Z.lor head (Z.land (Z.shiftr u shift) 0x3f) :: tail ++ [0]).

(** The returned size and the bytes written. *)
Definition utf32_to_utf8 (u : Z) : Z * list Z :=
  if u <=? 0x7f then (2, [u; 0])
  else if u <=? 0x7ff then utf32_encode 2 0xc0 u
  else if is_surrogate u then (0, [0])
  else if u <=? 0xffff then utf32_encode 3 0xe0 u
  else if u <=? 0x10ffff then utf32_encode 4 0xf0 u
  else (0, [0]).

Definition in_range (lo hi b : Z) : bool := (b >=? lo) && (b <=? hi).

(** [while (i < len && tail_bytes > 0 && ...)] *)
Fixpoint skip_tail (tail_bytes : nat) (s : list Z) : nat * list Z :=
  match tail_bytes, s with
  | S n, b :: s' => if in_range 0x80 0xbf b then skip_tail n s' else (tail_bytes, s)
  | _, _ => (tail_bytes, s)
  end.

(** The head of a sequence: the number of tail bytes and the bytes after the
    head, or [None] where the function returns false. *)
Definition second_byte (lo hi : Z) (tail_bytes : nat) (s : list Z) : option (nat * list Z) :=
  match s with
  | b :: s' => if in_range lo hi b then Some (tail_bytes, s') else None
  | [] => None
  end.

Definition utf8_head (b : Z) (s : list Z) : option (nat * list Z) :=
  if b <=? 0x7f then Some (0%nat, s)
  else if in_range 0xc2 0xdf b then Some (1%nat, s)
  else if b =? 0xe0 then second_byte 0xa0 0xbf 1 s
  else if in_range 0xe1 0xec b then Some (2%nat, s)
  else if b =? 0xed then second_byte 0x80 0x9f 1 s
  else if in_range 0xee 0xef b then Some (2%nat, s)
  else if b =? 0xf0 then second_byte 0x90 0xbf 2 s
  else if in_range 0xf1 0xf3 b then Some (3%nat, s)
  else if b =? 0xf4 then second_byte 0x80 0x8f 2 s
  else None.

(** The main loop; [s] holds the bytes from index [i] on. *)
Fixpoint is_valid_utf8_loop (fuel : nat) (s : list Z) : bool :=
  match s with
  | [] => true
  | b :: s' =>
      match fuel with
      | O => false
      | S fuel =>
          match utf8_head b s' with
          | None => false
          | Some (n, s'') =>
              let '(n, rest) := skip_tail n s'' in
              if Nat.eqb n 0 then is_valid_utf8_loop fuel rest else false
          end
      end
  end.

Definition is_valid_utf8 (s : list Z) : bool := is_valid_utf8_loop (length s) s.

Definition INVALID_UTF8_CODE_POINT : Z := 0xffffffff.

(** The table [utf8_sequence_length_by_leading_byte], by ranges. *)
Definition utf8_sequence_length (b : Z) : Z :=
  if b <=? 0x7f then 1
  else if b <=? 0xc1 then 0
  else if b <=? 0xdf then 2
  else if b <=? 0xef then 3
  else if b <=? 0xf4 then 4
  else 0.

Fixpoint next_cp_loop (n : nat) (s : list Z) (cp : Z) : option Z :=
  match n, s with
  | O, _ => Some cp
  | S n, b :: s =>
      if negb (Z.land b 0xc0 =? 0x80) then None
      else next_cp_loop n s (Z.lor (u32 (Z.shiftl cp 6)) (Z.land b 0x3f))
  | S _, [] => None
  end.

(** The code point and [*size_out].  The first byte is read whatever
    [max_size] is. *)
Definition utf8_next_code_point (s : list Z) (max_size : Z) : option (Z * Z) :=
  match s with
  | [] => None
  | b :: rest =>
      let len := utf8_sequence_length b in
      if (max_size =? 0) || (len >? max_size) then Some (INVALID_UTF8_CODE_POINT, 0)
      else if len =? 1 then Some (b, 1)
      else if len =? 0 then Some (INVALID_UTF8_CODE_POINT, 0)
      else
        let mask := if len =? 2 then 0x1f else if len =? 3 then 0x0f else 0x07 in
        match next_cp_loop (Z.to_nat len - 1) rest (Z.land b mask) with
        | None => Some (INVALID_UTF8_CODE_POINT, 0)
        | Some cp =>
            if is_surrogate cp then Some (INVALID_UTF8_CODE_POINT, 0) else Some (cp, len)
        end
  end.

(** ** Arithmetic of the encodings *)

(** Unicode scalar values. *)
Definition scalar (u : Z) : Prop := 0 <= u <= 0x10ffff /\ ~ (0xd800 <= u <= 0xdfff).

(** The bytes of a scalar value: what [utf32_to_utf8] writes before the NUL. *)
Definition encode (u : Z) : list Z :=
  if u <=? 0x7f then [u]
  else if u <=? 0x7ff then [0xc0 + u / 64; 0x80 + u mod 64]
  else if u <=? 0xffff then [0xe0 + u / 4096; 0x80 + u / 64 mod 64; 0x80 + u mod 64]
  else [0xf0 + u / 262144; 0x80 + u / 4096 mod 64; 0x80 + u / 64 mod 64; 0x80 + u mod 64].

Lemma lor_small (h x : Z) (n : nat) :
  forallb (fun i => Z.lor h (Z.of_nat i) =? h + Z.of_nat i) (seq 0 n) = true ->
  0 <= x < Z.of_nat n -> Z.lor h x = h + x.
Proof.
  intros H Hx. rewrite forallb_forall in H. specialize (H (Z.to_nat x)).
  rewrite Z2Nat.id in H by lia. apply Z.eqb_eq, H, in_seq. lia.
Qed.

Lemma land_63 x : Z.land x 0x3f = x mod 64.
Proof. apply (Z.land_ones x 6). lia. Qed.

Lemma shiftr_6k u k : 0 <= k -> Z.shiftr u (6 * k) = u / 2 ^ (6 * k).
Proof. intros. apply Z.shiftr_div_pow2. lia. Qed.

Lemma tail_byte_eq u s : 0 <= s -> tail_byte u s = 0x80 + (u / 2 ^ s) mod 64.
Proof.
  intros. unfold tail_byte. rewrite land_63, Z.shiftr_div_pow2 by done.
  apply (lor_small 0x80 _ 64); [reflexivity | apply Z.mod_pos_bound; lia].
Qed.

Lemma is_surrogate_spec u : is_surrogate u = true <-> 0xd800 <= u <= 0xdfff.
Proof. unfold is_surrogate. rewrite andb_true_iff, Z.geb_leb, !Z.leb_le. lia. Qed.

(** [utf32_to_utf8] is the arithmetic encoding, with a NUL. *)
Lemma utf32_to_utf8_scalar u :
  scalar u -> utf32_to_utf8 u = (Z.of_nat (length (encode u)) + 1, encode u ++ [0]).
Proof.
  intros [Hr Hs]. unfold utf32_to_utf8, encode.
  destruct (Z.leb_spec u 0x7f); [done|].
  destruct (Z.leb_spec u 0x7ff).
  { unfold utf32_encode. cbn [tail_bytes_loop Nat.sub]. rewrite tail_byte_eq by lia.
    rewrite land_63, Z.shiftr_div_pow2 by lia. change (2 ^ (0 + 6)) with 64. change (2 ^ 0) with 1.
    rewrite Z.div_1_r, (Z.mod_small (u / 64)) by (Z.to_euclidean_division_equations; lia).
    rewrite (lor_small 0xc0 _ 32); [done | reflexivity | Z.to_euclidean_division_equations; lia]. }
  destruct (is_surrogate u) eqn:Hsur; [apply is_surrogate_spec in Hsur; lia|].
  destruct (Z.leb_spec u 0xffff).
  { unfold utf32_encode. cbn [tail_bytes_loop Nat.sub]. rewrite !tail_byte_eq by lia.
    rewrite land_63, Z.shiftr_div_pow2 by lia. change (2 ^ (0 + 6 + 6)) with 4096.
    change (2 ^ (0 + 6)) with 64. change (2 ^ 0) with 1.
    rewrite Z.div_1_r, (Z.mod_small (u / 4096)) by (Z.to_euclidean_division_equations; lia).
    rewrite (lor_small 0xe0 _ 16); [done | reflexivity | Z.to_euclidean_division_equations; lia]. }
  destruct (Z.leb_spec u 0x10ffff); [|lia].
  unfold utf32_encode. cbn [tail_bytes_loop Nat.sub]. rewrite !tail_byte_eq by lia.
  rewrite land_63, Z.shiftr_div_pow2 by lia. change (2 ^ (0 + 6 + 6 + 6)) with 262144.
  change (2 ^ (0 + 6 + 6)) with 4096. change (2 ^ (0 + 6)) with 64. change (2 ^ 0) with 1.
  rewrite Z.div_1_r, (Z.mod_small (u / 262144)) by (Z.to_euclidean_division_equations; lia).
  rewrite (lor_small 0xf0 _ 8); [done | reflexivity | Z.to_euclidean_division_equations; lia].
Qed.

(** ** Validation *)

Definition is_byte (b : Z) : Prop := 0 <= b < 256.

Lemma in_range_spec lo hi b : in_range lo hi b = true <-> lo <= b <= hi.
Proof. unfold in_range. rewrite andb_true_iff, Z.geb_leb, !Z.leb_le. lia. Qed.

Lemma in_range_true lo hi b : lo <= b <= hi -> in_range lo hi b = true.
Proof. apply in_range_spec. Qed.
Lemma in_range_false lo hi b : b < lo \/ hi < b -> in_range lo hi b = false.
Proof. intros H. apply not_true_is_false. rewrite in_range_spec. lia. Qed.

Ltac eucl := Z.to_euclidean_division_equations; lia.

(** One step of the validation loop consumes one encoded scalar value. *)
Definition step (b : Z) (s : list Z) : option (list Z) :=
  match utf8_head b s with
  | Some (n, s'') => match skip_tail n s'' with (O, rest) => Some rest | _ => None end
  | None => None
  end.

Ltac range_tests :=
  repeat match goal with
  | |- context [?a <=? ?b] => destruct (Z.leb_spec a b); try eucl
  | |- context [in_range ?lo ?hi ?b] =>
      first [ rewrite (in_range_true lo hi b) by eucl
            | rewrite (in_range_false lo hi b) by eucl ]
  | |- context [?a =? ?b] =>
      first [ rewrite (proj2 (Z.eqb_neq a b)) by eucl
            | rewrite (proj2 (Z.eqb_eq a b)) by eucl ]
  end.

Ltac tail_ok :=
  repeat (cbn [second_byte skip_tail]; rewrite in_range_true by eucl); done.

Lemma step_encode2 u s : 0x7f < u <= 0x7ff -> step (0xc0 + u / 64) ((0x80 + u mod 64) :: s) = Some s.
Proof. intros Hu. unfold step, utf8_head. range_tests. tail_ok. Qed.

Lemma step_encode3 u s : 0x7ff < u <= 0xffff -> ~ (0xd800 <= u <= 0xdfff) ->
  step (0xe0 + u / 4096) ((0x80 + u / 64 mod 64) :: (0x80 + u mod 64) :: s) = Some s.
Proof.
  intros Hu Hs. unfold step, utf8_head.
  assert (u / 4096 = 0 \/ 1 <= u / 4096 <= 12 \/ u / 4096 = 13 \/ 14 <= u / 4096 <= 15)
    as [H|[H|[H|H]]] by eucl; range_tests; tail_ok.
Qed.

Lemma step_encode4 u s : 0xffff < u <= 0x10ffff ->
  step (0xf0 + u / 262144)
    ((0x80 + u / 4096 mod 64) :: (0x80 + u / 64 mod 64) :: (0x80 + u mod 64) :: s) = Some s.
Proof.
  intros Hu. unfold step, utf8_head.
  assert (u / 262144 = 0 \/ 1 <= u / 262144 <= 3 \/ u / 262144 = 4)
    as [H|[H|H]] by eucl; range_tests; tail_ok.
Qed.

Lemma encode_cons u : scalar u -> exists b l, encode u = b :: l.
Proof. intros _. unfold encode. repeat destruct (_ <=? _); eauto. Qed.

Lemma step_encode u s b l :
  scalar u -> encode u = b :: l -> step b (l ++ s) = Some s.
Proof.
  intros [Hr Hs]. unfold encode.
  destruct (Z.leb_spec u 0x7f).
  { intros [= <- <-]. unfold step, utf8_head. destruct (Z.leb_spec u 0x7f); [done|lia]. }
  destruct (Z.leb_spec u 0x7ff); [intros [= <- <-]; apply step_encode2; lia|].
  destruct (Z.leb_spec u 0xffff); intros [= <- <-]; [apply step_encode3; lia | apply step_encode4; lia].
Qed.

(** Conversely a step reads the encoding of a scalar value. *)
Lemma encode2 b c : 0xc2 <= b <= 0xdf -> 0x80 <= c <= 0xbf ->
  scalar ((b - 0xc0) * 64 + (c - 0x80)) /\ encode ((b - 0xc0) * 64 + (c - 0x80)) = [b; c].
Proof.
  intros Hb Hc. split; [unfold scalar; lia|]. unfold encode.
  destruct (Z.leb_spec ((b - 0xc0) * 64 + (c - 0x80)) 0x7f); [lia|].
  destruct (Z.leb_spec ((b - 0xc0) * 64 + (c - 0x80)) 0x7ff); [|lia].
  f_equal; [eucl | f_equal; eucl].
Qed.

Lemma encode3 b c d :
  0xe0 <= b <= 0xef -> 0x80 <= c <= 0xbf -> 0x80 <= d <= 0xbf ->
  (b = 0xe0 -> 0xa0 <= c) -> (b = 0xed -> c <= 0x9f) ->
  let u := (b - 0xe0) * 4096 + (c - 0x80) * 64 + (d - 0x80) in
  scalar u /\ encode u = [b; c; d].
Proof.
  intros Hb Hc Hd H1 H2. cbv zeta. set (u := _ + _ + _).
  assert (0x7ff < u <= 0xffff /\ ~ (0xd800 <= u <= 0xdfff)) as [Hu Hs] by (subst u; lia).
  split; [unfold scalar; lia|]. unfold encode.
  destruct (Z.leb_spec u 0x7f); [lia|]. destruct (Z.leb_spec u 0x7ff); [lia|].
  destruct (Z.leb_spec u 0xffff); [|lia].
  assert (u / 4096 = b - 0xe0 /\ u / 64 mod 64 = c - 0x80 /\ u mod 64 = d - 0x80)
    as (-> & -> & ->) by (subst u; split; [|split]; eucl).
  repeat (f_equal; try lia).
Qed.

Lemma encode4 b c d e :
  0xf0 <= b <= 0xf4 -> 0x80 <= c <= 0xbf -> 0x80 <= d <= 0xbf -> 0x80 <= e <= 0xbf ->
  (b = 0xf0 -> 0x90 <= c) -> (b = 0xf4 -> c <= 0x8f) ->
  let u := (b - 0xf0) * 262144 + (c - 0x80) * 4096 + (d - 0x80) * 64 + (e - 0x80) in
  scalar u /\ encode u = [b; c; d; e].
Proof.
  intros Hb Hc Hd He H1 H2. cbv zeta. set (u := _ + _ + _).
  assert (0xffff < u <= 0x10ffff) as Hu by (subst u; lia).
  split; [unfold scalar; lia|]. unfold encode.
  destruct (Z.leb_spec u 0x7f); [lia|]. destruct (Z.leb_spec u 0x7ff); [lia|].
  destruct (Z.leb_spec u 0xffff); [lia|].
  assert (u / 262144 = b - 0xf0 /\ u / 4096 mod 64 = c - 0x80 /\
          u / 64 mod 64 = d - 0x80 /\ u mod 64 = e - 0x80)
    as (-> & -> & -> & ->) by (subst u; split; [|split; [|split]]; eucl).
  repeat (f_equal; try lia).
Qed.

Lemma skip_tail_full n s rest : skip_tail n s = (0%nat, rest) ->
  exists t, s = t ++ rest /\ length t = n /\ Forall (fun b => 0x80 <= b <= 0xbf) t.
Proof.
  revert s. induction n as [|n IH]; intros s; cbn.
  - intros [= ->]. by exists [].
  - destruct s as [|b s]; [done|]. destruct (in_range 0x80 0xbf b) eqn:Hb; [|done].
    intros (t & -> & Hl & Ht)%IH. exists (b :: t). apply in_range_spec in Hb.
    split; [done|]. split; [cbn; lia|]. by constructor.
Qed.

Lemma second_byte_Some lo hi n s m s' : second_byte lo hi n s = Some (m, s') ->
  m = n /\ exists c, lo <= c <= hi /\ s = c :: s'.
Proof.
  unfold second_byte. destruct s as [|c s]; [done|]. destruct (in_range lo hi c) eqn:H; [|done].
  intros [= <- <-]. split; [done|]. exists c. by apply in_range_spec in H.
Qed.

Lemma step_decode b s rest :
  is_byte b -> step b s = Some rest -> exists u, scalar u /\ b :: s = encode u ++ rest.
Proof.
  intros Hb. unfold step. destruct (utf8_head b s) as [[n s1]|] eqn:Hh; [|done].
  destruct (skip_tail n s1) as [[|?] ?] eqn:Hs; [|done]. intros [= ->].
  apply skip_tail_full in Hs as (t & -> & Hl & Ht). unfold utf8_head in Hh.
  assert (forall bs, bs ++ rest = b :: s -> (exists u, scalar u /\ encode u = bs) ->
    exists u, scalar u /\ b :: s = encode u ++ rest) as Hfin.
  { intros bs <- (u & Hu & <-). by exists u. }
  destruct (Z.leb_spec b 0x7f).
  { injection Hh as <- ->. destruct t; [|done]. apply (Hfin [b]); [done|].
    exists b. split; [unfold scalar, is_byte in *; lia|]. unfold encode.
    destruct (Z.leb_spec b 0x7f); [done|lia]. }
  destruct (in_range 0xc2 0xdf b) eqn:H1.
  { apply in_range_spec in H1. injection Hh as <- ->. destruct t as [|c [|]]; try done.
    apply Forall_cons_1 in Ht as [Hc _]. apply (Hfin [b; c]); [done|]. eexists. by apply encode2. }
  destruct (Z.eqb_spec b 0xe0) as [->|].
  { apply second_byte_Some in Hh as (-> & c & Hc & ->). destruct t as [|d [|]]; try done.
    apply Forall_cons_1 in Ht as [Hd _]. apply (Hfin [0xe0; c; d]); [done|].
    eexists. apply encode3; lia. }
  destruct (in_range 0xe1 0xec b) eqn:H2.
  { apply in_range_spec in H2. injection Hh as <- ->. destruct t as [|c [|d [|]]]; try done.
    apply Forall_cons_1 in Ht as [Hc [Hd _]%Forall_cons_1].
    apply (Hfin [b; c; d]); [done|]. eexists. apply encode3; lia. }
  destruct (Z.eqb_spec b 0xed) as [->|].
  { apply second_byte_Some in Hh as (-> & c & Hc & ->). destruct t as [|d [|]]; try done.
    apply Forall_cons_1 in Ht as [Hd _]. apply (Hfin [0xed; c; d]); [done|].
    eexists. apply encode3; lia. }
  destruct (in_range 0xee 0xef b) eqn:H3.
  { apply in_range_spec in H3. injection Hh as <- ->. destruct t as [|c [|d [|]]]; try done.
    apply Forall_cons_1 in Ht as [Hc [Hd _]%Forall_cons_1].
    apply (Hfin [b; c; d]); [done|]. eexists. apply encode3; lia. }
  destruct (Z.eqb_spec b 0xf0) as [->|].
  { apply second_byte_Some in Hh as (-> & c & Hc & ->). destruct t as [|d [|e [|]]]; try done.
    apply Forall_cons_1 in Ht as [Hd [He _]%Forall_cons_1].
    apply (Hfin [0xf0; c; d; e]); [done|]. eexists. apply encode4; lia. }
  destruct (in_range 0xf1 0xf3 b) eqn:H4.
  { apply in_range_spec in H4. injection Hh as <- ->. destruct t as [|c [|d [|e [|]]]]; try done.
    apply Forall_cons_1 in Ht as [Hc [Hd [He _]%Forall_cons_1]%Forall_cons_1].
    apply (Hfin [b; c; d; e]); [done|]. eexists. apply encode4; lia. }
  destruct (Z.eqb_spec b 0xf4) as [->|]; [|done].
  apply second_byte_Some in Hh as (-> & c & Hc & ->). destruct t as [|d [|e [|]]]; try done.
  apply Forall_cons_1 in Ht as [Hd [He _]%Forall_cons_1].
  apply (Hfin [0xf4; c; d; e]); [done|]. eexists. apply encode4; lia.
Qed.

(** The loop, by steps. *)
Lemma is_valid_step fuel b s :
  is_valid_utf8_loop (S fuel) (b :: s) =
    match step b s with Some rest => is_valid_utf8_loop fuel rest | None => false end.
Proof.
  cbn [is_valid_utf8_loop]. unfold step. destruct (utf8_head b s) as [[n s']|]; [|done].
  by destruct (skip_tail n s') as [[|?] ?].
Qed.

Lemma valid_loop_encodes fuel us :
  Forall scalar us -> (length (concat (map encode us)) <= fuel)%nat ->
  is_valid_utf8_loop fuel (concat (map encode us)) = true.
Proof.
  intros Hus. revert fuel. induction Hus as [|u us Hu _ IH]; intros fuel Hf.
  - by destruct fuel.
  - cbn [map concat] in *. destruct (encode_cons u Hu) as (b & l & Hbl). rewrite Hbl in Hf |- *.
    destruct fuel as [|fuel]; [cbn in Hf; lia|]. cbn [app] in *. rewrite is_valid_step.
    rewrite (step_encode u _ b l Hu Hbl). apply IH. cbn in Hf. rewrite length_app in Hf. lia.
Qed.

Lemma valid_loop_decodes fuel s :
  Forall is_byte s -> is_valid_utf8_loop fuel s = true ->
  exists us, Forall scalar us /\ s = concat (map encode us).
Proof.
  revert s. induction fuel as [|fuel IH]; intros [|b s] Hs; try (intros _; by exists []); [done|].
  rewrite is_valid_step. destruct (step b s) as [rest|] eqn:Hst; [|done]. intros Hv.
  apply Forall_cons_1 in Hs as [Hb Hs]. destruct (step_decode b s rest Hb Hst) as (u & Hu & Heq).
  assert (Forall is_byte rest) as Hr.
  { assert (Forall is_byte (encode u ++ rest)) as H by (rewrite <- Heq; by constructor).
    by apply Forall_app in H as [_ H]. }
  destruct (IH rest Hr Hv) as (us & Hus & ->). exists (u :: us). split; [by constructor|].
  by rewrite Heq.
Qed.

(** ** Properties *)

(** [is_valid_utf8] accepts exactly the concatenations of encodings of Unicode
    scalar values: no overlong form, no surrogate, nothing above U+10FFFF. *)
Theorem is_valid_utf8_spec s :
  Forall is_byte s ->
  is_valid_utf8 s = true <-> exists us, Forall scalar us /\ s = concat (map encode us).
Proof.
  intros Hs. unfold is_valid_utf8. split; [by apply valid_loop_decodes|].
  intros (us & Hus & ->). by apply valid_loop_encodes.
Qed.

Lemma is_valid_utf8_spec_witness :
  is_valid_utf8 [0xe2; 0x82; 0xac] = true <->
  exists us, Forall scalar us /\ [0xe2; 0x82; 0xac] = concat (map encode us).
Proof.
  apply (is_valid_utf8_spec [0xe2; 0x82; 0xac]).
  repeat (apply Forall_cons_2; [unfold is_byte; lia|]). apply Forall_nil_2.
Defined.

(** *** Decoding *)

Lemma lor_shift6 c y : 0 <= y < 64 -> Z.lor (Z.shiftl c 6) y = c * 64 + y.
Proof.
  intros Hy. pose proof (Z.add_lor_land (Z.shiftl c 6) y) as H.
  assert (Z.land (Z.shiftl c 6) y = 0) as H0.
  { apply Z.bits_inj'. intros i Hi. rewrite Z.land_spec, Z.testbit_0_l.
    destruct (Z_lt_le_dec i 6).
    - by rewrite Z.shiftl_spec_low.
    - rewrite (Z.bits_above_log2 y), andb_false_r; [done | lia |].
      destruct (Z.eq_dec y 0) as [->|]; [cbn; lia|].
      assert (Z.log2 y < 6) by (apply Z.log2_lt_pow2; lia). lia. }
  rewrite H0, Z.add_0_r in H. rewrite H, Z.shiftl_mul_pow2 by lia. reflexivity.
Qed.

Lemma cont_byte x : 0 <= x < 64 ->
  Z.land (0x80 + x) 0xc0 = 0x80 /\ Z.land (0x80 + x) 0x3f = x.
Proof.
  intros Hx. assert (forallb (fun i => (Z.land (0x80 + Z.of_nat i) 0xc0 =? 0x80) &&
    (Z.land (0x80 + Z.of_nat i) 0x3f =? Z.of_nat i)) (seq 0 64) = true) as H by reflexivity.
  rewrite forallb_forall in H. specialize (H (Z.to_nat x)). rewrite Z2Nat.id in H by lia.
  apply andb_true_iff in H as [?%Z.eqb_eq ?%Z.eqb_eq]; [done|]. apply in_seq. lia.
Qed.

Lemma next_cp_loop_cons n x s cp :
  0 <= x < 64 -> 0 <= cp < 2 ^ 26 ->
  next_cp_loop (S n) ((0x80 + x) :: s) cp = next_cp_loop n s (cp * 64 + x).
Proof.
  intros Hx Hcp. cbn [next_cp_loop]. destruct (cont_byte x Hx) as [-> ->]. cbn [negb Z.eqb Pos.eqb].
  rewrite u32_id, lor_shift6; [done | done |].
  rewrite Z.shiftl_mul_pow2 by lia. unfold is_u32. lia.
Qed.

Lemma utf8_next_encode u rest max :
  scalar u -> Z.of_nat (length (encode u)) <= max ->
  utf8_next_code_point (encode u ++ rest) max = Some (u, Z.of_nat (length (encode u))).
Proof.
  intros [Hr Hs]. unfold encode. destruct (is_surrogate u) eqn:Hsur;
    [apply is_surrogate_spec in Hsur; lia|].
  assert (forall len, 0 < len -> len <= max -> (max =? 0) || (len >? max) = false) as Hmax.
  { intros len H1 H2. apply orb_false_iff. split; [apply Z.eqb_neq; lia|].
    rewrite Z.gtb_ltb. apply Z.ltb_ge. lia. }
  destruct (Z.leb_spec u 0x7f).
  { intros Hm. cbn [app utf8_next_code_point]. unfold utf8_sequence_length.
    destruct (Z.leb_spec u 0x7f); [|lia]. cbn [length] in *. rewrite Hmax by lia. done. }
  destruct (Z.leb_spec u 0x7ff); [|destruct (Z.leb_spec u 0xffff)]; intros Hm;
    cbn [app length utf8_next_code_point] in *; cbv zeta;
    match goal with |- context [Z.land ?h _] => set (hd := h) end.
  - assert (utf8_sequence_length hd = 2) as ->.
    { assert (0xc2 <= hd <= 0xdf) by (subst hd; eucl). unfold utf8_sequence_length. by range_tests. }
    rewrite Hmax by lia.
    cbn [Z.eqb Pos.eqb]. change (Z.to_nat 2 - 1)%nat with 1%nat.
    assert (Z.land hd 0x1f = u / 64) as ->.
    { change 0x1f with (Z.ones 5). rewrite Z.land_ones by lia. subst hd. eucl. }
    rewrite next_cp_loop_cons by eucl. cbn [next_cp_loop].
    replace (u / 64 * 64 + u mod 64) with u by eucl. by rewrite Hsur.
  - assert (utf8_sequence_length hd = 3) as ->.
    { assert (0xe0 <= hd <= 0xef) by (subst hd; eucl). unfold utf8_sequence_length. by range_tests. }
    rewrite Hmax by lia.
    cbn [Z.eqb Pos.eqb]. change (Z.to_nat 3 - 1)%nat with 2%nat.
    assert (Z.land hd 0x0f = u / 4096) as ->.
    { change 0x0f with (Z.ones 4). rewrite Z.land_ones by lia. subst hd. eucl. }
    rewrite !next_cp_loop_cons by eucl. cbn [next_cp_loop].
    replace ((u / 4096 * 64 + u / 64 mod 64) * 64 + u mod 64) with u by eucl. by rewrite Hsur.
  - assert (utf8_sequence_length hd = 4) as ->.
    { assert (0xf0 <= hd <= 0xf4) by (subst hd; eucl). unfold utf8_sequence_length. by range_tests. }
    rewrite Hmax by lia.
    cbn [Z.eqb Pos.eqb]. change (Z.to_nat 4 - 1)%nat with 3%nat.
    assert (Z.land hd 0x07 = u / 262144) as ->.
    { change 0x07 with (Z.ones 3). rewrite Z.land_ones by lia. subst hd. eucl. }
    rewrite !next_cp_loop_cons by eucl. cbn [next_cp_loop].
    replace (((u / 262144 * 64 + u / 4096 mod 64) * 64 + u / 64 mod 64) * 64 + u mod 64)
      with u by eucl. by rewrite Hsur.
Qed.

(** C37. Encoding a code point gives valid UTF-8 that decodes to it, whatever bytes
    follow; a value that is no scalar value is refused. *)
Theorem utf8_round_trip u :
  0 <= u ->
  (scalar u -> exists n bytes,
     utf32_to_utf8 u = (n + 1, bytes ++ [0]) /\ n = Z.of_nat (length bytes) /\
     is_valid_utf8 bytes = true /\
     forall rest max, n <= max -> utf8_next_code_point (bytes ++ rest) max = Some (u, n)) /\
  (~ scalar u -> utf32_to_utf8 u = (0, [0])).
Proof.
  intros H0. split.
  - intros Hu. exists (Z.of_nat (length (encode u))), (encode u).
    split; [by apply utf32_to_utf8_scalar|]. split; [done|]. split.
    + assert (concat (map encode [u]) = encode u) as Heq by apply app_nil_r. unfold is_valid_utf8.
      rewrite <- Heq. apply valid_loop_encodes; [apply Forall_cons_2; [done | apply Forall_nil_2] | done].
    + intros rest max. by apply utf8_next_encode.
  - intros Hu. unfold utf32_to_utf8. unfold scalar in Hu.
    destruct (Z.leb_spec u 0x7f); [lia|]. destruct (Z.leb_spec u 0x7ff); [lia|].
    destruct (is_surrogate u) eqn:Hs; [done|].
    assert (~ (0xd800 <= u <= 0xdfff)) by (rewrite <- is_surrogate_spec; by rewrite Hs).
    destruct (Z.leb_spec u 0xffff); [lia|]. destruct (Z.leb_spec u 0x10ffff); [lia|done].
Qed.

Lemma utf8_round_trip_witness :
  (scalar 0x20ac -> exists n bytes,
     utf32_to_utf8 0x20ac = (n + 1, bytes ++ [0]) /\ n = Z.of_nat (length bytes) /\
     is_valid_utf8 bytes = true /\
     forall rest max, n <= max -> utf8_next_code_point (bytes ++ rest) max = Some (0x20ac, n)) /\
  (~ scalar 0x20ac -> utf32_to_utf8 0x20ac = (0, [0])).
Proof. exact (utf8_round_trip 0x20ac ltac:(lia)). Defined.

(** The decoder is more liberal than the validator: it accepts overlong forms
    and code points above U+10FFFF. *)
Theorem utf8_next_code_point_liberal :
  is_valid_utf8 [0xe0; 0x80; 0x80] = false /\
  utf8_next_code_point [0xe0; 0x80; 0x80] 3 = Some (0, 3) /\
  is_valid_utf8 [0xf4; 0xbf; 0xbf; 0xbf] = false /\
  utf8_next_code_point [0xf4; 0xbf; 0xbf; 0xbf] 4 = Some (0x13ffff, 4).
Proof. repeat split; reflexivity. Qed.
