(* ===== verification/KeysymTables.v ===== *)
(** * Keysym tables

    The constant tables of src/keysym-utf.c and src/keysym-case-mappings.c,
    entry for entry. *)

From Stdlib Require Import ZArith.
From stdpp Require Import base list.
From S2P Require Import Prelude.

(** [struct codepair]: keysym, deprecated, code point. *)
Record codepair := mk_pair { cp_keysym : Z; cp_deprecated : bool; cp_ucs : Z }.

(** [struct CaseMappings]: has a lower case, has an upper case, offset. *)
Record CaseMappings := mk_case { cm_lower : bool; cm_upper : bool; cm_offset : Z }.

Definition keysymtab : list codepair :=
  [ mk_pair 0x01a1 false 0x0104; mk_pair 0x01a2 false 0x02d8; mk_pair 0x01a3 false 0x0141;
    mk_pair 0x01a5 false 0x013d; mk_pair 0x01a6 false 0x015a; mk_pair 0x01a9 false 0x0160;
    mk_pair 0x01aa false 0x015e; mk_pair 0x01ab false 0x0164; mk_pair 0x01ac false 0x0179;
    mk_pair 0x01ae false 0x017d; mk_pair 0x01af false 0x017b; mk_pair 0x01b1 false 0x0105;
    mk_pair 0x01b2 false 0x02db; mk_pair 0x01b3 false 0x0142; mk_pair 0x01b5 false 0x013e;
    mk_pair 0x01b6 false 0x015b; mk_pair 0x01b7 false 0x02c7; mk_pair 0x01b9 false 0x0161;
    mk_pair 0x01ba false 0x015f; mk_pair 0x01bb false 0x0165; mk_pair 0x01bc false 0x017a;
    mk_pair 0x01bd false 0x02dd; mk_pair 0x01be false 0x017e; mk_pair 0x01bf false 0x017c;
    mk_pair 0x01c0 false 0x0154; mk_pair 0x01c3 false 0x0102; mk_pair 0x01c5 false 0x0139;
    mk_pair 0x01c6 false 0x0106; mk_pair 0x01c8 false 0x010c; mk_pair 0x01ca false 0x0118;
    mk_pair 0x01cc false 0x011a; mk_pair 0x01cf false 0x010e; mk_pair 0x01d0 false 0x0110;
    mk_pair 0x01d1 false 0x0143; mk_pair 0x01d2 false 0x0147; mk_pair 0x01d5 false 0x0150;
    mk_pair 0x01d8 false 0x0158; mk_pair 0x01d9 false 0x016e; mk_pair 0x01db false 0x0170;
    mk_pair 0x01de false 0x0162; mk_pair 0x01e0 false 0x0155; mk_pair 0x01e3 false 0x0103;
    mk_pair 0x01e5 false 0x013a; mk_pair 0x01e6 false 0x0107; mk_pair 0x01e8 false 0x010d;
    mk_pair 0x01ea false 0x0119; mk_pair 0x01ec false 0x011b; mk_pair 0x01ef false 0x010f;
    mk_pair 0x01f0 false 0x0111; mk_pair 0x01f1 false 0x0144; mk_pair 0x01f2 false 0x0148;
    mk_pair 0x01f5 false 0x0151; mk_pair 0x01f8 false 0x0159; mk_pair 0x01f9 false 0x016f;
    mk_pair 0x01fb false 0x0171; mk_pair 0x01fe false 0x0163; mk_pair 0x01ff false 0x02d9;
    mk_pair 0x02a1 false 0x0126; mk_pair 0x02a6 false 0x0124; mk_pair 0x02a9 false 0x0130;
    mk_pair 0x02ab false 0x011e; mk_pair 0x02ac false 0x0134; mk_pair 0x02b1 false 0x0127;
    mk_pair 0x02b6 false 0x0125; mk_pair 0x02b9 false 0x0131; mk_pair 0x02bb false 0x011f;
    mk_pair 0x02bc false 0x0135; mk_pair 0x02c5 false 0x010a; mk_pair 0x02c6 false 0x0108;
    mk_pair 0x02d5 false 0x0120; mk_pair 0x02d8 false 0x011c; mk_pair 0x02dd false 0x016c;
    mk_pair 0x02de false 0x015c; mk_pair 0x02e5 false 0x010b; mk_pair 0x02e6 false 0x0109;
    mk_pair 0x02f5 false 0x0121; mk_pair 0x02f8 false 0x011d; mk_pair 0x02fd false 0x016d;
    mk_pair 0x02fe false 0x015d; mk_pair 0x03a2 false 0x0138; mk_pair 0x03a3 false 0x0156;
    mk_pair 0x03a5 false 0x0128; mk_pair 0x03a6 false 0x013b; mk_pair 0x03aa false 0x0112;
    mk_pair 0x03ab false 0x0122; mk_pair 0x03ac false 0x0166; mk_pair 0x03b3 false 0x0157;
    mk_pair 0x03b5 false 0x0129; mk_pair 0x03b6 false 0x013c; mk_pair 0x03ba false 0x0113;
    mk_pair 0x03bb false 0x0123; mk_pair 0x03bc false 0x0167; mk_pair 0x03bd false 0x014a;
    mk_pair 0x03bf false 0x014b; mk_pair 0x03c0 false 0x0100; mk_pair 0x03c7 false 0x012e;
    mk_pair 0x03cc false 0x0116; mk_pair 0x03cf false 0x012a; mk_pair 0x03d1 false 0x0145;
    mk_pair 0x03d2 false 0x014c; mk_pair 0x03d3 false 0x0136; mk_pair 0x03d9 false 0x0172;
    mk_pair 0x03dd false 0x0168; mk_pair 0x03de false 0x016a; mk_pair 0x03e0 false 0x0101;
    mk_pair 0x03e7 false 0x012f; mk_pair 0x03ec false 0x0117; mk_pair 0x03ef false 0x012b;
    mk_pair 0x03f1 false 0x0146; mk_pair 0x03f2 false 0x014d; mk_pair 0x03f3 false 0x0137;
    mk_pair 0x03f9 false 0x0173; mk_pair 0x03fd false 0x0169; mk_pair 0x03fe false 0x016b;
    mk_pair 0x047e false 0x203e; mk_pair 0x04a1 false 0x3002; mk_pair 0x04a2 false 0x300c;
    mk_pair 0x04a3 false 0x300d; mk_pair 0x04a4 false 0x3001; mk_pair 0x04a5 false 0x30fb;
    mk_pair 0x04a6 false 0x30f2; mk_pair 0x04a7 false 0x30a1; mk_pair 0x04a8 false 0x30a3;
    mk_pair 0x04a9 false 0x30a5; mk_pair 0x04aa false 0x30a7; mk_pair 0x04ab false 0x30a9;
    mk_pair 0x04ac false 0x30e3; mk_pair 0x04ad false 0x30e5; mk_pair 0x04ae false 0x30e7;
    mk_pair 0x04af false 0x30c3; mk_pair 0x04b0 false 0x30fc; mk_pair 0x04b1 false 0x30a2;
    mk_pair 0x04b2 false 0x30a4; mk_pair 0x04b3 false 0x30a6; mk_pair 0x04b4 false 0x30a8;
    mk_pair 0x04b5 false 0x30aa; mk_pair 0x04b6 false 0x30ab; mk_pair 0x04b7 false 0x30ad;
    mk_pair 0x04b8 false 0x30af; mk_pair 0x04b9 false 0x30b1; mk_pair 0x04ba false 0x30b3;
    mk_pair 0x04bb false 0x30b5; mk_pair 0x04bc false 0x30b7; mk_pair 0x04bd false 0x30b9;
    mk_pair 0x04be false 0x30bb; mk_pair 0x04bf false 0x30bd; mk_pair 0x04c0 false 0x30bf;
    mk_pair 0x04c1 false 0x30c1; mk_pair 0x04c2 false 0x30c4; mk_pair 0x04c3 false 0x30c6;
    mk_pair 0x04c4 false 0x30c8; mk_pair 0x04c5 false 0x30ca; mk_pair 0x04c6 false 0x30cb;
    mk_pair 0x04c7 false 0x30cc; mk_pair 0x04c8 false 0x30cd; mk_pair 0x04c9 false 0x30ce;
    mk_pair 0x04ca false 0x30cf; mk_pair 0x04cb false 0x30d2; mk_pair 0x04cc false 0x30d5;
    mk_pair 0x04cd false 0x30d8; mk_pair 0x04ce false 0x30db; mk_pair 0x04cf false 0x30de;
    mk_pair 0x04d0 false 0x30df; mk_pair 0x04d1 false 0x30e0; mk_pair 0x04d2 false 0x30e1;
    mk_pair 0x04d3 false 0x30e2; mk_pair 0x04d4 false 0x30e4; mk_pair 0x04d5 false 0x30e6;
    mk_pair 0x04d6 false 0x30e8; mk_pair 0x04d7 false 0x30e9; mk_pair 0x04d8 false 0x30ea;
    mk_pair 0x04d9 false 0x30eb; mk_pair 0x04da false 0x30ec; mk_pair 0x04db false 0x30ed;
    mk_pair 0x04dc false 0x30ef; mk_pair 0x04dd false 0x30f3; mk_pair 0x04de false 0x309b;
    mk_pair 0x04df false 0x309c; mk_pair 0x05ac false 0x060c; mk_pair 0x05bb false 0x061b;
    mk_pair 0x05bf false 0x061f; mk_pair 0x05c1 false 0x0621; mk_pair 0x05c2 false 0x0622;
    mk_pair 0x05c3 false 0x0623; mk_pair 0x05c4 false 0x0624; mk_pair 0x05c5 false 0x0625;
    mk_pair 0x05c6 false 0x0626; mk_pair 0x05c7 false 0x0627; mk_pair 0x05c8 false 0x0628;
    mk_pair 0x05c9 false 0x0629; mk_pair 0x05ca false 0x062a; mk_pair 0x05cb false 0x062b;
    mk_pair 0x05cc false 0x062c; mk_pair 0x05cd false 0x062d; mk_pair 0x05ce false 0x062e;
    mk_pair 0x05cf false 0x062f; mk_pair 0x05d0 false 0x0630; mk_pair 0x05d1 false 0x0631;
    mk_pair 0x05d2 false 0x0632; mk_pair 0x05d3 false 0x0633; mk_pair 0x05d4 false 0x0634;
    mk_pair 0x05d5 false 0x0635; mk_pair 0x05d6 false 0x0636; mk_pair 0x05d7 false 0x0637;
    mk_pair 0x05d8 false 0x0638; mk_pair 0x05d9 false 0x0639; mk_pair 0x05da false 0x063a;
    mk_pair 0x05e0 false 0x0640; mk_pair 0x05e1 false 0x0641; mk_pair 0x05e2 false 0x0642;
    mk_pair 0x05e3 false 0x0643; mk_pair 0x05e4 false 0x0644; mk_pair 0x05e5 false 0x0645;
    mk_pair 0x05e6 false 0x0646; mk_pair 0x05e7 false 0x0647; mk_pair 0x05e8 false 0x0648;
    mk_pair 0x05e9 false 0x0649; mk_pair 0x05ea false 0x064a; mk_pair 0x05eb false 0x064b;
    mk_pair 0x05ec false 0x064c; mk_pair 0x05ed false 0x064d; mk_pair 0x05ee false 0x064e;
    mk_pair 0x05ef false 0x064f; mk_pair 0x05f0 false 0x0650; mk_pair 0x05f1 false 0x0651;
    mk_pair 0x05f2 false 0x0652; mk_pair 0x06a1 false 0x0452; mk_pair 0x06a2 false 0x0453;
    mk_pair 0x06a3 false 0x0451; mk_pair 0x06a4 false 0x0454; mk_pair 0x06a5 false 0x0455;
    mk_pair 0x06a6 false 0x0456; mk_pair 0x06a7 false 0x0457; mk_pair 0x06a8 false 0x0458;
    mk_pair 0x06a9 false 0x0459; mk_pair 0x06aa false 0x045a; mk_pair 0x06ab false 0x045b;
    mk_pair 0x06ac false 0x045c; mk_pair 0x06ad false 0x0491; mk_pair 0x06ae false 0x045e;
    mk_pair 0x06af false 0x045f; mk_pair 0x06b0 false 0x2116; mk_pair 0x06b1 false 0x0402;
    mk_pair 0x06b2 false 0x0403; mk_pair 0x06b3 false 0x0401; mk_pair 0x06b4 false 0x0404;
    mk_pair 0x06b5 false 0x0405; mk_pair 0x06b6 false 0x0406; mk_pair 0x06b7 false 0x0407;
    mk_pair 0x06b8 false 0x0408; mk_pair 0x06b9 false 0x0409; mk_pair 0x06ba false 0x040a;
    mk_pair 0x06bb false 0x040b; mk_pair 0x06bc false 0x040c; mk_pair 0x06bd false 0x0490;
    mk_pair 0x06be false 0x040e; mk_pair 0x06bf false 0x040f; mk_pair 0x06c0 false 0x044e;
    mk_pair 0x06c1 false 0x0430; mk_pair 0x06c2 false 0x0431; mk_pair 0x06c3 false 0x0446;
    mk_pair 0x06c4 false 0x0434; mk_pair 0x06c5 false 0x0435; mk_pair 0x06c6 false 0x0444;
    mk_pair 0x06c7 false 0x0433; mk_pair 0x06c8 false 0x0445; mk_pair 0x06c9 false 0x0438;
    mk_pair 0x06ca false 0x0439; mk_pair 0x06cb false 0x043a; mk_pair 0x06cc false 0x043b;
    mk_pair 0x06cd false 0x043c; mk_pair 0x06ce false 0x043d; mk_pair 0x06cf false 0x043e;
    mk_pair 0x06d0 false 0x043f; mk_pair 0x06d1 false 0x044f; mk_pair 0x06d2 false 0x0440;
    mk_pair 0x06d3 false 0x0441; mk_pair 0x06d4 false 0x0442; mk_pair 0x06d5 false 0x0443;
    mk_pair 0x06d6 false 0x0436; mk_pair 0x06d7 false 0x0432; mk_pair 0x06d8 false 0x044c;
    mk_pair 0x06d9 false 0x044b; mk_pair 0x06da false 0x0437; mk_pair 0x06db false 0x0448;
    mk_pair 0x06dc false 0x044d; mk_pair 0x06dd false 0x0449; mk_pair 0x06de false 0x0447;
    mk_pair 0x06df false 0x044a; mk_pair 0x06e0 false 0x042e; mk_pair 0x06e1 false 0x0410;
    mk_pair 0x06e2 false 0x0411; mk_pair 0x06e3 false 0x0426; mk_pair 0x06e4 false 0x0414;
    mk_pair 0x06e5 false 0x0415; mk_pair 0x06e6 false 0x0424; mk_pair 0x06e7 false 0x0413;
    mk_pair 0x06e8 false 0x0425; mk_pair 0x06e9 false 0x0418; mk_pair 0x06ea false 0x0419;
    mk_pair 0x06eb false 0x041a; mk_pair 0x06ec false 0x041b; mk_pair 0x06ed false 0x041c;
    mk_pair 0x06ee false 0x041d; mk_pair 0x06ef false 0x041e; mk_pair 0x06f0 false 0x041f;
    mk_pair 0x06f1 false 0x042f; mk_pair 0x06f2 false 0x0420; mk_pair 0x06f3 false 0x0421;
    mk_pair 0x06f4 false 0x0422; mk_pair 0x06f5 false 0x0423; mk_pair 0x06f6 false 0x0416;
    mk_pair 0x06f7 false 0x0412; mk_pair 0x06f8 false 0x042c; mk_pair 0x06f9 false 0x042b;
    mk_pair 0x06fa false 0x0417; mk_pair 0x06fb false 0x0428; mk_pair 0x06fc false 0x042d;
    mk_pair 0x06fd false 0x0429; mk_pair 0x06fe false 0x0427; mk_pair 0x06ff false 0x042a;
    mk_pair 0x07a1 false 0x0386; mk_pair 0x07a2 false 0x0388; mk_pair 0x07a3 false 0x0389;
    mk_pair 0x07a4 false 0x038a; mk_pair 0x07a5 false 0x03aa; mk_pair 0x07a7 false 0x038c;
    mk_pair 0x07a8 false 0x038e; mk_pair 0x07a9 false 0x03ab; mk_pair 0x07ab false 0x038f;
    mk_pair 0x07ae false 0x0385; mk_pair 0x07af false 0x2015; mk_pair 0x07b1 false 0x03ac;
    mk_pair 0x07b2 false 0x03ad; mk_pair 0x07b3 false 0x03ae; mk_pair 0x07b4 false 0x03af;
    mk_pair 0x07b5 false 0x03ca; mk_pair 0x07b6 false 0x0390; mk_pair 0x07b7 false 0x03cc;
    mk_pair 0x07b8 false 0x03cd; mk_pair 0x07b9 false 0x03cb; mk_pair 0x07ba false 0x03b0;
    mk_pair 0x07bb false 0x03ce; mk_pair 0x07c1 false 0x0391; mk_pair 0x07c2 false 0x0392;
    mk_pair 0x07c3 false 0x0393; mk_pair 0x07c4 false 0x0394; mk_pair 0x07c5 false 0x0395;
    mk_pair 0x07c6 false 0x0396; mk_pair 0x07c7 false 0x0397; mk_pair 0x07c8 false 0x0398;
    mk_pair 0x07c9 false 0x0399; mk_pair 0x07ca false 0x039a; mk_pair 0x07cb false 0x039b;
    mk_pair 0x07cc false 0x039c; mk_pair 0x07cd false 0x039d; mk_pair 0x07ce false 0x039e;
    mk_pair 0x07cf false 0x039f; mk_pair 0x07d0 false 0x03a0; mk_pair 0x07d1 false 0x03a1;
    mk_pair 0x07d2 false 0x03a3; mk_pair 0x07d4 false 0x03a4; mk_pair 0x07d5 false 0x03a5;
    mk_pair 0x07d6 false 0x03a6; mk_pair 0x07d7 false 0x03a7; mk_pair 0x07d8 false 0x03a8;
    mk_pair 0x07d9 false 0x03a9; mk_pair 0x07e1 false 0x03b1; mk_pair 0x07e2 false 0x03b2;
    mk_pair 0x07e3 false 0x03b3; mk_pair 0x07e4 false 0x03b4; mk_pair 0x07e5 false 0x03b5;
    mk_pair 0x07e6 false 0x03b6; mk_pair 0x07e7 false 0x03b7; mk_pair 0x07e8 false 0x03b8;
    mk_pair 0x07e9 false 0x03b9; mk_pair 0x07ea false 0x03ba; mk_pair 0x07eb false 0x03bb;
    mk_pair 0x07ec false 0x03bc; mk_pair 0x07ed false 0x03bd; mk_pair 0x07ee false 0x03be;
    mk_pair 0x07ef false 0x03bf; mk_pair 0x07f0 false 0x03c0; mk_pair 0x07f1 false 0x03c1;
    mk_pair 0x07f2 false 0x03c3; mk_pair 0x07f3 false 0x03c2; mk_pair 0x07f4 false 0x03c4;
    mk_pair 0x07f5 false 0x03c5; mk_pair 0x07f6 false 0x03c6; mk_pair 0x07f7 false 0x03c7;
    mk_pair 0x07f8 false 0x03c8; mk_pair 0x07f9 false 0x03c9; mk_pair 0x08a1 false 0x23b7;
    mk_pair 0x08a2 true 0x250c; mk_pair 0x08a3 true 0x2500; mk_pair 0x08a4 false 0x2320;
    mk_pair 0x08a5 false 0x2321; mk_pair 0x08a6 true 0x2502; mk_pair 0x08a7 false 0x23a1;
    mk_pair 0x08a8 false 0x23a3; mk_pair 0x08a9 false 0x23a4; mk_pair 0x08aa false 0x23a6;
    mk_pair 0x08ab false 0x239b; mk_pair 0x08ac false 0x239d; mk_pair 0x08ad false 0x239e;
    mk_pair 0x08ae false 0x23a0; mk_pair 0x08af false 0x23a8; mk_pair 0x08b0 false 0x23ac;
    mk_pair 0x08bc false 0x2264; mk_pair 0x08bd false 0x2260; mk_pair 0x08be false 0x2265;
    mk_pair 0x08bf false 0x222b; mk_pair 0x08c0 false 0x2234; mk_pair 0x08c1 false 0x221d;
    mk_pair 0x08c2 false 0x221e; mk_pair 0x08c5 false 0x2207; mk_pair 0x08c8 false 0x223c;
    mk_pair 0x08c9 false 0x2243; mk_pair 0x08cd false 0x21d4; mk_pair 0x08ce false 0x21d2;
    mk_pair 0x08cf false 0x2261; mk_pair 0x08d6 false 0x221a; mk_pair 0x08da false 0x2282;
    mk_pair 0x08db false 0x2283; mk_pair 0x08dc false 0x2229; mk_pair 0x08dd false 0x222a;
    mk_pair 0x08de false 0x2227; mk_pair 0x08df false 0x2228; mk_pair 0x08ef false 0x2202;
    mk_pair 0x08f6 false 0x0192; mk_pair 0x08fb false 0x2190; mk_pair 0x08fc false 0x2191;
    mk_pair 0x08fd false 0x2192; mk_pair 0x08fe false 0x2193; mk_pair 0x09e0 false 0x25c6;
    mk_pair 0x09e1 false 0x2592; mk_pair 0x09e2 false 0x2409; mk_pair 0x09e3 false 0x240c;
    mk_pair 0x09e4 false 0x240d; mk_pair 0x09e5 false 0x240a; mk_pair 0x09e8 false 0x2424;
    mk_pair 0x09e9 false 0x240b; mk_pair 0x09ea false 0x2518; mk_pair 0x09eb false 0x2510;
    mk_pair 0x09ec false 0x250c; mk_pair 0x09ed false 0x2514; mk_pair 0x09ee false 0x253c;
    mk_pair 0x09ef false 0x23ba; mk_pair 0x09f0 false 0x23bb; mk_pair 0x09f1 false 0x2500;
    mk_pair 0x09f2 false 0x23bc; mk_pair 0x09f3 false 0x23bd; mk_pair 0x09f4 false 0x251c;
    mk_pair 0x09f5 false 0x2524; mk_pair 0x09f6 false 0x2534; mk_pair 0x09f7 false 0x252c;
    mk_pair 0x09f8 false 0x2502; mk_pair 0x0aa1 false 0x2003; mk_pair 0x0aa2 false 0x2002;
    mk_pair 0x0aa3 false 0x2004; mk_pair 0x0aa4 false 0x2005; mk_pair 0x0aa5 false 0x2007;
    mk_pair 0x0aa6 false 0x2008; mk_pair 0x0aa7 false 0x2009; mk_pair 0x0aa8 false 0x200a;
    mk_pair 0x0aa9 false 0x2014; mk_pair 0x0aaa false 0x2013; mk_pair 0x0aac true 0x2423;
    mk_pair 0x0aae false 0x2026; mk_pair 0x0aaf false 0x2025; mk_pair 0x0ab0 false 0x2153;
    mk_pair 0x0ab1 false 0x2154; mk_pair 0x0ab2 false 0x2155; mk_pair 0x0ab3 false 0x2156;
    mk_pair 0x0ab4 false 0x2157; mk_pair 0x0ab5 false 0x2158; mk_pair 0x0ab6 false 0x2159;
    mk_pair 0x0ab7 false 0x215a; mk_pair 0x0ab8 false 0x2105; mk_pair 0x0abb false 0x2012;
    mk_pair 0x0abc true 0x27e8; mk_pair 0x0abd true 0x002e; mk_pair 0x0abe true 0x27e9;
    mk_pair 0x0ac3 false 0x215b; mk_pair 0x0ac4 false 0x215c; mk_pair 0x0ac5 false 0x215d;
    mk_pair 0x0ac6 false 0x215e; mk_pair 0x0ac9 false 0x2122; mk_pair 0x0aca true 0x2613;
    mk_pair 0x0acc true 0x25c1; mk_pair 0x0acd true 0x25b7; mk_pair 0x0ace true 0x25cb;
    mk_pair 0x0acf true 0x25af; mk_pair 0x0ad0 false 0x2018; mk_pair 0x0ad1 false 0x2019;
    mk_pair 0x0ad2 false 0x201c; mk_pair 0x0ad3 false 0x201d; mk_pair 0x0ad4 false 0x211e;
    mk_pair 0x0ad5 false 0x2030; mk_pair 0x0ad6 false 0x2032; mk_pair 0x0ad7 false 0x2033;
    mk_pair 0x0ad9 false 0x271d; mk_pair 0x0adb true 0x25ac; mk_pair 0x0adc true 0x25c0;
    mk_pair 0x0add true 0x25b6; mk_pair 0x0ade true 0x25cf; mk_pair 0x0adf true 0x25ae;
    mk_pair 0x0ae0 true 0x25e6; mk_pair 0x0ae1 true 0x25ab; mk_pair 0x0ae2 true 0x25ad;
    mk_pair 0x0ae3 true 0x25b3; mk_pair 0x0ae4 true 0x25bd; mk_pair 0x0ae5 true 0x2606;
    mk_pair 0x0ae6 true 0x2022; mk_pair 0x0ae7 true 0x25aa; mk_pair 0x0ae8 true 0x25b2;
    mk_pair 0x0ae9 true 0x25bc; mk_pair 0x0aea true 0x261c; mk_pair 0x0aeb true 0x261e;
    mk_pair 0x0aec false 0x2663; mk_pair 0x0aed false 0x2666; mk_pair 0x0aee false 0x2665;
    mk_pair 0x0af0 false 0x2720; mk_pair 0x0af1 false 0x2020; mk_pair 0x0af2 false 0x2021;
    mk_pair 0x0af3 false 0x2713; mk_pair 0x0af4 false 0x2717; mk_pair 0x0af5 false 0x266f;
    mk_pair 0x0af6 false 0x266d; mk_pair 0x0af7 false 0x2642; mk_pair 0x0af8 false 0x2640;
    mk_pair 0x0af9 false 0x260e; mk_pair 0x0afa false 0x2315; mk_pair 0x0afb false 0x2117;
    mk_pair 0x0afc false 0x2038; mk_pair 0x0afd false 0x201a; mk_pair 0x0afe false 0x201e;
    mk_pair 0x0ba3 true 0x003c; mk_pair 0x0ba6 true 0x003e; mk_pair 0x0ba8 true 0x2228;
    mk_pair 0x0ba9 true 0x2227; mk_pair 0x0bc0 true 0x00af; mk_pair 0x0bc2 false 0x22a4;
    mk_pair 0x0bc3 true 0x2229; mk_pair 0x0bc4 false 0x230a; mk_pair 0x0bc6 true 0x005f;
    mk_pair 0x0bca false 0x2218; mk_pair 0x0bcc false 0x2395; mk_pair 0x0bce false 0x22a5;
    mk_pair 0x0bcf false 0x25cb; mk_pair 0x0bd3 false 0x2308; mk_pair 0x0bd6 true 0x222a;
    mk_pair 0x0bd8 true 0x2283; mk_pair 0x0bda true 0x2282; mk_pair 0x0bdc false 0x22a3;
    mk_pair 0x0bfc false 0x22a2; mk_pair 0x0cdf false 0x2017; mk_pair 0x0ce0 false 0x05d0;
    mk_pair 0x0ce1 false 0x05d1; mk_pair 0x0ce2 false 0x05d2; mk_pair 0x0ce3 false 0x05d3;
    mk_pair 0x0ce4 false 0x05d4; mk_pair 0x0ce5 false 0x05d5; mk_pair 0x0ce6 false 0x05d6;
    mk_pair 0x0ce7 false 0x05d7; mk_pair 0x0ce8 false 0x05d8; mk_pair 0x0ce9 false 0x05d9;
    mk_pair 0x0cea false 0x05da; mk_pair 0x0ceb false 0x05db; mk_pair 0x0cec false 0x05dc;
    mk_pair 0x0ced false 0x05dd; mk_pair 0x0cee false 0x05de; mk_pair 0x0cef false 0x05df;
    mk_pair 0x0cf0 false 0x05e0; mk_pair 0x0cf1 false 0x05e1; mk_pair 0x0cf2 false 0x05e2;
    mk_pair 0x0cf3 false 0x05e3; mk_pair 0x0cf4 false 0x05e4; mk_pair 0x0cf5 false 0x05e5;
    mk_pair 0x0cf6 false 0x05e6; mk_pair 0x0cf7 false 0x05e7; mk_pair 0x0cf8 false 0x05e8;
    mk_pair 0x0cf9 false 0x05e9; mk_pair 0x0cfa false 0x05ea; mk_pair 0x0da1 false 0x0e01;
    mk_pair 0x0da2 false 0x0e02; mk_pair 0x0da3 false 0x0e03; mk_pair 0x0da4 false 0x0e04;
    mk_pair 0x0da5 false 0x0e05; mk_pair 0x0da6 false 0x0e06; mk_pair 0x0da7 false 0x0e07;
    mk_pair 0x0da8 false 0x0e08; mk_pair 0x0da9 false 0x0e09; mk_pair 0x0daa false 0x0e0a;
    mk_pair 0x0dab false 0x0e0b; mk_pair 0x0dac false 0x0e0c; mk_pair 0x0dad false 0x0e0d;
    mk_pair 0x0dae false 0x0e0e; mk_pair 0x0daf false 0x0e0f; mk_pair 0x0db0 false 0x0e10;
    mk_pair 0x0db1 false 0x0e11; mk_pair 0x0db2 false 0x0e12; mk_pair 0x0db3 false 0x0e13;
    mk_pair 0x0db4 false 0x0e14; mk_pair 0x0db5 false 0x0e15; mk_pair 0x0db6 false 0x0e16;
    mk_pair 0x0db7 false 0x0e17; mk_pair 0x0db8 false 0x0e18; mk_pair 0x0db9 false 0x0e19;
    mk_pair 0x0dba false 0x0e1a; mk_pair 0x0dbb false 0x0e1b; mk_pair 0x0dbc false 0x0e1c;
    mk_pair 0x0dbd false 0x0e1d; mk_pair 0x0dbe false 0x0e1e; mk_pair 0x0dbf false 0x0e1f;
    mk_pair 0x0dc0 false 0x0e20; mk_pair 0x0dc1 false 0x0e21; mk_pair 0x0dc2 false 0x0e22;
    mk_pair 0x0dc3 false 0x0e23; mk_pair 0x0dc4 false 0x0e24; mk_pair 0x0dc5 false 0x0e25;
    mk_pair 0x0dc6 false 0x0e26; mk_pair 0x0dc7 false 0x0e27; mk_pair 0x0dc8 false 0x0e28;
    mk_pair 0x0dc9 false 0x0e29; mk_pair 0x0dca false 0x0e2a; mk_pair 0x0dcb false 0x0e2b;
    mk_pair 0x0dcc false 0x0e2c; mk_pair 0x0dcd false 0x0e2d; mk_pair 0x0dce false 0x0e2e;
    mk_pair 0x0dcf false 0x0e2f; mk_pair 0x0dd0 false 0x0e30; mk_pair 0x0dd1 false 0x0e31;
    mk_pair 0x0dd2 false 0x0e32; mk_pair 0x0dd3 false 0x0e33; mk_pair 0x0dd4 false 0x0e34;
    mk_pair 0x0dd5 false 0x0e35; mk_pair 0x0dd6 false 0x0e36; mk_pair 0x0dd7 false 0x0e37;
    mk_pair 0x0dd8 false 0x0e38; mk_pair 0x0dd9 false 0x0e39; mk_pair 0x0dda false 0x0e3a;
    mk_pair 0x0dde true 0x0e3e; mk_pair 0x0ddf false 0x0e3f; mk_pair 0x0de0 false 0x0e40;
    mk_pair 0x0de1 false 0x0e41; mk_pair 0x0de2 false 0x0e42; mk_pair 0x0de3 false 0x0e43;
    mk_pair 0x0de4 false 0x0e44; mk_pair 0x0de5 false 0x0e45; mk_pair 0x0de6 false 0x0e46;
    mk_pair 0x0de7 false 0x0e47; mk_pair 0x0de8 false 0x0e48; mk_pair 0x0de9 false 0x0e49;
    mk_pair 0x0dea false 0x0e4a; mk_pair 0x0deb false 0x0e4b; mk_pair 0x0dec false 0x0e4c;
    mk_pair 0x0ded false 0x0e4d; mk_pair 0x0df0 false 0x0e50; mk_pair 0x0df1 false 0x0e51;
    mk_pair 0x0df2 false 0x0e52; mk_pair 0x0df3 false 0x0e53; mk_pair 0x0df4 false 0x0e54;
    mk_pair 0x0df5 false 0x0e55; mk_pair 0x0df6 false 0x0e56; mk_pair 0x0df7 false 0x0e57;
    mk_pair 0x0df8 false 0x0e58; mk_pair 0x0df9 false 0x0e59; mk_pair 0x0ea1 false 0x3131;
    mk_pair 0x0ea2 false 0x3132; mk_pair 0x0ea3 false 0x3133; mk_pair 0x0ea4 false 0x3134;
    mk_pair 0x0ea5 false 0x3135; mk_pair 0x0ea6 false 0x3136; mk_pair 0x0ea7 false 0x3137;
    mk_pair 0x0ea8 false 0x3138; mk_pair 0x0ea9 false 0x3139; mk_pair 0x0eaa false 0x313a;
    mk_pair 0x0eab false 0x313b; mk_pair 0x0eac false 0x313c; mk_pair 0x0ead false 0x313d;
    mk_pair 0x0eae false 0x313e; mk_pair 0x0eaf false 0x313f; mk_pair 0x0eb0 false 0x3140;
    mk_pair 0x0eb1 false 0x3141; mk_pair 0x0eb2 false 0x3142; mk_pair 0x0eb3 false 0x3143;
    mk_pair 0x0eb4 false 0x3144; mk_pair 0x0eb5 false 0x3145; mk_pair 0x0eb6 false 0x3146;
    mk_pair 0x0eb7 false 0x3147; mk_pair 0x0eb8 false 0x3148; mk_pair 0x0eb9 false 0x3149;
    mk_pair 0x0eba false 0x314a; mk_pair 0x0ebb false 0x314b; mk_pair 0x0ebc false 0x314c;
    mk_pair 0x0ebd false 0x314d; mk_pair 0x0ebe false 0x314e; mk_pair 0x0ebf false 0x314f;
    mk_pair 0x0ec0 false 0x3150; mk_pair 0x0ec1 false 0x3151; mk_pair 0x0ec2 false 0x3152;
    mk_pair 0x0ec3 false 0x3153; mk_pair 0x0ec4 false 0x3154; mk_pair 0x0ec5 false 0x3155;
    mk_pair 0x0ec6 false 0x3156; mk_pair 0x0ec7 false 0x3157; mk_pair 0x0ec8 false 0x3158;
    mk_pair 0x0ec9 false 0x3159; mk_pair 0x0eca false 0x315a; mk_pair 0x0ecb false 0x315b;
    mk_pair 0x0ecc false 0x315c; mk_pair 0x0ecd false 0x315d; mk_pair 0x0ece false 0x315e;
    mk_pair 0x0ecf false 0x315f; mk_pair 0x0ed0 false 0x3160; mk_pair 0x0ed1 false 0x3161;
    mk_pair 0x0ed2 false 0x3162; mk_pair 0x0ed3 false 0x3163; mk_pair 0x0ed4 false 0x11a8;
    mk_pair 0x0ed5 false 0x11a9; mk_pair 0x0ed6 false 0x11aa; mk_pair 0x0ed7 false 0x11ab;
    mk_pair 0x0ed8 false 0x11ac; mk_pair 0x0ed9 false 0x11ad; mk_pair 0x0eda false 0x11ae;
    mk_pair 0x0edb false 0x11af; mk_pair 0x0edc false 0x11b0; mk_pair 0x0edd false 0x11b1;
    mk_pair 0x0ede false 0x11b2; mk_pair 0x0edf false 0x11b3; mk_pair 0x0ee0 false 0x11b4;
    mk_pair 0x0ee1 false 0x11b5; mk_pair 0x0ee2 false 0x11b6; mk_pair 0x0ee3 false 0x11b7;
    mk_pair 0x0ee4 false 0x11b8; mk_pair 0x0ee5 false 0x11b9; mk_pair 0x0ee6 false 0x11ba;
    mk_pair 0x0ee7 false 0x11bb; mk_pair 0x0ee8 false 0x11bc; mk_pair 0x0ee9 false 0x11bd;
    mk_pair 0x0eea false 0x11be; mk_pair 0x0eeb false 0x11bf; mk_pair 0x0eec false 0x11c0;
    mk_pair 0x0eed false 0x11c1; mk_pair 0x0eee false 0x11c2; mk_pair 0x0eef false 0x316d;
    mk_pair 0x0ef0 false 0x3171; mk_pair 0x0ef1 false 0x3178; mk_pair 0x0ef2 false 0x317f;
    mk_pair 0x0ef3 false 0x3181; mk_pair 0x0ef4 false 0x3184; mk_pair 0x0ef5 false 0x3186;
    mk_pair 0x0ef6 false 0x318d; mk_pair 0x0ef7 false 0x318e; mk_pair 0x0ef8 false 0x11eb;
    mk_pair 0x0ef9 false 0x11f0; mk_pair 0x0efa false 0x11f9; mk_pair 0x0eff true 0x20a9;
    mk_pair 0x13bc false 0x0152; mk_pair 0x13bd false 0x0153; mk_pair 0x13be false 0x0178;
    mk_pair 0x20ac false 0x20ac ].

Definition legacy_keysym_data : list CaseMappings :=
  [ mk_case false true 0x0000000; mk_case true false 0x0000010; mk_case false false 0x0000000; mk_case false false 0x0000000;
    mk_case true false 0x0000020; mk_case false true (-0x1001dbf); mk_case true false 0x0000020; mk_case true false 0x0000020;
    mk_case false false 0x0000000; mk_case false true (-0x0000717); mk_case false true 0x0000020; mk_case false false 0x0000000;
    mk_case false true 0x0000020; mk_case false true 0x0000020; mk_case false true (-0x00012bf); mk_case false true 0x0000000;
    mk_case false false 0x0000000; mk_case true false 0x0000010; mk_case true false 0x0000010; mk_case false true (-0x0fff89b);
    mk_case false false 0x0000000; mk_case false true 0x0000010; mk_case false false 0x0000000; mk_case false true (-0x0000010);
    mk_case false true (-0x0000010); mk_case false true 0x0000000; mk_case false true 0x0000010; mk_case false true 0x0000010;
    mk_case true false 0x0000002; mk_case false false 0x0000000; mk_case true false (-0x0000010); mk_case true false (-0x0000010);
    mk_case true false (-0x00012bf); mk_case true false (-0x0000020); mk_case true false (-0x0000020); mk_case false true (-0x0000020);
    mk_case false true (-0x0000020); mk_case false false 0x0000000; mk_case true false (-0x0000240); mk_case false false 0x0000000;
    mk_case false true 0x0000002; mk_case false false 0x0000000; mk_case false true 0x0000270; mk_case false true 0x0000020;
    mk_case false true 0x0000021; mk_case true false 0x0000001; mk_case false true 0x0000001 ].

Definition unicode_data : list CaseMappings :=
  [ mk_case false true (-0x0080); mk_case false true (-0x0080); mk_case false true (-0x0070); mk_case false true (-0x0070);
    mk_case false true (-0x007e); mk_case false true (-0x007e); mk_case false false 0x0000; mk_case false false 0x0000;
    mk_case false true 0x0000; mk_case false false 0x0000; mk_case false false 0x0000; mk_case false false 0x0000;
    mk_case false false 0x0000; mk_case false false 0x0000; mk_case false false 0x0000; mk_case false false 0x0000;
    mk_case false false 0x0000; mk_case false true 0x0000; mk_case false true 0x0000; mk_case false true 0x0000;
    mk_case false true 0x0000; mk_case false true 0x0000; mk_case false true (-0xa515); mk_case false true (-0xa512);
    mk_case false true 0x0000; mk_case true false 0x0002; mk_case true true 0x0001; mk_case false true 0x0002;
    mk_case true false 0x0001; mk_case false true 0x0001; mk_case true false (-0x0061); mk_case true false (-0x0038);
    mk_case true false 0x0020; mk_case true false 0x0020; mk_case false false 0x0000; mk_case true false 0x0020;
    mk_case true false 0x0020; mk_case true false 0x0020; mk_case true false 0x0020; mk_case true false 0x0020;
    mk_case true false 0x0020; mk_case true false 0x0020; mk_case true false 0x0020; mk_case false true (-0x1dbf);
    mk_case true false (-0x0008); mk_case true false (-0x0008); mk_case true false (-0x0064); mk_case true false (-0x0064);
    mk_case false false 0x0000; mk_case false false 0x0000; mk_case false false 0x0000; mk_case false false 0x0000;
    mk_case true false (-0x0008); mk_case false false 0x0000; mk_case true false (-0x0008); mk_case false false 0x0000;
    mk_case true false (-0x0008); mk_case false false 0x0000; mk_case true false (-0x0008); mk_case true false (-0x0008);
    mk_case true false (-0x004a); mk_case true false (-0x004a); mk_case true false (-0x0009); mk_case false false 0x0000;
    mk_case false true 0x1c25; mk_case false false 0x0000; mk_case false true 0x0020; mk_case false true 0x0020;
    mk_case false true 0x0020; mk_case false true 0x0020; mk_case false true 0x0020; mk_case false true 0x0020;
    mk_case false true 0x0020; mk_case false true 0x0020; mk_case false true (-0x0079); mk_case false true (-0x2a1f);
    mk_case false true (-0x2a1c); mk_case false true (-0x2a1e); mk_case false true 0x00d2; mk_case false true 0x00ce;
    mk_case false true 0x0000; mk_case false true 0x00cd; mk_case false true 0x00cd; mk_case false true (-0xa54b);
    mk_case false true 0x0000; mk_case false true 0x00cf; mk_case false true (-0xa567); mk_case false true (-0xa528);
    mk_case false true (-0xa544); mk_case false true 0x0000; mk_case true false 0x0020; mk_case true false 0x0020;
    mk_case true false 0x0020; mk_case true false 0x0020; mk_case true false 0x0020; mk_case true false 0x0020;
    mk_case true false 0x0020; mk_case false false 0x0000; mk_case false false 0x0000; mk_case false false 0x0000;
    mk_case false false 0x0000; mk_case false false 0x0000; mk_case false true (-0x02e7); mk_case false false 0x0000;
    mk_case false false 0x0000; mk_case false true 0x0000; mk_case false true (-0x0009); mk_case false true 0x0000;
    mk_case false false 0x0000; mk_case false true 0x0000; mk_case false true 0x0000; mk_case false true 0x0000;
    mk_case false true 0x0000; mk_case true false 0x0000; mk_case true false 0x0000; mk_case false false 0x0000;
    mk_case true false 0x0000; mk_case true false 0x0000; mk_case true false 0x0000; mk_case false true 0x0000;
    mk_case false false 0x0000; mk_case true false 0x0000; mk_case false false 0x0000; mk_case false false 0x0000;
    mk_case false true (-0x0008); mk_case false true (-0x0008); mk_case false true 0x0000; mk_case false true 0x0000;
    mk_case false true 0x0000; mk_case false true (-0x0007); mk_case false true 0x0000; mk_case false true 0x0000;
    mk_case true false 0x0001; mk_case false true 0x0001; mk_case true false 0x0001; mk_case false true 0x0001;
    mk_case true false 0x0001; mk_case false true 0x0001; mk_case true false 0x0001; mk_case false true 0x0001;
    mk_case false true 0x000f; mk_case true false 0x0000; mk_case true false 0x0000; mk_case true false 0x0000;
    mk_case true false 0x0000; mk_case true false 0x0000; mk_case false false 0x0000; mk_case true false 0x0000;
    mk_case false false 0x0000; mk_case true false (-0x20bf); mk_case true false (-0x2046); mk_case true false 0x0000;
    mk_case true false 0x0000; mk_case false false 0x0000; mk_case false true 0x0000; mk_case false false 0x0000;
    mk_case false false 0x0000; mk_case false true 0x0000; mk_case false true 0x0000; mk_case true false 0x0000;
    mk_case true false 0x0000; mk_case true false 0x0000; mk_case true false 0x0000; mk_case true false 0x0000;
    mk_case false false 0x0000; mk_case false true 0x0000; mk_case false true 0x0000; mk_case false true 0x0000;
    mk_case false true 0x0000; mk_case false true 0x0000; mk_case false true 0x0000; mk_case false true 0x0000;
    mk_case false true 0x0000; mk_case false false 0x0000; mk_case false false 0x0000; mk_case false false 0x0000;
    mk_case false false 0x0000; mk_case false false 0x0000; mk_case false false 0x0000; mk_case true false 0x001a;
    mk_case true false 0x001a; mk_case true false 0x001a; mk_case true false 0x001a; mk_case true false 0x001a;
    mk_case true false 0x001a; mk_case true false 0x001a; mk_case true false 0x001a; mk_case false true (-0x89c2);
    mk_case true false 0x0001; mk_case false true 0x0001; mk_case false false 0x0000; mk_case false false 0x0000;
    mk_case false false 0x0000; mk_case false false 0x0000; mk_case false false 0x0000; mk_case false false 0x0000;
    mk_case true false 0x0026; mk_case false false 0x0000; mk_case true false (-0x0080); mk_case true false (-0x0080);
    mk_case true false (-0x007e); mk_case true false (-0x007e); mk_case true false (-0x0009); mk_case false false 0x0000;
    mk_case false false 0x0000; mk_case false false 0x0000; mk_case true false 0x0030; mk_case true false 0x0030;
    mk_case true false 0x0030; mk_case true false 0x0030; mk_case true false 0x0030; mk_case true false 0x0030;
    mk_case true false 0x0030; mk_case true false 0x0030; mk_case false false 0x0000; mk_case false true 0x003e;
    mk_case false true 0x0039; mk_case true false 0x0000; mk_case true false 0x0000; mk_case true false 0x0000;
    mk_case false true 0x002f; mk_case false true 0x0036; mk_case false true 0x0008; mk_case false true 0x0008;
    mk_case false true 0x0008; mk_case false true 0x0008; mk_case false true 0x0008; mk_case false true 0x0008;
    mk_case false false 0x0000; mk_case false false 0x0000; mk_case true false 0x0000; mk_case false false 0x0000;
    mk_case false false 0x0000; mk_case true false 0x0000; mk_case true false 0x0000; mk_case false false 0x0000;
    mk_case false false 0x0000; mk_case false false 0x0000; mk_case false false 0x0000; mk_case false false 0x0000;
    mk_case false false 0x0000; mk_case true false 0x0001; mk_case false true 0x0001; mk_case false false 0x0000;
    mk_case false false 0x0000; mk_case false false 0x0000; mk_case false false 0x0000; mk_case true false 0x0002;
    mk_case true true 0x0001; mk_case false true 0x0002; mk_case true false 0x0002; mk_case true true 0x0001;
    mk_case false true 0x0002; mk_case true false 0x0001; mk_case false true 0x0001; mk_case true false 0x0001;
    mk_case false true 0x0001; mk_case true false (-0x0030); mk_case true false (-0xa543); mk_case true false (-0x8a38);
    mk_case true false 0x0001; mk_case false true 0x0001; mk_case false true (-0x00a3); mk_case false true (-0xa641);
    mk_case true false 0x00d3; mk_case true false 0x00d5; mk_case false true (-0x0082); mk_case true false 0x00d6;
    mk_case true false (-0x00c7); mk_case false true 0x00e8; mk_case true false 0x0001; mk_case false true 0x0001;
    mk_case true false 0x0001; mk_case false true 0x0001; mk_case true false 0x0001; mk_case false true 0x0001;
    mk_case true false 0x00da; mk_case true false 0x0001; mk_case true false 0x000f; mk_case true false 0x0001;
    mk_case false true 0x0001; mk_case true false 0x0001; mk_case false true 0x0001; mk_case true false 0x0001;
    mk_case false true 0x0001; mk_case true false 0x0001; mk_case false true 0x0001; mk_case true false 0x0001;
    mk_case false true 0x0001; mk_case true false (-0x2a1c); mk_case true false (-0x29fd); mk_case true false (-0x2a1f);
    mk_case false true 0x0001; mk_case false true 0x0000; mk_case true false 0x0001; mk_case false true 0x0001;
    mk_case true false 0x0001; mk_case false true 0x0001; mk_case true false 0x0001; mk_case false true 0x0001;
    mk_case false true 0x0000; mk_case false true 0x0000; mk_case false true 0x0000; mk_case false true 0x0000;
    mk_case true false 0x0000; mk_case false false 0x0000; mk_case true false 0x0000; mk_case true false 0x0000;
    mk_case true false 0x001c; mk_case true false 0x0000; mk_case false true 0x0000; mk_case false false 0x0000;
    mk_case false false 0x0000; mk_case false false 0x0000; mk_case false true 0x0001; mk_case true false (-0x0007);
    mk_case true false 0x0001; mk_case false true 0x0001; mk_case false true 0x0000; mk_case true false (-0x0082);
    mk_case true false (-0x0082); mk_case true false (-0x0082); mk_case false true 0x0000; mk_case true false 0x0001;
    mk_case false true 0x0001; mk_case true false 0x0001; mk_case false true 0x0001; mk_case true false 0x0001;
    mk_case false true 0x0001; mk_case false false 0x0000; mk_case false false 0x0000; mk_case true false 0x0001;
    mk_case false true 0x0001; mk_case true false 0x0001; mk_case false true 0x0001; mk_case true false 0x0001;
    mk_case false true 0x0001; mk_case false true 0x004f; mk_case true false 0x0001; mk_case false true 0x0001;
    mk_case true false (-0xa544); mk_case true false (-0xa54f); mk_case true false (-0xa54b); mk_case true false (-0xa541);
    mk_case true false (-0xa544); mk_case false true 0x0000; mk_case false true 0x00ca; mk_case false true 0x0000;
    mk_case false true 0x00cb; mk_case false true (-0xa54f); mk_case false true 0x0000; mk_case false true 0x0000;
    mk_case false true 0x0000; mk_case false true 0x03a0; mk_case false true 0x0000; mk_case false true 0x0000;
    mk_case false true 0x0000; mk_case false true 0x0000; mk_case false true 0x0000; mk_case false false 0x0000;
    mk_case false true 0x0000; mk_case false true 0x0000; mk_case false true 0x0000; mk_case false true 0x0000;
    mk_case false true 0x0000; mk_case false true 0x0000; mk_case true false (-0x2a3f); mk_case true false (-0x2a3f);
    mk_case true false 0x1c60; mk_case true false 0x1c60; mk_case true false 0x1c60; mk_case true false 0x1c60;
    mk_case true false 0x1c60; mk_case true false 0x1c60; mk_case true false 0x1c60; mk_case true false 0x1c60;
    mk_case false false 0x0000; mk_case true false 0x1c60; mk_case false true (-0x0008); mk_case false true (-0x0008);
    mk_case false true (-0x0008); mk_case false true (-0x0008); mk_case false true (-0x0008); mk_case false true (-0x0008);
    mk_case false true (-0x0008); mk_case false true (-0x0008); mk_case false false 0x0000; mk_case false false 0x0000;
    mk_case true false (-0x0008); mk_case true false (-0x0008); mk_case true false (-0x0008); mk_case true false (-0x0008);
    mk_case true false (-0x0008); mk_case true false (-0x0008); mk_case true false (-0x0008); mk_case true false (-0x0008);
    mk_case false false 0x0000; mk_case false false 0x0000; mk_case false true 0x1c60; mk_case false true 0x1c60;
    mk_case false true 0x1c60; mk_case false true 0x1c60; mk_case false true 0x1c60; mk_case false true 0x1c60;
    mk_case false true 0x1c60; mk_case false true 0x1c60; mk_case false false 0x0000; mk_case false true 0x1c60;
    mk_case true false 0x0022; mk_case true false 0x0022; mk_case true false 0x0022; mk_case true false 0x0022;
    mk_case true false 0x0022; mk_case true false 0x0022; mk_case true false 0x0022; mk_case true false 0x0022;
    mk_case false true 0x0022; mk_case false true 0x0022; mk_case false true 0x0022; mk_case false true 0x0022;
    mk_case false true 0x0022; mk_case false true 0x0022; mk_case false true 0x0022; mk_case false true 0x0022;
    mk_case false false 0x0000; mk_case false false 0x0000; mk_case false false 0x0000; mk_case false false 0x0000;
    mk_case true false 0x0001; mk_case false true 0x0001; mk_case true false 0x0001; mk_case false true 0x0001;
    mk_case false false 0x0000; mk_case false true (-0x0008); mk_case false true (-0x0008); mk_case false true 0x0000;
    mk_case false true (-0x0009); mk_case false true 0x0000; mk_case false false 0x0000; mk_case false true 0x0000;
    mk_case false true 0x0000; mk_case false true 0x00db; mk_case false true 0x0000; mk_case false false 0x0000;
    mk_case false false 0x0000; mk_case false true 0x0000; mk_case false true 0x0000; mk_case false true 0x0000;
    mk_case false false 0x0000; mk_case false true 0x0000; mk_case false false 0x0000; mk_case false true 0x0000;
    mk_case false true 0x0000; mk_case false true 0x0000; mk_case false true 0x0000; mk_case true false 0x0001;
    mk_case false true 0x0001; mk_case false false 0x0000; mk_case false true 0x001a; mk_case false true 0x001a;
    mk_case false true 0x001a; mk_case false true 0x001a; mk_case false true 0x001a; mk_case false true 0x001a;
    mk_case false true 0x001a; mk_case false true 0x001a; mk_case false false 0x0000; mk_case false false 0x0000;
    mk_case false false 0x0000; mk_case false false 0x0000; mk_case false false 0x0000; mk_case false false 0x0000;
    mk_case false true (-0x0054); mk_case false false 0x0000; mk_case false false 0x0000; mk_case true false 0x0040;
    mk_case true false 0x0040; mk_case true false 0x0040; mk_case true false 0x0040; mk_case true false 0x0040;
    mk_case true false 0x0040; mk_case true false 0x0040; mk_case true false 0x0040; mk_case false false 0x0000;
    mk_case false false 0x0000; mk_case false false 0x0000; mk_case false false 0x0000; mk_case false false 0x0000;
    mk_case true false 0x0000; mk_case false true 0x0000; mk_case false true 0x0000; mk_case true false 0x0000;
    mk_case false true 0x0000; mk_case false false 0x0000; mk_case false false 0x0000; mk_case false false 0x0000;
    mk_case false false 0x0000; mk_case false true 0x0040; mk_case false true 0x0040; mk_case false true 0x0040;
    mk_case false true 0x0040; mk_case false true 0x0040; mk_case false true 0x0040; mk_case false true 0x0040;
    mk_case false true 0x0040; mk_case false false 0x0000; mk_case false false 0x0000; mk_case false false 0x0000;
    mk_case false false 0x0000; mk_case false false 0x0000; mk_case false true 0x1c60; mk_case false false 0x0000;
    mk_case false false 0x0000; mk_case true false 0x001b; mk_case true false 0x001b; mk_case true false 0x001b;
    mk_case true false 0x001b; mk_case true false 0x001b; mk_case true false 0x001b; mk_case true false 0x001b;
    mk_case true false 0x001b; mk_case false false 0x0000; mk_case false false 0x0000; mk_case false true 0x001b;
    mk_case false true 0x001b; mk_case false true 0x001b; mk_case false true 0x001b; mk_case false true 0x001b;
    mk_case false true 0x001b; mk_case false true 0x001b; mk_case false true 0x001b; mk_case false false 0x0000;
    mk_case false false 0x0000; mk_case false false 0x0000; mk_case false false 0x0000; mk_case true false 0x0001;
    mk_case false true 0x0001; mk_case true false (-0xa528); mk_case false true 0x0000; mk_case false false 0x0000;
    mk_case false true 0x0020; mk_case false true 0x0020; mk_case false true 0x001f; mk_case false true 0x0020;
    mk_case false true 0x0020; mk_case false true 0x0020; mk_case false true 0x0020; mk_case false true 0x0020;
    mk_case false true 0x0040; mk_case false true 0x003f; mk_case false true 0x003f; mk_case true false 0x0008;
    mk_case true false 0x0008; mk_case true false 0x0008; mk_case true false 0x0008; mk_case true false 0x0008;
    mk_case true false 0x0008; mk_case false false 0x0000; mk_case false false 0x0000; mk_case false true 0x0000;
    mk_case true false 0x0000; mk_case true false 0x0000; mk_case true false 0x0000; mk_case false true 0x0000;
    mk_case false true 0x0000; mk_case false true 0x0000; mk_case false true 0x0000; mk_case false true 0x0000;
    mk_case false true 0x0000; mk_case true false 0x0000; mk_case true false 0x0000; mk_case true false 0x0000;
    mk_case true false 0x0000; mk_case true false 0x0000; mk_case true false 0x0000; mk_case true false 0x0000;
    mk_case true false 0x0000; mk_case false false 0x0000; mk_case true false 0x0000; mk_case true false 0x0000;
    mk_case true false 0x0000; mk_case true false 0x0000; mk_case false false 0x0000; mk_case true false 0x0000;
    mk_case true false 0x0000; mk_case true false 0x0000; mk_case true false 0x0000; mk_case true false 0x0000;
    mk_case false false 0x0000; mk_case false false 0x0000; mk_case true false 0x0000; mk_case true false 0x0000;
    mk_case true false 0x0000; mk_case true false 0x0000; mk_case true false 0x0000; mk_case true false 0x0000;
    mk_case false true 0x0000; mk_case false true 0x0000; mk_case false true 0x0000; mk_case false true 0x003b;
    mk_case false true 0x0000; mk_case false true 0x0000; mk_case true false (-0x1dbf); mk_case false true 0x0000;
    mk_case false true 0x0030; mk_case false true 0x0030; mk_case false true 0x0030; mk_case false true 0x0030;
    mk_case false true 0x0030; mk_case false true 0x0030; mk_case false true 0x0030; mk_case false true 0x0030;
    mk_case false true 0x0000; mk_case false true (-0x0008); mk_case false true 0x0000; mk_case false true (-0x0008);
    mk_case false true 0x0000; mk_case false true (-0x0008); mk_case false true 0x0000; mk_case false true (-0x0008);
    mk_case false true (-0x0008); mk_case false true 0x0000; mk_case false true 0x0000; mk_case false false 0x0000;
    mk_case false false 0x0000; mk_case false true 0x0000; mk_case false true 0x0000; mk_case false true (-0x8a04);
    mk_case false true 0x0000; mk_case false true 0x0000; mk_case false true 0x0000; mk_case false true (-0x0ee6);
    mk_case false true 0x0000; mk_case false true 0x0000; mk_case false true 0x0020; mk_case false true 0x0020;
    mk_case false true 0x0020; mk_case false true 0x0020; mk_case false true 0x0020; mk_case false true 0x0020;
    mk_case false true 0x0020; mk_case false false 0x0000; mk_case false false 0x0000; mk_case false false 0x0000;
    mk_case false false 0x0000; mk_case false false 0x0000; mk_case true false 0x1c60; mk_case false false 0x0000;
    mk_case false false 0x0000; mk_case false true 0x0000; mk_case false true (-0x0082); mk_case false true (-0x0082);
    mk_case false true (-0x0082); mk_case false false 0x0000; mk_case true false 0x0074; mk_case false true 0x0001;
    mk_case true false 0x0001; mk_case false true 0x0001; mk_case true false (-0xa567); mk_case true false 0x0001;
    mk_case false true 0x0001; mk_case true false 0x0001; mk_case false true 0x0001; mk_case false true 0x0000;
    mk_case false true 0x0000; mk_case false false 0x0000; mk_case false false 0x0000; mk_case false false 0x0000;
    mk_case false false 0x0000; mk_case false true 0x001c; mk_case false false 0x0000; mk_case true false (-0xa512);
    mk_case true false (-0xa52a); mk_case true false (-0xa515); mk_case true false 0x03a0; mk_case true false 0x0001;
    mk_case false true 0x0001; mk_case true false 0x0001; mk_case false true 0x0001; mk_case false true 0x0000;
    mk_case false false 0x0000; mk_case false false 0x0000; mk_case false false 0x0000; mk_case true false 0x0028;
    mk_case true false 0x0028; mk_case true false 0x0028; mk_case true false 0x0028; mk_case true false 0x0028;
    mk_case true false 0x0028; mk_case true false 0x0028; mk_case true false 0x0028; mk_case false false 0x0000;
    mk_case false false 0x0000; mk_case false false 0x0000; mk_case false false 0x0000; mk_case false true 0x0028;
    mk_case false true 0x0028; mk_case false true 0x0028; mk_case false true 0x0028; mk_case false true 0x0028;
    mk_case false true 0x0028; mk_case false true 0x0028; mk_case false true 0x0028; mk_case false false 0x0000;
    mk_case false false 0x0000; mk_case false false 0x0000; mk_case false false 0x0000; mk_case true false 0x0027;
    mk_case true false 0x0027; mk_case true false 0x0027; mk_case false false 0x0000; mk_case true false 0x0027;
    mk_case true false 0x0027; mk_case true false 0x0027; mk_case true false 0x0027; mk_case true false 0x0027;
    mk_case true false 0x0027; mk_case true false 0x0027; mk_case true false 0x0027; mk_case false false 0x0000;
    mk_case true false 0x0027; mk_case true false 0x0027; mk_case false false 0x0000; mk_case false true 0x0027;
    mk_case false true 0x0027; mk_case false false 0x0000; mk_case false true 0x0027; mk_case false true 0x0027;
    mk_case false true 0x0027; mk_case false true 0x0027; mk_case false true 0x0027; mk_case false true 0x0027;
    mk_case false true 0x0027; mk_case false true 0x0027; mk_case false false 0x0000; mk_case false true 0x0027;
    mk_case false true 0x0027; mk_case false false 0x0000; mk_case false false 0x0000; mk_case false false 0x0000;
    mk_case true false (-0x2a1e); mk_case false true 0x0000; mk_case true false 0x0001; mk_case false true 0x0001;
    mk_case false true 0x0000; mk_case true false 0x0001; mk_case false true 0x0001; mk_case false true 0x0000;
    mk_case false false 0x0000; mk_case true false 0x0001; mk_case false true 0x0001; mk_case false true 0x0000;
    mk_case false true (-0x0038); mk_case false true 0x00da; mk_case false true 0x0045; mk_case false true 0x00d9;
    mk_case false true 0x00d9; mk_case false true 0x0047; mk_case false true 0x0000; mk_case false true 0x0000;
    mk_case false true 0x0000; mk_case false true 0x0000; mk_case false true 0x0000; mk_case false true (-0x29e7);
    mk_case false true 0x0000; mk_case false true 0x0000; mk_case false true 0x0000; mk_case false true 0x0000;
    mk_case false true 0x0000; mk_case false true 0x0000; mk_case false true (-0x8a38); mk_case false true 0x0000;
    mk_case false true (-0x29fd); mk_case false true 0x00d5; mk_case false true 0x0000; mk_case false true 0x0000;
    mk_case false true 0x00d6; mk_case false true 0x0000; mk_case false true 0x0000; mk_case true false 0x2a2b;
    mk_case true false 0x0001; mk_case false true 0x0001; mk_case true false (-0x00a3); mk_case true false 0x2a28;
    mk_case false true (-0x2a3f); mk_case true false 0x0001; mk_case false true 0x0001; mk_case true false (-0x00c3);
    mk_case true false 0x0045; mk_case true false 0x0047; mk_case true false 0x0001; mk_case false true 0x0001;
    mk_case true false 0x0001; mk_case false true 0x0001; mk_case true false (-0xa641); mk_case false false 0x0000;
    mk_case false false 0x0000; mk_case false false 0x0000; mk_case true false 0x0000; mk_case false false 0x0000;
    mk_case false false 0x0000; mk_case false false 0x0000; mk_case false false 0x0000; mk_case true false 0x0000;
    mk_case false false 0x0000; mk_case true false (-0x1d5d); mk_case false false 0x0000; mk_case false true (-0x0bc0);
    mk_case false true (-0x0bc0); mk_case false true (-0x0bc0); mk_case false true (-0x0bc0); mk_case false true (-0x0bc0);
    mk_case false true (-0x0bc0); mk_case false true (-0x0bc0); mk_case false true (-0x0bc0); mk_case false false 0x0000;
    mk_case false true 0x0000; mk_case false true (-0x0bc0); mk_case false true (-0x0bc0); mk_case false true (-0x0bc0);
    mk_case true false (-0x0bc0); mk_case true false (-0x0bc0); mk_case true false (-0x0bc0); mk_case true false (-0x0bc0);
    mk_case true false (-0x0bc0); mk_case true false (-0x0bc0); mk_case true false (-0x0bc0); mk_case true false (-0x0bc0);
    mk_case false false 0x0000; mk_case false false 0x0000; mk_case true false (-0x0bc0); mk_case true false (-0x0bc0);
    mk_case true false (-0x0bc0); mk_case false true 0x0001; mk_case true false 0x00da; mk_case false true 0x0000;
    mk_case false true 0x0000; mk_case true false 0x0001; mk_case false true 0x0001; mk_case true false 0x00da;
    mk_case true false 0x0001; mk_case false true 0x0001; mk_case true false 0x0001; mk_case false true 0x0001;
    mk_case false true (-0x0030); mk_case false true 0x0000; mk_case true false 0x0001; mk_case false true 0x0001;
    mk_case true false 0x0001; mk_case false true 0x0001; mk_case true false (-0x8a04); mk_case true false 0x0001;
    mk_case false true 0x0001; mk_case true false (-0x29f7); mk_case true false (-0x0ee6); mk_case true false (-0x29e7);
    mk_case false true 0x2a2b; mk_case false true 0x2a28; mk_case true false 0x0001; mk_case true false (-0x0079);
    mk_case true false 0x0001; mk_case false true 0x0001; mk_case true false 0x0001; mk_case false true 0x0001;
    mk_case true false 0x0001; mk_case false true 0x0001; mk_case false true 0x012c; mk_case true false (-0x0056);
    mk_case true false (-0x0056); mk_case true false (-0x0056); mk_case true false (-0x0056); mk_case true false (-0x0009);
    mk_case false false 0x0000; mk_case false false 0x0000; mk_case false false 0x0000; mk_case true false (-0x0008);
    mk_case true false (-0x0008); mk_case true false (-0x0070); mk_case true false (-0x0070); mk_case true false (-0x0007);
    mk_case false false 0x0000; mk_case false false 0x0000; mk_case false false 0x0000; mk_case false true (-0x00c3);
    mk_case true false 0x00d2; mk_case true false 0x0001; mk_case false true 0x0001; mk_case true false 0x0001;
    mk_case false true 0x0001; mk_case true false 0x00ce; mk_case true false 0x0001; mk_case false true (-0x004a);
    mk_case false true (-0x004a); mk_case false true (-0x0056); mk_case false true (-0x0056); mk_case false true (-0x0056);
    mk_case false true (-0x0056); mk_case false true (-0x0064); mk_case false true (-0x0064); mk_case false true 0x0001;
    mk_case true false 0x00cd; mk_case true false 0x00cd; mk_case true false 0x0001; mk_case false true 0x0001;
    mk_case false true 0x0000; mk_case true false 0x004f; mk_case true false 0x00ca; mk_case false true 0x0001;
    mk_case true false 0x00d9; mk_case true false 0x00d9; mk_case true false 0x0001; mk_case false true 0x0001;
    mk_case true false 0x0001; mk_case false true 0x0001; mk_case true false 0x00db; mk_case false true 0x0010;
    mk_case false true 0x0010; mk_case false true 0x0010; mk_case false true 0x0010; mk_case false true 0x0010;
    mk_case false true 0x0010; mk_case false true 0x0010; mk_case false true 0x0010; mk_case false true 0x0050;
    mk_case false true 0x0050; mk_case false true 0x0050; mk_case false true 0x0050; mk_case false true 0x0050;
    mk_case false true 0x0050; mk_case false true 0x0050; mk_case false true 0x0050; mk_case false true 0x0056;
    mk_case false true 0x0050; mk_case false true (-0x0007); mk_case false true 0x0074; mk_case true false (-0x003c);
    mk_case false true 0x0060; mk_case false false 0x0000; mk_case true false 0x0001; mk_case false true 0x00d1;
    mk_case false true 0x00d3; mk_case false true (-0xa544); mk_case false true (-0x29f7); mk_case false true (-0xa541);
    mk_case false true 0x0000; mk_case false true 0x0000; mk_case false true 0x00d3; mk_case false true 0x00da;
    mk_case false true 0x0000; mk_case false true (-0xa543); mk_case false true 0x00da; mk_case false true 0x0000;
    mk_case false true 0x0000; mk_case false true 0x0000; mk_case false true (-0xa52a); mk_case false true 0x186e;
    mk_case false true 0x186d; mk_case false true 0x1864; mk_case false true 0x1862; mk_case false true 0x1862;
    mk_case false true 0x1863; mk_case false true 0x185c; mk_case false true 0x1825; mk_case false true 0x97d0;
    mk_case false true 0x97d0; mk_case false true 0x97d0; mk_case false true 0x97d0; mk_case false true 0x97d0;
    mk_case false true 0x97d0; mk_case false true 0x97d0; mk_case false true 0x97d0; mk_case true false 0x0010;
    mk_case true false 0x0010; mk_case true false 0x0010; mk_case true false 0x0010; mk_case true false 0x0010;
    mk_case true false 0x0010; mk_case true false 0x0010; mk_case true false 0x0010; mk_case true false 0x0020;
    mk_case true false 0x0020; mk_case true false 0x0020; mk_case true false 0x0020; mk_case false true 0x0026;
    mk_case false true 0x0025; mk_case false true 0x0025; mk_case false true 0x0025; mk_case true false 0x0025;
    mk_case true false 0x0025; mk_case true false 0x0025; mk_case false false 0x0000; mk_case true false 0x0040;
    mk_case false false 0x0000; mk_case true false 0x003f; mk_case true false 0x003f; mk_case true false 0x0050;
    mk_case true false 0x0050; mk_case true false 0x0050; mk_case true false 0x0050; mk_case true false 0x0050;
    mk_case true false 0x0050; mk_case true false 0x0050; mk_case true false 0x0050; mk_case true false 0x00cb;
    mk_case true false 0x0001; mk_case false true 0x0001; mk_case true false 0x00cd; mk_case true false 0x00cf;
    mk_case false true (-0x0061); mk_case true false 0x00d3; mk_case true false 0x00d1; mk_case true false 0x97d0;
    mk_case true false 0x97d0; mk_case true false 0x97d0; mk_case true false 0x97d0; mk_case true false 0x97d0;
    mk_case true false 0x97d0; mk_case true false 0x97d0; mk_case true false 0x97d0 ].

Definition legacy_keysym_offsets1 : list Z :=
  [ 0x0002; 0x0002; 0x0002; 0x0002; 0x0002; 0x0002; 0x0002; 0x0002; 0x0002; 0x0002; 0x0002; 0x0002;
    0x0002; 0x0002; 0x0002; 0x0002; 0x0002; 0x0002; 0x0002; 0x0002; 0x0002; 0x0002; 0x0002; 0x0002;
    0x0002; 0x0002; 0x0002; 0x0002; 0x0002; 0x0002; 0x0002; 0x0002; 0x0003; 0x0006; 0x0006; 0x0006;
    0x0006; 0x0006; 0x0006; 0x0006; 0x0006; 0x0006; 0x0006; 0x0006; 0x0006; 0x0007; 0x0002; 0x0002;
    0x000b; 0x000c; 0x000c; 0x000c; 0x000c; 0x000c; 0x000c; 0x000c; 0x000c; 0x000c; 0x000c; 0x000c;
    0x000c; 0x000a; 0x0002; 0x0002; 0x0002; 0x0002; 0x0002; 0x0002; 0x0002; 0x0002; 0x0002; 0x0002;
    0x0002; 0x0002; 0x0002; 0x0002; 0x0002; 0x0002; 0x0010; 0x0011; 0x0011; 0x0010; 0x0011; 0x0010;
    0x0002; 0x0002; 0x0014; 0x001a; 0x001a; 0x0019; 0x001a; 0x0019; 0x0002; 0x0002; 0x0003; 0x0006;
    0x0006; 0x0006; 0x0006; 0x0006; 0x0006; 0x0006; 0x0006; 0x0007; 0x0006; 0x0006; 0x0006; 0x0002;
    0x0002; 0x0002; 0x000b; 0x000c; 0x000c; 0x000c; 0x000c; 0x000c; 0x000c; 0x000c; 0x000c; 0x002b;
    0x000c; 0x000c; 0x000c; 0x0002; 0x0002; 0x0002; 0x0002; 0x0002; 0x0002; 0x0002; 0x0002; 0x0002;
    0x0002; 0x0002; 0x0002; 0x0002; 0x0002; 0x0002; 0x0002; 0x0002; 0x0002; 0x0002; 0x0002; 0x0002;
    0x0002; 0x0002; 0x0002; 0x0002; 0x0002; 0x0002; 0x0002; 0x0002; 0x0002; 0x0002; 0x0002; 0x0002;
    0x0002; 0x0002; 0x0002; 0x0002; 0x0002; 0x0002; 0x0002; 0x0002; 0x0002; 0x0002; 0x0002; 0x0002;
    0x0002; 0x0002; 0x0002; 0x0002; 0x0002; 0x0002; 0x0002; 0x0002; 0x0002; 0x0002; 0x0002; 0x0002;
    0x0002; 0x0002; 0x0002; 0x0002; 0x0002; 0x0002; 0x0002; 0x0013; 0x0002; 0x0002; 0x0002; 0x0002;
    0x0002; 0x0002; 0x0002; 0x0002; 0x0002; 0x0002; 0x0002; 0x0002; 0x0002; 0x0002; 0x0002; 0x0002;
    0x0002; 0x0002; 0x0002; 0x0002; 0x0002; 0x0002; 0x0002; 0x0002; 0x0002; 0x0002; 0x0002; 0x0002;
    0x0002; 0x0002; 0x002d; 0x0020; 0x0002; 0x0002; 0x0002; 0x0002; 0x0002; 0x0002; 0x0002; 0x0002;
    0x0002; 0x0002; 0x0002; 0x0002; 0x0002; 0x0002; 0x0002; 0x0002; 0x0002; 0x0000; 0x0010; 0x0001;
    0x0002; 0x0011; 0x0001; 0x0002; 0x0002; 0x0014; 0x0014; 0x0015; 0x0002; 0x001a; 0x001b; 0x0027;
    0x0007; 0x0002; 0x0002; 0x0003; 0x0002; 0x0002; 0x0007; 0x0003; 0x0003; 0x0006; 0x0002; 0x0002;
    0x0003; 0x0002; 0x0003; 0x0007; 0x000a; 0x0002; 0x0002; 0x000b; 0x0002; 0x0002; 0x000a; 0x000b;
    0x000b; 0x000c; 0x0002; 0x0002; 0x000b; 0x0002; 0x000b; 0x000a; 0x0002; 0x0002; 0x0002; 0x0002;
    0x0002; 0x0002; 0x0002; 0x0002; 0x0002; 0x0002; 0x0002; 0x0002; 0x0002; 0x0002; 0x0002; 0x0002;
    0x0002; 0x0002; 0x0002; 0x0002; 0x0002; 0x000f; 0x0002; 0x0002; 0x0002; 0x0002; 0x0008; 0x0002;
    0x0002; 0x000f; 0x0002; 0x0002; 0x0006; 0x0006; 0x0006; 0x0006; 0x0006; 0x0006; 0x0006; 0x0006;
    0x0006; 0x0006; 0x0006; 0x0007; 0x0006; 0x0006; 0x0006; 0x0004; 0x000c; 0x000c; 0x000c; 0x000c;
    0x000c; 0x000c; 0x000c; 0x000c; 0x000c; 0x000c; 0x000c; 0x000a; 0x000c; 0x000c; 0x000c; 0x000d;
    0x0002; 0x0002; 0x0002; 0x0002; 0x0002; 0x0002; 0x0002; 0x0002; 0x0002; 0x0002; 0x0002; 0x0002;
    0x0002; 0x0002; 0x0002; 0x0002; 0x0010; 0x0002; 0x0002; 0x0001; 0x0025; 0x0010; 0x0001; 0x0002;
    0x0014; 0x0002; 0x0002; 0x0015; 0x0029; 0x0014; 0x0015; 0x0002; 0x0002; 0x0002; 0x0003; 0x0007;
    0x0002; 0x0002; 0x0002; 0x0002; 0x0002; 0x0002; 0x0003; 0x0002; 0x0007; 0x0002; 0x0003; 0x0007;
    0x0002; 0x0002; 0x000b; 0x000a; 0x0002; 0x0002; 0x0002; 0x0002; 0x0002; 0x0002; 0x000b; 0x0002;
    0x000a; 0x0002; 0x000b; 0x000a; 0x0002; 0x0002; 0x0002; 0x0002; 0x0002; 0x0002; 0x0002; 0x0002;
    0x0002; 0x0002; 0x0002; 0x0002; 0x0002; 0x0002; 0x0002; 0x0002; 0x0010; 0x0010; 0x0010; 0x0001;
    0x0010; 0x0011; 0x0001; 0x0011; 0x0014; 0x0014; 0x0014; 0x0015; 0x0014; 0x001a; 0x0015; 0x001a;
    0x0007; 0x0003; 0x0003; 0x0007; 0x0007; 0x0007; 0x0007; 0x0003; 0x0006; 0x0007; 0x0003; 0x0002;
    0x0006; 0x0003; 0x0002; 0x0007; 0x000a; 0x000b; 0x000b; 0x000a; 0x000a; 0x000a; 0x000a; 0x000b;
    0x000c; 0x000a; 0x000b; 0x0002; 0x000c; 0x000b; 0x0002; 0x000a; 0x0002; 0x0002; 0x0002; 0x0002;
    0x0002; 0x0002; 0x0002; 0x0002; 0x0002; 0x0002; 0x0002; 0x0002; 0x0002; 0x0002; 0x0002; 0x0002;
    0x0016; 0x0017; 0x0017; 0x0017; 0x0017; 0x0017; 0x0017; 0x0017; 0x001d; 0x001e; 0x001e; 0x001e;
    0x001e; 0x001e; 0x001e; 0x001e; 0x0023; 0x0023; 0x0023; 0x0023; 0x0023; 0x0023; 0x0023; 0x0023;
    0x0023; 0x0023; 0x0023; 0x0023; 0x0023; 0x0023; 0x0023; 0x0023; 0x0021; 0x0021; 0x0021; 0x0021;
    0x0021; 0x0021; 0x0021; 0x0021; 0x0021; 0x0021; 0x0021; 0x0021; 0x0021; 0x0021; 0x0021; 0x0021 ].

Definition legacy_keysym_offsets2 : list Z :=
  [ 0x0000; 0x011c; 0x007b; 0x019c; 0x007b; 0x015c; 0x007b; 0x00dc; 0x007b; 0x007b; 0x007b; 0x007b;
    0x007b; 0x01dc; 0x007b; 0x003e; 0x007b; 0x0080; 0x007b; 0x007b; 0x007b; 0x007b; 0x007b; 0x007b;
    0x007b; 0x007b; 0x007b; 0x007b; 0x007b; 0x007b; 0x007b; 0x007b; 0x007b; 0x007b; 0x007b; 0x007b;
    0x007b; 0x007b; 0x007b; 0x00bc ].

Definition unicode_offsets1 : list Z :=
  [ 0x00a6; 0x0009; 0x000e; 0x0009; 0x0009; 0x0009; 0x0009; 0x0009; 0x0009; 0x0009; 0x0009; 0x0009;
    0x0009; 0x0009; 0x0009; 0x0009; 0x0009; 0x0009; 0x0009; 0x0009; 0x0009; 0x0009; 0x0009; 0x0009;
    0x0009; 0x0009; 0x0009; 0x0009; 0x0009; 0x0009; 0x0009; 0x0009; 0x0009; 0x0009; 0x0009; 0x00ad;
    0x00b3; 0x00b3; 0x00b3; 0x01ca; 0x01ca; 0x01ca; 0x01d0; 0x0009; 0x0009; 0x018e; 0x018e; 0x018e;
    0x018e; 0x0190; 0x01f9; 0x0009; 0x0009; 0x0009; 0x0009; 0x0009; 0x0009; 0x0009; 0x0009; 0x0009;
    0x0009; 0x0009; 0x0009; 0x0009; 0x0009; 0x0009; 0x0009; 0x0009; 0x0009; 0x0009; 0x0009; 0x0009;
    0x0009; 0x0009; 0x0009; 0x0009; 0x0009; 0x0170; 0x0170; 0x0170; 0x0170; 0x0172; 0x0281; 0x0327;
    0x0327; 0x0327; 0x0327; 0x0327; 0x032c; 0x00a5; 0x0165; 0x00a5; 0x00a6; 0x000c; 0x00aa; 0x0009;
    0x0009; 0x0009; 0x0009; 0x0009; 0x0009; 0x0009; 0x0009; 0x0009; 0x0009; 0x0009; 0x0009; 0x0009;
    0x0009; 0x0009; 0x0009; 0x0009; 0x0009; 0x0009; 0x0009; 0x0009; 0x0009; 0x0009; 0x0009; 0x0009;
    0x0009; 0x0023; 0x0023; 0x0023; 0x0023; 0x0042; 0x0042; 0x0042; 0x0042; 0x0009; 0x0009; 0x0009;
    0x0009; 0x0201; 0x0201; 0x0201; 0x0208; 0x020b; 0x020b; 0x020f; 0x0009; 0x0009; 0x0009; 0x0009;
    0x0009; 0x0149; 0x0084; 0x0082; 0x0084; 0x0084; 0x0084; 0x0084; 0x0084; 0x0084; 0x0084; 0x00a5;
    0x034d; 0x0084; 0x0214; 0x0348; 0x0084; 0x0084; 0x0152; 0x029f; 0x0084; 0x00fd; 0x028f; 0x0084;
    0x0316; 0x0009; 0x0009; 0x01c2; 0x00aa; 0x0239; 0x0239; 0x0239; 0x0231; 0x00a5; 0x00a5; 0x0235;
    0x0239; 0x0239; 0x024e; 0x0162; 0x00a5; 0x00a5; 0x0239; 0x0239; 0x0239; 0x0231; 0x00a5; 0x00a5;
    0x012c; 0x00e4; 0x0241; 0x024e; 0x01be; 0x0163; 0x00a5; 0x0239; 0x0239; 0x0239; 0x0231; 0x00a5;
    0x00a5; 0x0162; 0x0235; 0x0239; 0x0239; 0x009f; 0x00a5; 0x00a5; 0x00a6; 0x0233; 0x0239; 0x0239;
    0x023a; 0x00a5; 0x00a5; 0x00a5; 0x0166; 0x0239; 0x0239; 0x0239; 0x00a3; 0x00a5; 0x00a5; 0x0164;
    0x01e9; 0x0009; 0x0009; 0x0009; 0x0009; 0x0009; 0x0009; 0x00a5; 0x00a5; 0x00a5; 0x00a5; 0x015e;
    0x0164; 0x00a5; 0x00ab; 0x03c3; 0x03c3; 0x03c3; 0x03c3; 0x03c3; 0x03c3; 0x03c3; 0x03c3; 0x03c3;
    0x03c3; 0x0009; 0x0009; 0x0009; 0x0009; 0x0009; 0x0009; 0x0009; 0x0009; 0x00a5; 0x00a5; 0x00a5;
    0x00a5; 0x00a5; 0x00a5; 0x00a5; 0x00a7; 0x0009; 0x0009; 0x0009; 0x0009; 0x0009; 0x0009; 0x0009;
    0x0009; 0x0009; 0x0009; 0x0009; 0x0009; 0x0009; 0x0009; 0x0009; 0x0009; 0x0009; 0x0009; 0x03bb;
    0x00bb; 0x0334; 0x0334; 0x0334; 0x0334; 0x0334; 0x0339; 0x0009; 0x0009; 0x0009; 0x0009; 0x0009;
    0x0009; 0x0009; 0x0009; 0x01d3; 0x0009; 0x0009; 0x0009; 0x0009; 0x0009; 0x0145; 0x0287; 0x00be;
    0x03db; 0x0059; 0x0023; 0x0020; 0x03d3; 0x0279; 0x0042; 0x021c; 0x0220; 0x00d7; 0x0084; 0x0084;
    0x0084; 0x03a3; 0x013a; 0x0198; 0x0198; 0x0198; 0x0198; 0x019e; 0x01a0; 0x01a0; 0x01a0; 0x01a4;
    0x0009; 0x0009; 0x0009; 0x0009; 0x0009; 0x0009; 0x0009; 0x0009; 0x0009; 0x0009; 0x0009; 0x0009;
    0x0009; 0x0009; 0x0009; 0x0009; 0x0009; 0x0009; 0x0009; 0x0009; 0x0009; 0x0009; 0x0009; 0x01ba;
    0x00a5; 0x00a5; 0x00a5; 0x00a5; 0x00a5; 0x0166; 0x00aa; 0x0009; 0x0009; 0x0009; 0x0009; 0x0009;
    0x0009; 0x0009; 0x0009; 0x0022; 0x0023; 0x0023; 0x005e; 0x0041; 0x0042; 0x0042; 0x027e; 0x0009;
    0x0009; 0x0009; 0x0009; 0x0009; 0x0006; 0x0061; 0x0006; 0x0023; 0x0023; 0x005a; 0x0024; 0x0042;
    0x0042; 0x027a; 0x0043; 0x031c; 0x022d; 0x0074; 0x0246; 0x031f; 0x0093; 0x0132; 0x0099; 0x01e3;
    0x0297; 0x0009; 0x0009; 0x03cb; 0x03cb; 0x0393; 0x0393; 0x00ee; 0x0009; 0x0009; 0x0009; 0x0009;
    0x0009; 0x0009; 0x0009; 0x0009; 0x0009; 0x0009; 0x0009; 0x0009; 0x0009; 0x0009; 0x0009; 0x0009;
    0x01db; 0x01db; 0x01db; 0x01db; 0x01db; 0x01db; 0x01e0; 0x0009; 0x01f1; 0x01f1; 0x01f1; 0x01f1;
    0x01f1; 0x01f1; 0x01f6; 0x0009; 0x03e3; 0x03e3; 0x0023; 0x0023; 0x0023; 0x0023; 0x0042; 0x0042;
    0x0042; 0x0042; 0x039b; 0x039b; 0x0084; 0x0084; 0x0084; 0x0084; 0x00bc; 0x0149; 0x0084; 0x0084;
    0x0084; 0x0084; 0x0084; 0x0084; 0x0116; 0x0085; 0x0084; 0x0084; 0x0084; 0x0084; 0x0084; 0x0084;
    0x00cd; 0x00ce; 0x00ce; 0x00ce; 0x00cf; 0x0009; 0x025b; 0x025c; 0x025c; 0x025c; 0x025d; 0x0008;
    0x0009; 0x0009; 0x0009; 0x0009; 0x0009; 0x0009; 0x0009; 0x0009; 0x0009; 0x0009; 0x0009; 0x0009;
    0x0009; 0x0009; 0x0007; 0x000a; 0x0009; 0x0009; 0x00a5; 0x00a8; 0x0009; 0x0009; 0x0009; 0x0009;
    0x0009; 0x0009; 0x0009; 0x0009; 0x0009; 0x0009; 0x0009; 0x0009; 0x0239; 0x0239; 0x0239; 0x00e9;
    0x0239; 0x0239; 0x0239; 0x00e9; 0x0239; 0x0239; 0x0239; 0x0071; 0x00a5; 0x00a5; 0x00a5; 0x00a5;
    0x00a5; 0x00a5; 0x00a5; 0x00a5; 0x00a5; 0x00a5; 0x00a5; 0x00a5; 0x00a5; 0x00a5; 0x00a5; 0x0272;
    0x00a5; 0x02fc; 0x00a5; 0x00a5; 0x00a5; 0x00a5; 0x00a5; 0x00a5; 0x0009; 0x0009; 0x0009; 0x0009;
    0x0009; 0x0009; 0x0009; 0x0009; 0x0084; 0x0084; 0x0084; 0x0084; 0x0084; 0x0143; 0x0009; 0x0009;
    0x0084; 0x0084; 0x0084; 0x0293; 0x0009; 0x0009; 0x0009; 0x0009; 0x0009; 0x0009; 0x0009; 0x0009;
    0x0009; 0x0009; 0x0009; 0x0009; 0x0023; 0x0023; 0x005b; 0x0009; 0x0042; 0x0042; 0x027b; 0x0009;
    0x0009; 0x0009; 0x0009; 0x0009; 0x0009; 0x0009; 0x0009; 0x0009; 0x0009; 0x0009; 0x0009; 0x0009;
    0x0009; 0x0009; 0x02c7; 0x02c3; 0x02c7; 0x02c3; 0x02cc; 0x02d6; 0x02d3; 0x02d6; 0x02d3; 0x02dc;
    0x0009; 0x0009; 0x0009; 0x0009; 0x0009; 0x0009; 0x0009; 0x0009; 0x0022; 0x0023; 0x0023; 0x005e;
    0x0041; 0x0042; 0x0042; 0x027e; 0x0009; 0x0009; 0x0009; 0x0009; 0x0009; 0x0009; 0x0009; 0x0009;
    0x0009; 0x0009; 0x0009; 0x0009; 0x0009; 0x0009; 0x0009; 0x0009; 0x0009; 0x0009; 0x0009; 0x0009;
    0x03f3; 0x03f3; 0x03f3; 0x03f3; 0x03f3; 0x03f3; 0x03f3; 0x03f3; 0x03f3; 0x03f3; 0x0227; 0x00de;
    0x006d; 0x0249; 0x023c; 0x009f; 0x00a5; 0x00a5; 0x00a5; 0x023f; 0x008d; 0x024c; 0x00a3; 0x00a5;
    0x00a5; 0x0235; 0x0239; 0x0239; 0x024e; 0x00a5; 0x00a5; 0x00a5; 0x0239; 0x0239; 0x0239; 0x0231;
    0x00a5; 0x00a5; 0x0235; 0x0239; 0x0239; 0x024e; 0x00a5; 0x00a5; 0x00a5; 0x0239; 0x0239; 0x0239;
    0x0231; 0x00a5; 0x00a5; 0x00a7; 0x0239; 0x0239; 0x0239; 0x00a3; 0x00a5; 0x00a5; 0x0164; 0x0237;
    0x0239; 0x0239; 0x00a1; 0x0084; 0x0084; 0x0084; 0x0084; 0x0084; 0x0084; 0x0084; 0x0084; 0x0084;
    0x0084; 0x0084; 0x0084; 0x0084; 0x0084; 0x0084; 0x0084; 0x0084; 0x0084; 0x0126; 0x0254; 0x0084;
    0x0084; 0x0084; 0x0084; 0x0084; 0x0084; 0x0084; 0x0084; 0x0084; 0x0084; 0x0084; 0x0084; 0x010c;
    0x0083; 0x0118; 0x0124; 0x0084; 0x0084; 0x0084; 0x0084; 0x0084; 0x035b; 0x0373; 0x0383; 0x03eb;
    0x0104; 0x010e; 0x0341; 0x038b; 0x02e9; 0x00f3; 0x00f8; 0x0118; 0x014c; 0x0084; 0x0084; 0x0018;
    0x0084; 0x0084; 0x0084; 0x0084; 0x0141; 0x0084; 0x0128; 0x0309; 0x0310; 0x0084; 0x004b; 0x0159;
    0x0052; 0x03ab; 0x0303; 0x02f6; 0x03b3; 0x02f1; 0x01b7; 0x0011; 0x00a5; 0x00a5; 0x00a5; 0x0008;
    0x00ab; 0x0009; 0x0009; 0x0009; 0x00a8; 0x0009; 0x0009; 0x0009; 0x00ce; 0x00ce; 0x00ce; 0x00ce;
    0x00ce; 0x00ce; 0x025c; 0x025c; 0x025c; 0x025c; 0x025c; 0x025c; 0x0353; 0x011c; 0x02e4; 0x0168;
    0x0084; 0x0084; 0x0084; 0x0084; 0x0084; 0x0084; 0x0084; 0x0084; 0x0084; 0x0084; 0x0084; 0x0084;
    0x02a3; 0x01a9; 0x00ef; 0x0009; 0x017a; 0x0184; 0x017c; 0x0186; 0x017a; 0x0184; 0x017a; 0x0184;
    0x017c; 0x0186; 0x0264; 0x0033; 0x017a; 0x0184; 0x037b; 0x0000; 0x017a; 0x0184; 0x017a; 0x0184;
    0x017a; 0x0184; 0x01b1; 0x003a; 0x0067; 0x0363; 0x026b; 0x002c; 0x007c; 0x036b; 0x0067; 0x00c6;
    0x02ab; 0x02ab; 0x02ab; 0x02ab; 0x02ab; 0x02b7; 0x02b7; 0x02b7; 0x02b7; 0x02b7; 0x0009; 0x0009;
    0x0009; 0x0009; 0x0009; 0x0009; 0x0009; 0x0009; 0x0009; 0x0009; 0x0009; 0x0009; 0x02ab; 0x02ab;
    0x02ab; 0x02ab; 0x02af; 0x02b7; 0x02b7; 0x02b7; 0x02b7; 0x02bb ].

Definition unicode_offsets2 : list Z :=
  [ 0x016f; 0x02ed; 0x030c; 0x0127; 0x01c0; 0x01da; 0x0003; 0x0003; 0x0003; 0x0003; 0x0003; 0x0003;
    0x0003; 0x0003; 0x0003; 0x0003; 0x0039; 0x0003; 0x0003; 0x0280; 0x0003; 0x0003; 0x0003; 0x0003;
    0x0003; 0x0003; 0x0003; 0x0003; 0x010f; 0x0218; 0x02d3; 0x034c; 0x01ec; 0x018f; 0x0003; 0x0003;
    0x000d; 0x0003; 0x0003; 0x0003; 0x0003; 0x0003; 0x0003; 0x0003; 0x032c; 0x002d; 0x0003; 0x0003;
    0x0003; 0x0003; 0x0003; 0x0003; 0x0003; 0x0003; 0x0003; 0x0003; 0x0003; 0x0003; 0x0003; 0x0003;
    0x0003; 0x0003; 0x0003; 0x0003; 0x0003; 0x0003; 0x0003; 0x0003; 0x0003; 0x0003; 0x0003; 0x0003;
    0x0003; 0x0003; 0x0003; 0x0003; 0x0003; 0x0003; 0x0003; 0x0003; 0x0003; 0x0003; 0x0003; 0x0003;
    0x0003; 0x0003; 0x0003; 0x0003; 0x0003; 0x0003; 0x0003; 0x0003; 0x0003; 0x0003; 0x0003; 0x0003;
    0x0003; 0x0003; 0x0003; 0x0003; 0x0003; 0x0003; 0x0003; 0x0003; 0x0003; 0x0003; 0x0003; 0x0003;
    0x0003; 0x0003; 0x0003; 0x0003; 0x0003; 0x0003; 0x0003; 0x0003; 0x0003; 0x0003; 0x0003; 0x0003;
    0x0003; 0x0003; 0x0003; 0x0003; 0x0003; 0x0003; 0x0003; 0x0003; 0x0003; 0x0003; 0x0003; 0x0003;
    0x0003; 0x0003; 0x0003; 0x0003; 0x0003; 0x0003; 0x0003; 0x0003; 0x0003; 0x0003; 0x0003; 0x0003;
    0x0003; 0x0003; 0x0003; 0x0003; 0x0003; 0x0003; 0x0003; 0x0003; 0x0003; 0x0003; 0x0003; 0x0003;
    0x0003; 0x0003; 0x0003; 0x0003; 0x0003; 0x0003; 0x0003; 0x0003; 0x0003; 0x0003; 0x0230; 0x008d;
    0x0003; 0x0003; 0x0003; 0x00e5; 0x0003; 0x0003; 0x0003; 0x0003; 0x0003; 0x0003; 0x0003; 0x0003;
    0x0003; 0x0003; 0x0003; 0x0003; 0x0003; 0x0003; 0x0003; 0x0003; 0x0003; 0x0003; 0x0003; 0x0003;
    0x0003; 0x0003; 0x0003; 0x0003; 0x0003; 0x0003; 0x0003; 0x0003; 0x0003; 0x0003; 0x0003; 0x0003;
    0x0003; 0x0003; 0x0003; 0x0003; 0x0003; 0x0003; 0x0003; 0x0003; 0x0003; 0x0003; 0x0003; 0x0003;
    0x0003; 0x0003; 0x0003; 0x0003; 0x0003; 0x0003; 0x0003; 0x0003; 0x0003; 0x0003; 0x0003; 0x0003;
    0x0003; 0x0003; 0x0003; 0x0003; 0x0003; 0x0003; 0x0003; 0x0003; 0x0003; 0x0003; 0x0003; 0x0003;
    0x0003; 0x0003; 0x0003; 0x0003; 0x0003; 0x0003; 0x0003; 0x0003; 0x0003; 0x0003; 0x0003; 0x0000;
    0x0003; 0x0003; 0x0003; 0x0274; 0x0003; 0x0003; 0x0003; 0x0003; 0x036c; 0x0258; 0x0003; 0x0157;
    0x0003; 0x0003; 0x0003; 0x0003; 0x01a0; 0x0246; 0x0003; 0x0003; 0x0003; 0x0003; 0x0003; 0x0003;
    0x0003; 0x0003; 0x0003; 0x0003; 0x0065; 0x0003; 0x0003; 0x0003; 0x0003; 0x0003; 0x0003; 0x0003;
    0x0003; 0x0003; 0x0003; 0x0003; 0x0003; 0x0003; 0x0003; 0x0003; 0x0003; 0x0003; 0x0003; 0x0003;
    0x0003; 0x0003; 0x0003; 0x0003; 0x0003; 0x0003; 0x0003; 0x0003; 0x0003; 0x0003; 0x0003; 0x0003;
    0x0003; 0x0003; 0x0003; 0x0003; 0x0003; 0x0003; 0x0003; 0x0003; 0x0003; 0x0003; 0x0003; 0x0003;
    0x0003; 0x0003; 0x0003; 0x0003; 0x0003; 0x0003; 0x0003; 0x0003; 0x0003; 0x0003; 0x0003; 0x0003;
    0x0003; 0x0003; 0x0003; 0x0003; 0x0003; 0x0003; 0x0003; 0x0003; 0x0003; 0x0003; 0x0003; 0x0003;
    0x0003; 0x0003; 0x0003; 0x0003; 0x0003; 0x0003; 0x0003; 0x0003; 0x0003; 0x0003; 0x0003; 0x0003;
    0x0003; 0x0003; 0x0003; 0x0003; 0x0003; 0x0003; 0x0071; 0x0003; 0x0003; 0x0003; 0x0003; 0x0003;
    0x0003; 0x0003; 0x0003; 0x0003; 0x0003; 0x0003; 0x0003; 0x0003; 0x0003; 0x0003; 0x0003; 0x0003;
    0x0003; 0x0003; 0x0003; 0x0003; 0x0003; 0x0003; 0x0003; 0x0003; 0x0003; 0x0003; 0x0003; 0x0003;
    0x0003; 0x0003; 0x0003; 0x0003; 0x0003; 0x0003; 0x0003; 0x0003; 0x0003; 0x0003; 0x0003; 0x0003;
    0x0003; 0x0003; 0x0003; 0x0003; 0x0003; 0x0003; 0x0003; 0x0003; 0x0003; 0x0003; 0x0003; 0x0003;
    0x0003; 0x0003; 0x0003; 0x0003; 0x0003; 0x0003; 0x0003; 0x0003; 0x0003; 0x0003; 0x0003; 0x0003;
    0x0003; 0x0003; 0x0003; 0x0003; 0x0003; 0x0003; 0x0003; 0x0003; 0x0003; 0x0003; 0x0003; 0x0003;
    0x0003; 0x0003; 0x0003; 0x0003; 0x0003; 0x0003; 0x0003; 0x0003; 0x0003; 0x0003; 0x0003; 0x0003;
    0x0003; 0x0003; 0x0003; 0x0003; 0x0003; 0x0003; 0x0003; 0x0003; 0x0003; 0x0003; 0x0003; 0x0003;
    0x00ad; 0x02a0; 0x02b3; 0x00cb; 0x0003; 0x0003; 0x0003; 0x0003; 0x0003; 0x0003; 0x0003; 0x0059;
    0x00ff; 0x0003; 0x0003; 0x0003; 0x0003; 0x0003; 0x0003; 0x0003; 0x0003; 0x0147; 0x0003; 0x0003;
    0x0003; 0x0003; 0x0003; 0x0003; 0x0003; 0x0206 ].
