(* ===== verification/Keysym.v ===== *)
(** * Keysyms (src/keysym-utf.c, src/keysym-case-mappings.c, src/keysym.c)

    Conversions between keysyms and Unicode, and the case mappings, on the
    tables of [KeysymTables]. *)

From Stdlib Require Import ZArith Lia.
From stdpp Require Import base tactics list numbers.
From S2P Require Import Prelude Keymap KeysymTables Utf8.

(** ** Constants *)

Definition XKB_KEYSYM_UNICODE_OFFSET : Z := 0x01000000.
Definition XKB_KEYSYM_UNICODE_MIN : Z := 0x01000100.
Definition XKB_KEYSYM_UNICODE_SURROGATE_MIN : Z := 0x0100d800.
Definition XKB_KEYSYM_UNICODE_SURROGATE_MAX : Z := 0x0100dfff.
Definition XKB_KEYSYM_UNICODE_MAX : Z := 0x0110ffff.
Definition XKB_KEYSYM_UTF8_MAX_SIZE : Z := 5.
Definition NO_KEYSYM_UNICODE_CONVERSION : Z := 0.

Definition XKB_KEY_space : Z := 0x20.
Definition XKB_KEY_BackSpace : Z := 0xff08.
Definition XKB_KEY_Clear : Z := 0xff0b.
Definition XKB_KEY_Return : Z := 0xff0d.
Definition XKB_KEY_Escape : Z := 0xff1b.
Definition XKB_KEY_Delete : Z := 0xffff.
Definition XKB_KEY_KP_Space : Z := 0xff80.
Definition XKB_KEY_KP_Tab : Z := 0xff89.
Definition XKB_KEY_KP_Enter : Z := 0xff8d.
Definition XKB_KEY_KP_Multiply : Z := 0xffaa.
Definition XKB_KEY_KP_9 : Z := 0xffb9.
Definition XKB_KEY_KP_Equal : Z := 0xffbd.
Definition XKB_KEY_XF86Numeric0 : Z := 0x10081200.
Definition XKB_KEY_XF86Numeric9 : Z := 0x10081209.
Definition XKB_KEY_XF86NumericStar : Z := 0x1008120a.
Definition XKB_KEY_XF86NumericPound : Z := 0x1008120b.

(** ** Binary search

    [first] and [last] are [size_t]: [last = mid - 1] wraps.  [None] is a read
    outside of the table. *)

Definition size_t (x : Z) : Z := x mod 2 ^ 64.

Fixpoint bin_search_loop (fuel : nat) (table : list codepair) (first last keysym : Z)
    : option Z :=
  match fuel with
  | O => None
  | S fuel =>
      if last >=? first then
        let mid := size_t (first + last) / 2 in
        match item table mid with
        | None => None
        | Some p =>
            if cp_keysym p <? keysym then bin_search_loop fuel table (size_t (mid + 1)) last keysym
            else if cp_keysym p >? keysym then
              bin_search_loop fuel table first (size_t (mid - 1)) keysym
            else Some (cp_ucs p)
        end
      else Some NO_KEYSYM_UNICODE_CONVERSION
  end.

Definition bin_search (table : list codepair) (length : Z) (keysym : Z) : option Z :=
  match item table 0, item table length with
  | Some lo, Some hi =>
      if (keysym <? cp_keysym lo) || (keysym >? cp_keysym hi) then Some 0
      else bin_search_loop (Z.to_nat length + 2) table 0 length keysym
  | _, _ => None
  end.

(** ** Conversions *)

Definition keysymtab_last : Z := Z.of_nat (length keysymtab) - 1.

Definition xkb_keysym_to_utf32 (ks : Z) : Z :=
  if in_range 0x20 0x7e ks || in_range 0xa0 0xff ks then ks
  else if ks =? XKB_KEY_KP_Space then Z.land XKB_KEY_space 0x7f
  else if in_range XKB_KEY_BackSpace XKB_KEY_Clear ks ||
          in_range XKB_KEY_KP_Multiply XKB_KEY_KP_9 ks ||
          (ks =? XKB_KEY_Return) || (ks =? XKB_KEY_Escape) || (ks =? XKB_KEY_Delete) ||
          (ks =? XKB_KEY_KP_Tab) || (ks =? XKB_KEY_KP_Enter) || (ks =? XKB_KEY_KP_Equal)
  then Z.land ks 0x7f
  else if in_range XKB_KEYSYM_UNICODE_SURROGATE_MIN XKB_KEYSYM_UNICODE_SURROGATE_MAX ks
  then NO_KEYSYM_UNICODE_CONVERSION
  else if in_range XKB_KEYSYM_UNICODE_OFFSET XKB_KEYSYM_UNICODE_MAX ks
  then ks - XKB_KEYSYM_UNICODE_OFFSET
  else if in_range XKB_KEY_XF86Numeric0 XKB_KEY_XF86Numeric9 ks
  then ks - XKB_KEY_XF86Numeric0 + 0x30
  else if ks =? XKB_KEY_XF86NumericStar then 0x2a
  else if ks =? XKB_KEY_XF86NumericPound then 0x23
  else default NO_KEYSYM_UNICODE_CONVERSION (bin_search keysymtab keysymtab_last ks).

Definition xkb_utf32_to_keysym (ucs : Z) : Z :=
  if in_range 0x20 0x7e ucs || in_range 0xa0 0xff ucs then ucs
  else if in_range (Z.land XKB_KEY_BackSpace 0x7f) (Z.land XKB_KEY_Clear 0x7f) ucs ||
          (ucs =? Z.land XKB_KEY_Return 0x7f) || (ucs =? Z.land XKB_KEY_Escape 0x7f)
  then Z.lor ucs 0xff00
  else if ucs =? Z.land XKB_KEY_Delete 0x7f then XKB_KEY_Delete
  else if (ucs =? 0) || is_surrogate ucs || (ucs >? 0x10ffff) then XKB_KEY_NoSymbol
  else match list_find (fun p => (cp_ucs p =? ucs) && negb (cp_deprecated p) = true) keysymtab with
       | Some (_, p) => cp_keysym p
       | None => Z.lor ucs XKB_KEYSYM_UNICODE_OFFSET
       end.

(** The return value and the bytes written to the buffer. *)
Definition xkb_keysym_to_utf8 (ks size : Z) : Z * list Z :=
  if size <? XKB_KEYSYM_UTF8_MAX_SIZE then (-1, [])
  else
    let cp := xkb_keysym_to_utf32 ks in
    if cp =? NO_KEYSYM_UNICODE_CONVERSION then (0, []) else utf32_to_utf8 cp.

Definition xkb_utf8_to_keysym (buffer : list Z) (size : Z) : Z :=
  if size =? 0 then 0
  else match utf8_next_code_point buffer size with
       | None => XKB_KEY_NoSymbol
       | Some (cp, len) =>
           if (cp =? INVALID_UTF8_CODE_POINT) || (len =? 0) then XKB_KEY_NoSymbol
           else xkb_utf32_to_keysym cp
       end.

(** ** Case mappings *)

Definition get_legacy_keysym_entry (ks : Z) : option CaseMappings :=
  match item legacy_keysym_offsets2 (Z.shiftr ks 7) with
  | None => None
  | Some o2 =>
      match item legacy_keysym_offsets1 (o2 + Z.land (Z.shiftr ks 1) 0x3f) with
      | None => None
      | Some o1 => item legacy_keysym_data (o1 + Z.land ks 0x01)
      end
  end.

Definition get_unicode_entry (ks : Z) : option CaseMappings :=
  match item unicode_offsets2 (Z.shiftr ks 8) with
  | None => None
  | Some o2 =>
      match item unicode_offsets1 (o2 + Z.land (Z.shiftr ks 3) 0x1f) with
      | None => None
      | Some o1 => item unicode_data (o1 + Z.land ks 0x07)
      end
  end.

Definition no_case : CaseMappings := mk_case false false 0.

(** The tables have an entry for each keysym looked up ([case_tables_in_bounds]). *)
Definition legacy_entry (ks : Z) : CaseMappings := default no_case (get_legacy_keysym_entry ks).
Definition unicode_entry (ks : Z) : CaseMappings :=
  default no_case (get_unicode_entry (ks - XKB_KEYSYM_UNICODE_OFFSET)).

Definition denormalize (ks : Z) : Z :=
  if ks <? XKB_KEYSYM_UNICODE_MIN then u32 (ks - XKB_KEYSYM_UNICODE_OFFSET) else ks.

Definition xkb_keysym_to_lower (ks : Z) : Z :=
  if ks <=? 0x13be then
    let m := legacy_entry ks in if cm_lower m then u32 (ks + cm_offset m) else ks
  else if in_range XKB_KEYSYM_UNICODE_MIN 0x0101f189 ks then
    let m := unicode_entry ks in
    if cm_lower m then denormalize (u32 (ks + cm_offset m)) else ks
  else ks.

Definition xkb_keysym_to_upper (ks : Z) : Z :=
  if ks <=? 0x13be then
    let m := legacy_entry ks in if cm_upper m then u32 (ks - cm_offset m) else ks
  else if in_range XKB_KEYSYM_UNICODE_MIN 0x0101f189 ks then
    let m := unicode_entry ks in
    if cm_upper m then denormalize (u32 (ks - cm_offset m)) else ks
  else ks.

Definition xkb_keysym_is_lower (ks : Z) : bool :=
  if ks <=? 0x13be then cm_upper (legacy_entry ks) && negb (cm_lower (legacy_entry ks))
  else if in_range XKB_KEYSYM_UNICODE_MIN 0x0101f189 ks
  then cm_upper (unicode_entry ks) && negb (cm_lower (unicode_entry ks))
  else false.

Definition xkb_keysym_is_upper_or_title (ks : Z) : bool :=
  if ks <=? 0x13be then cm_lower (legacy_entry ks)
  else if in_range XKB_KEYSYM_UNICODE_MIN 0x0101f189 ks then cm_lower (unicode_entry ks)
  else false.

Definition xkb_keysym_is_keypad (ks : Z) : bool := in_range XKB_KEY_KP_Space XKB_KEY_KP_Equal ks.

Definition xkb_keysym_is_modifier (ks : Z) : bool :=
  in_range 0xffe1 0xffee ks || in_range 0xfe01 0xfe13 ks || (ks =? 0xff7e) || (ks =? 0xff7f).

(** ** The binary search *)

Section bin_search.
Context (table : list codepair) (n : Z).
Hypothesis Hn : Z.of_nat (length table) = n + 1.
Hypothesis Hsmall : n < 2 ^ 32.
Hypothesis Hsorted : forall i j p q, item table i = Some p -> item table j = Some q ->
  i < j -> cp_keysym p < cp_keysym q.

(** What a search for [ks] answers: the code point of the pair of [ks], else
    the value for no conversion. *)
Definition found (ks : Z) (r : option Z) : Prop :=
  exists v, r = Some v /\
    ((exists i p, item table i = Some p /\ cp_keysym p = ks /\ v = cp_ucs p) \/
     (v = 0 /\ forall i p, item table i = Some p -> cp_keysym p <> ks)).

Lemma size_t_id x : 0 <= x < 2 ^ 64 -> size_t x = x.
Proof. apply Z.mod_small. Qed.

Lemma item_le i j p q :
  item table i = Some p -> item table j = Some q -> cp_keysym p < cp_keysym q -> i < j.
Proof using Hsorted.
  intros Hi Hj Hlt. destruct (Z.lt_trichotomy i j) as [?|[->|Hgt]]; [done|..].
  - rewrite Hi in Hj. injection Hj as ->. lia.
  - pose proof (Hsorted j i q p Hj Hi Hgt). lia.
Qed.

Lemma bin_search_loop_spec fuel first last ks p0 :
  item table 0 = Some p0 -> cp_keysym p0 <= ks ->
  0 <= first -> last <= n -> first <= last + 1 -> last - first + 1 < Z.of_nat fuel ->
  (forall i p, item table i = Some p -> cp_keysym p = ks -> first <= i <= last) ->
  found ks (bin_search_loop fuel table first last ks).
Proof using Hn Hsmall Hsorted.
  intros H0 Hp0. revert first last.
  induction fuel as [|fuel IH]; intros first last Hf Hl Hfl Hfuel Hin; [lia|].
  cbn [bin_search_loop]. rewrite Z.geb_leb. destruct (Z.leb_spec first last) as [Hle|Hgt].
  2:{ exists 0. split; [done|]. right. split; [done|]. intros i p Hi Hp.
      specialize (Hin i p Hi Hp). lia. }
  rewrite (size_t_id (first + last)) by lia. set (mid := (first + last) / 2).
  assert (first <= mid <= last) as Hmid.
  { subst mid. split; [apply Z.div_le_lower_bound | apply Z.div_le_upper_bound]; lia. }
  destruct (item_is_Some table mid) as [p Hp]; [lia|]. rewrite Hp.
  destruct (Z.ltb_spec (cp_keysym p) ks) as [Hlt|Hge].
  { rewrite size_t_id by lia. apply IH; try lia. intros i q Hi Hq.
    specialize (Hin i q Hi Hq). pose proof (item_le mid i p q Hp Hi ltac:(lia)). lia. }
  rewrite Z.gtb_ltb. destruct (Z.ltb_spec ks (cp_keysym p)) as [Hlt|Hle'].
  { assert (0 < mid) by (apply (item_le 0 mid p0 p); try done; lia).
    rewrite size_t_id by lia. apply IH; try lia. intros i q Hi Hq.
    specialize (Hin i q Hi Hq). pose proof (item_le i mid q p Hi Hp ltac:(lia)). lia. }
  exists (cp_ucs p). split; [done|]. left. exists mid, p. split; [done|]. split; [lia|done].
Qed.

Lemma bin_search_found ks : 0 <= n -> found ks (bin_search table n ks).
Proof using Hn Hsmall Hsorted.
  intros Hn0. unfold bin_search. destruct (item_is_Some table 0) as [lo Hlo]; [lia|].
  destruct (item_is_Some table n) as [hi Hhi]; [lia|]. rewrite Hlo, Hhi.
  assert (forall i p, item table i = Some p -> cp_keysym lo <= cp_keysym p <= cp_keysym hi) as Hb.
  { intros i p Hi. pose proof (item_lt _ _ _ Hi). split.
    - destruct (Z.eq_dec i 0) as [->|]; [rewrite Hlo in Hi; injection Hi as ->; lia|].
      pose proof (Hsorted 0 i lo p Hlo Hi ltac:(lia)). lia.
    - destruct (Z.eq_dec i n) as [->|]; [rewrite Hhi in Hi; injection Hi as ->; lia|].
      pose proof (Hsorted i n p hi Hi Hhi ltac:(lia)). lia. }
  rewrite Z.gtb_ltb.
  destruct (Z.ltb_spec ks (cp_keysym lo)), (Z.ltb_spec (cp_keysym hi) ks); cbn [orb];
    try (exists 0; split; [done|]; right; split; [done|]; intros i p Hi; pose proof (Hb i p Hi); lia).
  apply (bin_search_loop_spec _ 0 n ks lo); try done; try lia.
  intros i p Hi _. pose proof (item_lt _ _ _ Hi). lia.
Qed.
End bin_search.

(** ** The tables *)

Fixpoint sortedb (l : list codepair) : bool :=
  match l with
  | p :: ((q :: _) as rest) => (cp_keysym p <? cp_keysym q) && sortedb rest
  | _ => true
  end.

Lemma sortedb_lookup l i j p q :
  sortedb l = true -> l !! i = Some p -> l !! j = Some q -> (i < j)%nat ->
  cp_keysym p < cp_keysym q.
Proof.
  revert i j p q. induction l as [|a l IH]; intros i j p q Hs Hi Hj Hij; [done|].
  destruct l as [|b l]; [destruct j as [|[|j]]; cbn in Hj; [lia|done|done]|].
  apply andb_true_iff in Hs as [Hab%Z.ltb_lt Hs]. destruct j as [|j]; [lia|].
  destruct i as [|i]; [|by apply (IH i j p q Hs Hi Hj); lia].
  injection Hi as <-. destruct j as [|j]; [by injection Hj as <-|].
  pose proof (IH 0%nat (S j) b q Hs eq_refl Hj ltac:(lia)). lia.
Qed.

Lemma keysymtab_sorted i j p q :
  item keysymtab i = Some p -> item keysymtab j = Some q -> i < j -> cp_keysym p < cp_keysym q.
Proof.
  intros [Hi0 Hi]%item_Some [Hj0 Hj]%item_Some Hij.
  apply (sortedb_lookup keysymtab (Z.to_nat i) (Z.to_nat j)); [by vm_compute | done | done | lia].
Qed.

Lemma keysymtab_search ks : found keysymtab ks (bin_search keysymtab keysymtab_last ks).
Proof.
  refine (bin_search_found keysymtab keysymtab_last _ _ keysymtab_sorted ks _);
    [unfold keysymtab_last; lia | by vm_compute | by vm_compute].
Qed.

(** Pairs looked up through the conversion: those the earlier cases leave. *)
Definition pair_ok (p : codepair) : bool :=
  cp_deprecated p ||
  negb (in_range 0x20 0x7e (cp_keysym p) || in_range 0xa0 0xff (cp_keysym p) ||
        (cp_keysym p >=? 0xff00)) && (0 <? cp_keysym p) && (0 <? cp_ucs p).

Lemma keysymtab_pairs_ok : forallb pair_ok keysymtab = true.
Proof. by vm_compute. Qed.

Lemma to_utf32_of_pair i p :
  item keysymtab i = Some p -> cp_deprecated p = false ->
  xkb_keysym_to_utf32 (cp_keysym p) = cp_ucs p.
Proof.
  intros Hi Hd. pose proof keysymtab_pairs_ok as Hok. rewrite forallb_forall in Hok.
  pose proof (proj1 (item_Some _ _ _) Hi) as [_ Hl].
  specialize (Hok p ltac:(by apply list_elem_of_In; eapply list_elem_of_lookup_2)).
  unfold pair_ok in Hok. rewrite Hd in Hok. cbn [orb] in Hok.
  apply andb_true_iff in Hok as [[Hr%negb_true_iff Hpos%Z.ltb_lt]%andb_true_iff _].
  apply orb_false_iff in Hr as [Hlat Hbig]. rewrite Z.geb_leb in Hbig. apply Z.leb_gt in Hbig.
  unfold xkb_keysym_to_utf32. rewrite Hlat.
  unfold XKB_KEY_KP_Space, XKB_KEY_BackSpace, XKB_KEY_Clear, XKB_KEY_KP_Multiply, XKB_KEY_KP_9,
    XKB_KEY_Return, XKB_KEY_Escape, XKB_KEY_Delete, XKB_KEY_KP_Tab, XKB_KEY_KP_Enter,
    XKB_KEY_KP_Equal, XKB_KEYSYM_UNICODE_SURROGATE_MIN, XKB_KEYSYM_UNICODE_SURROGATE_MAX,
    XKB_KEYSYM_UNICODE_OFFSET, XKB_KEYSYM_UNICODE_MAX, XKB_KEY_XF86Numeric0, XKB_KEY_XF86Numeric9,
    XKB_KEY_XF86NumericStar, XKB_KEY_XF86NumericPound.
  rewrite !in_range_false by lia.
  rewrite !(proj2 (Z.eqb_neq _ _)) by lia. cbn [orb].
  destruct (keysymtab_search (cp_keysym p)) as (v & -> & [(j & q & Hj & Hq & ->)|[_ Hno]]).
  - cbn [default from_option]. f_equal.
    destruct (Z.lt_trichotomy i j) as [H|[->|H]].
    + pose proof (keysymtab_sorted i j p q Hi Hj H). lia.
    + rewrite Hi in Hj. by injection Hj as ->.
    + pose proof (keysymtab_sorted j i q p Hj Hi H). lia.
  - by destruct (Hno i p Hi).
Qed.

(** ** Properties *)

(** The search of the main table answers for every keysym without leaving the
    table, and finds the code point of a keysym exactly when there is one. *)
Theorem keysymtab_search_spec ks :
  exists v, bin_search keysymtab keysymtab_last ks = Some v /\
    ((exists p, p ∈ keysymtab /\ cp_keysym p = ks /\ v = cp_ucs p) \/
     (v = NO_KEYSYM_UNICODE_CONVERSION /\ forall p, p ∈ keysymtab -> cp_keysym p <> ks)).
Proof.
  destruct (keysymtab_search ks) as (v & Hv & H). exists v. split; [exact Hv|].
  destruct H as [(i & p & [_ Hi]%item_Some & Hk & Hu)|[H0 Hno]].
  - left. exists p. split; [by eapply list_elem_of_lookup_2 | done].
  - right. split; [done|]. intros p [i Hi]%list_elem_of_lookup.
    apply (Hno (Z.of_nat i)). apply item_Some. split; [lia|]. by rewrite Nat2Z.id.
Qed.

Lemma lor_offset u : 0 <= u < 2 ^ 24 -> Z.lor u XKB_KEYSYM_UNICODE_OFFSET = u + 2 ^ 24.
Proof.
  intros Hu. pose proof (Z.add_lor_land u XKB_KEYSYM_UNICODE_OFFSET) as H.
  change XKB_KEYSYM_UNICODE_OFFSET with (bit 24) in *.
  assert (Z.land u (bit 24) = 0) as H0; [|rewrite H0 in H; change (bit 24) with (2 ^ 24) in *; lia].
  rewrite land_bit by lia. replace (Z.testbit u 24) with false; [done|].
  symmetry. destruct (Z.eq_dec u 0) as [->|]; [done|]. apply Z.bits_above_log2; [lia|].
  apply Z.log2_lt_pow2; lia.
Qed.

Lemma direct_keysym u :
  scalar u -> ~ (0x20 <= u <= 0x7e) -> ~ (0xa0 <= u <= 0xff) ->
  xkb_keysym_to_utf32 (u + 2 ^ 24) = u.
Proof.
  intros [Hu Hs] H1 H2. unfold xkb_keysym_to_utf32, XKB_KEY_KP_Space, XKB_KEY_BackSpace,
    XKB_KEY_Clear, XKB_KEY_KP_Multiply, XKB_KEY_KP_9,
    XKB_KEY_Return, XKB_KEY_Escape, XKB_KEY_Delete, XKB_KEY_KP_Tab, XKB_KEY_KP_Enter,
    XKB_KEY_KP_Equal, XKB_KEYSYM_UNICODE_SURROGATE_MIN, XKB_KEYSYM_UNICODE_SURROGATE_MAX,
    XKB_KEYSYM_UNICODE_OFFSET, XKB_KEYSYM_UNICODE_MAX.
  rewrite (in_range_false 0x20), (in_range_false 0xa0), (in_range_false 0xff08),
    (in_range_false 0xffaa), (in_range_false 0x100d800), (in_range_true 0x1000000) by lia.
  rewrite !(proj2 (Z.eqb_neq _ _)) by lia. cbn [orb]. lia.
Qed.

(** Converting a code point to a keysym and back gives the code point. *)
Theorem utf32_keysym_round_trip ucs :
  scalar ucs -> ucs <> 0 -> xkb_keysym_to_utf32 (xkb_utf32_to_keysym ucs) = ucs.
Proof.
  intros Hu H0. pose proof Hu as [Hr Hs]. unfold xkb_utf32_to_keysym.
  destruct (in_range 0x20 0x7e ucs) eqn:H1.
  { cbn [orb]. unfold xkb_keysym_to_utf32. by rewrite H1. }
  destruct (in_range 0xa0 0xff ucs) eqn:H2.
  { cbn [orb]. unfold xkb_keysym_to_utf32. by rewrite H1, H2. }
  cbn [orb]. change (Z.land XKB_KEY_BackSpace 0x7f) with 8.
  change (Z.land XKB_KEY_Clear 0x7f) with 11. change (Z.land XKB_KEY_Return 0x7f) with 13.
  change (Z.land XKB_KEY_Escape 0x7f) with 27. change (Z.land XKB_KEY_Delete 0x7f) with 127.
  destruct (in_range 8 11 ucs) eqn:H3.
  { apply in_range_spec in H3. cbn [orb].
    assert (ucs = 8 \/ ucs = 9 \/ ucs = 10 \/ ucs = 11) as [->|[->|[->| ->]]] by lia; by vm_compute. }
  destruct (Z.eqb_spec ucs 13) as [->|]; [by vm_compute|].
  destruct (Z.eqb_spec ucs 27) as [->|]; [by vm_compute|]. cbn [orb].
  destruct (Z.eqb_spec ucs 127) as [->|]; [by vm_compute|].
  destruct (Z.eqb_spec ucs 0); [done|].
  destruct (is_surrogate ucs) eqn:H4; [apply is_surrogate_spec in H4; lia|].
  rewrite Z.gtb_ltb. destruct (Z.ltb_spec 0x10ffff ucs); [lia|]. cbn [orb].
  destruct (list_find _ keysymtab) as [[i p]|] eqn:Hfind.
  - apply list_find_Some in Hfind as (Hi & [Hp%Z.eqb_eq Hd%negb_true_iff]%andb_true_iff & _).
    rewrite <- Hp. apply (to_utf32_of_pair (Z.of_nat i)); [|done].
    apply item_Some. split; [lia|]. by rewrite Nat2Z.id.
  - rewrite lor_offset by lia. apply direct_keysym; [done| |]; intros H5;
      [rewrite (in_range_true 0x20) in H1 by lia | rewrite (in_range_true 0xa0) in H2 by lia]; done.
Qed.

Lemma utf32_keysym_round_trip_witness :
  xkb_keysym_to_utf32 (xkb_utf32_to_keysym 0x1f600) = 0x1f600.
Proof. apply (utf32_keysym_round_trip 0x1f600); [unfold scalar; lia | lia]. Defined.

(** The offsets stored in the tables leave room for the low bits of the index. *)
Lemma offsets_in_bounds :
  forallb (in_range 0 (Z.of_nat (length legacy_keysym_offsets1) - 64)) legacy_keysym_offsets2 &&
  forallb (in_range 0 (Z.of_nat (length legacy_keysym_data) - 2)) legacy_keysym_offsets1 &&
  forallb (in_range 0 (Z.of_nat (length unicode_offsets1) - 32)) unicode_offsets2 &&
  forallb (in_range 0 (Z.of_nat (length unicode_data) - 8)) unicode_offsets1 = true.
Proof. by vm_compute. Qed.

Lemma offset_step {A} (offsets : list Z) (data : list A) (i low size : Z) :
  forallb (in_range 0 (Z.of_nat (length data) - size)) offsets = true ->
  0 <= i < Z.of_nat (length offsets) -> 0 <= low < size ->
  exists o a, item offsets i = Some o /\ item data (o + low) = Some a.
Proof.
  intros Hall Hi Hlow. destruct (item_is_Some offsets i Hi) as [o Ho]. exists o.
  rewrite forallb_forall in Hall. pose proof (proj1 (item_Some _ _ _) Ho) as [_ Hl].
  specialize (Hall o ltac:(by apply list_elem_of_In; eapply list_elem_of_lookup_2)).
  apply in_range_spec in Hall. destruct (item_is_Some data (o + low)) as [a Ha]; [lia|]. by exists a.
Qed.

Lemma land_low x n : 0 <= n -> 0 <= Z.land x (Z.ones n) < 2 ^ n.
Proof. intros. rewrite Z.land_ones by done. apply Z.mod_pos_bound. lia. Qed.

(** The case mapping of every keysym the functions look up is in the tables. *)
Theorem case_tables_in_bounds ks :
  (0 <= ks <= 0x13be -> is_Some (get_legacy_keysym_entry ks)) /\
  (XKB_KEYSYM_UNICODE_MIN <= ks <= 0x0101f189 ->
   is_Some (get_unicode_entry (ks - XKB_KEYSYM_UNICODE_OFFSET))).
Proof.
  pose proof offsets_in_bounds as H.
  apply andb_true_iff in H as [[[H1 H2]%andb_true_iff H3]%andb_true_iff H4].
  split; intros Hk.
  - unfold get_legacy_keysym_entry. rewrite !Z.shiftr_div_pow2 by lia.
    destruct (offset_step _ legacy_keysym_offsets1 (ks / 2 ^ 7) (Z.land (ks / 2 ^ 1) 0x3f) 64 H1)
      as (o & a & -> & Ha).
    { change (Z.of_nat (length legacy_keysym_offsets2)) with 40. eucl. }
    { apply (land_low _ 6). lia. }
    pose proof (item_lt _ _ _ Ha) as Hlt. rewrite Ha.
    destruct (offset_step _ legacy_keysym_data _ (Z.land ks 1) 2 H2 Hlt) as (o' & e & Ho' & He).
    { apply (land_low _ 1). lia. }
    rewrite Ha in Ho'. injection Ho' as ->. by exists e.
  - unfold XKB_KEYSYM_UNICODE_MIN, XKB_KEYSYM_UNICODE_OFFSET in *.
    unfold get_unicode_entry. set (u := ks - 0x1000000). assert (0x100 <= u <= 0x1f189) by lia.
    rewrite !Z.shiftr_div_pow2 by lia.
    destruct (offset_step _ unicode_offsets1 (u / 2 ^ 8) (Z.land (u / 2 ^ 3) 0x1f) 32 H3)
      as (o & a & -> & Ha).
    { change (Z.of_nat (length unicode_offsets2)) with 498. eucl. }
    { apply (land_low _ 5). lia. }
    pose proof (item_lt _ _ _ Ha) as Hlt. rewrite Ha.
    destruct (offset_step _ unicode_data _ (Z.land u 7) 8 H4 Hlt) as (o' & e & Ho' & He).
    { apply (land_low _ 3). lia. }
    rewrite Ha in Ho'. injection Ho' as ->. by exists e.
Qed.

Lemma case_tables_in_bounds_witness :
  is_Some (get_legacy_keysym_entry 0x13be) /\
  is_Some (get_unicode_entry (0x0101f189 - XKB_KEYSYM_UNICODE_OFFSET)).
Proof.
  split.
  - apply (proj1 (case_tables_in_bounds 0x13be)). lia.
  - apply (proj2 (case_tables_in_bounds 0x0101f189)). unfold XKB_KEYSYM_UNICODE_MIN. lia.
Defined.

(** *** The UTF-8 of a keysym *)

Lemma keysymtab_scalars :
  forallb (fun p => in_range 0 0xd7ff (cp_ucs p)) keysymtab = true.
Proof. by vm_compute. Qed.

Lemma to_utf32_scalar ks : 0 <= ks -> scalar (xkb_keysym_to_utf32 ks).
Proof.
  intros H0. unfold xkb_keysym_to_utf32.
  assert (forall x, 0 <= x <= 0xd7ff -> scalar x) as Hlow by (unfold scalar; lia).
  destruct (in_range 0x20 0x7e ks) eqn:H1; [apply in_range_spec in H1; apply Hlow; cbn; lia|].
  destruct (in_range 0xa0 0xff ks) eqn:H2; [apply in_range_spec in H2; apply Hlow; cbn; lia|].
  cbn [orb]. destruct (_ =? XKB_KEY_KP_Space); [apply Hlow; by vm_compute|].
  pose proof (land_low ks 7 ltac:(lia)) as H7. change (Z.ones 7) with 0x7f in H7.
  match goal with |- scalar (if ?b then _ else _) => destruct b; [apply Hlow; lia|] end.
  destruct (in_range XKB_KEYSYM_UNICODE_SURROGATE_MIN _ ks) eqn:H3; [by apply Hlow|].
  destruct (in_range XKB_KEYSYM_UNICODE_OFFSET _ ks) eqn:H4.
  { apply in_range_spec in H4. assert (~ (XKB_KEYSYM_UNICODE_SURROGATE_MIN <= ks <=
      XKB_KEYSYM_UNICODE_SURROGATE_MAX)) as Hs by (rewrite <- in_range_spec; by rewrite H3).
    unfold scalar, XKB_KEYSYM_UNICODE_OFFSET, XKB_KEYSYM_UNICODE_MAX,
      XKB_KEYSYM_UNICODE_SURROGATE_MIN, XKB_KEYSYM_UNICODE_SURROGATE_MAX in *. lia. }
  destruct (in_range XKB_KEY_XF86Numeric0 _ ks) eqn:H5.
  { apply in_range_spec in H5. unfold XKB_KEY_XF86Numeric0, XKB_KEY_XF86Numeric9 in *.
    apply Hlow. lia. }
  destruct (ks =? _); [by apply Hlow|]. destruct (ks =? _); [by apply Hlow|].
  destruct (keysymtab_search ks) as (v & -> & [(i & p & Hi & _ & ->)|[-> _]]); [|by apply Hlow].
  cbn [default from_option]. pose proof keysymtab_scalars as Hall.
  rewrite forallb_forall in Hall. apply item_Some in Hi as [_ Hi].
  specialize (Hall p ltac:(by apply list_elem_of_In; eapply list_elem_of_lookup_2)).
  apply in_range_spec in Hall. by apply Hlow.
Qed.

(** With a buffer large enough, the result is 0 for a keysym without character,
    else the NUL-terminated, valid UTF-8 of its code point and its size. *)
Theorem keysym_to_utf8_valid ks size :
  0 <= ks -> XKB_KEYSYM_UTF8_MAX_SIZE <= size ->
  xkb_keysym_to_utf32 ks = NO_KEYSYM_UNICODE_CONVERSION /\ xkb_keysym_to_utf8 ks size = (0, []) \/
  exists bytes, xkb_keysym_to_utf8 ks size = (Z.of_nat (length bytes) + 1, bytes ++ [0]) /\
    is_valid_utf8 bytes = true /\ Z.of_nat (length bytes) + 1 <= XKB_KEYSYM_UTF8_MAX_SIZE /\
    bytes = encode (xkb_keysym_to_utf32 ks).
Proof.
  intros H0 Hs. unfold xkb_keysym_to_utf8. destruct (Z.ltb_spec size XKB_KEYSYM_UTF8_MAX_SIZE); [lia|].
  pose proof (to_utf32_scalar ks H0) as Hsc. set (u := xkb_keysym_to_utf32 ks) in *.
  destruct (Z.eqb_spec u NO_KEYSYM_UNICODE_CONVERSION) as [Heq|Hne]; [by left|]. right.
  exists (encode u). split; [by apply utf32_to_utf8_scalar|]. split; [|split; [|done]].
  - assert (concat (map encode [u]) = encode u) as Heq by apply app_nil_r. unfold is_valid_utf8.
    rewrite <- Heq. apply valid_loop_encodes; [apply Forall_cons_2; [done | apply Forall_nil_2] | done].
  - unfold encode, XKB_KEYSYM_UTF8_MAX_SIZE. repeat destruct (_ <=? _); cbn; lia.
Qed.

Lemma keysym_to_utf8_valid_witness :
  xkb_keysym_to_utf32 0x20ac = NO_KEYSYM_UNICODE_CONVERSION /\ xkb_keysym_to_utf8 0x20ac 5 = (0, []) \/
  exists bytes, xkb_keysym_to_utf8 0x20ac 5 = (Z.of_nat (length bytes) + 1, bytes ++ [0]) /\
    is_valid_utf8 bytes = true /\ Z.of_nat (length bytes) + 1 <= XKB_KEYSYM_UTF8_MAX_SIZE /\
    bytes = encode (xkb_keysym_to_utf32 0x20ac).
Proof.
  apply (keysym_to_utf8_valid 0x20ac 5); unfold XKB_KEYSYM_UTF8_MAX_SIZE; lia.
Defined.
