(* ===== verification/Client.v ===== *)
(** * Client state (src/state.c)

    The functions that use a state without processing key events: the updates
    of a client state from a server ([xkb_state_update_mask],
    [xkb_state_update_event]), the tests of modifiers, layouts and LEDs, the
    consumed modifiers, and the keysyms and characters of a key.

    Names are atoms: an argument [atom] stands for the result of
    [xkb_atom_lookup] on the name. *)

From Stdlib Require Import ZArith Lia.
From stdpp Require Import base tactics list numbers.
From S2P Require Import Prelude Keymap State Filters Utf8 Keysym.

(** ** Updates of a client state *)

Definition client_mode (m : state_mode) : bool :=
  match m with CLIENT_STATE | LEGACY_MIXED_STATE => true | _ => false end.
Definition companion_mode (m : state_mode) : bool :=
  match m with SERVER_COMPANION | LEGACY_MIXED_STATE => true | _ => false end.

(** The arguments, from depressed modifiers to locked group, are 32-bit. *)
Definition mask_components (km : xkb_keymap) (base latched locked bg lg kg : Z)
    (c : state_components) : state_components :=
  set_locked_group (i32 kg) (set_latched_group (i32 lg) (set_base_group (i32 bg)
    (set_locked_mods (resolve_to_canonical_mods km locked)
      (set_latched_mods (resolve_to_canonical_mods km latched)
        (set_base_mods (resolve_to_canonical_mods km base) c))))).

Definition xkb_state_update_mask (s : xkb_state) (base latched locked bg lg kg : Z)
    : Z * xkb_state :=
  if negb (client_mode (st_mode s)) then (0, s)
  else
    let prev := st_components s in
    let s' := xkb_state_update_derived
      (st_set_components (mask_components (st_keymap s) base latched locked bg lg kg prev) s) in
    (get_state_component_changes prev (st_components s'), s').

Definition xkb_state_update_event (s : xkb_state) (e : xkb_event) : Z * xkb_state :=
  if negb (companion_mode (st_mode s)) then (0, s)
  else match e with
  | EvComponents c _ => (get_state_component_changes (st_components s) c, st_set_components c s)
  | EvKey _ _ => (0, s)
  end.

(** ** Tests *)

Definition xkb_state_mod_index_is_active (s : xkb_state) (idx type : Z) : Z :=
  match item (km_mods (st_keymap s)) idx with
  | None => -1
  | Some m =>
      let mapping := mod_mapping m in
      if mapping =? 0 then 0
      else Z.b2z (Z.land (xkb_state_serialize_mods s type) mapping =? mapping)
  end.

(** [enum xkb_state_match] *)
Definition XKB_STATE_MATCH_ANY : Z := 2 ^ 0.
Definition XKB_STATE_MATCH_ALL : Z := 2 ^ 1.
Definition XKB_STATE_MATCH_NON_EXCLUSIVE : Z := 2 ^ 16.
Definition XKB_STATE_MATCH_FLAGS : Z :=
  foldr Z.lor 0 [XKB_STATE_MATCH_ANY; XKB_STATE_MATCH_ALL; XKB_STATE_MATCH_NON_EXCLUSIVE].

Definition match_mod_masks (s : xkb_state) (type match_ wanted : Z) : bool :=
  let active := xkb_state_serialize_mods s type in
  if negb (has_flag match_ XKB_STATE_MATCH_NON_EXCLUSIVE) && negb (Z.ldiff active wanted =? 0)
  then false
  else if has_flag match_ XKB_STATE_MATCH_ANY then negb (Z.land active wanted =? 0)
  else Z.land active wanted =? wanted.

(** The loops over the variable arguments; the list is what precedes the
    sentinel.  [None] is an invalid modifier. *)
Fixpoint wanted_indices (km : xkb_keymap) (idxs : list Z) (wanted : Z) : option Z :=
  match idxs with
  | [] => Some wanted
  | idx :: idxs =>
      match item (km_mods km) idx with
      | None => None
      | Some m => wanted_indices km idxs (Z.lor wanted (mod_mapping m))
      end
  end.

Definition are_active (s : xkb_state) (type match_ : Z) (wanted : option Z) : Z :=
  if negb (Z.ldiff match_ XKB_STATE_MATCH_FLAGS =? 0) then -2
  else match wanted with
  | None => -1
  | Some w => if w =? 0 then 0 else Z.b2z (match_mod_masks s type match_ w)
  end.

Definition xkb_state_mod_indices_are_active (s : xkb_state) (type match_ : Z) (idxs : list Z) : Z :=
  are_active s type match_ (wanted_indices (st_keymap s) idxs 0).

Definition xkb_keymap_mod_get_index (km : xkb_keymap) (atom : Z) : Z :=
  if atom =? XKB_ATOM_NONE then XKB_MOD_INVALID
  else XkbModNameToIndex (km_mods km) atom MOD_BOTH.

Definition xkb_state_mod_name_is_active (s : xkb_state) (atom type : Z) : Z :=
  let idx := xkb_keymap_mod_get_index (st_keymap s) atom in
  if idx =? XKB_MOD_INVALID then -1 else xkb_state_mod_index_is_active s idx type.

Fixpoint wanted_names (km : xkb_keymap) (atoms : list Z) (wanted : Z) : option Z :=
  match atoms with
  | [] => Some wanted
  | atom :: atoms =>
      let idx := xkb_keymap_mod_get_index km atom in
      if idx =? XKB_MOD_INVALID then None
      else match item (km_mods km) idx with
           | None => None
           | Some m => wanted_names km atoms (Z.lor wanted (mod_mapping m))
           end
  end.

Definition xkb_state_mod_names_are_active (s : xkb_state) (type match_ : Z) (atoms : list Z) : Z :=
  are_active s type match_ (wanted_names (st_keymap s) atoms 0).

Definition xkb_state_layout_index_is_active (s : xkb_state) (idx type : Z) : Z :=
  let c := st_components s in
  if idx >=? km_num_groups (st_keymap s) then -1
  else Z.b2z ((has_flag type XKB_STATE_LAYOUT_EFFECTIVE && (group c =? idx)) ||
              (has_flag type XKB_STATE_LAYOUT_DEPRESSED && (base_group c =? i32 idx)) ||
              (has_flag type XKB_STATE_LAYOUT_LATCHED && (latched_group c =? i32 idx)) ||
              (has_flag type XKB_STATE_LAYOUT_LOCKED && (locked_group c =? i32 idx))).

(** First index of an atom in a table. *)
Definition index_of (atoms : list Z) (atom invalid : Z) : Z :=
  match list_find (fun a => a = atom) atoms with
  | Some (i, _) => Z.of_nat i
  | None => invalid
  end.

Definition xkb_keymap_layout_get_index (km : xkb_keymap) (atom : Z) : Z :=
  if atom =? XKB_ATOM_NONE then XKB_LAYOUT_INVALID
  else index_of (km_group_names km) atom XKB_LAYOUT_INVALID.

Definition xkb_state_layout_name_is_active (s : xkb_state) (atom type : Z) : Z :=
  let idx := xkb_keymap_layout_get_index (st_keymap s) atom in
  if idx =? XKB_LAYOUT_INVALID then -1 else xkb_state_layout_index_is_active s idx type.

Definition xkb_state_led_index_is_active (s : xkb_state) (idx : Z) : Z :=
  match item (km_leds (st_keymap s)) idx with
  | None => -1
  | Some led =>
      if led_name led =? XKB_ATOM_NONE then -1
      else Z.b2z (negb (Z.land (leds (st_components s)) (bit idx) =? 0))
  end.

Definition xkb_keymap_led_get_index (km : xkb_keymap) (atom : Z) : Z :=
  if atom =? XKB_ATOM_NONE then XKB_LED_INVALID
  else index_of (map led_name (km_leds km)) atom XKB_LED_INVALID.

Definition xkb_state_led_name_is_active (s : xkb_state) (atom : Z) : Z :=
  let idx := xkb_keymap_led_get_index (st_keymap s) atom in
  if idx =? XKB_LED_INVALID then -1 else xkb_state_led_index_is_active s idx.

(** ** Consumed modifiers *)

Definition XKB_CONSUMED_MODE_XKB : Z := 0.
Definition XKB_CONSUMED_MODE_GTK : Z := 1.

Definition one_bit_set (x : Z) : bool := negb (x =? 0) && (Z.land x (x - 1) =? 0).

(** The entry with its index, that stands for its address. *)
Definition find_entry (t : xkb_key_type) (mods : Z) : option (nat * xkb_key_type_entry) :=
  list_find (fun e => entry_is_active e && (m_mask (e_mods e) =? mods) = true) (t_entries t).

(** The loop over the entries of the type, from the index [i]. *)
Fixpoint gtk_consumed (i : nat) (entries : list xkb_key_type_entry) (matching : option nat)
    (levels : list xkb_level) (no_mods_level : xkb_level) : Z :=
  match entries with
  | [] => 0
  | e :: entries =>
      let rest := gtk_consumed (S i) entries matching levels no_mods_level in
      if negb (entry_is_active e) then rest
      else match item levels (e_level e) with
      | None => rest
      | Some level =>
          if XkbLevelsSameSyms level no_mods_level then rest
          else if bool_decide (matching = Some i) || one_bit_set (m_mask (e_mods e))
          then Z.lor (Z.ldiff (m_mask (e_mods e)) (m_mask (e_preserve e))) rest
          else rest
      end
  end.

Definition key_get_consumed (s : xkb_state) (key : xkb_key) (mode : Z) : Z :=
  let layout := xkb_state_key_get_layout s (k_keycode key) in
  if layout =? XKB_LAYOUT_INVALID then 0
  else match item (k_groups key) layout with
  | None => 0
  | Some g =>
      let type := g_type g in
      let matching := find_entry type (Z.land (mods (st_components s)) (m_mask (t_mods type))) in
      let preserve := match matching with Some (_, e) => m_mask (e_preserve e) | None => 0 end in
      let consumed :=
        if mode =? XKB_CONSUMED_MODE_XKB then m_mask (t_mods type)
        else if mode =? XKB_CONSUMED_MODE_GTK then
          let no_mods_leveli := match get_entry_for_mods type 0 with
                                | Some e => e_level e | None => 0 end in
          match item (g_levels g) no_mods_leveli with
          | None => 0
          | Some no_mods_level =>
              gtk_consumed 0 (t_entries type) (fst <$> matching) (g_levels g) no_mods_level
          end
        else 0 in
      Z.ldiff consumed preserve
  end.

Definition xkb_state_mod_index_is_consumed2 (s : xkb_state) (kc idx mode : Z) : Z :=
  match lookup_key (st_keymap s) kc, item (km_mods (st_keymap s)) idx with
  | Some key, Some m =>
      let mapping := mod_mapping m in
      if mapping =? 0 then 0
      else Z.b2z (Z.land mapping (key_get_consumed s key mode) =? mapping)
  | _, _ => -1
  end.

Definition xkb_state_mod_index_is_consumed (s : xkb_state) (kc idx : Z) : Z :=
  xkb_state_mod_index_is_consumed2 s kc idx XKB_CONSUMED_MODE_XKB.

Definition xkb_state_mod_mask_remove_consumed (s : xkb_state) (kc mask : Z) : Z :=
  match lookup_key (st_keymap s) kc with
  | None => 0
  | Some key => Z.ldiff (resolve_to_canonical_mods (st_keymap s) mask)
                  (key_get_consumed s key XKB_CONSUMED_MODE_XKB)
  end.

Definition xkb_state_key_get_consumed_mods2 (s : xkb_state) (kc mode : Z) : Z :=
  if (mode =? XKB_CONSUMED_MODE_XKB) || (mode =? XKB_CONSUMED_MODE_GTK) then
    match lookup_key (st_keymap s) kc with
    | None => 0
    | Some key => key_get_consumed s key mode
    end
  else 0.

Definition xkb_state_key_get_consumed_mods (s : xkb_state) (kc : Z) : Z :=
  xkb_state_key_get_consumed_mods2 s kc XKB_CONSUMED_MODE_XKB.

(** ** Keysyms *)

Definition XKB_MOD_INDEX_CAPS : Z := 1.
Definition XKB_MOD_INDEX_CTRL : Z := 2.

Definition should_do_caps_transformation (s : xkb_state) (kc : Z) : bool :=
  (xkb_state_mod_index_is_active s XKB_MOD_INDEX_CAPS XKB_STATE_MODS_EFFECTIVE >? 0) &&
  (xkb_state_mod_index_is_consumed s kc XKB_MOD_INDEX_CAPS =? 0).
Definition should_do_ctrl_transformation (s : xkb_state) (kc : Z) : bool :=
  (xkb_state_mod_index_is_active s XKB_MOD_INDEX_CTRL XKB_STATE_MODS_EFFECTIVE >? 0) &&
  (xkb_state_mod_index_is_consumed s kc XKB_MOD_INDEX_CTRL =? 0).

(** The list is the array [*syms_out] of the returned number of items. *)
Definition level_syms (lv : xkb_level) (caps : bool) : list Z :=
  let n := lv_num_syms lv in
  if caps then
    if Nat.ltb 1 n then take n (if lv_has_upper lv then drop n (lv_syms lv) else lv_syms lv)
    else take n [lv_upper lv]
  else take n (lv_syms lv).

Definition xkb_state_key_get_syms (s : xkb_state) (kc : Z) : list Z :=
  let layout := xkb_state_key_get_layout s kc in
  if layout =? XKB_LAYOUT_INVALID then []
  else
    let level := xkb_state_key_get_level s kc layout in
    if level =? XKB_LEVEL_INVALID then []
    else match lookup_key (st_keymap s) kc with
    | None => []
    | Some key =>
        match xkb_keymap_key_get_level key layout level with
        | None => []
        | Some lv => level_syms lv (should_do_caps_transformation s kc)
        end
    end.

Definition xkb_state_key_get_one_sym (s : xkb_state) (kc : Z) : Z :=
  match xkb_state_key_get_syms s kc with [sym] => sym | _ => XKB_KEY_NoSymbol end.

(** [char] arithmetic; the argument is an ASCII character. *)
Definition XkbToControl (c : Z) : Z :=
  if ((c >=? 0x40) && (c <? 0x7f)) || (c =? 0x20) then Z.land c 0x1f
  else if c =? 0x32 then 0
  else if (c >=? 0x33) && (c <=? 0x37) then c - (0x33 - 0x1b)
  else if c =? 0x38 then 0x7f
  else if c =? 0x2f then Z.land 0x5f 0x1f
  else c.

(** The search of an ASCII keysym in the other layouts; the fuel is the
    number of layouts left. *)
Fixpoint ascii_sym_loop (fuel : nat) (s : xkb_state) (kc i sym : Z) : Z :=
  match fuel with
  | O => sym
  | S fuel =>
      let level := xkb_state_key_get_level s kc i in
      if level =? XKB_LEVEL_INVALID then ascii_sym_loop fuel s kc (i + 1) sym
      else match xkb_keymap_key_get_syms_by_level (st_keymap s) kc i level with
           | [sym'] => if sym' <=? 127 then sym' else ascii_sym_loop fuel s kc (i + 1) sym
           | _ => ascii_sym_loop fuel s kc (i + 1) sym
           end
  end.

Definition get_one_sym_for_string (s : xkb_state) (kc : Z) : Z :=
  let layout := xkb_state_key_get_layout s kc in
  let num_layouts := xkb_keymap_num_layouts_for_key (st_keymap s) kc in
  let level := xkb_state_key_get_level s kc layout in
  if (layout =? XKB_LAYOUT_INVALID) || (num_layouts =? 0) || (level =? XKB_LEVEL_INVALID)
  then XKB_KEY_NoSymbol
  else match xkb_keymap_key_get_syms_by_level (st_keymap s) kc layout level with
  | [sym] =>
      let sym := if should_do_ctrl_transformation s kc && (sym >? 127)
                 then ascii_sym_loop (Z.to_nat num_layouts) s kc 0 sym else sym in
      if should_do_caps_transformation s kc then xkb_keysym_to_upper sym else sym
  | _ => XKB_KEY_NoSymbol
  end.

(** ** Characters *)

(** [memcpy(buffer + offset, bytes, length)], within the buffer. *)
Definition write (buffer : list Z) (offset : nat) (bytes : list Z) : list Z :=
  take offset buffer ++ bytes ++ drop (offset + length bytes) buffer.

(** The loop over the keysyms: offset and buffer, or [None] for [err_bad]
    with the buffer at that point. *)
Fixpoint utf8_loop (enc : Z -> Z -> Z * list Z) (syms : list Z) (offset : nat)
    (buffer : list Z) : option nat * list Z :=
  match syms with
  | [] => (Some offset, buffer)
  | sym :: syms =>
      let (ret, tmp) := enc sym XKB_KEYSYM_UTF8_MAX_SIZE in
      if ret <=? 0 then (None, buffer)
      else
        let n := Z.to_nat (ret - 1) in
        utf8_loop enc syms (offset + n)
          (if Nat.leb (offset + n) (length buffer) then write buffer offset (take n tmp)
           else buffer)
  end.

Definition string_syms (s : xkb_state) (kc : Z) : list Z :=
  let sym := get_one_sym_for_string s kc in
  if sym =? XKB_KEY_NoSymbol then xkb_state_key_get_syms s kc else [sym].

(** From the end of the loop; [buffer] has [size] bytes. *)
Definition utf8_finish (ctrl : bool) (r : option nat * list Z) : Z * list Z :=
  let bad (buffer : list Z) := (0, write buffer 0 (take (length buffer) [0])) in
  match r with
  | (None, buffer) => bad buffer
  | (Some offset, buffer) =>
      if Nat.leb (length buffer) offset then
        (Z.of_nat offset,
         if Nat.eqb (length buffer) 0 then buffer else write buffer (length buffer - 1) [0])
      else
        let buffer := write buffer offset [0] in
        if negb (is_valid_utf8 (take offset buffer)) then bad buffer
        else
          (Z.of_nat offset,
           match buffer with
           | b :: _ => if Nat.eqb offset 1 && (b <=? 127) && ctrl
                       then write buffer 0 [XkbToControl b] else buffer
           | [] => buffer
           end)
  end.

(** The return value and the buffer of the caller afterwards. *)
Definition xkb_state_key_get_utf8 (s : xkb_state) (kc : Z) (buffer : list Z) : Z * list Z :=
  utf8_finish (should_do_ctrl_transformation s kc)
    (utf8_loop xkb_keysym_to_utf8 (string_syms s kc) 0 buffer).

Definition xkb_state_key_get_utf32 (s : xkb_state) (kc : Z) : Z :=
  let cp := xkb_keysym_to_utf32 (get_one_sym_for_string s kc) in
  if (cp <=? 127) && should_do_ctrl_transformation s kc then XkbToControl cp else cp.

(** ** The buffer of the characters *)

(** What the loop relies on in [xkb_keysym_to_utf8]: [code] is the code point
    of a keysym, 0 for a keysym without character. *)
Class Utf8Encoder (enc : Z -> Z -> Z * list Z) (code : Z -> Z) : Prop := {
  encoder_none sym : 0 <= sym -> code sym = 0 -> enc sym XKB_KEYSYM_UTF8_MAX_SIZE = (0, []);
  encoder_some sym : 0 <= sym -> code sym <> 0 ->
    scalar (code sym) /\
    enc sym XKB_KEYSYM_UTF8_MAX_SIZE =
      (Z.of_nat (length (encode (code sym))) + 1, encode (code sym) ++ [0])
}.

#[export] Instance keysym_encoder : Utf8Encoder xkb_keysym_to_utf8 xkb_keysym_to_utf32.
Proof.
  split; intros sym H0 Hc; unfold xkb_keysym_to_utf8, NO_KEYSYM_UNICODE_CONVERSION;
    rewrite Z.ltb_irrefl.
  - by rewrite Hc.
  - pose proof (to_utf32_scalar sym H0). split; [done|].
    destruct (Z.eqb_spec (xkb_keysym_to_utf32 sym) 0); [done|]. by apply utf32_to_utf8_scalar.
Qed.

Lemma write_length buffer off bytes :
  (off + length bytes <= length buffer)%nat -> length (write buffer off bytes) = length buffer.
Proof. intros. unfold write. rewrite !length_app, length_take, length_drop. lia. Qed.

Lemma write_app a b c bytes :
  length b = length bytes -> write (a ++ b ++ c) (length a) bytes = a ++ bytes ++ c.
Proof.
  intros H. unfold write. rewrite take_app_length. f_equal. f_equal.
  rewrite app_assoc, drop_app_length'; [done|]. rewrite length_app. lia.
Qed.

Lemma write_write buffer off b1 b2 :
  (off + length b1 + length b2 <= length buffer)%nat ->
  write (write buffer off b1) (off + length b1) b2 = write buffer off (b1 ++ b2).
Proof.
  intros H. unfold write. rewrite !length_app.
  rewrite (app_assoc (take off buffer)), take_app_length'
    by (rewrite length_app, length_take; lia).
  rewrite <- !app_assoc. do 3 f_equal.
  rewrite app_assoc, drop_app_ge by (rewrite length_app, length_take; lia).
  rewrite length_app, length_take, drop_drop. f_equal. lia.
Qed.

Lemma write_0 buffer bytes : write buffer 0 bytes = bytes ++ drop (length bytes) buffer.
Proof. done. Qed.

Lemma write_nil buffer off : (off <= length buffer)%nat -> write buffer off [] = buffer.
Proof. intros. unfold write. cbn. by rewrite Nat.add_0_r, take_drop. Qed.

Lemma write_take buffer off bytes :
  (off + length bytes <= length buffer)%nat ->
  take (off + length bytes) (write buffer off bytes) = take off buffer ++ bytes.
Proof.
  intros. unfold write. rewrite app_assoc. apply take_app_length'.
  rewrite length_app, length_take. lia.
Qed.

Section utf8.
Context {enc : Z -> Z -> Z * list Z} {code : Z -> Z} `{!Utf8Encoder enc code}.

(** The characters of keysyms that all have one. *)
Definition text (syms : list Z) : list Z := concat (map (fun sym => encode (code sym)) syms).

Lemma utf8_loop_bad syms off buffer :
  Forall (fun sym => 0 <= sym) syms -> Exists (fun sym => code sym = 0) syms ->
  exists buffer', utf8_loop enc syms off buffer = (None, buffer') /\
                  length buffer' = length buffer.
Proof.
  intros Hpos Hex. revert off buffer.
  induction syms as [|sym syms IH]; intros off buffer; [by inversion Hex|].
  apply Forall_cons_1 in Hpos as [H0 Hpos]. cbn [utf8_loop].
  destruct (Z.eq_dec (code sym) 0) as [Hc|Hc].
  - rewrite (encoder_none sym H0 Hc). by exists buffer.
  - destruct (encoder_some sym H0 Hc) as [_ ->].
    destruct (Z.leb_spec (Z.of_nat (length (encode (code sym))) + 1) 0); [lia|].
    replace (Z.to_nat (Z.of_nat (length (encode (code sym))) + 1 - 1))
      with (length (encode (code sym))) by lia.
    rewrite take_app_length. apply Exists_cons in Hex as [?|Hex]; [done|].
    destruct (IH Hpos Hex (off + length (encode (code sym)))%nat
      (if Nat.leb (off + length (encode (code sym))) (length buffer)
       then write buffer off (encode (code sym)) else buffer)) as (b & -> & Hb).
    exists b. split; [done|]. rewrite Hb.
    destruct (Nat.leb_spec (off + length (encode (code sym))) (length buffer)); [|done].
    by apply write_length.
Qed.

Lemma utf8_loop_text syms off buffer :
  Forall (fun sym => 0 <= sym /\ code sym <> 0) syms ->
  exists buffer', utf8_loop enc syms off buffer = (Some (off + length (text syms))%nat, buffer') /\
    length buffer' = length buffer /\
    ((off + length (text syms) <= length buffer)%nat -> buffer' = write buffer off (text syms)).
Proof.
  revert off buffer. induction syms as [|sym syms IH]; intros off buffer Hs.
  { exists buffer. cbn. rewrite Nat.add_0_r. split; [done|]. split; [done|].
    intros. by rewrite write_nil by lia. }
  apply Forall_cons_1 in Hs as [[H0 Hc] Hs]. cbn [utf8_loop].
  destruct (encoder_some sym H0 Hc) as [_ ->].
  destruct (Z.leb_spec (Z.of_nat (length (encode (code sym))) + 1) 0); [lia|].
  replace (Z.to_nat (Z.of_nat (length (encode (code sym))) + 1 - 1))
    with (length (encode (code sym))) by lia.
  rewrite take_app_length. set (e := encode (code sym)).
  change (text (sym :: syms)) with (e ++ text syms). rewrite length_app, Nat.add_assoc.
  destruct (IH (off + length e)%nat (if Nat.leb (off + length e) (length buffer)
     then write buffer off e else buffer) Hs) as (b & -> & Hb & Hw).
  exists b. split; [done|]. destruct (Nat.leb_spec (off + length e) (length buffer)).
  - rewrite write_length in Hb, Hw by done. split; [done|]. intros.
    rewrite Hw by lia. apply write_write. lia.
  - split; [done|]. lia.
Qed.

Lemma text_valid syms :
  Forall (fun sym => 0 <= sym /\ code sym <> 0) syms -> is_valid_utf8 (text syms) = true.
Proof.
  intros H. unfold is_valid_utf8, text. rewrite <- (map_map code encode).
  apply valid_loop_encodes; [|done]. apply List.Forall_map.
  eapply list.Forall_impl; [exact H|]. intros sym [H0 Hc]. by apply encoder_some.
Qed.
End utf8.
Arguments text code syms : clear implicits.

(** The Control transformation applies to a single ASCII character. *)
Definition control_text (ctrl : bool) (t : list Z) : list Z :=
  match t with
  | [b] => if (b <=? 127) && ctrl then [XkbToControl b] else t
  | _ => t
  end.

Lemma utf8_finish_bad ctrl buffer :
  exists buffer', utf8_finish ctrl (None, buffer) = (0, buffer') /\
    length buffer' = length buffer /\ (buffer <> [] -> buffer' !! 0%nat = Some 0).
Proof.
  eexists. split; [reflexivity|].
  destruct buffer as [|b l]; [done|]. cbn [length take]. split; [|done].
  rewrite take_nil. apply (write_length (b :: l) 0 [0]). cbn. lia.
Qed.

Lemma utf8_finish_trunc ctrl off buffer :
  (length buffer <= off)%nat ->
  exists buffer', utf8_finish ctrl (Some off, buffer) = (Z.of_nat off, buffer') /\
    length buffer' = length buffer /\ (buffer <> [] -> buffer' !! (length buffer - 1)%nat = Some 0).
Proof.
  intros H. cbn [utf8_finish]. destruct (Nat.leb_spec (length buffer) off); [|lia].
  eexists. split; [reflexivity|]. destruct buffer as [|b l]; [done|].
  cbn [Nat.eqb length Nat.sub]. rewrite Nat.sub_0_r. split; [apply write_length; cbn; lia|].
  intros _. unfold write. rewrite drop_ge by (cbn; lia). rewrite app_nil_r.
  apply list_lookup_middle. rewrite length_take. cbn. lia.
Qed.

Lemma utf8_finish_text ctrl t buffer :
  (length t < length buffer)%nat -> is_valid_utf8 t = true ->
  utf8_finish ctrl (Some (length t), write buffer 0 t) =
    (Z.of_nat (length t), write buffer 0 (control_text ctrl t ++ [0])).
Proof.
  intros Hlen Hv. cbn [utf8_finish]. rewrite write_length by (cbn; lia).
  destruct (Nat.leb_spec (length buffer) (length t)); [lia|].
  pose proof (write_write buffer 0 t [0]) as Hw. cbn [Nat.add length] in Hw.
  rewrite Hw by lia. clear Hw.
  replace (take (length t) (write buffer 0 (t ++ [0]))) with t
    by (rewrite write_0, <- app_assoc; by rewrite take_app_length).
  rewrite Hv. cbn [negb]. f_equal. unfold control_text.
  destruct t as [|b [|b' t]]; [done| |done]. cbn [app length].
  pose proof (write_0 buffer [b; 0]) as ->. cbn [app Nat.eqb andb].
  destruct ((b <=? 127) && ctrl); [|done]. rewrite write_0. done.
Qed.
