(* ===== verification/ClientSpec.v ===== *)
(** * Properties of the client state

    The theorems on the functions of [Client], with their witnesses on the
    sample keymap. *)

From Stdlib Require Import ZArith Lia.
From stdpp Require Import base tactics list numbers.
From S2P Require Import Prelude Keymap State Filters Utf8 Keysym Client.

(** A client state with the Control modifier depressed. *)
Definition control_client : xkb_state :=
  snd (xkb_state_update_mask (xkb_state_init sample_keymap CLIENT_STATE) Control 0 0 0 0 0).

(** ** Characters *)

(** C36. The characters of a key are written whole and valid in a buffer that has
    room for them and the NUL, with the Control transformation; without room,
    the length is returned and the buffer terminated; a keysym without
    character makes an empty string. *)
Theorem key_get_utf8_spec s kc buffer :
  Forall (fun sym => 0 <= sym) (string_syms s kc) ->
  let t := text xkb_keysym_to_utf32 (string_syms s kc) in
  let ctrl := should_do_ctrl_transformation s kc in
  exists n buffer',
    xkb_state_key_get_utf8 s kc buffer = (n, buffer') /\ length buffer' = length buffer /\
    (Forall (fun sym => xkb_keysym_to_utf32 sym <> 0) (string_syms s kc) ->
       n = Z.of_nat (length t) /\ is_valid_utf8 t = true /\
       ((length t < length buffer)%nat -> buffer' = write buffer 0 (control_text ctrl t ++ [0])) /\
       ((length t >= length buffer)%nat -> buffer <> [] ->
          buffer' !! (length buffer - 1)%nat = Some 0)) /\
    (Exists (fun sym => xkb_keysym_to_utf32 sym = 0) (string_syms s kc) ->
       n = 0 /\ (buffer <> [] -> buffer' !! 0%nat = Some 0)).
Proof.
  intros Hpos t ctrl. unfold xkb_state_key_get_utf8. fold ctrl.
  destruct (Exists_dec (fun sym => xkb_keysym_to_utf32 sym = 0) (string_syms s kc)) as [Hex|Hall].
  { intros sym. apply Z.eq_dec. }
  - destruct (utf8_loop_bad (string_syms s kc) 0 buffer Hpos Hex) as (b & -> & Hb).
    destruct (utf8_finish_bad ctrl b) as (b' & -> & Hb' & H0). exists 0, b'.
    split; [done|]. split; [congruence|]. split.
    + intros Hno. exfalso. apply Exists_exists in Hex as (sym & Hin & Hc).
      rewrite Forall_forall in Hno. by apply (Hno sym).
    + intros _. split; [done|]. intros Hne. apply H0. by destruct b, buffer.
  - assert (Forall (fun sym => 0 <= sym /\ xkb_keysym_to_utf32 sym <> 0) (string_syms s kc)) as Hs.
    { rewrite Forall_forall in *. intros sym Hin. split; [auto|].
      intros Hc. apply Hall, Exists_exists. eauto. }
    pose proof (text_valid _ Hs) as Hv.
    destruct (utf8_loop_text (string_syms s kc) 0 buffer Hs) as (b & -> & Hb & Hw).
    cbn [Nat.add] in *. fold t in Hw, Hv |- *.
    destruct (decide (length t < length buffer)%nat) as [Hlt|Hge].
    + rewrite (Hw ltac:(lia)), utf8_finish_text by done. do 2 eexists. split; [reflexivity|].
      assert (length (control_text ctrl t) = length t) as Hl.
      { unfold control_text. destruct t as [|? [|? ?]]; [done| |done]. by destruct (_ && _). }
      split; [apply write_length; rewrite length_app, Hl; cbn; lia|]. split; [|done].
      intros _. split; [done|]. split; [done|]. split; [done|lia].
    + destruct (utf8_finish_trunc ctrl (length t) b ltac:(lia)) as (b' & -> & Hb' & Hlast).
      do 2 eexists. split; [reflexivity|]. split; [congruence|]. split; [|done].
      intros _. split; [done|]. split; [done|]. split; [lia|]. intros _ Hne.
      rewrite <- Hb. apply Hlast. by destruct b, buffer.
Qed.

Lemma key_get_utf8_spec_witness :
  exists n buffer',
    xkb_state_key_get_utf8 control_client 1 [7; 7; 7; 7] = (n, buffer') /\
    length buffer' = 4%nat /\
    (Forall (fun sym => xkb_keysym_to_utf32 sym <> 0) (string_syms control_client 1) ->
       n = 1 /\ is_valid_utf8 [0x61] = true /\
       ((1 < 4)%nat -> buffer' = [1; 0; 7; 7]) /\
       ((1 >= 4)%nat -> [7; 7; 7; 7] <> [] -> buffer' !! 3%nat = Some 0)) /\
    (Exists (fun sym => xkb_keysym_to_utf32 sym = 0) (string_syms control_client 1) ->
       n = 0 /\ ([7; 7; 7; 7] <> [] -> buffer' !! 0%nat = Some 0)).
Proof.
  refine (key_get_utf8_spec control_client 1 [7; 7; 7; 7] _).
  apply (bool_decide_unpack _). vm_compute. reflexivity.
Defined.

(** A client state of a keymap whose only key has the keysym [eacute]. *)
Definition eacute_client : xkb_state :=
  xkb_state_init
    (mk_keymap XKB_KEYMAP_FORMAT_TEXT_V1 [] 0 0 1
       [mk_simple_key 0 [mk_group one_level [sym_level 0xe9 0xc9]]] [] (km_mods sample_keymap)
       0xff 1 [])
    CLIENT_STATE.

(** Without room for the NUL the last byte is replaced by it: the UTF-8 in the
    buffer may be cut in the middle of a sequence. *)
Theorem key_get_utf8_truncates :
  xkb_state_key_get_utf8 eacute_client 0 [7; 7; 7] = (2, [0xc3; 0xa9; 0]) /\
  xkb_state_key_get_utf8 eacute_client 0 [7; 7] = (2, [0xc3; 0]) /\
  is_valid_utf8 [0xc3] = false.
Proof. by vm_compute. Qed.

Lemma XkbToControl_ascii c : 0 <= c <= 127 -> 0 <= XkbToControl c <= 127.
Proof.
  intros H. assert (forallb (fun n => let c := Z.of_nat n in
    (0 <=? XkbToControl c) && (XkbToControl c <=? 127)) (seq 0 128) = true) as Hall by by vm_compute.
  rewrite forallb_forall in Hall. specialize (Hall (Z.to_nat c)).
  rewrite in_seq in Hall. specialize (Hall ltac:(lia)). cbv zeta in Hall.
  rewrite Z2Nat.id, andb_true_iff, !Z.leb_le in Hall by lia. lia.
Qed.

(** [xkb_state_key_get_utf32] and [xkb_state_key_get_utf8] agree on a key with
    one character: the string is the encoding of the code point. *)
Theorem key_get_utf32_utf8 s kc buffer :
  let sym := get_one_sym_for_string s kc in
  let cp := xkb_state_key_get_utf32 s kc in
  0 <= sym -> sym <> XKB_KEY_NoSymbol -> xkb_keysym_to_utf32 sym <> 0 ->
  (4 < length buffer)%nat ->
  scalar cp /\
  xkb_state_key_get_utf8 s kc buffer =
    (Z.of_nat (length (encode cp)), write buffer 0 (encode cp ++ [0])).
Proof.
  intros sym cp H0 Hne Hc Hlen. unfold xkb_state_key_get_utf8, string_syms. fold sym.
  destruct (Z.eqb_spec sym XKB_KEY_NoSymbol); [done|].
  assert (Forall (fun sym => 0 <= sym /\ xkb_keysym_to_utf32 sym <> 0) [sym]) as Hs by by constructor.
  destruct (utf8_loop_text [sym] 0 buffer Hs) as (b & -> & _ & Hw).
  pose proof (text_valid _ Hs) as Hv. unfold text in *. cbn [map concat Nat.add] in *.
  rewrite app_nil_r in *. set (u := xkb_keysym_to_utf32 sym) in *.
  pose proof (to_utf32_scalar sym H0) as Hu. fold u in Hu.
  assert (length (encode u) <= 4)%nat as H4
    by (unfold encode; repeat destruct (_ <=? _); cbn; lia).
  rewrite (Hw ltac:(lia)), utf8_finish_text by (done || lia).
  assert (cp = if (u <=? 127) && should_do_ctrl_transformation s kc then XkbToControl u else u)
    as -> by done.
  unfold encode at 1 2. destruct (Z.leb_spec u 127) as [Hlow|Hhigh].
  - cbn [control_text length andb]. rewrite (proj2 (Z.leb_le u 127) Hlow). cbn [andb].
    destruct (should_do_ctrl_transformation s kc).
    + pose proof (XkbToControl_ascii u ltac:(destruct Hu; lia)) as Ha.
      unfold encode. destruct (Z.leb_spec (XkbToControl u) 127); [|lia].
      split; [unfold scalar; lia | done].
    + unfold encode. rewrite (proj2 (Z.leb_le u 127) Hlow). by split.
  - cbn [andb]. split; [done|]. unfold encode.
    destruct (Z.leb_spec u 127); [lia|]. by repeat destruct (_ <=? _).
Qed.

Lemma key_get_utf32_utf8_witness :
  scalar 1 /\
  xkb_state_key_get_utf8 control_client 1 [7; 7; 7; 7; 7] = (1, [1; 0; 7; 7; 7]).
Proof.
  refine (key_get_utf32_utf8 control_client 1 [7; 7; 7; 7; 7] _ _ _ _).
  - vm_compute. discriminate.
  - vm_compute. discriminate.
  - vm_compute. discriminate.
  - cbn. lia.
Defined.

(** ** Mirroring a server state *)

Lemma i32_0 : i32 0 = 0.
Proof. done. Qed.

Lemma serialize_layout_parts c :
  is_i32 (base_group c) -> is_i32 (latched_group c) -> is_i32 (locked_group c) ->
  serialize_layout c XKB_STATE_LAYOUT_DEPRESSED = u32 (base_group c) /\
  serialize_layout c XKB_STATE_LAYOUT_LATCHED = u32 (latched_group c) /\
  serialize_layout c XKB_STATE_LAYOUT_LOCKED = u32 (locked_group c).
Proof.
  intros. unfold serialize_layout.
  repeat match goal with |- context [has_flag ?a ?b] =>
    let v := eval vm_compute in (has_flag a b) in change (has_flag a b) with v end.
  cbv beta iota zeta.
  rewrite ?Z.add_0_r, ?Z.add_0_l, ?i32_0, ?Z.add_0_l, !(i32_id (base_group c)),
    !(i32_id (latched_group c)), !(i32_id (locked_group c)) by done.
  done.
Qed.

Lemma serialize_mods_parts c :
  serialize_mods c XKB_STATE_MODS_DEPRESSED = base_mods c /\
  serialize_mods c XKB_STATE_MODS_LATCHED = latched_mods c /\
  serialize_mods c XKB_STATE_MODS_LOCKED = locked_mods c.
Proof. unfold serialize_mods. cbn. by rewrite !Z.lor_0_r. Qed.

(** The modifiers are those a canonical state holds. *)
Definition canonical_mods (km : xkb_keymap) (c : state_components) : Prop :=
  Z.ldiff (base_mods c) (km_canonical_state_mask km) = 0 /\
  Z.ldiff (latched_mods c) (km_canonical_state_mask km) = 0 /\
  Z.ldiff (locked_mods c) (km_canonical_state_mask km) = 0.

(** What a server sends to its clients. *)
Definition send_mask (s c : xkb_state) : Z * xkb_state :=
  xkb_state_update_mask c
    (xkb_state_serialize_mods s XKB_STATE_MODS_DEPRESSED)
    (xkb_state_serialize_mods s XKB_STATE_MODS_LATCHED)
    (xkb_state_serialize_mods s XKB_STATE_MODS_LOCKED)
    (xkb_state_serialize_layout s XKB_STATE_LAYOUT_DEPRESSED)
    (xkb_state_serialize_layout s XKB_STATE_LAYOUT_LATCHED)
    (xkb_state_serialize_layout s XKB_STATE_LAYOUT_LOCKED).

Lemma send_mask_components s c :
  canonical_mods (st_keymap s) (st_components s) -> st_keymap c = st_keymap s ->
  is_i32 (base_group (st_components s)) -> is_i32 (latched_group (st_components s)) ->
  is_i32 (locked_group (st_components s)) -> client_mode (st_mode c) = true ->
  st_components (snd (send_mask s c)) =
    update_derived c (set_controls (controls (st_components c)) (st_components s)).
Proof.
  intros (Hb & Hl & Hk) Hkm Hbg Hlg Hkg Hmode.
  unfold send_mask, xkb_state_update_mask. rewrite Hmode. cbn [negb snd].
  unfold xkb_state_update_derived. cbn [st_components st_set_components].
  destruct (serialize_layout_parts (st_components s) Hbg Hlg Hkg) as (E1 & E2 & E3).
  destruct (serialize_mods_parts (st_components s)) as (M1 & M2 & M3).
  unfold xkb_state_serialize_mods, xkb_state_serialize_layout.
  rewrite E1, E2, E3, M1, M2, M3.
  unfold mask_components. rewrite Hkm, !resolve_canonical_id, !i32_u32 by done.
  match goal with |- update_derived (st_set_components ?x c) ?y = _ =>
    change (update_derived (st_set_components x c) y) with (update_derived c y) end.
  by apply update_derived_ext.
Qed.

(** Other controls change the LEDs, and nothing else of the derived components. *)
Lemma update_derived_controls s c v :
  0 <= km_num_groups (st_keymap s) <= XKB_MAX_GROUPS -> derived_ok s c ->
  update_derived s (set_controls v c) =
    set_leds (led_update_loop 0 (km_leds (st_keymap s)) (set_controls v c)) (set_controls v c).
Proof.
  intros Hn [Hm Hl Hlr Hg Hgr Hleds].
  set (c' := set_leds _ (set_controls v c)).
  rewrite (update_derived_ext s (set_controls v c) c') by done.
  apply update_derived_fixed; [done|].
  constructor; [exact Hm|exact Hl|exact Hlr|exact Hg|exact Hgr|].
  cbn. symmetry. apply led_update_loop_leds.
Qed.

(** A client state that shares the keymap and the layout policy of a server
    mirrors it through the six masks of [xkb_state_update_mask]: only the
    controls, and the LEDs that show them, are not transmitted.  The mask
    returned tells the changes. *)
Theorem update_mask_mirrors s c :
  0 <= km_num_groups (st_keymap s) <= XKB_MAX_GROUPS ->
  derived_ok s (st_components s) -> canonical_mods (st_keymap s) (st_components s) ->
  is_i32 (base_group (st_components s)) -> is_i32 (latched_group (st_components s)) ->
  is_i32 (locked_group (st_components s)) ->
  st_keymap c = st_keymap s -> st_policy c = st_policy s -> st_redirect c = st_redirect s ->
  client_mode (st_mode c) = true ->
  let (changed, c') := send_mask s c in
  st_components c' =
    set_leds (leds (st_components c')) (set_controls (controls (st_components c)) (st_components s)) /\
  (controls (st_components c) = controls (st_components s) -> st_components c' = st_components s) /\
  (forall b, 0 <= b ->
     Z.testbit changed b = changed_bit (st_components c) (st_components c') b).
Proof.
  intros Hn Hd Hcan Hbg Hlg Hkg Hkm Hp Hr Hmode.
  pose proof (send_mask_components s c Hcan Hkm Hbg Hlg Hkg Hmode) as Hc.
  assert (fst (send_mask s c) = get_state_component_changes (st_components c)
            (st_components (snd (send_mask s c)))) as Hch.
  { unfold send_mask, xkb_state_update_mask. by rewrite Hmode. }
  destruct (send_mask s c) as [changed c']. cbn [fst snd] in *.
  apply (derived_ok_ext s c) in Hd; [|done..].
  rewrite update_derived_controls in Hc by (done || by rewrite Hkm). split; [|split].
  - by rewrite Hc.
  - intros He. rewrite Hc, He. destruct Hd. destruct (st_components s).
    unfold set_controls, set_leds in *. cbn in *. f_equal. by rewrite der_leds at 2.
  - intros b Hb. rewrite Hch. by apply changes_testbit.
Qed.

Lemma update_mask_mirrors_witness :
  let (changed, c') := send_mask control_client (xkb_state_init sample_keymap LEGACY_MIXED_STATE) in
  st_components c' = set_leds (leds (st_components c'))
    (set_controls 0 (st_components control_client)) /\
  (0 = 0 -> st_components c' = st_components control_client) /\
  (forall b, 0 <= b -> Z.testbit changed b =
     changed_bit (st_components (xkb_state_init sample_keymap LEGACY_MIXED_STATE))
       (st_components c') b).
Proof.
  refine (update_mask_mirrors control_client (xkb_state_init sample_keymap LEGACY_MIXED_STATE)
    _ _ _ _ _ _ _ _ _ _); try reflexivity.
  - vm_compute. split; congruence.
  - constructor; vm_compute; first [reflexivity | split; congruence].
  - split; [|split]; reflexivity.
  - vm_compute. split; congruence.
  - vm_compute. split; congruence.
  - vm_compute. split; congruence.
Defined.

(** ** Active modifiers *)

Section active.
Context (s : xkb_state).
Let modifiers := km_mods (st_keymap s).

(** The bit [i] is in the mapping of one of the modifiers. *)
Definition covered (idxs : list Z) (i : Z) : Prop :=
  exists idx m, idx ∈ idxs /\ item modifiers idx = Some m /\ Z.testbit (mod_mapping m) i = true.

Definition mapped (idx : Z) : Prop :=
  exists m, item modifiers idx = Some m /\ mod_mapping m <> 0.

Lemma wanted_indices_spec idxs w0 :
  Forall mapped idxs ->
  exists w, wanted_indices (st_keymap s) idxs w0 = Some w /\
    (w = 0 -> w0 = 0 /\ idxs = []) /\
    forall i, Z.testbit w i = true <-> Z.testbit w0 i = true \/ covered idxs i.
Proof.
  revert w0. induction idxs as [|idx idxs IH]; intros w0 Hv.
  - exists w0. split; [done|]. split; [done|]. intros i. split; [by left|].
    intros [?|(? & ? & Hin & _)]; [done|]. by apply not_elem_of_nil in Hin.
  - apply Forall_cons_1 in Hv as [(m & Hm & Hne) Hv]. cbn [wanted_indices].
    pose proof Hm as Hm'. unfold modifiers in Hm'. rewrite Hm'.
    destruct (IH (Z.lor w0 (mod_mapping m)) Hv) as (w & -> & H0 & Hw). exists w.
    split; [done|]. split.
    { intros [Hz _]%H0. apply Z.lor_eq_0_iff in Hz as [_ Hz]. done. }
    intros i. rewrite Hw, Z.lor_spec, orb_true_iff. unfold covered. split.
    + intros [[?|?]|(idx' & m' & Hin & ? & ?)]; [by left|right..].
      * exists idx, m. split; [left|done].
      * exists idx', m'. split; [by right|done].
    + intros [?|(idx' & m' & [->|Hin]%elem_of_cons & Hm'' & ?)]; [by do 2 left| |].
      * left. right. congruence.
      * right. eauto.
Qed.

Lemma index_is_active_spec idx type :
  mapped idx ->
  xkb_state_mod_index_is_active s idx type = 1 <->
  forall i, 0 <= i -> covered [idx] i -> Z.testbit (xkb_state_serialize_mods s type) i = true.
Proof.
  intros (m & Hm & Hne). pose proof Hm as Hm'. unfold modifiers in Hm'.
  unfold xkb_state_mod_index_is_active. rewrite Hm'.
  rewrite (proj2 (Z.eqb_neq _ _) Hne). set (active := xkb_state_serialize_mods s type).
  transitivity (Z.land active (mod_mapping m) = mod_mapping m).
  { destruct (Z.eqb_spec (Z.land active (mod_mapping m)) (mod_mapping m)); split; intros;
      done || lia. }
  split.
  - intros Heq i Hi (idx' & m' & ->%list_elem_of_singleton & Hm'' & Hb).
    replace m' with m in Hb by congruence. rewrite <- Heq, Z.land_spec in Hb.
    by apply andb_true_iff in Hb as [].
  - intros H. apply Z.bits_inj'. intros i Hi. rewrite Z.land_spec.
    destruct (Z.testbit (mod_mapping m) i) eqn:Hb; [|apply andb_false_r].
    rewrite H; [done|done|]. exists idx, m. split; [by apply list_elem_of_singleton|done].
Qed.
End active.

Lemma land_nonzero a b :
  Z.land a b <> 0 <-> exists i, 0 <= i /\ Z.testbit a i = true /\ Z.testbit b i = true.
Proof.
  split.
  - intros H. destruct (Z_lt_le_dec (Z.land a b) 0) as [Hneg|Hpos].
    + apply Z.bits_iff_neg_ex in Hneg as [k Hk]. exists (Z.max 0 (k + 1)).
      specialize (Hk (Z.max 0 (k + 1)) ltac:(lia)). rewrite Z.land_spec in Hk.
      apply andb_true_iff in Hk. split; [lia|done].
    + exists (Z.log2 (Z.land a b)). pose proof (Z.bit_log2 (Z.land a b) ltac:(lia)) as Hb.
      rewrite Z.land_spec in Hb. apply andb_true_iff in Hb. split; [apply Z.log2_nonneg|done].
  - intros (i & Hi & Ha & Hb) H0. assert (Z.testbit (Z.land a b) i = true) as Ht
      by by rewrite Z.land_spec, Ha, Hb. by rewrite H0, Z.testbit_0_l in Ht.
Qed.

Lemma ldiff_zero a b :
  Z.ldiff a b = 0 <-> forall i, 0 <= i -> Z.testbit a i = true -> Z.testbit b i = true.
Proof.
  split.
  - intros H i Hi Ha. destruct (Z.testbit b i) eqn:Hb; [done|].
    assert (Z.testbit (Z.ldiff a b) i = true) as Ht by by rewrite Z.ldiff_spec, Ha, Hb.
    by rewrite H, Z.testbit_0_l in Ht.
  - intros H. apply Z.bits_inj'. intros i Hi. rewrite Z.ldiff_spec, Z.testbit_0_l.
    destruct (Z.testbit a i) eqn:Ha; [|done]. by rewrite (H i Hi Ha).
Qed.

Lemma match_mod_masks_spec s type match_ w :
  let active := xkb_state_serialize_mods s type in
  match_mod_masks s type match_ w = true <->
  (has_flag match_ XKB_STATE_MATCH_NON_EXCLUSIVE = false -> Z.ldiff active w = 0) /\
  (if has_flag match_ XKB_STATE_MATCH_ANY then Z.land active w <> 0 else Z.land active w = w).
Proof.
  unfold match_mod_masks. cbv zeta.
  destruct (has_flag match_ XKB_STATE_MATCH_NON_EXCLUSIVE), (has_flag match_ XKB_STATE_MATCH_ANY);
    repeat match goal with |- context [?a =? ?b] => destruct (Z.eqb_spec a b) end; naive_solver.
Qed.

Lemma all_active s type idxs w :
  Forall (mapped s) idxs -> (forall i, Z.testbit w i = true <-> covered s idxs i) ->
  Z.land (xkb_state_serialize_mods s type) w = w <->
  Forall (fun idx => xkb_state_mod_index_is_active s idx type = 1) idxs.
Proof.
  intros Hv Hcov. set (active := xkb_state_serialize_mods s type).
  rewrite list.Forall_forall in Hv. rewrite list.Forall_forall. split.
  - intros H idx Hin. apply index_is_active_spec; [auto|].
    intros i Hi (idx' & m & ->%list_elem_of_singleton & Hm & Hb). fold active.
    assert (Z.testbit w i = true) as Ht by (apply Hcov; by exists idx, m).
    rewrite <- H, Z.land_spec in Ht. by apply andb_true_iff in Ht as [].
  - intros H. apply Z.bits_inj'. intros i Hi. rewrite Z.land_spec.
    destruct (Z.testbit w i) eqn:Hb; [|apply andb_false_r]. rewrite andb_true_r.
    apply Hcov in Hb as (idx & m & Hin & Hm & Hb).
    pose proof (proj1 (index_is_active_spec s idx type (Hv idx Hin)) (H idx Hin)) as Ha.
    apply Ha; [done|]. exists idx, m. split; [by apply list_elem_of_singleton|done].
Qed.

(** The test of several modifiers: with [XKB_STATE_MATCH_ANY] some bit of the
    modifiers must be active, else all of them; unless non-exclusive, no other
    bit may be active. *)
Theorem mod_indices_are_active_spec s type match_ idxs :
  Z.ldiff match_ XKB_STATE_MATCH_FLAGS = 0 -> idxs <> [] -> Forall (mapped s) idxs ->
  let active := xkb_state_serialize_mods s type in
  let r := xkb_state_mod_indices_are_active s type match_ idxs in
  (r = 0 \/ r = 1) /\
  (r = 1 <->
   (has_flag match_ XKB_STATE_MATCH_NON_EXCLUSIVE = false ->
    forall i, 0 <= i -> Z.testbit active i = true -> covered s idxs i) /\
   (if has_flag match_ XKB_STATE_MATCH_ANY
    then exists i, 0 <= i /\ Z.testbit active i = true /\ covered s idxs i
    else Forall (fun idx => xkb_state_mod_index_is_active s idx type = 1) idxs)).
Proof.
  intros Hf Hne Hv active r.
  destruct (wanted_indices_spec s idxs 0 Hv) as (w & Hw & H0 & Hbits).
  assert (forall i, Z.testbit w i = true <-> covered s idxs i) as Hcov.
  { intros i. rewrite Hbits, Z.testbit_0_l. naive_solver. }
  assert (r = Z.b2z (match_mod_masks s type match_ w)) as Hr.
  { unfold r, xkb_state_mod_indices_are_active, are_active. rewrite Hf, Hw. cbn [Z.eqb negb].
    destruct (Z.eqb_spec w 0) as [->|]; [|done]. by destruct (H0 eq_refl). }
  rewrite Hr. split; [destruct (match_mod_masks s type match_ w); cbn; lia|].
  transitivity (match_mod_masks s type match_ w = true).
  { destruct (match_mod_masks s type match_ w); cbn; split; (done || lia). }
  rewrite match_mod_masks_spec. fold active. rewrite ldiff_zero.
  setoid_rewrite Hcov.
  destruct (has_flag match_ XKB_STATE_MATCH_ANY).
  - rewrite land_nonzero. by setoid_rewrite Hcov.
  - unfold active. by rewrite (all_active s type idxs w Hv Hcov).
Qed.

Lemma mod_indices_are_active_spec_witness :
  let r := xkb_state_mod_indices_are_active control_client XKB_STATE_MODS_EFFECTIVE
             XKB_STATE_MATCH_ANY [0; 2] in
  (r = 0 \/ r = 1) /\
  (r = 1 <->
   (has_flag XKB_STATE_MATCH_ANY XKB_STATE_MATCH_NON_EXCLUSIVE = false ->
    forall i, 0 <= i -> Z.testbit Control i = true -> covered control_client [0; 2] i) /\
   (exists i, 0 <= i /\ Z.testbit Control i = true /\ covered control_client [0; 2] i)).
Proof.
  refine (mod_indices_are_active_spec control_client XKB_STATE_MODS_EFFECTIVE
    XKB_STATE_MATCH_ANY [0; 2] _ _ _).
  - reflexivity.
  - discriminate.
  - apply Forall_cons_2; [|apply Forall_cons_2; [|apply Forall_nil_2]].
    + exists (real_mod 0). split; [reflexivity | discriminate].
    + exists (real_mod 2). split; [reflexivity | discriminate].
Defined.

(** ** Consumed modifiers *)

Lemma get_entry_find t m : get_entry_for_mods t m = snd <$> find_entry t m.
Proof. unfold get_entry_for_mods, find_entry. by destruct (list_find _ _) as [[]|]. Qed.

(** Entry [j] consumes the modifier bit [b] in the GTK mode: its level differs
    from the level without modifiers. *)
Definition gtk_consumes (matching : option nat) (levels : list xkb_level) (base : xkb_level)
    (j : nat) (e : xkb_key_type_entry) (b : Z) : Prop :=
  entry_is_active e = true /\
  (exists lv, item levels (e_level e) = Some lv /\ XkbLevelsSameSyms lv base = false) /\
  (matching = Some j \/ one_bit_set (m_mask (e_mods e)) = true) /\
  Z.testbit (m_mask (e_mods e)) b = true /\ Z.testbit (m_mask (e_preserve e)) b = false.

Lemma gtk_consumed_cons i e entries matching levels base b :
  0 <= b ->
  Z.testbit (gtk_consumed i (e :: entries) matching levels base) b = true <->
  gtk_consumes matching levels base i e b \/
  Z.testbit (gtk_consumed (S i) entries matching levels base) b = true.
Proof.
  intros Hb. cbn [gtk_consumed]. unfold gtk_consumes.
  destruct (entry_is_active e); cbn [negb].
  2:{ split; [by right|]. by intros [(? & _)|?]. }
  destruct (item levels (e_level e)) as [lv|].
  2:{ split; [by right|]. by intros [(_ & (? & ? & _) & _)|?]. }
  destruct (XkbLevelsSameSyms lv base) eqn:Hs.
  { split; [by right|]. intros [(_ & (? & [= <-] & ?) & _)|?]; [congruence|done]. }
  destruct (bool_decide_reflect (matching = Some i)), (one_bit_set (m_mask (e_mods e)));
    cbn [orb]; rewrite ?Z.lor_spec, ?Z.ldiff_spec, ?orb_true_iff, ?andb_true_iff, ?negb_true_iff;
    naive_solver.
Qed.

Lemma gtk_consumed_testbit i entries matching levels base b :
  0 <= b ->
  Z.testbit (gtk_consumed i entries matching levels base) b = true <->
  exists j e, entries !! j = Some e /\ gtk_consumes matching levels base (i + j) e b.
Proof.
  intros Hb. revert i. induction entries as [|e entries IH]; intros i.
  { cbn. rewrite Z.testbit_0_l. split; [done|]. by intros (j & e & Hj & _). }
  rewrite gtk_consumed_cons, IH by done. split.
  - intros [H|(j & e' & Hj & H)].
    + exists O, e. by rewrite Nat.add_0_r.
    + exists (S j), e'. by rewrite Nat.add_succ_r.
  - intros ([|j] & e' & Hj & H); cbn in Hj.
    + left. rewrite Nat.add_0_r in H. by injection Hj as ->.
    + right. exists j, e'. by rewrite Nat.add_succ_r in H.
Qed.

(** The modifiers outside of the mask of the key type do not matter: neither
    for the level nor for what is consumed.  The consumed modifiers are in
    that mask; removing them keeps the others.  In the GTK mode, a consumed
    modifier belongs to an entry that changes the keysyms. *)
Theorem consumed_mods_spec s s' kc key g :
  keymap_wf (st_keymap s) -> st_keymap s' = st_keymap s ->
  group (st_components s') = group (st_components s) ->
  lookup_key (st_keymap s) kc = Some key ->
  item (k_groups key) (xkb_state_key_get_layout s kc) = Some g ->
  let type := g_type g in
  let consumed := xkb_state_key_get_consumed_mods s kc in
  (Z.land (mods (st_components s')) (m_mask (t_mods type)) =
   Z.land (mods (st_components s)) (m_mask (t_mods type)) ->
   forall mode,
     xkb_state_key_get_level s' kc (xkb_state_key_get_layout s' kc) =
       xkb_state_key_get_level s kc (xkb_state_key_get_layout s kc) /\
     xkb_state_key_get_consumed_mods2 s' kc mode = xkb_state_key_get_consumed_mods2 s kc mode) /\
  Z.ldiff consumed (m_mask (t_mods type)) = 0 /\
  (forall mask, Z.lor (xkb_state_mod_mask_remove_consumed s kc mask)
                  (Z.land (resolve_to_canonical_mods (st_keymap s) mask) consumed) =
                resolve_to_canonical_mods (st_keymap s) mask) /\
  (forall b, 0 <= b ->
     Z.testbit (xkb_state_key_get_consumed_mods2 s kc XKB_CONSUMED_MODE_GTK) b = true ->
     exists e lv base, e ∈ t_entries type /\ Z.testbit (m_mask (e_mods e)) b = true /\
       item (g_levels g) (e_level e) = Some lv /\
       item (g_levels g) (from_option e_level 0 (get_entry_for_mods type 0)) = Some base /\
       XkbLevelsSameSyms lv base = false).
Proof.
  intros Hwf Hkm Hgrp Hkey Hg type consumed.
  destruct (lookup_key_wf _ Hwf kc key Hkey) as [Hkwf Hkc].
  set (layout := xkb_state_key_get_layout s kc) in *.
  assert (xkb_state_key_get_layout s' kc = layout) as Hlay'.
  { unfold layout, xkb_state_key_get_layout, state_key_get_layout. by rewrite Hkm, Hgrp. }
  assert (layout <> XKB_LAYOUT_INVALID) as Hinv.
  { apply item_lt in Hg. pose proof (kwf_num_groups key Hkwf).
    unfold k_num_groups, XKB_MAX_GROUPS, XKB_LAYOUT_INVALID in *. lia. }
  assert (forall x mode, st_keymap x = st_keymap s -> xkb_state_key_get_layout x kc = layout ->
    xkb_state_key_get_consumed_mods2 x kc mode =
      if (mode =? XKB_CONSUMED_MODE_XKB) || (mode =? XKB_CONSUMED_MODE_GTK)
      then key_get_consumed x key mode else 0) as Hc2.
  { intros x mode Hx _. unfold xkb_state_key_get_consumed_mods2. by rewrite Hx, Hkey. }
  split; [|split; [|split]].
  - intros Hm mode. rewrite !Hc2, Hlay' by done. unfold xkb_state_key_get_level, state_key_get_level,
      get_entry_for_key_state, key_get_consumed. rewrite Hkm, Hkey, Hkc, Hlay'.
    fold layout. rewrite !Hg. fold type. by rewrite Hm.
  - unfold consumed, xkb_state_key_get_consumed_mods.
    rewrite (Hc2 s XKB_CONSUMED_MODE_XKB eq_refl eq_refl : _ = key_get_consumed s key 0).
    unfold key_get_consumed. rewrite Hkc. fold layout. rewrite (proj2 (Z.eqb_neq _ _) Hinv), Hg.
    cbn [Z.eqb XKB_CONSUMED_MODE_XKB]. apply ldiff_zero. intros i Hi.
    rewrite Z.ldiff_spec, andb_true_iff. by intros [].
  - intros mask. unfold consumed, xkb_state_key_get_consumed_mods, xkb_state_mod_mask_remove_consumed.
    rewrite (Hc2 s XKB_CONSUMED_MODE_XKB eq_refl eq_refl : _ = key_get_consumed s key 0), Hkey.
    apply Z.lor_ldiff_and.
  - intros b Hb.
    rewrite (Hc2 s XKB_CONSUMED_MODE_GTK eq_refl eq_refl : _ = key_get_consumed s key 1).
    unfold key_get_consumed. rewrite Hkc. fold layout. rewrite (proj2 (Z.eqb_neq _ _) Hinv), Hg.
    fold type. cbn [Z.eqb Pos.eqb XKB_CONSUMED_MODE_GTK XKB_CONSUMED_MODE_XKB].
    rewrite Z.ldiff_spec, andb_true_iff. intros [H _].
    change (match get_entry_for_mods type 0 with Some e => e_level e | None => 0 end)
      with (from_option e_level 0 (get_entry_for_mods type 0)) in H.
    destruct (item (g_levels g) _) as [base|]; [|by rewrite Z.testbit_0_l in H].
    apply gtk_consumed_testbit in H as (j & e & Hj & _ & (lv & Hlv & Hs) & _ & Ht & _); [|done].
    exists e, lv, base. split; [by eapply list_elem_of_lookup_2 | done].
Qed.

Lemma consumed_mods_spec_witness :
  let s := control_client in let s' := xkb_state_init sample_keymap CLIENT_STATE in
  let consumed := xkb_state_key_get_consumed_mods s 1 in
  (Z.land (mods (st_components s')) 3 = Z.land (mods (st_components s)) 3 ->
   forall mode,
     xkb_state_key_get_level s' 1 (xkb_state_key_get_layout s' 1) =
       xkb_state_key_get_level s 1 (xkb_state_key_get_layout s 1) /\
     xkb_state_key_get_consumed_mods2 s' 1 mode = xkb_state_key_get_consumed_mods2 s 1 mode) /\
  Z.ldiff consumed 3 = 0 /\
  (forall mask, Z.lor (xkb_state_mod_mask_remove_consumed s 1 mask)
                  (Z.land (resolve_to_canonical_mods (st_keymap s) mask) consumed) =
                resolve_to_canonical_mods (st_keymap s) mask) /\
  (forall b, 0 <= b ->
     Z.testbit (xkb_state_key_get_consumed_mods2 s 1 XKB_CONSUMED_MODE_GTK) b = true ->
     exists e lv base, e ∈ t_entries two_level /\ Z.testbit (m_mask (e_mods e)) b = true /\
       item [sym_level 0x61 0x41; sym_level 0x41 0x41] (e_level e) = Some lv /\
       item [sym_level 0x61 0x41; sym_level 0x41 0x41]
         (from_option e_level 0 (get_entry_for_mods two_level 0)) = Some base /\
       XkbLevelsSameSyms lv base = false).
Proof.
  refine (consumed_mods_spec control_client (xkb_state_init sample_keymap CLIENT_STATE) 1
    (letter_key 1 0x61 0x41)
    (mk_group two_level [sym_level 0x61 0x41; sym_level 0x41 0x41]) _ _ _ _ _).
  - exact sample_keymap_wf.
  - reflexivity.
  - vm_compute. reflexivity.
  - vm_compute. reflexivity.
  - vm_compute. reflexivity.
Defined.
