(* ===== verification/Machine.v ===== *)
(** * The state machine API (src/state.c)

    [struct xkb_machine] extends the server state with keyboard overlays, the
    remapping of modifiers and the shortcuts tweak; [xkb_machine_process_key]
    and [xkb_machine_process_synthetic] collect their effects in a batch of
    events.  [struct xkb_machine_builder] configures a machine. *)

From Stdlib Require Import ZArith Lia.
From stdpp Require Import base tactics list numbers.
From S2P Require Import Prelude Keymap State Filters Apply Server.

(** ** Data *)

(** The keys are indices in the keymap; [None] is the [NULL] of a free entry. *)
Record xkb_overlaid_key := mk_overlaid {
  ok_old : option nat;
  ok_new : nat;
  ok_refcnt : Z
}.

Record machine_mods_mapping := mk_mapping { mm_source : Z; mm_target : Z }.

Record machine_modifiers_config := mk_modifiers_config {
  mc_mask : Z;
  mc_mappings : list machine_mods_mapping
}.

Record machine_shortcuts_config := mk_shortcuts_config {
  sc_mask : Z;
  sc_targets : option (list Z)    (** [None] for [NULL] *)
}.

Record xkb_machine := mk_machine {
  sm_base : xkb_server_state;
  sm_enabled : Z;                  (** [overlays.enabled] *)
  sm_order : Z;                    (** [overlays.order] *)
  sm_keys : list xkb_overlaid_key; (** [overlays.keys] *)
  sm_modifiers : machine_modifiers_config;
  sm_shortcuts : machine_shortcuts_config
}.

Definition sm_set_base v m := mk_machine v (sm_enabled m) (sm_order m) (sm_keys m)
  (sm_modifiers m) (sm_shortcuts m).
Definition sm_set_overlays enabled order m := mk_machine (sm_base m) enabled order (sm_keys m)
  (sm_modifiers m) (sm_shortcuts m).
Definition sm_set_keys v m := mk_machine (sm_base m) (sm_enabled m) (sm_order m) v
  (sm_modifiers m) (sm_shortcuts m).

Record xkb_machine_builder := mk_builder {
  b_keymap : xkb_keymap;
  b_a11y_affect : Z;
  b_a11y_flags : Z;
  b_mods : list machine_mods_mapping;
  b_shortcuts_mask : Z;
  b_shortcuts_targets : list Z
}.

(** ** Builder *)

(** [XKB_MACHINE_BUILDER_FLAGS_VALUES] is 0: no flag is known. *)
Definition xkb_machine_builder_new (km : xkb_keymap) (flags : Z) : option xkb_machine_builder :=
  if negb (flags =? 0) then None else Some (mk_builder km 0 0 [] 0 []).

Definition XKB_A11Y_FLAGS_VALUES : Z :=
  foldr Z.lor 0 [XKB_A11Y_STICKY_KEYS_NO_SIMULTANEOUS_KEYS; XKB_A11Y_STICKY_KEYS_LATCH_TO_LOCK;
                 XKB_A11Y_LATCH_SIMULTANEOUS_KEYS].

Definition xkb_machine_builder_update_a11y_flags (bl : xkb_machine_builder) (affect flags : Z)
    : xkb_error_code * xkb_machine_builder :=
  if negb (Z.ldiff affect XKB_A11Y_FLAGS_VALUES =? 0) then (XKB_ERROR_UNSUPPORTED_A11Y_FLAGS, bl)
  else if negb (Z.ldiff flags XKB_A11Y_FLAGS_VALUES =? 0)
  then (XKB_ERROR_UNSUPPORTED_A11Y_FLAGS, bl)
  else (XKB_SUCCESS,
        mk_builder (b_keymap bl) (Z.lor (b_a11y_affect bl) affect)
          (Z.lor (Z.ldiff (b_a11y_flags bl) affect) (Z.land flags affect))
          (b_mods bl) (b_shortcuts_mask bl) (b_shortcuts_targets bl)).

Definition b_set_mods (v : list machine_mods_mapping) (bl : xkb_machine_builder) :=
  mk_builder (b_keymap bl) (b_a11y_affect bl) (b_a11y_flags bl) v
    (b_shortcuts_mask bl) (b_shortcuts_targets bl).

(** The search of the mapping and its update, its removal, or the addition of
    a new one. *)
Fixpoint remap_mods (mods : list machine_mods_mapping) (source target : Z)
    : list machine_mods_mapping :=
  match mods with
  | [] => if target =? 0 then [] else [mk_mapping source target]
  | m :: mods =>
      if mm_source m =? source
      then if target =? 0 then mods else mk_mapping source target :: mods
      else m :: remap_mods mods source target
  end.

Definition xkb_machine_builder_remap_mods (bl : xkb_machine_builder) (source target : Z)
    : xkb_error_code * xkb_machine_builder :=
  let canonical := km_canonical_state_mask (b_keymap bl) in
  if source =? 0 then
    if target =? 0 then (XKB_SUCCESS, b_set_mods [] bl)
    else (XKB_ERROR_UNSUPPORTED_MODIFIER_MASK, bl)
  else if negb (Z.ldiff source canonical =? 0) then (XKB_ERROR_UNSUPPORTED_MODIFIER_MASK, bl)
  else if negb (Z.ldiff target canonical =? 0) then (XKB_ERROR_UNSUPPORTED_MODIFIER_MASK, bl)
  else (XKB_SUCCESS, b_set_mods (remap_mods (b_mods bl) source target) bl).

Definition xkb_machine_builder_update_shortcut_mods (bl : xkb_machine_builder) (affect mask : Z)
    : xkb_error_code * xkb_machine_builder :=
  let canonical := km_canonical_state_mask (b_keymap bl) in
  if negb (Z.ldiff affect canonical =? 0) then (XKB_ERROR_UNSUPPORTED_MODIFIER_MASK, bl)
  else if negb (Z.ldiff mask canonical =? 0) then (XKB_ERROR_UNSUPPORTED_MODIFIER_MASK, bl)
  else (XKB_SUCCESS,
        mk_builder (b_keymap bl) (b_a11y_affect bl) (b_a11y_flags bl) (b_mods bl)
          (Z.lor (Z.ldiff (b_shortcuts_mask bl) affect) (Z.land mask affect))
          (b_shortcuts_targets bl)).

Definition b_set_targets (v : list Z) (bl : xkb_machine_builder) :=
  mk_builder (b_keymap bl) (b_a11y_affect bl) (b_a11y_flags bl) (b_mods bl)
    (b_shortcuts_mask bl) v.

Definition xkb_machine_builder_remap_shortcut_layout (bl : xkb_machine_builder)
    (source target : Z) : xkb_error_code * xkb_machine_builder :=
  let num_groups := km_num_groups (b_keymap bl) in
  let targets := b_shortcuts_targets bl in
  if source >=? num_groups then (XKB_ERROR_UNSUPPORTED_LAYOUT_INDEX, bl)
  else if target >=? num_groups then (XKB_ERROR_UNSUPPORTED_LAYOUT_INDEX, bl)
  else if (source >=? Z.of_nat (length targets)) && (target =? source) then (XKB_SUCCESS, bl)
  else
    let resized := targets ++
      repeat XKB_LAYOUT_INVALID (Z.to_nat source + 1 - length targets) in
    (XKB_SUCCESS,
     b_set_targets (<[Z.to_nat source := if source =? target then XKB_LAYOUT_INVALID else target]>
                      resized) bl).

(** ** Configuration of a new machine *)

Definition popcount32 (x : Z) : Z :=
  foldr (fun i n => Z.b2z (Z.testbit x (Z.of_nat i)) + n) 0 (seq 0 32).

Definition cmp_mod_masks (m1 m2 : Z) : Z :=
  if m1 =? m2 then 0
  else if m1 =? 0 then 1
  else if m2 =? 0 then -1
  else
    let overlap := Z.land m1 m2 in
    if overlap =? m1 then 1
    else if overlap =? m2 then -1
    else
      let count1 := popcount32 m1 in
      let count2 := popcount32 m2 in
      if count1 >? count2 then -1
      else if count1 <? count2 then 1
      else if m1 <? m2 then -1 else 1.

(** [qsort] with [cmp_mod_masks] on the sources. *)
Fixpoint sorted_insert (m : machine_mods_mapping) (l : list machine_mods_mapping) :=
  match l with
  | [] => [m]
  | m' :: l => if cmp_mod_masks (mm_source m) (mm_source m') <=? 0 then m :: m' :: l
               else m' :: sorted_insert m l
  end.
Definition sort_mappings (l : list machine_mods_mapping) : list machine_mods_mapping :=
  foldr sorted_insert [] l.

Definition valid_mapping (km : xkb_keymap) (m : machine_mods_mapping) : bool :=
  negb (mm_source m =? 0) && negb (mm_target m =? 0) &&
  (Z.ldiff (mm_source m) (km_canonical_state_mask km) =? 0) &&
  (Z.ldiff (mm_target m) (km_canonical_state_mask km) =? 0).

Definition machine_set_mods (km : xkb_keymap) (raw : list machine_mods_mapping)
    : machine_modifiers_config :=
  let mappings := filter (fun m => valid_mapping km m = true) raw in
  mk_modifiers_config (foldr (fun m acc => Z.lor (mm_source m) acc) 0 mappings)
    (sort_mappings mappings).

(** The layout entries dropped at the end; [count] is the number kept. *)
Fixpoint drop_default_targets (targets : list Z) (num_groups : Z) (count : nat) : nat :=
  match count with
  | S (S n as c) =>
      if from_option (fun t => t <? num_groups) false (targets !! c) then S c
      else drop_default_targets targets num_groups c
  | c => c
  end.

Definition machine_set_shortcuts (km : xkb_keymap) (raw_mask : Z) (raw : list Z)
    : machine_shortcuts_config :=
  let none := mk_shortcuts_config 0 None in
  match raw with
  | [] => none
  | _ =>
      let num_groups := km_num_groups km in
      let count := drop_default_targets raw num_groups
                     (Nat.min (Z.to_nat num_groups) (length raw)) in
      let mask := Z.land raw_mask (km_canonical_state_mask km) in
      if Nat.eqb count 0 then none
      else if mask =? 0 then none
      else
        let target l := if l <? num_groups then l else XKB_LAYOUT_INVALID in
        mk_shortcuts_config mask
          (Some (map target (take count raw) ++
                 repeat XKB_LAYOUT_INVALID (Z.to_nat num_groups - count)))
  end.

(** No allocation fails. *)
Definition xkb_machine_new (bl : xkb_machine_builder) : xkb_machine :=
  let km := b_keymap bl in
  mk_machine (xkb_server_state_init km SERVER_STATE (b_a11y_affect bl) (b_a11y_flags bl))
    0 0 [] (machine_set_mods km (b_mods bl))
    (machine_set_shortcuts km (b_shortcuts_mask bl) (b_shortcuts_targets bl)).

(** ** Overlays *)

Definition XKB_OVERLAY_MAX_X11 : Z := 2.
Definition XKB_OVERLAY_MAX : Z := 8.
Definition OVERLAYS_FROM_CONTROLS (mask : Z) : Z := Z.land (Z.shiftr mask 1) (2 ^ 8 - 1).
Definition format_max_overlays (format : Z) : Z :=
  if format =? XKB_KEYMAP_FORMAT_TEXT_V1 then XKB_OVERLAY_MAX_X11 else XKB_OVERLAY_MAX.

(** The removal of the overlays no longer enabled.  Each turn passes a nibble
    of [order] or removes one: the fuel is twice the number of nibbles. *)
Fixpoint remove_overlays (fuel : nat) (n overlay_max mask order added : Z) : Z * Z :=
  match fuel with
  | O => (order, added)
  | S fuel =>
      if n <? overlay_max then
        let overlay_idx := Z.land (Z.shiftr order (n * 4)) 0xf in
        if overlay_idx =? 0 then (order, added)
        else
          let overlay_mask := u8 (Z.shiftl 1 (overlay_idx - 1)) in
          if has_flag overlay_mask mask
          then remove_overlays fuel (n + 1) overlay_max mask order (Z.ldiff added overlay_mask)
          else
            let head := Z.shiftl 1 (n * 4) - 1 in
            remove_overlays fuel n overlay_max mask
              (Z.lor (Z.land order head) (Z.ldiff (Z.shiftr order 4) head)) added
      else (order, added)
  end.

(** The addition of the new ones; [added] has 8 bits. *)
Fixpoint add_overlays (fuel : nat) (k added order : Z) : Z :=
  match fuel with
  | O => order
  | S fuel =>
      if added =? 0 then order
      else add_overlays fuel (k + 1) (Z.shiftr added 1)
             (if has_flag added 1 then Z.lor (u32 (Z.shiftl order 4)) (k + 1) else order)
  end.

Definition machine_update_overlays (sm : xkb_machine) : xkb_machine :=
  let st := ss_base (sm_base sm) in
  let mask := OVERLAYS_FROM_CONTROLS (controls (st_components st)) in
  let added := Z.ldiff mask (sm_enabled sm) in
  let '(order, added) := remove_overlays 16 0 (format_max_overlays (km_format (st_keymap st)))
                           mask (sm_order sm) added in
  sm_set_overlays mask (add_overlays 8 0 added order) sm.

(** ** Computations of a machine with a batch of events *)

Record mctx := mk_mctx { mx_sm : xkb_machine; mx_events : xkb_events }.

Definition upd_sm (f : xkb_machine -> xkb_machine) : M mctx unit :=
  modify (fun x => mk_mctx (f (mx_sm x)) (mx_events x)).

(** A function of the server state, given [&sm->base] and [events]. *)
Definition on_server {A} (m : M sctx A) : M mctx A := fun x =>
  match m (mk_sctx (sm_base (mx_sm x)) (Some (mx_events x))) with
  | Ok (a, y) =>
      match sc_events y with
      | Some evs => Ok (a, mk_mctx (sm_set_base (sc_state y) (mx_sm x)) evs)
      | None => Fault FaultNullEvents
      end
  | Fault f => Fault f
  end.

(** ** Overlaid keys *)

(** [new] of the loop over the activated overlays, latest first; the nibbles
    of a 32-bit [stack] bound the loop. *)
Fixpoint select_overlay (fuel : nat) (key : xkb_key) (stack : Z) (i : nat) : result nat :=
  match fuel with
  | O => Ok i
  | S fuel =>
      if stack =? 0 then Ok i
      else
        let nibble := Z.land stack 0xf in
        if nibble =? 0 then Fault FaultShift
        else
          let mask := u8 (Z.shiftl 1 (nibble - 1)) in
          if has_flag (k_overlays key) mask then
            let index := if k_overlays_inline key then O
                         else Z.to_nat (popcount32 (Z.land (k_overlays key) (u8 (mask - 1)))) in
            match k_overlays_keys key !! index with
            | Some j => Ok j
            | None => Fault FaultOutOfBounds
            end
          else select_overlay fuel key (Z.shiftr stack 4) i
  end.

Definition overlay_target (sm : xkb_machine) (i : nat) (key : xkb_key) : result nat :=
  if has_flag (k_overlays key) (sm_enabled sm) then select_overlay 8 key (sm_order sm) i
  else Ok i.

Definition count_direction (direction : xkb_key_direction) (refcnt : Z) : Z :=
  match direction with
  | KEY_DOWN => i32 (refcnt + 1)
  | KEY_REPEATED => refcnt
  | KEY_UP => i32 (refcnt - 1)
  end.

Definition process_overlayable_key (i : nat) (key : xkb_key) (direction : xkb_key_direction)
    : M mctx nat :=
  let* sm := gets mx_sm in
  match list_find (fun e => ok_old e = Some i) (sm_keys sm) with
  | Some (k, e) =>
      let refcnt := count_direction direction (ok_refcnt e) in
      upd_sm (sm_set_keys
        (<[k := mk_overlaid (if refcnt <=? 0 then None else Some i) (ok_new e) refcnt]>
           (sm_keys sm))) ;;;
      ret (ok_new e)
  | None =>
      if bool_decide (direction = KEY_DOWN) then
        match overlay_target sm i key with
        | Fault f => fail f
        | Ok new =>
            let entry := mk_overlaid (Some i) new 1 in
            upd_sm (sm_set_keys
              (match list_find (fun e => ok_old e = None) (sm_keys sm) with
               | Some (k, _) => <[k := entry]> (sm_keys sm)
               | None => sm_keys sm ++ [entry]
               end)) ;;;
            ret new
        end
      else ret i
  end.

(** ** Tweaks of the state seen by a key *)

(** The mappings that apply: [affect] and [mods]. *)
Fixpoint active_mappings (mappings : list machine_mods_mapping) (mods type_mask affect target : Z)
    : Z * Z :=
  match mappings with
  | [] => (affect, target)
  | m :: mappings =>
      if (Z.land (mm_source m) mods =? mm_source m) && negb (has_flag (mm_source m) affect) &&
         negb (has_flag (mm_source m) type_mask)
      then active_mappings mappings mods type_mask (Z.lor affect (mm_source m))
             (Z.lor target (mm_target m))
      else active_mappings mappings mods type_mask affect target
  end.

Definition remapped_components (affect target : Z) (c : state_components) : state_components :=
  set_locked_mods (Z.ldiff (locked_mods c) affect)
    (set_latched_mods (Z.ldiff (latched_mods c) affect)
      (set_base_mods (Z.lor (Z.ldiff (base_mods c) affect) target) c)).

(** The result is the index of the event in the queue, if any. *)
Definition do_remap_modifiers (cfg : machine_modifiers_config) (key : xkb_key)
    : M sctx (option nat) :=
  let* s := gets sc_state in
  let st := ss_base s in
  let c := st_components st in
  if negb (has_flag (mc_mask cfg) (mods c)) then ret None
  else
    let layout := state_key_get_layout st key in
    match item (k_groups key) layout with
    | None => ret None
    | Some g =>
        let (affect, target) :=
          active_mappings (mc_mappings cfg) (mods c) (m_mask (t_mods (g_type g))) 0 0 in
        if affect =? 0 then ret None
        else
          let new := update_derived st (remapped_components affect target c) in
          let changed := get_state_component_changes c new in
          let* queue := get_queue in
          (when negb (changed =? 0) do append_event (EvComponents new changed)) ;;;
          upd_comps (set_mods (mods new)) ;;;
          ret (if changed =? 0 then None else Some (length queue))
    end.

Definition set_event (i : nat) (e : xkb_event) : M sctx unit := fun x =>
  match sc_events x with
  | None => Fault FaultNullEvents
  | Some evs => Ok (tt, mk_sctx (sc_state x)
                          (Some (mk_events (ev_next evs) (<[i := e]> (ev_queue evs)))))
  end.

(** [config->targets[state->components.group]], if the tweak applies. *)
Definition shortcut_target (cfg : machine_shortcuts_config) (c : state_components)
    : result (option Z) :=
  match sc_targets cfg with
  | None => Ok None
  | Some targets =>
      if negb (has_flag (mods c) (sc_mask cfg)) then Ok None
      else match item targets (group c) with
           | None => Fault FaultOutOfBounds
           | Some t => Ok (if t =? XKB_LAYOUT_INVALID then None else Some t)
           end
  end.

Definition do_shortcuts_tweak (cfg : machine_shortcuts_config) (previous : state_components)
    (remap_event : option nat) : M sctx (option nat) :=
  let* s := gets sc_state in
  let st := ss_base s in
  let c := st_components st in
  match shortcut_target cfg c with
  | Fault f => fail f
  | Ok None => ret remap_event
  | Ok (Some target) =>
      let* queue := get_queue in
      let* ie :=
        (match remap_event with
         | None => append_event (EvComponents zero_components 0) ;;; ret (length queue, c)
         | Some i => match queue !! i with
                     | Some (EvComponents c' _) => ret (i, c')
                     | _ => fail FaultOutOfBounds
                     end
         end) in
      let base := i32 (i32 (i32 target - latched_group c) - locked_group c) in
      let new := update_derived st (set_base_group base (snd ie)) in
      set_event (fst ie) (EvComponents new (get_state_component_changes previous new)) ;;;
      upd_comps (set_group (group new)) ;;;
      ret (Some (fst ie))
  end.

(** The components of the last change in the queue: the reverse loop. *)
Fixpoint last_components (queue : list xkb_event) : option state_components :=
  match queue with
  | [] => None
  | e :: queue =>
      match last_components queue, e with
      | Some c, _ => Some c
      | None, EvComponents c _ => Some c
      | None, EvKey _ _ => None
      end
  end.

(** A queue without change of components makes the reverse loop end before
    the array. *)
Definition undo_tweaks (previous : state_components) : M sctx unit :=
  let* queue := get_queue in
  match queue with
  | [] => ret tt
  | _ =>
      match last_components queue with
      | None => fail FaultOutOfBounds
      | Some c =>
          let changed := get_state_component_changes previous c in
          when negb (changed =? 0) do append_event (EvComponents previous changed)
      end
  end.

(** ** Processing of events *)

Definition is_key_event (e : xkb_event) : bool :=
  match e with EvKey _ _ => true | EvComponents _ _ => false end.

(** The end of both functions: a change of the components is an event. *)
Definition report_changes (previous : state_components) : M mctx unit :=
  let* sm := gets mx_sm in
  let c := ss_components (sm_base sm) in
  let changed := get_state_component_changes previous c in
  when negb (changed =? 0) do
    ((when has_flag changed XKB_STATE_CONTROLS do upd_sm machine_update_overlays) ;;;
     on_server (append_event (EvComponents c changed))).

(** From the tweaks to their end, for the key to process, at index [i]. *)
Definition process_tweaked_key (sm : xkb_machine) (previous : state_components) (i : nat)
    (key : xkb_key) (direction : xkb_key_direction) : M sctx unit :=
  let* remap := do_remap_modifiers (sm_modifiers sm) key in
  let* remap := do_shortcuts_tweak (sm_shortcuts sm) previous remap in
  process_key_actions (mk_key_ptr (KeymapKey i) key) direction ;;;
  let* queue := get_queue in
  (when negb (existsb is_key_event queue)
   do append_event (EvKey direction (k_keycode key))) ;;;
  match remap with
  | Some _ => undo_tweaks previous
  | None => ret tt
  end.

Definition process_machine_key (previous : state_components) (i : nat) (key : xkb_key)
    (direction : xkb_key_direction) : M mctx unit :=
  let* sm := gets mx_sm in
  on_server (process_tweaked_key sm previous i key direction) ;;;
  report_changes previous.

Definition process_key (kc : Z) (direction : xkb_key_direction) : M mctx xkb_error_code :=
  modify (fun x => mk_mctx (mx_sm x) (mk_events 0 [])) ;;;
  let* sm := gets mx_sm in
  let km := st_keymap (ss_base (sm_base sm)) in
  match XkbKey km kc with
  | None => ret XKB_SUCCESS
  | Some i =>
      match key_at km i with
      | None => fail FaultOutOfBounds
      | Some key =>
          if bool_decide (direction = KEY_REPEATED) && negb (k_repeats key) then ret XKB_SUCCESS
          else
            let previous := ss_components (sm_base sm) in
            (when breaks_sticky_keys (sm_base sm) direction
             do on_server (state_update_enabled_controls CONTROL_STICKY_KEYS 0)) ;;;
            let* i := (if k_overlays key =? 0 then ret i
                       else process_overlayable_key i key direction) in
            match key_at km i with
            | None => fail FaultOutOfBounds
            | Some key => process_machine_key previous i key direction ;;; ret XKB_SUCCESS
            end
      end
  end.

Definition run_machine {A} (m : M mctx A) (sm : xkb_machine) (evs : xkb_events)
    : result (A * (xkb_machine * xkb_events)) :=
  match m (mk_mctx sm evs) with
  | Ok (a, x) => Ok (a, (mx_sm x, mx_events x))
  | Fault f => Fault f
  end.

Definition xkb_machine_process_key (sm : xkb_machine) (kc : Z) (direction : xkb_key_direction)
    (evs : xkb_events) : result (xkb_error_code * (xkb_machine * xkb_events)) :=
  run_machine (process_key kc direction) sm evs.

Definition process_synthetic (u : state_update) : M mctx xkb_error_code :=
  let* sm := gets mx_sm in
  let previous := ss_components (sm_base sm) in
  let* e := on_server (apply_state_update u) in
  match e with
  | XKB_SUCCESS => report_changes previous ;;; ret XKB_SUCCESS
  | e => ret e
  end.

Definition xkb_machine_process_synthetic (sm : xkb_machine) (u : state_update)
    (evs : xkb_events) : result (xkb_error_code * (xkb_machine * xkb_events)) :=
  run_machine (process_synthetic u) sm evs.

(** ** Reading the events *)

Definition xkb_events_new_batch (flags : Z) : option xkb_events :=
  if negb (flags =? 0) then None else Some (mk_events 0 []).

Definition xkb_events_next (evs : xkb_events) : option xkb_event * xkb_events :=
  if Nat.ltb (ev_next evs) (length (ev_queue evs))
  then (ev_queue evs !! ev_next evs, mk_events (S (ev_next evs)) (ev_queue evs))
  else (None, evs).

Definition xkb_event_get_keycode (e : xkb_event) : Z :=
  match e with EvKey _ kc => kc | EvComponents _ _ => XKB_KEYCODE_INVALID end.
Definition xkb_event_get_changed_components (e : xkb_event) : Z :=
  match e with EvComponents _ changed => changed | EvKey _ _ => 0 end.
Definition xkb_event_serialize_enabled_controls (e : xkb_event) (components : Z) : Z :=
  match e with EvComponents c _ => serialize_controls c components | EvKey _ _ => 0 end.
Definition xkb_event_serialize_mods (e : xkb_event) (components : Z) : Z :=
  match e with EvComponents c _ => serialize_mods c components | EvKey _ _ => 0 end.
Definition xkb_event_serialize_layout (e : xkb_event) (components : Z) : Z :=
  match e with
  | EvComponents c _ => serialize_layout c components
  | EvKey _ _ => XKB_LAYOUT_INVALID
  end.
