(* ===== verification/Overlays.v ===== *)
(** * Keyboard overlays

    The nibbles of [overlays.order] are the list of the enabled overlays, the
    latest first; [machine_update_overlays] maintains it.  A key stays
    overlaid, or not, from its press to its release. *)

From Stdlib Require Import ZArith Lia.
From stdpp Require Import base tactics list numbers.
From S2P Require Import Prelude Keymap State Filters Apply Server Machine.

(** ** Lists of nibbles *)

Definition nibbles (l : list Z) : Z := foldr (fun x acc => x + 16 * acc) 0 l.

Definition is_overlay (x : Z) : Prop := 1 <= x <= 8.

Lemma nibbles_bound l : Forall is_overlay l -> 0 <= nibbles l < 2 ^ (4 * Z.of_nat (length l)).
Proof.
  induction 1 as [|x l Hx _ IH]; [done|]. cbn [nibbles foldr length]. fold (nibbles l).
  replace (4 * Z.of_nat (S (length l))) with (4 + 4 * Z.of_nat (length l)) by lia.
  rewrite Z.pow_add_r by lia. unfold is_overlay in Hx. lia.
Qed.

Lemma nibbles_app pre post :
  nibbles (pre ++ post) = nibbles pre + 2 ^ (4 * Z.of_nat (length pre)) * nibbles post.
Proof.
  induction pre as [|x pre IH]; cbn [app length].
  - cbn [nibbles foldr]. rewrite Z.mul_1_l. done.
  - cbn [nibbles foldr]. fold (nibbles (pre ++ post)) (nibbles pre). rewrite IH.
    replace (4 * Z.of_nat (S (length pre))) with (4 + 4 * Z.of_nat (length pre)) by lia.
    rewrite Z.pow_add_r by lia. lia.
Qed.

Lemma nibbles_shiftr pre post :
  Forall is_overlay pre ->
  Z.shiftr (nibbles (pre ++ post)) (Z.of_nat (length pre) * 4) = nibbles post.
Proof.
  intros Hpre. pose proof (nibbles_bound pre Hpre). rewrite nibbles_app, Z.shiftr_div_pow2 by lia.
  replace (Z.of_nat (length pre) * 4) with (4 * Z.of_nat (length pre)) by lia.
  rewrite Z.add_comm, Z.mul_comm, Z.div_add_l by lia. rewrite Z.div_small by done. lia.
Qed.

Lemma nibble_head x post : is_overlay x -> Z.land (nibbles (x :: post)) 0xf = x.
Proof.
  intros Hx. change 0xf with (Z.ones 4). rewrite Z.land_ones by lia.
  cbn [nibbles foldr]. fold (nibbles post). rewrite Z.mul_comm, Z.add_comm, Z.add_comm.
  change (2 ^ 4) with 16. rewrite Z.mod_add by lia. apply Z.mod_small.
  unfold is_overlay in Hx. lia.
Qed.

(** Removing the nibble after [pre]. *)
Lemma nibbles_remove pre x post :
  Forall is_overlay pre -> is_overlay x ->
  let head := Z.shiftl 1 (Z.of_nat (length pre) * 4) - 1 in
  Z.lor (Z.land (nibbles (pre ++ x :: post)) head)
        (Z.ldiff (Z.shiftr (nibbles (pre ++ x :: post)) 4) head) = nibbles (pre ++ post).
Proof.
  intros Hpre Hx head. set (n := Z.of_nat (length pre) * 4).
  assert (head = Z.ones n) as -> by (unfold head; rewrite Z.ones_equiv, Z.shiftl_1_l; fold n; lia).
  pose proof (nibbles_bound pre Hpre) as Hb. rewrite Z.mul_comm in Hb. fold n in Hb.
  rewrite Z.land_ones, Z.ldiff_ones_r by lia. rewrite Z.shiftr_shiftr by lia.
  replace (4 + n) with (Z.of_nat (length (pre ++ [x])) * 4) by (rewrite length_app; cbn; lia).
  rewrite (app_assoc pre [x] post : pre ++ x :: post = _).
  rewrite nibbles_shiftr by (apply Forall_app_2; [done | by apply Forall_cons_2]).
  rewrite <- app_assoc, !nibbles_app. replace (4 * Z.of_nat (length pre)) with n by lia.
  rewrite (Z.mul_comm (2 ^ n)), Z.mod_add, Z.mod_small, Z.shiftl_mul_pow2 by lia.
  rewrite <- Z.add_nocarry_lor; [lia|].
  rewrite <- Z.shiftl_mul_pow2 by lia. apply Z.bits_inj'. intros i Hi.
  rewrite Z.land_spec, Z.testbit_0_l. destruct (Z_lt_le_dec i n).
  - by rewrite (Z.shiftl_spec_low _ n i), andb_false_r.
  - rewrite <- (Z.mod_small (nibbles pre) (2 ^ n)) by done.
    by rewrite Z.mod_pow2_bits_high by lia.
Qed.

Lemma overlay_mask_bit x : is_overlay x -> u8 (Z.shiftl 1 (x - 1)) = bit (x - 1).
Proof.
  intros Hx. unfold u8, bit. apply Z.mod_small. rewrite Z.shiftl_1_l.
  unfold is_overlay in Hx. split; [apply Z.pow_nonneg; lia|].
  apply Z.pow_lt_mono_r; lia.
Qed.

Lemma has_flag_bit_l m i : 0 <= i -> has_flag (bit i) m = Z.testbit m i.
Proof. intros. rewrite <- has_flag_bit by done. unfold has_flag. by rewrite Z.land_comm. Qed.

Lemma ldiff_bit_same a i : 0 <= i -> Z.testbit a i = false -> Z.ldiff a (bit i) = a.
Proof.
  intros Hi Ha. apply Z.bits_inj'. intros j Hj. rewrite Z.ldiff_spec, bit_spec by done.
  destruct (Z.eqb_spec i j) as [<-|]; [by rewrite Ha | by rewrite andb_true_r].
Qed.

(** The overlay [x] is in the mask. *)
Abbreviation in_mask mask := (fun x => Z.testbit mask (x - 1) = true).

Lemma remove_overlays_eq mask added pre post fuel :
  Forall is_overlay pre -> Forall is_overlay post ->
  (length pre + length post <= 8)%nat -> (8 - length pre + length post <= fuel)%nat ->
  Forall (fun x => Z.testbit added (x - 1) = false) post ->
  remove_overlays fuel (Z.of_nat (length pre)) XKB_OVERLAY_MAX mask (nibbles (pre ++ post)) added =
    (nibbles (pre ++ filter (in_mask mask) post), added).
Proof.
  revert pre post. induction fuel as [|fuel IH]; intros pre post Hpre Hpost Hlen Hfuel Hadd.
  { destruct post; cbn in Hlen, Hfuel; [done|lia]. }
  cbn [remove_overlays]. destruct post as [|x post].
  { destruct (_ <? _); [|done]. rewrite nibbles_shiftr by done. done. }
  apply Forall_cons_1 in Hpost as [Hx Hpost]. apply Forall_cons_1 in Hadd as [Hax Hadd].
  cbn [length] in *. unfold XKB_OVERLAY_MAX in *.
  rewrite (proj2 (Z.ltb_lt (Z.of_nat (length pre)) 8)) by lia.
  rewrite nibbles_shiftr, nibble_head by done. cbv zeta.
  rewrite (proj2 (Z.eqb_neq x 0)) by (unfold is_overlay in Hx; lia).
  rewrite overlay_mask_bit, has_flag_bit_l by (done || unfold is_overlay in Hx; lia).
  rewrite filter_cons. destruct (Z.testbit mask (x - 1)) eqn:Hm.
  - rewrite decide_True by done. rewrite ldiff_bit_same by (done || unfold is_overlay in Hx; lia).
    replace (Z.of_nat (length pre) + 1) with (Z.of_nat (length (pre ++ [x])))
      by (rewrite length_app; cbn; lia).
    rewrite (app_assoc pre [x] post : pre ++ x :: post = _).
    rewrite (app_assoc pre [x] (filter _ post) : pre ++ x :: filter _ post = _).
    apply IH; try done; [apply Forall_app_2; [done | by apply Forall_cons_2]|..];
      rewrite length_app; cbn; lia.
  - rewrite decide_False by done.
    pose proof (nibbles_remove pre x post Hpre Hx) as Hr. cbv zeta in Hr. rewrite Hr.
    apply IH; try done; lia.
Qed.

Lemma u32_push l x :
  Forall is_overlay l -> (length l < 8)%nat -> is_overlay x ->
  Z.lor (u32 (Z.shiftl (nibbles l) 4)) x = nibbles (x :: l).
Proof.
  intros Hl Hlen Hx. pose proof (nibbles_bound l Hl) as Hb.
  assert (nibbles l < 2 ^ 28) as Hlt.
  { eapply Z.lt_le_trans; [apply Hb|]. apply Z.pow_le_mono_r; lia. }
  unfold u32. rewrite Z.shiftl_mul_pow2 by lia. rewrite Z.mod_small by lia.
  rewrite <- Z.add_nocarry_lor; [cbn [nibbles foldr]; fold (nibbles l); lia|].
  rewrite <- Z.shiftl_mul_pow2 by lia. apply Z.bits_inj'. intros i Hi.
  rewrite Z.land_spec, Z.testbit_0_l. destruct (Z_lt_le_dec i 4).
  - by rewrite Z.shiftl_spec_low.
  - rewrite <- (Z.mod_small x (2 ^ 4)) by (unfold is_overlay in Hx; lia).
    by rewrite Z.mod_pow2_bits_high, andb_false_r by lia.
Qed.

Lemma filter_none {A} (P : A -> Prop) `{!forall x, Decision (P x)} l :
  (forall x, x ∈ l -> ~ P x) -> filter P l = [].
Proof.
  induction l as [|x l IH]; intros Hno; [done|]. rewrite filter_cons.
  rewrite decide_False by (apply Hno; left). apply IH. intros y Hy. apply Hno. by right.
Qed.

Lemma add_overlays_eq fuel k a l :
  0 <= k -> k + Z.of_nat fuel = 8 -> Forall is_overlay l ->
  (length l + length (filter (in_mask a) (seqZ (k + 1) (Z.of_nat fuel))) <= 8)%nat ->
  add_overlays fuel k (Z.shiftr a k) (nibbles l) =
    nibbles (rev (filter (in_mask a) (seqZ (k + 1) (Z.of_nat fuel))) ++ l).
Proof.
  revert k l. induction fuel as [|fuel IH]; intros k l Hk Hsum Hl Hlen; [done|].
  cbn [add_overlays]. destruct (Z.eqb_spec (Z.shiftr a k) 0) as [Hz|Hnz].
  { rewrite filter_none; [done|]. intros x Hx%elem_of_seqZ.
    replace (x - 1) with ((x - 1 - k) + k) by lia. rewrite <- Z.shiftr_spec by lia.
    by rewrite Hz, Z.testbit_0_l. }
  rewrite seqZ_cons in Hlen |- * by lia. rewrite filter_cons in Hlen |- *.
  replace (Z.pred (Z.of_nat (S fuel))) with (Z.of_nat fuel) in * by lia.
  replace (Z.succ (k + 1)) with ((k + 1) + 1) in * by lia.
  rewrite Z.shiftr_shiftr by lia. 
  rewrite (has_flag_bit (Z.shiftr a k) 0 ltac:(lia) : has_flag (Z.shiftr a k) 1 = _).
  rewrite Z.shiftr_spec, Z.add_0_l by lia. replace (k + 1 - 1) with k in * by lia.
  destruct (Z.testbit a k) eqn:Hb.
  - rewrite decide_True in Hlen |- * by done. cbn [length rev] in *.
    rewrite u32_push by (done || unfold is_overlay; lia). rewrite <- app_assoc.
    apply (IH (k + 1) ((k + 1) :: l)); [lia|lia| |cbn; lia].
    apply Forall_cons_2; [unfold is_overlay; lia | done].
  - rewrite decide_False in Hlen |- * by done. apply IH; (done || lia).
Qed.

(** ** The order of activation *)

(** The list [l] is the activation order of the machine. *)
Record overlays_ok (sm : xkb_machine) (l : list Z) : Prop := {
  ov_order : sm_order sm = nibbles l;
  ov_nodup : NoDup l;
  ov_range : Forall is_overlay l;
  ov_enabled : forall x, is_overlay x -> x ∈ l <-> Z.testbit (sm_enabled sm) (x - 1) = true
}.

Lemma elem_of_rev {A} (x : A) l : x ∈ rev l <-> x ∈ l.
Proof. by rewrite !list_elem_of_In, <- in_rev. Qed.

Lemma overlays_length l : NoDup l -> Forall is_overlay l -> (length l <= 8)%nat.
Proof.
  intros Hn Hr. change 8%nat with (length (seqZ 1 8)).
  apply submseteq_length, NoDup_submseteq; [done|]. intros x Hx. apply elem_of_seqZ.
  rewrite list.Forall_forall in Hr. specialize (Hr x Hx). unfold is_overlay in Hr. lia.
Qed.


Definition sample_machine : xkb_machine :=
  xkb_machine_new (mk_builder sample_keymap_v2 0 0 [] 0 []).

(** The overlays 1 and 3 have just been enabled. *)
Definition sample_overlays : xkb_machine :=
  sm_set_base (ss_set_components (set_controls 0xa (ss_components (sm_base sample_machine)))
                 (sm_base sample_machine)) sample_machine.


(** With the first keymap format only two nibbles are looked at, while all the
    overlays can be enabled: disabled overlays stay in the order, enabled again
    they are there twice, and the overlay 1, still enabled, is pushed out. *)
Theorem update_overlays_v1_stale :
  let v1 c := sm_set_base (ss_set_components (set_controls c zero_components)
                (xkb_server_state_init sample_keymap SERVER_STATE 0 0)) in
  let run ctrls := foldl (fun sm c => machine_update_overlays (v1 c sm)) sample_machine ctrls in
  let order ctrls := sm_order (run ctrls) in
  let pushed := [0x02; 0x3a; 0x32; 0x3a; 0x2a; 0x3a; 0x1a; 0x3a; 0x32; 0x3a; 0x2a; 0x3a] in
  order [0x02; 0x3a] = nibbles [5; 4; 3; 1] /\
  order [0x02; 0x3a; 0x32] = nibbles [5; 4; 3; 1] /\
  order [0x02; 0x3a; 0x32; 0x3a] = nibbles [3; 5; 4; 3; 1] /\
  order pushed = nibbles [4; 3; 5; 4; 3; 5; 4; 3] /\ Z.testbit (sm_enabled (run pushed)) 0 = true.
Proof. by vm_compute. Qed.

(** ** Overlaid keys *)

(** The target of a key in one of its overlays. *)
Definition overlay_key_at (key : xkb_key) (x : Z) : option nat :=
  k_overlays_keys key !!
    (if k_overlays_inline key then O
     else Z.to_nat (popcount32 (Z.land (k_overlays key) (bit (x - 1) - 1)))).

Lemma select_overlay_eq fuel key l i :
  Forall is_overlay l -> (length l <= fuel)%nat ->
  select_overlay fuel key (nibbles l) i =
    match list_find (in_mask (k_overlays key)) l with
    | Some (_, x) => match overlay_key_at key x with
                     | Some j => Ok j
                     | None => Fault FaultOutOfBounds
                     end
    | None => Ok i
    end.
Proof.
  intros Hl. revert fuel. induction l as [|x l IH]; intros fuel Hlen; [by destruct fuel|].
  apply Forall_cons_1 in Hl as [Hx Hl]. destruct fuel as [|fuel]; [cbn in Hlen; lia|].
  cbn [select_overlay]. rewrite nibble_head by done. pose proof Hx as [Hx1 Hx8].
  assert (nibbles (x :: l) <> 0) as Hnz.
  { pose proof (nibbles_bound l Hl). cbn [nibbles foldr]. fold (nibbles l). lia. }
  rewrite (proj2 (Z.eqb_neq _ _) Hnz), (proj2 (Z.eqb_neq x 0)) by lia.
  rewrite overlay_mask_bit, has_flag_bit by (done || lia). cbv zeta. cbn [list_find].
  destruct (Z.testbit (k_overlays key) (x - 1)) eqn:Hb.
  - rewrite decide_True by done. unfold overlay_key_at.
    assert (u8 (bit (x - 1) - 1) = bit (x - 1) - 1) as ->; [|done].
    rewrite <- overlay_mask_bit by done. unfold u8.
    pose proof (Z.mod_pos_bound (Z.shiftl 1 (x - 1)) (2 ^ 8) ltac:(lia)).
    apply Z.mod_small. split; [|lia].
    pose proof (overlay_mask_bit x Hx) as Hm. unfold u8 in Hm. rewrite Hm. unfold bit.
    rewrite Z.shiftl_1_l. pose proof (Z.pow_pos_nonneg 2 (x - 1)). lia.
  - rewrite decide_False by done.
    replace (Z.shiftr (nibbles (x :: l)) 4) with (nibbles l).
    2:{ symmetry. exact (nibbles_shiftr [x] l ltac:(by apply Forall_cons_2)). }
    rewrite IH by (done || cbn in Hlen; lia).
    by destruct (list_find _ l) as [[]|].
Qed.

(** A pressed key goes to its target in the latest activated of its overlays,
    if one is enabled. *)
Theorem overlay_target_spec sm l i key :
  overlays_ok sm l ->
  overlay_target sm i key =
    match list_find (in_mask (k_overlays key)) l with
    | Some (_, x) => match overlay_key_at key x with
                     | Some j => Ok j
                     | None => Fault FaultOutOfBounds
                     end
    | None => Ok i
    end.
Proof.
  intros [Ho Hnd Hr Hen]. unfold overlay_target. pose proof (overlays_length l Hnd Hr).
  rewrite Ho, select_overlay_eq by done.
  destruct (has_flag (k_overlays key) (sm_enabled sm)) eqn:Hf; [done|].
  destruct (list_find (in_mask (k_overlays key)) l) as [[k x]|] eqn:Hk; [|done].
  apply list_find_Some in Hk as (Hk & Hx & _). apply list_elem_of_lookup_2 in Hk.
  rewrite list.Forall_forall in Hr. pose proof (Hr x Hk) as Hxr.
  apply Hen in Hk; [|done]. apply has_flag_false in Hf.
  assert (Z.testbit (Z.land (k_overlays key) (sm_enabled sm)) (x - 1) = true) as Ht
    by by rewrite Z.land_spec, Hx, Hk.
  by rewrite Hf, Z.testbit_0_l in Ht.
Qed.

(** The key of the sample keymap with an overlay. *)
Definition overlay_key : xkb_key :=
  mk_key 14 114 true 1 true [1%nat] LAYOUT_WRAP 0 [mk_group one_level [sym_level 0x78 0x58]].

Lemma overlay_target_spec_witness :
  overlay_target (machine_update_overlays sample_overlays) 14 overlay_key = Ok 1%nat.
Proof.
  refine (overlay_target_spec (machine_update_overlays sample_overlays) [3; 1] 14 overlay_key _).
  split; [reflexivity | | |].
  - apply (bool_decide_unpack _). vm_compute. reflexivity.
  - repeat (apply Forall_cons_2; [split; lia|]). apply Forall_nil_2.
  - intros x [Hx1 Hx8].
    assert (x = 1 \/ x = 2 \/ x = 3 \/ x = 4 \/ x = 5 \/ x = 6 \/ x = 7 \/ x = 8) as Hx by lia.
    destruct Hx as [->|[->|[->|[->|[->|[->|[->| ->]]]]]]];
      (split; [intros H; first [reflexivity | exfalso; revert H; apply (bool_decide_unpack _); vm_compute; reflexivity]
              | intros H; first [apply (bool_decide_unpack _); vm_compute; reflexivity | discriminate H]]).
Defined.

Lemma find_old_insert i keys k e :
  list_find (fun e => ok_old e = Some i) keys = None -> (k < length keys)%nat ->
  ok_old e = Some i ->
  list_find (fun e => ok_old e = Some i) (<[k := e]> keys) = Some (k, e).
Proof.
  intros Hno Hk He. apply list_find_Some. split; [by apply list_lookup_insert_eq|].
  split; [done|]. intros j y Hj Hjk. rewrite list_lookup_insert_ne in Hj by lia.
  apply list_find_None in Hno. by eapply Forall_lookup_1 in Hno.
Qed.

Lemma find_old_snoc i keys e :
  list_find (fun e => ok_old e = Some i) keys = None -> ok_old e = Some i ->
  list_find (fun e => ok_old e = Some i) (keys ++ [e]) = Some (length keys, e).
Proof.
  intros Hno He. apply list_find_Some. split; [by rewrite list_lookup_middle|].
  split; [done|]. intros j y Hj Hjk. rewrite lookup_app_l in Hj by lia.
  apply list_find_None in Hno. by eapply Forall_lookup_1 in Hno.
Qed.

Lemma find_old_free i keys k e :
  list_find (fun e => ok_old e = Some i) keys = Some (k, e) ->
  (forall j e', keys !! j = Some e' -> ok_old e' = Some i -> j = k) ->
  forall e', ok_old e' = None ->
  list_find (fun e => ok_old e = Some i) (<[k := e']> keys) = None.
Proof.
  intros _ Huniq e' He'. apply list_find_None, list.Forall_lookup. intros j y Hj Hy.
  destruct (decide (j = k)) as [->|Hne].
  - assert (k < length keys)%nat as Hlt.
    { apply lookup_lt_Some in Hj. by rewrite length_insert in Hj. }
    rewrite list_lookup_insert_eq in Hj by done. injection Hj as <-. congruence.
  - rewrite list_lookup_insert_ne in Hj by done. by apply Hne, (Huniq j y).
Qed.

Lemma press_fresh sm evs i key new x1 :
  list_find (fun e => ok_old e = Some i) (sm_keys sm) = None ->
  process_overlayable_key i key KEY_DOWN (mk_mctx sm evs) = Ok (new, x1) ->
  overlay_target sm i key = Ok new /\
  exists k,
    list_find (fun e => ok_old e = Some i) (sm_keys (mx_sm x1)) =
      Some (k, mk_overlaid (Some i) new 1) /\
    forall j e', sm_keys (mx_sm x1) !! j = Some e' -> ok_old e' = Some i -> j = k.
Proof.
  intros Hno. unfold process_overlayable_key, bind, gets. cbn [mx_sm]. rewrite Hno.
  rewrite bool_decide_true by done. destruct (overlay_target sm i key) as [t|f]; [|done].
  cbn. intros [= <- <-]. split; [done|]. cbn.
  pose proof Hno as Hall. apply list_find_None in Hall.
  destruct (list_find (fun e => ok_old e = None) (sm_keys sm)) as [[k e0]|] eqn:Hfree.
  - apply list_find_Some in Hfree as (Hk%lookup_lt_Some & _). exists k.
    split; [by apply find_old_insert|]. intros j e' Hj He'.
    destruct (decide (j = k)) as [|Hne]; [done|]. rewrite list_lookup_insert_ne in Hj by done.
    by eapply Forall_lookup_1 in Hall.
  - exists (length (sm_keys sm)). split; [by apply find_old_snoc|]. intros j e' Hj He'.
    destruct (decide (j < length (sm_keys sm))%nat) as [Hlt|Hge].
    + rewrite lookup_app_l in Hj by done. by eapply Forall_lookup_1 in Hall.
    + apply lookup_lt_Some in Hj. rewrite length_app in Hj. cbn in Hj. lia.
Qed.



(** ** The order is always a list of overlays

    Also for keymaps of the first format, where overlays may be forgotten. *)

Definition order_ok (sm : xkb_machine) : Prop :=
  exists l, sm_order sm = nibbles l /\ Forall is_overlay l /\ (length l <= 8)%nat.

Lemma split_at_length {A} (l : list A) n :
  (n <= length l)%nat -> exists pre post, l = pre ++ post /\ length pre = n.
Proof.
  exists (take n l), (drop n l). by rewrite take_drop, length_take, Nat.min_l.
Qed.

Lemma remove_overlays_order fuel n overlay_max mask added l :
  Forall is_overlay l -> (n <= length l)%nat ->
  exists l' added',
    remove_overlays fuel (Z.of_nat n) overlay_max mask (nibbles l) added = (nibbles l', added') /\
    Forall is_overlay l' /\ (length l' <= length l)%nat.
Proof.
  revert n added l. induction fuel as [|fuel IH]; intros n added l Hl Hn; [by exists l, added|].
  cbn [remove_overlays]. destruct (_ <? _); [|by exists l, added].
  destruct (split_at_length l n Hn) as (pre & post & -> & <-).
  apply list.Forall_app in Hl as [Hpre Hpost]. rewrite nibbles_shiftr by done.
  destruct post as [|x post].
  { exists (pre ++ []), added. split; [done|]. split; [by apply Forall_app_2 | done]. }
  apply Forall_cons_1 in Hpost as [Hx Hpost]. rewrite nibble_head by done. cbv zeta.
  rewrite (proj2 (Z.eqb_neq x 0)) by (unfold is_overlay in Hx; lia).
  destruct (has_flag _ mask).
  - replace (Z.of_nat (length pre) + 1) with (Z.of_nat (S (length pre))) by lia.
    apply IH; [by apply Forall_app_2; [|apply Forall_cons_2]|].
    rewrite length_app. cbn. lia.
  - pose proof (nibbles_remove pre x post Hpre Hx) as Hr. cbv zeta in Hr. rewrite Hr.
    destruct (IH (length pre) added (pre ++ post)) as (l' & added' & -> & Hl' & Hlen').
    + by apply Forall_app_2.
    + rewrite length_app. lia.
    + exists l', added'. split; [done|]. split; [done|].
      rewrite length_app in Hlen' |- *. cbn. lia.
Qed.

Lemma u32_push_any l x :
  Forall is_overlay l -> (length l <= 8)%nat -> is_overlay x ->
  Z.lor (u32 (Z.shiftl (nibbles l) 4)) x = nibbles (x :: take 7 l).
Proof.
  intros Hl Hlen Hx. destruct (decide (length l < 8)%nat) as [Hlt|Hge].
  - rewrite u32_push by done. by rewrite (take_ge l) by lia.
  - rewrite <- (u32_push (take 7 l)); [|by apply Forall_take|rewrite length_take; lia|done].
    f_equal. rewrite <- (take_drop 7 l) at 1. rewrite nibbles_app, length_take, Nat.min_l by lia.
    unfold u32. rewrite !Z.shiftl_mul_pow2, Z.mul_add_distr_r by lia.
    change (4 * Z.of_nat 7) with 28.
    replace (2 ^ 28 * nibbles (drop 7 l) * 2 ^ 4) with (nibbles (drop 7 l) * 2 ^ 32) by lia.
    by rewrite Z.mod_add by lia.
Qed.

Lemma add_overlays_order fuel k added l :
  0 <= k -> k + Z.of_nat fuel <= 8 -> Forall is_overlay l -> (length l <= 8)%nat ->
  exists l', add_overlays fuel k added (nibbles l) = nibbles l' /\ Forall is_overlay l' /\
    (length l' <= 8)%nat.
Proof.
  revert k added l. induction fuel as [|fuel IH]; intros k added l Hk Hf Hl Hlen; [by exists l|].
  cbn [add_overlays]. destruct (added =? 0); [by exists l|]. destruct (has_flag added 1).
  - rewrite u32_push_any by (done || unfold is_overlay; lia). apply IH; [lia|lia| |].
    + apply Forall_cons_2; [unfold is_overlay; lia | by apply Forall_take].
    + cbn. rewrite length_take. lia.
  - apply IH; (done || lia).
Qed.

Lemma update_overlays_order sm : order_ok sm -> order_ok (machine_update_overlays sm).
Proof.
  intros (l & Ho & Hl & Hlen). unfold machine_update_overlays. cbv zeta. rewrite Ho.
  destruct (remove_overlays_order 16 0 (format_max_overlays (km_format (st_keymap (ss_base (sm_base sm)))))
    (OVERLAYS_FROM_CONTROLS (controls (st_components (ss_base (sm_base sm)))))
    (Z.ldiff (OVERLAYS_FROM_CONTROLS (controls (st_components (ss_base (sm_base sm)))))
       (sm_enabled sm)) l Hl ltac:(lia)) as (l1 & added & He & Hl1 & Hlen1).
  change (Z.of_nat 0) with 0 in He. rewrite He.
  destruct (add_overlays_order 8 0 added l1) as (l2 & He2 & Hl2 & Hlen2); [lia|lia|done|lia|].
  exists l2. by rewrite <- He2.
Qed.
