(* ===== verification/Events.v ===== *)
(** * What the handlers do to the batch of events

    Only the handler of RedirectKey() adds events.  Two relations between the
    context before and after a computation are kept by the handlers: the queue
    only grows; and without RedirectKey() filter it stays as it is. *)

From Stdlib Require Import ZArith Lia.
From stdpp Require Import base tactics list numbers.
From S2P Require Import Prelude Keymap State Filters Apply Server.

Abbreviation any_fault := (fun _ : fault => True).

Lemma wp_any {S A} (m : M S A) s : wp m s any_fault (fun _ _ => True).
Proof. unfold wp. by destruct (m s) as [[]|]. Qed.

(** ** The handlers but the one of redirections *)

Definition not_redirect (fn : option filter_func) : Prop := fn <> Some redirect_key_func.

Section handlers.
Context (R : sctx -> sctx -> Prop) `{!PreOrder R}.
Hypothesis Rstate : forall g, (forall s, ss_filters (g s) = ss_filters s) -> keeps R (upd_state g).
Hypothesis Rfilter : forall i g,
  (forall f, not_redirect (f_func f) -> not_redirect (f_func (g f))) -> keeps R (upd_filter i g).
Hypothesis Rnew : keeps R xkb_filter_new.

Lemma R_get_filter i : keeps R (get_filter i).
Proof using PreOrder0. intros x. unfold wp, get_filter. by destruct (ss_filters (sc_state x) !! i). Qed.

Lemma R_upd_comps g : keeps R (upd_comps g).
Proof using Rstate. by apply Rstate. Qed.

Ltac keep_step :=
  lazymatch goal with
  | |- keeps _ (bind _ _) => apply keeps_bind; [apply _ | | intros ?]
  | |- keeps _ (ret _) => apply keeps_ret; apply _
  | |- keeps _ (fail _) => apply keeps_fail
  | |- keeps _ (gets _) => apply keeps_gets; apply _
  | |- keeps _ get_comps => apply keeps_gets; apply _
  | |- keeps _ (get_filter _) => apply R_get_filter
  | |- keeps _ (upd_comps _) => apply R_upd_comps
  | |- keeps _ (upd_set_mods _) => by apply Rstate
  | |- keeps _ (upd_clear_mods _) => by apply Rstate
  | |- keeps _ (upd_state _) => by apply Rstate
  | |- keeps _ (upd_filter _ _) => by apply Rfilter
  | |- keeps _ (if ?c then _ else _) => destruct c
  | |- keeps _ ?m =>
      first
        [ assumption
        | progress cbv zeta
        | progress (unfold clear_locked_mods, clear_latched_mods, sub_latched_group,
                      add_latched_group, sub_base_group, filter_key_count,
                      xkb_filter_group_lock_new, xkb_filter_mod_lock_new, xkb_filter_mod_set_new)
        | match m with context [match ?o with _ => _ end] => destruct o end ]
  end.
Ltac keep_auto := repeat keep_step.

Lemma group_latch_pending_keeps i key f sticky acts :
  keeps R (group_latch_pending i key f sticky acts).
Proof using All.
  induction acts as [|act acts IH]; cbn [group_latch_pending]; keep_auto; exact IH.
Qed.

Lemma mod_latch_pending_keeps i key f sticky acts :
  keeps R (mod_latch_pending i key f sticky acts).
Proof using All.
  induction acts as [|act acts IH]; cbn [mod_latch_pending]; keep_auto; exact IH.
Qed.

Lemma run_filter_func_keeps clear_all fn i key d :
  keeps R clear_all -> fn <> redirect_key_func -> keeps R (run_filter_func clear_all fn i key d).
Proof using All.
  intros Hclear Hfn. destruct fn; cbn [run_filter_func]; [..|done].
  - unfold xkb_filter_group_set_func. keep_auto.
  - unfold xkb_filter_group_lock_func. keep_auto.
  - unfold xkb_filter_group_latch_func. keep_auto; apply group_latch_pending_keeps.
  - unfold xkb_filter_mod_set_func. keep_auto.
  - unfold xkb_filter_mod_lock_func. keep_auto.
  - unfold xkb_filter_mod_latch_func. keep_auto; apply mod_latch_pending_keeps.
  - unfold xkb_filter_ctrls_func, guard_realloc. keep_auto.
Qed.

Lemma run_filter_new_keeps fn i :
  fn <> redirect_key_func -> keeps R (run_filter_new fn i).
Proof using All.
  intros Hfn. destruct fn; cbn [run_filter_new]; [..|done].
  - unfold xkb_filter_group_set_new. keep_auto.
  - keep_auto.
  - unfold xkb_filter_group_latch_new. keep_auto.
  - keep_auto.
  - keep_auto.
  - unfold xkb_filter_mod_latch_new. keep_auto.
  - unfold xkb_filter_ctrls_new. keep_auto.
Qed.

Lemma tap_latch_keeps act fn :
  fn <> redirect_key_func -> keeps R (tap_latch act fn).
Proof using All.
  intros Hfn. unfold tap_latch.
  apply keeps_bind; [apply _ | exact Rnew | intros i].
  apply keeps_bind; [apply _ | by apply Rfilter | intros _].
  apply keeps_bind; [apply _ | apply Rfilter; intros f _ [= ->]; done | intros _].
  apply keeps_bind; [apply _ | by apply Rfilter | intros _].
  apply keeps_bind; [apply _ | by apply run_filter_new_keeps | intros _].
  apply keeps_bind; [apply _ | | intros _; keep_auto].
  apply run_filter_func_keeps; [apply keeps_ret; apply _ | done].
Qed.

(** The updates of the latches and locks, when the application of the
    synthetic keys keeps the relation. *)
Lemma update_latched_locked_keeps apply u :
  (forall a flags mask, keeps R (apply (mk_key_ptr a (break_latch_key flags mask)) KEY_DOWN)) ->
  keeps R (state_update_latched_locked apply u).
Proof using All.
  intros Happly. unfold state_update_latched_locked, update_latch_modifiers, update_latch_group.
  apply keeps_bind; [apply _ | keep_auto | intros s]. cbv zeta.
  apply keeps_bind; [apply _ | keep_auto | intros _].
  apply keeps_bind; [apply _ | keep_auto | intros _].
  apply keeps_bind; [apply _ | | intros _].
  - destruct (negb _); [|keep_auto]. apply keeps_bind; [apply _ | keep_auto | intros _].
    apply keeps_bind; [apply _ | apply Happly | intros _]. by apply tap_latch_keeps.
  - destruct (has_flag _ _); [|keep_auto].
    apply keeps_bind; [apply _ | apply Happly | intros _]. by apply tap_latch_keeps.
Qed.
End handlers.

(** ** The queue only grows *)

Definition grows (x x' : sctx) : Prop :=
  match sc_events x with
  | Some e => exists e' q, sc_events x' = Some e' /\ ev_queue e' = ev_queue e ++ q /\
                           ev_next e' = ev_next e
  | None => True
  end.

#[export] Instance grows_preorder : PreOrder grows.
Proof.
  split.
  - intros x. unfold grows. destruct (sc_events x) as [e|]; [|done].
    exists e, []. by rewrite app_nil_r.
  - intros x y z. unfold grows. destruct (sc_events x) as [e|]; [|done].
    intros (e' & q & -> & Hq & Hn) (e'' & q' & Hz & Hq' & Hn'). exists e'', (q ++ q').
    rewrite Hq', Hq, app_assoc, Hn', Hn. done.
Qed.

Lemma grows_state g : keeps grows (upd_state g).
Proof.
  intros x. apply wp_modify. unfold grows. cbn. destruct (sc_events x) as [e|]; [|done].
  exists e, []. by rewrite app_nil_r.
Qed.

Lemma grows_upd_filter i g : keeps grows (upd_filter i g).
Proof. apply grows_state. Qed.

Lemma grows_append_event e : keeps grows (append_event e).
Proof.
  intros x. unfold wp, append_event, grows. destruct (sc_events x) as [evs|] eqn:H; [|done].
  cbn. by exists (mk_events (ev_next evs) (ev_queue evs ++ [e])), [e].
Qed.

Lemma grows_get_queue : keeps grows get_queue.
Proof.
  intros x. unfold wp, get_queue. destruct (sc_events x) as [evs|] eqn:H; [|done]. reflexivity.
Qed.

Lemma grows_filter_new : keeps grows xkb_filter_new.
Proof.
  unfold xkb_filter_new. apply keeps_bind; [apply _ | apply keeps_gets; apply _ | intros s].
  apply keeps_bind; [apply _ | | intros i; apply keeps_bind;
    [apply _ | apply grows_state | intros _; apply keeps_ret; apply _]].
  destruct (list_find _ _) as [[i f]|]; [apply keeps_ret; apply _|]. cbv zeta.
  apply keeps_bind; [apply _ | apply grows_state | intros _].
  apply keeps_bind; [apply _ | | intros _; apply keeps_ret; apply _].
  destruct (Nat.ltb _ _); [apply grows_state | apply keeps_ret; apply _].
Qed.

Lemma append_redirect_grows r d : keeps grows (append_redirect_key_events r d).
Proof.
  unfold append_redirect_key_events. apply keeps_bind; [apply _ | apply grows_get_queue | intros q].
  apply keeps_bind; [apply _ | apply keeps_gets; apply _ | intros c]. cbv zeta.
  apply keeps_bind; [apply _ | | intros _].
  { destruct (negb (_ =? 0)); [apply grows_append_event | apply keeps_ret; apply _]. }
  apply keeps_bind; [apply _ | apply grows_append_event | intros _].
  destruct (negb (_ =? 0)); [apply grows_append_event | apply keeps_ret; apply _].
Qed.

Ltac grows_step :=
  lazymatch goal with
  | |- keeps _ (bind _ _) => apply keeps_bind; [apply _ | | intros ?]
  | |- keeps _ (ret _) => apply keeps_ret; apply _
  | |- keeps _ (gets _) => apply keeps_gets; apply _
  | |- keeps _ (get_filter _) => apply R_get_filter; apply _
  | |- keeps _ (upd_filter _ _) => apply grows_state
  | |- keeps _ (append_redirect_key_events _ _) => apply append_redirect_grows
  | |- keeps _ (if ?c then _ else _) => destruct c
  | |- keeps _ (match ?o with _ => _ end) => destruct o
  | |- keeps _ _ => progress cbv zeta
  end.

Lemma run_filter_func_grows clear_all fn i key d :
  keeps grows clear_all -> keeps grows (run_filter_func clear_all fn i key d).
Proof.
  intros Hclear. destruct (decide (fn = redirect_key_func)) as [->|Hne].
  - cbn [run_filter_func]. unfold xkb_filter_redirect_key_func. repeat grows_step.
  - apply run_filter_func_keeps; auto using grows_state, grows_upd_filter, grows_filter_new with typeclass_instances.
Qed.

Lemma run_filter_new_grows fn i : keeps grows (run_filter_new fn i).
Proof.
  destruct (decide (fn = redirect_key_func)) as [->|Hne].
  - cbn [run_filter_new]. unfold xkb_filter_redirect_key_new. repeat grows_step.
  - apply run_filter_new_keeps; auto using grows_state, grows_upd_filter, grows_filter_new with typeclass_instances.
Qed.

Lemma filters_loop_grows clear_all fuel alloc i consumed key d :
  keeps grows clear_all -> keeps grows (filters_loop fuel clear_all alloc i consumed key d).
Proof.
  intros Hclear. revert i consumed. induction fuel as [|fuel IH]; intros i consumed;
    cbn [filters_loop]; (apply keeps_bind; [apply _ | apply keeps_gets; apply _ | intros s]);
    destruct (negb _); try apply keeps_fail; destruct (_ !! i) as [f|];
    try (apply keeps_ret; apply _); try apply keeps_fail.
  destruct (f_func f) as [fn|]; [|apply IH].
  apply keeps_bind; [apply _ | by apply run_filter_func_grows | intros r; apply IH].
Qed.

Lemma apply_actions_grows key acts : keeps grows (apply_actions key acts).
Proof.
  induction acts as [|act acts IH]; cbn [apply_actions]; [apply keeps_ret; apply _|].
  apply keeps_bind; [apply _ | | intros _; exact IH]. unfold apply_action.
  destruct (action_func act); [|apply keeps_ret; apply _].
  apply keeps_bind; [apply _ | apply grows_filter_new | intros i].
  apply keeps_bind; [apply _ | apply keeps_gets; apply _ | intros s]. cbv zeta.
  apply keeps_bind; [apply _ | apply grows_state | intros _].
  destruct (action_func _); [apply run_filter_new_grows | apply keeps_ret; apply _].
Qed.

Lemma apply_all_with_grows clear_all key d :
  keeps grows clear_all -> keeps grows (apply_all_with clear_all key d).
Proof.
  intros Hclear. unfold apply_all_with.
  apply keeps_bind; [apply _ | apply keeps_gets; apply _ | intros s].
  apply keeps_bind; [apply _ | by apply filters_loop_grows | intros consumed].
  destruct (_ || _); [apply keeps_ret; apply _|].
  apply keeps_bind; [apply _ | apply keeps_gets; apply _ | intros s']. apply apply_actions_grows.
Qed.

Lemma apply_all_grows depth key d : keeps grows (apply_all depth key d).
Proof.
  revert key d. induction depth as [|depth IH]; intros key d; cbn [apply_all];
    apply apply_all_with_grows; [apply keeps_fail|].
  apply update_latched_locked_keeps; auto using grows_state, grows_upd_filter, grows_filter_new with typeclass_instances.
Qed.

(** ** Without redirection the events stay as they are *)

Definition no_redirect (x : sctx) : Prop :=
  Forall (fun f => not_redirect (f_func f)) (ss_filters (sc_state x)).

Definition silent (x x' : sctx) : Prop :=
  no_redirect x -> no_redirect x' /\ sc_events x' = sc_events x.

#[export] Instance silent_preorder : PreOrder silent.
Proof.
  split; [by intros x|]. intros x y z Hxy Hyz Hx. destruct (Hxy Hx) as [Hy He].
  destruct (Hyz Hy) as [Hz He']. split; [done|congruence].
Qed.

Lemma silent_state g : (forall s, ss_filters (g s) = ss_filters s) -> keeps silent (upd_state g).
Proof. intros Hg x. apply wp_modify. intros Hx. split; [|done]. unfold no_redirect. cbn. by rewrite Hg. Qed.

Lemma silent_filter i g :
  (forall f, not_redirect (f_func f) -> not_redirect (f_func (g f))) -> keeps silent (upd_filter i g).
Proof.
  intros Hg x. apply wp_modify. intros Hx. split; [|done]. unfold no_redirect in *. cbn.
  apply Forall_alter; [done|]. intros f _. apply Hg.
Qed.

Lemma silent_filter_new : keeps silent xkb_filter_new.
Proof.
  unfold xkb_filter_new. apply keeps_bind; [apply _ | apply keeps_gets; apply _ | intros s].
  apply keeps_bind; [apply _ | | intros i; apply keeps_bind;
    [apply _ | by apply silent_filter | intros _; apply keeps_ret; apply _]].
  destruct (list_find _ _) as [[i f]|]; [apply keeps_ret; apply _|]. cbv zeta.
  apply keeps_bind; [apply _ | | intros _].
  { intros x. apply wp_modify. intros Hx. split; [|done]. apply Forall_app_2; [done|].
    by apply Forall_cons_2. }
  apply keeps_bind; [apply _ | | intros _; apply keeps_ret; apply _].
  destruct (Nat.ltb _ _); [by apply silent_state | apply keeps_ret; apply _].
Qed.

Lemma filters_loop_silent clear_all fuel alloc i consumed key d :
  keeps silent clear_all -> keeps silent (filters_loop fuel clear_all alloc i consumed key d).
Proof.
  intros Hclear. revert i consumed. induction fuel as [|fuel IH]; intros i consumed x;
    cbn [filters_loop]; apply wp_bind, wp_gets; destruct (negb _); try done;
    destruct (ss_filters (sc_state x) !! i) as [f|] eqn:Hf; try done.
  destruct (f_func f) as [fn|] eqn:Hfn; [|apply IH].
  destruct (decide (fn = redirect_key_func)) as [->|Hne].
  - apply wp_mono with any_fault (fun _ _ => True); [apply wp_any | done |].
    intros _ x' _ Hx. exfalso. apply (Forall_lookup_1 _ _ _ _ Hx Hf). exact Hfn.
  - revert x Hf. intros x _.
    assert (keeps silent (let* r := run_filter_func clear_all fn i key d in
      filters_loop fuel clear_all alloc (S i)
        (match r with FILTER_CONSUME => true | FILTER_CONTINUE => consumed end) key d)) as Hk;
      [|apply (Hk x)].
    apply keeps_bind; [apply _ | | intros r; apply IH].
    apply run_filter_func_keeps;
      auto using silent_state, silent_filter, silent_filter_new with typeclass_instances.
Qed.

(** A key none of whose actions redirects. *)
Definition key_plain (key : xkb_key) : Prop :=
  Forall (fun g => Forall (fun lv => Forall (fun a => not_redirect (action_func a)) (lv_actions lv))
                     (g_levels g)) (k_groups key).

Lemma key_plain_actions st key :
  key_plain key -> Forall (fun a => not_redirect (action_func a)) (xkb_key_get_actions st key).
Proof.
  intros Hk. assert (Forall (fun a => not_redirect (action_func a)) [act_none]) as Hnone
    by by apply Forall_cons_2.
  unfold xkb_key_get_actions, xkb_keymap_key_get_actions_by_level. cbv zeta.
  destruct (_ =? XKB_LEVEL_INVALID); [done|]. destruct (_ =? XKB_LAYOUT_INVALID); [done|].
  destruct (_ >=? _); [done|]. destruct (item (k_groups key) _) as [g|] eqn:Hg; [|done].
  destruct (item (g_levels g) _) as [lv|] eqn:Hl; [|done].
  apply item_Some in Hg as [_ Hg]. apply item_Some in Hl as [_ Hl].
  pose proof (Forall_lookup_1 _ _ _ _ (Forall_lookup_1 _ _ _ _ Hk Hg) Hl) as Ha. cbn in Ha.
  by destruct (lv_actions lv).
Qed.

Lemma sticky_action_plain flags act :
  not_redirect (action_func act) -> not_redirect (action_func (sticky_action flags act)).
Proof.
  destruct act; try done; cbn [sticky_action].
  - by destruct (_ : mod_action_type).
  - by destruct (_ : group_action_type).
Qed.

Lemma resolve_redirect_plain km act :
  not_redirect (action_func act) -> not_redirect (action_func (resolve_redirect km act)).
Proof. by destruct act. Qed.

Lemma apply_actions_silent key acts :
  Forall (fun a => not_redirect (action_func a)) acts -> keeps silent (apply_actions key acts).
Proof.
  induction 1 as [|act acts Hact _ IH]; cbn [apply_actions]; [apply keeps_ret; apply _|].
  apply keeps_bind; [apply _ | | intros _; exact IH]. unfold apply_action.
  destruct (action_func act) as [fn0|] eqn:Hfn0; [|apply keeps_ret; apply _]. rewrite <- Hfn0 in Hact.
  apply keeps_bind; [apply _ | apply silent_filter_new | intros i].
  apply keeps_bind; [apply _ | apply keeps_gets; apply _ | intros s]. cbv zeta.
  set (act' := resolve_redirect _ _).
  assert (not_redirect (action_func act')) as Hact'.
  { apply resolve_redirect_plain. destruct (has_flag _ _); [by apply sticky_action_plain | done]. }
  apply keeps_bind; [apply _ | by apply silent_filter | intros _].
  destruct (action_func act') as [fn|]; [|apply keeps_ret; apply _].
  apply run_filter_new_keeps;
    auto using silent_state, silent_filter, silent_filter_new with typeclass_instances.
  congruence.
Qed.

Lemma apply_all_silent depth key d :
  key_plain (kp_key key) -> keeps silent (apply_all depth key d).
Proof.
  revert key d. induction depth as [|depth IH]; intros key d Hkey; cbn [apply_all];
    unfold apply_all_with;
    (apply keeps_bind; [apply _ | apply keeps_gets; apply _ | intros s]);
    (apply keeps_bind; [apply _ | apply filters_loop_silent | intros consumed]).
  all: try (destruct (_ || _); [apply keeps_ret; apply _|];
    apply keeps_bind; [apply _ | apply keeps_gets; apply _ | intros s'];
    apply apply_actions_silent, key_plain_actions, Hkey).
  - apply keeps_fail.
  - apply update_latched_locked_keeps;
      auto using silent_state, silent_filter, silent_filter_new with typeclass_instances.
    intros a flags mask. apply IH. by repeat (apply Forall_cons_2; [|apply Forall_nil_2]).
Qed.
