(* ===== verification/MachineInv.v ===== *)
(** * The invariant of a state machine

    What holds of a machine between two calls, and that the two functions
    that process events keep it: the memory accesses are in bounds and the
    only fault left is the one of the server state underneath. *)

From Stdlib Require Import ZArith Lia.
From stdpp Require Import base tactics list numbers.
From S2P Require Import Prelude Keymap State Filters Apply Server Safety Reach Client Machine Overlays Events.

(** ** Computations of the machine *)

Definition server_of (x : mctx) : sctx := mk_sctx (sm_base (mx_sm x)) (Some (mx_events x)).

Lemma wp_bind_ok {S A B} (m : M S A) (k : A -> M S B) x a y E Q :
  m x = Ok (a, y) -> wp (k a) y E Q -> wp (bind m k) x E Q.
Proof. intros Hm H. apply wp_bind. unfold wp at 1. by rewrite Hm. Qed.

Lemma wp_bind_fault {S A B} (m : M S A) (k : A -> M S B) x f (E : fault -> Prop) Q :
  m x = Fault f -> E f -> wp (bind m k) x E Q.
Proof. intros Hm H. apply wp_bind. unfold wp at 1. by rewrite Hm. Qed.

Lemma wp_keeps {S A} (R : S -> S -> Prop) (m : M S A) x E Q :
  wp m x E Q -> keeps R m -> wp m x E (fun a y => Q a y /\ R x y).
Proof. intros H Hk. specialize (Hk x). unfold wp in *. by destruct (m x) as [[a y]|f]. Qed.

Lemma wp_on_server {A} (m : M sctx A) x E Q :
  wp m (server_of x) E (fun a y => has_events y = true /\
    forall evs, sc_events y = Some evs -> Q a (mk_mctx (sm_set_base (sc_state y) (mx_sm x)) evs)) ->
  wp (on_server m) x E Q.
Proof.
  unfold wp, on_server. fold (server_of x). destruct (m (server_of x)) as [[a y]|f]; [|done].
  intros [He H]. unfold has_events in He. destruct (sc_events y); [|done]. by apply H.
Qed.

(** ** The invariant *)

(** The keys that a key is in its overlays are in the keymap. *)
Definition overlays_wf (km : xkb_keymap) : Prop :=
  Forall (fun key => forall x, is_overlay x -> Z.testbit (k_overlays key) (x - 1) = true ->
            exists j, overlay_key_at key x = Some j /\ (j < length (km_keys km))%nat)
    (km_keys km).

Definition targets_ok (km : xkb_keymap) (cfg : machine_shortcuts_config) : Prop :=
  forall ts, sc_targets cfg = Some ts ->
    0 < km_num_groups km /\ Z.of_nat (length ts) = km_num_groups km.

Definition empty_batch : xkb_events := mk_events 0 [].

Record machine_ok (km : xkb_keymap) (sm : xkb_machine) : Prop := {
  mok_server : inv km true None 0 (mk_sctx (sm_base sm) (Some empty_batch));
  mok_derived : derived (sm_base sm);
  mok_order : order_ok sm;
  mok_keys : Forall (fun e => ok_new e < length (km_keys km))%nat (sm_keys sm);
  mok_targets : targets_ok km (sm_shortcuts sm)
}.

Lemma inv_any_batch km s evs evs' :
  inv km true None 0 (mk_sctx s (Some evs)) -> inv km true None 0 (mk_sctx s (Some evs')).
Proof. intros []. by split. Qed.

Lemma machine_ok_server km sm evs :
  machine_ok km sm -> inv km true None 0 (mk_sctx (sm_base sm) (Some evs)).
Proof. intros Hsm. eapply inv_any_batch, Hsm. Qed.

(** A function that updates the server state keeps the invariant. *)
Lemma on_server_ok_at {A} km E (m : M sctx A) x :
  machine_ok km (mx_sm x) ->
  wp m (server_of x) E (fun _ y => inv km true None 0 y /\ derived (sc_state y)) ->
  wp (on_server m) x E (fun _ x' => machine_ok km (mx_sm x')).
Proof.
  intros Hx Hm. apply wp_on_server. eapply wp_mono; [exact Hm | done |].
  intros a y [Hy Hd]. split; [apply Hy|]. intros evs Hevs.
  destruct Hx as [Hs Hdx Ho Hk Ht]. split; try done. cbn.
  destruct y as [s e]. cbn in *. subst e. by eapply inv_any_batch.
Qed.

Lemma on_server_ok {A} km E (m : M sctx A) x :
  updates km true E m -> machine_ok km (mx_sm x) ->
  wp (on_server m) x E (fun _ x' => machine_ok km (mx_sm x')).
Proof.
  intros Hm Hx. apply on_server_ok_at; [done|].
  apply Hm; [by apply machine_ok_server | apply Hx].
Qed.

(** ** Overlays *)

Lemma overlay_target_ok km sm i key :
  overlays_wf km -> order_ok sm -> (i < length (km_keys km))%nat -> key ∈ km_keys km ->
  exists j, overlay_target sm i key = Ok j /\ (j < length (km_keys km))%nat.
Proof.
  intros Hwf (l & Ho & Hl & Hlen) Hi Hkey. unfold overlay_target.
  destruct (has_flag _ _); [|by exists i]. rewrite Ho, select_overlay_eq by done.
  destruct (list_find _ l) as [[k x]|] eqn:Hfind; [|by exists i].
  apply list_find_Some in Hfind as (Hk & Hx & _).
  unfold overlays_wf in Hwf. rewrite list.Forall_forall in Hwf.
  destruct (Hwf key Hkey x (Forall_lookup_1 _ _ _ _ Hl Hk) Hx) as (j & -> & Hj). by exists j.
Qed.

Lemma process_overlayable_key_ok km i key d x :
  overlays_wf km -> machine_ok km (mx_sm x) -> key_at km i = Some key ->
  wp (process_overlayable_key i key d) x no_fault
    (fun j x' => machine_ok km (mx_sm x') /\ (j < length (km_keys km))%nat /\
       sm_base (mx_sm x') = sm_base (mx_sm x)).
Proof.
  intros Hwf Hx Hkey. pose proof (lookup_lt_Some _ _ _ Hkey) as Hi.
  unfold process_overlayable_key. apply wp_bind, wp_gets.
  destruct (list_find _ _) as [[k e]|] eqn:Hfind.
  - apply list_find_Some in Hfind as (Hk & _).
    pose proof (Forall_lookup_1 _ _ _ _ (mok_keys _ _ Hx) Hk) as He. cbn in He.
    cbv zeta. apply wp_bind, wp_modify, wp_ret. split; [|done].
    destruct Hx as [Hs Hd Ho Hks Ht]. split; try done. cbn. by apply Forall_insert.
  - destruct (bool_decide _); [|by apply wp_ret].
    destruct (overlay_target_ok km (mx_sm x) i key Hwf (mok_order _ _ Hx) Hi) as (j & -> & Hj);
      [by eapply list_elem_of_lookup_2|].
    cbv zeta. apply wp_bind, wp_modify, wp_ret. split; [|done].
    destruct Hx as [Hs Hd Ho Hks Ht]. split; try done. cbn. clear Hfind.
    destruct (list_find (fun e => ok_old e = None) _) as [[k e]|]; [by apply Forall_insert|].
    apply Forall_app_2; [done | by apply Forall_cons_2].
Qed.

Lemma update_overlays_ok km sm : machine_ok km sm -> machine_ok km (machine_update_overlays sm).
Proof.
  intros [Hs Hd Ho Hk Ht].
  assert (exists enabled order, machine_update_overlays sm = sm_set_overlays enabled order sm)
    as (enabled & order & Heq).
  { unfold machine_update_overlays. cbv zeta. destruct (remove_overlays _ _ _ _ _ _). eauto. }
  pose proof (update_overlays_order sm Ho) as Ho'. rewrite Heq in Ho' |- *. by split.
Qed.

(** ** The tweaks as a function

    The change of components announced before the key, if any, and the server
    state in which its actions are run. *)

Definition remapped (cfg : machine_modifiers_config) (st : xkb_state) (key : xkb_key)
    : option state_components :=
  let c := st_components st in
  if negb (has_flag (mc_mask cfg) (mods c)) then None
  else match item (k_groups key) (state_key_get_layout st key) with
  | None => None
  | Some g =>
      let (affect, target) :=
        active_mappings (mc_mappings cfg) (mods c) (m_mask (t_mods (g_type g))) 0 0 in
      if affect =? 0 then None
      else Some (update_derived st (remapped_components affect target c))
  end.

Definition with_mods (v : Z) (s : xkb_server_state) : xkb_server_state :=
  ss_set_components (set_mods v (ss_components s)) s.
Definition with_group (v : Z) (s : xkb_server_state) : xkb_server_state :=
  ss_set_components (set_group v (ss_components s)) s.

Definition remap_tweak (cfg : machine_modifiers_config) (s : xkb_server_state) (key : xkb_key)
    : option (state_components * Z) * xkb_server_state :=
  match remapped cfg (ss_base s) key with
  | None => (None, s)
  | Some new =>
      let changed := get_state_component_changes (ss_components s) new in
      (if changed =? 0 then None else Some (new, changed), with_mods (mods new) s)
  end.

(** The components of the tweak of shortcuts to the layout [target]. *)
Definition shortcut_components (s : xkb_server_state) (c : state_components) (target : Z)
    : state_components :=
  let cur := ss_components s in
  update_derived (ss_base s)
    (set_base_group (i32 (i32 (i32 target - latched_group cur) - locked_group cur)) c).

Definition tweaks (sm : xkb_machine) (previous : state_components) (s : xkb_server_state)
    (key : xkb_key) : result (option (state_components * Z) * xkb_server_state) :=
  let (remap, s) := remap_tweak (sm_modifiers sm) s key in
  match shortcut_target (sm_shortcuts sm) (ss_components s) with
  | Fault f => Fault f
  | Ok None => Ok (remap, s)
  | Ok (Some target) =>
      let new := shortcut_components s (from_option fst (ss_components s) remap) target in
      Ok (Some (new, get_state_component_changes previous new), with_group (group new) s)
  end.

Definition push (evs : xkb_events) (l : list xkb_event) : xkb_events :=
  mk_events (ev_next evs) (ev_queue evs ++ l).

Lemma push_nil evs : push evs [] = evs.
Proof. destruct evs. unfold push. cbn. by rewrite app_nil_r. Qed.

Lemma push_push evs l l' : push (push evs l) l' = push evs (l ++ l').
Proof. unfold push. cbn. by rewrite <- app_assoc. Qed.

(** The event of a change, and the index of it in the queue. *)
Definition change_event (t : option (state_components * Z)) : list xkb_event :=
  match t with Some (c, changed) => [EvComponents c changed] | None => [] end.
Definition change_index (evs : xkb_events) (t : option (state_components * Z)) : option nat :=
  match t with Some _ => Some (length (ev_queue evs)) | None => None end.

Lemma do_remap_eq cfg key s evs :
  do_remap_modifiers cfg key (mk_sctx s (Some evs)) =
    let (t, s') := remap_tweak cfg s key in
    Ok (change_index evs t, mk_sctx s' (Some (push evs (change_event t)))).
Proof.
  unfold do_remap_modifiers, remap_tweak, remapped, bind, gets. cbn [sc_state].
  destruct (negb (has_flag _ _)); [by rewrite push_nil|]. cbv zeta.
  destruct (item _ _) as [g|]; [|by rewrite push_nil].
  destruct (active_mappings _ _ _ _ _) as [affect target].
  destruct (affect =? 0); [by rewrite push_nil|]. cbn. unfold ss_components.
  destruct (get_state_component_changes _ _ =? 0); cbn; [by rewrite push_nil | done].
Qed.

Lemma tweaks_eq sm previous key s evs :
  (let* remap := do_remap_modifiers (sm_modifiers sm) key in
   do_shortcuts_tweak (sm_shortcuts sm) previous remap) (mk_sctx s (Some evs)) =
    match tweaks sm previous s key with
    | Ok (t, s') => Ok (change_index evs t, mk_sctx s' (Some (push evs (change_event t))))
    | Fault f => Fault f
    end.
Proof.
  unfold bind at 1. rewrite do_remap_eq. unfold tweaks.
  destruct (remap_tweak (sm_modifiers sm) s key) as [t s'].
  unfold do_shortcuts_tweak, bind, gets. cbn [sc_state]. fold (ss_components s').
  destruct (shortcut_target (sm_shortcuts sm) (ss_components s')) as [[target|]|f]; [|done..].
  destruct t as [[c changed]|]; cbn.
  - rewrite list_lookup_middle by done. cbn. unfold set_event. cbn.
    rewrite insert_app_r_alt, Nat.sub_diag by lia. done.
  - rewrite app_nil_r, insert_app_r_alt, Nat.sub_diag by lia. done.
Qed.

Section safety.
Context (km : xkb_keymap) (Hkm : keymap_ok km) (Hov : overlays_wf km).

Lemma inv_comps s evs c :
  inv km true None 0 (mk_sctx s (Some evs)) -> components_ok c ->
  inv km true None 0 (mk_sctx (ss_set_components c s) (Some evs)).
Proof using. intros [Hs Hb Hn Hf] Hc. split; try done. destruct Hs. by split. Qed.

Lemma tweaks_ok sm previous s key evs :
  inv km true None 0 (mk_sctx s (Some evs)) -> derived s -> targets_ok km (sm_shortcuts sm) ->
  exists t s', tweaks sm previous s key = Ok (t, s') /\
    inv km true None 0 (mk_sctx s' (Some evs)).
Proof using.
  intros Hx Hd Ht. unfold tweaks.
  assert (exists t s', remap_tweak (sm_modifiers sm) s key = (t, s') /\
    inv km true None 0 (mk_sctx s' (Some evs)) /\ group (ss_components s') = group (ss_components s))
    as (t & s' & -> & Hx' & Hg).
  { unfold remap_tweak. destruct (remapped _ _ _) as [new|]; [|by exists None, s].
    eexists _, _. split; [reflexivity|]. split; [|done]. apply inv_comps; [done|].
    pose proof (sok_components _ _ (inv_server _ _ _ _ _ Hx)) as []. by split. }
  unfold shortcut_target. destruct (sc_targets (sm_shortcuts sm)) as [ts|] eqn:Hts;
    [|by exists t, s'].
  destruct (negb _); [by exists t, s'|]. destruct (Ht ts Hts) as [Hpos Hlen].
  pose proof (der_group_range _ _ Hd) as Hgr.
  rewrite (sok_keymap _ _ (inv_server _ _ _ _ _ Hx) : st_keymap (ss_base s) = km) in Hgr.
  rewrite Hg. destruct (item ts (group (ss_components s))) as [target|] eqn:Hi.
  2:{ unfold item in Hi. rewrite (proj2 (Z.ltb_ge _ _)) in Hi by apply Hgr.
      apply lookup_ge_None in Hi. lia. }
  destruct (target =? XKB_LAYOUT_INVALID); [by exists t, s'|].
  eexists _, _. split; [reflexivity|]. apply inv_comps; [done|].
  pose proof (sok_components _ _ (inv_server _ _ _ _ _ Hx')) as []. by split.
Qed.

Lemma tweaks_sticky sm previous s key evs t s' :
  tweaks sm previous s key = Ok (t, s') ->
  forall evs', sticky_on (mk_sctx s' (Some evs')) = sticky_on (mk_sctx s (Some evs)).
Proof using.
  unfold tweaks. destruct (remap_tweak _ _ _) as [r s1] eqn:Hr. intros Ht evs'.
  assert (controls (ss_components s1) = controls (ss_components s)) as H1.
  { unfold remap_tweak in Hr. destruct (remapped _ _ _); by injection Hr as _ <-. }
  unfold sticky_on. cbn [sc_state]. rewrite <- H1. f_equal. clear Hr H1.
  destruct (shortcut_target _ _) as [[target|]|]; by simplify_eq.
Qed.

(** The rest of the processing of a key after the tweaks. *)
Lemma wp_bind_assoc {A B C} (m : M sctx A) (k : A -> M sctx B) (h : B -> M sctx C) x E Q :
  wp (bind (bind m k) h) x E Q -> wp (bind m (fun a => bind (k a) h)) x E Q.
Proof using. unfold wp, bind. by destruct (m x) as [[a y]|f]. Qed.

Lemma updates_get_queue E : updates km true E get_queue.
Proof using.
  intros x Hx Hd. unfold wp, get_queue. pose proof (inv_events _ _ _ _ _ Hx) as He.
  unfold has_events in He. by destruct (sc_events x).
Qed.

Lemma updates_append_event E e : updates km true E (append_event e).
Proof using.
  intros x Hx Hd. pose proof (append_event_pres km true 0 None E e eq_refl x Hx) as H.
  unfold wp, append_event in *. destruct (sc_events x); [|done]. split; [apply H | done].
Qed.

(** The queue has a change of components. *)
Definition has_change (x : sctx) : Prop :=
  exists evs i c changed, sc_events x = Some evs /\ ev_queue evs !! i = Some (EvComponents c changed).

Lemma last_components_change q i c changed :
  q !! i = Some (EvComponents c changed) -> exists c', last_components q = Some c'.
Proof using.
  revert i. induction q as [|e q IH]; intros i Hi; [done|]. cbn [last_components].
  destruct i as [|i]; cbn in Hi.
  - injection Hi as ->. destruct (last_components q); eauto.
  - destruct (IH i Hi) as [c' ->]. eauto.
Qed.

Lemma has_change_grows x x' : grows x x' -> has_change x -> has_change x'.
Proof using.
  unfold grows, has_change. intros Hg (evs & i & c & changed & He & Hi). rewrite He in Hg.
  destruct Hg as (evs' & q & He' & Hq & _). exists evs', i, c, changed. split; [done|].
  rewrite Hq. by apply lookup_app_l_Some.
Qed.

Lemma undo_tweaks_ok previous x :
  inv km true None 0 x -> derived (sc_state x) -> has_change x ->
  wp (undo_tweaks previous) x no_fault (fun _ x' => inv km true None 0 x' /\ derived (sc_state x')).
Proof using.
  intros Hx Hd (evs & i & c & changed & He & Hi). unfold undo_tweaks.
  eapply wp_bind_ok; [unfold get_queue; by rewrite He|].
  destruct (last_components_change _ _ _ _ Hi) as [c' Hc'].
  destruct (ev_queue evs) as [|e q]; [done|]. rewrite Hc'. cbv zeta.
  destruct (negb _); [|done]. by apply updates_append_event.
Qed.

Lemma process_key_actions_grows key d : keeps grows (process_key_actions key d).
Proof using.
  unfold process_key_actions. apply keeps_bind; [apply _ | apply grows_state | intros _].
  apply keeps_bind; [apply _ | apply apply_all_grows | intros _].
  apply keeps_bind; [apply _ | apply grows_state | intros _]. apply grows_state.
Qed.

(** A release while the sticky keys are on may use a filter after the array
    moved; nothing else faults. *)
Definition release_fault (d : xkb_key_direction) (sticky : bool) (f : fault) : Prop :=
  f = FaultUseAfterRealloc /\ d = KEY_UP /\ sticky = true.

Lemma process_key_actions_ok key d x :
  key_ok (kp_key key) -> inv km true None 0 x ->
  wp (process_key_actions key d) x (release_fault d (sticky_on x))
    (fun _ x' => inv km true None 0 x' /\ derived (sc_state x')).
Proof using Hkm.
  intros Hkey Hx. destruct (decide (no_clear d x)) as [Hn|Hn].
  - unfold process_key_actions. apply wp_bind, wp_modify, wp_bind.
    eapply (wp_mono _ _ no_fault); [apply (apply_all_quiet km true (proj1 Hkm) 1 0) | done |].
    + exact Hkey.
    + exact Hn.
    + assert (pres km true None None 0 no_fault
        (upd_state (fun s => ss_set_clear_mods 0 (ss_set_set_mods 0 s))) any) as H.
      { apply pres_upd_state. intros s []. split; [|done]. by split; cbn; auto with server. }
      apply (H x Hx).
    + intros ? y Hy. revert y Hy. apply rederives_bind with any; [apply pres_upd_state, commit_mods_ok|].
      intros _ _. by apply rederives_upd_derived.
  - eapply wp_mono; [apply (process_key_actions_rederives km true Hkm only_realloc); [|exact Hx] | |done].
    + by apply apply_all_pres; [apply Hkm|].
    + intros f ->. split; [done|]. unfold no_clear in Hn.
      destruct (decide (d = KEY_UP)), (sticky_on x); naive_solver.
Qed.

Lemma key_body_ok sm previous i key d x :
  key_at km i = Some key -> targets_ok km (sm_shortcuts sm) ->
  inv km true None 0 x -> derived (sc_state x) ->
  wp (process_tweaked_key sm previous i key d) x (release_fault d (sticky_on x)) (fun _ x' => inv km true None 0 x' /\ derived (sc_state x')).
Proof using Hkm.
  intros Hkey Ht Hx Hd. destruct x as [s [evs|]]; [|by destruct Hx].
  destruct (tweaks_ok sm previous s key evs Hx Hd Ht) as (t & s' & Htw & Hx').
  pose proof (tweaks_sticky sm previous s key evs t s' Htw) as Hst.
  unfold process_tweaked_key. apply wp_bind_assoc.
  eapply wp_bind_ok; [by rewrite tweaks_eq, Htw|].
  set (x' := mk_sctx s' _).
  assert (change_index evs t <> None -> has_change x') as Hch.
  { destruct t as [[c changed]|]; [|done]. intros _. eexists _, (length (ev_queue evs)), c, changed.
    split; [done|]. cbn. by rewrite list_lookup_middle. }
  apply (inv_any_batch _ _ _ (push evs (change_event t))) in Hx'. fold x' in Hx'. apply wp_bind.
  eapply (wp_mono _ _ (release_fault d (sticky_on x'))); [apply (wp_keeps grows) | |].
  - apply process_key_actions_ok; [by apply (key_at_ok km i) | exact Hx'].
  - apply process_key_actions_grows.
  - unfold x'. by rewrite (Hst (push evs (change_event t))).
  - cbv beta. intros _ y [[Hy Hdy] Hgy]. apply wp_bind.
    eapply (wp_mono _ _ no_fault); [apply (wp_keeps grows); [by apply updates_get_queue | apply grows_get_queue] | done |].
    cbv beta. intros queue z [[Hz Hdz] Hgz]. apply wp_bind.
    eapply (wp_mono _ _ no_fault); [apply (wp_keeps grows) | done |].
    + by apply (updates_if km true no_fault _ (append_event _) (ret tt)
        (updates_append_event _ _) (updates_ret km true _ tt) z).
    + destruct (negb _); [apply grows_append_event | apply keeps_ret; apply _].
    + cbv beta. intros _ w [[Hw Hdw] Hgw]. destruct (change_index evs t); [|by apply wp_ret].
      eapply wp_mono; [apply undo_tweaks_ok; [done..|] | done | done].
      do 3 (eapply has_change_grows; [eassumption|]). by apply Hch.
Qed.

Lemma report_changes_ok previous x :
  machine_ok km (mx_sm x) ->
  wp (report_changes previous) x no_fault (fun _ x' => machine_ok km (mx_sm x')).
Proof using.
  intros Hx. unfold report_changes. apply wp_bind, wp_gets. cbv zeta.
  apply wp_if; intros _; [|by apply wp_ret]. apply wp_bind.
  assert (wp (when has_flag (get_state_component_changes previous (ss_components (sm_base (mx_sm x))))
                     XKB_STATE_CONTROLS do upd_sm machine_update_overlays) x no_fault
    (fun _ x' => machine_ok km (mx_sm x'))) as H.
  { apply wp_if; intros _; [|by apply wp_ret]. apply wp_modify. by apply update_overlays_ok. }
  eapply wp_mono; [exact H | done |]. intros ? y Hy.
  eapply wp_mono; [apply (on_server_ok km no_fault); [apply updates_append_event | done] | done | done].
Qed.

Lemma process_machine_key_ok previous i key d x :
  key_at km i = Some key -> machine_ok km (mx_sm x) ->
  wp (process_machine_key previous i key d) x (release_fault d (sticky_on (server_of x)))
    (fun _ x' => machine_ok km (mx_sm x')).
Proof using Hkm.
  intros Hkey Hx. unfold process_machine_key. apply wp_bind, wp_gets, wp_bind.
  eapply wp_mono; [apply (on_server_ok_at km (release_fault d (sticky_on (server_of x)))) | done |].
  - done.
  - by apply key_body_ok; [|apply Hx|apply machine_ok_server|apply Hx].
  - cbv beta. intros ? y Hy. eapply wp_mono; [by apply report_changes_ok | done | done].
Qed.

Lemma break_sticky_ok s d x :
  machine_ok km (mx_sm x) ->
  wp (when breaks_sticky_keys s d do on_server (state_update_enabled_controls CONTROL_STICKY_KEYS 0))
    x no_fault (fun _ x' => machine_ok km (mx_sm x') /\
      (d = KEY_DOWN \/ sm_base (mx_sm x') = sm_base (mx_sm x))).
Proof using Hkm.
  intros Hx. apply wp_if; intros Hb; [|apply wp_ret; by auto].
  unfold breaks_sticky_keys in Hb.
  apply andb_true_iff in Hb as [[[Hd _]%andb_true_iff _]%andb_true_iff _].
  apply bool_decide_eq_true in Hd as ->.
  eapply wp_mono; [apply (on_server_ok km no_fault); [|done] | done | auto].
  by apply rederives_updates, enabled_controls_rederives.
Qed.

Lemma process_key_ok kc d x :
  machine_ok km (mx_sm x) ->
  wp (process_key kc d) x (release_fault d (sticky_on (server_of x)))
    (fun e x' => e = XKB_SUCCESS /\ machine_ok km (mx_sm x')).
Proof using Hkm Hov.
  intros Hx. unfold process_key. apply wp_bind, wp_modify, wp_bind, wp_gets.
  cbn [mx_sm]. cbv zeta.
  rewrite (sok_keymap _ _ (inv_server _ _ _ _ _ (mok_server _ _ Hx))
    : st_keymap (ss_base (sm_base (mx_sm x))) = km).
  destruct (XkbKey km kc) as [i|] eqn:Hi; [|by apply wp_ret].
  destruct (XkbKey_sound km (proj1 Hkm) kc i Hi) as (key & Hkey & _). rewrite Hkey.
  apply wp_if; intros _; [by apply wp_ret|]. cbv zeta. apply wp_bind.
  set (previous := ss_components _). clearbody previous.
  eapply wp_mono; [apply break_sticky_ok; exact Hx | done |]. cbv beta. cbn [mx_sm].
  intros ? x1 [Hx1 Hb1]. apply wp_bind.
  eapply (wp_mono _ _ no_fault _ (fun j x' => machine_ok km (mx_sm x') /\
    (j < length (km_keys km))%nat /\ sm_base (mx_sm x') = sm_base (mx_sm x1))); [|done|].
  { apply wp_if; intros _; [apply wp_ret; split; [done | by apply lookup_lt_Some in Hkey]|].
    by apply (process_overlayable_key_ok km). }
  intros j x2 (Hx2 & Hj & Hb2). destruct (key_at km j) as [key'|] eqn:Hkey'.
  2:{ apply lookup_ge_None in Hkey'. lia. }
  apply wp_bind. eapply wp_mono; [by apply process_machine_key_ok | |].
  - intros f (Hf & Hd & Hst). split; [done|]. split; [done|].
    destruct Hb1 as [->|Hb1]; [done|]. unfold sticky_on, server_of in *. cbn in *. congruence.
  - intros ? x3 Hx3. by apply wp_ret.
Qed.

Lemma process_synthetic_ok u x :
  machine_ok km (mx_sm x) -> state_update_ok u ->
  wp (process_synthetic u) x no_fault (fun _ x' => machine_ok km (mx_sm x')).
Proof using Hkm.
  intros Hx Hu. unfold process_synthetic. apply wp_bind, wp_gets. cbv zeta. apply wp_bind.
  eapply wp_mono; [apply (on_server_ok km no_fault); [by apply apply_state_update_updates | done] | done |].
  intros e y Hy. destruct e; try by apply wp_ret.
  apply wp_bind. eapply wp_mono; [by apply report_changes_ok | done |].
  intros ? z Hz. by apply wp_ret.
Qed.
End safety.

(** ** Reachable machines *)

Lemma drop_default_le ts n c : (drop_default_targets ts n c <= c)%nat.
Proof.
  induction c as [|c IH]; [done|]. cbn [drop_default_targets]. destruct c as [|c]; [done|].
  destruct (from_option _ _ _); [done|]. lia.
Qed.

Lemma machine_set_shortcuts_ok km mask raw : targets_ok km (machine_set_shortcuts km mask raw).
Proof.
  unfold machine_set_shortcuts. destruct raw as [|t raw]; [done|]. cbv zeta.
  pose proof (drop_default_le (t :: raw) (km_num_groups km)
    (Nat.min (Z.to_nat (km_num_groups km)) (length (t :: raw)))) as Hle.
  set (count := drop_default_targets _ _ _) in *. clearbody count.
  destruct (Nat.eqb_spec count 0); [done|]. destruct (_ =? 0); [done|].
  intros ts [= <-]. rewrite length_app, length_map, length_take, repeat_length.
  lia.
Qed.

Lemma machine_new_ok bl :
  keymap_wf (b_keymap bl) -> machine_ok (b_keymap bl) (xkb_machine_new bl).
Proof.
  intros Hkm. destruct (xkb_server_state_init_inv (b_keymap bl) SERVER_STATE (b_a11y_affect bl)
    (b_a11y_flags bl) Hkm) as [[Hs Hb Hn Hf] Hd].
  split.
  - split; [exact Hs | done | done | by intros i f Hi].
  - exact Hd.
  - exists []. split; [done|]. split; [apply Forall_nil_2 | cbn; lia].
  - apply Forall_nil_2.
  - apply machine_set_shortcuts_ok.
Qed.

(** The calls that change a machine; the batch of events is the caller's. *)
Inductive machine_step (sm sm' : xkb_machine) : Prop :=
| machine_step_key kc d evs e evs' :
    xkb_machine_process_key sm kc d evs = Ok (e, (sm', evs')) -> machine_step sm sm'
| machine_step_synthetic u evs e evs' :
    state_update_ok u ->
    xkb_machine_process_synthetic sm u evs = Ok (e, (sm', evs')) -> machine_step sm sm'.

Inductive machine_reachable (km : xkb_keymap) : xkb_machine -> Prop :=
| machine_reachable_new bl : b_keymap bl = km -> machine_reachable km (xkb_machine_new bl)
| machine_reachable_step sm sm' :
    machine_reachable km sm -> machine_step sm sm' -> machine_reachable km sm'.

Lemma run_machine_wp {A} (m : M mctx A) sm evs E Q :
  wp m (mk_mctx sm evs) E Q ->
  match run_machine m sm evs with
  | Ok (a, (sm', evs')) => Q a (mk_mctx sm' evs')
  | Fault f => E f
  end.
Proof. unfold wp, run_machine. by destruct (m _) as [[a []]|]. Qed.

Lemma machine_reachable_ok km sm :
  keymap_ok km -> overlays_wf km -> machine_reachable km sm -> machine_ok km sm.
Proof.
  intros Hkm Hov. induction 1 as [bl <-|sm sm' _ IH Hstep].
  - by apply machine_new_ok, Hkm.
  - destruct Hstep as [kc d evs e evs' H|u evs e evs' Hu H].
    + pose proof (run_machine_wp _ _ _ _ _ (process_key_ok km Hkm Hov kc d (mk_mctx sm evs) IH)) as Hr.
      unfold xkb_machine_process_key in H. rewrite H in Hr. apply Hr.
    + pose proof (run_machine_wp _ _ _ _ _ (process_synthetic_ok km Hkm u (mk_mctx sm evs) IH Hu)) as Hr.
      unfold xkb_machine_process_synthetic in H. rewrite H in Hr. apply Hr.
Qed.

(** ** The events of a key without redirection *)

(** The change announced when the tweaks are undone. *)
Definition undo_event (previous : state_components) (t : option (state_components * Z))
    : list xkb_event :=
  match t with
  | Some (c, _) =>
      if get_state_component_changes previous c =? 0 then []
      else [EvComponents previous (get_state_component_changes previous c)]
  | None => []
  end.

Definition report_event (previous c : state_components) : list xkb_event :=
  if get_state_component_changes previous c =? 0 then []
  else [EvComponents c (get_state_component_changes previous c)].

(** The whole batch of a key: the tweaked state, the key, the previous state
    back, and the state after the actions. *)
Definition key_batch (previous : state_components) (t : option (state_components * Z))
    (d : xkb_key_direction) (kc : Z) (c : state_components) : list xkb_event :=
  change_event t ++ [EvKey d kc] ++ undo_event previous t ++ report_event previous c.

Lemma process_key_actions_silent key d :
  key_plain (kp_key key) -> keeps silent (process_key_actions key d).
Proof.
  intros Hk. unfold process_key_actions. apply keeps_bind; [apply _ | by apply silent_state | intros _].
  apply keeps_bind; [apply _ | by apply apply_all_silent | intros _].
  apply keeps_bind; [apply _ | | intros _; by apply silent_state].
  apply silent_state. intros s. by destruct (commit_mods_frame s) as (? & ? & ->).
Qed.

Lemma tweaks_filters sm previous s key t s' :
  tweaks sm previous s key = Ok (t, s') -> ss_filters s' = ss_filters s.
Proof.
  unfold tweaks. destruct (remap_tweak _ _ _) as [r s1] eqn:Hr. intros Ht.
  transitivity (ss_filters s1).
  - destruct (shortcut_target _ _) as [[target|]|]; by simplify_eq.
  - unfold remap_tweak in Hr. destruct (remapped _ _ _); by simplify_eq.
Qed.

Lemma undo_tweaks_eq previous t d kc s evs :
  ev_queue evs = change_event t ++ [EvKey d kc] -> t <> None ->
  undo_tweaks previous (mk_sctx s (Some evs)) =
    Ok (tt, mk_sctx s (Some (push evs (undo_event previous t)))).
Proof.
  intros Hq Ht. destruct t as [[c changed]|]; [|done]. unfold undo_tweaks, bind, get_queue.
  cbn [sc_events]. rewrite Hq. cbn. destruct (get_state_component_changes previous c =? 0); cbn.
  - by rewrite push_nil.
  - done.
Qed.

Lemma key_body_silent sm previous i key d s :
  key_plain key -> no_redirect (mk_sctx s (Some empty_batch)) ->
  wp (process_tweaked_key sm previous i key d) (mk_sctx s (Some empty_batch)) any_fault
    (fun _ y => exists t s', tweaks sm previous s key = Ok (t, s') /\ no_redirect y /\
      sc_events y = Some (mk_events 0 (change_event t ++ [EvKey d (k_keycode key)] ++
                                       undo_event previous t))).
Proof.
  intros Hplain Hno. unfold process_tweaked_key.
  apply wp_bind_assoc. pose proof (tweaks_eq sm previous key s empty_batch) as Ht.
  destruct (tweaks sm previous s key) as [[t s']|f] eqn:Htw.
  2:{ by eapply wp_bind_fault. }
  eapply wp_bind_ok; [exact Ht|]. clear Ht. apply tweaks_filters in Htw as Hf. apply wp_bind.
  eapply wp_mono; [apply (process_key_actions_silent (mk_key_ptr (KeymapKey i) key) d Hplain) | done |].
  intros ? z Hz. destruct Hz as [Hnz Hez]; [by unfold no_redirect in *; cbn; rewrite Hf|].
  destruct z as [sz ez]. cbn in Hez. subst ez.
  eapply wp_bind_ok; [reflexivity|]. cbn [ev_queue push].
  assert (existsb is_key_event (ev_queue empty_batch ++ change_event t) = false) as ->
    by by destruct t as [[]|].
  eapply wp_bind_ok; [reflexivity|].
  assert (change_index empty_batch t = None <-> t = None) as Hci by by destruct t as [[]|].
  destruct (change_index empty_batch t) as [n|].
  - assert (t <> None) as Hn by by intros ?%Hci.
    unfold wp. erewrite undo_tweaks_eq; [|reflexivity|done].
    exists t, s'. split; [done|]. split; [done|]. by destruct t as [[]|].
  - assert (t = None) as -> by by apply Hci. apply wp_ret. exists None, s'. done.
Qed.

Lemma update_overlays_base sm : sm_base (machine_update_overlays sm) = sm_base sm.
Proof. unfold machine_update_overlays. cbv zeta. by destruct (remove_overlays _ _ _ _ _ _). Qed.

Lemma wp_append_event e s evs E (Q : unit -> sctx -> Prop) :
  Q tt (mk_sctx s (Some (push evs [e]))) -> wp (append_event e) (mk_sctx s (Some evs)) E Q.
Proof. done. Qed.

Lemma report_changes_eq previous x :
  wp (report_changes previous) x no_fault (fun _ x' =>
    sm_base (mx_sm x') = sm_base (mx_sm x) /\
    mx_events x' = push (mx_events x) (report_event previous (ss_components (sm_base (mx_sm x))))).
Proof.
  destruct x as [sm evs]. unfold report_changes. apply wp_bind, wp_gets. cbv zeta. cbn [mx_sm mx_events].
  unfold report_event. destruct (get_state_component_changes _ _ =? 0); cbn [negb].
  { apply wp_ret. by rewrite push_nil. }
  apply wp_bind.
  eapply (wp_mono _ _ no_fault _ (fun _ y => sm_base (mx_sm y) = sm_base sm /\ mx_events y = evs));
    [|done|].
  { apply wp_if; intros _; [|by apply wp_ret]. apply wp_modify. split; [apply update_overlays_base | done]. }
  intros ? [sm' evs'] [Hb He]. cbn [mx_sm mx_events] in *. subst evs'.
  apply wp_on_server. unfold server_of. cbn [mx_sm mx_events]. rewrite Hb.
  apply wp_append_event. split; [done|]. intros ? [= <-]. done.
Qed.

Lemma process_machine_key_silent previous i key d sm :
  key_plain key -> no_redirect (mk_sctx (sm_base sm) (Some empty_batch)) ->
  wp (process_machine_key previous i key d) (mk_mctx sm empty_batch) any_fault
    (fun _ x' => exists t s', tweaks sm previous (sm_base sm) key = Ok (t, s') /\
       mx_events x' = mk_events 0
         (key_batch previous t d (k_keycode key) (ss_components (sm_base (mx_sm x'))))).
Proof.
  intros Hplain Hno. unfold process_machine_key. apply wp_bind, wp_gets, wp_bind.
  apply wp_on_server. eapply wp_mono; [by apply key_body_silent | done |].
  intros ? y (t & s' & Ht & _ & Hev). unfold has_events. rewrite Hev. split; [done|].
  intros evs [= <-]. eapply wp_mono; [apply report_changes_eq | done |].
  intros ? z [Hb Hz]. exists t, s'. split; [done|]. rewrite Hz, Hb. unfold push, key_batch. cbn.
  by rewrite <- !app_assoc.
Qed.

Lemma process_machine_key_ends previous i key d x :
  wp (process_machine_key previous i key d) x any_fault
    (fun _ x' => exists evs, mx_events x' =
       push evs (report_event previous (ss_components (sm_base (mx_sm x'))))).
Proof.
  unfold process_machine_key. apply wp_bind, wp_gets, wp_bind.
  eapply wp_mono; [apply wp_any | done |]. intros ? y _.
  eapply wp_mono; [apply report_changes_eq | done |]. intros ? z [Hb Hz].
  exists (mx_events y). by rewrite Hb.
Qed.

(** ** What a companion sees *)

Definition apply_events (s : xkb_state) (l : list xkb_event) : xkb_state :=
  foldl (fun s e => snd (xkb_state_update_event s e)) s l.

Lemma apply_events_app s l l' : apply_events s (l ++ l') = apply_events (apply_events s l) l'.
Proof. apply foldl_app. Qed.

Lemma apply_events_mode s l : st_mode (apply_events s l) = st_mode s.
Proof.
  revert s. induction l as [|e l IH]; intros s; [done|]. cbn. unfold apply_events in IH. rewrite IH.
  unfold xkb_state_update_event. destruct (negb _); [done|]. by destruct e.
Qed.

Section companion.
Context (s : xkb_state) (Hmode : companion_mode (st_mode s) = true).

Lemma apply_change c changed : st_components (apply_events s [EvComponents c changed]) = c.
Proof using Hmode. cbn. unfold xkb_state_update_event. by rewrite Hmode. Qed.

Lemma apply_key d kc : apply_events s [EvKey d kc] = s.
Proof using Hmode. cbn. unfold xkb_state_update_event. by rewrite Hmode. Qed.

Lemma apply_report previous c :
  st_components s = previous -> st_components (apply_events s (report_event previous c)) = c.
Proof using Hmode.
  intros Hs. unfold report_event.
  destruct (Z.eqb_spec (get_state_component_changes previous c) 0) as [Hz|_].
  - apply changes_zero in Hz as <-. exact Hs.
  - apply apply_change.
Qed.

Lemma apply_undo previous t :
  st_components s = from_option fst previous t ->
  st_components (apply_events s (undo_event previous t)) = previous.
Proof using Hmode.
  destruct t as [[c changed]|]; cbn [from_option fst undo_event]; [|done]. intros Hs.
  destruct (Z.eqb_spec (get_state_component_changes previous c) 0) as [Hz|_].
  - apply changes_zero in Hz as ->. exact Hs.
  - apply apply_change.
Qed.

End companion.

(** A companion in the previous state sees the tweaked state with the key and
    ends in the new state. *)
Lemma apply_key_batch s previous t d kc c :
  companion_mode (st_mode s) = true -> st_components s = previous ->
  st_components (apply_events s (change_event t)) = from_option fst previous t /\
  st_components (apply_events s (key_batch previous t d kc c)) = c.
Proof.
  intros Hm Hs.
  assert (st_components (apply_events s (change_event t)) = from_option fst previous t) as Ht.
  { destruct t as [[c' changed]|]; [by apply apply_change | done]. }
  split; [done|]. unfold key_batch. rewrite !apply_events_app.
  apply apply_report; [by rewrite !apply_events_mode|].
  apply apply_undo; [by rewrite !apply_events_mode|].
  rewrite apply_key; [done | by rewrite apply_events_mode].
Qed.

(** ** From the machine's calls to the events *)

Lemma enabled_controls_silent affect ctrls : keeps silent (state_update_enabled_controls affect ctrls).
Proof.
  unfold state_update_enabled_controls. cbv zeta.
  apply keeps_bind; [apply _ | apply keeps_gets; apply _ | intros c].
  apply keeps_bind; [apply _ | by apply silent_state | intros _].
  apply keeps_bind; [apply _ | apply keeps_gets; apply _ | intros c'].
  apply keeps_bind; [apply _ | | intros _; by apply silent_state].
  destruct (_ && _); [|apply keeps_ret; apply _].
  apply update_latched_locked_keeps;
    auto using silent_state, silent_filter, silent_filter_new with typeclass_instances.
  intros a flags mask. apply apply_all_silent. by repeat (apply Forall_cons_2; [|apply Forall_nil_2]).
Qed.

(** The machine at the start of the processing: no redirection in sight. *)
Definition quiet (sm : xkb_machine) : Prop :=
  Forall key_plain (km_keys (st_keymap (ss_base (sm_base sm)))) /\
  no_redirect (mk_sctx (sm_base sm) (Some empty_batch)).

Lemma break_sticky_silent (b : bool) sm :
  no_redirect (mk_sctx (sm_base sm) (Some empty_batch)) ->
  wp (when b do on_server (state_update_enabled_controls CONTROL_STICKY_KEYS 0))
    (mk_mctx sm empty_batch) any_fault
    (fun _ x' => exists sm', x' = mk_mctx sm' empty_batch /\
       no_redirect (mk_sctx (sm_base sm') (Some empty_batch))).
Proof.
  intros Hno. apply wp_if; intros _; [|apply wp_ret; by exists sm].
  apply wp_on_server. eapply wp_mono; [apply enabled_controls_silent | done |].
  intros ? y Hy. destruct (Hy Hno) as [Hny He]. unfold has_events. rewrite He. split; [done|].
  intros ? [= <-]. by eexists.
Qed.

Lemma overlayable_key_silent (c : bool) i key d sm :
  wp (if c then ret i else process_overlayable_key i key d) (mk_mctx sm empty_batch) any_fault
    (fun _ x' => exists sm', x' = mk_mctx sm' empty_batch /\ sm_base sm' = sm_base sm).
Proof.
  apply wp_if; intros _; [apply wp_ret; by exists sm|].
  unfold process_overlayable_key. apply wp_bind, wp_gets. cbn [mx_sm].
  destruct (list_find _ _) as [[k e]|].
  - cbv zeta. apply wp_bind, wp_modify, wp_ret. by eexists.
  - destruct (bool_decide _); [|apply wp_ret; by exists sm].
    destruct (overlay_target sm i key); [|done].
    cbv zeta. apply wp_bind, wp_modify, wp_ret. by eexists.
Qed.

(** A companion in the state of the machine ends in the state of the machine. *)
Definition mirrored (sm sm' : xkb_machine) (evs : xkb_events) : Prop :=
  forall s, companion_mode (st_mode s) = true -> st_components s = ss_components (sm_base sm) ->
    st_components (apply_events s (ev_queue evs)) = ss_components (sm_base sm').

Lemma process_key_quiet sm kc d evs :
  quiet sm ->
  wp (process_key kc d) (mk_mctx sm evs) any_fault
    (fun _ x' => mirrored sm (mx_sm x') (mx_events x')).
Proof.
  intros [Hkeys Hno]. unfold process_key. apply wp_bind, wp_modify, wp_bind, wp_gets.
  cbn [mx_sm mx_events]. cbv zeta. destruct (XkbKey _ kc) as [i|]; [|apply wp_ret; by intros s Hm Hs].
  destruct (key_at _ i) as [key|]; [|done]. apply wp_if; intros _; [apply wp_ret; by intros s Hm Hs|].
  apply wp_bind. eapply wp_mono; [by apply break_sticky_silent | done |].
  intros ? ? (sm1 & -> & Hno1). apply wp_bind.
  eapply wp_mono; [apply overlayable_key_silent | done |].
  intros j ? (sm2 & -> & Hb2). destruct (key_at _ j) as [key'|] eqn:Hkey; [|done].
  apply wp_bind. eapply wp_mono; [apply process_machine_key_silent | done |].
  - by apply (Forall_lookup_1 _ _ _ _ Hkeys Hkey).
  - by rewrite Hb2.
  - intros ? x' (t & s' & _ & Hev). apply wp_ret. intros s Hm Hs. rewrite Hev. cbn [ev_queue].
    by apply apply_key_batch.
Qed.

Lemma process_key_changed sm kc d evs :
  wp (process_key kc d) (mk_mctx sm evs) any_fault
    (fun _ x' => ss_components (sm_base (mx_sm x')) <> ss_components (sm_base sm) ->
       mirrored sm (mx_sm x') (mx_events x')).
Proof.
  unfold process_key. apply wp_bind, wp_modify, wp_bind, wp_gets.
  cbn [mx_sm mx_events]. cbv zeta. destruct (XkbKey _ kc) as [i|]; [|apply wp_ret; by intros s Hm Hs].
  destruct (key_at _ i) as [key|]; [|done]. apply wp_if; intros _; [apply wp_ret; by intros s Hm Hs|].
  apply wp_bind. eapply wp_mono; [apply wp_any | done |]. intros ? x1 _. apply wp_bind.
  eapply wp_mono; [apply wp_any | done |]. intros j x2 _.
  destruct (key_at _ j) as [key'|]; [|done]. apply wp_bind.
  eapply wp_mono; [apply process_machine_key_ends | done |]. intros ? x' [q Hev].
  apply wp_ret. intros Hne s Hm Hs. rewrite Hev. cbn [ev_queue push]. rewrite apply_events_app.
  unfold report_event. destruct (Z.eqb_spec (get_state_component_changes
    (ss_components (sm_base sm)) (ss_components (sm_base (mx_sm x')))) 0) as [Hz|_].
  - by apply changes_zero in Hz.
  - apply apply_change. by rewrite apply_events_mode.
Qed.
