(* ===== verification/MachineSpec.v ===== *)
(** * Properties of the state machine

    The order of the modifier mappings, the overlays, the safety of the event
    processing, and the events: a companion state that applies them mirrors
    the machine. *)

From Stdlib Require Import ZArith Lia.
From stdpp Require Import base tactics list numbers.
From S2P Require Import Prelude Keymap State Filters Apply Server Safety Reach ServerSpec Client Machine Overlays Events MachineInv.

(** ** The order of the modifier masks *)

Definition sum_bits (x : Z) (l : list nat) : Z :=
  foldr (fun i n => Z.b2z (Z.testbit x (Z.of_nat i)) + n) 0 l.

Lemma sum_bits_mono a b l :
  (forall i, i ∈ l -> Z.testbit a (Z.of_nat i) = true -> Z.testbit b (Z.of_nat i) = true) ->
  sum_bits a l <= sum_bits b l /\
  (Exists (fun i => Z.testbit a (Z.of_nat i) <> Z.testbit b (Z.of_nat i)) l ->
   sum_bits a l < sum_bits b l).
Proof.
  induction l as [|i l IH]; intros H.
  - split; [done|]. by intros ?%Exists_nil.
  - destruct IH as [IH1 IH2]; [intros; apply H; [by right|done]|]. cbn [sum_bits foldr].
    fold (sum_bits a l) (sum_bits b l). pose proof (H i ltac:(left)) as Hi.
    destruct (Z.testbit a (Z.of_nat i)) eqn:Ha, (Z.testbit b (Z.of_nat i)) eqn:Hb; cbn [Z.b2z];
      try (by discriminate Hi); (split; [lia|]); intros [Hn|Hex]%Exists_cons;
      first [by rewrite Ha, Hb in Hn | lia | specialize (IH2 Hex); lia].
Qed.

Lemma u32_ext a b :
  is_u32 a -> is_u32 b ->
  Forall (fun i => Z.testbit a (Z.of_nat i) = Z.testbit b (Z.of_nat i)) (seq 0 32) -> a = b.
Proof.
  intros Ha Hb H. apply Z.bits_inj'. intros i Hi. destruct (Z_lt_le_dec i 32).
  - rewrite list.Forall_forall in H. specialize (H (Z.to_nat i)).
    rewrite Z2Nat.id in H by done. apply H, elem_of_seq. lia.
  - by rewrite !u32_testbit_high.
Qed.

Lemma popcount32_subset a b :
  is_u32 a -> is_u32 b -> Z.land a b = a -> a <> b -> popcount32 a < popcount32 b.
Proof.
  intros Ha Hb Hsub Hne. apply (sum_bits_mono a b (seq 0 32)).
  - intros i _ Hi. rewrite <- Hsub, Z.land_spec in Hi. by apply andb_true_iff in Hi as [].
  - destruct (Exists_dec (fun i => Z.testbit a (Z.of_nat i) <> Z.testbit b (Z.of_nat i)) (seq 0 32))
      as [|Hno]; [intros i; solve_decision|done|].
    exfalso. apply Hne, u32_ext; [done..|]. apply list.Forall_forall. intros i Hi.
    destruct (decide (Z.testbit a (Z.of_nat i) = Z.testbit b (Z.of_nat i))) as [|Hd]; [done|].
    exfalso. apply Hno, list.Exists_exists. eauto.
Qed.

Lemma popcount32_pos a : is_u32 a -> a <> 0 -> 0 < popcount32 a.
Proof.
  intros Ha Hne. apply (popcount32_subset 0 a); auto using is_u32_0.
Qed.

(** The comparison is the lexicographic one on the number of modifiers,
    decreasing, and the mask, increasing: a total order in which a strict
    superset comes first. *)
Theorem cmp_mod_masks_spec m1 m2 :
  is_u32 m1 -> is_u32 m2 ->
  cmp_mod_masks m1 m2 =
    match popcount32 m2 ?= popcount32 m1 with
    | Eq => match m1 ?= m2 with Eq => 0 | Lt => -1 | Gt => 1 end
    | Lt => -1
    | Gt => 1
    end.
Proof.
  intros H1 H2. unfold cmp_mod_masks.
  destruct (Z.eqb_spec m1 m2) as [->|Hne]; [by rewrite !Z.compare_refl|].
  assert (popcount32 0 = 0) as P0 by done.
  destruct (Z.eqb_spec m1 0) as [->|Hn1].
  { pose proof (popcount32_pos m2 H2 ltac:(auto)). rewrite P0.
    by rewrite (proj2 (Z.compare_gt_iff _ _)) by lia. }
  destruct (Z.eqb_spec m2 0) as [->|Hn2].
  { pose proof (popcount32_pos m1 H1 ltac:(auto)). rewrite P0.
    by rewrite (proj2 (Z.compare_lt_iff _ _)) by lia. }
  destruct (Z.eqb_spec (Z.land m1 m2) m1) as [Hs|_].
  { pose proof (popcount32_subset m1 m2 H1 H2 Hs Hne).
    by rewrite (proj2 (Z.compare_gt_iff _ _)) by lia. }
  destruct (Z.eqb_spec (Z.land m1 m2) m2) as [Hs|_].
  { rewrite Z.land_comm in Hs. pose proof (popcount32_subset m2 m1 H2 H1 Hs ltac:(auto)).
    by rewrite (proj2 (Z.compare_lt_iff _ _)) by lia. }
  rewrite Z.gtb_ltb. destruct (Z.compare_spec (popcount32 m2) (popcount32 m1)) as [E|L|L].
  - rewrite E, Z.ltb_irrefl. destruct (Z.compare_spec m1 m2); [done| |].
    + by rewrite (proj2 (Z.ltb_lt _ _)) by lia.
    + by rewrite (proj2 (Z.ltb_ge _ _)) by lia.
  - by rewrite (proj2 (Z.ltb_lt _ _)) by lia.
  - rewrite (proj2 (Z.ltb_ge (popcount32 m2) _)) by lia.
    by rewrite (proj2 (Z.ltb_lt _ _)) by lia.
Qed.

Lemma cmp_mod_masks_spec_witness :
  cmp_mod_masks 3 1 =
    match popcount32 1 ?= popcount32 3 with
    | Eq => match 3 ?= 1 with Eq => 0 | Lt => -1 | Gt => 1 end
    | Lt => -1
    | Gt => 1
    end.
Proof. apply (cmp_mod_masks_spec 3 1); by apply is_u32_check. Defined.

(** ** The mappings that apply *)

Definition sources (l : list machine_mods_mapping) : Z :=
  foldr (fun m acc => Z.lor (mm_source m) acc) 0 l.
Definition targets (l : list machine_mods_mapping) : Z :=
  foldr (fun m acc => Z.lor (mm_target m) acc) 0 l.

(** The active modifiers include the source, that the key type does not use. *)
Definition applicable (mods type_mask : Z) (m : machine_mods_mapping) : Prop :=
  Z.land (mm_source m) mods = mm_source m /\ has_flag (mm_source m) type_mask = false.

Lemma has_flag_lor_r a b c : has_flag a (Z.lor b c) = has_flag a b || has_flag a c.
Proof.
  unfold has_flag. rewrite Z.land_lor_distr_r.
  destruct (Z.eqb_spec (Z.land a b) 0) as [->|Hb]; [by rewrite Z.lor_0_l|]. cbn.
  destruct (Z.eqb_spec (Z.lor (Z.land a b) (Z.land a c)) 0) as [Hz|]; [|done].
  by apply Z.lor_eq_0_iff in Hz as [].
Qed.

Lemma has_flag_sources m l :
  has_flag m (sources l) = existsb (fun m' => has_flag m (mm_source m')) l.
Proof.
  induction l as [|m' l IH]; cbn [sources foldr existsb].
  - unfold has_flag. by rewrite Z.land_0_r.
  - fold (sources l). by rewrite has_flag_lor_r, IH.
Qed.

Lemma active_mappings_from mappings mods type_mask a t :
  exists chosen,
    active_mappings mappings mods type_mask a t = (Z.lor a (sources chosen), Z.lor t (targets chosen)) /\
    sublist chosen mappings /\ Forall (applicable mods type_mask) chosen /\
    Forall (fun m => has_flag (mm_source m) a = false) chosen /\
    ForallOrdPairs (fun m m' => has_flag (mm_source m') (mm_source m) = false) chosen /\
    forall m, m ∈ mappings -> applicable mods type_mask m ->
      m ∈ chosen \/ has_flag (mm_source m) (Z.lor a (sources chosen)) = true.
Proof.
  revert a t. induction mappings as [|m mappings IH]; intros a t; cbn [active_mappings].
  { exists []. rewrite !Z.lor_0_r. split; [done|]. split; [constructor|].
    do 3 (split; [constructor|]). by intros m ?%not_elem_of_nil. }
  assert (applicable mods type_mask m <->
    (Z.land (mm_source m) mods =? mm_source m) && negb (has_flag (mm_source m) type_mask) = true) as Happ.
  { unfold applicable. rewrite andb_true_iff, Z.eqb_eq, negb_true_iff. done. }
  destruct (_ && _ && _) eqn:Hc.
  - apply andb_true_iff in Hc as [[Hm Hov]%andb_true_iff Ht].
    apply negb_true_iff in Hov.
    destruct (IH (Z.lor a (mm_source m)) (Z.lor t (mm_target m)))
      as (ch & -> & Hsub & Hall & Hdis & Hpw & Hmax).
    assert (forall m', m' ∈ ch -> has_flag (mm_source m') a = false /\
      has_flag (mm_source m') (mm_source m) = false) as Hch.
    { rewrite list.Forall_forall in Hdis. intros m' Hm'. specialize (Hdis m' Hm').
      by rewrite has_flag_lor_r, orb_false_iff in Hdis. }
    exists (m :: ch). cbn [sources targets foldr]. fold (sources ch) (targets ch).
    rewrite !Z.lor_assoc. split; [done|]. split; [by apply sublist_skip|].
    split; [apply Forall_cons_2; [apply Happ; by rewrite Hm, Ht | done]|].
    split; [apply Forall_cons_2; [done | apply list.Forall_forall; intros; by apply Hch]|].
    split; [constructor; [apply List.Forall_forall; intros m' Hm'%list_elem_of_In; by apply Hch | done]|].
    intros m' [->|Hm']%elem_of_cons Hap; [by left; left|].
    destruct (Hmax m' Hm' Hap) as [?|?]; [by left; right | by right].
  - destruct (IH a t) as (ch & -> & Hsub & Hall & Hdis & Hpw & Hmax). exists ch.
    split; [done|]. split; [by apply sublist_cons|]. do 3 (split; [done|]).
    intros m' [->|Hm']%elem_of_cons Hap; [|by apply Hmax]. right. rewrite has_flag_lor_r.
    apply Happ, andb_true_iff in Hap as [H1 H2]. rewrite H1, H2, andb_true_r in Hc. cbn in Hc.
    apply negb_false_iff in Hc. by rewrite Hc.
Qed.

(** The mappings that apply to a key are a maximal choice of mappings with
    disjoint sources, all active and not used by the type of the key. *)
Theorem active_mappings_spec mappings mods type_mask :
  exists chosen,
    active_mappings mappings mods type_mask 0 0 = (sources chosen, targets chosen) /\
    sublist chosen mappings /\ Forall (applicable mods type_mask) chosen /\
    ForallOrdPairs (fun m m' => has_flag (mm_source m') (mm_source m) = false) chosen /\
    forall m, m ∈ mappings -> applicable mods type_mask m ->
      m ∈ chosen \/ exists m', m' ∈ chosen /\ has_flag (mm_source m) (mm_source m') = true.
Proof.
  destruct (active_mappings_from mappings mods type_mask 0 0)
    as (ch & Heq & Hsub & Hall & _ & Hpw & Hmax).
  exists ch. rewrite !Z.lor_0_l in Heq. do 4 (split; [done|]).
  intros m Hm Hap. destruct (Hmax m Hm Hap) as [?|Hov]; [by left|right].
  rewrite Z.lor_0_l, has_flag_sources in Hov.
  apply existsb_exists in Hov as (m' & Hm' & Hf). exists m'. by rewrite list_elem_of_In.
Qed.

(** ** The layout of shortcuts *)

Lemma i32_congr x : exists q, i32 x = x + q * 2 ^ 32.
Proof.
  unfold i32, sext. pose proof (Z.div_mod x (2 ^ 32) ltac:(lia)).
  destruct (_ <? _); [exists (- (x / 2 ^ 32)) | exists (- (x / 2 ^ 32) - 1)]; lia.
Qed.

Lemma i32_add_mult x q : i32 (x + q * 2 ^ 32) = i32 x.
Proof. unfold i32, sext. by rewrite Z.mod_add by lia. Qed.

(** The layouts added back to the base layout of the tweak give the target. *)
Lemma i32_shift_back t l k :
  i32 (i32 (i32 (i32 (i32 t - l) - k) + l) + k) = i32 t.
Proof.
  destruct (i32_congr t) as [q1 E1]. rewrite E1 at 1. destruct (i32_congr (t + q1 * 2 ^ 32 - l)) as [q2 ->].
  destruct (i32_congr (t + q1 * 2 ^ 32 - l + q2 * 2 ^ 32 - k)) as [q3 ->].
  destruct (i32_congr (t + q1 * 2 ^ 32 - l + q2 * 2 ^ 32 - k + q3 * 2 ^ 32 + l)) as [q4 ->].
  rewrite <- (i32_add_mult t (q1 + q2 + q3 + q4)). f_equal. lia.
Qed.

Lemma shortcut_components_group s s0 c target :
  0 <= km_num_groups (st_keymap (ss_base s0)) <= XKB_MAX_GROUPS -> derived s0 ->
  ss_base s = st_set_components (ss_components s) (ss_base s0) ->
  latched_group (ss_components s) = latched_group (ss_components s0) ->
  locked_group (ss_components s) = locked_group (ss_components s0) ->
  latched_group c = latched_group (ss_components s0) ->
  locked_group c = locked_group (ss_components s0) ->
  0 <= target < km_num_groups (st_keymap (ss_base s0)) ->
  group (shortcut_components s c target) = target /\
  latched_group (shortcut_components s c target) = latched_group (ss_components s0) /\
  locked_group (shortcut_components s c target) = locked_group (ss_components s0).
Proof.
  intros Hn Hd Hs Hls Hks Hl Hk Ht. unfold shortcut_components, update_derived, led_update_all.
  rewrite Hs. cbn -[XkbWrapGroupIntoRange]. rewrite Hls, Hks, Hl, Hk, <- (der_locked _ _ Hd).
  pose proof (der_locked_range _ _ Hd) as Hr. fold (ss_components s0) in Hr |- *.
  rewrite (i32_id (locked_group _)) by (unfold is_i32, XKB_MAX_GROUPS in *; lia).
  rewrite i32_shift_back, i32_id by (unfold is_i32, XKB_MAX_GROUPS in *; lia).
  split; [|done]. apply wrap_or_0_fixed; lia.
Qed.

Lemma remap_tweak_frame cfg s key :
  0 <= km_num_groups (st_keymap (ss_base s)) <= XKB_MAX_GROUPS -> derived s ->
  exists t s1, remap_tweak cfg s key = (t, s1) /\
    ss_base s1 = st_set_components (ss_components s1) (ss_base s) /\
    latched_group (ss_components s1) = latched_group (ss_components s) /\
    locked_group (ss_components s1) = locked_group (ss_components s) /\
    latched_group (from_option fst (ss_components s1) t) = latched_group (ss_components s) /\
    locked_group (from_option fst (ss_components s1) t) = locked_group (ss_components s).
Proof.
  intros Hn Hd. unfold remap_tweak, remapped.
  assert (ss_base s = st_set_components (ss_components s) (ss_base s)) as Hrefl
    by by unfold ss_components; destruct (ss_base s).
  destruct (negb _); [by exists None, s|]. cbv zeta.
  destruct (item _ _) as [g|]; [|by exists None, s].
  destruct (active_mappings _ _ _ _ _) as [affect target].
  destruct (affect =? 0); [by exists None, s|]. eexists _, _. split; [reflexivity|].
  do 3 (split; [done|]).
  destruct (get_state_component_changes _ _ =? 0); [done|]. cbn [from_option fst].
  unfold update_derived, led_update_all. cbn -[XkbWrapGroupIntoRange].
  fold (ss_components s). rewrite <- (der_locked _ _ Hd). split; [done|].
  apply i32_id. pose proof (der_locked_range _ _ Hd). unfold is_i32, XKB_MAX_GROUPS in *. lia.
Qed.

(** With a modifier of the shortcuts, the key is processed in the target of
    the current layout, and the change announced shows that layout with the
    same latches and locks. *)
Theorem shortcuts_reach_target sm previous s key target :
  0 <= km_num_groups (st_keymap (ss_base s)) <= XKB_MAX_GROUPS -> derived s ->
  shortcut_target (sm_shortcuts sm) (ss_components (snd (remap_tweak (sm_modifiers sm) s key))) =
    Ok (Some target) ->
  0 <= target < km_num_groups (st_keymap (ss_base s)) ->
  exists c changed s',
    tweaks sm previous s key = Ok (Some (c, changed), s') /\
    group c = target /\ group (ss_components s') = target /\
    latched_group c = latched_group (ss_components s) /\
    locked_group c = locked_group (ss_components s).
Proof.
  intros Hn Hd Ht Hrange. unfold tweaks.
  destruct (remap_tweak_frame (sm_modifiers sm) s key Hn Hd)
    as (t & s1 & Hr & Hb & Hl & Hk & Hlt & Hkt).
  rewrite Hr in Ht |- *. cbn [snd] in Ht. rewrite Ht.
  destruct (shortcut_components_group s1 s (from_option fst (ss_components s1) t) target)
    as (Hg & Hl' & Hk'); [done..|].
  eexists _, _, _. split; [reflexivity|]. split; [exact Hg|]. split; [exact Hg|]. done.
Qed.

(** A machine of the sample keymap that maps Control to Shift and uses the
    first layout for the shortcuts with Control. *)
Definition sample_builder : xkb_machine_builder :=
  mk_builder sample_keymap 0 0 [mk_mapping Control Shift] Control [XKB_LAYOUT_INVALID; 0].

(** The second layout is locked, Control is held. *)
Definition sample_shortcut : xkb_server_state :=
  ss_set_base (xkb_state_update_derived
    (st_set_components (set_locked_group 1 (set_base_mods Control zero_components))
       (ss_base (sm_base (xkb_machine_new sample_builder)))))
    (sm_base (xkb_machine_new sample_builder)).

Lemma shortcuts_reach_target_witness :
  exists c changed s',
    tweaks (xkb_machine_new (b_set_mods [] sample_builder)) (ss_components sample_shortcut)
      sample_shortcut (letter_key 1 0x61 0x41) = Ok (Some (c, changed), s') /\
    group c = 0 /\ group (ss_components s') = 0 /\
    latched_group c = latched_group (ss_components sample_shortcut) /\
    locked_group c = locked_group (ss_components sample_shortcut).
Proof.
  apply (shortcuts_reach_target (xkb_machine_new (b_set_mods [] sample_builder))
    (ss_components sample_shortcut) sample_shortcut (letter_key 1 0x61 0x41) 0).
  - vm_compute. split; discriminate.
  - constructor; vm_compute; first [reflexivity | split; congruence].
  - vm_compute. reflexivity.
  - vm_compute. split; [discriminate | reflexivity].
Defined.

(** ** Safety *)

(** A key event on a reachable machine. *)
Lemma machine_key_ok km sm kc d evs :
  keymap_ok km -> overlays_wf km -> machine_reachable km sm ->
  match xkb_machine_process_key sm kc d evs with
  | Ok (e, (sm', _)) => e = XKB_SUCCESS /\ machine_reachable km sm'
  | Fault f => f = FaultUseAfterRealloc /\ d = KEY_UP /\
               sticky_on (mk_sctx (sm_base sm) (Some evs)) = true
  end.
Proof.
  intros Hkm Hov Hr. pose proof (machine_reachable_ok km sm Hkm Hov Hr) as Hok.
  pose proof (run_machine_wp _ _ _ _ _ (process_key_ok km Hkm Hov kc d (mk_mctx sm evs) Hok)) as H.
  fold (xkb_machine_process_key sm kc d evs) in H.
  destruct (xkb_machine_process_key sm kc d evs) as [[e [sm' evs']]|f] eqn:He; [|exact H].
  split; [apply H|]. eapply machine_reachable_step; [exact Hr|]. by eapply machine_step_key.
Qed.


Lemma sample_overlays_wf : overlays_wf sample_keymap.
Proof.
  assert (forall key, k_overlays key = 0 -> forall x, is_overlay x ->
    Z.testbit (k_overlays key) (x - 1) = true ->
    exists j, overlay_key_at key x = Some j /\ (j < 17)%nat) as H0.
  { intros key -> x _. by rewrite Z.testbit_0_l. }
  unfold overlays_wf. change (length (km_keys sample_keymap)) with 17%nat.
  repeat (apply Forall_cons_2; [try (by apply H0)|]); [|apply Forall_nil_2].
  intros x [Hx1 Hx8] _. exists 1%nat. split; [reflexivity | lia].
Qed.


(** ** The events *)


(** The machine and the events of a call that succeeds. *)
Definition after_key (sm : xkb_machine) (kc : Z) (d : xkb_key_direction) : xkb_machine * xkb_events :=
  match xkb_machine_process_key sm kc d empty_batch with
  | Ok (_, r) => r
  | Fault _ => (sm, empty_batch)
  end.


(** With a RedirectKey() action the mirror may be off: the key locks the second
    next of two layouts, that is the same one, and redirects.  The event that
    undoes the redirection shows the locked layout before it is wrapped, and no
    event corrects it. *)
Definition redirecting_key : xkb_key :=
  mk_simple_key 1 [mk_group one_level
    [mk_level 0 0 false [0] [act_group GROUP_LOCK 0 2; act_redirect (mk_redirect 0 Shift Shift)]]].

Theorem redirect_breaks_mirror :
  let km := mk_keymap XKB_KEYMAP_FORMAT_TEXT_V2 [] 0 1 2
    [mk_simple_key 0 []; redirecting_key] [] (km_mods sample_keymap) 0xff 2 [30; 31] in
  let sm := xkb_machine_new (mk_builder km 0 0 [] 0 []) in
  let (sm', evs) := after_key sm 1 KEY_DOWN in
  let s := apply_events (xkb_state_init km SERVER_COMPANION) (ev_queue evs) in
  ss_components (sm_base sm') = ss_components (sm_base sm) /\
  locked_group (ss_components (sm_base sm')) = 0 /\ locked_group (st_components s) = 2.
Proof. by vm_compute. Qed.

(** The batch of a key that is not overlaid and does not redirect is exactly:
    the change to the tweaked state, if a tweak applies, the key, the change
    back, and the change made by the actions, if any. *)
Theorem plain_key_events sm kc i key d evs e sm' evs' :
  let s := sm_base sm in
  XkbKey (st_keymap (ss_base s)) kc = Some i -> key_at (st_keymap (ss_base s)) i = Some key ->
  key_plain key -> no_redirect (mk_sctx s (Some empty_batch)) ->
  (d = KEY_REPEATED -> k_repeats key = true) -> breaks_sticky_keys s d = false ->
  k_overlays key = 0 ->
  xkb_machine_process_key sm kc d evs = Ok (e, (sm', evs')) ->
  exists t s', tweaks sm (ss_components s) s key = Ok (t, s') /\
    evs' = mk_events 0
      (key_batch (ss_components s) t d (k_keycode key) (ss_components (sm_base sm'))).
Proof.
  intros s Hi Hk Hplain Hno Hrep Hbreak Hov He.
  assert (wp (process_key kc d) (mk_mctx sm evs) any_fault (fun _ x' =>
    exists t s', tweaks sm (ss_components s) s key = Ok (t, s') /\
      mx_events x' = mk_events 0 (key_batch (ss_components s) t d (k_keycode key)
                                    (ss_components (sm_base (mx_sm x')))))) as H.
  { unfold process_key. apply wp_bind, wp_modify, wp_bind, wp_gets. cbn [mx_sm mx_events]. cbv zeta.
    fold s. rewrite Hi, Hk. apply wp_if; intros Hc.
    { apply andb_true_iff in Hc as [Hd%bool_decide_eq_true Hr]. rewrite Hrep in Hr by done. done. }
    rewrite Hbreak, Hov. apply wp_bind, wp_ret, wp_bind, wp_ret. rewrite Hk. apply wp_bind.
    eapply wp_mono; [by apply process_machine_key_silent | done |].
    intros ? x' Hx'. by apply wp_ret. }
  apply run_machine_wp in H. unfold xkb_machine_process_key in He. by rewrite He in H.
Qed.

(** Control is locked: with the mapping to Shift, the letter is pressed with
    Shift instead. *)
Definition control_machine : xkb_machine :=
  sm_set_base (ss_set_base (xkb_state_update_derived
    (st_set_components (set_locked_mods Control zero_components)
      (ss_base (sm_base (xkb_machine_new sample_builder)))))
    (sm_base (xkb_machine_new sample_builder))) (xkb_machine_new sample_builder).

Lemma plain_key_events_witness :
  exists t s',
    tweaks control_machine (ss_components (sm_base control_machine)) (sm_base control_machine)
      (letter_key 5000 0x7a 0x5a) = Ok (t, s') /\
    snd (after_key control_machine 5000 KEY_DOWN) = mk_events 0
      (key_batch (ss_components (sm_base control_machine)) t KEY_DOWN 5000
         (ss_components (sm_base (fst (after_key control_machine 5000 KEY_DOWN))))).
Proof.
  refine (plain_key_events control_machine 5000 16 (letter_key 5000 0x7a 0x5a) KEY_DOWN empty_batch
    XKB_SUCCESS (fst (after_key control_machine 5000 KEY_DOWN))
    (snd (after_key control_machine 5000 KEY_DOWN)) _ _ _ _ _ _ _ _).
  - vm_compute. reflexivity.
  - reflexivity.
  - repeat constructor.
  - apply Forall_nil_2.
  - discriminate.
  - vm_compute. reflexivity.
  - reflexivity.
  - vm_compute. reflexivity.
Defined.

(** [xkb_machine_process_synthetic] adds to the batch it is given and leaves
    the position of the reader: unlike [xkb_machine_process_key] it does not
    reset it. *)
Theorem process_synthetic_not_reset :
  let sm := xkb_machine_new sample_builder in
  let u := mk_state_update (mk_abi 24 (repeat 0 24))
    (Some (mk_abi 48 (repeat 0 48), mk_components_update XKB_STATE_MODS_LOCKED 0 0 Lock Lock 0 0 0 0))
    None in
  let old := mk_events 1 [EvKey KEY_DOWN 5000] in
  match xkb_machine_process_synthetic sm u old with
  | Ok (e, (_, evs)) =>
      e = XKB_SUCCESS /\ ev_next evs = 1%nat /\ length (ev_queue evs) = 2%nat /\
      ev_queue evs !! 0%nat = Some (EvKey KEY_DOWN 5000)
  | Fault _ => False
  end.
Proof. vm_compute. auto. Qed.
