(* ===== verification/KeysymNames.v ===== *)
(** * Tables of keysym names (src/keysym-names.h)

    The tables of the generated header, entry for entry, and the case mapping
    of utils.c. *)

From Stdlib Require Import ZArith String.
From stdpp Require Import base list.
From S2P Require Import Prelude Numbers.

(** [struct name_keysym]: keysym and offset of the name. *)
Record name_keysym := mk_name { nk_keysym : Z; nk_offset : Z }.

(** [struct deprecated_keysym]. *)
Record deprecated_keysym := mk_deprecated {
  dk_keysym : Z;
  dk_offset : Z;
  dk_explicit_index : Z;
  dk_explicit_count : Z
}.

Definition UNICODE_KEYSYM : Z := 0xfffe.
Definition DEPRECATED_KEYSYM : Z := 0xffff.

(** The bytes of a string literal. *)
Definition bytes_of (s : string) : list Z :=
  List.map (fun c => Z.of_N (Ascii.N_of_ascii c)) (list_ascii_of_string s).

Definition keysym_name_list : list string :=
  [ "0"%string; "1"%string; "2"%string;
    "3"%string; "3270_AltCursor"%string; "3270_Attn"%string;
    "3270_BackTab"%string; "3270_ChangeScreen"%string; "3270_Copy"%string;
    "3270_CursorBlink"%string; "3270_CursorSelect"%string; "3270_DeleteWord"%string;
    "3270_Duplicate"%string; "3270_Enter"%string; "3270_EraseEOF"%string;
    "3270_EraseInput"%string; "3270_ExSelect"%string; "3270_FieldMark"%string;
    "3270_Ident"%string; "3270_Jump"%string; "3270_KeyClick"%string;
    "3270_Left2"%string; "3270_PA1"%string; "3270_PA2"%string;
    "3270_PA3"%string; "3270_Play"%string; "3270_PrintScreen"%string;
    "3270_Quit"%string; "3270_Record"%string; "3270_Reset"%string;
    "3270_Right2"%string; "3270_Rule"%string; "3270_Setup"%string;
    "3270_Test"%string; "4"%string; "5"%string;
    "6"%string; "7"%string; "8"%string;
    "9"%string; "A"%string; "a"%string;
    "Aacute"%string; "aacute"%string; "Abelowdot"%string;
    "abelowdot"%string; "abovedot"%string; "Abreve"%string;
    "abreve"%string; "Abreveacute"%string; "abreveacute"%string;
    "Abrevebelowdot"%string; "abrevebelowdot"%string; "Abrevegrave"%string;
    "abrevegrave"%string; "Abrevehook"%string; "abrevehook"%string;
    "Abrevetilde"%string; "abrevetilde"%string; "AccessX_Enable"%string;
    "AccessX_Feedback_Enable"%string; "Acircumflex"%string; "acircumflex"%string;
    "Acircumflexacute"%string; "acircumflexacute"%string; "Acircumflexbelowdot"%string;
    "acircumflexbelowdot"%string; "Acircumflexgrave"%string; "acircumflexgrave"%string;
    "Acircumflexhook"%string; "acircumflexhook"%string; "Acircumflextilde"%string;
    "acircumflextilde"%string; "acute"%string; "Adiaeresis"%string;
    "adiaeresis"%string; "AE"%string; "ae"%string;
    "Agrave"%string; "agrave"%string; "Ahook"%string;
    "ahook"%string; "Alt_L"%string; "Alt_R"%string;
    "Amacron"%string; "amacron"%string; "ampersand"%string;
    "Aogonek"%string; "aogonek"%string; "apostrophe"%string;
    "approxeq"%string; "approximate"%string; "Arabic_0"%string;
    "Arabic_1"%string; "Arabic_2"%string; "Arabic_3"%string;
    "Arabic_4"%string; "Arabic_5"%string; "Arabic_6"%string;
    "Arabic_7"%string; "Arabic_8"%string; "Arabic_9"%string;
    "Arabic_ain"%string; "Arabic_alef"%string; "Arabic_alefmaksura"%string;
    "Arabic_beh"%string; "Arabic_comma"%string; "Arabic_dad"%string;
    "Arabic_dal"%string; "Arabic_damma"%string; "Arabic_dammatan"%string;
    "Arabic_ddal"%string; "Arabic_farsi_yeh"%string; "Arabic_fatha"%string;
    "Arabic_fathatan"%string; "Arabic_feh"%string; "Arabic_fullstop"%string;
    "Arabic_gaf"%string; "Arabic_ghain"%string; "Arabic_ha"%string;
    "Arabic_hah"%string; "Arabic_hamza"%string; "Arabic_hamza_above"%string;
    "Arabic_hamza_below"%string; "Arabic_hamzaonalef"%string; "Arabic_hamzaonwaw"%string;
    "Arabic_hamzaonyeh"%string; "Arabic_hamzaunderalef"%string; "Arabic_heh"%string;
    "Arabic_heh_doachashmee"%string; "Arabic_heh_goal"%string; "Arabic_jeem"%string;
    "Arabic_jeh"%string; "Arabic_kaf"%string; "Arabic_kasra"%string;
    "Arabic_kasratan"%string; "Arabic_keheh"%string; "Arabic_khah"%string;
    "Arabic_lam"%string; "Arabic_madda_above"%string; "Arabic_maddaonalef"%string;
    "Arabic_meem"%string; "Arabic_noon"%string; "Arabic_noon_ghunna"%string;
    "Arabic_peh"%string; "Arabic_percent"%string; "Arabic_qaf"%string;
    "Arabic_question_mark"%string; "Arabic_ra"%string; "Arabic_rreh"%string;
    "Arabic_sad"%string; "Arabic_seen"%string; "Arabic_semicolon"%string;
    "Arabic_shadda"%string; "Arabic_sheen"%string; "Arabic_sukun"%string;
    "Arabic_superscript_alef"%string; "Arabic_switch"%string; "Arabic_tah"%string;
    "Arabic_tatweel"%string; "Arabic_tcheh"%string; "Arabic_teh"%string;
    "Arabic_tehmarbuta"%string; "Arabic_thal"%string; "Arabic_theh"%string;
    "Arabic_tteh"%string; "Arabic_veh"%string; "Arabic_waw"%string;
    "Arabic_yeh"%string; "Arabic_yeh_baree"%string; "Arabic_zah"%string;
    "Arabic_zain"%string; "Aring"%string; "aring"%string;
    "Armenian_accent"%string; "Armenian_amanak"%string; "Armenian_apostrophe"%string;
    "Armenian_AT"%string; "Armenian_at"%string; "Armenian_AYB"%string;
    "Armenian_ayb"%string; "Armenian_BEN"%string; "Armenian_ben"%string;
    "Armenian_but"%string; "Armenian_CHA"%string; "Armenian_cha"%string;
    "Armenian_DA"%string; "Armenian_da"%string; "Armenian_DZA"%string;
    "Armenian_dza"%string; "Armenian_E"%string; "Armenian_e"%string;
    "Armenian_exclam"%string; "Armenian_FE"%string; "Armenian_fe"%string;
    "Armenian_full_stop"%string; "Armenian_GHAT"%string; "Armenian_ghat"%string;
    "Armenian_GIM"%string; "Armenian_gim"%string; "Armenian_HI"%string;
    "Armenian_hi"%string; "Armenian_HO"%string; "Armenian_ho"%string;
    "Armenian_hyphen"%string; "Armenian_INI"%string; "Armenian_ini"%string;
    "Armenian_JE"%string; "Armenian_je"%string; "Armenian_KE"%string;
    "Armenian_ke"%string; "Armenian_KEN"%string; "Armenian_ken"%string;
    "Armenian_KHE"%string; "Armenian_khe"%string; "Armenian_ligature_ew"%string;
    "Armenian_LYUN"%string; "Armenian_lyun"%string; "Armenian_MEN"%string;
    "Armenian_men"%string; "Armenian_NU"%string; "Armenian_nu"%string;
    "Armenian_O"%string; "Armenian_o"%string; "Armenian_paruyk"%string;
    "Armenian_PE"%string; "Armenian_pe"%string; "Armenian_PYUR"%string;
    "Armenian_pyur"%string; "Armenian_question"%string; "Armenian_RA"%string;
    "Armenian_ra"%string; "Armenian_RE"%string; "Armenian_re"%string;
    "Armenian_SE"%string; "Armenian_se"%string; "Armenian_separation_mark"%string;
    "Armenian_SHA"%string; "Armenian_sha"%string; "Armenian_shesht"%string;
    "Armenian_TCHE"%string; "Armenian_tche"%string; "Armenian_TO"%string;
    "Armenian_to"%string; "Armenian_TSA"%string; "Armenian_tsa"%string;
    "Armenian_TSO"%string; "Armenian_tso"%string; "Armenian_TYUN"%string;
    "Armenian_tyun"%string; "Armenian_verjaket"%string; "Armenian_VEV"%string;
    "Armenian_vev"%string; "Armenian_VO"%string; "Armenian_vo"%string;
    "Armenian_VYUN"%string; "Armenian_vyun"%string; "Armenian_YECH"%string;
    "Armenian_yech"%string; "Armenian_yentamna"%string; "Armenian_ZA"%string;
    "Armenian_za"%string; "Armenian_ZHE"%string; "Armenian_zhe"%string;
    "asciicircum"%string; "asciitilde"%string; "asterisk"%string;
    "at"%string; "Atilde"%string; "atilde"%string;
    "AudibleBell_Enable"%string; "B"%string; "b"%string;
    "Babovedot"%string; "babovedot"%string; "backslash"%string;
    "BackSpace"%string; "BackTab"%string; "ballotcross"%string;
    "bar"%string; "because"%string; "Begin"%string;
    "blank"%string; "block"%string; "botintegral"%string;
    "botleftparens"%string; "botleftsqbracket"%string; "botleftsummation"%string;
    "botrightparens"%string; "botrightsqbracket"%string; "botrightsummation"%string;
    "bott"%string; "botvertsummationconnector"%string; "BounceKeys_Enable"%string;
    "braceleft"%string; "braceright"%string; "bracketleft"%string;
    "bracketright"%string; "braille_blank"%string; "braille_dot_1"%string;
    "braille_dot_10"%string; "braille_dot_2"%string; "braille_dot_3"%string;
    "braille_dot_4"%string; "braille_dot_5"%string; "braille_dot_6"%string;
    "braille_dot_7"%string; "braille_dot_8"%string; "braille_dot_9"%string;
    "braille_dots_1"%string; "braille_dots_12"%string; "braille_dots_123"%string;
    "braille_dots_1234"%string; "braille_dots_12345"%string; "braille_dots_123456"%string;
    "braille_dots_1234567"%string; "braille_dots_12345678"%string; "braille_dots_1234568"%string;
    "braille_dots_123457"%string; "braille_dots_1234578"%string; "braille_dots_123458"%string;
    "braille_dots_12346"%string; "braille_dots_123467"%string; "braille_dots_1234678"%string;
    "braille_dots_123468"%string; "braille_dots_12347"%string; "braille_dots_123478"%string;
    "braille_dots_12348"%string; "braille_dots_1235"%string; "braille_dots_12356"%string;
    "braille_dots_123567"%string; "braille_dots_1235678"%string; "braille_dots_123568"%string;
    "braille_dots_12357"%string; "braille_dots_123578"%string; "braille_dots_12358"%string;
    "braille_dots_1236"%string; "braille_dots_12367"%string; "braille_dots_123678"%string;
    "braille_dots_12368"%string; "braille_dots_1237"%string; "braille_dots_12378"%string;
    "braille_dots_1238"%string; "braille_dots_124"%string; "braille_dots_1245"%string;
    "braille_dots_12456"%string; "braille_dots_124567"%string; "braille_dots_1245678"%string;
    "braille_dots_124568"%string; "braille_dots_12457"%string; "braille_dots_124578"%string;
    "braille_dots_12458"%string; "braille_dots_1246"%string; "braille_dots_12467"%string;
    "braille_dots_124678"%string; "braille_dots_12468"%string; "braille_dots_1247"%string;
    "braille_dots_12478"%string; "braille_dots_1248"%string; "braille_dots_125"%string;
    "braille_dots_1256"%string; "braille_dots_12567"%string; "braille_dots_125678"%string;
    "braille_dots_12568"%string; "braille_dots_1257"%string; "braille_dots_12578"%string;
    "braille_dots_1258"%string; "braille_dots_126"%string; "braille_dots_1267"%string;
    "braille_dots_12678"%string; "braille_dots_1268"%string; "braille_dots_127"%string;
    "braille_dots_1278"%string; "braille_dots_128"%string; "braille_dots_13"%string;
    "braille_dots_134"%string; "braille_dots_1345"%string; "braille_dots_13456"%string;
    "braille_dots_134567"%string; "braille_dots_1345678"%string; "braille_dots_134568"%string;
    "braille_dots_13457"%string; "braille_dots_134578"%string; "braille_dots_13458"%string;
    "braille_dots_1346"%string; "braille_dots_13467"%string; "braille_dots_134678"%string;
    "braille_dots_13468"%string; "braille_dots_1347"%string; "braille_dots_13478"%string;
    "braille_dots_1348"%string; "braille_dots_135"%string; "braille_dots_1356"%string;
    "braille_dots_13567"%string; "braille_dots_135678"%string; "braille_dots_13568"%string;
    "braille_dots_1357"%string; "braille_dots_13578"%string; "braille_dots_1358"%string;
    "braille_dots_136"%string; "braille_dots_1367"%string; "braille_dots_13678"%string;
    "braille_dots_1368"%string; "braille_dots_137"%string; "braille_dots_1378"%string;
    "braille_dots_138"%string; "braille_dots_14"%string; "braille_dots_145"%string;
    "braille_dots_1456"%string; "braille_dots_14567"%string; "braille_dots_145678"%string;
    "braille_dots_14568"%string; "braille_dots_1457"%string; "braille_dots_14578"%string;
    "braille_dots_1458"%string; "braille_dots_146"%string; "braille_dots_1467"%string;
    "braille_dots_14678"%string; "braille_dots_1468"%string; "braille_dots_147"%string;
    "braille_dots_1478"%string; "braille_dots_148"%string; "braille_dots_15"%string;
    "braille_dots_156"%string; "braille_dots_1567"%string; "braille_dots_15678"%string;
    "braille_dots_1568"%string; "braille_dots_157"%string; "braille_dots_1578"%string;
    "braille_dots_158"%string; "braille_dots_16"%string; "braille_dots_167"%string;
    "braille_dots_1678"%string; "braille_dots_168"%string; "braille_dots_17"%string;
    "braille_dots_178"%string; "braille_dots_18"%string; "braille_dots_2"%string;
    "braille_dots_23"%string; "braille_dots_234"%string; "braille_dots_2345"%string;
    "braille_dots_23456"%string; "braille_dots_234567"%string; "braille_dots_2345678"%string;
    "braille_dots_234568"%string; "braille_dots_23457"%string; "braille_dots_234578"%string;
    "braille_dots_23458"%string; "braille_dots_2346"%string; "braille_dots_23467"%string;
    "braille_dots_234678"%string; "braille_dots_23468"%string; "braille_dots_2347"%string;
    "braille_dots_23478"%string; "braille_dots_2348"%string; "braille_dots_235"%string;
    "braille_dots_2356"%string; "braille_dots_23567"%string; "braille_dots_235678"%string;
    "braille_dots_23568"%string; "braille_dots_2357"%string; "braille_dots_23578"%string;
    "braille_dots_2358"%string; "braille_dots_236"%string; "braille_dots_2367"%string;
    "braille_dots_23678"%string; "braille_dots_2368"%string; "braille_dots_237"%string;
    "braille_dots_2378"%string; "braille_dots_238"%string; "braille_dots_24"%string;
    "braille_dots_245"%string; "braille_dots_2456"%string; "braille_dots_24567"%string;
    "braille_dots_245678"%string; "braille_dots_24568"%string; "braille_dots_2457"%string;
    "braille_dots_24578"%string; "braille_dots_2458"%string; "braille_dots_246"%string;
    "braille_dots_2467"%string; "braille_dots_24678"%string; "braille_dots_2468"%string;
    "braille_dots_247"%string; "braille_dots_2478"%string; "braille_dots_248"%string;
    "braille_dots_25"%string; "braille_dots_256"%string; "braille_dots_2567"%string;
    "braille_dots_25678"%string; "braille_dots_2568"%string; "braille_dots_257"%string;
    "braille_dots_2578"%string; "braille_dots_258"%string; "braille_dots_26"%string;
    "braille_dots_267"%string; "braille_dots_2678"%string; "braille_dots_268"%string;
    "braille_dots_27"%string; "braille_dots_278"%string; "braille_dots_28"%string;
    "braille_dots_3"%string; "braille_dots_34"%string; "braille_dots_345"%string;
    "braille_dots_3456"%string; "braille_dots_34567"%string; "braille_dots_345678"%string;
    "braille_dots_34568"%string; "braille_dots_3457"%string; "braille_dots_34578"%string;
    "braille_dots_3458"%string; "braille_dots_346"%string; "braille_dots_3467"%string;
    "braille_dots_34678"%string; "braille_dots_3468"%string; "braille_dots_347"%string;
    "braille_dots_3478"%string; "braille_dots_348"%string; "braille_dots_35"%string;
    "braille_dots_356"%string; "braille_dots_3567"%string; "braille_dots_35678"%string;
    "braille_dots_3568"%string; "braille_dots_357"%string; "braille_dots_3578"%string;
    "braille_dots_358"%string; "braille_dots_36"%string; "braille_dots_367"%string;
    "braille_dots_3678"%string; "braille_dots_368"%string; "braille_dots_37"%string;
    "braille_dots_378"%string; "braille_dots_38"%string; "braille_dots_4"%string;
    "braille_dots_45"%string; "braille_dots_456"%string; "braille_dots_4567"%string;
    "braille_dots_45678"%string; "braille_dots_4568"%string; "braille_dots_457"%string;
    "braille_dots_4578"%string; "braille_dots_458"%string; "braille_dots_46"%string;
    "braille_dots_467"%string; "braille_dots_4678"%string; "braille_dots_468"%string;
    "braille_dots_47"%string; "braille_dots_478"%string; "braille_dots_48"%string;
    "braille_dots_5"%string; "braille_dots_56"%string; "braille_dots_567"%string;
    "braille_dots_5678"%string; "braille_dots_568"%string; "braille_dots_57"%string;
    "braille_dots_578"%string; "braille_dots_58"%string; "braille_dots_6"%string;
    "braille_dots_67"%string; "braille_dots_678"%string; "braille_dots_68"%string;
    "braille_dots_7"%string; "braille_dots_78"%string; "braille_dots_8"%string;
    "Break"%string; "breve"%string; "brokenbar"%string;
    "Byelorussian_SHORTU"%string; "Byelorussian_shortu"%string; "C"%string;
    "c"%string; "C_H"%string; "C_h"%string;
    "c_h"%string; "Cabovedot"%string; "cabovedot"%string;
    "Cacute"%string; "cacute"%string; "Cancel"%string;
    "Caps_Lock"%string; "careof"%string; "caret"%string;
    "caron"%string; "Ccaron"%string; "ccaron"%string;
    "Ccedilla"%string; "ccedilla"%string; "Ccircumflex"%string;
    "ccircumflex"%string; "cedilla"%string; "cent"%string;
    "CH"%string; "Ch"%string; "ch"%string;
    "checkerboard"%string; "checkmark"%string; "circle"%string;
    "Clear"%string; "ClearLine"%string; "club"%string;
    "Codeinput"%string; "colon"%string; "ColonSign"%string;
    "combining_acute"%string; "combining_belowdot"%string; "combining_grave"%string;
    "combining_hook"%string; "combining_tilde"%string; "comma"%string;
    "containsas"%string; "Control_L"%string; "Control_R"%string;
    "copyright"%string; "cr"%string; "crossinglines"%string;
    "CruzeiroSign"%string; "cuberoot"%string; "currency"%string;
    "cursor"%string; "Cyrillic_A"%string; "Cyrillic_a"%string;
    "Cyrillic_BE"%string; "Cyrillic_be"%string; "Cyrillic_CHE"%string;
    "Cyrillic_che"%string; "Cyrillic_CHE_descender"%string; "Cyrillic_che_descender"%string;
    "Cyrillic_CHE_vertstroke"%string; "Cyrillic_che_vertstroke"%string; "Cyrillic_DE"%string;
    "Cyrillic_de"%string; "Cyrillic_DZHE"%string; "Cyrillic_dzhe"%string;
    "Cyrillic_E"%string; "Cyrillic_e"%string; "Cyrillic_EF"%string;
    "Cyrillic_ef"%string; "Cyrillic_EL"%string; "Cyrillic_el"%string;
    "Cyrillic_EM"%string; "Cyrillic_em"%string; "Cyrillic_EN"%string;
    "Cyrillic_en"%string; "Cyrillic_EN_descender"%string; "Cyrillic_en_descender"%string;
    "Cyrillic_ER"%string; "Cyrillic_er"%string; "Cyrillic_ES"%string;
    "Cyrillic_es"%string; "Cyrillic_GHE"%string; "Cyrillic_ghe"%string;
    "Cyrillic_GHE_bar"%string; "Cyrillic_ghe_bar"%string; "Cyrillic_HA"%string;
    "Cyrillic_ha"%string; "Cyrillic_HA_descender"%string; "Cyrillic_ha_descender"%string;
    "Cyrillic_HARDSIGN"%string; "Cyrillic_hardsign"%string; "Cyrillic_I"%string;
    "Cyrillic_i"%string; "Cyrillic_I_macron"%string; "Cyrillic_i_macron"%string;
    "Cyrillic_IE"%string; "Cyrillic_ie"%string; "Cyrillic_IO"%string;
    "Cyrillic_io"%string; "Cyrillic_JE"%string; "Cyrillic_je"%string;
    "Cyrillic_KA"%string; "Cyrillic_ka"%string; "Cyrillic_KA_descender"%string;
    "Cyrillic_ka_descender"%string; "Cyrillic_KA_vertstroke"%string; "Cyrillic_ka_vertstroke"%string;
    "Cyrillic_LJE"%string; "Cyrillic_lje"%string; "Cyrillic_NJE"%string;
    "Cyrillic_nje"%string; "Cyrillic_O"%string; "Cyrillic_o"%string;
    "Cyrillic_O_bar"%string; "Cyrillic_o_bar"%string; "Cyrillic_PE"%string;
    "Cyrillic_pe"%string; "Cyrillic_SCHWA"%string; "Cyrillic_schwa"%string;
    "Cyrillic_SHA"%string; "Cyrillic_sha"%string; "Cyrillic_SHCHA"%string;
    "Cyrillic_shcha"%string; "Cyrillic_SHHA"%string; "Cyrillic_shha"%string;
    "Cyrillic_SHORTI"%string; "Cyrillic_shorti"%string; "Cyrillic_SOFTSIGN"%string;
    "Cyrillic_softsign"%string; "Cyrillic_TE"%string; "Cyrillic_te"%string;
    "Cyrillic_TSE"%string; "Cyrillic_tse"%string; "Cyrillic_U"%string;
    "Cyrillic_u"%string; "Cyrillic_U_macron"%string; "Cyrillic_u_macron"%string;
    "Cyrillic_U_straight"%string; "Cyrillic_u_straight"%string; "Cyrillic_U_straight_bar"%string;
    "Cyrillic_u_straight_bar"%string; "Cyrillic_VE"%string; "Cyrillic_ve"%string;
    "Cyrillic_YA"%string; "Cyrillic_ya"%string; "Cyrillic_YERU"%string;
    "Cyrillic_yeru"%string; "Cyrillic_YU"%string; "Cyrillic_yu"%string;
    "Cyrillic_ZE"%string; "Cyrillic_ze"%string; "Cyrillic_ZHE"%string;
    "Cyrillic_zhe"%string; "Cyrillic_ZHE_descender"%string; "Cyrillic_zhe_descender"%string;
    "D"%string; "d"%string; "Dabovedot"%string;
    "dabovedot"%string; "Dacute_accent"%string; "dagger"%string;
    "Dcaron"%string; "dcaron"%string; "Dcedilla_accent"%string;
    "Dcircumflex_accent"%string; "Ddiaeresis"%string; "dead_A"%string;
    "dead_a"%string; "dead_abovecomma"%string; "dead_abovedot"%string;
    "dead_abovereversedcomma"%string; "dead_abovering"%string; "dead_aboveverticalline"%string;
    "dead_acute"%string; "dead_apostrophe"%string; "dead_belowbreve"%string;
    "dead_belowcircumflex"%string; "dead_belowcomma"%string; "dead_belowdiaeresis"%string;
    "dead_belowdot"%string; "dead_belowmacron"%string; "dead_belowring"%string;
    "dead_belowtilde"%string; "dead_belowverticalline"%string; "dead_breve"%string;
    "dead_capital_schwa"%string; "dead_caron"%string; "dead_cedilla"%string;
    "dead_circumflex"%string; "dead_currency"%string; "dead_dasia"%string;
    "dead_diaeresis"%string; "dead_doubleacute"%string; "dead_doublegrave"%string;
    "dead_E"%string; "dead_e"%string; "dead_grave"%string;
    "dead_greek"%string; "dead_hamza"%string; "dead_hook"%string;
    "dead_horn"%string; "dead_I"%string; "dead_i"%string;
    "dead_invertedbreve"%string; "dead_iota"%string; "dead_longsolidusoverlay"%string;
    "dead_lowline"%string; "dead_macron"%string; "dead_O"%string;
    "dead_o"%string; "dead_ogonek"%string; "dead_perispomeni"%string;
    "dead_psili"%string; "dead_SCHWA"%string; "dead_schwa"%string;
    "dead_semivoiced_sound"%string; "dead_small_schwa"%string; "dead_stroke"%string;
    "dead_tilde"%string; "dead_U"%string; "dead_u"%string;
    "dead_voiced_sound"%string; "decimalpoint"%string; "degree"%string;
    "Delete"%string; "DeleteChar"%string; "DeleteLine"%string;
    "Dgrave_accent"%string; "diaeresis"%string; "diamond"%string;
    "digitspace"%string; "dintegral"%string; "division"%string;
    "dollar"%string; "DongSign"%string; "doubbaselinedot"%string;
    "doubleacute"%string; "doubledagger"%string; "doublelowquotemark"%string;
    "Down"%string; "downarrow"%string; "downcaret"%string;
    "downshoe"%string; "downstile"%string; "downtack"%string;
    "DRemove"%string; "Dring_accent"%string; "Dstroke"%string;
    "dstroke"%string; "Dtilde"%string; "E"%string;
    "e"%string; "Eabovedot"%string; "eabovedot"%string;
    "Eacute"%string; "eacute"%string; "Ebelowdot"%string;
    "ebelowdot"%string; "Ecaron"%string; "ecaron"%string;
    "Ecircumflex"%string; "ecircumflex"%string; "Ecircumflexacute"%string;
    "ecircumflexacute"%string; "Ecircumflexbelowdot"%string; "ecircumflexbelowdot"%string;
    "Ecircumflexgrave"%string; "ecircumflexgrave"%string; "Ecircumflexhook"%string;
    "ecircumflexhook"%string; "Ecircumflextilde"%string; "ecircumflextilde"%string;
    "EcuSign"%string; "Ediaeresis"%string; "ediaeresis"%string;
    "Egrave"%string; "egrave"%string; "Ehook"%string;
    "ehook"%string; "eightsubscript"%string; "eightsuperior"%string;
    "Eisu_Shift"%string; "Eisu_toggle"%string; "elementof"%string;
    "ellipsis"%string; "em3space"%string; "em4space"%string;
    "Emacron"%string; "emacron"%string; "emdash"%string;
    "emfilledcircle"%string; "emfilledrect"%string; "emopencircle"%string;
    "emopenrectangle"%string; "emptyset"%string; "emspace"%string;
    "End"%string; "endash"%string; "enfilledcircbullet"%string;
    "enfilledsqbullet"%string; "ENG"%string; "eng"%string;
    "enopencircbullet"%string; "enopensquarebullet"%string; "enspace"%string;
    "Eogonek"%string; "eogonek"%string; "equal"%string;
    "Escape"%string; "ETH"%string; "Eth"%string;
    "eth"%string; "Etilde"%string; "etilde"%string;
    "EuroSign"%string; "exclam"%string; "exclamdown"%string;
    "Execute"%string; "Ext16bit_L"%string; "Ext16bit_R"%string;
    "EZH"%string; "ezh"%string; "F"%string;
    "f"%string; "F1"%string; "F10"%string;
    "F11"%string; "F12"%string; "F13"%string;
    "F14"%string; "F15"%string; "F16"%string;
    "F17"%string; "F18"%string; "F19"%string;
    "F2"%string; "F20"%string; "F21"%string;
    "F22"%string; "F23"%string; "F24"%string;
    "F25"%string; "F26"%string; "F27"%string;
    "F28"%string; "F29"%string; "F3"%string;
    "F30"%string; "F31"%string; "F32"%string;
    "F33"%string; "F34"%string; "F35"%string;
    "F4"%string; "F5"%string; "F6"%string;
    "F7"%string; "F8"%string; "F9"%string;
    "Fabovedot"%string; "fabovedot"%string; "Farsi_0"%string;
    "Farsi_1"%string; "Farsi_2"%string; "Farsi_3"%string;
    "Farsi_4"%string; "Farsi_5"%string; "Farsi_6"%string;
    "Farsi_7"%string; "Farsi_8"%string; "Farsi_9"%string;
    "Farsi_yeh"%string; "femalesymbol"%string; "ff"%string;
    "FFrancSign"%string; "figdash"%string; "filledlefttribullet"%string;
    "filledrectbullet"%string; "filledrighttribullet"%string; "filledtribulletdown"%string;
    "filledtribulletup"%string; "Find"%string; "First_Virtual_Screen"%string;
    "fiveeighths"%string; "fivesixths"%string; "fivesubscript"%string;
    "fivesuperior"%string; "fourfifths"%string; "foursubscript"%string;
    "foursuperior"%string; "fourthroot"%string; "function"%string;
    "G"%string; "g"%string; "Gabovedot"%string;
    "gabovedot"%string; "Gbreve"%string; "gbreve"%string;
    "Gcaron"%string; "gcaron"%string; "Gcedilla"%string;
    "gcedilla"%string; "Gcircumflex"%string; "gcircumflex"%string;
    "Georgian_an"%string; "Georgian_ban"%string; "Georgian_can"%string;
    "Georgian_char"%string; "Georgian_chin"%string; "Georgian_cil"%string;
    "Georgian_don"%string; "Georgian_en"%string; "Georgian_fi"%string;
    "Georgian_gan"%string; "Georgian_ghan"%string; "Georgian_hae"%string;
    "Georgian_har"%string; "Georgian_he"%string; "Georgian_hie"%string;
    "Georgian_hoe"%string; "Georgian_in"%string; "Georgian_jhan"%string;
    "Georgian_jil"%string; "Georgian_kan"%string; "Georgian_khar"%string;
    "Georgian_las"%string; "Georgian_man"%string; "Georgian_nar"%string;
    "Georgian_on"%string; "Georgian_par"%string; "Georgian_phar"%string;
    "Georgian_qar"%string; "Georgian_rae"%string; "Georgian_san"%string;
    "Georgian_shin"%string; "Georgian_tan"%string; "Georgian_tar"%string;
    "Georgian_un"%string; "Georgian_vin"%string; "Georgian_we"%string;
    "Georgian_xan"%string; "Georgian_zen"%string; "Georgian_zhar"%string;
    "grave"%string; "greater"%string; "greaterthanequal"%string;
    "Greek_accentdieresis"%string; "Greek_ALPHA"%string; "Greek_alpha"%string;
    "Greek_ALPHAaccent"%string; "Greek_alphaaccent"%string; "Greek_BETA"%string;
    "Greek_beta"%string; "Greek_CHI"%string; "Greek_chi"%string;
    "Greek_DELTA"%string; "Greek_delta"%string; "Greek_EPSILON"%string;
    "Greek_epsilon"%string; "Greek_EPSILONaccent"%string; "Greek_epsilonaccent"%string;
    "Greek_ETA"%string; "Greek_eta"%string; "Greek_ETAaccent"%string;
    "Greek_etaaccent"%string; "Greek_finalsmallsigma"%string; "Greek_GAMMA"%string;
    "Greek_gamma"%string; "Greek_horizbar"%string; "Greek_IOTA"%string;
    "Greek_iota"%string; "Greek_IOTAaccent"%string; "Greek_iotaaccent"%string;
    "Greek_iotaaccentdieresis"%string; "Greek_IOTAdiaeresis"%string; "Greek_IOTAdieresis"%string;
    "Greek_iotadieresis"%string; "Greek_KAPPA"%string; "Greek_kappa"%string;
    "Greek_LAMBDA"%string; "Greek_lambda"%string; "Greek_LAMDA"%string;
    "Greek_lamda"%string; "Greek_MU"%string; "Greek_mu"%string;
    "Greek_NU"%string; "Greek_nu"%string; "Greek_OMEGA"%string;
    "Greek_omega"%string; "Greek_OMEGAaccent"%string; "Greek_omegaaccent"%string;
    "Greek_OMICRON"%string; "Greek_omicron"%string; "Greek_OMICRONaccent"%string;
    "Greek_omicronaccent"%string; "Greek_PHI"%string; "Greek_phi"%string;
    "Greek_PI"%string; "Greek_pi"%string; "Greek_PSI"%string;
    "Greek_psi"%string; "Greek_RHO"%string; "Greek_rho"%string;
    "Greek_SIGMA"%string; "Greek_sigma"%string; "Greek_switch"%string;
    "Greek_TAU"%string; "Greek_tau"%string; "Greek_THETA"%string;
    "Greek_theta"%string; "Greek_UPSILON"%string; "Greek_upsilon"%string;
    "Greek_UPSILONaccent"%string; "Greek_upsilonaccent"%string; "Greek_upsilonaccentdieresis"%string;
    "Greek_UPSILONdieresis"%string; "Greek_upsilondieresis"%string; "Greek_XI"%string;
    "Greek_xi"%string; "Greek_ZETA"%string; "Greek_zeta"%string;
    "guilder"%string; "guillemetleft"%string; "guillemetright"%string;
    "guillemotleft"%string; "guillemotright"%string; "H"%string;
    "h"%string; "hairspace"%string; "Hangul"%string;
    "Hangul_A"%string; "Hangul_AE"%string; "Hangul_AraeA"%string;
    "Hangul_AraeAE"%string; "Hangul_Banja"%string; "Hangul_Cieuc"%string;
    "Hangul_Codeinput"%string; "Hangul_Dikeud"%string; "Hangul_E"%string;
    "Hangul_End"%string; "Hangul_EO"%string; "Hangul_EU"%string;
    "Hangul_Hanja"%string; "Hangul_Hieuh"%string; "Hangul_I"%string;
    "Hangul_Ieung"%string; "Hangul_J_Cieuc"%string; "Hangul_J_Dikeud"%string;
    "Hangul_J_Hieuh"%string; "Hangul_J_Ieung"%string; "Hangul_J_Jieuj"%string;
    "Hangul_J_Khieuq"%string; "Hangul_J_Kiyeog"%string; "Hangul_J_KiyeogSios"%string;
    "Hangul_J_KkogjiDalrinIeung"%string; "Hangul_J_Mieum"%string; "Hangul_J_Nieun"%string;
    "Hangul_J_NieunHieuh"%string; "Hangul_J_NieunJieuj"%string; "Hangul_J_PanSios"%string;
    "Hangul_J_Phieuf"%string; "Hangul_J_Pieub"%string; "Hangul_J_PieubSios"%string;
    "Hangul_J_Rieul"%string; "Hangul_J_RieulHieuh"%string; "Hangul_J_RieulKiyeog"%string;
    "Hangul_J_RieulMieum"%string; "Hangul_J_RieulPhieuf"%string; "Hangul_J_RieulPieub"%string;
    "Hangul_J_RieulSios"%string; "Hangul_J_RieulTieut"%string; "Hangul_J_Sios"%string;
    "Hangul_J_SsangKiyeog"%string; "Hangul_J_SsangSios"%string; "Hangul_J_Tieut"%string;
    "Hangul_J_YeorinHieuh"%string; "Hangul_Jamo"%string; "Hangul_Jeonja"%string;
    "Hangul_Jieuj"%string; "Hangul_Khieuq"%string; "Hangul_Kiyeog"%string;
    "Hangul_KiyeogSios"%string; "Hangul_KkogjiDalrinIeung"%string; "Hangul_Mieum"%string;
    "Hangul_MultipleCandidate"%string; "Hangul_Nieun"%string; "Hangul_NieunHieuh"%string;
    "Hangul_NieunJieuj"%string; "Hangul_O"%string; "Hangul_OE"%string;
    "Hangul_PanSios"%string; "Hangul_Phieuf"%string; "Hangul_Pieub"%string;
    "Hangul_PieubSios"%string; "Hangul_PostHanja"%string; "Hangul_PreHanja"%string;
    "Hangul_PreviousCandidate"%string; "Hangul_Rieul"%string; "Hangul_RieulHieuh"%string;
    "Hangul_RieulKiyeog"%string; "Hangul_RieulMieum"%string; "Hangul_RieulPhieuf"%string;
    "Hangul_RieulPieub"%string; "Hangul_RieulSios"%string; "Hangul_RieulTieut"%string;
    "Hangul_RieulYeorinHieuh"%string; "Hangul_Romaja"%string; "Hangul_SingleCandidate"%string;
    "Hangul_Sios"%string; "Hangul_Special"%string; "Hangul_SsangDikeud"%string;
    "Hangul_SsangJieuj"%string; "Hangul_SsangKiyeog"%string; "Hangul_SsangPieub"%string;
    "Hangul_SsangSios"%string; "Hangul_Start"%string; "Hangul_SunkyeongeumMieum"%string;
    "Hangul_SunkyeongeumPhieuf"%string; "Hangul_SunkyeongeumPieub"%string; "Hangul_switch"%string;
    "Hangul_Tieut"%string; "Hangul_U"%string; "Hangul_WA"%string;
    "Hangul_WAE"%string; "Hangul_WE"%string; "Hangul_WEO"%string;
    "Hangul_WI"%string; "Hangul_YA"%string; "Hangul_YAE"%string;
    "Hangul_YE"%string; "Hangul_YEO"%string; "Hangul_YeorinHieuh"%string;
    "Hangul_YI"%string; "Hangul_YO"%string; "Hangul_YU"%string;
    "Hankaku"%string; "Hcircumflex"%string; "hcircumflex"%string;
    "heart"%string; "hebrew_aleph"%string; "hebrew_ayin"%string;
    "hebrew_bet"%string; "hebrew_beth"%string; "hebrew_chet"%string;
    "hebrew_dalet"%string; "hebrew_daleth"%string; "hebrew_doublelowline"%string;
    "hebrew_finalkaph"%string; "hebrew_finalmem"%string; "hebrew_finalnun"%string;
    "hebrew_finalpe"%string; "hebrew_finalzade"%string; "hebrew_finalzadi"%string;
    "hebrew_gimel"%string; "hebrew_gimmel"%string; "hebrew_he"%string;
    "hebrew_het"%string; "hebrew_kaph"%string; "hebrew_kuf"%string;
    "hebrew_lamed"%string; "hebrew_mem"%string; "hebrew_nun"%string;
    "hebrew_pe"%string; "hebrew_qoph"%string; "hebrew_resh"%string;
    "hebrew_samech"%string; "hebrew_samekh"%string; "hebrew_shin"%string;
    "Hebrew_switch"%string; "hebrew_taf"%string; "hebrew_taw"%string;
    "hebrew_tet"%string; "hebrew_teth"%string; "hebrew_waw"%string;
    "hebrew_yod"%string; "hebrew_zade"%string; "hebrew_zadi"%string;
    "hebrew_zain"%string; "hebrew_zayin"%string; "Help"%string;
    "Henkan"%string; "Henkan_Mode"%string; "hexagram"%string;
    "Hiragana"%string; "Hiragana_Katakana"%string; "Home"%string;
    "horizconnector"%string; "horizlinescan1"%string; "horizlinescan3"%string;
    "horizlinescan5"%string; "horizlinescan7"%string; "horizlinescan9"%string;
    "hpBackTab"%string; "hpblock"%string; "hpClearLine"%string;
    "hpDeleteChar"%string; "hpDeleteLine"%string; "hpguilder"%string;
    "hpInsertChar"%string; "hpInsertLine"%string; "hpIO"%string;
    "hpKP_BackTab"%string; "hplira"%string; "hplongminus"%string;
    "hpModelock1"%string; "hpModelock2"%string; "hpmute_acute"%string;
    "hpmute_asciicircum"%string; "hpmute_asciitilde"%string; "hpmute_diaeresis"%string;
    "hpmute_grave"%string; "hpReset"%string; "hpSystem"%string;
    "hpUser"%string; "hpYdiaeresis"%string; "Hstroke"%string;
    "hstroke"%string; "ht"%string; "Hyper_L"%string;
    "Hyper_R"%string; "hyphen"%string; "I"%string;
    "i"%string; "Iabovedot"%string; "Iacute"%string;
    "iacute"%string; "Ibelowdot"%string; "ibelowdot"%string;
    "Ibreve"%string; "ibreve"%string; "Icircumflex"%string;
    "icircumflex"%string; "identical"%string; "Idiaeresis"%string;
    "idiaeresis"%string; "idotless"%string; "ifonlyif"%string;
    "Igrave"%string; "igrave"%string; "Ihook"%string;
    "ihook"%string; "Imacron"%string; "imacron"%string;
    "implies"%string; "includedin"%string; "includes"%string;
    "infinity"%string; "Insert"%string; "InsertChar"%string;
    "InsertLine"%string; "integral"%string; "intersection"%string;
    "IO"%string; "Iogonek"%string; "iogonek"%string;
    "ISO_Center_Object"%string; "ISO_Continuous_Underline"%string; "ISO_Discontinuous_Underline"%string;
    "ISO_Emphasize"%string; "ISO_Enter"%string; "ISO_Fast_Cursor_Down"%string;
    "ISO_Fast_Cursor_Left"%string; "ISO_Fast_Cursor_Right"%string; "ISO_Fast_Cursor_Up"%string;
    "ISO_First_Group"%string; "ISO_First_Group_Lock"%string; "ISO_Group_Latch"%string;
    "ISO_Group_Lock"%string; "ISO_Group_Shift"%string; "ISO_Last_Group"%string;
    "ISO_Last_Group_Lock"%string; "ISO_Left_Tab"%string; "ISO_Level2_Latch"%string;
    "ISO_Level3_Latch"%string; "ISO_Level3_Lock"%string; "ISO_Level3_Shift"%string;
    "ISO_Level5_Latch"%string; "ISO_Level5_Lock"%string; "ISO_Level5_Shift"%string;
    "ISO_Lock"%string; "ISO_Move_Line_Down"%string; "ISO_Move_Line_Up"%string;
    "ISO_Next_Group"%string; "ISO_Next_Group_Lock"%string; "ISO_Partial_Line_Down"%string;
    "ISO_Partial_Line_Up"%string; "ISO_Partial_Space_Left"%string; "ISO_Partial_Space_Right"%string;
    "ISO_Prev_Group"%string; "ISO_Prev_Group_Lock"%string; "ISO_Release_Both_Margins"%string;
    "ISO_Release_Margin_Left"%string; "ISO_Release_Margin_Right"%string; "ISO_Set_Margin_Left"%string;
    "ISO_Set_Margin_Right"%string; "Itilde"%string; "itilde"%string;
    "J"%string; "j"%string; "Jcircumflex"%string;
    "jcircumflex"%string; "jot"%string; "K"%string;
    "k"%string; "kana_A"%string; "kana_a"%string;
    "kana_CHI"%string; "kana_closingbracket"%string; "kana_comma"%string;
    "kana_conjunctive"%string; "kana_E"%string; "kana_e"%string;
    "kana_FU"%string; "kana_fullstop"%string; "kana_HA"%string;
    "kana_HE"%string; "kana_HI"%string; "kana_HO"%string;
    "kana_HU"%string; "kana_I"%string; "kana_i"%string;
    "kana_KA"%string; "kana_KE"%string; "kana_KI"%string;
    "kana_KO"%string; "kana_KU"%string; "Kana_Lock"%string;
    "kana_MA"%string; "kana_ME"%string; "kana_MI"%string;
    "kana_middledot"%string; "kana_MO"%string; "kana_MU"%string;
    "kana_N"%string; "kana_NA"%string; "kana_NE"%string;
    "kana_NI"%string; "kana_NO"%string; "kana_NU"%string;
    "kana_O"%string; "kana_o"%string; "kana_openingbracket"%string;
    "kana_RA"%string; "kana_RE"%string; "kana_RI"%string;
    "kana_RO"%string; "kana_RU"%string; "kana_SA"%string;
    "kana_SE"%string; "kana_SHI"%string; "Kana_Shift"%string;
    "kana_SO"%string; "kana_SU"%string; "kana_switch"%string;
    "kana_TA"%string; "kana_TE"%string; "kana_TI"%string;
    "kana_TO"%string; "kana_TSU"%string; "kana_tsu"%string;
    "kana_TU"%string; "kana_tu"%string; "kana_U"%string;
    "kana_u"%string; "kana_WA"%string; "kana_WO"%string;
    "kana_YA"%string; "kana_ya"%string; "kana_YO"%string;
    "kana_yo"%string; "kana_YU"%string; "kana_yu"%string;
    "Kanji"%string; "Kanji_Bangou"%string; "kappa"%string;
    "Katakana"%string; "Kcedilla"%string; "kcedilla"%string;
    "Korean_Won"%string; "KP_0"%string; "KP_1"%string;
    "KP_2"%string; "KP_3"%string; "KP_4"%string;
    "KP_5"%string; "KP_6"%string; "KP_7"%string;
    "KP_8"%string; "KP_9"%string; "KP_Add"%string;
    "KP_BackTab"%string; "KP_Begin"%string; "KP_Decimal"%string;
    "KP_Delete"%string; "KP_Divide"%string; "KP_Down"%string;
    "KP_End"%string; "KP_Enter"%string; "KP_Equal"%string;
    "KP_F1"%string; "KP_F2"%string; "KP_F3"%string;
    "KP_F4"%string; "KP_Home"%string; "KP_Insert"%string;
    "KP_Left"%string; "KP_Multiply"%string; "KP_Next"%string;
    "KP_Page_Down"%string; "KP_Page_Up"%string; "KP_Prior"%string;
    "KP_Right"%string; "KP_Separator"%string; "KP_Space"%string;
    "KP_Subtract"%string; "KP_Tab"%string; "KP_Up"%string;
    "kra"%string; "L"%string; "l"%string;
    "L1"%string; "L10"%string; "L2"%string;
    "L3"%string; "L4"%string; "L5"%string;
    "L6"%string; "L7"%string; "L8"%string;
    "L9"%string; "Lacute"%string; "lacute"%string;
    "Last_Virtual_Screen"%string; "latincross"%string; "Lbelowdot"%string;
    "lbelowdot"%string; "Lcaron"%string; "lcaron"%string;
    "Lcedilla"%string; "lcedilla"%string; "Left"%string;
    "leftanglebracket"%string; "leftarrow"%string; "leftcaret"%string;
    "leftdoublequotemark"%string; "leftmiddlecurlybrace"%string; "leftopentriangle"%string;
    "leftpointer"%string; "leftradical"%string; "leftshoe"%string;
    "leftsingleanglequotemark"%string; "leftsinglequotemark"%string; "leftt"%string;
    "lefttack"%string; "less"%string; "lessthanequal"%string;
    "lf"%string; "Linefeed"%string; "lira"%string;
    "LiraSign"%string; "logicaland"%string; "logicalor"%string;
    "longminus"%string; "lowleftcorner"%string; "lowrightcorner"%string;
    "Lstroke"%string; "lstroke"%string; "M"%string;
    "m"%string; "Mabovedot"%string; "mabovedot"%string;
    "Macedonia_DSE"%string; "Macedonia_dse"%string; "Macedonia_GJE"%string;
    "Macedonia_gje"%string; "Macedonia_KJE"%string; "Macedonia_kje"%string;
    "macron"%string; "Mae_Koho"%string; "malesymbol"%string;
    "maltesecross"%string; "marker"%string; "masculine"%string;
    "Massyo"%string; "Menu"%string; "Meta_L"%string;
    "Meta_R"%string; "MillSign"%string; "minus"%string;
    "minutes"%string; "Mode_switch"%string; "MouseKeys_Accel_Enable"%string;
    "MouseKeys_Enable"%string; "mu"%string; "Muhenkan"%string;
    "Multi_key"%string; "MultipleCandidate"%string; "multiply"%string;
    "musicalflat"%string; "musicalsharp"%string; "mute_acute"%string;
    "mute_asciicircum"%string; "mute_asciitilde"%string; "mute_diaeresis"%string;
    "mute_grave"%string; "N"%string; "n"%string;
    "nabla"%string; "Nacute"%string; "nacute"%string;
    "NairaSign"%string; "Ncaron"%string; "ncaron"%string;
    "Ncedilla"%string; "ncedilla"%string; "NewSheqelSign"%string;
    "Next"%string; "Next_Virtual_Screen"%string; "ninesubscript"%string;
    "ninesuperior"%string; "nl"%string; "nobreakspace"%string;
    "NoSymbol"%string; "notapproxeq"%string; "notelementof"%string;
    "notequal"%string; "notidentical"%string; "notsign"%string;
    "Ntilde"%string; "ntilde"%string; "Num_Lock"%string;
    "numbersign"%string; "numerosign"%string; "O"%string;
    "o"%string; "Oacute"%string; "oacute"%string;
    "Obarred"%string; "obarred"%string; "Obelowdot"%string;
    "obelowdot"%string; "Ocaron"%string; "ocaron"%string;
    "Ocircumflex"%string; "ocircumflex"%string; "Ocircumflexacute"%string;
    "ocircumflexacute"%string; "Ocircumflexbelowdot"%string; "ocircumflexbelowdot"%string;
    "Ocircumflexgrave"%string; "ocircumflexgrave"%string; "Ocircumflexhook"%string;
    "ocircumflexhook"%string; "Ocircumflextilde"%string; "ocircumflextilde"%string;
    "Odiaeresis"%string; "odiaeresis"%string; "Odoubleacute"%string;
    "odoubleacute"%string; "OE"%string; "oe"%string;
    "ogonek"%string; "Ograve"%string; "ograve"%string;
    "Ohook"%string; "ohook"%string; "Ohorn"%string;
    "ohorn"%string; "Ohornacute"%string; "ohornacute"%string;
    "Ohornbelowdot"%string; "ohornbelowdot"%string; "Ohorngrave"%string;
    "ohorngrave"%string; "Ohornhook"%string; "ohornhook"%string;
    "Ohorntilde"%string; "ohorntilde"%string; "Omacron"%string;
    "omacron"%string; "oneeighth"%string; "onefifth"%string;
    "onehalf"%string; "onequarter"%string; "onesixth"%string;
    "onesubscript"%string; "onesuperior"%string; "onethird"%string;
    "Ooblique"%string; "ooblique"%string; "openrectbullet"%string;
    "openstar"%string; "opentribulletdown"%string; "opentribulletup"%string;
    "ordfeminine"%string; "ordmasculine"%string; "osfActivate"%string;
    "osfAddMode"%string; "osfBackSpace"%string; "osfBackTab"%string;
    "osfBeginData"%string; "osfBeginLine"%string; "osfCancel"%string;
    "osfClear"%string; "osfCopy"%string; "osfCut"%string;
    "osfDelete"%string; "osfDeselectAll"%string; "osfDown"%string;
    "osfEndData"%string; "osfEndLine"%string; "osfEscape"%string;
    "osfExtend"%string; "osfHelp"%string; "osfInsert"%string;
    "osfLeft"%string; "osfMenu"%string; "osfMenuBar"%string;
    "osfNextField"%string; "osfNextMenu"%string; "osfPageDown"%string;
    "osfPageLeft"%string; "osfPageRight"%string; "osfPageUp"%string;
    "osfPaste"%string; "osfPrevField"%string; "osfPrevMenu"%string;
    "osfPrimaryPaste"%string; "osfQuickPaste"%string; "osfReselect"%string;
    "osfRestore"%string; "osfRight"%string; "osfSelect"%string;
    "osfSelectAll"%string; "osfUndo"%string; "osfUp"%string;
    "Oslash"%string; "oslash"%string; "Otilde"%string;
    "otilde"%string; "overbar"%string; "Overlay1_Enable"%string;
    "Overlay2_Enable"%string; "overline"%string; "P"%string;
    "p"%string; "Pabovedot"%string; "pabovedot"%string;
    "Page_Down"%string; "Page_Up"%string; "paragraph"%string;
    "parenleft"%string; "parenright"%string; "partdifferential"%string;
    "partialderivative"%string; "Pause"%string; "percent"%string;
    "period"%string; "periodcentered"%string; "permille"%string;
    "PesetaSign"%string; "phonographcopyright"%string; "plus"%string;
    "plusminus"%string; "Pointer_Accelerate"%string; "Pointer_Button1"%string;
    "Pointer_Button2"%string; "Pointer_Button3"%string; "Pointer_Button4"%string;
    "Pointer_Button5"%string; "Pointer_Button_Dflt"%string; "Pointer_DblClick1"%string;
    "Pointer_DblClick2"%string; "Pointer_DblClick3"%string; "Pointer_DblClick4"%string;
    "Pointer_DblClick5"%string; "Pointer_DblClick_Dflt"%string; "Pointer_DfltBtnNext"%string;
    "Pointer_DfltBtnPrev"%string; "Pointer_Down"%string; "Pointer_DownLeft"%string;
    "Pointer_DownRight"%string; "Pointer_Drag1"%string; "Pointer_Drag2"%string;
    "Pointer_Drag3"%string; "Pointer_Drag4"%string; "Pointer_Drag5"%string;
    "Pointer_Drag_Dflt"%string; "Pointer_EnableKeys"%string; "Pointer_Left"%string;
    "Pointer_Right"%string; "Pointer_Up"%string; "Pointer_UpLeft"%string;
    "Pointer_UpRight"%string; "prescription"%string; "Prev_Virtual_Screen"%string;
    "PreviousCandidate"%string; "Print"%string; "Prior"%string;
    "prolongedsound"%string; "punctspace"%string; "Q"%string;
    "q"%string; "quad"%string; "question"%string;
    "questiondown"%string; "quotedbl"%string; "quoteleft"%string;
    "quoteright"%string; "R"%string; "r"%string;
    "R1"%string; "R10"%string; "R11"%string;
    "R12"%string; "R13"%string; "R14"%string;
    "R15"%string; "R2"%string; "R3"%string;
    "R4"%string; "R5"%string; "R6"%string;
    "R7"%string; "R8"%string; "R9"%string;
    "Racute"%string; "racute"%string; "radical"%string;
    "Rcaron"%string; "rcaron"%string; "Rcedilla"%string;
    "rcedilla"%string; "Redo"%string; "registered"%string;
    "RepeatKeys_Enable"%string; "Reset"%string; "Return"%string;
    "Right"%string; "rightanglebracket"%string; "rightarrow"%string;
    "rightcaret"%string; "rightdoublequotemark"%string; "rightmiddlecurlybrace"%string;
    "rightmiddlesummation"%string; "rightopentriangle"%string; "rightpointer"%string;
    "rightshoe"%string; "rightsingleanglequotemark"%string; "rightsinglequotemark"%string;
    "rightt"%string; "righttack"%string; "Romaji"%string;
    "RupeeSign"%string; "S"%string; "s"%string;
    "Sabovedot"%string; "sabovedot"%string; "Sacute"%string;
    "sacute"%string; "Scaron"%string; "scaron"%string;
    "Scedilla"%string; "scedilla"%string; "SCHWA"%string;
    "schwa"%string; "Scircumflex"%string; "scircumflex"%string;
    "script_switch"%string; "Scroll_Lock"%string; "seconds"%string;
    "section"%string; "Select"%string; "semicolon"%string;
    "semivoicedsound"%string; "Serbian_DJE"%string; "Serbian_dje"%string;
    "Serbian_DZE"%string; "Serbian_dze"%string; "Serbian_JE"%string;
    "Serbian_je"%string; "Serbian_LJE"%string; "Serbian_lje"%string;
    "Serbian_NJE"%string; "Serbian_nje"%string; "Serbian_TSHE"%string;
    "Serbian_tshe"%string; "seveneighths"%string; "sevensubscript"%string;
    "sevensuperior"%string; "Shift_L"%string; "Shift_Lock"%string;
    "Shift_R"%string; "signaturemark"%string; "signifblank"%string;
    "similarequal"%string; "SingleCandidate"%string; "singlelowquotemark"%string;
    "Sinh_a"%string; "Sinh_aa"%string; "Sinh_aa2"%string;
    "Sinh_ae"%string; "Sinh_ae2"%string; "Sinh_aee"%string;
    "Sinh_aee2"%string; "Sinh_ai"%string; "Sinh_ai2"%string;
    "Sinh_al"%string; "Sinh_au"%string; "Sinh_au2"%string;
    "Sinh_ba"%string; "Sinh_bha"%string; "Sinh_ca"%string;
    "Sinh_cha"%string; "Sinh_dda"%string; "Sinh_ddha"%string;
    "Sinh_dha"%string; "Sinh_dhha"%string; "Sinh_e"%string;
    "Sinh_e2"%string; "Sinh_ee"%string; "Sinh_ee2"%string;
    "Sinh_fa"%string; "Sinh_ga"%string; "Sinh_gha"%string;
    "Sinh_h2"%string; "Sinh_ha"%string; "Sinh_i"%string;
    "Sinh_i2"%string; "Sinh_ii"%string; "Sinh_ii2"%string;
    "Sinh_ja"%string; "Sinh_jha"%string; "Sinh_jnya"%string;
    "Sinh_ka"%string; "Sinh_kha"%string; "Sinh_kunddaliya"%string;
    "Sinh_la"%string; "Sinh_lla"%string; "Sinh_lu"%string;
    "Sinh_lu2"%string; "Sinh_luu"%string; "Sinh_luu2"%string;
    "Sinh_ma"%string; "Sinh_mba"%string; "Sinh_na"%string;
    "Sinh_ndda"%string; "Sinh_ndha"%string; "Sinh_ng"%string;
    "Sinh_ng2"%string; "Sinh_nga"%string; "Sinh_nja"%string;
    "Sinh_nna"%string; "Sinh_nya"%string; "Sinh_o"%string;
    "Sinh_o2"%string; "Sinh_oo"%string; "Sinh_oo2"%string;
    "Sinh_pa"%string; "Sinh_pha"%string; "Sinh_ra"%string;
    "Sinh_ri"%string; "Sinh_rii"%string; "Sinh_ru2"%string;
    "Sinh_ruu2"%string; "Sinh_sa"%string; "Sinh_sha"%string;
    "Sinh_ssha"%string; "Sinh_tha"%string; "Sinh_thha"%string;
    "Sinh_tta"%string; "Sinh_ttha"%string; "Sinh_u"%string;
    "Sinh_u2"%string; "Sinh_uu"%string; "Sinh_uu2"%string;
    "Sinh_va"%string; "Sinh_ya"%string; "sixsubscript"%string;
    "sixsuperior"%string; "slash"%string; "SlowKeys_Enable"%string;
    "soliddiamond"%string; "space"%string; "squareroot"%string;
    "SSHARP"%string; "ssharp"%string; "sterling"%string;
    "StickyKeys_Enable"%string; "stricteq"%string; "SunAgain"%string;
    "SunAltGraph"%string; "SunAudioLowerVolume"%string; "SunAudioMute"%string;
    "SunAudioRaiseVolume"%string; "SunCompose"%string; "SunCopy"%string;
    "SunCut"%string; "SunF36"%string; "SunF37"%string;
    "SunFA_Acute"%string; "SunFA_Cedilla"%string; "SunFA_Circum"%string;
    "SunFA_Diaeresis"%string; "SunFA_Grave"%string; "SunFA_Tilde"%string;
    "SunFind"%string; "SunFront"%string; "SunOpen"%string;
    "SunPageDown"%string; "SunPageUp"%string; "SunPaste"%string;
    "SunPowerSwitch"%string; "SunPowerSwitchShift"%string; "SunPrint_Screen"%string;
    "SunProps"%string; "SunStop"%string; "SunSys_Req"%string;
    "SunUndo"%string; "SunVideoDegauss"%string; "SunVideoLowerBrightness"%string;
    "SunVideoRaiseBrightness"%string; "Super_L"%string; "Super_R"%string;
    "Sys_Req"%string; "System"%string; "T"%string;
    "t"%string; "Tab"%string; "Tabovedot"%string;
    "tabovedot"%string; "Tcaron"%string; "tcaron"%string;
    "Tcedilla"%string; "tcedilla"%string; "telephone"%string;
    "telephonerecorder"%string; "Terminate_Server"%string; "Thai_baht"%string;
    "Thai_bobaimai"%string; "Thai_chochan"%string; "Thai_chochang"%string;
    "Thai_choching"%string; "Thai_chochoe"%string; "Thai_dochada"%string;
    "Thai_dodek"%string; "Thai_fofa"%string; "Thai_fofan"%string;
    "Thai_hohip"%string; "Thai_honokhuk"%string; "Thai_khokhai"%string;
    "Thai_khokhon"%string; "Thai_khokhuat"%string; "Thai_khokhwai"%string;
    "Thai_khorakhang"%string; "Thai_kokai"%string; "Thai_lakkhangyao"%string;
    "Thai_lekchet"%string; "Thai_lekha"%string; "Thai_lekhok"%string;
    "Thai_lekkao"%string; "Thai_leknung"%string; "Thai_lekpaet"%string;
    "Thai_leksam"%string; "Thai_leksi"%string; "Thai_leksong"%string;
    "Thai_leksun"%string; "Thai_lochula"%string; "Thai_loling"%string;
    "Thai_lu"%string; "Thai_maichattawa"%string; "Thai_maiek"%string;
    "Thai_maihanakat"%string; "Thai_maihanakat_maitho"%string; "Thai_maitaikhu"%string;
    "Thai_maitho"%string; "Thai_maitri"%string; "Thai_maiyamok"%string;
    "Thai_moma"%string; "Thai_ngongu"%string; "Thai_nikhahit"%string;
    "Thai_nonen"%string; "Thai_nonu"%string; "Thai_oang"%string;
    "Thai_paiyannoi"%string; "Thai_phinthu"%string; "Thai_phophan"%string;
    "Thai_phophung"%string; "Thai_phosamphao"%string; "Thai_popla"%string;
    "Thai_rorua"%string; "Thai_ru"%string; "Thai_saraa"%string;
    "Thai_saraaa"%string; "Thai_saraae"%string; "Thai_saraaimaimalai"%string;
    "Thai_saraaimaimuan"%string; "Thai_saraam"%string; "Thai_sarae"%string;
    "Thai_sarai"%string; "Thai_saraii"%string; "Thai_sarao"%string;
    "Thai_sarau"%string; "Thai_saraue"%string; "Thai_sarauee"%string;
    "Thai_sarauu"%string; "Thai_sorusi"%string; "Thai_sosala"%string;
    "Thai_soso"%string; "Thai_sosua"%string; "Thai_thanthakhat"%string;
    "Thai_thonangmontho"%string; "Thai_thophuthao"%string; "Thai_thothahan"%string;
    "Thai_thothan"%string; "Thai_thothong"%string; "Thai_thothung"%string;
    "Thai_topatak"%string; "Thai_totao"%string; "Thai_wowaen"%string;
    "Thai_yoyak"%string; "Thai_yoying"%string; "therefore"%string;
    "thinspace"%string; "THORN"%string; "Thorn"%string;
    "thorn"%string; "threeeighths"%string; "threefifths"%string;
    "threequarters"%string; "threesubscript"%string; "threesuperior"%string;
    "tintegral"%string; "topintegral"%string; "topleftparens"%string;
    "topleftradical"%string; "topleftsqbracket"%string; "topleftsummation"%string;
    "toprightparens"%string; "toprightsqbracket"%string; "toprightsummation"%string;
    "topt"%string; "topvertsummationconnector"%string; "Touroku"%string;
    "trademark"%string; "trademarkincircle"%string; "Tslash"%string;
    "tslash"%string; "twofifths"%string; "twosubscript"%string;
    "twosuperior"%string; "twothirds"%string; "U"%string;
    "u"%string; "Uacute"%string; "uacute"%string;
    "Ubelowdot"%string; "ubelowdot"%string; "Ubreve"%string;
    "ubreve"%string; "Ucircumflex"%string; "ucircumflex"%string;
    "Udiaeresis"%string; "udiaeresis"%string; "Udoubleacute"%string;
    "udoubleacute"%string; "Ugrave"%string; "ugrave"%string;
    "Uhook"%string; "uhook"%string; "Uhorn"%string;
    "uhorn"%string; "Uhornacute"%string; "uhornacute"%string;
    "Uhornbelowdot"%string; "uhornbelowdot"%string; "Uhorngrave"%string;
    "uhorngrave"%string; "Uhornhook"%string; "uhornhook"%string;
    "Uhorntilde"%string; "uhorntilde"%string; "Ukrainian_GHE_WITH_UPTURN"%string;
    "Ukrainian_ghe_with_upturn"%string; "Ukrainian_I"%string; "Ukrainian_i"%string;
    "Ukrainian_IE"%string; "Ukrainian_ie"%string; "Ukrainian_YI"%string;
    "Ukrainian_yi"%string; "Ukranian_I"%string; "Ukranian_i"%string;
    "Ukranian_JE"%string; "Ukranian_je"%string; "Ukranian_YI"%string;
    "Ukranian_yi"%string; "Umacron"%string; "umacron"%string;
    "underbar"%string; "underscore"%string; "Undo"%string;
    "union"%string; "Uogonek"%string; "uogonek"%string;
    "Up"%string; "uparrow"%string; "upcaret"%string;
    "upleftcorner"%string; "uprightcorner"%string; "upshoe"%string;
    "upstile"%string; "uptack"%string; "Uring"%string;
    "uring"%string; "User"%string; "Utilde"%string;
    "utilde"%string; "V"%string; "v"%string;
    "variation"%string; "vertbar"%string; "vertconnector"%string;
    "voicedsound"%string; "VoidSymbol"%string; "vt"%string;
    "W"%string; "w"%string; "Wacute"%string;
    "wacute"%string; "Wcircumflex"%string; "wcircumflex"%string;
    "Wdiaeresis"%string; "wdiaeresis"%string; "Wgrave"%string;
    "wgrave"%string; "WonSign"%string; "X"%string;
    "x"%string; "Xabovedot"%string; "xabovedot"%string;
    "XF8610ChannelsDown"%string; "XF8610ChannelsUp"%string; "XF863DMode"%string;
    "XF86Accessibility"%string; "XF86ActionOnSelection"%string; "XF86AddFavorite"%string;
    "XF86Addressbook"%string; "XF86ALSToggle"%string; "XF86ApplicationLeft"%string;
    "XF86ApplicationRight"%string; "XF86AppSelect"%string; "XF86AspectRatio"%string;
    "XF86Assistant"%string; "XF86AttendantOff"%string; "XF86AttendantOn"%string;
    "XF86AttendantToggle"%string; "XF86Audio"%string; "XF86AudioBassBoost"%string;
    "XF86AudioChannelMode"%string; "XF86AudioCycleTrack"%string; "XF86AudioDesc"%string;
    "XF86AudioForward"%string; "XF86AudioLowerVolume"%string; "XF86AudioMedia"%string;
    "XF86AudioMicMute"%string; "XF86AudioMute"%string; "XF86AudioNext"%string;
    "XF86AudioPause"%string; "XF86AudioPlay"%string; "XF86AudioPreset"%string;
    "XF86AudioPrev"%string; "XF86AudioRaiseVolume"%string; "XF86AudioRandomPlay"%string;
    "XF86AudioRecord"%string; "XF86AudioRepeat"%string; "XF86AudioRewind"%string;
    "XF86AudioStop"%string; "XF86AutopilotEngageToggle"%string; "XF86Away"%string;
    "XF86Back"%string; "XF86BackForward"%string; "XF86Battery"%string;
    "XF86Blue"%string; "XF86Bluetooth"%string; "XF86Book"%string;
    "XF86Break"%string; "XF86BrightnessAdjust"%string; "XF86BrightnessAuto"%string;
    "XF86BrightnessMax"%string; "XF86BrightnessMin"%string; "XF86Buttonconfig"%string;
    "XF86Calculater"%string; "XF86Calculator"%string; "XF86Calendar"%string;
    "XF86CameraAccessDisable"%string; "XF86CameraAccessEnable"%string; "XF86CameraAccessToggle"%string;
    "XF86CameraDown"%string; "XF86CameraFocus"%string; "XF86CameraLeft"%string;
    "XF86CameraRight"%string; "XF86CameraUp"%string; "XF86CameraZoomIn"%string;
    "XF86CameraZoomOut"%string; "XF86CD"%string; "XF86ChannelDown"%string;
    "XF86ChannelUp"%string; "XF86Clear"%string; "XF86ClearGrab"%string;
    "XF86ClearvuSonar"%string; "XF86Close"%string; "XF86Community"%string;
    "XF86ContextMenu"%string; "XF86ContextualInsert"%string; "XF86ContextualQuery"%string;
    "XF86ContrastAdjust"%string; "XF86ControlPanel"%string; "XF86Copy"%string;
    "XF86Cut"%string; "XF86CycleAngle"%string; "XF86Data"%string;
    "XF86Database"%string; "XF86Dictate"%string; "XF86Display"%string;
    "XF86DisplayOff"%string; "XF86DisplayToggle"%string; "XF86Documents"%string;
    "XF86DoNotDisturb"%string; "XF86DOS"%string; "XF86DualRangeRadar"%string;
    "XF86DVD"%string; "XF86Editor"%string; "XF86Eject"%string;
    "XF86ElectronicPrivacyScreenOff"%string; "XF86ElectronicPrivacyScreenOn"%string; "XF86EmojiPicker"%string;
    "XF86Excel"%string; "XF86Exit"%string; "XF86Explorer"%string;
    "XF86FastReverse"%string; "XF86Favorites"%string; "XF86Finance"%string;
    "XF86FishingChart"%string; "XF86Fn"%string; "XF86Fn_1"%string;
    "XF86Fn_2"%string; "XF86Fn_B"%string; "XF86Fn_D"%string;
    "XF86Fn_E"%string; "XF86Fn_Esc"%string; "XF86Fn_F"%string;
    "XF86Fn_F1"%string; "XF86Fn_F10"%string; "XF86Fn_F11"%string;
    "XF86Fn_F12"%string; "XF86Fn_F2"%string; "XF86Fn_F3"%string;
    "XF86Fn_F4"%string; "XF86Fn_F5"%string; "XF86Fn_F6"%string;
    "XF86Fn_F7"%string; "XF86Fn_F8"%string; "XF86Fn_F9"%string;
    "XF86Fn_S"%string; "XF86FnRightShift"%string; "XF86Forward"%string;
    "XF86FrameBack"%string; "XF86FrameForward"%string; "XF86FullScreen"%string;
    "XF86Game"%string; "XF86Go"%string; "XF86GoTo"%string;
    "XF86GraphicsEditor"%string; "XF86Green"%string; "XF86HangupPhone"%string;
    "XF86Hibernate"%string; "XF86History"%string; "XF86HomePage"%string;
    "XF86HotLinks"%string; "XF86Images"%string; "XF86Info"%string;
    "XF86iTouch"%string; "XF86Journal"%string; "XF86KbdBrightnessDown"%string;
    "XF86KbdBrightnessUp"%string; "XF86KbdInputAssistAccept"%string; "XF86KbdInputAssistCancel"%string;
    "XF86KbdInputAssistNext"%string; "XF86KbdInputAssistNextgroup"%string; "XF86KbdInputAssistPrev"%string;
    "XF86KbdInputAssistPrevgroup"%string; "XF86KbdLcdMenu1"%string; "XF86KbdLcdMenu2"%string;
    "XF86KbdLcdMenu3"%string; "XF86KbdLcdMenu4"%string; "XF86KbdLcdMenu5"%string;
    "XF86KbdLightOnOff"%string; "XF86Keyboard"%string; "XF86Launch0"%string;
    "XF86Launch1"%string; "XF86Launch2"%string; "XF86Launch3"%string;
    "XF86Launch4"%string; "XF86Launch5"%string; "XF86Launch6"%string;
    "XF86Launch7"%string; "XF86Launch8"%string; "XF86Launch9"%string;
    "XF86LaunchA"%string; "XF86LaunchB"%string; "XF86LaunchC"%string;
    "XF86LaunchD"%string; "XF86LaunchE"%string; "XF86LaunchF"%string;
    "XF86LeftDown"%string; "XF86LeftUp"%string; "XF86LightBulb"%string;
    "XF86LightsToggle"%string; "XF86LinkPhone"%string; "XF86LogGrabInfo"%string;
    "XF86LogOff"%string; "XF86LogWindowTree"%string; "XF86Macro1"%string;
    "XF86Macro10"%string; "XF86Macro11"%string; "XF86Macro12"%string;
    "XF86Macro13"%string; "XF86Macro14"%string; "XF86Macro15"%string;
    "XF86Macro16"%string; "XF86Macro17"%string; "XF86Macro18"%string;
    "XF86Macro19"%string; "XF86Macro2"%string; "XF86Macro20"%string;
    "XF86Macro21"%string; "XF86Macro22"%string; "XF86Macro23"%string;
    "XF86Macro24"%string; "XF86Macro25"%string; "XF86Macro26"%string;
    "XF86Macro27"%string; "XF86Macro28"%string; "XF86Macro29"%string;
    "XF86Macro3"%string; "XF86Macro30"%string; "XF86Macro4"%string;
    "XF86Macro5"%string; "XF86Macro6"%string; "XF86Macro7"%string;
    "XF86Macro8"%string; "XF86Macro9"%string; "XF86MacroPreset1"%string;
    "XF86MacroPreset2"%string; "XF86MacroPreset3"%string; "XF86MacroPresetCycle"%string;
    "XF86MacroRecordStart"%string; "XF86MacroRecordStop"%string; "XF86Mail"%string;
    "XF86MailForward"%string; "XF86Market"%string; "XF86MarkWaypoint"%string;
    "XF86MediaLanguageMenu"%string; "XF86MediaPlayer"%string; "XF86MediaPlayPause"%string;
    "XF86MediaPlaySlow"%string; "XF86MediaRepeat"%string; "XF86MediaSelectAuxiliary"%string;
    "XF86MediaSelectCable"%string; "XF86MediaSelectCD"%string; "XF86MediaSelectDVD"%string;
    "XF86MediaSelectHome"%string; "XF86MediaSelectPC"%string; "XF86MediaSelectProgramGuide"%string;
    "XF86MediaSelectRadio"%string; "XF86MediaSelectSatellite"%string; "XF86MediaSelectTape"%string;
    "XF86MediaSelectTeletext"%string; "XF86MediaSelectTuner"%string; "XF86MediaSelectTV"%string;
    "XF86MediaSelectVCR"%string; "XF86MediaSelectVCRPlus"%string; "XF86MediaTitleMenu"%string;
    "XF86MediaTopMenu"%string; "XF86Meeting"%string; "XF86Memo"%string;
    "XF86MenuKB"%string; "XF86MenuPB"%string; "XF86Messenger"%string;
    "XF86ModeLock"%string; "XF86MonBrightnessAuto"%string; "XF86MonBrightnessCycle"%string;
    "XF86MonBrightnessDown"%string; "XF86MonBrightnessUp"%string; "XF86Music"%string;
    "XF86MyComputer"%string; "XF86MySites"%string; "XF86NavChart"%string;
    "XF86NavInfo"%string; "XF86New"%string; "XF86News"%string;
    "XF86Next_VMode"%string; "XF86NextElement"%string; "XF86NextFavorite"%string;
    "XF86NotificationCenter"%string; "XF86NumberEntryMode"%string; "XF86Numeric0"%string;
    "XF86Numeric1"%string; "XF86Numeric11"%string; "XF86Numeric12"%string;
    "XF86Numeric2"%string; "XF86Numeric3"%string; "XF86Numeric4"%string;
    "XF86Numeric5"%string; "XF86Numeric6"%string; "XF86Numeric7"%string;
    "XF86Numeric8"%string; "XF86Numeric9"%string; "XF86NumericA"%string;
    "XF86NumericB"%string; "XF86NumericC"%string; "XF86NumericD"%string;
    "XF86NumericPound"%string; "XF86NumericStar"%string; "XF86OfficeHome"%string;
    "XF86OK"%string; "XF86OnScreenKeyboard"%string; "XF86Open"%string;
    "XF86OpenURL"%string; "XF86Option"%string; "XF86Paste"%string;
    "XF86PauseRecord"%string; "XF86PerformanceMode"%string; "XF86Phone"%string;
    "XF86PickupPhone"%string; "XF86Pictures"%string; "XF86PowerDown"%string;
    "XF86PowerOff"%string; "XF86Presentation"%string; "XF86Prev_VMode"%string;
    "XF86PreviousElement"%string; "XF86PrivacyScreenToggle"%string; "XF86Q"%string;
    "XF86RadarOverlay"%string; "XF86Red"%string; "XF86Refresh"%string;
    "XF86RefreshRateToggle"%string; "XF86Reload"%string; "XF86Reply"%string;
    "XF86RFKill"%string; "XF86RightDown"%string; "XF86RightUp"%string;
    "XF86RockerDown"%string; "XF86RockerEnter"%string; "XF86RockerUp"%string;
    "XF86RootMenu"%string; "XF86RotateWindows"%string; "XF86RotationKB"%string;
    "XF86RotationLockToggle"%string; "XF86RotationPB"%string; "XF86Save"%string;
    "XF86ScreenSaver"%string; "XF86Screensaver"%string; "XF86ScrollClick"%string;
    "XF86ScrollDown"%string; "XF86ScrollUp"%string; "XF86Search"%string;
    "XF86Select"%string; "XF86SelectiveScreenshot"%string; "XF86Send"%string;
    "XF86Shop"%string; "XF86SidevuSonar"%string; "XF86SingleRangeRadar"%string;
    "XF86Sleep"%string; "XF86SlowReverse"%string; "XF86Sos"%string;
    "XF86Spell"%string; "XF86SpellCheck"%string; "XF86SplitScreen"%string;
    "XF86Sport"%string; "XF86Standby"%string; "XF86Start"%string;
    "XF86Stop"%string; "XF86StopRecord"%string; "XF86Subtitle"%string;
    "XF86Support"%string; "XF86Suspend"%string; "XF86Switch_VT_1"%string;
    "XF86Switch_VT_10"%string; "XF86Switch_VT_11"%string; "XF86Switch_VT_12"%string;
    "XF86Switch_VT_2"%string; "XF86Switch_VT_3"%string; "XF86Switch_VT_4"%string;
    "XF86Switch_VT_5"%string; "XF86Switch_VT_6"%string; "XF86Switch_VT_7"%string;
    "XF86Switch_VT_8"%string; "XF86Switch_VT_9"%string; "XF86Taskmanager"%string;
    "XF86TaskPane"%string; "XF86Terminal"%string; "XF86Time"%string;
    "XF86ToDoList"%string; "XF86Tools"%string; "XF86TopMenu"%string;
    "XF86TouchpadOff"%string; "XF86TouchpadOn"%string; "XF86TouchpadToggle"%string;
    "XF86TraditionalSonar"%string; "XF86Travel"%string; "XF86Ungrab"%string;
    "XF86Unmute"%string; "XF86User1KB"%string; "XF86User2KB"%string;
    "XF86UserPB"%string; "XF86UWB"%string; "XF86VendorHome"%string;
    "XF86VendorLogo"%string; "XF86Video"%string; "XF86VideoPhone"%string;
    "XF86View"%string; "XF86VOD"%string; "XF86VoiceCommand"%string;
    "XF86Voicemail"%string; "XF86WakeUp"%string; "XF86WebCam"%string;
    "XF86WheelButton"%string; "XF86WLAN"%string; "XF86Word"%string;
    "XF86WPSButton"%string; "XF86WWAN"%string; "XF86WWW"%string;
    "XF86Xfer"%string; "XF86Yellow"%string; "XF86ZoomIn"%string;
    "XF86ZoomOut"%string; "XF86ZoomReset"%string; "Y"%string;
    "y"%string; "Yacute"%string; "yacute"%string;
    "Ybelowdot"%string; "ybelowdot"%string; "Ycircumflex"%string;
    "ycircumflex"%string; "Ydiaeresis"%string; "ydiaeresis"%string;
    "yen"%string; "Ygrave"%string; "ygrave"%string;
    "Yhook"%string; "yhook"%string; "Ytilde"%string;
    "ytilde"%string; "Z"%string; "z"%string;
    "Zabovedot"%string; "zabovedot"%string; "Zacute"%string;
    "zacute"%string; "Zcaron"%string; "zcaron"%string;
    "Zen_Koho"%string; "Zenkaku"%string; "Zenkaku_Hankaku"%string;
    "zerosubscript"%string; "zerosuperior"%string; "Zstroke"%string;
    "zstroke"%string ].

(** The array of characters: every name and its terminating zero. *)
Definition keysym_names : list Z := concat (map (fun s => bytes_of s ++ [0]) keysym_name_list).

Definition keysym_name_G : list Z :=
  [ 0; 0; 0; 0; 0; 0; 0; 0; 0; 0; 0; 0; 0; 0; 0; 0;
    2508; 0; 0; 0; 0; 0; 0; 3350; 0; 0; 0; 0; 0; 0; 0; 2987;
    2941; 0; 0; 0; 1606; 2880; 0; 170; 0; 0; 2634; 0; 0; 0; 0; 1265;
    0; 2777; 0; 0; 0; 0; 0; 0; 0; 0; 0; 966; 1175; 0; 0; 1511;
    0; 0; 3778; 0; 0; 1334; 0; 0; 0; 2483; 0; 0; 0; 3399; 0; 0;
    889; 0; 0; 0; 77; 1151; 2316; 0; 0; 518; 3918; 0; 0; 0; 0; 0;
    0; 0; 0; 0; 0; 995; 1708; 0; 0; 0; 0; 0; 2193; 1909; 803; 0;
    2947; 0; 0; 0; 983; 0; 0; 0; 0; 0; 0; 0; 0; 0; 0; 0;
    0; 0; 0; 0; 0; 1388; 767; 4498; 0; 454; 0; 590; 0; 0; 4344; 2429;
    75; 0; 0; 0; 0; 0; 0; 0; 0; 0; 0; 0; 2899; 0; 0; 0;
    1352; 4330; 0; 0; 0; 616; 0; 0; 0; 2694; 0; 0; 0; 3904; 0; 761;
    0; 3066; 0; 0; 2613; 0; 0; 1700; 0; 0; 0; 0; 2482; 4510; 0; 0;
    0; 0; 0; 1075; 2800; 1560; 0; 2135; 0; 1126; 0; 0; 1373; 1083; 2596; 1492;
    2338; 0; 0; 0; 0; 2950; 0; 1356; 0; 1168; 2204; 0; 0; 0; 0; 1691;
    403; 379; 0; 733; 4518; 0; 4260; 3129; 0; 1953; 3226; 0; 0; 0; 3643; 1319;
    0; 0; 1039; 0; 0; 0; 0; 0; 0; 0; 0; 0; 0; 1761; 0; 0;
    0; 870; 1871; 0; 0; 4540; 0; 0; 0; 0; 2616; 3038; 0; 0; 0; 0;
    3539; 4173; 0; 0; 0; 0; 686; 3128; 0; 2205; 3900; 0; 3595; 0; 0; 0;
    0; 4578; 0; 351; 2271; 0; 0; 0; 0; 0; 0; 0; 0; 860; 0; 1145;
    1016; 0; 3450; 0; 0; 4069; 0; 3122; 276; 2150; 0; 0; 0; 0; 0; 0;
    0; 0; 0; 0; 0; 0; 3233; 0; 1287; 942; 1905; 0; 0; 0; 4160; 0;
    0; 0; 0; 0; 0; 0; 0; 0; 1061; 0; 4372; 620; 4174; 0; 0; 1865;
    0; 0; 0; 1213; 2505; 0; 0; 1861; 0; 69; 0; 2473; 0; 0; 0; 1381;
    0; 4490; 0; 3197; 0; 0; 0; 0; 0; 0; 1710; 0; 717; 0; 0; 0;
    2355; 0; 0; 0; 0; 3038; 4397; 0; 0; 864; 0; 0; 3274; 0; 0; 4052;
    0; 0; 1982; 0; 0; 0; 0; 0; 0; 0; 0; 0; 0; 0; 0; 0;
    0; 0; 2966; 0; 0; 3187; 997; 2181; 199; 1200; 0; 0; 0; 2537; 0; 0;
    0; 2371; 1023; 0; 2156; 3220; 3180; 0; 0; 0; 1821; 0; 0; 2851; 0; 3714;
    3518; 4427; 0; 0; 4432; 0; 0; 3906; 0; 1132; 0; 0; 3849; 0; 0; 2560;
    0; 0; 0; 0; 0; 0; 0; 0; 0; 0; 3982; 393; 3523; 0; 0; 0;
    4146; 0; 0; 0; 0; 3780; 0; 590; 0; 0; 1446; 4160; 870; 0; 2759; 0;
    3910; 355; 1375; 0; 4092; 0; 0; 53; 0; 0; 0; 3188; 0; 0; 0; 2382;
    0; 0; 0; 0; 0; 200; 0; 457; 3068; 0; 0; 3840; 0; 238; 0; 0;
    0; 0; 0; 0; 3642; 0; 0; 0; 0; 0; 4427; 4163; 0; 0; 0; 0;
    0; 4529; 0; 0; 0; 0; 0; 4219; 0; 0; 1416; 3334; 0; 0; 0; 0;
    1726; 2841; 4610; 0; 3460; 0; 0; 0; 0; 0; 2619; 0; 0; 0; 0; 447;
    0; 14; 3764; 54; 842; 0; 0; 4484; 2635; 0; 0; 0; 0; 0; 0; 0;
    1886; 1236; 1939; 3596; 0; 0; 0; 602; 0; 0; 574; 0; 0; 4350; 0; 2984;
    3729; 618; 3510; 0; 0; 511; 3093; 0; 0; 3353; 0; 4215; 0; 0; 1175; 2097;
    0; 2248; 0; 0; 0; 1170; 0; 0; 0; 4163; 183; 0; 0; 0; 4631; 0;
    0; 3376; 0; 991; 0; 3795; 0; 2018; 425; 1245; 0; 0; 3799; 0; 0; 61;
    3711; 0; 1259; 1222; 3818; 3751; 0; 2794; 4258; 0; 1179; 1325; 0; 3374; 4575; 2159;
    0; 2952; 0; 0; 0; 0; 1818; 0; 1147; 4134; 2207; 1537; 0; 3398; 0; 1324;
    1449; 240; 0; 3410; 4462; 0; 1543; 1143; 0; 0; 0; 0; 0; 0; 0; 0;
    2740; 592; 1106; 3287; 0; 0; 1325; 0; 0; 0; 0; 0; 1567; 0; 662; 3570;
    1759; 2545; 0; 1453; 0; 0; 3875; 1394; 786; 2072; 0; 995; 2153; 3280; 1940; 4392;
    0; 0; 1928; 0; 0; 0; 0; 2016; 0; 3860; 0; 684; 0; 191; 0; 0;
    0; 0; 1377; 3499; 3248; 0; 0; 1953; 0; 0; 0; 0; 2123; 0; 0; 0;
    0; 1163; 0; 0; 0; 0; 3163; 651; 0; 1543; 3675; 3420; 0; 0; 0; 0;
    0; 0; 567; 0; 0; 0; 0; 0; 0; 2636; 0; 972; 3249; 0; 1748; 4213;
    3353; 0; 0; 3828; 4034; 0; 0; 0; 2951; 0; 4562; 4375; 0; 232; 0; 0;
    754; 0; 0; 0; 615; 0; 990; 0; 4039; 0; 0; 2679; 3788; 699; 0; 0;
    0; 4325; 0; 1822; 2967; 2643; 2514; 0; 453; 0; 2199; 4584; 0; 0; 0; 2154;
    0; 4251; 3107; 0; 4014; 2219; 0; 1684; 2541; 0; 3759; 3806; 2358; 1045; 0; 0;
    0; 0; 1474; 1172; 0; 0; 0; 1348; 0; 0; 4540; 4094; 0; 0; 4724; 946;
    0; 0; 879; 2986; 275; 1223; 0; 0; 0; 0; 4275; 0; 0; 0; 0; 269;
    4725; 790; 0; 3196; 0; 802; 3714; 1686; 0; 0; 0; 1725; 3052; 1809; 107; 0;
    1907; 0; 1343; 0; 4537; 0; 4443; 0; 261; 0; 0; 0; 0; 137; 0; 0;
    0; 1327; 0; 0; 1588; 1249; 4656; 0; 0; 1837; 0; 254; 0; 0; 0; 4183;
    2916; 4121; 0; 0; 0; 1153; 0; 0; 1299; 0; 1082; 0; 2622; 0; 0; 0;
    2111; 2736; 0; 2035; 2970; 0; 99; 4622; 1982; 1003; 2387; 3531; 0; 2276; 4256; 0;
    87; 4362; 0; 0; 0; 0; 2866; 4177; 0; 3128; 4148; 0; 4191; 2928; 0; 2959;
    2406; 0; 677; 0; 1853; 0; 0; 1057; 0; 2934; 1079; 157; 1549; 0; 185; 0;
    0; 0; 4105; 1232; 0; 1714; 0; 0; 4051; 0; 0; 0; 0; 850; 3124; 0;
    0; 0; 0; 0; 0; 0; 0; 671; 0; 1105; 3730; 0; 1945; 2859; 0; 698;
    1312; 0; 0; 4366; 0; 0; 0; 3637; 0; 2863; 2076; 744; 1368; 0; 127; 0;
    0; 0; 3714; 1174; 1843; 2341; 0; 0; 0; 0; 4366; 0; 3527; 0; 17; 0;
    2527; 763; 2395; 2208; 0; 0; 1817; 0; 0; 3638; 2252; 0; 4364; 2126; 0; 0;
    3093; 4191; 2047; 0; 1872; 61; 0; 1257; 0; 0; 0; 35; 2099; 0; 0; 1050;
    0; 2084; 0; 0; 0; 2209; 0; 4519; 0; 1816; 0; 0; 0; 0; 3629; 0;
    1829; 0; 2854; 0; 0; 0; 4410; 2282; 4264; 0; 0; 2002; 0; 533; 4137; 0;
    1657; 1552; 0; 0; 2593; 2904; 249; 0; 405; 1124; 2424; 2490; 0; 3754; 3004; 4565;
    0; 0; 0; 0; 1360; 0; 1873; 3243; 0; 0; 0; 881; 2423; 467; 0; 0;
    0; 4501; 2034; 4702; 782; 0; 0; 0; 419; 0; 2447; 48; 0; 0; 1224; 162;
    978; 2582; 0; 0; 2400; 0; 3069; 1674; 0; 0; 0; 0; 0; 479; 1475; 0;
    1679; 2540; 0; 0; 0; 0; 0; 0; 253; 36; 0; 0; 0; 0; 1268; 2779;
    1038; 0; 503; 1425; 0; 4217; 0; 2823; 3422; 0; 0; 0; 1890; 1664; 3061; 0;
    0; 43; 3266; 0; 647; 1137; 141; 3856; 0; 4433; 693; 1974; 0; 3198; 3678; 0;
    0; 0; 0; 1325; 4562; 3921; 1337; 0; 1002; 0; 453; 2587; 0; 0; 3676; 1557;
    3844; 595; 1511; 4552; 2356; 0; 0; 2665; 4666; 483; 0; 0; 0; 23; 0; 1959;
    0; 0; 0; 0; 427; 0; 1451; 0; 0; 3452; 1439; 3155; 1775; 482; 511; 992;
    3505; 0; 3095; 4146; 0; 4279; 3923; 3455; 0; 2271; 0; 0; 0; 0; 0; 208;
    0; 358; 0; 0; 4196; 0; 272; 924; 0; 0; 0; 0; 0; 0; 4134; 557;
    1738; 4683; 0; 0; 0; 0; 245; 0; 0; 0; 0; 0; 4334; 0; 0; 1162;
    3356; 1678; 1301; 0; 824; 485; 0; 2751; 0; 1875; 3856; 0; 0; 1661; 1242; 0;
    3992; 0; 1960; 0; 3698; 0; 0; 0; 0; 3697; 2446; 463; 110; 2966; 4107; 0;
    2183; 0; 0; 0; 4697; 4096; 0; 0; 4357; 1004; 666; 659; 4378; 0; 4564; 0;
    2566; 2288; 4170; 1817; 2904; 0; 335; 0; 0; 0; 519; 0; 1122; 2009; 0; 0;
    866; 0; 1016; 0; 0; 1077; 0; 1187; 0; 2893; 967; 0; 0; 591; 0; 111;
    4235; 0; 0; 9; 618; 1803; 229; 2896; 0; 582; 4052; 3300; 0; 944; 2087; 3989;
    485; 232; 0; 0; 0; 3728; 517; 0; 864; 0; 0; 0; 3221; 4049; 0; 0;
    0; 493; 903; 1497; 0; 787; 0; 2564; 1894; 799; 0; 1280; 433; 173; 0; 0;
    47; 2353; 1195; 0; 1597; 3096; 523; 3695; 0; 1527; 0; 812; 4098; 0; 735; 0;
    1697; 2098; 0; 0; 0; 0; 0; 3911; 2529; 0; 2032; 3395; 3011; 0; 4501; 2600;
    0; 0; 0; 549; 1931; 155; 0; 4507; 1214; 0; 0; 2698; 0; 0; 0; 1606;
    0; 2767; 0; 883; 0; 2294; 0; 0; 0; 2708; 1558; 2067; 0; 0; 2249; 567;
    1924; 0; 3368; 39; 0; 0; 3829; 4473; 0; 0; 0; 0; 547; 1076; 1973; 3957;
    3065; 0; 2783; 4377; 1662; 1877; 0; 0; 3294; 2583; 2904; 0; 442; 497; 1632; 1736;
    3277; 1019; 2510; 0; 4326; 0; 3958; 4650; 435; 0; 305; 0; 0; 2390; 0; 3122;
    1201; 3405; 527; 0; 0; 0; 0; 4223; 1480; 978; 2867; 2281; 0; 0; 0; 0;
    1442; 4711; 0; 3597; 0; 0; 3717; 0; 0; 0; 2032; 0; 0; 4089; 0; 0;
    0; 0; 0; 2610; 1742; 0; 17; 0; 0; 3575; 263; 4577; 609; 1013; 0; 0;
    0; 4378; 0; 0; 479; 1367; 0; 2447; 4698; 4689; 0; 0; 2643; 0; 0; 0;
    819; 4068; 0; 3116; 0; 3087; 2854; 319; 0; 1962; 905; 1672; 2022; 0; 529; 1864;
    4546; 1875; 0; 0; 0; 389; 1015; 760; 0; 499; 0; 2334; 1743; 0; 1983; 487;
    0; 0; 0; 4074; 843; 0; 0; 0; 496; 0; 0; 4170; 4477; 3819; 0; 0;
    2974; 0; 0; 294; 1899; 0; 1840; 0; 2283; 0; 0; 0; 0; 3022; 0; 87;
    0; 2220; 4451; 764; 3810; 0; 4345; 3041; 0; 4311; 0; 0; 0; 0; 0; 0;
    0; 0; 0; 3789; 0; 0; 3458; 2545; 0; 0; 594; 0; 0; 0; 0; 0;
    2419; 2452; 217; 970; 0; 1175; 0; 0; 0; 0; 1353; 2117; 0; 0; 891; 545;
    0; 0; 4464; 0; 0; 2861; 0; 904; 722; 0; 74; 1088; 0; 2126; 3430; 0;
    4598; 0; 0; 1123; 3907; 2775; 0; 0; 0; 0; 2502; 861; 1294; 4666; 0; 3975;
    3547; 431; 2445; 2471; 0; 814; 0; 0; 0; 3736; 1699; 0; 2086; 0; 2827; 3905;
    4649; 0; 0; 2147; 3403; 2554; 3977; 2253; 584; 1973; 1902; 0; 0; 3349; 0; 841;
    993; 1961; 0; 0; 0; 2177; 0; 923; 2037; 1758; 0; 4163; 0; 0; 0; 0;
    678; 1572; 2312; 2016; 2965; 0; 0; 213; 1074; 0; 1889; 0; 3602; 485; 1551; 0;
    553; 0; 0; 4198; 3283; 0; 2026; 184; 3012; 3456; 81; 3392; 2831; 811; 0; 0;
    1471; 0; 0; 662; 3240; 0; 1118; 0; 1563; 126; 0; 3327; 3698; 0; 179; 0;
    2381; 752; 0; 0; 4704; 649; 73; 4029; 0; 1523; 32; 0; 0; 0; 0; 1334;
    0; 0; 0; 0; 362; 0; 0; 0; 0; 4144; 0; 1042; 0; 3169; 0; 2473;
    0; 2292; 0; 3285; 0; 1661; 656; 0; 0; 0; 639; 1728; 2337; 114; 0; 0;
    489; 2986; 3703; 2666; 0; 1073; 1543; 2527; 321; 0; 980; 0; 0; 0; 0; 2528;
    0; 1074; 612; 2346; 0; 0; 0; 1457; 4019; 2685; 0; 0; 555; 75; 0; 0;
    0; 3946; 0; 910; 0; 2422; 0; 0; 3644; 1311; 1095; 2347; 0; 0; 0; 0;
    4214; 2287; 0; 1880; 0; 3867; 0; 0; 601; 2485; 4254; 4679; 0; 211; 2297; 0;
    1083; 1693; 568; 0; 0; 0; 3599; 0; 0; 501; 1520; 0; 788; 0; 0; 0;
    2842; 3475; 3951; 66; 0; 3384; 0; 0; 4661; 0; 2286; 1248; 0; 4446; 1452; 0;
    47; 2470; 0; 845; 0; 121; 3567; 1278; 494; 0; 4130; 4682; 1386; 3838; 0; 3493;
    1507; 0; 113; 434; 1637; 0; 1911; 574; 3915; 1927; 0; 0; 0; 3362; 1246; 0;
    1224; 0; 0; 3350; 0; 2382; 0; 1419; 0; 3047; 1367; 761; 0; 289; 0; 0;
    2359; 0; 0; 0; 1110; 4699; 0; 2951; 1290; 1706; 0; 0; 926; 2800; 4140; 0;
    0; 3862; 465; 4000; 2555; 0; 1897; 0; 0; 745; 0; 1261; 3465; 2648; 198; 0;
    3685; 1098; 0; 3467; 335; 1760; 457; 0; 0; 0; 977; 0; 847; 0; 3565; 0;
    318; 691; 1114; 0; 2057; 0; 3983; 245; 0; 2775; 0; 0; 478; 0; 0; 2562;
    3756; 0; 1431; 0; 498; 329; 0; 2480; 3007; 20; 3970; 4715; 0; 0; 329; 436;
    1402; 781; 0; 30; 0; 2348; 911; 0; 1598; 0; 255; 1746; 154; 0; 1987; 0;
    2337; 1904; 0; 3973; 0; 1747; 4611; 929; 0; 0; 0; 0; 0; 0; 1897; 222;
    0; 2606; 1288; 0; 0; 2150; 440; 1486; 4373; 753; 2333; 0; 0; 1279; 0; 0;
    0; 4063; 0; 808; 0; 2462; 3093; 0; 0; 2582; 377; 0; 3768; 0; 0; 1836;
    0; 0; 0; 1974; 0; 0; 2708; 882; 3495; 1278; 733; 1189; 4127; 4448; 4429; 2133;
    0; 0; 2996; 0; 0; 2645; 0; 0; 930; 3543; 0; 611; 0; 0; 0; 1963;
    500; 430; 0; 2059; 3942; 0; 0; 0; 3894; 0; 0; 1778; 0; 4501; 0; 0;
    0; 83; 186; 0; 0; 4142; 939; 0; 0; 3777; 657; 0; 3484; 1839; 3767; 145;
    838; 0; 0; 1005; 855; 1614; 0; 52; 0; 0; 0; 2110; 0; 847; 846; 78;
    0; 1549; 0; 0; 618; 1138; 0; 2883; 783; 3948; 4563; 411; 1752; 0; 160; 1724;
    269; 0; 3179; 4107; 1293; 188; 0; 3345; 2708; 2564; 4114; 1121; 2300; 0; 46; 0;
    0; 2611; 0; 2611; 0; 0; 546; 324; 0; 4676; 0; 0; 912; 0; 2601; 4546;
    3779; 4202; 3520; 2315; 0; 1251; 0; 2407; 2659; 0; 3366; 806; 0; 2453; 3569; 339;
    1882; 0; 0; 2432; 4462; 1067; 3465; 353; 2520; 2000; 2570; 0; 0; 1176; 2221; 0;
    2909; 0; 0; 1455; 4596; 209; 629; 0; 0; 0; 0; 2480; 2447; 1891; 0; 0;
    1861; 2932; 0; 0; 2902; 0; 317; 2203; 1926; 0; 1532; 0; 0; 85; 0; 0;
    1387; 1560; 1487; 1251; 0; 4330; 146; 341; 0; 1391; 0; 4075; 0; 1288; 0; 0;
    0; 0; 0; 1467; 0; 596; 3043; 554; 0; 3234; 1237; 52; 1459; 0; 2594; 0;
    3938; 1128; 548; 2998; 0; 3558; 0; 0; 3528; 0; 4324; 0; 0; 0; 0; 348;
    3060; 0; 3292; 3274; 4089; 0; 4100; 3375; 0; 2200; 296; 2000; 4724; 0; 1820; 0;
    0; 0; 180; 0; 0; 0; 0; 0; 160; 4384; 0; 0; 1895; 895; 0; 4370;
    0; 972; 4698; 0; 1402; 0; 4128; 0; 2383; 3053; 4093; 0; 793; 0; 3431; 0;
    357; 4514; 3782; 0; 633; 0; 0; 2005; 2143; 1016; 151; 2202; 13; 1809; 603; 0;
    285; 4654; 0; 0; 0; 0; 387; 1904; 1509; 744; 319; 0; 897; 0; 1407; 4435;
    2470; 1377; 0; 3841; 603; 4677; 892; 3216; 1210; 0; 0; 3025; 2191; 3379; 3017; 4666;
    0; 0; 4613; 1443; 0; 0; 0; 2484; 0; 2138; 1281; 1097; 1535; 577; 0; 0;
    0; 0; 0; 0; 1790; 0; 536; 0; 3946; 3162; 1631; 4031; 1471; 0; 1310; 418;
    823; 0; 2575; 577; 721; 0; 0; 1337; 707; 4253; 765; 0; 0; 2179; 1193; 2637;
    0; 0; 4089; 2777; 2568; 0; 1562; 457; 3250; 0; 3715; 1611; 689; 0; 0; 675;
    0; 0; 2297; 0; 2055; 0; 1207; 239; 503; 301; 1662; 4441; 0; 3101; 1289; 3765;
    1081; 0; 135; 0; 560; 0; 2364; 3485; 0; 2316; 996; 2133; 0; 623; 0; 576;
    888; 2715; 406; 0; 0; 0; 0; 2630; 4633; 0; 1391; 0; 1685; 0; 0; 3147;
    3649; 376; 342; 736; 1117; 1314; 2622; 1581; 4379; 0; 0; 354; 0; 2151; 0; 2950;
    1067; 1422; 369; 867; 303; 3057; 0; 0; 3043; 0; 0; 586; 1288; 411; 148; 3104;
    0; 675; 2052; 5; 0; 4018; 768; 0; 172; 202; 0; 2365; 0; 0; 2176; 3161;
    0; 1045; 2067; 0; 860; 0; 979; 2562; 3109; 384; 316; 0; 1309; 0; 3087; 0;
    3614; 0; 1475; 3753; 513; 562; 2286; 0; 0; 1030; 440; 0; 3232; 723; 510; 0;
    4440; 0; 0; 3454; 0; 413; 1637; 416; 4237; 3533; 1933; 599; 0; 0; 143; 2374;
    2301; 2291; 786; 0; 0; 0; 2733; 0; 0; 3813; 1977; 0; 720; 0; 2106; 1075;
    1471; 1067; 1839; 0; 2226; 2012; 1902; 67; 0; 0; 0; 1690; 3714; 1883; 224; 0;
    602; 0; 2213; 1471; 54; 0; 1231; 0; 0; 658; 2152; 0; 1796; 857; 2369; 0;
    0; 1932; 392; 1925; 0; 0; 515; 0; 1592; 0; 4001; 0; 2658; 865; 266; 1706;
    3427; 4332; 4548; 0; 1654; 0; 0; 3780; 0; 390; 0; 1745; 0; 0; 1504; 2396;
    0; 2308; 0; 1380; 2246; 1979; 0; 1908; 401; 2853; 1273; 3647; 542; 3914; 0; 0;
    1147; 4140; 0; 394; 0; 3778; 0; 1198; 4608; 0; 3; 2626; 0; 1431; 1649; 1844;
    1065; 2984; 1141; 0; 2319; 368; 0; 0; 2404; 857; 0; 2428; 64; 0; 3871; 1983;
    408; 2992; 2518; 992; 0; 0; 3925; 1100; 602; 0; 900; 3422; 0; 328; 4330; 2054;
    0; 2574; 454; 0; 0; 2948; 4320; 2165; 0; 0; 0; 615; 4046; 4702; 1461; 2168;
    0; 0; 398; 4485; 0; 3883; 1637; 66; 1513; 0; 0; 1844; 881; 370; 3978; 171;
    1162; 3104; 0; 460; 0; 823; 0; 0; 659; 4033; 1444; 0; 0; 0; 2421; 4090;
    0; 1440; 2511; 912; 3901; 1912; 0; 3823; 4593; 4629; 2848; 0; 1410; 92; 4050; 4466;
    0; 865; 0; 0; 3521; 0; 0; 2370; 2598; 2303; 0; 4410; 4626; 3576; 355; 0;
    258; 803; 0; 1243; 0; 3473; 0; 3649; 0; 0; 3619; 462; 807; 426; 1184; 4424;
    1394; 1190; 0; 1033; 1576; 1688; 0; 0; 2286; 0; 0; 3963; 1404; 883; 915; 0;
    3003; 4060; 814; 1174; 0; 2476; 372; 2883; 0; 3206; 0; 0; 39; 1758; 3439; 0;
    1021; 3925; 504; 0; 0; 1185; 0; 1730; 4055; 3862; 2609; 0; 0; 0; 0; 4278;
    525; 0; 2214; 0; 93; 0; 0; 0; 2976; 0; 741; 2392; 2051; 0; 4313; 1230;
    3228; 2514; 1618; 1682; 0; 3264; 2608; 4297; 2227; 478; 0; 1325; 0; 374; 4333; 2189;
    4639; 0; 4597; 0; 1322; 0; 0; 0; 2209; 418; 3696; 0; 2364; 0; 3022; 575;
    1675; 0; 0; 4035; 4543; 500; 0; 1516; 0; 4675; 1963; 3833; 2318; 3179; 0; 424;
    288; 3869; 0; 2698; 3961; 1529; 644; 0; 1435; 3103; 0; 2035; 167; 0; 0; 0;
    634; 0; 0; 969; 1275; 3684; 2831; 184; 0; 0; 0; 94; 2534; 2531; 678; 1547;
    2575; 808; 3557; 0; 0; 0; 2056; 0; 3200; 0; 0; 0; 1929; 1; 1900; 0;
    1161; 3857; 482; 982; 0; 1609; 174; 426; 1254; 2465; 0; 2020; 0; 468; 236; 4019;
    0; 0; 188; 3024; 4040; 2646; 3568; 0; 488; 699; 3558; 0; 1806; 3245; 0; 3564;
    1439; 4179; 0; 4606; 0; 0; 0; 0; 1557; 0; 641; 0; 0; 4360; 3481; 0;
    0; 0; 347; 0; 0; 0; 1781; 0; 0; 0; 820; 371; 1211; 0; 0; 3908;
    1260; 0; 1148; 0; 4727; 0; 0; 1359; 3907; 998; 3106; 514; 716; 1603; 793; 994;
    490; 1903; 68; 1687; 4605; 0; 926; 0; 0; 0; 2120; 377; 0; 4313; 2038; 0;
    428; 2515; 1622; 0; 0; 1888; 0; 0; 3400; 849; 1146; 0; 2595; 126; 0; 1947;
    0; 0; 2134; 0; 0; 1656; 4709; 0; 0; 2861; 2496; 1857; 3277; 0; 1072; 0;
    2546; 301; 1759; 469; 0; 1782; 0; 0; 0; 1984; 4061; 2857; 1113; 3598; 1453; 4062;
    4716; 0; 2344; 0; 202; 427; 382; 2236; 1260; 4555; 0; 1173; 1782; 1924; 1120; 0;
    886; 0; 0; 0; 516; 4266; 1694; 3890; 3095; 492; 1553; 2221; 0; 1697; 432; 0;
    0; 0; 0; 0; 1283; 3070; 3968; 3987; 0; 0; 425; 394; 0; 0; 3929; 1280;
    0; 879; 2448; 0; 0; 2312; 0; 2988; 669; 1880; 628; 0; 1986; 2587; 0; 0;
    0; 0; 1546; 50; 0; 2298; 0; 0; 0; 1464; 1439; 0; 4084; 0; 0; 0;
    1520; 1066; 3612; 112; 0; 0; 4613; 1814; 4644; 0; 1771; 1817; 1351; 26; 302; 134;
    264; 2206; 524; 0; 0; 0; 0; 817; 1910; 0; 0; 0; 0; 0; 0; 1879;
    0; 0; 2341; 2308; 0; 0; 0; 0; 0; 3647; 258; 4126; 1100; 2512; 2087; 976;
    0; 0; 0; 2255; 2502; 2477; 2440; 0; 0; 0; 2241; 0; 2273; 1086; 894; 0;
    0; 3812; 2202; 0; 0; 2158; 1792; 0; 4517; 0; 0; 1850; 356; 1337; 2298; 0;
    988; 700; 2441; 3511; 2063; 1900; 549; 1980; 2179; 0; 4393; 540; 4089; 2183; 1173; 1651;
    2436; 0; 0; 806; 897; 1081; 1101; 98; 4401; 63; 4408; 303; 1797; 0; 1876; 2295;
    0; 3383; 0; 0; 0; 2167; 4088; 0; 0; 0; 944; 303; 1206; 0; 2273; 3599;
    4407; 0; 2967; 4268; 0; 3071; 0; 4672; 1784; 1548; 0; 2728; 3467; 3118; 0; 0;
    1124; 0; 0; 0; 860; 1670; 3349; 3176; 0; 64; 0; 2008; 1671; 244; 1905; 4625;
    2526; 2321; 2943; 0; 0; 1512; 0; 264; 0; 544; 3062; 1340; 0; 0; 0; 1827;
    3892; 2784; 2971; 0; 631; 0; 1648; 0; 872; 3572; 0; 655; 0; 0; 2581; 321;
    2820; 0; 371; 3379; 7; 3198; 749; 0; 0; 0; 821; 0; 4567; 0; 1182; 2895;
    1961; 1962; 523; 0; 0; 0; 873; 3184; 196; 4475; 0; 4271; 0; 0; 0; 2578;
    2963; 150; 3272; 146; 0; 1132; 4085; 0; 304; 1106; 1650; 1521; 27; 3896; 1732; 1197;
    1297; 3896; 2390; 437; 1879; 0; 0; 0; 0; 0; 928; 0; 0; 0; 0; 3585;
    3192; 4480; 606; 316; 0; 0; 0; 3182; 636; 2686; 0; 2299; 811; 0; 3398; 4676;
    1249; 0; 1972; 2017; 0; 1114; 2499; 0; 2576; 4017; 0; 1631; 4453; 859; 4326; 0;
    627; 880; 3274; 1109; 439; 0; 677; 1276; 0; 1322; 702; 2557; 0; 0; 0; 868;
    0; 140; 0; 0; 0; 79; 0; 863; 1149; 2938; 0; 2401; 2715; 2612; 0; 3413;
    0; 3138; 1356; 0; 1474; 2492; 3951; 1637; 0; 3187; 3741; 210; 0; 879; 2045; 0;
    1529; 4245; 0; 237; 0; 305; 3785; 2290; 3998; 1810; 3664; 2868; 1202; 3469; 1196; 0;
    801; 588; 1010; 0; 0; 746; 2633; 0; 0; 4379; 0; 2410; 2849; 539; 3929; 4354;
    4656; 1448; 1491; 0; 1718; 1804; 0; 0; 0; 2064; 3659; 645; 907; 0; 2990; 755;
    1642; 0; 2555; 407; 2009; 1339; 0; 0; 1533; 562; 0; 834; 3805; 1023; 0; 4661;
    0; 2524; 4129; 1866; 0; 0; 4694; 1860; 1406; 1761; 2395; 0; 0; 4426; 1742; 0;
    4600; 2017; 0; 4665; 33; 1634; 4663; 1146; 0; 0; 3478; 0; 885; 252; 0; 0;
    0; 1220; 1272; 0; 3055; 2532; 514; 2825; 2816; 0; 0; 0; 1652; 0; 1602; 1247;
    4221; 331; 3858; 1440; 647; 0; 355; 63; 2607; 928; 2321; 0; 0; 2414; 833; 2639;
    405; 0; 0; 0; 1707; 817; 3347; 4524; 0; 1508; 4014; 2145; 0; 1969; 1779; 713;
    2259; 3692; 0; 4089; 3226; 2382; 707; 1918; 565; 773; 2744; 0; 1354; 3404; 0; 4634;
    4112; 290; 1644; 0; 0; 0; 0; 0; 2321; 1719; 0; 2087; 0; 0; 0; 0;
    0; 1194; 2571; 2149; 1470; 2891; 2960; 2027; 0; 646; 2450; 0; 64; 928; 2424; 626;
    0; 2136; 0; 4666; 0; 0; 594; 0; 0; 0; 0; 1937; 2046; 0; 2560; 1435;
    651; 1553; 0; 3008; 0; 870; 0; 3724; 0; 4185; 431; 0; 2397; 4063; 3847; 307;
    0; 2589; 2523; 4483; 0; 0; 972; 1036; 2080; 4594; 3046; 0; 1732; 829; 1422; 0;
    0; 0; 0; 880; 0; 649; 0; 2284; 0; 4000; 0; 3215; 3424; 1785; 1695; 0;
    2407; 0; 174; 601; 4401; 4581; 2599; 129; 0; 0; 4412; 1226; 1153; 0; 3289; 2928;
    1025; 0; 909; 4337; 0; 2377; 3266; 1683; 4197; 0; 0; 0; 2561; 2300; 2543; 0;
    0; 0; 3362; 2846; 1550; 2043; 1281; 1172; 282; 0; 0; 0; 0; 899; 0; 0;
    0; 0; 0; 2369; 0; 4602; 3267; 0; 635; 0; 1747; 0; 204; 2256; 1369; 588;
    1627; 465; 0; 992; 260; 0; 2294; 0; 0; 3233; 0; 0; 308; 0; 0; 0;
    2264; 0; 0; 2452; 0; 1862; 838; 0; 3330; 0; 727; 2962; 1858; 717; 0; 2426;
    1522; 0; 0; 2543; 0; 28; 2265; 50; 3755; 0; 2591; 2081; 0; 0; 2399; 1670;
    3888; 0; 0; 2086; 0; 1159; 983; 0; 1320; 0; 658; 1357; 1285; 0; 0; 0;
    0; 2519; 0; 0; 945; 1271; 4069; 0; 0; 0; 0; 68; 1057; 0; 996; 0;
    0; 11; 4521; 0; 1804; 3252; 627; 0; 211; 2366; 1819; 0; 1856; 2343; 685; 0;
    297; 1255; 4045; 0; 0; 0; 145; 0; 0; 0; 0; 0; 1807; 0; 0; 2040;
    0; 2508; 1850; 0; 0; 0; 839; 1006; 604; 0; 548; 0; 2169; 3345; 203; 1143;
    963; 1636; 1437; 1769; 0; 0; 2330; 0; 0; 971; 729; 1811; 0; 0; 849; 1739;
    4074; 3371; 603; 1102; 0; 1534; 1042; 4659; 0; 2270; 2763; 3743; 437; 2101; 1825; 2546;
    3988; 2426; 1930; 0; 0; 2446; 0; 0; 0; 0; 2426; 0; 0; 0; 430; 2586;
    1104; 0; 0; 0; 4655; 2306; 0; 0; 911; 0; 3992; 1454; 0; 893; 648; 800;
    4667; 1735; 3665; 1309; 1289; 3339; 1905; 0; 0; 615; 0; 2805; 2232; 2287; 0; 2525;
    1229; 1458; 0; 3577; 1576; 2634; 265; 3887; 205; 1320; 0; 484; 3128; 1331; 2216; 772;
    2404; 0; 0; 0; 3789; 3644; 0; 1949; 0; 1340; 1762; 1038; 0; 1061; 0; 2724;
    1530; 3962; 0; 399; 0; 2312; 139; 694; 826; 1850; 1942; 0; 1544; 0; 0; 57;
    1841; 0; 137; 2514; 0; 0; 337; 1964; 0; 0; 2367; 959; 3038; 2973; 4534; 1330;
    3212; 0; 1726; 3276; 3385; 1571; 0; 2060; 0; 0; 2341; 0; 719; 1808; 0; 2569;
    0; 0; 877; 0; 0; 4030; 0; 3309; 2769; 0; 910; 326; 0; 4509; 3416; 664;
    0; 0; 1646; 3822; 831; 0; 2921; 1291; 1582; 1942; 0; 2093; 1772; 2313; 1766; 1508;
    2260; 0; 0; 685; 1967; 1230; 586; 0; 0; 0; 0; 0; 0; 0; 0; 0;
    0; 839; 0; 320; 1151; 1731; 1725; 253; 0; 1723; 1753; 0; 0; 1938; 4224; 3515;
    0; 3968; 3700; 1343; 4239; 1299; 0; 0; 0; 2955; 0; 4190; 1820; 170; 3847; 3490;
    110; 548; 4394; 3241; 0; 0; 0; 3034; 793; 3392; 447; 1209; 4098; 4509; 0; 0;
    0; 636; 1538; 1554; 4653; 0; 1229; 0; 0; 814; 3427; 0; 3290; 285; 1729; 2139;
    2762; 1556; 0; 4252; 820; 818; 2304; 3361; 615; 4020; 4045; 1831; 1330; 534; 913; 2293;
    4481; 0; 2456; 0; 2395; 1985; 842; 0; 157; 2138; 0; 0; 0; 0; 987; 2958;
    0; 1930; 1942; 4532; 266; 1408; 4250; 65; 1260; 3712; 0; 4602; 249; 2140; 4175; 1156;
    2256; 220; 0; 640; 172; 2195; 578; 948; 135; 2318; 0; 0; 2047; 3333; 874; 1286;
    0; 0; 0; 1368; 119; 2267; 49; 0; 3919; 1039; 0; 0; 4674; 585; 1860; 4514;
    815; 2552; 0; 2797; 2624; 4528; 885; 1186; 92; 3537; 2071; 2495; 1654; 0; 0; 1090;
    789; 4660; 5; 1018; 1280; 2592; 2148; 3571; 0; 0; 940; 1417; 946; 3921; 3873; 560;
    2408; 0; 0; 0; 0; 1390; 2455; 2197; 0; 884; 0; 890; 642; 0; 2256; 2372;
    0; 0; 2510; 2242; 0; 1722; 1558; 1598; 0; 69; 2603; 0; 0; 1268; 565; 1909;
    295; 0; 0; 101; 655; 0; 3472; 2057; 2475; 0; 3619; 407; 2466; 1488; 1769; 952;
    0; 0; 249; 2403; 1359; 3310; 2724; 1846; 4386; 406; 144; 1235; 0; 1228; 2600; 0;
    0; 2991; 0; 493; 1439; 0; 191; 3708; 0; 0; 0; 2050; 693; 0; 233; 0;
    0; 800; 0; 0; 927; 0; 0; 0; 2373; 0; 0; 0; 1135; 1757; 3752; 4682;
    2193; 951; 1182; 1492; 2144; 0; 2011; 0; 1793; 0; 0; 0; 2026; 2634; 103; 0;
    1869; 1772; 1941; 1732; 471; 0; 2105; 0; 0; 2459; 0; 0; 3668; 0; 0; 1003;
    1264; 3574; 4208; 247; 3047; 1697; 0; 990; 1134; 4693; 0; 1459; 3190; 2055; 1020; 1607;
    0; 798; 0; 3466; 3753; 0; 3717; 0; 4495; 0; 3159; 3274; 0; 39; 3470; 4571;
    0; 1688; 2699; 0; 0; 4592; 600; 2354; 277; 2185; 0 ].

Definition name_to_keysym : list name_keysym :=
  [ mk_name 0x00000030 0; mk_name 0x00000031 2; mk_name 0x00000032 4; mk_name 0x00000033 6;
    mk_name 0x0000fd10 8; mk_name 0x0000fd0e 23; mk_name 0x0000fd05 33; mk_name 0x0000fd19 46;
    mk_name 0x0000fd15 64; mk_name 0x0000fd0f 74; mk_name 0x0000fd1c 91; mk_name 0x0000fd1a 109;
    mk_name 0x0000fd01 125; mk_name 0x0000fd1e 140; mk_name 0x0000fd06 151; mk_name 0x0000fd07 165;
    mk_name 0x0000fd1b 181; mk_name 0x0000fd02 195; mk_name 0x0000fd13 210; mk_name 0x0000fd12 221;
    mk_name 0x0000fd11 231; mk_name 0x0000fd04 245; mk_name 0x0000fd0a 256; mk_name 0x0000fd0b 265;
    mk_name 0x0000fd0c 274; mk_name 0x0000fd16 283; mk_name 0x0000fd1d 293; mk_name 0x0000fd09 310;
    mk_name 0x0000fd18 320; mk_name 0x0000fd08 332; mk_name 0x0000fd03 343; mk_name 0x0000fd14 355;
    mk_name 0x0000fd17 365; mk_name 0x0000fd0d 376; mk_name 0x00000034 386; mk_name 0x00000035 388;
    mk_name 0x00000036 390; mk_name 0x00000037 392; mk_name 0x00000038 394; mk_name 0x00000039 396;
    mk_name 0x00000041 398; mk_name 0x00000061 400; mk_name 0x000000c1 402; mk_name 0x000000e1 409;
    mk_name 0x01001ea0 416; mk_name 0x01001ea1 426; mk_name 0x000001ff 436; mk_name 0x000001c3 445;
    mk_name 0x000001e3 452; mk_name 0x01001eae 459; mk_name 0x01001eaf 471; mk_name 0x01001eb6 483;
    mk_name 0x01001eb7 498; mk_name 0x01001eb0 513; mk_name 0x01001eb1 525; mk_name 0x01001eb2 537;
    mk_name 0x01001eb3 548; mk_name 0x01001eb4 559; mk_name 0x01001eb5 571; mk_name 0x0000fe70 583;
    mk_name 0x0000fe71 598; mk_name 0x000000c2 622; mk_name 0x000000e2 634; mk_name 0x01001ea4 646;
    mk_name 0x01001ea5 663; mk_name 0x01001eac 680; mk_name 0x01001ead 700; mk_name 0x01001ea6 720;
    mk_name 0x01001ea7 737; mk_name 0x01001ea8 754; mk_name 0x01001ea9 770; mk_name 0x01001eaa 786;
    mk_name 0x01001eab 803; mk_name 0x000000b4 820; mk_name 0x000000c4 826; mk_name 0x000000e4 837;
    mk_name 0x000000c6 848; mk_name 0x000000e6 851; mk_name 0x000000c0 854; mk_name 0x000000e0 861;
    mk_name 0x01001ea2 868; mk_name 0x01001ea3 874; mk_name 0x0000ffe9 880; mk_name 0x0000ffea 886;
    mk_name 0x000003c0 892; mk_name 0x000003e0 900; mk_name 0x00000026 908; mk_name 0x000001a1 918;
    mk_name 0x000001b1 926; mk_name 0x00000027 934; mk_name 0x01002248 945; mk_name 0x000008c8 954;
    mk_name 0x01000660 966; mk_name 0x01000661 975; mk_name 0x01000662 984; mk_name 0x01000663 993;
    mk_name 0x01000664 1002; mk_name 0x01000665 1011; mk_name 0x01000666 1020; mk_name 0x01000667 1029;
    mk_name 0x01000668 1038; mk_name 0x01000669 1047; mk_name 0x000005d9 1056; mk_name 0x000005c7 1067;
    mk_name 0x000005e9 1079; mk_name 0x000005c8 1098; mk_name 0x000005ac 1109; mk_name 0x000005d6 1122;
    mk_name 0x000005cf 1133; mk_name 0x000005ef 1144; mk_name 0x000005ec 1157; mk_name 0x01000688 1173;
    mk_name 0x010006cc 1185; mk_name 0x000005ee 1202; mk_name 0x000005eb 1215; mk_name 0x000005e1 1231;
    mk_name 0x010006d4 1242; mk_name 0x010006af 1258; mk_name 0x000005da 1269; mk_name 0x000005e7 1282;
    mk_name 0x000005cd 1292; mk_name 0x000005c1 1303; mk_name 0x01000654 1316; mk_name 0x01000655 1335;
    mk_name 0x000005c3 1354; mk_name 0x000005c4 1373; mk_name 0x000005c6 1391; mk_name 0x000005c5 1409;
    mk_name 0x000005e7 1431; mk_name 0x010006be 1442; mk_name 0x010006c1 1465; mk_name 0x000005cc 1481;
    mk_name 0x01000698 1493; mk_name 0x000005e3 1504; mk_name 0x000005f0 1515; mk_name 0x000005ed 1528;
    mk_name 0x010006a9 1544; mk_name 0x000005ce 1557; mk_name 0x000005e4 1569; mk_name 0x01000653 1580;
    mk_name 0x000005c2 1599; mk_name 0x000005e5 1618; mk_name 0x000005e6 1630; mk_name 0x010006ba 1642;
    mk_name 0x0100067e 1661; mk_name 0x0100066a 1672; mk_name 0x000005e2 1687; mk_name 0x000005bf 1698;
    mk_name 0x000005d1 1719; mk_name 0x01000691 1729; mk_name 0x000005d5 1741; mk_name 0x000005d3 1752;
    mk_name 0x000005bb 1764; mk_name 0x000005f1 1781; mk_name 0x000005d4 1795; mk_name 0x000005f2 1808;
    mk_name 0x01000670 1821; mk_name 0x0000ff7e 1845; mk_name 0x000005d7 1859; mk_name 0x000005e0 1870;
    mk_name 0x01000686 1885; mk_name 0x000005ca 1898; mk_name 0x000005c9 1909; mk_name 0x000005d0 1927;
    mk_name 0x000005cb 1939; mk_name 0x01000679 1951; mk_name 0x010006a4 1963; mk_name 0x000005e8 1974;
    mk_name 0x000005ea 1985; mk_name 0x010006d2 1996; mk_name 0x000005d8 2013; mk_name 0x000005d2 2024;
    mk_name 0x000000c5 2036; mk_name 0x000000e5 2042; mk_name 0x0100055b 2048; mk_name 0x0100055c 2064;
    mk_name 0x0100055a 2080; mk_name 0x01000538 2100; mk_name 0x01000568 2112; mk_name 0x01000531 2124;
    mk_name 0x01000561 2137; mk_name 0x01000532 2150; mk_name 0x01000562 2163; mk_name 0x0100055d 2176;
    mk_name 0x01000549 2189; mk_name 0x01000579 2202; mk_name 0x01000534 2215; mk_name 0x01000564 2227;
    mk_name 0x01000541 2239; mk_name 0x01000571 2252; mk_name 0x01000537 2265; mk_name 0x01000567 2276;
    mk_name 0x0100055c 2287; mk_name 0x01000556 2303; mk_name 0x01000586 2315; mk_name 0x01000589 2327;
    mk_name 0x01000542 2346; mk_name 0x01000572 2360; mk_name 0x01000533 2374; mk_name 0x01000563 2387;
    mk_name 0x01000545 2400; mk_name 0x01000575 2412; mk_name 0x01000540 2424; mk_name 0x01000570 2436;
    mk_name 0x0100058a 2448; mk_name 0x0100053b 2464; mk_name 0x0100056b 2477; mk_name 0x0100054b 2490;
    mk_name 0x0100057b 2502; mk_name 0x01000554 2514; mk_name 0x01000584 2526; mk_name 0x0100053f 2538;
    mk_name 0x0100056f 2551; mk_name 0x0100053d 2564; mk_name 0x0100056d 2577; mk_name 0x01000587 2590;
    mk_name 0x0100053c 2611; mk_name 0x0100056c 2625; mk_name 0x01000544 2639; mk_name 0x01000574 2652;
    mk_name 0x01000546 2665; mk_name 0x01000576 2677; mk_name 0x01000555 2689; mk_name 0x01000585 2700;
    mk_name 0x0100055e 2711; mk_name 0x0100054a 2727; mk_name 0x0100057a 2739; mk_name 0x01000553 2751;
    mk_name 0x01000583 2765; mk_name 0x0100055e 2779; mk_name 0x0100054c 2797; mk_name 0x0100057c 2809;
    mk_name 0x01000550 2821; mk_name 0x01000580 2833; mk_name 0x0100054d 2845; mk_name 0x0100057d 2857;
    mk_name 0x0100055d 2869; mk_name 0x01000547 2894; mk_name 0x01000577 2907; mk_name 0x0100055b 2920;
    mk_name 0x01000543 2936; mk_name 0x01000573 2950; mk_name 0x01000539 2964; mk_name 0x01000569 2976;
    mk_name 0x0100053e 2988; mk_name 0x0100056e 3001; mk_name 0x01000551 3014; mk_name 0x01000581 3027;
    mk_name 0x0100054f 3040; mk_name 0x0100057f 3054; mk_name 0x01000589 3068; mk_name 0x0100054e 3086;
    mk_name 0x0100057e 3099; mk_name 0x01000548 3112; mk_name 0x01000578 3124; mk_name 0x01000552 3136;
    mk_name 0x01000582 3150; mk_name 0x01000535 3164; mk_name 0x01000565 3178; mk_name 0x0100058a 3192;
    mk_name 0x01000536 3210; mk_name 0x01000566 3222; mk_name 0x0100053a 3234; mk_name 0x0100056a 3247;
    mk_name 0x0000005e 3260; mk_name 0x0000007e 3272; mk_name 0x0000002a 3283; mk_name 0x00000040 3292;
    mk_name 0x000000c3 3295; mk_name 0x000000e3 3302; mk_name 0x0000fe7a 3309; mk_name 0x00000042 3328;
    mk_name 0x00000062 3330; mk_name 0x01001e02 3332; mk_name 0x01001e03 3342; mk_name 0x0000005c 3352;
    mk_name 0x0000ff08 3362; mk_name 0x1000ff74 3372; mk_name 0x00000af4 3380; mk_name 0x0000007c 3392;
    mk_name 0x01002235 3396; mk_name 0x0000ff58 3404; mk_name 0x000009df 3410; mk_name 0x100000fc 3416;
    mk_name 0x000008a5 3422; mk_name 0x000008ac 3434; mk_name 0x000008a8 3448; mk_name 0x000008b2 3465;
    mk_name 0x000008ae 3482; mk_name 0x000008aa 3497; mk_name 0x000008b6 3515; mk_name 0x000009f6 3533;
    mk_name 0x000008b4 3538; mk_name 0x0000fe74 3564; mk_name 0x0000007b 3582; mk_name 0x0000007d 3592;
    mk_name 0x0000005b 3603; mk_name 0x0000005d 3615; mk_name 0x01002800 3628; mk_name 0x0000fff1 3642;
    mk_name 0x0000fffa 3656; mk_name 0x0000fff2 3671; mk_name 0x0000fff3 3685; mk_name 0x0000fff4 3699;
    mk_name 0x0000fff5 3713; mk_name 0x0000fff6 3727; mk_name 0x0000fff7 3741; mk_name 0x0000fff8 3755;
    mk_name 0x0000fff9 3769; mk_name 0x01002801 3783; mk_name 0x01002803 3798; mk_name 0x01002807 3814;
    mk_name 0x0100280f 3831; mk_name 0x0100281f 3849; mk_name 0x0100283f 3868; mk_name 0x0100287f 3888;
    mk_name 0x010028ff 3909; mk_name 0x010028bf 3931; mk_name 0x0100285f 3952; mk_name 0x010028df 3972;
    mk_name 0x0100289f 3993; mk_name 0x0100282f 4013; mk_name 0x0100286f 4032; mk_name 0x010028ef 4052;
    mk_name 0x010028af 4073; mk_name 0x0100284f 4093; mk_name 0x010028cf 4112; mk_name 0x0100288f 4132;
    mk_name 0x01002817 4151; mk_name 0x01002837 4169; mk_name 0x01002877 4188; mk_name 0x010028f7 4208;
    mk_name 0x010028b7 4229; mk_name 0x01002857 4249; mk_name 0x010028d7 4268; mk_name 0x01002897 4288;
    mk_name 0x01002827 4307; mk_name 0x01002867 4325; mk_name 0x010028e7 4344; mk_name 0x010028a7 4364;
    mk_name 0x01002847 4383; mk_name 0x010028c7 4401; mk_name 0x01002887 4420; mk_name 0x0100280b 4438;
    mk_name 0x0100281b 4455; mk_name 0x0100283b 4473; mk_name 0x0100287b 4492; mk_name 0x010028fb 4512;
    mk_name 0x010028bb 4533; mk_name 0x0100285b 4553; mk_name 0x010028db 4572; mk_name 0x0100289b 4592;
    mk_name 0x0100282b 4611; mk_name 0x0100286b 4629; mk_name 0x010028eb 4648; mk_name 0x010028ab 4668;
    mk_name 0x0100284b 4687; mk_name 0x010028cb 4705; mk_name 0x0100288b 4724; mk_name 0x01002813 4742;
    mk_name 0x01002833 4759; mk_name 0x01002873 4777; mk_name 0x010028f3 4796; mk_name 0x010028b3 4816;
    mk_name 0x01002853 4835; mk_name 0x010028d3 4853; mk_name 0x01002893 4872; mk_name 0x01002823 4890;
    mk_name 0x01002863 4907; mk_name 0x010028e3 4925; mk_name 0x010028a3 4944; mk_name 0x01002843 4962;
    mk_name 0x010028c3 4979; mk_name 0x01002883 4997; mk_name 0x01002805 5014; mk_name 0x0100280d 5030;
    mk_name 0x0100281d 5047; mk_name 0x0100283d 5065; mk_name 0x0100287d 5084; mk_name 0x010028fd 5104;
    mk_name 0x010028bd 5125; mk_name 0x0100285d 5145; mk_name 0x010028dd 5164; mk_name 0x0100289d 5184;
    mk_name 0x0100282d 5203; mk_name 0x0100286d 5221; mk_name 0x010028ed 5240; mk_name 0x010028ad 5260;
    mk_name 0x0100284d 5279; mk_name 0x010028cd 5297; mk_name 0x0100288d 5316; mk_name 0x01002815 5334;
    mk_name 0x01002835 5351; mk_name 0x01002875 5369; mk_name 0x010028f5 5388; mk_name 0x010028b5 5408;
    mk_name 0x01002855 5427; mk_name 0x010028d5 5445; mk_name 0x01002895 5464; mk_name 0x01002825 5482;
    mk_name 0x01002865 5499; mk_name 0x010028e5 5517; mk_name 0x010028a5 5536; mk_name 0x01002845 5554;
    mk_name 0x010028c5 5571; mk_name 0x01002885 5589; mk_name 0x01002809 5606; mk_name 0x01002819 5622;
    mk_name 0x01002839 5639; mk_name 0x01002879 5657; mk_name 0x010028f9 5676; mk_name 0x010028b9 5696;
    mk_name 0x01002859 5715; mk_name 0x010028d9 5733; mk_name 0x01002899 5752; mk_name 0x01002829 5770;
    mk_name 0x01002869 5787; mk_name 0x010028e9 5805; mk_name 0x010028a9 5824; mk_name 0x01002849 5842;
    mk_name 0x010028c9 5859; mk_name 0x01002889 5877; mk_name 0x01002811 5894; mk_name 0x01002831 5910;
    mk_name 0x01002871 5927; mk_name 0x010028f1 5945; mk_name 0x010028b1 5964; mk_name 0x01002851 5982;
    mk_name 0x010028d1 5999; mk_name 0x01002891 6017; mk_name 0x01002821 6034; mk_name 0x01002861 6050;
    mk_name 0x010028e1 6067; mk_name 0x010028a1 6085; mk_name 0x01002841 6102; mk_name 0x010028c1 6118;
    mk_name 0x01002881 6135; mk_name 0x01002802 6151; mk_name 0x01002806 6166; mk_name 0x0100280e 6182;
    mk_name 0x0100281e 6199; mk_name 0x0100283e 6217; mk_name 0x0100287e 6236; mk_name 0x010028fe 6256;
    mk_name 0x010028be 6277; mk_name 0x0100285e 6297; mk_name 0x010028de 6316; mk_name 0x0100289e 6336;
    mk_name 0x0100282e 6355; mk_name 0x0100286e 6373; mk_name 0x010028ee 6392; mk_name 0x010028ae 6412;
    mk_name 0x0100284e 6431; mk_name 0x010028ce 6449; mk_name 0x0100288e 6468; mk_name 0x01002816 6486;
    mk_name 0x01002836 6503; mk_name 0x01002876 6521; mk_name 0x010028f6 6540; mk_name 0x010028b6 6560;
    mk_name 0x01002856 6579; mk_name 0x010028d6 6597; mk_name 0x01002896 6616; mk_name 0x01002826 6634;
    mk_name 0x01002866 6651; mk_name 0x010028e6 6669; mk_name 0x010028a6 6688; mk_name 0x01002846 6706;
    mk_name 0x010028c6 6723; mk_name 0x01002886 6741; mk_name 0x0100280a 6758; mk_name 0x0100281a 6774;
    mk_name 0x0100283a 6791; mk_name 0x0100287a 6809; mk_name 0x010028fa 6828; mk_name 0x010028ba 6848;
    mk_name 0x0100285a 6867; mk_name 0x010028da 6885; mk_name 0x0100289a 6904; mk_name 0x0100282a 6922;
    mk_name 0x0100286a 6939; mk_name 0x010028ea 6957; mk_name 0x010028aa 6976; mk_name 0x0100284a 6994;
    mk_name 0x010028ca 7011; mk_name 0x0100288a 7029; mk_name 0x01002812 7046; mk_name 0x01002832 7062;
    mk_name 0x01002872 7079; mk_name 0x010028f2 7097; mk_name 0x010028b2 7116; mk_name 0x01002852 7134;
    mk_name 0x010028d2 7151; mk_name 0x01002892 7169; mk_name 0x01002822 7186; mk_name 0x01002862 7202;
    mk_name 0x010028e2 7219; mk_name 0x010028a2 7237; mk_name 0x01002842 7254; mk_name 0x010028c2 7270;
    mk_name 0x01002882 7287; mk_name 0x01002804 7303; mk_name 0x0100280c 7318; mk_name 0x0100281c 7334;
    mk_name 0x0100283c 7351; mk_name 0x0100287c 7369; mk_name 0x010028fc 7388; mk_name 0x010028bc 7408;
    mk_name 0x0100285c 7427; mk_name 0x010028dc 7445; mk_name 0x0100289c 7464; mk_name 0x0100282c 7482;
    mk_name 0x0100286c 7499; mk_name 0x010028ec 7517; mk_name 0x010028ac 7536; mk_name 0x0100284c 7554;
    mk_name 0x010028cc 7571; mk_name 0x0100288c 7589; mk_name 0x01002814 7606; mk_name 0x01002834 7622;
    mk_name 0x01002874 7639; mk_name 0x010028f4 7657; mk_name 0x010028b4 7676; mk_name 0x01002854 7694;
    mk_name 0x010028d4 7711; mk_name 0x01002894 7729; mk_name 0x01002824 7746; mk_name 0x01002864 7762;
    mk_name 0x010028e4 7779; mk_name 0x010028a4 7797; mk_name 0x01002844 7814; mk_name 0x010028c4 7830;
    mk_name 0x01002884 7847; mk_name 0x01002808 7863; mk_name 0x01002818 7878; mk_name 0x01002838 7894;
    mk_name 0x01002878 7911; mk_name 0x010028f8 7929; mk_name 0x010028b8 7948; mk_name 0x01002858 7966;
    mk_name 0x010028d8 7983; mk_name 0x01002898 8001; mk_name 0x01002828 8018; mk_name 0x01002868 8034;
    mk_name 0x010028e8 8051; mk_name 0x010028a8 8069; mk_name 0x01002848 8086; mk_name 0x010028c8 8102;
    mk_name 0x01002888 8119; mk_name 0x01002810 8135; mk_name 0x01002830 8150; mk_name 0x01002870 8166;
    mk_name 0x010028f0 8183; mk_name 0x010028b0 8201; mk_name 0x01002850 8218; mk_name 0x010028d0 8234;
    mk_name 0x01002890 8251; mk_name 0x01002820 8267; mk_name 0x01002860 8282; mk_name 0x010028e0 8298;
    mk_name 0x010028a0 8315; mk_name 0x01002840 8331; mk_name 0x010028c0 8346; mk_name 0x01002880 8362;
    mk_name 0x0000ff6b 8377; mk_name 0x000001a2 8383; mk_name 0x000000a6 8389; mk_name 0x000006be 8399;
    mk_name 0x000006ae 8419; mk_name 0x00000043 8439; mk_name 0x00000063 8441; mk_name 0x0000fea5 8443;
    mk_name 0x0000fea4 8447; mk_name 0x0000fea3 8451; mk_name 0x000002c5 8455; mk_name 0x000002e5 8465;
    mk_name 0x000001c6 8475; mk_name 0x000001e6 8482; mk_name 0x0000ff69 8489; mk_name 0x0000ffe5 8496;
    mk_name 0x00000ab8 8506; mk_name 0x00000afc 8513; mk_name 0x000001b7 8519; mk_name 0x000001c8 8525;
    mk_name 0x000001e8 8532; mk_name 0x000000c7 8539; mk_name 0x000000e7 8548; mk_name 0x000002c6 8557;
    mk_name 0x000002e6 8569; mk_name 0x000000b8 8581; mk_name 0x000000a2 8589; mk_name 0x0000fea2 8594;
    mk_name 0x0000fea1 8597; mk_name 0x0000fea0 8600; mk_name 0x000009e1 8603; mk_name 0x00000af3 8616;
    mk_name 0x00000bcf 8626; mk_name 0x0000ff0b 8633; mk_name 0x1000ff6f 8639; mk_name 0x00000aec 8649;
    mk_name 0x0000ff37 8654; mk_name 0x0000003a 8664; mk_name 0x010020a1 8670; mk_name 0x01000301 8680;
    mk_name 0x01000323 8696; mk_name 0x01000300 8715; mk_name 0x01000309 8731; mk_name 0x01000303 8746;
    mk_name 0x0000002c 8762; mk_name 0x0100220b 8768; mk_name 0x0000ffe3 8779; mk_name 0x0000ffe4 8789;
    mk_name 0x000000a9 8799; mk_name 0x000009e4 8809; mk_name 0x000009ee 8812; mk_name 0x010020a2 8826;
    mk_name 0x0100221b 8839; mk_name 0x000000a4 8848; mk_name 0x00000aff 8857; mk_name 0x000006e1 8864;
    mk_name 0x000006c1 8875; mk_name 0x000006e2 8886; mk_name 0x000006c2 8898; mk_name 0x000006fe 8910;
    mk_name 0x000006de 8923; mk_name 0x010004b6 8936; mk_name 0x010004b7 8959; mk_name 0x010004b8 8982;
    mk_name 0x010004b9 9006; mk_name 0x000006e4 9030; mk_name 0x000006c4 9042; mk_name 0x000006bf 9054;
    mk_name 0x000006af 9068; mk_name 0x000006fc 9082; mk_name 0x000006dc 9093; mk_name 0x000006e6 9104;
    mk_name 0x000006c6 9116; mk_name 0x000006ec 9128; mk_name 0x000006cc 9140; mk_name 0x000006ed 9152;
    mk_name 0x000006cd 9164; mk_name 0x000006ee 9176; mk_name 0x000006ce 9188; mk_name 0x010004a2 9200;
    mk_name 0x010004a3 9222; mk_name 0x000006f2 9244; mk_name 0x000006d2 9256; mk_name 0x000006f3 9268;
    mk_name 0x000006d3 9280; mk_name 0x000006e7 9292; mk_name 0x000006c7 9305; mk_name 0x01000492 9318;
    mk_name 0x01000493 9335; mk_name 0x000006e8 9352; mk_name 0x000006c8 9364; mk_name 0x010004b2 9376;
    mk_name 0x010004b3 9398; mk_name 0x000006ff 9420; mk_name 0x000006df 9438; mk_name 0x000006e9 9456;
    mk_name 0x000006c9 9467; mk_name 0x010004e2 9478; mk_name 0x010004e3 9496; mk_name 0x000006e5 9514;
    mk_name 0x000006c5 9526; mk_name 0x000006b3 9538; mk_name 0x000006a3 9550; mk_name 0x000006b8 9562;
    mk_name 0x000006a8 9574; mk_name 0x000006eb 9586; mk_name 0x000006cb 9598; mk_name 0x0100049a 9610;
    mk_name 0x0100049b 9632; mk_name 0x0100049c 9654; mk_name 0x0100049d 9677; mk_name 0x000006b9 9700;
    mk_name 0x000006a9 9713; mk_name 0x000006ba 9726; mk_name 0x000006aa 9739; mk_name 0x000006ef 9752;
    mk_name 0x000006cf 9763; mk_name 0x010004e8 9774; mk_name 0x010004e9 9789; mk_name 0x000006f0 9804;
    mk_name 0x000006d0 9816; mk_name 0x010004d8 9828; mk_name 0x010004d9 9843; mk_name 0x000006fb 9858;
    mk_name 0x000006db 9871; mk_name 0x000006fd 9884; mk_name 0x000006dd 9899; mk_name 0x010004ba 9914;
    mk_name 0x010004bb 9928; mk_name 0x000006ea 9942; mk_name 0x000006ca 9958; mk_name 0x000006f8 9974;
    mk_name 0x000006d8 9992; mk_name 0x000006f4 10010; mk_name 0x000006d4 10022; mk_name 0x000006e3 10034;
    mk_name 0x000006c3 10047; mk_name 0x000006f5 10060; mk_name 0x000006d5 10071; mk_name 0x010004ee 10082;
    mk_name 0x010004ef 10100; mk_name 0x010004ae 10118; mk_name 0x010004af 10138; mk_name 0x010004b0 10158;
    mk_name 0x010004b1 10182; mk_name 0x000006f7 10206; mk_name 0x000006d7 10218; mk_name 0x000006f1 10230;
    mk_name 0x000006d1 10242; mk_name 0x000006f9 10254; mk_name 0x000006d9 10268; mk_name 0x000006e0 10282;
    mk_name 0x000006c0 10294; mk_name 0x000006fa 10306; mk_name 0x000006da 10318; mk_name 0x000006f6 10330;
    mk_name 0x000006d6 10343; mk_name 0x01000496 10356; mk_name 0x01000497 10379; mk_name 0x00000044 10402;
    mk_name 0x00000064 10404; mk_name 0x01001e0a 10406; mk_name 0x01001e0b 10416; mk_name 0x1000fe27 10426;
    mk_name 0x00000af1 10440; mk_name 0x000001cf 10447; mk_name 0x000001ef 10454; mk_name 0x1000fe2c 10461;
    mk_name 0x1000fe5e 10477; mk_name 0x1000fe22 10496; mk_name 0x0000fe81 10507; mk_name 0x0000fe80 10514;
    mk_name 0x0000fe64 10521; mk_name 0x0000fe56 10537; mk_name 0x0000fe65 10551; mk_name 0x0000fe58 10575;
    mk_name 0x0000fe91 10590; mk_name 0x0000fe51 10613; mk_name 0x0000fe8e 10624; mk_name 0x0000fe6b 10640;
    mk_name 0x0000fe69 10656; mk_name 0x0000fe6e 10677; mk_name 0x0000fe6c 10693; mk_name 0x0000fe60 10713;
    mk_name 0x0000fe68 10727; mk_name 0x0000fe67 10744; mk_name 0x0000fe6a 10759; mk_name 0x0000fe92 10775;
    mk_name 0x0000fe55 10798; mk_name 0x0000fe8b 10809; mk_name 0x0000fe5a 10828; mk_name 0x0000fe5b 10839;
    mk_name 0x0000fe52 10852; mk_name 0x0000fe6f 10868; mk_name 0x0000fe65 10882; mk_name 0x0000fe57 10893;
    mk_name 0x0000fe59 10908; mk_name 0x0000fe66 10925; mk_name 0x0000fe83 10942; mk_name 0x0000fe82 10949;
    mk_name 0x0000fe50 10956; mk_name 0x0000fe8c 10967; mk_name 0x0000fe8d 10978; mk_name 0x0000fe61 10989;
    mk_name 0x0000fe62 10999; mk_name 0x0000fe85 11009; mk_name 0x0000fe84 11016; mk_name 0x0000fe6d 11023;
    mk_name 0x0000fe5d 11042; mk_name 0x0000fe93 11052; mk_name 0x0000fe90 11076; mk_name 0x0000fe54 11089;
    mk_name 0x0000fe87 11101; mk_name 0x0000fe86 11108; mk_name 0x0000fe5c 11115; mk_name 0x0000fe53 11127;
    mk_name 0x0000fe64 11144; mk_name 0x0000fe8b 11155; mk_name 0x0000fe8a 11166; mk_name 0x0000fe5f 11177;
    mk_name 0x0000fe8a 11199; mk_name 0x0000fe63 11216; mk_name 0x0000fe53 11228; mk_name 0x0000fe89 11239;
    mk_name 0x0000fe88 11246; mk_name 0x0000fe5e 11253; mk_name 0x00000abd 11271; mk_name 0x000000b0 11284;
    mk_name 0x0000ffff 11291; mk_name 0x1000ff73 11298; mk_name 0x1000ff71 11309; mk_name 0x1000fe60 11320;
    mk_name 0x000000a8 11334; mk_name 0x00000aed 11344; mk_name 0x00000aa5 11352; mk_name 0x0100222c 11363;
    mk_name 0x000000f7 11373; mk_name 0x00000024 11382; mk_name 0x010020ab 11389; mk_name 0x00000aaf 11398;
    mk_name 0x000001bd 11414; mk_name 0x00000af2 11426; mk_name 0x00000afe 11439; mk_name 0x0000ff54 11458;
    mk_name 0x000008fe 11463; mk_name 0x00000ba8 11473; mk_name 0x00000bd6 11483; mk_name 0x00000bc4 11492;
    mk_name 0x00000bc2 11502; mk_name 0x1000ff00 11511; mk_name 0x1000feb0 11519; mk_name 0x000001d0 11532;
    mk_name 0x000001f0 11540; mk_name 0x1000fe7e 11548; mk_name 0x00000045 11555; mk_name 0x00000065 11557;
    mk_name 0x000003cc 11559; mk_name 0x000003ec 11569; mk_name 0x000000c9 11579; mk_name 0x000000e9 11586;
    mk_name 0x01001eb8 11593; mk_name 0x01001eb9 11603; mk_name 0x000001cc 11613; mk_name 0x000001ec 11620;
    mk_name 0x000000ca 11627; mk_name 0x000000ea 11639; mk_name 0x01001ebe 11651; mk_name 0x01001ebf 11668;
    mk_name 0x01001ec6 11685; mk_name 0x01001ec7 11705; mk_name 0x01001ec0 11725; mk_name 0x01001ec1 11742;
    mk_name 0x01001ec2 11759; mk_name 0x01001ec3 11775; mk_name 0x01001ec4 11791; mk_name 0x01001ec5 11808;
    mk_name 0x010020a0 11825; mk_name 0x000000cb 11833; mk_name 0x000000eb 11844; mk_name 0x000000c8 11855;
    mk_name 0x000000e8 11862; mk_name 0x01001eba 11869; mk_name 0x01001ebb 11875; mk_name 0x01002088 11881;
    mk_name 0x01002078 11896; mk_name 0x0000ff2f 11910; mk_name 0x0000ff30 11921; mk_name 0x01002208 11933;
    mk_name 0x00000aae 11943; mk_name 0x00000aa3 11952; mk_name 0x00000aa4 11961; mk_name 0x000003aa 11970;
    mk_name 0x000003ba 11978; mk_name 0x00000aa9 11986; mk_name 0x00000ade 11993; mk_name 0x00000adf 12008;
    mk_name 0x00000ace 12021; mk_name 0x00000acf 12034; mk_name 0x01002205 12050; mk_name 0x00000aa1 12059;
    mk_name 0x0000ff57 12067; mk_name 0x00000aaa 12071; mk_name 0x00000ae6 12078; mk_name 0x00000ae7 12097;
    mk_name 0x000003bd 12114; mk_name 0x000003bf 12118; mk_name 0x00000ae0 12122; mk_name 0x00000ae1 12139;
    mk_name 0x00000aa2 12158; mk_name 0x000001ca 12166; mk_name 0x000001ea 12174; mk_name 0x0000003d 12182;
    mk_name 0x0000ff1b 12188; mk_name 0x000000d0 12195; mk_name 0x000000d0 12199; mk_name 0x000000f0 12203;
    mk_name 0x01001ebc 12207; mk_name 0x01001ebd 12214; mk_name 0x000020ac 12221; mk_name 0x00000021 12230;
    mk_name 0x000000a1 12237; mk_name 0x0000ff62 12248; mk_name 0x1000ff76 12256; mk_name 0x1000ff77 12267;
    mk_name 0x010001b7 12278; mk_name 0x01000292 12282; mk_name 0x00000046 12286; mk_name 0x00000066 12288;
    mk_name 0x0000ffbe 12290; mk_name 0x0000ffc7 12293; mk_name 0x0000ffc8 12297; mk_name 0x0000ffc9 12301;
    mk_name 0x0000ffca 12305; mk_name 0x0000ffcb 12309; mk_name 0x0000ffcc 12313; mk_name 0x0000ffcd 12317;
    mk_name 0x0000ffce 12321; mk_name 0x0000ffcf 12325; mk_name 0x0000ffd0 12329; mk_name 0x0000ffbf 12333;
    mk_name 0x0000ffd1 12336; mk_name 0x0000ffd2 12340; mk_name 0x0000ffd3 12344; mk_name 0x0000ffd4 12348;
    mk_name 0x0000ffd5 12352; mk_name 0x0000ffd6 12356; mk_name 0x0000ffd7 12360; mk_name 0x0000ffd8 12364;
    mk_name 0x0000ffd9 12368; mk_name 0x0000ffda 12372; mk_name 0x0000ffc0 12376; mk_name 0x0000ffdb 12379;
    mk_name 0x0000ffdc 12383; mk_name 0x0000ffdd 12387; mk_name 0x0000ffde 12391; mk_name 0x0000ffdf 12395;
    mk_name 0x0000ffe0 12399; mk_name 0x0000ffc1 12403; mk_name 0x0000ffc2 12406; mk_name 0x0000ffc3 12409;
    mk_name 0x0000ffc4 12412; mk_name 0x0000ffc5 12415; mk_name 0x0000ffc6 12418; mk_name 0x01001e1e 12421;
    mk_name 0x01001e1f 12431; mk_name 0x010006f0 12441; mk_name 0x010006f1 12449; mk_name 0x010006f2 12457;
    mk_name 0x010006f3 12465; mk_name 0x010006f4 12473; mk_name 0x010006f5 12481; mk_name 0x010006f6 12489;
    mk_name 0x010006f7 12497; mk_name 0x010006f8 12505; mk_name 0x010006f9 12513; mk_name 0x010006cc 12521;
    mk_name 0x00000af8 12531; mk_name 0x000009e3 12544; mk_name 0x010020a3 12547; mk_name 0x00000abb 12558;
    mk_name 0x00000adc 12566; mk_name 0x00000adb 12586; mk_name 0x00000add 12603; mk_name 0x00000ae9 12624;
    mk_name 0x00000ae8 12644; mk_name 0x0000ff68 12662; mk_name 0x0000fed0 12667; mk_name 0x00000ac5 12688;
    mk_name 0x00000ab7 12700; mk_name 0x01002085 12711; mk_name 0x01002075 12725; mk_name 0x00000ab5 12738;
    mk_name 0x01002084 12749; mk_name 0x01002074 12763; mk_name 0x0100221c 12776; mk_name 0x000008f6 12787;
    mk_name 0x00000047 12796; mk_name 0x00000067 12798; mk_name 0x000002d5 12800; mk_name 0x000002f5 12810;
    mk_name 0x000002ab 12820; mk_name 0x000002bb 12827; mk_name 0x010001e6 12834; mk_name 0x010001e7 12841;
    mk_name 0x000003ab 12848; mk_name 0x000003bb 12857; mk_name 0x000002d8 12866; mk_name 0x000002f8 12878;
    mk_name 0x010010d0 12890; mk_name 0x010010d1 12902; mk_name 0x010010ea 12915; mk_name 0x010010ed 12928;
    mk_name 0x010010e9 12942; mk_name 0x010010ec 12956; mk_name 0x010010d3 12969; mk_name 0x010010d4 12982;
    mk_name 0x010010f6 12994; mk_name 0x010010d2 13006; mk_name 0x010010e6 13019; mk_name 0x010010f0 13033;
    mk_name 0x010010f4 13046; mk_name 0x010010f1 13059; mk_name 0x010010f2 13071; mk_name 0x010010f5 13084;
    mk_name 0x010010d8 13097; mk_name 0x010010ef 13109; mk_name 0x010010eb 13123; mk_name 0x010010d9 13136;
    mk_name 0x010010e5 13149; mk_name 0x010010da 13163; mk_name 0x010010db 13176; mk_name 0x010010dc 13189;
    mk_name 0x010010dd 13202; mk_name 0x010010de 13214; mk_name 0x010010e4 13227; mk_name 0x010010e7 13241;
    mk_name 0x010010e0 13254; mk_name 0x010010e1 13267; mk_name 0x010010e8 13280; mk_name 0x010010d7 13294;
    mk_name 0x010010e2 13307; mk_name 0x010010e3 13320; mk_name 0x010010d5 13332; mk_name 0x010010f3 13345;
    mk_name 0x010010ee 13357; mk_name 0x010010d6 13370; mk_name 0x010010df 13383; mk_name 0x00000060 13397;
    mk_name 0x0000003e 13403; mk_name 0x000008be 13411; mk_name 0x000007ae 13428; mk_name 0x000007c1 13449;
    mk_name 0x000007e1 13461; mk_name 0x000007a1 13473; mk_name 0x000007b1 13491; mk_name 0x000007c2 13509;
    mk_name 0x000007e2 13520; mk_name 0x000007d7 13531; mk_name 0x000007f7 13541; mk_name 0x000007c4 13551;
    mk_name 0x000007e4 13563; mk_name 0x000007c5 13575; mk_name 0x000007e5 13589; mk_name 0x000007a2 13603;
    mk_name 0x000007b2 13623; mk_name 0x000007c7 13643; mk_name 0x000007e7 13653; mk_name 0x000007a3 13663;
    mk_name 0x000007b3 13679; mk_name 0x000007f3 13695; mk_name 0x000007c3 13717; mk_name 0x000007e3 13729;
    mk_name 0x000007af 13741; mk_name 0x000007c9 13756; mk_name 0x000007e9 13767; mk_name 0x000007a4 13778;
    mk_name 0x000007b4 13795; mk_name 0x000007b6 13812; mk_name 0x000007a5 13837; mk_name 0x000007a5 13857;
    mk_name 0x000007b5 13876; mk_name 0x000007ca 13895; mk_name 0x000007ea 13907; mk_name 0x000007cb 13919;
    mk_name 0x000007eb 13932; mk_name 0x000007cb 13945; mk_name 0x000007eb 13957; mk_name 0x000007cc 13969;
    mk_name 0x000007ec 13978; mk_name 0x000007cd 13987; mk_name 0x000007ed 13996; mk_name 0x000007d9 14005;
    mk_name 0x000007f9 14017; mk_name 0x000007ab 14029; mk_name 0x000007bb 14047; mk_name 0x000007cf 14065;
    mk_name 0x000007ef 14079; mk_name 0x000007a7 14093; mk_name 0x000007b7 14113; mk_name 0x000007d6 14133;
    mk_name 0x000007f6 14143; mk_name 0x000007d0 14153; mk_name 0x000007f0 14162; mk_name 0x000007d8 14171;
    mk_name 0x000007f8 14181; mk_name 0x000007d1 14191; mk_name 0x000007f1 14201; mk_name 0x000007d2 14211;
    mk_name 0x000007f2 14223; mk_name 0x0000ff7e 14235; mk_name 0x000007d4 14248; mk_name 0x000007f4 14258;
    mk_name 0x000007c8 14268; mk_name 0x000007e8 14280; mk_name 0x000007d5 14292; mk_name 0x000007f5 14306;
    mk_name 0x000007a8 14320; mk_name 0x000007b8 14340; mk_name 0x000007ba 14360; mk_name 0x000007a9 14388;
    mk_name 0x000007b9 14410; mk_name 0x000007ce 14432; mk_name 0x000007ee 14441; mk_name 0x000007c6 14450;
    mk_name 0x000007e6 14461; mk_name 0x100000be 14472; mk_name 0x000000ab 14480; mk_name 0x000000bb 14494;
    mk_name 0x000000ab 14509; mk_name 0x000000bb 14523; mk_name 0x00000048 14538; mk_name 0x00000068 14540;
    mk_name 0x00000aa8 14542; mk_name 0x0000ff31 14552; mk_name 0x00000ebf 14559; mk_name 0x00000ec0 14568;
    mk_name 0x00000ef6 14578; mk_name 0x00000ef7 14591; mk_name 0x0000ff39 14605; mk_name 0x00000eba 14618;
    mk_name 0x0000ff37 14631; mk_name 0x00000ea7 14648; mk_name 0x00000ec4 14662; mk_name 0x0000ff33 14671;
    mk_name 0x00000ec3 14682; mk_name 0x00000ed1 14692; mk_name 0x0000ff34 14702; mk_name 0x00000ebe 14715;
    mk_name 0x00000ed3 14728; mk_name 0x00000eb7 14737; mk_name 0x00000eea 14750; mk_name 0x00000eda 14765;
    mk_name 0x00000eee 14781; mk_name 0x00000ee8 14796; mk_name 0x00000ee9 14811; mk_name 0x00000eeb 14826;
    mk_name 0x00000ed4 14842; mk_name 0x00000ed6 14858; mk_name 0x00000ef9 14878; mk_name 0x00000ee3 14905;
    mk_name 0x00000ed7 14920; mk_name 0x00000ed9 14935; mk_name 0x00000ed8 14955; mk_name 0x00000ef8 14975;
    mk_name 0x00000eed 14992; mk_name 0x00000ee4 15008; mk_name 0x00000ee5 15023; mk_name 0x00000edb 15042;
    mk_name 0x00000ee2 15057; mk_name 0x00000edc 15077; mk_name 0x00000edd 15098; mk_name 0x00000ee1 15118;
    mk_name 0x00000ede 15139; mk_name 0x00000edf 15159; mk_name 0x00000ee0 15178; mk_name 0x00000ee6 15198;
    mk_name 0x00000ed5 15212; mk_name 0x00000ee7 15233; mk_name 0x00000eec 15252; mk_name 0x00000efa 15267;
    mk_name 0x0000ff35 15288; mk_name 0x0000ff38 15300; mk_name 0x00000eb8 15314; mk_name 0x00000ebb 15327;
    mk_name 0x00000ea1 15341; mk_name 0x00000ea3 15355; mk_name 0x00000ef3 15373; mk_name 0x00000eb1 15398;
    mk_name 0x0000ff3d 15411; mk_name 0x00000ea4 15436; mk_name 0x00000ea6 15449; mk_name 0x00000ea5 15467;
    mk_name 0x00000ec7 15485; mk_name 0x00000eca 15494; mk_name 0x00000ef2 15504; mk_name 0x00000ebd 15519;
    mk_name 0x00000eb2 15533; mk_name 0x00000eb4 15546; mk_name 0x0000ff3b 15563; mk_name 0x0000ff3a 15580;
    mk_name 0x0000ff3e 15596; mk_name 0x00000ea9 15621; mk_name 0x00000eb0 15634; mk_name 0x00000eaa 15652;
    mk_name 0x00000eab 15671; mk_name 0x00000eaf 15689; mk_name 0x00000eac 15708; mk_name 0x00000ead 15726;
    mk_name 0x00000eae 15743; mk_name 0x00000eef 15761; mk_name 0x0000ff36 15785; mk_name 0x0000ff3c 15799;
    mk_name 0x00000eb5 15822; mk_name 0x0000ff3f 15834; mk_name 0x00000ea8 15849; mk_name 0x00000eb9 15868;
    mk_name 0x00000ea2 15886; mk_name 0x00000eb3 15905; mk_name 0x00000eb6 15923; mk_name 0x0000ff32 15940;
    mk_name 0x00000ef0 15953; mk_name 0x00000ef4 15978; mk_name 0x00000ef1 16004; mk_name 0x0000ff7e 16029;
    mk_name 0x00000ebc 16043; mk_name 0x00000ecc 16056; mk_name 0x00000ec8 16065; mk_name 0x00000ec9 16075;
    mk_name 0x00000ece 16086; mk_name 0x00000ecd 16096; mk_name 0x00000ecf 16107; mk_name 0x00000ec1 16117;
    mk_name 0x00000ec2 16127; mk_name 0x00000ec6 16138; mk_name 0x00000ec5 16148; mk_name 0x00000ef5 16159;
    mk_name 0x00000ed2 16178; mk_name 0x00000ecb 16188; mk_name 0x00000ed0 16198; mk_name 0x0000ff29 16208;
    mk_name 0x000002a6 16216; mk_name 0x000002b6 16228; mk_name 0x00000aee 16240; mk_name 0x00000ce0 16246;
    mk_name 0x00000cf2 16259; mk_name 0x00000ce1 16271; mk_name 0x00000ce1 16282; mk_name 0x00000ce7 16294;
    mk_name 0x00000ce3 16306; mk_name 0x00000ce3 16319; mk_name 0x00000cdf 16333; mk_name 0x00000cea 16354;
    mk_name 0x00000ced 16371; mk_name 0x00000cef 16387; mk_name 0x00000cf3 16403; mk_name 0x00000cf5 16418;
    mk_name 0x00000cf5 16435; mk_name 0x00000ce2 16452; mk_name 0x00000ce2 16465; mk_name 0x00000ce4 16479;
    mk_name 0x00000ce7 16489; mk_name 0x00000ceb 16500; mk_name 0x00000cf7 16512; mk_name 0x00000cec 16523;
    mk_name 0x00000cee 16536; mk_name 0x00000cf0 16547; mk_name 0x00000cf4 16558; mk_name 0x00000cf7 16568;
    mk_name 0x00000cf8 16580; mk_name 0x00000cf1 16592; mk_name 0x00000cf1 16606; mk_name 0x00000cf9 16620;
    mk_name 0x0000ff7e 16632; mk_name 0x00000cfa 16646; mk_name 0x00000cfa 16657; mk_name 0x00000ce8 16668;
    mk_name 0x00000ce8 16679; mk_name 0x00000ce5 16691; mk_name 0x00000ce9 16702; mk_name 0x00000cf6 16713;
    mk_name 0x00000cf6 16725; mk_name 0x00000ce6 16737; mk_name 0x00000ce6 16749; mk_name 0x0000ff6a 16762;
    mk_name 0x0000ff23 16767; mk_name 0x0000ff23 16774; mk_name 0x00000ada 16786; mk_name 0x0000ff25 16795;
    mk_name 0x0000ff27 16804; mk_name 0x0000ff50 16822; mk_name 0x000008a3 16827; mk_name 0x000009ef 16842;
    mk_name 0x000009f0 16857; mk_name 0x000009f1 16872; mk_name 0x000009f2 16887; mk_name 0x000009f3 16902;
    mk_name 0x1000ff74 16917; mk_name 0x100000fc 16927; mk_name 0x1000ff6f 16935; mk_name 0x1000ff73 16947;
    mk_name 0x1000ff71 16960; mk_name 0x100000be 16973; mk_name 0x1000ff72 16983; mk_name 0x1000ff70 16996;
    mk_name 0x100000ee 17009; mk_name 0x1000ff75 17014; mk_name 0x100000af 17027; mk_name 0x100000f6 17034;
    mk_name 0x1000ff48 17046; mk_name 0x1000ff49 17058; mk_name 0x100000a8 17070; mk_name 0x100000aa 17083;
    mk_name 0x100000ac 17102; mk_name 0x100000ab 17120; mk_name 0x100000a9 17137; mk_name 0x1000ff6c 17150;
    mk_name 0x1000ff6d 17158; mk_name 0x1000ff6e 17167; mk_name 0x100000ee 17174; mk_name 0x000002a1 17187;
    mk_name 0x000002b1 17195; mk_name 0x000009e2 17203; mk_name 0x0000ffed 17206; mk_name 0x0000ffee 17214;
    mk_name 0x000000ad 17222; mk_name 0x00000049 17229; mk_name 0x00000069 17231; mk_name 0x000002a9 17233;
    mk_name 0x000000cd 17243; mk_name 0x000000ed 17250; mk_name 0x01001eca 17257; mk_name 0x01001ecb 17267;
    mk_name 0x0100012c 17277; mk_name 0x0100012d 17284; mk_name 0x000000ce 17291; mk_name 0x000000ee 17303;
    mk_name 0x000008cf 17315; mk_name 0x000000cf 17325; mk_name 0x000000ef 17336; mk_name 0x000002b9 17347;
    mk_name 0x000008cd 17356; mk_name 0x000000cc 17365; mk_name 0x000000ec 17372; mk_name 0x01001ec8 17379;
    mk_name 0x01001ec9 17385; mk_name 0x000003cf 17391; mk_name 0x000003ef 17399; mk_name 0x000008ce 17407;
    mk_name 0x000008da 17415; mk_name 0x000008db 17426; mk_name 0x000008c2 17435; mk_name 0x0000ff63 17444;
    mk_name 0x1000ff72 17451; mk_name 0x1000ff70 17462; mk_name 0x000008bf 17473; mk_name 0x000008dc 17482;
    mk_name 0x100000ee 17495; mk_name 0x000003c7 17498; mk_name 0x000003e7 17506; mk_name 0x0000fe33 17514;
    mk_name 0x0000fe30 17532; mk_name 0x0000fe31 17557; mk_name 0x0000fe32 17585; mk_name 0x0000fe34 17599;
    mk_name 0x0000fe2f 17609; mk_name 0x0000fe2c 17630; mk_name 0x0000fe2d 17651; mk_name 0x0000fe2e 17673;
    mk_name 0x0000fe0c 17692; mk_name 0x0000fe0d 17708; mk_name 0x0000fe06 17729; mk_name 0x0000fe07 17745;
    mk_name 0x0000ff7e 17760; mk_name 0x0000fe0e 17776; mk_name 0x0000fe0f 17791; mk_name 0x0000fe20 17811;
    mk_name 0x0000fe02 17824; mk_name 0x0000fe04 17841; mk_name 0x0000fe05 17858; mk_name 0x0000fe03 17874;
    mk_name 0x0000fe12 17891; mk_name 0x0000fe13 17908; mk_name 0x0000fe11 17924; mk_name 0x0000fe01 17941;
    mk_name 0x0000fe22 17950; mk_name 0x0000fe21 17969; mk_name 0x0000fe08 17986; mk_name 0x0000fe09 18001;
    mk_name 0x0000fe24 18021; mk_name 0x0000fe23 18043; mk_name 0x0000fe25 18063; mk_name 0x0000fe26 18086;
    mk_name 0x0000fe0a 18110; mk_name 0x0000fe0b 18125; mk_name 0x0000fe2b 18145; mk_name 0x0000fe29 18170;
    mk_name 0x0000fe2a 18194; mk_name 0x0000fe27 18219; mk_name 0x0000fe28 18239; mk_name 0x000003a5 18260;
    mk_name 0x000003b5 18267; mk_name 0x0000004a 18274; mk_name 0x0000006a 18276; mk_name 0x000002ac 18278;
    mk_name 0x000002bc 18290; mk_name 0x00000bca 18302; mk_name 0x0000004b 18306; mk_name 0x0000006b 18308;
    mk_name 0x000004b1 18310; mk_name 0x000004a7 18317; mk_name 0x000004c1 18324; mk_name 0x000004a3 18333;
    mk_name 0x000004a4 18353; mk_name 0x000004a5 18364; mk_name 0x000004b4 18381; mk_name 0x000004aa 18388;
    mk_name 0x000004cc 18395; mk_name 0x000004a1 18403; mk_name 0x000004ca 18417; mk_name 0x000004cd 18425;
    mk_name 0x000004cb 18433; mk_name 0x000004ce 18441; mk_name 0x000004cc 18449; mk_name 0x000004b2 18457;
    mk_name 0x000004a8 18464; mk_name 0x000004b6 18471; mk_name 0x000004b9 18479; mk_name 0x000004b7 18487;
    mk_name 0x000004ba 18495; mk_name 0x000004b8 18503; mk_name 0x0000ff2d 18511; mk_name 0x000004cf 18521;
    mk_name 0x000004d2 18529; mk_name 0x000004d0 18537; mk_name 0x000004a5 18545; mk_name 0x000004d3 18560;
    mk_name 0x000004d1 18568; mk_name 0x000004dd 18576; mk_name 0x000004c5 18583; mk_name 0x000004c8 18591;
    mk_name 0x000004c6 18599; mk_name 0x000004c9 18607; mk_name 0x000004c7 18615; mk_name 0x000004b5 18623;
    mk_name 0x000004ab 18630; mk_name 0x000004a2 18637; mk_name 0x000004d7 18657; mk_name 0x000004da 18665;
    mk_name 0x000004d8 18673; mk_name 0x000004db 18681; mk_name 0x000004d9 18689; mk_name 0x000004bb 18697;
    mk_name 0x000004be 18705; mk_name 0x000004bc 18713; mk_name 0x0000ff2e 18722; mk_name 0x000004bf 18733;
    mk_name 0x000004bd 18741; mk_name 0x0000ff7e 18749; mk_name 0x000004c0 18761; mk_name 0x000004c3 18769;
    mk_name 0x000004c1 18777; mk_name 0x000004c4 18785; mk_name 0x000004c2 18793; mk_name 0x000004af 18802;
    mk_name 0x000004c2 18811; mk_name 0x000004af 18819; mk_name 0x000004b3 18827; mk_name 0x000004a9 18834;
    mk_name 0x000004dc 18841; mk_name 0x000004a6 18849; mk_name 0x000004d4 18857; mk_name 0x000004ac 18865;
    mk_name 0x000004d6 18873; mk_name 0x000004ae 18881; mk_name 0x000004d5 18889; mk_name 0x000004ad 18897;
    mk_name 0x0000ff21 18905; mk_name 0x0000ff37 18911; mk_name 0x000003a2 18924; mk_name 0x0000ff26 18930;
    mk_name 0x000003d3 18939; mk_name 0x000003f3 18948; mk_name 0x00000eff 18957; mk_name 0x0000ffb0 18968;
    mk_name 0x0000ffb1 18973; mk_name 0x0000ffb2 18978; mk_name 0x0000ffb3 18983; mk_name 0x0000ffb4 18988;
    mk_name 0x0000ffb5 18993; mk_name 0x0000ffb6 18998; mk_name 0x0000ffb7 19003; mk_name 0x0000ffb8 19008;
    mk_name 0x0000ffb9 19013; mk_name 0x0000ffab 19018; mk_name 0x1000ff75 19025; mk_name 0x0000ff9d 19036;
    mk_name 0x0000ffae 19045; mk_name 0x0000ff9f 19056; mk_name 0x0000ffaf 19066; mk_name 0x0000ff99 19076;
    mk_name 0x0000ff9c 19084; mk_name 0x0000ff8d 19091; mk_name 0x0000ffbd 19100; mk_name 0x0000ff91 19109;
    mk_name 0x0000ff92 19115; mk_name 0x0000ff93 19121; mk_name 0x0000ff94 19127; mk_name 0x0000ff95 19133;
    mk_name 0x0000ff9e 19141; mk_name 0x0000ff96 19151; mk_name 0x0000ffaa 19159; mk_name 0x0000ff9b 19171;
    mk_name 0x0000ff9b 19179; mk_name 0x0000ff9a 19192; mk_name 0x0000ff9a 19203; mk_name 0x0000ff98 19212;
    mk_name 0x0000ffac 19221; mk_name 0x0000ff80 19234; mk_name 0x0000ffad 19243; mk_name 0x0000ff89 19255;
    mk_name 0x0000ff97 19262; mk_name 0x000003a2 19268; mk_name 0x0000004c 19272; mk_name 0x0000006c 19274;
    mk_name 0x0000ffc8 19276; mk_name 0x0000ffd1 19279; mk_name 0x0000ffc9 19283; mk_name 0x0000ffca 19286;
    mk_name 0x0000ffcb 19289; mk_name 0x0000ffcc 19292; mk_name 0x0000ffcd 19295; mk_name 0x0000ffce 19298;
    mk_name 0x0000ffcf 19301; mk_name 0x0000ffd0 19304; mk_name 0x000001c5 19307; mk_name 0x000001e5 19314;
    mk_name 0x0000fed4 19321; mk_name 0x00000ad9 19341; mk_name 0x01001e36 19352; mk_name 0x01001e37 19362;
    mk_name 0x000001a5 19372; mk_name 0x000001b5 19379; mk_name 0x000003a6 19386; mk_name 0x000003b6 19395;
    mk_name 0x0000ff51 19404; mk_name 0x00000abc 19409; mk_name 0x000008fb 19426; mk_name 0x00000ba3 19436;
    mk_name 0x00000ad2 19446; mk_name 0x000008af 19466; mk_name 0x00000acc 19487; mk_name 0x00000aea 19504;
    mk_name 0x000008a1 19516; mk_name 0x00000bda 19528; mk_name 0x01002039 19537; mk_name 0x00000ad0 19562;
    mk_name 0x000009f4 19582; mk_name 0x00000bdc 19588; mk_name 0x0000003c 19597; mk_name 0x000008bc 19602;
    mk_name 0x000009e5 19616; mk_name 0x0000ff0a 19619; mk_name 0x100000af 19628; mk_name 0x010020a4 19633;
    mk_name 0x000008de 19642; mk_name 0x000008df 19653; mk_name 0x100000f6 19663; mk_name 0x000009ed 19673;
    mk_name 0x000009ea 19687; mk_name 0x000001a3 19702; mk_name 0x000001b3 19710; mk_name 0x0000004d 19718;
    mk_name 0x0000006d 19720; mk_name 0x01001e40 19722; mk_name 0x01001e41 19732; mk_name 0x000006b5 19742;
    mk_name 0x000006a5 19756; mk_name 0x000006b2 19770; mk_name 0x000006a2 19784; mk_name 0x000006bc 19798;
    mk_name 0x000006ac 19812; mk_name 0x000000af 19826; mk_name 0x0000ff3e 19833; mk_name 0x00000af7 19842;
    mk_name 0x00000af0 19853; mk_name 0x00000abf 19866; mk_name 0x000000ba 19873; mk_name 0x0000ff2c 19883;
    mk_name 0x0000ff67 19890; mk_name 0x0000ffe7 19895; mk_name 0x0000ffe8 19902; mk_name 0x010020a5 19909;
    mk_name 0x0000002d 19918; mk_name 0x00000ad6 19924; mk_name 0x0000ff7e 19932; mk_name 0x0000fe77 19944;
    mk_name 0x0000fe76 19967; mk_name 0x000000b5 19984; mk_name 0x0000ff22 19987; mk_name 0x0000ff20 19996;
    mk_name 0x0000ff3d 20006; mk_name 0x000000d7 20024; mk_name 0x00000af6 20033; mk_name 0x00000af5 20045;
    mk_name 0x100000a8 20058; mk_name 0x100000aa 20069; mk_name 0x100000ac 20086; mk_name 0x100000ab 20102;
    mk_name 0x100000a9 20117; mk_name 0x0000004e 20128; mk_name 0x0000006e 20130; mk_name 0x000008c5 20132;
    mk_name 0x000001d1 20138; mk_name 0x000001f1 20145; mk_name 0x010020a6 20152; mk_name 0x000001d2 20162;
    mk_name 0x000001f2 20169; mk_name 0x000003d1 20176; mk_name 0x000003f1 20185; mk_name 0x010020aa 20194;
    mk_name 0x0000ff56 20208; mk_name 0x0000fed2 20213; mk_name 0x01002089 20233; mk_name 0x01002079 20247;
    mk_name 0x000009e8 20260; mk_name 0x000000a0 20263; mk_name 0x00000000 20276; mk_name 0x01002247 20285;
    mk_name 0x01002209 20297; mk_name 0x000008bd 20310; mk_name 0x01002262 20319; mk_name 0x000000ac 20332;
    mk_name 0x000000d1 20340; mk_name 0x000000f1 20347; mk_name 0x0000ff7f 20354; mk_name 0x00000023 20363;
    mk_name 0x000006b0 20374; mk_name 0x0000004f 20385; mk_name 0x0000006f 20387; mk_name 0x000000d3 20389;
    mk_name 0x000000f3 20396; mk_name 0x0100019f 20403; mk_name 0x01000275 20411; mk_name 0x01001ecc 20419;
    mk_name 0x01001ecd 20429; mk_name 0x010001d1 20439; mk_name 0x010001d2 20446; mk_name 0x000000d4 20453;
    mk_name 0x000000f4 20465; mk_name 0x01001ed0 20477; mk_name 0x01001ed1 20494; mk_name 0x01001ed8 20511;
    mk_name 0x01001ed9 20531; mk_name 0x01001ed2 20551; mk_name 0x01001ed3 20568; mk_name 0x01001ed4 20585;
    mk_name 0x01001ed5 20601; mk_name 0x01001ed6 20617; mk_name 0x01001ed7 20634; mk_name 0x000000d6 20651;
    mk_name 0x000000f6 20662; mk_name 0x000001d5 20673; mk_name 0x000001f5 20686; mk_name 0x000013bc 20699;
    mk_name 0x000013bd 20702; mk_name 0x000001b2 20705; mk_name 0x000000d2 20712; mk_name 0x000000f2 20719;
    mk_name 0x01001ece 20726; mk_name 0x01001ecf 20732; mk_name 0x010001a0 20738; mk_name 0x010001a1 20744;
    mk_name 0x01001eda 20750; mk_name 0x01001edb 20761; mk_name 0x01001ee2 20772; mk_name 0x01001ee3 20786;
    mk_name 0x01001edc 20800; mk_name 0x01001edd 20811; mk_name 0x01001ede 20822; mk_name 0x01001edf 20832;
    mk_name 0x01001ee0 20842; mk_name 0x01001ee1 20853; mk_name 0x000003d2 20864; mk_name 0x000003f2 20872;
    mk_name 0x00000ac3 20880; mk_name 0x00000ab2 20890; mk_name 0x000000bd 20899; mk_name 0x000000bc 20907;
    mk_name 0x00000ab6 20918; mk_name 0x01002081 20927; mk_name 0x000000b9 20940; mk_name 0x00000ab0 20952;
    mk_name 0x000000d8 20961; mk_name 0x000000f8 20970; mk_name 0x00000ae2 20979; mk_name 0x00000ae5 20994;
    mk_name 0x00000ae4 21003; mk_name 0x00000ae3 21021; mk_name 0x000000aa 21037; mk_name 0x000000ba 21049;
    mk_name 0x1004ff44 21062; mk_name 0x1004ff31 21074; mk_name 0x1004ff08 21085; mk_name 0x1004ff07 21098;
    mk_name 0x1004ff5a 21109; mk_name 0x1004ff58 21122; mk_name 0x1004ff69 21135; mk_name 0x1004ff0b 21145;
    mk_name 0x1004ff02 21154; mk_name 0x1004ff03 21162; mk_name 0x1004ffff 21169; mk_name 0x1004ff72 21179;
    mk_name 0x1004ff54 21194; mk_name 0x1004ff59 21202; mk_name 0x1004ff57 21213; mk_name 0x1004ff1b 21224;
    mk_name 0x1004ff74 21234; mk_name 0x1004ff6a 21244; mk_name 0x1004ff63 21252; mk_name 0x1004ff51 21262;
    mk_name 0x1004ff67 21270; mk_name 0x1004ff45 21278; mk_name 0x1004ff5e 21289; mk_name 0x1004ff5c 21302;
    mk_name 0x1004ff42 21314; mk_name 0x1004ff40 21326; mk_name 0x1004ff43 21338; mk_name 0x1004ff41 21351;
    mk_name 0x1004ff04 21361; mk_name 0x1004ff5d 21370; mk_name 0x1004ff5b 21383; mk_name 0x1004ff32 21395;
    mk_name 0x1004ff33 21411; mk_name 0x1004ff73 21425; mk_name 0x1004ff78 21437; mk_name 0x1004ff53 21448;
    mk_name 0x1004ff60 21457; mk_name 0x1004ff71 21467; mk_name 0x1004ff65 21480; mk_name 0x1004ff52 21488;
    mk_name 0x000000d8 21494; mk_name 0x000000f8 21501; mk_name 0x000000d5 21508; mk_name 0x000000f5 21515;
    mk_name 0x00000bc0 21522; mk_name 0x0000fe78 21530; mk_name 0x0000fe79 21546; mk_name 0x0000047e 21562;
    mk_name 0x00000050 21571; mk_name 0x00000070 21573; mk_name 0x01001e56 21575; mk_name 0x01001e57 21585;
    mk_name 0x0000ff56 21595; mk_name 0x0000ff55 21605; mk_name 0x000000b6 21613; mk_name 0x00000028 21623;
    mk_name 0x00000029 21633; mk_name 0x01002202 21644; mk_name 0x000008ef 21661; mk_name 0x0000ff13 21679;
    mk_name 0x00000025 21685; mk_name 0x0000002e 21693; mk_name 0x000000b7 21700; mk_name 0x00000ad5 21715;
    mk_name 0x010020a7 21724; mk_name 0x00000afb 21735; mk_name 0x0000002b 21755; mk_name 0x000000b1 21760;
    mk_name 0x0000fefa 21770; mk_name 0x0000fee9 21789; mk_name 0x0000feea 21805; mk_name 0x0000feeb 21821;
    mk_name 0x0000feec 21837; mk_name 0x0000feed 21853; mk_name 0x0000fee8 21869; mk_name 0x0000feef 21889;
    mk_name 0x0000fef0 21907; mk_name 0x0000fef1 21925; mk_name 0x0000fef2 21943; mk_name 0x0000fef3 21961;
    mk_name 0x0000feee 21979; mk_name 0x0000fefb 22001; mk_name 0x0000fefc 22021; mk_name 0x0000fee3 22041;
    mk_name 0x0000fee6 22054; mk_name 0x0000fee7 22071; mk_name 0x0000fef5 22089; mk_name 0x0000fef6 22103;
    mk_name 0x0000fef7 22117; mk_name 0x0000fef8 22131; mk_name 0x0000fefd 22145; mk_name 0x0000fef4 22159;
    mk_name 0x0000fef9 22177; mk_name 0x0000fee0 22196; mk_name 0x0000fee1 22209; mk_name 0x0000fee2 22223;
    mk_name 0x0000fee4 22234; mk_name 0x0000fee5 22249; mk_name 0x00000ad4 22265; mk_name 0x0000fed1 22278;
    mk_name 0x0000ff3e 22298; mk_name 0x0000ff61 22316; mk_name 0x0000ff55 22322; mk_name 0x000004b0 22328;
    mk_name 0x00000aa6 22343; mk_name 0x00000051 22354; mk_name 0x00000071 22356; mk_name 0x00000bcc 22358;
    mk_name 0x0000003f 22363; mk_name 0x000000bf 22372; mk_name 0x00000022 22385; mk_name 0x00000060 22394;
    mk_name 0x00000027 22404; mk_name 0x00000052 22415; mk_name 0x00000072 22417; mk_name 0x0000ffd2 22419;
    mk_name 0x0000ffdb 22422; mk_name 0x0000ffdc 22426; mk_name 0x0000ffdd 22430; mk_name 0x0000ffde 22434;
    mk_name 0x0000ffdf 22438; mk_name 0x0000ffe0 22442; mk_name 0x0000ffd3 22446; mk_name 0x0000ffd4 22449;
    mk_name 0x0000ffd5 22452; mk_name 0x0000ffd6 22455; mk_name 0x0000ffd7 22458; mk_name 0x0000ffd8 22461;
    mk_name 0x0000ffd9 22464; mk_name 0x0000ffda 22467; mk_name 0x000001c0 22470; mk_name 0x000001e0 22477;
    mk_name 0x000008d6 22484; mk_name 0x000001d8 22492; mk_name 0x000001f8 22499; mk_name 0x000003a3 22506;
    mk_name 0x000003b3 22515; mk_name 0x0000ff66 22524; mk_name 0x000000ae 22529; mk_name 0x0000fe72 22540;
    mk_name 0x1000ff6c 22558; mk_name 0x0000ff0d 22564; mk_name 0x0000ff53 22571; mk_name 0x00000abe 22577;
    mk_name 0x000008fd 22595; mk_name 0x00000ba6 22606; mk_name 0x00000ad3 22617; mk_name 0x000008b0 22638;
    mk_name 0x000008b7 22660; mk_name 0x00000acd 22681; mk_name 0x00000aeb 22699; mk_name 0x00000bd8 22712;
    mk_name 0x0100203a 22722; mk_name 0x00000ad1 22748; mk_name 0x000009f5 22769; mk_name 0x00000bfc 22776;
    mk_name 0x0000ff24 22786; mk_name 0x010020a8 22793; mk_name 0x00000053 22803; mk_name 0x00000073 22805;
    mk_name 0x01001e60 22807; mk_name 0x01001e61 22817; mk_name 0x000001a6 22827; mk_name 0x000001b6 22834;
    mk_name 0x000001a9 22841; mk_name 0x000001b9 22848; mk_name 0x000001aa 22855; mk_name 0x000001ba 22864;
    mk_name 0x0100018f 22873; mk_name 0x01000259 22879; mk_name 0x000002de 22885; mk_name 0x000002fe 22897;
    mk_name 0x0000ff7e 22909; mk_name 0x0000ff14 22923; mk_name 0x00000ad7 22935; mk_name 0x000000a7 22943;
    mk_name 0x0000ff60 22951; mk_name 0x0000003b 22958; mk_name 0x000004df 22968; mk_name 0x000006b1 22984;
    mk_name 0x000006a1 22996; mk_name 0x000006bf 23008; mk_name 0x000006af 23020; mk_name 0x000006b8 23032;
    mk_name 0x000006a8 23043; mk_name 0x000006b9 23054; mk_name 0x000006a9 23066; mk_name 0x000006ba 23078;
    mk_name 0x000006aa 23090; mk_name 0x000006bb 23102; mk_name 0x000006ab 23115; mk_name 0x00000ac6 23128;
    mk_name 0x01002087 23141; mk_name 0x01002077 23156; mk_name 0x0000ffe1 23170; mk_name 0x0000ffe6 23178;
    mk_name 0x0000ffe2 23189; mk_name 0x00000aca 23197; mk_name 0x00000aac 23211; mk_name 0x000008c9 23223;
    mk_name 0x0000ff3c 23236; mk_name 0x00000afd 23252; mk_name 0x01000d85 23271; mk_name 0x01000d86 23278;
    mk_name 0x01000dcf 23286; mk_name 0x01000d87 23295; mk_name 0x01000dd0 23303; mk_name 0x01000d88 23312;
    mk_name 0x01000dd1 23321; mk_name 0x01000d93 23331; mk_name 0x01000ddb 23339; mk_name 0x01000dca 23348;
    mk_name 0x01000d96 23356; mk_name 0x01000dde 23364; mk_name 0x01000db6 23373; mk_name 0x01000db7 23381;
    mk_name 0x01000da0 23390; mk_name 0x01000da1 23398; mk_name 0x01000da9 23407; mk_name 0x01000daa 23416;
    mk_name 0x01000daf 23426; mk_name 0x01000db0 23435; mk_name 0x01000d91 23445; mk_name 0x01000dd9 23452;
    mk_name 0x01000d92 23460; mk_name 0x01000dda 23468; mk_name 0x01000dc6 23477; mk_name 0x01000d9c 23485;
    mk_name 0x01000d9d 23493; mk_name 0x01000d83 23502; mk_name 0x01000dc4 23510; mk_name 0x01000d89 23518;
    mk_name 0x01000dd2 23525; mk_name 0x01000d8a 23533; mk_name 0x01000dd3 23541; mk_name 0x01000da2 23550;
    mk_name 0x01000da3 23558; mk_name 0x01000da5 23567; mk_name 0x01000d9a 23577; mk_name 0x01000d9b 23585;
    mk_name 0x01000df4 23594; mk_name 0x01000dbd 23610; mk_name 0x01000dc5 23618; mk_name 0x01000d8f 23627;
    mk_name 0x01000ddf 23635; mk_name 0x01000d90 23644; mk_name 0x01000df3 23653; mk_name 0x01000db8 23663;
    mk_name 0x01000db9 23671; mk_name 0x01000db1 23680; mk_name 0x01000dac 23688; mk_name 0x01000db3 23698;
    mk_name 0x01000d82 23708; mk_name 0x01000d9e 23716; mk_name 0x01000d9f 23725; mk_name 0x01000da6 23734;
    mk_name 0x01000dab 23743; mk_name 0x01000da4 23752; mk_name 0x01000d94 23761; mk_name 0x01000ddc 23768;
    mk_name 0x01000d95 23776; mk_name 0x01000ddd 23784; mk_name 0x01000db4 23793; mk_name 0x01000db5 23801;
    mk_name 0x01000dbb 23810; mk_name 0x01000d8d 23818; mk_name 0x01000d8e 23826; mk_name 0x01000dd8 23835;
    mk_name 0x01000df2 23844; mk_name 0x01000dc3 23854; mk_name 0x01000dc1 23862; mk_name 0x01000dc2 23871;
    mk_name 0x01000dad 23881; mk_name 0x01000dae 23890; mk_name 0x01000da7 23900; mk_name 0x01000da8 23909;
    mk_name 0x01000d8b 23919; mk_name 0x01000dd4 23926; mk_name 0x01000d8c 23934; mk_name 0x01000dd6 23942;
    mk_name 0x01000dc0 23951; mk_name 0x01000dba 23959; mk_name 0x01002086 23967; mk_name 0x01002076 23980;
    mk_name 0x0000002f 23992; mk_name 0x0000fe73 23998; mk_name 0x000009e0 24014; mk_name 0x00000020 24027;
    mk_name 0x0100221a 24033; mk_name 0x01001e9e 24044; mk_name 0x000000df 24051; mk_name 0x000000a3 24058;
    mk_name 0x0000fe75 24067; mk_name 0x01002263 24085; mk_name 0x0000ff66 24094; mk_name 0x0000ff7e 24103;
    mk_name 0x1005ff77 24115; mk_name 0x1005ff78 24135; mk_name 0x1005ff79 24148; mk_name 0x0000ff20 24168;
    mk_name 0x1005ff72 24179; mk_name 0x1005ff75 24187; mk_name 0x1005ff10 24194; mk_name 0x1005ff11 24201;
    mk_name 0x1005ff03 24208; mk_name 0x1005ff05 24220; mk_name 0x1005ff01 24234; mk_name 0x1005ff04 24247;
    mk_name 0x1005ff00 24263; mk_name 0x1005ff02 24275; mk_name 0x0000ff68 24287; mk_name 0x1005ff71 24295;
    mk_name 0x1005ff73 24304; mk_name 0x0000ff56 24312; mk_name 0x0000ff55 24324; mk_name 0x1005ff74 24334;
    mk_name 0x1005ff76 24343; mk_name 0x1005ff7d 24358; mk_name 0x0000ff61 24378; mk_name 0x1005ff70 24394;
    mk_name 0x0000ff69 24403; mk_name 0x1005ff60 24411; mk_name 0x0000ff65 24422; mk_name 0x1005ff7a 24430;
    mk_name 0x1005ff7b 24446; mk_name 0x1005ff7c 24470; mk_name 0x0000ffeb 24494; mk_name 0x0000ffec 24502;
    mk_name 0x0000ff15 24510; mk_name 0x1000ff6d 24518; mk_name 0x00000054 24525; mk_name 0x00000074 24527;
    mk_name 0x0000ff09 24529; mk_name 0x01001e6a 24533; mk_name 0x01001e6b 24543; mk_name 0x000001ab 24553;
    mk_name 0x000001bb 24560; mk_name 0x000001de 24567; mk_name 0x000001fe 24576; mk_name 0x00000af9 24585;
    mk_name 0x00000afa 24595; mk_name 0x0000fed5 24613; mk_name 0x00000ddf 24630; mk_name 0x00000dba 24640;
    mk_name 0x00000da8 24654; mk_name 0x00000daa 24667; mk_name 0x00000da9 24681; mk_name 0x00000dac 24695;
    mk_name 0x00000dae 24708; mk_name 0x00000db4 24721; mk_name 0x00000dbd 24732; mk_name 0x00000dbf 24742;
    mk_name 0x00000dcb 24753; mk_name 0x00000dce 24764; mk_name 0x00000da2 24778; mk_name 0x00000da5 24791;
    mk_name 0x00000da3 24804; mk_name 0x00000da4 24818; mk_name 0x00000da6 24832; mk_name 0x00000da1 24848;
    mk_name 0x00000de5 24859; mk_name 0x00000df7 24876; mk_name 0x00000df5 24889; mk_name 0x00000df6 24900;
    mk_name 0x00000df9 24912; mk_name 0x00000df1 24924; mk_name 0x00000df8 24937; mk_name 0x00000df3 24950;
    mk_name 0x00000df4 24962; mk_name 0x00000df2 24973; mk_name 0x00000df0 24986; mk_name 0x00000dcc 24998;
    mk_name 0x00000dc5 25011; mk_name 0x00000dc6 25023; mk_name 0x00000deb 25031; mk_name 0x00000de8 25048;
    mk_name 0x00000dd1 25059; mk_name 0x00000dde 25075; mk_name 0x00000de7 25098; mk_name 0x00000de9 25113;
    mk_name 0x00000dea 25125; mk_name 0x00000de6 25137; mk_name 0x00000dc1 25151; mk_name 0x00000da7 25161;
    mk_name 0x00000ded 25173; mk_name 0x00000db3 25187; mk_name 0x00000db9 25198; mk_name 0x00000dcd 25208;
    mk_name 0x00000dcf 25218; mk_name 0x00000dda 25233; mk_name 0x00000dbe 25246; mk_name 0x00000dbc 25259;
    mk_name 0x00000dc0 25273; mk_name 0x00000dbb 25289; mk_name 0x00000dc3 25300; mk_name 0x00000dc4 25311;
    mk_name 0x00000dd0 25319; mk_name 0x00000dd2 25330; mk_name 0x00000de1 25342; mk_name 0x00000de4 25354;
    mk_name 0x00000de3 25374; mk_name 0x00000dd3 25393; mk_name 0x00000de0 25405; mk_name 0x00000dd4 25416;
    mk_name 0x00000dd5 25427; mk_name 0x00000de2 25439; mk_name 0x00000dd8 25450; mk_name 0x00000dd6 25461;
    mk_name 0x00000dd7 25473; mk_name 0x00000dd9 25486; mk_name 0x00000dc9 25498; mk_name 0x00000dc8 25510;
    mk_name 0x00000dab 25522; mk_name 0x00000dca 25532; mk_name 0x00000dec 25543; mk_name 0x00000db1 25560;
    mk_name 0x00000db2 25579; mk_name 0x00000db7 25595; mk_name 0x00000db0 25610; mk_name 0x00000db8 25623;
    mk_name 0x00000db6 25637; mk_name 0x00000daf 25651; mk_name 0x00000db5 25664; mk_name 0x00000dc7 25675;
    mk_name 0x00000dc2 25687; mk_name 0x00000dad 25698; mk_name 0x000008c0 25710; mk_name 0x00000aa7 25720;
    mk_name 0x000000de 25730; mk_name 0x000000de 25736; mk_name 0x000000fe 25742; mk_name 0x00000ac4 25748;
    mk_name 0x00000ab4 25761; mk_name 0x000000be 25773; mk_name 0x01002083 25787; mk_name 0x000000b3 25802;
    mk_name 0x0100222d 25816; mk_name 0x000008a4 25826; mk_name 0x000008ab 25838; mk_name 0x000008a2 25852;
    mk_name 0x000008a7 25867; mk_name 0x000008b1 25884; mk_name 0x000008ad 25901; mk_name 0x000008a9 25916;
    mk_name 0x000008b5 25934; mk_name 0x000009f7 25952; mk_name 0x000008b3 25957; mk_name 0x0000ff2b 25983;
    mk_name 0x00000ac9 25991; mk_name 0x00000acb 26001; mk_name 0x000003ac 26019; mk_name 0x000003bc 26026;
    mk_name 0x00000ab3 26033; mk_name 0x01002082 26043; mk_name 0x000000b2 26056; mk_name 0x00000ab1 26068;
    mk_name 0x00000055 26078; mk_name 0x00000075 26080; mk_name 0x000000da 26082; mk_name 0x000000fa 26089;
    mk_name 0x01001ee4 26096; mk_name 0x01001ee5 26106; mk_name 0x000002dd 26116; mk_name 0x000002fd 26123;
    mk_name 0x000000db 26130; mk_name 0x000000fb 26142; mk_name 0x000000dc 26154; mk_name 0x000000fc 26165;
    mk_name 0x000001db 26176; mk_name 0x000001fb 26189; mk_name 0x000000d9 26202; mk_name 0x000000f9 26209;
    mk_name 0x01001ee6 26216; mk_name 0x01001ee7 26222; mk_name 0x010001af 26228; mk_name 0x010001b0 26234;
    mk_name 0x01001ee8 26240; mk_name 0x01001ee9 26251; mk_name 0x01001ef0 26262; mk_name 0x01001ef1 26276;
    mk_name 0x01001eea 26290; mk_name 0x01001eeb 26301; mk_name 0x01001eec 26312; mk_name 0x01001eed 26322;
    mk_name 0x01001eee 26332; mk_name 0x01001eef 26343; mk_name 0x000006bd 26354; mk_name 0x000006ad 26380;
    mk_name 0x000006b6 26406; mk_name 0x000006a6 26418; mk_name 0x000006b4 26430; mk_name 0x000006a4 26443;
    mk_name 0x000006b7 26456; mk_name 0x000006a7 26469; mk_name 0x000006b6 26482; mk_name 0x000006a6 26493;
    mk_name 0x000006b4 26504; mk_name 0x000006a4 26516; mk_name 0x000006b7 26528; mk_name 0x000006a7 26540;
    mk_name 0x000003de 26552; mk_name 0x000003fe 26560; mk_name 0x00000bc6 26568; mk_name 0x0000005f 26577;
    mk_name 0x0000ff65 26588; mk_name 0x000008dd 26593; mk_name 0x000003d9 26599; mk_name 0x000003f9 26607;
    mk_name 0x0000ff52 26615; mk_name 0x000008fc 26618; mk_name 0x00000ba9 26626; mk_name 0x000009ec 26634;
    mk_name 0x000009eb 26647; mk_name 0x00000bc3 26661; mk_name 0x00000bd3 26668; mk_name 0x00000bce 26676;
    mk_name 0x000001d9 26683; mk_name 0x000001f9 26689; mk_name 0x1000ff6e 26695; mk_name 0x000003dd 26700;
    mk_name 0x000003fd 26707; mk_name 0x00000056 26714; mk_name 0x00000076 26716; mk_name 0x000008c1 26718;
    mk_name 0x000009f8 26728; mk_name 0x000008a6 26736; mk_name 0x000004de 26750; mk_name 0x00ffffff 26762;
    mk_name 0x000009e9 26773; mk_name 0x00000057 26776; mk_name 0x00000077 26778; mk_name 0x01001e82 26780;
    mk_name 0x01001e83 26787; mk_name 0x01000174 26794; mk_name 0x01000175 26806; mk_name 0x01001e84 26818;
    mk_name 0x01001e85 26829; mk_name 0x01001e80 26840; mk_name 0x01001e81 26847; mk_name 0x010020a9 26854;
    mk_name 0x00000058 26862; mk_name 0x00000078 26864; mk_name 0x01001e8a 26866; mk_name 0x01001e8b 26876;
    mk_name 0x100811b9 26886; mk_name 0x100811b8 26905; mk_name 0x1008126f 26922; mk_name 0x1008124e 26933;
    mk_name 0x10081254 26951; mk_name 0x1008ff39 26973; mk_name 0x100811ad 26989; mk_name 0x10081230 27005;
    mk_name 0x1008ff50 27019; mk_name 0x1008ff51 27039; mk_name 0x10081244 27060; mk_name 0x10081177 27074;
    mk_name 0x10081247 27090; mk_name 0x1008121c 27104; mk_name 0x1008121b 27121; mk_name 0x1008121d 27137;
    mk_name 0x10081188 27157; mk_name 0x100810d1 27167; mk_name 0x10081175 27186; mk_name 0x1008ff9b 27207;
    mk_name 0x1008126e 27227; mk_name 0x1008ff97 27241; mk_name 0x1008ff11 27258; mk_name 0x1008ff32 27279;
    mk_name 0x1008ffb2 27294; mk_name 0x1008ff12 27311; mk_name 0x1008ff17 27325; mk_name 0x1008ff31 27339;
    mk_name 0x1008ff14 27354; mk_name 0x1008ffb6 27368; mk_name 0x1008ff16 27384; mk_name 0x1008ff13 27398;
    mk_name 0x1008ff99 27419; mk_name 0x1008ff1c 27439; mk_name 0x1008ff98 27455; mk_name 0x1008ff3e 27471;
    mk_name 0x1008ff15 27487; mk_name 0x1008127d 27501; mk_name 0x1008ff8d 27527; mk_name 0x1008ff26 27536;
    mk_name 0x1008ff3f 27545; mk_name 0x1008ff93 27561; mk_name 0x1008ffa6 27573; mk_name 0x1008ff94 27582;
    mk_name 0x1008ff52 27596; mk_name 0x1008119b 27605; mk_name 0x1008ff3b 27615; mk_name 0x100810f4 27636;
    mk_name 0x10081251 27655; mk_name 0x10081250 27673; mk_name 0x10081240 27691; mk_name 0x1008ff54 27708;
    mk_name 0x1008ff1d 27723; mk_name 0x1008ff20 27738; mk_name 0x1008124c 27751; mk_name 0x1008124b 27775;
    mk_name 0x1008124d 27798; mk_name 0x10081218 27821; mk_name 0x10081210 27836; mk_name 0x10081219 27852;
    mk_name 0x1008121a 27867; mk_name 0x10081217 27883; mk_name 0x10081215 27896; mk_name 0x10081216 27913;
    mk_name 0x1008ff53 27931; mk_name 0x10081193 27938; mk_name 0x10081192 27954; mk_name 0x1008ff55 27968;
    mk_name 0x1008fe21 27978; mk_name 0x10081286 27992; mk_name 0x1008ff56 28009; mk_name 0x1008ff3d 28019;
    mk_name 0x100811b6 28033; mk_name 0x10081255 28049; mk_name 0x10081256 28070; mk_name 0x1008ff22 28090;
    mk_name 0x10081243 28109; mk_name 0x1008ff57 28126; mk_name 0x1008ff58 28135; mk_name 0x1008ff9c 28143;
    mk_name 0x10081277 28158; mk_name 0x100811aa 28167; mk_name 0x1008124a 28180; mk_name 0x1008ff59 28192;
    mk_name 0x100810f5 28204; mk_name 0x100811af 28219; mk_name 0x1008ff5b 28237; mk_name 0x1008124f 28251;
    mk_name 0x1008ff5a 28268; mk_name 0x10081283 28276; mk_name 0x10081185 28295; mk_name 0x100811a6 28303;
    mk_name 0x1008ff2c 28314; mk_name 0x10081253 28324; mk_name 0x10081252 28355; mk_name 0x10081249 28385;
    mk_name 0x1008ff5c 28401; mk_name 0x100810ae 28411; mk_name 0x1008ff5d 28420; mk_name 0x10081275 28433;
    mk_name 0x1008ff30 28449; mk_name 0x1008ff3c 28463; mk_name 0x10081281 28475; mk_name 0x100811d0 28492;
    mk_name 0x100811de 28499; mk_name 0x100811df 28508; mk_name 0x100811e4 28517; mk_name 0x100811e0 28526;
    mk_name 0x100811e1 28535; mk_name 0x100811d1 28544; mk_name 0x100811e2 28555; mk_name 0x100811d2 28564;
    mk_name 0x100811db 28574; mk_name 0x100811dc 28585; mk_name 0x100811dd 28596; mk_name 0x100811d3 28607;
    mk_name 0x100811d4 28617; mk_name 0x100811d5 28627; mk_name 0x100811d6 28637; mk_name 0x100811d7 28647;
    mk_name 0x100811d8 28657; mk_name 0x100811d9 28667; mk_name 0x100811da 28677; mk_name 0x100811e3 28687;
    mk_name 0x100811e5 28696; mk_name 0x1008ff27 28713; mk_name 0x1008ff9d 28725; mk_name 0x1008ff9e 28739;
    mk_name 0x1008ffb8 28756; mk_name 0x1008ff5e 28771; mk_name 0x1008ff5f 28780; mk_name 0x10081162 28787;
    mk_name 0x100811a8 28796; mk_name 0x1008ffa4 28815; mk_name 0x100811be 28825; mk_name 0x1008ffa8 28841;
    mk_name 0x1008ff37 28855; mk_name 0x1008ff18 28867; mk_name 0x1008ff3a 28880; mk_name 0x100811ba 28893;
    mk_name 0x10081166 28904; mk_name 0x1008ff60 28913; mk_name 0x10081242 28924; mk_name 0x1008ff06 28936;
    mk_name 0x1008ff05 28958; mk_name 0x10081264 28978; mk_name 0x10081265 29003; mk_name 0x10081261 29028;
    mk_name 0x10081263 29051; mk_name 0x10081260 29079; mk_name 0x10081262 29102; mk_name 0x100812b8 29130;
    mk_name 0x100812b9 29146; mk_name 0x100812ba 29162; mk_name 0x100812bb 29178; mk_name 0x100812bc 29194;
    mk_name 0x1008ff04 29210; mk_name 0x1008ffb3 29228; mk_name 0x1008ff40 29241; mk_name 0x1008ff41 29253;
    mk_name 0x1008ff42 29265; mk_name 0x1008ff43 29277; mk_name 0x1008ff44 29289; mk_name 0x1008ff45 29301;
    mk_name 0x1008ff46 29313; mk_name 0x1008ff47 29325; mk_name 0x1008ff48 29337; mk_name 0x1008ff49 29349;
    mk_name 0x1008ff4a 29361; mk_name 0x1008ff4b 29373; mk_name 0x1008ff4c 29385; mk_name 0x1008ff4d 29397;
    mk_name 0x1008ff4e 29409; mk_name 0x1008ff4f 29421; mk_name 0x10081269 29433; mk_name 0x10081268 29446;
    mk_name 0x1008ff35 29457; mk_name 0x1008121e 29471; mk_name 0x100811bf 29488; mk_name 0x1008fe25 29502;
    mk_name 0x1008ff61 29518; mk_name 0x1008fe24 29529; mk_name 0x10081290 29547; mk_name 0x10081299 29558;
    mk_name 0x1008129a 29570; mk_name 0x1008129b 29582; mk_name 0x1008129c 29594; mk_name 0x1008129d 29606;
    mk_name 0x1008129e 29618; mk_name 0x1008129f 29630; mk_name 0x100812a0 29642; mk_name 0x100812a1 29654;
    mk_name 0x100812a2 29666; mk_name 0x10081291 29678; mk_name 0x100812a3 29689; mk_name 0x100812a4 29701;
    mk_name 0x100812a5 29713; mk_name 0x100812a6 29725; mk_name 0x100812a7 29737; mk_name 0x100812a8 29749;
    mk_name 0x100812a9 29761; mk_name 0x100812aa 29773; mk_name 0x100812ab 29785; mk_name 0x100812ac 29797;
    mk_name 0x10081292 29809; mk_name 0x100812ad 29820; mk_name 0x10081293 29832; mk_name 0x10081294 29843;
    mk_name 0x10081295 29854; mk_name 0x10081296 29865; mk_name 0x10081297 29876; mk_name 0x10081298 29887;
    mk_name 0x100812b3 29898; mk_name 0x100812b4 29915; mk_name 0x100812b5 29932; mk_name 0x100812b2 29949;
    mk_name 0x100812b0 29970; mk_name 0x100812b1 29991; mk_name 0x1008ff19 30011; mk_name 0x1008ff90 30020;
    mk_name 0x1008ff62 30036; mk_name 0x1008127e 30047; mk_name 0x10081170 30064; mk_name 0x10081183 30086;
    mk_name 0x100810a4 30102; mk_name 0x10081199 30121; mk_name 0x100811b7 30139; mk_name 0x10081186 30155;
    mk_name 0x1008117a 30180; mk_name 0x1008ff53 30201; mk_name 0x10081185 30219; mk_name 0x1008116e 30238;
    mk_name 0x10081178 30258; mk_name 0x1008116a 30276; mk_name 0x10081181 30304; mk_name 0x1008117d 30325;
    mk_name 0x10081180 30350; mk_name 0x10081184 30370; mk_name 0x10081182 30394; mk_name 0x10081179 30415;
    mk_name 0x1008117b 30433; mk_name 0x1008117c 30452; mk_name 0x10081171 30475; mk_name 0x1008126b 30494;
    mk_name 0x1008ff63 30511; mk_name 0x1008ff1e 30523; mk_name 0x1008ff65 30532; mk_name 0x1008ff66 30543;
    mk_name 0x1008ff8e 30554; mk_name 0x1008ff01 30568; mk_name 0x100810f4 30581; mk_name 0x1008ff07 30603;
    mk_name 0x1008ff03 30626; mk_name 0x1008ff02 30648; mk_name 0x1008ff92 30668; mk_name 0x1008ff33 30678;
    mk_name 0x1008ff67 30693; mk_name 0x10081280 30705; mk_name 0x10081288 30718; mk_name 0x1008ff68 30730;
    mk_name 0x1008ff69 30738; mk_name 0x1008fe22 30747; mk_name 0x1008127b 30762; mk_name 0x10081270 30778;
    mk_name 0x100811bc 30795; mk_name 0x1008119d 30818; mk_name 0x10081200 30838; mk_name 0x10081201 30851;
    mk_name 0x1008126c 30864; mk_name 0x1008126d 30878; mk_name 0x10081202 30892; mk_name 0x10081203 30905;
    mk_name 0x10081204 30918; mk_name 0x10081205 30931; mk_name 0x10081206 30944; mk_name 0x10081207 30957;
    mk_name 0x10081208 30970; mk_name 0x10081209 30983; mk_name 0x1008120c 30996; mk_name 0x1008120d 31009;
    mk_name 0x1008120e 31022; mk_name 0x1008120f 31035; mk_name 0x1008120b 31048; mk_name 0x1008120a 31065;
    mk_name 0x1008ff6a 31081; mk_name 0x10081160 31096; mk_name 0x10081278 31103; mk_name 0x1008ff6b 31124;
    mk_name 0x1008ff38 31133; mk_name 0x1008ff6c 31145; mk_name 0x1008ff6d 31156; mk_name 0x10081272 31166;
    mk_name 0x100812bd 31182; mk_name 0x1008ff6e 31202; mk_name 0x100811bd 31212; mk_name 0x1008ff91 31228;
    mk_name 0x1008ff21 31241; mk_name 0x1008ff2a 31255; mk_name 0x100811a9 31268; mk_name 0x1008fe23 31285;
    mk_name 0x1008127c 31300; mk_name 0x10081279 31320; mk_name 0x1008ff70 31344; mk_name 0x10081284 31350;
    mk_name 0x1008ffa3 31367; mk_name 0x1008ff29 31375; mk_name 0x10081232 31387; mk_name 0x1008ff73 31409;
    mk_name 0x1008ff72 31420; mk_name 0x1008ffb5 31430; mk_name 0x10081267 31441; mk_name 0x10081266 31455;
    mk_name 0x1008ff24 31467; mk_name 0x1008ff25 31482; mk_name 0x1008ff23 31498; mk_name 0x1008126a 31511;
    mk_name 0x1008ff74 31524; mk_name 0x1008ff76 31542; mk_name 0x1008ffb7 31557; mk_name 0x1008ff75 31580;
    mk_name 0x1008ff77 31595; mk_name 0x1008ff2d 31604; mk_name 0x10081245 31620; mk_name 0x1008ff7a 31636;
    mk_name 0x1008ff79 31652; mk_name 0x1008ff78 31667; mk_name 0x1008ff1b 31680; mk_name 0x1008ffa0 31691;
    mk_name 0x1008127a 31702; mk_name 0x1008ff7b 31726; mk_name 0x1008ff36 31735; mk_name 0x10081287 31744;
    mk_name 0x10081282 31760; mk_name 0x1008ff2f 31781; mk_name 0x10081276 31791; mk_name 0x1008127f 31807;
    mk_name 0x1008ff7c 31815; mk_name 0x100811b0 31825; mk_name 0x1008ff7d 31840; mk_name 0x100810dc 31856;
    mk_name 0x1008ff10 31866; mk_name 0x1008ff1a 31878; mk_name 0x1008ff28 31888; mk_name 0x10081271 31897;
    mk_name 0x1008ff9a 31912; mk_name 0x1008ff7e 31925; mk_name 0x1008ffa7 31937; mk_name 0x1008fe01 31949;
    mk_name 0x1008fe0a 31965; mk_name 0x1008fe0b 31982; mk_name 0x1008fe0c 31999; mk_name 0x1008fe02 32016;
    mk_name 0x1008fe03 32032; mk_name 0x1008fe04 32048; mk_name 0x1008fe05 32064; mk_name 0x1008fe06 32080;
    mk_name 0x1008fe07 32096; mk_name 0x1008fe08 32112; mk_name 0x1008fe09 32128; mk_name 0x10081241 32144;
    mk_name 0x1008ff7f 32160; mk_name 0x1008ff80 32173; mk_name 0x1008ff9f 32186; mk_name 0x1008ff1f 32195;
    mk_name 0x1008ff81 32208; mk_name 0x1008ffa2 32218; mk_name 0x1008ffb1 32230; mk_name 0x1008ffb0 32246;
    mk_name 0x1008ffa9 32261; mk_name 0x10081285 32280; mk_name 0x1008ff82 32301; mk_name 0x1008fe20 32312;
    mk_name 0x10081274 32323; mk_name 0x1008ff85 32334; mk_name 0x1008ff86 32346; mk_name 0x1008ff84 32358;
    mk_name 0x1008ff96 32369; mk_name 0x1008ff34 32377; mk_name 0x10081168 32392; mk_name 0x1008ff87 32407;
    mk_name 0x100811a0 32417; mk_name 0x1008ffa1 32432; mk_name 0x10081273 32441; mk_name 0x10081246 32449;
    mk_name 0x100811ac 32466; mk_name 0x1008ff2b 32480; mk_name 0x1008ff8f 32491; mk_name 0x1008ff88 32502;
    mk_name 0x1008ff95 32518; mk_name 0x1008ff89 32527; mk_name 0x10081211 32536; mk_name 0x1008ffb4 32550;
    mk_name 0x1008ff2e 32559; mk_name 0x1008ff8a 32567; mk_name 0x1008ffa5 32576; mk_name 0x1008ff8b 32587;
    mk_name 0x1008ff8c 32598; mk_name 0x100811a4 32610; mk_name 0x00000059 32624; mk_name 0x00000079 32626;
    mk_name 0x000000dd 32628; mk_name 0x000000fd 32635; mk_name 0x01001ef4 32642; mk_name 0x01001ef5 32652;
    mk_name 0x01000176 32662; mk_name 0x01000177 32674; mk_name 0x000013be 32686; mk_name 0x000000ff 32697;
    mk_name 0x000000a5 32708; mk_name 0x01001ef2 32712; mk_name 0x01001ef3 32719; mk_name 0x01001ef6 32726;
    mk_name 0x01001ef7 32732; mk_name 0x01001ef8 32738; mk_name 0x01001ef9 32745; mk_name 0x0000005a 32752;
    mk_name 0x0000007a 32754; mk_name 0x000001af 32756; mk_name 0x000001bf 32766; mk_name 0x000001ac 32776;
    mk_name 0x000001bc 32783; mk_name 0x000001ae 32790; mk_name 0x000001be 32797; mk_name 0x0000ff3d 32804;
    mk_name 0x0000ff28 32813; mk_name 0x0000ff2a 32821; mk_name 0x01002080 32837; mk_name 0x01002070 32851;
    mk_name 0x010001b5 32864; mk_name 0x010001b6 32872 ].

Definition keysym_to_name : list name_keysym :=
  [ mk_name 0x00000000 20276; mk_name 0x00000020 24027; mk_name 0x00000021 12230; mk_name 0x00000022 22385;
    mk_name 0x00000023 20363; mk_name 0x00000024 11382; mk_name 0x00000025 21685; mk_name 0x00000026 908;
    mk_name 0x00000027 934; mk_name 0x00000028 21623; mk_name 0x00000029 21633; mk_name 0x0000002a 3283;
    mk_name 0x0000002b 21755; mk_name 0x0000002c 8762; mk_name 0x0000002d 19918; mk_name 0x0000002e 21693;
    mk_name 0x0000002f 23992; mk_name 0x00000030 0; mk_name 0x00000031 2; mk_name 0x00000032 4;
    mk_name 0x00000033 6; mk_name 0x00000034 386; mk_name 0x00000035 388; mk_name 0x00000036 390;
    mk_name 0x00000037 392; mk_name 0x00000038 394; mk_name 0x00000039 396; mk_name 0x0000003a 8664;
    mk_name 0x0000003b 22958; mk_name 0x0000003c 19597; mk_name 0x0000003d 12182; mk_name 0x0000003e 13403;
    mk_name 0x0000003f 22363; mk_name 0x00000040 3292; mk_name 0x00000041 398; mk_name 0x00000042 3328;
    mk_name 0x00000043 8439; mk_name 0x00000044 10402; mk_name 0x00000045 11555; mk_name 0x00000046 12286;
    mk_name 0x00000047 12796; mk_name 0x00000048 14538; mk_name 0x00000049 17229; mk_name 0x0000004a 18274;
    mk_name 0x0000004b 18306; mk_name 0x0000004c 19272; mk_name 0x0000004d 19718; mk_name 0x0000004e 20128;
    mk_name 0x0000004f 20385; mk_name 0x00000050 21571; mk_name 0x00000051 22354; mk_name 0x00000052 22415;
    mk_name 0x00000053 22803; mk_name 0x00000054 24525; mk_name 0x00000055 26078; mk_name 0x00000056 26714;
    mk_name 0x00000057 26776; mk_name 0x00000058 26862; mk_name 0x00000059 32624; mk_name 0x0000005a 32752;
    mk_name 0x0000005b 3603; mk_name 0x0000005c 3352; mk_name 0x0000005d 3615; mk_name 0x0000005e 3260;
    mk_name 0x0000005f 26577; mk_name 0x00000060 13397; mk_name 0x00000061 400; mk_name 0x00000062 3330;
    mk_name 0x00000063 8441; mk_name 0x00000064 10404; mk_name 0x00000065 11557; mk_name 0x00000066 12288;
    mk_name 0x00000067 12798; mk_name 0x00000068 14540; mk_name 0x00000069 17231; mk_name 0x0000006a 18276;
    mk_name 0x0000006b 18308; mk_name 0x0000006c 19274; mk_name 0x0000006d 19720; mk_name 0x0000006e 20130;
    mk_name 0x0000006f 20387; mk_name 0x00000070 21573; mk_name 0x00000071 22356; mk_name 0x00000072 22417;
    mk_name 0x00000073 22805; mk_name 0x00000074 24527; mk_name 0x00000075 26080; mk_name 0x00000076 26716;
    mk_name 0x00000077 26778; mk_name 0x00000078 26864; mk_name 0x00000079 32626; mk_name 0x0000007a 32754;
    mk_name 0x0000007b 3582; mk_name 0x0000007c 3392; mk_name 0x0000007d 3592; mk_name 0x0000007e 3272;
    mk_name 0x000000a0 20263; mk_name 0x000000a1 12237; mk_name 0x000000a2 8589; mk_name 0x000000a3 24058;
    mk_name 0x000000a4 8848; mk_name 0x000000a5 32708; mk_name 0x000000a6 8389; mk_name 0x000000a7 22943;
    mk_name 0x000000a8 11334; mk_name 0x000000a9 8799; mk_name 0x000000aa 21037; mk_name 0x000000ab 14509;
    mk_name 0x000000ac 20332; mk_name 0x000000ad 17222; mk_name 0x000000ae 22529; mk_name 0x000000af 19826;
    mk_name 0x000000b0 11284; mk_name 0x000000b1 21760; mk_name 0x000000b2 26056; mk_name 0x000000b3 25802;
    mk_name 0x000000b4 820; mk_name 0x000000b5 19984; mk_name 0x000000b6 21613; mk_name 0x000000b7 21700;
    mk_name 0x000000b8 8581; mk_name 0x000000b9 20940; mk_name 0x000000ba 19873; mk_name 0x000000bb 14523;
    mk_name 0x000000bc 20907; mk_name 0x000000bd 20899; mk_name 0x000000be 25773; mk_name 0x000000bf 22372;
    mk_name 0x000000c0 854; mk_name 0x000000c1 402; mk_name 0x000000c2 622; mk_name 0x000000c3 3295;
    mk_name 0x000000c4 826; mk_name 0x000000c5 2036; mk_name 0x000000c6 848; mk_name 0x000000c7 8539;
    mk_name 0x000000c8 11855; mk_name 0x000000c9 11579; mk_name 0x000000ca 11627; mk_name 0x000000cb 11833;
    mk_name 0x000000cc 17365; mk_name 0x000000cd 17243; mk_name 0x000000ce 17291; mk_name 0x000000cf 17325;
    mk_name 0x000000d0 12195; mk_name 0x000000d1 20340; mk_name 0x000000d2 20712; mk_name 0x000000d3 20389;
    mk_name 0x000000d4 20453; mk_name 0x000000d5 21508; mk_name 0x000000d6 20651; mk_name 0x000000d7 20024;
    mk_name 0x000000d8 21494; mk_name 0x000000d9 26202; mk_name 0x000000da 26082; mk_name 0x000000db 26130;
    mk_name 0x000000dc 26154; mk_name 0x000000dd 32628; mk_name 0x000000de 25730; mk_name 0x000000df 24051;
    mk_name 0x000000e0 861; mk_name 0x000000e1 409; mk_name 0x000000e2 634; mk_name 0x000000e3 3302;
    mk_name 0x000000e4 837; mk_name 0x000000e5 2042; mk_name 0x000000e6 851; mk_name 0x000000e7 8548;
    mk_name 0x000000e8 11862; mk_name 0x000000e9 11586; mk_name 0x000000ea 11639; mk_name 0x000000eb 11844;
    mk_name 0x000000ec 17372; mk_name 0x000000ed 17250; mk_name 0x000000ee 17303; mk_name 0x000000ef 17336;
    mk_name 0x000000f0 12203; mk_name 0x000000f1 20347; mk_name 0x000000f2 20719; mk_name 0x000000f3 20396;
    mk_name 0x000000f4 20465; mk_name 0x000000f5 21515; mk_name 0x000000f6 20662; mk_name 0x000000f7 11373;
    mk_name 0x000000f8 21501; mk_name 0x000000f9 26209; mk_name 0x000000fa 26089; mk_name 0x000000fb 26142;
    mk_name 0x000000fc 26165; mk_name 0x000000fd 32635; mk_name 0x000000fe 25742; mk_name 0x000000ff 32697;
    mk_name 0x000001a1 918; mk_name 0x000001a2 8383; mk_name 0x000001a3 19702; mk_name 0x000001a5 19372;
    mk_name 0x000001a6 22827; mk_name 0x000001a9 22841; mk_name 0x000001aa 22855; mk_name 0x000001ab 24553;
    mk_name 0x000001ac 32776; mk_name 0x000001ae 32790; mk_name 0x000001af 32756; mk_name 0x000001b1 926;
    mk_name 0x000001b2 20705; mk_name 0x000001b3 19710; mk_name 0x000001b5 19379; mk_name 0x000001b6 22834;
    mk_name 0x000001b7 8519; mk_name 0x000001b9 22848; mk_name 0x000001ba 22864; mk_name 0x000001bb 24560;
    mk_name 0x000001bc 32783; mk_name 0x000001bd 11414; mk_name 0x000001be 32797; mk_name 0x000001bf 32766;
    mk_name 0x000001c0 22470; mk_name 0x000001c3 445; mk_name 0x000001c5 19307; mk_name 0x000001c6 8475;
    mk_name 0x000001c8 8525; mk_name 0x000001ca 12166; mk_name 0x000001cc 11613; mk_name 0x000001cf 10447;
    mk_name 0x000001d0 11532; mk_name 0x000001d1 20138; mk_name 0x000001d2 20162; mk_name 0x000001d5 20673;
    mk_name 0x000001d8 22492; mk_name 0x000001d9 26683; mk_name 0x000001db 26176; mk_name 0x000001de 24567;
    mk_name 0x000001e0 22477; mk_name 0x000001e3 452; mk_name 0x000001e5 19314; mk_name 0x000001e6 8482;
    mk_name 0x000001e8 8532; mk_name 0x000001ea 12174; mk_name 0x000001ec 11620; mk_name 0x000001ef 10454;
    mk_name 0x000001f0 11540; mk_name 0x000001f1 20145; mk_name 0x000001f2 20169; mk_name 0x000001f5 20686;
    mk_name 0x000001f8 22499; mk_name 0x000001f9 26689; mk_name 0x000001fb 26189; mk_name 0x000001fe 24576;
    mk_name 0x000001ff 436; mk_name 0x000002a1 17187; mk_name 0x000002a6 16216; mk_name 0x000002a9 17233;
    mk_name 0x000002ab 12820; mk_name 0x000002ac 18278; mk_name 0x000002b1 17195; mk_name 0x000002b6 16228;
    mk_name 0x000002b9 17347; mk_name 0x000002bb 12827; mk_name 0x000002bc 18290; mk_name 0x000002c5 8455;
    mk_name 0x000002c6 8557; mk_name 0x000002d5 12800; mk_name 0x000002d8 12866; mk_name 0x000002dd 26116;
    mk_name 0x000002de 22885; mk_name 0x000002e5 8465; mk_name 0x000002e6 8569; mk_name 0x000002f5 12810;
    mk_name 0x000002f8 12878; mk_name 0x000002fd 26123; mk_name 0x000002fe 22897; mk_name 0x000003a2 19268;
    mk_name 0x000003a3 22506; mk_name 0x000003a5 18260; mk_name 0x000003a6 19386; mk_name 0x000003aa 11970;
    mk_name 0x000003ab 12848; mk_name 0x000003ac 26019; mk_name 0x000003b3 22515; mk_name 0x000003b5 18267;
    mk_name 0x000003b6 19395; mk_name 0x000003ba 11978; mk_name 0x000003bb 12857; mk_name 0x000003bc 26026;
    mk_name 0x000003bd 12114; mk_name 0x000003bf 12118; mk_name 0x000003c0 892; mk_name 0x000003c7 17498;
    mk_name 0x000003cc 11559; mk_name 0x000003cf 17391; mk_name 0x000003d1 20176; mk_name 0x000003d2 20864;
    mk_name 0x000003d3 18939; mk_name 0x000003d9 26599; mk_name 0x000003dd 26700; mk_name 0x000003de 26552;
    mk_name 0x000003e0 900; mk_name 0x000003e7 17506; mk_name 0x000003ec 11569; mk_name 0x000003ef 17399;
    mk_name 0x000003f1 20185; mk_name 0x000003f2 20872; mk_name 0x000003f3 18948; mk_name 0x000003f9 26607;
    mk_name 0x000003fd 26707; mk_name 0x000003fe 26560; mk_name 0x0000047e 21562; mk_name 0x000004a1 18403;
    mk_name 0x000004a2 18637; mk_name 0x000004a3 18333; mk_name 0x000004a4 18353; mk_name 0x000004a5 18364;
    mk_name 0x000004a6 18849; mk_name 0x000004a7 18317; mk_name 0x000004a8 18464; mk_name 0x000004a9 18834;
    mk_name 0x000004aa 18388; mk_name 0x000004ab 18630; mk_name 0x000004ac 18865; mk_name 0x000004ad 18897;
    mk_name 0x000004ae 18881; mk_name 0x000004af 18802; mk_name 0x000004b0 22328; mk_name 0x000004b1 18310;
    mk_name 0x000004b2 18457; mk_name 0x000004b3 18827; mk_name 0x000004b4 18381; mk_name 0x000004b5 18623;
    mk_name 0x000004b6 18471; mk_name 0x000004b7 18487; mk_name 0x000004b8 18503; mk_name 0x000004b9 18479;
    mk_name 0x000004ba 18495; mk_name 0x000004bb 18697; mk_name 0x000004bc 18713; mk_name 0x000004bd 18741;
    mk_name 0x000004be 18705; mk_name 0x000004bf 18733; mk_name 0x000004c0 18761; mk_name 0x000004c1 18324;
    mk_name 0x000004c2 18793; mk_name 0x000004c3 18769; mk_name 0x000004c4 18785; mk_name 0x000004c5 18583;
    mk_name 0x000004c6 18599; mk_name 0x000004c7 18615; mk_name 0x000004c8 18591; mk_name 0x000004c9 18607;
    mk_name 0x000004ca 18417; mk_name 0x000004cb 18433; mk_name 0x000004cc 18395; mk_name 0x000004cd 18425;
    mk_name 0x000004ce 18441; mk_name 0x000004cf 18521; mk_name 0x000004d0 18537; mk_name 0x000004d1 18568;
    mk_name 0x000004d2 18529; mk_name 0x000004d3 18560; mk_name 0x000004d4 18857; mk_name 0x000004d5 18889;
    mk_name 0x000004d6 18873; mk_name 0x000004d7 18657; mk_name 0x000004d8 18673; mk_name 0x000004d9 18689;
    mk_name 0x000004da 18665; mk_name 0x000004db 18681; mk_name 0x000004dc 18841; mk_name 0x000004dd 18576;
    mk_name 0x000004de 26750; mk_name 0x000004df 22968; mk_name 0x000005ac 1109; mk_name 0x000005bb 1764;
    mk_name 0x000005bf 1698; mk_name 0x000005c1 1303; mk_name 0x000005c2 1599; mk_name 0x000005c3 1354;
    mk_name 0x000005c4 1373; mk_name 0x000005c5 1409; mk_name 0x000005c6 1391; mk_name 0x000005c7 1067;
    mk_name 0x000005c8 1098; mk_name 0x000005c9 1909; mk_name 0x000005ca 1898; mk_name 0x000005cb 1939;
    mk_name 0x000005cc 1481; mk_name 0x000005cd 1292; mk_name 0x000005ce 1557; mk_name 0x000005cf 1133;
    mk_name 0x000005d0 1927; mk_name 0x000005d1 1719; mk_name 0x000005d2 2024; mk_name 0x000005d3 1752;
    mk_name 0x000005d4 1795; mk_name 0x000005d5 1741; mk_name 0x000005d6 1122; mk_name 0x000005d7 1859;
    mk_name 0x000005d8 2013; mk_name 0x000005d9 1056; mk_name 0x000005da 1269; mk_name 0x000005e0 1870;
    mk_name 0x000005e1 1231; mk_name 0x000005e2 1687; mk_name 0x000005e3 1504; mk_name 0x000005e4 1569;
    mk_name 0x000005e5 1618; mk_name 0x000005e6 1630; mk_name 0x000005e7 1282; mk_name 0x000005e8 1974;
    mk_name 0x000005e9 1079; mk_name 0x000005ea 1985; mk_name 0x000005eb 1215; mk_name 0x000005ec 1157;
    mk_name 0x000005ed 1528; mk_name 0x000005ee 1202; mk_name 0x000005ef 1144; mk_name 0x000005f0 1515;
    mk_name 0x000005f1 1781; mk_name 0x000005f2 1808; mk_name 0x000006a1 22996; mk_name 0x000006a2 19784;
    mk_name 0x000006a3 9550; mk_name 0x000006a4 26443; mk_name 0x000006a5 19756; mk_name 0x000006a6 26418;
    mk_name 0x000006a7 26469; mk_name 0x000006a8 9574; mk_name 0x000006a9 9713; mk_name 0x000006aa 9739;
    mk_name 0x000006ab 23115; mk_name 0x000006ac 19812; mk_name 0x000006ad 26380; mk_name 0x000006ae 8419;
    mk_name 0x000006af 9068; mk_name 0x000006b0 20374; mk_name 0x000006b1 22984; mk_name 0x000006b2 19770;
    mk_name 0x000006b3 9538; mk_name 0x000006b4 26430; mk_name 0x000006b5 19742; mk_name 0x000006b6 26406;
    mk_name 0x000006b7 26456; mk_name 0x000006b8 9562; mk_name 0x000006b9 9700; mk_name 0x000006ba 9726;
    mk_name 0x000006bb 23102; mk_name 0x000006bc 19798; mk_name 0x000006bd 26354; mk_name 0x000006be 8399;
    mk_name 0x000006bf 9054; mk_name 0x000006c0 10294; mk_name 0x000006c1 8875; mk_name 0x000006c2 8898;
    mk_name 0x000006c3 10047; mk_name 0x000006c4 9042; mk_name 0x000006c5 9526; mk_name 0x000006c6 9116;
    mk_name 0x000006c7 9305; mk_name 0x000006c8 9364; mk_name 0x000006c9 9467; mk_name 0x000006ca 9958;
    mk_name 0x000006cb 9598; mk_name 0x000006cc 9140; mk_name 0x000006cd 9164; mk_name 0x000006ce 9188;
    mk_name 0x000006cf 9763; mk_name 0x000006d0 9816; mk_name 0x000006d1 10242; mk_name 0x000006d2 9256;
    mk_name 0x000006d3 9280; mk_name 0x000006d4 10022; mk_name 0x000006d5 10071; mk_name 0x000006d6 10343;
    mk_name 0x000006d7 10218; mk_name 0x000006d8 9992; mk_name 0x000006d9 10268; mk_name 0x000006da 10318;
    mk_name 0x000006db 9871; mk_name 0x000006dc 9093; mk_name 0x000006dd 9899; mk_name 0x000006de 8923;
    mk_name 0x000006df 9438; mk_name 0x000006e0 10282; mk_name 0x000006e1 8864; mk_name 0x000006e2 8886;
    mk_name 0x000006e3 10034; mk_name 0x000006e4 9030; mk_name 0x000006e5 9514; mk_name 0x000006e6 9104;
    mk_name 0x000006e7 9292; mk_name 0x000006e8 9352; mk_name 0x000006e9 9456; mk_name 0x000006ea 9942;
    mk_name 0x000006eb 9586; mk_name 0x000006ec 9128; mk_name 0x000006ed 9152; mk_name 0x000006ee 9176;
    mk_name 0x000006ef 9752; mk_name 0x000006f0 9804; mk_name 0x000006f1 10230; mk_name 0x000006f2 9244;
    mk_name 0x000006f3 9268; mk_name 0x000006f4 10010; mk_name 0x000006f5 10060; mk_name 0x000006f6 10330;
    mk_name 0x000006f7 10206; mk_name 0x000006f8 9974; mk_name 0x000006f9 10254; mk_name 0x000006fa 10306;
    mk_name 0x000006fb 9858; mk_name 0x000006fc 9082; mk_name 0x000006fd 9884; mk_name 0x000006fe 8910;
    mk_name 0x000006ff 9420; mk_name 0x000007a1 13473; mk_name 0x000007a2 13603; mk_name 0x000007a3 13663;
    mk_name 0x000007a4 13778; mk_name 0x000007a5 13857; mk_name 0x000007a7 14093; mk_name 0x000007a8 14320;
    mk_name 0x000007a9 14388; mk_name 0x000007ab 14029; mk_name 0x000007ae 13428; mk_name 0x000007af 13741;
    mk_name 0x000007b1 13491; mk_name 0x000007b2 13623; mk_name 0x000007b3 13679; mk_name 0x000007b4 13795;
    mk_name 0x000007b5 13876; mk_name 0x000007b6 13812; mk_name 0x000007b7 14113; mk_name 0x000007b8 14340;
    mk_name 0x000007b9 14410; mk_name 0x000007ba 14360; mk_name 0x000007bb 14047; mk_name 0x000007c1 13449;
    mk_name 0x000007c2 13509; mk_name 0x000007c3 13717; mk_name 0x000007c4 13551; mk_name 0x000007c5 13575;
    mk_name 0x000007c6 14450; mk_name 0x000007c7 13643; mk_name 0x000007c8 14268; mk_name 0x000007c9 13756;
    mk_name 0x000007ca 13895; mk_name 0x000007cb 13945; mk_name 0x000007cc 13969; mk_name 0x000007cd 13987;
    mk_name 0x000007ce 14432; mk_name 0x000007cf 14065; mk_name 0x000007d0 14153; mk_name 0x000007d1 14191;
    mk_name 0x000007d2 14211; mk_name 0x000007d4 14248; mk_name 0x000007d5 14292; mk_name 0x000007d6 14133;
    mk_name 0x000007d7 13531; mk_name 0x000007d8 14171; mk_name 0x000007d9 14005; mk_name 0x000007e1 13461;
    mk_name 0x000007e2 13520; mk_name 0x000007e3 13729; mk_name 0x000007e4 13563; mk_name 0x000007e5 13589;
    mk_name 0x000007e6 14461; mk_name 0x000007e7 13653; mk_name 0x000007e8 14280; mk_name 0x000007e9 13767;
    mk_name 0x000007ea 13907; mk_name 0x000007eb 13957; mk_name 0x000007ec 13978; mk_name 0x000007ed 13996;
    mk_name 0x000007ee 14441; mk_name 0x000007ef 14079; mk_name 0x000007f0 14162; mk_name 0x000007f1 14201;
    mk_name 0x000007f2 14223; mk_name 0x000007f3 13695; mk_name 0x000007f4 14258; mk_name 0x000007f5 14306;
    mk_name 0x000007f6 14143; mk_name 0x000007f7 13541; mk_name 0x000007f8 14181; mk_name 0x000007f9 14017;
    mk_name 0x000008a1 19516; mk_name 0x000008a2 25852; mk_name 0x000008a3 16827; mk_name 0x000008a4 25826;
    mk_name 0x000008a5 3422; mk_name 0x000008a6 26736; mk_name 0x000008a7 25867; mk_name 0x000008a8 3448;
    mk_name 0x000008a9 25916; mk_name 0x000008aa 3497; mk_name 0x000008ab 25838; mk_name 0x000008ac 3434;
    mk_name 0x000008ad 25901; mk_name 0x000008ae 3482; mk_name 0x000008af 19466; mk_name 0x000008b0 22638;
    mk_name 0x000008b1 25884; mk_name 0x000008b2 3465; mk_name 0x000008b3 25957; mk_name 0x000008b4 3538;
    mk_name 0x000008b5 25934; mk_name 0x000008b6 3515; mk_name 0x000008b7 22660; mk_name 0x000008bc 19602;
    mk_name 0x000008bd 20310; mk_name 0x000008be 13411; mk_name 0x000008bf 17473; mk_name 0x000008c0 25710;
    mk_name 0x000008c1 26718; mk_name 0x000008c2 17435; mk_name 0x000008c5 20132; mk_name 0x000008c8 954;
    mk_name 0x000008c9 23223; mk_name 0x000008cd 17356; mk_name 0x000008ce 17407; mk_name 0x000008cf 17315;
    mk_name 0x000008d6 22484; mk_name 0x000008da 17415; mk_name 0x000008db 17426; mk_name 0x000008dc 17482;
    mk_name 0x000008dd 26593; mk_name 0x000008de 19642; mk_name 0x000008df 19653; mk_name 0x000008ef 21661;
    mk_name 0x000008f6 12787; mk_name 0x000008fb 19426; mk_name 0x000008fc 26618; mk_name 0x000008fd 22595;
    mk_name 0x000008fe 11463; mk_name 0x000009df 3410; mk_name 0x000009e0 24014; mk_name 0x000009e1 8603;
    mk_name 0x000009e2 17203; mk_name 0x000009e3 12544; mk_name 0x000009e4 8809; mk_name 0x000009e5 19616;
    mk_name 0x000009e8 20260; mk_name 0x000009e9 26773; mk_name 0x000009ea 19687; mk_name 0x000009eb 26647;
    mk_name 0x000009ec 26634; mk_name 0x000009ed 19673; mk_name 0x000009ee 8812; mk_name 0x000009ef 16842;
    mk_name 0x000009f0 16857; mk_name 0x000009f1 16872; mk_name 0x000009f2 16887; mk_name 0x000009f3 16902;
    mk_name 0x000009f4 19582; mk_name 0x000009f5 22769; mk_name 0x000009f6 3533; mk_name 0x000009f7 25952;
    mk_name 0x000009f8 26728; mk_name 0x00000aa1 12059; mk_name 0x00000aa2 12158; mk_name 0x00000aa3 11952;
    mk_name 0x00000aa4 11961; mk_name 0x00000aa5 11352; mk_name 0x00000aa6 22343; mk_name 0x00000aa7 25720;
    mk_name 0x00000aa8 14542; mk_name 0x00000aa9 11986; mk_name 0x00000aaa 12071; mk_name 0x00000aac 23211;
    mk_name 0x00000aae 11943; mk_name 0x00000aaf 11398; mk_name 0x00000ab0 20952; mk_name 0x00000ab1 26068;
    mk_name 0x00000ab2 20890; mk_name 0x00000ab3 26033; mk_name 0x00000ab4 25761; mk_name 0x00000ab5 12738;
    mk_name 0x00000ab6 20918; mk_name 0x00000ab7 12700; mk_name 0x00000ab8 8506; mk_name 0x00000abb 12558;
    mk_name 0x00000abc 19409; mk_name 0x00000abd 11271; mk_name 0x00000abe 22577; mk_name 0x00000abf 19866;
    mk_name 0x00000ac3 20880; mk_name 0x00000ac4 25748; mk_name 0x00000ac5 12688; mk_name 0x00000ac6 23128;
    mk_name 0x00000ac9 25991; mk_name 0x00000aca 23197; mk_name 0x00000acb 26001; mk_name 0x00000acc 19487;
    mk_name 0x00000acd 22681; mk_name 0x00000ace 12021; mk_name 0x00000acf 12034; mk_name 0x00000ad0 19562;
    mk_name 0x00000ad1 22748; mk_name 0x00000ad2 19446; mk_name 0x00000ad3 22617; mk_name 0x00000ad4 22265;
    mk_name 0x00000ad5 21715; mk_name 0x00000ad6 19924; mk_name 0x00000ad7 22935; mk_name 0x00000ad9 19341;
    mk_name 0x00000ada 16786; mk_name 0x00000adb 12586; mk_name 0x00000adc 12566; mk_name 0x00000add 12603;
    mk_name 0x00000ade 11993; mk_name 0x00000adf 12008; mk_name 0x00000ae0 12122; mk_name 0x00000ae1 12139;
    mk_name 0x00000ae2 20979; mk_name 0x00000ae3 21021; mk_name 0x00000ae4 21003; mk_name 0x00000ae5 20994;
    mk_name 0x00000ae6 12078; mk_name 0x00000ae7 12097; mk_name 0x00000ae8 12644; mk_name 0x00000ae9 12624;
    mk_name 0x00000aea 19504; mk_name 0x00000aeb 22699; mk_name 0x00000aec 8649; mk_name 0x00000aed 11344;
    mk_name 0x00000aee 16240; mk_name 0x00000af0 19853; mk_name 0x00000af1 10440; mk_name 0x00000af2 11426;
    mk_name 0x00000af3 8616; mk_name 0x00000af4 3380; mk_name 0x00000af5 20045; mk_name 0x00000af6 20033;
    mk_name 0x00000af7 19842; mk_name 0x00000af8 12531; mk_name 0x00000af9 24585; mk_name 0x00000afa 24595;
    mk_name 0x00000afb 21735; mk_name 0x00000afc 8513; mk_name 0x00000afd 23252; mk_name 0x00000afe 11439;
    mk_name 0x00000aff 8857; mk_name 0x00000ba3 19436; mk_name 0x00000ba6 22606; mk_name 0x00000ba8 11473;
    mk_name 0x00000ba9 26626; mk_name 0x00000bc0 21522; mk_name 0x00000bc2 11502; mk_name 0x00000bc3 26661;
    mk_name 0x00000bc4 11492; mk_name 0x00000bc6 26568; mk_name 0x00000bca 18302; mk_name 0x00000bcc 22358;
    mk_name 0x00000bce 26676; mk_name 0x00000bcf 8626; mk_name 0x00000bd3 26668; mk_name 0x00000bd6 11483;
    mk_name 0x00000bd8 22712; mk_name 0x00000bda 19528; mk_name 0x00000bdc 19588; mk_name 0x00000bfc 22776;
    mk_name 0x00000cdf 16333; mk_name 0x00000ce0 16246; mk_name 0x00000ce1 16271; mk_name 0x00000ce2 16452;
    mk_name 0x00000ce3 16306; mk_name 0x00000ce4 16479; mk_name 0x00000ce5 16691; mk_name 0x00000ce6 16737;
    mk_name 0x00000ce7 16294; mk_name 0x00000ce8 16668; mk_name 0x00000ce9 16702; mk_name 0x00000cea 16354;
    mk_name 0x00000ceb 16500; mk_name 0x00000cec 16523; mk_name 0x00000ced 16371; mk_name 0x00000cee 16536;
    mk_name 0x00000cef 16387; mk_name 0x00000cf0 16547; mk_name 0x00000cf1 16592; mk_name 0x00000cf2 16259;
    mk_name 0x00000cf3 16403; mk_name 0x00000cf4 16558; mk_name 0x00000cf5 16418; mk_name 0x00000cf6 16713;
    mk_name 0x00000cf7 16568; mk_name 0x00000cf8 16580; mk_name 0x00000cf9 16620; mk_name 0x00000cfa 16657;
    mk_name 0x00000da1 24848; mk_name 0x00000da2 24778; mk_name 0x00000da3 24804; mk_name 0x00000da4 24818;
    mk_name 0x00000da5 24791; mk_name 0x00000da6 24832; mk_name 0x00000da7 25161; mk_name 0x00000da8 24654;
    mk_name 0x00000da9 24681; mk_name 0x00000daa 24667; mk_name 0x00000dab 25522; mk_name 0x00000dac 24695;
    mk_name 0x00000dad 25698; mk_name 0x00000dae 24708; mk_name 0x00000daf 25651; mk_name 0x00000db0 25610;
    mk_name 0x00000db1 25560; mk_name 0x00000db2 25579; mk_name 0x00000db3 25187; mk_name 0x00000db4 24721;
    mk_name 0x00000db5 25664; mk_name 0x00000db6 25637; mk_name 0x00000db7 25595; mk_name 0x00000db8 25623;
    mk_name 0x00000db9 25198; mk_name 0x00000dba 24640; mk_name 0x00000dbb 25289; mk_name 0x00000dbc 25259;
    mk_name 0x00000dbd 24732; mk_name 0x00000dbe 25246; mk_name 0x00000dbf 24742; mk_name 0x00000dc0 25273;
    mk_name 0x00000dc1 25151; mk_name 0x00000dc2 25687; mk_name 0x00000dc3 25300; mk_name 0x00000dc4 25311;
    mk_name 0x00000dc5 25011; mk_name 0x00000dc6 25023; mk_name 0x00000dc7 25675; mk_name 0x00000dc8 25510;
    mk_name 0x00000dc9 25498; mk_name 0x00000dca 25532; mk_name 0x00000dcb 24753; mk_name 0x00000dcc 24998;
    mk_name 0x00000dcd 25208; mk_name 0x00000dce 24764; mk_name 0x00000dcf 25218; mk_name 0x00000dd0 25319;
    mk_name 0x00000dd1 25059; mk_name 0x00000dd2 25330; mk_name 0x00000dd3 25393; mk_name 0x00000dd4 25416;
    mk_name 0x00000dd5 25427; mk_name 0x00000dd6 25461; mk_name 0x00000dd7 25473; mk_name 0x00000dd8 25450;
    mk_name 0x00000dd9 25486; mk_name 0x00000dda 25233; mk_name 0x00000dde 25075; mk_name 0x00000ddf 24630;
    mk_name 0x00000de0 25405; mk_name 0x00000de1 25342; mk_name 0x00000de2 25439; mk_name 0x00000de3 25374;
    mk_name 0x00000de4 25354; mk_name 0x00000de5 24859; mk_name 0x00000de6 25137; mk_name 0x00000de7 25098;
    mk_name 0x00000de8 25048; mk_name 0x00000de9 25113; mk_name 0x00000dea 25125; mk_name 0x00000deb 25031;
    mk_name 0x00000dec 25543; mk_name 0x00000ded 25173; mk_name 0x00000df0 24986; mk_name 0x00000df1 24924;
    mk_name 0x00000df2 24973; mk_name 0x00000df3 24950; mk_name 0x00000df4 24962; mk_name 0x00000df5 24889;
    mk_name 0x00000df6 24900; mk_name 0x00000df7 24876; mk_name 0x00000df8 24937; mk_name 0x00000df9 24912;
    mk_name 0x00000ea1 15341; mk_name 0x00000ea2 15886; mk_name 0x00000ea3 15355; mk_name 0x00000ea4 15436;
    mk_name 0x00000ea5 15467; mk_name 0x00000ea6 15449; mk_name 0x00000ea7 14648; mk_name 0x00000ea8 15849;
    mk_name 0x00000ea9 15621; mk_name 0x00000eaa 15652; mk_name 0x00000eab 15671; mk_name 0x00000eac 15708;
    mk_name 0x00000ead 15726; mk_name 0x00000eae 15743; mk_name 0x00000eaf 15689; mk_name 0x00000eb0 15634;
    mk_name 0x00000eb1 15398; mk_name 0x00000eb2 15533; mk_name 0x00000eb3 15905; mk_name 0x00000eb4 15546;
    mk_name 0x00000eb5 15822; mk_name 0x00000eb6 15923; mk_name 0x00000eb7 14737; mk_name 0x00000eb8 15314;
    mk_name 0x00000eb9 15868; mk_name 0x00000eba 14618; mk_name 0x00000ebb 15327; mk_name 0x00000ebc 16043;
    mk_name 0x00000ebd 15519; mk_name 0x00000ebe 14715; mk_name 0x00000ebf 14559; mk_name 0x00000ec0 14568;
    mk_name 0x00000ec1 16117; mk_name 0x00000ec2 16127; mk_name 0x00000ec3 14682; mk_name 0x00000ec4 14662;
    mk_name 0x00000ec5 16148; mk_name 0x00000ec6 16138; mk_name 0x00000ec7 15485; mk_name 0x00000ec8 16065;
    mk_name 0x00000ec9 16075; mk_name 0x00000eca 15494; mk_name 0x00000ecb 16188; mk_name 0x00000ecc 16056;
    mk_name 0x00000ecd 16096; mk_name 0x00000ece 16086; mk_name 0x00000ecf 16107; mk_name 0x00000ed0 16198;
    mk_name 0x00000ed1 14692; mk_name 0x00000ed2 16178; mk_name 0x00000ed3 14728; mk_name 0x00000ed4 14842;
    mk_name 0x00000ed5 15212; mk_name 0x00000ed6 14858; mk_name 0x00000ed7 14920; mk_name 0x00000ed8 14955;
    mk_name 0x00000ed9 14935; mk_name 0x00000eda 14765; mk_name 0x00000edb 15042; mk_name 0x00000edc 15077;
    mk_name 0x00000edd 15098; mk_name 0x00000ede 15139; mk_name 0x00000edf 15159; mk_name 0x00000ee0 15178;
    mk_name 0x00000ee1 15118; mk_name 0x00000ee2 15057; mk_name 0x00000ee3 14905; mk_name 0x00000ee4 15008;
    mk_name 0x00000ee5 15023; mk_name 0x00000ee6 15198; mk_name 0x00000ee7 15233; mk_name 0x00000ee8 14796;
    mk_name 0x00000ee9 14811; mk_name 0x00000eea 14750; mk_name 0x00000eeb 14826; mk_name 0x00000eec 15252;
    mk_name 0x00000eed 14992; mk_name 0x00000eee 14781; mk_name 0x00000eef 15761; mk_name 0x00000ef0 15953;
    mk_name 0x00000ef1 16004; mk_name 0x00000ef2 15504; mk_name 0x00000ef3 15373; mk_name 0x00000ef4 15978;
    mk_name 0x00000ef5 16159; mk_name 0x00000ef6 14578; mk_name 0x00000ef7 14591; mk_name 0x00000ef8 14975;
    mk_name 0x00000ef9 14878; mk_name 0x00000efa 15267; mk_name 0x00000eff 18957; mk_name 0x000013bc 20699;
    mk_name 0x000013bd 20702; mk_name 0x000013be 32686; mk_name 0x000020ac 12221; mk_name 0x0000fd01 125;
    mk_name 0x0000fd02 195; mk_name 0x0000fd03 343; mk_name 0x0000fd04 245; mk_name 0x0000fd05 33;
    mk_name 0x0000fd06 151; mk_name 0x0000fd07 165; mk_name 0x0000fd08 332; mk_name 0x0000fd09 310;
    mk_name 0x0000fd0a 256; mk_name 0x0000fd0b 265; mk_name 0x0000fd0c 274; mk_name 0x0000fd0d 376;
    mk_name 0x0000fd0e 23; mk_name 0x0000fd0f 74; mk_name 0x0000fd10 8; mk_name 0x0000fd11 231;
    mk_name 0x0000fd12 221; mk_name 0x0000fd13 210; mk_name 0x0000fd14 355; mk_name 0x0000fd15 64;
    mk_name 0x0000fd16 283; mk_name 0x0000fd17 365; mk_name 0x0000fd18 320; mk_name 0x0000fd19 46;
    mk_name 0x0000fd1a 109; mk_name 0x0000fd1b 181; mk_name 0x0000fd1c 91; mk_name 0x0000fd1d 293;
    mk_name 0x0000fd1e 140; mk_name 0x0000fe01 17941; mk_name 0x0000fe02 17824; mk_name 0x0000fe03 17874;
    mk_name 0x0000fe04 17841; mk_name 0x0000fe05 17858; mk_name 0x0000fe06 17729; mk_name 0x0000fe07 17745;
    mk_name 0x0000fe08 17986; mk_name 0x0000fe09 18001; mk_name 0x0000fe0a 18110; mk_name 0x0000fe0b 18125;
    mk_name 0x0000fe0c 17692; mk_name 0x0000fe0d 17708; mk_name 0x0000fe0e 17776; mk_name 0x0000fe0f 17791;
    mk_name 0x0000fe11 17924; mk_name 0x0000fe12 17891; mk_name 0x0000fe13 17908; mk_name 0x0000fe20 17811;
    mk_name 0x0000fe21 17969; mk_name 0x0000fe22 17950; mk_name 0x0000fe23 18043; mk_name 0x0000fe24 18021;
    mk_name 0x0000fe25 18063; mk_name 0x0000fe26 18086; mk_name 0x0000fe27 18219; mk_name 0x0000fe28 18239;
    mk_name 0x0000fe29 18170; mk_name 0x0000fe2a 18194; mk_name 0x0000fe2b 18145; mk_name 0x0000fe2c 17630;
    mk_name 0x0000fe2d 17651; mk_name 0x0000fe2e 17673; mk_name 0x0000fe2f 17609; mk_name 0x0000fe30 17532;
    mk_name 0x0000fe31 17557; mk_name 0x0000fe32 17585; mk_name 0x0000fe33 17514; mk_name 0x0000fe34 17599;
    mk_name 0x0000fe50 10956; mk_name 0x0000fe51 10613; mk_name 0x0000fe52 10852; mk_name 0x0000fe53 11228;
    mk_name 0x0000fe54 11089; mk_name 0x0000fe55 10798; mk_name 0x0000fe56 10537; mk_name 0x0000fe57 10893;
    mk_name 0x0000fe58 10575; mk_name 0x0000fe59 10908; mk_name 0x0000fe5a 10828; mk_name 0x0000fe5b 10839;
    mk_name 0x0000fe5c 11115; mk_name 0x0000fe5d 11042; mk_name 0x0000fe5e 11253; mk_name 0x0000fe5f 11177;
    mk_name 0x0000fe60 10713; mk_name 0x0000fe61 10989; mk_name 0x0000fe62 10999; mk_name 0x0000fe63 11216;
    mk_name 0x0000fe64 10521; mk_name 0x0000fe65 10551; mk_name 0x0000fe66 10925; mk_name 0x0000fe67 10744;
    mk_name 0x0000fe68 10727; mk_name 0x0000fe69 10656; mk_name 0x0000fe6a 10759; mk_name 0x0000fe6b 10640;
    mk_name 0x0000fe6c 10693; mk_name 0x0000fe6d 11023; mk_name 0x0000fe6e 10677; mk_name 0x0000fe6f 10868;
    mk_name 0x0000fe70 583; mk_name 0x0000fe71 598; mk_name 0x0000fe72 22540; mk_name 0x0000fe73 23998;
    mk_name 0x0000fe74 3564; mk_name 0x0000fe75 24067; mk_name 0x0000fe76 19967; mk_name 0x0000fe77 19944;
    mk_name 0x0000fe78 21530; mk_name 0x0000fe79 21546; mk_name 0x0000fe7a 3309; mk_name 0x0000fe80 10514;
    mk_name 0x0000fe81 10507; mk_name 0x0000fe82 10949; mk_name 0x0000fe83 10942; mk_name 0x0000fe84 11016;
    mk_name 0x0000fe85 11009; mk_name 0x0000fe86 11108; mk_name 0x0000fe87 11101; mk_name 0x0000fe88 11246;
    mk_name 0x0000fe89 11239; mk_name 0x0000fe8a 11199; mk_name 0x0000fe8b 10809; mk_name 0x0000fe8c 10967;
    mk_name 0x0000fe8d 10978; mk_name 0x0000fe8e 10624; mk_name 0x0000fe90 11076; mk_name 0x0000fe91 10590;
    mk_name 0x0000fe92 10775; mk_name 0x0000fe93 11052; mk_name 0x0000fea0 8600; mk_name 0x0000fea1 8597;
    mk_name 0x0000fea2 8594; mk_name 0x0000fea3 8451; mk_name 0x0000fea4 8447; mk_name 0x0000fea5 8443;
    mk_name 0x0000fed0 12667; mk_name 0x0000fed1 22278; mk_name 0x0000fed2 20213; mk_name 0x0000fed4 19321;
    mk_name 0x0000fed5 24613; mk_name 0x0000fee0 22196; mk_name 0x0000fee1 22209; mk_name 0x0000fee2 22223;
    mk_name 0x0000fee3 22041; mk_name 0x0000fee4 22234; mk_name 0x0000fee5 22249; mk_name 0x0000fee6 22054;
    mk_name 0x0000fee7 22071; mk_name 0x0000fee8 21869; mk_name 0x0000fee9 21789; mk_name 0x0000feea 21805;
    mk_name 0x0000feeb 21821; mk_name 0x0000feec 21837; mk_name 0x0000feed 21853; mk_name 0x0000feee 21979;
    mk_name 0x0000feef 21889; mk_name 0x0000fef0 21907; mk_name 0x0000fef1 21925; mk_name 0x0000fef2 21943;
    mk_name 0x0000fef3 21961; mk_name 0x0000fef4 22159; mk_name 0x0000fef5 22089; mk_name 0x0000fef6 22103;
    mk_name 0x0000fef7 22117; mk_name 0x0000fef8 22131; mk_name 0x0000fef9 22177; mk_name 0x0000fefa 21770;
    mk_name 0x0000fefb 22001; mk_name 0x0000fefc 22021; mk_name 0x0000fefd 22145; mk_name 0x0000ff08 3362;
    mk_name 0x0000ff09 24529; mk_name 0x0000ff0a 19619; mk_name 0x0000ff0b 8633; mk_name 0x0000ff0d 22564;
    mk_name 0x0000ff13 21679; mk_name 0x0000ff14 22923; mk_name 0x0000ff15 24510; mk_name 0x0000ff1b 12188;
    mk_name 0x0000ff20 19996; mk_name 0x0000ff21 18905; mk_name 0x0000ff22 19987; mk_name 0x0000ff23 16774;
    mk_name 0x0000ff24 22786; mk_name 0x0000ff25 16795; mk_name 0x0000ff26 18930; mk_name 0x0000ff27 16804;
    mk_name 0x0000ff28 32813; mk_name 0x0000ff29 16208; mk_name 0x0000ff2a 32821; mk_name 0x0000ff2b 25983;
    mk_name 0x0000ff2c 19883; mk_name 0x0000ff2d 18511; mk_name 0x0000ff2e 18722; mk_name 0x0000ff2f 11910;
    mk_name 0x0000ff30 11921; mk_name 0x0000ff31 14552; mk_name 0x0000ff32 15940; mk_name 0x0000ff33 14671;
    mk_name 0x0000ff34 14702; mk_name 0x0000ff35 15288; mk_name 0x0000ff36 15785; mk_name 0x0000ff37 8654;
    mk_name 0x0000ff38 15300; mk_name 0x0000ff39 14605; mk_name 0x0000ff3a 15580; mk_name 0x0000ff3b 15563;
    mk_name 0x0000ff3c 23236; mk_name 0x0000ff3d 20006; mk_name 0x0000ff3e 22298; mk_name 0x0000ff3f 15834;
    mk_name 0x0000ff50 16822; mk_name 0x0000ff51 19404; mk_name 0x0000ff52 26615; mk_name 0x0000ff53 22571;
    mk_name 0x0000ff54 11458; mk_name 0x0000ff55 22322; mk_name 0x0000ff56 20208; mk_name 0x0000ff57 12067;
    mk_name 0x0000ff58 3404; mk_name 0x0000ff60 22951; mk_name 0x0000ff61 22316; mk_name 0x0000ff62 12248;
    mk_name 0x0000ff63 17444; mk_name 0x0000ff65 26588; mk_name 0x0000ff66 22524; mk_name 0x0000ff67 19890;
    mk_name 0x0000ff68 12662; mk_name 0x0000ff69 8489; mk_name 0x0000ff6a 16762; mk_name 0x0000ff6b 8377;
    mk_name 0x0000ff7e 17760; mk_name 0x0000ff7f 20354; mk_name 0x0000ff80 19234; mk_name 0x0000ff89 19255;
    mk_name 0x0000ff8d 19091; mk_name 0x0000ff91 19109; mk_name 0x0000ff92 19115; mk_name 0x0000ff93 19121;
    mk_name 0x0000ff94 19127; mk_name 0x0000ff95 19133; mk_name 0x0000ff96 19151; mk_name 0x0000ff97 19262;
    mk_name 0x0000ff98 19212; mk_name 0x0000ff99 19076; mk_name 0x0000ff9a 19203; mk_name 0x0000ff9b 19171;
    mk_name 0x0000ff9c 19084; mk_name 0x0000ff9d 19036; mk_name 0x0000ff9e 19141; mk_name 0x0000ff9f 19056;
    mk_name 0x0000ffaa 19159; mk_name 0x0000ffab 19018; mk_name 0x0000ffac 19221; mk_name 0x0000ffad 19243;
    mk_name 0x0000ffae 19045; mk_name 0x0000ffaf 19066; mk_name 0x0000ffb0 18968; mk_name 0x0000ffb1 18973;
    mk_name 0x0000ffb2 18978; mk_name 0x0000ffb3 18983; mk_name 0x0000ffb4 18988; mk_name 0x0000ffb5 18993;
    mk_name 0x0000ffb6 18998; mk_name 0x0000ffb7 19003; mk_name 0x0000ffb8 19008; mk_name 0x0000ffb9 19013;
    mk_name 0x0000ffbd 19100; mk_name 0x0000ffbe 12290; mk_name 0x0000ffbf 12333; mk_name 0x0000ffc0 12376;
    mk_name 0x0000ffc1 12403; mk_name 0x0000ffc2 12406; mk_name 0x0000ffc3 12409; mk_name 0x0000ffc4 12412;
    mk_name 0x0000ffc5 12415; mk_name 0x0000ffc6 12418; mk_name 0x0000ffc7 12293; mk_name 0x0000ffc8 12297;
    mk_name 0x0000ffc9 12301; mk_name 0x0000ffca 12305; mk_name 0x0000ffcb 12309; mk_name 0x0000ffcc 12313;
    mk_name 0x0000ffcd 12317; mk_name 0x0000ffce 12321; mk_name 0x0000ffcf 12325; mk_name 0x0000ffd0 12329;
    mk_name 0x0000ffd1 12336; mk_name 0x0000ffd2 12340; mk_name 0x0000ffd3 12344; mk_name 0x0000ffd4 12348;
    mk_name 0x0000ffd5 12352; mk_name 0x0000ffd6 12356; mk_name 0x0000ffd7 12360; mk_name 0x0000ffd8 12364;
    mk_name 0x0000ffd9 12368; mk_name 0x0000ffda 12372; mk_name 0x0000ffdb 12379; mk_name 0x0000ffdc 12383;
    mk_name 0x0000ffdd 12387; mk_name 0x0000ffde 12391; mk_name 0x0000ffdf 12395; mk_name 0x0000ffe0 12399;
    mk_name 0x0000ffe1 23170; mk_name 0x0000ffe2 23189; mk_name 0x0000ffe3 8779; mk_name 0x0000ffe4 8789;
    mk_name 0x0000ffe5 8496; mk_name 0x0000ffe6 23178; mk_name 0x0000ffe7 19895; mk_name 0x0000ffe8 19902;
    mk_name 0x0000ffe9 880; mk_name 0x0000ffea 886; mk_name 0x0000ffeb 24494; mk_name 0x0000ffec 24502;
    mk_name 0x0000ffed 17206; mk_name 0x0000ffee 17214; mk_name 0x0000fff1 3642; mk_name 0x0000fff2 3671;
    mk_name 0x0000fff3 3685; mk_name 0x0000fff4 3699; mk_name 0x0000fff5 3713; mk_name 0x0000fff6 3727;
    mk_name 0x0000fff7 3741; mk_name 0x0000fff8 3755; mk_name 0x0000fff9 3769; mk_name 0x0000fffa 3656;
    mk_name 0x0000ffff 11291; mk_name 0x00ffffff 26762; mk_name 0x0100012c 17277; mk_name 0x0100012d 17284;
    mk_name 0x01000174 26794; mk_name 0x01000175 26806; mk_name 0x01000176 32662; mk_name 0x01000177 32674;
    mk_name 0x0100018f 22873; mk_name 0x0100019f 20403; mk_name 0x010001a0 20738; mk_name 0x010001a1 20744;
    mk_name 0x010001af 26228; mk_name 0x010001b0 26234; mk_name 0x010001b5 32864; mk_name 0x010001b6 32872;
    mk_name 0x010001b7 12278; mk_name 0x010001d1 20439; mk_name 0x010001d2 20446; mk_name 0x010001e6 12834;
    mk_name 0x010001e7 12841; mk_name 0x01000259 22879; mk_name 0x01000275 20411; mk_name 0x01000292 12282;
    mk_name 0x01000300 8715; mk_name 0x01000301 8680; mk_name 0x01000303 8746; mk_name 0x01000309 8731;
    mk_name 0x01000323 8696; mk_name 0x01000492 9318; mk_name 0x01000493 9335; mk_name 0x01000496 10356;
    mk_name 0x01000497 10379; mk_name 0x0100049a 9610; mk_name 0x0100049b 9632; mk_name 0x0100049c 9654;
    mk_name 0x0100049d 9677; mk_name 0x010004a2 9200; mk_name 0x010004a3 9222; mk_name 0x010004ae 10118;
    mk_name 0x010004af 10138; mk_name 0x010004b0 10158; mk_name 0x010004b1 10182; mk_name 0x010004b2 9376;
    mk_name 0x010004b3 9398; mk_name 0x010004b6 8936; mk_name 0x010004b7 8959; mk_name 0x010004b8 8982;
    mk_name 0x010004b9 9006; mk_name 0x010004ba 9914; mk_name 0x010004bb 9928; mk_name 0x010004d8 9828;
    mk_name 0x010004d9 9843; mk_name 0x010004e2 9478; mk_name 0x010004e3 9496; mk_name 0x010004e8 9774;
    mk_name 0x010004e9 9789; mk_name 0x010004ee 10082; mk_name 0x010004ef 10100; mk_name 0x01000531 2124;
    mk_name 0x01000532 2150; mk_name 0x01000533 2374; mk_name 0x01000534 2215; mk_name 0x01000535 3164;
    mk_name 0x01000536 3210; mk_name 0x01000537 2265; mk_name 0x01000538 2100; mk_name 0x01000539 2964;
    mk_name 0x0100053a 3234; mk_name 0x0100053b 2464; mk_name 0x0100053c 2611; mk_name 0x0100053d 2564;
    mk_name 0x0100053e 2988; mk_name 0x0100053f 2538; mk_name 0x01000540 2424; mk_name 0x01000541 2239;
    mk_name 0x01000542 2346; mk_name 0x01000543 2936; mk_name 0x01000544 2639; mk_name 0x01000545 2400;
    mk_name 0x01000546 2665; mk_name 0x01000547 2894; mk_name 0x01000548 3112; mk_name 0x01000549 2189;
    mk_name 0x0100054a 2727; mk_name 0x0100054b 2490; mk_name 0x0100054c 2797; mk_name 0x0100054d 2845;
    mk_name 0x0100054e 3086; mk_name 0x0100054f 3040; mk_name 0x01000550 2821; mk_name 0x01000551 3014;
    mk_name 0x01000552 3136; mk_name 0x01000553 2751; mk_name 0x01000554 2514; mk_name 0x01000555 2689;
    mk_name 0x01000556 2303; mk_name 0x0100055a 2080; mk_name 0x0100055b 2048; mk_name 0x0100055c 2287;
    mk_name 0x0100055d 2869; mk_name 0x0100055e 2779; mk_name 0x01000561 2137; mk_name 0x01000562 2163;
    mk_name 0x01000563 2387; mk_name 0x01000564 2227; mk_name 0x01000565 3178; mk_name 0x01000566 3222;
    mk_name 0x01000567 2276; mk_name 0x01000568 2112; mk_name 0x01000569 2976; mk_name 0x0100056a 3247;
    mk_name 0x0100056b 2477; mk_name 0x0100056c 2625; mk_name 0x0100056d 2577; mk_name 0x0100056e 3001;
    mk_name 0x0100056f 2551; mk_name 0x01000570 2436; mk_name 0x01000571 2252; mk_name 0x01000572 2360;
    mk_name 0x01000573 2950; mk_name 0x01000574 2652; mk_name 0x01000575 2412; mk_name 0x01000576 2677;
    mk_name 0x01000577 2907; mk_name 0x01000578 3124; mk_name 0x01000579 2202; mk_name 0x0100057a 2739;
    mk_name 0x0100057b 2502; mk_name 0x0100057c 2809; mk_name 0x0100057d 2857; mk_name 0x0100057e 3099;
    mk_name 0x0100057f 3054; mk_name 0x01000580 2833; mk_name 0x01000581 3027; mk_name 0x01000582 3150;
    mk_name 0x01000583 2765; mk_name 0x01000584 2526; mk_name 0x01000585 2700; mk_name 0x01000586 2315;
    mk_name 0x01000587 2590; mk_name 0x01000589 2327; mk_name 0x0100058a 2448; mk_name 0x01000653 1580;
    mk_name 0x01000654 1316; mk_name 0x01000655 1335; mk_name 0x01000660 966; mk_name 0x01000661 975;
    mk_name 0x01000662 984; mk_name 0x01000663 993; mk_name 0x01000664 1002; mk_name 0x01000665 1011;
    mk_name 0x01000666 1020; mk_name 0x01000667 1029; mk_name 0x01000668 1038; mk_name 0x01000669 1047;
    mk_name 0x0100066a 1672; mk_name 0x01000670 1821; mk_name 0x01000679 1951; mk_name 0x0100067e 1661;
    mk_name 0x01000686 1885; mk_name 0x01000688 1173; mk_name 0x01000691 1729; mk_name 0x01000698 1493;
    mk_name 0x010006a4 1963; mk_name 0x010006a9 1544; mk_name 0x010006af 1258; mk_name 0x010006ba 1642;
    mk_name 0x010006be 1442; mk_name 0x010006c1 1465; mk_name 0x010006cc 12521; mk_name 0x010006d2 1996;
    mk_name 0x010006d4 1242; mk_name 0x010006f0 12441; mk_name 0x010006f1 12449; mk_name 0x010006f2 12457;
    mk_name 0x010006f3 12465; mk_name 0x010006f4 12473; mk_name 0x010006f5 12481; mk_name 0x010006f6 12489;
    mk_name 0x010006f7 12497; mk_name 0x010006f8 12505; mk_name 0x010006f9 12513; mk_name 0x01000d82 23708;
    mk_name 0x01000d83 23502; mk_name 0x01000d85 23271; mk_name 0x01000d86 23278; mk_name 0x01000d87 23295;
    mk_name 0x01000d88 23312; mk_name 0x01000d89 23518; mk_name 0x01000d8a 23533; mk_name 0x01000d8b 23919;
    mk_name 0x01000d8c 23934; mk_name 0x01000d8d 23818; mk_name 0x01000d8e 23826; mk_name 0x01000d8f 23627;
    mk_name 0x01000d90 23644; mk_name 0x01000d91 23445; mk_name 0x01000d92 23460; mk_name 0x01000d93 23331;
    mk_name 0x01000d94 23761; mk_name 0x01000d95 23776; mk_name 0x01000d96 23356; mk_name 0x01000d9a 23577;
    mk_name 0x01000d9b 23585; mk_name 0x01000d9c 23485; mk_name 0x01000d9d 23493; mk_name 0x01000d9e 23716;
    mk_name 0x01000d9f 23725; mk_name 0x01000da0 23390; mk_name 0x01000da1 23398; mk_name 0x01000da2 23550;
    mk_name 0x01000da3 23558; mk_name 0x01000da4 23752; mk_name 0x01000da5 23567; mk_name 0x01000da6 23734;
    mk_name 0x01000da7 23900; mk_name 0x01000da8 23909; mk_name 0x01000da9 23407; mk_name 0x01000daa 23416;
    mk_name 0x01000dab 23743; mk_name 0x01000dac 23688; mk_name 0x01000dad 23881; mk_name 0x01000dae 23890;
    mk_name 0x01000daf 23426; mk_name 0x01000db0 23435; mk_name 0x01000db1 23680; mk_name 0x01000db3 23698;
    mk_name 0x01000db4 23793; mk_name 0x01000db5 23801; mk_name 0x01000db6 23373; mk_name 0x01000db7 23381;
    mk_name 0x01000db8 23663; mk_name 0x01000db9 23671; mk_name 0x01000dba 23959; mk_name 0x01000dbb 23810;
    mk_name 0x01000dbd 23610; mk_name 0x01000dc0 23951; mk_name 0x01000dc1 23862; mk_name 0x01000dc2 23871;
    mk_name 0x01000dc3 23854; mk_name 0x01000dc4 23510; mk_name 0x01000dc5 23618; mk_name 0x01000dc6 23477;
    mk_name 0x01000dca 23348; mk_name 0x01000dcf 23286; mk_name 0x01000dd0 23303; mk_name 0x01000dd1 23321;
    mk_name 0x01000dd2 23525; mk_name 0x01000dd3 23541; mk_name 0x01000dd4 23926; mk_name 0x01000dd6 23942;
    mk_name 0x01000dd8 23835; mk_name 0x01000dd9 23452; mk_name 0x01000dda 23468; mk_name 0x01000ddb 23339;
    mk_name 0x01000ddc 23768; mk_name 0x01000ddd 23784; mk_name 0x01000dde 23364; mk_name 0x01000ddf 23635;
    mk_name 0x01000df2 23844; mk_name 0x01000df3 23653; mk_name 0x01000df4 23594; mk_name 0x010010d0 12890;
    mk_name 0x010010d1 12902; mk_name 0x010010d2 13006; mk_name 0x010010d3 12969; mk_name 0x010010d4 12982;
    mk_name 0x010010d5 13332; mk_name 0x010010d6 13370; mk_name 0x010010d7 13294; mk_name 0x010010d8 13097;
    mk_name 0x010010d9 13136; mk_name 0x010010da 13163; mk_name 0x010010db 13176; mk_name 0x010010dc 13189;
    mk_name 0x010010dd 13202; mk_name 0x010010de 13214; mk_name 0x010010df 13383; mk_name 0x010010e0 13254;
    mk_name 0x010010e1 13267; mk_name 0x010010e2 13307; mk_name 0x010010e3 13320; mk_name 0x010010e4 13227;
    mk_name 0x010010e5 13149; mk_name 0x010010e6 13019; mk_name 0x010010e7 13241; mk_name 0x010010e8 13280;
    mk_name 0x010010e9 12942; mk_name 0x010010ea 12915; mk_name 0x010010eb 13123; mk_name 0x010010ec 12956;
    mk_name 0x010010ed 12928; mk_name 0x010010ee 13357; mk_name 0x010010ef 13109; mk_name 0x010010f0 13033;
    mk_name 0x010010f1 13059; mk_name 0x010010f2 13071; mk_name 0x010010f3 13345; mk_name 0x010010f4 13046;
    mk_name 0x010010f5 13084; mk_name 0x010010f6 12994; mk_name 0x01001e02 3332; mk_name 0x01001e03 3342;
    mk_name 0x01001e0a 10406; mk_name 0x01001e0b 10416; mk_name 0x01001e1e 12421; mk_name 0x01001e1f 12431;
    mk_name 0x01001e36 19352; mk_name 0x01001e37 19362; mk_name 0x01001e40 19722; mk_name 0x01001e41 19732;
    mk_name 0x01001e56 21575; mk_name 0x01001e57 21585; mk_name 0x01001e60 22807; mk_name 0x01001e61 22817;
    mk_name 0x01001e6a 24533; mk_name 0x01001e6b 24543; mk_name 0x01001e80 26840; mk_name 0x01001e81 26847;
    mk_name 0x01001e82 26780; mk_name 0x01001e83 26787; mk_name 0x01001e84 26818; mk_name 0x01001e85 26829;
    mk_name 0x01001e8a 26866; mk_name 0x01001e8b 26876; mk_name 0x01001e9e 24044; mk_name 0x01001ea0 416;
    mk_name 0x01001ea1 426; mk_name 0x01001ea2 868; mk_name 0x01001ea3 874; mk_name 0x01001ea4 646;
    mk_name 0x01001ea5 663; mk_name 0x01001ea6 720; mk_name 0x01001ea7 737; mk_name 0x01001ea8 754;
    mk_name 0x01001ea9 770; mk_name 0x01001eaa 786; mk_name 0x01001eab 803; mk_name 0x01001eac 680;
    mk_name 0x01001ead 700; mk_name 0x01001eae 459; mk_name 0x01001eaf 471; mk_name 0x01001eb0 513;
    mk_name 0x01001eb1 525; mk_name 0x01001eb2 537; mk_name 0x01001eb3 548; mk_name 0x01001eb4 559;
    mk_name 0x01001eb5 571; mk_name 0x01001eb6 483; mk_name 0x01001eb7 498; mk_name 0x01001eb8 11593;
    mk_name 0x01001eb9 11603; mk_name 0x01001eba 11869; mk_name 0x01001ebb 11875; mk_name 0x01001ebc 12207;
    mk_name 0x01001ebd 12214; mk_name 0x01001ebe 11651; mk_name 0x01001ebf 11668; mk_name 0x01001ec0 11725;
    mk_name 0x01001ec1 11742; mk_name 0x01001ec2 11759; mk_name 0x01001ec3 11775; mk_name 0x01001ec4 11791;
    mk_name 0x01001ec5 11808; mk_name 0x01001ec6 11685; mk_name 0x01001ec7 11705; mk_name 0x01001ec8 17379;
    mk_name 0x01001ec9 17385; mk_name 0x01001eca 17257; mk_name 0x01001ecb 17267; mk_name 0x01001ecc 20419;
    mk_name 0x01001ecd 20429; mk_name 0x01001ece 20726; mk_name 0x01001ecf 20732; mk_name 0x01001ed0 20477;
    mk_name 0x01001ed1 20494; mk_name 0x01001ed2 20551; mk_name 0x01001ed3 20568; mk_name 0x01001ed4 20585;
    mk_name 0x01001ed5 20601; mk_name 0x01001ed6 20617; mk_name 0x01001ed7 20634; mk_name 0x01001ed8 20511;
    mk_name 0x01001ed9 20531; mk_name 0x01001eda 20750; mk_name 0x01001edb 20761; mk_name 0x01001edc 20800;
    mk_name 0x01001edd 20811; mk_name 0x01001ede 20822; mk_name 0x01001edf 20832; mk_name 0x01001ee0 20842;
    mk_name 0x01001ee1 20853; mk_name 0x01001ee2 20772; mk_name 0x01001ee3 20786; mk_name 0x01001ee4 26096;
    mk_name 0x01001ee5 26106; mk_name 0x01001ee6 26216; mk_name 0x01001ee7 26222; mk_name 0x01001ee8 26240;
    mk_name 0x01001ee9 26251; mk_name 0x01001eea 26290; mk_name 0x01001eeb 26301; mk_name 0x01001eec 26312;
    mk_name 0x01001eed 26322; mk_name 0x01001eee 26332; mk_name 0x01001eef 26343; mk_name 0x01001ef0 26262;
    mk_name 0x01001ef1 26276; mk_name 0x01001ef2 32712; mk_name 0x01001ef3 32719; mk_name 0x01001ef4 32642;
    mk_name 0x01001ef5 32652; mk_name 0x01001ef6 32726; mk_name 0x01001ef7 32732; mk_name 0x01001ef8 32738;
    mk_name 0x01001ef9 32745; mk_name 0x01002039 19537; mk_name 0x0100203a 22722; mk_name 0x01002070 32851;
    mk_name 0x01002074 12763; mk_name 0x01002075 12725; mk_name 0x01002076 23980; mk_name 0x01002077 23156;
    mk_name 0x01002078 11896; mk_name 0x01002079 20247; mk_name 0x01002080 32837; mk_name 0x01002081 20927;
    mk_name 0x01002082 26043; mk_name 0x01002083 25787; mk_name 0x01002084 12749; mk_name 0x01002085 12711;
    mk_name 0x01002086 23967; mk_name 0x01002087 23141; mk_name 0x01002088 11881; mk_name 0x01002089 20233;
    mk_name 0x010020a0 11825; mk_name 0x010020a1 8670; mk_name 0x010020a2 8826; mk_name 0x010020a3 12547;
    mk_name 0x010020a4 19633; mk_name 0x010020a5 19909; mk_name 0x010020a6 20152; mk_name 0x010020a7 21724;
    mk_name 0x010020a8 22793; mk_name 0x010020a9 26854; mk_name 0x010020aa 20194; mk_name 0x010020ab 11389;
    mk_name 0x01002202 21644; mk_name 0x01002205 12050; mk_name 0x01002208 11933; mk_name 0x01002209 20297;
    mk_name 0x0100220b 8768; mk_name 0x0100221a 24033; mk_name 0x0100221b 8839; mk_name 0x0100221c 12776;
    mk_name 0x0100222c 11363; mk_name 0x0100222d 25816; mk_name 0x01002235 3396; mk_name 0x01002247 20285;
    mk_name 0x01002248 945; mk_name 0x01002262 20319; mk_name 0x01002263 24085; mk_name 0x01002800 3628;
    mk_name 0x01002801 3783; mk_name 0x01002802 6151; mk_name 0x01002803 3798; mk_name 0x01002804 7303;
    mk_name 0x01002805 5014; mk_name 0x01002806 6166; mk_name 0x01002807 3814; mk_name 0x01002808 7863;
    mk_name 0x01002809 5606; mk_name 0x0100280a 6758; mk_name 0x0100280b 4438; mk_name 0x0100280c 7318;
    mk_name 0x0100280d 5030; mk_name 0x0100280e 6182; mk_name 0x0100280f 3831; mk_name 0x01002810 8135;
    mk_name 0x01002811 5894; mk_name 0x01002812 7046; mk_name 0x01002813 4742; mk_name 0x01002814 7606;
    mk_name 0x01002815 5334; mk_name 0x01002816 6486; mk_name 0x01002817 4151; mk_name 0x01002818 7878;
    mk_name 0x01002819 5622; mk_name 0x0100281a 6774; mk_name 0x0100281b 4455; mk_name 0x0100281c 7334;
    mk_name 0x0100281d 5047; mk_name 0x0100281e 6199; mk_name 0x0100281f 3849; mk_name 0x01002820 8267;
    mk_name 0x01002821 6034; mk_name 0x01002822 7186; mk_name 0x01002823 4890; mk_name 0x01002824 7746;
    mk_name 0x01002825 5482; mk_name 0x01002826 6634; mk_name 0x01002827 4307; mk_name 0x01002828 8018;
    mk_name 0x01002829 5770; mk_name 0x0100282a 6922; mk_name 0x0100282b 4611; mk_name 0x0100282c 7482;
    mk_name 0x0100282d 5203; mk_name 0x0100282e 6355; mk_name 0x0100282f 4013; mk_name 0x01002830 8150;
    mk_name 0x01002831 5910; mk_name 0x01002832 7062; mk_name 0x01002833 4759; mk_name 0x01002834 7622;
    mk_name 0x01002835 5351; mk_name 0x01002836 6503; mk_name 0x01002837 4169; mk_name 0x01002838 7894;
    mk_name 0x01002839 5639; mk_name 0x0100283a 6791; mk_name 0x0100283b 4473; mk_name 0x0100283c 7351;
    mk_name 0x0100283d 5065; mk_name 0x0100283e 6217; mk_name 0x0100283f 3868; mk_name 0x01002840 8331;
    mk_name 0x01002841 6102; mk_name 0x01002842 7254; mk_name 0x01002843 4962; mk_name 0x01002844 7814;
    mk_name 0x01002845 5554; mk_name 0x01002846 6706; mk_name 0x01002847 4383; mk_name 0x01002848 8086;
    mk_name 0x01002849 5842; mk_name 0x0100284a 6994; mk_name 0x0100284b 4687; mk_name 0x0100284c 7554;
    mk_name 0x0100284d 5279; mk_name 0x0100284e 6431; mk_name 0x0100284f 4093; mk_name 0x01002850 8218;
    mk_name 0x01002851 5982; mk_name 0x01002852 7134; mk_name 0x01002853 4835; mk_name 0x01002854 7694;
    mk_name 0x01002855 5427; mk_name 0x01002856 6579; mk_name 0x01002857 4249; mk_name 0x01002858 7966;
    mk_name 0x01002859 5715; mk_name 0x0100285a 6867; mk_name 0x0100285b 4553; mk_name 0x0100285c 7427;
    mk_name 0x0100285d 5145; mk_name 0x0100285e 6297; mk_name 0x0100285f 3952; mk_name 0x01002860 8282;
    mk_name 0x01002861 6050; mk_name 0x01002862 7202; mk_name 0x01002863 4907; mk_name 0x01002864 7762;
    mk_name 0x01002865 5499; mk_name 0x01002866 6651; mk_name 0x01002867 4325; mk_name 0x01002868 8034;
    mk_name 0x01002869 5787; mk_name 0x0100286a 6939; mk_name 0x0100286b 4629; mk_name 0x0100286c 7499;
    mk_name 0x0100286d 5221; mk_name 0x0100286e 6373; mk_name 0x0100286f 4032; mk_name 0x01002870 8166;
    mk_name 0x01002871 5927; mk_name 0x01002872 7079; mk_name 0x01002873 4777; mk_name 0x01002874 7639;
    mk_name 0x01002875 5369; mk_name 0x01002876 6521; mk_name 0x01002877 4188; mk_name 0x01002878 7911;
    mk_name 0x01002879 5657; mk_name 0x0100287a 6809; mk_name 0x0100287b 4492; mk_name 0x0100287c 7369;
    mk_name 0x0100287d 5084; mk_name 0x0100287e 6236; mk_name 0x0100287f 3888; mk_name 0x01002880 8362;
    mk_name 0x01002881 6135; mk_name 0x01002882 7287; mk_name 0x01002883 4997; mk_name 0x01002884 7847;
    mk_name 0x01002885 5589; mk_name 0x01002886 6741; mk_name 0x01002887 4420; mk_name 0x01002888 8119;
    mk_name 0x01002889 5877; mk_name 0x0100288a 7029; mk_name 0x0100288b 4724; mk_name 0x0100288c 7589;
    mk_name 0x0100288d 5316; mk_name 0x0100288e 6468; mk_name 0x0100288f 4132; mk_name 0x01002890 8251;
    mk_name 0x01002891 6017; mk_name 0x01002892 7169; mk_name 0x01002893 4872; mk_name 0x01002894 7729;
    mk_name 0x01002895 5464; mk_name 0x01002896 6616; mk_name 0x01002897 4288; mk_name 0x01002898 8001;
    mk_name 0x01002899 5752; mk_name 0x0100289a 6904; mk_name 0x0100289b 4592; mk_name 0x0100289c 7464;
    mk_name 0x0100289d 5184; mk_name 0x0100289e 6336; mk_name 0x0100289f 3993; mk_name 0x010028a0 8315;
    mk_name 0x010028a1 6085; mk_name 0x010028a2 7237; mk_name 0x010028a3 4944; mk_name 0x010028a4 7797;
    mk_name 0x010028a5 5536; mk_name 0x010028a6 6688; mk_name 0x010028a7 4364; mk_name 0x010028a8 8069;
    mk_name 0x010028a9 5824; mk_name 0x010028aa 6976; mk_name 0x010028ab 4668; mk_name 0x010028ac 7536;
    mk_name 0x010028ad 5260; mk_name 0x010028ae 6412; mk_name 0x010028af 4073; mk_name 0x010028b0 8201;
    mk_name 0x010028b1 5964; mk_name 0x010028b2 7116; mk_name 0x010028b3 4816; mk_name 0x010028b4 7676;
    mk_name 0x010028b5 5408; mk_name 0x010028b6 6560; mk_name 0x010028b7 4229; mk_name 0x010028b8 7948;
    mk_name 0x010028b9 5696; mk_name 0x010028ba 6848; mk_name 0x010028bb 4533; mk_name 0x010028bc 7408;
    mk_name 0x010028bd 5125; mk_name 0x010028be 6277; mk_name 0x010028bf 3931; mk_name 0x010028c0 8346;
    mk_name 0x010028c1 6118; mk_name 0x010028c2 7270; mk_name 0x010028c3 4979; mk_name 0x010028c4 7830;
    mk_name 0x010028c5 5571; mk_name 0x010028c6 6723; mk_name 0x010028c7 4401; mk_name 0x010028c8 8102;
    mk_name 0x010028c9 5859; mk_name 0x010028ca 7011; mk_name 0x010028cb 4705; mk_name 0x010028cc 7571;
    mk_name 0x010028cd 5297; mk_name 0x010028ce 6449; mk_name 0x010028cf 4112; mk_name 0x010028d0 8234;
    mk_name 0x010028d1 5999; mk_name 0x010028d2 7151; mk_name 0x010028d3 4853; mk_name 0x010028d4 7711;
    mk_name 0x010028d5 5445; mk_name 0x010028d6 6597; mk_name 0x010028d7 4268; mk_name 0x010028d8 7983;
    mk_name 0x010028d9 5733; mk_name 0x010028da 6885; mk_name 0x010028db 4572; mk_name 0x010028dc 7445;
    mk_name 0x010028dd 5164; mk_name 0x010028de 6316; mk_name 0x010028df 3972; mk_name 0x010028e0 8298;
    mk_name 0x010028e1 6067; mk_name 0x010028e2 7219; mk_name 0x010028e3 4925; mk_name 0x010028e4 7779;
    mk_name 0x010028e5 5517; mk_name 0x010028e6 6669; mk_name 0x010028e7 4344; mk_name 0x010028e8 8051;
    mk_name 0x010028e9 5805; mk_name 0x010028ea 6957; mk_name 0x010028eb 4648; mk_name 0x010028ec 7517;
    mk_name 0x010028ed 5240; mk_name 0x010028ee 6392; mk_name 0x010028ef 4052; mk_name 0x010028f0 8183;
    mk_name 0x010028f1 5945; mk_name 0x010028f2 7097; mk_name 0x010028f3 4796; mk_name 0x010028f4 7657;
    mk_name 0x010028f5 5388; mk_name 0x010028f6 6540; mk_name 0x010028f7 4208; mk_name 0x010028f8 7929;
    mk_name 0x010028f9 5676; mk_name 0x010028fa 6828; mk_name 0x010028fb 4512; mk_name 0x010028fc 7388;
    mk_name 0x010028fd 5104; mk_name 0x010028fe 6256; mk_name 0x010028ff 3909; mk_name 0x100000a8 17070;
    mk_name 0x100000a9 17137; mk_name 0x100000aa 17083; mk_name 0x100000ab 17120; mk_name 0x100000ac 17102;
    mk_name 0x100000af 17027; mk_name 0x100000be 16973; mk_name 0x100000ee 17174; mk_name 0x100000f6 17034;
    mk_name 0x100000fc 16927; mk_name 0x1000fe22 10496; mk_name 0x1000fe27 10426; mk_name 0x1000fe2c 10461;
    mk_name 0x1000fe5e 10477; mk_name 0x1000fe60 11320; mk_name 0x1000fe7e 11548; mk_name 0x1000feb0 11519;
    mk_name 0x1000ff00 11511; mk_name 0x1000ff48 17046; mk_name 0x1000ff49 17058; mk_name 0x1000ff6c 17150;
    mk_name 0x1000ff6d 17158; mk_name 0x1000ff6e 17167; mk_name 0x1000ff6f 16935; mk_name 0x1000ff70 16996;
    mk_name 0x1000ff71 16960; mk_name 0x1000ff72 16983; mk_name 0x1000ff73 16947; mk_name 0x1000ff74 16917;
    mk_name 0x1000ff75 17014; mk_name 0x1000ff76 12256; mk_name 0x1000ff77 12267; mk_name 0x1004ff02 21154;
    mk_name 0x1004ff03 21162; mk_name 0x1004ff04 21361; mk_name 0x1004ff07 21098; mk_name 0x1004ff08 21085;
    mk_name 0x1004ff0b 21145; mk_name 0x1004ff1b 21224; mk_name 0x1004ff31 21074; mk_name 0x1004ff32 21395;
    mk_name 0x1004ff33 21411; mk_name 0x1004ff40 21326; mk_name 0x1004ff41 21351; mk_name 0x1004ff42 21314;
    mk_name 0x1004ff43 21338; mk_name 0x1004ff44 21062; mk_name 0x1004ff45 21278; mk_name 0x1004ff51 21262;
    mk_name 0x1004ff52 21488; mk_name 0x1004ff53 21448; mk_name 0x1004ff54 21194; mk_name 0x1004ff57 21213;
    mk_name 0x1004ff58 21122; mk_name 0x1004ff59 21202; mk_name 0x1004ff5a 21109; mk_name 0x1004ff5b 21383;
    mk_name 0x1004ff5c 21302; mk_name 0x1004ff5d 21370; mk_name 0x1004ff5e 21289; mk_name 0x1004ff60 21457;
    mk_name 0x1004ff63 21252; mk_name 0x1004ff65 21480; mk_name 0x1004ff67 21270; mk_name 0x1004ff69 21135;
    mk_name 0x1004ff6a 21244; mk_name 0x1004ff71 21467; mk_name 0x1004ff72 21179; mk_name 0x1004ff73 21425;
    mk_name 0x1004ff74 21234; mk_name 0x1004ff78 21437; mk_name 0x1004ffff 21169; mk_name 0x1005ff00 24263;
    mk_name 0x1005ff01 24234; mk_name 0x1005ff02 24275; mk_name 0x1005ff03 24208; mk_name 0x1005ff04 24247;
    mk_name 0x1005ff05 24220; mk_name 0x1005ff10 24194; mk_name 0x1005ff11 24201; mk_name 0x1005ff60 24411;
    mk_name 0x1005ff70 24394; mk_name 0x1005ff71 24295; mk_name 0x1005ff72 24179; mk_name 0x1005ff73 24304;
    mk_name 0x1005ff74 24334; mk_name 0x1005ff75 24187; mk_name 0x1005ff76 24343; mk_name 0x1005ff77 24115;
    mk_name 0x1005ff78 24135; mk_name 0x1005ff79 24148; mk_name 0x1005ff7a 24430; mk_name 0x1005ff7b 24446;
    mk_name 0x1005ff7c 24470; mk_name 0x1005ff7d 24358; mk_name 0x100810a4 30102; mk_name 0x100810ae 28411;
    mk_name 0x100810d1 27167; mk_name 0x100810dc 31856; mk_name 0x100810f4 27636; mk_name 0x100810f5 28204;
    mk_name 0x10081160 31096; mk_name 0x10081162 28787; mk_name 0x10081166 28904; mk_name 0x10081168 32392;
    mk_name 0x1008116a 30276; mk_name 0x1008116e 30238; mk_name 0x10081170 30064; mk_name 0x10081171 30475;
    mk_name 0x10081175 27186; mk_name 0x10081177 27074; mk_name 0x10081178 30258; mk_name 0x10081179 30415;
    mk_name 0x1008117a 30180; mk_name 0x1008117b 30433; mk_name 0x1008117c 30452; mk_name 0x1008117d 30325;
    mk_name 0x10081180 30350; mk_name 0x10081181 30304; mk_name 0x10081182 30394; mk_name 0x10081183 30086;
    mk_name 0x10081184 30370; mk_name 0x10081185 28295; mk_name 0x10081186 30155; mk_name 0x10081188 27157;
    mk_name 0x10081192 27954; mk_name 0x10081193 27938; mk_name 0x10081199 30121; mk_name 0x1008119b 27605;
    mk_name 0x1008119d 30818; mk_name 0x100811a0 32417; mk_name 0x100811a4 32610; mk_name 0x100811a6 28303;
    mk_name 0x100811a8 28796; mk_name 0x100811a9 31268; mk_name 0x100811aa 28167; mk_name 0x100811ac 32466;
    mk_name 0x100811ad 26989; mk_name 0x100811af 28219; mk_name 0x100811b0 31825; mk_name 0x100811b6 28033;
    mk_name 0x100811b7 30139; mk_name 0x100811b8 26905; mk_name 0x100811b9 26886; mk_name 0x100811ba 28893;
    mk_name 0x100811bc 30795; mk_name 0x100811bd 31212; mk_name 0x100811be 28825; mk_name 0x100811bf 29488;
    mk_name 0x100811d0 28492; mk_name 0x100811d1 28544; mk_name 0x100811d2 28564; mk_name 0x100811d3 28607;
    mk_name 0x100811d4 28617; mk_name 0x100811d5 28627; mk_name 0x100811d6 28637; mk_name 0x100811d7 28647;
    mk_name 0x100811d8 28657; mk_name 0x100811d9 28667; mk_name 0x100811da 28677; mk_name 0x100811db 28574;
    mk_name 0x100811dc 28585; mk_name 0x100811dd 28596; mk_name 0x100811de 28499; mk_name 0x100811df 28508;
    mk_name 0x100811e0 28526; mk_name 0x100811e1 28535; mk_name 0x100811e2 28555; mk_name 0x100811e3 28687;
    mk_name 0x100811e4 28517; mk_name 0x100811e5 28696; mk_name 0x10081200 30838; mk_name 0x10081201 30851;
    mk_name 0x10081202 30892; mk_name 0x10081203 30905; mk_name 0x10081204 30918; mk_name 0x10081205 30931;
    mk_name 0x10081206 30944; mk_name 0x10081207 30957; mk_name 0x10081208 30970; mk_name 0x10081209 30983;
    mk_name 0x1008120a 31065; mk_name 0x1008120b 31048; mk_name 0x1008120c 30996; mk_name 0x1008120d 31009;
    mk_name 0x1008120e 31022; mk_name 0x1008120f 31035; mk_name 0x10081210 27836; mk_name 0x10081211 32536;
    mk_name 0x10081215 27896; mk_name 0x10081216 27913; mk_name 0x10081217 27883; mk_name 0x10081218 27821;
    mk_name 0x10081219 27852; mk_name 0x1008121a 27867; mk_name 0x1008121b 27121; mk_name 0x1008121c 27104;
    mk_name 0x1008121d 27137; mk_name 0x1008121e 29471; mk_name 0x10081230 27005; mk_name 0x10081232 31387;
    mk_name 0x10081240 27691; mk_name 0x10081241 32144; mk_name 0x10081242 28924; mk_name 0x10081243 28109;
    mk_name 0x10081244 27060; mk_name 0x10081245 31620; mk_name 0x10081246 32449; mk_name 0x10081247 27090;
    mk_name 0x10081249 28385; mk_name 0x1008124a 28180; mk_name 0x1008124b 27775; mk_name 0x1008124c 27751;
    mk_name 0x1008124d 27798; mk_name 0x1008124e 26933; mk_name 0x1008124f 28251; mk_name 0x10081250 27673;
    mk_name 0x10081251 27655; mk_name 0x10081252 28355; mk_name 0x10081253 28324; mk_name 0x10081254 26951;
    mk_name 0x10081255 28049; mk_name 0x10081256 28070; mk_name 0x10081260 29079; mk_name 0x10081261 29028;
    mk_name 0x10081262 29102; mk_name 0x10081263 29051; mk_name 0x10081264 28978; mk_name 0x10081265 29003;
    mk_name 0x10081266 31455; mk_name 0x10081267 31441; mk_name 0x10081268 29446; mk_name 0x10081269 29433;
    mk_name 0x1008126a 31511; mk_name 0x1008126b 30494; mk_name 0x1008126c 30864; mk_name 0x1008126d 30878;
    mk_name 0x1008126e 27227; mk_name 0x1008126f 26922; mk_name 0x10081270 30778; mk_name 0x10081271 31897;
    mk_name 0x10081272 31166; mk_name 0x10081273 32441; mk_name 0x10081274 32323; mk_name 0x10081275 28433;
    mk_name 0x10081276 31791; mk_name 0x10081277 28158; mk_name 0x10081278 31103; mk_name 0x10081279 31320;
    mk_name 0x1008127a 31702; mk_name 0x1008127b 30762; mk_name 0x1008127c 31300; mk_name 0x1008127d 27501;
    mk_name 0x1008127e 30047; mk_name 0x1008127f 31807; mk_name 0x10081280 30705; mk_name 0x10081281 28475;
    mk_name 0x10081282 31760; mk_name 0x10081283 28276; mk_name 0x10081284 31350; mk_name 0x10081285 32280;
    mk_name 0x10081286 27992; mk_name 0x10081287 31744; mk_name 0x10081288 30718; mk_name 0x10081290 29547;
    mk_name 0x10081291 29678; mk_name 0x10081292 29809; mk_name 0x10081293 29832; mk_name 0x10081294 29843;
    mk_name 0x10081295 29854; mk_name 0x10081296 29865; mk_name 0x10081297 29876; mk_name 0x10081298 29887;
    mk_name 0x10081299 29558; mk_name 0x1008129a 29570; mk_name 0x1008129b 29582; mk_name 0x1008129c 29594;
    mk_name 0x1008129d 29606; mk_name 0x1008129e 29618; mk_name 0x1008129f 29630; mk_name 0x100812a0 29642;
    mk_name 0x100812a1 29654; mk_name 0x100812a2 29666; mk_name 0x100812a3 29689; mk_name 0x100812a4 29701;
    mk_name 0x100812a5 29713; mk_name 0x100812a6 29725; mk_name 0x100812a7 29737; mk_name 0x100812a8 29749;
    mk_name 0x100812a9 29761; mk_name 0x100812aa 29773; mk_name 0x100812ab 29785; mk_name 0x100812ac 29797;
    mk_name 0x100812ad 29820; mk_name 0x100812b0 29970; mk_name 0x100812b1 29991; mk_name 0x100812b2 29949;
    mk_name 0x100812b3 29898; mk_name 0x100812b4 29915; mk_name 0x100812b5 29932; mk_name 0x100812b8 29130;
    mk_name 0x100812b9 29146; mk_name 0x100812ba 29162; mk_name 0x100812bb 29178; mk_name 0x100812bc 29194;
    mk_name 0x100812bd 31182; mk_name 0x1008fe01 31949; mk_name 0x1008fe02 32016; mk_name 0x1008fe03 32032;
    mk_name 0x1008fe04 32048; mk_name 0x1008fe05 32064; mk_name 0x1008fe06 32080; mk_name 0x1008fe07 32096;
    mk_name 0x1008fe08 32112; mk_name 0x1008fe09 32128; mk_name 0x1008fe0a 31965; mk_name 0x1008fe0b 31982;
    mk_name 0x1008fe0c 31999; mk_name 0x1008fe20 32312; mk_name 0x1008fe21 27978; mk_name 0x1008fe22 30747;
    mk_name 0x1008fe23 31285; mk_name 0x1008fe24 29529; mk_name 0x1008fe25 29502; mk_name 0x1008ff01 30568;
    mk_name 0x1008ff02 30648; mk_name 0x1008ff03 30626; mk_name 0x1008ff04 29210; mk_name 0x1008ff05 28958;
    mk_name 0x1008ff06 28936; mk_name 0x1008ff07 30603; mk_name 0x1008ff10 31866; mk_name 0x1008ff11 27258;
    mk_name 0x1008ff12 27311; mk_name 0x1008ff13 27398; mk_name 0x1008ff14 27354; mk_name 0x1008ff15 27487;
    mk_name 0x1008ff16 27384; mk_name 0x1008ff17 27325; mk_name 0x1008ff18 28867; mk_name 0x1008ff19 30011;
    mk_name 0x1008ff1a 31878; mk_name 0x1008ff1b 31680; mk_name 0x1008ff1c 27439; mk_name 0x1008ff1d 27723;
    mk_name 0x1008ff1e 30523; mk_name 0x1008ff1f 32195; mk_name 0x1008ff20 27738; mk_name 0x1008ff21 31241;
    mk_name 0x1008ff22 28090; mk_name 0x1008ff23 31498; mk_name 0x1008ff24 31467; mk_name 0x1008ff25 31482;
    mk_name 0x1008ff26 27536; mk_name 0x1008ff27 28713; mk_name 0x1008ff28 31888; mk_name 0x1008ff29 31375;
    mk_name 0x1008ff2a 31255; mk_name 0x1008ff2b 32480; mk_name 0x1008ff2c 28314; mk_name 0x1008ff2d 31604;
    mk_name 0x1008ff2e 32559; mk_name 0x1008ff2f 31781; mk_name 0x1008ff30 28449; mk_name 0x1008ff31 27339;
    mk_name 0x1008ff32 27279; mk_name 0x1008ff33 30678; mk_name 0x1008ff34 32377; mk_name 0x1008ff35 29457;
    mk_name 0x1008ff36 31735; mk_name 0x1008ff37 28855; mk_name 0x1008ff38 31133; mk_name 0x1008ff39 26973;
    mk_name 0x1008ff3a 28880; mk_name 0x1008ff3b 27615; mk_name 0x1008ff3c 28463; mk_name 0x1008ff3d 28019;
    mk_name 0x1008ff3e 27471; mk_name 0x1008ff3f 27545; mk_name 0x1008ff40 29241; mk_name 0x1008ff41 29253;
    mk_name 0x1008ff42 29265; mk_name 0x1008ff43 29277; mk_name 0x1008ff44 29289; mk_name 0x1008ff45 29301;
    mk_name 0x1008ff46 29313; mk_name 0x1008ff47 29325; mk_name 0x1008ff48 29337; mk_name 0x1008ff49 29349;
    mk_name 0x1008ff4a 29361; mk_name 0x1008ff4b 29373; mk_name 0x1008ff4c 29385; mk_name 0x1008ff4d 29397;
    mk_name 0x1008ff4e 29409; mk_name 0x1008ff4f 29421; mk_name 0x1008ff50 27019; mk_name 0x1008ff51 27039;
    mk_name 0x1008ff52 27596; mk_name 0x1008ff53 27931; mk_name 0x1008ff54 27708; mk_name 0x1008ff55 27968;
    mk_name 0x1008ff56 28009; mk_name 0x1008ff57 28126; mk_name 0x1008ff58 28135; mk_name 0x1008ff59 28192;
    mk_name 0x1008ff5a 28268; mk_name 0x1008ff5b 28237; mk_name 0x1008ff5c 28401; mk_name 0x1008ff5d 28420;
    mk_name 0x1008ff5e 28771; mk_name 0x1008ff5f 28780; mk_name 0x1008ff60 28913; mk_name 0x1008ff61 29518;
    mk_name 0x1008ff62 30036; mk_name 0x1008ff63 30511; mk_name 0x1008ff65 30532; mk_name 0x1008ff66 30543;
    mk_name 0x1008ff67 30693; mk_name 0x1008ff68 30730; mk_name 0x1008ff69 30738; mk_name 0x1008ff6a 31081;
    mk_name 0x1008ff6b 31124; mk_name 0x1008ff6c 31145; mk_name 0x1008ff6d 31156; mk_name 0x1008ff6e 31202;
    mk_name 0x1008ff70 31344; mk_name 0x1008ff72 31420; mk_name 0x1008ff73 31409; mk_name 0x1008ff74 31524;
    mk_name 0x1008ff75 31580; mk_name 0x1008ff76 31542; mk_name 0x1008ff77 31595; mk_name 0x1008ff78 31667;
    mk_name 0x1008ff79 31652; mk_name 0x1008ff7a 31636; mk_name 0x1008ff7b 31726; mk_name 0x1008ff7c 31815;
    mk_name 0x1008ff7d 31840; mk_name 0x1008ff7e 31925; mk_name 0x1008ff7f 32160; mk_name 0x1008ff80 32173;
    mk_name 0x1008ff81 32208; mk_name 0x1008ff82 32301; mk_name 0x1008ff84 32358; mk_name 0x1008ff85 32334;
    mk_name 0x1008ff86 32346; mk_name 0x1008ff87 32407; mk_name 0x1008ff88 32502; mk_name 0x1008ff89 32527;
    mk_name 0x1008ff8a 32567; mk_name 0x1008ff8b 32587; mk_name 0x1008ff8c 32598; mk_name 0x1008ff8d 27527;
    mk_name 0x1008ff8e 30554; mk_name 0x1008ff8f 32491; mk_name 0x1008ff90 30020; mk_name 0x1008ff91 31228;
    mk_name 0x1008ff92 30668; mk_name 0x1008ff93 27561; mk_name 0x1008ff94 27582; mk_name 0x1008ff95 32518;
    mk_name 0x1008ff96 32369; mk_name 0x1008ff97 27241; mk_name 0x1008ff98 27455; mk_name 0x1008ff99 27419;
    mk_name 0x1008ff9a 31912; mk_name 0x1008ff9b 27207; mk_name 0x1008ff9c 28143; mk_name 0x1008ff9d 28725;
    mk_name 0x1008ff9e 28739; mk_name 0x1008ff9f 32186; mk_name 0x1008ffa0 31691; mk_name 0x1008ffa1 32432;
    mk_name 0x1008ffa2 32218; mk_name 0x1008ffa3 31367; mk_name 0x1008ffa4 28815; mk_name 0x1008ffa5 32576;
    mk_name 0x1008ffa6 27573; mk_name 0x1008ffa7 31937; mk_name 0x1008ffa8 28841; mk_name 0x1008ffa9 32261;
    mk_name 0x1008ffb0 32246; mk_name 0x1008ffb1 32230; mk_name 0x1008ffb2 27294; mk_name 0x1008ffb3 29228;
    mk_name 0x1008ffb4 32550; mk_name 0x1008ffb5 31430; mk_name 0x1008ffb6 27368; mk_name 0x1008ffb7 31557;
    mk_name 0x1008ffb8 28756 ].

Definition deprecated_keysyms : list deprecated_keysym :=
  [ mk_deprecated 0x00000027 934 0 0; mk_deprecated 0x00000060 13397 0 0;
    mk_deprecated 0x000000ab 14480 0 0; mk_deprecated 0x000000ba 21049 0 0;
    mk_deprecated 0x000000bb 14494 0 0; mk_deprecated 0x000000d0 12195 0 0;
    mk_deprecated 0x000000d8 21494 0 0; mk_deprecated 0x000000de 25730 0 0;
    mk_deprecated 0x000000f8 21501 0 0; mk_deprecated 0x000003a2 19268 0 0;
    mk_deprecated 0x000004a5 18364 0 0; mk_deprecated 0x000004af 18802 0 0;
    mk_deprecated 0x000004c1 18324 0 0; mk_deprecated 0x000004c2 18793 0 0;
    mk_deprecated 0x000004cc 18395 0 0; mk_deprecated 0x000005e7 1282 0 0;
    mk_deprecated 0x000006a4 26443 0 0; mk_deprecated 0x000006a6 26418 0 0;
    mk_deprecated 0x000006a7 26469 0 0; mk_deprecated 0x000006a8 9574 0 0;
    mk_deprecated 0x000006a9 9713 0 0; mk_deprecated 0x000006aa 9739 0 0;
    mk_deprecated 0x000006af 9068 0 0; mk_deprecated 0x000006b4 26430 0 0;
    mk_deprecated 0x000006b6 26406 0 0; mk_deprecated 0x000006b7 26456 0 0;
    mk_deprecated 0x000006b8 9562 0 0; mk_deprecated 0x000006b9 9700 0 0;
    mk_deprecated 0x000006ba 9726 0 0; mk_deprecated 0x000006bf 9054 0 0;
    mk_deprecated 0x000007a5 13857 0 0; mk_deprecated 0x000008a2 DEPRECATED_KEYSYM 0 0;
    mk_deprecated 0x000008a3 DEPRECATED_KEYSYM 0 0; mk_deprecated 0x000008a6 DEPRECATED_KEYSYM 0 0;
    mk_deprecated 0x00000aac DEPRECATED_KEYSYM 0 0; mk_deprecated 0x00000abc DEPRECATED_KEYSYM 0 0;
    mk_deprecated 0x00000abd DEPRECATED_KEYSYM 0 0; mk_deprecated 0x00000abe DEPRECATED_KEYSYM 0 0;
    mk_deprecated 0x00000aca DEPRECATED_KEYSYM 0 0; mk_deprecated 0x00000acc DEPRECATED_KEYSYM 0 0;
    mk_deprecated 0x00000acd DEPRECATED_KEYSYM 0 0; mk_deprecated 0x00000ace DEPRECATED_KEYSYM 0 0;
    mk_deprecated 0x00000acf DEPRECATED_KEYSYM 0 0; mk_deprecated 0x00000adb DEPRECATED_KEYSYM 0 0;
    mk_deprecated 0x00000adc DEPRECATED_KEYSYM 0 0; mk_deprecated 0x00000add DEPRECATED_KEYSYM 0 0;
    mk_deprecated 0x00000ade DEPRECATED_KEYSYM 0 0; mk_deprecated 0x00000adf DEPRECATED_KEYSYM 0 0;
    mk_deprecated 0x00000ae0 DEPRECATED_KEYSYM 0 0; mk_deprecated 0x00000ae1 DEPRECATED_KEYSYM 0 0;
    mk_deprecated 0x00000ae2 DEPRECATED_KEYSYM 0 0; mk_deprecated 0x00000ae3 DEPRECATED_KEYSYM 0 0;
    mk_deprecated 0x00000ae4 DEPRECATED_KEYSYM 0 0; mk_deprecated 0x00000ae5 DEPRECATED_KEYSYM 0 0;
    mk_deprecated 0x00000ae6 DEPRECATED_KEYSYM 0 0; mk_deprecated 0x00000ae7 DEPRECATED_KEYSYM 0 0;
    mk_deprecated 0x00000ae8 DEPRECATED_KEYSYM 0 0; mk_deprecated 0x00000ae9 DEPRECATED_KEYSYM 0 0;
    mk_deprecated 0x00000aea DEPRECATED_KEYSYM 0 0; mk_deprecated 0x00000aeb DEPRECATED_KEYSYM 0 0;
    mk_deprecated 0x00000ba3 DEPRECATED_KEYSYM 0 0; mk_deprecated 0x00000ba6 DEPRECATED_KEYSYM 0 0;
    mk_deprecated 0x00000ba8 DEPRECATED_KEYSYM 0 0; mk_deprecated 0x00000ba9 DEPRECATED_KEYSYM 0 0;
    mk_deprecated 0x00000bc0 DEPRECATED_KEYSYM 0 0; mk_deprecated 0x00000bc3 DEPRECATED_KEYSYM 0 0;
    mk_deprecated 0x00000bc6 DEPRECATED_KEYSYM 0 0; mk_deprecated 0x00000bd6 DEPRECATED_KEYSYM 0 0;
    mk_deprecated 0x00000bd8 DEPRECATED_KEYSYM 0 0; mk_deprecated 0x00000bda DEPRECATED_KEYSYM 0 0;
    mk_deprecated 0x00000ce1 16271 0 0; mk_deprecated 0x00000ce2 16452 0 0;
    mk_deprecated 0x00000ce3 16306 0 0; mk_deprecated 0x00000ce6 16737 0 0;
    mk_deprecated 0x00000ce7 16294 0 0; mk_deprecated 0x00000ce8 16668 0 0;
    mk_deprecated 0x00000cf1 16592 0 0; mk_deprecated 0x00000cf5 16418 0 0;
    mk_deprecated 0x00000cf6 16713 0 0; mk_deprecated 0x00000cf7 16568 0 0;
    mk_deprecated 0x00000cfa 16657 0 0; mk_deprecated 0x00000dde DEPRECATED_KEYSYM 0 0;
    mk_deprecated 0x00000eff DEPRECATED_KEYSYM 0 0; mk_deprecated 0x0000fe8a 11166 0 0;
    mk_deprecated 0x0000fe8b 11155 0 0; mk_deprecated 0x0000ff20 19996 0 0;
    mk_deprecated 0x0000ff37 8654 0 0; mk_deprecated 0x0000ff3c 23236 0 0;
    mk_deprecated 0x0000ff3d 20006 0 0; mk_deprecated 0x0000ff3e 22298 0 0;
    mk_deprecated 0x0000ff55 22322 0 0; mk_deprecated 0x0000ff56 20208 0 0;
    mk_deprecated 0x0000ff61 22316 0 0; mk_deprecated 0x0000ff65 26588 0 0;
    mk_deprecated 0x0000ff66 22524 0 0; mk_deprecated 0x0000ff68 12662 0 0;
    mk_deprecated 0x0000ff69 8489 0 0; mk_deprecated 0x0000ff7e 17760 0 1;
    mk_deprecated 0x0000ff9a 19203 0 0; mk_deprecated 0x0000ff9b 19171 0 0;
    mk_deprecated 0x0000ffc8 12297 0 0; mk_deprecated 0x0000ffc9 12301 0 0;
    mk_deprecated 0x0000ffca 12305 0 0; mk_deprecated 0x0000ffcb 12309 0 0;
    mk_deprecated 0x0000ffcc 12313 0 0; mk_deprecated 0x0000ffcd 12317 0 0;
    mk_deprecated 0x0000ffce 12321 0 0; mk_deprecated 0x0000ffcf 12325 0 0;
    mk_deprecated 0x0000ffd0 12329 0 0; mk_deprecated 0x0000ffd1 12336 0 0;
    mk_deprecated 0x0000ffd2 12340 0 0; mk_deprecated 0x0000ffd3 12344 0 0;
    mk_deprecated 0x0000ffd4 12348 0 0; mk_deprecated 0x0000ffd5 12352 0 0;
    mk_deprecated 0x0000ffd6 12356 0 0; mk_deprecated 0x0000ffd7 12360 0 0;
    mk_deprecated 0x0000ffd8 12364 0 0; mk_deprecated 0x0000ffd9 12368 0 0;
    mk_deprecated 0x0000ffda 12372 0 0; mk_deprecated 0x0000ffdb 12379 0 0;
    mk_deprecated 0x0000ffdc 12383 0 0; mk_deprecated 0x0000ffdd 12387 0 0;
    mk_deprecated 0x0000ffde 12391 0 0; mk_deprecated 0x0000ffdf 12395 0 0;
    mk_deprecated 0x0000ffe0 12399 0 0; mk_deprecated 0x0100055b 2048 0 0;
    mk_deprecated 0x0100055c 2287 0 0; mk_deprecated 0x0100055d 2869 0 0;
    mk_deprecated 0x0100055e 2779 0 0; mk_deprecated 0x01000589 2327 0 0;
    mk_deprecated 0x0100058a 2448 0 0; mk_deprecated 0x010006cc 12521 0 0;
    mk_deprecated 0x01002247 UNICODE_KEYSYM 0 0; mk_deprecated 0x01002248 UNICODE_KEYSYM 0 0;
    mk_deprecated 0x100000a8 17070 0 0; mk_deprecated 0x100000a9 17137 0 0;
    mk_deprecated 0x100000aa 17083 0 0; mk_deprecated 0x100000ab 17120 0 0;
    mk_deprecated 0x100000ac 17102 0 0; mk_deprecated 0x100000af 17027 0 0;
    mk_deprecated 0x100000be 16973 0 0; mk_deprecated 0x100000ee 17174 0 0;
    mk_deprecated 0x100000f6 17034 0 0; mk_deprecated 0x100000fc 16927 0 0;
    mk_deprecated 0x1000ff6c 17150 0 0; mk_deprecated 0x1000ff6d 17158 0 0;
    mk_deprecated 0x1000ff6e 17167 0 0; mk_deprecated 0x1000ff6f 16935 0 0;
    mk_deprecated 0x1000ff70 16996 0 0; mk_deprecated 0x1000ff71 16960 0 0;
    mk_deprecated 0x1000ff72 16983 0 0; mk_deprecated 0x1000ff73 16947 0 0;
    mk_deprecated 0x1000ff74 16917 0 0; mk_deprecated 0x1000ff75 17014 0 0;
    mk_deprecated 0x1000ff76 DEPRECATED_KEYSYM 0 0; mk_deprecated 0x1000ff77 DEPRECATED_KEYSYM 0 0;
    mk_deprecated 0x100810f4 30581 0 0 ].

Definition explicit_deprecated_aliases : list Z :=
  [ 24103 ].

Definition lower_map : list Z :=
  [ 0; 1; 2; 3; 4; 5; 6; 7; 8; 9; 10; 11; 12; 13; 14; 15; 16; 17; 18; 19; 20;
    21; 22; 23; 24; 25; 26; 27; 28; 29; 30; 31; 32; 33; 34; 35; 36; 37; 38; 39; 40; 41;
    42; 43; 44; 45; 46; 47; 48; 49; 50; 51; 52; 53; 54; 55; 56; 57; 58; 59; 60; 61; 62;
    63; 64; 97; 98; 99; 100; 101; 102; 103; 104; 105; 106; 107; 108; 109; 110; 111; 112; 113; 114; 115;
    116; 117; 118; 119; 120; 121; 122; 91; 92; 93; 94; 95; 96; 97; 98; 99; 100; 101; 102; 103; 104;
    105; 106; 107; 108; 109; 110; 111; 112; 113; 114; 115; 116; 117; 118; 119; 120; 121; 122; 123; 124; 125;
    126; 127; 128; 129; 130; 131; 132; 133; 134; 135; 136; 137; 138; 139; 140; 141; 142; 143; 144; 145; 146;
    147; 148; 149; 150; 151; 152; 153; 154; 155; 156; 157; 158; 159; 160; 161; 162; 163; 164; 165; 166; 167;
    168; 169; 170; 171; 172; 173; 174; 175; 176; 177; 178; 179; 180; 181; 182; 183; 184; 185; 186; 187; 188;
    189; 190; 191; 192; 193; 194; 195; 196; 197; 198; 199; 200; 201; 202; 203; 204; 205; 206; 207; 208; 209;
    210; 211; 212; 213; 214; 215; 216; 217; 218; 219; 220; 221; 222; 223; 224; 225; 226; 227; 228; 229; 230;
    231; 232; 233; 234; 235; 236; 237; 238; 239; 240; 241; 242; 243; 244; 245; 246; 247; 248; 249; 250; 251;
    252; 253; 254; 255 ].
