(* ===== verification/KeysymName.v ===== *)
(** * Names of keysyms (src/keysym.c)

    From a keysym to its name, and back: the perfect hash, the search without
    regard to case, the Unicode and hexadecimal notations. *)

From Stdlib Require Import ZArith Lia String.
From stdpp Require Import base tactics list numbers.
From S2P Require Import Prelude Numbers Keymap Utf8 Keysym KeysymNames.

Definition keysym_names_array : array Z := array_of keysym_names.
Definition keysym_name_G_array : array Z := array_of keysym_name_G.
Definition name_to_keysym_array : array name_keysym := array_of name_to_keysym.
Definition keysym_to_name_array : array name_keysym := array_of keysym_to_name.
Definition lower_map_array : array Z := array_of lower_map.

(** [ARRAY_SIZE]. *)
Definition keysym_to_name_size : Z := Z.of_nat (length keysym_to_name).
Definition name_to_keysym_size : Z := Z.of_nat (length name_to_keysym).

Definition XKB_KEYSYM_MAX : Z := 0x1fffffff.
Definition XKB_KEYSYM_MAX_EXPLICIT : Z := 0x1008ffb8.
Definition XKB_KEYSYM_NAME_MAX_SIZE : Z := 31.
Definition XKB_KEYSYM_NO_FLAGS : Z := 0.
Definition XKB_KEYSYM_CASE_INSENSITIVE : Z := 1.

(** ** Characters and strings (src/utils.c) *)

(** The value of a [char]. *)
Definition char_value (c : Z) : Z := if c <? 128 then c else c - 256.

Definition to_lower (c : Z) : Z := default 0 (array_get lower_map_array c).

(** The end of a string is read as its zero. *)
Fixpoint istrcmp (a b : list Z) : Z :=
  let cb := default 0 (b !! 0%nat) in
  match a with
  | [] => if to_lower 0 =? to_lower cb then 0 else char_value (to_lower 0) - char_value (to_lower cb)
  | ca :: a => if to_lower ca =? to_lower cb then istrcmp a (drop 1 b)
               else char_value (to_lower ca) - char_value (to_lower cb)
  end.

Fixpoint istrncmp (a b : list Z) (n : nat) : Z :=
  match n with
  | O => 0
  | S n =>
      let ca := default 0 (a !! 0%nat) in
      let cb := default 0 (b !! 0%nat) in
      if to_lower ca =? to_lower cb then if ca =? 0 then 0 else istrncmp (drop 1 a) (drop 1 b) n
      else char_value (to_lower ca) - char_value (to_lower cb)
  end.

(** ** The tables *)

Fixpoint names_at (fuel : nat) (i : Z) : list Z :=
  match fuel with
  | O => []
  | S fuel => match array_get keysym_names_array i with
              | None => []
              | Some c => if c =? 0 then [] else c :: names_at fuel (i + 1)
              end
  end.

(** The string at an offset of [keysym_names]; the names are shorter than
    [XKB_KEYSYM_NAME_MAX_SIZE]. *)
Definition get_name_by_index (index : Z) : list Z :=
  names_at (Z.to_nat XKB_KEYSYM_NAME_MAX_SIZE) index.

Definition get_name (entry : name_keysym) : list Z := get_name_by_index (nk_offset entry).

(** Each turn halves the interval of at most 2^12 entries. *)
Fixpoint find_loop (fuel : nat) (ks lo hi : Z) : option Z :=
  match fuel with
  | O => None
  | S fuel =>
      if hi >=? lo then
        let mid := (lo + hi) / 2 in
        match array_get keysym_to_name_array mid with
        | None => None
        | Some e =>
            if ks >? nk_keysym e then find_loop fuel ks (mid + 1) hi
            else if ks <? nk_keysym e then find_loop fuel ks lo (mid - 1)
            else Some mid
        end
      else None
  end.

Definition find_keysym_index (ks : Z) : option Z :=
  if ks >? XKB_KEYSYM_MAX_EXPLICIT then None
  else find_loop 13 ks 0 (keysym_to_name_size - 1).

(** ** Names *)

(** The hexadecimal digits of a value, at least [width] of them. *)
Fixpoint hex_digits (fuel : nat) (a v : Z) (acc : list Z) : list Z :=
  match fuel with
  | O => acc
  | S fuel =>
      let d := v mod 16 in
      let acc := (if d <? 10 then 48 + d else a + d - 10) :: acc in
      if v / 16 =? 0 then acc else hex_digits fuel a (v / 16) acc
  end.

Definition print_hex (upper : bool) (width : nat) (v : Z) : list Z :=
  let ds := hex_digits 16 (if upper then 65 else 97) v [] in
  replicate (width - length ds) 48 ++ ds.

Definition get_unicode_name (ks : Z) : list Z := 85 :: print_hex true 4 (Z.land ks 0xffffff).

(** The text that is written, or the error. *)
Definition keysym_name (ks : Z) : option (list Z) :=
  if ks >? XKB_KEYSYM_MAX then None
  else Some (
    match find_keysym_index ks with
    | Some index => match array_get keysym_to_name_array index with
                    | Some e => get_name e
                    | None => []
                    end
    | None =>
        if (ks >=? XKB_KEYSYM_UNICODE_MIN) && (ks <=? XKB_KEYSYM_UNICODE_MAX) then get_unicode_name ks
        else 48 :: 120 :: print_hex false 8 ks
    end).

Definition xkb_keysym_get_name (ks : Z) (buffer : list Z) (size : Z) : Z * list Z :=
  match keysym_name ks with
  | None => (-1, snd (snprintf_s buffer size (bytes_of "Invalid"%string)))
  | Some name => snprintf_s buffer size name
  end.

Definition xkb_keysym_is_assigned (ks : Z) : bool :=
  (XKB_KEYSYM_UNICODE_MIN <=? ks) && (ks <=? XKB_KEYSYM_UNICODE_MAX) ||
  match find_keysym_index ks with Some _ => true | None => false end.

(** ** Keysyms from names *)

Definition hash_T1 : list Z := bytes_of "mGfOhSKH0Is7uINY8QVfaJ9N0Fe0yHYu"%string.
Definition hash_T2 : list Z := bytes_of "nXsEsvAWpmIhmalLNlkBZssDXdmoTYKy"%string.

Definition size_t (x : Z) : Z := x mod 2 ^ 64.

Fixpoint perfect_hash_loop (key : list Z) (i : nat) (h1 h2 : Z) : Z * Z :=
  match key with
  | [] => (h1, h2)
  | c :: key =>
      let j := (i mod 32)%nat in
      perfect_hash_loop key (S i) (size_t (h1 + size_t (hash_T1 !!! j * char_value c)))
        (size_t (h2 + size_t (hash_T2 !!! j * char_value c)))
  end.

Definition keysym_name_perfect_hash (key : list Z) : Z :=
  let (h1, h2) := perfect_hash_loop key 0 0 0 in
  (default 0 (array_get keysym_name_G_array (h1 mod 4731)) +
   default 0 (array_get keysym_name_G_array (h2 mod 4731))) mod 4731.

(** The search without regard to case, then the last of the equal entries. *)
Fixpoint icase_loop (fuel : nat) (name : list Z) (lo hi : Z) : option Z :=
  match fuel with
  | O => None
  | S fuel =>
      if hi >=? lo then
        let mid := (lo + hi) / 2 in
        match array_get name_to_keysym_array mid with
        | None => None
        | Some e =>
            let cmp := istrcmp name (get_name e) in
            if cmp >? 0 then icase_loop fuel name (mid + 1) hi
            else if cmp <? 0 then icase_loop fuel name lo (mid - 1)
            else Some mid
        end
      else None
  end.

Fixpoint last_icase (fuel : nat) (i : Z) (e : name_keysym) : name_keysym :=
  match fuel with
  | O => e
  | S fuel =>
      match array_get name_to_keysym_array (i + 1) with
      | Some e' => if istrcmp (get_name e') (get_name e) =? 0 then last_icase fuel (i + 1) e' else e
      | None => e
      end
  end.

Definition find_name (name : list Z) (icase : bool) : option Z :=
  if negb icase then
    let pos := keysym_name_perfect_hash name in
    if pos <? name_to_keysym_size then
      match array_get name_to_keysym_array pos with
      | Some e => if bool_decide (name = get_name e) then Some (nk_keysym e) else None
      | None => None
      end
    else None
  else
    match icase_loop 13 name 0 (name_to_keysym_size - 1) with
    | Some i =>
        match array_get name_to_keysym_array i with
        | Some e => Some (nk_keysym (last_icase (length name_to_keysym) i e))
        | None => None
        end
    | None => None
    end.

Definition parse_keysym_hex (s : list Z) : option Z :=
  let (count, val) := parse_hex_to_uint32_t s 8 in
  if (count >? 0) && (default 0 (s !! Z.to_nat count) =? 0) then Some val else None.

Definition has_prefix (prefix s : list Z) : bool := bool_decide (take (length prefix) s = prefix).

(** A name gets shorter with each [XF86_] rewritten. *)
Fixpoint from_name (fuel : nat) (name : list Z) (icase : bool) : Z :=
  match find_name name icase with
  | Some ks => ks
  | None =>
      let c0 := default 0 (name !! 0%nat) in
      let c1 := default 0 (name !! 1%nat) in
      if (c0 =? 85) || (icase && (c0 =? 117)) then
        match parse_keysym_hex (drop 1 name) with
        | None => XKB_KEY_NoSymbol
        | Some val => if (val >? 0xff) && (val <=? 0x10ffff) then XKB_KEYSYM_UNICODE_OFFSET + val
                      else xkb_utf32_to_keysym val
        end
      else if (c0 =? 48) && ((c1 =? 120) || (icase && (c1 =? 88))) then
        match parse_keysym_hex (drop 2 name) with
        | None => XKB_KEY_NoSymbol
        | Some val => if val >? XKB_KEYSYM_MAX then XKB_KEY_NoSymbol else val
        end
      else if has_prefix (bytes_of "XF86_"%string) name ||
              (icase && (istrncmp name (bytes_of "XF86_"%string) 5 =? 0)) then
        match fuel with
        | O => XKB_KEY_NoSymbol
        | S fuel => from_name fuel (take 4 name ++ drop 5 name) icase
        end
      else XKB_KEY_NoSymbol
  end.

Definition xkb_keysym_from_name (name : list Z) (flags : Z) : Z :=
  if negb (Z.ldiff flags XKB_KEYSYM_CASE_INSENSITIVE =? 0) then XKB_KEY_NoSymbol
  else from_name (length name) name (has_flag flags XKB_KEYSYM_CASE_INSENSITIVE).

(** ** Names of keysyms: a keysym is the keysym of its name

    The tables are checked entry by entry; the hexadecimal notations are
    proved to be read as they are printed. *)

(** ** Checks of the tables *)

(** The hash of the canonical name leads to an entry with that name. *)
Definition entry_found (e : name_keysym) : bool :=
  match find_name (get_name e) false with
  | Some ks => ks =? nk_keysym e
  | None => false
  end.

Lemma entries_found : forallb entry_found keysym_to_name = true.
Proof. vm_compute. reflexivity. Qed.

(** No name looks like a notation by number. *)
Definition notation (name : list Z) : bool :=
  match name with
  | 85 :: rest => Nat.leb 3 (length rest) && forallb is_xdigit rest
  | 48 :: 120 :: _ => true
  | _ => false
  end.

Lemma names_no_notation : forallb (fun e => negb (notation (get_name e))) name_to_keysym = true.
Proof. vm_compute. reflexivity. Qed.

Definition increasing (l : list name_keysym) : bool :=
  match l with
  | [] => true
  | e :: l =>
      (fix go (k : Z) (l : list name_keysym) : bool :=
         match l with
         | [] => true
         | e :: l => (k <? nk_keysym e) && go (nk_keysym e) l
         end) (nk_keysym e) l
  end.

Lemma keysym_to_name_increasing : increasing keysym_to_name = true.
Proof. vm_compute. reflexivity. Qed.

Lemma sizes : keysym_to_name_size = 2505 /\ name_to_keysym_size = 2638.
Proof. split; vm_compute; reflexivity. Qed.

Lemma max_explicit : forallb (fun e => (0 <=? nk_keysym e) && (nk_keysym e <=? XKB_KEYSYM_MAX_EXPLICIT)) keysym_to_name = true.
Proof. vm_compute. reflexivity. Qed.

(** ** Hexadecimal digits *)

Definition hex_char (a d : Z) : Z := if d <? 10 then 48 + d else a + d - 10.

Lemma hex_char_ok (upper : bool) d : 0 <= d < 16 ->
  let c := hex_char (if upper then 65 else 97) d in
  is_xdigit c = true /\ hex_digit c = d /\ is_char c /\ c <> 0.
Proof.
  intros Hd. assert (forallb (fun n => let d := Z.of_nat n in let c := hex_char (if upper then 65 else 97) d in
    is_xdigit c && (hex_digit c =? d) && (0 <=? c) && (c <? 256) && negb (c =? 0)) (seq 0 16) = true) as H
    by (destruct upper; vm_compute; reflexivity).
  rewrite forallb_forall in H. specialize (H (Z.to_nat d)). rewrite Z2Nat.id in H by lia. cbn zeta in *.
  rewrite !andb_true_iff in H. destruct H as [[[[H1 H2] H3] H4] H5]; [apply in_seq; lia|].
  unfold is_char. apply negb_true_iff in H5. repeat split; try done; lia.
Qed.

Definition xdigits (l : list Z) : Prop := Forall (fun c => is_xdigit c = true /\ is_char c /\ c <> 0) l.

Lemma value_in_app base digit l1 l2 v :
  value_in base digit (l1 ++ l2) v = value_in base digit l2 (value_in base digit l1 v).
Proof. apply foldl_app. Qed.

Lemma value_in_acc base digit ds : forall v,
  value_in base digit ds v = v * base ^ Z.of_nat (length ds) + value_in base digit ds 0.
Proof.
  induction ds as [|c ds IH]; intros v; [unfold value_in; cbn; lia|].
  change (value_in base digit (c :: ds) v) with (value_in base digit ds (v * base + digit c)).
  change (value_in base digit (c :: ds) 0) with (value_in base digit ds (0 * base + digit c)).
  rewrite IH, (IH (0 * base + digit c)). cbn [length]. rewrite Nat2Z.inj_succ, Z.pow_succ_r by lia. ring.
Qed.

Lemma hex_digits_spec (upper : bool) n : forall fuel v acc,
  0 <= v < 16 ^ Z.of_nat n -> (n <= fuel)%nat -> (1 <= n)%nat -> xdigits acc ->
  exists ds, hex_digits fuel (if upper then 65 else 97) v acc = ds ++ acc /\
    (1 <= length ds <= n)%nat /\ xdigits ds /\ value_in 16 hex_digit ds 0 = v.
Proof.
  induction n as [|n IH]; intros fuel v acc Hv Hf Hn Hacc; [lia|]. destruct fuel as [|fuel]; [lia|].
  cbn [hex_digits]. fold (hex_char (if upper then 65 else 97) (v mod 16)).
  pose proof (Z.mod_pos_bound v 16 ltac:(lia)) as Hm. pose proof (Z.div_mod v 16 ltac:(lia)) as Hd.
  destruct (hex_char_ok upper (v mod 16) Hm) as (H1 & H2 & H3 & H4). set (c := hex_char _ _) in *.
  assert (xdigits [c]) as Hc by (apply Forall_singleton; done).
  destruct (Z.eqb_spec (v / 16) 0) as [E|E].
  - exists [c]. split; [done|]. split; [cbn; lia|]. split; [done|]. cbn. lia.
  - rewrite Nat2Z.inj_succ, Z.pow_succ_r in Hv by lia.
    assert (0 <= v / 16 < 16 ^ Z.of_nat n) as Hv'.
    { split; [apply Z.div_pos; lia|]. apply Z.div_lt_upper_bound; lia. }
    destruct n as [|n]; [cbn in Hv'; lia|].
    destruct (IH fuel (v / 16) (c :: acc) Hv' ltac:(lia) ltac:(lia)) as (ds & E' & Hl & Hx & Hval).
    { by apply Forall_cons_2; [inversion Hc|]. }
    exists (ds ++ [c]). rewrite E', <- app_assoc. split; [done|]. rewrite length_app. cbn [length].
    split; [lia|]. split; [by apply Forall_app_2|]. rewrite value_in_app, Hval. cbn. lia.
Qed.

Lemma print_hex_spec (upper : bool) width v :
  0 <= v < 16 ^ 8 -> (width <= 8)%nat ->
  let ds := print_hex upper width v in
  xdigits ds /\ (1 <= length ds <= 8)%nat /\ (width <= length ds)%nat /\ value_in 16 hex_digit ds 0 = v.
Proof.
  intros Hv Hw. unfold print_hex.
  destruct (hex_digits_spec upper 8 16 v [] Hv ltac:(lia) ltac:(lia)) as (ds & -> & Hl & Hx & Hval);
    [apply Forall_nil_2|]. rewrite app_nil_r. split; [|rewrite length_app, length_replicate; split; [lia|split; [lia|]]].
  - apply Forall_app_2; [|done]. apply Forall_replicate. done.
  - rewrite value_in_app. replace (value_in 16 hex_digit (replicate (width - length ds) 48) 0) with 0; [done|].
    induction (width - length ds)%nat as [|k IH]; [done|]. exact IH.
Qed.

Lemma prefix_all isd l : forall len, Forall (fun c => isd c = true) l -> (length l <= len)%nat ->
  prefix_of_class isd l len = l.
Proof.
  induction l as [|c l IH]; intros [|len] Hl Hlen; cbn in *; try done; try lia.
  apply Forall_cons_1 in Hl as [-> Hl]. by rewrite IH by (done || lia).
Qed.

Lemma parse_keysym_hex_print (upper : bool) width v :
  0 <= v < 16 ^ 8 -> (width <= 8)%nat -> parse_keysym_hex (print_hex upper width v) = Some v.
Proof.
  intros Hv Hw. destruct (print_hex_spec upper width v Hv Hw) as (Hx & Hl & _ & Hval).
  set (ds := print_hex upper width v) in *. unfold parse_keysym_hex, parse_hex_to_uint32_t.
  pose proof (parse_hex_spec UINT32_MAX ds 8 ltac:(done) ltac:(done)
    ltac:(eapply list.Forall_impl; [exact Hx|]; intros ? (_ & H & _); exact H)) as H.
  unfold parsed in H. rewrite prefix_all in H; [|eapply list.Forall_impl; [exact Hx|]; intros ? (H' & _); exact H'|lia].
  rewrite Hval, (proj2 (Z.leb_le v UINT32_MAX)) in H by (unfold UINT32_MAX; lia). rewrite H.
  rewrite Z.gtb_ltb, (proj2 (Z.ltb_lt 0 _)) by lia. rewrite Nat2Z.id, lookup_ge_None_2 by lia. done.
Qed.

(** ** Searches *)

Lemma find_loop_entry fuel : forall ks lo hi i, 0 <= lo ->
  find_loop fuel ks lo hi = Some i ->
  exists e, array_get keysym_to_name_array i = Some e /\ e ∈ keysym_to_name /\ nk_keysym e = ks.
Proof.
  induction fuel as [|fuel IH]; intros ks lo hi i Hlo H; [done|]. cbn [find_loop] in H.
  rewrite Z.geb_leb in H. destruct (Z.leb_spec lo hi) as [Hle|]; [|done].
  assert (0 <= (lo + hi) / 2) as Hmid by (apply Z.div_pos; lia).
  destruct (array_get keysym_to_name_array ((lo + hi) / 2)) as [e|] eqn:E; [|done].
  rewrite Z.gtb_ltb in H. destruct (Z.ltb_spec (nk_keysym e) ks); [by apply (IH ks ((lo + hi) / 2 + 1) hi i); [lia|]|].
  destruct (Z.ltb_spec ks (nk_keysym e)); [by apply (IH ks lo ((lo + hi) / 2 - 1) i)|].
  injection H as <-. exists e. split; [done|]. split; [|lia].
  unfold keysym_to_name_array in E. rewrite array_get_of in E by done. by eapply list_elem_of_lookup_2.
Qed.

Lemma increasing_lookup l : increasing l = true -> forall i j e e',
  l !! i = Some e -> l !! j = Some e' -> (i < j)%nat -> nk_keysym e < nk_keysym e'.
Proof.
  assert (forall l e, increasing (e :: l) = true ->
    increasing l = true /\ forall j e', l !! j = Some e' -> nk_keysym e < nk_keysym e') as Hstep.
  { clear l. intros l. induction l as [|e1 l IH]; intros e H; [done|].
    cbn [increasing] in H. apply andb_true_iff in H as [H1 H2]. apply Z.ltb_lt in H1.
    split; [exact H2|]. intros [|j] e' Hj; [injection Hj as <-; done|].
    destruct (IH e1 H2) as [_ H3]. specialize (H3 j e' Hj). lia. }
  induction l as [|e l IH]; intros Hl i j e1 e2 Hi Hj Hij; [done|]. destruct (Hstep l e Hl) as [Hl' Hall].
  destruct j as [|j]; [lia|]. destruct i as [|i]; [injection Hi as <-; by eapply Hall|].
  apply (IH Hl' i j); [done|done|lia].
Qed.

(** The search finds the entry of a keysym that has one. *)
Lemma find_loop_found fuel : forall ks lo hi i e,
  keysym_to_name !! Z.to_nat i = Some e -> nk_keysym e = ks ->
  0 <= lo <= i -> i <= hi < keysym_to_name_size -> hi - lo < 2 ^ Z.of_nat fuel - 1 ->
  find_loop fuel ks lo hi = Some i.
Proof.
  induction fuel as [|fuel IH]; intros ks lo hi i e Hi He Hlo Hhi Hfuel; [cbn in Hfuel; lia|].
  cbn [find_loop]. rewrite Z.geb_leb, (proj2 (Z.leb_le lo hi)) by lia.
  pose proof (Z.div_mod (lo + hi) 2) as Hdiv. pose proof (Z.mod_pos_bound (lo + hi) 2).
  set (mid := (lo + hi) / 2) in *. unfold keysym_to_name_array. rewrite array_get_of by lia.
  destruct (lookup_lt_is_Some_2 keysym_to_name (Z.to_nat mid)) as [m Hm].
  { unfold keysym_to_name_size in Hhi. lia. }
  rewrite Hm. fold keysym_to_name_array. rewrite Z.gtb_ltb.
  pose proof (increasing_lookup _ keysym_to_name_increasing) as Hinc.
  rewrite Nat2Z.inj_succ, Z.pow_succ_r in Hfuel by lia.
  destruct (Z.lt_trichotomy mid i) as [Hlt|[->|Hgt]].
  - pose proof (Hinc (Z.to_nat mid) (Z.to_nat i) m e Hm Hi ltac:(lia)).
    rewrite (proj2 (Z.ltb_lt _ _)) by lia. apply (IH ks (mid + 1) hi i e); try done; lia.
  - assert (m = e) as -> by congruence. by rewrite He, Z.ltb_irrefl.
  - pose proof (Hinc (Z.to_nat i) (Z.to_nat mid) e m Hi Hm ltac:(lia)).
    rewrite (proj2 (Z.ltb_ge (nk_keysym m) ks)), (proj2 (Z.ltb_lt ks _)) by lia.
    apply (IH ks lo (mid - 1) i e); try done; lia.
Qed.

Lemma find_name_none name : notation name = true -> find_name name false = None.
Proof.
  intros Hn. unfold find_name. cbn [negb]. set (pos := keysym_name_perfect_hash name).
  destruct (pos <? name_to_keysym_size); [|done].
  destruct (array_get name_to_keysym_array pos) as [e|] eqn:E; [|done].
  case_bool_decide as Hname; [|done]. exfalso.
  assert (0 <= pos) as Hpos.
  { unfold pos, keysym_name_perfect_hash. destruct (perfect_hash_loop _ _ _ _). apply Z.mod_pos_bound. lia. }
  unfold name_to_keysym_array in E. rewrite array_get_of in E by done.
  pose proof names_no_notation as H. rewrite forallb_forall in H.
  specialize (H e). rewrite <- Hname, Hn in H. discriminate H.
  by apply list_elem_of_In, list_elem_of_lookup_2 with (i := Z.to_nat pos).
Qed.

Lemma notation_unicode ds : xdigits ds -> (4 <= length ds)%nat -> notation (85 :: ds) = true.
Proof.
  intros Hx Hl. unfold notation. rewrite (proj2 (Nat.leb_le 3 _)) by lia. cbn [andb].
  apply forallb_forall. intros c Hc. unfold xdigits in Hx. rewrite list.Forall_forall in Hx.
  by apply Hx, list_elem_of_In.
Qed.

(** C38. The name of any keysym reads back as the keysym; keysyms above the maximum
    have none. *)
Theorem keysym_name_round_trip (ks : Z) :
  0 <= ks <= XKB_KEYSYM_MAX ->
  exists name, keysym_name ks = Some name /\ xkb_keysym_from_name name XKB_KEYSYM_NO_FLAGS = ks.
Proof.
  intros Hks. unfold keysym_name. rewrite Z.gtb_ltb, (proj2 (Z.ltb_ge _ _)) by lia.
  eexists. split; [done|]. unfold xkb_keysym_from_name.
  change (negb (Z.ldiff XKB_KEYSYM_NO_FLAGS XKB_KEYSYM_CASE_INSENSITIVE =? 0)) with false.
  change (has_flag XKB_KEYSYM_NO_FLAGS XKB_KEYSYM_CASE_INSENSITIVE) with false. cbn iota.
  destruct (find_keysym_index ks) as [i|] eqn:Hi.
  - unfold find_keysym_index in Hi. destruct (ks >? XKB_KEYSYM_MAX_EXPLICIT); [done|].
    destruct (find_loop_entry _ _ _ _ _ (Z.le_refl 0) Hi) as (e & -> & He & <-).
    pose proof entries_found as H. rewrite forallb_forall in H. specialize (H e). apply list_elem_of_In in He.
    specialize (H He). unfold entry_found in H.
    destruct (find_name (get_name e) false) as [ks|] eqn:Hf; [|done]. apply Z.eqb_eq in H.
    destruct (get_name e) as [|c l]; cbn [length from_name]; by rewrite Hf.
  - destruct ((ks >=? XKB_KEYSYM_UNICODE_MIN) && (ks <=? XKB_KEYSYM_UNICODE_MAX)) eqn:Hu.
    + apply andb_true_iff in Hu as [H1 H2]. unfold XKB_KEYSYM_UNICODE_MIN, XKB_KEYSYM_UNICODE_MAX in H1, H2.
      assert (Z.land ks 0xffffff = ks - 0x1000000) as Hland.
      { change 0xffffff with (Z.ones 24). rewrite Z.land_ones by lia.
        rewrite <- (Z.mod_small (ks - 0x1000000) (2 ^ 24)) by lia.
        replace (ks - 0x1000000) with (ks + -1 * 2 ^ 24) by lia. by rewrite Z.mod_add. }
      unfold get_unicode_name. rewrite Hland.
      destruct (print_hex_spec true 4 (ks - 0x1000000) ltac:(lia) ltac:(lia)) as (Hx & Hl & Hw & _).
      set (ds := print_hex true 4 (ks - 0x1000000)) in *.
      cbn [length from_name].
      rewrite find_name_none by by apply notation_unicode.
      change (default 0 ((85 :: ds) !! 0%nat)) with 85. cbn [Z.eqb Pos.eqb orb].
      change (drop 1 (85 :: ds)) with (drop 0 ds). rewrite drop_0. unfold ds.
      rewrite parse_keysym_hex_print by lia.
      rewrite Z.gtb_ltb, (proj2 (Z.ltb_lt _ _)), (proj2 (Z.leb_le _ _)) by lia.
      unfold XKB_KEYSYM_UNICODE_OFFSET. cbn [andb]. cbn iota. lia.
    + unfold XKB_KEYSYM_MAX in *. set (ds := print_hex false 8 ks).
      cbn [length from_name]. rewrite find_name_none by done.
      change (default 0 ((48 :: 120 :: ds) !! 0%nat)) with 48.
      change (default 0 ((48 :: 120 :: ds) !! 1%nat)) with 120.
      cbn [Z.eqb Pos.eqb orb andb].
      change (drop 2 (48 :: 120 :: ds)) with (drop 0 ds). rewrite drop_0. unfold ds.
      rewrite parse_keysym_hex_print by lia. by rewrite Z.gtb_ltb, (proj2 (Z.ltb_ge _ _)) by (unfold XKB_KEYSYM_MAX; lia).
Qed.

Lemma keysym_name_round_trip_witness :
  exists name, keysym_name 0x1000234 = Some name /\ xkb_keysym_from_name name XKB_KEYSYM_NO_FLAGS = 0x1000234.
Proof. apply (keysym_name_round_trip 0x1000234). unfold XKB_KEYSYM_MAX. lia. Defined.

(** The search of the names is exact: it gives the index of the entry of the
    keysym in the table, when there is one. *)
Theorem find_keysym_index_spec (ks : Z) (i : Z) :
  find_keysym_index ks = Some i <->
  0 <= i /\ exists e, keysym_to_name !! Z.to_nat i = Some e /\ nk_keysym e = ks.
Proof.
  assert (forall j e, 0 <= j -> keysym_to_name !! Z.to_nat j = Some e ->
    find_keysym_index (nk_keysym e) = Some j) as Hfound.
  { intros j e Hj He. unfold find_keysym_index.
    pose proof max_explicit as Hm. rewrite forallb_forall in Hm. specialize (Hm e).
    apply list_elem_of_lookup_2 in He as Hin. apply list_elem_of_In in Hin. specialize (Hm Hin).
    apply andb_true_iff in Hm as [_ Hm]. rewrite Z.gtb_ltb, (proj2 (Z.ltb_ge _ _)) by lia.
    pose proof (lookup_lt_Some _ _ _ He) as Hlt. destruct sizes as [Hs _].
    apply (find_loop_found 13 _ 0 _ j e He eq_refl); [lia| |rewrite Hs; cbn; lia].
    unfold keysym_to_name_size. lia. }
  split; [|intros (Hi & e & He & <-); by apply Hfound].
  intros H. pose proof H as H'. unfold find_keysym_index in H'. destruct (ks >? XKB_KEYSYM_MAX_EXPLICIT); [done|].
  destruct (find_loop_entry _ _ _ _ _ (Z.le_refl 0) H') as (e & _ & He & Hks).
  apply list_elem_of_lookup in He as [n Hn].
  pose proof (Hfound (Z.of_nat n) e ltac:(lia)) as Hf. rewrite Nat2Z.id in Hf. specialize (Hf Hn). rewrite Hks, H in Hf.
  injection Hf as ->. split; [lia|]. exists e. rewrite Nat2Z.id. split; [exact Hn|exact Hks].
Qed.
