(* ===== verification/Scanner.v ===== *)
(** * The scanner of text files (src/scanner-utils.h)

    The input is the list of the bytes from [pos] on; the position is the
    number of bytes read.  The buffer is the list of the bytes before
    [buf_pos].  The positions of tokens, kept for messages, are left out. *)

From Stdlib Require Import ZArith Lia.
From stdpp Require Import base tactics list numbers.
From S2P Require Import Prelude Numbers Utf8.

Record scanner := mk_scanner {
  scn_rest : list Z;
  scn_buf : list Z
}.

(** [sizeof(s->buf)]. *)
Definition SCANNER_BUF_SIZE : nat := Z.to_nat 1024.

Definition scanner_init (string : list Z) : scanner := mk_scanner string [].

(** Zero at the end. *)
Definition scanner_peek (s : scanner) : Z := match scn_rest s with [] => 0 | c :: _ => c end.
Definition scanner_eof (s : scanner) : bool := match scn_rest s with [] => true | _ => false end.
Definition scanner_eol (s : scanner) : bool := scanner_peek s =? 10.

Definition advance (s : scanner) : scanner := mk_scanner (drop 1 (scn_rest s)) (scn_buf s).

Fixpoint skip_to_eol (l : list Z) : list Z :=
  match l with
  | [] => []
  | c :: l' => if c =? 10 then l else skip_to_eol l'
  end.

Definition scanner_skip_to_eol (s : scanner) : scanner :=
  mk_scanner (skip_to_eol (scn_rest s)) (scn_buf s).

(** The byte read, and the scanner after it. *)
Definition scanner_next (s : scanner) : Z * scanner :=
  match scn_rest s with
  | [] => (0, s)
  | c :: rest => (c, mk_scanner rest (scn_buf s))
  end.

Definition scanner_chr (s : scanner) (ch : Z) : option scanner :=
  if scanner_peek s =? ch then Some (advance s) else None.

Definition scanner_str (s : scanner) (string : list Z) : option scanner :=
  if bool_decide (take (length string) (scn_rest s) = string)
  then Some (mk_scanner (drop (length string) (scn_rest s)) (scn_buf s))
  else None.

Definition reset_buf (s : scanner) : scanner := mk_scanner (scn_rest s) [].

(** The scanner after the append, and whether there was room. *)
Definition scanner_buf_append (s : scanner) (ch : Z) : scanner * bool :=
  if Nat.leb SCANNER_BUF_SIZE (length (scn_buf s) + 1) then (s, false)
  else (mk_scanner (scn_rest s) (scn_buf s ++ [ch]), true).

(** [snprintf] of a string at the end of the buffer. *)
Definition scanner_buf_appends (s : scanner) (str : list Z) : option scanner :=
  if Nat.leb (SCANNER_BUF_SIZE - length (scn_buf s)) (length str) then None
  else Some (mk_scanner (scn_rest s) (scn_buf s ++ str)).

Definition is_octal (c : Z) : bool := between 48 55 c.

(** Up to four digits; a digit after 040 or more is read and refused. *)
Fixpoint oct_loop (fuel : nat) (s : scanner) (i : Z) (c : Z) : scanner * option Z :=
  match fuel with
  | O => (s, if i >? 0 then Some c else None)
  | S fuel =>
      if is_octal (scanner_peek s) then
        if c <? 32 then
          let (ch, s) := scanner_next s in
          oct_loop fuel s (i + 1) (u8 (c * 8 + (ch - 48)))
        else (snd (scanner_next s), None)
      else (s, if i >? 0 then Some c else None)
  end.

Definition scanner_oct (s : scanner) : scanner * option Z := oct_loop 4 s 0 0.

(** [c - offset], for a hexadecimal digit. *)
Definition hex_offset (c : Z) : Z :=
  if between 48 57 c then c - 48 else if between 97 102 c then c - 87 else c - 55.

Fixpoint hex_loop (fuel : nat) (s : scanner) (i : Z) (v : Z) : scanner * option Z :=
  match fuel with
  | O => (s, if i >? 0 then Some v else None)
  | S fuel =>
      if is_xdigit (scanner_peek s) then
        let (ch, s) := scanner_next s in
        hex_loop fuel s (i + 1) (u8 (v * 16 + hex_offset ch))
      else (s, if i >? 0 then Some v else None)
  end.

Definition scanner_hex (s : scanner) : scanner * option Z := hex_loop 2 s 0 0.

(** The scanner after the byte order mark, if the encoding is supported. *)
Definition scanner_check_supported_char_encoding (s : scanner) : option scanner :=
  match scanner_str s [0xef; 0xbb; 0xbf] with
  | Some s => Some s
  | None =>
      match scn_rest s with
      | c0 :: c1 :: _ =>
          if (c0 =? 0) || (c1 =? 0) then None
          else if negb (is_ascii c0) then None
          else Some s
      | _ => Some s
      end
  end.

(** The bytes of [utf32_to_utf8], without their terminating zero; U+FFFD when
    the code point has no encoding.  The result says whether there was room. *)
Definition scanner_buf_appends_code_point (s : scanner) (c : Z) : scanner * bool :=
  if Nat.leb (length (scn_buf s) + 5) SCANNER_BUF_SIZE then
    let (count, bytes) := utf32_to_utf8 c in
    let (count, bytes) := if count =? 0 then utf32_to_utf8 0xfffd else (count, bytes) in
    if count =? 0 then (s, false)
    else (mk_scanner (scn_rest s) (scn_buf s ++ take (Z.to_nat (count - 1)) bytes), true)
  else (s, false).

(** The count, and the number when the count is positive. *)
Definition scanner_dec_int64 (s : scanner) : Z * Z * scanner :=
  let (count, val) := parse_dec_to_uint64_t (scn_rest s) (length (scn_rest s)) in
  if count >? 0 then
    if val >=? 2 ^ 63 then (-1, 0, s)
    else (count, val, mk_scanner (drop (Z.to_nat count) (scn_rest s)) (scn_buf s))
  else (count, 0, s).

Definition scanner_hex_int64 (s : scanner) : Z * Z * scanner :=
  let (count, val) := parse_hex_to_uint64_t (scn_rest s) (length (scn_rest s)) in
  if count >? 0 then
    if val >=? 2 ^ 63 then (-1, 0, s)
    else (count, val, mk_scanner (drop (Z.to_nat count) (scn_rest s)) (scn_buf s))
  else (count, 0, s).

(** Up to the end of the escape sequence, of the string or of the line. *)
Fixpoint skip_escape (l : list Z) : list Z :=
  match l with
  | [] => []
  | c :: l' => if (c =? 10) || (c =? 34) || (c =? 125) then l else skip_escape l'
  end.

(** The scanner, and the code point of a well-formed sequence. *)
Definition scanner_unicode_code_point (s : scanner) : scanner * option Z :=
  match scanner_chr s 123 with
  | None => (s, None)
  | Some s =>
      let (count, cp) := parse_hex_to_uint32_t (scn_rest s) (length (scn_rest s)) in
      let s := if count >? 0 then mk_scanner (drop (Z.to_nat count) (scn_rest s)) (scn_buf s) else s in
      let rest := skip_escape (scn_rest s) in
      match scanner_chr (mk_scanner rest (scn_buf s)) 125 with
      | Some s' =>
          (s', if (count >? 0) && Nat.eqb (length rest) (length (scn_rest s)) && (cp <=? 0x10ffff) then Some cp else None)
      | None => (s, None)
      end
  end.
