(* ===== verification/Compose.v ===== *)
(** * Compose tables and states (src/compose)

    The ternary search tree of [table.h] in its array of nodes, the addition
    of a production ([add_production] of parser.c), the state that follows a
    sequence (state.c) and the iterator over a table (table.c).

    An offset into [nodes] is a natural number, 0 for none; the anonymous
    union of a node is tagged by [is_leaf].  Strings are lists of bytes;
    [utf8] is the array of the strings, each ended by a zero. *)

From Stdlib Require Import ZArith Lia.
From stdpp Require Import base tactics list numbers.
From S2P Require Import Prelude Numbers Keymap Utf8 Keysym.

Definition COMPOSE_MAX_LHS_LEN : nat := 10.
Definition XKB_COMPOSE_MAX_STRING_SIZE : nat := 256.
Definition MAX_COMPOSE_NODES : Z := 2 ^ 23.

Inductive node_data :=
| Internal (eqkid : nat)
| Leaf (utf8 : nat) (keysym : Z).

Record compose_node := mk_cnode {
  cn_keysym : Z;
  cn_lokid : nat;
  cn_hikid : nat;
  cn_data : node_data
}.

Record xkb_compose_table := mk_ctable {
  ct_nodes : list compose_node;
  ct_utf8 : list Z
}.

Definition dummy_node : compose_node := mk_cnode XKB_KEY_NoSymbol 0 0 (Leaf 0 XKB_KEY_NoSymbol).

(** The flags and the format are checked by the callers' guards. *)
Definition xkb_compose_table_new (format flags : Z) : option xkb_compose_table :=
  if negb (flags =? 0) then None
  else if negb (format =? 1) then None
  else Some (mk_ctable [dummy_node] [0]).

(** The string at an offset of the array. *)
Definition str_at (utf8 : list Z) (off : nat) : list Z := cstr (drop off utf8).

(** ** Productions *)

(** [lhs] has [len] keysyms; [keysym] and [string] are there when [has_keysym]
    and [has_string] are set.  The string is the C string of the buffer. *)
Record production := mk_production {
  p_lhs : list Z;
  p_keysym : option Z;
  p_string : option (list Z)
}.

Inductive kid := LoKid | HiKid | EqKid.

Definition set_kid (k : kid) (i : nat) (n : compose_node) : compose_node :=
  match k with
  | LoKid => mk_cnode (cn_keysym n) i (cn_hikid n) (cn_data n)
  | HiKid => mk_cnode (cn_keysym n) (cn_lokid n) i (cn_data n)
  | EqKid => mk_cnode (cn_keysym n) (cn_lokid n) (cn_hikid n) (Internal i)
  end.

Definition set_data (d : node_data) (n : compose_node) : compose_node :=
  mk_cnode (cn_keysym n) (cn_lokid n) (cn_hikid n) d.

Definition on_nodes (f : list compose_node -> list compose_node) (t : xkb_compose_table) :=
  mk_ctable (f (ct_nodes t)) (ct_utf8 t).

(** [pptr] is the node and the field that hold the offset of the next one. *)
Definition link (pptr : option (nat * kid)) (new : nat) (nodes : list compose_node) :=
  match pptr with
  | Some (i, k) => alter (set_kid k new) i nodes
  | None => nodes
  end.

Definition same_string (utf8 : list Z) (u : nat) (p : production) : bool :=
  match p_string p with
  | None => Nat.eqb u 0
  | Some s => negb (Nat.eqb u 0) && bool_decide (str_at utf8 u = s)
  end.

Definition same_keysym (ks : Z) (p : production) : bool :=
  match p_keysym p with
  | None => ks =? XKB_KEY_NoSymbol
  | Some k => negb (ks =? XKB_KEY_NoSymbol) && (ks =? k)
  end.

(** Where the string of the production goes: over the string of the previous
    entry when it fits, else at the end.  An offset has 31 bits. *)
Definition place_string (utf8 : list Z) (previous : option nat) (p : production) : nat * list Z :=
  match p_string p with
  | None => (O, utf8)
  | Some s =>
      let fresh := (Z.to_nat (Z.of_nat (length utf8) mod 2 ^ 31), utf8 ++ s ++ [0]) in
      match previous with
      | Some (S _ as u) =>
          if Nat.leb (length s) (length (str_at utf8 u))
          then (u, take u utf8 ++ s ++ [0] ++ drop (u + length s + 1) utf8)
          else fresh
      | _ => fresh
      end
  end.

(** The end of the sequence, in the node [i]. *)
Definition set_leaf (t : xkb_compose_table) (i : nat) (n : compose_node) (p : production)
    : xkb_compose_table :=
  let previous := match cn_data n with Leaf u ks => Some (u, ks) | Internal _ => None end in
  let duplicate := match previous with
                   | Some (u, ks) => same_string (ct_utf8 t) u p && same_keysym ks p
                   | None => false
                   end in
  if duplicate then t
  else
    let (u, utf8) := place_string (ct_utf8 t) (fst <$> previous) p in
    mk_ctable (alter (set_data (Leaf u (default XKB_KEY_NoSymbol (p_keysym p)))) i (ct_nodes t)) utf8.

(** The loop: [pos] is [lhs_pos].  A turn goes down the tree or to the next
    keysym. *)
Fixpoint add_loop (fuel : nat) (t : xkb_compose_table) (p : production) (pos curr : nat)
    (pptr : option (nat * kid)) : result xkb_compose_table :=
  match fuel with
  | O => Fault FaultFuel
  | S fuel =>
      match p_lhs p !! pos with
      | None => Fault FaultOutOfBounds
      | Some keysym =>
          let last := Nat.eqb (pos + 1) (length (p_lhs p)) in
          let new := length (ct_nodes t) in
          let t := if Nat.eqb curr 0
                   then on_nodes (fun l => link pptr new l ++ [mk_cnode keysym 0 0 (Internal 0)]) t
                   else t in
          let curr := if Nat.eqb curr 0 then new else curr in
          match ct_nodes t !! curr with
          | None => Fault FaultOutOfBounds
          | Some n =>
              if keysym <? cn_keysym n then add_loop fuel t p pos (cn_lokid n) (Some (curr, LoKid))
              else if keysym >? cn_keysym n
              then add_loop fuel t p pos (cn_hikid n) (Some (curr, HiKid))
              else if negb last then
                match cn_data n with
                | Leaf _ _ =>
                    add_loop fuel (on_nodes (alter (set_data (Internal 0)) curr) t) p (pos + 1) 0
                      (Some (curr, EqKid))
                | Internal eqkid => add_loop fuel t p (pos + 1) eqkid (Some (curr, EqKid))
                end
              else Ok (set_leaf t curr n p)
          end
      end
  end.

(** The fuel: each turn but the last goes to another node or to the next
    keysym. *)
Definition add_production (t : xkb_compose_table) (p : production) : result xkb_compose_table :=
  let size := Z.of_nat (length (ct_nodes t)) in
  if size + Z.of_nat (length (p_lhs p)) >=? MAX_COMPOSE_NODES then Ok t
  else add_loop (length (ct_nodes t) + length (p_lhs p) + 1) t p 0
         (if size =? 1 then O else 1%nat) None.

(** ** States *)

Record xkb_compose_state := mk_cstate {
  cs_table : xkb_compose_table;
  cs_prev_context : nat;
  cs_context : nat
}.

Definition xkb_compose_state_new (t : xkb_compose_table) (flags : Z) : option xkb_compose_state :=
  if negb (flags =? 0) then None else Some (mk_cstate t 0 0).

Inductive xkb_compose_feed_result := XKB_COMPOSE_FEED_IGNORED | XKB_COMPOSE_FEED_ACCEPTED.

Inductive xkb_compose_status :=
| XKB_COMPOSE_NOTHING
| XKB_COMPOSE_COMPOSING
| XKB_COMPOSE_COMPOSED
| XKB_COMPOSE_CANCELLED.

#[global] Instance xkb_compose_status_eq_dec : EqDecision xkb_compose_status.
Proof. solve_decision. Defined.

(** The loop through the siblings. *)
Fixpoint search_kids (fuel : nat) (nodes : list compose_node) (keysym : Z) (context : nat)
    : result nat :=
  if Nat.eqb context 0 then Ok O
  else match fuel with
  | O => Fault FaultFuel
  | S fuel =>
      match nodes !! context with
      | None => Fault FaultOutOfBounds
      | Some n =>
          if keysym <? cn_keysym n then search_kids fuel nodes keysym (cn_lokid n)
          else if keysym >? cn_keysym n then search_kids fuel nodes keysym (cn_hikid n)
          else Ok context
      end
  end.

Definition xkb_compose_state_feed (s : xkb_compose_state) (keysym : Z)
    : result (xkb_compose_feed_result * xkb_compose_state) :=
  if xkb_keysym_is_modifier keysym then Ok (XKB_COMPOSE_FEED_IGNORED, s)
  else
    let nodes := ct_nodes (cs_table s) in
    match nodes !! cs_context s with
    | None => Fault FaultOutOfBounds
    | Some n =>
        let context := match cn_data n with Leaf _ _ => 1%nat | Internal eqkid => eqkid end in
        let context := if Nat.eqb context 1 && Nat.eqb (length nodes) 1 then O else context in
        match search_kids (length nodes) nodes keysym context with
        | Ok context =>
            Ok (XKB_COMPOSE_FEED_ACCEPTED, mk_cstate (cs_table s) (cs_context s) context)
        | Fault f => Fault f
        end
    end.

Definition xkb_compose_state_reset (s : xkb_compose_state) : xkb_compose_state :=
  mk_cstate (cs_table s) 0 0.

Definition is_leaf (n : compose_node) : bool :=
  match cn_data n with Leaf _ _ => true | Internal _ => false end.

Definition xkb_compose_state_get_status (s : xkb_compose_state) : result xkb_compose_status :=
  match ct_nodes (cs_table s) !! cs_prev_context s, ct_nodes (cs_table s) !! cs_context s with
  | Some prev_node, Some node =>
      Ok (if Nat.eqb (cs_context s) 0 && negb (is_leaf prev_node) then XKB_COMPOSE_CANCELLED
          else if Nat.eqb (cs_context s) 0 then XKB_COMPOSE_NOTHING
          else if negb (is_leaf node) then XKB_COMPOSE_COMPOSING
          else XKB_COMPOSE_COMPOSED)
  | _, _ => Fault FaultOutOfBounds
  end.

Definition xkb_compose_state_get_utf8 (s : xkb_compose_state) (buffer : list Z) (size : Z)
    : result (Z * list Z) :=
  let failed := (0, if size >? 0 then 0 :: drop 1 buffer else buffer) in
  match ct_nodes (cs_table s) !! cs_context s with
  | None => Fault FaultOutOfBounds
  | Some n =>
      match cn_data n with
      | Internal _ => Ok failed
      | Leaf u ks =>
          if Nat.eqb u 0 && negb (ks =? XKB_KEY_NoSymbol) then
            let (ret, utf8) := xkb_keysym_to_utf8 ks XKB_KEYSYM_UTF8_MAX_SIZE in
            if (ret <? 0) || (ret =? 0) then Ok failed
            else Ok (snprintf_s buffer size (cstr utf8))
          else Ok (snprintf_s buffer size (str_at (ct_utf8 (cs_table s)) u))
      end
  end.

Definition xkb_compose_state_get_one_sym (s : xkb_compose_state) : result Z :=
  match ct_nodes (cs_table s) !! cs_context s with
  | None => Fault FaultOutOfBounds
  | Some n => Ok (match cn_data n with Leaf _ ks => ks | Internal _ => XKB_KEY_NoSymbol end)
  end.

(** ** Iterator *)

Record pending_node := mk_pending { pn_offset : nat; pn_processed : bool }.

Record xkb_compose_table_entry := mk_centry {
  en_sequence : list Z;
  en_keysym : Z;
  en_utf8 : list Z
}.

(** The stack has its last element first; [ci_sequence] is the array of the
    entry and [ci_length] its [sequence_length]. *)
Record xkb_compose_table_iterator := mk_citer {
  ci_table : xkb_compose_table;
  ci_sequence : list Z;
  ci_length : nat;
  ci_pending : list pending_node
}.

(** The left-most nodes below [offset], pushed on the stack. *)
Fixpoint push_left (fuel : nat) (nodes : list compose_node) (offset : nat)
    (stack : list pending_node) : result (list pending_node) :=
  match nodes !! offset with
  | None => Fault FaultOutOfBounds
  | Some n =>
      if Nat.eqb (cn_lokid n) 0 then Ok stack
      else match fuel with
      | O => Fault FaultFuel
      | S fuel => push_left fuel nodes (cn_lokid n) (mk_pending (cn_lokid n) false :: stack)
      end
  end.

Definition xkb_compose_table_iterator_new (t : xkb_compose_table)
    : result xkb_compose_table_iterator :=
  let seq := repeat 0 COMPOSE_MAX_LHS_LEN in
  if Nat.eqb (length (ct_nodes t)) 1 then Ok (mk_citer t seq 0 [])
  else match push_left (length (ct_nodes t)) (ct_nodes t) 1 [mk_pending 1 false] with
  | Ok stack => Ok (mk_citer t seq 0 stack)
  | Fault f => Fault f
  end.

(** The removal of processed nodes: the stack and the length, and whether to
    go on at [node_left]. *)
Fixpoint pop_processed (nodes : list compose_node) (stack : list pending_node) (len : nat)
    : result (list pending_node * nat * bool) :=
  match stack with
  | [] => Ok ([], len, false)
  | f :: rest =>
      if pn_processed f then
        match nodes !! pn_offset f, len with
        | Some n, S len =>
            if negb (Nat.eqb (cn_hikid n) 0)
            then Ok (mk_pending (cn_hikid n) false :: rest, len, true)
            else pop_processed nodes rest len
        | _, _ => Fault FaultOutOfBounds
        end
      else Ok (stack, len, false)
  end.

(** The [while (1)] loop from its start. *)
Fixpoint go_down (fuel : nat) (t : xkb_compose_table) (seq : list Z) (len : nat)
    (stack : list pending_node) : result (xkb_compose_table_entry * xkb_compose_table_iterator) :=
  match fuel, stack with
  | O, _ => Fault FaultFuel
  | _, [] => Fault FaultOutOfBounds
  | S fuel, f :: rest =>
      match ct_nodes t !! pn_offset f with
      | None => Fault FaultOutOfBounds
      | Some n =>
          if Nat.leb (length seq) len then Fault FaultOutOfBounds
          else
            let seq := <[len := cn_keysym n]> seq in
            let len := S len in
            let stack := mk_pending (pn_offset f) true :: rest in
            match cn_data n with
            | Leaf u ks =>
                Ok (mk_centry (take len seq) ks (str_at (ct_utf8 t) u), mk_citer t seq len stack)
            | Internal eqkid =>
                match push_left (length (ct_nodes t)) (ct_nodes t) eqkid
                        (mk_pending eqkid false :: stack) with
                | Ok stack => go_down fuel t seq len stack
                | Fault e => Fault e
                end
            end
      end
  end.

Definition xkb_compose_table_iterator_next (it : xkb_compose_table_iterator)
    : result (option xkb_compose_table_entry * xkb_compose_table_iterator) :=
  let t := ci_table it in
  let nodes := ct_nodes t in
  let down stack len :=
    match go_down (length nodes) t (ci_sequence it) len stack with
    | Ok (e, it) => Ok (Some e, it)
    | Fault f => Fault f
    end in
  match pop_processed nodes (ci_pending it) (ci_length it) with
  | Fault f => Fault f
  | Ok ([], len, _) => Ok (None, mk_citer t (ci_sequence it) len [])
  | Ok ((f :: _) as stack, len, to_left) =>
      if to_left then
        match push_left (length nodes) nodes (pn_offset f) stack with
        | Ok stack => down stack len
        | Fault e => Fault e
        end
      else down stack len
  end.
