(* ===== verification/ComposeTree.v ===== *)
(** * The tree of a compose table

    The array of nodes of a table represents a ternary search tree
    ([repr]); [add_production] inserts in that tree.  The strings of the
    leaves do not overlap in the array of strings. *)

From Stdlib Require Import ZArith Lia.
From stdpp Require Import base tactics list numbers.
From S2P Require Import Prelude Numbers Keymap Utf8 Keysym Compose.

(** A node has its offset, its keysym, its lower and higher siblings, and
    either the result of a sequence (offset of the string and keysym) or the
    tree of the next keysyms. *)
Inductive tst :=
| TNil
| TNode (i : nat) (k : Z) (lo hi : tst) (leaf : option (nat * Z)) (eq : tst).

#[global] Instance tst_eq_dec : EqDecision tst.
Proof. solve_decision. Defined.

Definition addr (t : tst) : nat := match t with TNil => O | TNode i _ _ _ _ _ => i end.

Fixpoint addrs (t : tst) : list nat :=
  match t with
  | TNil => []
  | TNode i _ lo hi _ eq => i :: addrs lo ++ addrs hi ++ addrs eq
  end.

Definition data_of (leaf : option (nat * Z)) (eq : tst) : node_data :=
  match leaf with Some (u, s) => Leaf u s | None => Internal (addr eq) end.

Fixpoint repr (nodes : list compose_node) (t : tst) : Prop :=
  match t with
  | TNil => True
  | TNode i k lo hi leaf eq =>
      i <> O /\ nodes !! i = Some (mk_cnode k (addr lo) (addr hi) (data_of leaf eq)) /\
      repr nodes lo /\ repr nodes hi /\ repr nodes eq
  end.

(** The keysyms that may come next. *)
Fixpoint heads (t : tst) : list Z :=
  match t with
  | TNil => []
  | TNode _ k lo hi _ _ => heads lo ++ k :: heads hi
  end.

(** Siblings are ordered; a node has a result or a next tree. *)
Fixpoint tree_ok (t : tst) : Prop :=
  match t with
  | TNil => True
  | TNode i k lo hi leaf eq =>
      (leaf = None <-> eq <> TNil) /\
      Forall (fun x => x < k) (heads lo) /\ Forall (fun x => k < x) (heads hi) /\
      tree_ok lo /\ tree_ok hi /\ tree_ok eq
  end.

(** The result of a sequence. *)
Fixpoint find (t : tst) (seq : list Z) : option (nat * Z) :=
  match t, seq with
  | TNode _ k lo hi leaf eq, a :: rest =>
      if a <? k then find lo seq
      else if a >? k then find hi seq
      else match rest with [] => leaf | _ => find eq rest end
  | _, _ => None
  end.

(** ** Insertion *)

Fixpoint chain (seq : list Z) (next : nat) (r : nat * Z) : tst :=
  match seq with
  | [] => TNil
  | [a] => TNode next a TNil TNil (Some r) TNil
  | a :: rest => TNode next a TNil TNil None (chain rest (S next) r)
  end.

Fixpoint insert (t : tst) (seq : list Z) (next : nat) (r : nat * Z) : tst :=
  match t, seq with
  | TNil, _ => chain seq next r
  | TNode i k lo hi leaf eq, a :: rest =>
      if a <? k then TNode i k (insert lo seq next r) hi leaf eq
      else if a >? k then TNode i k lo (insert hi seq next r) leaf eq
      else match rest with
           | [] => TNode i k lo hi (Some r) TNil
           | _ => TNode i k lo hi None (insert eq rest next r)
           end
  | _, [] => t
  end.

(** ** What the loop does to the nodes *)

Fixpoint chain_nodes (seq : list Z) (next : nat) (r : nat * Z) : list compose_node :=
  match seq with
  | [] => []
  | [a] => [mk_cnode a 0 0 (Leaf (fst r) (snd r))]
  | a :: rest => mk_cnode a 0 0 (Internal (S next)) :: chain_nodes rest (S next) r
  end.

(** Where the search of a sequence ends: at a missing kid, with the keysyms
    left, or at the node of the last keysym. *)
Fixpoint locate (t : tst) (seq : list Z) (pptr : option (nat * kid))
    : (option (nat * kid) * list Z) + nat :=
  match t, seq with
  | TNode i k lo hi leaf eq, a :: rest =>
      if a <? k then locate lo seq (Some (i, LoKid))
      else if a >? k then locate hi seq (Some (i, HiKid))
      else match rest with [] => inr i | _ => locate eq rest (Some (i, EqKid)) end
  | _, _ => inl (pptr, seq)
  end.

Definition relocate (nodes : list compose_node) (loc : (option (nat * kid) * list Z) + nat)
    (r : nat * Z) : list compose_node :=
  match loc with
  | inl (pptr, rest) => link pptr (length nodes) nodes ++ chain_nodes rest (length nodes) r
  | inr i => alter (set_data (Leaf (fst r) (snd r))) i nodes
  end.

(** The result of the production, from the previous one of the sequence, and
    the array of strings with it. *)
Definition finish (utf8 : list Z) (previous : option (nat * Z)) (p : production)
    : (nat * Z) * list Z :=
  let fresh := place_string utf8 (fst <$> previous) p in
  let new := ((fst fresh, default XKB_KEY_NoSymbol (p_keysym p)), snd fresh) in
  match previous with
  | Some (u, ks) => if same_string utf8 u p && same_keysym ks p then ((u, ks), utf8) else new
  | None => new
  end.

Lemma length_link pptr new nodes : length (link pptr new nodes) = length nodes.
Proof. destruct pptr as [[i k]|]; cbn; [apply length_alter | done]. Qed.

Lemma set_leaf_eq nodes utf8 i n p :
  nodes !! i = Some n ->
  set_leaf (mk_ctable nodes utf8) i n p =
    let (r, utf8') := finish utf8 (match cn_data n with Leaf u ks => Some (u, ks) | _ => None end) p in
    mk_ctable (alter (set_data (Leaf (fst r) (snd r))) i nodes) utf8'.
Proof.
  intros Hn. unfold set_leaf, finish. cbn [ct_utf8 ct_nodes].
  destruct (cn_data n) as [e|u ks] eqn:Hd; cbn.
  - by destruct (place_string utf8 None p).
  - destruct (same_string utf8 u p && same_keysym ks p); cbn.
    + f_equal. symmetry. apply list_eq. intros j. destruct (decide (i = j)) as [<-|].
      * rewrite list_lookup_alter_eq, Hn. cbn. unfold set_data. rewrite <- Hd. by destruct n.
      * by rewrite list_lookup_alter_ne.
    + by destruct (place_string utf8 (Some u) p).
Qed.

Lemma app_alter_last {A} (f : A -> A) l x n :
  n = length l -> alter f n (l ++ [x]) = l ++ [f x].
Proof. intros ->. induction l as [|y l IH]; cbn; [done|]. by rewrite IH. Qed.

Lemma drop_cons_lookup {A} (l : list A) n x rest :
  drop n l = x :: rest -> l !! n = Some x /\ drop (n + 1) l = rest /\ length l = (n + S (length rest))%nat.
Proof.
  intros H. split; [|split].
  - rewrite <- (Nat.add_0_r n), <- lookup_drop, H. done.
  - by rewrite <- drop_drop, H.
  - apply (f_equal length) in H as Hl. rewrite length_drop in Hl. cbn in Hl. lia.
Qed.

(** Beyond the tree, the loop adds a chain of nodes. *)
Lemma add_loop_chain p rest : forall fuel nodes utf8 pos pptr,
  rest <> [] -> drop pos (p_lhs p) = rest -> (length rest <= fuel)%nat -> nodes <> [] ->
  add_loop fuel (mk_ctable nodes utf8) p pos 0 pptr =
    let (r, utf8') := finish utf8 None p in
    Ok (mk_ctable (link pptr (length nodes) nodes ++ chain_nodes rest (length nodes) r) utf8').
Proof.
  induction rest as [|a rest IH]; intros fuel nodes utf8 pos pptr Hne Hdrop Hfuel Hn; [done|].
  destruct fuel as [|fuel]; [cbn in Hfuel; lia|].
  destruct (drop_cons_lookup _ _ _ _ Hdrop) as (Ha & Hdrop' & Hlen).
  cbn [add_loop]. rewrite Ha. cbn [Nat.eqb]. unfold on_nodes. cbn [ct_nodes ct_utf8].
  pose proof (length_link pptr (length nodes) nodes) as Hl.
  rewrite (list_lookup_middle _ [] _ (length nodes)) by done. cbn [cn_keysym cn_data cn_lokid cn_hikid].
  rewrite Z.ltb_irrefl, Z.gtb_ltb, Z.ltb_irrefl, Hlen.
  destruct rest as [|b rest].
  - rewrite (proj2 (Nat.eqb_eq _ _)) by (cbn; lia). cbn [negb].
    rewrite set_leaf_eq by (apply list_lookup_middle; done). cbn [cn_data].
    destruct (finish utf8 None p) as [r utf8'] eqn:Hf. do 2 f_equal.
    by rewrite app_alter_last by done.
  - rewrite (proj2 (Nat.eqb_neq _ _)) by (cbn; lia). cbn [negb].
    rewrite IH; [|done|done|cbn in *; lia|by destruct (link pptr (length nodes) nodes)].
    destruct (finish utf8 None p) as [r utf8']. do 2 f_equal. cbn [link].
    rewrite length_app, Hl. cbn [length]. rewrite app_alter_last, <- app_assoc by done.
    cbn [set_kid cn_keysym cn_lokid cn_hikid app chain_nodes].
    by replace (length nodes + 1)%nat with (S (length nodes)) by lia.
Qed.

Lemma alter_alter {A} (f g : A -> A) (i : nat) (l : list A) : alter f i (alter g i l) = alter (fun x => f (g x)) i l.
Proof. revert i. induction l as [|x l IH]; intros [|i]; cbn; [done..|]. by rewrite IH. Qed.

Lemma leaf_no_eq (r : nat * Z) eq : (Some r = None <-> eq <> TNil) -> eq = TNil.
Proof. destruct eq; [done|]. intros [_ H]. by discriminate H. Qed.

(** The loop follows the search of the sequence. *)
Lemma add_loop_locate p t : forall fuel nodes utf8 pos pptr seq,
  repr nodes t -> tree_ok t -> drop pos (p_lhs p) = seq -> seq <> [] ->
  (length (addrs t) + length seq <= fuel)%nat -> nodes <> [] ->
  add_loop fuel (mk_ctable nodes utf8) p pos (addr t) pptr =
    let (r, utf8') := finish utf8 (find t seq) p in
    Ok (mk_ctable (relocate nodes (locate t seq pptr) r) utf8').
Proof.
  induction t as [|i k lo IHlo hi IHhi leaf eq IHeq];
    intros fuel nodes utf8 pos pptr seq Hr Hok Hdrop Hne Hfuel Hn.
  { cbn in *. by apply add_loop_chain. }
  destruct seq as [|a rest]; [done|].
  destruct (drop_cons_lookup _ _ _ _ Hdrop) as (Ha & Hdrop' & Hlen).
  destruct fuel as [|fuel]; [cbn in Hfuel; lia|].
  destruct Hr as (Hi & Hnode & Hlo & Hhi & Heq). destruct Hok as (Hle & Hokl & Hokh & Hok1 & Hok2 & Hok3).
  cbn [addrs length] in Hfuel. rewrite !length_app in Hfuel.
  cbn [add_loop addr]. rewrite Ha, (proj2 (Nat.eqb_neq i 0) Hi). cbn [ct_nodes].
  rewrite Hnode. cbn [cn_keysym cn_lokid cn_hikid cn_data find locate].
  destruct (a <? k); [apply IHlo; try done; cbn in *; lia|].
  destruct (a >? k); [apply IHhi; try done; cbn in *; lia|].
  rewrite Hlen. destruct rest as [|b rest].
  - rewrite (proj2 (Nat.eqb_eq _ _)) by (cbn; lia). cbn [negb].
    rewrite (set_leaf_eq _ _ _ _ _ Hnode). cbn [cn_data].
    destruct leaf as [[u ks]|]; by destruct (finish _ _ _).
  - rewrite (proj2 (Nat.eqb_neq _ _)) by (cbn; lia). cbn [negb].
    destruct leaf as [[u ks]|]; cbn [data_of].
    + apply leaf_no_eq in Hle as ->. unfold on_nodes. cbn [ct_nodes ct_utf8 find locate relocate].
      rewrite add_loop_chain with (rest := b :: rest);
        [|done|done|cbn in *; lia|intros E; apply Hn, length_zero_iff_nil; apply (f_equal length) in E;
          by rewrite length_alter in E].
      destruct (finish utf8 None p) as [r utf8']. cbn [link].
      by rewrite length_alter, alter_alter.
    + apply IHeq; try done. cbn in *. lia.
Qed.

(** ** The new array represents the new tree *)

Lemma repr_frame nodes nodes' t :
  repr nodes t -> (forall i, i ∈ addrs t -> nodes' !! i = nodes !! i) -> repr nodes' t.
Proof.
  induction t as [|i k lo IHlo hi IHhi leaf eq IHeq]; [done|]. cbn [repr addrs].
  intros (Hi & Hn & Hlo & Hhi & Heq) Hf. split; [done|]. split; [by rewrite Hf by left|].
  split; [apply IHlo|split; [apply IHhi|apply IHeq]]; try done; intros j Hj; apply Hf; right;
    rewrite !elem_of_app; tauto.
Qed.

Lemma chain_repr seq : forall pre r,
  pre <> [] -> repr (pre ++ chain_nodes seq (length pre) r) (chain seq (length pre) r).
Proof.
  induction seq as [|a seq IH]; intros pre r Hpre; [done|].
  assert (length pre <> O) as Hl by by destruct pre.
  destruct seq as [|b seq].
  - cbn [chain chain_nodes repr]. split; [done|]. split; [|done].
    rewrite list_lookup_middle by done. by destruct r.
  - change (chain (a :: b :: seq) (length pre) r)
      with (TNode (length pre) a TNil TNil None (chain (b :: seq) (S (length pre)) r)).
    change (chain_nodes (a :: b :: seq) (length pre) r)
      with (mk_cnode a 0 0 (Internal (S (length pre))) :: chain_nodes (b :: seq) (S (length pre)) r).
    specialize (IH (pre ++ [mk_cnode a 0 0 (Internal (S (length pre)))]) r).
    rewrite length_app, Nat.add_1_r, <- app_assoc in IH.
    cbn [repr]. split; [done|]. split; [|split; [done|split; [done|apply IH; by destruct pre]]].
    rewrite list_lookup_middle by done. do 2 f_equal. cbn [data_of]. f_equal. by destruct seq.
Qed.

Lemma chain_addrs seq : forall n r, addrs (chain seq n r) = List.seq n (length seq).
Proof.
  induction seq as [|a seq IH]; intros n r; [done|]. destruct seq as [|b seq]; [done|].
  change (chain (a :: b :: seq) n r) with (TNode n a TNil TNil None (chain (b :: seq) (S n) r)).
  cbn [addrs app]. by rewrite IH.
Qed.

(** What [relocate] changes. *)
Lemma relocate_frame nodes t seq pptr r j :
  (j < length nodes)%nat -> j ∉ addrs t -> (fst <$> pptr) <> Some j ->
  relocate nodes (locate t seq pptr) r !! j = nodes !! j.
Proof.
  revert seq pptr. induction t as [|i k lo IHlo hi IHhi leaf eq IHeq]; intros seq pptr Hj Hin Hp.
  - cbn [locate relocate]. rewrite lookup_app_l by (by rewrite length_link).
    destruct pptr as [[i kd]|]; [|done]. cbn in Hp |- *. by rewrite list_lookup_alter_ne by congruence.
  - cbn [addrs] in Hin. rewrite elem_of_cons, !elem_of_app in Hin. destruct seq as [|a rest].
    { cbn [locate relocate]. rewrite lookup_app_l by (by rewrite length_link).
      destruct pptr as [[i' kd]|]; [|done]. cbn in Hp |- *.
      by rewrite list_lookup_alter_ne by congruence. }
    cbn [locate]. destruct (a <? k); [apply IHlo; [done|tauto|cbn; intros [= ->]; tauto]|].
    destruct (a >? k); [apply IHhi; [done|tauto|cbn; intros [= ->]; tauto]|].
    destruct rest as [|b rest]; [|apply IHeq; [done|tauto|cbn; intros [= ->]; tauto]].
    cbn [relocate]. apply list_lookup_alter_ne. intros ->. tauto.
Qed.

(** The node that holds the offset of the tree gets the offset of the new tree. *)
Lemma relocate_parent nodes t seq j kd r n :
  nodes !! j = Some n -> j ∉ addrs t -> seq <> [] ->
  relocate nodes (locate t seq (Some (j, kd))) r !! j =
    Some (match t with TNil => set_kid kd (length nodes) n | _ => n end).
Proof.
  intros Hj Hin Hs. pose proof (lookup_lt_Some _ _ _ Hj) as Hlt. destruct t as [|i k lo hi leaf eq].
  - cbn [locate relocate]. rewrite lookup_app_l by (by rewrite length_link). cbn [link].
    by rewrite list_lookup_alter_eq, Hj.
  - cbn [addrs] in Hin. rewrite elem_of_cons, !elem_of_app in Hin. destruct seq as [|a rest]; [done|].
    cbn [locate]. rewrite <- Hj. destruct (a <? k); [apply relocate_frame; [done|tauto|cbn; intros [= ->]; tauto]|].
    destruct (a >? k); [apply relocate_frame; [done|tauto|cbn; intros [= ->]; tauto]|].
    destruct rest as [|b rest]; [|apply relocate_frame; [done|tauto|cbn; intros [= ->]; tauto]].
    cbn [relocate]. apply list_lookup_alter_ne. intros ->. tauto.
Qed.

Lemma addr_chain seq n r : seq <> [] -> addr (chain seq n r) = n.
Proof. by destruct seq as [|a [|b seq]]. Qed.

Lemma addr_insert t seq n r :
  seq <> [] -> addr (insert t seq n r) = match t with TNil => n | _ => addr t end.
Proof.
  intros Hs. destruct t as [|i k lo hi leaf eq]; [by apply addr_chain|].
  destruct seq as [|a rest]; [done|]. cbn [insert]. destruct (a <? k); [done|].
  destruct (a >? k); [done|]. by destruct rest.
Qed.

Lemma relocate_repr t : forall nodes seq pptr r,
  repr nodes t -> tree_ok t -> NoDup (addrs t) -> Forall (fun i => i < length nodes)%nat (addrs t) ->
  (forall j, (fst <$> pptr) = Some j -> j ∉ addrs t) -> seq <> [] -> nodes <> [] ->
  repr (relocate nodes (locate t seq pptr) r) (insert t seq (length nodes) r).
Proof.
  induction t as [|i k lo IHlo hi IHhi leaf eq IHeq];
    intros nodes seq pptr r Hr Hok Hnd Hlt Hp Hs Hn.
  { cbn [locate relocate insert]. rewrite <- (length_link pptr (length nodes) nodes) at 2 3.
    apply chain_repr. intros E. apply Hn, length_zero_iff_nil.
    apply (f_equal length) in E. by rewrite length_link in E. }
  destruct seq as [|a rest]; [done|].
  destruct Hr as (Hi & Hnode & Hlo & Hhi & Heq). destruct Hok as (Hle & Hokl & Hokh & Hok1 & Hok2 & Hok3).
  cbn [addrs] in Hnd, Hlt. apply Forall_cons_1 in Hlt as [Hilt Hlt].
  rewrite !list.Forall_app in Hlt. destruct Hlt as (Hltlo & Hlthi & Hlteq).
  apply list.NoDup_cons in Hnd as [Hnin Hnd]. rewrite !elem_of_app in Hnin.
  apply list.NoDup_app in Hnd as (Hndlo & Hdlo & Hnd). apply list.NoDup_app in Hnd as (Hndhi & Hdhi & Hndeq).
  assert (forall x, x ∈ addrs lo -> x ∉ addrs hi /\ x ∉ addrs eq) as Hdlo'.
  { intros x Hx. specialize (Hdlo x Hx). rewrite elem_of_app in Hdlo. tauto. }
  assert (forall s' sq pp t', repr nodes t' -> Forall (fun i => i < length nodes)%nat (addrs t') ->
    (forall x, x ∈ addrs t' -> x ∉ addrs s' /\ (fst <$> pp) <> Some x) ->
    repr (relocate nodes (locate s' sq pp) r) t') as Hframe.
  { intros s' sq pp t' Hr' Hl' Hd. apply (repr_frame nodes); [done|]. intros x Hx.
    rewrite list.Forall_forall in Hl'. apply relocate_frame; [by apply Hl'|by apply Hd..]. }
  assert (forall (kd : kid) x, x ∈ addrs lo \/ x ∈ addrs hi \/ x ∈ addrs eq ->
    (fst <$> Some (i, kd)) <> Some x) as Hix by (intros kd x Hx [= ->]; tauto).
  cbn [locate insert]. destruct (a <? k); [|destruct (a >? k); [|destruct rest as [|b rest]]].
  - cbn [repr]. split; [done|]. split; [|split; [|split]].
    + rewrite (relocate_parent _ _ _ _ _ _ _ Hnode) by tauto. rewrite addr_insert by done.
      by destruct lo.
    + apply IHlo; try done. intros j [= <-]. tauto.
    + apply Hframe; [done..|]. intros x Hx. split; [intros Hxl; by destruct (Hdlo' x Hxl) | apply Hix; tauto].
    + apply Hframe; [done..|]. intros x Hx. split; [intros Hxl; by destruct (Hdlo' x Hxl) | apply Hix; tauto].
  - cbn [repr]. split; [done|]. split; [|split; [|split]].
    + rewrite (relocate_parent _ _ _ _ _ _ _ Hnode) by tauto. rewrite addr_insert by done.
      by destruct hi.
    + apply Hframe; [done..|]. intros x Hx. split; [by apply Hdlo' | apply Hix; tauto].
    + apply IHhi; try done. intros j [= <-]. tauto.
    + apply Hframe; [done..|]. intros x Hx. split; [intros Hxl; by apply (Hdhi x Hxl) | apply Hix; tauto].
  - cbn [repr relocate]. split; [done|]. split; [|split; [|split; [|done]]].
    + rewrite list_lookup_alter_eq, Hnode. by destruct r.
    + apply (repr_frame nodes); [done|]. intros x Hx. apply list_lookup_alter_ne. intros ->. tauto.
    + apply (repr_frame nodes); [done|]. intros x Hx. apply list_lookup_alter_ne. intros ->. tauto.
  - cbn [repr]. split; [done|]. split; [|split; [|split]].
    + rewrite (relocate_parent _ _ _ _ _ _ _ Hnode) by (tauto || done). cbn [data_of]. rewrite addr_insert by done.
      destruct leaf as [r'|]; [by apply leaf_no_eq in Hle as ->|]. destruct eq; [by destruct Hle as [[] _]|].
      done.
    + apply Hframe; [done..|]. intros x Hx. split; [by apply Hdlo' | apply Hix; tauto].
    + apply Hframe; [done..|]. intros x Hx. split; [by apply Hdhi | apply Hix; tauto].
    + apply IHeq; try done. intros j [= <-]. tauto.
Qed.

(** ** The new tree *)

Lemma addrs_insert t : forall seq n r x,
  x ∈ addrs (insert t seq n r) -> x ∈ addrs t \/ (n <= x < n + length seq)%nat.
Proof.
  induction t as [|i k lo IHlo hi IHhi leaf eq IHeq]; intros seq n r x.
  - cbn [insert]. rewrite chain_addrs, elem_of_seq. auto.
  - destruct seq as [|a rest]; [by left|]. cbn [insert].
    destruct (a <? k); [|destruct (a >? k); [|destruct rest as [|b rest]]]; cbn [addrs];
      rewrite ?elem_of_cons, ?elem_of_app.
    + intros [?|[H%IHlo|[?|?]]]; tauto.
    + intros [?|[?|[H%IHhi|?]]]; tauto.
    + intros [?|[?|[?|?%not_elem_of_nil]]]; tauto.
    + intros [?|[?|[?|H%IHeq]]]; try tauto. destruct H as [?|H]; [tauto|]. right. cbn in *. lia.
Qed.

Lemma nodup_insert t : forall seq n r,
  NoDup (addrs t) -> Forall (fun i => i < n)%nat (addrs t) -> NoDup (addrs (insert t seq n r)).
Proof.
  induction t as [|i k lo IHlo hi IHhi leaf eq IHeq]; intros seq n r Hnd Hlt.
  { cbn [insert]. rewrite chain_addrs. apply NoDup_seq. }
  destruct seq as [|a rest]; [done|]. pose proof Hlt as Hall. rewrite list.Forall_forall in Hall.
  cbn [addrs] in Hnd, Hlt, Hall. apply Forall_cons_1 in Hlt as [Hilt Hlt].
  rewrite !list.Forall_app in Hlt. destruct Hlt as (Hltlo & Hlthi & Hlteq).
  assert (forall x s, x ∈ i :: addrs lo ++ addrs hi ++ addrs eq -> ~ (n <= x < n + s)%nat) as Hno.
  { intros x s Hx ?. specialize (Hall x Hx). cbn in Hall. lia. }
  setoid_rewrite elem_of_cons in Hno. setoid_rewrite elem_of_app in Hno. setoid_rewrite elem_of_app in Hno.
  apply list.NoDup_cons in Hnd as [Hnin Hnd]. rewrite !elem_of_app in Hnin.
  apply list.NoDup_app in Hnd as (Hndlo & Hdlo & Hnd). setoid_rewrite elem_of_app in Hdlo.
  apply list.NoDup_app in Hnd as (Hndhi & Hdhi & Hndeq).
  cbn [insert].
  destruct (a <? k); [|destruct (a >? k); [|destruct rest as [|b rest]]]; cbn [addrs];
    (apply list.NoDup_cons; split; [rewrite !elem_of_app|
       apply list.NoDup_app; split; [|split; [|apply list.NoDup_app; split; [|split]]]]);
    try setoid_rewrite elem_of_app; auto using NoDup_nil_2.
  - intros [H%addrs_insert|[?|?]]; try tauto. destruct H as [?|H]; [tauto|]. by apply (Hno i _ (or_introl eq_refl)) in H.
  - intros x [Hx|Hx]%addrs_insert Hx'; [by apply (Hdlo x)|]. eapply Hno; [|exact Hx]. tauto.
  - intros [?|[H%addrs_insert|?]]; try tauto. destruct H as [?|H]; [tauto|]. by apply (Hno i _ (or_introl eq_refl)) in H.
  - intros x Hx [[Hx'|Hx']%addrs_insert|Hx']; [apply (Hdlo x Hx); tauto| |apply (Hdlo x Hx); tauto].
    eapply Hno; [|exact Hx']. tauto.
  - intros x [Hx|Hx]%addrs_insert Hx'; [by apply (Hdhi x)|]. eapply Hno; [|exact Hx]. tauto.
  - intros [?|[?|?%not_elem_of_nil]]; tauto.
  - intros x Hx [?|?%not_elem_of_nil]; [|done]. apply (Hdlo x Hx). tauto.
  - by intros x Hx ?%not_elem_of_nil.
  - intros [?|[?|H%addrs_insert]]; try tauto. destruct H as [?|H]; [tauto|]. by apply (Hno i _ (or_introl eq_refl)) in H.
  - intros x Hx [Hx'|[Hx'|Hx']%addrs_insert]; [apply (Hdlo x Hx); tauto|apply (Hdlo x Hx); tauto|].
    eapply Hno; [|exact Hx']. tauto.
  - intros x Hx [Hx'|Hx']%addrs_insert; [by apply (Hdhi x)|]. eapply Hno; [|exact Hx']. tauto.
Qed.

Lemma heads_insert t a rest n r : heads (insert t (a :: rest) n r) ⊆ a :: heads t.
Proof.
  induction t as [|i k lo IHlo hi IHhi leaf eq IHeq].
  - by destruct rest.
  - cbn [insert]. destruct (a <? k); [|destruct (a >? k); [|by destruct rest; intros x Hx; right]];
      cbn [heads]; intros x; rewrite !elem_of_cons, !elem_of_app, !elem_of_cons.
    + intros [Hx%IHlo|?]; [|tauto]. rewrite elem_of_cons in Hx. tauto.
    + intros [?|[?|Hx%IHhi]]; [tauto..|]. rewrite elem_of_cons in Hx. tauto.
Qed.

Lemma tree_ok_chain seq n r : seq <> [] -> tree_ok (chain seq n r) /\ chain seq n r <> TNil.
Proof.
  revert n. induction seq as [|a seq IH]; intros n Hs; [done|]. destruct seq as [|b seq].
  { split; [|done]. cbn. split; [|done]. split; [done|]. intros H. by destruct H. }
  change (chain (a :: b :: seq) n r) with (TNode n a TNil TNil None (chain (b :: seq) (S n) r)).
  split; [|done]. destruct (IH (S n)) as [Hok Hne]; [done|]. cbn [tree_ok heads].
  split; [done|]. split; [apply Forall_nil_2|]. by split; [apply Forall_nil_2|].
Qed.

Lemma insert_not_nil t seq n r : seq <> [] -> insert t seq n r <> TNil.
Proof.
  intros Hs. destruct t as [|i k lo hi leaf eq]; [by apply tree_ok_chain|].
  destruct seq as [|a rest]; [done|]. cbn [insert]. destruct (a <? k); [done|].
  destruct (a >? k); [done|]. by destruct rest.
Qed.

Lemma tree_ok_insert t : forall seq n r, seq <> [] -> tree_ok t -> tree_ok (insert t seq n r).
Proof.
  induction t as [|i k lo IHlo hi IHhi leaf eq IHeq]; intros seq n r Hs Hok.
  { by apply tree_ok_chain. }
  destruct seq as [|a rest]; [done|]. destruct Hok as (Hle & Hokl & Hokh & Hok1 & Hok2 & Hok3).
  rewrite list.Forall_forall in Hokl, Hokh. cbn [insert].
  destruct (Z.ltb_spec a k); [|destruct (Z.gtb_spec a k); [|destruct rest as [|b rest]]]; cbn [tree_ok].
  - do 2 (split; [done || idtac|]).
    + apply list.Forall_forall. intros x [->|Hx]%heads_insert%elem_of_cons; auto.
    + rewrite list.Forall_forall. auto.
  - split; [done|]. rewrite !list.Forall_forall. split; [done|]. split; [|auto].
    intros x [->|Hx]%heads_insert%elem_of_cons; [lia|auto].
  - split; [by split; [|intros []]|]. rewrite !list.Forall_forall. auto.
  - split; [split; [intros _; by apply insert_not_nil | done]|]. rewrite !list.Forall_forall.
    do 4 (split; [done|]). by apply IHeq.
Qed.

(** ** Results *)

(** One sequence begins with the other. *)
Definition related (s s' : list Z) : Prop := s `prefix_of` s' \/ s' `prefix_of` s.

Lemma related_cons a s a' s' : related (a :: s) (a' :: s') <-> a = a' /\ related s s'.
Proof.
  unfold related. split.
  - intros [H|H]; split; first [by apply prefix_cons_inv_1 in H | apply prefix_cons_inv_2 in H; auto].
  - intros [-> [H|H]]; [left|right]; by apply prefix_cons.
Qed.

Lemma related_nil_l s : related [] s.
Proof. left. apply prefix_nil. Qed.
Lemma related_nil_r s : related s [].
Proof. right. apply prefix_nil. Qed.

Lemma find_nil t : find t [] = None.
Proof. by destruct t. Qed.

Lemma find_node_eq i k lo hi leaf eq rest :
  find (TNode i k lo hi leaf eq) (k :: rest) = match rest with [] => leaf | _ => find eq rest end.
Proof. cbn [find]. by rewrite Z.ltb_irrefl, Z.gtb_ltb, Z.ltb_irrefl. Qed.

Lemma find_chain seq : forall n r seq',
  find (chain seq n r) seq' = if decide (seq' = seq /\ seq <> []) then Some r else None.
Proof.
  induction seq as [|a seq IH]; intros n r seq'.
  { rewrite decide_False by tauto. by destruct seq'. }
  destruct seq' as [|a' seq']; [rewrite find_nil, decide_False; [done | by intros []]|].
  destruct (decide (a' = a)) as [->|Hne].
  - destruct seq as [|b seq].
    + cbn [chain]. rewrite find_node_eq. destruct seq' as [|c seq'];
        [by rewrite decide_True | by rewrite decide_False by naive_solver].
    + change (chain (a :: b :: seq) n r) with (TNode n a TNil TNil None (chain (b :: seq) (S n) r)).
      rewrite find_node_eq. destruct seq' as [|c seq']; [by rewrite decide_False by naive_solver|].
      rewrite IH. destruct (decide (c :: seq' = b :: seq /\ b :: seq <> [])) as [[-> _]|Hno].
      * by rewrite decide_True.
      * by rewrite decide_False by naive_solver.
  - rewrite decide_False by naive_solver.
    destruct seq as [|b seq]; cbn [chain find]; destruct (Z.ltb_spec a' a); try done;
      destruct (Z.gtb_spec a' a); try done; lia.
Qed.

Lemma find_insert t : forall seq n r seq',
  tree_ok t -> seq <> [] ->
  find (insert t seq n r) seq = Some r /\
  (related seq seq' -> seq' <> seq -> find (insert t seq n r) seq' = None) /\
  (~ related seq seq' -> find (insert t seq n r) seq' = find t seq').
Proof.
  induction t as [|i k lo IHlo hi IHhi leaf eq IHeq]; intros seq n r seq' Hok Hs.
  { cbn [insert find]. rewrite !find_chain. split; [by rewrite decide_True|].
    split; [intros _ Hne | intros Hno]; rewrite decide_False; try done; try tauto.
    intros [-> _]. apply Hno. left. done. }
  destruct seq as [|a rest]; [done|]. destruct Hok as (Hle & _ & _ & Hok1 & Hok2 & Hok3).
  destruct seq' as [|a' rest'].
  { split; [|by rewrite !find_nil]. cbn [insert].
    destruct (a <? k) eqn:E1; [cbn [find]; rewrite E1; by apply IHlo|].
    destruct (a >? k) eqn:E2; [cbn [find]; rewrite E1, E2; by apply IHhi|].
    destruct rest as [|b rest]; cbn [find]; rewrite E1, E2; [done | by apply IHeq]. }
  rewrite related_cons. cbn [insert].
  destruct (Z.ltb_spec a k); [|destruct (Z.gtb_spec a k); [|assert (a = k) as -> by lia]].
  - destruct (IHlo (a :: rest) n r (a' :: rest') Hok1 Hs) as (H1 & H2 & H3). rewrite related_cons in H2, H3.
    cbn [find]. rewrite (proj2 (Z.ltb_lt a k)) by done. split; [exact H1|].
    destruct (Z.ltb_spec a' k); [done|]. split; [intros [-> _]; lia | done].
  - destruct (IHhi (a :: rest) n r (a' :: rest') Hok2 Hs) as (H1 & H2 & H3). rewrite related_cons in H2, H3.
    cbn [find]. rewrite (proj2 (Z.ltb_ge a k)), Z.gtb_ltb, (proj2 (Z.ltb_lt k a)) by lia. split; [exact H1|].
    destruct (Z.ltb_spec a' k); [split; [intros [-> _]; lia | done]|].
    destruct (Z.gtb_spec a' k); [done|]. split; [intros [-> _]; lia | done].
  - destruct rest as [|b rest].
    + rewrite find_node_eq. split; [done|]. destruct (decide (a' = k)) as [->|Hne].
      * rewrite !find_node_eq. split; [by intros _; destruct rest' | intros Hno].
        exfalso. apply Hno. split; [done | apply related_nil_l].
      * split; [intros [-> _]; done|]. intros _. cbn [find].
        destruct (Z.ltb_spec a' k); [done|]. destruct (Z.gtb_spec a' k); [done|lia].
    + rewrite find_node_eq. destruct (IHeq (b :: rest) n r rest' Hok3 ltac:(done)) as (H1 & H2 & H3).
      split; [exact H1|]. destruct (decide (a' = k)) as [->|Hne].
      * rewrite !find_node_eq. destruct rest' as [|c rest']; [|naive_solver].
        split; [done|]. intros Hno. exfalso. apply Hno. split; [done | apply related_nil_r].
      * split; [intros [-> _]; done|]. intros _. cbn [find].
        destruct (Z.ltb_spec a' k); [done|]. destruct (Z.gtb_spec a' k); [done|lia].
Qed.

(** ** Strings *)

Lemma cstr_zero s rest : Forall (fun b => b <> 0) s -> cstr (s ++ 0 :: rest) = s.
Proof.
  induction 1 as [|b s Hb _ IH]; [done|]. cbn [app cstr]. by rewrite (proj2 (Z.eqb_neq b 0) Hb), IH.
Qed.

Lemma cstr_nonzero l : Forall (fun b => b <> 0) (cstr l).
Proof.
  induction l as [|b l IH]; [apply Forall_nil_2|]. cbn [cstr].
  destruct (Z.eqb_spec b 0); [apply Forall_nil_2 | by apply Forall_cons_2].
Qed.

(** The string at an offset ends in the array. *)
Definition terminated (utf8 : list Z) (u : nat) : Prop :=
  exists rest, drop u utf8 = str_at utf8 u ++ 0 :: rest.

Lemma terminated_bound utf8 u : terminated utf8 u -> (u + length (str_at utf8 u) < length utf8)%nat.
Proof.
  intros [rest H]. apply (f_equal length) in H. rewrite length_drop, length_app in H. cbn in H. lia.
Qed.

Lemma str_at_intro utf8 u s rest :
  drop u utf8 = s ++ 0 :: rest -> Forall (fun b => b <> 0) s -> str_at utf8 u = s /\ terminated utf8 u.
Proof.
  intros H Hs. assert (str_at utf8 u = s) as E by (unfold str_at; rewrite H; by apply cstr_zero).
  split; [done|]. exists rest. by rewrite E.
Qed.

Lemma str_at_agree utf8 utf8' u :
  terminated utf8 u ->
  (forall j, (u <= j <= u + length (str_at utf8 u))%nat -> utf8' !! j = utf8 !! j) ->
  str_at utf8' u = str_at utf8 u /\ terminated utf8' u.
Proof.
  intros Ht Hj. pose proof (terminated_bound _ _ Ht) as Hb. destruct Ht as [rest Ht].
  set (s := str_at utf8 u) in *.
  assert (take (length s + 1) (drop u utf8') = s ++ [0]) as Htake.
  { transitivity (take (length s + 1) (drop u utf8)).
    - apply list_eq. intros j. destruct (decide (j < length s + 1)%nat).
      + rewrite !lookup_take_lt, !lookup_drop by done. apply Hj. lia.
      + by rewrite !lookup_take_ge by lia.
    - rewrite Ht, (app_assoc s [0] rest : s ++ 0 :: rest = _).
      apply take_app_length'. by rewrite length_app. }
  apply (str_at_intro _ _ s (drop (length s + 1) (drop u utf8'))).
  - rewrite <- (take_drop (length s + 1) (drop u utf8')) at 1. by rewrite Htake, <- app_assoc.
  - apply cstr_nonzero.
Qed.

Definition region_disjoint (utf8 : list Z) (u u' : nat) : Prop :=
  (u + length (str_at utf8 u) < u' \/ u' + length (str_at utf8 u') < u)%nat.

(** The strings of the results end in the array and do not overlap. *)
Record strings_ok (utf8 : list Z) (f : list Z -> option (nat * Z)) : Prop := {
  str_end : forall s u k, f s = Some (u, k) -> u <> O -> terminated utf8 u;
  str_sep : forall s s' u u' k k', f s = Some (u, k) -> f s' = Some (u', k') ->
    u <> O -> u' <> O -> s <> s' -> region_disjoint utf8 u u'
}.

(** A result as text and keysym. *)
Definition result_of (utf8 : list Z) (r : nat * Z) : option (list Z) * Z :=
  (if Nat.eqb (fst r) 0 then None else Some (str_at utf8 (fst r)), snd r).

Record production_ok (p : production) : Prop := {
  pok_lhs : p_lhs p <> [];
  pok_len : (length (p_lhs p) <= COMPOSE_MAX_LHS_LEN)%nat;
  pok_string : forall s, p_string p = Some s -> Forall (fun b => b <> 0) s;
  pok_keysym : p_keysym p <> Some XKB_KEY_NoSymbol
}.

Definition production_result (p : production) : option (list Z) * Z :=
  (p_string p, default XKB_KEY_NoSymbol (p_keysym p)).

(** What becomes of a string that does not overlap with the previous one. *)
Definition string_kept (utf8 utf8' : list Z) (previous : option nat) : Prop :=
  forall u, u <> O -> terminated utf8 u ->
    (forall v, previous = Some v -> v <> O -> region_disjoint utf8 v u) ->
    str_at utf8' u = str_at utf8 u /\ terminated utf8' u.

Lemma append_kept utf8 l previous : string_kept utf8 (utf8 ++ l) previous.
Proof.
  intros u _ Ht _. apply str_at_agree; [done|]. intros j Hj. apply lookup_app_l.
  pose proof (terminated_bound _ _ Ht). lia.
Qed.

Section overwrite.
Context (utf8 : list Z) (v : nat) (s : list Z).
Hypothesis (Hv : v <> O) (Ht : terminated utf8 v) (Hs : Forall (fun b => b <> 0) s).
Hypothesis Hlen : (length s <= length (str_at utf8 v))%nat.
Let utf8' := take v utf8 ++ s ++ [0] ++ drop (v + length s + 1) utf8.

Lemma overwrite_kept : string_kept utf8 utf8' (Some v).
Proof using Ht Hv Hlen.
  intros u Hu Htu Hd. apply str_at_agree; [done|]. intros j Hj.
  specialize (Hd v eq_refl Hv). pose proof (terminated_bound _ _ Ht) as Hb. unfold utf8'.
  assert (length (take v utf8) = v) as Hl by (rewrite length_take; lia).
  destruct Hd as [Hd|Hd].
  - rewrite lookup_app_r, lookup_app_r, lookup_app_r, lookup_drop by (rewrite ?Hl; cbn; lia).
    f_equal. rewrite Hl. cbn. lia.
  - rewrite lookup_app_l, lookup_take_lt by (rewrite ?Hl; lia). done.
Qed.

Lemma overwrite_str : str_at utf8' v = s /\ terminated utf8' v.
Proof using All.
  pose proof (terminated_bound _ _ Ht) as Hb.
  apply (str_at_intro _ _ _ (drop (v + length s + 1) utf8)); [|done].
  unfold utf8'. rewrite drop_app_length'; [done|]. rewrite length_take. lia.
Qed.
End overwrite.

Lemma append_str utf8 s :
  Forall (fun b => b <> 0) s ->
  str_at (utf8 ++ s ++ [0]) (length utf8) = s /\ terminated (utf8 ++ s ++ [0]) (length utf8).
Proof. intros Hs. apply (str_at_intro _ _ _ []); [|done]. by rewrite drop_app_length. Qed.

(** The result of the production is found, its string apart from the others. *)
Lemma finish_spec utf8 previous p :
  production_ok p -> Z.of_nat (length utf8) < 2 ^ 31 -> utf8 <> [] ->
  (forall v ks, previous = Some (v, ks) -> v <> O -> terminated utf8 v) ->
  let '(r, utf8') := finish utf8 previous p in
  result_of utf8' r = production_result p /\
  (fst r <> O -> terminated utf8' (fst r)) /\
  (length utf8 <= length utf8' <= length utf8 + length (default [] (p_string p)) + 1)%nat /\
  string_kept utf8 utf8' (fst <$> previous) /\
  (forall u, u <> O -> terminated utf8 u ->
     (forall v ks, previous = Some (v, ks) -> v <> O -> region_disjoint utf8 v u) ->
     fst r <> O -> region_disjoint utf8' (fst r) u).
Proof.
  intros Hp Hlen Hne Hprev. unfold finish.
  set (fresh := place_string utf8 (fst <$> previous) p).
  assert (let '(r, utf8') := ((fst fresh, default XKB_KEY_NoSymbol (p_keysym p)), snd fresh) in
    result_of utf8' r = production_result p /\ (fst r <> O -> terminated utf8' (fst r)) /\
    (length utf8 <= length utf8' <= length utf8 + length (default [] (p_string p)) + 1)%nat /\
    string_kept utf8 utf8' (fst <$> previous) /\
    (forall u, u <> O -> terminated utf8 u ->
       (forall v ks, previous = Some (v, ks) -> v <> O -> region_disjoint utf8 v u) ->
       fst r <> O -> region_disjoint utf8' (fst r) u)) as Hfresh.
  { unfold fresh, place_string, production_result. destruct (p_string p) as [s|] eqn:Hs; cbn [fst snd].
    2:{ split; [done|]. split; [done|]. split; [cbn; lia|]. split; [|done]. by intros u _ Ht _. }
    pose proof (pok_string p Hp s Hs) as Hnz.
    assert (Z.to_nat (Z.of_nat (length utf8) mod 2 ^ 31) = length utf8) as Hmod
      by (rewrite Z.mod_small by lia; lia).
    assert (length utf8 <> O) as Hl0 by by destruct utf8.
    destruct (append_str utf8 s Hnz) as [Hstr Hterm].
    assert (let fr := (Z.to_nat (Z.of_nat (length utf8) mod 2 ^ 31), utf8 ++ s ++ [0]) in
      result_of (snd fr) (fst fr, default XKB_KEY_NoSymbol (p_keysym p)) =
        (Some s, default XKB_KEY_NoSymbol (p_keysym p)) /\
      (fst fr <> O -> terminated (snd fr) (fst fr)) /\
      (length utf8 <= length (snd fr) <= length utf8 + length s + 1)%nat /\
      string_kept utf8 (snd fr) (fst <$> previous) /\
      (forall u, u <> O -> terminated utf8 u ->
       (forall v ks, previous = Some (v, ks) -> v <> O -> region_disjoint utf8 v u) ->
       fst fr <> O -> region_disjoint (snd fr) (fst fr) u)) as Happ.
    { cbn [fst snd]. rewrite Hmod. unfold result_of. cbn [fst snd].
      rewrite (proj2 (Nat.eqb_neq _ _) Hl0), Hstr. split; [done|]. split; [done|].
      split; [rewrite !length_app; cbn; lia|]. split; [apply append_kept|].
      intros u Hu Htu _ _. right. destruct (append_kept utf8 (s ++ [0]) None u Hu Htu) as [-> _]; [done|].
      by apply terminated_bound. }
    destruct previous as [[v ks]|]; cbn [fmap option_fmap option_map fst]; [|exact Happ].
    destruct v as [|v']; [exact Happ|]. set (v := S v') in *.
    destruct (Nat.leb_spec (length s) (length (str_at utf8 v))); [|exact Happ].
    pose proof (Hprev v ks eq_refl ltac:(done)) as Htv. cbn [fst snd].
    destruct (overwrite_str utf8 v s ltac:(done) Htv Hnz ltac:(done)) as [Hstr' Hterm'].
    pose proof (overwrite_kept utf8 v s ltac:(done) Htv ltac:(done)) as Hkept.
    unfold result_of. cbn [fst snd Nat.eqb v]. fold v. rewrite Hstr'.
    split; [done|]. split; [done|]. pose proof (terminated_bound _ _ Htv).
    split; [rewrite !length_app, length_take, length_drop; change (default [] (Some s)) with s;
            cbn [length]; lia|].
    split; [exact Hkept|]. intros u Hu Htu Hd _. destruct (Hd v ks eq_refl ltac:(done)) as [Hd'|Hd'].
    + left. rewrite Hstr'. lia.
    + right. destruct (Hkept u Hu Htu) as [-> _]; [|done]. intros v0 [= <-] _. by right. }
  destruct previous as [[v ks]|]; [|exact Hfresh].
  destruct (same_string utf8 v p && same_keysym ks p) eqn:Hsame; [|exact Hfresh].
  apply andb_true_iff in Hsame as [Hs Hk].
  split; [|split; [|split; [|split]]].
  - unfold result_of, production_result, same_string, same_keysym in *. cbn [fst snd]. f_equal.
    + destruct (p_string p) as [s|]; [|by rewrite Hs].
      apply andb_true_iff in Hs as [Hv Hs]. apply negb_true_iff in Hv. rewrite Hv.
      by apply bool_decide_eq_true in Hs as ->.
    + destruct (p_keysym p) as [k|]; [apply andb_true_iff in Hk as [_ Hk]|]; by apply Z.eqb_eq in Hk.
  - intros Hv. by apply (Hprev v ks).
  - lia.
  - intros u _ Ht _. done.
  - intros u Hu Ht Hd Hv. by apply (Hd v ks).
Qed.
