(* ===== verification/ComposeSpec.v ===== *)
(** * Properties of compose tables

    A table implements a dictionary from sequences of keysyms to results in
    which no sequence begins with another; the compose state follows the
    sequences of the dictionary; the iterator lists them in order. *)

From Stdlib Require Import ZArith Lia.
From stdpp Require Import base tactics list numbers.
From S2P Require Import Prelude Numbers Keymap Utf8 Keysym Compose ComposeTree.

(** ** Tables *)

Fixpoint depth (t : tst) : nat :=
  match t with
  | TNil => O
  | TNode _ _ lo hi _ eq => Nat.max (Nat.max (depth lo) (depth hi)) (S (depth eq))
  end.

Lemma depth_chain seq n r : depth (chain seq n r) = length seq.
Proof.
  revert n. induction seq as [|a seq IH]; intros n; [done|]. destruct seq as [|b seq]; [done|].
  change (chain (a :: b :: seq) n r) with (TNode n a TNil TNil None (chain (b :: seq) (S n) r)).
  cbn [depth]. rewrite IH. cbn. lia.
Qed.

Lemma depth_insert t : forall seq n r,
  (depth (insert t seq n r) <= Nat.max (depth t) (length seq))%nat.
Proof.
  induction t as [|i k lo IHlo hi IHhi leaf eq IHeq]; intros seq n r.
  - cbn [insert]. rewrite depth_chain. lia.
  - destruct seq as [|a rest]; [cbn; lia|]. cbn [insert].
    destruct (a <? k); [pose proof (IHlo (a :: rest) n r); cbn [depth]; lia|].
    destruct (a >? k); [pose proof (IHhi (a :: rest) n r); cbn [depth]; lia|].
    destruct rest as [|b rest]; [cbn [depth length]; lia|].
    pose proof (IHeq (b :: rest) n r). cbn [depth length] in *. lia.
Qed.

(** The nodes represent the tree. *)
Record nodes_ok (nodes : list compose_node) (t : tst) : Prop := {
  nok_dummy : nodes !! 0%nat = Some dummy_node;
  nok_repr : repr nodes t;
  nok_root : addr t = if Nat.eqb (length nodes) 1 then O else 1%nat;
  nok_nodup : NoDup (addrs t);
  nok_bound : Forall (fun i => i < length nodes)%nat (addrs t);
  nok_tree : tree_ok t;
  nok_depth : (depth t <= COMPOSE_MAX_LHS_LEN)%nat
}.

(** The table represents the tree, with the strings of its results. *)
Record table_ok (tb : xkb_compose_table) (t : tst) : Prop := {
  tok_nodes : nodes_ok (ct_nodes tb) t;
  tok_head : ct_utf8 tb !! 0%nat = Some 0;
  tok_strings : strings_ok (ct_utf8 tb) (find t)
}.

Section projections.
Context (tb : xkb_compose_table) (t : tst) (H : table_ok tb t).
Definition tok_dummy := nok_dummy _ _ (tok_nodes _ _ H).
Definition tok_repr := nok_repr _ _ (tok_nodes _ _ H).
Definition tok_root := nok_root _ _ (tok_nodes _ _ H).
Definition tok_nodup := nok_nodup _ _ (tok_nodes _ _ H).
Definition tok_tree := nok_tree _ _ (tok_nodes _ _ H).
Definition tok_depth := nok_depth _ _ (tok_nodes _ _ H).
End projections.

(** The dictionary of a table. *)
Definition dict (tb : xkb_compose_table) (t : tst) (seq : list Z) : option (option (list Z) * Z) :=
  result_of (ct_utf8 tb) <$> find t seq.

Lemma table_new_ok : table_ok (mk_ctable [dummy_node] [0]) TNil.
Proof.
  split; [|done|done]. split; try done; first [apply NoDup_nil_2 | apply Forall_nil_2 | cbn; lia].
Qed.

Lemma finish_head utf8 previous p :
  utf8 !! 0%nat = Some 0 -> snd (finish utf8 previous p) !! 0%nat = Some 0.
Proof.
  intros Hh. unfold finish.
  assert (snd (place_string utf8 (fst <$> previous) p) !! 0%nat = Some 0) as Hp.
  { unfold place_string. destruct (p_string p) as [s|]; [|done].
    assert ((utf8 ++ s ++ [0]) !! 0%nat = Some 0) as Happ by by apply lookup_app_l_Some.
    destruct previous as [[[|v] ks]|]; cbn [fmap option_fmap option_map fst]; [done| |done].
    destruct (Nat.leb _ _); [|done]. cbn [snd]. destruct utf8 as [|b utf8]; [done|]. exact Hh. }
  destruct previous as [[u ks]|]; [|exact Hp]. by destruct (_ && _).
Qed.

Lemma length_chain_nodes seq : forall n r, length (chain_nodes seq n r) = length seq.
Proof.
  induction seq as [|a seq IH]; intros n r; [done|]. destruct seq as [|b seq]; [done|].
  change (chain_nodes (a :: b :: seq) n r)
    with (mk_cnode a 0 0 (Internal (S n)) :: chain_nodes (b :: seq) (S n) r).
  cbn [length]. by rewrite IH.
Qed.

Lemma length_relocate nodes t seq pptr r :
  (length nodes <= length (relocate nodes (locate t seq pptr) r) <= length nodes + length seq)%nat.
Proof.
  revert seq pptr. induction t as [|i k lo IHlo hi IHhi leaf eq IHeq]; intros seq pptr.
  - cbn [locate relocate]. rewrite length_app, length_link, length_chain_nodes. lia.
  - destruct seq as [|a rest].
    { cbn [locate relocate chain_nodes]. rewrite app_nil_r, length_link. lia. }
    cbn [locate]. destruct (a <? k); [apply IHlo|]. destruct (a >? k); [apply IHhi|].
    destruct rest as [|b rest]; [cbn [relocate]; rewrite length_alter; lia|].
    specialize (IHeq (b :: rest) (Some (i, EqKid))). cbn [length] in *. lia.
Qed.

Lemma relocate_head nodes t seq pptr r :
  repr nodes t -> (fst <$> pptr) <> Some O -> nodes <> [] ->
  relocate nodes (locate t seq pptr) r !! 0%nat = nodes !! 0%nat.
Proof.
  intros Hr Hp Hn. apply relocate_frame; [destruct nodes; [done|cbn; lia]| |done].
  induction t as [|i k lo IHlo hi IHhi leaf eq IHeq]; [apply not_elem_of_nil|].
  destruct Hr as (Hi & _ & Hlo & Hhi & Heq). cbn [addrs].
  rewrite not_elem_of_cons, !not_elem_of_app. auto.
Qed.

Lemma finish_strings utf8 t p n :
  production_ok p -> tree_ok t -> strings_ok utf8 (find t) ->
  Z.of_nat (length utf8) < 2 ^ 31 -> utf8 <> [] ->
  let '(r, utf8') := finish utf8 (find t (p_lhs p)) p in
  strings_ok utf8' (find (insert t (p_lhs p) n r)) /\
  (forall seq x, seq <> p_lhs p -> find t seq = Some x -> result_of utf8' x = result_of utf8 x).
Proof.
  intros Hp Ht [Hend Hsep] Hlen Hne.
  pose proof (finish_spec utf8 (find t (p_lhs p)) p Hp Hlen Hne
    ltac:(intros v ks E Hv; by apply (Hend _ _ _ E))) as Hf.
  destruct (finish utf8 (find t (p_lhs p)) p) as [r utf8'].
  destruct Hf as (_ & Hterm & _ & Hkept & Hdisj).
  assert (forall seq u k, seq <> p_lhs p -> find t seq = Some (u, k) -> u <> O ->
    str_at utf8' u = str_at utf8 u /\ terminated utf8' u) as Hold.
  { intros seq u k Hs Hfind Hu. apply Hkept; [done|by apply (Hend _ _ _ Hfind)|].
    intros v Hv Hv0. destruct (find t (p_lhs p)) as [[v' ks]|] eqn:E; [|done].
    injection Hv as ->. by apply (Hsep _ _ _ _ _ _ E Hfind). }
  assert (forall seq x, find (insert t (p_lhs p) n r) seq = Some x ->
    (seq = p_lhs p /\ x = r) \/ (seq <> p_lhs p /\ find t seq = Some x)) as Hcases.
  { intros seq x Hx. destruct (find_insert t (p_lhs p) n r seq Ht (pok_lhs p Hp)) as (H1 & H2 & H3).
    destruct (decide (seq = p_lhs p)) as [->|Hs]; [left; split; congruence|]. right. split; [done|].
    rewrite <- Hx. symmetry. apply H3. intros Hr. by rewrite H2 in Hx. }
  split.
  - split.
    + intros s u k [[-> <-]|[Hs Hx]]%Hcases Hu; [by apply Hterm | by apply (Hold s u k)].
    + intros s s' u u' k k' [[-> <-]|[Hs Hx]]%Hcases [[-> Hx']|[Hs' Hx']]%Hcases Hu Hu' Hss; try done.
      * apply (Hdisj u' Hu' (Hend _ _ _ Hx' Hu')); [|done].
        intros v ks E Hv. by apply (Hsep _ _ _ _ _ _ E Hx').
      * subst r. unfold region_disjoint. apply or_comm.
        apply (Hdisj u Hu (Hend _ _ _ Hx Hu)); [|done].
        intros v ks E Hv. by apply (Hsep _ _ _ _ _ _ E Hx).
      * unfold region_disjoint. destruct (Hold _ _ _ Hs Hx Hu) as [-> _].
        destruct (Hold _ _ _ Hs' Hx' Hu') as [-> _]. by apply (Hsep _ _ _ _ _ _ Hx Hx').
  - intros seq [u k] Hs Hx. unfold result_of. cbn [fst snd].
    destruct (Nat.eqb_spec u 0) as [|Hu]; [done|]. by destruct (Hold _ _ _ Hs Hx Hu) as [-> _].
Qed.

(** ** Productions

    The dictionary as a function on sequences: a production takes the place
    of every sequence that begins with its own or that its own begins with. *)

Definition result_t : Type := option (list Z) * Z.

#[global] Instance related_dec s s' : Decision (related s s').
Proof. unfold related. solve_decision. Defined.

Definition dict_add (d : list Z -> option result_t) (p : production) (seq : list Z) : option result_t :=
  if decide (seq = p_lhs p) then Some (production_result p)
  else if decide (related (p_lhs p) seq) then None
  else d seq.

Lemma nodes_fuel nodes t : nodes_ok nodes t -> (length (addrs t) <= length nodes)%nat.
Proof.
  intros H. rewrite <- (length_seq (length nodes) 0).
  apply submseteq_length, NoDup_submseteq; [apply H|]. intros i Hi. apply elem_of_seq.
  pose proof (nok_bound _ _ H) as Hb. rewrite list.Forall_forall in Hb. specialize (Hb i Hi). lia.
Qed.

Lemma addrs_fuel tb t : table_ok tb t -> (length (addrs t) <= length (ct_nodes tb))%nat.
Proof. intros H. by apply nodes_fuel, H. Qed.

Lemma nodes_nonempty nodes t : nodes_ok nodes t -> nodes <> [].
Proof. intros H E. pose proof (nok_dummy _ _ H) as Hd. by rewrite E in Hd. Qed.

Lemma repr_bound nodes t : repr nodes t -> Forall (fun i => i < length nodes)%nat (addrs t).
Proof.
  induction t as [|i k lo IHlo hi IHhi leaf eq IHeq]; [intros _; apply Forall_nil_2|].
  intros (_ & Hi & Hlo & Hhi & Heq). cbn [addrs]. apply Forall_cons_2; [by eapply lookup_lt_Some|].
  rewrite !list.Forall_app. auto.
Qed.

(** The root stays the first node after the dummy one. *)
Lemma root_insert nodes t seq r :
  nodes_ok nodes t -> seq <> [] ->
  addr (insert t seq (length nodes) r) =
    if Nat.eqb (length (relocate nodes (locate t seq None) r)) 1 then O else 1%nat.
Proof.
  intros H Hs. pose proof (nodes_nonempty _ _ H) as Hn. pose proof (nok_root _ _ H) as Hroot.
  pose proof (length_relocate nodes t seq None r) as Hl. rewrite addr_insert by done.
  assert (length nodes <> O) by by destruct nodes. destruct t as [|i k lo hi leaf eq].
  - cbn [addr locate relocate link] in *. rewrite length_app, length_chain_nodes.
    destruct (Nat.eqb_spec (length nodes) 1) as [E|]; [|done]. rewrite E.
    destruct seq; [done|]. by rewrite (proj2 (Nat.eqb_neq _ _)) by (cbn; lia).
  - destruct (nok_repr _ _ H) as [Hi _]. cbn [addr] in *.
    destruct (Nat.eqb_spec (length nodes) 1); [done|]. by rewrite (proj2 (Nat.eqb_neq _ _)) by lia.
Qed.

Lemma nodes_insert nodes t seq r :
  nodes_ok nodes t -> seq <> [] -> (length seq <= COMPOSE_MAX_LHS_LEN)%nat ->
  nodes_ok (relocate nodes (locate t seq None) r) (insert t seq (length nodes) r).
Proof.
  intros H Hl Hlen. pose proof (nodes_nonempty _ _ H) as Hn. split.
  - rewrite relocate_head; [apply H|apply H|done|done].
  - apply relocate_repr; try done; apply H.
  - by apply root_insert.
  - apply nodup_insert; apply H.
  - apply repr_bound, relocate_repr; try done; apply H.
  - by apply tree_ok_insert; [|apply H].
  - pose proof (depth_insert t seq (length nodes) r). pose proof (nok_depth _ _ H). lia.
Qed.

(** The addition of a production: to the nodes, whatever the strings, and to
    the table. *)
Lemma add_production_eq nodes utf8 t p :
  nodes_ok nodes t -> production_ok p ->
  Z.of_nat (length nodes) + Z.of_nat (length (p_lhs p)) < MAX_COMPOSE_NODES ->
  add_production (mk_ctable nodes utf8) p =
    let (r, utf8') := finish utf8 (find t (p_lhs p)) p in
    Ok (mk_ctable (relocate nodes (locate t (p_lhs p) None) r) utf8').
Proof.
  intros H Hp Hroom. pose proof (nodes_fuel _ _ H) as Hfuel. pose proof (nodes_nonempty _ _ H) as Hn.
  unfold add_production. cbn [ct_nodes]. rewrite Z.geb_leb, (proj2 (Z.leb_gt _ _)) by lia.
  replace (if _ =? 1 then O else 1%nat) with (addr t).
  2:{ rewrite (nok_root _ _ H). destruct (Nat.eqb_spec (length nodes) 1) as [->|];
        [done|]. by rewrite (proj2 (Z.eqb_neq _ _)) by lia. }
  apply (add_loop_locate p t _ nodes utf8 0 None (p_lhs p)); try done; try apply H; [apply Hp|lia].
Qed.

Lemma add_production_ok tb t p :
  table_ok tb t -> production_ok p ->
  Z.of_nat (length (ct_nodes tb)) + Z.of_nat (length (p_lhs p)) < MAX_COMPOSE_NODES ->
  Z.of_nat (length (ct_utf8 tb)) < 2 ^ 31 ->
  exists tb' t', add_production tb p = Ok tb' /\ table_ok tb' t' /\
    (length (ct_nodes tb') <= length (ct_nodes tb) + length (p_lhs p))%nat /\
    (length (ct_utf8 tb') <= length (ct_utf8 tb) + length (default [] (p_string p)) + 1)%nat /\
    forall seq, dict tb' t' seq = dict_add (dict tb t) p seq.
Proof.
  intros H Hp Hroom Hlen. pose proof (pok_lhs p Hp) as Hl.
  assert (ct_utf8 tb <> []) as Hu by (intros E; pose proof (tok_head _ _ H) as Hh; by rewrite E in Hh).
  destruct tb as [nodes utf8]. cbn [ct_nodes ct_utf8] in *.
  rewrite (add_production_eq nodes utf8 t p (tok_nodes _ _ H) Hp Hroom).
  pose proof (finish_spec utf8 (find t (p_lhs p)) p Hp Hlen Hu
    ltac:(intros v ks E Hv; by apply (str_end _ _ (tok_strings _ _ H) _ _ _ E))) as Hf.
  pose proof (finish_strings utf8 t p (length nodes) Hp (tok_tree _ _ H) (tok_strings _ _ H) Hlen Hu) as Hs.
  pose proof (finish_head utf8 (find t (p_lhs p)) p (tok_head _ _ H)) as Hh.
  destruct (finish utf8 (find t (p_lhs p)) p) as [r utf8'].
  destruct Hf as (Hres & _ & Hgrow & _). destruct Hs as [Hso Hkeep].
  pose proof (length_relocate nodes t (p_lhs p) None r) as Hrl.
  eexists _, (insert t (p_lhs p) (length nodes) r).
  split; [done|]. cbn [ct_nodes ct_utf8]. split; [split; cbn [ct_nodes ct_utf8]; try done|].
  { apply nodes_insert; [apply H|done|apply Hp]. }
  split; [lia|]. split; [lia|]. intros seq. unfold dict, dict_add. cbn [ct_utf8].
  destruct (find_insert t (p_lhs p) (length nodes) r seq (tok_tree _ _ H) Hl) as (H1 & H2 & H3).
  destruct (decide _) as [->|Hne]; [by rewrite H1; cbn; rewrite Hres|].
  destruct (decide _) as [Hr|Hr]; [by rewrite H2|].
  rewrite H3 by done. destruct (find t seq) as [x|] eqn:E; [|done]. cbn. f_equal.
  by apply (Hkeep seq).
Qed.

(** The calls of [parse] for the productions of a file, one per line. *)
Fixpoint add_productions (tb : xkb_compose_table) (ps : list production) : result xkb_compose_table :=
  match ps with
  | [] => Ok tb
  | p :: ps => match add_production tb p with
               | Ok tb => add_productions tb ps
               | Fault f => Fault f
               end
  end.

Definition dict_of (ps : list production) : list Z -> option result_t :=
  foldl dict_add (fun _ => None) ps.

(** What the productions need at most. *)
Definition nodes_needed (ps : list production) : Z :=
  foldr (fun p n => Z.of_nat (length (p_lhs p)) + n) 0 ps.
Definition bytes_needed (ps : list production) : Z :=
  foldr (fun p n => Z.of_nat (length (default [] (p_string p))) + 1 + n) 0 ps.

Lemma dict_add_ext d d' p : (forall seq, d seq = d' seq) -> forall seq, dict_add d p seq = dict_add d' p seq.
Proof. intros H seq. unfold dict_add. by rewrite H. Qed.

Lemma foldl_dict_ext ps : forall d d', (forall seq, d seq = d' seq) ->
  forall seq, foldl dict_add d ps seq = foldl dict_add d' ps seq.
Proof. induction ps as [|p ps IH]; intros d d' H; cbn; [done|]. apply IH. by apply dict_add_ext. Qed.

Lemma needed_pos ps : 0 <= nodes_needed ps /\ 0 <= bytes_needed ps.
Proof.
  induction ps as [|p ps IH]; [done|]. unfold nodes_needed, bytes_needed in *. cbn [foldr]. lia.
Qed.

Lemma add_productions_ok ps : forall tb t,
  table_ok tb t -> Forall production_ok ps ->
  Z.of_nat (length (ct_nodes tb)) + nodes_needed ps < MAX_COMPOSE_NODES ->
  Z.of_nat (length (ct_utf8 tb)) + bytes_needed ps < 2 ^ 31 ->
  exists tb' t', add_productions tb ps = Ok tb' /\ table_ok tb' t' /\
    forall seq, dict tb' t' seq = foldl dict_add (dict tb t) ps seq.
Proof.
  induction ps as [|p ps IH]; intros tb t H Hps Hn Hb; [by exists tb, t|].
  apply Forall_cons_1 in Hps as [Hp Hps]. cbn [nodes_needed bytes_needed foldr] in Hn, Hb.
  fold (nodes_needed ps) in Hn. fold (bytes_needed ps) in Hb. pose proof (needed_pos ps).
  destruct (add_production_ok tb t p H Hp) as (tb1 & t1 & E & H1 & Hl & Hu & Hd); [lia..|].
  destruct (IH tb1 t1 H1 Hps) as (tb2 & t2 & E2 & H2 & Hd2); [lia..|].
  exists tb2, t2. cbn [add_productions foldl]. rewrite E. split; [done|]. split; [done|].
  intros seq. rewrite Hd2. by apply foldl_dict_ext.
Qed.

(** ** States *)

(** The node of a sequence: its offset, its result and the next tree. *)
Fixpoint walk (t : tst) (seq : list Z) : option (nat * option (nat * Z) * tst) :=
  match t, seq with
  | TNode i k lo hi leaf eq, a :: rest =>
      if a <? k then walk lo seq
      else if a >? k then walk hi seq
      else match rest with [] => Some (i, leaf, eq) | _ => walk eq rest end
  | _, _ => None
  end.

Lemma walk_find t : forall seq,
  find t seq = match walk t seq with Some (_, leaf, _) => leaf | None => None end.
Proof.
  induction t as [|i k lo IHlo hi IHhi leaf eq IHeq]; intros seq; [done|].
  destruct seq as [|a rest]; [done|]. cbn [find walk].
  destruct (a <? k); [done|]. destruct (a >? k); [done|]. by destruct rest.
Qed.

Lemma walk_app t : forall seq rest, seq <> [] -> rest <> [] ->
  walk t (seq ++ rest) = match walk t seq with Some (_, _, eq) => walk eq rest | None => None end.
Proof.
  induction t as [|i k lo IHlo hi IHhi leaf eq IHeq]; intros seq rest Hs Hr; [done|].
  destruct seq as [|a seq]; [done|]. cbn [walk app].
  destruct (a <? k); [by apply (IHlo (a :: seq))|]. destruct (a >? k); [by apply (IHhi (a :: seq))|].
  destruct seq as [|b seq]; [cbn; by destruct rest|]. by apply (IHeq (b :: seq)).
Qed.

(** What is known of the node of a sequence. *)
Lemma walk_node nodes t : forall seq i leaf eq,
  repr nodes t -> tree_ok t -> walk t seq = Some (i, leaf, eq) ->
  i <> O /\ (exists n, nodes !! i = Some n /\ cn_data n = data_of leaf eq) /\
  repr nodes eq /\ tree_ok eq /\ (leaf = None <-> eq <> TNil) /\
  (length (addrs eq) <= length (addrs t))%nat.
Proof.
  induction t as [|i k lo IHlo hi IHhi lf eq IHeq]; intros seq i' leaf' eq' Hr Hok Hw; [done|].
  destruct seq as [|a rest]; [done|]. destruct Hr as (Hi & Hn & Hlo & Hhi & Heq).
  destruct Hok as (Hle & _ & _ & Hok1 & Hok2 & Hok3). cbn [walk] in Hw. cbn [addrs length]. rewrite !length_app.
  destruct (a <? k); [destruct (IHlo _ _ _ _ Hlo Hok1 Hw) as (?&?&?&?&?&?); repeat split; try tauto; lia|].
  destruct (a >? k); [destruct (IHhi _ _ _ _ Hhi Hok2 Hw) as (?&?&?&?&?&?); repeat split; try tauto; lia|].
  destruct rest as [|b rest];
    [|destruct (IHeq _ _ _ _ Heq Hok3 Hw) as (?&?&?&?&?&?); repeat split; try tauto; lia].
  injection Hw as <- <- <-. split; [done|]. split; [by eexists|]. repeat split; try done; try tauto. lia.
Qed.

Lemma tree_has_result t : tree_ok t -> t <> TNil -> exists seq, seq <> [] /\ is_Some (find t seq).
Proof.
  induction t as [|i k lo IHlo hi IHhi leaf eq IHeq]; [done|].
  intros (Hle & _ & _ & _ & _ & Hok) _. destruct leaf as [r|].
  - exists [k]. by rewrite find_node_eq.
  - destruct IHeq as (seq & Hs & Hf); [done|by apply Hle|]. exists (k :: seq). split; [done|].
    rewrite find_node_eq. by destruct seq.
Qed.

Lemma search_kids_walk nodes ks t : forall fuel,
  repr nodes t -> (length (addrs t) <= fuel)%nat ->
  search_kids fuel nodes ks (addr t) =
    Ok (match walk t [ks] with Some (i, _, _) => i | None => O end).
Proof.
  induction t as [|i k lo IHlo hi IHhi leaf eq IHeq]; intros fuel Hr Hf; [by destruct fuel|].
  destruct Hr as (Hi & Hn & Hlo & Hhi & Heq). cbn [addrs length] in Hf. rewrite !length_app in Hf.
  destruct fuel as [|fuel]; [lia|]. cbn [search_kids addr]. rewrite (proj2 (Nat.eqb_neq i 0) Hi), Hn.
  cbn [cn_keysym cn_lokid cn_hikid walk].
  destruct (ks <? k); [apply IHlo; [done|lia]|]. by destruct (ks >? k); [apply IHhi; [done|lia]|].
Qed.

(** The abstract state: the keysyms of the sequence under way or just
    composed, and the status.  [d] is the dictionary. *)
Record composing := mk_composing { a_seq : list Z; a_status : xkb_compose_status }.

Definition base_of (a : composing) : list Z :=
  match a_status a with XKB_COMPOSE_COMPOSING => a_seq a | _ => [] end.

(** A longer sequence of the dictionary begins with [seq]. *)
Definition begins (d : list Z -> option result_t) (seq : list Z) : Prop :=
  exists rest, rest <> [] /\ is_Some (d (seq ++ rest)).

Inductive compose_step (d : list Z -> option result_t) (a : composing) (ks : Z) : composing -> Prop :=
| step_ignored : xkb_keysym_is_modifier ks = true -> compose_step d a ks a
| step_composed : xkb_keysym_is_modifier ks = false ->
    is_Some (d (base_of a ++ [ks])) -> ~ begins d (base_of a ++ [ks]) ->
    compose_step d a ks (mk_composing (base_of a ++ [ks]) XKB_COMPOSE_COMPOSED)
| step_composing : xkb_keysym_is_modifier ks = false ->
    d (base_of a ++ [ks]) = None -> begins d (base_of a ++ [ks]) ->
    compose_step d a ks (mk_composing (base_of a ++ [ks]) XKB_COMPOSE_COMPOSING)
| step_cancelled : xkb_keysym_is_modifier ks = false -> a_status a = XKB_COMPOSE_COMPOSING ->
    d (base_of a ++ [ks]) = None -> ~ begins d (base_of a ++ [ks]) ->
    compose_step d a ks (mk_composing [] XKB_COMPOSE_CANCELLED)
| step_nothing : xkb_keysym_is_modifier ks = false -> a_status a <> XKB_COMPOSE_COMPOSING ->
    d (base_of a ++ [ks]) = None -> ~ begins d (base_of a ++ [ks]) ->
    compose_step d a ks (mk_composing [] XKB_COMPOSE_NOTHING).

Inductive compose_steps (d : list Z -> option result_t) : composing -> list Z -> composing -> Prop :=
| steps_nil a : compose_steps d a [] a
| steps_cons a ks a' kss a'' :
    compose_step d a ks a' -> compose_steps d a' kss a'' -> compose_steps d a (ks :: kss) a''.

(** The text of a keysym that has no string of its own. *)
Definition keysym_text (ks : Z) : list Z :=
  let (ret, utf8) := xkb_keysym_to_utf8 ks XKB_KEYSYM_UTF8_MAX_SIZE in
  if ret <=? 0 then [] else cstr utf8.

Definition text_of (r : result_t) : list Z :=
  match r with
  | (Some s, _) => s
  | (None, ks) => if ks =? XKB_KEY_NoSymbol then [] else keysym_text ks
  end.

Definition a_result (d : list Z -> option result_t) (a : composing) : result_t :=
  match a_status a with
  | XKB_COMPOSE_COMPOSED => default (None, XKB_KEY_NoSymbol) (d (a_seq a))
  | _ => (None, XKB_KEY_NoSymbol)
  end.

Section compose_states.
Context (tb : xkb_compose_table) (t : tst) (d : list Z -> option result_t).
Hypothesis (Htb : table_ok tb t) (Hd : forall seq, dict tb t seq = d seq).

Definition leafness (i : nat) (b : bool) : Prop :=
  exists n, ct_nodes tb !! i = Some n /\ is_leaf n = b.

(** The state of the code stands for the abstract state. *)
Definition state_rel (s : xkb_compose_state) (a : composing) : Prop :=
  cs_table s = tb /\
  match a_status a with
  | XKB_COMPOSE_COMPOSING => a_seq a <> [] /\ (exists b, leafness (cs_prev_context s) b) /\
      exists eq, walk t (a_seq a) = Some (cs_context s, None, eq)
  | XKB_COMPOSE_COMPOSED => (exists b, leafness (cs_prev_context s) b) /\
      exists r eq, walk t (a_seq a) = Some (cs_context s, Some r, eq)
  | XKB_COMPOSE_NOTHING => cs_context s = O /\ leafness (cs_prev_context s) true
  | XKB_COMPOSE_CANCELLED => cs_context s = O /\ leafness (cs_prev_context s) false
  end.

Lemma leafness_dummy : leafness 0 true.
Proof using Htb. exists dummy_node. by split; [apply Htb|]. Qed.

Lemma walk_facts seq i leaf eq : walk t seq = Some (i, leaf, eq) ->
  i <> O /\ (exists n, ct_nodes tb !! i = Some n /\ cn_data n = data_of leaf eq) /\
  repr (ct_nodes tb) eq /\ tree_ok eq /\ (leaf = None <-> eq <> TNil) /\
  (length (addrs eq) <= length (addrs t))%nat.
Proof using Htb. apply walk_node; apply Htb. Qed.

(** Where the search of the next keysym starts. *)
Lemma feed_base s a : state_rel s a ->
  exists n base, ct_nodes tb !! cs_context s = Some n /\
    (let context := match cn_data n with Leaf _ _ => 1%nat | Internal eqkid => eqkid end in
     if Nat.eqb context 1 && Nat.eqb (length (ct_nodes tb)) 1 then O else context) = addr base /\
    repr (ct_nodes tb) base /\ (length (addrs base) <= length (ct_nodes tb))%nat /\
    (forall rest, rest <> [] -> walk t (base_of a ++ rest) = walk base rest) /\
    leafness (cs_context s) (if a_status a is XKB_COMPOSE_COMPOSING then false else true).
Proof using Htb.
  intros [_ Hs]. pose proof (addrs_fuel _ _ Htb) as Hfuel. pose proof (tok_root _ _ Htb) as Hroot.
  assert (forall n, is_leaf n = true -> ct_nodes tb !! cs_context s = Some n ->
    (let context := match cn_data n with Leaf _ _ => 1%nat | Internal eqkid => eqkid end in
     if Nat.eqb context 1 && Nat.eqb (length (ct_nodes tb)) 1 then O else context) = addr t) as Hleaf.
  { intros n Hn _. unfold is_leaf in Hn. rewrite Hroot. destruct (cn_data n); [done|]. cbn.
    by destruct (length _) as [|[|]]. }
  pose proof (tok_dummy _ _ Htb) as Hdummy.
  unfold base_of. destruct (a_status a) eqn:Ha.
  - destruct Hs as [Hc _]. exists dummy_node, t. rewrite Hc in *.
    repeat split; try done; first [by apply Hleaf|apply Htb|apply leafness_dummy].
  - destruct Hs as (Hne & _ & eq & Hw). destruct (walk_facts _ _ _ _ Hw) as (Hi & (n & Hn & Hdata) & Hr & _ & _ & Hl).
    exists n, eq. repeat split; try done; [|lia| |].
    + cbn zeta. rewrite Hdata. cbn [data_of]. apply lookup_lt_Some in Hn.
      rewrite (proj2 (Nat.eqb_neq (length _) 1)), andb_false_r by lia. done.
    + intros rest Hrest. by rewrite walk_app, Hw.
    + exists n. split; [done|]. unfold is_leaf. by rewrite Hdata.
  - destruct Hs as (_ & r & eq & Hw). destruct (walk_facts _ _ _ _ Hw) as (Hi & (n & Hn & Hdata) & _).
    assert (is_leaf n = true) as Hl by (unfold is_leaf; rewrite Hdata; by destruct r).
    exists n, t. repeat split; try done; first [by apply Hleaf|apply Htb|by exists n].
  - destruct Hs as [Hc _]. exists dummy_node, t. rewrite Hc in *.
    repeat split; try done; first [by apply Hleaf|apply Htb|apply leafness_dummy].
Qed.

Lemma d_find seq : d seq = result_of (ct_utf8 tb) <$> find t seq.
Proof using Hd. by rewrite <- Hd. Qed.

(** What the dictionary says of a sequence, from its node. *)
Lemma walk_dict seq : seq <> [] ->
  match walk t seq with
  | Some (_, Some r, _) => d seq = Some (result_of (ct_utf8 tb) r) /\ ~ begins d seq
  | Some (_, None, _) => d seq = None /\ begins d seq
  | None => d seq = None /\ ~ begins d seq
  end.
Proof using Htb Hd.
  intros Hs. unfold begins. rewrite d_find, walk_find.
  assert (forall rest, rest <> [] -> d (seq ++ rest) = result_of (ct_utf8 tb) <$>
    match walk t seq with Some (_, _, eq) => find eq rest | None => None end) as Hrest.
  { intros rest Hr. rewrite d_find, walk_find, walk_app by done.
    destruct (walk t seq) as [[[i leaf] eq]|]; [by rewrite (walk_find eq)|done]. }
  destruct (walk t seq) as [[[i leaf] eq]|] eqn:Hw.
  - destruct (walk_facts _ _ _ _ Hw) as (_ & _ & _ & Hok & Hle & _). destruct leaf as [r|].
    + split; [done|]. intros (rest & Hr & Hx). rewrite Hrest in Hx by done.
      apply leaf_no_eq in Hle as ->. by destruct Hx.
    + split; [done|]. destruct (tree_has_result eq Hok) as (rest & Hr & Hx); [by apply Hle|].
      exists rest. split; [done|]. rewrite Hrest by done. by apply fmap_is_Some.
  - split; [done|]. intros (rest & Hr & Hx). rewrite Hrest in Hx by done. by destruct Hx.
Qed.

(** Feeding a keysym is a step of the abstract state. *)
Lemma feed_step s a ks : state_rel s a ->
  exists s' a', xkb_compose_state_feed s ks =
      Ok (if xkb_keysym_is_modifier ks then XKB_COMPOSE_FEED_IGNORED else XKB_COMPOSE_FEED_ACCEPTED, s') /\
    compose_step d a ks a' /\ state_rel s' a'.
Proof using Htb Hd.
  intros Hs. unfold xkb_compose_state_feed.
  destruct (xkb_keysym_is_modifier ks) eqn:Hmod.
  { exists s, a. split; [done|]. split; [by apply step_ignored|done]. }
  destruct (feed_base s a Hs) as (n & base & Hn & Hctx & Hr & Hl & Hwalk & Hleaf).
  destruct Hs as [Htab _]. rewrite Htab, Hn. cbn zeta in *. rewrite Hctx, search_kids_walk by done.
  specialize (Hwalk [ks] ltac:(done)). pose proof (walk_dict (base_of a ++ [ks])) as Hdict.
  rewrite Hwalk in Hdict. destruct (walk base [ks]) as [[[i [r|]] eq]|].
  - destruct Hdict as [Hr1 Hr2]; [by destruct (base_of a)|]. eexists _, (mk_composing _ XKB_COMPOSE_COMPOSED).
    split; [done|]. split; [by apply step_composed; [| rewrite Hr1|]|]. split; [done|]. cbn. split; [by eexists|]. by exists r, eq.
  - destruct Hdict as [Hr1 Hr2]; [by destruct (base_of a)|]. eexists _, (mk_composing _ XKB_COMPOSE_COMPOSING).
    split; [done|]. split; [by apply step_composing|]. split; [done|]. cbn.
    split; [by destruct (base_of a)|]. split; [by eexists|]. by exists eq.
  - destruct Hdict as [Hr1 Hr2]; [by destruct (base_of a)|].
    destruct (decide (a_status a = XKB_COMPOSE_COMPOSING)) as [Hc|Hc].
    + eexists _, (mk_composing [] XKB_COMPOSE_CANCELLED). split; [done|].
      split; [by apply step_cancelled|]. split; [done|]. cbn. by rewrite Hc in Hleaf.
    + eexists _, (mk_composing [] XKB_COMPOSE_NOTHING). split; [done|].
      split; [by apply step_nothing|]. split; [done|]. cbn. split; [done|]. by destruct (a_status a).
Qed.

(** What the queries say. *)
Lemma status_rel s a : state_rel s a -> xkb_compose_state_get_status s = Ok (a_status a).
Proof using Htb.
  intros Hs. destruct (feed_base s a Hs) as (n & _ & Hn & _ & _ & _ & _ & (n' & Hn' & Hl)).
  assert (n' = n) as -> by congruence. destruct Hs as [Htab Hs].
  unfold xkb_compose_state_get_status. rewrite Htab, Hn.
  destruct (a_status a) eqn:Ha.
  - destruct Hs as [-> (p & -> & Hp)]. by rewrite Hp.
  - destruct Hs as (_ & (b & p & Hp & _) & eq & Hw). rewrite Hp. destruct (walk_facts _ _ _ _ Hw) as [Hi _].
    by rewrite (proj2 (Nat.eqb_neq _ _) Hi), Hl.
  - destruct Hs as ((b & p & Hp & _) & r & eq & Hw). rewrite Hp. destruct (walk_facts _ _ _ _ Hw) as [Hi _].
    by rewrite (proj2 (Nat.eqb_neq _ _) Hi), Hl.
  - destruct Hs as [-> (p & -> & Hp)]. by rewrite Hp.
Qed.

(** The node of the state and the result of the abstract state. *)
Lemma node_rel s a : state_rel s a ->
  exists n, ct_nodes tb !! cs_context s = Some n /\
    match cn_data n with
    | Internal _ => a_result d a = (None, XKB_KEY_NoSymbol)
    | Leaf u ks => a_result d a = result_of (ct_utf8 tb) (u, ks)
    end.
Proof using Htb Hd.
  intros [_ Hs]. unfold a_result. pose proof (tok_dummy _ _ Htb) as Hdummy. destruct (a_status a).
  - destruct Hs as [-> _]. by exists dummy_node.
  - destruct Hs as (_ & _ & eq & Hw). destruct (walk_facts _ _ _ _ Hw) as (_ & (n & Hn & Hdata) & _).
    exists n. by rewrite Hdata.
  - destruct Hs as (_ & r & eq & Hw). destruct (walk_facts _ _ _ _ Hw) as (_ & (n & Hn & Hdata) & _).
    exists n. rewrite Hdata. split; [done|]. rewrite d_find, walk_find, Hw. by destruct r.
  - destruct Hs as [-> _]. by exists dummy_node.
Qed.

Lemma one_sym_rel s a : state_rel s a ->
  xkb_compose_state_get_one_sym s = Ok (snd (a_result d a)).
Proof using Htb Hd.
  intros Hs. destruct (node_rel s a Hs) as (n & Hn & Hres). destruct Hs as [Htab _].
  unfold xkb_compose_state_get_one_sym. rewrite Htab, Hn. by destruct (cn_data n); rewrite Hres.
Qed.

Lemma snprintf_empty buffer size : 0 <= size ->
  snprintf_s buffer size [] = (0, if size >? 0 then 0 :: drop 1 buffer else buffer).
Proof using.
  intros H. unfold snprintf_s. rewrite take_nil. cbn [app length].
  destruct (Z.eqb_spec size 0) as [->|]; [done|].
  by rewrite Z.gtb_ltb, (proj2 (Z.ltb_lt 0 size)) by lia.
Qed.

Lemma utf8_rel s a buffer size : state_rel s a -> 0 <= size ->
  xkb_compose_state_get_utf8 s buffer size = Ok (snprintf_s buffer size (text_of (a_result d a))).
Proof using Htb Hd.
  intros Hs Hsize. destruct (node_rel s a Hs) as (n & Hn & Hres). destruct Hs as [Htab _].
  unfold xkb_compose_state_get_utf8. rewrite Htab, Hn. destruct (cn_data n) as [e|u ks]; rewrite Hres.
  { cbn [text_of]. by rewrite Z.eqb_refl, snprintf_empty. }
  unfold result_of. cbn [fst snd]. destruct (Nat.eqb_spec u 0) as [->|Hu]; [|done]. cbn [text_of andb].
  destruct (ks =? XKB_KEY_NoSymbol); cbn [negb].
  - unfold str_at. pose proof (tok_head _ _ Htb) as Hh. destruct (ct_utf8 tb) as [|b l]; [done|].
    injection Hh as ->. cbn. by rewrite snprintf_empty.
  - unfold keysym_text. destruct (xkb_keysym_to_utf8 ks XKB_KEYSYM_UTF8_MAX_SIZE) as [ret utf8].
    replace ((ret <? 0) || (ret =? 0)) with (ret <=? 0) by lia.
    destruct (ret <=? 0); [by rewrite snprintf_empty|done].
Qed.
End compose_states.

(** Keysyms fed one after the other. *)
Fixpoint feed_all (s : xkb_compose_state) (kss : list Z) : result xkb_compose_state :=
  match kss with
  | [] => Ok s
  | ks :: kss => match xkb_compose_state_feed s ks with
                 | Ok (_, s) => feed_all s kss
                 | Fault f => Fault f
                 end
  end.

Lemma feed_all_steps tb t d kss : table_ok tb t -> (forall seq, dict tb t seq = d seq) ->
  forall s a, state_rel tb t s a ->
  exists s' a', feed_all s kss = Ok s' /\ compose_steps d a kss a' /\ state_rel tb t s' a'.
Proof.
  intros Htb Hd. induction kss as [|ks kss IH]; intros s a Hs; [by exists s, a; repeat split; [constructor|apply Hs..]|].
  destruct (feed_step tb t d Htb Hd s a ks Hs) as (s1 & a1 & E & Hstep & Hs1).
  destruct (IH s1 a1 Hs1) as (s2 & a2 & E2 & Hsteps & Hs2).
  exists s2, a2. cbn [feed_all]. rewrite E. split; [done|]. split; [by econstructor|done].
Qed.
