(* ===== verification/ComposeIter.v ===== *)
(** * Iteration over a compose table

    The iterator gives the entries of the table in the order of their
    sequences, each once, and then nothing; it stays within its arrays. *)

From Stdlib Require Import ZArith Lia Sorted.
From stdpp Require Import base tactics list numbers.
From S2P Require Import Prelude Numbers Keymap Utf8 Keysym Compose ComposeTree ComposeSpec.

(** The results of the tree in order, below a sequence. *)
Fixpoint flatten (t : tst) (pre : list Z) : list (list Z * (nat * Z)) :=
  match t with
  | TNil => []
  | TNode _ k lo hi leaf eq =>
      flatten lo pre ++
      match leaf with Some r => [(pre ++ [k], r)] | None => flatten eq (pre ++ [k]) end ++
      flatten hi pre
  end.

(** ** The stack

    A frame is a node of the tree, processed or not.  The processed ones are
    the nodes of the current sequence. *)

Definition frame : Type := tst * bool.

Definition pend (f : frame) : pending_node := mk_pending (addr (fst f)) (snd f).

Fixpoint path (st : list frame) : list Z :=
  match st with
  | [] => []
  | (TNode _ k _ _ _ _, true) :: st => path st ++ [k]
  | _ :: st => path st
  end.

(** What is left to give. *)
Fixpoint remaining (st : list frame) : list (list Z * (nat * Z)) :=
  match st with
  | [] => []
  | (TNode _ k _ hi leaf eq, processed) :: st =>
      (if processed then []
       else match leaf with Some r => [(path st ++ [k], r)] | None => flatten eq (path st ++ [k]) end) ++
      flatten hi (path st) ++ remaining st
  | (TNil, _) :: st => remaining st
  end.

Fixpoint left_spine (t : tst) (st : list frame) : list frame :=
  match t with
  | TNil => st
  | TNode _ _ lo _ _ _ => left_spine lo ((t, false) :: st)
  end.

Section iteration.
Context (nodes : list compose_node).

Definition subtree_ok (t : tst) (len : nat) : Prop :=
  repr nodes t /\ tree_ok t /\ (length (addrs t) <= length nodes)%nat /\
  (len + depth t <= COMPOSE_MAX_LHS_LEN)%nat.

Fixpoint stack_ok (st : list frame) : Prop :=
  match st with
  | [] => True
  | f :: st => fst f <> TNil /\ subtree_ok (fst f) (length (path st)) /\ stack_ok st
  end.

Lemma subtree_parts i k lo hi leaf eq len :
  subtree_ok (TNode i k lo hi leaf eq) len ->
  i <> O /\ nodes !! i = Some (mk_cnode k (addr lo) (addr hi) (data_of leaf eq)) /\
  (leaf = None <-> eq <> TNil) /\ (len < COMPOSE_MAX_LHS_LEN)%nat /\
  subtree_ok lo len /\ subtree_ok hi len /\ subtree_ok eq (S len).
Proof.
  intros ((Hi & Hn & Hlo & Hhi & Heq) & (Hle & _ & _ & Hok1 & Hok2 & Hok3) & Hl & Hd).
  cbn [addrs length depth] in Hl, Hd. rewrite !length_app in Hl.
  repeat split; try done; try tauto; lia.
Qed.

Lemma addr_nil t len : subtree_ok t len -> addr t = O <-> t = TNil.
Proof. intros [H _]. destruct t; [done|]. destruct H as [H _]. by cbn. Qed.

Lemma left_spine_path t : forall st, path (left_spine t st) = path st.
Proof. induction t; intros st; cbn; [done|]. by rewrite IHt1. Qed.

Lemma left_spine_remaining t : forall st,
  remaining (left_spine t st) = flatten t (path st) ++ remaining st.
Proof.
  induction t as [|i k lo IHlo hi _ leaf eq _]; intros st; [done|]. cbn [left_spine].
  rewrite IHlo. cbn [path remaining flatten]. by rewrite <- !app_assoc.
Qed.

Lemma left_spine_ok t : forall st,
  subtree_ok t (length (path st)) -> stack_ok st -> stack_ok (left_spine t st).
Proof.
  induction t as [|i k lo IHlo hi _ leaf eq _]; intros st Ht Hst; [done|]. cbn [left_spine].
  pose proof (subtree_parts _ _ _ _ _ _ _ Ht) as (_ & _ & _ & _ & Hlo & _). by apply IHlo.
Qed.

(** The top of the spine: a node as deep as the tree at most. *)
Lemma left_spine_top t : forall st, t <> TNil ->
  exists u rest, left_spine t st = (u, false) :: rest /\ u <> TNil /\ (depth u <= depth t)%nat.
Proof.
  induction t as [|i k lo IHlo hi _ leaf eq _]; intros st Hne; [done|]. cbn [left_spine].
  destruct (decide (lo = TNil)) as [->|Hlo]; [by eexists _, _|].
  destruct (IHlo ((TNode i k lo hi leaf eq, false) :: st) Hlo) as (u & rest & E & Hu & Hd).
  exists u, rest. split; [done|]. split; [done|]. cbn [depth]. lia.
Qed.

Lemma left_spine_app t : forall st, left_spine t st = left_spine t [] ++ st.
Proof.
  induction t as [|i k lo IHlo hi _ leaf eq _]; intros st; [done|]. cbn [left_spine].
  rewrite IHlo, (IHlo [_]). by rewrite <- app_assoc.
Qed.

Lemma push_left_spine t : forall fuel st len,
  t <> TNil -> subtree_ok t len -> (length (addrs t) <= S fuel)%nat ->
  push_left fuel nodes (addr t) (pend <$> (t, false) :: st) = Ok (pend <$> left_spine t st).
Proof.
  induction t as [|i k lo IHlo hi _ leaf eq _]; intros fuel st len Hne Ht Hf; [done|].
  destruct (subtree_parts _ _ _ _ _ _ _ Ht) as (Hi & Hn & _ & _ & Hlo & _).
  cbn [addrs length] in Hf. rewrite !length_app in Hf. cbn [left_spine].
  destruct (decide (lo = TNil)) as [->|Hlo']; [destruct fuel; cbn [push_left addr]; by rewrite Hn|].
  assert (addr lo <> O) as Ha by (intros E; by apply (addr_nil lo len) in E).
  assert (length (addrs lo) <> O) as Hl0 by by destruct lo.
  destruct fuel as [|fuel]; [lia|]. cbn [push_left addr]. rewrite Hn. cbn [cn_lokid].
  rewrite (proj2 (Nat.eqb_neq _ _) Ha). apply (IHlo _ ((TNode i k lo hi leaf eq, false) :: st) len); [done|done|lia].
Qed.

(** The removal of processed nodes. *)
Lemma pop_processed_spec st : stack_ok st ->
  exists st' (flag : bool), pop_processed nodes (pend <$> st) (length (path st)) =
      Ok (pend <$> st', length (path st'), flag) /\
    stack_ok st' /\ path st' `prefix_of` path st /\
    match st' with
    | [] => remaining st = []
    | (u, processed) :: rest => processed = false /\
        remaining st = (if flag then remaining (left_spine u rest) else remaining st')
    end.
Proof.
  induction st as [|[u processed] st IH]; intros Hst; [by exists [], false|].
  destruct Hst as (Hne & Hu & Hst). cbn [fst] in *. destruct u as [|i k lo hi leaf eq]; [done|].
  destruct processed; [|by exists ((TNode i k lo hi leaf eq, false) :: st), false].
  destruct (subtree_parts _ _ _ _ _ _ _ Hu) as (Hi & Hn & _ & _ & _ & Hhi & _).
  cbn [path]. rewrite length_app, Nat.add_1_r. cbn [fmap list_fmap pend fst snd pop_processed pn_processed pn_offset addr].
  rewrite Hn. cbn [cn_hikid]. destruct (Nat.eqb_spec (addr hi) 0) as [E|E]; cbn [negb].
  - apply (addr_nil hi _ Hhi) in E as ->. destruct (IH Hst) as (st' & flag & E & Hok & Hpre & Hrem).
    exists st', flag. split; [done|]. split; [done|]. split; [by apply prefix_app_r|]. exact Hrem.
  - exists ((hi, false) :: st), true. assert (hi <> TNil) as Hhn by (intros ->; done).
    assert (path ((hi, false) :: st) = path st) as Hp by by destruct hi.
    rewrite Hp. split; [done|]. split; [done|]. split; [by apply prefix_app_r|]. split; [done|].
    rewrite left_spine_remaining. done.
Qed.
End iteration.

(** The entry of a sequence. *)
Definition entry_of (utf8 : list Z) (x : list Z * (nat * Z)) : xkb_compose_table_entry :=
  mk_centry (fst x) (snd (snd x)) (str_at utf8 (fst (snd x))).

Lemma take_insert_next {A} (l : list A) n x (p : list A) :
  take n l = p -> length p = n -> (n < length l)%nat -> take (S n) (<[n := x]> l) = p ++ [x].
Proof.
  intros Ht Hp Hn. rewrite (take_S_r _ _ x) by (by apply list_lookup_insert_eq).
  by rewrite take_insert_ge by lia; rewrite Ht.
Qed.

Section iterator.
Context (tb : xkb_compose_table).

(** The iterator has the stack. *)
Record iter_ok (it : xkb_compose_table_iterator) (st : list frame) : Prop := {
  iok_table : ci_table it = tb;
  iok_stack : ci_pending it = pend <$> st;
  iok_ok : stack_ok (ct_nodes tb) st;
  iok_length : ci_length it = length (path st);
  iok_array : length (ci_sequence it) = COMPOSE_MAX_LHS_LEN;
  iok_sequence : take (ci_length it) (ci_sequence it) = path st
}.

Lemma go_down_spec fuel : forall u rest seq,
  stack_ok (ct_nodes tb) ((u, false) :: rest) -> (depth u <= fuel)%nat ->
  length seq = COMPOSE_MAX_LHS_LEN -> take (length (path rest)) seq = path rest ->
  exists x it st', go_down fuel tb seq (length (path rest)) (pend <$> (u, false) :: rest) =
      Ok (entry_of (ct_utf8 tb) x, it) /\ iter_ok it st' /\
    remaining ((u, false) :: rest) = x :: remaining st'.
Proof.
  induction fuel as [|fuel IH]; intros u rest seq Hst Hfuel Hlen Hseq.
  { destruct Hst as [Hne _]. destruct u; [done|]. cbn [depth] in Hfuel. lia. }
  destruct Hst as (Hne & Hu & Hst). cbn [fst] in *. destruct u as [|i k lo hi leaf eq] eqn:Eu; [done|].
  rewrite <- Eu in Hu. pose proof Hu as Hu'. rewrite Eu in Hu'.
  destruct (subtree_parts _ _ _ _ _ _ _ _ Hu') as (Hi & Hn & Hle & Hlt & _ & Hhi & Heq).
  cbn [fmap list_fmap pend fst snd addr go_down pn_offset]. rewrite Hn.
  rewrite (proj2 (Nat.leb_gt _ _)) by lia. cbn [cn_keysym cn_data].
  assert (take (S (length (path rest))) (<[length (path rest) := k]> seq) = path rest ++ [k]) as Htake
    by (apply take_insert_next; [done|done|lia]).
  assert (S (length (path rest)) = length (path ((u, true) :: rest))) as Hl
    by (rewrite Eu; cbn [path]; rewrite length_app; cbn; lia).
  assert (stack_ok (ct_nodes tb) ((u, true) :: rest)) as Hst1 by (split; [by rewrite Eu|done]).
  destruct leaf as [[v ks]|]; cbn [data_of].
  - rewrite Htake. exists (path rest ++ [k], (v, ks)). eexists _, ((u, true) :: rest). split; [done|].
    split; [|by rewrite Eu]. split; cbn [ci_table ci_pending ci_sequence ci_length]; try done.
    + by rewrite Eu.
    + by rewrite length_insert.
    + by rewrite Eu.
  - assert (eq <> TNil) as Heqn by by apply Hle.
    change (mk_pending (addr eq) false :: mk_pending i true :: (pend <$> rest))
      with (pend <$> (eq, false) :: (TNode i k lo hi None eq, true) :: rest).
    rewrite <- Eu. rewrite (push_left_spine _ eq _ _ _ Heqn Heq) by (destruct Heq as (_ & _ & ? & _); lia).
    destruct (left_spine_top eq ((u, true) :: rest) Heqn) as (w & rest' & E & Hw & Hd).
    rewrite E. cbn [depth] in Hfuel.
    assert (path rest' = path ((u, true) :: rest)) as Hpath.
    { rewrite <- (left_spine_path eq ((u, true) :: rest)), E. by destruct w. }
    destruct (IH w rest' (<[length (path rest) := k]> seq)) as (x & it & st' & E2 & Hit & Hrem).
    + rewrite <- E. apply left_spine_ok; [by rewrite <- Hl|done].
    + lia.
    + by rewrite length_insert.
    + rewrite Hpath, <- Hl, Htake, Eu. done.
    + exists x, it, st'. rewrite Hl, <- Hpath. split; [exact E2|]. split; [done|].
      rewrite <- Hrem, <- E, left_spine_remaining, Eu. done.
Qed.

(** A call gives the next entry. *)
Lemma iterator_next_spec it st : iter_ok it st ->
  match remaining st with
  | [] => exists it', xkb_compose_table_iterator_next it = Ok (None, it') /\ iter_ok it' []
  | x :: l => exists it' st', xkb_compose_table_iterator_next it = Ok (Some (entry_of (ct_utf8 tb) x), it') /\
      iter_ok it' st' /\ remaining st' = l
  end.
Proof.
  intros [Ht Hs Hok Hl Ha Hq]. unfold xkb_compose_table_iterator_next. rewrite Ht, Hs, Hl.
  destruct (pop_processed_spec (ct_nodes tb) st Hok) as (st' & flag & E & Hok' & Hpre & Hrem). rewrite E.
  assert (take (length (path st')) (ci_sequence it) = path st') as Hq'.
  { destruct Hpre as [l Hpre]. apply (f_equal (take (length (path st')))) in Hq.
    rewrite Hpre, take_app_length, take_take, Hl, Hpre, length_app in Hq.
    by rewrite Nat.min_l in Hq by lia. }
  assert (forall u rest, stack_ok (ct_nodes tb) ((u, false) :: rest) -> path rest = path st' ->
    exists x it' st'', match go_down (length (ct_nodes tb)) tb (ci_sequence it) (length (path st')) (pend <$> (u, false) :: rest) with
      | Ok (e, it) => Ok (Some e, it) | Fault f => Fault f end
      = Ok (Some (entry_of (ct_utf8 tb) x), it') /\
      iter_ok it' st'' /\ remaining ((u, false) :: rest) = x :: remaining st'') as Hdown.
  { intros u rest Hst Hp. destruct (go_down_spec (length (ct_nodes tb)) u rest (ci_sequence it) Hst)
      as (x & it' & st'' & Eg & Hit & Hx); [|done|by rewrite Hp|].
    - destruct Hst as (_ & (_ & _ & Hlen & _) & _). cbn [fst] in Hlen.
      enough (depth u <= length (addrs u))%nat by lia. clear.
      induction u; cbn [depth addrs length]; rewrite ?length_app; lia.
    - exists x, it', st''. rewrite <- Hp, Eg. done. }
  destruct st' as [|[u processed] rest].
  - rewrite Hrem. eexists. split; [done|]. by split.
  - destruct Hrem as [-> Hrem]. cbn [fmap list_fmap]. destruct flag.
    + destruct Hok' as (Hne & Hu & Hrest). cbn [fst] in *.
      rewrite (push_left_spine _ u _ rest _ Hne Hu) by (destruct Hu as (_ & _ & ? & _); lia).
      destruct (left_spine_top u rest Hne) as (w & rest' & Es & Hw & _).
      pose proof (left_spine_ok _ u rest Hu Hrest) as Hst. pose proof (left_spine_path u rest) as Hp.
      rewrite Hrem, Es in *. assert (path rest' = path ((u, false) :: rest)) as Hp'.
      { transitivity (path rest); [|by destruct u]. rewrite <- Hp. by destruct w. }
      destruct (Hdown w rest' Hst Hp') as (x & it' & st'' & -> & Hit & ->). by exists it', st''.
    + assert (path rest = path ((u, false) :: rest)) as Hp by by destruct u.
      destruct (Hdown u rest Hok' Hp) as (x & it' & st'' & Ed & Hit & Hx).
      assert (remaining st = x :: remaining st'') as -> by (rewrite Hrem; exact Hx). exists it', st''. split; [exact Ed|done].
Qed.
End iterator.

(** The calls of a client until there is no entry. *)
Fixpoint drain (fuel : nat) (it : xkb_compose_table_iterator) : result (list xkb_compose_table_entry) :=
  match fuel with
  | O => Fault FaultFuel
  | S fuel =>
      match xkb_compose_table_iterator_next it with
      | Fault f => Fault f
      | Ok (None, _) => Ok []
      | Ok (Some e, it) => match drain fuel it with Ok l => Ok (e :: l) | Fault f => Fault f end
      end
  end.

Lemma drain_spec tb l : forall it st, iter_ok tb it st -> remaining st = l ->
  drain (S (length l)) it = Ok (entry_of (ct_utf8 tb) <$> l).
Proof.
  induction l as [|x l IH]; intros it st Hit Hl; pose proof (iterator_next_spec tb it st Hit) as H;
    rewrite Hl in H.
  - destruct H as (it' & E & _). cbn [length drain]. by rewrite E.
  - destruct H as (it' & st' & E & Hit' & Hl'). cbn [length drain fmap list_fmap]. rewrite E.
    cbn [length drain] in IH. by rewrite (IH it' st').
Qed.

Lemma iterator_new_spec tb t : table_ok tb t ->
  exists it st, xkb_compose_table_iterator_new tb = Ok it /\ iter_ok tb it st /\ remaining st = flatten t [].
Proof.
  intros H. unfold xkb_compose_table_iterator_new. pose proof (tok_root _ _ H) as Hroot.
  assert (subtree_ok (ct_nodes tb) t 0) as Ht.
  { split; [apply H|]. split; [apply H|]. split; [by apply addrs_fuel|]. apply H. }
  destruct (Nat.eqb (length (ct_nodes tb)) 1).
  - apply (addr_nil _ _ _ Ht) in Hroot as ->. by eexists _, [].
  - assert (t <> TNil) as Hne by (intros ->; done).
    change [mk_pending 1 false] with [mk_pending 1%nat false]. rewrite <- Hroot.
    change [mk_pending (addr t) false] with (pend <$> [(t, false)]).
    rewrite (push_left_spine _ _ _ _ _ Hne Ht) by (pose proof (addrs_fuel _ _ H); lia).
    pose proof (left_spine_path t []) as Hp.
    eexists _, (left_spine t []). split; [done|]. split; [split; cbn [ci_table ci_pending ci_sequence ci_length]|].
    + done.
    + done.
    + by apply left_spine_ok.
    + by rewrite Hp.
    + done.
    + by rewrite Hp.
    + rewrite left_spine_remaining. by rewrite app_nil_r.
Qed.

(** ** The order of the entries *)

Fixpoint lex_lt (s s' : list Z) : Prop :=
  match s, s' with
  | _, [] => False
  | [], _ :: _ => True
  | a :: s, b :: s' => a < b \/ (a = b /\ lex_lt s s')
  end.

Lemma lex_lt_app pre s s' : lex_lt s s' -> lex_lt (pre ++ s) (pre ++ s').
Proof. induction pre as [|a pre IH]; [done|]. cbn. auto. Qed.

Lemma find_head t : forall s r, find t s = Some r -> exists a rest, s = a :: rest /\ a ∈ heads t.
Proof.
  induction t as [|i k lo IHlo hi IHhi leaf eq IHeq]; intros s r Hf; [done|].
  destruct s as [|a rest]; [done|]. exists a, rest. split; [done|]. cbn [find heads] in *.
  rewrite elem_of_app, elem_of_cons. destruct (Z.ltb_spec a k).
  - destruct (IHlo _ _ Hf) as (? & ? & [= <- <-] & ?). auto.
  - destruct (Z.gtb_spec a k); [destruct (IHhi _ _ Hf) as (? & ? & [= <- <-] & ?); auto|].
    right. left. lia.
Qed.

(** The results of a node, by the part of the tree they are in. *)
Lemma find_node t i k lo hi leaf eq s r : t = TNode i k lo hi leaf eq -> tree_ok t ->
  find t s = Some r <->
    find lo s = Some r \/ (exists rest, s = k :: rest /\ (rest = [] /\ leaf = Some r \/ find eq rest = Some r)) \/
    find hi s = Some r.
Proof.
  intros -> (Hle & Hlo & Hhi & _). rewrite list.Forall_forall in Hlo, Hhi. split.
  - destruct s as [|a rest]; [done|]. cbn [find]. destruct (Z.ltb_spec a k); [auto|].
    destruct (Z.gtb_spec a k); [auto|]. intros H'. right. left. exists rest. split; [f_equal; lia|].
    destruct rest; auto.
  - intros [H|[(rest & -> & H)|H]].
    + destruct (find_head _ _ _ H) as (a & rest & -> & Ha). cbn [find].
      by rewrite (proj2 (Z.ltb_lt a k)) by by apply Hlo.
    + rewrite find_node_eq. destruct H as [[-> ->]|H]; [done|]. destruct rest; [by rewrite find_nil in H|done].
    + destruct (find_head _ _ _ H) as (a & rest & -> & Ha). cbn [find].
      specialize (Hhi a Ha). rewrite (proj2 (Z.ltb_ge a k)), Z.gtb_ltb, (proj2 (Z.ltb_lt k a)) by lia. done.
Qed.

Lemma flatten_elem t : forall pre s r, tree_ok t ->
  (s, r) ∈ flatten t pre <-> exists s', s = pre ++ s' /\ find t s' = Some r.
Proof.
  induction t as [|i k lo IHlo hi IHhi leaf eq IHeq]; intros pre s r Hok.
  { cbn. rewrite elem_of_nil. split; [done|]. by intros (? & _ & ?). }
  pose proof Hok as (Hle & _ & _ & Hok1 & Hok2 & Hok3).
  setoid_rewrite (find_node _ i k lo hi leaf eq _ _ eq_refl Hok).
  cbn [flatten]. rewrite !elem_of_app, IHlo, IHhi by done.
  assert ((s, r) ∈ match leaf with Some r0 => [(pre ++ [k], r0)] | None => flatten eq (pre ++ [k]) end <->
    exists s', s = pre ++ s' /\ exists rest, s' = k :: rest /\
      (rest = [] /\ leaf = Some r \/ find eq rest = Some r)) as ->.
  { destruct leaf as [r0|].
    - apply leaf_no_eq in Hle as ->. rewrite list_elem_of_singleton. split.
      + intros [= -> ->]. exists [k]. split; [done|]. exists []. auto.
      + intros (s' & -> & rest & -> & [[-> [= ->]]|?]); done.
    - rewrite IHeq by done. split.
      + intros (s' & -> & H). exists (k :: s'). rewrite <- app_assoc. split; [done|]. exists s'. auto.
      + intros (s' & -> & rest & -> & [[_ ?]|H]); [done|]. exists rest. by rewrite <- app_assoc. }
  split.
  - intros [(s' & -> & H)|[(s' & -> & H)|(s' & -> & H)]]; exists s'; auto.
  - intros (s' & -> & [H|[H|H]]); [left|right; left|right; right]; by exists s'.
Qed.

Lemma sorted_app {A} (R : A -> A -> Prop) l l' :
  StronglySorted R l -> StronglySorted R l' -> (forall x y, x ∈ l -> y ∈ l' -> R x y) ->
  StronglySorted R (l ++ l').
Proof.
  intros Hl Hl' HR. induction Hl as [|x l Hs IH Hx]; [done|]. cbn. constructor.
  - apply IH. intros a b Ha. apply HR. by right.
  - rewrite list.Forall_app. split; [done|]. apply list.Forall_forall. intros y. apply HR. by left.
Qed.

Lemma flatten_sorted t : forall pre, tree_ok t ->
  StronglySorted (fun x y => lex_lt (fst x) (fst y)) (flatten t pre).
Proof.
  induction t as [|i k lo IHlo hi IHhi leaf eq IHeq]; intros pre Hok; [constructor|].
  pose proof Hok as (Hle & Hlo & Hhi & Hok1 & Hok2 & Hok3). rewrite list.Forall_forall in Hlo, Hhi.
  assert (forall u x, tree_ok u -> x ∈ flatten u pre -> exists a rest, fst x = pre ++ a :: rest /\ a ∈ heads u) as Hhead.
  { intros u [s r] Hu (s' & -> & Hf)%flatten_elem; [|done].
    destruct (find_head _ _ _ Hf) as (a & rest & -> & Ha). by exists a, rest. }
  assert (forall x, x ∈ match leaf with Some r => [(pre ++ [k], r)] | None => flatten eq (pre ++ [k]) end ->
    exists rest, fst x = pre ++ k :: rest) as Hown.
  { intros [s r]. destruct leaf; [intros [= -> ->]%list_elem_of_singleton; by exists []|].
    intros (s' & -> & _)%flatten_elem; [|done]. exists s'. by rewrite <- app_assoc. }
  cbn [flatten]. apply sorted_app; [by apply IHlo| |].
  - apply sorted_app; [|by apply IHhi|].
    + destruct leaf; [repeat constructor|by apply IHeq].
    + intros x y (rest & ->)%Hown (a & rest' & -> & Ha)%Hhead; [|done]. apply lex_lt_app. left. auto.
  - intros x y (a & rest & -> & Ha)%Hhead Hy; [|done].
    apply elem_of_app in Hy as [(rest' & ->)%Hown|(b & rest' & -> & Hb)%Hhead]; [..|done].
    + apply lex_lt_app. left. auto.
    + apply lex_lt_app. left. specialize (Hlo a Ha). specialize (Hhi b Hb). cbn in *. lia.
Qed.

(** ** Tables from productions *)

Definition empty_table : xkb_compose_table := mk_ctable [dummy_node] [0].

Definition file_ok (ps : list production) : Prop :=
  Forall production_ok ps /\ 1 + nodes_needed ps < MAX_COMPOSE_NODES /\ 1 + bytes_needed ps < 2 ^ 31.

Lemma file_table ps : file_ok ps ->
  exists tb t, add_productions empty_table ps = Ok tb /\ table_ok tb t /\
    forall seq, dict tb t seq = dict_of ps seq.
Proof.
  intros (Hps & Hn & Hb). by apply (add_productions_ok ps empty_table TNil table_new_ok).
Qed.

Lemma compose_step_det d a ks a1 a2 : compose_step d a ks a1 -> compose_step d a ks a2 -> a1 = a2.
Proof.
  destruct 1 as [?|? [r Hr] ?|? ? ?|? ? ? ?|? ? ? ?]; destruct 1 as [?|? [r' Hr'] ?|? ? ?|? ? ? ?|? ? ? ?];
    congruence || tauto.
Qed.

Lemma compose_steps_det d a kss a1 : compose_steps d a kss a1 -> forall a2, compose_steps d a kss a2 -> a1 = a2.
Proof.
  induction 1 as [a|a ks a' kss a'' Hstep Hsteps IH]; intros a2 H2; [by inversion H2|].
  inversion H2 as [|? ? b ? ? Hs2 Hss2]; subst. apply IH.
  by rewrite (compose_step_det _ _ _ _ _ Hstep Hs2).
Qed.

(** C17. A compose file and a state implement the dictionary of the file: the
    productions of the file go into a table without a fault, and whatever
    keysyms are then fed, the state is the one that the sequences of the
    dictionary call for, with its status, its keysym and its text.  A
    production takes the place of those it overlaps with. *)
Theorem compose_refines (ps : list production) (kss : list Z) (buffer : list Z) (size : Z) :
  file_ok ps -> 0 <= size ->
  exists tb s a,
    add_productions empty_table ps = Ok tb /\
    feed_all (mk_cstate tb 0 0) kss = Ok s /\
    compose_steps (dict_of ps) (mk_composing [] XKB_COMPOSE_NOTHING) kss a /\
    (forall a', compose_steps (dict_of ps) (mk_composing [] XKB_COMPOSE_NOTHING) kss a' -> a' = a) /\
    xkb_compose_state_get_status s = Ok (a_status a) /\
    xkb_compose_state_get_one_sym s = Ok (snd (a_result (dict_of ps) a)) /\
    xkb_compose_state_get_utf8 s buffer size =
      Ok (snprintf_s buffer size (text_of (a_result (dict_of ps) a))).
Proof.
  intros Hps Hsize. destruct (file_table ps Hps) as (tb & t & E & Htb & Hd).
  destruct (feed_all_steps tb t (dict_of ps) kss Htb Hd (mk_cstate tb 0 0) (mk_composing [] XKB_COMPOSE_NOTHING))
    as (s & a & Ef & Hsteps & Hs).
  { split; [done|]. split; [done|]. by apply (leafness_dummy tb t). }
  exists tb, s, a. split; [done|]. split; [done|]. split; [done|].
  split; [intros a' Ha'; symmetry; by eapply compose_steps_det|].
  split; [by apply (status_rel tb t)|]. split; [by apply (one_sym_rel tb t)|by apply (utf8_rel tb t)].
Qed.

(** A compose file of the documentation of table.h, with a production that
    overlaps with an earlier one. *)
Definition sample_productions : list production :=
  [mk_production [65; 66; 67] None (Some [88]); mk_production [65; 66; 68] (Some 89) None;
   mk_production [69; 70] (Some 90) (Some [90; 90]); mk_production [65; 65; 71] None (Some [87]);
   mk_production [69; 70; 71] (Some 200) (Some [86])].

Lemma sample_file_ok : file_ok sample_productions.
Proof.
  assert (forall lhs k str, lhs <> [] -> (length lhs <= 10)%nat -> Forall (fun b => b <> 0) (default [] str) ->
    k <> Some XKB_KEY_NoSymbol -> production_ok (mk_production lhs k str)) as H.
  { intros lhs k str H1 H2 H3 H4. split; cbn; [done|done| |done]. by intros s ->. }
  split; [|done]. unfold sample_productions.
  repeat (apply Forall_cons_2; [apply H; [done|cbn; lia|by repeat constructor|done]|]). apply Forall_nil_2.
Qed.

Lemma compose_refines_witness :
  exists tb s, add_productions empty_table sample_productions = Ok tb /\
    feed_all (mk_cstate tb 0 0) [65; 66; 68] = Ok s /\
    xkb_compose_state_get_status s = Ok XKB_COMPOSE_COMPOSED /\
    xkb_compose_state_get_one_sym s = Ok 89.
Proof.
  destruct (compose_refines sample_productions [65; 66; 68] [7; 7] 2 sample_file_ok ltac:(lia))
    as (tb & s & a & Htb & Hs & _ & Hdet & Hst & Hks & _).
  exists tb, s. split; [exact Htb|]. split; [exact Hs|].
  vm_compute in Htb. injection Htb as <-. vm_compute in Hs. injection Hs as <-. by split.
Defined.

(** ** A sequence ends *)

Lemma dict_length ps seq : Forall production_ok ps -> is_Some (dict_of ps seq) -> (length seq <= COMPOSE_MAX_LHS_LEN)%nat.
Proof.
  intros Hps. unfold dict_of. assert (is_Some ((fun _ : list Z => None (A:=result_t)) seq) -> (length seq <= COMPOSE_MAX_LHS_LEN)%nat) as H by (by intros []).
  revert H. generalize (fun _ : list Z => None (A:=result_t)). induction Hps as [|p ps Hp _ IH]; intros d H; cbn [foldl]; [done|].
  apply IH. unfold dict_add. case_decide as E; [intros _; rewrite E; apply Hp|]. case_decide; [by intros []|done].
Qed.

Lemma begins_length ps seq : Forall production_ok ps -> begins (dict_of ps) seq -> (length seq < COMPOSE_MAX_LHS_LEN)%nat.
Proof.
  intros Hps (rest & Hne & H). apply (dict_length ps) in H; [|done]. rewrite length_app in H. destruct rest; [done|cbn in H; lia].
Qed.

(** The keysyms that are not ignored. *)
Definition composing_keysyms (kss : list Z) : list Z := filter (fun ks => xkb_keysym_is_modifier ks = false) kss.

(** Each keysym of a sequence brings the state closer to the longest one. *)
Lemma leaves_composing tb t ps more : table_ok tb t -> (forall seq, dict tb t seq = dict_of ps seq) -> Forall production_ok ps ->
  forall s a, state_rel tb t s a -> (length (base_of a) < COMPOSE_MAX_LHS_LEN)%nat ->
  (COMPOSE_MAX_LHS_LEN <= length (base_of a) + length (composing_keysyms more))%nat ->
  exists pre rest s' a', more = pre ++ rest /\ pre <> [] /\ feed_all s pre = Ok s' /\ state_rel tb t s' a' /\ a_status a' <> XKB_COMPOSE_COMPOSING.
Proof.
  intros Htb Hd Hps. induction more as [|ks more IH]; intros s a Hs Hlt Hle; [cbn in Hle; lia|].
  destruct (feed_step tb t (dict_of ps) Htb Hd s a ks Hs) as (s1 & a1 & E & Hstep & Hs1).
  assert (a_status a1 = XKB_COMPOSE_COMPOSING \/ xkb_keysym_is_modifier ks = true ->
    (length (base_of a1) < COMPOSE_MAX_LHS_LEN)%nat /\
    (COMPOSE_MAX_LHS_LEN <= length (base_of a1) + length (composing_keysyms more))%nat) as Hgo.
  { unfold composing_keysyms in *. rewrite filter_cons in Hle.
    inversion Hstep as [Hm|Hm|Hm _ Hb|Hm|Hm]; subst a1; cbn [a_status]; try (intros [?|?]; congruence).
    - rewrite Hm in Hle. case_decide; [done|]. done.
    - intros _. rewrite Hm in Hle. case_decide; [|done]. cbn in Hle. cbn [base_of a_status a_seq].
      split; [by eapply begins_length|]. rewrite length_app. cbn. lia. }
  destruct (decide (a_status a1 = XKB_COMPOSE_COMPOSING \/ xkb_keysym_is_modifier ks = true)) as [Hc|Hc].
  - destruct (IH s1 a1 Hs1) as (pre & rest & s2 & a2 & -> & _ & E2 & H2); [by apply Hgo..|].
    exists (ks :: pre), rest, s2, a2. split; [done|]. split; [done|]. split; [|done]. cbn. by rewrite E.
  - exists [ks], more, s1, a1. split; [done|]. split; [done|]. cbn. rewrite E. split; [done|]. split; [done|]. tauto.
Qed.

Lemma steps_length ps a kss a' : Forall production_ok ps -> (length (base_of a) < COMPOSE_MAX_LHS_LEN)%nat ->
  compose_steps (dict_of ps) a kss a' -> (length (base_of a') < COMPOSE_MAX_LHS_LEN)%nat.
Proof.
  intros Hps Ha. induction 1 as [|a ks a1 kss a2 Hstep _ IH]; [done|]. apply IH. destruct Hstep; cbn [base_of a_status a_seq length];
    [done|unfold COMPOSE_MAX_LHS_LEN; lia|by eapply begins_length|unfold COMPOSE_MAX_LHS_LEN; lia..].
Qed.

(** C18. No state stays in the middle of a sequence: after any keysyms, among
    the next ones the status leaves [XKB_COMPOSE_COMPOSING] at the latest with
    the tenth keysym that is not a modifier, the longest sequence of a file. *)
Theorem compose_leaves_composing (ps : list production) (kss more : list Z) :
  file_ok ps -> (COMPOSE_MAX_LHS_LEN <= length (composing_keysyms more))%nat ->
  exists tb s, add_productions empty_table ps = Ok tb /\ feed_all (mk_cstate tb 0 0) kss = Ok s /\
    exists pre rest s' status, more = pre ++ rest /\ pre <> [] /\ feed_all s pre = Ok s' /\
      xkb_compose_state_get_status s' = Ok status /\ status <> XKB_COMPOSE_COMPOSING.
Proof.
  intros Hps Hmore. destruct (file_table ps Hps) as (tb & t & E & Htb & Hd).
  destruct (feed_all_steps tb t (dict_of ps) kss Htb Hd (mk_cstate tb 0 0) (mk_composing [] XKB_COMPOSE_NOTHING))
    as (s & a & Ef & Hsteps & Hs).
  { split; [done|]. split; [done|]. by apply (leafness_dummy tb t). }
  exists tb, s. split; [done|]. split; [done|]. destruct Hps as [Hps _].
  destruct (leaves_composing tb t ps more Htb Hd Hps s a Hs) as (pre & rest & s' & a' & -> & Hne & E' & Hs' & Ha').
  - eapply steps_length; [done| |exact Hsteps]. cbn. unfold COMPOSE_MAX_LHS_LEN. lia.
  - lia.
  - exists pre, rest, s', (a_status a'). repeat (split; [done|]). split; [|done]. by apply (status_rel tb t).
Qed.

Lemma compose_leaves_composing_witness :
  exists tb s, add_productions empty_table sample_productions = Ok tb /\ feed_all (mk_cstate tb 0 0) [65; 66] = Ok s /\
    xkb_compose_state_get_status s = Ok XKB_COMPOSE_COMPOSING /\
    exists pre rest s' status, repeat 65 10 = pre ++ rest /\ pre <> [] /\ feed_all s pre = Ok s' /\
      xkb_compose_state_get_status s' = Ok status /\ status <> XKB_COMPOSE_COMPOSING.
Proof.
  destruct (compose_leaves_composing sample_productions [65; 66] (repeat 65 10) sample_file_ok ltac:(vm_compute; lia))
    as (tb & s & Htb & Hs & H).
  exists tb, s. split; [exact Htb|]. split; [exact Hs|]. split; [|exact H].
  vm_compute in Htb. injection Htb as <-. vm_compute in Hs. injection Hs as <-. done.
Defined.

(** The iterator gives every sequence of the dictionary once, in the order of
    the keysyms, with its keysym and its string, and then nothing. *)
Theorem iterator_enumerates (ps : list production) :
  file_ok ps ->
  exists tb it es,
    add_productions empty_table ps = Ok tb /\
    xkb_compose_table_iterator_new tb = Ok it /\
    drain (S (length es)) it = Ok es /\
    StronglySorted (fun e e' => lex_lt (en_sequence e) (en_sequence e')) es /\
    forall e, e ∈ es <-> exists r, dict_of ps (en_sequence e) = Some r /\
      en_keysym e = snd r /\ en_utf8 e = default [] (fst r).
Proof.
  intros Hps. destruct (file_table ps Hps) as (tb & t & E & Htb & Hd).
  destruct (iterator_new_spec tb t Htb) as (it & st & Ei & Hit & Hrem).
  exists tb, it, (entry_of (ct_utf8 tb) <$> flatten t []). split; [done|]. split; [done|].
  split; [rewrite length_fmap; by apply (drain_spec tb _ _ st)|].
  pose proof (tok_head _ _ Htb) as Hh.
  assert (forall r, str_at (ct_utf8 tb) (fst r) = default [] (fst (result_of (ct_utf8 tb) r))) as Htext.
  { intros [u k]. unfold result_of. cbn [fst]. destruct (Nat.eqb_spec u 0) as [->|]; [|done].
    unfold str_at. destruct (ct_utf8 tb) as [|b l]; [done|]. injection Hh as ->. done. }
  split.
  - pose proof (flatten_sorted t [] (tok_tree _ _ Htb)) as Hs. clear Hrem. induction Hs as [|x l Hs IH Hx]; [constructor|].
    cbn [fmap list_fmap]. constructor; [exact IH|]. by apply Forall_fmap.
  - intros e. rewrite list_elem_of_fmap. split.
    + intros ([s r] & -> & (s' & -> & Hf)%flatten_elem); [|apply Htb]. cbn [app entry_of en_sequence en_keysym en_utf8 fst snd].
      exists (result_of (ct_utf8 tb) r). rewrite <- Hd. unfold dict. rewrite Hf. by rewrite Htext.
    + intros (r & Hr & Hk & Hu). rewrite <- Hd in Hr. unfold dict in Hr.
      destruct (find t (en_sequence e)) as [r0|] eqn:Hf; [|done]. injection Hr as <-.
      exists (en_sequence e, r0). split.
      * destruct e as [sq ek eu]. unfold entry_of. cbn [fst snd en_sequence en_keysym en_utf8] in *. rewrite Hk, Hu, Htext. done.
      * apply flatten_elem; [apply Htb|]. by exists (en_sequence e).
Qed.

Lemma iterator_enumerates_witness :
  exists tb it es, add_productions empty_table sample_productions = Ok tb /\
    xkb_compose_table_iterator_new tb = Ok it /\ drain (S (length es)) it = Ok es.
Proof.
  destruct (iterator_enumerates sample_productions sample_file_ok) as (tb & it & es & H1 & H2 & H3 & _).
  exists tb, it, es. split; [exact H1|]. split; [exact H2|exact H3].
Defined.

Example sample_entries :
  match add_productions empty_table sample_productions with
  | Ok tb => match xkb_compose_table_iterator_new tb with
             | Ok it => drain 5 it
             | Fault f => Fault f
             end
  | Fault f => Fault f
  end = Ok [mk_centry [65; 65; 71] 0 [87]; mk_centry [65; 66; 67] 0 [88]; mk_centry [65; 66; 68] 89 [];
            mk_centry [69; 70; 71] 200 [86]].
Proof. vm_compute. reflexivity. Qed.
