(* ===== verification/ComposeParser.v ===== *)
(** * The text format of compose files (src/compose/parser.c, escape.h, dump.c)

    The lexer, the parser with its include statements, and the dump of a
    table.  A token carries the string of [union lvalue], without its
    terminating zero.  The gotos of [parse] are the labels of a state machine.
    Files, the environment and the paths of the locale are parameters; the
    modifiers of an event are checked and dropped, since nothing reads them. *)

From Stdlib Require Import ZArith Lia String.
From stdpp Require Import base tactics list numbers.
From S2P Require Import Prelude Numbers Keymap Utf8 Keysym KeysymNames KeysymName Scanner Compose.

Inductive rules_token :=
| TOK_END_OF_FILE
| TOK_END_OF_LINE
| TOK_INCLUDE
| TOK_INCLUDE_STRING (str : list Z)
| TOK_LHS_KEYSYM (str : list Z)
| TOK_COLON
| TOK_BANG
| TOK_TILDE
| TOK_STRING (str : list Z)
| TOK_IDENT (str : list Z)
| TOK_ERROR.

(** ** Lexer *)

(** Spaces and comments; whether the end of a line was read.  What follows a
    comment is the end of the line or of the file. *)
Fixpoint skip_blank (l : list Z) : list Z * bool :=
  match l with
  | [] => ([], false)
  | c :: l' =>
      if is_space c then if c =? 10 then (l', true) else skip_blank l'
      else if c =? 35 then
        match skip_to_eol l' with
        | [] => ([], false)
        | _ :: rest => (rest, true)
        end
      else (l, false)
  end.

(** [while (cond(peek) && !eof) append(next)]; appends beyond the buffer are
    lost. *)
Definition append_lost (s : scanner) (c : Z) : scanner := fst (scanner_buf_append s c).

Fixpoint append_while (cond : Z -> bool) (l : list Z) (buf : list Z) : scanner :=
  match l with
  | [] => mk_scanner [] buf
  | c :: l' => if cond c then append_while cond l' (scn_buf (append_lost (mk_scanner l' buf) c))
               else mk_scanner l buf
  end.

Definition append_valid (s : scanner) (o : option Z) : scanner :=
  match o with
  | Some o => if is_valid_char o then append_lost s o else s
  | None => s
  end.

(** After a backslash. *)
Definition escape_sequence (s : scanner) : scanner :=
  match scanner_chr s 92 with
  | Some s => append_lost s 92
  | None =>
  match scanner_chr s 34 with
  | Some s => append_lost s 34
  | None =>
  match (if scanner_peek s =? 120 then scanner_chr s 120 else scanner_chr s 88) with
  | Some s => let (s, o) := scanner_hex s in append_valid s o
  | None => let (s, o) := scanner_oct s in append_valid s o
  end end end.

Fixpoint string_loop (fuel : nat) (s : scanner) : scanner :=
  match fuel with
  | O => s
  | S fuel =>
      if scanner_eof s || scanner_eol s || (scanner_peek s =? 34) then s
      else
        match scanner_chr s 92 with
        | Some s => string_loop fuel (escape_sequence s)
        | None => let (c, s) := scanner_next s in string_loop fuel (append_lost s c)
        end
  end.

(** The append of the terminating zero. *)
Definition terminate (s : scanner) (tok : list Z -> rules_token) : scanner * rules_token :=
  let (s', ok) := scanner_buf_append s 0 in
  if ok then (s', tok (scn_buf s)) else (s, TOK_ERROR).

Definition is_ident_char (c : Z) : bool := is_alnum c || (c =? 95).

Definition lex (s : scanner) : scanner * rules_token :=
  let (rest, eol) := skip_blank (scn_rest s) in
  let s := mk_scanner rest (scn_buf s) in
  if eol then (s, TOK_END_OF_LINE)
  else if scanner_eof s then (s, TOK_END_OF_FILE)
  else
    let s := reset_buf s in
    match scanner_chr s 60 with
    | Some s =>
        let s := append_while (fun c => negb (c =? 62) && negb (c =? 10)) (scn_rest s) (scn_buf s) in
        match scanner_chr s 62 with
        | None => (s, TOK_ERROR)
        | Some s => terminate s TOK_LHS_KEYSYM
        end
    | None =>
    match scanner_chr s 58 with
    | Some s => (s, TOK_COLON)
    | None =>
    match scanner_chr s 33 with
    | Some s => (s, TOK_BANG)
    | None =>
    match scanner_chr s 126 with
    | Some s => (s, TOK_TILDE)
    | None =>
    match scanner_chr s 34 with
    | Some s =>
        let s := string_loop (length (scn_rest s)) s in
        match scanner_chr s 34 with
        | None => (s, TOK_ERROR)
        | Some s =>
            let (s', tok) := terminate s TOK_STRING in
            (s', if is_valid_utf8 (scn_buf s) then tok else TOK_ERROR)
        end
    | None =>
        if is_alpha (scanner_peek s) || (scanner_peek s =? 95) then
          let s := append_while is_ident_char (scn_rest s) [] in
          let (s', tok) := terminate s TOK_IDENT in
          match tok with
          | TOK_IDENT str => (s', if bool_decide (str = bytes_of "include"%string) then TOK_INCLUDE else tok)
          | _ => (s', tok)
          end
        else (scanner_skip_to_eol s, TOK_ERROR)
    end end end end end.

(** What the include statements and the names of keysyms need. *)
Record compose_env := mk_env {
  env_home : option (list Z);
  env_locale_path : option (list Z);
  env_xlocaledir : list Z;
  env_read_file : list Z -> option (list Z)
}.

(** After a percent sign. *)
Definition expand (env : compose_env) (s : scanner) : option scanner :=
  match scanner_chr s 37 with
  | Some s => Some (append_lost s 37)
  | None =>
  match scanner_chr s 72 with
  | Some s => match env_home env with Some home => scanner_buf_appends s home | None => None end
  | None =>
  match scanner_chr s 76 with
  | Some s => match env_locale_path env with Some path => scanner_buf_appends s path | None => None end
  | None =>
  match scanner_chr s 83 with
  | Some s => scanner_buf_appends s (env_xlocaledir env)
  | None => None
  end end end end.

(** The scanner where it stops, or where an expansion fails. *)
Fixpoint include_loop (fuel : nat) (env : compose_env) (s : scanner) : scanner * bool :=
  match fuel with
  | O => (s, true)
  | S fuel =>
      if scanner_eof s || scanner_eol s || (scanner_peek s =? 34) then (s, true)
      else
        match scanner_chr s 37 with
        | Some s => match expand env s with
                    | Some s => include_loop fuel env s
                    | None => (s, false)
                    end
        | None => let (c, s) := scanner_next s in include_loop fuel env (append_lost s c)
        end
  end.

Fixpoint skip_space (l : list Z) : list Z * bool :=
  match l with
  | [] => ([], false)
  | c :: l' => if is_space c then if c =? 10 then (l', true) else skip_space l' else (l, false)
  end.

Definition lex_include_string (env : compose_env) (s : scanner) : scanner * rules_token :=
  let (rest, eol) := skip_space (scn_rest s) in
  let s := mk_scanner rest (scn_buf s) in
  if eol then (s, TOK_END_OF_LINE)
  else
    let s := reset_buf s in
    match scanner_chr s 34 with
    | None => (s, TOK_ERROR)
    | Some s =>
        let (s, ok) := include_loop (length (scn_rest s)) env s in
        if negb ok then (s, TOK_ERROR)
        else
          match scanner_chr s 34 with
          | None => (s, TOK_ERROR)
          | Some s => terminate s TOK_INCLUDE_STRING
          end
    end.

(** ** Parser *)

Definition modifier_names : list (list Z) :=
  map bytes_of ["Shift"; "Ctrl"; "Alt"; "Meta"; "Lock"; "Caps"]%string.

(** [resolve_modifier] finds the modifier. *)
Definition known_modifier (name : list Z) : bool := existsb (fun n => bool_decide (cstr name = n)) modifier_names.

(** The labels of [parse], with the token at hand. *)
Inductive label :=
| L_initial
| L_include
| L_include_eol (path : list Z)
| L_lhs
| L_lhs_tok (tok : rules_token)
| L_lhs_keysym
| L_lhs_keysym_tok (tok : rules_token)
| L_lhs_mod_list
| L_lhs_mod_list_tok (tok : rules_token)
| L_rhs
| L_unexpected (tok : rules_token)
| L_error (tok : rules_token)
| L_skip (tok : rules_token).

Definition no_production : production := mk_production [] None None.

Definition MAX_ERRORS : nat := 10.

Definition set_keysym (ks : Z) (p : production) := mk_production (p_lhs p) (Some ks) (p_string p).
Definition set_string (str : list Z) (p : production) := mk_production (p_lhs p) (p_keysym p) (Some str).
Definition push_lhs (ks : Z) (p : production) := mk_production (p_lhs p ++ [ks]) (p_keysym p) (p_string p).

Section parser.
Context (include : list Z -> xkb_compose_table -> result (bool * xkb_compose_table)).
Context (env : compose_env).

(** What a label does with its token: where it goes, with the new production,
    or [None] where the parser adds the production and begins again. *)
Definition at_lhs_tok (tok : rules_token) (p : production) : label :=
  match tok with
  | TOK_COLON => match p_lhs p with [] => L_skip tok | _ => L_rhs end
  | TOK_IDENT str => if bool_decide (cstr str = bytes_of "None"%string) then L_lhs_keysym else L_lhs_mod_list_tok tok
  | TOK_TILDE => L_lhs_mod_list_tok tok
  | TOK_BANG => L_lhs_mod_list
  | _ => L_lhs_keysym_tok tok
  end.

Definition at_lhs_keysym_tok (tok : rules_token) (p : production) : label * production :=
  match tok with
  | TOK_LHS_KEYSYM str =>
      let keysym := xkb_keysym_from_name (cstr str) XKB_KEYSYM_NO_FLAGS in
      if keysym =? XKB_KEY_NoSymbol then (L_error tok, p)
      else if Nat.ltb COMPOSE_MAX_LHS_LEN (length (p_lhs p) + 1) then (L_skip tok, p)
      else (L_lhs, push_lhs keysym p)
  | _ => (L_unexpected tok, p)
  end.

(** A modifier, perhaps after a tilde. *)
Definition at_modifier (tok : rules_token) : label :=
  match tok with
  | TOK_IDENT str => if known_modifier str then L_lhs_mod_list else L_error tok
  | _ => L_unexpected tok
  end.

Definition add_if_any (tok : rules_token) (p : production) : option (label * production) :=
  match p_string p, p_keysym p with
  | None, None => Some (L_skip tok, p)
  | _, _ => None
  end.

Definition at_rhs_tok (tok : rules_token) (p : production) : option (label * production) * production :=
  match tok with
  | TOK_STRING str =>
      (match p_string p with
       | Some _ => Some (L_skip tok, p)
       | None =>
           (* [len] counts the terminating zero *)
           if Nat.ltb XKB_COMPOSE_MAX_STRING_SIZE (length str + 1) then Some (L_skip tok, p)
           else Some (L_rhs, set_string (cstr str) p)
       end, p)
  | TOK_IDENT str =>
      let keysym := xkb_keysym_from_name (cstr str) XKB_KEYSYM_NO_FLAGS in
      if keysym =? XKB_KEY_NoSymbol then (Some (L_error tok, p), p)
      else match p_keysym p with
           | Some _ => (Some (L_skip tok, p), p)
           | None => (add_if_any tok (set_keysym keysym p), set_keysym keysym p)
           end
  | TOK_END_OF_LINE => (add_if_any tok p, p)
  | _ => (Some (L_unexpected tok, p), p)
  end.

Definition ends_line (tok : rules_token) : bool :=
  match tok with TOK_END_OF_LINE | TOK_END_OF_FILE => true | _ => false end.

Fixpoint parse_loop (fuel : nat) (l : label) (s : scanner) (p : production) (num_errors : nat)
    (table : xkb_compose_table) : result (bool * xkb_compose_table) :=
  match fuel with
  | O => Fault FaultFuel
  | S fuel =>
      match l with
      | L_initial =>
          let p := no_production in
          let (s, tok) := lex s in
          match tok with
          | TOK_END_OF_LINE => parse_loop fuel L_initial s p num_errors table
          | TOK_END_OF_FILE => Ok (true, table)
          | TOK_INCLUDE => parse_loop fuel L_include s p num_errors table
          | _ => parse_loop fuel (L_lhs_tok tok) s p num_errors table
          end
      | L_include =>
          let (s, tok) := lex_include_string env s in
          match tok with
          | TOK_INCLUDE_STRING path => parse_loop fuel (L_include_eol path) s p num_errors table
          | _ => parse_loop fuel (L_unexpected tok) s p num_errors table
          end
      | L_include_eol path =>
          let (s, tok) := lex s in
          match tok with
          | TOK_END_OF_LINE =>
              match include (cstr path) table with
              | Ok (true, table) => parse_loop fuel L_initial s p num_errors table
              | Ok (false, table) => Ok (false, table)
              | Fault f => Fault f
              end
          | _ => parse_loop fuel (L_unexpected tok) s p num_errors table
          end
      | L_lhs => let (s, tok) := lex s in parse_loop fuel (L_lhs_tok tok) s p num_errors table
      | L_lhs_tok tok => parse_loop fuel (at_lhs_tok tok p) s p num_errors table
      | L_lhs_keysym => let (s, tok) := lex s in parse_loop fuel (L_lhs_keysym_tok tok) s p num_errors table
      | L_lhs_keysym_tok tok =>
          let (l, p) := at_lhs_keysym_tok tok p in parse_loop fuel l s p num_errors table
      | L_lhs_mod_list =>
          let (s, tok) := lex s in parse_loop fuel (L_lhs_mod_list_tok tok) s p num_errors table
      | L_lhs_mod_list_tok tok =>
          match tok with
          | TOK_TILDE =>
              let (s, tok) := lex s in parse_loop fuel (at_modifier tok) s p num_errors table
          | TOK_IDENT _ => parse_loop fuel (at_modifier tok) s p num_errors table
          | _ => parse_loop fuel (L_lhs_keysym_tok tok) s p num_errors table
          end
      | L_rhs =>
          let (s, tok) := lex s in
          match at_rhs_tok tok p with
          | (Some (l, p), _) => parse_loop fuel l s p num_errors table
          | (None, p) =>
              match add_production table p with
              | Ok table => parse_loop fuel L_initial s p num_errors table
              | Fault f => Fault f
              end
          end
      | L_unexpected tok => parse_loop fuel (L_error tok) s p num_errors table
      | L_error tok =>
          let num_errors := S num_errors in
          if Nat.leb num_errors MAX_ERRORS then parse_loop fuel (L_skip tok) s p num_errors table
          else Ok (false, table)
      | L_skip tok =>
          if ends_line tok then parse_loop fuel L_initial s p num_errors table
          else let (s, tok) := lex s in parse_loop fuel (L_skip tok) s p num_errors table
      end
  end.
End parser.

Definition COMPOSE_MAX_INCLUDE_DEPTH : nat := 5.

(** [levels] is [COMPOSE_MAX_INCLUDE_DEPTH - include_depth].  The fuel: a byte
    of the text allows for the steps up to the next token. *)
Fixpoint parse (env : compose_env) (levels : nat) (table : xkb_compose_table) (text : list Z)
    : result (bool * xkb_compose_table) :=
  match scanner_check_supported_char_encoding (scanner_init text) with
  | None => Ok (false, table)
  | Some s =>
      parse_loop
        (fun path table =>
           match levels with
           | O => Ok (false, table)
           | S levels =>
               match env_read_file env path with
               | None => Ok (false, table)
               | Some text => parse env levels table text
               end
           end)
        env (20 * length text + 20) L_initial s no_production 0 table
  end.

Definition parse_string (env : compose_env) (table : xkb_compose_table) (text : list Z)
    : result (bool * xkb_compose_table) :=
  parse env COMPOSE_MAX_INCLUDE_DEPTH table text.

(** The table of a text, if it parses. *)
Definition xkb_compose_table_new_from_buffer (env : compose_env) (text : list Z) (format flags : Z)
    : result (option xkb_compose_table) :=
  match xkb_compose_table_new format flags with
  | None => Ok None
  | Some table =>
      match parse_string env table text with
      | Ok (true, table) => Ok (Some table)
      | Ok (false, _) => Ok None
      | Fault f => Fault f
      end
  end.
