(* ===== verification/ComposeParse.v ===== *)
(** * Parsing of compose files always ends, and builds well-formed tables *)

From Stdlib Require Import ZArith Lia String.
From stdpp Require Import base tactics list numbers.
From S2P Require Import Prelude Numbers Keymap Utf8 Keysym KeysymNames KeysymName Scanner Compose ComposeTree ComposeSpec ComposeParser.

(** ** The lexer makes progress *)

Definition left_ (s : scanner) : nat := length (scn_rest s).

Lemma append_lost_rest s c : scn_rest (append_lost s c) = scn_rest s.
Proof. unfold append_lost, scanner_buf_append. by destruct (Nat.leb _ _). Qed.

Lemma append_valid_rest s o : scn_rest (append_valid s o) = scn_rest s.
Proof. destruct o as [o|]; cbn; [|done]. destruct (is_valid_char o); [apply append_lost_rest|done]. Qed.

Lemma chr_left s c s' : c <> 0 -> scanner_chr s c = Some s' -> S (left_ s') = left_ s.
Proof.
  intros Hc. unfold scanner_chr, scanner_peek, left_, advance. destruct (scn_rest s) as [|x l].
  - destruct (Z.eqb_spec 0 c); [congruence|done].
  - destruct (x =? c); [|done]. intros [= <-]. cbn. by rewrite drop_0.
Qed.

Lemma next_left s c s' : scanner_next s = (c, s') -> scn_rest s <> [] -> S (left_ s') = left_ s.
Proof. unfold scanner_next, left_. destruct (scn_rest s); [done|]. by intros [= <- <-]. Qed.

Lemma next_left_le s : (left_ (snd (scanner_next s)) <= left_ s)%nat.
Proof. unfold scanner_next, left_. destruct (scn_rest s) eqn:E; cbn; rewrite ?E; cbn; lia. Qed.

Lemma oct_left fuel : forall s i c, (left_ (fst (oct_loop fuel s i c)) <= left_ s)%nat.
Proof.
  induction fuel as [|fuel IH]; intros s i c; cbn [oct_loop]; [done|].
  destruct (is_octal _); [|done]. pose proof (next_left_le s) as Hn. destruct (c <? 32); [|done].
  destruct (scanner_next s) as [ch s']. cbn in Hn. pose proof (IH s' (i + 1) (u8 (c * 8 + (ch - 48)))). lia.
Qed.

Lemma hex_left fuel : forall s i v, (left_ (fst (hex_loop fuel s i v)) <= left_ s)%nat.
Proof.
  induction fuel as [|fuel IH]; intros s i v; cbn [hex_loop]; [done|].
  destruct (is_xdigit _); [|done]. pose proof (next_left_le s) as Hn.
  destruct (scanner_next s) as [ch s']. cbn in Hn. pose proof (IH s' (i + 1) (u8 (v * 16 + hex_offset ch))). lia.
Qed.

Lemma escape_left s : (left_ (escape_sequence s) <= left_ s)%nat.
Proof.
  unfold escape_sequence.
  destruct (scanner_chr s 92) as [s1|] eqn:E1.
  { apply chr_left in E1; [|done]. unfold left_ in *. rewrite append_lost_rest. lia. }
  destruct (scanner_chr s 34) as [s2|] eqn:E2.
  { apply chr_left in E2; [|done]. unfold left_ in *. rewrite append_lost_rest. lia. }
  destruct (if scanner_peek s =? 120 then scanner_chr s 120 else scanner_chr s 88) as [s3|] eqn:E3.
  - assert (S (left_ s3) = left_ s) as H3 by (destruct (scanner_peek s =? 120); by apply chr_left in E3).
    pose proof (hex_left 2 s3 0 0) as H. unfold scanner_hex. destruct (hex_loop 2 s3 0 0) as [s4 o].
    cbn in H. unfold left_ in *. rewrite append_valid_rest. lia.
  - pose proof (oct_left 4 s 0 0) as H. unfold scanner_oct. destruct (oct_loop 4 s 0 0) as [s4 o].
    cbn in H. unfold left_ in *. rewrite append_valid_rest. lia.
Qed.

Lemma string_loop_left fuel : forall s, (left_ (string_loop fuel s) <= left_ s)%nat.
Proof.
  induction fuel as [|fuel IH]; intros s; cbn [string_loop]; [done|].
  destruct (scanner_eof s || scanner_eol s || (scanner_peek s =? 34)); [done|].
  destruct (scanner_chr s 92) as [s1|] eqn:E1.
  - apply chr_left in E1; [|done]. pose proof (IH (escape_sequence s1)). pose proof (escape_left s1). lia.
  - pose proof (next_left_le s) as Hn. destruct (scanner_next s) as [c s2]. cbn in Hn.
    pose proof (IH (append_lost s2 c)) as H. unfold left_ in *. rewrite append_lost_rest in H. lia.
Qed.

Lemma append_while_left cond l : forall buf, (left_ (append_while cond l buf) <= length l)%nat.
Proof.
  induction l as [|c l IH]; intros buf; cbn [append_while]; [done|]. destruct (cond c); [|done].
  cbn [length]. pose proof (IH (scn_buf (append_lost (mk_scanner l buf) c))). lia.
Qed.

Lemma append_while_first cond c l buf : cond c = true -> (left_ (append_while cond (c :: l) buf) <= length l)%nat.
Proof. intros Hc. cbn [append_while]. rewrite Hc. apply append_while_left. Qed.

Lemma skip_to_eol_left l : (length (skip_to_eol l) <= length l)%nat.
Proof. induction l as [|c l IH]; cbn; [done|]. destruct (c =? 10); cbn; lia. Qed.

Lemma skip_blank_left l : forall r eol, skip_blank l = (r, eol) ->
  (length r <= length l)%nat /\ (eol = true -> (length r < length l)%nat) /\
  (eol = false -> match r with [] => True | c :: _ => is_space c = false end).
Proof.
  induction l as [|c l IH]; intros r eol; cbn [skip_blank]; [by intros [= <- <-]|].
  destruct (is_space c) eqn:Hc.
  - destruct (c =? 10); [intros [= <- <-]; cbn; repeat split; try done; lia|].
    intros H. destruct (IH _ _ H) as (H1 & H2 & H3). cbn. repeat split; [lia|intros E; specialize (H2 E); lia|done].
  - destruct (c =? 35); [|intros [= <- <-]; repeat split; done].
    pose proof (skip_to_eol_left l) as Hl. destruct (skip_to_eol l) as [|x r']; intros [= <- <-]; cbn in *;
      repeat split; try done; lia.
Qed.

Lemma skip_space_left l : forall r eol, skip_space l = (r, eol) -> (length r <= length l)%nat.
Proof.
  induction l as [|c l IH]; intros r eol; cbn [skip_space]; [by intros [= <- <-]|].
  destruct (is_space c); [|intros [= <- <-]; done]. destruct (c =? 10); [intros [= <- <-]; cbn; lia|].
  intros H. apply IH in H. cbn. lia.
Qed.

Lemma terminate_left s f : left_ (fst (terminate s f)) = left_ s.
Proof. unfold terminate, scanner_buf_append, left_. by destruct (Nat.leb _ _). Qed.

(** A token takes at least a byte, but at the end of the file. *)
Lemma lex_left s s' tok : lex s = (s', tok) ->
  (left_ s' <= left_ s)%nat /\ (tok <> TOK_END_OF_FILE -> (left_ s' < left_ s)%nat).
Proof.
  unfold lex. destruct (skip_blank (scn_rest s)) as [r eol] eqn:Hb.
  destruct (skip_blank_left _ _ _ Hb) as (Hle & Heol & Hns). fold (left_ s) in *.
  destruct eol; [intros [= <- <-]; specialize (Heol eq_refl); unfold left_ in *; cbn; lia|]. specialize (Hns eq_refl). clear Heol Hb.
  unfold scanner_eof. cbn [scn_rest]. destruct r as [|c l]; [intros [= <- <-]; unfold left_ in *; cbn; split; [lia|done]|].
  set (s0 := reset_buf _). assert (left_ s0 = length (c :: l)) as Hs0 by done.
  assert (forall x s1, x <> 0 -> scanner_chr s0 x = Some s1 -> (left_ s1 < left_ s)%nat) as Hchr.
  { intros x s1 Hx E. apply chr_left in E; [|done]. lia. }
  assert (forall s1 f, (left_ s1 < left_ s)%nat -> (left_ (fst (terminate s1 f)) < left_ s)%nat) as Hterm
    by (intros; by rewrite terminate_left).
  assert (forall (x y : scanner * rules_token), x = y -> (left_ (fst x) < left_ s)%nat ->
    (left_ (fst y) <= left_ s)%nat /\ (snd y <> TOK_END_OF_FILE -> (left_ (fst y) < left_ s)%nat)) as Hfin.
  { intros x y <- H. split; [lia|done]. }
  intros E. refine (Hfin _ (s', tok) E _). clear E Hfin.
  destruct (scanner_chr s0 60) as [s1|] eqn:E1.
  { pose proof (Hchr 60 s1 ltac:(done) E1).
    pose proof (append_while_left (fun c => negb (c =? 62) && negb (c =? 10)) (scn_rest s1) (scn_buf s1)) as Ha.
    set (s2 := append_while _ _ _) in *. fold (left_ s1) in Ha. destruct (scanner_chr s2 62) as [s3|] eqn:E3.
    - apply chr_left in E3; [|done]. apply Hterm. lia.
    - cbn. lia. }
  destruct (scanner_chr s0 58) as [s1|] eqn:E2; [by eapply Hchr; [|exact E2]|].
  destruct (scanner_chr s0 33) as [s1|] eqn:E3; [by eapply Hchr; [|exact E3]|].
  destruct (scanner_chr s0 126) as [s1|] eqn:E4; [by eapply Hchr; [|exact E4]|].
  destruct (scanner_chr s0 34) as [s1|] eqn:E5.
  { pose proof (Hchr 34 s1 ltac:(done) E5). pose proof (string_loop_left (length (scn_rest s1)) s1).
    set (s2 := string_loop _ _) in *. destruct (scanner_chr s2 34) as [s3|] eqn:E6; [|cbn; lia].
    apply chr_left in E6; [|done]. pose proof (Hterm s3 TOK_STRING ltac:(lia)) as Ht.
    destruct (terminate s3 TOK_STRING) as [s4 tok4]. by destruct (is_valid_utf8 _). }
  destruct (is_alpha (scanner_peek s0) || (scanner_peek s0 =? 95)) eqn:Eid.
  - assert (is_ident_char c = true) as Hc.
    { unfold is_ident_char, is_alnum. change (scanner_peek s0) with c in Eid.
      apply orb_true_iff in Eid as [->| ->]; [done|apply orb_true_r]. }
    pose proof (append_while_first is_ident_char c l [] Hc) as Ha. change (scn_rest s0) with (c :: l).
    set (s1 := append_while _ _ _) in *. cbn [length] in *.
    pose proof (Hterm s1 TOK_IDENT ltac:(lia)) as Ht.
    destruct (terminate s1 TOK_IDENT) as [s2 tok2]. by destruct tok2.
  - change (length (skip_to_eol (c :: l)) < left_ s)%nat. cbn [skip_to_eol].
    destruct (Z.eqb_spec c 10) as [->|]; [done|]. pose proof (skip_to_eol_left l). cbn [length] in *. lia.
Qed.

(** ** Tables stay well formed *)

(** The nodes always represent a tree; the strings do while they fit the 31
    bits of their offsets. *)
Definition table_wf (tb : xkb_compose_table) : Prop :=
  (exists t, nodes_ok (ct_nodes tb) t) /\
  (Z.of_nat (length (ct_utf8 tb)) < 2 ^ 31 -> exists t, table_ok tb t).

Lemma finish_length utf8 previous p : (length utf8 <= length (snd (finish utf8 previous p)))%nat.
Proof.
  assert (forall prev, (length utf8 <= length (snd (place_string utf8 prev p)))%nat) as H.
  { intros prev. unfold place_string. destruct (p_string p) as [s|]; [|done].
    destruct prev as [[|u]|]; cbn [snd]; try (rewrite length_app; lia).
    destruct (Nat.leb _ _); cbn [snd]; rewrite ?length_app, ?length_take, ?length_drop; cbn [length]; lia. }
  unfold finish. destruct previous as [[u ks]|]; [|apply H]. destruct (_ && _); [done|apply H].
Qed.

Lemma table_ok_wf tb t : table_ok tb t -> table_wf tb.
Proof. intros H. split; [exists t; apply H|intros _; by exists t]. Qed.

Lemma add_production_wf tb p : table_wf tb -> production_ok p ->
  exists tb', add_production tb p = Ok tb' /\ table_wf tb'.
Proof.
  intros [[t Ht] Hs] Hp.
  destruct (Z.lt_ge_cases (Z.of_nat (length (ct_nodes tb)) + Z.of_nat (length (p_lhs p))) MAX_COMPOSE_NODES) as [Hroom|Hfull].
  - destruct tb as [nodes utf8]. cbn [ct_nodes ct_utf8] in *.
    pose proof (add_production_eq nodes utf8 t p Ht Hp Hroom) as E.
    pose proof (finish_length utf8 (find t (p_lhs p)) p) as Hl.
    destruct (finish utf8 (find t (p_lhs p)) p) as [r utf8']. cbn [snd] in Hl. eexists. split; [done|].
    split; [eexists; by apply nodes_insert; [|apply Hp|apply Hp]|].
    cbn [ct_utf8]. intros Hlen. destruct Hs as [t2 Ht2]; [lia|].
    destruct (add_production_ok _ t2 p Ht2 Hp Hroom) as (tb' & t' & E' & Htb' & _); [cbn; lia|].
    exists t'. rewrite E in E'. by injection E' as <-.
  - exists tb. unfold add_production. rewrite Z.geb_leb, (proj2 (Z.leb_le _ _)) by lia. split; [done|by split; [exists t|]].
Qed.

(** ** The parser *)

(** The production under construction. *)
Record pending_ok (p : production) : Prop := {
  pen_len : (length (p_lhs p) <= COMPOSE_MAX_LHS_LEN)%nat;
  pen_string : forall s, p_string p = Some s -> Forall (fun b => b <> 0) s;
  pen_keysym : p_keysym p <> Some XKB_KEY_NoSymbol
}.

Definition label_ok (l : label) (p : production) : Prop :=
  match l with L_rhs => p_lhs p <> [] | _ => True end.

(** The steps that a label may take before the text is read on. *)
Definition credit (tok : rules_token) : nat := match tok with TOK_END_OF_FILE => 0 | _ => 10 end.
Definition rank (l : label) : nat :=
  match l with
  | L_initial => 1
  | L_include => 19
  | L_include_eol _ | L_lhs | L_lhs_keysym | L_lhs_mod_list | L_rhs => 8
  | L_lhs_tok tok => 7 + credit tok
  | L_lhs_mod_list_tok tok => 6 + credit tok
  | L_lhs_keysym_tok tok => 5 + credit tok
  | L_unexpected tok => 4 + credit tok
  | L_error tok => 3 + credit tok
  | L_skip tok => 2 + credit tok
  end.

Lemma lex_measure s s' tok k k' : lex s = (s', tok) -> (k' < k)%nat -> (k' <= 8)%nat ->
  (20 * left_ s' + (k' + credit tok) < 20 * left_ s + k)%nat.
Proof.
  intros H Hk Hk8. destruct (lex_left _ _ _ H) as [Hle Hlt]. unfold credit.
  destruct tok; try (specialize (Hlt ltac:(done)); lia). lia.
Qed.

Lemma lex_progress s s' tok k k' : lex s = (s', tok) -> tok <> TOK_END_OF_FILE -> (k' < k + 20)%nat ->
  (20 * left_ s' + k' < 20 * left_ s + k)%nat.
Proof. intros H Hne Hk. destruct (lex_left _ _ _ H) as [_ Hlt]. specialize (Hlt Hne). lia. Qed.

Lemma expand_left env s s' : expand env s = Some s' -> (left_ s' <= left_ s)%nat.
Proof.
  assert (forall s str s', scanner_buf_appends s str = Some s' -> left_ s' = left_ s) as Happ.
  { intros s1 str s2. unfold scanner_buf_appends. destruct (Nat.leb _ _); [done|]. by intros [= <-]. }
  unfold expand. intros H.
  destruct (scanner_chr s 37) as [s1|] eqn:E1.
  { apply chr_left in E1; [|done]. injection H as <-. unfold left_ in *. rewrite append_lost_rest. lia. }
  destruct (scanner_chr s 72) as [s1|] eqn:E2.
  { apply chr_left in E2; [|done]. destruct (env_home env); [|done]. apply Happ in H. lia. }
  destruct (scanner_chr s 76) as [s1|] eqn:E3.
  { apply chr_left in E3; [|done]. destruct (env_locale_path env); [|done]. apply Happ in H. lia. }
  destruct (scanner_chr s 83) as [s1|] eqn:E4; [|done].
  apply chr_left in E4; [|done]. apply Happ in H. lia.
Qed.

Lemma include_loop_left fuel env : forall s, (left_ (fst (include_loop fuel env s)) <= left_ s)%nat.
Proof.
  induction fuel as [|fuel IH]; intros s; cbn [include_loop]; [done|].
  destruct (scanner_eof s || scanner_eol s || (scanner_peek s =? 34)); [done|].
  destruct (scanner_chr s 37) as [s1|] eqn:E1.
  - apply chr_left in E1; [|done]. destruct (expand env s1) as [s2|] eqn:E2; [|cbn; lia].
    apply expand_left in E2. pose proof (IH s2). lia.
  - pose proof (next_left_le s) as Hn. destruct (scanner_next s) as [c s2]. cbn in Hn.
    pose proof (IH (append_lost s2 c)) as H. unfold left_ in *. rewrite append_lost_rest in H. lia.
Qed.

Lemma lex_include_left env s s' tok : lex_include_string env s = (s', tok) -> (left_ s' <= left_ s)%nat.
Proof.
  unfold lex_include_string. destruct (skip_space (scn_rest s)) as [r eol] eqn:Hb.
  apply skip_space_left in Hb. fold (left_ s) in Hb. destruct eol; [intros [= <- <-]; unfold left_ in *; cbn; lia|].
  set (s0 := reset_buf _). assert (left_ s0 = length r) as Hs0 by done.
  destruct (scanner_chr s0 34) as [s1|] eqn:E1; [|intros [= <- <-]; lia]. apply chr_left in E1; [|done].
  pose proof (include_loop_left (length (scn_rest s1)) env s1) as Hi.
  destruct (include_loop _ env s1) as [s2 ok]. cbn in Hi. destruct ok; cbn [negb]; [|intros [= <- <-]; lia].
  destruct (scanner_chr s2 34) as [s3|] eqn:E3; [|intros [= <- <-]; lia]. apply chr_left in E3; [|done].
  intros E. pose proof (terminate_left s3 TOK_INCLUDE_STRING) as Ht. rewrite E in Ht. cbn in Ht. lia.
Qed.

Lemma cstr_no_zero str : Forall (fun b => b <> 0) (cstr str).
Proof. apply cstr_nonzero. Qed.

Lemma no_production_ok : pending_ok no_production.
Proof. split; cbn; [lia|done|done]. Qed.

Section parser.
Context (include : list Z -> xkb_compose_table -> result (bool * xkb_compose_table)) (env : compose_env).
Hypothesis Hinclude : forall path tb, table_wf tb -> exists b tb', include path tb = Ok (b, tb') /\ table_wf tb'.

Lemma at_lhs_tok_ok tok p : let l := at_lhs_tok tok p in
  label_ok l p /\ (rank l < 7 + credit tok)%nat.
Proof.
  destruct tok as [| | | |str| | | |str|str|]; cbn; try (split; [done|lia]).
  - destruct (p_lhs p) eqn:E; cbn; [split; [done|lia]|rewrite E; split; [done|lia]].
  - destruct (bool_decide _); cbn; split; try done; lia.
Qed.

Lemma at_lhs_keysym_tok_ok tok p l p' : pending_ok p -> at_lhs_keysym_tok tok p = (l, p') ->
  pending_ok p' /\ label_ok l p' /\ (rank l < 5 + credit tok)%nat.
Proof.
  intros Hp. destruct tok as [| | | |str| | | |str|str|]; cbn [at_lhs_keysym_tok]; try (intros [= <- <-]; split; [done|cbn; split; [done|lia]]).
  destruct (_ =? XKB_KEY_NoSymbol); [intros [= <- <-]; split; [done|cbn; split; [done|lia]]|].
  destruct (Nat.ltb_spec COMPOSE_MAX_LHS_LEN (length (p_lhs p) + 1)); intros [= <- <-]; [split; [done|cbn; split; [done|lia]]|].
  split; [|cbn; split; [done|lia]]. split; cbn; [rewrite length_app; cbn; lia|apply Hp|apply Hp].
Qed.

Lemma at_modifier_ok tok p : label_ok (at_modifier tok) p /\ (rank (at_modifier tok) < 6 + credit tok)%nat.
Proof.
  unfold at_modifier. destruct tok as [| | | |str| | | |str|str|]; try (cbn; split; [done|lia]).
  destruct (known_modifier str); cbn; split; try done; lia.
Qed.

Lemma at_rhs_tok_ok tok p o p' : pending_ok p -> p_lhs p <> [] -> at_rhs_tok tok p = (o, p') ->
  match o with
  | Some (l, p) => pending_ok p /\ label_ok l p /\ (rank l < 8 + credit tok)%nat
  | None => production_ok p' /\ tok <> TOK_END_OF_FILE
  end.
Proof.
  intros Hp Hl. assert (forall tok q, pending_ok q -> p_lhs q <> [] -> tok <> TOK_END_OF_FILE ->
    match add_if_any tok q with
    | Some (l, p) => pending_ok p /\ label_ok l p /\ (rank l < 8 + credit tok)%nat
    | None => production_ok q /\ tok <> TOK_END_OF_FILE
    end) as Hadd.
  { intros tok' q Hq Hlq Ht. unfold add_if_any.
    destruct (p_string q) eqn:Es, (p_keysym q) eqn:Ek; try (split; [split; [done|apply Hq|apply Hq|apply Hq]|done]).
    split; [done|]. cbn. split; [done|lia]. }
  destruct tok as [| | | |str| | | |str|str|]; cbn [at_rhs_tok];
    try (intros [= <- <-]; split; [done|cbn; split; [done|lia]]).
  - intros [= <- <-]. by apply Hadd.
  - destruct (p_string p) eqn:Es; [intros [= <- <-]; split; [done|cbn; split; [done|lia]]|].
    destruct (Nat.ltb _ _); intros [= <- <-]; [split; [done|cbn; split; [done|lia]]|].
    split; [|cbn; split; [done|lia]]. split; cbn; [apply Hp| |apply Hp].
    intros s [= <-]. apply cstr_nonzero.
  - destruct (Z.eqb_spec (xkb_keysym_from_name (cstr str) XKB_KEYSYM_NO_FLAGS) XKB_KEY_NoSymbol) as [|Hne];
      [intros [= <- <-]; split; [done|cbn; split; [done|lia]]|].
    destruct (p_keysym p) eqn:Ek; intros [= <- <-]; [split; [done|cbn; split; [done|lia]]|].
    apply Hadd; [|done|done]. split; [apply Hp|apply Hp|]. intros [= Hk]. by apply Hne.
Qed.

Lemma parse_loop_ok fuel : forall l s p errors tb,
  table_wf tb -> pending_ok p -> label_ok l p -> (20 * left_ s + rank l < fuel)%nat ->
  exists b tb', parse_loop include env fuel l s p errors tb = Ok (b, tb') /\ table_wf tb'.
Proof using Hinclude.
  induction fuel as [|fuel IH]; intros l s p errors tb Htb Hp Hl Hm; [lia|]. cbn [parse_loop].
  destruct l as [| |path| |tok| |tok| |tok| |tok|tok|tok]; cbn [rank label_ok] in *.
  - destruct (lex s) as [s' tok] eqn:E. pose proof (lex_measure _ _ _ 8 7 E ltac:(lia) ltac:(lia)) as Hx.
    destruct tok; try (apply IH; [done|apply no_production_ok|done|]; cbn [rank credit] in *;
      pose proof (lex_progress _ _ _ 1 19 E ltac:(done) ltac:(lia)); lia). by exists true, tb.
  - destruct (lex_include_string env s) as [s' tok] eqn:E. apply lex_include_left in E.
    destruct tok; apply IH; try done; cbn; lia.
  - destruct (lex s) as [s' tok] eqn:E. pose proof (lex_measure _ _ _ 8 4 E ltac:(lia) ltac:(lia)) as Hx.
    destruct tok; try (apply IH; [done|done|done|]; cbn [rank]; lia).
    destruct (Hinclude (cstr path) tb Htb) as (b & tb' & -> & Htb'). destruct b; [|by exists false, tb'].
    apply IH; try done. cbn in *. lia.
  - destruct (lex s) as [s' tok] eqn:E. pose proof (lex_measure _ _ _ 8 7 E ltac:(lia) ltac:(lia)).
    apply IH; try done. cbn [rank]. lia.
  - destruct (at_lhs_tok_ok tok p) as [H1 H2]. apply IH; try done. lia.
  - destruct (lex s) as [s' tok] eqn:E. pose proof (lex_measure _ _ _ 8 5 E ltac:(lia) ltac:(lia)).
    apply IH; try done. cbn [rank]. lia.
  - destruct (at_lhs_keysym_tok tok p) as [l p'] eqn:E.
    destruct (at_lhs_keysym_tok_ok _ _ _ _ Hp E) as (H1 & H2 & H3). apply IH; try done. lia.
  - destruct (lex s) as [s' tok] eqn:E. pose proof (lex_measure _ _ _ 8 6 E ltac:(lia) ltac:(lia)).
    apply IH; try done. cbn [rank]. lia.
  - destruct (at_modifier_ok tok p) as [H1 H2].
    destruct tok; try (apply IH; try done; cbn [rank credit] in *; lia).
    destruct (lex s) as [s' tok'] eqn:E. destruct (at_modifier_ok tok' p) as [H3 H4].
    pose proof (lex_measure _ _ _ 8 6 E ltac:(lia) ltac:(lia)). apply IH; try done. cbn [credit] in *. lia.
  - destruct (lex s) as [s' tok] eqn:E. pose proof (lex_measure _ _ _ 9 8 E ltac:(lia) ltac:(lia)).
    destruct (at_rhs_tok tok p) as [o p'] eqn:E2. pose proof (at_rhs_tok_ok _ _ _ _ Hp Hl E2) as H2.
    destruct o as [[l p2]|].
    + destruct H2 as (H2 & H3 & H4). apply IH; try done. lia.
    + destruct H2 as [H2 Hne]. destruct (add_production_wf tb p' Htb H2) as (tb' & -> & Htb').
      apply IH; [done| |done|].
      * split; [apply H2|apply H2|apply H2].
      * pose proof (lex_progress _ _ _ 8 1 E Hne ltac:(lia)). cbn [rank]. lia.
  - apply IH; try done. cbn [rank]. lia.
  - destruct (Nat.leb _ _); [|by exists false, tb]. apply IH; try done. cbn [rank]. lia.
  - destruct (ends_line tok) eqn:Et; [apply IH; try done; cbn [rank]; lia|].
    destruct (lex s) as [s' tok'] eqn:E. pose proof (lex_measure _ _ _ 12 2 E ltac:(lia) ltac:(lia)).
    apply IH; try done. cbn [rank]. destruct tok; cbn [credit ends_line] in *; try done; lia.
Qed.
End parser.

Lemma check_encoding_left s s' : scanner_check_supported_char_encoding s = Some s' -> (left_ s' <= left_ s)%nat.
Proof.
  unfold scanner_check_supported_char_encoding, scanner_str, left_.
  destruct (bool_decide _); [intros [= <-]; cbn; rewrite length_drop; lia|].
  destruct (scn_rest s) as [|c0 [|c1 l]] eqn:E; try (intros [= <-]; by rewrite E).
  destruct (_ || _); [done|]. destruct (negb _); [done|]. intros [= <-]. by rewrite E.
Qed.

Lemma parse_ok env levels : forall tb text, table_wf tb ->
  exists b tb', parse env levels tb text = Ok (b, tb') /\ table_wf tb'.
Proof.
  induction levels as [|levels IH]; intros tb text Htb; cbn [parse];
    (destruct (scanner_check_supported_char_encoding (scanner_init text)) as [s|] eqn:E; [|by exists false, tb]);
    apply check_encoding_left in E; apply parse_loop_ok; try done; try apply no_production_ok;
    try (cbn [rank]; unfold left_, scanner_init in *; cbn [scn_rest] in E; lia).
  - intros path tb' H. by exists false, tb'.
  - intros path tb' H. destruct (env_read_file env path); [by apply IH|by exists false, tb'].
Qed.

(** C19. Whatever the bytes of a compose file, the files that it includes and the
    environment, its parsing ends without a fault; a table that comes out of
    it, its strings below 2^31 bytes, represents a dictionary, and no sequence
    of keysyms fed to a state over it meets a fault. *)
Theorem compose_file_safe (env : compose_env) (text : list Z) (format flags : Z) :
  exists o, xkb_compose_table_new_from_buffer env text format flags = Ok o /\
    forall tb, o = Some tb -> Z.of_nat (length (ct_utf8 tb)) < 2 ^ 31 ->
      (exists t, table_ok tb t) /\
      forall kss, exists s status, feed_all (mk_cstate tb 0 0) kss = Ok s /\
        xkb_compose_state_get_status s = Ok status.
Proof.
  unfold xkb_compose_table_new_from_buffer, xkb_compose_table_new.
  destruct (negb (flags =? 0)); [by exists None|]. destruct (negb (format =? 1)); [by exists None|].
  destruct (parse_ok env COMPOSE_MAX_INCLUDE_DEPTH (mk_ctable [dummy_node] [0]) text) as (b & tb & E & Hwf).
  { eapply table_ok_wf, table_new_ok. }
  unfold parse_string. rewrite E. destruct b; [|by exists None]. eexists. split; [done|].
  intros tb' [= <-] Hlen. destruct Hwf as [_ Hwf]. destruct (Hwf Hlen) as [t Ht]. split; [by exists t|].
  intros kss. destruct (feed_all_steps tb t (dict tb t) kss Ht ltac:(done) (mk_cstate tb 0 0) (mk_composing [] XKB_COMPOSE_NOTHING))
    as (s & a & Ef & _ & Hs).
  { split; [done|]. split; [done|]. by apply (leafness_dummy tb t). }
  exists s, (a_status a). split; [done|]. by apply (status_rel tb t).
Qed.
