(* ===== verification/ComposeDump.v ===== *)
(** * The dump of compose tables (src/compose/escape.h, dump.c)

    The text of an entry and of a table, and its parsing: strings are read
    back as they were escaped, and a dumped table parses to the same
    dictionary, for the entries that the format can express. *)

From Stdlib Require Import ZArith Lia String.
From stdpp Require Import base tactics list numbers.
From S2P Require Import Prelude Numbers Keymap Utf8 Keysym KeysymNames KeysymName Scanner Compose ComposeTree ComposeSpec ComposeIter ComposeParser ComposeParse.

(** The bytes of a sequence, from its first one. *)
Definition escape_length (c : Z) : nat := if c <? 0xe0 then 2 else if c <? 0xf0 then 3 else 4.

(** [previous_is_hex_escape] is [hex]. *)
Fixpoint escape_loop (fuel : nat) (from : list Z) (hex : bool) : list Z :=
  match fuel, from with
  | O, _ | _, [] => []
  | S fuel, c :: rest =>
      if c <? 0x80 then
        if (c <=? 0x10) || (c =? 0x7f) || (is_xdigit c && hex)
        then 92 :: 120 :: print_hex false 2 c ++ escape_loop fuel rest true
        else if (c =? 34) || (c =? 92) then 92 :: c :: escape_loop fuel rest false
        else c :: escape_loop fuel rest false
      else take (escape_length c) from ++ escape_loop fuel (drop (escape_length c) from) false
  end.

Definition escape_utf8_string_literal (from : list Z) : list Z := escape_loop (length from) from false.

(** [xkb_keysym_get_name] in a buffer of [XKB_KEYSYM_NAME_MAX_SIZE] bytes. *)
Definition name_text (ks : Z) : list Z :=
  cstr (snd (xkb_keysym_get_name ks (repeat 0 (Z.to_nat XKB_KEYSYM_NAME_MAX_SIZE)) XKB_KEYSYM_NAME_MAX_SIZE)).

Fixpoint print_sequence (syms : list Z) : list Z :=
  match syms with
  | [] => []
  | [ks] => 60 :: name_text ks ++ [62]
  | ks :: syms => 60 :: name_text ks ++ [62; 32] ++ print_sequence syms
  end.

(** The line of an entry. *)
Definition print_compose_table_entry (e : xkb_compose_table_entry) : list Z :=
  print_sequence (en_sequence e) ++ [32; 58; 32] ++
  (if bool_decide (en_utf8 e = []) then []
   else [32; 34] ++ escape_utf8_string_literal (en_utf8 e) ++ [34]) ++
  (if negb (en_keysym e =? XKB_KEY_NoSymbol) then 32 :: name_text (en_keysym e) else []) ++ [10].

(** The loop of [xkb_compose_table_dump]. *)
Fixpoint dump_loop (fuel : nat) (it : xkb_compose_table_iterator) : result (list Z) :=
  match fuel with
  | O => Fault FaultFuel
  | S fuel =>
      match xkb_compose_table_iterator_next it with
      | Fault f => Fault f
      | Ok (None, _) => Ok []
      | Ok (Some e, it) => match dump_loop fuel it with
                           | Ok text => Ok (print_compose_table_entry e ++ text)
                           | Fault f => Fault f
                           end
      end
  end.

Definition xkb_compose_table_dump (t : xkb_compose_table) : result (list Z) :=
  match xkb_compose_table_iterator_new t with
  | Ok it => dump_loop (S (length (ct_nodes t))) it
  | Fault f => Fault f
  end.

(** ** Strings *)

(** Room for [n] bytes and the terminating zero. *)
Definition room (buf : list Z) (n : nat) : Prop := (length buf + n < SCANNER_BUF_SIZE)%nat.

Lemma append_lost_room rest buf c : room buf 1 -> append_lost (mk_scanner rest buf) c = mk_scanner rest (buf ++ [c]).
Proof.
  unfold room, append_lost, scanner_buf_append. intros H. cbn [scn_buf scn_rest].
  by rewrite (proj2 (Nat.leb_gt _ _)) by lia.
Qed.

Definition plain (c : Z) : Prop := c <> 10 /\ c <> 34 /\ c <> 92.

Lemma string_loop_plain fuel c rest buf : plain c -> room buf 1 ->
  string_loop (S fuel) (mk_scanner (c :: rest) buf) = string_loop fuel (mk_scanner rest (buf ++ [c])).
Proof.
  intros (H1 & H2 & H3) Hr. cbn [string_loop]. unfold scanner_eof, scanner_eol, scanner_peek, scanner_chr, scanner_next.
  cbn [scn_rest scn_buf scanner_peek]. rewrite (proj2 (Z.eqb_neq _ _) H1), (proj2 (Z.eqb_neq _ _) H2).
  unfold scanner_peek. cbn [scn_rest]. rewrite (proj2 (Z.eqb_neq _ _) H3). cbn [orb]. by rewrite append_lost_room.
Qed.

Lemma string_loop_plains l : forall fuel rest buf, Forall plain l -> room buf (length l) ->
  string_loop (length l + fuel) (mk_scanner (l ++ rest) buf) = string_loop fuel (mk_scanner rest (buf ++ l)).
Proof.
  unfold room. induction l as [|c l IH]; intros fuel rest buf Hl Hr; cbn [length app] in *; [by rewrite app_nil_r|].
  apply Forall_cons_1 in Hl as [Hc Hl]. cbn [Nat.add].
  rewrite string_loop_plain by (done || unfold room; lia).
  rewrite IH; [by rewrite <- app_assoc|done|]. rewrite length_app. cbn [length]. lia.
Qed.

Lemma string_loop_quoted fuel c rest buf : c = 34 \/ c = 92 -> room buf 1 ->
  string_loop (S fuel) (mk_scanner (92 :: c :: rest) buf) = string_loop fuel (mk_scanner rest (buf ++ [c])).
Proof.
  intros Hc Hr. cbn [string_loop]. unfold scanner_eof, scanner_eol. cbn [scn_rest scn_buf scanner_peek Z.eqb Pos.eqb orb].
  unfold scanner_chr. cbn [scanner_peek scn_rest Z.eqb Pos.eqb]. unfold advance, escape_sequence, scanner_chr, scanner_peek.
  cbn [scn_rest scn_buf drop]. rewrite ?drop_0.
  destruct Hc as [-> | ->]; cbn [Z.eqb Pos.eqb]; unfold advance; cbn [scn_rest scn_buf drop];
    by rewrite ?drop_0, append_lost_room.
Qed.

(** [\xNN] is read as the byte. *)
Lemma string_loop_hex fuel c rest buf : 0 < c < 0x80 -> room buf 1 ->
  string_loop (S fuel) (mk_scanner (92 :: 120 :: print_hex false 2 c ++ rest) buf) =
    string_loop fuel (mk_scanner rest (buf ++ [c])).
Proof.
  intros Hc Hr.
  assert (exists a b, print_hex false 2 c = [a; b] /\ is_xdigit a = true /\ is_xdigit b = true /\
    u8 (u8 (0 * 16 + hex_offset a) * 16 + hex_offset b) = c) as (a & b & -> & Ha & Hb & Hv).
  { assert (forallb (fun n => match print_hex false 2 (Z.of_nat n) with
      | [a; b] => is_xdigit a && is_xdigit b && (u8 (u8 (0 * 16 + hex_offset a) * 16 + hex_offset b) =? Z.of_nat n)
      | _ => false end) (seq 0 128) = true) as H by (vm_compute; reflexivity).
    rewrite forallb_forall in H. specialize (H (Z.to_nat c)). rewrite Z2Nat.id in H by lia.
    destruct (print_hex false 2 c) as [|a [|b [|]]]; try (by discriminate H; apply in_seq; lia).
    exists a, b. rewrite !andb_true_iff, Z.eqb_eq in H. destruct H as [[? ?] ?]; [apply in_seq; lia|done]. }
  cbn [string_loop app]. unfold scanner_eof, scanner_eol. cbn [scn_rest scn_buf scanner_peek Z.eqb Pos.eqb orb].
  unfold scanner_chr. cbn [scanner_peek scn_rest Z.eqb Pos.eqb]. unfold advance, escape_sequence, scanner_chr.
  cbn [scanner_peek scn_rest scn_buf drop Z.eqb Pos.eqb]. unfold advance, scanner_hex. cbn [scn_rest scn_buf drop].
  cbn [hex_loop scanner_peek scn_rest drop]. rewrite Ha. unfold scanner_next. cbn [scn_rest scn_buf].
  cbn [scanner_peek scn_rest]. rewrite Hb. cbn [scn_rest scn_buf].
  change (0 + 1 + 1 >? 0) with true. cbn iota. rewrite Hv. unfold append_valid, is_valid_char.
  rewrite (proj2 (Z.eqb_neq c 0)) by lia. cbn [negb]. rewrite ?drop_0. by rewrite append_lost_room.
Qed.

Lemma string_loop_end fuel rest buf : string_loop fuel (mk_scanner (34 :: rest) buf) = mk_scanner (34 :: rest) buf.
Proof. by destruct fuel. Qed.

(** The bytes of a scalar value above ASCII. *)
Lemma encode_wide u : scalar u -> 0x80 <= u ->
  exists c l, encode u = c :: l /\ 0x80 <= c /\ escape_length c = length (c :: l) /\ Forall (fun b => 0x80 <= b) l.
Proof.
  intros [Hr _] Hu. unfold encode, escape_length. destruct (Z.leb_spec u 0x7f); [lia|].
  assert (forall x, 0x80 <= 0x80 + x mod 64) as Hm by (intros x; pose proof (Z.mod_pos_bound x 64); lia).
  destruct (Z.leb_spec u 0x7ff); [|destruct (Z.leb_spec u 0xffff)]; eexists _, _; (split; [done|]).
  - assert (u / 64 < 32) by (apply Z.div_lt_upper_bound; lia). pose proof (Z.div_pos u 64).
    rewrite (proj2 (Z.ltb_lt _ _)) by lia. repeat split; first [lia|repeat constructor; apply Hm].
  - assert (u / 4096 < 16) by (apply Z.div_lt_upper_bound; lia). pose proof (Z.div_pos u 4096).
    rewrite (proj2 (Z.ltb_ge _ _)), (proj2 (Z.ltb_lt _ _)) by lia. repeat split; first [lia|repeat constructor; apply Hm].
  - pose proof (Z.div_pos u 262144). rewrite !(proj2 (Z.ltb_ge _ _)) by lia.
    repeat split; first [lia|repeat constructor; apply Hm].
Qed.

Lemma wide_plain l : Forall (fun b => 0x80 <= b) l -> Forall plain l.
Proof. intros H. eapply list.Forall_impl; [exact H|]. intros b Hb. cbn in Hb. unfold plain. lia. Qed.

Lemma escape_read us : Forall scalar us -> Forall (fun u => u <> 0) us ->
  forall f1 hex fuel rest buf,
  let s := concat (map encode us) in let e := escape_loop f1 s hex in
  (length s <= f1)%nat -> (length e <= fuel)%nat -> room buf (length s) ->
  string_loop fuel (mk_scanner (e ++ 34 :: rest) buf) = mk_scanner (34 :: rest) (buf ++ s).
Proof.
  induction us as [|u us IH]; intros Hus Hnz f1 hex fuel rest buf s e Hf1 Hfuel Hroom.
  { subst s e. destruct f1; cbn; by rewrite string_loop_end, app_nil_r. }
  apply Forall_cons_1 in Hus as [Hu Hus]. apply Forall_cons_1 in Hnz as [Hu0 Hnz]. specialize (IH Hus Hnz).
  assert (s = encode u ++ concat (map encode us)) as Es by done. set (s' := concat (map encode us)) in *.
  unfold room in *. assert (forall c, length ((buf ++ [c]) ++ s') = length (buf ++ c :: s')) as Hlen
    by (intros c; by rewrite <- app_assoc). setoid_rewrite length_app in Hlen. cbn [length] in Hlen.
  destruct (Z.lt_ge_cases u 0x80) as [Hlt|Hge].
  - assert (encode u = [u]) as Eu by (unfold encode; by rewrite (proj2 (Z.leb_le u 0x7f)) by lia).
    rewrite Eu in Es. cbn [app] in Es. subst s. rewrite Es in Hf1, Hroom |- *. cbn [length] in *.
    destruct f1 as [|f1]; [lia|]. subst e. rewrite Es in Hfuel |- *. cbn [escape_loop] in *.
    assert (0 < u) by (destruct Hu; lia).
    rewrite (proj2 (Z.ltb_lt u 0x80)) in * by done.
    assert (room buf 1) as Hr1 by (unfold room; lia).
    destruct ((u <=? 0x10) || (u =? 0x7f) || (is_xdigit u && hex)) eqn:Ehex.
    + cbn [app]. rewrite <- app_assoc. cbn [length] in Hfuel. rewrite length_app in Hfuel.
      destruct fuel as [|fuel]; [lia|]. rewrite string_loop_hex by (done || lia).
      rewrite IH; [by rewrite <- app_assoc|lia|lia|rewrite length_app; cbn; lia].
    + destruct ((u =? 34) || (u =? 92)) eqn:Eq.
      * cbn [app length] in *. destruct fuel as [|fuel]; [lia|].
        rewrite string_loop_quoted; [|lia|done].
        rewrite IH; [by rewrite <- app_assoc|lia|lia|rewrite length_app; cbn; lia].
      * cbn [app length] in *. destruct fuel as [|fuel]; [lia|].
        rewrite string_loop_plain; [|unfold plain; lia|done].
        rewrite IH; [by rewrite <- app_assoc|lia|lia|rewrite length_app; cbn; lia].
  - destruct (encode_wide u Hu Hge) as (c & l & Eu & Hc & Hel & Hl).
    rewrite Eu in Es. subst s. rewrite Es in Hf1, Hroom |- *. cbn [app length] in Hf1, Hroom. rewrite length_app in Hf1, Hroom.
    destruct f1 as [|f1]; [lia|]. subst e. rewrite Es in Hfuel |- *. cbn [escape_loop app] in *.
    rewrite (proj2 (Z.ltb_ge c 0x80)), Hel in * by lia.
    change (c :: l ++ s') with ((c :: l) ++ s') in *. rewrite take_app_length, drop_app_length in *.
    rewrite length_app in Hfuel. rewrite <- app_assoc.
    replace fuel with (length (c :: l) + (fuel - length (c :: l)))%nat by lia.
    rewrite string_loop_plains; [|apply wide_plain; by apply Forall_cons_2|unfold room; cbn [length]; lia].
    rewrite IH; [by rewrite <- app_assoc|lia|lia|rewrite length_app; cbn [length]; lia].
Qed.

(** ** Tokens *)

Lemma chr_hit c rest buf : scanner_chr (mk_scanner (c :: rest) buf) c = Some (mk_scanner rest buf).
Proof.
  unfold scanner_chr, scanner_peek, advance. cbn [scn_rest scn_buf]. rewrite Z.eqb_refl. cbn. by rewrite ?drop_0.
Qed.

Lemma chr_miss a c rest buf : a <> c -> scanner_chr (mk_scanner (a :: rest) buf) c = None.
Proof. intros H. unfold scanner_chr, scanner_peek. cbn [scn_rest]. by rewrite (proj2 (Z.eqb_neq a c) H). Qed.


Lemma terminate_room rest buf f : room buf 1 -> terminate (mk_scanner rest buf) f = (mk_scanner rest (buf ++ [0]), f buf).
Proof.
  unfold terminate, scanner_buf_append, room. intros H. cbn [scn_buf scn_rest].
  by rewrite (proj2 (Nat.leb_gt _ _)) by lia.
Qed.

Lemma encode_zero : encode 0 = [0].
Proof. done. Qed.

(** A string in quotes. *)
Record literal (s : list Z) : Prop := {
  lit_bytes : Forall is_byte s;
  lit_nul : Forall (fun b => b <> 0) s;
  lit_valid : is_valid_utf8 s = true;
  lit_room : (length s + 1 < SCANNER_BUF_SIZE)%nat
}.

Lemma lex_literal s rest buf : literal s ->
  lex (mk_scanner (34 :: escape_utf8_string_literal s ++ 34 :: rest) buf) =
    (mk_scanner rest (s ++ [0]), TOK_STRING s).
Proof.
  intros Hs. destruct (proj1 (is_valid_utf8_spec s (lit_bytes s Hs)) (lit_valid s Hs)) as (us & Hus & Es).
  assert (Forall (fun u => u <> 0) us) as Hnz.
  { apply list.Forall_forall. intros u Hu ->. pose proof (lit_nul s Hs) as Hn. rewrite list.Forall_forall in Hn.
    apply (Hn 0); [|done]. rewrite Es. apply list_elem_of_In, in_concat. exists (encode 0). split; [|by left].
    by apply in_map, list_elem_of_In. }
  pose proof (lit_room s Hs) as Hroom. set (e := escape_utf8_string_literal s).
  assert (string_loop (length (e ++ 34 :: rest)) (mk_scanner (e ++ 34 :: rest) []) = mk_scanner (34 :: rest) s) as E.
  { pose proof (escape_read us Hus Hnz (length s) false (length (e ++ 34 :: rest)) rest []) as H.
    cbn zeta in H. rewrite <- Es in H. apply H; [done|rewrite length_app; unfold e, escape_utf8_string_literal; lia|].
    unfold room. cbn. lia. }
  unfold lex. cbn [scn_rest skip_blank]. change (is_space 34) with false. cbn [Z.eqb Pos.eqb].
  unfold scanner_eof, reset_buf. cbn [scn_rest].
  rewrite !chr_miss by done. rewrite chr_hit. cbn [scn_rest]. rewrite E, chr_hit.
  rewrite terminate_room by (unfold room; lia). cbn [scn_buf]. by rewrite (lit_valid s Hs).
Qed.

(** [parse_string_literal]. *)
Definition parse_string_literal (string : list Z) : option (list Z) :=
  match lex (scanner_init string) with
  | (_, TOK_STRING str) => Some (cstr str)
  | _ => None
  end.

Lemma cstr_id s : Forall (fun b => b <> 0) s -> cstr s = s.
Proof. induction 1 as [|b s Hb _ IH]; [done|]. cbn. by rewrite (proj2 (Z.eqb_neq b 0) Hb), IH. Qed.

(** A string literal with the escaped string reads as the string. *)
Theorem escape_round_trip (s : list Z) :
  literal s -> parse_string_literal (34 :: escape_utf8_string_literal s ++ [34]) = Some s.
Proof.
  intros Hs. unfold parse_string_literal, scanner_init. rewrite lex_literal by done.
  by rewrite cstr_id by apply Hs.
Qed.

(** ** Names *)

Definition ident_name (n : list Z) : bool :=
  forallb is_ident_char n && Nat.leb 1 (length n) && Nat.leb (length n) 30 &&
  negb (bool_decide (n = bytes_of "include"%string)).

Lemma table_names_ident : forallb (fun e => ident_name (get_name e)) keysym_to_name = true.
Proof. vm_compute. reflexivity. Qed.

Lemma xdigit_ident c : is_xdigit c = true -> is_ident_char c = true.
Proof.
  unfold is_xdigit, is_ident_char, is_alnum, is_alpha, is_digit, between. intros H.
  repeat rewrite orb_true_iff in *. repeat rewrite andb_true_iff in *. lia.
Qed.

Lemma name_ident ks : 0 <= ks <= XKB_KEYSYM_MAX ->
  exists n, keysym_name ks = Some n /\ ident_name n = true.
Proof.
  intros Hks. unfold keysym_name. rewrite Z.gtb_ltb, (proj2 (Z.ltb_ge _ _)) by lia. eexists. split; [done|].
  assert (forall upper w v pre, 0 <= v < 16 ^ 8 -> (w <= 8)%nat -> forallb is_ident_char pre = true ->
    (1 <= length pre <= 2)%nat -> pre <> bytes_of "in"%string -> pre <> bytes_of "i"%string ->
    ident_name (pre ++ print_hex upper w v) = true) as Hhex.
  { intros upper w v pre Hv Hw Hpre Hl Hin Hi. destruct (print_hex_spec upper w v Hv Hw) as (Hx & Hlen & _ & _).
    unfold ident_name. rewrite forallb_app, Hpre, length_app.
    assert (forallb is_ident_char (print_hex upper w v) = true) as ->.
    { apply forallb_forall. intros c Hc. unfold xdigits in Hx. rewrite list.Forall_forall in Hx.
      apply xdigit_ident, Hx. by apply list_elem_of_In. }
    rewrite (proj2 (Nat.leb_le 1 _)), (proj2 (Nat.leb_le _ 30)) by lia. cbn [andb].
    apply negb_true_iff, bool_decide_eq_false. intros E.
    destruct pre as [|a [|b [|c pre]]]; cbn in Hl; try lia.
    - apply (f_equal (take 1)) in E. cbn in E. by apply Hi.
    - apply (f_equal (take 2)) in E. cbn in E. by apply Hin. }
  unfold XKB_KEYSYM_MAX in *.
  destruct (find_keysym_index ks) as [i|] eqn:Hi.
  - unfold find_keysym_index in Hi. destruct (ks >? XKB_KEYSYM_MAX_EXPLICIT); [done|].
    destruct (find_loop_entry _ _ _ _ _ (Z.le_refl 0) Hi) as (e & -> & He & _).
    pose proof table_names_ident as H. rewrite forallb_forall in H. by apply H, list_elem_of_In.
  - destruct (_ && _).
    + unfold get_unicode_name. apply (Hhex true 4%nat (Z.land ks 0xffffff) [85]); try done; try lia; try (cbn; lia).
      change 0xffffff with (Z.ones 24). rewrite Z.land_ones by lia. pose proof (Z.mod_pos_bound ks (2 ^ 24)). lia.
    + apply (Hhex false 8%nat ks [48; 120]); try done; first [lia|cbn; lia].
Qed.

Lemma ident_char_plain c : is_ident_char c = true -> c <> 0 /\ c <> 62 /\ c <> 10.
Proof.
  unfold is_ident_char, is_alnum, is_alpha, is_digit, between. intros H.
  repeat rewrite orb_true_iff in *. repeat rewrite andb_true_iff in *. lia.
Qed.

Lemma ident_name_parts n : ident_name n = true ->
  Forall (fun c => is_ident_char c = true) n /\ (1 <= length n <= 30)%nat /\ n <> bytes_of "include"%string /\
  Forall (fun b => b <> 0) n.
Proof.
  unfold ident_name. rewrite !andb_true_iff, negb_true_iff, bool_decide_eq_false, !Nat.leb_le, forallb_forall.
  intros [[[H1 H2] H3] H4]. assert (Forall (fun c => is_ident_char c = true) n) as H.
  { apply list.Forall_forall. intros c Hc. by apply H1, list_elem_of_In. }
  repeat split; try done. eapply list.Forall_impl; [exact H|]. intros c Hc. by apply ident_char_plain.
Qed.

(** The name in the buffer of [XKB_KEYSYM_NAME_MAX_SIZE] bytes is whole. *)
Lemma name_text_eq ks n : keysym_name ks = Some n -> ident_name n = true -> name_text ks = n.
Proof.
  intros Hn Hi. destruct (ident_name_parts n Hi) as (_ & Hl & _ & Hnz).
  unfold name_text, xkb_keysym_get_name. rewrite Hn. unfold snprintf_s. cbn [snd].
  change (XKB_KEYSYM_NAME_MAX_SIZE =? 0) with false. cbn iota.
  rewrite take_ge by (change (Z.to_nat XKB_KEYSYM_NAME_MAX_SIZE - 1)%nat with 30%nat; lia).
  rewrite <- app_assoc. by apply cstr_zero.
Qed.

Lemma append_while_all cond l : forall rest buf c, Forall (fun c => cond c = true) l -> cond c = false ->
  room buf (length l) -> append_while cond (l ++ c :: rest) buf = mk_scanner (c :: rest) (buf ++ l).
Proof.
  unfold room. induction l as [|x l IH]; intros rest buf c Hl Hc Hr; cbn [app append_while length] in *.
  - by rewrite Hc, app_nil_r.
  - apply Forall_cons_1 in Hl as [Hx Hl]. rewrite Hx, append_lost_room by (unfold room; lia). cbn [scn_buf].
    rewrite IH; [by rewrite <- app_assoc|done|done|]. rewrite length_app. cbn. lia.
Qed.

(** A keysym in brackets, after a space or not. *)
Lemma lex_keysym n rest buf : ident_name n = true ->
  lex (mk_scanner (60 :: n ++ 62 :: rest) buf) = (mk_scanner rest (n ++ [0]), TOK_LHS_KEYSYM n).
Proof.
  intros Hn. destruct (ident_name_parts n Hn) as (Hc & Hl & _ & _).
  assert (room [] (length n)) as Hroom by (unfold room, SCANNER_BUF_SIZE; cbn [length]; lia).
  unfold lex. cbn [scn_rest skip_blank]. change (is_space 60) with false. cbn [Z.eqb Pos.eqb].
  unfold scanner_eof, reset_buf. cbn [scn_rest]. rewrite chr_hit. cbn [scn_rest scn_buf].
  rewrite append_while_all; [| |done|done].
  - rewrite chr_hit. rewrite terminate_room; [done|]. unfold room, SCANNER_BUF_SIZE in *. cbn [app length] in *. lia.
  - eapply list.Forall_impl; [exact Hc|]. intros c Hic. apply ident_char_plain in Hic as (_ & H1 & H2).
    cbn. by rewrite (proj2 (Z.eqb_neq _ _) H1), (proj2 (Z.eqb_neq _ _) H2).
Qed.

Lemma lex_space rest buf : lex (mk_scanner (32 :: rest) buf) = lex (mk_scanner rest buf).
Proof. unfold lex. cbn [scn_rest skip_blank scn_buf]. change (is_space 32) with true. done. Qed.

Lemma lex_newline rest buf : lex (mk_scanner (10 :: rest) buf) = (mk_scanner rest buf, TOK_END_OF_LINE).
Proof. done. Qed.

Lemma lex_colon rest buf : lex (mk_scanner (58 :: rest) buf) = (mk_scanner rest [], TOK_COLON).
Proof. unfold lex. cbn. by rewrite ?drop_0. Qed.

Definition starts_ident (n : list Z) : bool :=
  match n with c :: _ => is_alpha c || (c =? 95) | [] => false end.

Lemma lex_ident n rest buf : ident_name n = true -> starts_ident n = true ->
  lex (mk_scanner (n ++ 10 :: rest) buf) = (mk_scanner (10 :: rest) (n ++ [0]), TOK_IDENT n).
Proof.
  intros Hn Hs. destruct (ident_name_parts n Hn) as (Hc & Hl & Hinc & _).
  assert (room [] (length n)) as Hroom by (unfold room, SCANNER_BUF_SIZE; cbn [length]; lia).
  destruct n as [|c n]; [done|]. cbn [starts_ident] in Hs.
  assert (is_space c = false /\ c <> 35 /\ c <> 60 /\ c <> 58 /\ c <> 33 /\ c <> 126 /\ c <> 34) as (H1 & H2 & H3 & H4 & H5 & H6 & H7).
  { unfold is_alpha, is_space, between in *. repeat rewrite orb_true_iff in Hs. repeat rewrite andb_true_iff in Hs.
    rewrite orb_false_iff, andb_false_iff. lia. }
  unfold lex. cbn [scn_rest app skip_blank]. rewrite H1, (proj2 (Z.eqb_neq _ _) H2).
  unfold scanner_eof, reset_buf. cbn [scn_rest]. rewrite !chr_miss by done. cbn [scanner_peek scn_rest]. rewrite Hs.
  change (c :: n ++ 10 :: rest) with ((c :: n) ++ 10 :: rest).
  rewrite append_while_all; [|done|done|done]. cbn [app].
  rewrite terminate_room by (unfold room, SCANNER_BUF_SIZE in *; cbn [length] in *; lia).
  by rewrite bool_decide_false.
Qed.

(** ** Lines *)

(** An entry as a production. *)
Definition production_of (e : xkb_compose_table_entry) : production :=
  mk_production (en_sequence e)
    (if en_keysym e =? XKB_KEY_NoSymbol then None else Some (en_keysym e))
    (if bool_decide (en_utf8 e = []) then None else Some (en_utf8 e)).

(** What the format can express: keysyms that are defined, a string that fits
    a production, a result, and a keysym whose name is an identifier. *)
Record printable (e : xkb_compose_table_entry) : Prop := {
  pr_nonempty : en_sequence e <> [];
  pr_length : (length (en_sequence e) <= COMPOSE_MAX_LHS_LEN)%nat;
  pr_sequence : Forall (fun ks => 0 < ks <= XKB_KEYSYM_MAX) (en_sequence e);
  pr_utf8 : literal (en_utf8 e);
  pr_utf8_size : (length (en_utf8 e) + 1 <= XKB_COMPOSE_MAX_STRING_SIZE)%nat;
  pr_keysym : 0 <= en_keysym e <= XKB_KEYSYM_MAX;
  pr_name : en_keysym e <> XKB_KEY_NoSymbol -> starts_ident (name_text (en_keysym e)) = true;
  pr_result : en_utf8 e <> [] \/ en_keysym e <> XKB_KEY_NoSymbol
}.

Lemma name_of ks : 0 <= ks <= XKB_KEYSYM_MAX ->
  ident_name (name_text ks) = true /\ xkb_keysym_from_name (cstr (name_text ks)) XKB_KEYSYM_NO_FLAGS = ks.
Proof.
  intros Hks. destruct (name_ident ks Hks) as (n & Hn & Hi). rewrite (name_text_eq ks n Hn Hi).
  split; [done|]. destruct (ident_name_parts n Hi) as (_ & _ & _ & Hnz). rewrite cstr_id by done.
  destruct (keysym_name_round_trip ks Hks) as (n' & Hn' & Hr). by assert (n' = n) as <- by congruence.
Qed.

Section lines.
Context (include : list Z -> xkb_compose_table -> result (bool * xkb_compose_table)) (env : compose_env).

#[local] Abbreviation loop := (parse_loop include env).

(** The keysym of an event: three steps. *)
Lemma parse_event fuel l p ks rest buf errors tb :
  (l = L_lhs \/ (l = L_initial /\ p = no_production)) ->
  0 < ks <= XKB_KEYSYM_MAX -> (length (p_lhs p) < COMPOSE_MAX_LHS_LEN)%nat ->
  exists buf', loop (3 + fuel) l (mk_scanner (60 :: name_text ks ++ 62 :: rest) buf) p errors tb =
    loop fuel L_lhs (mk_scanner rest buf') (push_lhs ks p) errors tb.
Proof using.
  intros Hl Hks Hlen. destruct (name_of ks ltac:(lia)) as [Hi Hk]. exists (name_text ks ++ [0]).
  assert (forall f, loop (S (S f)) (L_lhs_tok (TOK_LHS_KEYSYM (name_text ks))) (mk_scanner rest (name_text ks ++ [0])) p errors tb =
    loop f L_lhs (mk_scanner rest (name_text ks ++ [0])) (push_lhs ks p) errors tb) as Htok.
  { intros f. cbn [parse_loop at_lhs_tok]. unfold at_lhs_keysym_tok. rewrite Hk.
    rewrite (proj2 (Z.eqb_neq ks XKB_KEY_NoSymbol)) by (unfold XKB_KEY_NoSymbol; lia).
    by rewrite (proj2 (Nat.ltb_ge _ _)) by lia. }
  rewrite <- Htok. change (3 + fuel)%nat with (S (S (S fuel))).
  destruct Hl as [->|[-> ->]]; cbn [parse_loop]; by rewrite lex_keysym.
Qed.

Lemma parse_lhs_space fuel p rest buf errors tb : (1 <= fuel)%nat ->
  exists buf', loop fuel L_lhs (mk_scanner (32 :: rest) buf) p errors tb =
    loop fuel L_lhs (mk_scanner rest buf') p errors tb.
Proof using. intros Hf. exists buf. destruct fuel; [lia|]. cbn [parse_loop]. by rewrite lex_space. Qed.

Lemma parse_sequence syms : forall fuel l p rest buf errors tb,
  (l = L_lhs \/ (l = L_initial /\ p = no_production)) -> syms <> [] ->
  Forall (fun ks => 0 < ks <= XKB_KEYSYM_MAX) syms ->
  (length (p_lhs p) + length syms <= COMPOSE_MAX_LHS_LEN)%nat ->
  exists buf', loop (3 * length syms + fuel) l (mk_scanner (print_sequence syms ++ rest) buf) p errors tb =
    loop fuel L_lhs (mk_scanner rest buf') (mk_production (p_lhs p ++ syms) (p_keysym p) (p_string p)) errors tb.
Proof using.
  induction syms as [|ks syms IH]; intros fuel l p rest buf errors tb Hl Hne Hs Hlen; [done|].
  apply Forall_cons_1 in Hs as [Hks Hs]. cbn [length] in Hlen.
  replace (3 * length (ks :: syms) + fuel)%nat with (3 + (3 * length syms + fuel))%nat by (cbn [length]; lia).
  destruct syms as [|ks' syms].
  - cbn [print_sequence app]. rewrite <- app_assoc. cbn [app].
    destruct (parse_event (3 * length (@nil Z) + fuel) l p ks rest buf errors tb Hl Hks ltac:(lia)) as (buf' & ->).
    by exists buf'.
  - change (print_sequence (ks :: ks' :: syms)) with (60 :: name_text ks ++ [62; 32] ++ print_sequence (ks' :: syms)).
    cbn [app]. rewrite <- app_assoc. cbn [app].
    destruct (parse_event (3 * length (ks' :: syms) + fuel) l p ks (32 :: print_sequence (ks' :: syms) ++ rest) buf errors tb Hl Hks ltac:(lia)) as (buf1 & ->).
    destruct (parse_lhs_space (3 * length (ks' :: syms) + fuel) (push_lhs ks p) (print_sequence (ks' :: syms) ++ rest) buf1 errors tb) as (buf2 & ->); [cbn [length]; lia|].
    destruct (IH fuel L_lhs (push_lhs ks p) rest buf2 errors tb) as (buf3 & ->);
      [by left|done|done|cbn [push_lhs p_lhs] in *; rewrite length_app; cbn in *; lia|].
    exists buf3. cbn [push_lhs p_lhs p_keysym p_string]. by rewrite <- app_assoc.
Qed.

(** The colon: two steps. *)
Lemma parse_colon fuel p rest buf errors tb : p_lhs p <> [] ->
  loop (2 + fuel) L_lhs (mk_scanner (32 :: 58 :: rest) buf) p errors tb =
    loop fuel L_rhs (mk_scanner rest []) p errors tb.
Proof using.
  intros Hp. change (2 + fuel)%nat with (S (S fuel)). cbn [parse_loop]. rewrite lex_space, lex_colon. cbn [at_lhs_tok].
  by destruct (p_lhs p).
Qed.

Lemma parse_rhs_space fuel p rest buf errors tb :
  loop fuel L_rhs (mk_scanner (32 :: rest) buf) p errors tb = loop fuel L_rhs (mk_scanner rest buf) p errors tb.
Proof using. destruct fuel; [done|]. cbn [parse_loop]. by rewrite lex_space. Qed.

Lemma parse_literal fuel p s rest buf errors tb :
  literal s -> (length s + 1 <= XKB_COMPOSE_MAX_STRING_SIZE)%nat -> p_string p = None ->
  loop (S fuel) L_rhs (mk_scanner (34 :: escape_utf8_string_literal s ++ 34 :: rest) buf) p errors tb =
    loop fuel L_rhs (mk_scanner rest (s ++ [0])) (set_string s p) errors tb.
Proof using.
  intros Hs Hl Hp. cbn [parse_loop]. rewrite lex_literal by done. unfold at_rhs_tok. rewrite Hp.
  rewrite (proj2 (Nat.ltb_ge _ _)) by lia. by rewrite cstr_id by apply Hs.
Qed.

(** The end of the line, with the keysym or not: two steps at most. *)
Lemma parse_end fuel p ks rest buf errors tb :
  0 <= ks <= XKB_KEYSYM_MAX -> (ks <> XKB_KEY_NoSymbol -> starts_ident (name_text ks) = true) ->
  p_keysym p = None -> (p_string p <> None \/ ks <> XKB_KEY_NoSymbol) ->
  let p' := mk_production (p_lhs p) (if ks =? XKB_KEY_NoSymbol then None else Some ks) (p_string p) in
  exists s', scn_rest s' = rest /\
    loop (1 + (if (ks =? XKB_KEY_NoSymbol)%Z then 0 else 1) + fuel) L_rhs
      (mk_scanner ((if negb (ks =? XKB_KEY_NoSymbol) then 32 :: name_text ks else []) ++ 10 :: rest) buf) p errors tb =
    match add_production tb p' with
    | Ok tb => loop fuel L_initial s' (if (ks =? XKB_KEY_NoSymbol) then p' else no_production) errors tb
    | Fault f => Fault f
    end.
Proof using.
  intros Hks Hname Hp Hres p'. destruct (Z.eqb_spec ks XKB_KEY_NoSymbol) as [E|E]; cbn [negb].
  - exists (mk_scanner rest buf). split; [done|]. cbn [app Nat.add parse_loop]. rewrite lex_newline.
    unfold at_rhs_tok, add_if_any. destruct Hres as [Hres|]; [|done].
    assert (p = p') as Ep by (unfold p'; destruct p; cbn in *; congruence). rewrite <- Ep. by destruct (p_string p).
  - exists (mk_scanner rest (name_text ks ++ [0])). split; [done|].
    cbn [app]. rewrite parse_rhs_space. destruct (name_of ks Hks) as [Hi Hk].
    change (1 + 1 + fuel)%nat with (S (S fuel)). cbn [parse_loop]. rewrite lex_ident by auto.
    unfold at_rhs_tok. rewrite Hk, (proj2 (Z.eqb_neq _ _) E), Hp. unfold add_if_any.
    cbn [set_keysym p_keysym p_string]. fold p'. change (set_keysym ks p) with p'.
    assert (forall f buf' tb, loop (S f) L_initial (mk_scanner (10 :: rest) buf') p' errors tb =
      loop f L_initial (mk_scanner rest buf') no_production errors tb) as Hnl by done.
    destruct (p_string p); destruct (add_production tb p'); cbn [parse_loop]; try done; by rewrite lex_newline.
Qed.
End lines.

Lemma print_sequence_length syms : (2 * length syms <= length (print_sequence syms))%nat.
Proof.
  induction syms as [|ks syms IH]; [done|]. destruct syms as [|ks' syms].
  - cbn. rewrite length_app. cbn. lia.
  - change (print_sequence (ks :: ks' :: syms)) with (60 :: name_text ks ++ [62; 32] ++ print_sequence (ks' :: syms)).
    cbn [length]. rewrite !length_app. cbn [length] in *. lia.
Qed.

Section text.
Context (include : list Z -> xkb_compose_table -> result (bool * xkb_compose_table)) (env : compose_env).

#[local] Abbreviation loop := (parse_loop include env).

Lemma initial_reset fuel s p p' errors tb : loop fuel L_initial s p errors tb = loop fuel L_initial s p' errors tb.
Proof using. by destruct fuel. Qed.

(** A line adds its production. *)
Lemma parse_line e : printable e -> exists steps, (steps <= 20 * length (print_compose_table_entry e))%nat /\
  forall fuel p rest buf errors tb,
  exists s' p', scn_rest s' = rest /\
    loop (steps + fuel) L_initial (mk_scanner (print_compose_table_entry e ++ rest) buf) p errors tb =
    match add_production tb (production_of e) with
    | Ok tb => loop fuel L_initial s' p' errors tb
    | Fault f => Fault f
    end.
Proof using.
  intros He. set (b := if bool_decide (en_utf8 e = []) then 0%nat else 1%nat).
  assert (forall fuel p buf errors tb rest, exists p1 buf1,
    p_lhs p1 = en_sequence e /\ p_keysym p1 = None /\
    p_string p1 = (if bool_decide (en_utf8 e = []) then None else Some (en_utf8 e)) /\
    loop (3 * length (en_sequence e) + 2 + b + fuel) L_initial (mk_scanner (print_compose_table_entry e ++ rest) buf) p errors tb =
    loop fuel L_rhs (mk_scanner ((if negb (en_keysym e =? XKB_KEY_NoSymbol) then 32 :: name_text (en_keysym e) else []) ++ 10 :: rest) buf1)
      p1 errors tb) as Hstart.
  { intros fuel p buf errors tb rest. rewrite (initial_reset _ _ p no_production).
    unfold print_compose_table_entry. rewrite <- !app_assoc. cbn [app].
    replace (3 * length (en_sequence e) + 2 + b + fuel)%nat with (3 * length (en_sequence e) + (2 + (b + fuel)))%nat by lia.
    edestruct (parse_sequence include env (en_sequence e) (2 + (b + fuel)) L_initial no_production) as (buf1 & ->);
      [by right|apply He|apply He|cbn; apply He|].
    rewrite parse_colon by apply He. rewrite parse_rhs_space. cbn [no_production p_lhs p_keysym p_string app].
    unfold b. case_bool_decide as Hu; cbn [app Nat.add];
      [refine (ex_intro _ _ (ex_intro _ _ (conj _ (conj _ (conj _ eq_refl))))); done|].
    rewrite parse_rhs_space, <- app_assoc. cbn [app].
    rewrite parse_literal; [|apply He|apply He|done].
    refine (ex_intro _ _ (ex_intro _ _ (conj _ (conj _ (conj _ eq_refl))))); done. }
  (* the steps of the end of the line *)
  set (k := if en_keysym e =? XKB_KEY_NoSymbol then 0%nat else 1%nat).
  exists (3 * length (en_sequence e) + 2 + b + (1 + k))%nat. split.
  { pose proof (print_sequence_length (en_sequence e)) as Hl. unfold print_compose_table_entry. rewrite !length_app.
    cbn [length]. unfold b, k. destruct (bool_decide _), (_ =? _); lia. }
  intros fuel p rest buf errors tb. rewrite <- Nat.add_assoc.
  destruct (Hstart (1 + k + fuel)%nat p buf errors tb rest) as (p1 & buf1 & H1 & H2 & H3 & ->).
  assert (p_string p1 <> None \/ en_keysym e <> XKB_KEY_NoSymbol) as Hres.
  { rewrite H3. destruct (pr_result e He) as [Hu|Hk]; [left|by right]. by rewrite bool_decide_false. }
  destruct (parse_end include env fuel p1 (en_keysym e) rest buf1 errors tb (pr_keysym e He) (pr_name e He) H2 Hres)
    as (s' & Hs' & E). fold k in E.
  assert (mk_production (p_lhs p1) (if en_keysym e =? XKB_KEY_NoSymbol then None else Some (en_keysym e)) (p_string p1) = production_of e)
    as Ep by (unfold production_of; by rewrite H1, H3).
  eexists s', _. split; [done|]. rewrite <- Ep. exact E.
Qed.

(** The lines of a file whose productions have room. *)
Lemma parse_lines es : Forall printable es -> forall tb tb', add_productions tb (production_of <$> es) = Ok tb' ->
  forall fuel s p errors, (20 * length (concat (print_compose_table_entry <$> es)) < fuel)%nat ->
  scn_rest s = concat (print_compose_table_entry <$> es) ->
  loop fuel L_initial s p errors tb = Ok (true, tb').
Proof using.
  induction es as [|e es IH]; intros Hes tb tb' Hadd fuel s p errors Hf Hs.
  - injection Hadd as <-. destruct fuel as [|fuel]; [lia|]. destruct s as [r buf]. cbn in Hs. subst r. done.
  - apply Forall_cons_1 in Hes as [He Hes]. destruct (parse_line e He) as (steps & Hsteps & Hline).
    cbn [fmap list_fmap concat add_productions] in *. rewrite length_app in Hf.
    destruct (add_production tb (production_of e)) as [tb1|] eqn:E; [|done].
    destruct s as [r buf]. cbn [scn_rest] in Hs. subst r.
    destruct (Hline (fuel - steps)%nat p (concat (print_compose_table_entry <$> es)) buf errors tb)
      as (s' & p' & Hs' & Hl).
    rewrite E in Hl. replace (steps + (fuel - steps))%nat with fuel in Hl by lia.
    rewrite Hl. apply (IH Hes tb1 tb' Hadd); [lia|done].
Qed.
End text.

(** ** Dictionaries without overlap *)

Definition unrelated_all (ps : list production) : Prop :=
  forall i j p q, ps !! i = Some p -> ps !! j = Some q -> i <> j -> ~ related (p_lhs p) (p_lhs q).

Lemma dict_of_unrelated ps : unrelated_all ps -> forall seq r,
  dict_of ps seq = Some r <-> exists p, p ∈ ps /\ p_lhs p = seq /\ production_result p = r.
Proof.
  induction ps as [|p ps IH] using rev_ind; intros Hu seq r.
  { split; [done|]. by intros (p & []%not_elem_of_nil & _). }
  unfold dict_of. rewrite foldl_app. cbn [foldl]. fold (dict_of ps). unfold dict_add.
  assert (unrelated_all ps) as Hu'.
  { intros i j a b Hi Hj. apply Hu; by apply lookup_app_l_Some. }
  specialize (IH Hu' seq r).
  assert (forall q, q ∈ ps -> ~ related (p_lhs p) (p_lhs q)) as Hpq.
  { intros q Hq. apply list_elem_of_lookup in Hq as [i Hi]. pose proof (lookup_lt_Some _ _ _ Hi).
    apply (Hu (length ps) i p q); [by apply list_lookup_middle|by apply lookup_app_l_Some|lia]. }
  setoid_rewrite elem_of_app. setoid_rewrite list_elem_of_singleton.
  destruct (decide (seq = p_lhs p)) as [->|Hne].
  - split; [intros [= <-]; exists p; auto|]. intros (q & [Hq| ->] & Hl & Hr); [|by rewrite Hr].
    exfalso. apply (Hpq q Hq). rewrite Hl. by left.
  - destruct (decide (related (p_lhs p) seq)) as [Hrel|Hrel].
    + split; [done|]. intros (q & [Hq| ->] & Hl & Hr); [|done]. subst seq. by destruct (Hpq q Hq).
    + rewrite IH. split; intros (q & Hq & Hl & Hr); exists q; [auto|]. destruct Hq as [Hq| ->]; [auto|done].
Qed.

(** No sequence of a tree begins another. *)
Lemma find_unrelated t seq seq' r r' :
  find t seq = Some r -> find t seq' = Some r' -> tree_ok t -> related seq seq' -> seq = seq'.
Proof.
  assert (forall seq seq' r r', find t seq = Some r -> find t seq' = Some r' -> tree_ok t -> seq `prefix_of` seq' -> seq = seq') as H.
  { clear. intros seq seq' r r' H H' Hok [rest ->]. destruct (decide (rest = [])) as [->|Hr]; [by rewrite app_nil_r|].
    exfalso. assert (seq <> []) as Hs by (intros ->; by rewrite find_nil in H).
    rewrite walk_find in H, H'. rewrite walk_app in H' by done.
    destruct (walk t seq) as [[[i leaf] eq]|] eqn:Hw; [|done]. subst leaf.
    assert (forall t seq i leaf eq, tree_ok t -> walk t seq = Some (i, leaf, eq) -> (leaf = None <-> eq <> TNil)) as Hle.
    { clear. induction t as [|i k lo IHlo hi IHhi lf eq IHeq]; intros seq i' leaf' eq' Hok Hw; [done|].
      destruct seq as [|a rest]; [done|]. destruct Hok as (Hle & _ & _ & H1 & H2 & H3). cbn [walk] in Hw.
      destruct (a <? k); [by eapply IHlo|]. destruct (a >? k); [by eapply IHhi|].
      destruct rest; [by injection Hw as <- <- <-|by eapply IHeq]. }
    pose proof (Hle _ _ _ _ _ Hok Hw) as Hl. apply leaf_no_eq in Hl as ->. done. }
  intros H1 H2 Hok [Hp|Hp]; [by eapply H|symmetry; by eapply H].
Qed.

(** ** Tables *)

Lemma dump_loop_spec tb l : forall fuel it st, iter_ok tb it st -> remaining st = l -> (length l < fuel)%nat ->
  dump_loop fuel it = Ok (concat (print_compose_table_entry <$> (entry_of (ct_utf8 tb) <$> l))).
Proof.
  induction l as [|x l IH]; intros fuel it st Hit Hl Hf; (destruct fuel as [|fuel]; [cbn in Hf; lia|]);
    pose proof (iterator_next_spec tb it st Hit) as H; rewrite Hl in H.
  - destruct H as (it' & E & _). cbn [dump_loop]. by rewrite E.
  - destruct H as (it' & st' & E & Hit' & Hl'). cbn [dump_loop fmap list_fmap concat]. rewrite E.
    cbn [length] in Hf. by rewrite (IH fuel it' st' Hit' Hl') by lia.
Qed.

Lemma flatten_length t : forall pre, (length (flatten t pre) <= length (addrs t))%nat.
Proof.
  induction t as [|i k lo IHlo hi IHhi leaf eq IHeq]; intros pre; [done|]. cbn [flatten addrs length].
  rewrite !length_app. specialize (IHlo pre). specialize (IHhi pre). specialize (IHeq (pre ++ [k])).
  destruct leaf; cbn [length]; lia.
Qed.

Lemma dump_spec tb t : table_ok tb t ->
  xkb_compose_table_dump tb = Ok (concat (print_compose_table_entry <$> (entry_of (ct_utf8 tb) <$> flatten t []))).
Proof.
  intros H. destruct (iterator_new_spec tb t H) as (it & st & E & Hit & Hrem).
  unfold xkb_compose_table_dump. rewrite E. apply (dump_loop_spec tb _ _ it st Hit Hrem).
  pose proof (flatten_length t []). pose proof (addrs_fuel tb t H). lia.
Qed.

Lemma lex_lt_irrefl s : ~ lex_lt s s.
Proof. induction s as [|a s IH]; [intros []|]. intros [H|[_ H]]; [lia|done]. Qed.

Lemma flatten_distinct t : tree_ok t -> forall i j x y, flatten t [] !! i = Some x -> flatten t [] !! j = Some y ->
  i <> j -> fst x <> fst y.
Proof.
  intros Hok. pose proof (flatten_sorted t [] Hok) as Hs.
  assert (forall i j x y, flatten t [] !! i = Some x -> flatten t [] !! j = Some y -> (i < j)%nat -> fst x <> fst y) as H.
  { induction Hs as [|z l Hs IH Hz]; intros i j x y Hi Hj Hij; [done|]. destruct j as [|j]; [lia|]. destruct i as [|i].
    - injection Hi as <-. rewrite list.Forall_forall in Hz. specialize (Hz y (list_elem_of_lookup_2 l j y Hj)).
      intros E. cbn in Hz. rewrite E in Hz. by apply lex_lt_irrefl in Hz.
    - by apply (IH i j x y Hi Hj ltac:(lia)). }
  intros i j x y Hi Hj Hij. destruct (Nat.lt_total i j) as [?|[?|?]]; [by apply (H i j)|done|].
  apply not_eq_sym. by apply (H j i).
Qed.

(** A dumped text is in a supported encoding. *)
Lemma check_encoding_dump es : Forall printable es ->
  let text := concat (print_compose_table_entry <$> es) in
  scanner_check_supported_char_encoding (scanner_init text) = Some (scanner_init text).
Proof.
  intros Hes text. assert (text = [] \/ exists c l, text = 60 :: c :: l /\ c <> 0) as Ht.
  { destruct Hes as [|e es He _]; [by left|]. right. subst text. cbn [fmap list_fmap concat].
    unfold print_compose_table_entry. destruct (en_sequence e) as [|ks syms] eqn:Es; [by destruct (pr_nonempty e He)|].
    pose proof (pr_sequence e He) as Hk. rewrite Es in Hk. apply Forall_cons_1 in Hk as [Hk _].
    destruct (name_of ks ltac:(lia)) as [Hi _]. destruct (ident_name_parts _ Hi) as (_ & Hl & _ & Hnz).
    destruct (name_text ks) as [|c n] eqn:En; [cbn in Hl; lia|]. apply Forall_cons_1 in Hnz as [Hc _].
    destruct syms; cbn [print_sequence app]; rewrite En; cbn [app]; by eexists _, _. }
  unfold scanner_check_supported_char_encoding, scanner_str, scanner_init. cbn [scn_rest].
  destruct Ht as [->|(c & l & -> & Hc)]; [done|].
  rewrite bool_decide_false by done. cbn [Z.eqb]. rewrite (proj2 (Z.eqb_neq c 0)) by done. done.
Qed.

(** The entry of a result of the dictionary. *)
Definition dict_entry (seq : list Z) (r : result_t) : xkb_compose_table_entry :=
  mk_centry seq (snd r) (default [] (fst r)).

Definition dump_productions (tb : xkb_compose_table) (t : tst) : list production :=
  production_of <$> (entry_of (ct_utf8 tb) <$> flatten t []).

(** C20. A table that is dumped and parsed has the dictionary it had, when its
    results can be written: no empty string, and names of keysyms that are
    identifiers; and when its sequences have room in a table. *)
Theorem dump_round_trip (env : compose_env) (tb : xkb_compose_table) (t : tst) :
  table_ok tb t ->
  (forall seq r, dict tb t seq = Some r -> printable (dict_entry seq r) /\ fst r <> Some []) ->
  1 + nodes_needed (dump_productions tb t) < MAX_COMPOSE_NODES ->
  1 + bytes_needed (dump_productions tb t) < 2 ^ 31 ->
  exists text tb' t', xkb_compose_table_dump tb = Ok text /\
    xkb_compose_table_new_from_buffer env text 1 0 = Ok (Some tb') /\
    table_ok tb' t' /\ forall seq, dict tb' t' seq = dict tb t seq.
Proof.
  intros Htb Hpr Hn Hb. set (es := entry_of (ct_utf8 tb) <$> flatten t []).
  set (ps := production_of <$> es). change (dump_productions tb t) with ps in *.
  (* the entries *)
  assert (forall x, x ∈ flatten t [] -> exists r, dict tb t (fst x) = Some r /\ entry_of (ct_utf8 tb) x = dict_entry (fst x) r /\
    production_result (production_of (entry_of (ct_utf8 tb) x)) = r) as Hx.
  { intros [s [u k]] (s' & -> & Hf)%flatten_elem; [|apply Htb]. cbn [app fst].
    exists (result_of (ct_utf8 tb) (u, k)). unfold dict. rewrite Hf. split; [done|].
    assert (dict tb t s' = Some (result_of (ct_utf8 tb) (u, k))) as Hd by (unfold dict; by rewrite Hf).
    destruct (Hpr _ _ Hd) as [_ Hne]. unfold result_of in *. cbn [fst snd] in *.
    assert (entry_of (ct_utf8 tb) (s', (u, k)) = dict_entry s' (if Nat.eqb u 0 then None else Some (str_at (ct_utf8 tb) u), k)) as E.
    { unfold entry_of, dict_entry. cbn [fst snd]. f_equal. destruct (Nat.eqb_spec u 0) as [->|]; [|done].
      unfold str_at. pose proof (tok_head _ _ Htb) as Hh. destruct (ct_utf8 tb) as [|b l]; [done|]. by injection Hh as ->. }
    split; [done|]. rewrite E. unfold production_result, production_of, dict_entry. cbn [p_string p_keysym en_utf8 en_keysym fst snd].
    f_equal; [|by destruct (Z.eqb_spec k XKB_KEY_NoSymbol) as [->|]].
    destruct (Nat.eqb u 0); [done|]. cbn [default]. rewrite bool_decide_false; [done|]. intros E'. apply Hne. f_equal. exact E'. }
  assert (Forall printable es) as Hes.
  { apply Forall_fmap, list.Forall_forall. intros x Hin. destruct (Hx x Hin) as (r & Hd & E & _). cbn. rewrite E.
    by apply (Hpr _ _ Hd). }
  assert (file_ok ps) as Hok.
  { split; [|done]. apply Forall_fmap. eapply list.Forall_impl; [exact Hes|]. intros e He. cbn.
    split; cbn; [apply He|apply He| |].
    - intros s. case_bool_decide; [done|]. intros [= <-]. apply He.
    - destruct (Z.eqb_spec (en_keysym e) XKB_KEY_NoSymbol); [done|]. congruence. }
  destruct (file_table ps Hok) as (tb' & t' & Eadd & Htb' & Hd').
  exists (concat (print_compose_table_entry <$> es)), tb', t'. split; [by apply dump_spec|].
  split; [|split; [done|]].
  - unfold xkb_compose_table_new_from_buffer, xkb_compose_table_new. cbn [negb Z.eqb Pos.eqb].
    unfold parse_string, COMPOSE_MAX_INCLUDE_DEPTH. cbn [parse]. rewrite check_encoding_dump by done.
    erewrite parse_lines; [done|exact Hes|exact Eadd| |done]. lia.
  - intros seq. rewrite Hd'.
    assert (unrelated_all ps) as Hun.
    { intros i j p q Hi Hj Hij Hrel. unfold ps, es in Hi, Hj. rewrite <- list_fmap_compose in Hi, Hj.
      apply list_lookup_fmap_Some in Hi as (x & -> & Hi). apply list_lookup_fmap_Some in Hj as (y & -> & Hj).
      cbn in Hrel. apply (flatten_distinct t (tok_tree _ _ Htb) i j x y Hi Hj Hij).
      destruct x as [s r], y as [s' r']. apply list_elem_of_lookup_2 in Hi, Hj.
      apply flatten_elem in Hi as (? & -> & Hi), Hj as (? & -> & Hj); try apply Htb. cbn in *.
      eapply find_unrelated; [exact Hi|exact Hj|apply Htb|exact Hrel]. }
    apply option_eq. intros r. rewrite dict_of_unrelated by done. split.
    + intros (p & Hp & <- & <-). unfold ps, es in Hp. rewrite <- list_fmap_compose in Hp.
      apply list_elem_of_fmap in Hp as (x & -> & Hin). destruct (Hx x Hin) as (r & Hd & _ & E). cbn. by rewrite E.
    + intros Hd. unfold dict in Hd. destruct (find t seq) as [r0|] eqn:Hf; [|done].
      assert ((seq, r0) ∈ flatten t []) as Hin by (apply flatten_elem; [apply Htb|]; by exists seq).
      exists (production_of (entry_of (ct_utf8 tb) (seq, r0))). split.
      * unfold ps, es. apply list_elem_of_fmap_2, list_elem_of_fmap_2. done.
      * split; [done|]. destruct (Hx _ Hin) as (r' & Hd1 & _ & E). rewrite E. cbn [fst] in Hd1.
        unfold dict in Hd1. rewrite Hf in Hd1. congruence.
Qed.

(** ** Witnesses and counterexamples *)

Definition no_env : compose_env := mk_env None None [] (fun _ => None).

Definition sample_tree : tst := TNode 1 97 TNil TNil (Some (1%nat, 98)) TNil.
Definition sample_table : xkb_compose_table := mk_ctable [dummy_node; mk_cnode 97 0 0 (Leaf 1 98)] [0; 120; 0].

Lemma sample_find s x : find sample_tree s = Some x -> s = [97] /\ x = (1%nat, 98).
Proof.
  unfold sample_tree. destruct s as [|a s]; [done|]. cbn [find].
  destruct (Z.ltb_spec a 97); [done|]. destruct (Z.gtb_spec a 97); [done|]. destruct s as [|b s]; [|done].
  intros [= <-]. split; [f_equal; lia|done].
Qed.

Lemma sample_table_ok : table_ok sample_table sample_tree.
Proof.
  split; [split|done|split].
  - done.
  - repeat split; done.
  - done.
  - apply NoDup_singleton.
  - apply Forall_singleton. cbn. lia.
  - cbn. split; [split; [done|intros H; by destruct H]|]. repeat split; apply Forall_nil_2.
  - cbn. unfold COMPOSE_MAX_LHS_LEN. lia.
  - intros s u k [-> [= -> ->]]%sample_find _. by exists [].
  - intros s s' u u' k k' [-> _]%sample_find [-> _]%sample_find. done.
Qed.

Lemma literal_intro s : forallb (fun b => (0 <? b) && (b <? 256)) s = true -> is_valid_utf8 s = true ->
  (length s + 1 < SCANNER_BUF_SIZE)%nat -> literal s.
Proof.
  intros H Hv Hl. rewrite forallb_forall in H.
  assert (Forall (fun b => 0 < b < 256) s) as Hs.
  { apply list.Forall_forall. intros b Hb. apply list_elem_of_In in Hb. specialize (H b Hb).
    apply andb_true_iff in H as [H1 H2]. lia. }
  split; try done; (eapply list.Forall_impl; [exact Hs|]); intros b Hb; cbn in Hb; unfold is_byte; lia.
Qed.

Lemma dump_round_trip_witness :
  exists text tb' t', xkb_compose_table_dump sample_table = Ok text /\
    xkb_compose_table_new_from_buffer no_env text 1 0 = Ok (Some tb') /\
    table_ok tb' t' /\ forall seq, dict tb' t' seq = dict sample_table sample_tree seq.
Proof.
  apply (dump_round_trip no_env sample_table sample_tree sample_table_ok).
  - intros seq r Hd. unfold dict in Hd. destruct (find sample_tree seq) as [x|] eqn:Hf; [|discriminate Hd].
    apply sample_find in Hf as [-> ->]. injection Hd as <-. split; [|discriminate].
    change (dict_entry [97] (result_of (ct_utf8 sample_table) (1%nat, 98))) with (mk_centry [97] 98 [120]).
    split; cbn [en_sequence en_keysym en_utf8].
    + discriminate.
    + apply Nat.leb_le. reflexivity.
    + apply Forall_singleton. split; reflexivity || discriminate.
    + apply literal_intro; [reflexivity|reflexivity|apply Nat.ltb_lt; reflexivity].
    + apply Nat.leb_le. reflexivity.
    + split; discriminate.
    + intros _. vm_compute. reflexivity.
    + left. discriminate.
  - reflexivity.
  - reflexivity.
Defined.

Lemma escape_round_trip_witness :
  parse_string_literal (34 :: escape_utf8_string_literal [7; 65; 34; 0xe2; 0x82; 0xac] ++ [34]) =
    Some [7; 65; 34; 0xe2; 0x82; 0xac].
Proof.
  apply (escape_round_trip [7; 65; 34; 0xe2; 0x82; 0xac]).
  apply literal_intro; [reflexivity|reflexivity|apply Nat.ltb_lt; reflexivity].
Defined.

(** The text of a table, dumped and parsed again. *)
Definition parse_dump_parse (text : string) : option (list Z) * option nat :=
  match xkb_compose_table_new_from_buffer no_env (bytes_of text) 1 0 with
  | Ok (Some tb) =>
      match xkb_compose_table_dump tb with
      | Ok dumped =>
          (Some dumped,
           match xkb_compose_table_new_from_buffer no_env dumped 1 0 with
           | Ok (Some tb') => Some (length (ct_nodes tb'))
           | _ => None
           end)
      | Fault _ => (None, None)
      end
  | _ => (None, None)
  end.

Definition newline : string := String (Ascii.ascii_of_nat 10) EmptyString.
Definition quote : string := String (Ascii.ascii_of_nat 34) EmptyString.

(** The keysym [0] of a result, entered as [U0030], is dumped by its name,
    which is no identifier: the line is lost. *)
Theorem dump_digit_lost :
  parse_dump_parse ("<a> : U0030" ++ newline) = (Some (bytes_of ("<a> :  0" ++ newline)), Some 1%nat).
Proof. vm_compute. reflexivity. Qed.

(** An empty string alone is dumped as no result: the line is lost. *)
Theorem dump_empty_string_lost :
  parse_dump_parse ("<a> : " ++ quote ++ quote ++ newline) = (Some (bytes_of ("<a> : " ++ newline)), Some 1%nat).
Proof. vm_compute. reflexivity. Qed.
