(* ===== verification/Expr.v ===== *)
(** * Expressions of keymap files (src/xkbcomp/ast.h, src/xkbcomp/expr.c)

    The syntax tree of expressions and the functions that resolve them to
    booleans, integers, masks and names.  Arithmetic is on [int64_t]: what the
    source checks is an error, what it leaves undefined is a fault. *)

From Stdlib Require Import ZArith Lia String.
From stdpp Require Import base tactics list numbers.
From S2P Require Import Prelude Numbers Atom Keymap KeysymNames KeysymName.

(** ** The syntax tree

    [ExprDef] of ast.h without the links of statements: the type tag is the
    constructor, a linked list of expressions is a list. *)

Inductive binary_op := STMT_EXPR_ADD | STMT_EXPR_SUBTRACT | STMT_EXPR_MULTIPLY | STMT_EXPR_DIVIDE
  | STMT_EXPR_ASSIGN.
Inductive unary_op := STMT_EXPR_NOT | STMT_EXPR_NEGATE | STMT_EXPR_INVERT | STMT_EXPR_UNARY_PLUS.

Inductive ExprDef :=
| STMT_EXPR_STRING_LITERAL (str : Z)
| STMT_EXPR_INTEGER_LITERAL (ival : Z)
| STMT_EXPR_FLOAT_LITERAL
| STMT_EXPR_BOOLEAN_LITERAL (set : bool)
| STMT_EXPR_KEYNAME_LITERAL (key_name : Z)
| STMT_EXPR_KEYSYM_LITERAL (keysym : Z)
| STMT_EXPR_IDENT (ident : Z)
| STMT_EXPR_ACTION_DECL (name : Z) (args : list ExprDef)
| STMT_EXPR_FIELD_REF (element field : Z)
| STMT_EXPR_ARRAY_REF (element field : Z) (entry : ExprDef)
| STMT_EXPR_EMPTY_LIST
| STMT_EXPR_KEYSYM_LIST (syms : list Z)
| STMT_EXPR_ACTION_LIST (actions : list ExprDef)
| ExprBinary (op : binary_op) (left_ right_ : ExprDef)
| ExprUnary (op : unary_op) (child : ExprDef).

(** ** Results

    The returned [false] is [Failed], or [Pending] when [*pending] was set.
    The callers give a [*pending] that is false.  What a failed call leaves in
    [*val_rtrn] is never used. *)

Inductive resolution (A : Type) := Resolved (a : A) | Failed | Pending.
Arguments Resolved {A} a.
Arguments Failed {A}.
Arguments Pending {A}.

Definition rbind {A B} (m : result (resolution A)) (k : A -> result (resolution B))
    : result (resolution B) :=
  match m with
  | Ok (Resolved a) => k a
  | Ok Failed => Ok Failed
  | Ok Pending => Ok Pending
  | Fault f => Fault f
  end.

(** What a call without [pending] argument returns. *)
Definition to_option {A} (r : resolution A) : option A :=
  match r with Resolved a => Some a | _ => None end.

Definition result_map {A B} (f : A -> B) (m : result A) : result B :=
  match m with Ok a => Ok (f a) | Fault e => Fault e end.

Definition result_bind {A B} (m : result A) (k : A -> result B) : result B :=
  match m with Ok a => k a | Fault e => Fault e end.

Notation "'let?' x ':=' m 'in' k" := (rbind m (fun x => k))
  (at level 10, x name, m at level 100, k at level 200) : xkb_scope.
Notation "'let+' x ':=' m 'in' k" := (result_bind m (fun x => k))
  (at level 10, x name, m at level 100, k at level 200) : xkb_scope.

(** ** Texts of atoms (src/context-priv.c) *)

Definition xkb_atom_text (ctx : atom_table) (atom : Z) : result (option (list Z)) :=
  atom_text ctx (Z.to_nat atom).

Definition istreq (s1 s2 : list Z) : bool := istrcmp s1 s2 =? 0.
Definition istrneq (s1 s2 : list Z) (n : nat) : bool := istrncmp s1 s2 n =? 0.

(** The text of an atom passed to a function that dereferences it. *)
Definition atom_string (ctx : atom_table) (atom : Z) : result (list Z) :=
  match xkb_atom_text ctx atom with
  | Ok (Some s) => Ok s
  | Ok None => Fault FaultNull
  | Fault f => Fault f
  end.

(** ** Lookup of identifiers *)

(** An entry of a table ends the table when its name is [NULL]. *)
Definition LookupEntry : Type := option (list Z) * Z.

Fixpoint lookup_entries (str : list Z) (entries : list LookupEntry) : option Z :=
  match entries with
  | (Some name, value) :: entries =>
      if istreq str name then Some value else lookup_entries str entries
  | _ => None
  end.

(** [None] is the null table. *)
Definition SimpleLookup (ctx : atom_table) (priv : option (list LookupEntry)) (field : Z)
    : result (option Z) :=
  match priv with
  | None => Ok None
  | Some entries =>
      if field =? XKB_ATOM_NONE then Ok None
      else let+ str := atom_string ctx field in Ok (lookup_entries str entries)
  end.

Record named_integer_pattern := mk_pattern {
  np_prefix : list Z;
  np_min : Z;
  np_max : Z;
  np_entries : option (list LookupEntry);
  np_pending_entries : option (list LookupEntry);
  np_is_mask : bool
}.

(** [pending]: the argument [pending_rtrn] is not null.  The number is parsed
    up to the end of the string. *)
Definition NamedIntegerPatternLookup (ctx : atom_table) (pattern : named_integer_pattern)
    (pending : bool) (field : Z) : result (resolution Z) :=
  if field =? XKB_ATOM_NONE then Ok Failed
  else
    let+ str := atom_string ctx field in
    let prefix_length := length (np_prefix pattern) in
    let '(count, val) :=
      if istrneq str (np_prefix pattern) prefix_length
      then parse_dec_to_uint32_t (drop prefix_length str) (S (length str)) else (0, 0) in
    if (count >? 0) && (Z.of_nat (length str) =? Z.of_nat prefix_length + count) then
      if (val <? np_min pattern) || (val >? np_max pattern) then Ok Failed
      else if np_is_mask pattern then
        if val - np_min pattern <? 32 then Ok (Resolved (bit (val - np_min pattern)))
        else Fault FaultAssert
      else Ok (Resolved val)
    else
      let+ found := match np_entries pattern with
                    | Some entries => SimpleLookup ctx (Some entries) field
                    | None => Ok None
                    end in
      match found with
      | Some val => Ok (Resolved val)
      | None =>
          match np_pending_entries pattern, pending with
          | Some entries, true =>
              let+ found := SimpleLookup ctx (Some entries) field in
              Ok (if bool_decide (is_Some found) then Pending else Failed)
          | _, _ => Ok Failed
          end
      end.

Definition modifier_all : list Z := bytes_of "all"%string.
Definition modifier_none : list Z := bytes_of "none"%string.

Definition LookupModMask (ctx : atom_table) (mods : list xkb_mod) (mod_type : Z) (field : Z)
    : result (option Z) :=
  let+ str := xkb_atom_text ctx field in
  match str with
  | None => Ok None
  | Some str =>
      if istreq str modifier_all then Ok (Some MOD_REAL_MASK_ALL)
      else if istreq str modifier_none then Ok (Some 0)
      else
        let ndx := XkbModNameToIndex mods field mod_type in
        if ndx =? XKB_MOD_INVALID then Ok None
        else if ndx <? 32 then Ok (Some (bit ndx)) else Fault FaultShift
  end.

(** A lookup that never is pending. *)
Definition no_pending (r : result (option Z)) : result (resolution Z) :=
  result_map (fun v => match v with Some v => Resolved v | None => Failed end) r.

(** ** Left-hand sides *)

(** The returned element, field and index; [None] for a returned [false]. *)
Definition ExprResolveLhs (ctx : atom_table) (expr : ExprDef)
    : result (option (option (list Z) * list Z * option ExprDef)) :=
  match expr with
  | STMT_EXPR_IDENT ident =>
      let+ field := xkb_atom_text ctx ident in
      Ok (match field with Some field => Some (None, field, None) | None => None end)
  | STMT_EXPR_FIELD_REF element field =>
      let+ elem := xkb_atom_text ctx element in
      let+ field := xkb_atom_text ctx field in
      Ok (match elem, field with
          | Some elem, Some field => Some (Some elem, field, None)
          | _, _ => None
          end)
  | STMT_EXPR_ARRAY_REF element field entry =>
      let+ elem := xkb_atom_text ctx element in
      let+ field := xkb_atom_text ctx field in
      if negb (element =? XKB_ATOM_NONE) && negb (bool_decide (is_Some elem)) then Ok None
      else Ok (match field with Some field => Some (elem, field, Some entry) | None => None end)
  | _ => Ok None
  end.

(** ** Booleans *)

Definition boolean_true : list (list Z) := map bytes_of ["true"; "yes"; "on"]%string.
Definition boolean_false : list (list Z) := map bytes_of ["false"; "no"; "off"]%string.

Fixpoint ExprResolveBoolean (ctx : atom_table) (expr : ExprDef) : result (option bool) :=
  match expr with
  | STMT_EXPR_BOOLEAN_LITERAL set => Ok (Some set)
  | STMT_EXPR_IDENT ident =>
      let+ ident := xkb_atom_text ctx ident in
      Ok (match ident with
          | Some ident =>
              if existsb (istreq ident) boolean_true then Some true
              else if existsb (istreq ident) boolean_false then Some false
              else None
          | None => None
          end)
  | ExprUnary (STMT_EXPR_INVERT | STMT_EXPR_NOT) child =>
      let+ ok := ExprResolveBoolean ctx child in
      Ok (option_map negb ok)
  | _ => Ok None
  end.

(** ** Integers *)

Definition INT64_MIN : Z := - 2 ^ 63.
Definition INT64_MAX : Z := 2 ^ 63 - 1.
Definition in_int64 (v : Z) : bool := (INT64_MIN <=? v) && (v <=? INT64_MAX).

(** The checked operations [ckd_add], [ckd_sub] and [ckd_mul]: an error when
    the exact result does not fit. *)
Definition ckd (v : Z) : result (resolution Z) :=
  Ok (if in_int64 v then Resolved v else Failed).

(** The C operators on [int64_t]: undefined when the result does not fit. *)
Definition int64_op (v : Z) : result (resolution Z) :=
  if in_int64 v then Ok (Resolved v) else Fault FaultOverflow.

Definition integer_binary (op : binary_op) (l r : Z) : result (resolution Z) :=
  match op with
  | STMT_EXPR_ADD => ckd (l + r)
  | STMT_EXPR_SUBTRACT => ckd (l - r)
  | STMT_EXPR_MULTIPLY => ckd (l * r)
  | STMT_EXPR_DIVIDE => if r =? 0 then Ok Failed else int64_op (Z.quot l r)
  | STMT_EXPR_ASSIGN => Ok Failed
  end.

(** [lookup] takes an identifier, [None] being the null function. *)
Fixpoint ExprResolveIntegerLookup (lookup : option (Z -> result (resolution Z))) (expr : ExprDef)
    : result (resolution Z) :=
  match expr with
  | STMT_EXPR_INTEGER_LITERAL ival => Ok (Resolved ival)
  | STMT_EXPR_IDENT ident =>
      match lookup with Some lookup => lookup ident | None => Ok Failed end
  | ExprBinary STMT_EXPR_ASSIGN _ _ => Ok Failed
  | ExprBinary op e1 e2 =>
      let? l := ExprResolveIntegerLookup lookup e1 in
      let? r := ExprResolveIntegerLookup lookup e2 in
      integer_binary op l r
  | ExprUnary STMT_EXPR_NOT _ => Ok Failed
  | ExprUnary STMT_EXPR_INVERT child =>
      let? l := ExprResolveIntegerLookup lookup child in Ok (Resolved (Z.lnot l))
  | ExprUnary STMT_EXPR_NEGATE child =>
      let? l := ExprResolveIntegerLookup lookup child in int64_op (- l)
  | ExprUnary STMT_EXPR_UNARY_PLUS child => ExprResolveIntegerLookup lookup child
  | _ => Ok Failed
  end.

Definition ExprResolveInteger (expr : ExprDef) : result (option Z) :=
  result_map to_option (ExprResolveIntegerLookup None expr).

(** ** Groups, levels and buttons *)

Inductive xkb_parser_error (A : Type) :=
| PARSER_SUCCESS (a : A)
| PARSER_RECOVERABLE_ERROR
| PARSER_FATAL_ERROR.
Arguments PARSER_SUCCESS {A} a.
Arguments PARSER_RECOVERABLE_ERROR {A}.
Arguments PARSER_FATAL_ERROR {A}.

Definition PARSER_NO_FIELD_TYPE_MISMATCH : Z := 2 ^ 1.

(** What the resolution of groups reads of [struct xkb_keymap_info]. *)
Record group_info := mk_group_info {
  gi_ctx : atom_table;
  gi_strict : Z;
  gi_max_groups : Z;
  gi_groupIndexNames : list LookupEntry;
  gi_groupMaskNames : list LookupEntry
}.

Definition GROUP_LAST_INDEX_NAME : list Z := bytes_of "last"%string.
Definition pendingGroupIndexNames : list LookupEntry := [(Some GROUP_LAST_INDEX_NAME, 0); (None, 0)].
Definition pendingGroupMaskNames : list LookupEntry := [(Some GROUP_LAST_INDEX_NAME, 0); (None, 0)].

Definition group_name_pattern (info : group_info) : named_integer_pattern :=
  mk_pattern (bytes_of "Group"%string) 1 (gi_max_groups info)
    (Some (gi_groupIndexNames info)) (Some pendingGroupIndexNames) false.

(** The error, and whether [*pending] was set. *)
Definition ExprResolveGroup (info : group_info) (expr : ExprDef) (absolute pending : bool)
    : result (xkb_parser_error Z * bool) :=
  let error := if has_flag (gi_strict info) PARSER_NO_FIELD_TYPE_MISMATCH
               then PARSER_FATAL_ERROR else PARSER_RECOVERABLE_ERROR in
  let+ result := ExprResolveIntegerLookup
    (Some (NamedIntegerPatternLookup (gi_ctx info) (group_name_pattern info) pending)) expr in
  Ok (match result with
      | Resolved result =>
          if (result <? Z.b2z absolute) || (result >? gi_max_groups info) then (error, false)
          else (PARSER_SUCCESS (u32 result), false)
      | Failed => (error, false)
      | Pending => (error, true)
      end).

Definition XKB_LEVEL_MAX_IMPL : Z := 2048.

Definition level_name_pattern : named_integer_pattern :=
  mk_pattern (bytes_of "Level"%string) 1 XKB_LEVEL_MAX_IMPL None None false.

Definition ExprResolveLevel (ctx : atom_table) (expr : ExprDef) : result (option Z) :=
  let+ result := ExprResolveIntegerLookup
    (Some (NamedIntegerPatternLookup ctx level_name_pattern false)) expr in
  Ok (match result with
      | Resolved result =>
          if (result <? 1) || (result >? XKB_LEVEL_MAX_IMPL) then None
          else Some (u32 (result - 1))
      | _ => None
      end).

Definition buttonNames : list LookupEntry :=
  [(Some (bytes_of "Button1"%string), 1); (Some (bytes_of "Button2"%string), 2);
   (Some (bytes_of "Button3"%string), 3); (Some (bytes_of "Button4"%string), 4);
   (Some (bytes_of "Button5"%string), 5); (Some (bytes_of "default"%string), 0); (None, 0)].

Definition ExprResolveButton (ctx : atom_table) (expr : ExprDef) : result (option Z) :=
  result_map to_option (ExprResolveIntegerLookup
    (Some (fun field => no_pending (SimpleLookup ctx (Some buttonNames) field))) expr).

(** ** Strings and enumerations *)

Definition ExprResolveString (expr : ExprDef) : option Z :=
  match expr with STMT_EXPR_STRING_LITERAL str => Some str | _ => None end.

Definition ExprResolveEnum (ctx : atom_table) (expr : ExprDef) (values : list LookupEntry)
    : result (option Z) :=
  match expr with
  | STMT_EXPR_IDENT ident => SimpleLookup ctx (Some values) ident
  | _ => Ok None
  end.

(** ** Masks *)

Definition in_mask (v : Z) : bool := (0 <=? v) && (v <=? UINT32_MAX).

Definition mask_binary (op : binary_op) (l r : Z) : resolution Z :=
  match op with
  | STMT_EXPR_ADD => Resolved (Z.lor l r)
  | STMT_EXPR_SUBTRACT => Resolved (Z.land l (u32 (Z.lnot r)))
  | _ => Failed
  end.

Fixpoint ExprResolveMaskLookup (lookup : Z -> result (resolution Z)) (expr : ExprDef)
    : result (resolution Z) :=
  match expr with
  | STMT_EXPR_INTEGER_LITERAL ival => Ok (if in_mask ival then Resolved ival else Failed)
  | STMT_EXPR_IDENT ident => lookup ident
  | ExprBinary STMT_EXPR_ASSIGN _ _ => Ok Failed
  | ExprBinary op e1 e2 =>
      let? l := ExprResolveMaskLookup lookup e1 in
      let? r := ExprResolveMaskLookup lookup e2 in
      Ok (mask_binary op l r)
  | ExprUnary STMT_EXPR_INVERT child =>
      let? v := ExprResolveIntegerLookup (Some lookup) child in
      Ok (if in_mask v then Resolved (u32 (Z.lnot v)) else Failed)
  | ExprUnary _ child =>
      let? v := ExprResolveIntegerLookup (Some lookup) child in Ok Failed
  | _ => Ok Failed
  end.

Definition ExprResolveMask (ctx : atom_table) (expr : ExprDef) (values : list LookupEntry)
    : result (option Z) :=
  result_map to_option
    (ExprResolveMaskLookup (fun field => no_pending (SimpleLookup ctx (Some values) field)) expr).

Definition ExprResolveModMask (ctx : atom_table) (expr : ExprDef) (mod_type : Z) (mods : list xkb_mod)
    : result (option Z) :=
  result_map to_option
    (ExprResolveMaskLookup (fun field => no_pending (LookupModMask ctx mods mod_type field)) expr).

Definition ExprResolveMod (def : ExprDef) (mod_type : Z) (mods : list xkb_mod) : option Z :=
  match def with
  | STMT_EXPR_IDENT name =>
      let ndx := XkbModNameToIndex mods name mod_type in
      if ndx =? XKB_MOD_INVALID then None else Some ndx
  | _ => None
  end.

Definition group_mask_pattern (info : group_info) : named_integer_pattern :=
  mk_pattern (bytes_of "Group"%string) 1 (gi_max_groups info)
    (Some (gi_groupMaskNames info)) (Some pendingGroupMaskNames) true.

Definition ExprResolveGroupMask (info : group_info) (expr : ExprDef) (pending : bool)
    : result (resolution Z) :=
  ExprResolveMaskLookup
    (NamedIntegerPatternLookup (gi_ctx info) (group_mask_pattern info) pending) expr.

(** ** The tables of group names (src/xkbcomp/keymap.c, [CompileKeymap])

    [last] is active when the number of groups is known. *)

Definition XKB_ALL_GROUPS : Z := 2 ^ 32 - 1.

Definition group_names_last (last : option Z) : LookupEntry :=
  match last with Some value => (Some GROUP_LAST_INDEX_NAME, value) | None => (None, 0) end.

Definition groupIndexNames (last : option Z) : list LookupEntry :=
  [(Some (bytes_of "first"%string), 1); group_names_last last; (None, 0)].

Definition groupMaskNames (last : option Z) : list LookupEntry :=
  [(Some (bytes_of "none"%string), 0); (Some (bytes_of "first"%string), 1);
   (Some (bytes_of "all"%string), XKB_ALL_GROUPS); group_names_last last; (None, 0)].

(** The tables at the start of a compilation: [num_groups] is 0 when unknown. *)
Definition group_last_index (num_groups : Z) : option Z :=
  if num_groups =? 0 then None else Some num_groups.
Definition group_last_mask (num_groups : Z) : option Z :=
  if num_groups =? 0 then None
  else Some (if num_groups <=? XKB_MAX_GROUPS then bit (num_groups - 1) else 0).
