(* ===== verification/ExprSpec.v ===== *)
(** * Properties of the resolution of expressions

    An integer expression has its exact value, unless it has none or an
    operation leaves [int64_t]; a mask fits 32 bits; an expression on the last
    group is postponed, or has the same result whatever the number of groups. *)

From Stdlib Require Import ZArith Lia String.
From stdpp Require Import base tactics list numbers.
From S2P Require Import Prelude Numbers Atom Keymap KeysymName Expr.

Lemma rbind_Resolved {A B} (a : A) (k : A -> result (resolution B)) : rbind (Ok (Resolved a)) k = k a.
Proof. done. Qed.

(** ** Exact values

    The value over the integers, with the division of C. *)

Definition exact_binary (op : binary_op) (l r : Z) : option Z :=
  match op with
  | STMT_EXPR_ADD => Some (l + r)
  | STMT_EXPR_SUBTRACT => Some (l - r)
  | STMT_EXPR_MULTIPLY => Some (l * r)
  | STMT_EXPR_DIVIDE => if r =? 0 then None else Some (Z.quot l r)
  | STMT_EXPR_ASSIGN => None
  end.

Definition exact_unary (op : unary_op) (v : Z) : option Z :=
  match op with
  | STMT_EXPR_NOT => None
  | STMT_EXPR_NEGATE => Some (- v)
  | STMT_EXPR_INVERT => Some (- v - 1)
  | STMT_EXPR_UNARY_PLUS => Some v
  end.

Fixpoint exact (env : Z -> option Z) (e : ExprDef) : option Z :=
  match e with
  | STMT_EXPR_INTEGER_LITERAL ival => Some ival
  | STMT_EXPR_IDENT ident => env ident
  | ExprBinary op e1 e2 => l ← exact env e1; r ← exact env e2; exact_binary op l r
  | ExprUnary op e => v ← exact env e; exact_unary op v
  | _ => None
  end.

(** The operands of arithmetic, and the expression itself. *)
Fixpoint operands (e : ExprDef) : list ExprDef :=
  e :: match e with
       | ExprBinary _ e1 e2 => operands e1 ++ operands e2
       | ExprUnary _ e => operands e
       | _ => []
       end.

(** The parser makes literals of 63 bits. *)
Definition literal_ok (e : ExprDef) : Prop :=
  match e with STMT_EXPR_INTEGER_LITERAL ival => in_int64 ival = true | _ => True end.

Definition is_checked (e : ExprDef) : Prop :=
  match e with
  | ExprBinary (STMT_EXPR_ADD | STMT_EXPR_SUBTRACT | STMT_EXPR_MULTIPLY) _ _ => True
  | _ => False
  end.
Definition is_unchecked (e : ExprDef) : Prop :=
  match e with
  | ExprBinary STMT_EXPR_DIVIDE _ _ | ExprUnary STMT_EXPR_NEGATE _ => True
  | _ => False
  end.

(** Some checked operation has a value outside of [int64_t]. *)
Definition overflows (env : Z -> option Z) (e : ExprDef) : Prop :=
  exists e' v, e' ∈ operands e /\ is_checked e' /\ exact env e' = Some v /\ in_int64 v = false.

(** Some negation or division gives [- INT64_MIN]. *)
Definition undefined (env : Z -> option Z) (e : ExprDef) : Prop :=
  exists e', e' ∈ operands e /\ is_unchecked e' /\ exact env e' = Some (- INT64_MIN).

Definition answers (lookup : option (Z -> result (resolution Z))) (env : Z -> option Z) : Prop :=
  forall ident,
    match lookup with
    | Some lookup => lookup ident = Ok (match env ident with Some v => Resolved v | None => Failed end)
    | None => env ident = None
    end.

Definition integer_spec (env : Z -> option Z) (e : ExprDef) (r : result (resolution Z)) : Prop :=
  match r with
  | Ok (Resolved v) => exact env e = Some v /\ in_int64 v = true
  | Ok Failed => exact env e = None \/ overflows env e
  | Ok Pending => False
  | Fault f => f = FaultOverflow /\ undefined env e
  end.

Section integers.
Context (env : Z -> option Z).

Lemma overflows_mono e e' : (forall x, x ∈ operands e -> x ∈ operands e') -> overflows env e -> overflows env e'.
Proof. intros H (x & v & Hx & ?). exists x, v. auto. Qed.

Lemma undefined_mono e e' : (forall x, x ∈ operands e -> x ∈ operands e') -> undefined env e -> undefined env e'.
Proof. intros H (x & Hx & ?). exists x. auto. Qed.

(** The part of the specification about the operands. *)
Lemma spec_operand e e' r (k : Z -> result (resolution Z)) :
  (forall x, x ∈ operands e -> x ∈ operands e') -> (exact env e = None -> exact env e' = None) ->
  integer_spec env e r ->
  (forall v, exact env e = Some v -> in_int64 v = true -> integer_spec env e' (k v)) ->
  integer_spec env e' (let? v := r in k v).
Proof.
  intros Hsub Hnone Hr Hk. destruct r as [[v| |]|f]; cbn in *; try done.
  - destruct Hr. by apply Hk.
  - destruct Hr as [Hr|Hr]; [left; auto | right]. by apply (overflows_mono e).
  - destruct Hr as [-> Hr]. split; [done|]. by apply (undefined_mono e).
Qed.

Lemma spec_ckd e v : is_checked e -> exact env e = Some v -> integer_spec env e (ckd v).
Proof.
  intros Hc Hv. unfold ckd. destruct (in_int64 v) eqn:Hin; cbn; [done|]. right.
  exists e, v. split; [destruct e; constructor | done].
Qed.

Lemma spec_int64_op e v : is_unchecked e -> exact env e = Some v ->
  (in_int64 v = false -> v = - INT64_MIN) -> integer_spec env e (int64_op v).
Proof.
  intros Hc Hv Hmin. unfold int64_op. destruct (in_int64 v) eqn:Hin; cbn; [done|]. split; [done|].
  exists e. rewrite <- Hmin by done. split; [destruct e; constructor | done].
Qed.

Lemma in_int64_spec v : in_int64 v = true <-> INT64_MIN <= v <= INT64_MAX.
Proof. unfold in_int64. rewrite andb_true_iff, !Z.leb_le. done. Qed.

Lemma in_int64_false v : in_int64 v = false <-> v < INT64_MIN \/ INT64_MAX < v.
Proof. unfold in_int64. rewrite andb_false_iff, !Z.leb_gt. done. Qed.

Lemma quot_overflow l r : in_int64 l = true -> r <> 0 -> in_int64 (Z.quot l r) = false -> Z.quot l r = - INT64_MIN.
Proof.
  rewrite in_int64_spec, in_int64_false. intros Hl Hr Hq.
  pose proof (Z.quot_abs l r Hr) as Habs.
  destruct (Z.eq_dec (Z.abs r) 1) as [H1|H1].
  - assert (r = 1 \/ r = -1) as [-> | ->] by lia.
    + rewrite Z.quot_1_r in Hq. lia.
    + replace (Z.quot l (-1)) with (- l) in *; [|rewrite <- (Z.quot_1_r l) at 1; by rewrite <- Z.quot_opp_r].
      unfold INT64_MIN, INT64_MAX in *. lia.
  - pose proof (Z.quot_le_upper_bound (Z.abs l) (Z.abs r) (2 ^ 62)).
    unfold INT64_MIN, INT64_MAX in *. nia.
Qed.
End integers.

(** C35. The resolution of an integer expression gives its exact value, in
    [int64_t].  It fails only when the expression has no value, or when an
    addition, a subtraction or a multiplication leaves [int64_t]; the only
    undefined behaviour is a negation or a division whose result is 2^63. *)
Theorem resolve_integer_spec lookup env e :
  answers lookup env -> (forall ident v, env ident = Some v -> in_int64 v = true) ->
  Forall literal_ok (operands e) -> integer_spec env e (ExprResolveIntegerLookup lookup e).
Proof.
  intros Hlookup Henv. induction e; intros Hl; cbn; try (by left).
  - apply Forall_cons_1 in Hl as [Hl _]. split; [done | exact Hl].
  - specialize (Hlookup ident). destruct lookup as [lookup|]; [rewrite Hlookup | by left].
    destruct (env ident) as [v|] eqn:Hv; cbn; [split; [done | by apply (Henv ident)] | by left].
  - apply Forall_cons_1 in Hl as [_ [Hl1 Hl2]%list.Forall_app].
    assert (op <> STMT_EXPR_ASSIGN -> integer_spec env (ExprBinary op e1 e2)
      (let? l := ExprResolveIntegerLookup lookup e1 in
       let? r := ExprResolveIntegerLookup lookup e2 in integer_binary op l r)) as H.
    { intros Hop. apply (spec_operand env e1); [|cbn; by intros ->|by apply IHe1|intros l Hl Hli].
      { intros x Hx. cbn. right. apply elem_of_app. by left. }
      apply (spec_operand env e2); [|cbn; intros ->; by destruct (exact env e1)|by apply IHe2|intros r Hr Hri].
      { intros x Hx. cbn. right. apply elem_of_app. by right. }
      assert (exact env (ExprBinary op e1 e2) = exact_binary op l r) as He by (cbn; by rewrite Hl, Hr).
      destruct op; cbn [integer_binary]; try (apply spec_ckd; [done | exact He]); try done.
      cbn [exact_binary] in He. destruct (Z.eqb_spec r 0) as [->|Hr0]; [by left|].
      apply spec_int64_op; [done..|]. by apply quot_overflow. }
    destruct op; try (by apply H). left. cbn. by destruct (exact env e1), (exact env e2).
  - apply Forall_cons_1 in Hl as [_ Hl]. specialize (IHe Hl).
    assert (forall x, x ∈ operands e -> x ∈ operands (ExprUnary op e)) as Hsub by (intros x Hx; by right).
    assert (exact env e = None -> exact env (ExprUnary op e) = None) as Hnone by (cbn; by intros ->).
    destruct op.
    + left. cbn. by destruct (exact env e).
    + apply (spec_operand env e); [done..|intros v Hv Hi]. apply spec_int64_op; [done|cbn; by rewrite Hv|].
      rewrite in_int64_false. rewrite in_int64_spec in Hi. unfold INT64_MIN, INT64_MAX in *. lia.
    + apply (spec_operand env e); [done..|intros v Hv Hi]. cbn. rewrite Hv. cbn.
      rewrite in_int64_spec in *. unfold Z.lnot, INT64_MIN, INT64_MAX in *. split; [f_equal|]; lia.
    + enough (integer_spec env (ExprUnary STMT_EXPR_UNARY_PLUS e)
                (let? v := ExprResolveIntegerLookup lookup e in Ok (Resolved v))) as H.
      { by destruct (ExprResolveIntegerLookup lookup e) as [[| |]|]. }
      apply (spec_operand env e); [done..|intros v Hv Hi]. cbn. by rewrite Hv.
Qed.

(** [-1 * 2 - ident 7]. *)
Definition sample_expr : ExprDef :=
  ExprBinary STMT_EXPR_SUBTRACT
    (ExprBinary STMT_EXPR_MULTIPLY (ExprUnary STMT_EXPR_NEGATE (STMT_EXPR_INTEGER_LITERAL 1))
       (STMT_EXPR_INTEGER_LITERAL 2)) (STMT_EXPR_IDENT 7).

Definition sample_env (ident : Z) : option Z := if ident =? 7 then Some 3 else None.

Lemma resolve_integer_spec_witness :
  integer_spec sample_env sample_expr
    (ExprResolveIntegerLookup (Some (fun ident => Ok (match sample_env ident with Some v => Resolved v | None => Failed end)))
       sample_expr).
Proof.
  apply resolve_integer_spec.
  - intros ident. reflexivity.
  - intros ident v. unfold sample_env. destruct (ident =? 7); [|discriminate]. intros [= <-]. reflexivity.
  - repeat (apply Forall_cons_2; [first [reflexivity | exact I]|]). apply Forall_nil_2.
Defined.

(** [~0x7fffffffffffffff / -1] divides [INT64_MIN] by -1. *)
Example integer_overflow :
  ExprResolveInteger (ExprBinary STMT_EXPR_DIVIDE
    (ExprUnary STMT_EXPR_INVERT (STMT_EXPR_INTEGER_LITERAL 0x7fffffffffffffff))
    (ExprUnary STMT_EXPR_NEGATE (STMT_EXPR_INTEGER_LITERAL 1))) = Fault FaultOverflow.
Proof. reflexivity. Qed.

(** ** Masks *)

Definition mask_values (lookup : Z -> result (resolution Z)) : Prop :=
  forall ident v, lookup ident = Ok (Resolved v) -> is_u32 v.

Lemma in_mask_u32 v : in_mask v = true -> is_u32 v.
Proof. unfold in_mask, is_u32, UINT32_MAX. rewrite andb_true_iff, !Z.leb_le. lia. Qed.

Lemma resolve_mask_u32 lookup e v :
  mask_values lookup -> ExprResolveMaskLookup lookup e = Ok (Resolved v) -> is_u32 v.
Proof.
  intros Hlookup. revert v. induction e; intros v; cbn; try done.
  - destruct (in_mask ival) eqn:Hi; [|done]. intros [= <-]. by apply in_mask_u32.
  - apply Hlookup.
  - destruct op; try done.
    all: destruct (ExprResolveMaskLookup lookup e1) as [[l| |]|]; cbn; try done.
    all: destruct (ExprResolveMaskLookup lookup e2) as [[r| |]|]; cbn; try done.
    all: intros [= <-]; auto with masks.
  - destruct op; destruct (ExprResolveIntegerLookup (Some lookup) e) as [[l| |]|]; cbn; try done.
    destruct (in_mask l); [|done]. intros [= <-]. apply u32_range.
Qed.

Lemma XkbModNameToIndex_nonneg mods name type : 0 <= XkbModNameToIndex mods name type.
Proof. unfold XkbModNameToIndex. destruct (list_find _ mods) as [[i m]|]; [lia|done]. Qed.

Lemma no_pending_Resolved r v : no_pending r = Ok (Resolved v) -> r = Ok (Some v).
Proof. destruct r as [[x|]|]; cbn; [by intros [= <-] | done..]. Qed.

Lemma lookup_mod_mask_u32 ctx mods type :
  mask_values (fun field => no_pending (LookupModMask ctx mods type field)).
Proof.
  intros ident v Hv%no_pending_Resolved. revert Hv. unfold LookupModMask.
  destruct (xkb_atom_text ctx ident) as [[str|]|]; unfold result_bind; [|discriminate..].
  destruct (istreq str modifier_all); [intros [= <-]; by apply is_u32_check|].
  destruct (istreq str modifier_none); [intros [= <-]; by apply is_u32_0|].
  destruct (_ =? XKB_MOD_INVALID); [discriminate|].
  destruct (Z.ltb_spec (XkbModNameToIndex mods ident type) 32); [|discriminate]. intros [= <-].
  apply is_u32_bit. pose proof (XkbModNameToIndex_nonneg mods ident type). lia.
Qed.

Lemma resolve_mod_mask_u32 ctx e type mods v :
  ExprResolveModMask ctx e type mods = Ok (Some v) -> is_u32 v.
Proof.
  unfold ExprResolveModMask. destruct (ExprResolveMaskLookup _ e) as [[x| |]|] eqn:He; cbn; try done.
  intros [= <-]. eapply resolve_mask_u32, He. apply lookup_mod_mask_u32.
Qed.

(** ** Postponed expressions

    When a lookup becomes defined where it was pending, an expression that was
    not pending keeps its result. *)

Definition completes (l1 l2 : Z -> result (resolution Z)) : Prop :=
  forall ident, l1 ident = Ok Pending \/ l1 ident = l2 ident.

Lemma completes_integer l1 l2 e : completes l1 l2 ->
  ExprResolveIntegerLookup (Some l1) e = Ok Pending \/
  ExprResolveIntegerLookup (Some l1) e = ExprResolveIntegerLookup (Some l2) e.
Proof.
  intros Hl. induction e; cbn; try (by right).
  - apply Hl.
  - destruct IHe1 as [-> | ->]; [destruct op; cbn; auto|].
    destruct (ExprResolveIntegerLookup (Some l2) e1) as [[l| |]|]; try (destruct op; by right).
    destruct IHe2 as [-> | ->]; [destruct op; cbn; auto | by right].
  - destruct IHe as [-> | ->]; [destruct op; cbn; auto | by right].
Qed.

Lemma completes_mask l1 l2 e : completes l1 l2 ->
  ExprResolveMaskLookup l1 e = Ok Pending \/ ExprResolveMaskLookup l1 e = ExprResolveMaskLookup l2 e.
Proof.
  intros Hl. induction e; cbn; try (by right).
  - apply Hl.
  - destruct IHe1 as [-> | ->]; [destruct op; cbn; auto|].
    destruct (ExprResolveMaskLookup l2 e1) as [[l| |]|]; try (destruct op; by right).
    destruct IHe2 as [-> | ->]; [destruct op; cbn; auto | by right].
  - destruct (completes_integer l1 l2 e Hl) as [-> | ->]; [destruct op; cbn; auto | by right].
Qed.

Lemma named_integer_completes ctx p1 p2 pend :
  np_prefix p1 = np_prefix p2 -> np_min p1 = np_min p2 -> np_max p1 = np_max p2 ->
  np_is_mask p1 = np_is_mask p2 -> np_pending_entries p1 = Some pend ->
  (exists e1 e2, np_entries p1 = Some e1 /\ np_entries p2 = Some e2 /\
    forall str, lookup_entries str e1 = lookup_entries str e2 \/
                (lookup_entries str e1 = None /\ is_Some (lookup_entries str pend))) ->
  completes (NamedIntegerPatternLookup ctx p1 true) (NamedIntegerPatternLookup ctx p2 false).
Proof.
  intros Hp Hmin Hmax Hmask Hpend (e1 & e2 & He1 & He2 & He) field. unfold NamedIntegerPatternLookup.
  rewrite Hp, Hmin, Hmax, Hmask, He1, He2, Hpend. destruct (field =? XKB_ATOM_NONE) eqn:Hf; [by right|].
  destruct (atom_string ctx field) as [str|f] eqn:Hs; cbn [result_bind]; [|by right].
  destruct (if istrneq str _ _ then _ else _) as [count val].
  destruct (_ && _); [by right|].
  unfold SimpleLookup. rewrite Hf, Hs. cbn [result_bind].
  destruct (He str) as [-> | [-> [v Hv]]].
  - destruct (lookup_entries str e2); [by right|].
    destruct (lookup_entries str pend); [by left|]. by destruct (np_pending_entries p2); right.
  - left. by rewrite Hv.
Qed.

Lemma lookup_last str pre v v' :
  Forall (fun e => e.1 <> None) pre ->
  let e1 := pre ++ [group_names_last None; (None, 0)] in
  let e2 := pre ++ [group_names_last (Some v); (None, 0)] in
  lookup_entries str e1 = lookup_entries str e2 \/
  (lookup_entries str e1 = None /\ is_Some (lookup_entries str [(Some GROUP_LAST_INDEX_NAME, v'); (None, 0)])).
Proof.
  intros Hpre e1 e2. unfold e1, e2. clear e1 e2. induction pre as [|[[n|] x] pre IH].
  - unfold app, group_names_last, lookup_entries. destruct (istreq str _); [right | left]; by eauto.
  - apply Forall_cons_1 in Hpre as [_ Hpre]. cbn [app lookup_entries].
    destruct (istreq str n); [by left | by apply IH].
  - by apply Forall_cons_1 in Hpre as [Hn _].
Qed.

(** The tables of names before and after the number of groups is known. *)
Definition group_info_of (ctx : atom_table) (strict max_groups : Z) (index mask : option Z) : group_info :=
  mk_group_info ctx strict max_groups (groupIndexNames index) (groupMaskNames mask).

(** A group or a mask of groups that refers to the last group before the
    number of groups is known is postponed; any other one has the result that
    it would have once the number of groups is known, whatever that number. *)
Theorem postponed_or_same (ctx : atom_table) (strict max_groups n m : Z) (absolute : bool) (e : ExprDef) :
  let before := group_info_of ctx strict max_groups None None in
  let after := group_info_of ctx strict max_groups (Some n) (Some m) in
  ((exists r, ExprResolveGroup before e absolute true = Ok (r, true)) \/
   ExprResolveGroup before e absolute true = ExprResolveGroup after e absolute false) /\
  (ExprResolveGroupMask before e true = Ok Pending \/
   ExprResolveGroupMask before e true = ExprResolveGroupMask after e false).
Proof.
  intros before after. split.
  - unfold ExprResolveGroup. cbn [before after group_info_of gi_strict gi_ctx gi_max_groups].
    edestruct (completes_integer (NamedIntegerPatternLookup ctx (group_name_pattern before) true)
      (NamedIntegerPatternLookup ctx (group_name_pattern after) false) e) as [H | H].
    + eapply named_integer_completes; [reflexivity..|]. do 2 eexists. do 2 (split; [reflexivity|]).
      intros str. apply (lookup_last str [_]). by constructor.
    + left. rewrite H. by eexists.
    + right. by rewrite H.
  - unfold ExprResolveGroupMask. apply completes_mask.
    eapply named_integer_completes; [reflexivity..|]. do 2 eexists. do 2 (split; [reflexivity|]).
    intros str. apply (lookup_last str [_; _; _]). by repeat constructor.
Qed.
