(* ===== verification/Vmod.v ===== *)
(** * Virtual modifiers of a keymap being compiled (src/xkbcomp/vmod.c)

    The sets of modifiers that the sections of a keymap declare, and their
    merge when a section includes another file.  The assertions of the source
    are faults. *)

From Stdlib Require Import ZArith Lia String.
From stdpp Require Import base tactics list numbers.
From S2P Require Import Prelude Numbers Atom Keymap KeysymName Expr ExprSpec.

(** [struct xkb_mod_set]: the array of [XKB_MAX_MODS] modifiers. *)
Record xkb_mod_set := mk_mod_set {
  ms_mods : list xkb_mod;
  ms_num_mods : nat;
  ms_explicit_vmods : Z
}.

Definition zero_mod : xkb_mod := mk_mod XKB_ATOM_NONE 0 0.

(** The modifiers that [xkb_mods_enumerate] visits. *)
Definition ms_enum (s : xkb_mod_set) : list xkb_mod := take (ms_num_mods s) (ms_mods s).

Definition ms_is_explicit (s : xkb_mod_set) (vmod : nat) : bool :=
  has_flag (ms_explicit_vmods s) (bit (Z.of_nat vmod)).

Definition ms_add_explicit (s : xkb_mod_set) (vmod : nat) : xkb_mod_set :=
  mk_mod_set (ms_mods s) (ms_num_mods s) (Z.lor (ms_explicit_vmods s) (bit (Z.of_nat vmod))).

Definition ms_set_mod (s : xkb_mod_set) (vmod : nat) (m : xkb_mod) : xkb_mod_set :=
  mk_mod_set (<[vmod := m]> (ms_mods s)) (ms_num_mods s) (ms_explicit_vmods s).

Definition mod_set_mapping (m : xkb_mod) (mapping : Z) : xkb_mod :=
  mk_mod (mod_name m) (mod_type m) mapping.

(** The modifiers of a new keymap: [update_builtin_keymap_fields] of
    src/keymap-priv.c, the names being the atoms of the real modifiers. *)
Definition builtin_mod_set (names : list Z) : xkb_mod_set :=
  mk_mod_set
    (imap (fun i name => mk_mod name MOD_REAL (bit (Z.of_nat i))) (take 8 names) ++
     replicate (XKB_MAX_MODS - 8) zero_mod) 8 0.

Definition InitVMods (mods : xkb_mod_set) (reset : bool) : xkb_mod_set :=
  if reset then
    mk_mod_set
      (map (fun m => mod_set_mapping m 0) (ms_enum mods) ++ drop (ms_num_mods mods) (ms_mods mods))
      (ms_num_mods mods) 0
  else mods.

Inductive merge_mode := MERGE_DEFAULT | MERGE_AUGMENT | MERGE_OVERRIDE | MERGE_REPLACE.

(** [merge != MERGE_AUGMENT] *)
Definition clobbers (merge : merge_mode) : bool :=
  match merge with MERGE_AUGMENT => false | _ => true end.

(** [assert(cond)], then the computation. *)
Definition asserting {A} (cond : bool) (r : result A) : result A :=
  if cond then r else Fault FaultAssert.

(** A turn of the loop of [MergeModSets]. *)
Definition merge_mod (from : xkb_mod_set) (merge : merge_mode) (into : xkb_mod_set) (vmod : nat)
    : result xkb_mod_set :=
  match ms_mods from !! vmod, ms_mods into !! vmod with
  | Some m, Some im =>
      if negb (mod_type m =? MOD_VIRT) then
        asserting (((mod_type m =? 0) && (mod_name m =? XKB_ATOM_NONE)) ||
                   (has_flag (mod_type m) MOD_REAL && (mod_type im =? mod_type m) &&
                    negb (mod_name m =? XKB_ATOM_NONE) && (mod_name im =? mod_name m)))
          (Ok into)
      else if mod_type im =? 0 then
        asserting ((mod_name im =? XKB_ATOM_NONE) && negb (mod_name m =? XKB_ATOM_NONE) &&
                   Nat.leb (ms_num_mods into) vmod)
          (let into := ms_set_mod into vmod m in
           Ok (if ms_is_explicit from vmod then ms_add_explicit into vmod else into))
      else
        asserting (negb (mod_name m =? XKB_ATOM_NONE) && (mod_type im =? mod_type m) &&
                   (mod_name im =? mod_name m))
          (if negb (ms_is_explicit from vmod) then
             asserting (mod_mapping m =? 0) (Ok into)
           else if negb (ms_is_explicit into vmod) then
             asserting (mod_mapping im =? 0)
               (Ok (ms_add_explicit (ms_set_mod into vmod (mod_set_mapping im (mod_mapping m))) vmod))
           else if negb (mod_mapping m =? mod_mapping im) then
             let use := if clobbers merge then mod_mapping m else mod_mapping im in
             Ok (ms_set_mod into vmod (mod_set_mapping im use))
           else Ok into)
  | _, _ => Fault FaultOutOfBounds
  end.

Fixpoint merge_mods (from : xkb_mod_set) (merge : merge_mode) (into : xkb_mod_set) (vmods : list nat)
    : result xkb_mod_set :=
  match vmods with
  | [] => Ok into
  | vmod :: vmods => let+ into := merge_mod from merge into vmod in merge_mods from merge into vmods
  end.

Definition MergeModSets (into from : xkb_mod_set) (merge : merge_mode) : result xkb_mod_set :=
  asserting (Nat.leb (ms_num_mods into) (ms_num_mods from))
    (let+ into := merge_mods from merge into (seq 0 (ms_num_mods from)) in
     Ok (mk_mod_set (ms_mods into) (ms_num_mods from) (ms_explicit_vmods into))).

(** [VModDef] of ast.h. *)
Record VModDef := mk_vmod_def {
  vd_merge : merge_mode;
  vd_name : Z;
  vd_value : option ExprDef
}.

(** The declaration of a modifier that exists, at the index [vmod]. *)
Definition redeclare_vmod (mods : xkb_mod_set) (stmt : VModDef) (mapping : Z) (vmod : nat) (m : xkb_mod)
    : bool * xkb_mod_set :=
  if negb (mod_type m =? MOD_VIRT) then (false, mods)
  else match vd_value stmt with
  | None => (true, mods)
  | Some _ =>
      let mods' :=
        if negb (ms_is_explicit mods vmod) then ms_set_mod mods vmod (mod_set_mapping m mapping)
        else if negb (mod_mapping m =? mapping) then
          let use := if clobbers (vd_merge stmt) then mapping else mod_mapping m in
          ms_set_mod mods vmod (mod_set_mapping m use)
        else mods in
      (true, ms_add_explicit mods' vmod)
  end.

(** The declaration of a new modifier. *)
Definition declare_vmod (mods : xkb_mod_set) (stmt : VModDef) (mapping : Z) : bool * xkb_mod_set :=
  if Nat.leb XKB_MAX_MODS (ms_num_mods mods) then (false, mods)
  else
    let vmod := ms_num_mods mods in
    let mods := ms_set_mod mods vmod (mk_mod (vd_name stmt) MOD_VIRT mapping) in
    let mods := if bool_decide (is_Some (vd_value stmt)) then ms_add_explicit mods vmod else mods in
    (true, mk_mod_set (ms_mods mods) (S vmod) (ms_explicit_vmods mods)).

Definition HandleVModDef (ctx : atom_table) (mods : xkb_mod_set) (stmt : VModDef)
    : result (bool * xkb_mod_set) :=
  let+ mapping := match vd_value stmt with
                  | Some value => ExprResolveModMask ctx value MOD_REAL (ms_enum mods)
                  | None => Ok (Some 0)
                  end in
  Ok (match mapping with
      | None => (false, mods)
      | Some mapping =>
          match list_find (fun m => mod_name m = vd_name stmt) (ms_enum mods) with
          | Some (vmod, m) => redeclare_vmod mods stmt mapping vmod m
          | None => declare_vmod mods stmt mapping
          end
      end).

(** The declarations of a file, in order; those in error are skipped. *)
Fixpoint handle_vmods (ctx : atom_table) (mods : xkb_mod_set) (stmts : list VModDef)
    : result xkb_mod_set :=
  match stmts with
  | [] => Ok mods
  | stmt :: stmts => let+ r := HandleVModDef ctx mods stmt in handle_vmods ctx (snd r) stmts
  end.
