(* ===== verification/VmodSpec.v ===== *)
(** * Properties of the declarations of virtual modifiers

    The invariant of the sets of modifiers, kept by the declarations; the set
    that an included file declares can be merged without a failed assertion,
    and what the merge gives. *)

From Stdlib Require Import ZArith Lia String.
From stdpp Require Import base tactics list numbers.
From S2P Require Import Prelude Numbers Atom Keymap KeysymName Expr ExprSpec Vmod.

(** ** The invariant *)

(** A modifier at the index [i] of a set. *)
Definition vmod_at_ok (num i : nat) (explicit : bool) (m : xkb_mod) : Prop :=
  is_u32 (mod_mapping m) /\
  if Nat.ltb i 8 then mod_type m = MOD_REAL /\ mod_name m <> XKB_ATOM_NONE /\ explicit = false
  else if Nat.ltb i num then
    mod_type m = MOD_VIRT /\ mod_name m <> XKB_ATOM_NONE /\ (explicit = false -> mod_mapping m = 0)
  else m = zero_mod /\ explicit = false.

Record vmods_ok (s : xkb_mod_set) : Prop := {
  vo_length : length (ms_mods s) = XKB_MAX_MODS;
  vo_num : (8 <= ms_num_mods s <= XKB_MAX_MODS)%nat;
  vo_explicit : is_u32 (ms_explicit_vmods s);
  vo_mods : forall i m, ms_mods s !! i = Some m -> vmod_at_ok (ms_num_mods s) i (ms_is_explicit s i) m
}.

(** [s'] has the modifiers of [s], then others. *)
Record extends (s s' : xkb_mod_set) : Prop := {
  ext_num : (ms_num_mods s <= ms_num_mods s')%nat;
  ext_mods : forall i m m', (i < ms_num_mods s)%nat -> ms_mods s !! i = Some m -> ms_mods s' !! i = Some m' ->
    mod_name m = mod_name m' /\ mod_type m = mod_type m'
}.

#[global] Instance extends_refl : Reflexive extends.
Proof. intros s. split; [done|]. by intros i m m' _ -> [= ->]. Qed.

Lemma explicit_testbit s i : ms_is_explicit s i = Z.testbit (ms_explicit_vmods s) (Z.of_nat i).
Proof. apply has_flag_bit. lia. Qed.

Lemma explicit_add s i j : ms_is_explicit (ms_add_explicit s i) j = Nat.eqb i j || ms_is_explicit s j.
Proof.
  rewrite !explicit_testbit. unfold ms_add_explicit. cbn [ms_explicit_vmods].
  rewrite Z.lor_spec, bit_spec by lia. rewrite orb_comm. f_equal.
  destruct (Nat.eqb_spec i j), (Z.eqb_spec (Z.of_nat i) (Z.of_nat j)); lia.
Qed.

Lemma vmods_ok_lookup s i : vmods_ok s -> (i < XKB_MAX_MODS)%nat -> exists m, ms_mods s !! i = Some m.
Proof. intros Hs Hi. apply lookup_lt_is_Some_2. by rewrite (vo_length s Hs). Qed.

Lemma ms_enum_lookup s i m : ms_enum s !! i = Some m <-> (i < ms_num_mods s)%nat /\ ms_mods s !! i = Some m.
Proof. unfold ms_enum. rewrite lookup_take_Some. tauto. Qed.

(** An update of one modifier and its explicit bit. *)
Lemma set_mod_ok s s' i m :
  vmods_ok s -> (i < XKB_MAX_MODS)%nat ->
  ms_mods s' = <[i := m]> (ms_mods s) -> ms_num_mods s' = Nat.max (ms_num_mods s) (S i) ->
  (i <= ms_num_mods s)%nat ->
  (ms_explicit_vmods s' = ms_explicit_vmods s \/ s' = ms_add_explicit (mk_mod_set (ms_mods s') (ms_num_mods s') (ms_explicit_vmods s)) i) ->
  vmod_at_ok (ms_num_mods s') i (ms_is_explicit s' i) m -> vmods_ok s'.
Proof.
  intros Hs Hi Hm Hn Hin He Hok. split.
  - rewrite Hm, length_insert. apply vo_length, Hs.
  - pose proof (vo_num s Hs). lia.
  - destruct He as [-> | ->]; [apply vo_explicit, Hs|]. cbn. unfold XKB_MAX_MODS in Hi.
    apply is_u32_lor; [apply vo_explicit, Hs | apply is_u32_bit; lia].
  - intros j mj Hj. rewrite Hm in Hj. destruct (decide (j = i)) as [->|Hne].
    + rewrite list_lookup_insert_eq in Hj by by rewrite (vo_length s Hs). by injection Hj as <-.
    + rewrite list_lookup_insert_ne in Hj by done. pose proof (vo_mods s Hs j mj Hj) as Hj'.
      assert (ms_is_explicit s' j = ms_is_explicit s j) as ->.
      { destruct He as [He | ->]; [by rewrite !explicit_testbit, He|].
        rewrite explicit_add. destruct (Nat.eqb_spec i j); [by subst|]. by rewrite !explicit_testbit. }
      unfold vmod_at_ok in *. destruct (Nat.ltb_spec j 8); [done|].
      destruct (Nat.ltb_spec j (ms_num_mods s)), (Nat.ltb_spec j (ms_num_mods s')); try done; lia.
Qed.

(** ** A new keymap, and the set of a section *)

Lemma builtin_ok names :
  (8 <= length names)%nat -> Forall (fun n => n <> XKB_ATOM_NONE) names -> vmods_ok (builtin_mod_set names).
Proof.
  intros Hn Hnames. assert (length (take 8 names) = 8%nat) as Hl by (rewrite length_take; lia).
  unfold builtin_mod_set. split; cbn [ms_mods ms_num_mods ms_explicit_vmods].
  - rewrite length_app, length_imap, length_replicate, Hl. done.
  - unfold XKB_MAX_MODS. lia.
  - apply is_u32_0.
  - intros i m. rewrite lookup_app_Some, length_imap, Hl. intros [Hi | [Hi1 Hi2]].
    + rewrite list_lookup_imap in Hi. destruct (take 8 names !! i) as [name|] eqn:Hname; [|done].
      injection Hi as <-. apply lookup_take_Some in Hname as [Hname Hlt]. unfold vmod_at_ok. cbn [mod_mapping mod_type mod_name].
      rewrite (proj2 (Nat.ltb_lt i 8)) by done. split; [apply is_u32_bit; lia|]. split; [done|].
      split; [|by rewrite explicit_testbit, Z.testbit_0_l]. exact (Forall_lookup_1 _ _ _ _ Hnames Hname).
    + apply lookup_replicate_1 in Hi2 as [-> Hi2]. unfold vmod_at_ok. cbn [zero_mod mod_mapping]. split; [apply is_u32_0|].
      rewrite (proj2 (Nat.ltb_ge i 8)) by done. by rewrite explicit_testbit, Z.testbit_0_l.
Qed.

Lemma init_reset_lookup s i :
  ms_mods (InitVMods s true) !! i =
  (if Nat.ltb i (ms_num_mods s) then fun m => mod_set_mapping m 0 else id) <$> ms_mods s !! i.
Proof.
  unfold InitVMods, ms_enum. cbn [ms_mods]. destruct (Nat.ltb_spec i (ms_num_mods s)) as [Hlt|Hge].
  - destruct (ms_mods s !! i) as [m|] eqn:Hm.
    + rewrite lookup_app_l.
      * change (map ?f ?l) with (f <$> l). rewrite list_lookup_fmap, lookup_take_lt, Hm by done. done.
      * rewrite length_map, length_take. apply lookup_lt_Some in Hm. lia.
    + apply lookup_ge_None in Hm. apply lookup_ge_None_2.
      rewrite length_app, length_map, length_take, length_drop. lia.
  - rewrite option_fmap_id. destruct (decide (ms_num_mods s <= length (ms_mods s))%nat) as [Hle|Hle].
    + rewrite lookup_app_r; rewrite length_map, length_take, Nat.min_l by done; [|done].
      rewrite lookup_drop. f_equal. lia.
    + rewrite (lookup_ge_None_2 (ms_mods s)) by lia. apply lookup_ge_None_2.
      rewrite length_app, length_map, length_take, length_drop. lia.
Qed.

Lemma init_ok s reset : vmods_ok s -> vmods_ok (InitVMods s reset) /\ extends s (InitVMods s reset).
Proof.
  intros Hs. destruct reset; [|by split]. split; split.
  - cbn. unfold ms_enum. rewrite length_app, length_map, length_take, length_drop, (vo_length s Hs).
    pose proof (vo_num s Hs). lia.
  - exact (vo_num s Hs).
  - apply is_u32_0.
  - intros i m. rewrite init_reset_lookup. destruct (ms_mods s !! i) as [m0|] eqn:Hm; [|done].
    pose proof (vo_mods s Hs i m0 Hm) as [Hu Hok].
    assert (ms_is_explicit (InitVMods s true) i = false) as -> by (rewrite explicit_testbit; apply Z.testbit_0_l).
    unfold vmod_at_ok. cbn [ms_num_mods InitVMods]. pose proof (vo_num s Hs). revert Hok.
    destruct (Nat.ltb_spec i (ms_num_mods s)); cbn [fmap option_fmap option_map id]; intros Hok [= <-]; revert Hok.
    + split; [apply is_u32_0|]. destruct (Nat.ltb_spec i 8); cbn; tauto.
    + split; [done|]. destruct (Nat.ltb_spec i 8); [lia|]. tauto.
  - done.
  - intros i m m' Hi Hm. rewrite init_reset_lookup, Hm. rewrite (proj2 (Nat.ltb_lt _ _)) by done.
    intros [= <-]. done.
Qed.

(** ** Declarations *)

Lemma find_enum s name i m :
  list_find (fun m => mod_name m = name) (ms_enum s) = Some (i, m) ->
  (i < ms_num_mods s)%nat /\ ms_mods s !! i = Some m /\ mod_name m = name.
Proof. intros (Hi & Hn & _)%list_find_Some. apply ms_enum_lookup in Hi as [Hi Hm]. done. Qed.

Lemma extends_same s s' :
  ms_num_mods s' = ms_num_mods s ->
  (forall i m m', ms_mods s !! i = Some m -> ms_mods s' !! i = Some m' ->
     mod_name m = mod_name m' /\ mod_type m = mod_type m') -> extends s s'.
Proof. intros Hn Hm. split; [lia|]. eauto. Qed.

Lemma redeclare_ok s stmt mapping i m :
  vmods_ok s -> is_u32 mapping -> (i < ms_num_mods s)%nat -> ms_mods s !! i = Some m ->
  vmods_ok (redeclare_vmod s stmt mapping i m).2 /\ extends s (redeclare_vmod s stmt mapping i m).2.
Proof.
  intros Hs Hu Hi Hm. unfold redeclare_vmod. pose proof (vo_mods s Hs i m Hm) as [Hmu Hok].
  pose proof (vo_num s Hs) as Hnum.
  destruct (mod_type m =? MOD_VIRT) eqn:Ht; cbn [negb]; [|by split].
  apply Z.eqb_eq in Ht.
  destruct (vd_value stmt); [|by split]. cbn [snd].
  (** the new modifier has the name and the type of the old one *)
  assert (exists x, is_u32 x /\
    (if negb (ms_is_explicit s i) then ms_set_mod s i (mod_set_mapping m mapping)
     else if negb (mod_mapping m =? mapping)
     then ms_set_mod s i (mod_set_mapping m (if clobbers (vd_merge stmt) then mapping else mod_mapping m))
     else s) = ms_set_mod s i (mod_set_mapping m x)) as (x & Hx & ->).
  { destruct (negb _); [by exists mapping|]. destruct (negb _).
    - exists (if clobbers (vd_merge stmt) then mapping else mod_mapping m). by destruct (clobbers _).
    - exists (mod_mapping m). split; [done|]. unfold ms_set_mod.
      destruct s as [l n ex]. cbn in *. f_equal. symmetry. apply list_insert_id. rewrite Hm. by destruct m. }
  split.
  - eapply (set_mod_ok s _ i (mod_set_mapping m x)); try done; cbn.
    all: try lia.
    + right. done.
    + split; [done|]. change (ms_is_explicit _ i) with (ms_is_explicit (ms_add_explicit (ms_set_mod s i (mod_set_mapping m x)) i) i).
      rewrite explicit_add, Nat.eqb_refl. revert Hok.
      destruct (Nat.ltb_spec i 8); [intros (Hr & _); by rewrite Ht in Hr|].
      destruct (Nat.ltb_spec i (ms_num_mods s)); [|lia]. cbn. intros (_ & Hn & _). done.
  - apply extends_same; [done|]. cbn. intros j mj mj' Hj. destruct (decide (j = i)) as [->|Hne].
    + rewrite list_lookup_insert_eq by (rewrite (vo_length s Hs); lia). rewrite Hm in Hj.
      injection Hj as <-. by intros [= <-].
    + rewrite list_lookup_insert_ne by done. rewrite Hj. by intros [= ->].
Qed.

Lemma declare_ok s stmt mapping :
  vmods_ok s -> is_u32 mapping -> vd_name stmt <> XKB_ATOM_NONE ->
  (vd_value stmt = None -> mapping = 0) ->
  vmods_ok (declare_vmod s stmt mapping).2 /\ extends s (declare_vmod s stmt mapping).2.
Proof.
  intros Hs Hu Hname H0. unfold declare_vmod. pose proof (vo_num s Hs) as Hnum.
  destruct (Nat.leb_spec XKB_MAX_MODS (ms_num_mods s)); [by split|]. cbn [snd].
  set (i := ms_num_mods s) in *. set (m := mk_mod (vd_name stmt) MOD_VIRT mapping).
  split.
  - destruct (bool_decide (is_Some (vd_value stmt))) eqn:Hb.
    + eapply (set_mod_ok s _ i m); try done; cbn [ms_num_mods]; try lia; [by right|].
      split; [done|]. rewrite (proj2 (Nat.ltb_ge i 8)) by lia. rewrite (proj2 (Nat.ltb_lt i (S i))) by lia.
      split; [done|]. split; [done|]. intros He.
      change (ms_is_explicit (ms_add_explicit (ms_set_mod s i m) i) i = false) in He.
      by rewrite explicit_add, Nat.eqb_refl in He.
    + eapply (set_mod_ok s _ i m); try done; cbn [ms_num_mods]; try lia; [by left|].
      split; [done|]. rewrite (proj2 (Nat.ltb_ge i 8)) by lia. rewrite (proj2 (Nat.ltb_lt i (S i))) by lia.
      split; [done|]. split; [done|]. intros _. apply H0. apply bool_decide_eq_false in Hb.
      by apply eq_None_not_Some.
  - split; [destruct (bool_decide _); cbn; lia|]. intros j mj mj' Hj Hmj.
    assert (ms_mods (if bool_decide (is_Some (vd_value stmt)) then ms_add_explicit (ms_set_mod s i m) i
                     else ms_set_mod s i m) = <[i := m]> (ms_mods s)) as -> by by destruct (bool_decide _).
    cbn. rewrite list_lookup_insert_ne by lia. rewrite Hmj. by intros [= ->].
Qed.

Lemma handle_vmod_ok ctx s stmt b s' :
  vmods_ok s -> vd_name stmt <> XKB_ATOM_NONE -> HandleVModDef ctx s stmt = Ok (b, s') ->
  vmods_ok s' /\ extends s s'.
Proof.
  intros Hs Hname. unfold HandleVModDef.
  destruct (match vd_value stmt with Some v => ExprResolveModMask ctx v MOD_REAL (ms_enum s) | None => Ok (Some 0) end)
    as [[mapping|]|f] eqn:He; cbn [result_bind]; [|by intros [= _ <-]|done].
  assert (is_u32 mapping) as Hu.
  { destruct (vd_value stmt); [by eapply resolve_mod_mask_u32 | injection He as <-; apply is_u32_0]. }
  destruct (list_find _ _) as [[i m]|] eqn:Hf; intros [= Heq].
  - apply find_enum in Hf as (Hi & Hm & _). pose proof (redeclare_ok s stmt mapping i m Hs Hu Hi Hm) as H.
    by rewrite Heq in H.
  - pose proof (declare_ok s stmt mapping Hs Hu Hname) as H. rewrite Heq in H. apply H.
    intros Hv. rewrite Hv in He. by injection He.
Qed.

Lemma extends_trans s1 s2 s3 :
  vmods_ok s2 -> extends s1 s2 -> extends s2 s3 -> extends s1 s3.
Proof.
  intros Hs [Hn1 H1] [Hn2 H2]. split; [lia|]. intros i m m' Hi Hm Hm'.
  destruct (vmods_ok_lookup s2 i Hs) as [m2 Hm2]; [pose proof (vo_num s2 Hs); lia|].
  destruct (H1 i m m2 Hi Hm Hm2) as [-> ->]. apply (H2 i); [lia | done..].
Qed.

Lemma handle_vmods_ok ctx stmts : forall s s',
  vmods_ok s -> Forall (fun stmt => vd_name stmt <> XKB_ATOM_NONE) stmts ->
  handle_vmods ctx s stmts = Ok s' -> vmods_ok s' /\ extends s s'.
Proof.
  induction stmts as [|stmt stmts IH]; intros s s' Hs Hn; cbn; [by intros [= <-]|].
  apply Forall_cons_1 in Hn as [Hn1 Hn].
  destruct (HandleVModDef ctx s stmt) as [[b s1]|] eqn:Hh; cbn; [|done]. intros Hr.
  destruct (handle_vmod_ok ctx s stmt b s1 Hs Hn1 Hh) as [Hs1 He1].
  destruct (IH s1 s' Hs1 Hn Hr) as [Hs' He']. split; [done|].
  exact (extends_trans s s1 s' Hs1 He1 He').
Qed.

(** ** Merging

    The modifier [im] of the merged set, once [m] of the other set is merged:
    a modifier of that set only is copied; the explicit mapping of one set is
    taken, that of the included set unless it only augments. *)
Definition merged_mod (into from : xkb_mod_set) (merge : merge_mode) (i : nat) (m im : xkb_mod) : xkb_mod :=
  if Nat.ltb i 8 then im
  else if Nat.ltb i (ms_num_mods into) then
    mod_set_mapping im
      (if ms_is_explicit from i && (negb (ms_is_explicit into i) || clobbers merge)
       then mod_mapping m else mod_mapping im)
  else m.

(** [r] is the merge of [from] in [into], up to the number of modifiers. *)
Record merged_upto (k : nat) (into from : xkb_mod_set) (merge : merge_mode) (r : xkb_mod_set) : Prop := {
  mu_length : length (ms_mods r) = length (ms_mods into);
  mu_u32 : is_u32 (ms_explicit_vmods r);
  mu_mods : forall i m im, ms_mods from !! i = Some m -> ms_mods into !! i = Some im ->
    ms_mods r !! i = Some (if Nat.ltb i k then merged_mod into from merge i m im else im);
  mu_explicit : forall i, (i < XKB_MAX_MODS)%nat ->
    ms_is_explicit r i = (Nat.ltb i k && ms_is_explicit from i) || ms_is_explicit into i
}.

Lemma mod_set_mapping_id m : mod_set_mapping m (mod_mapping m) = m.
Proof. by destruct m. Qed.

Section merge.
Context (into from : xkb_mod_set) (merge : merge_mode).
Hypothesis (Hinto : vmods_ok into) (Hfrom : vmods_ok from) (Hext : extends into from).

(** A turn that leaves the modifier [k] as [im'], explicit when [b]. *)
Lemma merged_step k r r' m im im' (b : bool) :
  merged_upto k into from merge r -> (k < XKB_MAX_MODS)%nat ->
  ms_mods from !! k = Some m -> ms_mods into !! k = Some im ->
  merged_mod into from merge k m im = im' ->
  b || ms_is_explicit into k = ms_is_explicit from k || ms_is_explicit into k ->
  r' = (if b then ms_add_explicit (ms_set_mod r k im') k else ms_set_mod r k im') ->
  merged_upto (S k) into from merge r'.
Proof.
  intros [Hl Hu Hm He] Hk Hmk Himk Him' Hb ->.
  assert (ms_mods (if b then ms_add_explicit (ms_set_mod r k im') k else ms_set_mod r k im') = <[k := im']> (ms_mods r))
    as Hmods by by destruct b.
  split.
  - by rewrite Hmods, length_insert.
  - destruct b; [|done]. unfold XKB_MAX_MODS in Hk. apply is_u32_lor; [done|]. apply is_u32_bit. lia.
  - intros i mi imi Hi Hii. rewrite Hmods. destruct (decide (i = k)) as [->|Hne].
    + rewrite list_lookup_insert_eq by (rewrite Hl; by eapply lookup_lt_Some).
      rewrite (proj2 (Nat.ltb_lt k (S k))) by lia. congruence.
    + rewrite list_lookup_insert_ne by done. rewrite (Hm i mi imi) by done. f_equal.
      destruct (Nat.ltb_spec i k), (Nat.ltb_spec i (S k)); try done; lia.
  - intros i Hi. transitivity ((b && Nat.eqb k i) || ms_is_explicit r i).
    { destruct b; [|done]. by rewrite explicit_add. }
    rewrite He by done. destruct (Nat.eqb_spec k i) as [->|Hne].
    + rewrite (proj2 (Nat.ltb_ge i i)), (proj2 (Nat.ltb_lt i (S i))) by lia. by rewrite andb_true_r.
    + rewrite andb_false_r. destruct (Nat.ltb_spec i k), (Nat.ltb_spec i (S k)); try done; lia.
Qed.

Lemma merge_mod_ok k r :
  merged_upto k into from merge r -> ms_num_mods r = ms_num_mods into -> (k < ms_num_mods from)%nat ->
  exists r', merge_mod from merge r k = Ok r' /\ ms_num_mods r' = ms_num_mods into /\
             merged_upto (S k) into from merge r'.
Proof using Hinto Hfrom Hext.
  intros Hr Hn Hk. pose proof (vo_num from Hfrom). pose proof (vo_num into Hinto).
  destruct (vmods_ok_lookup from k Hfrom) as [m Hm]; [lia|].
  destruct (vmods_ok_lookup into k Hinto) as [im Him]; [lia|].
  pose proof (mu_mods _ _ _ _ _ Hr k m im Hm Him) as Hrk. rewrite (proj2 (Nat.ltb_ge k k)) in Hrk by lia.
  pose proof (mu_explicit _ _ _ _ _ Hr k ltac:(lia)) as Hrx. rewrite (proj2 (Nat.ltb_ge k k)) in Hrx by lia.
  cbn [andb orb] in Hrx.
  pose proof (vo_mods from Hfrom k m Hm) as [_ Hfok]. pose proof (vo_mods into Hinto k im Him) as [_ Hiok].
  pose proof (ext_mods into from Hext k im m) as Hsame. unfold merge_mod. rewrite Hm, Hrk.
  assert (ms_set_mod r k im = r) as Hid.
  { unfold ms_set_mod. destruct r as [l n ex]. cbn in *. f_equal. by apply list_insert_id. }
  assert (forall im' b, merged_mod into from merge k m im = im' ->
    b || ms_is_explicit into k = ms_is_explicit from k || ms_is_explicit into k ->
    let r' := if b : bool then ms_add_explicit (ms_set_mod r k im') k else ms_set_mod r k im' in
    exists r'', Ok r' = Ok r'' /\ ms_num_mods r'' = ms_num_mods into /\ merged_upto (S k) into from merge r'') as Hstep.
  { intros im' b Hm' Hb r'. exists r'. split; [done|]. split; [by destruct b|].
    apply (merged_step k r r' m im im' b); try done. lia. }
  unfold merged_mod in Hstep. destruct (Nat.ltb_spec k 8) as [H8|H8].
  - destruct Hfok as (Ht & Hname & Hx), Hiok as (Hit & _ & Hix).
    destruct (Hsame ltac:(lia) Him Hm) as [Hsn Hst]. rewrite Hst, Hsn, Ht. cbn [negb Z.eqb].
    rewrite (proj2 (Z.eqb_neq _ _) Hname). change (has_flag MOD_REAL MOD_REAL) with true. cbn.
    specialize (Hstep im false eq_refl). cbn in Hstep. rewrite Hid in Hstep.
    rewrite Z.eqb_refl. cbn [has_flag asserting andb]. apply Hstep. by rewrite Hx.
  - rewrite (proj2 (Nat.ltb_lt k (ms_num_mods from))) in Hfok by done.
    destruct Hfok as (Ht & Hname & Hx). rewrite Ht. cbn [negb Z.eqb MOD_VIRT].
    destruct (Nat.ltb_spec k (ms_num_mods into)) as [Hki|Hki].
    + destruct (Hsame ltac:(lia) Him Hm) as [Hsn Hst]. rewrite Hst, Hsn, Ht. cbn [Z.eqb MOD_VIRT asserting].
      rewrite (proj2 (Z.eqb_neq _ _) Hname), Z.eqb_refl. cbn [negb andb asserting]. rewrite Hrx.
      destruct (ms_is_explicit from k) eqn:Hfx; cbn [negb andb] in *.
      * destruct (ms_is_explicit into k) eqn:Hix; cbn [negb orb] in *.
        -- destruct (Z.eqb_spec (mod_mapping m) (mod_mapping im)) as [Heq|Hne]; cbn [negb].
           ++ specialize (Hstep im false). cbn in Hstep. rewrite Hid in Hstep. apply Hstep; [|done].
              destruct (clobbers merge); rewrite ?Heq; apply mod_set_mapping_id.
           ++ by apply (Hstep _ false).
        -- destruct Hiok as (_ & _ & ->); [|done]. cbn [asserting Z.eqb]. by apply (Hstep _ true).
      * rewrite Hx by done. cbn [Z.eqb asserting].
        specialize (Hstep im false). cbn in Hstep. rewrite Hid in Hstep. apply Hstep; [|done].
        apply mod_set_mapping_id.
    + destruct Hiok as [-> Hix]. cbn [mod_type zero_mod Z.eqb mod_name]. rewrite Z.eqb_refl, Hn.
      rewrite (proj2 (Z.eqb_neq _ _) Hname), (proj2 (Nat.leb_le _ _)) by done. cbn [negb andb asserting].
      apply (Hstep m (ms_is_explicit from k)); [done|]. by rewrite Hix.
Qed.

Lemma merge_mods_ok n : forall k r,
  merged_upto k into from merge r -> ms_num_mods r = ms_num_mods into -> (k + n)%nat = ms_num_mods from ->
  exists r', merge_mods from merge r (seq k n) = Ok r' /\ merged_upto (k + n) into from merge r'.
Proof using Hinto Hfrom Hext.
  induction n as [|n IH]; intros k r Hr Hn Hk; cbn [seq merge_mods].
  { exists r. by rewrite Nat.add_0_r. }
  destruct (merge_mod_ok k r Hr Hn ltac:(lia)) as (r1 & -> & Hn1 & Hr1). cbn [result_bind].
  destruct (IH (S k) r1 Hr1 Hn1 ltac:(lia)) as (r' & -> & Hr'). exists r'. split; [done|].
  by rewrite Nat.add_succ_r.
Qed.
End merge.

(** A merge into the set it extends. *)
Lemma MergeModSets_ok into from merge :
  vmods_ok into -> vmods_ok from -> extends into from ->
  exists r, MergeModSets into from merge = Ok r /\ vmods_ok r /\ ms_num_mods r = ms_num_mods from /\
    merged_upto (ms_num_mods from) into from merge r.
Proof.
  intros Hinto Hfrom Hext. unfold MergeModSets. rewrite (proj2 (Nat.leb_le _ _)) by apply Hext.
  cbn [asserting].
  destruct (merge_mods_ok into from merge Hinto Hfrom Hext (ms_num_mods from) 0 into) as (r & -> & Hr); [|done..|].
  { split; [done | apply Hinto | |].
    - intros i m im _ Him. by rewrite (proj2 (Nat.ltb_ge i 0)) by lia.
    - intros i _. by rewrite (proj2 (Nat.ltb_ge i 0)) by lia. }
  cbn [result_bind Nat.add] in *. eexists. split; [done|].
  assert (merged_upto (ms_num_mods from) into from merge
            (mk_mod_set (ms_mods r) (ms_num_mods from) (ms_explicit_vmods r))) as Hr' by by destruct Hr.
  split; [|by split]. destruct Hr' as [Hl Hu Hm He]. cbn [ms_mods ms_explicit_vmods] in Hl, Hu, Hm.
  pose proof (vo_num from Hfrom) as Hnf. pose proof (vo_num into Hinto) as Hni.
  split; cbn [ms_mods ms_num_mods ms_explicit_vmods]; [by rewrite Hl; apply Hinto | done | done |].
  intros i mi Hi. assert (i < XKB_MAX_MODS)%nat as Hlt.
  { apply lookup_lt_Some in Hi. by rewrite Hl, (vo_length into Hinto) in Hi. }
  destruct (vmods_ok_lookup from i Hfrom Hlt) as [m Hfi]. destruct (vmods_ok_lookup into i Hinto Hlt) as [im Hii].
  specialize (He i Hlt). rewrite He. rewrite (Hm i m im Hfi Hii) in Hi. injection Hi as <-.
  pose proof (vo_mods from Hfrom i m Hfi) as [Hfu Hfok]. pose proof (vo_mods into Hinto i im Hii) as [Hiu Hiok].
  unfold vmod_at_ok, merged_mod. destruct (Nat.ltb_spec i 8) as [H8|H8].
  - rewrite (proj2 (Nat.ltb_lt i (ms_num_mods from))) by lia. split; [done|].
    destruct Hfok as (_ & _ & ->), Hiok as (? & ? & ->). done.
  - destruct (Nat.ltb_spec i (ms_num_mods from)) as [Hf|Hf].
    + destruct Hfok as (Ht & Hn & Hx). destruct (Nat.ltb_spec i (ms_num_mods into)) as [Hin|Hin].
      * destruct Hiok as (Hit & Hin' & Hix). cbn [mod_mapping mod_type mod_name mod_set_mapping].
        split.
        { by case_match. }
        split; [done|]. split; [done|].
        intros [Hfx Hix']%orb_false_iff. cbn in Hfx. rewrite Hfx. cbn [andb]. by apply Hix.
      * destruct Hiok as [-> ->]. rewrite orb_false_r. done.
    + rewrite (proj2 (Nat.ltb_ge i (ms_num_mods into))) in Hiok by (pose proof (ext_num _ _ Hext); lia).
      by destruct Hiok as [-> ->].
Qed.

Lemma MergeModSets_extends into from merge :
  vmods_ok into -> vmods_ok from -> extends into from ->
  exists r, MergeModSets into from merge = Ok r /\ vmods_ok r /\ extends into r.
Proof.
  intros Hinto Hfrom Hext. destruct (MergeModSets_ok into from merge Hinto Hfrom Hext) as (r & Hr & Hok & Hnum & Hm).
  exists r. split; [done|]. split; [done|]. pose proof (ext_num _ _ Hext). split; [lia|].
  intros i m mr Hlt Hmi Hri. pose proof (vo_num _ Hfrom). destruct (vmods_ok_lookup from i Hfrom) as [m' Hm']; [lia|].
  rewrite (mu_mods _ _ _ _ _ Hm i m' m Hm' Hmi) in Hri. rewrite (proj2 (Nat.ltb_lt i (ms_num_mods from))) in Hri by lia.
  injection Hri as <-. unfold merged_mod. destruct (Nat.ltb i 8); [done|]. by rewrite (proj2 (Nat.ltb_lt i (ms_num_mods into))).
Qed.

(** A file that is included starts from the modifiers declared so far,
    without their mappings, and declares its own; whatever it declares, the
    merge of the two sets fails no assertion and gives a well-formed set.  Its
    modifiers are those of the included file, which begin with those declared
    before; a modifier that only one of the sets maps explicitly has that
    mapping, and one that both map has the mapping of the included file, or
    the previous one when the file augments. *)
Theorem include_merge_ok (ctx : atom_table) (s s' : xkb_mod_set) (stmts : list VModDef) (merge : merge_mode) :
  vmods_ok s -> Forall (fun stmt => vd_name stmt <> XKB_ATOM_NONE) stmts ->
  handle_vmods ctx (InitVMods s true) stmts = Ok s' ->
  exists r, MergeModSets s s' merge = Ok r /\ vmods_ok r /\ extends s r /\
    ms_num_mods r = ms_num_mods s' /\
    forall i m im, (i < ms_num_mods s')%nat -> ms_mods s' !! i = Some m -> ms_mods s !! i = Some im ->
      ms_mods r !! i = Some (merged_mod s s' merge i m im) /\
      ms_is_explicit r i = ms_is_explicit s' i || ms_is_explicit s i.
Proof.
  intros Hs Hn Hh. destruct (init_ok s true Hs) as [Hi Hei].
  destruct (handle_vmods_ok ctx stmts _ s' Hi Hn Hh) as [Hs' He'].
  pose proof (extends_trans _ _ _ Hi Hei He') as Hext.
  destruct (MergeModSets_ok s s' merge Hs Hs' Hext) as (r & Hr & Hok & Hnum & Hm).
  exists r. split; [done|]. split; [done|].
  assert (forall i m im, (i < ms_num_mods s')%nat -> ms_mods s' !! i = Some m -> ms_mods s !! i = Some im ->
    ms_mods r !! i = Some (merged_mod s s' merge i m im) /\
    ms_is_explicit r i = ms_is_explicit s' i || ms_is_explicit s i) as Hspec.
  { intros i m im Hlt Hmi Hii. rewrite (mu_mods _ _ _ _ _ Hm i m im) by done.
    rewrite (mu_explicit _ _ _ _ _ Hm) by (pose proof (vo_num s' Hs'); lia).
    by rewrite (proj2 (Nat.ltb_lt i (ms_num_mods s'))). }
  split; [|done]. pose proof (ext_num _ _ Hext). pose proof (vo_num s Hs). split; [lia|].
  intros i m mr Hlt Hmi Hri. destruct (vmods_ok_lookup s' i Hs') as [m' Hm']; [lia|].
  destruct (Hspec i m' m) as [Hr' _]; [lia | done..|]. rewrite Hr' in Hri. injection Hri as <-.
  unfold merged_mod. destruct (Nat.ltb i 8); [done|].
  by rewrite (proj2 (Nat.ltb_lt i (ms_num_mods s))).
Qed.

(** [virtual_modifiers M = 0x10, N;] after [virtual_modifiers M = 0x20;]. *)
Definition sample_mods : xkb_mod_set :=
  mk_mod_set (ms_mods (builtin_mod_set [1; 2; 3; 4; 5; 6; 7; 8])) 8 0.

Definition sample_outer : xkb_mod_set :=
  mk_mod_set (<[8%nat := mk_mod 20 MOD_VIRT 0x20]> (ms_mods sample_mods)) 9 (bit 8).

Definition sample_stmts : list VModDef :=
  [mk_vmod_def MERGE_DEFAULT 20 (Some (STMT_EXPR_INTEGER_LITERAL 0x10)); mk_vmod_def MERGE_DEFAULT 21 None].

Definition sample_included : xkb_mod_set :=
  mk_mod_set (<[9%nat := mk_mod 21 MOD_VIRT 0]> (<[8%nat := mk_mod 20 MOD_VIRT 0x10]>
    (map (fun m => mod_set_mapping m 0) (ms_mods sample_mods)))) 10 (bit 8).

Lemma sample_outer_ok : vmods_ok sample_outer.
Proof.
  split; [reflexivity | cbn; unfold XKB_MAX_MODS; lia | by apply is_u32_check |].
  intros i m Hi. assert (i < 32)%nat as Hlt by (apply lookup_lt_Some in Hi; exact Hi).
  do 32 (destruct i as [|i]; [vm_compute in Hi; injection Hi as <-; split; [by apply is_u32_check | vm_compute; done]|]).
  lia.
Qed.

Lemma include_merge_ok_witness :
  exists r, MergeModSets sample_outer sample_included MERGE_AUGMENT = Ok r /\ vmods_ok r /\
    ms_mods r !! 8%nat = Some (mk_mod 20 MOD_VIRT 0x20).
Proof.
  destruct (include_merge_ok atom_table_new sample_outer sample_included sample_stmts MERGE_AUGMENT)
    as (r & Hr & Hok & _ & _ & Hspec).
  - exact sample_outer_ok.
  - repeat (apply Forall_cons_2; [discriminate|]). apply Forall_nil_2.
  - vm_compute. reflexivity.
  - exists r. split; [exact Hr|]. split; [exact Hok|].
    destruct (Hspec 8%nat (mk_mod 20 MOD_VIRT 0x10) (mk_mod 20 MOD_VIRT 0x20)) as [H _];
      [cbn; lia | reflexivity | reflexivity | exact H].
Defined.
