(* ===== verification/KeyAliases.v ===== *)
(** * The aliases of a keymap (src/xkbcomp/keymap.c)

    The end of the compilation turns the table of key names, indexed by atoms,
    into the list of the aliases.  Both share the memory of one array: the list
    is written over entries of the table that are not aliases when there is
    room for it, else in a new array.

    Memory is a list of words of 32 bits.  An entry of the table is one word,
    an alias two; a read of an entry that was overwritten is a fault. *)

From Stdlib Require Import ZArith Lia.
From stdpp Require Import base tactics list numbers.
From S2P Require Import Prelude Keymap.

(** [KeycodeMatch] of src/keymap.h; [match_value] is [key.index] or
    [alias.real]. *)
Record KeycodeMatch := mk_match {
  match_found : bool;
  match_is_alias : bool;
  match_value : Z
}.

Definition is_key_alias (entry : KeycodeMatch) : bool := match_is_alias entry && match_found entry.

Inductive word := WMatch (entry : KeycodeMatch) | WAtom (atom : Z).

(** The words of an alias, in the order of the fields. *)
Definition alias_words (a : xkb_key_alias) : list word := [WAtom (al_real a); WAtom (al_alias a)].

(** [mem[pos .. pos + length ws)] = ws. *)
Definition store_words (mem : list word) (pos : nat) (ws : list word) : result (list word) :=
  if Nat.leb (pos + length ws) (length mem)
  then Ok (take pos mem ++ ws ++ drop (pos + length ws) mem) else Fault FaultOutOfBounds.

(** The loop over the atoms [alias], from [min] to [max]; [aliases] is the
    position of the next alias to write. *)
Fixpoint add_key_aliases (mem : list word) (alias_range : list nat) (aliases : nat) : result (list word) :=
  match alias_range with
  | [] => Ok mem
  | alias :: alias_range =>
      match mem !! alias with
      | None => Fault FaultOutOfBounds
      | Some (WAtom _) => Fault FaultOverlap
      | Some (WMatch entry) =>
          if is_key_alias entry then
            match store_words mem aliases (alias_words (mk_alias (match_value entry) (Z.of_nat alias))) with
            | Ok mem => add_key_aliases mem alias_range (aliases + 2)
            | Fault f => Fault f
            end
          else add_key_aliases mem alias_range aliases
      end
  end.

(** The count of the aliases, the first and the last of them. *)
Fixpoint count_aliases (names : list KeycodeMatch) (alias num min max : nat) : nat * nat * nat :=
  match names with
  | [] => (num, min, max)
  | entry :: names =>
      if is_key_alias entry
      then count_aliases names (S alias) (S num) (if Nat.eqb num 0 then alias else min) alias
      else count_aliases names (S alias) num min max
  end.

Fixpoint read_aliases (mem : list word) : list xkb_key_alias :=
  match mem with
  | WAtom real :: WAtom alias :: mem => mk_alias real alias :: read_aliases mem
  | _ => []
  end.

(** [memcpy] of [n] words from the position [src] to the start of [mem]. *)
Definition copy_to_start (mem : list word) (src n : nat) : result (list word) :=
  if Nat.ltb (length mem) (src + n) then Fault FaultOutOfBounds
  else if Nat.ltb src n && negb (Nat.eqb n 0) then Fault FaultOverlap
  else Ok (take n (drop src mem) ++ drop n mem).

(** The array is aligned as two words. *)
Definition after_last_alias (max_alias : nat) : nat :=
  let pos := (max_alias + 1)%nat in if Nat.even pos then pos else S pos.

(** The first part of [UpdateDerivedKeymapFields]; the result is the list of
    the aliases. *)
Definition update_key_aliases (key_names : list KeycodeMatch) : result (list xkb_key_alias) :=
  let num_key_names := length key_names in
  let mem := map WMatch key_names in
  let '(num_key_aliases, min_alias, max_alias) := count_aliases key_names 0 0 0 0 in
  if Nat.eqb num_key_aliases 0 then Ok []
  else
    let required_space := (2 * num_key_aliases)%nat in
    let alias_range := seq min_alias (max_alias + 1 - min_alias) in
    let finish mem := Ok (read_aliases (take required_space mem)) in
    if negb (Nat.leb num_key_aliases num_key_names) then Fault FaultAssert
    else if Nat.leb required_space min_alias then
      match add_key_aliases mem alias_range 0 with
      | Ok mem => finish mem
      | Fault f => Fault f
      end
    else if Nat.ltb required_space (num_key_names - max_alias - 1) then
      let aliases := after_last_alias max_alias in
      match add_key_aliases mem alias_range aliases with
      | Ok mem => match copy_to_start mem aliases required_space with
                  | Ok mem => finish mem
                  | Fault f => Fault f
                  end
      | Fault f => Fault f
      end
    else
      (** a new array, after the other one *)
      match add_key_aliases (mem ++ replicate required_space (WAtom 0)) alias_range num_key_names with
      | Ok mem => finish (drop num_key_names mem)
      | Fault f => Fault f
      end.

(** ** Specification *)

(** The aliases of the names from the atom [alias] on. *)
Fixpoint key_alias_list (names : list KeycodeMatch) (alias : nat) : list xkb_key_alias :=
  match names with
  | [] => []
  | entry :: names =>
      if is_key_alias entry
      then mk_alias (match_value entry) (Z.of_nat alias) :: key_alias_list names (S alias)
      else key_alias_list names (S alias)
  end.

Fixpoint words_of (l : list xkb_key_alias) : list word :=
  match l with [] => [] | a :: l => alias_words a ++ words_of l end.

Lemma length_words_of l : length (words_of l) = (2 * length l)%nat.
Proof. induction l as [|a l IH]; [done|]. cbn [words_of]. rewrite length_app, IH. cbn [length alias_words]. lia. Qed.

Lemma read_words_of l : read_aliases (words_of l) = l.
Proof. induction l as [|[r a] l IH]; [done|]. cbn in *. by rewrite IH. Qed.

(** The list is built where it does not overlap the part of the table left to
    read. *)
Lemma add_key_aliases_spec names : forall mem alias pos,
  (forall i e, names !! i = Some e -> mem !! (alias + i)%nat = Some (WMatch e)) ->
  let l := key_alias_list names alias in
  (pos + 2 * length l <= length mem)%nat ->
  (pos + 2 * length l <= alias \/ alias + length names <= pos)%nat ->
  add_key_aliases mem (seq alias (length names)) pos =
    Ok (take pos mem ++ words_of l ++ drop (pos + 2 * length l) mem).
Proof.
  induction names as [|e names IH]; intros mem alias pos Hmem l Hle Hdis; cbn [seq length add_key_aliases].
  { cbn. by rewrite Nat.add_0_r, take_drop. }
  pose proof (Hmem 0%nat e eq_refl) as He. rewrite Nat.add_0_r in He. rewrite He.
  unfold l in *. clear l. cbn [key_alias_list length] in *. destruct (is_key_alias e).
  - cbn [length] in *. unfold store_words, alias_words. cbn [length].
    set (w := [WAtom _; WAtom _]). rewrite (proj2 (Nat.leb_le _ _)) by lia.
    assert (length (take pos mem) = pos) as Hlp by (rewrite length_take; lia).
    set (mem' := take pos mem ++ w ++ drop (pos + 2) mem).
    assert (length mem' = length mem) as Hl' by (unfold mem', w; rewrite !length_app, Hlp, length_drop; cbn [length]; lia).
    rewrite (IH mem' (S alias) (pos + 2)%nat).
    + f_equal. unfold mem'. rewrite take_app, Hlp, take_take, Nat.min_r by lia.
      replace (pos + 2 - pos)%nat with 2%nat by lia. cbn [app take w].
      rewrite drop_app, Hlp, (drop_ge (take pos mem)) by (rewrite Hlp; lia).
      replace (pos + 2 + 2 * length (key_alias_list names (S alias)) - pos)%nat
        with (2 + (2 * length (key_alias_list names (S alias))))%nat by lia.
      cbn [app drop Nat.add]. rewrite drop_drop, <- app_assoc. cbn [words_of app alias_words al_real al_alias].
      rewrite take_0. cbn [app]. do 5 f_equal. lia.
    + intros i e' Hi. specialize (Hmem (S i) e' Hi). rewrite Nat.add_succ_r in Hmem. cbn [Nat.add].
      assert (i < length names)%nat by (by eapply lookup_lt_Some). unfold mem'.
      destruct Hdis as [Hdis|Hdis].
      * rewrite lookup_app_r, Hlp by lia. rewrite lookup_app_r by (cbn; lia). cbn [length w].
        rewrite lookup_drop. rewrite <- Hmem. f_equal. lia.
      * rewrite lookup_app_l by lia. rewrite lookup_take_lt by lia. done.
    + cbn zeta. lia.
    + lia.
  - apply IH; [|done|lia]. intros i e' Hi. specialize (Hmem (S i) e' Hi). rewrite <- Hmem. f_equal. lia.
Qed.

(** The first and the last alias. *)
Lemma count_aliases_spec names : forall alias num min max,
  let l := key_alias_list names alias in
  let '(n, mn, mx) := count_aliases names alias num min max in
  n = (num + length l)%nat /\
  (num <> 0%nat -> mn = min) /\ (l = [] -> mx = max) /\
  (l <> [] -> (alias <= mx < alias + length names)%nat /\ (num = 0%nat -> (alias <= mn <= mx)%nat)) /\
  forall i e, names !! i = Some e -> is_key_alias e = true ->
    (alias + i <= mx)%nat /\ (num = 0%nat -> (mn <= alias + i)%nat).
Proof.
  induction names as [|e names IH]; intros alias num min max; cbn [count_aliases key_alias_list length].
  { split; [cbn; lia|]. do 2 (split; [done|]). split; [done|]. by intros i e. }
  destruct (is_key_alias e) eqn:He.
  - specialize (IH (S alias) (S num) (if Nat.eqb num 0 then alias else min) alias).
    destruct (count_aliases _ _ _ _ _) as [[n mn] mx]. destruct IH as (Hn & Hmn & Hmx & Hr & Hi).
    specialize (Hmn (Nat.neq_succ_0 num)). cbn [length].
    assert (alias <= mx < alias + S (length names))%nat as Hb.
    { destruct (key_alias_list names (S alias)) eqn:Hl; [rewrite Hmx by done; lia|].
      destruct (Hr ltac:(done)) as [? _]. lia. }
    split; [lia|]. split; [|split; [done|split]].
    + intros H0. rewrite Hmn. by destruct num.
    + intros _. split; [lia|]. intros ->. rewrite Hmn. cbn. lia.
    + intros [|i] e' Hi' Ha; cbn in Hi'.
      * split; [lia|]. intros ->. rewrite Hmn. cbn. lia.
      * destruct (Hi i e' Hi' Ha) as [? _]. split; [lia|]. intros ->. rewrite Hmn. cbn. lia.
  - specialize (IH (S alias) num min max). destruct (count_aliases _ _ _ _ _) as [[n mn] mx].
    destruct IH as (Hn & Hmn & Hmx & Hr & Hi). split; [done|]. split; [done|]. split; [done|]. split.
    + intros Hl. destruct (Hr Hl) as [? Hz]. split; [lia|]. intros H0. specialize (Hz H0). lia.
    + intros [|i] e' Hi' Ha; cbn in Hi'; [congruence|]. destruct (Hi i e' Hi' Ha) as [? Hz].
      split; [lia|]. intros H0. specialize (Hz H0). lia.
Qed.

(** Names without aliases add nothing. *)
Lemma key_alias_list_app n1 n2 alias :
  key_alias_list (n1 ++ n2) alias = key_alias_list n1 alias ++ key_alias_list n2 (alias + length n1).
Proof.
  revert alias. induction n1 as [|e n1 IH]; intros alias; cbn [app key_alias_list length]; [by rewrite Nat.add_0_r|].
  rewrite IH, Nat.add_succ_r. by destruct (is_key_alias e).
Qed.

Lemma key_alias_list_nil names alias :
  (forall i e, names !! i = Some e -> is_key_alias e = false) -> key_alias_list names alias = [].
Proof.
  revert alias. induction names as [|e names IH]; intros alias H; [done|]. cbn.
  rewrite (H 0%nat e eq_refl). apply IH. intros i. apply (H (S i)).
Qed.

Lemma key_alias_list_length names : forall alias, (length (key_alias_list names alias) <= length names)%nat.
Proof. induction names as [|e names IH]; intros alias; cbn; [done|]. specialize (IH (S alias)). destruct (is_key_alias e); cbn; lia. Qed.

(** All the aliases are in the range. *)
Lemma key_alias_list_range names mn mx :
  (mn <= mx < length names)%nat ->
  (forall i e, names !! i = Some e -> is_key_alias e = true -> (mn <= i <= mx)%nat) ->
  key_alias_list (take (mx + 1 - mn) (drop mn names)) mn = key_alias_list names 0.
Proof.
  intros Hb Hi. rewrite <- (take_drop mn names) at 2. rewrite <- (take_drop (mx + 1 - mn) (drop mn names)) at 2.
  rewrite !key_alias_list_app, length_take, Nat.min_l by lia. cbn [Nat.add].
  rewrite (key_alias_list_nil (take mn names)).
  2:{ intros i e [He Hlt]%lookup_take_Some. destruct (is_key_alias e) eqn:Ha; [|done].
      specialize (Hi i e He Ha). lia. }
  rewrite (key_alias_list_nil (drop _ (drop mn names))); [by rewrite app_nil_r|].
  intros i e. rewrite !lookup_drop. intros He. destruct (is_key_alias e) eqn:Ha; [|done].
  specialize (Hi _ e He Ha). lia.
Qed.

(** The list is written after the last alias, and moved by [memcpy] to a
    destination that it overlaps. *)
Definition overlapping_move (key_names : list KeycodeMatch) : bool :=
  let '(num, min_alias, max_alias) := count_aliases key_names 0 0 0 0 in
  negb (Nat.eqb num 0) && Nat.ltb min_alias (2 * num) &&
  Nat.ltb (2 * num) (length key_names - max_alias - 1) &&
  Nat.ltb (after_last_alias max_alias) (2 * num).

Lemma after_last_alias_range mx : (mx < after_last_alias mx <= mx + 2)%nat.
Proof. unfold after_last_alias. destruct (Nat.even (mx + 1)); lia. Qed.

(** The list of aliases built in the memory of the table of names is the
    list of the names that are aliases, whether it is built before them, after
    them or in a new array, except that it is moved to the start of the array
    by a [memcpy] between overlapping objects when [overlapping_move]. *)
Theorem update_key_aliases_spec (key_names : list KeycodeMatch) :
  update_key_aliases key_names =
    if overlapping_move key_names then Fault FaultOverlap else Ok (key_alias_list key_names 0).
Proof.
  unfold update_key_aliases, overlapping_move.
  pose proof (count_aliases_spec key_names 0 0 0 0) as H. cbn zeta in H.
  destruct (count_aliases key_names 0 0 0 0) as [[n mn] mx]. cbn [Nat.add] in H.
  destruct H as (Hn & _ & _ & Hr & Hi).
  destruct (Nat.eqb_spec n 0) as [H0|H0]; cbn [negb andb].
  { destruct (key_alias_list key_names 0); [done | cbn in Hn; lia]. }
  destruct Hr as [Hmx Hmn]; [by intros Hl; rewrite Hl in Hn|]. specialize (Hmn eq_refl).
  pose proof (key_alias_list_length key_names 0) as Hlen.
  rewrite (proj2 (Nat.leb_le n (length key_names))) by lia. cbn [negb].
  pose proof (key_alias_list_range key_names mn mx ltac:(lia)) as Hrange.
  rewrite <- Hrange in * by (intros i e He Ha; destruct (Hi i e He Ha); split; [auto | done]). clear Hrange.
  set (range := take (mx + 1 - mn) (drop mn key_names)) in *.
  assert (length range = (mx + 1 - mn)%nat) as Hlr by (unfold range; rewrite length_take, length_drop; lia).
  rewrite <- Hlr. rewrite Hn. set (l := key_alias_list range mn) in *.
  (** the loop over a memory that begins with the table *)
  assert (forall suf pos, (pos + 2 * length l <= length key_names + length suf)%nat ->
    (pos + 2 * length l <= mn \/ mx < pos)%nat ->
    let mem := map WMatch key_names ++ suf in
    add_key_aliases mem (seq mn (length range)) pos =
      Ok (take pos mem ++ words_of l ++ drop (pos + 2 * length l) mem)) as Hadd.
  { intros suf pos Hle Hdis mem. apply add_key_aliases_spec; fold l.
    - intros i e He. unfold range in He. apply lookup_take_Some in He as [He _]. rewrite lookup_drop in He.
      unfold mem. rewrite lookup_app_l by (rewrite length_map; by eapply lookup_lt_Some).
      change (map ?f ?l) with (f <$> l). by rewrite list_lookup_fmap, He.
    - unfold mem. rewrite length_app, length_map. done.
    - rewrite Hlr. lia. }
  assert (forall w, take (2 * length l) (words_of l ++ w) = words_of l) as Htake.
  { intros w. rewrite take_app_le by (rewrite length_words_of; lia). by rewrite take_ge by (rewrite length_words_of; lia). }
  destruct (Nat.leb_spec (2 * length l) mn) as [Hbefore|Hbefore].
  - rewrite (proj2 (Nat.ltb_ge mn (2 * length l))) by lia. cbn [andb].
    specialize (Hadd [] 0%nat). rewrite app_nil_r in Hadd. rewrite Hadd by (cbn [length]; lia).
    rewrite take_0. cbn [app]. by rewrite Htake, read_words_of.
  - rewrite (proj2 (Nat.ltb_lt mn (2 * length l))) by lia. cbn [andb].
    destruct (Nat.ltb_spec (2 * length l) (length key_names - mx - 1)) as [Hafter|Hnew]; cbn [andb].
    + pose proof (after_last_alias_range mx) as Hpos. set (pos := after_last_alias mx) in *.
      specialize (Hadd [] pos). rewrite app_nil_r in Hadd. rewrite Hadd by (cbn [length]; lia).
      unfold copy_to_start. rewrite !length_app, length_take, length_drop, length_words_of, length_map.
      rewrite (proj2 (Nat.ltb_ge _ _)) by lia. rewrite (proj2 (Nat.eqb_neq (2 * length l) 0)) by lia.
      rewrite andb_true_r. destruct (Nat.ltb_spec pos (2 * length l)); [done|].
      rewrite (drop_app_length' (take pos _)) by (rewrite length_take, length_map; lia).
      rewrite !Htake. by rewrite read_words_of.
    + specialize (Hadd (replicate (2 * length l) (WAtom 0)) (length key_names)).
      rewrite length_replicate in Hadd. rewrite Hadd by lia.
      rewrite (drop_app_length' (take _ _)) by (rewrite length_take, length_app, length_map; lia).
      rewrite Htake. by rewrite read_words_of.
Qed.

(** Twelve aliases of one key, declared before the keys. *)
Definition sample_key_names : list KeycodeMatch :=
  replicate 9 (mk_match false false 0) ++ [mk_match true true 10; mk_match true false 0] ++
  replicate 11 (mk_match true true 10) ++ imap (fun i _ => mk_match true false (Z.of_nat i)) (replicate 30 tt).

Example sample_overlapping_move : update_key_aliases sample_key_names = Fault FaultOverlap.
Proof. vm_compute. reflexivity. Qed.

(** The same keys with one alias. *)
Example sample_aliases :
  update_key_aliases (replicate 9 (mk_match false false 0) ++ [mk_match true true 10; mk_match true false 0]) =
    Ok [mk_alias 10 9].
Proof. vm_compute. reflexivity. Qed.
