(* ===== verification/Derived.v ===== *)
(** * The end of the compilation of a keymap (src/xkbcomp/keymap.c)

    [struct xkb_keymap] while it is compiled, and [UpdateDerivedKeymapFields]:
    the actions that the compatibility map gives to the keys, the mappings of
    the virtual modifiers, the effective masks, and the values that had to wait
    for the number of groups.

    A group points to its type in the array [types]: it has the index of the
    type, so that the groups see the masks computed in that array.
    [keymap_of] is the keymap as the rest of the library sees it. *)

From Stdlib Require Import ZArith Lia String.
From stdpp Require Import base tactics list numbers.
From S2P Require Import Prelude Numbers Atom Keymap KeysymName Expr Vmod KeyAliases.

(** ** Data *)

Inductive xkb_match_operation :=
  MATCH_NONE | MATCH_ANY_OR_NONE | MATCH_ANY | MATCH_ALL | MATCH_EXACTLY.

Record xkb_sym_interpret := mk_interp {
  si_sym : Z;
  si_match : xkb_match_operation;
  si_mods : Z;
  si_virtual_mod : Z;
  si_level_one_only : bool;
  si_repeat : bool;
  si_required : bool;
  si_actions : list xkb_action
}.

(** Flags of [enum xkb_explicit_components]. *)
Definition EXPLICIT_VMODMAP : Z := 2 ^ 3.
Definition EXPLICIT_REPEAT : Z := 2 ^ 4.

Definition ACTION_MODS_LOOKUP_MODMAP : Z := 2 ^ 4.
Definition ACTION_PENDING_COMPUTATION : Z := 2 ^ 13.
Definition MAX_ACTIONS_PER_LEVEL : Z := 65535.

(** [struct xkb_group] *)
Record key_group := mk_key_group {
  kg_explicit_actions : bool;
  kg_implicit_actions : bool;
  kg_type : nat;
  kg_levels : list xkb_level
}.

(** [struct xkb_key]; [ky_group_number] has 8 bits. *)
Record key := mk_ckey {
  ky_keycode : Z;
  ky_name : Z;
  ky_explicit : Z;
  ky_modmap : Z;
  ky_vmodmap : Z;
  ky_overlays : Z;
  ky_overlays_inline : bool;
  ky_overlays_keys : list nat;
  ky_repeats : bool;
  ky_implicit_actions : bool;
  ky_pending_group : bool;
  ky_policy : out_of_range_policy;
  ky_group_number : Z;
  ky_groups : list key_group
}.

(** [struct xkb_led] with its bit [pending_groups]. *)
Record led := mk_cled {
  ld_led : xkb_led;
  ld_pending_groups : bool
}.

Record pending_computation := mk_pending {
  pc_expr : ExprDef;
  pc_computed : bool;
  pc_value : Z
}.

(** [struct xkb_keymap_info]: the keymap, and the data of the compilation.
    [ki_last_index] and [ki_last_mask] are the values of the entry "last" in
    the tables of group names, once it is active. *)
Record keymap_info := mk_info {
  ki_ctx : atom_table;
  ki_strict : Z;
  ki_max_groups : Z;
  ki_last_index : option Z;
  ki_last_mask : option Z;
  ki_pendings : list pending_computation;
  ki_format : Z;
  ki_leds : list led;
  ki_min_key_code : Z;
  ki_max_key_code : Z;
  ki_num_keys_low : Z;
  ki_keys : list key;
  ki_key_names : list KeycodeMatch;
  ki_key_aliases : list xkb_key_alias;
  ki_types : list xkb_key_type;
  ki_interprets : list xkb_sym_interpret;
  ki_mods : xkb_mod_set;
  ki_canonical_state_mask : Z;
  ki_redirect_key_auto : Z;
  ki_num_groups : Z;
  ki_group_names : list Z
}.

Definition ki_group_info (info : keymap_info) : group_info :=
  mk_group_info (ki_ctx info) (ki_strict info) (ki_max_groups info)
    (groupIndexNames (ki_last_index info)) (groupMaskNames (ki_last_mask info)).

(** *** Updates of a field *)

Definition ki_set_key_aliases l (i : keymap_info) := mk_info (ki_ctx i) (ki_strict i) (ki_max_groups i) (ki_last_index i) (ki_last_mask i) (ki_pendings i) (ki_format i) (ki_leds i) (ki_min_key_code i) (ki_max_key_code i) (ki_num_keys_low i) (ki_keys i) (ki_key_names i) l (ki_types i) (ki_interprets i) (ki_mods i) (ki_canonical_state_mask i) (ki_redirect_key_auto i) (ki_num_groups i) (ki_group_names i).
Definition ki_set_num_groups n (i : keymap_info) := mk_info (ki_ctx i) (ki_strict i) (ki_max_groups i) (ki_last_index i) (ki_last_mask i) (ki_pendings i) (ki_format i) (ki_leds i) (ki_min_key_code i) (ki_max_key_code i) (ki_num_keys_low i) (ki_keys i) (ki_key_names i) (ki_key_aliases i) (ki_types i) (ki_interprets i) (ki_mods i) (ki_canonical_state_mask i) (ki_redirect_key_auto i) n (ki_group_names i).
Definition ki_set_last x m (i : keymap_info) := mk_info (ki_ctx i) (ki_strict i) (ki_max_groups i) x m (ki_pendings i) (ki_format i) (ki_leds i) (ki_min_key_code i) (ki_max_key_code i) (ki_num_keys_low i) (ki_keys i) (ki_key_names i) (ki_key_aliases i) (ki_types i) (ki_interprets i) (ki_mods i) (ki_canonical_state_mask i) (ki_redirect_key_auto i) (ki_num_groups i) (ki_group_names i).
Definition ki_set_interprets ps l (i : keymap_info) := mk_info (ki_ctx i) (ki_strict i) (ki_max_groups i) (ki_last_index i) (ki_last_mask i) ps (ki_format i) (ki_leds i) (ki_min_key_code i) (ki_max_key_code i) (ki_num_keys_low i) (ki_keys i) (ki_key_names i) (ki_key_aliases i) (ki_types i) l (ki_mods i) (ki_canonical_state_mask i) (ki_redirect_key_auto i) (ki_num_groups i) (ki_group_names i).
Definition ki_set_keys ps l (i : keymap_info) := mk_info (ki_ctx i) (ki_strict i) (ki_max_groups i) (ki_last_index i) (ki_last_mask i) ps (ki_format i) (ki_leds i) (ki_min_key_code i) (ki_max_key_code i) (ki_num_keys_low i) l (ki_key_names i) (ki_key_aliases i) (ki_types i) (ki_interprets i) (ki_mods i) (ki_canonical_state_mask i) (ki_redirect_key_auto i) (ki_num_groups i) (ki_group_names i).
Definition ki_set_mods s (i : keymap_info) := mk_info (ki_ctx i) (ki_strict i) (ki_max_groups i) (ki_last_index i) (ki_last_mask i) (ki_pendings i) (ki_format i) (ki_leds i) (ki_min_key_code i) (ki_max_key_code i) (ki_num_keys_low i) (ki_keys i) (ki_key_names i) (ki_key_aliases i) (ki_types i) (ki_interprets i) s (ki_canonical_state_mask i) (ki_redirect_key_auto i) (ki_num_groups i) (ki_group_names i).
Definition ki_set_canonical m (i : keymap_info) := mk_info (ki_ctx i) (ki_strict i) (ki_max_groups i) (ki_last_index i) (ki_last_mask i) (ki_pendings i) (ki_format i) (ki_leds i) (ki_min_key_code i) (ki_max_key_code i) (ki_num_keys_low i) (ki_keys i) (ki_key_names i) (ki_key_aliases i) (ki_types i) (ki_interprets i) (ki_mods i) m (ki_redirect_key_auto i) (ki_num_groups i) (ki_group_names i).
Definition ki_set_types l (i : keymap_info) := mk_info (ki_ctx i) (ki_strict i) (ki_max_groups i) (ki_last_index i) (ki_last_mask i) (ki_pendings i) (ki_format i) (ki_leds i) (ki_min_key_code i) (ki_max_key_code i) (ki_num_keys_low i) (ki_keys i) (ki_key_names i) (ki_key_aliases i) l (ki_interprets i) (ki_mods i) (ki_canonical_state_mask i) (ki_redirect_key_auto i) (ki_num_groups i) (ki_group_names i).
Definition ki_set_leds ps l (i : keymap_info) := mk_info (ki_ctx i) (ki_strict i) (ki_max_groups i) (ki_last_index i) (ki_last_mask i) ps (ki_format i) l (ki_min_key_code i) (ki_max_key_code i) (ki_num_keys_low i) (ki_keys i) (ki_key_names i) (ki_key_aliases i) (ki_types i) (ki_interprets i) (ki_mods i) (ki_canonical_state_mask i) (ki_redirect_key_auto i) (ki_num_groups i) (ki_group_names i).

Definition ky_set_groups (implicit : bool) gs (k : key) := mk_ckey (ky_keycode k) (ky_name k) (ky_explicit k) (ky_modmap k) (ky_vmodmap k) (ky_overlays k) (ky_overlays_inline k) (ky_overlays_keys k) (ky_repeats k) implicit (ky_pending_group k) (ky_policy k) (ky_group_number k) gs.
Definition ky_set_derived (repeats : bool) vmodmap (k : key) := mk_ckey (ky_keycode k) (ky_name k) (ky_explicit k) (ky_modmap k) vmodmap (ky_overlays k) (ky_overlays_inline k) (ky_overlays_keys k) repeats (ky_implicit_actions k) (ky_pending_group k) (ky_policy k) (ky_group_number k) (ky_groups k).
Definition ky_set_redirect (pending : bool) number (k : key) := mk_ckey (ky_keycode k) (ky_name k) (ky_explicit k) (ky_modmap k) (ky_vmodmap k) (ky_overlays k) (ky_overlays_inline k) (ky_overlays_keys k) (ky_repeats k) (ky_implicit_actions k) pending (ky_policy k) number (ky_groups k).

Definition kg_set_levels (implicit : bool) ls (g : key_group) :=
  mk_key_group (kg_explicit_actions g) implicit (kg_type g) ls.
Definition lv_set_actions acts (lv : xkb_level) :=
  mk_level (lv_num_syms lv) (lv_upper lv) (lv_has_upper lv) (lv_syms lv) acts.
Definition led_set_mods m (l : xkb_led) :=
  mk_led (led_name l) (led_which_groups l) (led_groups l) (led_which_mods l) m (led_ctrls l).
Definition led_set_groups g (l : xkb_led) :=
  mk_led (led_name l) (led_which_groups l) g (led_which_mods l) (led_mods l) (led_ctrls l).

(** ** The keymap seen by the queries *)

Definition zero_type : xkb_key_type := mk_key_type (mk_xkb_mods 0 0) 0 [].

Definition group_of (types : list xkb_key_type) (g : key_group) : xkb_group :=
  mk_group (default zero_type (types !! kg_type g)) (kg_levels g).

Definition key_of (types : list xkb_key_type) (k : key) : xkb_key :=
  mk_key (ky_keycode k) (ky_name k) (ky_repeats k) (ky_overlays k) (ky_overlays_inline k)
    (ky_overlays_keys k) (ky_policy k) (ky_group_number k) (map (group_of types) (ky_groups k)).

Definition keymap_of (info : keymap_info) : xkb_keymap :=
  mk_keymap (ki_format info) (map ld_led (ki_leds info)) (ki_min_key_code info) (ki_max_key_code info)
    (ki_num_keys_low info) (map (key_of (ki_types info)) (ki_keys info)) (ki_key_aliases info)
    (ms_enum (ki_mods info)) (ki_canonical_state_mask info) (ki_num_groups info) (ki_group_names info).

(** ** Loops

    A loop over an array, with a state; [None] when the body returns [false]. *)

Definition obind {A B} (m : result (option A)) (k : A -> result (option B)) : result (option B) :=
  match m with Ok (Some a) => k a | Ok None => Ok None | Fault f => Fault f end.
Notation "'let!' x ':=' m 'in' k" := (obind m (fun x => k))
  (at level 10, x pattern, m at level 100, k at level 200) : xkb_scope.

Fixpoint traverse {T A B} (f : T -> A -> result (option (T * B))) (s : T) (l : list A)
    : result (option (T * list B)) :=
  match l with
  | [] => Ok (Some (s, []))
  | x :: l =>
      let! r := f s x in
      let! rs := traverse f (fst r) l in
      Ok (Some (fst rs, snd r :: snd rs))
  end.

(** The first [n] items, with their index. *)
Fixpoint traverse_upto {T A} (f : nat -> T -> A -> result (option (T * A))) (n i : nat) (s : T) (l : list A)
    : result (option (T * list A)) :=
  match n, l with
  | O, _ => Ok (Some (s, l))
  | _, [] => Fault FaultOutOfBounds
  | S n, x :: l =>
      let! r := f i s x in
      let! rs := traverse_upto f n (S i) (fst r) l in
      Ok (Some (fst rs, snd r :: snd rs))
  end.

(** [xkb_keys_foreach] *)
Definition foreach_key {T} (info : keymap_info) (f : T -> key -> result (option (T * key))) (s : T)
    : result (option (T * list key)) :=
  let start := keys_start (keymap_of info) in
  let! r := traverse f s (drop start (ki_keys info)) in
  Ok (Some (fst r, take start (ki_keys info) ++ snd r)).

(** [XkbKeyNumLevels(key, group)] *)
Definition group_num_levels (types : list xkb_key_type) (g : key_group) : result nat :=
  match types !! kg_type g with
  | Some t => Ok (Z.to_nat (t_num_levels t))
  | None => Fault FaultNull
  end.

(** ** Effective masks *)

Definition has_unbound_vmods (mods : list xkb_mod) (mask : Z) : bool :=
  existsb (fun '(k, m) => has_flag mask (bit k) && (mod_mapping m =? 0))
    (zip (map Z.of_nat (seq 8 (length (drop 8 mods)))) (drop 8 mods)).

(** [~((1 << num_mods) - 1)], computed on 64 bits. *)
Definition unknown_mods (km : xkb_keymap) : Z := u32 (Z.lnot (bit (km_num_mods km) - 1)).

Definition ComputeEffectiveMask (km : xkb_keymap) (mods : xkb_mods) : xkb_mods :=
  mk_xkb_mods (m_mods mods)
    (Z.lor (mod_mask_get_effective km (m_mods mods)) (Z.land (m_mods mods) (unknown_mods km))).

Definition UpdateActionMods (km : xkb_keymap) (modmap : Z) (act : xkb_action) : xkb_action :=
  match act with
  | act_mods t flags mods =>
      let mods := if has_flag flags ACTION_MODS_LOOKUP_MODMAP
                  then mk_xkb_mods modmap (m_mask mods) else mods in
      act_mods t flags (ComputeEffectiveMask km mods)
  | _ => act
  end.

(** ** Interpretations *)

Definition default_interpret : xkb_sym_interpret :=
  mk_interp XKB_KEY_NoSymbol MATCH_ANY_OR_NONE 0 XKB_MOD_INVALID false true false [].

(** The tests of the loop over the interpretations. *)
Definition interp_matches (interp : xkb_sym_interpret) (sym modmap level : Z) : bool :=
  ((si_sym interp =? sym) || (si_sym interp =? XKB_KEY_NoSymbol)) &&
  let mods := if si_level_one_only interp && negb (level =? 0) then 0 else modmap in
  match si_match interp with
  | MATCH_NONE => negb (has_flag (si_mods interp) mods)
  | MATCH_ANY_OR_NONE => (mods =? 0) || has_flag (si_mods interp) mods
  | MATCH_ANY => has_flag (si_mods interp) mods
  | MATCH_ALL => Z.land (si_mods interp) mods =? si_mods interp
  | MATCH_EXACTLY => si_mods interp =? mods
  end.

(** The inner loop: the index of the interpretation of [sym], from the index
    [i] on; [None] is the default interpretation, that also replaces an
    interpretation of any keysym that [interprets] holds. *)
Fixpoint find_interp (interps : list xkb_sym_interpret) (i : nat) (sym modmap level : Z)
    (interprets : list (option nat)) : option nat :=
  match interps with
  | [] => None
  | interp :: interps =>
      if interp_matches interp sym modmap level then
        if negb (Nat.eqb i 0) && (si_sym interp =? XKB_KEY_NoSymbol) &&
           bool_decide (Some i ∈ interprets) then None
        else Some i
      else find_interp interps (S i) sym modmap level interprets
  end.

(** [None] for a returned [false].  [km] is the keymap that holds the key. *)
Definition FindInterpForKey (km : xkb_keymap) (interps : list xkb_sym_interpret) (k : key)
    (group level : Z) : option (list (option nat)) :=
  match xkb_keymap_key_get_syms_by_level km (ky_keycode k) group level with
  | [] => None
  | syms =>
      Some (foldl (fun acc sym => acc ++ [find_interp interps 0 sym (ky_modmap k) level acc]) [] syms)
  end.

Definition set_required (interp : xkb_sym_interpret) : xkb_sym_interpret :=
  mk_interp (si_sym interp) (si_match interp) (si_mods interp) (si_virtual_mod interp)
    (si_level_one_only interp) (si_repeat interp) true (si_actions interp).

(** [interp->required = true] for the interpretations found. *)
Definition mark_required (interps : list xkb_sym_interpret) (found : list (option nat))
    : list xkb_sym_interpret :=
  foldl (fun interps o => match o with Some i => alter set_required i interps | None => interps end)
    interps found.

Definition interp_at (interps : list xkb_sym_interpret) (o : option nat) : xkb_sym_interpret :=
  match o with Some i => default default_interpret (interps !! i) | None => default_interpret end.

(** The virtual modifiers of the interpretations of a level. *)
Fixpoint level_vmodmap (first_level : bool) (vmodmap : Z) (chosen : list xkb_sym_interpret) : result Z :=
  match chosen with
  | [] => Ok vmodmap
  | interp :: chosen =>
      if (first_level || negb (si_level_one_only interp)) && negb (si_virtual_mod interp =? XKB_MOD_INVALID)
      then if si_virtual_mod interp <? 32
           then level_vmodmap first_level (Z.lor vmodmap (bit (si_virtual_mod interp))) chosen
           else Fault FaultShift
      else level_vmodmap first_level vmodmap chosen
  end.

(** What the loops of [ApplyInterpsToKey] change, the levels apart. *)
Record interp_state := mk_interp_state {
  is_interprets : list xkb_sym_interpret;
  is_repeats : bool;
  is_vmodmap : Z;
  is_implicit : bool
}.

Definition apply_interps_level (km : xkb_keymap) (k : key) (group level : nat) (st : interp_state)
    (lv : xkb_level) : result (option (interp_state * xkb_level)) :=
  asserting (Nat.eqb (length (lv_actions lv)) 0)
    (match FindInterpForKey km (is_interprets st) k (Z.of_nat group) (Z.of_nat level) with
     | None => Ok (Some (st, lv))
     | Some found =>
         let chosen := map (interp_at (is_interprets st)) found in
         let first_level := Nat.eqb group 0 && Nat.eqb level 0 in
         let repeats := is_repeats st ||
           (first_level && negb (has_flag (ky_explicit k) EXPLICIT_REPEAT) && existsb si_repeat chosen) in
         let+ vmodmap := level_vmodmap first_level (is_vmodmap st) chosen in
         let actions := concat (map si_actions chosen) in
         let implicit := is_implicit st || negb (Nat.eqb (length actions) 0) in
         Ok (Some (mk_interp_state (mark_required (is_interprets st) found) repeats vmodmap implicit,
                   lv_set_actions (take (Z.to_nat MAX_ACTIONS_PER_LEVEL) actions) lv))
     end).

Definition apply_interps_group (km : xkb_keymap) (types : list xkb_key_type) (k : key) (group : nat)
    (st : interp_state * bool) (g : key_group) : result (option (interp_state * bool * key_group)) :=
  let '(st, key_implicit) := st in
  if kg_explicit_actions g then Ok (Some (st, key_implicit, g))
  else
    let+ num_levels := group_num_levels types g in
    let st := mk_interp_state (is_interprets st) (is_repeats st) (is_vmodmap st) (kg_implicit_actions g) in
    let! r := traverse_upto (apply_interps_level km k group) num_levels 0 st (kg_levels g) in
    Ok (Some (fst r, key_implicit || is_implicit (fst r), kg_set_levels (is_implicit (fst r)) (snd r) g)).

Definition ApplyInterpsToKey (km : xkb_keymap) (types : list xkb_key_type)
    (interps : list xkb_sym_interpret) (k : key) : result (option (list xkb_sym_interpret * key)) :=
  let st := mk_interp_state interps (ky_repeats k) 0 false in
  let! r := traverse_upto (apply_interps_group km types k) (length (ky_groups k)) 0
              (st, ky_implicit_actions k) (ky_groups k) in
  let '(st, implicit, groups) := r in
  let vmodmap := if has_flag (ky_explicit k) EXPLICIT_VMODMAP then ky_vmodmap k else is_vmodmap st in
  Ok (Some (is_interprets st, ky_set_derived (is_repeats st) vmodmap (ky_set_groups implicit groups k))).

(** ** Actions of the same category *)

Definition is_mod_action (a : xkb_action) : bool :=
  match a with act_mods _ _ _ => true | _ => false end.
Definition is_group_action (a : xkb_action) : bool :=
  match a with act_group _ _ _ => true | _ => false end.
Definition is_redirect_action (a : xkb_action) : bool :=
  match a with act_redirect _ => true | _ => false end.

Definition actions_conflict (a1 a2 : xkb_action) : bool :=
  (is_mod_action a1 || is_group_action a1 || is_redirect_action a1) &&
  ((action_type a1 =? action_type a2) || (is_mod_action a1 && is_mod_action a2) ||
   (is_group_action a1 && is_group_action a2)).

(** The two loops: an action clears the conflicting ones that follow; [n] is
    the number of the actions. *)
Fixpoint check_actions (n : nat) (actions : list xkb_action) : list xkb_action :=
  match n, actions with
  | S n, a1 :: actions =>
      a1 :: check_actions n (map (fun a2 => if actions_conflict a1 a2 then act_none else a2) actions)
  | _, _ => actions
  end.

Definition check_level (lv : xkb_level) : xkb_level :=
  let actions := lv_actions lv in
  if Nat.leb (length actions) 1 then lv
  else lv_set_actions (check_actions (length actions) actions) lv.

Definition CheckMultipleActionsCategories (types : list xkb_key_type) (k : key) : result (option key) :=
  let! r := traverse (fun (_ : unit) g =>
      let+ num_levels := group_num_levels types g in
      let! r := traverse_upto (fun _ (_ : unit) lv => Ok (Some (tt, check_level lv))) num_levels 0 tt
                  (kg_levels g) in
      Ok (Some (tt, kg_set_levels (kg_implicit_actions g) (snd r) g))) tt (ky_groups k) in
  Ok (Some (ky_set_groups (ky_implicit_actions k) (snd r) k)).

(** ** Virtual modifiers *)

(** [xkb_vmods_enumerate] *)
Definition map_vmods (f : nat -> xkb_mod -> xkb_mod) (s : xkb_mod_set) : xkb_mod_set :=
  mk_mod_set (imap (fun i m => if Nat.leb 8 i && Nat.ltb i (ms_num_mods s) then f i m else m) (ms_mods s))
    (ms_num_mods s) (ms_explicit_vmods s).

Definition add_modmap (s : xkb_mod_set) (k : key) : xkb_mod_set :=
  map_vmods (fun idx m => if has_flag (ky_vmodmap k) (bit (Z.of_nat idx))
                          then mod_set_mapping m (Z.lor (mod_mapping m) (ky_modmap k)) else m) s.

(** The mask of the modifiers that get their canonical mapping. *)
Definition is_canonical (s : xkb_mod_set) (idx : nat) (m : xkb_mod) : bool :=
  (mod_mapping m =? 0) && negb (ms_is_explicit s idx).

Definition vmods_from (s : xkb_mod_set) : list (nat * xkb_mod) :=
  filter (fun '(i, _) => (8 <= i)%nat) (imap pair (ms_enum s)).

Definition canonical_vmods (s : xkb_mod_set) : xkb_mod_set :=
  let mapped := map_vmods (fun idx m => if is_canonical s idx m then mod_set_mapping m (bit (Z.of_nat idx)) else m) s in
  mk_mod_set (ms_mods mapped) (ms_num_mods mapped)
    (foldl (fun mask '(idx, m) => if is_canonical s idx m then Z.lor mask (bit (Z.of_nat idx)) else mask)
       (ms_explicit_vmods s) (vmods_from s)).

Definition extra_canonical_mods (s : xkb_mod_set) : Z :=
  foldl (fun mask '(_, m) => Z.lor mask (mod_mapping m)) 0 (vmods_from s).

(** ** Types *)

Definition update_type_entry (km : xkb_keymap) (e : xkb_key_type_entry) : xkb_key_type_entry :=
  if has_unbound_vmods (km_mods km) (m_mods (e_mods e))
  then mk_entry (e_level e) (mk_xkb_mods (m_mods (e_mods e)) 0) (e_preserve e)
  else mk_entry (e_level e) (ComputeEffectiveMask km (e_mods e)) (ComputeEffectiveMask km (e_preserve e)).

Definition update_type (km : xkb_keymap) (t : xkb_key_type) : xkb_key_type :=
  mk_key_type (ComputeEffectiveMask km (t_mods t)) (t_num_levels t)
    (map (update_type_entry km) (t_entries t)).

(** ** Pending computations *)

(** The stored value, computed if it is not. [None] when the computation
    fails. *)
Definition pending_set (pendings : list pending_computation) (i : nat) (pc : pending_computation) (value : Z)
    : list pending_computation :=
  <[i := mk_pending (pc_expr pc) true value]> pendings.

Definition get_pending (pendings : list pending_computation) (i : Z) : result pending_computation :=
  match item pendings i with Some pc => Ok pc | None => Fault FaultOutOfBounds end.

Definition update_pending_key_fields (gi : group_info) (pendings : list pending_computation) (k : key)
    : result (option (list pending_computation * key)) :=
  if ky_pending_group k then
    let+ pc := get_pending pendings (ky_group_number k) in
    let finish pendings value := Ok (Some (pendings, ky_set_redirect false (u8 value) k)) in
    if pc_computed pc then finish pendings (pc_value pc)
    else
      let+ r := ExprResolveGroup gi (pc_expr pc) true false in
      match fst r with
      | PARSER_SUCCESS group =>
          finish (pending_set pendings (Z.to_nat (ky_group_number k)) pc (u32 (group - 1))) (u32 (group - 1))
      | PARSER_FATAL_ERROR =>
          Ok (if has_flag (gi_strict gi) PARSER_NO_FIELD_TYPE_MISMATCH then Some (pendings, k) else None)
      | PARSER_RECOVERABLE_ERROR => finish pendings (pc_value pc)
      end
  else Ok (Some (pendings, k)).

Definition is_negate (e : ExprDef) : bool :=
  match e with ExprUnary STMT_EXPR_NEGATE _ => true | _ => false end.

(** The value of a group action. *)
Definition pending_group_value (absolute : bool) (e : ExprDef) (group : Z) : Z :=
  if absolute then u32 (group - 1) else if is_negate e then u32 (- i32 group) else group.

Definition update_pending_action_fields (gi : group_info) (redirect_key_auto : Z)
    (pendings : list pending_computation) (keycode : Z) (act : xkb_action)
    : result (option (list pending_computation * xkb_action)) :=
  match act with
  | act_group t flags group =>
      if has_flag flags ACTION_PENDING_COMPUTATION then
        let+ pc := get_pending pendings group in
        let finish pendings value :=
          Ok (Some (pendings, act_group t (Z.ldiff flags ACTION_PENDING_COMPUTATION) (i32 value))) in
        if pc_computed pc then finish pendings (pc_value pc)
        else
          let absolute := has_flag flags ACTION_ABSOLUTE_SWITCH in
          let+ r := ExprResolveGroup gi (pc_expr pc) absolute false in
          match fst r with
          | PARSER_FATAL_ERROR => Ok None
          | PARSER_RECOVERABLE_ERROR => finish pendings (pc_value pc)
          | PARSER_SUCCESS g =>
              let value := pending_group_value absolute (pc_expr pc) g in
              finish (pending_set pendings (Z.to_nat group) pc value) value
          end
      else Ok (Some (pendings, act))
  | act_redirect r =>
      Ok (Some (pendings,
        if (keycode =? XKB_KEYCODE_INVALID) || negb (r_keycode r =? redirect_key_auto) then act
        else act_redirect (mk_redirect keycode (r_affect r) (r_mods r))))
  | _ => Ok (Some (pendings, act))
  end.

Definition update_pending_led_fields (gi : group_info) (pendings : list pending_computation) (l : led)
    : result (option (list pending_computation * led)) :=
  if ld_pending_groups l then
    let+ pc := get_pending pendings (led_groups (ld_led l)) in
    let finish pendings value :=
      Ok (Some (pendings, mk_cled (led_set_groups value (ld_led l)) false)) in
    if pc_computed pc then finish pendings (pc_value pc)
    else
      let+ r := ExprResolveGroupMask gi (pc_expr pc) false in
      match r with
      | Resolved mask => finish (pending_set pendings (Z.to_nat (led_groups (ld_led l))) pc mask) mask
      | _ => Ok None
      end
  else Ok (Some (pendings, l)).

(** The group of an action (src/xkbcomp/action.c): the flags, the group and
    the pending computations; an error is the returned error. *)
Definition CheckGroupField (gi : group_info) (pendings : list pending_computation) (value : ExprDef)
    (flags_inout : Z) : result (xkb_parser_error (Z * Z * list pending_computation)) :=
  let '(flags, spec) :=
    match value with
    | ExprUnary (STMT_EXPR_NEGATE | STMT_EXPR_UNARY_PLUS) child =>
        (Z.ldiff flags_inout ACTION_ABSOLUTE_SWITCH, child)
    | _ => (Z.lor flags_inout ACTION_ABSOLUTE_SWITCH, value)
    end in
  let absolute := has_flag flags ACTION_ABSOLUTE_SWITCH in
  let+ r := ExprResolveGroup gi spec absolute true in
  let '(ret, pending) := r in
  Ok (if pending : bool then
        PARSER_SUCCESS (Z.lor flags ACTION_PENDING_COMPUTATION, i32 (Z.of_nat (length pendings)),
                        pendings ++ [mk_pending spec false 0])
      else match ret with
      | PARSER_SUCCESS idx =>
          let group := if absolute then i32 (u32 (idx - 1))
                       else if is_negate value then i32 (- i32 idx) else i32 idx in
          PARSER_SUCCESS (Z.ldiff flags ACTION_PENDING_COMPUTATION, group, pendings)
      | PARSER_RECOVERABLE_ERROR => PARSER_RECOVERABLE_ERROR
      | PARSER_FATAL_ERROR => PARSER_FATAL_ERROR
      end).

(** ** [UpdateDerivedKeymapFields], part by part *)

Definition step : Type := keymap_info -> result (option keymap_info).

Definition derive_aliases : step := fun info =>
  let+ aliases := update_key_aliases (ki_key_names info) in
  Ok (Some (ki_set_key_aliases aliases info)).

(** The keys that [xkb_keys_foreach] visits. *)
Definition visited_keys (info : keymap_info) : list key :=
  drop (keys_start (keymap_of info)) (ki_keys info).

Definition ky_num_groups (k : key) : Z := Z.of_nat (length (ky_groups k)).

Definition derive_num_groups (info : keymap_info) : keymap_info :=
  ki_set_num_groups
    (foldl (fun n k => Z.max n (ky_num_groups k)) (ki_num_groups info) (visited_keys info)) info.

Definition has_pendings (info : keymap_info) : bool := negb (Nat.eqb (length (ki_pendings info)) 0).

(** The entries "last", then the actions of the interpretations. *)
Definition derive_pending_interprets : step := fun info =>
  if has_pendings info then
    let num_groups := if ki_num_groups info =? 0 then 1 else ki_num_groups info in
    let info := ki_set_last (Some num_groups) (Some (u32 (bit (num_groups - 1)))) info in
    let gi := ki_group_info info in
    let! r := traverse (fun pendings interp =>
        let! r := traverse (fun pendings act =>
            update_pending_action_fields gi (ki_redirect_key_auto info) pendings XKB_KEYCODE_INVALID act)
            pendings (si_actions interp) in
        Ok (Some (fst r, mk_interp (si_sym interp) (si_match interp) (si_mods interp) (si_virtual_mod interp)
              (si_level_one_only interp) (si_repeat interp) (si_required interp) (snd r))))
        (ki_pendings info) (ki_interprets info) in
    Ok (Some (ki_set_interprets (fst r) (snd r) info))
  else Ok (Some info).

(** The keymap does not change in a way that the search of interpretations
    sees. *)
Definition derive_interprets : step := fun info =>
  let km := keymap_of info in
  let! r := foreach_key info (fun interps k =>
      let! r := ApplyInterpsToKey km (ki_types info) interps k in
      let! k := CheckMultipleActionsCategories (ki_types info) (snd r) in
      Ok (Some (fst r, k))) (ki_interprets info) in
  Ok (Some (ki_set_keys (ki_pendings info) (snd r) (ki_set_interprets (ki_pendings info) (fst r) info))).

Definition derive_vmods (info : keymap_info) : keymap_info :=
  let mods := foldl add_modmap (ki_mods info) (visited_keys info) in
  ki_set_mods (if ki_format info >=? XKB_KEYMAP_FORMAT_TEXT_V2 then canonical_vmods mods else mods) info.

Definition derive_canonical : step := fun info =>
  asserting (ki_canonical_state_mask info =? MOD_REAL_MASK_ALL)
    (Ok (Some (ki_set_canonical
       (Z.lor (ki_canonical_state_mask info) (extra_canonical_mods (ki_mods info))) info))).

Definition derive_types (info : keymap_info) : keymap_info :=
  ki_set_types (map (update_type (keymap_of info)) (ki_types info)) info.

Definition update_key_action (info : keymap_info) (pending_computations : bool) (k : key)
    (pendings : list pending_computation) (act : xkb_action)
    : result (option (list pending_computation * xkb_action)) :=
  let act := UpdateActionMods (keymap_of info) (ky_modmap k) act in
  if pending_computations || is_redirect_action act
  then update_pending_action_fields (ki_group_info info) (ki_redirect_key_auto info) pendings
         (ky_keycode k) act
  else Ok (Some (pendings, act)).

Definition update_key_actions (info : keymap_info) (pending_computations : bool)
    (pendings : list pending_computation) (k : key) : result (option (list pending_computation * key)) :=
  let! r := update_pending_key_fields (ki_group_info info) pendings k in
  let '(pendings, k) := r in
  let! r := traverse (fun pendings g =>
      let+ num_levels := group_num_levels (ki_types info) g in
      let! r := traverse_upto (fun _ pendings lv =>
          let! r := traverse (update_key_action info pending_computations k) pendings (lv_actions lv) in
          Ok (Some (fst r, lv_set_actions (snd r) lv))) num_levels 0 pendings (kg_levels g) in
      Ok (Some (fst r, kg_set_levels (kg_implicit_actions g) (snd r) g))) pendings (ky_groups k) in
  Ok (Some (fst r, ky_set_groups (ky_implicit_actions k) (snd r) k)).

Definition derive_actions (pending_computations : bool) : step := fun info =>
  let! r := foreach_key info (update_key_actions info pending_computations) (ki_pendings info) in
  Ok (Some (ki_set_keys (fst r) (snd r) info)).

Definition update_led (info : keymap_info) (pending_computations : bool)
    (pendings : list pending_computation) (l : led) : result (option (list pending_computation * led)) :=
  let l := mk_cled (led_set_mods (ComputeEffectiveMask (keymap_of info) (led_mods (ld_led l))) (ld_led l))
             (ld_pending_groups l) in
  if pending_computations then update_pending_led_fields (ki_group_info info) pendings l
  else Ok (Some (pendings, l)).

Definition derive_leds (pending_computations : bool) : step := fun info =>
  let! r := traverse (update_led info pending_computations) (ki_pendings info) (ki_leds info) in
  Ok (Some (ki_set_leds (fst r) (snd r) info)).

Definition UpdateDerivedKeymapFields : step := fun info =>
  let! info := derive_aliases info in
  let info := derive_num_groups info in
  let pending_computations := has_pendings info in
  let! info := derive_pending_interprets info in
  let! info := derive_interprets info in
  let info := derive_vmods info in
  let! info := derive_canonical info in
  let info := derive_types info in
  let! info := derive_actions pending_computations info in
  derive_leds pending_computations info.
