(* ===== verification/DerivedInv.v ===== *)
(** * The end of the compilation keeps the keymap well formed

    What the sections of a keymap leave to [UpdateDerivedKeymapFields], and
    that each of its parts keeps it. *)

From Stdlib Require Import ZArith Lia String.
From stdpp Require Import base tactics list numbers.
From S2P Require Import Prelude Numbers Atom Keymap State Filters Safety Reach KeymapSpec KeysymName Expr ExprSpec Vmod VmodSpec KeyAliases Derived.

(** ** Postconditions

    [post E Q r]: the computation ends in a value satisfying [Q]; or it
    returns [false], or ends in a fault, and [E] holds of [None] or the fault. *)

Definition post {A} (E : option fault -> Prop) (Q : A -> Prop) (r : result (option A)) : Prop :=
  match r with Ok (Some a) => Q a | Ok None => E None | Fault f => E (Some f) end.

Lemma post_obind {A B} E (Q : B -> Prop) (m : result (option A)) (k : A -> result (option B)) :
  post E (fun a => post E Q (k a)) m -> post E Q (obind m k).
Proof. by destruct m as [[a|]|]. Qed.

Lemma post_bind {A B} (E : option fault -> Prop) (Q : B -> Prop) (m : result A) (k : A -> result (option B)) :
  (forall f, m = Fault f -> E (Some f)) -> (forall a, m = Ok a -> post E Q (k a)) -> post E Q (result_bind m k).
Proof. destruct m; cbn; auto. Qed.

Lemma post_mono {A} (E : option fault -> Prop) (Q Q' : A -> Prop) r :
  post E Q r -> (forall a, Q a -> Q' a) -> post E Q' r.
Proof. destruct r as [[a|]|]; cbn; auto. Qed.

Lemma post_Ok {A} E (Q : A -> Prop) a : Q a -> post E Q (Ok (Some a)).
Proof. done. Qed.

(** A loop with an invariant on the state, and a relation between the items
    before and after. *)
Lemma post_traverse {T A B} E (Inv : T -> Prop) (P : A -> Prop) (R : A -> B -> Prop)
    (f : T -> A -> result (option (T * B))) l : forall s,
  (forall s x, Inv s -> P x -> post E (fun r => Inv r.1 /\ R x r.2) (f s x)) ->
  Inv s -> Forall P l ->
  post E (fun r => Inv r.1 /\ Forall2 R l r.2) (traverse f s l).
Proof.
  induction l as [|x l IH]; intros s Hf Hs Hl; cbn [traverse].
  { apply post_Ok. split; [done | constructor]. }
  apply Forall_cons_1 in Hl as [Hx Hl].
  apply post_obind. eapply post_mono; [by apply Hf|]. intros [s1 y] [Hs1 Hy]. cbn in Hs1, Hy.
  apply post_obind. eapply post_mono; [by apply IH|]. intros [s2 l2] [Hs2 Hl2]. cbn in Hs2, Hl2.
  apply post_Ok. split; [done|]. by constructor.
Qed.

Lemma post_traverse_upto {T A} E (Inv : T -> Prop) (P : A -> Prop) (R : A -> A -> Prop)
    (f : nat -> T -> A -> result (option (T * A))) l : forall n i s,
  (forall i s x, Inv s -> P x -> post E (fun r => Inv r.1 /\ R x r.2) (f i s x)) ->
  Inv s -> Forall P l -> n = length l ->
  post E (fun r => Inv r.1 /\ Forall2 R l r.2) (traverse_upto f n i s l).
Proof.
  induction l as [|x l IH]; intros n i s Hf Hs Hl ->; cbn [traverse_upto length].
  { apply post_Ok. split; [done | constructor]. }
  apply Forall_cons_1 in Hl as [Hx Hl].
  apply post_obind. eapply post_mono; [by apply Hf|]. intros [s1 y] [Hs1 Hy]. cbn in Hs1, Hy.
  apply post_obind. eapply post_mono; [by apply IH|]. intros [s2 l2] [Hs2 Hl2]. cbn in Hs2, Hl2.
  apply post_Ok. split; [done|]. by constructor.
Qed.

Lemma Forall2_Forall_r {A B} (R : A -> B -> Prop) (P : A -> Prop) (Q : B -> Prop) l l' :
  (forall x y, P x -> R x y -> Q y) -> Forall P l -> Forall2 R l l' -> Forall Q l'.
Proof.
  intros H Hl Hr. induction Hr as [|x y l l' Hxy Hr IH]; [apply Forall_nil_2|].
  apply Forall_cons_1 in Hl as [Hx Hl]. apply Forall_cons_2; [by apply (H x) | by apply IH].
Qed.

Lemma Forall2_right {A B} (Q : B -> Prop) (l : list A) l' : Forall2 (fun _ y => Q y) l l' -> Forall Q l'.
Proof. induction 1; [apply Forall_nil_2 | by apply Forall_cons_2]. Qed.

(** ** The effective masks *)

Lemma mod_mask_get_effective_ext km km' mods :
  km_mods km = km_mods km' -> mod_mask_get_effective km mods = mod_mask_get_effective km' mods.
Proof. intros H. unfold mod_mask_get_effective. by rewrite H. Qed.

Lemma ComputeEffectiveMask_ext km km' m :
  km_mods km = km_mods km' -> ComputeEffectiveMask km m = ComputeEffectiveMask km' m.
Proof.
  intros H. unfold ComputeEffectiveMask, unknown_mods, km_num_mods.
  by rewrite (mod_mask_get_effective_ext km km'), H.
Qed.

Lemma ComputeEffectiveMask_u32 km m :
  Forall (fun m => is_u32 (mod_mapping m)) (km_mods km) -> is_u32 (m_mask (ComputeEffectiveMask km m)).
Proof.
  intros H. cbn. apply is_u32_lor; [by apply mod_mask_get_effective_u32|].
  apply is_u32_land_r, u32_range.
Qed.

(** ** Postponed expressions resolve without fault, overflow apart *)

Definition overflow_only (f : fault) : Prop := f = FaultOverflow.

(** With [n] pending computations: a failure needs one of them. *)
Definition failure (n : nat) (o : option fault) : Prop :=
  n <> 0%nat /\ match o with Some f => overflow_only f | None => True end.

(** The identifiers of an expression are atoms. *)
Definition expr_ok (ctx : atom_table) (e : ExprDef) : Prop :=
  forall ident, STMT_EXPR_IDENT ident ∈ operands e -> exists s, atom_string ctx ident = Ok s.

Definition faults_only {A} (E : fault -> Prop) (r : result A) : Prop :=
  forall f, r = Fault f -> E f.

Lemma faults_rbind {A B} E (m : result (resolution A)) (k : A -> result (resolution B)) :
  faults_only E m -> (forall a, faults_only E (k a)) -> faults_only E (rbind m k).
Proof. intros Hm Hk f. destruct m as [[a| |]|f']; cbn; try done; [apply Hk|]. intros [= <-]. by apply Hm. Qed.

Lemma integer_binary_faults op l r : faults_only overflow_only (integer_binary op l r).
Proof.
  intros f. destruct op; cbn; unfold ckd, int64_op; try done.
  destruct (r =? 0); [done|]. destruct (in_int64 _); [done|]. by intros [= <-].
Qed.

Lemma operands_l op e1 e2 x : x ∈ operands e1 -> x ∈ operands (ExprBinary op e1 e2).
Proof. intros H. cbn. right. apply elem_of_app. by left. Qed.
Lemma operands_r op e1 e2 x : x ∈ operands e2 -> x ∈ operands (ExprBinary op e1 e2).
Proof. intros H. cbn. right. apply elem_of_app. by right. Qed.
Lemma operands_u op e x : x ∈ operands e -> x ∈ operands (ExprUnary op e).
Proof. intros H. cbn. by right. Qed.
#[local] Hint Resolve operands_l operands_r operands_u : core.

Lemma integer_faults lookup e :
  (forall ident, STMT_EXPR_IDENT ident ∈ operands e -> faults_only overflow_only (lookup ident)) ->
  faults_only overflow_only (ExprResolveIntegerLookup (Some lookup) e).
Proof.
  induction e; intros Hl; cbn; try done.
  - apply Hl. constructor.
  - assert (faults_only overflow_only (let? l := ExprResolveIntegerLookup (Some lookup) e1 in
      let? r := ExprResolveIntegerLookup (Some lookup) e2 in integer_binary op l r)) as H.
    { apply faults_rbind; [apply IHe1; auto|]. intros l. apply faults_rbind; [apply IHe2; auto|].
      intros r. apply integer_binary_faults. }
    by destruct op.
  - assert (faults_only overflow_only (ExprResolveIntegerLookup (Some lookup) e)) as H by (apply IHe; auto).
    destruct op; try done; apply faults_rbind; try done. intros a f. unfold int64_op.
    destruct (in_int64 _); [done|]. by intros [= <-].
Qed.

Lemma mask_faults lookup e :
  (forall ident, STMT_EXPR_IDENT ident ∈ operands e -> faults_only overflow_only (lookup ident)) ->
  faults_only overflow_only (ExprResolveMaskLookup lookup e).
Proof.
  induction e; intros Hl; cbn; try done.
  - apply Hl. constructor.
  - assert (faults_only overflow_only (let? l := ExprResolveMaskLookup lookup e1 in
      let? r := ExprResolveMaskLookup lookup e2 in Ok (mask_binary op l r))) as H.
    { apply faults_rbind; [apply IHe1; auto|]. intros l. by apply faults_rbind; [apply IHe2; auto|]. }
    by destruct op.
  - assert (faults_only overflow_only (ExprResolveIntegerLookup (Some lookup) e)) as H
      by (apply integer_faults; auto).
    by destruct op; apply faults_rbind.
Qed.

Lemma named_integer_faults ctx p pending ident :
  (exists s, atom_string ctx ident = Ok s) -> (np_is_mask p = true -> np_max p - np_min p < 32) ->
  faults_only overflow_only (NamedIntegerPatternLookup ctx p pending ident).
Proof.
  intros [s Hs] Hp f. unfold NamedIntegerPatternLookup. destruct (ident =? XKB_ATOM_NONE) eqn:Hi; [done|].
  rewrite Hs. cbn [result_bind]. destruct (if istrneq s _ _ then _ else _) as [count val].
  destruct (_ && _).
  - destruct (Z.ltb_spec val (np_min p)); [done|]. rewrite Z.gtb_ltb.
    destruct (Z.ltb_spec (np_max p) val); [done|]. cbn [orb]. destruct (np_is_mask p); [|done].
    specialize (Hp eq_refl). rewrite (proj2 (Z.ltb_lt _ _)) by lia. done.
  - unfold SimpleLookup. rewrite Hi, Hs. destruct (np_entries p) as [es|]; cbn [result_bind].
    + destruct (lookup_entries s es); [done|]. destruct (np_pending_entries p); [|done]. by destruct pending.
    + destruct (np_pending_entries p); [|done]. by destruct pending.
Qed.

Lemma resolve_group_faults gi e absolute pending :
  expr_ok (gi_ctx gi) e -> gi_max_groups gi <= 32 ->
  faults_only overflow_only (ExprResolveGroup gi e absolute pending).
Proof.
  intros He Hm f. unfold ExprResolveGroup.
  destruct (ExprResolveIntegerLookup _ e) as [r|f'] eqn:Hr; cbn; [done|]. intros [= <-].
  refine (integer_faults _ e _ f' Hr). intros ident Hi.
  apply named_integer_faults; [by apply He | cbn; lia].
Qed.

Lemma resolve_group_mask_faults gi e pending :
  expr_ok (gi_ctx gi) e -> gi_max_groups gi <= 32 ->
  faults_only overflow_only (ExprResolveGroupMask gi e pending).
Proof.
  intros He Hm. apply mask_faults. intros ident Hi.
  apply named_integer_faults; [by apply He | cbn; lia].
Qed.

Lemma resolve_group_u32 gi e absolute pending v b :
  ExprResolveGroup gi e absolute pending = Ok (PARSER_SUCCESS v, b) -> is_u32 v.
Proof.
  unfold ExprResolveGroup. destruct (ExprResolveIntegerLookup _ e) as [[r| |]|]; cbn; try done.
  all: destruct (has_flag _ _); try done; destruct (_ || _); try done; intros [= <- <-]; apply u32_range.
Qed.

(** ** Well-formed data

    [n] is the number of pending computations, [nls] the numbers of levels of
    the types. *)

Definition caction_ok (n : nat) (a : xkb_action) : Prop :=
  match a with
  | act_group _ flags group =>
      is_i32 group /\ (has_flag flags ACTION_PENDING_COMPUTATION = true -> 0 <= group < Z.of_nat n)
  | act_ctrls _ _ c => is_u32 c
  | act_redirect r => is_u32 (r_affect r) /\ is_u32 (r_mods r)
  | _ => True
  end.

Definition clevel_ok (n : nat) (lv : xkb_level) : Prop := Forall (caction_ok n) (lv_actions lv).

Record cgroup_ok (nls : list Z) (n : nat) (g : key_group) : Prop := {
  cg_type : nls !! kg_type g = Some (Z.of_nat (length (kg_levels g)));
  cg_levels : Forall (clevel_ok n) (kg_levels g)
}.

(** A group without explicit actions has none yet. *)
Definition unset_group (g : key_group) : Prop :=
  kg_explicit_actions g = false -> Forall (fun lv => lv_actions lv = []) (kg_levels g).

Record ckey_ok (nls : list Z) (n : nat) (k : key) : Prop := {
  ck_groups : Forall (cgroup_ok nls n) (ky_groups k);
  ck_num_groups : ky_num_groups k <= XKB_MAX_GROUPS;
  ck_modmap : is_u32 (ky_modmap k);
  ck_number : 0 <= ky_group_number k < 2 ^ 8;
  ck_pending : ky_pending_group k = true -> ky_group_number k < Z.of_nat n
}.

Record interp_ok (n : nat) (i : xkb_sym_interpret) : Prop := {
  in_actions : Forall (caction_ok n) (si_actions i);
  in_vmod : si_virtual_mod i = XKB_MOD_INVALID \/ 0 <= si_virtual_mod i < 32
}.

Record mods_ok (s : xkb_mod_set) : Prop := {
  mo_length : length (ms_mods s) = XKB_MAX_MODS;
  mo_num : (8 <= ms_num_mods s <= XKB_MAX_MODS)%nat;
  mo_mapping : Forall (fun m => is_u32 (mod_mapping m)) (ms_mods s)
}.

Definition pending_ok (ctx : atom_table) (pc : pending_computation) : Prop := expr_ok ctx (pc_expr pc).

(** The layout of the keycodes [kcs]. *)
Record layout_ok (kcs : list Z) (min low : Z) : Prop := {
  ly_min : 0 <= min;
  ly_low_le : 0 <= low <= Z.of_nat (length kcs);
  ly_low : forall i kc, kcs !! i = Some kc -> Z.of_nat i < low -> min <= Z.of_nat i -> kc = Z.of_nat i;
  ly_high : forall i j kc kc', kcs !! i = Some kc -> kcs !! j = Some kc' ->
    low <= Z.of_nat i -> (i < j)%nat -> kc < kc';
  ly_high_range : forall i kc, kcs !! i = Some kc -> low <= Z.of_nat i -> low <= kc
}.

Definition num_levels_of (info : keymap_info) : list Z := map t_num_levels (ki_types info).

(** What holds during the whole of [UpdateDerivedKeymapFields]. *)
Record info_ok (n : nat) (info : keymap_info) : Prop := {
  io_keys : Forall (ckey_ok (num_levels_of info) n) (ki_keys info);
  io_hidden : Forall (fun k => ky_groups k = []) (take (keys_start (keymap_of info)) (ki_keys info));
  io_layout : layout_ok (map ky_keycode (ki_keys info)) (ki_min_key_code info) (ki_num_keys_low info);
  io_types : Forall key_type_wf (ki_types info);
  io_interprets : Forall (interp_ok n) (ki_interprets info);
  io_mods : mods_ok (ki_mods info);
  io_leds : (length (ki_leds info) <= 32)%nat;
  io_led_pending : Forall (fun l => ld_pending_groups l = true -> 0 <= led_groups (ld_led l) < Z.of_nat n) (ki_leds info);
  io_num_groups : 0 <= ki_num_groups info <= XKB_MAX_GROUPS;
  io_max_groups : ki_max_groups info <= 32;
  io_canonical : is_u32 (ki_canonical_state_mask info);
  io_pendings : length (ki_pendings info) = n /\ Forall (pending_ok (ki_ctx info)) (ki_pendings info)
}.

(** What the compilation of the sections leaves. *)
Record compiled (info : keymap_info) : Prop := {
  cp_info : info_ok (length (ki_pendings info)) info;
  cp_vmods : vmods_ok (ki_mods info);
  cp_unset : Forall (fun k => Forall unset_group (ky_groups k)) (ki_keys info);
  cp_canonical : ki_canonical_state_mask info = MOD_REAL_MASK_ALL
}.

Lemma vmods_ok_mods s : vmods_ok s -> mods_ok s.
Proof.
  intros Hs. split; [apply Hs | apply Hs |]. apply Forall_lookup_2. intros i m Hi. by apply (vo_mods s Hs i m Hi).
Qed.

Lemma item_of_nat {A} (l : list A) i : 0 <= i < Z.of_nat (length l) -> exists x, item l i = Some x.
Proof.
  intros Hi. unfold item. rewrite (proj2 (Z.ltb_ge _ _)) by lia. apply lookup_lt_is_Some_2. lia.
Qed.

Lemma item_Forall {A} (P : A -> Prop) (l : list A) i x : Forall P l -> item l i = Some x -> P x.
Proof. intros Hl [_ Hi]%item_Some. exact (Forall_lookup_1 _ _ _ _ Hl Hi). Qed.

(** ** Pending computations *)

Section pendings.
Context (gi : group_info) (n : nat).
Hypothesis Hmax : gi_max_groups gi <= 32.

Definition pendings_inv (ps : list pending_computation) : Prop :=
  length ps = n /\ Forall (pending_ok (gi_ctx gi)) ps.

Lemma pending_set_inv ps i pc v : pendings_inv ps -> pending_ok (gi_ctx gi) pc -> pendings_inv (pending_set ps i pc v).
Proof.
  intros [Hl Hp] Hpc. unfold pending_set. split; [by rewrite length_insert|].
  apply Forall_insert; done.
Qed.

(** The value of a pending computation is found in bounds. *)
Lemma post_get_pending {A} (E : option fault -> Prop) (Q : A -> Prop) ps i k :
  pendings_inv ps -> 0 <= i < Z.of_nat n ->
  (n <> 0%nat -> forall pc, pending_ok (gi_ctx gi) pc -> post E Q (k pc)) ->
  post E Q (result_bind (get_pending ps i) k).
Proof.
  intros [Hl Hp] Hi Hk. unfold get_pending. destruct (item_of_nat ps i) as [pc Hpc]; [lia|].
  rewrite Hpc. cbn [result_bind]. apply Hk; [lia|]. by apply (item_Forall _ ps i).
Qed.

Definition action_kept (a a' : xkb_action) : Prop :=
  caction_ok n a' /\
  match a, a' with
  | act_group t _ _, act_group t' flags _ => t = t' /\ has_flag flags ACTION_PENDING_COMPUTATION = false
  | act_redirect _, act_redirect _ => True
  | _, _ => a = a'
  end.

Lemma clear_pending flags :
  has_flag (Z.ldiff flags ACTION_PENDING_COMPUTATION) ACTION_PENDING_COMPUTATION = false.
Proof.
  apply has_flag_false. bitblast.
Qed.

Lemma pending_action_ok auto ps keycode act :
  pendings_inv ps -> caction_ok n act ->
  post (failure n) (fun r => pendings_inv r.1 /\ action_kept act r.2)
    (update_pending_action_fields gi auto ps keycode act).
Proof using Hmax.
  intros Hps Hact. destruct act; cbn [update_pending_action_fields]; try (by apply post_Ok).
  - destruct Hact as [Hg Hp]. destruct (has_flag flags ACTION_PENDING_COMPUTATION) eqn:Hf.
    2:{ apply post_Ok. split; [done|]. split; [|done]. split; [done|]. by rewrite Hf. }
    apply (post_get_pending _ _ ps group); [done | by apply Hp |]. intros Hn0 pc Hpc.
    assert (forall ps' v, pendings_inv ps' -> post (failure n)
      (fun r => pendings_inv r.1 /\ action_kept (act_group t flags group) r.2)
      (Ok (Some (ps', act_group t (Z.ldiff flags ACTION_PENDING_COMPUTATION) (i32 v))))) as Hfin.
    { intros ps' v Hps'. apply post_Ok. split; [done|]. cbn [snd]. split; [split|].
      - apply i32_range.
      - by rewrite clear_pending.
      - split; [done | apply clear_pending]. }
    destruct (pc_computed pc); [by apply Hfin|].
    apply post_bind; [intros f Hf'; split; [done | by eapply resolve_group_faults]|]. intros [[v| |] b] _; cbn [fst]; try (by apply Hfin); [|done].
    apply Hfin. by apply pending_set_inv.
  - apply post_Ok. split; [done|]. cbn [snd]. destruct Hact as [H1 H2]. destruct (_ || _); by split.
Qed.

Lemma pending_key_ok nls ps k :
  pendings_inv ps -> ckey_ok nls n k ->
  post (failure n) (fun r => pendings_inv r.1 /\ ckey_ok nls n r.2 /\
      ky_groups r.2 = ky_groups k /\ ky_keycode r.2 = ky_keycode k /\ ky_modmap r.2 = ky_modmap k)
    (update_pending_key_fields gi ps k).
Proof using Hmax.
  intros Hps Hk. pose proof Hk as [Hg Hn Hm Hnum Hp]. unfold update_pending_key_fields.
  destruct (ky_pending_group k) eqn:Hpend; [|by apply post_Ok].
  apply (post_get_pending _ _ ps (ky_group_number k)); [done | specialize (Hp eq_refl); lia |]. intros Hn0 pc Hpc.
  assert (forall ps' v, pendings_inv ps' -> post (failure n)
    (fun r => pendings_inv r.1 /\ ckey_ok nls n r.2 /\
      ky_groups r.2 = ky_groups k /\ ky_keycode r.2 = ky_keycode k /\ ky_modmap r.2 = ky_modmap k)
    (Ok (Some (ps', ky_set_redirect false (u8 v) k)))) as Hfin.
  { intros ps' v Hps'. apply post_Ok. split; [done|]. split; [|done]. split; try done. cbn.
    apply Z.mod_pos_bound. lia. }
  destruct (pc_computed pc); [by apply Hfin|].
  apply post_bind; [intros f Hf'; split; [done | by eapply resolve_group_faults]|]. intros [[v| |] b] _; cbn [fst]; try (by apply Hfin).
  - apply Hfin. by apply pending_set_inv.
  - destruct (has_flag _ _); [|done]. by apply post_Ok.
Qed.
End pendings.

(** ** Categories of actions *)

Inductive action_category := CategoryMods | CategoryGroup | CategoryRedirect.

#[global] Instance action_category_eq_dec : EqDecision action_category.
Proof. solve_decision. Defined.

Definition action_kind (a : xkb_action) : option action_category :=
  match a with
  | act_mods _ _ _ => Some CategoryMods
  | act_group _ _ _ => Some CategoryGroup
  | act_redirect _ => Some CategoryRedirect
  | _ => None
  end.

Definition level_kinds (lv : xkb_level) : list action_category := omap action_kind (lv_actions lv).

(** All the levels of a key. *)
Definition key_all (P : xkb_level -> Prop) (k : key) : Prop :=
  Forall (fun g => Forall P (kg_levels g)) (ky_groups k).

Lemma same_kind_conflict a1 a2 c :
  action_kind a1 = Some c -> action_kind a2 = Some c -> actions_conflict a1 a2 = true.
Proof.
  destruct a1, a2; cbn [action_kind]; intros [= <-] [=]; unfold actions_conflict; cbn [is_mod_action is_group_action is_redirect_action orb andb];
    rewrite ?orb_true_r; reflexivity.
Qed.

Lemma check_actions_kinds m : forall acts c,
  c ∈ omap action_kind (check_actions m acts) -> c ∈ omap action_kind acts.
Proof.
  induction m as [|m IH]; intros [|a acts] c; cbn [check_actions]; try done.
  rewrite !list_elem_of_omap. intros (x & Hx & Hc). apply elem_of_cons in Hx as [-> | Hx].
  { exists a. split; [constructor | done]. }
  assert (c ∈ omap action_kind (map (fun a2 => if actions_conflict a a2 then act_none else a2) acts)) as H
    by (apply IH, list_elem_of_omap; eauto).
  apply list_elem_of_omap in H as (y & (z & -> & Hz)%list_elem_of_fmap & Hy).
  destruct (actions_conflict a z); [done|]. exists z. split; [by constructor | done].
Qed.

Lemma check_actions_NoDup m : forall acts, (length acts <= m)%nat ->
  NoDup (omap action_kind (check_actions m acts)).
Proof.
  induction m as [|m IH]; intros [|a acts] Hl; cbn [length] in Hl; try lia; try apply NoDup_nil_2.
  cbn [check_actions]. set (rest := map _ acts).
  assert (NoDup (omap action_kind (check_actions m rest))) as Hnd by (apply IH; unfold rest; rewrite length_map; lia).
  cbn [omap list_omap]. destruct (action_kind a) as [c|] eqn:Ha; [|done].
  apply NoDup_cons_2; [|done]. intros Hc. apply check_actions_kinds in Hc.
  apply list_elem_of_omap in Hc as (y & (z & -> & _)%list_elem_of_fmap & Hy).
  destruct (actions_conflict a z) eqn:Hac; [done|]. by rewrite (same_kind_conflict a z c) in Hac.
Qed.

Lemma check_level_NoDup lv : NoDup (level_kinds (check_level lv)).
Proof.
  unfold check_level, level_kinds. destruct (Nat.leb_spec (length (lv_actions lv)) 1).
  - destruct (lv_actions lv) as [|a [|b l]]; cbn in *; [apply NoDup_nil_2 | | lia].
    destruct (action_kind a); [apply NoDup_singleton | apply NoDup_nil_2].
  - cbn. by apply check_actions_NoDup.
Qed.

(** ** Interpretations *)

Lemma group_num_levels_ok types n g :
  cgroup_ok (map t_num_levels types) n g -> group_num_levels types g = Ok (length (kg_levels g)).
Proof.
  intros [Ht _]. unfold group_num_levels. change (map ?f ?l) with (f <$> l) in Ht.
  rewrite list_lookup_fmap in Ht. destruct (types !! kg_type g) as [t|]; [|done]. injection Ht as ->.
  by rewrite Nat2Z.id.
Qed.

Lemma default_interpret_ok n : interp_ok n default_interpret.
Proof. split; [apply Forall_nil_2 | by left]. Qed.

Lemma mark_required_ok n interps found :
  Forall (interp_ok n) interps -> Forall (interp_ok n) (mark_required interps found).
Proof.
  unfold mark_required. revert interps. induction found as [|[i|] found IH]; intros interps Hi; cbn; [done| |by apply IH].
  apply IH. apply Forall_alter; [done|]. intros x _ [Ha Hv]. by split.
Qed.

Lemma interp_at_ok n interps o : Forall (interp_ok n) interps -> interp_ok n (interp_at interps o).
Proof.
  intros Hi. destruct o as [i|]; cbn; [|apply default_interpret_ok].
  destruct (interps !! i) as [x|] eqn:Hx; cbn; [|apply default_interpret_ok]. exact (Forall_lookup_1 _ _ _ _ Hi Hx).
Qed.

Lemma level_vmodmap_ok n first chosen : forall vmodmap,
  Forall (interp_ok n) chosen -> exists v, level_vmodmap first vmodmap chosen = Ok v.
Proof.
  induction chosen as [|i chosen IH]; intros vmodmap Hc; cbn; [by eexists|].
  apply Forall_cons_1 in Hc as [[_ Hv] Hc].
  destruct ((first || negb (si_level_one_only i)) && negb (si_virtual_mod i =? XKB_MOD_INVALID)) eqn:Hb; [|by apply IH].
  apply andb_true_iff in Hb as [_ Hb]. destruct Hv as [Hv|Hv]; [by rewrite Hv, Z.eqb_refl in Hb|].
  rewrite (proj2 (Z.ltb_lt _ _)) by lia. by apply IH.
Qed.

Section interprets.
Context (km : xkb_keymap) (types : list xkb_key_type) (n : nat).

Definition interp_state_ok (st : interp_state) : Prop := Forall (interp_ok n) (is_interprets st).

Lemma apply_level_ok E k group level st lv :
  interp_state_ok st -> lv_actions lv = [] ->
  post E (fun r => interp_state_ok r.1 /\ clevel_ok n r.2) (apply_interps_level km k group level st lv).
Proof.
  intros Hst Hlv. unfold apply_interps_level. rewrite Hlv. cbn [length Nat.eqb asserting].
  destruct (FindInterpForKey _ _ _ _ _) as [found|]; cbn zeta.
  2:{ apply post_Ok. split; [done|]. unfold clevel_ok. cbn. rewrite Hlv. apply Forall_nil_2. }
  assert (Forall (interp_ok n) (map (interp_at (is_interprets st)) found)) as Hc.
  { apply list.Forall_forall. intros x (o & -> & _)%list_elem_of_fmap. by apply interp_at_ok. }
  destruct (level_vmodmap_ok n (Nat.eqb group 0 && Nat.eqb level 0) _ (is_vmodmap st) Hc) as [v ->].
  cbn [result_bind]. apply post_Ok. split; cbn.
  - by apply mark_required_ok.
  - unfold clevel_ok. cbn. apply Forall_take. clear -Hc.
    induction Hc as [|i l [Hi _] Hl IH]; [apply Forall_nil_2|]. cbn. by apply Forall_app_2.
Qed.

Lemma Forall2_length_eq {A B} (R : A -> B -> Prop) l l' : Forall2 R l l' -> length l' = length l.
Proof. induction 1; cbn; congruence. Qed.

Definition group_kept (g g' : key_group) : Prop :=
  cgroup_ok (map t_num_levels types) n g'.

Lemma group_set_ok g implicit ls :
  cgroup_ok (map t_num_levels types) n g -> length ls = length (kg_levels g) -> Forall (clevel_ok n) ls ->
  cgroup_ok (map t_num_levels types) n (kg_set_levels implicit ls g).
Proof. intros [Ht _] Hl Hls. split; cbn; [by rewrite Hl | done]. Qed.

Lemma apply_group_ok E k group st g :
  interp_state_ok st.1 -> cgroup_ok (map t_num_levels types) n g -> unset_group g ->
  post E (fun r => interp_state_ok r.1.1 /\ group_kept g r.2) (apply_interps_group km types k group st g).
Proof.
  intros Hst Hg Hu. destruct st as [st implicit]. unfold apply_interps_group.
  destruct (kg_explicit_actions g) eqn:He; [by apply post_Ok|].
  rewrite (group_num_levels_ok _ _ _ Hg). cbn [result_bind]. apply post_obind.
  eapply post_mono.
  - apply (post_traverse_upto E interp_state_ok (fun lv => lv_actions lv = []) (fun _ lv => clevel_ok n lv));
      [intros; by apply apply_level_ok | done | by apply Hu | done].
  - intros [st' ls] [Hst' Hls]. apply post_Ok. split; [done|].
    apply group_set_ok; [done | by apply Forall2_length_eq in Hls|].
    by apply (Forall2_right _ (kg_levels g)).
Qed.

Lemma apply_key_ok E interps k :
  Forall (interp_ok n) interps -> ckey_ok (map t_num_levels types) n k -> Forall unset_group (ky_groups k) ->
  post E (fun r => Forall (interp_ok n) r.1 /\ ckey_ok (map t_num_levels types) n r.2 /\
      ky_keycode r.2 = ky_keycode k /\ ky_modmap r.2 = ky_modmap k /\
      length (ky_groups r.2) = length (ky_groups k))
    (ApplyInterpsToKey km types interps k).
Proof.
  intros Hi Hk Hu. unfold ApplyInterpsToKey. apply post_obind. eapply post_mono.
  - apply (post_traverse_upto E (fun st => interp_state_ok st.1)
      (fun g => cgroup_ok (map t_num_levels types) n g /\ unset_group g) group_kept);
      [intros i s x Hs [Hx Hux]; by apply apply_group_ok | done | | done].
    apply Forall_lookup_2. intros i g Hg. split; [exact (Forall_lookup_1 _ _ _ _ (ck_groups _ _ _ Hk) Hg) | exact (Forall_lookup_1 _ _ _ _ Hu Hg)].
  - intros [[st' implicit] gs] [Hst' Hgs]. apply post_Ok. cbn. split; [done|].
    pose proof (Forall2_length_eq _ _ _ Hgs) as Hl. cbn in Hl. split; [|done].
    destruct Hk as [Hg Hn Hm Hnum Hp]. split; try done; cbn.
    + by apply (Forall2_right _ (ky_groups k)).
    + unfold ky_num_groups. cbn. by rewrite Hl.
Qed.

(** ** Conflicting actions *)

Lemma check_actions_ok m acts : Forall (caction_ok n) acts -> Forall (caction_ok n) (check_actions m acts).
Proof.
  revert acts. induction m as [|m IH]; intros [|a acts] Ha; cbn; try done.
  apply Forall_cons_1 in Ha as [Ha Hacts]. apply Forall_cons_2; [done|]. apply IH.
  apply list.Forall_forall. intros x (y & -> & Hy)%list_elem_of_fmap.
  rewrite list.Forall_forall in Hacts. case_match; [done | by apply Hacts].
Qed.

Lemma check_level_ok lv : clevel_ok n lv -> clevel_ok n (check_level lv) /\ NoDup (level_kinds (check_level lv)).
Proof.
  intros Hlv. split; [|apply check_level_NoDup]. unfold check_level. destruct (Nat.leb _ 1); [done|].
  unfold clevel_ok. cbn. by apply check_actions_ok.
Qed.

Lemma check_key_ok E k :
  ckey_ok (map t_num_levels types) n k ->
  post E (fun k' => ckey_ok (map t_num_levels types) n k' /\
      ky_keycode k' = ky_keycode k /\ ky_modmap k' = ky_modmap k /\
      length (ky_groups k') = length (ky_groups k) /\ key_all (fun lv => NoDup (level_kinds lv)) k')
    (CheckMultipleActionsCategories types k).
Proof.
  intros Hk. unfold CheckMultipleActionsCategories. apply post_obind. eapply post_mono.
  - apply (post_traverse E (fun _ => True) (cgroup_ok (map t_num_levels types) n)
      (fun _ g' => cgroup_ok (map t_num_levels types) n g' /\ Forall (fun lv => NoDup (level_kinds lv)) (kg_levels g')));
      [|done|apply Hk].
    intros s g _ Hg. rewrite (group_num_levels_ok _ _ _ Hg). cbn [result_bind]. apply post_obind.
    eapply post_mono.
    + apply (post_traverse_upto E (fun _ => True) (clevel_ok n)
        (fun _ lv => clevel_ok n lv /\ NoDup (level_kinds lv))); [|done|apply Hg|done].
      intros i s' lv _ Hlv. apply post_Ok. split; [done|]. by apply check_level_ok.
    + intros [s' ls] [_ Hls]. apply post_Ok. split; [done|]. cbn [snd kg_levels kg_set_levels].
      pose proof (Forall2_length_eq _ _ _ Hls) as Hl. apply Forall2_right in Hls. cbn in Hl, Hls.
      split; [apply group_set_ok; [done..|] |]; (eapply list.Forall_impl; [exact Hls | by intros ? []]).
  - intros [s' gs] [_ Hgs]. apply post_Ok. cbn. pose proof (Forall2_length_eq _ _ _ Hgs) as Hl. cbn in Hl.
    apply Forall2_right in Hgs. cbn in Hgs.
    destruct Hk as [Hg Hn Hm Hnum Hp]. split; [|split; [done|split; [done|split; [done|]]]].
    + split; try done; cbn; [eapply list.Forall_impl; [exact Hgs | by intros ? []]|]. unfold ky_num_groups. cbn. by rewrite Hl.
    + unfold key_all. cbn. eapply list.Forall_impl; [exact Hgs | by intros ? []].
Qed.
End interprets.
