(* ===== verification/DerivedSpec.v ===== *)
(** * What the end of the compilation gives

    [UpdateDerivedKeymapFields] ends, without undefined behaviour other than
    the two known ones, in a keymap that satisfies what the keyboard states
    assume of it; the masks of that keymap are the effective ones; no level
    has two actions of a category. *)

From Stdlib Require Import ZArith Lia String.
From stdpp Require Import base tactics list numbers.
From S2P Require Import Prelude Numbers Atom Keymap State Filters Safety Reach KeymapSpec KeysymName Expr ExprSpec Vmod VmodSpec KeyAliases Derived DerivedInv.

(** ** Loops over the keys *)

Lemma Forall2_refl_on {A} (R : A -> A -> Prop) l : Forall (fun x => R x x) l -> Forall2 R l l.
Proof. induction 1; constructor; done. Qed.

Lemma post_foreach_key {T} E (Inv : T -> Prop) (R : key -> key -> Prop) info f s :
  (forall s k, Inv s -> k ∈ ki_keys info -> post E (fun r => Inv r.1 /\ R k r.2) (f s k)) ->
  Inv s -> Forall (fun k => R k k) (take (keys_start (keymap_of info)) (ki_keys info)) ->
  post E (fun r => Inv r.1 /\ Forall2 R (ki_keys info) r.2) (foreach_key info f s).
Proof.
  intros Hf Hs Hh. unfold foreach_key. set (start := keys_start (keymap_of info)) in *. apply post_obind.
  eapply post_mono.
  - apply (post_traverse E Inv (fun k => k ∈ ki_keys info) R f); [exact Hf | done |].
    apply list.Forall_forall. intros k Hk. rewrite <- (take_drop start (ki_keys info)).
    apply elem_of_app. by right.
  - intros [s' l'] [Hs' Hl']. apply post_Ok. split; [done|]. cbn [snd] in *.
    rewrite <- (take_drop start (ki_keys info)) at 1. apply Forall2_app; [|done]. by apply Forall2_refl_on.
Qed.

(** A key after a step. *)
Record key_step (nls : list Z) (n : nat) (P : xkb_level -> Prop) (k k' : key) : Prop := {
  ks_ok : ckey_ok nls n k';
  ks_keycode : ky_keycode k' = ky_keycode k;
  ks_modmap : ky_modmap k' = ky_modmap k;
  ks_groups : length (ky_groups k') = length (ky_groups k);
  ks_levels : key_all P k'
}.

Lemma key_step_hidden nls n P k : ckey_ok nls n k -> ky_groups k = [] -> key_step nls n P k k.
Proof. intros Hk Hg. split; try done. unfold key_all. rewrite Hg. apply Forall_nil_2. Qed.

Lemma Forall2_map_eq {A B C} (f : A -> C) (g : B -> C) (R : A -> B -> Prop) l l' :
  (forall x y, R x y -> g y = f x) -> Forall2 R l l' -> map g l' = map f l.
Proof. intros H. induction 1; cbn; f_equal; auto. Qed.

Lemma hidden_refl n P info : info_ok n info ->
  Forall (fun k => key_step (num_levels_of info) n P k k) (take (keys_start (keymap_of info)) (ki_keys info)).
Proof.
  intros Hi. apply Forall_lookup_2. intros i k Hk. apply key_step_hidden.
  - apply lookup_take_Some in Hk as [Hk _]. exact (Forall_lookup_1 _ _ _ _ (io_keys _ _ Hi) Hk).
  - exact (Forall_lookup_1 _ _ _ _ (io_hidden _ _ Hi) Hk).
Qed.

(** The keys of the keymap, replaced. *)
Lemma set_keys_ok n P info ps keys :
  info_ok n info -> Forall2 (key_step (num_levels_of info) n P) (ki_keys info) keys ->
  length ps = n /\ Forall (pending_ok (ki_ctx info)) ps ->
  info_ok n (ki_set_keys ps keys info) /\ Forall (key_all P) keys.
Proof.
  intros [] Hk Hps. split.
  - split; try done; cbn.
    + eapply (Forall2_Forall_r _ (fun _ => True)); [|by apply Forall_true | exact Hk]. by intros x y _ [].
    + change (keys_start (keymap_of (ki_set_keys ps keys info))) with (keys_start (keymap_of info)).
      apply Forall_lookup_2. intros i k' [Hi Hlt]%lookup_take_Some.
      destruct (Forall2_lookup_r _ _ _ _ _ Hk Hi) as (k & Hki & [_ _ _ Hl _]).
      assert (ky_groups k = []) as Hg.
      { apply (Forall_lookup_1 _ _ i k io_hidden). by apply lookup_take_Some. }
      rewrite Hg in Hl. by apply length_zero_iff_nil in Hl.
    + rewrite (Forall2_map_eq ky_keycode ky_keycode _ _ _ (fun x y H => ks_keycode _ _ _ _ _ H) Hk). done.
  - eapply (Forall2_Forall_r _ (fun _ => True)); [|by apply Forall_true | exact Hk]. by intros x y _ [].
Qed.

(** ** The parts *)

Section parts.
Context (n : nat).

Lemma derive_num_groups_ok info : info_ok n info -> info_ok n (derive_num_groups info).
Proof.
  intros []. split; try done. cbn. unfold visited_keys.
  assert (Forall (fun k => ky_num_groups k <= XKB_MAX_GROUPS) (drop (keys_start (keymap_of info)) (ki_keys info))) as H.
  { apply Forall_drop. eapply list.Forall_impl; [exact io_keys|]. by intros k []. }
  revert io_num_groups. generalize (ki_num_groups info). induction H as [|k ks Hk _ IH]; intros g Hg; [done|].
  cbn. apply IH. unfold ky_num_groups in *. lia.
Qed.

Lemma pending_interprets_ok info : info_ok n info ->
  post (failure n) (fun info' => info_ok n info' /\ ki_keys info' = ki_keys info /\
      ki_mods info' = ki_mods info /\ ki_format info' = ki_format info /\
      ki_canonical_state_mask info' = ki_canonical_state_mask info /\ ki_types info' = ki_types info)
    (derive_pending_interprets info).
Proof.
  intros Hi. unfold derive_pending_interprets. destruct (has_pendings info); [|by apply post_Ok].
  set (g := if ki_num_groups info =? 0 then 1 else ki_num_groups info). cbn zeta.
  set (info1 := ki_set_last (Some g) (Some (u32 (bit (g - 1)))) info).
  apply post_obind. eapply post_mono.
  - apply (post_traverse (failure n) (pendings_inv (ki_group_info info1) n) (interp_ok n) (fun _ i => interp_ok n i));
      [|apply (io_pendings _ _ Hi)|apply (io_interprets _ _ Hi)].
    intros ps i Hps [Ha Hv]. apply post_obind. eapply post_mono.
    + apply (post_traverse (failure n) (pendings_inv (ki_group_info info1) n) (caction_ok n) (action_kept n));
        [|done|exact Ha].
      intros ps' a Hps' Ha'. apply pending_action_ok; [apply (io_max_groups _ _ Hi) | done..].
    + intros [ps' acts] [Hps' Hacts]. apply post_Ok. split; [done|]. cbn [snd] in *. split; [|done]. cbn.
      eapply (Forall2_Forall_r _ (fun _ => True)); [|by apply Forall_true | exact Hacts]. by intros x y _ [].
  - intros [ps interps] [Hps Hint]. apply post_Ok. split; [|done].
    apply Forall2_right in Hint. destruct Hi. by split.
Qed.

Lemma interprets_ok info : info_ok n info -> Forall (fun k => Forall unset_group (ky_groups k)) (ki_keys info) ->
  post (failure n) (fun info' => info_ok n info' /\
      Forall (key_all (fun lv => NoDup (level_kinds lv))) (ki_keys info') /\
      ki_mods info' = ki_mods info /\ ki_format info' = ki_format info /\
      ki_canonical_state_mask info' = ki_canonical_state_mask info)
    (derive_interprets info).
Proof.
  intros Hi Hu. unfold derive_interprets. apply post_obind. eapply post_mono.
  - apply (post_foreach_key (failure n) (Forall (interp_ok n))
      (key_step (num_levels_of info) n (fun lv => NoDup (level_kinds lv)))).
    2:{ apply (io_interprets _ _ Hi). }
    2:{ by apply hidden_refl. }
    intros interps k Hint Hk. rewrite list_elem_of_lookup in Hk. destruct Hk as [i Hk].
    pose proof (Forall_lookup_1 _ _ _ _ (io_keys _ _ Hi) Hk) as Hck.
    pose proof (Forall_lookup_1 _ _ _ _ Hu Hk) as Huk. cbn in Huk.
    apply post_obind. eapply post_mono; [by apply (apply_key_ok _ _ n)|].
    intros [interps' k'] (Hint' & Hk' & Hkc & Hmm & Hl). cbn [fst snd] in *.
    apply post_obind. eapply post_mono; [by apply (check_key_ok _ n)|].
    intros k'' (Hk'' & Hkc' & Hmm' & Hl' & Hnd). apply post_Ok. split; [done|]. cbn [snd].
    split; [done | congruence..| done].
  - intros [interps keys] [Hint Hkeys]. apply post_Ok. cbn [fst snd] in *.
    destruct (set_keys_ok n _ info (ki_pendings info) keys Hi Hkeys (io_pendings _ _ Hi)) as [[] Hall].
    split; [by split|]. done.
Qed.

(** Mappings. *)
Lemma map_vmods_ok f s : mods_ok s ->
  (forall i m, is_u32 (mod_mapping m) -> (i < 32)%nat -> is_u32 (mod_mapping (f i m))) -> mods_ok (map_vmods f s).
Proof.
  intros [Hl Hn Hm] Hf. split; cbn; [by rewrite length_imap | done |].
  apply Forall_lookup_2. intros i m. rewrite list_lookup_imap. destruct (ms_mods s !! i) as [m0|] eqn:Hi; [|done].
  intros [= <-]. pose proof (Forall_lookup_1 _ _ _ _ Hm Hi) as H0. cbn in H0.
  apply lookup_lt_Some in Hi. rewrite Hl in Hi. destruct (_ && _); [by apply Hf | done].
Qed.

Lemma add_modmap_ok s k : mods_ok s -> is_u32 (ky_modmap k) -> mods_ok (add_modmap s k).
Proof.
  intros Hs Hk. apply map_vmods_ok; [done|]. intros i m Hm _. destruct (has_flag _ _); [|done].
  cbn. by apply is_u32_lor.
Qed.

Lemma canonical_vmods_ok s : mods_ok s -> mods_ok (canonical_vmods s).
Proof.
  intros Hs. assert (mods_ok (map_vmods (fun idx m => if is_canonical s idx m then mod_set_mapping m (bit (Z.of_nat idx)) else m) s)) as [].
  { apply map_vmods_ok; [done|]. intros i m Hm Hi. destruct (is_canonical s i m); [|done]. cbn. apply is_u32_bit. lia. }
  by split.
Qed.

Lemma set_mods_ok s info : info_ok n info -> mods_ok s -> info_ok n (ki_set_mods s info).
Proof. intros [] Hs. by split. Qed.

Lemma derive_vmods_ok info : info_ok n info -> info_ok n (derive_vmods info).
Proof.
  intros Hi. unfold derive_vmods. apply set_mods_ok; [done|].
  assert (mods_ok (foldl add_modmap (ki_mods info) (visited_keys info))) as H.
  { assert (Forall (fun k => is_u32 (ky_modmap k)) (visited_keys info)) as Hm.
    { apply Forall_drop. eapply list.Forall_impl; [apply (io_keys _ _ Hi)|]. by intros k []. }
    pose proof (io_mods _ _ Hi) as Hs. revert Hs. generalize (ki_mods info).
    induction Hm as [|k ks Hk _ IH]; intros s Hs; cbn; [done|]. apply IH. by apply add_modmap_ok. }
  destruct (_ >=? _); [by apply canonical_vmods_ok | done].
Qed.

Lemma ms_enum_u32 s : mods_ok s -> Forall (fun m => is_u32 (mod_mapping m)) (ms_enum s).
Proof. intros Hs. apply Forall_take, Hs. Qed.

Lemma extra_canonical_u32 s : mods_ok s -> is_u32 (extra_canonical_mods s).
Proof.
  intros Hs. unfold extra_canonical_mods.
  assert (Forall (fun im => is_u32 (mod_mapping im.2)) (vmods_from s)) as H.
  { apply list.Forall_forall. intros [i m] [_ Hm]%list_elem_of_filter.
    apply list_elem_of_lookup in Hm as [j Hj]. rewrite list_lookup_imap in Hj.
    destruct (ms_enum s !! j) as [m'|] eqn:Hm'; [|done]. injection Hj as <- <-.
    exact (Forall_lookup_1 _ _ _ _ (ms_enum_u32 s Hs) Hm'). }
  generalize is_u32_0. generalize 0. induction H as [|[i m] l Hm _ IH]; intros z Hz; cbn; [done|].
  apply IH. by apply is_u32_lor.
Qed.

Lemma derive_canonical_ok E info : info_ok n info -> ki_canonical_state_mask info = MOD_REAL_MASK_ALL ->
  post E (fun info' => info_ok n info' /\ ki_keys info' = ki_keys info /\ ki_mods info' = ki_mods info)
    (derive_canonical info).
Proof.
  intros Hi Hc. unfold derive_canonical. rewrite Hc, Z.eqb_refl. cbn [asserting]. apply post_Ok.
  split; [|done]. pose proof (extra_canonical_u32 _ (io_mods _ _ Hi)). destruct Hi. split; try done. cbn.
  apply is_u32_lor; [by apply is_u32_check | done].
Qed.

Lemma derive_types_ok info : info_ok n info -> info_ok n (derive_types info).
Proof.
  intros Hi. assert (num_levels_of (derive_types info) = num_levels_of info) as Hn.
  { unfold num_levels_of, derive_types. cbn. rewrite map_map. by apply map_ext. }
  destruct Hi. split; try done.
  - by rewrite Hn.
  - cbn. apply list.Forall_forall. intros t (t0 & -> & Ht)%list_elem_of_fmap.
    rewrite list.Forall_forall in io_types. destruct (io_types t0 Ht) as [He Hl]. split; [|done]. cbn.
    apply list.Forall_forall. intros e (e0 & -> & He0)%list_elem_of_fmap.
    rewrite list.Forall_forall in He. specialize (He e0 He0). unfold update_type_entry. by case_match.
Qed.
End parts.

(** ** Masks *)

Section masks.
Context (km : xkb_keymap).

Definition mask_ok (m : xkb_mods) : Prop := m_mask m = m_mask (ComputeEffectiveMask km m).

(** An entry with a virtual modifier that has no mapping is inactive. *)
Definition entry_masks_ok (e : xkb_key_type_entry) : Prop :=
  if has_unbound_vmods (km_mods km) (m_mods (e_mods e)) then m_mask (e_mods e) = 0
  else mask_ok (e_mods e) /\ mask_ok (e_preserve e).

Definition type_masks_ok (t : xkb_key_type) : Prop :=
  mask_ok (t_mods t) /\ Forall entry_masks_ok (t_entries t).

Definition action_mask_ok (a : xkb_action) : Prop :=
  match a with act_mods _ _ m => mask_ok m | _ => True end.

Definition level_masks_ok (lv : xkb_level) : Prop := Forall action_mask_ok (lv_actions lv).

Lemma ComputeEffectiveMask_ok m : mask_ok (ComputeEffectiveMask km m).
Proof. done. Qed.

Lemma update_type_masks t : type_masks_ok (update_type km t).
Proof.
  split; [done|]. cbn. apply list.Forall_forall. intros e (e0 & -> & _)%list_elem_of_fmap.
  unfold update_type_entry, entry_masks_ok.
  destruct (has_unbound_vmods (km_mods km) (m_mods (e_mods e0))) eqn:Hu; cbn; by rewrite Hu.
Qed.

Lemma UpdateActionMods_ok n modmap a : caction_ok n a ->
  caction_ok n (UpdateActionMods km modmap a) /\ action_mask_ok (UpdateActionMods km modmap a) /\
  action_kind (UpdateActionMods km modmap a) = action_kind a.
Proof. by destruct a. Qed.
End masks.

(** The masks depend on the modifiers only. *)
Lemma type_masks_ext km km' t : km_mods km = km_mods km' -> type_masks_ok km t -> type_masks_ok km' t.
Proof.
  intros H [Ht He]. unfold type_masks_ok, mask_ok in *. rewrite <- (ComputeEffectiveMask_ext km km') by done.
  split; [done|]. eapply list.Forall_impl; [exact He|]. intros e. unfold entry_masks_ok, mask_ok. rewrite <- H.
  by rewrite <- !(ComputeEffectiveMask_ext km km').
Qed.

Lemma level_masks_ext km km' lv : km_mods km = km_mods km' -> level_masks_ok km lv -> level_masks_ok km' lv.
Proof.
  intros H Hl. eapply list.Forall_impl; [exact Hl|]. intros a. destruct a; cbn; try done. unfold mask_ok.
  by rewrite <- (ComputeEffectiveMask_ext km km').
Qed.

(** ** The actions of the keys *)

Section actions.
Context (n : nat) (info : keymap_info) (pending_computations : bool).
Hypothesis Hinfo : info_ok n info.

Definition final_level (lv : xkb_level) : Prop :=
  NoDup (level_kinds lv) /\ level_masks_ok (keymap_of info) lv.

Lemma update_key_action_ok k ps a :
  pendings_inv (ki_group_info info) n ps -> caction_ok n a ->
  post (failure n) (fun r => pendings_inv (ki_group_info info) n r.1 /\
      caction_ok n r.2 /\ action_mask_ok (keymap_of info) r.2 /\ action_kind r.2 = action_kind a)
    (update_key_action info pending_computations k ps a).
Proof using Hinfo.
  intros Hps Ha. unfold update_key_action.
  destruct (UpdateActionMods_ok (keymap_of info) n (ky_modmap k) a Ha) as (H1 & H2 & H3).
  set (a' := UpdateActionMods _ _ _) in *. destruct (_ || _); [|by apply post_Ok].
  eapply post_mono; [by apply pending_action_ok; [apply (io_max_groups _ _ Hinfo) | ..]|].
  intros [ps' a''] [Hps' [Hk1 Hk2]]. cbn [fst snd] in *. split; [done|]. split; [done|].
  rewrite <- H3. destruct a', a''; try (injection Hk2; intros; subst); try done; cbn in *; naive_solver.
Qed.

Lemma update_level_ok k ps lv :
  pendings_inv (ki_group_info info) n ps -> clevel_ok n lv -> NoDup (level_kinds lv) ->
  post (failure n) (fun r => pendings_inv (ki_group_info info) n r.1 /\ clevel_ok n r.2 /\ final_level r.2)
    (let! r := traverse (update_key_action info pending_computations k) ps (lv_actions lv) in
     Ok (Some (fst r, lv_set_actions (snd r) lv))).
Proof using Hinfo.
  intros Hps Hlv Hnd. apply post_obind. eapply post_mono.
  - apply (post_traverse (failure n) (pendings_inv (ki_group_info info) n) (caction_ok n)
      (fun a a' => caction_ok n a' /\ action_mask_ok (keymap_of info) a' /\ action_kind a' = action_kind a));
      [|done|exact Hlv].
    intros ps' a Hps' Ha. by apply update_key_action_ok.
  - intros [ps' acts] [Hps' Hacts]. apply post_Ok. cbn [fst snd] in *. split; [done|].
    unfold clevel_ok, final_level, level_masks_ok, level_kinds in *. cbn [lv_actions lv_set_actions].
    assert (omap action_kind acts = omap action_kind (lv_actions lv)) as Hk.
    { clear -Hacts. induction Hacts as [|a a' l l' (_ & _ & H) _ IH]; [done|]. cbn. rewrite H, IH. done. }
    rewrite Hk. split; [|split; [done|]].
    + eapply (Forall2_Forall_r _ (fun _ => True)); [|by apply Forall_true | exact Hacts]. by intros x y _ (? & ? & ?).
    + eapply (Forall2_Forall_r _ (fun _ => True)); [|by apply Forall_true | exact Hacts]. by intros x y _ (? & ? & ?).
Qed.

Lemma update_key_ok k ps :
  pendings_inv (ki_group_info info) n ps -> ckey_ok (num_levels_of info) n k ->
  key_all (fun lv => NoDup (level_kinds lv)) k ->
  post (failure n) (fun r => pendings_inv (ki_group_info info) n r.1 /\
      key_step (num_levels_of info) n final_level k r.2)
    (update_key_actions info pending_computations ps k).
Proof using Hinfo.
  intros Hps Hk Hnd. unfold update_key_actions. apply post_obind.
  eapply post_mono; [apply (pending_key_ok (ki_group_info info) n (io_max_groups _ _ Hinfo) (num_levels_of info)); done|].
  intros [ps1 k1] (Hps1 & Hk1 & Hg1 & Hkc & Hmm). cbn [fst snd] in *. apply post_obind. eapply post_mono.
  - apply (post_traverse (failure n) (pendings_inv (ki_group_info info) n)
      (fun g => cgroup_ok (num_levels_of info) n g /\ Forall (fun lv => NoDup (level_kinds lv)) (kg_levels g))
      (fun _ g' => cgroup_ok (num_levels_of info) n g' /\ Forall final_level (kg_levels g'))); [|done|].
    + intros ps2 g Hps2 [Hg Hgn]. unfold num_levels_of in Hg. rewrite (group_num_levels_ok _ _ _ Hg). cbn [result_bind].
      apply post_obind. eapply post_mono.
      * apply (post_traverse_upto (failure n) (pendings_inv (ki_group_info info) n)
          (fun lv => clevel_ok n lv /\ NoDup (level_kinds lv)) (fun _ lv => clevel_ok n lv /\ final_level lv)); [|done| |done].
        -- intros i ps3 lv Hps3 [Hlv Hlvn]. by apply update_level_ok.
        -- apply Forall_lookup_2. intros i lv Hi.
           split; [exact (Forall_lookup_1 _ _ _ _ (cg_levels _ _ _ Hg) Hi) | exact (Forall_lookup_1 _ _ _ _ Hgn Hi)].
      * intros [ps3 ls] [Hps3 Hls]. apply post_Ok. split; [done|]. cbn [fst snd kg_levels kg_set_levels] in *.
        pose proof (Forall2_length_eq _ _ _ Hls) as Hl. apply Forall2_right in Hls.
        split; [apply group_set_ok; [done..|] |]; (eapply list.Forall_impl; [exact Hls | by intros ? []]).
    + apply Forall_lookup_2. intros i g Hi. rewrite Hg1 in Hi.
      split; [exact (Forall_lookup_1 _ _ _ _ (ck_groups _ _ _ Hk) Hi) | exact (Forall_lookup_1 _ _ _ _ Hnd Hi)].
  - intros [ps2 gs] [Hps2 Hgs]. apply post_Ok. split; [done|]. cbn [fst snd] in *.
    pose proof (Forall2_length_eq _ _ _ Hgs) as Hl. apply Forall2_right in Hgs. rewrite Hg1 in Hl.
    destruct Hk1 as [Hkg Hkn Hkm Hkr Hkp]. split; try done.
    + split; try done; cbn; [eapply list.Forall_impl; [exact Hgs | by intros ? []]|].
      unfold ky_num_groups. cbn. rewrite Hl. apply (ck_num_groups _ _ _ Hk).
    + unfold key_all. cbn. eapply list.Forall_impl; [exact Hgs | by intros ? []].
Qed.
End actions.

Lemma derive_actions_ok n b info : info_ok n info ->
  Forall (key_all (fun lv => NoDup (level_kinds lv))) (ki_keys info) ->
  post (failure n) (fun info' => info_ok n info' /\ Forall (key_all (final_level info)) (ki_keys info') /\
      ki_mods info' = ki_mods info /\ ki_types info' = ki_types info)
    (derive_actions b info).
Proof.
  intros Hi Hnd. unfold derive_actions. apply post_obind. eapply post_mono.
  - apply (post_foreach_key (failure n) (pendings_inv (ki_group_info info) n)
      (key_step (num_levels_of info) n (final_level info))); [|apply (io_pendings _ _ Hi)|by apply hidden_refl].
    intros ps k Hps [i Hk]%list_elem_of_lookup. apply update_key_ok; try done.
    + exact (Forall_lookup_1 _ _ _ _ (io_keys _ _ Hi) Hk).
    + exact (Forall_lookup_1 _ _ _ _ Hnd Hk).
  - intros [ps keys] [Hps Hkeys]. apply post_Ok. cbn [fst snd] in *.
    destruct (set_keys_ok n _ info ps keys Hi Hkeys Hps). done.
Qed.

Definition led_masks_ok (km : xkb_keymap) (l : xkb_led) : Prop := mask_ok km (led_mods l).

Lemma update_led_ok n b info ps l : info_ok n info ->
  pendings_inv (ki_group_info info) n ps -> (ld_pending_groups l = true -> 0 <= led_groups (ld_led l) < Z.of_nat n) ->
  post (failure n) (fun r => pendings_inv (ki_group_info info) n r.1 /\
      led_masks_ok (keymap_of info) (ld_led r.2) /\
      (ld_pending_groups r.2 = true -> 0 <= led_groups (ld_led r.2) < Z.of_nat n))
    (update_led info b ps l).
Proof.
  intros Hi Hps Hl. unfold update_led. destruct b; [|by apply post_Ok].
  unfold update_pending_led_fields. cbn [ld_pending_groups ld_led]. destruct (ld_pending_groups l) eqn:Hp.
  2:{ apply post_Ok. split; [done|]. split; [done|]. done. }
  apply (post_get_pending (ki_group_info info) n _ _ ps); [done | by apply Hl |]. intros Hn0 pc Hpc.
  destruct (pc_computed pc); [by apply post_Ok|].
  apply post_bind; [intros f Hf; split; [done|]; eapply resolve_group_mask_faults; [exact Hpc | apply (io_max_groups _ _ Hi) | exact Hf]|].
  intros [v| |] _; try done. apply post_Ok. split; [|done]. by apply pending_set_inv.
Qed.

Lemma derive_leds_ok n b info : info_ok n info ->
  post (failure n) (fun info' => info_ok n info' /\ Forall (led_masks_ok (keymap_of info)) (map ld_led (ki_leds info')) /\
      ki_mods info' = ki_mods info /\ ki_types info' = ki_types info /\ ki_keys info' = ki_keys info)
    (derive_leds b info).
Proof.
  intros Hi. unfold derive_leds. apply post_obind. eapply post_mono.
  - apply (post_traverse (failure n) (pendings_inv (ki_group_info info) n)
      (fun l => ld_pending_groups l = true -> 0 <= led_groups (ld_led l) < Z.of_nat n)
      (fun _ l => led_masks_ok (keymap_of info) (ld_led l) /\
                  (ld_pending_groups l = true -> 0 <= led_groups (ld_led l) < Z.of_nat n)));
      [|apply (io_pendings _ _ Hi)|apply (io_led_pending _ _ Hi)].
    intros ps l Hps Hl. by apply update_led_ok.
  - intros [ps ls] [Hps Hls]. apply post_Ok. cbn [fst snd] in *. pose proof (Forall2_length_eq _ _ _ Hls) as Hlen.
    apply Forall2_right in Hls. split; [|split; [|done]].
    + destruct Hi. split; try done; cbn; [by rewrite Hlen | eapply list.Forall_impl; [exact Hls | by intros ? []]].
    + cbn. apply list.Forall_forall. intros x (l & -> & Hl)%list_elem_of_fmap.
      rewrite list.Forall_forall in Hls. by apply Hls.
Qed.

(** ** The keymap that results *)

Record derived_keymap (info : keymap_info) : Prop := {
  dk_ok : keymap_ok (keymap_of info);
  dk_types : Forall (type_masks_ok (keymap_of info)) (ki_types info);
  dk_levels : Forall (key_all (level_masks_ok (keymap_of info))) (ki_keys info);
  dk_leds : Forall (led_masks_ok (keymap_of info)) (km_leds (keymap_of info));
  dk_kinds : Forall (key_all (fun lv => NoDup (level_kinds lv))) (ki_keys info)
}.

Lemma action_ok_of km n a : Forall (fun m => is_u32 (mod_mapping m)) (km_mods km) ->
  caction_ok n a -> action_mask_ok km a -> action_ok a.
Proof.
  intros Hm Ha Hk. destruct a; cbn in *; try done.
  - rewrite Hk. by apply ComputeEffectiveMask_u32.
  - apply Ha.
Qed.

Lemma lookup_key_of types keys i k' :
  map (key_of types) keys !! i = Some k' -> exists k, keys !! i = Some k /\ k' = key_of types k.
Proof.
  change (map ?f ?l) with (f <$> l). rewrite list_lookup_fmap. destruct (keys !! i); [|done].
  intros [= <-]. eauto.
Qed.

Lemma group_of_wf types n g : Forall key_type_wf types -> cgroup_ok (map t_num_levels types) n g ->
  group_wf (group_of types g).
Proof.
  intros Ht [Hg _]. change (map ?f ?l) with (f <$> l) in Hg. rewrite list_lookup_fmap in Hg.
  unfold group_of. destruct (types !! kg_type g) as [t|] eqn:Htt; [|done]. injection Hg as Hg. cbn.
  split; [exact (Forall_lookup_1 _ _ _ _ Ht Htt) | by cbn].
Qed.

Lemma keymap_of_wf n info : info_ok n info -> keymap_wf (keymap_of info).
Proof.
  intros []. destruct io_layout. rewrite length_map in ly_low_le.
  assert (forall i k', km_keys (keymap_of info) !! i = Some k' ->
    map ky_keycode (ki_keys info) !! i = Some (k_keycode k')) as Hkc.
  { intros i k' (k & Hk & ->)%lookup_key_of. change (map ?f ?l) with (f <$> l). by rewrite list_lookup_fmap, Hk. }
  split.
  - apply list.Forall_forall. intros k' (k & -> & Hk)%list_elem_of_fmap.
    rewrite list.Forall_forall in io_keys. destruct (io_keys k Hk). split; cbn.
    + apply list.Forall_forall. intros g' (g & -> & Hg)%list_elem_of_fmap.
      rewrite list.Forall_forall in ck_groups. by apply (group_of_wf _ n), ck_groups.
    + unfold k_num_groups, key_of. cbn [k_groups]. by rewrite length_map.
    + done.
  - done.
  - cbn. unfold km_num_keys. cbn. by rewrite length_map.
  - intros i k Hk Hi Hm. apply (ly_low i); [by apply Hkc | done..].
  - intros i j k k' Hi Hj. apply ly_high; by apply Hkc.
  - intros i k Hi. apply ly_high_range, Hkc, Hi.
  - done.
  - cbn. unfold ms_enum. rewrite length_take. destruct io_mods. lia.
  - by apply ms_enum_u32.
  - done.
  - cbn. by rewrite length_map.
Qed.

Lemma keymap_of_ok n info : info_ok n info ->
  Forall (key_all (level_masks_ok (keymap_of info))) (ki_keys info) -> keymap_ok (keymap_of info).
Proof.
  intros Hi Hm. split; [by apply (keymap_of_wf n)|]. cbn.
  apply list.Forall_forall. intros k' (k & -> & Hk)%list_elem_of_fmap.
  pose proof (io_keys _ _ Hi) as Hkeys. rewrite list.Forall_forall in Hkeys, Hm.
  pose proof (ck_groups _ _ _ (Hkeys k Hk)) as Hg. specialize (Hm k Hk).
  unfold key_ok. cbn. apply list.Forall_forall. intros g' (g & -> & Hgk)%list_elem_of_fmap. cbn.
  apply Forall_lookup_2. intros j lv Hj. apply list_elem_of_lookup in Hgk as [gi Hgi].
  pose proof (Forall_lookup_1 _ _ _ _ Hg Hgi) as [_ Hlv]. pose proof (Forall_lookup_1 _ _ _ _ Hm Hgi) as Hmg. cbn in Hmg.
  pose proof (Forall_lookup_1 _ _ _ _ Hlv Hj) as Hc. pose proof (Forall_lookup_1 _ _ _ _ Hmg Hj) as Hma.
  apply Forall_lookup_2. intros a act Ha.
  apply (action_ok_of (keymap_of info) n); [apply (ms_enum_u32 _ (io_mods _ _ Hi)) | |].
  - exact (Forall_lookup_1 _ _ _ _ Hc Ha).
  - exact (Forall_lookup_1 _ _ _ _ Hma Ha).
Qed.

(** The ways to fail: a pending computation that is in error, or that overflows
    in a negation or a division of [int64_t]; and the [memcpy] of the aliases. *)
Definition derived_failure (info : keymap_info) (o : option fault) : Prop :=
  failure (length (ki_pendings info)) o \/
  (o = Some FaultOverlap /\ overlapping_move (ki_key_names info) = true).

Lemma post_weaken {A} (E E' : option fault -> Prop) (Q : A -> Prop) r :
  (forall f, E f -> E' f) -> post E Q r -> post E' Q r.
Proof. intros H. destruct r as [[a|]|]; cbn; auto. Qed.

Lemma failure_derived info o : failure (length (ki_pendings info)) o -> derived_failure info o.
Proof. by left. Qed.

Lemma update_derived_keymap info :
  compiled info -> post (derived_failure info) derived_keymap (UpdateDerivedKeymapFields info).
Proof.
  intros [Hi Hv Hu Hc]. set (n := length (ki_pendings info)) in *. unfold UpdateDerivedKeymapFields, derive_aliases.
  apply post_obind, post_bind.
  { intros f. rewrite update_key_aliases_spec. destruct (overlapping_move _) eqn:Ho; [|done]. intros [= <-]. by right. }
  intros aliases _. apply post_Ok. set (info1 := ki_set_key_aliases aliases info).
  assert (info_ok n info1) as Hi1 by (destruct Hi; by split). cbn zeta.
  pose proof (derive_num_groups_ok n info1 Hi1) as Hi2. set (info2 := derive_num_groups info1) in *.
  apply post_obind, (post_weaken (failure n)); [apply failure_derived|].
  eapply post_mono; [by apply (pending_interprets_ok n)|]. intros info3 (Hi3 & Hk3 & Hm3 & Hf3 & Hc3 & Ht3).
  apply (post_weaken (failure n)); [apply failure_derived|].
  apply post_obind. eapply post_mono; [apply (interprets_ok n info3 Hi3); by rewrite Hk3|].
  intros info4 (Hi4 & Hnd4 & Hm4 & Hf4 & Hc4).
  pose proof (derive_vmods_ok n info4 Hi4) as Hi5. set (info5 := derive_vmods info4) in *.
  assert (ki_keys info5 = ki_keys info4) as Hk5 by done.
  apply post_obind. eapply post_mono.
  { apply (derive_canonical_ok n _ info5 Hi5). change (ki_canonical_state_mask info4 = MOD_REAL_MASK_ALL).
    by rewrite Hc4, Hc3. }
  intros info6 (Hi6 & Hk6 & Hm6). pose proof (derive_types_ok n info6 Hi6) as Hi7.
  assert (Forall (type_masks_ok (keymap_of info6)) (ki_types (derive_types info6))) as Ht7.
  { cbn. apply list.Forall_forall. intros t (t0 & -> & _)%list_elem_of_fmap. apply update_type_masks. }
  set (info7 := derive_types info6) in *.
  apply post_obind. eapply post_mono.
  { apply (derive_actions_ok n _ info7 Hi7). change (ki_keys info7) with (ki_keys info6). by rewrite Hk6, Hk5. }
  intros info8 (Hi8 & Hl8 & Hm8 & Ht8). eapply post_mono; [by apply (derive_leds_ok n)|].
  intros info9 (Hi9 & Hl9 & Hm9 & Ht9 & Hk9).
  assert (km_mods (keymap_of info9) = km_mods (keymap_of info8)) as H98 by (cbn; by rewrite Hm9).
  assert (km_mods (keymap_of info8) = km_mods (keymap_of info7)) as H87 by (cbn; by rewrite Hm8).
  assert (Forall (key_all (level_masks_ok (keymap_of info9))) (ki_keys info9)) as Hlev.
  { rewrite Hk9. eapply list.Forall_impl; [exact Hl8|]. intros k Hk. eapply list.Forall_impl; [exact Hk|].
    intros g Hg. eapply list.Forall_impl; [exact Hg|]. intros lv [_ Hlv].
    apply (level_masks_ext (keymap_of info7)); [congruence | done]. }
  split.
  - by apply (keymap_of_ok n).
  - rewrite Ht9, Ht8. eapply list.Forall_impl; [exact Ht7|]. intros t. apply type_masks_ext.
    rewrite H98, H87. done.
  - done.
  - eapply list.Forall_impl; [exact Hl9|]. intros l. unfold led_masks_ok, mask_ok.
    by rewrite (ComputeEffectiveMask_ext (keymap_of info8) (keymap_of info9)).
  - rewrite Hk9. eapply list.Forall_impl; [exact Hl8|]. intros k Hk. eapply list.Forall_impl; [exact Hk|].
    intros g Hg. eapply list.Forall_impl; [exact Hg|]. by intros lv [].
Qed.

(** What the sections of a keymap leave is completed, whatever the keymap,
    in a keymap that is as the keyboard states need it: its keys, types, groups
    and levels are consistent, its keycodes ordered, its masks of 32 bits.  A
    failure needs a pending computation, and undefined behaviour an overflow
    in one or aliases that [overlapping_move] describes. *)
Theorem update_derived_fields_ok (info : keymap_info) :
  compiled info ->
  match UpdateDerivedKeymapFields info with
  | Ok (Some info') => keymap_ok (keymap_of info')
  | Ok None => ki_pendings info <> []
  | Fault f => (f = FaultOverflow /\ ki_pendings info <> []) \/
               (f = FaultOverlap /\ overlapping_move (ki_key_names info) = true)
  end.
Proof.
  intros Hc. pose proof (update_derived_keymap info Hc) as H.
  assert (forall o, failure (length (ki_pendings info)) o -> ki_pendings info <> []) as Hne.
  { intros o [Hn _] He. by rewrite He in Hn. }
  destruct (UpdateDerivedKeymapFields info) as [[info'|]|f]; cbn in H.
  - apply (dk_ok _ H).
  - destruct H as [H|[H _]]; [by apply (Hne None) | done].
  - destruct H as [H|[[= ->] H]]; [left | by right]. split; [apply H | by apply (Hne (Some f))].
Qed.

Lemma update_derived_Some info info' :
  compiled info -> UpdateDerivedKeymapFields info = Ok (Some info') -> derived_keymap info'.
Proof. intros Hc He. pose proof (update_derived_keymap info Hc) as H. by rewrite He in H. Qed.


(** In the keymap that results, the actions of a level have at most one
    action on modifiers, one on groups and one redirection. *)
Theorem one_action_per_category (info info' : keymap_info) :
  compiled info -> UpdateDerivedKeymapFields info = Ok (Some info') ->
  Forall (key_all (fun lv => NoDup (level_kinds lv))) (ki_keys info').
Proof. intros Hc He. apply (update_derived_Some info info' Hc He). Qed.

(** ** A sample keymap

    A key of modifier map Shift with the keysym Shift_L, that is interpreted;
    a key with two explicit actions on modifiers; a type on the virtual
    modifier 8, mapped to Mod1 by the second key, and on 9, not mapped. *)

Definition vmod8 : Z := bit 8.
Definition vmod9 : Z := bit 9.

Definition sample_vmods : xkb_mod_set :=
  mk_mod_set (<[9%nat := mk_mod 31 MOD_VIRT 0]> (<[8%nat := mk_mod 30 MOD_VIRT 0]>
    (ms_mods (builtin_mod_set [1; 2; 3; 4; 5; 6; 7; 8])))) 10 0.

Definition unset_mods (m : Z) : xkb_mods := mk_xkb_mods m 0.

Definition sample_type : xkb_key_type :=
  mk_key_type (unset_mods vmod8) 2
    [mk_entry 1 (unset_mods vmod8) (unset_mods 0); mk_entry 1 (unset_mods vmod9) (unset_mods 0)].

Definition sample_key (kc modmap vmodmap explicit : Z) (groups : list key_group) : key :=
  mk_ckey kc (40 + kc) explicit modmap vmodmap 0 false [] false false false LAYOUT_WRAP 0 groups.

Definition sample_info : keymap_info :=
  mk_info atom_table_new 0 4 None None [] XKB_KEYMAP_FORMAT_TEXT_V1
    [mk_cled (mk_led 50 0 0 (2 ^ 3) (unset_mods vmod8) 0) false] 1 2 3
    [sample_key 0 0 0 0 [];
     sample_key 1 1 0 0 [mk_key_group false false 0 [mk_level 1 0xffe1 false [0xffe1] []; mk_level 0 0 false [0] []]];
     sample_key 2 8 vmod8 EXPLICIT_VMODMAP
       [mk_key_group true false 0
          [mk_level 0 0 false [0] [act_mods MOD_SET 0 (unset_mods vmod8); act_mods MOD_LOCK 0 (unset_mods 1)];
           mk_level 0 0 false [0] []]]]
    [mk_match true true 41] [] [sample_type]
    [mk_interp 0xffe1 MATCH_ANY_OR_NONE 1 XKB_MOD_INVALID false false false
       [act_mods MOD_SET ACTION_MODS_LOOKUP_MODMAP (unset_mods 0)]]
    sample_vmods MOD_REAL_MASK_ALL 0 0 [].

Lemma sample_vmods_ok : vmods_ok sample_vmods.
Proof.
  split; [reflexivity | cbn; unfold XKB_MAX_MODS; lia | by apply is_u32_check |].
  intros i m Hi. assert (i < 32)%nat as Hlt by (apply lookup_lt_Some in Hi; exact Hi).
  do 32 (destruct i as [|i]; [vm_compute in Hi; injection Hi as <-; split; [by apply is_u32_check | vm_compute; done]|]).
  lia.
Qed.

Lemma sample_info_compiled : compiled sample_info.
Proof.
  split; [|exact sample_vmods_ok| |reflexivity].
  - split; cbn [sample_info ki_keys ki_types ki_interprets ki_mods ki_leds ki_num_groups ki_max_groups ki_canonical_state_mask ki_pendings ki_min_key_code ki_num_keys_low].
    + repeat (apply Forall_cons_2 || apply Forall_nil_2).
      all: split; [|unfold ky_num_groups, XKB_MAX_GROUPS; cbn; lia | by apply is_u32_check | cbn; lia | done].
      all: cbn; repeat (apply Forall_cons_2 || apply Forall_nil_2); (split; [reflexivity|]).
      all: cbn; repeat (apply Forall_cons_2 || apply Forall_nil_2); done.
    + repeat (apply Forall_cons_2 || apply Forall_nil_2). done.
    + split; cbn; try lia.
      * intros [|[|[|i]]] kc; cbn; intros [= <-]; lia.
      * intros i j kc kc' Hi Hj. apply lookup_lt_Some in Hj. cbn in Hj. lia.
      * intros i kc Hi. apply lookup_lt_Some in Hi. cbn in Hi. lia.
    + repeat (apply Forall_cons_2 || apply Forall_nil_2). split; [|cbn; unfold XKB_LEVEL_INVALID; lia].
      cbn; repeat (apply Forall_cons_2 || apply Forall_nil_2); cbn; lia.
    + repeat (apply Forall_cons_2 || apply Forall_nil_2). split; [|by left].
      repeat (apply Forall_cons_2 || apply Forall_nil_2). done.
    + apply vmods_ok_mods, sample_vmods_ok.
    + cbn. lia.
    + repeat (apply Forall_cons_2 || apply Forall_nil_2). done.
    + unfold XKB_MAX_GROUPS. lia.
    + lia.
    + by apply is_u32_check.
    + split; [done | apply Forall_nil_2].
  - cbn. repeat (apply Forall_cons_2 || apply Forall_nil_2); unfold unset_group; cbn; try done.
    intros _. repeat (apply Forall_cons_2 || apply Forall_nil_2); done.
Qed.

Definition sample_derived : keymap_info :=
  match UpdateDerivedKeymapFields sample_info with Ok (Some info) => info | _ => sample_info end.

Lemma sample_derived_eq : UpdateDerivedKeymapFields sample_info = Ok (Some sample_derived).
Proof. vm_compute. reflexivity. Qed.

Lemma update_derived_fields_ok_witness : keymap_ok (keymap_of sample_derived).
Proof.
  pose proof (update_derived_fields_ok sample_info sample_info_compiled) as H.
  rewrite sample_derived_eq in H. exact H.
Defined.


(** The second action of the second key is dropped. *)
Lemma one_action_per_category_witness :
  Forall (key_all (fun lv => NoDup (level_kinds lv))) (ki_keys sample_derived) /\
  map (fun k => map (fun g => map lv_actions (kg_levels g)) (ky_groups k)) (ki_keys sample_derived) =
    [[]; [[[act_mods MOD_SET ACTION_MODS_LOOKUP_MODMAP (mk_xkb_mods 1 1)]; []]];
     [[[act_mods MOD_SET 0 (mk_xkb_mods vmod8 8); act_none]; []]]].
Proof.
  split; [|vm_compute; reflexivity].
  exact (one_action_per_category sample_info sample_derived sample_info_compiled sample_derived_eq).
Defined.

(** ** Interpretations *)

Definition matches (sym modmap level : Z) (interp : xkb_sym_interpret) : Prop :=
  interp_matches interp sym modmap level = true.

#[global] Instance matches_dec sym modmap level interp : Decision (matches sym modmap level interp).
Proof. unfold matches. apply _. Defined.

(** The interpretation of a keysym, after those of the keysyms before it: the
    first one that matches, but the default one in place of an interpretation
    of any keysym that was used before and is not the first of the table. *)
Definition interp_choice (interps : list xkb_sym_interpret) (sym modmap level : Z)
    (before : list (option nat)) : option nat :=
  match list_find (matches sym modmap level) interps with
  | None => None
  | Some (i, interp) =>
      if decide (i <> 0%nat /\ si_sym interp = XKB_KEY_NoSymbol /\ Some i ∈ before) then None else Some i
  end.

Lemma find_interp_from interps sym modmap level before : forall i,
  find_interp interps i sym modmap level before =
    match list_find (matches sym modmap level) interps with
    | None => None
    | Some (j, interp) =>
        if decide ((i + j)%nat <> 0%nat /\ si_sym interp = XKB_KEY_NoSymbol /\ Some (i + j)%nat ∈ before) then None
        else Some (i + j)%nat
    end.
Proof.
  induction interps as [|x interps IH]; intros i; [done|]. cbn [find_interp list_find]. unfold matches at 1.
  destruct (decide (interp_matches x sym modmap level = true)) as [Hm|Hm].
  - rewrite Hm, Nat.add_0_r. destruct (Nat.eqb_spec i 0) as [Hi|Hi], (Z.eqb_spec (si_sym x) XKB_KEY_NoSymbol) as [Hs|Hs];
      cbn [negb andb]; try (rewrite decide_False by tauto; done).
    case_bool_decide; [rewrite decide_True by done | rewrite decide_False by tauto]; done.
  - apply not_true_is_false in Hm. rewrite Hm, IH.
    destruct (list_find _ interps) as [[j interp]|]; cbn; [|done]. by rewrite Nat.add_succ_r.
Qed.

Lemma foldl_snoc {A B} (f : list A -> B -> A) l : forall acc,
  exists out, foldl (fun acc x => acc ++ [f acc x]) acc l = acc ++ out /\ length out = length l /\
    forall j x, l !! j = Some x -> out !! j = Some (f (acc ++ take j out) x).
Proof.
  induction l as [|x l IH]; intros acc; cbn.
  { exists []. by rewrite app_nil_r. }
  destruct (IH (acc ++ [f acc x])) as (out & -> & Hl & Hout). exists (f acc x :: out).
  rewrite <- app_assoc. split; [done|]. split; [cbn; congruence|].
  intros [|j] y Hy.
  - injection Hy as ->. cbn. by rewrite app_nil_r.
  - change ((f acc x :: out) !! S j) with (out !! j). cbn [take]. by rewrite (Hout j y Hy), <- app_assoc.
Qed.

(** The keysyms of a level are interpreted in order, each by the first
    interpretation of the table that matches it, the modifiers of the key and
    the level; an interpretation of any keysym that is not the first of the
    table is used once in a level. *)
Theorem interprets_in_order (km : xkb_keymap) (interps : list xkb_sym_interpret) (k : key) (group level : Z)
    (found : list (option nat)) :
  FindInterpForKey km interps k group level = Some found ->
  let syms := xkb_keymap_key_get_syms_by_level km (ky_keycode k) group level in
  length found = length syms /\
  (forall j sym, syms !! j = Some sym ->
     found !! j = Some (interp_choice interps sym (ky_modmap k) level (take j found))) /\
  (forall i j j' interp, i <> 0%nat -> interps !! i = Some interp -> si_sym interp = XKB_KEY_NoSymbol ->
     found !! j = Some (Some i) -> found !! j' = Some (Some i) -> j = j').
Proof.
  intros Hf syms.
  assert (length found = length syms /\ forall j sym, syms !! j = Some sym ->
     found !! j = Some (interp_choice interps sym (ky_modmap k) level (take j found))) as [Hlen Hspec].
  { unfold FindInterpForKey in Hf. fold syms in Hf. destruct (foldl_snoc
      (fun acc sym => find_interp interps 0 sym (ky_modmap k) level acc) syms []) as (out & Hout & Hl & Hj).
    assert (found = out) as ->.
    { cbn [app] in Hout. rewrite <- Hout. destruct syms; [done|]. by injection Hf. }
    cbn [app] in *. split; [done|].
    intros j sym Hs. rewrite (Hj j sym Hs). by rewrite find_interp_from. }
  split; [done|]. split; [done|].
  assert (forall i j j' interp, i <> 0%nat -> interps !! i = Some interp -> si_sym interp = XKB_KEY_NoSymbol ->
     found !! j = Some (Some i) -> found !! j' = Some (Some i) -> (j < j')%nat -> False) as Hlt.
  { intros i j j' interp Hi Hint Hno Hj Hj' Hlt.
    destruct (lookup_lt_is_Some_2 syms j') as [sym Hsym]; [rewrite <- Hlen; by eapply lookup_lt_Some|].
    rewrite (Hspec j' sym Hsym) in Hj'. injection Hj' as Hj'. unfold interp_choice in Hj'.
    destruct (list_find _ interps) as [[i' interp']|] eqn:Hfind; [|done].
    destruct (decide _) as [|Hn]; [done|]. injection Hj' as ->. apply Hn.
    apply list_find_Some in Hfind as (Hint' & _). rewrite Hint in Hint'. injection Hint' as <-.
    split; [done|]. split; [done|]. apply (list_elem_of_lookup_2 _ j). by rewrite lookup_take_lt. }
  intros i j j' interp Hi Hint Hno Hj Hj'. destruct (lt_eq_lt_dec j j') as [[H|H]|H]; [|done|]; exfalso; eauto.
Qed.

(** Two keysyms with one interpretation of any keysym, after another one. *)
Definition any_interp : xkb_sym_interpret :=
  mk_interp XKB_KEY_NoSymbol MATCH_ANY_OR_NONE 0xff XKB_MOD_INVALID false true false [act_void].
Definition two_syms_key : key :=
  sample_key 1 0 0 0 [mk_key_group false false 0 [mk_level 2 0 false [97; 98] []]].
Definition two_syms_info : keymap_info :=
  ki_set_keys [] [sample_key 0 0 0 0 []; two_syms_key] (ki_set_types [mk_key_type (unset_mods 0) 1 []] sample_info).

(** An interpretation of another keysym. *)
Definition other_interp : xkb_sym_interpret :=
  mk_interp 99 MATCH_ANY_OR_NONE 0xff XKB_MOD_INVALID false true false [].

Lemma interprets_in_order_witness :
  FindInterpForKey (keymap_of two_syms_info) [other_interp; any_interp] two_syms_key 0 0 = Some [Some 1%nat; None] /\
  [Some 1%nat; None] !! 1%nat =
    Some (interp_choice [other_interp; any_interp] 98 0 0 [Some 1%nat]).
Proof.
  assert (FindInterpForKey (keymap_of two_syms_info) [other_interp; any_interp] two_syms_key 0 0
    = Some [Some 1%nat; None]) as H by (vm_compute; reflexivity).
  split; [exact H|].
  exact (proj1 (proj2 (interprets_in_order _ _ _ _ _ _ H)) 1%nat 98 eq_refl).
Defined.

(** The first interpretation of the table is used twice. *)
Example first_interp_repeated :
  FindInterpForKey (keymap_of two_syms_info) [any_interp] two_syms_key 0 0 = Some [Some 0%nat; Some 0%nat].
Proof. vm_compute. reflexivity. Qed.

(** ** Pending groups *)

(** A relative group that refers to the last group is postponed without its
    sign: [-last] is resolved as [+last] is. *)
Theorem pending_sign_lost (gi : group_info) (pendings : list pending_computation) (e : ExprDef) (flags : Z)
    (r : xkb_parser_error Z) :
  ExprResolveGroup gi e false true = Ok (r, true) ->
  CheckGroupField gi pendings (ExprUnary STMT_EXPR_NEGATE e) flags =
  CheckGroupField gi pendings (ExprUnary STMT_EXPR_UNARY_PLUS e) flags.
Proof.
  intros He. unfold CheckGroupField.
  assert (has_flag (Z.ldiff flags ACTION_ABSOLUTE_SWITCH) ACTION_ABSOLUTE_SWITCH = false) as ->.
  { apply has_flag_false. bitblast. }
  by rewrite He.
Qed.

Definition last_atoms : atom_table := mk_atom_table [] [None; Some GROUP_LAST_INDEX_NAME].
Definition last_info (last : option Z) : group_info := group_info_of last_atoms 2 4 last None.

Lemma pending_sign_lost_witness :
  CheckGroupField (last_info None) [] (ExprUnary STMT_EXPR_NEGATE (STMT_EXPR_IDENT 1)) 0 =
  CheckGroupField (last_info None) [] (ExprUnary STMT_EXPR_UNARY_PLUS (STMT_EXPR_IDENT 1)) 0.
Proof.
  apply (pending_sign_lost (last_info None) [] (STMT_EXPR_IDENT 1) 0 PARSER_FATAL_ERROR).
  vm_compute. reflexivity.
Defined.

(** With three groups, [-3] is -3 and [-last] is 3. *)
Example negative_last :
  (exists flags, CheckGroupField (last_info None) [] (ExprUnary STMT_EXPR_NEGATE (STMT_EXPR_INTEGER_LITERAL 3)) 0
     = Ok (PARSER_SUCCESS (flags, -3, []))) /\
  (exists flags ps, CheckGroupField (last_info None) [] (ExprUnary STMT_EXPR_NEGATE (STMT_EXPR_IDENT 1)) 0
     = Ok (PARSER_SUCCESS (flags, 0, ps)) /\
   exists ps', update_pending_action_fields (last_info (Some 3)) 0 ps 9 (act_group GROUP_LATCH flags 0)
     = Ok (Some (ps', act_group GROUP_LATCH 0 3))).
Proof.
  split; [eexists; vm_compute; reflexivity|]. do 2 eexists. split; [vm_compute; reflexivity|].
  eexists. vm_compute. reflexivity.
Qed.

(** An error in the redirection of a key does not fail the compilation: the
    number of the group stays the index of the pending computation. *)
Example redirect_error_ignored :
  let e := ExprBinary STMT_EXPR_ADD (STMT_EXPR_IDENT 1) (STMT_EXPR_INTEGER_LITERAL 9) in
  let k := ky_set_redirect true 0 (sample_key 1 0 0 0 []) in
  ExprResolveGroup (last_info (Some 3)) e true false = Ok (PARSER_FATAL_ERROR, false) /\
  update_pending_key_fields (last_info (Some 3)) [mk_pending e false 0] k = Ok (Some ([mk_pending e false 0], k)).
Proof. vm_compute. done. Qed.
