(* ===== verification/SymOverlays.v ===== *)
(** * The overlays of a key being compiled (src/xkbcomp/symbols.c)

    The fields of [KeyInfo] about overlays: a mask of overlays, and their
    keys, inline or in a sparse array with an item per bit of the mask, in the
    order of the bits.  A key is its index; [None] is the null pointer, for an
    overlay that is explicitly removed. *)

From Stdlib Require Import ZArith Lia.
From stdpp Require Import base tactics list numbers.
From S2P Require Import Prelude Keymap Machine Expr Vmod Derived.

(** The union of [overlay_key] and [overlays_keys]; an item of the array that
    is not initialised is [None].  [OvLost] is a null array with a positive
    [overlays_alloc]: [overlay_key] was set to null while the array was in use. *)
Inductive overlay_storage :=
| OvInline (overlay_key : option nat)
| OvHeap (overlays_keys : list (option (option nat)))
| OvLost (alloc : nat).

Record overlays_info := mk_overlays {
  ov_mask : Z;
  ov_clear : bool;
  ov_storage : overlay_storage
}.

(** [InitKeyInfo] *)
Definition no_overlays : overlays_info := mk_overlays 0 false (OvInline None).

(** [overlays_alloc] *)
Definition ov_alloc (o : overlays_info) : nat :=
  match ov_storage o with OvInline _ => 0%nat | OvHeap keys => length keys | OvLost alloc => alloc end.

Definition overlay_bit (bit_ : nat) : Z := bit (Z.of_nat bit_).

(** The number of the overlays below [bit_]. *)
Definition overlay_rank (mask : Z) (bit_ : nat) : nat :=
  Z.to_nat (popcount32 (Z.land mask (overlay_bit bit_ - 1))).

(** A read of an initialised item. *)
Definition heap_read (keys : list (option (option nat))) (i : nat) : result (option nat) :=
  match keys !! i with Some (Some key) => Ok key | _ => Fault FaultOutOfBounds end.

(** [*key_out], [None] for a returned [false]. *)
Definition overlays_get (o : overlays_info) (bit_ : nat) : result (option (option nat)) :=
  if Nat.leb 8 bit_ then Ok None
  else if negb (has_flag (ov_mask o) (overlay_bit bit_)) then Ok None
  else match ov_storage o with
  | OvInline key => Ok (Some key)
  | OvHeap keys => let+ key := heap_read keys (overlay_rank (ov_mask o) bit_) in Ok (Some key)
  | OvLost _ => Fault FaultNull
  end.

Definition next_pow2 (x : nat) : nat := if Nat.leb x 1 then 1%nat else (2 ^ (Nat.log2 (x - 1) + 1))%nat.

(** [keys[i] = key], in bounds. *)
Definition heap_write (keys : list (option (option nat))) (i : nat) (key : option nat)
    : result (list (option (option nat))) :=
  if Nat.ltb i (length keys) then Ok (<[i := Some key]> keys) else Fault FaultOutOfBounds.

(** [memmove(keys + i + 1, keys + i, n)] *)
Definition heap_shift (keys : list (option (option nat))) (i n : nat) : result (list (option (option nat))) :=
  if Nat.leb (i + 1 + n) (length keys)
  then Ok (take (i + 1) keys ++ take n (drop i keys) ++ drop (i + 1 + n) keys)
  else Fault FaultOutOfBounds.

Definition overlays_count (mask : Z) : nat := Z.to_nat (popcount32 mask).

(** The insertion in the sparse array. *)
Definition heap_insert (o : overlays_info) (keys : list (option (option nat))) (bit_ : nat) (key : option nat)
    : result overlays_info :=
  let overlays := u8 (Z.lor (ov_mask o) (overlay_bit bit_)) in
  let count := overlays_count overlays in
  let alloc := if Nat.ltb (length keys) count then next_pow2 count else length keys in
  asserting (Nat.leb count alloc || Nat.leb count (length keys))
    (let keys := keys ++ replicate (alloc - length keys) None in
     let index := overlay_rank overlays bit_ in
     asserting (Nat.ltb index alloc)
       (let+ keys := if Nat.ltb index (count - 1)
                     then asserting (Nat.ltb (index + 1) alloc) (heap_shift keys index (count - 1 - index))
                     else Ok keys in
        let+ keys := heap_write keys index key in
        Ok (mk_overlays overlays (ov_clear o) (OvHeap keys)))).

(** [keyi->overlay_key = key]; a key is never taken for an array. *)
Definition set_overlay_key (o : overlays_info) (key : option nat) : result overlay_storage :=
  match ov_storage o, key with
  | OvInline _, _ => Ok (OvInline key)
  | _, None => Ok (OvLost (ov_alloc o))
  | _, Some _ => Fault FaultOutOfBounds
  end.

(** [None] for a returned [false]; allocations succeed. *)
Definition overlays_insert (o : overlays_info) (bit_ : nat) (key : option nat)
    : result (option overlays_info) :=
  if Nat.leb 8 bit_ then Ok None
  else
    let mask := overlay_bit bit_ in
    if has_flag (ov_mask o) mask && negb (ov_clear o) then
      match ov_storage o with
      | OvInline _ =>
          Ok (Some (mk_overlays (ov_mask o)
                (ov_clear o || negb (bool_decide (is_Some key))) (OvInline key)))
      | OvHeap keys =>
          let+ keys := heap_write keys (overlay_rank (ov_mask o) bit_) key in
          Ok (Some (mk_overlays (ov_mask o) (ov_clear o) (OvHeap keys)))
      | OvLost _ => Fault FaultNull
      end
    else if (ov_mask o =? 0) || (ov_clear o && negb (bool_decide (is_Some key))) then
      let+ storage := set_overlay_key o key in
      Ok (Some (mk_overlays (u8 (Z.lor (ov_mask o) mask)) (negb (bool_decide (is_Some key))) storage))
    else match ov_storage o with
    | OvInline overlay_key =>
        let overlays := u8 (Z.lor (ov_mask o) mask) in
        let tmp := replicate (overlays_count overlays) (Some None) in
        let+ tmp := if ov_clear o then Ok tmp
                    else heap_write tmp (Z.to_nat (popcount32 (Z.land overlays (u8 (ov_mask o - 1))))) overlay_key in
        let+ tmp := heap_write tmp (overlay_rank overlays bit_) key in
        Ok (Some (mk_overlays overlays false (OvHeap tmp)))
    | OvHeap keys =>
        let+ o := heap_insert o keys bit_ key in Ok (Some o)
    | OvLost alloc =>
        if Nat.ltb alloc (overlays_count (u8 (Z.lor (ov_mask o) mask)))
        then let+ o := heap_insert o [] bit_ key in Ok (Some o)
        else Fault FaultNull
    end.

(** ** Merging *)

(** The storage of [dest] for [count] overlays. *)
Definition grow_overlays (dest : overlays_info) (count : nat) : overlays_info :=
  mk_overlays (ov_mask dest) (ov_clear dest)
    (OvHeap (match ov_storage dest with
             | OvInline key =>
                 match key with
                 | Some _ => <[0%nat := Some key]> (replicate count (Some None))
                 | None => replicate count (Some None)
                 end
             | OvHeap keys => take count keys ++ replicate (count - length keys) None
             | OvLost _ => replicate count None
             end)).

(** The loop over the overlays of [src]: [bits] are those left, [keys] their
    keys, [None] for the null pointer [src_keys].  [collide] is set when a
    conflict is reported. *)
Fixpoint merge_bits (src_inline : bool) (clobber report : bool) (bits : list nat)
    (src_keys : option (list (option (option nat)))) (dest : overlays_info) (collide : bool)
    : result (option (overlays_info * bool)) :=
  match bits with
  | [] => Ok (Some (dest, collide))
  | bit_ :: bits =>
      asserting (negb src_inline || Nat.eqb (length bits) 0)
        (let+ src_key := match src_keys with None => Ok None | Some keys => heap_read keys 0 end in
         let src_keys := option_map (drop 1) src_keys in
         let+ dest_key := overlays_get dest bit_ in
         match dest_key with
         | Some dest_key =>
             if bool_decide (dest_key = src_key)
             then merge_bits src_inline clobber report bits src_keys dest collide
             else
               let collide := collide || report in
               if clobber then
                 let! dest := overlays_insert dest bit_ src_key in
                 merge_bits src_inline clobber report bits src_keys dest collide
               else merge_bits src_inline clobber report bits src_keys dest collide
         | None =>
             let! dest := overlays_insert dest bit_ src_key in
             merge_bits src_inline clobber report bits src_keys dest collide
         end)
  end.

(** The overlays of a mask, in order. *)
Definition overlay_bits (mask : Z) : list nat :=
  filter (fun bit_ => has_flag mask (overlay_bit bit_) = true) (seq 0 8).

Definition merge_into (dest src : overlays_info) (clobber report : bool)
    : result (option (overlays_info * bool)) :=
  let src_keys := if ov_clear src then None
                  else match ov_storage src with
                       | OvInline key => Some [Some key]
                       | OvHeap keys => Some keys
                       | OvLost _ => None
                       end in
  let src_inline := negb (ov_clear src) && Nat.eqb (ov_alloc src) 0 in
  merge_bits src_inline clobber report (overlay_bits (ov_mask src)) src_keys dest false.

(** Overlapping overlays: the best of the two storages is extended. *)
Definition merge_overlapping (into from : overlays_info) (clobber report : bool)
    : result (option (overlays_info * bool)) :=
  let count := overlays_count (Z.lor (ov_mask into) (ov_mask from)) in
  if Nat.eqb count 0 then Fault FaultAssert
  else if Nat.leb count (ov_alloc into) && Nat.leb (ov_alloc from) (ov_alloc into)
  then merge_into into from clobber report
  else if Nat.leb count (ov_alloc from) then merge_into from into (negb clobber) report
  else if Nat.ltb 1 count then
    if Nat.ltb (ov_alloc into) (ov_alloc from)
    then merge_into (grow_overlays from count) into (negb clobber) report
    else merge_into (grow_overlays into count) from clobber report
  else merge_into into from clobber report.

(** [overlay_key] of both: the overlays are inline in this mode. *)
Definition merge_disjoint (into from : overlays_info) (clobber report : bool) : overlays_info * bool :=
  let same_key := match ov_storage into, ov_storage from with
                  | OvInline k1, OvInline k2 => bool_decide (k1 = k2)
                  | _, _ => false
                  end in
  if (ov_mask into =? ov_mask from) && eqb (ov_clear into) (ov_clear from) && same_key then (into, false)
  else
    let conflict := (if clobber then from else into, report) in
    if Z.land (ov_mask into) (ov_mask from) =? 0 then
      if ov_clear into then (from, false)
      else if ov_clear from then (into, false)
      else conflict
    else conflict.

(** [merge_overlays]: an undefined field is [None]; the overlays of [into], and
    whether a conflict is reported. *)
Definition merge_overlays (overlapping : bool) (into from : option overlays_info) (clobber report : bool)
    : result (option (option overlays_info * bool)) :=
  match from, into with
  | None, _ => Ok (Some (into, false))
  | Some from, None =>
      (** [overlays_clear] of [into] is false, and is not copied *)
      Ok (Some (Some (mk_overlays (ov_mask from) false (ov_storage from)), false))
  | Some from, Some into =>
      if ov_clear into && ov_clear from
      then Ok (Some (Some (mk_overlays (Z.lor (ov_mask into) (ov_mask from)) (ov_clear into) (ov_storage into)), false))
      else if overlapping then
        let! r := merge_overlapping into from clobber report in Ok (Some (Some (fst r), snd r))
      else let r := merge_disjoint into from clobber report in Ok (Some (Some (fst r), snd r))
  end.

(** ** The key of the keymap

    The end of [CopySymbolsDefToKeymap]: the mask, [overlays_inline] and the
    keys of the key; [None] when it has no overlays. *)

(** The loop that drops the null keys: [pos] is the position of
    [overlays_keys], that moves on after a key. *)
Fixpoint drop_null_overlays (bits : list nat) (keys : list (option (option nat))) (pos : nat) (overlays : Z)
    : result Z :=
  match bits with
  | [] => Ok overlays
  | bit_ :: bits =>
      let+ key := heap_read keys pos in
      match key with
      | Some _ => drop_null_overlays bits keys (S pos) overlays
      | None => drop_null_overlays bits keys pos (Z.ldiff overlays (overlay_bit bit_))
      end
  end.

Definition copy_overlays (o : overlays_info) : result (option (Z * bool * list (option (option nat)))) :=
  if negb (ov_mask o =? 0) && negb (ov_clear o) then
    match ov_storage o with
    | OvHeap keys =>
        let+ overlays := drop_null_overlays (overlay_bits (ov_mask o)) keys 0 (ov_mask o) in
        Ok (if overlays =? 0 then None else Some (overlays, false, keys))
    | OvInline key => Ok (Some (ov_mask o, true, [Some key]))
    | OvLost _ => Fault FaultNull
    end
  else Ok None.
