(* ===== verification/SymOverlaysSpec.v ===== *)
(** * The overlays of a key: a map from overlays to keys

    The mask and the sparse array represent a finite map; the insertion and
    the merge are those of the map, and the cases where they are not. *)

From Stdlib Require Import ZArith Lia.
From stdpp Require Import base tactics list numbers.
From S2P Require Import Prelude Keymap Machine Expr Vmod Derived SymOverlays.

(** ** Masks of overlays

    The facts on ranks are checked for the masks of 8 bits. *)

Definition all_masks : list Z := map Z.of_nat (seq 0 256).

Lemma check_masks (P : Z -> bool) m : forallb P all_masks = true -> 0 <= m < 256 -> P m = true.
Proof.
  intros H Hm. rewrite forallb_forall in H. apply H. unfold all_masks. apply in_map_iff.
  exists (Z.to_nat m). split; [lia|]. apply in_seq. lia.
Qed.

Lemma check_bits (P : nat -> bool) b : forallb P (seq 0 8) = true -> (b < 8)%nat -> P b = true.
Proof. intros H Hb. rewrite forallb_forall in H. apply H, in_seq. lia. Qed.

Definition has_overlay (m : Z) (b : nat) : bool := has_flag m (overlay_bit b).
Definition add_overlay (m : Z) (b : nat) : Z := u8 (Z.lor m (overlay_bit b)).

(** The facts used below, as a test. *)
Definition rank_fact (m : Z) (b b' : nat) : bool :=
  let m' := add_overlay m b in
  (0 <=? m') && (m' <? 256) &&
  eqb (has_overlay m' b') (Nat.eqb b b' || has_overlay m b') &&
  (negb (has_overlay m b) || (Nat.ltb (overlay_rank m b) (overlays_count m) && (m' =? m))) &&
  (has_overlay m b ||
   (Nat.eqb (overlays_count m') (S (overlays_count m)) && Nat.leb (overlay_rank m b) (overlays_count m) &&
    Nat.eqb (overlay_rank m' b) (overlay_rank m b) &&
    (negb (has_overlay m b') ||
     (if Nat.ltb b' b
      then Nat.eqb (overlay_rank m' b') (overlay_rank m b') && Nat.ltb (overlay_rank m b') (overlay_rank m b)
      else Nat.eqb (overlay_rank m' b') (S (overlay_rank m b')) && Nat.leb (overlay_rank m b) (overlay_rank m b'))))) &&
  (negb (has_overlay m b && has_overlay m b' && Nat.ltb b b') || Nat.ltb (overlay_rank m b) (overlay_rank m b')).

Lemma rank_facts m b b' : 0 <= m < 256 -> (b < 8)%nat -> (b' < 8)%nat -> rank_fact m b b' = true.
Proof.
  intros Hm Hb Hb'.
  assert (forallb (fun m => forallb (fun b => forallb (rank_fact m b) (seq 0 8)) (seq 0 8)) all_masks = true) as H
    by (vm_compute; reflexivity).
  pose proof (check_masks _ m H Hm) as H1. cbn beta in H1.
  pose proof (check_bits _ b H1 Hb) as H2. exact (check_bits _ b' H2 Hb').
Qed.

Section ranks.
Context (m : Z) (b b' : nat) (Hm : 0 <= m < 256) (Hb : (b < 8)%nat) (Hb' : (b' < 8)%nat).

Ltac facts :=
  pose proof (rank_facts m b b' Hm Hb Hb') as H; unfold rank_fact in H; cbv zeta in H;
  repeat match goal with
  | H : _ && _ = true |- _ => apply andb_true_iff in H as [? ?]
  end.

Lemma add_overlay_range : 0 <= add_overlay m b < 256.
Proof using All. facts. lia. Qed.

Lemma has_add_overlay : has_overlay (add_overlay m b) b' = Nat.eqb b b' || has_overlay m b'.
Proof using All. facts. by apply eqb_prop. Qed.

Lemma rank_lt : has_overlay m b = true -> (overlay_rank m b < overlays_count m)%nat /\ add_overlay m b = m.
Proof using All.
  facts. intros Hh. rewrite Hh in *. cbn [negb orb] in *.
  repeat match goal with H : _ && _ = true |- _ => apply andb_true_iff in H as [? ?] end.
  split; [by apply Nat.ltb_lt | by apply Z.eqb_eq].
Qed.

Lemma rank_new : has_overlay m b = false ->
  overlays_count (add_overlay m b) = S (overlays_count m) /\ (overlay_rank m b <= overlays_count m)%nat /\
  overlay_rank (add_overlay m b) b = overlay_rank m b /\
  (has_overlay m b' = true ->
   if Nat.ltb b' b
   then overlay_rank (add_overlay m b) b' = overlay_rank m b' /\ (overlay_rank m b' < overlay_rank m b)%nat
   else overlay_rank (add_overlay m b) b' = S (overlay_rank m b') /\ (overlay_rank m b <= overlay_rank m b')%nat).
Proof using All.
  facts. intros Hh. rewrite Hh in *. cbn [negb orb] in *.
  repeat match goal with H : _ && _ = true |- _ => apply andb_true_iff in H as [? ?] end.
  split; [by apply Nat.eqb_eq|]. split; [by apply Nat.leb_le|]. split; [by apply Nat.eqb_eq|].
  intros Hh'. rewrite Hh' in *. cbn [negb orb] in *. destruct (Nat.ltb b' b).
  all: repeat match goal with H : _ && _ = true |- _ => apply andb_true_iff in H as [? ?] end.
  - split; [by apply Nat.eqb_eq | by apply Nat.ltb_lt].
  - split; [by apply Nat.eqb_eq | by apply Nat.leb_le].
Qed.

Lemma rank_mono : has_overlay m b = true -> has_overlay m b' = true -> (b < b')%nat ->
  (overlay_rank m b < overlay_rank m b')%nat.
Proof using All.
  facts. intros H1' H2' Hlt%Nat.ltb_lt. rewrite H1', H2', Hlt in *. cbn [negb andb orb] in *. by apply Nat.ltb_lt.
Qed.
End ranks.

(** ** The map that the fields represent *)

Definition ov_get (o : overlays_info) (b : nat) : option (option nat) :=
  if Nat.ltb b 8 && has_overlay (ov_mask o) b
  then Some (if ov_clear o then None
             else match ov_storage o with
                  | OvInline key => key
                  | OvHeap keys => match keys !! overlay_rank (ov_mask o) b with Some (Some key) => key | _ => None end
                  | OvLost _ => None
                  end)
  else None.

Definition heap_ok (mask : Z) (keys : list (option (option nat))) : Prop :=
  (overlays_count mask <= length keys)%nat /\ (0 < overlays_count mask)%nat /\
  (forall i, (i < overlays_count mask)%nat -> exists key, keys !! i = Some (Some key)).

(** A key is stored inline when it is the only one, or when all the overlays are
    cleared. *)
Definition ov_ok (o : overlays_info) : Prop :=
  0 <= ov_mask o < 256 /\
  match ov_storage o with
  | OvInline key =>
      if ov_clear o then key = None
      else (ov_mask o = 0 /\ key = None) \/ (exists b, (b < 8)%nat /\ ov_mask o = overlay_bit b /\ is_Some key)
  | OvHeap keys => ov_clear o = false /\ heap_ok (ov_mask o) keys
  | OvLost _ => False
  end.

Lemma leb_8 b : (b < 8)%nat -> Nat.leb 8 b = false.
Proof. intros. apply Nat.leb_gt. lia. Qed.

Lemma has_single b b' : (b < 8)%nat -> (b' < 8)%nat -> has_overlay (overlay_bit b) b' = Nat.eqb b b'.
Proof.
  intros Hb Hb'.
  assert (forallb (fun b => forallb (fun b' => eqb (has_overlay (overlay_bit b) b') (Nat.eqb b b')) (seq 0 8)) (seq 0 8)
    = true) as H by reflexivity.
  pose proof (check_bits _ b H Hb) as H1. cbn beta in H1.
  apply eqb_prop. exact (check_bits _ b' H1 Hb').
Qed.

Lemma single_facts b : (b < 8)%nat ->
  0 < overlay_bit b < 256 /\ u8 (overlay_bit b - 1) = overlay_bit b - 1 /\ overlays_count (overlay_bit b) = 1%nat /\
  overlay_rank (overlay_bit b) b = 0%nat.
Proof.
  intros Hb. do 8 (destruct b as [|b]; [repeat split; vm_compute; congruence|]). lia.
Qed.

Lemma count_zero : overlays_count 0 = 0%nat.
Proof. reflexivity. Qed.

Lemma has_overlay_0 b : has_overlay 0 b = false.
Proof. unfold has_overlay, has_flag. by rewrite Z.land_0_l. Qed.

Lemma heap_read_ok mask keys b : heap_ok mask keys -> 0 <= mask < 256 -> (b < 8)%nat -> has_overlay mask b = true ->
  exists key, keys !! overlay_rank mask b = Some (Some key).
Proof.
  intros (_ & _ & Hi) Hm Hb Hh. apply Hi. by apply (rank_lt mask b b).
Qed.

Lemma overlays_get_ok o b : ov_ok o -> overlays_get o b = Ok (ov_get o b).
Proof.
  intros [Hm Ho]. unfold overlays_get, ov_get. change (has_flag (ov_mask o) (overlay_bit b)) with (has_overlay (ov_mask o) b).
  destruct (Nat.leb_spec 8 b) as [Hb|Hb].
  { replace (Nat.ltb b 8) with false by (symmetry; apply Nat.ltb_ge; lia). done. }
  replace (Nat.ltb b 8) with true by (symmetry; apply Nat.ltb_lt; lia). cbn [andb].
  destruct (has_overlay (ov_mask o) b) eqn:Hh; [|done]. cbn [negb].
  destruct (ov_storage o) as [key|keys|a] eqn:Es.
  - by destruct (ov_clear o); subst.
  - destruct Ho as [-> Hk]. destruct (heap_read_ok _ _ b Hk Hm Hb Hh) as [key Hkey].
    unfold heap_read. by rewrite Hkey.
  - done.
Qed.

(** ** Insertion *)

Definition set_overlay (b : nat) (key : option nat) (get : nat -> option (option nat)) (b' : nat) : option (option nat) :=
  if Nat.eqb b b' then Some key else get b'.

(** The value of [overlays_insert]. *)
Definition inserted (o : overlays_info) (b : nat) (key : option nat) (r : result (option overlays_info)) : Prop :=
  exists o', r = Ok (Some o') /\ ov_ok o' /\ ov_mask o' = add_overlay (ov_mask o) b /\
    (ov_clear o' = true -> ov_clear o = true \/ ov_alloc o = 0%nat) /\
    forall b', ov_get o' b' = set_overlay b key (ov_get o) b'.

Lemma rank_inj m b b' : 0 <= m < 256 -> (b < 8)%nat -> (b' < 8)%nat -> has_overlay m b = true -> has_overlay m b' = true ->
  overlay_rank m b = overlay_rank m b' -> b = b'.
Proof.
  intros Hm Hb Hb' H H' Hr. destruct (lt_eq_lt_dec b b') as [[Hlt | ->] | Hlt]; [|done|].
  - pose proof (rank_mono m b b' Hm Hb Hb' H H' Hlt). lia.
  - pose proof (rank_mono m b' b Hm Hb' Hb H' H Hlt). lia.
Qed.

Lemma ov_get_heap m keys b : 
  ov_get (mk_overlays m false (OvHeap keys)) b =
  if Nat.ltb b 8 && has_overlay m b
  then Some (match keys !! overlay_rank m b with Some (Some key) => key | _ => None end) else None.
Proof. reflexivity. Qed.

(** A write at the rank of the overlay, in an array that holds the others at
    their new ranks. *)
Lemma write_heap o b key (keys : list (option (option nat))) :
  0 <= ov_mask o < 256 -> (b < 8)%nat -> heap_ok (add_overlay (ov_mask o) b) (<[overlay_rank (add_overlay (ov_mask o) b) b := Some key]> keys) ->
  (forall b', (b' < 8)%nat -> b <> b' -> has_overlay (ov_mask o) b' = true ->
    exists k, keys !! overlay_rank (add_overlay (ov_mask o) b) b' = Some (Some k) /\ ov_get o b' = Some k) ->
  inserted o b key
    (let+ keys := heap_write keys (overlay_rank (add_overlay (ov_mask o) b) b) key in
     Ok (Some (mk_overlays (add_overlay (ov_mask o) b) false (OvHeap keys)))).
Proof.
  intros Hm Hb Hk Hold. set (m' := add_overlay (ov_mask o) b) in *.
  assert (0 <= m' < 256) as Hm' by (by apply (add_overlay_range (ov_mask o) b b)).
  assert (has_overlay m' b = true) as Hhb
    by (unfold m'; rewrite (has_add_overlay _ b b) by done; by rewrite Nat.eqb_refl).
  destruct (rank_lt m' b b Hm' Hb Hb Hhb) as [Hlt _].
  pose proof Hk as (Hc & _ & _). rewrite length_insert in Hc.
  unfold heap_write. replace (Nat.ltb (overlay_rank m' b) (length keys)) with true by (symmetry; apply Nat.ltb_lt; lia).
  cbn [result_bind]. eexists. split; [done|]. split; [done|]. split; [done|]. split; [done|].
  intros b'. rewrite ov_get_heap. unfold set_overlay.
  destruct (Nat.eqb_spec b b') as [<-|Hne].
  { replace (Nat.ltb b 8) with true by (symmetry; by apply Nat.ltb_lt). rewrite Hhb. cbn [andb].
    rewrite list_lookup_insert_eq by lia. done. }
  destruct (Nat.ltb_spec b' 8) as [Hb'|Hb']; cbn [andb].
  2: { unfold ov_get. by replace (Nat.ltb b' 8) with false by (symmetry; apply Nat.ltb_ge; lia). }
  unfold m' at 1. rewrite (has_add_overlay _ b b') by done.
  replace (Nat.eqb b b') with false by (symmetry; by apply Nat.eqb_neq). cbn [orb].
  destruct (has_overlay (ov_mask o) b') eqn:Hh.
  - destruct (Hold b' Hb' Hne Hh) as (k & Hkey & ->).
    rewrite list_lookup_insert_ne.
    + by rewrite Hkey.
    + intros Heq. apply Hne, (rank_inj m'); try done.
      unfold m'. rewrite (has_add_overlay _ b b') by done. rewrite Hh. apply orb_true_r.
  - unfold ov_get. rewrite Hh. by rewrite andb_false_r.
Qed.

Lemma get_heap_old o b : ov_ok o -> (b < 8)%nat -> has_overlay (ov_mask o) b = true ->
  ov_alloc o <> 0%nat ->
  exists keys k, ov_storage o = OvHeap keys /\ ov_clear o = false /\ keys !! overlay_rank (ov_mask o) b = Some (Some k) /\
    ov_get o b = Some k.
Proof.
  intros [Hm Ho] Hb Hh Ha. unfold ov_alloc in Ha. destruct (ov_storage o) as [key|keys|a] eqn:Es; [done| |done].
  destruct Ho as [Hc Hk]. destruct (heap_read_ok _ _ b Hk Hm Hb Hh) as [k Hkey].
  exists keys, k. split; [done|]. split; [done|]. split; [done|].
  unfold ov_get. rewrite Es, Hc, Hh, Hkey. by replace (Nat.ltb b 8) with true by (symmetry; by apply Nat.ltb_lt).
Qed.

Lemma next_pow2_le n : (1 <= n)%nat -> (n <= next_pow2 n)%nat.
Proof.
  intros Hn. unfold next_pow2. destruct (Nat.leb_spec n 1) as [H|H]; [lia|].
  pose proof (Nat.log2_spec (n - 1)) as Hs. rewrite Nat.add_1_r. lia.
Qed.

Lemma heap_shift_lookup (keys : list (option (option nat))) r n j : (r + 1 + n <= length keys)%nat ->
  (take (r + 1) keys ++ take n (drop r keys) ++ drop (r + 1 + n) keys) !! j =
  if Nat.leb j r then keys !! j else if Nat.leb j (r + n) then keys !! (j - 1)%nat else keys !! j.
Proof.
  intros Hl. destruct (Nat.leb_spec j r) as [H|H].
  { rewrite lookup_app_l by (rewrite length_take; lia). by rewrite lookup_take_lt by lia. }
  rewrite lookup_app_r by (rewrite length_take; lia). rewrite length_take_le by lia.
  destruct (Nat.leb_spec j (r + n)) as [H'|H'].
  - rewrite lookup_app_l by (rewrite length_take, length_drop; lia).
    rewrite lookup_take_lt by lia. rewrite lookup_drop. f_equal. lia.
  - rewrite lookup_app_r by (rewrite length_take, length_drop; lia).
    rewrite length_take_le by (rewrite length_drop; lia). rewrite lookup_drop. f_equal. lia.
Qed.

Lemma length_heap_shift (keys : list (option (option nat))) r n : (r + 1 + n <= length keys)%nat ->
  length (take (r + 1) keys ++ take n (drop r keys) ++ drop (r + 1 + n) keys) = length keys.
Proof. intros. rewrite !length_app, !length_take, !length_drop. lia. Qed.

Section heap_insert.
Context (o : overlays_info) (keys : list (option (option nat))) (b : nat) (key : option nat).
Context (Hok : ov_ok o) (Hs : ov_storage o = OvHeap keys) (Hb : (b < 8)%nat)
        (Hnew : has_overlay (ov_mask o) b = false).

Let m := ov_mask o.
Let m' := add_overlay m b.
Let n := overlays_count m.
Let r := overlay_rank m b.

(** The array once the items above the rank have moved. *)
Lemma shifted_heap (keys1 : list (option (option nat))) :
  (S n <= length keys1)%nat -> (forall i, (i < n)%nat -> keys1 !! i = keys !! i) ->
  exists keys2,
    (if Nat.ltb r (S n - 1) then asserting (Nat.ltb (r + 1) (length keys1)) (heap_shift keys1 r (S n - 1 - r)) else Ok keys1)
    = Ok keys2 /\ length keys2 = length keys1 /\
    forall i, (i < n)%nat -> keys2 !! (if Nat.ltb i r then i else S i) = keys !! i.
Proof using All.
  intros Hl Hi. destruct Hok as [Hm _].
  destruct (rank_new m b b Hm Hb Hb Hnew) as (_ & Hr & _). fold n r in Hr.
  replace (S n - 1)%nat with n by lia. destruct (Nat.ltb_spec r n) as [Hlt|Hge].
  - replace (Nat.ltb (r + 1) (length keys1)) with true by (symmetry; apply Nat.ltb_lt; lia).
    unfold asserting, heap_shift. replace (Nat.leb (r + 1 + (n - r)) (length keys1)) with true by (symmetry; apply Nat.leb_le; lia).
    eexists. split; [done|]. split; [by apply length_heap_shift; lia|].
    intros i Hin. rewrite heap_shift_lookup by lia. destruct (Nat.ltb_spec i r).
    + replace (Nat.leb i r) with true by (symmetry; apply Nat.leb_le; lia). by apply Hi.
    + replace (Nat.leb (S i) r) with false by (symmetry; apply Nat.leb_gt; lia).
      replace (Nat.leb (S i) (r + (n - r))) with true by (symmetry; apply Nat.leb_le; lia).
      replace (S i - 1)%nat with i by lia. by apply Hi.
  - eexists. split; [done|]. split; [done|]. intros i Hin.
    replace (Nat.ltb i r) with true by (symmetry; apply Nat.ltb_lt; lia). by apply Hi.
Qed.

Lemma heap_insert_ok : inserted o b key (let+ o := heap_insert o keys b key in Ok (Some o)).
Proof using All.
  pose proof Hok as [Hm Ho]. rewrite Hs in Ho. destruct Ho as [Hc Hk]. destruct Hk as (Hn & Hpos & Hi).
  destruct (rank_new m b b Hm Hb Hb Hnew) as (Hcount & Hr & Hrank & _).
  unfold heap_insert. cbv zeta.
  change (u8 (Z.lor (ov_mask o) (overlay_bit b))) with m'. fold m in Hn, Hi. fold m' n r in Hcount, Hr, Hrank, Hn, Hi.
  rewrite Hcount, Hrank.
  set (alloc := if Nat.ltb (length keys) (S n) then next_pow2 (S n) else length keys).
  assert (S n <= alloc /\ length keys <= alloc)%nat as [Ha Ha'].
  { unfold alloc. pose proof (next_pow2_le (S n)). destruct (Nat.ltb_spec (length keys) (S n)); lia. }
  replace (Nat.leb (S n) alloc) with true by (symmetry; by apply Nat.leb_le).
  replace (Nat.ltb r alloc) with true by (symmetry; apply Nat.ltb_lt; lia). unfold asserting at 1 2. cbn [orb].
  set (keys1 := keys ++ replicate (alloc - length keys) None).
  assert (length keys1 = alloc) as Hl1 by (unfold keys1; rewrite length_app, length_replicate; lia).
  destruct (shifted_heap keys1) as (keys2 & Hsh & Hl2 & Hi2).
  { lia. }
  { intros i Hin. unfold keys1. apply lookup_app_l. lia. }
  rewrite Hl1 in Hsh, Hl2. rewrite Hsh. cbn [result_bind]. rewrite Hc.
  assert (inserted o b key
    (let+ keys := heap_write keys2 (overlay_rank m' b) key in Ok (Some (mk_overlays m' false (OvHeap keys))))) as H.
  { apply write_heap; [done|done| |].
    - fold m m'. unfold heap_ok. rewrite length_insert, Hcount, Hrank. split; [lia|]. split; [lia|].
      intros i Hin. destruct (decide (i = r)) as [->|Hne]; [rewrite list_lookup_insert_eq by lia; eauto|].
      rewrite list_lookup_insert_ne by done. destruct (lt_dec i r) as [Hlt|Hge].
      + destruct (Hi i) as [k Hik]; [lia|]. exists k. rewrite <- Hik, <- (Hi2 i) by lia.
        by replace (Nat.ltb i r) with true by (symmetry; by apply Nat.ltb_lt).
      + destruct (Hi (i - 1)%nat) as [k Hik]; [lia|]. exists k. rewrite <- Hik, <- (Hi2 (i - 1)%nat) by lia.
        replace (Nat.ltb (i - 1) r) with false by (symmetry; apply Nat.ltb_ge; lia). f_equal. lia.
    - intros b' Hb' Hne Hh. fold m m'.
      destruct (get_heap_old o b' Hok Hb' Hh) as (keys' & k & Es & _ & Hkey & Hget).
      { unfold ov_alloc. rewrite Hs. unfold n, m in *. lia. }
      assert (keys' = keys) as -> by congruence. exists k. split; [|done].
      destruct (rank_lt m b' b' Hm Hb' Hb' Hh) as [Hlt _]. fold n in Hlt.
      rewrite <- Hkey. fold m. rewrite <- (Hi2 (overlay_rank m b')) by done. f_equal.
      destruct (rank_new m b b' Hm Hb Hb' Hnew) as (_ & _ & _ & Hr'). specialize (Hr' Hh). fold r m' in Hr'.
      destruct (Nat.ltb_spec b' b); destruct Hr' as [-> Hle].
      + by replace (Nat.ltb _ r) with true by (symmetry; by apply Nat.ltb_lt).
      + by replace (Nat.ltb _ r) with false by (symmetry; by apply Nat.ltb_ge). }
  rewrite Hrank in H. destruct (heap_write keys2 r key); exact H.
Qed.
End heap_insert.

(** The promotion of an inline key to an array. *)
Lemma promote_ok o b key overlay_key :
  ov_ok o -> ov_storage o = OvInline overlay_key -> (b < 8)%nat -> ov_mask o <> 0 ->
  (ov_clear o = true \/ has_overlay (ov_mask o) b = false) ->
  let overlays := add_overlay (ov_mask o) b in
  inserted o b key
    (let+ tmp := if ov_clear o then Ok (replicate (overlays_count overlays) (Some None))
                 else heap_write (replicate (overlays_count overlays) (Some None))
                        (Z.to_nat (popcount32 (Z.land overlays (u8 (ov_mask o - 1))))) overlay_key in
     let+ tmp := heap_write tmp (overlay_rank overlays b) key in
     Ok (Some (mk_overlays overlays false (OvHeap tmp)))).
Proof.
  intros Hok Hs Hb Hnz Hcase overlays. pose proof Hok as [Hm Ho]. rewrite Hs in Ho.
  assert (0 <= overlays < 256) as Hm' by (by apply (add_overlay_range (ov_mask o) b b)).
  assert (has_overlay overlays b = true) as Hhb
    by (unfold overlays; rewrite (has_add_overlay _ b b) by done; by rewrite Nat.eqb_refl).
  destruct (rank_lt overlays b b Hm' Hb Hb Hhb) as [Hlt _].
  assert (forall keys, length keys = overlays_count overlays ->
    (forall i, (i < overlays_count overlays)%nat -> exists k, keys !! i = Some (Some k)) ->
    heap_ok overlays (<[overlay_rank overlays b := Some key]> keys)) as Hheap.
  { intros keys Hl Hi. unfold heap_ok. rewrite length_insert, Hl. split; [lia|]. split; [lia|].
    intros i Hin. destruct (decide (i = overlay_rank overlays b)) as [->|Hne];
      [rewrite list_lookup_insert_eq by lia; eauto|].
    rewrite list_lookup_insert_ne by done. by apply Hi. }
  destruct (ov_clear o) eqn:Hc; cbn [result_bind].
  - apply write_heap; [done|done| |].
    + apply Hheap; [by rewrite length_replicate|]. intros i Hin. exists None. by apply lookup_replicate.
    + intros b' Hb' Hne Hh. exists None. split.
      * apply lookup_replicate. split; [done|]. apply (rank_lt overlays b' b'); [done|done|done|].
        unfold overlays. rewrite (has_add_overlay _ b b') by done. rewrite Hh. apply orb_true_r.
      * unfold ov_get. rewrite Hc, Hh. by replace (Nat.ltb b' 8) with true by (symmetry; by apply Nat.ltb_lt).
  - destruct Hcase as [Hcase|Hcase]; [done|]. destruct Ho as [[Hz _] | (b0 & Hb0 & Hm0 & Hkey)]; [done|].
    destruct (single_facts b0 Hb0) as (_ & Hu & _ & _).
    replace (u8 (ov_mask o - 1)) with (overlay_bit b0 - 1) by (by rewrite Hm0).
    change (Z.to_nat (popcount32 (Z.land overlays (overlay_bit b0 - 1)))) with (overlay_rank overlays b0).
    assert (has_overlay overlays b0 = true) as Hh0.
    { unfold overlays. rewrite (has_add_overlay _ b b0) by done. rewrite Hm0, has_single by done.
      rewrite Nat.eqb_refl. apply orb_true_r. }
    destruct (rank_lt overlays b0 b0 Hm' Hb0 Hb0 Hh0) as [Hlt0 _].
    unfold heap_write at 1. rewrite length_replicate.
    replace (Nat.ltb _ _) with true by (symmetry; by apply Nat.ltb_lt). cbn [result_bind].
    apply write_heap; [done|done| |].
    + apply Hheap; [by rewrite length_insert, length_replicate|].
      intros i Hin. destruct (decide (i = overlay_rank overlays b0)) as [->|Hne].
      * rewrite list_lookup_insert_eq by (by rewrite length_replicate). eauto.
      * rewrite list_lookup_insert_ne by done. exists None. by apply lookup_replicate.
    + intros b' Hb' Hne Hh. assert (b' = b0) as ->.
      { rewrite Hm0, has_single in Hh by done. symmetry. by apply Nat.eqb_eq. }
      exists overlay_key. split.
      * rewrite list_lookup_insert_eq by (by rewrite length_replicate). done.
      * unfold ov_get. rewrite Hc, Hs, Hh. by replace (Nat.ltb b0 8) with true by (symmetry; by apply Nat.ltb_lt).
Qed.

Lemma insert_inline o b key overlay_key :
  ov_ok o -> ov_storage o = OvInline overlay_key -> (b < 8)%nat ->
  (ov_mask o = 0 \/ (ov_clear o = true /\ key = None) \/
   (ov_clear o = false /\ has_overlay (ov_mask o) b = true)) ->
  inserted o b key
    (Ok (Some (mk_overlays (add_overlay (ov_mask o) b) (negb (bool_decide (is_Some key))) (OvInline key)))).
Proof.
  intros Hok Hs Hb Hcase. pose proof Hok as [Hm Ho]. rewrite Hs in Ho.
  assert (add_overlay 0 b = overlay_bit b) as H0.
  { clear - Hb. do 8 (destruct b as [|b]; [reflexivity|]). lia. }
  eexists. split; [done|]. split; [split|].
  - by apply (add_overlay_range (ov_mask o) b b).
  - cbn [ov_storage ov_clear ov_mask]. destruct key as [key|]; [|done]. rewrite bool_decide_true by done. cbn [negb].
    right. exists b. split; [done|]. split; [|done].
    destruct Hcase as [-> | [[_ ?] | [Hc Hh]]]; [done|done|].
    rewrite Hc in Ho. destruct Ho as [[Hz _] | (b0 & Hb0 & Hm0 & _)]; [by rewrite Hz, has_overlay_0 in Hh|].
    destruct (rank_lt (ov_mask o) b b Hm Hb Hb Hh) as [_ ->].
    rewrite Hm0, has_single in Hh by done. apply Nat.eqb_eq in Hh as ->. done.
  - split; [done|]. split.
    { intros _. right. unfold ov_alloc. by rewrite Hs. }
    intros b'. unfold set_overlay, ov_get at 1. cbn [ov_mask ov_clear ov_storage].
    destruct (Nat.ltb_spec b' 8) as [Hb'|Hb']; cbn [andb].
    2: { replace (Nat.eqb b b') with false by (symmetry; apply Nat.eqb_neq; lia).
         unfold ov_get. by replace (Nat.ltb b' 8) with false by (symmetry; apply Nat.ltb_ge; lia). }
    rewrite (has_add_overlay _ b b') by done. destruct (Nat.eqb_spec b b') as [<-|Hne]; cbn [orb].
    { destruct key; [by rewrite bool_decide_true|by rewrite bool_decide_false by (by intros [])]. }
    unfold ov_get. replace (Nat.ltb b' 8) with true by (symmetry; by apply Nat.ltb_lt). cbn [andb].
    destruct (has_overlay (ov_mask o) b') eqn:Hh'; [|done].
    destruct Hcase as [Hz | [[Hc ->] | [Hc Hh]]].
    + by rewrite Hz, has_overlay_0 in Hh'.
    + by rewrite Hc, bool_decide_false by (by intros []).
    + rewrite Hc in Ho. destruct Ho as [[Hz _] | (b0 & Hb0 & Hm0 & _)]; [by rewrite Hz, has_overlay_0 in Hh|].
      rewrite Hm0, has_single in Hh, Hh' by done. apply Nat.eqb_eq in Hh, Hh'. congruence.
Qed.

Lemma heap_nonzero mask keys : heap_ok mask keys -> mask <> 0.
Proof. intros (_ & Hp & _) ->. rewrite count_zero in Hp. lia. Qed.

Lemma overlays_insert_ok o b key : ov_ok o -> (b < 8)%nat -> inserted o b key (overlays_insert o b key).
Proof.
  intros Hok Hb. pose proof Hok as [Hm Ho]. unfold overlays_insert. rewrite (leb_8 b Hb). cbv zeta.
  change (has_flag (ov_mask o) (overlay_bit b)) with (has_overlay (ov_mask o) b).
  change (u8 (Z.lor (ov_mask o) (overlay_bit b))) with (add_overlay (ov_mask o) b).
  destruct (ov_storage o) as [k|keys|a] eqn:Hs; [| |done].
  - destruct (has_overlay (ov_mask o) b && negb (ov_clear o)) eqn:Hset.
    { apply andb_true_iff in Hset as [Hh Hc%negb_true_iff].
      pose proof (insert_inline o b key k Hok Hs Hb) as H. destruct (rank_lt (ov_mask o) b b Hm Hb Hb Hh) as [_ Hsame].
      rewrite Hsame in H. rewrite Hc. cbn [orb]. apply H. auto. }
    destruct ((ov_mask o =? 0) || (ov_clear o && negb (bool_decide (is_Some key)))) eqn:Hin.
    + unfold set_overlay_key. rewrite Hs. cbn [result_bind]. apply (insert_inline o b key k Hok Hs Hb).
      apply orb_true_iff in Hin as [H%Z.eqb_eq | [Hc Hk%negb_true_iff%bool_decide_eq_false]%andb_true_iff]; [auto|].
      right; left. split; [done|]. destruct key; [|done]. exfalso. by apply Hk.
    + apply orb_false_iff in Hin as [Hnz%Z.eqb_neq _]. apply (promote_ok o b key k); try done.
      apply andb_false_iff in Hset as [|?%negb_false_iff]; auto.
  - destruct Ho as [Hc Hk]. rewrite Hc. cbn [negb andb]. rewrite andb_true_r, orb_false_r.
    destruct (has_overlay (ov_mask o) b) eqn:Hh.
    + destruct (rank_lt (ov_mask o) b b Hm Hb Hb Hh) as [Hlt Hsame].
      pose proof (write_heap o b key keys Hm Hb) as H. rewrite Hsame in H. apply H.
      * destruct Hk as (Hl & Hp & Hi). unfold heap_ok. rewrite length_insert. split; [done|]. split; [done|].
        intros i Hin. destruct (decide (i = overlay_rank (ov_mask o) b)) as [->|Hne];
          [rewrite list_lookup_insert_eq by lia; eauto|].
        rewrite list_lookup_insert_ne by done. by apply Hi.
      * intros b' Hb' _ Hh'. destruct (get_heap_old o b' Hok Hb' Hh') as (keys' & k & Es & _ & Hkey & Hget).
        { unfold ov_alloc. rewrite Hs. destruct Hk. lia. }
        exists k. split; [|done]. congruence.
    + replace (ov_mask o =? 0) with false by (symmetry; apply Z.eqb_neq; by eapply heap_nonzero).
      by apply heap_insert_ok.
Qed.

(** The overlays of a key are a map: from well-formed fields, an insertion
    is in bounds and leaves well-formed fields, in which the overlay has its new
    key and the other overlays are unchanged, whether they are stored inline or
    in the sparse array. *)
Theorem overlays_insert_spec (o : overlays_info) (b : nat) (key : option nat) :
  ov_ok o -> (b < 8)%nat ->
  exists o', overlays_insert o b key = Ok (Some o') /\ ov_ok o' /\
    forall b', overlays_get o' b' = if Nat.eqb b b' then Ok (Some key) else overlays_get o b'.
Proof.
  intros Hok Hb. destruct (overlays_insert_ok o b key Hok Hb) as (o' & Ho' & Hok' & _ & _ & Hget).
  exists o'. split; [done|]. split; [done|]. intros b'. rewrite !overlays_get_ok by done. rewrite Hget.
  unfold set_overlay. by destruct (Nat.eqb b b').
Qed.

(** Overlays 1, 4 and 6 with keys, and overlay 3 removed. *)
Definition sample_overlays : overlays_info :=
  mk_overlays 90 false (OvHeap [Some (Some 11%nat); Some None; Some (Some 14%nat); Some (Some 16%nat)]).

Lemma sample_overlays_ok : ov_ok sample_overlays.
Proof.
  split; [cbn; lia|]. split; [done|]. split; [vm_compute; lia|]. split; [vm_compute; lia|].
  intros i Hi. change (overlays_count (ov_mask sample_overlays)) with 4%nat in Hi.
  do 4 (destruct i as [|i]; [eexists; reflexivity|]). lia.
Defined.

Lemma overlays_insert_spec_witness :
  (ov_ok sample_overlays /\ (2 < 8)%nat) /\
  exists o', overlays_insert sample_overlays 2 (Some 12%nat) = Ok (Some o') /\ ov_ok o' /\
    forall b', overlays_get o' b' = if Nat.eqb 2 b' then Ok (Some (Some 12%nat)) else overlays_get sample_overlays b'.
Proof.
  split; [split; [exact sample_overlays_ok|lia]|].
  apply (overlays_insert_spec sample_overlays 2 (Some 12%nat)); [exact sample_overlays_ok|lia].
Defined.

Example sample_insert :
  overlays_insert sample_overlays 2 (Some 12%nat) =
  Ok (Some (mk_overlays 94 false
    (OvHeap [Some (Some 11%nat); Some (Some 12%nat); Some None; Some (Some 14%nat); Some (Some 16%nat); None; None; None]))).
Proof. vm_compute. reflexivity. Qed.

(** ** The merge *)

Definition merge_overlay (clobber : bool) (x y : option (option nat)) : option (option nat) :=
  match x, y with
  | Some x, Some y => Some (if clobber then y else x)
  | Some x, None => Some x
  | None, y => y
  end.

Definition overlays_differ (x y : option (option nat)) : bool :=
  match x, y with Some x, Some y => negb (bool_decide (x = y)) | _, _ => false end.

Lemma merge_overlay_swap clobber x y : merge_overlay (negb clobber) y x = merge_overlay clobber x y.
Proof. by destruct clobber, x, y. Qed.

Lemma overlays_differ_swap x y : overlays_differ y x = overlays_differ x y.
Proof.
  destruct x as [x|], y as [y|]; cbn; try done. f_equal. apply bool_decide_ext. split; congruence.
Qed.

(** The keys of the source from the overlay [bits] on. *)
Definition src_keys_ok (bits : list nat) (src_keys : option (list (option (option nat)))) (f : nat -> option nat) : Prop :=
  forall j b, bits !! j = Some b ->
    match src_keys with None => f b = None | Some keys => keys !! j = Some (Some (f b)) end.

(** The merge of the keys [f] of [bits]. *)
Definition merged_bits (clobber report : bool) (f : nat -> option nat) (bits : list nat) (dest : overlays_info)
    (collide : bool) (r : result (option (overlays_info * bool))) : Prop :=
  exists dest',
    r = Ok (Some (dest', collide || (report && existsb (fun b => overlays_differ (ov_get dest b) (Some (f b))) bits))) /\
    ov_ok dest' /\
    forall b, ov_get dest' b = if bool_decide (b ∈ bits) then merge_overlay clobber (ov_get dest b) (Some (f b))
                               else ov_get dest b.

Lemma existsb_ext_elem {A} (P Q : A -> bool) l : (forall x, x ∈ l -> P x = Q x) -> existsb P l = existsb Q l.
Proof.
  induction l as [|x l IH]; cbn; [done|]. intros H. rewrite (H x) by left. f_equal. apply IH.
  intros y Hy. apply H. by right.
Qed.

Lemma merged_bits_cons clobber report f b bits dest dest1 collide collide1 r :
  b ∉ bits ->
  (forall b', ov_get dest1 b' = if Nat.eqb b b' then merge_overlay clobber (ov_get dest b) (Some (f b)) else ov_get dest b') ->
  collide1 = collide || (report && overlays_differ (ov_get dest b) (Some (f b))) ->
  merged_bits clobber report f bits dest1 collide1 r ->
  merged_bits clobber report f (b :: bits) dest collide r.
Proof.
  intros Hnotin Hget1 -> (dest' & Hr & Hok' & Hget'). exists dest'. split; [|split; [done|]].
  - rewrite Hr. cbn [existsb]. rewrite <- orb_assoc, andb_orb_distrib_r. do 6 f_equal. apply existsb_ext_elem.
    intros b' Hb'. rewrite Hget1. replace (Nat.eqb b b') with false; [done|].
    symmetry. apply Nat.eqb_neq. by intros <-.
  - intros b'. rewrite Hget', Hget1. destruct (Nat.eqb_spec b b') as [<-|Hne].
    + rewrite bool_decide_false by done. rewrite bool_decide_true by left. done.
    + rewrite (bool_decide_ext (b' ∈ b :: bits) (b' ∈ bits)); [done|].
      rewrite list.elem_of_cons. naive_solver.
Qed.

Lemma merge_bits_ok src_inline clobber report f bits : forall src_keys dest collide,
  NoDup bits -> Forall (fun b => (b < 8)%nat) bits -> (src_inline = true -> (length bits <= 1)%nat) ->
  src_keys_ok bits src_keys f -> ov_ok dest ->
  merged_bits clobber report f bits dest collide (merge_bits src_inline clobber report bits src_keys dest collide).
Proof.
  induction bits as [|b bits IH]; intros src_keys dest collide Hnd Hb Hin Hsrc Hok.
  { exists dest. cbn. rewrite andb_false_r, orb_false_r. done. }
  apply list.NoDup_cons in Hnd as [Hnotin Hnd]. apply list.Forall_cons in Hb as [Hb Hbs].
  cbn [merge_bits]. replace (negb src_inline || Nat.eqb (length bits) 0) with true.
  2: { destruct src_inline; [|done]. specialize (Hin eq_refl). cbn in Hin. symmetry. apply orb_true_iff. right.
       apply Nat.eqb_eq. lia. }
  unfold asserting.
  assert ((match src_keys with None => Ok None | Some keys => heap_read keys 0 end) = Ok (f b)) as ->.
  { specialize (Hsrc 0%nat b eq_refl). destruct src_keys as [keys|]; [|by rewrite Hsrc].
    unfold heap_read. by rewrite Hsrc. }
  cbn [result_bind]. rewrite overlays_get_ok by done. cbn [result_bind].
  assert (src_keys_ok bits (option_map (drop 1) src_keys) f) as Hsrc'.
  { intros j b' Hj. specialize (Hsrc (S j) b' Hj). destruct src_keys as [keys|]; [|done].
    cbn [option_map]. by rewrite lookup_drop. }
  assert (forall dest1 collide1, ov_ok dest1 ->
    merged_bits clobber report f bits dest1 collide1
      (merge_bits src_inline clobber report bits (option_map (drop 1) src_keys) dest1 collide1)) as Hrest.
  { intros. apply IH; try done. intros E. specialize (Hin E). cbn in Hin. lia. }
  destruct (overlays_insert_ok dest b (f b) Hok Hb) as (dest1 & Hins & Hok1 & _ & _ & Hget1).
  destruct (ov_get dest b) as [k|] eqn:Hk.
  - destruct (bool_decide (k = f b)) eqn:E.
    + eapply merged_bits_cons; [done| | |by apply Hrest].
      * intros b'. destruct (Nat.eqb_spec b b') as [<-|]; [|done]. rewrite Hk. apply bool_decide_eq_true in E as ->.
        by destruct clobber.
      * rewrite Hk. cbn. rewrite E. cbn. by rewrite andb_false_r, orb_false_r.
    + destruct clobber.
      * rewrite Hins. cbn. eapply merged_bits_cons; [done| | |by apply Hrest].
        -- intros b'. rewrite Hget1. unfold set_overlay. destruct (Nat.eqb_spec b b') as [<-|]; [|done]. by rewrite Hk.
        -- rewrite Hk. cbn. rewrite E. cbn. by rewrite andb_true_r.
      * eapply merged_bits_cons; [done| | |by apply Hrest].
        -- intros b'. destruct (Nat.eqb_spec b b') as [<-|]; [|done]. by rewrite Hk.
        -- rewrite Hk. cbn. rewrite E. cbn. by rewrite andb_true_r.
  - rewrite Hins. cbn. eapply merged_bits_cons; [done| | |by apply Hrest].
    + intros b'. rewrite Hget1. unfold set_overlay. destruct (Nat.eqb_spec b b') as [<-|]; [|done]. by rewrite Hk.
    + rewrite Hk. cbn. by rewrite andb_false_r, orb_false_r.
Qed.

(** The overlays of a source, in order. *)
Definition source_fact (m : Z) (j : nat) : bool :=
  match overlay_bits m !! j with
  | Some b => Nat.ltb b 8 && has_overlay m b && Nat.eqb (overlay_rank m b) j
  | None => true
  end.

Lemma source_facts m j b : 0 <= m < 256 -> overlay_bits m !! j = Some b ->
  (b < 8)%nat /\ has_overlay m b = true /\ overlay_rank m b = j.
Proof.
  intros Hm Hj. assert (j < 8)%nat as Hlt.
  { apply lookup_lt_Some in Hj. eapply Nat.lt_le_trans; [done|]. apply (length_filter _ (seq 0 8)). }
  assert (forallb (fun m => forallb (source_fact m) (seq 0 8)) all_masks = true) as H by (vm_compute; reflexivity).
  pose proof (check_masks _ m H Hm) as H1. pose proof (check_bits _ j H1 Hlt) as H2.
  unfold source_fact in H2. rewrite Hj in H2. apply andb_true_iff in H2 as [[? ?]%andb_true_iff ?].
  split; [by apply Nat.ltb_lt|]. split; [done|by apply Nat.eqb_eq].
Qed.

Lemma elem_overlay_bits m b : b ∈ overlay_bits m <-> (b < 8)%nat /\ has_overlay m b = true.
Proof.
  unfold overlay_bits. rewrite list_elem_of_filter, elem_of_seq. unfold has_overlay. naive_solver lia.
Qed.

Lemma NoDup_overlay_bits m : NoDup (overlay_bits m).
Proof. apply list.NoDup_filter, NoDup_seq. Qed.

Lemma existsb_filter {A} (P : A -> bool) (Q : A -> Prop) `{forall x, Decision (Q x)} l :
  (forall x, ~ Q x -> P x = false) -> existsb P (filter Q l) = existsb P l.
Proof.
  intros HQ. induction l as [|x l IH]; cbn; [done|]. rewrite <- IH. destruct (decide (Q x)); [done|].
  by rewrite (HQ x).
Qed.

Lemma ov_get_none src b : ~ (has_overlay (ov_mask src) b = true /\ (b < 8)%nat) -> ov_get src b = None.
Proof.
  intros Hn. unfold ov_get. destruct (Nat.ltb_spec b 8); cbn [andb]; [|done].
  destruct (has_overlay (ov_mask src) b) eqn:Hh; [|done]. exfalso. by apply Hn.
Qed.

Lemma ov_get_some src b : has_overlay (ov_mask src) b = true -> (b < 8)%nat -> exists k, ov_get src b = Some k.
Proof.
  intros Hh Hb. unfold ov_get. rewrite Hh. replace (Nat.ltb b 8) with true by (symmetry; by apply Nat.ltb_lt). eauto.
Qed.

Definition source_key (src : overlays_info) (b : nat) : option nat :=
  match ov_get src b with Some k => k | None => None end.

Lemma source_keys src : ov_ok src ->
  src_keys_ok (overlay_bits (ov_mask src))
    (if ov_clear src then None
     else match ov_storage src with OvInline key => Some [Some key] | OvHeap keys => Some keys | OvLost _ => None end)
    (source_key src) /\
  (negb (ov_clear src) && Nat.eqb (ov_alloc src) 0 = true -> (length (overlay_bits (ov_mask src)) <= 1)%nat).
Proof.
  intros Hok. pose proof Hok as [Hm Ho]. split.
  - intros j b Hj. destruct (source_facts _ _ _ Hm Hj) as (Hb & Hh & Hr).
    unfold source_key, ov_get. rewrite Hh. replace (Nat.ltb b 8) with true by (symmetry; by apply Nat.ltb_lt). cbn [andb].
    destruct (ov_clear src) eqn:Hc; [done|]. destruct (ov_storage src) as [k|keys|a] eqn:Hs; [| |done].
    + destruct Ho as [[Hz _] | (b0 & Hb0 & Hm0 & _)]; [by rewrite Hz, has_overlay_0 in Hh|].
      rewrite Hm0, has_single in Hh by done. apply Nat.eqb_eq in Hh as ->.
      rewrite Hm0 in Hr. destruct (single_facts b Hb) as (_ & _ & _ & Hr0). rewrite Hr0 in Hr. by subst j.
    + destruct Ho as [_ Hk]. destruct (heap_read_ok _ _ b Hk Hm Hb Hh) as [k Hkey]. rewrite Hkey. by rewrite <- Hr.
  - intros [Hc%negb_true_iff Ha%Nat.eqb_eq]%andb_true_iff. unfold ov_alloc in Ha. rewrite Hc in Ho.
    destruct (ov_storage src) as [k|keys|a]; [| |done].
    + destruct Ho as [[-> _] | (b0 & Hb0 & -> & _)]; [vm_compute; lia|].
      clear -Hb0. do 8 (destruct b0 as [|b0]; [vm_compute; lia|]). lia.
    + destruct Ho as [_ (Hl & Hp & _)]. lia.
Qed.

Definition merged (clobber report : bool) (x y : overlays_info) (r : result (option (overlays_info * bool))) : Prop :=
  exists o', r = Ok (Some (o', report && existsb (fun b => overlays_differ (ov_get x b) (ov_get y b)) (seq 0 8))) /\
    ov_ok o' /\ forall b, ov_get o' b = merge_overlay clobber (ov_get x b) (ov_get y b).

Lemma merge_into_ok dest src clobber report : ov_ok dest -> ov_ok src ->
  merged clobber report dest src (merge_into dest src clobber report).
Proof.
  intros Hok Hsrc. unfold merge_into. cbv zeta. destruct (source_keys src Hsrc) as [Hkeys Hinl].
  assert (Forall (fun b => (b < 8)%nat) (overlay_bits (ov_mask src))) as Hbits.
  { apply list.Forall_forall. intros b Hb. by apply elem_overlay_bits in Hb as []. }
  assert (forall b, b ∈ overlay_bits (ov_mask src) -> ov_get src b = Some (source_key src b)) as Hsome.
  { intros b [Hb Hh]%elem_overlay_bits. unfold source_key. by destruct (ov_get_some src b Hh Hb) as [k ->]. }
  assert (forall b, b ∉ overlay_bits (ov_mask src) -> ov_get src b = None) as Hnone.
  { intros b Hn. apply ov_get_none. intros [Hh Hb]. by apply Hn, elem_overlay_bits. }
  destruct (merge_bits_ok (negb (ov_clear src) && Nat.eqb (ov_alloc src) 0) clobber report (source_key src)
    (overlay_bits (ov_mask src)) _ dest false (NoDup_overlay_bits _) Hbits Hinl Hkeys Hok) as (dest' & Hr & Hok' & Hget).
  exists dest'. split; [|split; [done|]].
  - rewrite Hr. cbn [orb]. do 4 f_equal.
    rewrite (existsb_ext_elem _ (fun b => overlays_differ (ov_get dest b) (ov_get src b))) by (intros b Hb; by rewrite Hsome).
    apply existsb_filter. intros b Hn. rewrite (ov_get_none src b); [by destruct (ov_get dest b)|]. by intros [? _].
  - intros b. rewrite Hget. destruct (decide (b ∈ overlay_bits (ov_mask src))) as [Hb|Hb].
    + rewrite bool_decide_true by done. by rewrite Hsome.
    + rewrite bool_decide_false by done. rewrite Hnone by done. by destruct (ov_get dest b).
Qed.

(** The storage of the destination: the array has room for the overlays. *)
Lemma grow_ok dest count : ov_ok dest -> ov_mask dest <> 0 -> ov_clear dest = false ->
  (1 <= count)%nat -> (ov_alloc dest <= count)%nat ->
  ov_ok (grow_overlays dest count) /\ forall b, ov_get (grow_overlays dest count) b = ov_get dest b.
Proof.
  intros [Hm Ho] Hnz Hc Hcount Hle. unfold grow_overlays. unfold ov_alloc in Hle. rewrite Hc in *.
  destruct (ov_storage dest) as [key|keys|a] eqn:Hs; [| |done].
  - destruct Ho as [[? _] | (b0 & Hb0 & Hm0 & [k ->])]; [done|].
    destruct (single_facts b0 Hb0) as (_ & _ & H1 & H2).
    assert (<[0%nat:=Some (Some k)]> (replicate count (Some None)) !! 0%nat = Some (Some (Some k))) as Hk.
    { apply list_lookup_insert_eq. rewrite length_replicate. lia. }
    split.
    + split; [done|]. cbn [ov_storage ov_clear ov_mask]. split; [done|]. unfold heap_ok.
      rewrite length_insert, length_replicate, Hm0, H1. split; [lia|]. split; [lia|].
      intros i Hi. assert (i = 0%nat) as -> by lia. exists (Some k). exact Hk.
    + intros b. unfold ov_get. cbn [ov_storage ov_clear ov_mask]. rewrite Hc, Hs, Hm0.
      destruct (Nat.ltb_spec b 8) as [Hb|]; cbn [andb]; [|done]. rewrite has_single by done.
      destruct (Nat.eqb_spec b0 b) as [<-|]; [|done]. by rewrite H2, Hk.
  - destruct Ho as [_ Hk]. rewrite take_ge by done. pose proof Hk as (Hl & Hp & Hi).
    assert (forall i, (i < overlays_count (ov_mask dest))%nat ->
      (keys ++ replicate (count - length keys) None) !! i = keys !! i) as Hold.
    { intros i Hlt. apply lookup_app_l. lia. }
    split.
    + split; [done|]. cbn [ov_storage ov_clear ov_mask]. split; [done|]. unfold heap_ok. rewrite length_app.
      split; [lia|]. split; [done|]. intros i Hlt. rewrite Hold by done. by apply Hi.
    + intros b. unfold ov_get. cbn [ov_storage ov_clear ov_mask]. rewrite Hc, Hs.
      destruct (Nat.ltb_spec b 8) as [Hb|]; cbn [andb]; [|done].
      destruct (has_overlay (ov_mask dest) b) eqn:Hh; [|done].
      rewrite Hold; [done|]. by apply (rank_lt (ov_mask dest) b b).
Qed.

Lemma merged_swap clobber report x y r : merged (negb clobber) report y x r -> merged clobber report x y r.
Proof.
  intros (o' & Hr & Hok & Hget). exists o'. split; [|split; [done|]].
  - rewrite Hr. do 4 f_equal. apply existsb_ext_elem. intros b _. apply overlays_differ_swap.
  - intros b. by rewrite Hget, merge_overlay_swap.
Qed.

Lemma merged_grow clobber report x x' y r : (forall b, ov_get x' b = ov_get x b) ->
  merged clobber report x' y r -> merged clobber report x y r.
Proof.
  intros Hx (o' & Hr & Hok & Hget). exists o'. split; [|split; [done|]].
  - rewrite Hr. do 4 f_equal. apply existsb_ext_elem. intros b _. by rewrite Hx.
  - intros b. by rewrite Hget, Hx.
Qed.

Lemma lor_range x y : 0 <= x < 256 -> 0 <= y < 256 -> 0 <= Z.lor x y < 256.
Proof.
  intros Hx Hy. split; [apply Z.lor_nonneg; lia|]. destruct (Z.eq_dec (Z.lor x y) 0) as [->|Hn]; [lia|].
  assert (0 <= Z.lor x y) by (apply Z.lor_nonneg; lia).
  apply (Z.log2_lt_pow2 _ 8); [lia|]. rewrite Z.log2_lor by lia.
  assert (forall z, 0 <= z < 256 -> Z.log2 z < 8) as Hl.
  { intros z Hz. destruct (Z.eq_dec z 0) as [->|]; [done|]. apply Z.log2_lt_pow2; lia. }
  apply Z.max_lub_lt; by apply Hl.
Qed.

Lemma count_or_pos x y : 0 <= x < 256 -> 0 <= y < 256 -> x <> 0 -> (1 <= overlays_count (Z.lor x y))%nat.
Proof.
  intros Hx Hy Hnz.
  assert (forallb (fun m => (m =? 0) || Nat.leb 1 (overlays_count m)) all_masks = true) as H by (vm_compute; reflexivity).
  pose proof (check_masks _ _ H (lor_range x y Hx Hy)) as H1. cbn beta in H1.
  apply orb_true_iff in H1 as [H1%Z.eqb_eq|H1%Nat.leb_le]; [|done].
  apply Z.lor_eq_0_iff in H1 as []. done.
Qed.

Lemma has_overlay_lor x y b : has_overlay (Z.lor x y) b = has_overlay x b || has_overlay y b.
Proof.
  unfold has_overlay, has_flag. rewrite Z.land_lor_distr_l. apply eq_true_iff_eq.
  rewrite orb_true_iff, !negb_true_iff, !Z.eqb_neq. rewrite Z.lor_eq_0_iff.
  destruct (Z.eq_dec (Z.land x (overlay_bit b)) 0); tauto.
Qed.

(** The new overlays of a cleared key are lost when its storage is promoted: the
    merge below is for the other cases. *)
Definition cleared_grows (into from : overlays_info) : bool :=
  ov_clear into && negb (ov_clear from) && Nat.eqb (ov_alloc from) 0 && Nat.ltb 1 (overlays_count (Z.lor (ov_mask into) (ov_mask from))).

Lemma merge_overlapping_ok into from clobber report :
  ov_ok into -> ov_ok from -> ov_mask into <> 0 -> ov_mask from <> 0 -> cleared_grows into from = false ->
  ov_clear into && ov_clear from = false ->
  merged clobber report into from (merge_overlapping into from clobber report).
Proof.
  intros Hi Hf Hzi Hzf Hcg Hcc. unfold merge_overlapping. cbv zeta.
  set (count := overlays_count (Z.lor (ov_mask into) (ov_mask from))).
  assert (1 <= count)%nat as Hc.
  { apply count_or_pos; [apply Hi|apply Hf|done]. }
  replace (Nat.eqb count 0) with false by (symmetry; apply Nat.eqb_neq; lia).
  destruct (Nat.leb count (ov_alloc into) && Nat.leb (ov_alloc from) (ov_alloc into)) eqn:E1; [by apply merge_into_ok|].
  destruct (Nat.leb_spec count (ov_alloc from)) as [E2|E2]; [by apply merged_swap, merge_into_ok|].
  destruct (Nat.ltb_spec 1 count) as [E3|E3]; [|by apply merge_into_ok].
  assert (forall o, ov_ok o -> ov_alloc o <> 0%nat -> ov_clear o = false) as Hheap.
  { intros o [_ Ho] Ha. unfold ov_alloc in Ha. destruct (ov_storage o); [done|by destruct Ho|done]. }
  destruct (Nat.ltb_spec (ov_alloc into) (ov_alloc from)) as [E4|E4].
  - destruct (grow_ok from count) as [Hg Hgg]; [done|done|apply Hheap; [done|lia]|done|lia|].
    apply merged_swap, (merged_grow _ _ _ (grow_overlays from count)); [done|]. by apply merge_into_ok.
  - assert (ov_clear into = false) as Hci.
    { destruct (decide (ov_alloc into = 0%nat)) as [Ha|Ha]; [|by apply Hheap].
      unfold cleared_grows in Hcg. fold count in Hcg. destruct (ov_clear into); [|done]. cbn [andb] in Hcc. rewrite Hcc in Hcg.
      replace (Nat.eqb (ov_alloc from) 0) with true in Hcg by (symmetry; apply Nat.eqb_eq; lia).
      replace (Nat.ltb 1 count) with true in Hcg by (symmetry; by apply Nat.ltb_lt). done. }
    destruct (grow_ok into count) as [Hg Hgg]; [done|done|done|done| |].
    { apply andb_false_iff in E1 as [H%Nat.leb_gt|H%Nat.leb_gt]; lia. }
    apply (merged_grow _ _ _ (grow_overlays into count)); [done|]. by apply merge_into_ok.
Qed.

(** Two definitions that only clear overlays. *)
Lemma merge_cleared_ok into from clobber report : ov_ok into -> ov_ok from -> ov_clear into = true -> ov_clear from = true ->
  merged clobber report into from
    (Ok (Some (mk_overlays (Z.lor (ov_mask into) (ov_mask from)) true (ov_storage into), false))).
Proof.
  intros [Hi Ho] [Hf _] Hci Hcf.
  assert (forall o b, ov_clear o = true -> ov_get o b = if Nat.ltb b 8 && has_overlay (ov_mask o) b then Some None else None)
    as Hclear by (intros o b Hc; unfold ov_get; by rewrite Hc).
  eexists. split; [do 4 f_equal|split; [split|]].
  - symmetry. apply andb_false_iff. right. apply not_true_is_false. intros (b & _ & Hd)%existsb_exists.
    rewrite !Hclear in Hd by done. repeat case_match; done.
  - by apply lor_range.
  - cbn [ov_storage ov_clear ov_mask]. destruct (ov_storage into); [by rewrite Hci in Ho|destruct Ho; congruence|done].
  - intros b. rewrite !Hclear by done. cbn [ov_mask]. rewrite has_overlay_lor.
    destruct (Nat.ltb b 8), (has_overlay (ov_mask into) b), (has_overlay (ov_mask from) b), clobber; done.
Qed.

(** The merge of the overlays of two definitions of a key, when overlays may
    overlap, is the merge of the maps with the precedence of [clobber], in
    whichever of the two arrays it is built; a collision is reported exactly when
    an overlay has two distinct keys.  The exception is a definition that clears
    overlays, merged with a single overlay. *)
Theorem merge_overlays_spec (into from : overlays_info) (clobber report : bool) :
  ov_ok into -> ov_ok from -> ov_mask into <> 0 -> ov_mask from <> 0 -> cleared_grows into from = false ->
  exists o' collide, merge_overlays true (Some into) (Some from) clobber report = Ok (Some (Some o', collide)) /\
    ov_ok o' /\
    (collide = true <-> report = true /\ exists b x y,
       overlays_get into b = Ok (Some x) /\ overlays_get from b = Ok (Some y) /\ x <> y) /\
    forall b x y, overlays_get into b = Ok x -> overlays_get from b = Ok y ->
      overlays_get o' b = Ok (merge_overlay clobber x y).
Proof.
  intros Hi Hf Hzi Hzf Hcg. unfold merge_overlays.
  assert (exists o' collide, merged clobber report into from (Ok (Some (o', collide))) /\
    (if ov_clear into && ov_clear from
     then Ok (Some (Some (mk_overlays (Z.lor (ov_mask into) (ov_mask from)) (ov_clear into) (ov_storage into)), false))
     else let! r := merge_overlapping into from clobber report in Ok (Some (Some (fst r), snd r)))
    = Ok (Some (Some o', collide))) as (o' & collide & Hm & Hr).
  { destruct (ov_clear into && ov_clear from) eqn:Hcc.
    - apply andb_true_iff in Hcc as [Hci Hcf]. rewrite Hci. do 2 eexists. split; [|done]. by apply merge_cleared_ok.
    - pose proof (merge_overlapping_ok into from clobber report Hi Hf Hzi Hzf Hcg Hcc) as H.
      destruct H as (o' & Hr & H). exists o', (report && existsb (fun b => overlays_differ (ov_get into b) (ov_get from b)) (seq 0 8)).
      rewrite Hr. split; [by exists o'|done]. }
  exists o', collide. split; [exact Hr|]. destruct Hm as (o'' & Heq & Hok & Hget).
  assert (o'' = o') as -> by congruence.
  assert (collide = report && existsb (fun b => overlays_differ (ov_get into b) (ov_get from b)) (seq 0 8)) as Hcol by congruence.
  clear Heq Hr. split; [done|]. split.
  - rewrite Hcol, andb_true_iff, existsb_exists. apply and_iff_compat_l. split.
    + intros (b & _ & Hd). destruct (ov_get into b) as [x|] eqn:Hx, (ov_get from b) as [y|] eqn:Hy; try done.
      exists b, x, y. rewrite !overlays_get_ok, Hx, Hy by done. cbn in Hd.
      apply negb_true_iff, bool_decide_eq_false in Hd. done.
    + intros (b & x & y & Hx & Hy & Hne). rewrite overlays_get_ok in Hx, Hy by done.
      exists b. split.
      * apply in_seq. injection Hx as Hx. unfold ov_get in Hx. destruct (Nat.ltb_spec b 8); [lia|done].
      * injection Hx as ->. injection Hy as ->. cbn. by rewrite bool_decide_false.
  - intros b x y Hx Hy. rewrite overlays_get_ok in Hx, Hy |- * by done. rewrite Hget. congruence.
Qed.

Definition sample_single : overlays_info := mk_overlays 4 false (OvInline (Some 12%nat)).

Lemma merge_overlays_spec_witness :
  (ov_ok sample_overlays /\ ov_ok sample_single /\ cleared_grows sample_overlays sample_single = false) /\
  exists o' collide,
    merge_overlays true (Some sample_overlays) (Some sample_single) true true = Ok (Some (Some o', collide)) /\
    ov_ok o' /\
    (collide = true <-> true = true /\ exists b x y,
       overlays_get sample_overlays b = Ok (Some x) /\ overlays_get sample_single b = Ok (Some y) /\ x <> y) /\
    forall b x y, overlays_get sample_overlays b = Ok x -> overlays_get sample_single b = Ok y ->
      overlays_get o' b = Ok (merge_overlay true x y).
Proof.
  assert (ov_ok sample_single) as H.
  { split; [cbn; lia|]. right. exists 2%nat. split; [lia|]. split; [done|by exists 12%nat]. }
  split; [split; [exact sample_overlays_ok|split; [exact H|reflexivity]]|].
  apply merge_overlays_spec; [exact sample_overlays_ok|exact H|discriminate|discriminate|reflexivity].
Defined.

(** The merge of an overlay in a definition that clears another one: the array is
    allocated, the fields still say that the overlays are cleared, and the key
    gets no overlay.  *)
Example cleared_overlay_lost :
  let into := mk_overlays 1 true (OvInline None) in
  let from := mk_overlays 2 false (OvInline (Some 5%nat)) in
  match merge_overlays true (Some into) (Some from) true true with
  | Ok (Some (Some o, false)) =>
      o = mk_overlays 3 true (OvHeap [Some None; Some (Some 5%nat)]) /\ copy_overlays o = Ok None
  | _ => False
  end.
Proof. vm_compute. done. Qed.

(** A definition that clears two overlays, taken by a key that had none, loses
    [overlays_clear]; the next merge reaches [PANIC_UNREACHABLE]. *)
Example stolen_clear_lost :
  match merge_overlays true None (Some (mk_overlays 3 true (OvInline None))) true true with
  | Ok (Some (Some into, _)) =>
      merge_overlays true (Some (mk_overlays 12 false (OvHeap [Some (Some 5%nat); Some (Some 6%nat)]))) (Some into) true true
      = Fault FaultAssert
  | _ => False
  end.
Proof. vm_compute. done. Qed.

(** ** The overlays of the key of the keymap *)

Definition has_null (keys : list (option (option nat))) (i : nat) : Prop := keys !! i = Some (Some None).

#[local] Instance has_null_dec keys i : Decision (has_null keys i).
Proof. unfold has_null. apply _. Defined.

Lemma has_overlay_bits m b : has_overlay m b = Z.testbit m (Z.of_nat b).
Proof. unfold has_overlay, overlay_bit. apply has_flag_bit. lia. Qed.

Lemma has_ldiff m b b' : has_overlay (Z.ldiff m (overlay_bit b)) b' = has_overlay m b' && negb (Nat.eqb b b').
Proof.
  rewrite !has_overlay_bits. unfold overlay_bit. rewrite Z.ldiff_spec, bit_spec by lia.
  destruct (Nat.eqb_spec b b') as [->|Hne]; [by rewrite Z.eqb_refl|].
  replace (Z.of_nat b =? Z.of_nat b') with false by (symmetry; apply Z.eqb_neq; lia). done.
Qed.

(** The overlays before the first null key are kept. *)
Lemma drop_null_ok keys bits : forall pos overlays,
  (forall j, (j < length bits)%nat -> exists k, keys !! (pos + j)%nat = Some (Some k)) ->
  exists r, drop_null_overlays bits keys pos overlays = Ok r /\
    forall b, has_overlay r b = true <-> has_overlay overlays b = true /\
      forall j, bits !! j = Some b -> forall j', (j' <= j)%nat -> ~ has_null keys (pos + j').
Proof.
  induction bits as [|b0 bits IH]; intros pos overlays Hread.
  { exists overlays. split; [done|]. intros b. split; [|tauto]. intros H. split; [done|]. done. }
  cbn [drop_null_overlays]. destruct (Hread 0%nat) as [k Hk]; [cbn; lia|]. rewrite Nat.add_0_r in Hk.
  unfold heap_read. rewrite Hk. cbn [result_bind]. destruct k as [k|].
  - destruct (IH (S pos) overlays) as (r & Hr & Hspec).
    { intros j Hj. destruct (Hread (S j)) as [k' Hk']; [cbn; lia|]. exists k'. rewrite <- Hk'. f_equal. lia. }
    exists r. split; [done|]. intros b. rewrite Hspec. apply and_iff_compat_l. split.
    + intros H [|j] Hj [|j'] Hle; try lia.
      * unfold has_null. rewrite Nat.add_0_r, Hk. congruence.
      * unfold has_null. rewrite Nat.add_0_r, Hk. congruence.
      * rewrite Nat.add_succ_r. apply (H j Hj j'). lia.
    + intros H j Hj j' Hle. rewrite Nat.add_succ_comm. apply (H (S j) Hj). lia.
  - destruct (IH pos (Z.ldiff overlays (overlay_bit b0))) as (r & Hr & Hspec).
    { intros j Hj. apply Hread. cbn. lia. }
    exists r. split; [done|]. intros b. rewrite Hspec, has_ldiff, andb_true_iff, negb_true_iff, Nat.eqb_neq.
    assert (has_null keys (pos + 0)) as Hnull by (unfold has_null; by rewrite Nat.add_0_r).
    split.
    + intros [[Ho Hne] H]. split; [done|]. intros [|j] Hj j' Hle.
      * injection Hj as ->. done.
      * exfalso. apply (H j Hj 0%nat); [lia|done].
    + intros [Ho H]. split; [split; [done|]|].
      * intros ->. apply (H 0%nat eq_refl 0%nat); [lia|done].
      * intros j Hj. exfalso. apply (H (S j) Hj 0%nat); [lia|done].
Qed.

(** The key of an overlay in the copied fields. *)
Definition copied_overlay (copied : option (Z * bool * list (option (option nat)))) (b : nat) : option nat :=
  match copied with
  | Some (mask, inline, keys) =>
      if Nat.ltb b 8 && has_overlay mask b
      then match keys !! (if inline then 0%nat else overlay_rank mask b) with Some (Some key) => key | _ => None end
      else None
  | None => None
  end.

(** The rank depends on the lower overlays. *)
Lemma rank_ext m m' b : (forall b', (b' < b)%nat -> has_overlay m b' = has_overlay m' b') -> overlay_rank m b = overlay_rank m' b.
Proof.
  intros H. unfold overlay_rank. do 2 f_equal. apply Z.bits_inj. intros i. rewrite !Z.land_spec.
  replace (overlay_bit b - 1) with (Z.ones (Z.of_nat b))
    by (unfold overlay_bit, bit; rewrite Z.shiftl_1_l, Z.ones_equiv; lia).
  destruct (decide (0 <= i < Z.of_nat b)) as [Hi|Hi].
  - rewrite Z.ones_spec_low by done. rewrite !andb_true_r.
    specialize (H (Z.to_nat i) ltac:(lia)). rewrite !has_overlay_bits, Z2Nat.id in H by lia. done.
  - destruct (decide (i < 0)); [by rewrite !Z.testbit_neg_r by lia|].
    rewrite Z.ones_spec_high by lia. by rewrite !andb_false_r.
Qed.

Lemma get_no_overlay o b : ov_mask o = 0 -> ov_get o b = None.
Proof. intros Hz. apply ov_get_none. rewrite Hz, has_overlay_0. by intros []. Qed.

Section copy_heap.
Context (o : overlays_info) (keys : list (option (option nat))).
Context (Hok : ov_ok o) (Hc : ov_clear o = false) (Hs : ov_storage o = OvHeap keys).

Lemma mask_range : 0 <= ov_mask o < 256.
Proof using Hok. exact (proj1 Hok). Qed.

Lemma heap_alloc : ov_alloc o <> 0%nat.
Proof using Hok Hs.
  destruct Hok as [_ Ho]. unfold ov_alloc. rewrite Hs in *. destruct Ho as [_ (Hl & Hp & _)]. lia.
Qed.

Lemma heap_overlay b : (b < 8)%nat -> has_overlay (ov_mask o) b = true ->
  exists k, keys !! overlay_rank (ov_mask o) b = Some (Some k) /\ overlays_get o b = Ok (Some k).
Proof using Hok Hs.
  intros Hb Hh. destruct (get_heap_old o b Hok Hb Hh heap_alloc) as (keys' & k & Hs' & _ & Hk & Hg).
  exists k. rewrite overlays_get_ok, Hg by done. split; [|done]. congruence.
Qed.

Lemma heap_overlay_inv b x : overlays_get o b = Ok (Some x) ->
  (b < 8)%nat /\ has_overlay (ov_mask o) b = true /\ keys !! overlay_rank (ov_mask o) b = Some (Some x).
Proof using Hok Hs.
  intros H. assert (has_overlay (ov_mask o) b = true /\ (b < 8)%nat) as [Hh Hb].
  { destruct (decide (has_overlay (ov_mask o) b = true /\ (b < 8)%nat)) as [?|Hn]; [done|].
    rewrite overlays_get_ok, ov_get_none in H by done. done. }
  destruct (heap_overlay b Hb Hh) as (k & Hk & Hg). split; [done|]. split; [done|]. congruence.
Qed.

(** An overlay has its index among the overlays. *)
Lemma overlay_index b : (b < 8)%nat -> has_overlay (ov_mask o) b = true ->
  overlay_bits (ov_mask o) !! overlay_rank (ov_mask o) b = Some b.
Proof using Hok.
  intros Hb Hh. assert (b ∈ overlay_bits (ov_mask o)) as [j Hj]%list_elem_of_lookup by (by apply elem_overlay_bits).
  destruct (source_facts _ _ _ (proj1 Hok) Hj) as (_ & _ & ->). done.
Qed.

(** The null keys up to an overlay are those of the overlays up to it. *)
Lemma nulls_below b : (b < 8)%nat -> has_overlay (ov_mask o) b = true ->
  (forall j, overlay_bits (ov_mask o) !! j = Some b -> forall j', (j' <= j)%nat -> ~ has_null keys (0 + j')) <->
  (forall b', (b' <= b)%nat -> overlays_get o b' <> Ok (Some None)).
Proof using Hok Hs.
  intros Hb Hh. split.
  - intros H b' Hle Hg. destruct (heap_overlay_inv b' None Hg) as (Hb' & Hh' & Hk).
    apply (H _ (overlay_index b Hb Hh) (overlay_rank (ov_mask o) b')); [|done].
    destruct (decide (b' = b)) as [->|Hne]; [done|].
    apply Nat.lt_le_incl, rank_mono; [exact mask_range|done|done|done|done|lia].
  - intros H j Hj j' Hle Hn. destruct (source_facts _ _ _ mask_range Hj) as (_ & _ & Hr).
    destruct (lookup_lt_is_Some_2 (overlay_bits (ov_mask o)) j') as [b' Hj'].
    { apply lookup_lt_Some in Hj. lia. }
    destruct (source_facts _ _ _ mask_range Hj') as (Hb' & Hh' & Hr').
    destruct (heap_overlay b' Hb' Hh') as (k & Hk & Hg). unfold has_null in Hn. cbn in Hn.
    rewrite Hr', Hn in Hk. injection Hk as <-. apply (H b'); [|done].
    destruct (le_lt_dec b' b) as [|Hlt]; [done|].
    pose proof (rank_mono (ov_mask o) b b' mask_range Hb Hb' Hh Hh' Hlt). lia.
Qed.

Lemma copy_heap_ok :
  exists copied,
    (let+ overlays := drop_null_overlays (overlay_bits (ov_mask o)) keys 0 (ov_mask o) in
     Ok (if overlays =? 0 then None else Some (overlays, false, keys))) = Ok copied /\
    forall b k, copied_overlay copied b = Some k <->
      overlays_get o b = Ok (Some (Some k)) /\ forall b', (b' < b)%nat -> overlays_get o b' <> Ok (Some None).
Proof using Hok Hs.
  destruct (drop_null_ok keys (overlay_bits (ov_mask o)) 0 (ov_mask o)) as (r & Hr & Hspec).
  { intros j Hj. destruct (lookup_lt_is_Some_2 _ _ Hj) as [b Hjb]. destruct (source_facts _ _ _ mask_range Hjb) as (Hb & Hh & Hrk).
    destruct (heap_overlay b Hb Hh) as (k & Hk & _). exists k. by rewrite <- Hrk. }
  assert (forall b, (b < 8)%nat -> has_overlay r b = true <->
    has_overlay (ov_mask o) b = true /\ forall b', (b' <= b)%nat -> overlays_get o b' <> Ok (Some None)) as Hkept.
  { intros b Hb. rewrite Hspec. split; intros [Hh H]; (split; [done|]); by apply (nulls_below b Hb Hh). }
  rewrite Hr. cbn [result_bind]. eexists. split; [done|]. intros b k.
  transitivity (copied_overlay (Some (r, false, keys)) b = Some k).
  { destruct (Z.eqb_spec r 0) as [->|]; [|done]. unfold copied_overlay. rewrite has_overlay_0, andb_false_r. done. }
  unfold copied_overlay. split.
  - destruct (Nat.ltb_spec b 8) as [Hb|]; cbn [andb]; [|done].
    destruct (has_overlay r b) eqn:Hh; [|done]. apply Hkept in Hh as [Hh Hn]; [|done].
    rewrite (rank_ext r (ov_mask o)).
    2: { intros b' Hlt. apply eq_true_iff_eq. rewrite Hkept by lia. split; [by intros []|]. intros. split; [done|].
         intros b'' Hle. apply Hn. lia. }
    destruct (heap_overlay b Hb Hh) as (k' & -> & Hg). rewrite Hg. intros ->. split; [done|]. intros. apply Hn. lia.
  - intros [Hg Hn]. destruct (heap_overlay_inv b _ Hg) as (Hb & Hh & Hk).
    replace (Nat.ltb b 8) with true by (symmetry; by apply Nat.ltb_lt).
    assert (has_overlay r b = true) as ->.
    { apply Hkept; [done|]. split; [done|]. intros b' Hle. destruct (decide (b' = b)) as [->|]; [congruence|apply Hn; lia]. }
    cbn [andb]. rewrite (rank_ext r (ov_mask o)); [by rewrite Hk|].
    intros b' Hlt. apply eq_true_iff_eq. rewrite Hkept by lia. split; [by intros []|]. intros. split; [done|].
    intros b'' Hle. apply Hn. lia.
Qed.
End copy_heap.

Lemma copy_overlays_copied (o : overlays_info) :
  ov_ok o -> ov_clear o = false ->
  exists copied, copy_overlays o = Ok copied /\
    forall b k, copied_overlay copied b = Some k <->
      overlays_get o b = Ok (Some (Some k)) /\ forall b', (b' < b)%nat -> overlays_get o b' <> Ok (Some None).
Proof.
  intros Hok Hc. pose proof Hok as [Hm Ho]. unfold copy_overlays. rewrite Hc. cbn [negb]. rewrite andb_true_r.
  destruct (Z.eqb_spec (ov_mask o) 0) as [Hz|Hnz]; cbn [negb].
  { exists None. split; [done|]. intros b k. rewrite overlays_get_ok, get_no_overlay by done. naive_solver. }
  destruct (ov_storage o) as [key|keys|a] eqn:Hs; [| |done].
  - rewrite Hc in Ho. destruct Ho as [[? _] | (b0 & Hb0 & Hm0 & [k0 ->])]; [done|].
    exists (Some (ov_mask o, true, [Some (Some k0)])). split; [done|]. intros b k.
    assert (forall b', ov_get o b' = if Nat.eqb b0 b' then Some (Some k0) else None) as Hget.
    { intros b'. unfold ov_get. rewrite Hc, Hs, Hm0. destruct (Nat.ltb_spec b' 8) as [Hb'|Hb']; cbn [andb].
      - by rewrite has_single.
      - by replace (Nat.eqb b0 b') with false by (symmetry; apply Nat.eqb_neq; lia). }
    assert (copied_overlay (Some (ov_mask o, true, [Some (Some k0)])) b = if Nat.eqb b0 b then Some k0 else None) as ->.
    { unfold copied_overlay. rewrite Hm0. destruct (Nat.ltb_spec b 8) as [Hb|Hb]; cbn [andb].
      - by rewrite has_single.
      - by replace (Nat.eqb b0 b) with false by (symmetry; apply Nat.eqb_neq; lia). }
    rewrite overlays_get_ok, Hget by done. split.
    + destruct (Nat.eqb b0 b); [|done]. intros [= ->]. split; [done|]. intros b' _.
      rewrite overlays_get_ok, Hget by done. by destruct (Nat.eqb b0 b').
    + intros [H _]. destruct (Nat.eqb b0 b); congruence.
  - destruct Ho as [_ Hk]. by apply copy_heap_ok.
Qed.

(** The overlays copied to the key of the keymap are those below the first
    one that is removed: a removed overlay ([None]) takes with it all the
    overlays of greater index, though they have keys. *)
Theorem copy_overlays_spec (o : overlays_info) :
  ov_ok o -> ov_clear o = false ->
  exists copied, copy_overlays o = Ok copied /\
    forall b k, copied_overlay copied b = Some k <->
      overlays_get o b = Ok (Some (Some k)) /\ forall b', (b' < b)%nat -> overlays_get o b' <> Ok (Some None).
Proof. apply copy_overlays_copied. Qed.

Lemma copy_overlays_spec_witness :
  (ov_ok sample_overlays /\ ov_clear sample_overlays = false) /\
  (exists copied, copy_overlays sample_overlays = Ok copied /\
    forall b k, copied_overlay copied b = Some k <->
      overlays_get sample_overlays b = Ok (Some (Some k)) /\
      forall b', (b' < b)%nat -> overlays_get sample_overlays b' <> Ok (Some None)) /\
  overlays_get sample_overlays 4 = Ok (Some (Some 14%nat)) /\
  copy_overlays sample_overlays = Ok (Some (2, false, [Some (Some 11%nat); Some None; Some (Some 14%nat); Some (Some 16%nat)])).
Proof.
  split; [split; [exact sample_overlays_ok|reflexivity]|]. split; [|split; reflexivity].
  apply copy_overlays_spec; [exact sample_overlays_ok|reflexivity].
Defined.
