(* ===== verification/Actions.v ===== *)
(** * Actions of keymap files (src/xkbcomp/action.c, src/text.c)

    The definition of an action, with its fields: a handler per type of
    action, the tables of names, and the default values that a file changes. *)

From Stdlib Require Import ZArith Lia String.
From stdpp Require Import base tactics list numbers.
From S2P Require Import Prelude Numbers Atom Keymap KeysymNames KeysymName Expr Vmod KeyAliases Derived.

(** ** Flags of the strict mode and features of the format *)

Definition PARSER_NO_UNKNOWN_STATEMENTS : Z := 2 ^ 0.
Definition PARSER_NO_FIELD_VALUE_MISMATCH : Z := 2 ^ 2.
Definition PARSER_NO_UNKNOWN_ACTION : Z := 2 ^ 11.
Definition PARSER_NO_UNKNOWN_ACTION_FIELDS : Z := 2 ^ 12.
Definition PARSER_NO_ILLEGAL_ACTION_FIELDS : Z := 2 ^ 13.

(** [isModsUnLockOnPressSupported] and the like. *)
Definition is_v2 (format : Z) : bool := format >=? XKB_KEYMAP_FORMAT_TEXT_V2.

Definition ACTION_ABSOLUTE_X : Z := 2 ^ 6.
Definition ACTION_ABSOLUTE_Y : Z := 2 ^ 7.
Definition ACTION_ACCEL : Z := 2 ^ 8.
Definition ACTION_SAME_SCREEN : Z := 2 ^ 9.

Inductive action_field :=
| ACTION_FIELD_CLEAR_LOCKS | ACTION_FIELD_LATCH_TO_LOCK | ACTION_FIELD_GEN_KEY_EVENT | ACTION_FIELD_REPORT
| ACTION_FIELD_DEFAULT | ACTION_FIELD_AFFECT | ACTION_FIELD_INCREMENT | ACTION_FIELD_MODIFIERS
| ACTION_FIELD_GROUP | ACTION_FIELD_X | ACTION_FIELD_Y | ACTION_FIELD_ACCEL | ACTION_FIELD_BUTTON
| ACTION_FIELD_VALUE | ACTION_FIELD_CONTROLS | ACTION_FIELD_TYPE | ACTION_FIELD_COUNT | ACTION_FIELD_SCREEN
| ACTION_FIELD_SAME | ACTION_FIELD_DATA | ACTION_FIELD_DEVICE | ACTION_FIELD_KEYCODE
| ACTION_FIELD_MODS_TO_CLEAR | ACTION_FIELD_LOCK_ON_RELEASE | ACTION_FIELD_UNLOCK_ON_PRESS
| ACTION_FIELD_LATCH_ON_PRESS.

(** ** Tables of names *)

(** A table of [LookupEntry], ended by its null name. *)
Definition names {A} (l : list (string * A)) : list (list Z * A) := map (fun '(n, v) => (bytes_of n, v)) l.

Definition LookupString {A} (tab : list (list Z * A)) (str : list Z) : option A :=
  option_map (fun '(_, (_, v)) => v) (list_find (fun '(name, _) => istreq name str = true) tab).

Definition fieldStrings : list (list Z * action_field) := names
  [("clearLocks", ACTION_FIELD_CLEAR_LOCKS); ("latchToLock", ACTION_FIELD_LATCH_TO_LOCK);
   ("genKeyEvent", ACTION_FIELD_GEN_KEY_EVENT); ("generateKeyEvent", ACTION_FIELD_GEN_KEY_EVENT);
   ("report", ACTION_FIELD_REPORT); ("default", ACTION_FIELD_DEFAULT); ("affect", ACTION_FIELD_AFFECT);
   ("increment", ACTION_FIELD_INCREMENT); ("modifiers", ACTION_FIELD_MODIFIERS); ("mods", ACTION_FIELD_MODIFIERS);
   ("group", ACTION_FIELD_GROUP); ("x", ACTION_FIELD_X); ("y", ACTION_FIELD_Y); ("accel", ACTION_FIELD_ACCEL);
   ("accelerate", ACTION_FIELD_ACCEL); ("repeat", ACTION_FIELD_ACCEL); ("button", ACTION_FIELD_BUTTON);
   ("value", ACTION_FIELD_VALUE); ("controls", ACTION_FIELD_CONTROLS); ("ctrls", ACTION_FIELD_CONTROLS);
   ("type", ACTION_FIELD_TYPE); ("count", ACTION_FIELD_COUNT); ("screen", ACTION_FIELD_SCREEN);
   ("same", ACTION_FIELD_SAME); ("sameServer", ACTION_FIELD_SAME); ("data", ACTION_FIELD_DATA);
   ("device", ACTION_FIELD_DEVICE); ("dev", ACTION_FIELD_DEVICE); ("key", ACTION_FIELD_KEYCODE);
   ("keycode", ACTION_FIELD_KEYCODE); ("kc", ACTION_FIELD_KEYCODE); ("clearmods", ACTION_FIELD_MODS_TO_CLEAR);
   ("clearmodifiers", ACTION_FIELD_MODS_TO_CLEAR); ("lockOnRelease", ACTION_FIELD_LOCK_ON_RELEASE);
   ("unlockOnPress", ACTION_FIELD_UNLOCK_ON_PRESS); ("latchOnPress", ACTION_FIELD_LATCH_ON_PRESS)]%string.

Definition stringToField (str : list Z) : option action_field := LookupString fieldStrings str.

Definition ACTION_TYPE_UNSUPPORTED_LEGACY : Z := 17.
Definition ACTION_TYPE_UNKNOWN : Z := 18.
Definition ACTION_TYPE_PRIVATE : Z := 19.
Definition ACTION_TYPE_INTERNAL : Z := 20.

Definition actionTypeNames : list (list Z * Z) := names
  [("NoAction", 0); ("VoidAction", 1); ("SetMods", 2); ("LatchMods", 3); ("LockMods", 4);
   ("SetGroup", 5); ("LatchGroup", 6); ("LockGroup", 7); ("MovePtr", 8); ("MovePointer", 8);
   ("PtrBtn", 9); ("PointerButton", 9); ("LockPtrBtn", 10); ("LockPtrButton", 10); ("LockPointerButton", 10);
   ("LockPointerBtn", 10); ("SetPtrDflt", 11); ("SetPointerDefault", 11); ("Terminate", 12);
   ("TerminateServer", 12); ("SwitchScreen", 13); ("SetControls", 14); ("LockControls", 15);
   ("RedirectKey", 16); ("Redirect", 16); ("Private", 19);
   ("ISOLock", 17); ("ActionMessage", 17); ("MessageAction", 17); ("Message", 17); ("DeviceBtn", 17);
   ("DevBtn", 17); ("DevButton", 17); ("DeviceButton", 17); ("LockDeviceBtn", 17); ("LockDevBtn", 17);
   ("LockDevButton", 17); ("LockDeviceButton", 17); ("DeviceValuator", 17); ("DevVal", 17); ("DeviceVal", 17);
   ("DevValuator", 17)]%string.

Definition stringToActionType (str : list Z) : option Z := LookupString actionTypeNames str.

(** A table for the functions of expr.c. *)
Definition entries_of (l : list (string * Z)) : list LookupEntry :=
  map (fun '(n, v) => (Some (bytes_of n), v)) l ++ [(None, 0)].

(** The offsets of the first entry: 7 for the first format, else 0. *)
Definition ctrlMaskNames (format : Z) : list LookupEntry := entries_of
  ((if format =? XKB_KEYMAP_FORMAT_TEXT_V1 then [] else
    [("Overlay3", bit 3); ("Overlay4", bit 4); ("Overlay5", bit 5); ("Overlay6", bit 6);
     ("Overlay7", bit 7); ("Overlay8", bit 8); ("all", CONTROL_ALL_BOOLEAN)]%string) ++
   [("RepeatKeys", bit 10); ("Repeat", bit 10); ("AutoRepeat", bit 10); ("SlowKeys", bit 11);
    ("BounceKeys", bit 12); ("StickyKeys", CONTROL_STICKY_KEYS); ("MouseKeys", bit 14);
    ("MouseKeysAccel", bit 15); ("AccessXKeys", bit 16); ("AccessXTimeout", bit 17);
    ("AccessXFeedback", bit 18); ("AudibleBell", bit 19); ("IgnoreGroupLock", CONTROL_IGNORE_GROUP_LOCK);
    ("Overlay1", bit 1); ("Overlay2", bit 2); ("all", CONTROL_ALL_BOOLEAN_V1); ("none", 0)]%string).

Definition lockWhich : list LookupEntry := entries_of
  [("both", 0); ("lock", ACTION_LOCK_NO_UNLOCK);
   ("neither", Z.lor ACTION_LOCK_NO_LOCK ACTION_LOCK_NO_UNLOCK); ("unlock", ACTION_LOCK_NO_LOCK)]%string.

Definition ptrDflts : list LookupEntry := entries_of
  [("dfltbtn", 1); ("defaultbutton", 1); ("button", 1)]%string.

(** ** An action being defined

    The member of the union is that of the type of the handler; [pa_type] is
    the field [type], that [Private] and the legacy actions set to another
    value. *)
Record paction := mk_paction {
  pa_type : Z;
  pa_body : xkb_action
}.

Definition pa_with_body (b : xkb_action) (a : paction) : paction := mk_paction (pa_type a) b.

Definition le_bytes (l : list Z) : Z := foldr (fun b v => b + 256 * v) 0 l.

(** The action that the rest of the library reads; the data of a private action
    are read as the fields of an internal one when its type is changed to it
    (little-endian machine; the last byte of the union is 0). *)
Definition union_action (a : paction) : xkb_action :=
  if pa_type a =? 0 then act_none
  else match pa_body a with
  | act_private _ data =>
      if pa_type a =? ACTION_TYPE_INTERNAL then act_internal (le_bytes (take 4 data)) (le_bytes (drop 4 data))
      else act_private (pa_type a) data
  | b => b
  end.

(** [ActionsInfo] *)
Notation ActionsInfo := (list paction) (only parsing).

Definition zero_actions (redirect_key_auto : Z) : list xkb_action :=
  [act_none; act_void;
   act_mods MOD_SET 0 (mk_xkb_mods 0 0); act_mods MOD_LATCH 0 (mk_xkb_mods 0 0); act_mods MOD_LOCK 0 (mk_xkb_mods 0 0);
   act_group GROUP_SET 0 0; act_group GROUP_LATCH 0 0; act_group GROUP_LOCK 0 0;
   act_ptr_move ACTION_ACCEL 0 0; act_btn PTR_BUTTON 0 0 0; act_btn PTR_LOCK 0 0 0; act_ptr_default 0 1;
   act_terminate; act_switch_vt ACTION_SAME_SCREEN 0; act_ctrls CTRL_SET 0 0; act_ctrls CTRL_LOCK 0 0;
   act_redirect (mk_redirect redirect_key_auto 0 0); act_unsupported_legacy; act_unknown;
   act_private ACTION_TYPE_PRIVATE (replicate 7 0); act_internal 0 0].

Definition InitActionsInfo (redirect_key_auto : Z) : ActionsInfo :=
  map (fun b => mk_paction (action_type b) b) (zero_actions redirect_key_auto).

(** ** Errors *)

Definition parser_error : Type := xkb_parser_error unit.
Definition success : parser_error := PARSER_SUCCESS tt.

(** [ReportMismatch], [ReportActionNotArray] *)
Definition mismatch (strict : Z) : parser_error :=
  if has_flag strict PARSER_NO_FIELD_TYPE_MISMATCH then PARSER_FATAL_ERROR else PARSER_RECOVERABLE_ERROR.

(** [ReportIllegal], [HandleNoAction] *)
Definition illegal (strict : Z) : parser_error :=
  if has_flag strict PARSER_NO_ILLEGAL_ACTION_FIELDS then PARSER_FATAL_ERROR else success.

Definition ReportFormatVersionMismatch (strict : Z) : parser_error :=
  if has_flag strict PARSER_NO_UNKNOWN_ACTION_FIELDS then PARSER_FATAL_ERROR else success.

(** ** Fields shared by several actions

    The results are the error and the new value of the field. *)

Definition has_index (array_ndx : option ExprDef) : bool := bool_decide (is_Some array_ndx).

Definition CheckBooleanFlag (info : keymap_info) (flag : Z) (array_ndx : option ExprDef) (value : ExprDef)
    (flags : Z) : result (parser_error * Z) :=
  if has_index array_ndx then Ok (mismatch (ki_strict info), flags)
  else
    let+ set := ExprResolveBoolean (ki_ctx info) value in
    Ok (match set with
        | None => (mismatch (ki_strict info), flags)
        | Some true => (success, Z.lor flags flag)
        | Some false => (success, Z.ldiff flags flag)
        end).

Definition modmap_names : list (list Z) := map bytes_of ["usemodmapmods"; "modmapmods"]%string.

Definition is_modmap_ident (ctx : atom_table) (value : ExprDef) : result bool :=
  match value with
  | STMT_EXPR_IDENT ident =>
      let+ str := xkb_atom_text ctx ident in
      Ok (match str with Some str => existsb (istreq str) modmap_names | None => false end)
  | _ => Ok false
  end.

(** The new flags and modifiers. *)
Definition CheckModifierField (info : keymap_info) (mods : xkb_mod_set) (array_ndx : option ExprDef)
    (value : ExprDef) (flags : Z) (m : Z) : result (parser_error * (Z * Z)) :=
  if has_index array_ndx then Ok (mismatch (ki_strict info), (flags, m))
  else
    let+ modmap := is_modmap_ident (ki_ctx info) value in
    if modmap : bool then Ok (success, (Z.lor flags ACTION_MODS_LOOKUP_MODMAP, 0))
    else
      let+ mask := ExprResolveModMask (ki_ctx info) value MOD_BOTH (ms_enum mods) in
      Ok (match mask with
          | None => (mismatch (ki_strict info), (flags, m))
          | Some mask => (success, (Z.ldiff flags ACTION_MODS_LOOKUP_MODMAP, mask))
          end).

Definition CheckAffectField (info : keymap_info) (array_ndx : option ExprDef) (value : ExprDef) (flags : Z)
    : result (parser_error * Z) :=
  if has_index array_ndx then Ok (mismatch (ki_strict info), flags)
  else
    let+ which := ExprResolveEnum (ki_ctx info) value lockWhich in
    Ok (match which with
        | None => (mismatch (ki_strict info), flags)
        | Some which =>
            (success, Z.lor (Z.ldiff flags (Z.lor ACTION_LOCK_NO_LOCK ACTION_LOCK_NO_UNLOCK)) which)
        end).

(** An integer in a range. *)
Definition check_integer (info : keymap_info) (array_ndx : option ExprDef) (value : ExprDef) (low high : Z)
    : result (xkb_parser_error Z) :=
  let error := if has_flag (ki_strict info) PARSER_NO_FIELD_TYPE_MISMATCH
               then PARSER_FATAL_ERROR else PARSER_RECOVERABLE_ERROR in
  if has_index array_ndx then Ok error
  else
    let+ val := ExprResolveInteger value in
    Ok (match val with
        | None => error
        | Some val => if (val <? low) || (val >? high) then error else PARSER_SUCCESS val
        end).

Definition check_button (info : keymap_info) (array_ndx : option ExprDef) (value : ExprDef)
    : result (xkb_parser_error Z) :=
  let error := if has_flag (ki_strict info) PARSER_NO_FIELD_TYPE_MISMATCH
               then PARSER_FATAL_ERROR else PARSER_RECOVERABLE_ERROR in
  if has_index array_ndx then Ok error
  else
    let+ val := ExprResolveButton (ki_ctx info) value in
    Ok (match val with
        | None => error
        | Some val => if (val <? 0) || (val >? 5) then error else PARSER_SUCCESS val
        end).

(** The error of a value, or the success with the action it gives. *)
Definition with_value {A} (r : xkb_parser_error A) (a : xkb_action) (k : A -> xkb_action)
    : parser_error * xkb_action :=
  match r with
  | PARSER_SUCCESS v => (success, k v)
  | PARSER_RECOVERABLE_ERROR => (PARSER_RECOVERABLE_ERROR, a)
  | PARSER_FATAL_ERROR => (PARSER_FATAL_ERROR, a)
  end.

Definition is_signed (e : ExprDef) : bool :=
  match e with ExprUnary (STMT_EXPR_NEGATE | STMT_EXPR_UNARY_PLUS) _ => true | _ => false end.

(** The operand of a sign. *)
Definition unsigned (e : ExprDef) : ExprDef :=
  match e with ExprUnary (STMT_EXPR_NEGATE | STMT_EXPR_UNARY_PLUS) child => child | _ => e end.

(** ** Handlers

    The error and the action; the type of the action is its constructor. *)

Definition HandleSetLatchLockMods (info : keymap_info) (mods : xkb_mod_set) (t : mod_action_type)
    (flags : Z) (m : xkb_mods) (field : action_field) (array_ndx : option ExprDef) (value : ExprDef)
    : result (parser_error * xkb_action) :=
  let flag f := let+ r := CheckBooleanFlag info f array_ndx value flags in
                Ok (fst r, act_mods t (snd r) m) in
  let unsupported := Ok (ReportFormatVersionMismatch (ki_strict info), act_mods t flags m) in
  match field, t with
  | ACTION_FIELD_MODIFIERS, _ =>
      let+ r := CheckModifierField info mods array_ndx value flags (m_mods m) in
      Ok (fst r, act_mods t (fst (snd r)) (mk_xkb_mods (snd (snd r)) (m_mask m)))
  | ACTION_FIELD_UNLOCK_ON_PRESS, _ =>
      if is_v2 (ki_format info) then flag ACTION_UNLOCK_ON_PRESS else unsupported
  | ACTION_FIELD_CLEAR_LOCKS, (MOD_SET | MOD_LATCH) => flag ACTION_LOCK_CLEAR
  | ACTION_FIELD_LATCH_TO_LOCK, MOD_LATCH => flag ACTION_LATCH_TO_LOCK
  | ACTION_FIELD_LATCH_ON_PRESS, MOD_LATCH =>
      if is_v2 (ki_format info) then flag ACTION_LATCH_ON_PRESS else unsupported
  | ACTION_FIELD_AFFECT, MOD_LOCK =>
      let+ r := CheckAffectField info array_ndx value flags in Ok (fst r, act_mods t (snd r) m)
  | _, _ => Ok (illegal (ki_strict info), act_mods t flags m)
  end.

(** [value_ptr] tells whether the pointer of that name is not null. *)
Definition HandleSetLatchLockGroup (info : keymap_info) (pendings : list pending_computation)
    (t : group_action_type) (flags group : Z) (field : action_field) (array_ndx : option ExprDef)
    (value : ExprDef) (value_ptr : bool)
    : result (parser_error * xkb_action * list pending_computation) :=
  let unchanged e := Ok (e, act_group t flags group, pendings) in
  let flag f := let+ r := CheckBooleanFlag info f array_ndx value flags in
                Ok (fst r, act_group t (snd r) group, pendings) in
  match field, t with
  | ACTION_FIELD_GROUP, _ =>
      if has_index array_ndx then unchanged (mismatch (ki_strict info))
      else if is_signed value && negb value_ptr then Fault FaultNull
      else
        let+ r := CheckGroupField (ki_group_info info) pendings value flags in
        match r with
        | PARSER_SUCCESS (flags, group, pendings') =>
            if has_flag flags ACTION_PENDING_COMPUTATION && negb value_ptr then Fault FaultNull
            else Ok (success, act_group t flags group, pendings')
        | PARSER_RECOVERABLE_ERROR => unchanged PARSER_RECOVERABLE_ERROR
        | PARSER_FATAL_ERROR => unchanged PARSER_FATAL_ERROR
        end
  | ACTION_FIELD_CLEAR_LOCKS, (GROUP_SET | GROUP_LATCH) => flag ACTION_LOCK_CLEAR
  | ACTION_FIELD_LATCH_TO_LOCK, GROUP_LATCH => flag ACTION_LATCH_TO_LOCK
  | ACTION_FIELD_LOCK_ON_RELEASE, GROUP_LOCK =>
      if is_v2 (ki_format info) then flag ACTION_LOCK_ON_RELEASE
      else unchanged (ReportFormatVersionMismatch (ki_strict info))
  | _, _ => unchanged (illegal (ki_strict info))
  end.

Definition HandleMovePtr (info : keymap_info) (flags x y : Z) (field : action_field)
    (array_ndx : option ExprDef) (value : ExprDef) : result (parser_error * xkb_action) :=
  let a := act_ptr_move flags x y in
  let absolute := negb (is_signed value) in
  let set f := if absolute then Z.lor flags f else flags in
  match field with
  | ACTION_FIELD_X =>
      let+ r := check_integer info array_ndx value (- 2 ^ 15) (2 ^ 15 - 1) in
      Ok (with_value r a (fun val => act_ptr_move (set ACTION_ABSOLUTE_X) val y))
  | ACTION_FIELD_Y =>
      let+ r := check_integer info array_ndx value (- 2 ^ 15) (2 ^ 15 - 1) in
      Ok (with_value r a (fun val => act_ptr_move (set ACTION_ABSOLUTE_Y) x val))
  | ACTION_FIELD_ACCEL =>
      let+ r := CheckBooleanFlag info ACTION_ACCEL array_ndx value flags in
      Ok (fst r, act_ptr_move (snd r) x y)
  | _ => Ok (illegal (ki_strict info), a)
  end.

Definition HandlePtrBtn (info : keymap_info) (t : btn_action_type) (flags count button : Z)
    (field : action_field) (array_ndx : option ExprDef) (value : ExprDef)
    : result (parser_error * xkb_action) :=
  let a := act_btn t flags count button in
  match field, t with
  | ACTION_FIELD_BUTTON, _ =>
      let+ r := check_button info array_ndx value in
      Ok (with_value r a (fun btn => act_btn t flags count btn))
  | ACTION_FIELD_AFFECT, PTR_LOCK =>
      let+ r := CheckAffectField info array_ndx value flags in Ok (fst r, act_btn t (snd r) count button)
  | ACTION_FIELD_COUNT, _ =>
      let+ r := check_integer info array_ndx value 0 255 in
      Ok (with_value r a (fun val => act_btn t flags val button))
  | _, _ => Ok (illegal (ki_strict info), a)
  end.

Definition HandleSetPtrDflt (info : keymap_info) (flags val : Z) (field : action_field)
    (array_ndx : option ExprDef) (value : ExprDef) : result (parser_error * xkb_action) :=
  let a := act_ptr_default flags val in
  match field with
  | ACTION_FIELD_AFFECT =>
      if has_index array_ndx then Ok (mismatch (ki_strict info), a)
      else
        let+ which := ExprResolveEnum (ki_ctx info) value ptrDflts in
        Ok (if bool_decide (is_Some which) then success else mismatch (ki_strict info), a)
  | ACTION_FIELD_BUTTON | ACTION_FIELD_VALUE =>
      if has_index array_ndx then Ok (mismatch (ki_strict info), a)
      else
        let flags := if is_signed value then Z.ldiff flags ACTION_ABSOLUTE_SWITCH
                     else Z.lor flags ACTION_ABSOLUTE_SWITCH in
        let a := act_ptr_default flags val in
        let+ r := check_button info None (unsigned value) in
        match r with
        | PARSER_SUCCESS btn =>
            Ok (if btn =? 0 then (mismatch (ki_strict info), a)
                else (success, act_ptr_default flags (if is_negate value then - btn else btn)))
        | _ => Ok (mismatch (ki_strict info), a)
        end
  | _ => Ok (illegal (ki_strict info), a)
  end.

Definition HandleSwitchScreen (info : keymap_info) (flags screen : Z) (field : action_field)
    (array_ndx : option ExprDef) (value : ExprDef) : result (parser_error * xkb_action) :=
  let a := act_switch_vt flags screen in
  match field with
  | ACTION_FIELD_SCREEN =>
      if has_index array_ndx then Ok (mismatch (ki_strict info), a)
      else
        let flags := if is_signed value then Z.ldiff flags ACTION_ABSOLUTE_SWITCH
                     else Z.lor flags ACTION_ABSOLUTE_SWITCH in
        let a := act_switch_vt flags screen in
        let+ r := ExprResolveInteger (unsigned value) in
        match r with
        | None => Ok (mismatch (ki_strict info), a)
        | Some val =>
            let val := if is_negate value then - val else val in
            if negb (in_int64 val) then Fault FaultOverflow
            else Ok (if (val <? - 2 ^ 7) || (val >? 2 ^ 7 - 1) then (mismatch (ki_strict info), a)
                     else (success, act_switch_vt flags val))
        end
  | ACTION_FIELD_SAME =>
      let+ r := CheckBooleanFlag info ACTION_SAME_SCREEN array_ndx value flags in
      Ok (fst r, act_switch_vt (snd r) screen)
  | _ => Ok (illegal (ki_strict info), a)
  end.

Definition HandleSetLockControls (info : keymap_info) (t : ctrl_action_type) (flags ctrls : Z)
    (field : action_field) (array_ndx : option ExprDef) (value : ExprDef)
    : result (parser_error * xkb_action) :=
  let a := act_ctrls t flags ctrls in
  match field, t with
  | ACTION_FIELD_CONTROLS, _ =>
      if has_index array_ndx then Ok (mismatch (ki_strict info), a)
      else
        let+ mask := ExprResolveMask (ki_ctx info) value (ctrlMaskNames (ki_format info)) in
        Ok (match mask with
            | None => (mismatch (ki_strict info), a)
            | Some mask => (success, act_ctrls t flags mask)
            end)
  | ACTION_FIELD_AFFECT, CTRL_LOCK =>
      let+ r := CheckAffectField info array_ndx value flags in Ok (fst r, act_ctrls t (snd r) ctrls)
  | _, _ => Ok (illegal (ki_strict info), a)
  end.

(** ** Keys by name (src/keymap.h)

    The index of the key; the assertions of the source are faults. *)

Definition key_index_of (info : keymap_info) (name : Z) (index : Z) : result nat :=
  match item (ki_keys info) index with
  | Some key => if ky_name key =? name then Ok (Z.to_nat index) else Fault FaultAssert
  | None => Fault FaultOutOfBounds
  end.

Definition XkbKeyByName (info : keymap_info) (name : Z) (use_aliases : bool) : result (option nat) :=
  match item (ki_key_names info) name with
  | None => Ok None
  | Some entry =>
      if negb (match_found entry) then Ok None
      else if negb (match_is_alias entry) then
        let+ i := key_index_of info name (match_value entry) in Ok (Some i)
      else if use_aliases then
        match item (ki_key_names info) (match_value entry) with
        | None => Fault FaultOutOfBounds
        | Some real => let+ i := key_index_of info (match_value entry) (match_value real) in Ok (Some i)
        end
      else Ok None
  end.

Definition is_auto (ctx : atom_table) (value : ExprDef) : result bool :=
  match value with
  | STMT_EXPR_IDENT ident =>
      let+ str := xkb_atom_text ctx ident in
      Ok (match str with Some str => istreq str (bytes_of "auto"%string) | None => false end)
  | _ => Ok false
  end.

Definition HandleRedirectKey (info : keymap_info) (mods : xkb_mod_set) (r : xkb_redirect_key_action)
    (field : action_field) (array_ndx : option ExprDef) (value : ExprDef)
    : result (parser_error * xkb_action) :=
  let a := act_redirect r in
  let set_modifiers (clear : bool) : result (parser_error * xkb_action) :=
    let+ c := CheckModifierField info mods array_ndx value 0 0 in
    let '(e, (flags, m)) := c in
    match e with
    | PARSER_SUCCESS _ =>
        if negb (flags =? 0) then Ok (mismatch (ki_strict info), a)
        else Ok (success, act_redirect (mk_redirect (r_keycode r) (Z.lor (r_affect r) m)
                   (if clear then Z.ldiff (r_mods r) m else Z.lor (r_mods r) m)))
    | e => Ok (e, a)
    end in
  match field with
  | ACTION_FIELD_KEYCODE =>
      if has_index array_ndx then Ok (mismatch (ki_strict info), a)
      else
        let+ auto := is_auto (ki_ctx info) value in
        if auto : bool
        then Ok (success, act_redirect (mk_redirect (ki_redirect_key_auto info) (r_affect r) (r_mods r)))
        else match value with
        | STMT_EXPR_KEYNAME_LITERAL name =>
            let+ i := XkbKeyByName info name true in
            match i with
            | None => Ok (if has_flag (ki_strict info) PARSER_NO_FIELD_VALUE_MISMATCH
                          then PARSER_FATAL_ERROR else PARSER_RECOVERABLE_ERROR, a)
            | Some i =>
                match ki_keys info !! i with
                | Some key => Ok (success, act_redirect (mk_redirect (ky_keycode key) (r_affect r) (r_mods r)))
                | None => Fault FaultOutOfBounds
                end
            end
        | _ => Ok (mismatch (ki_strict info), a)
        end
  | ACTION_FIELD_MODIFIERS => set_modifiers false
  | ACTION_FIELD_MODS_TO_CLEAR => set_modifiers true
  | _ => Ok (illegal (ki_strict info), a)
  end.

(** The type and the data of a private action. *)
Definition HandlePrivate (info : keymap_info) (type : Z) (data : list Z) (field : action_field)
    (array_ndx : option ExprDef) (value : ExprDef) : result (parser_error * (Z * list Z)) :=
  let error := Ok (mismatch (ki_strict info), (type, data)) in
  match field with
  | ACTION_FIELD_TYPE =>
      let+ r := check_integer info array_ndx value 0 255 in
      Ok (match r with
          | PARSER_SUCCESS t => (success, (if t <? ACTION_TYPE_PRIVATE then 0 else t, data))
          | PARSER_RECOVERABLE_ERROR => (PARSER_RECOVERABLE_ERROR, (type, data))
          | PARSER_FATAL_ERROR => (PARSER_FATAL_ERROR, (type, data))
          end)
  | ACTION_FIELD_DATA =>
      match array_ndx with
      | None =>
          match ExprResolveString value with
          | None => error
          | Some val =>
              let+ str := atom_string (ki_ctx info) val in
              if Nat.ltb (length str) 1 || Nat.ltb 7 (length str) then error
              else Ok (success, (type, str ++ replicate (7 - length str) 0))
          end
      | Some array_ndx =>
          let+ ndx := ExprResolveInteger array_ndx in
          match ndx with
          | None => error
          | Some ndx =>
              if (ndx <? 0) || (ndx >=? 7) then error
              else
                let+ r := check_integer info None value 0 255 in
                Ok (match r with
                    | PARSER_SUCCESS datum => (success, (type, <[Z.to_nat ndx := datum]> data))
                    | PARSER_RECOVERABLE_ERROR => (PARSER_RECOVERABLE_ERROR, (type, data))
                    | PARSER_FATAL_ERROR => (PARSER_FATAL_ERROR, (type, data))
                    end)
          end
      end
  | _ => Ok (illegal (ki_strict info), (type, data))
  end.

(** ** Dispatch *)

(** [handleAction[type]] *)
Definition handle_field (info : keymap_info) (mods : xkb_mod_set) (pendings : list pending_computation)
    (a : paction) (field : action_field) (array_ndx : option ExprDef) (value : ExprDef) (value_ptr : bool)
    : result (parser_error * paction * list pending_computation) :=
  let body (r : result (parser_error * xkb_action)) := let+ r := r in Ok (fst r, pa_with_body (snd r) a, pendings) in
  match pa_body a with
  | act_none | act_void | act_terminate => Ok (illegal (ki_strict info), a, pendings)
  | act_mods t flags m => body (HandleSetLatchLockMods info mods t flags m field array_ndx value)
  | act_group t flags group =>
      let+ r := HandleSetLatchLockGroup info pendings t flags group field array_ndx value value_ptr in
      let '(e, b, pendings) := r in Ok (e, pa_with_body b a, pendings)
  | act_ptr_move flags x y => body (HandleMovePtr info flags x y field array_ndx value)
  | act_btn t flags count button => body (HandlePtrBtn info t flags count button field array_ndx value)
  | act_ptr_default flags val => body (HandleSetPtrDflt info flags val field array_ndx value)
  | act_switch_vt flags screen => body (HandleSwitchScreen info flags screen field array_ndx value)
  | act_ctrls t flags c => body (HandleSetLockControls info t flags c field array_ndx value)
  | act_redirect r => body (HandleRedirectKey info mods r field array_ndx value)
  | act_unsupported_legacy | act_unknown => Ok (success, a, pendings)
  | act_private t data =>
      let+ r := HandlePrivate info (pa_type a) data field array_ndx value in
      Ok (fst r, mk_paction (fst (snd r)) (act_private t (snd (snd r))), pendings)
  | act_internal _ _ => Fault FaultNull
  end.

(** The field, the value and [value_ptr] of an argument. *)
Definition argument (arg : ExprDef) : ExprDef * ExprDef * bool :=
  match arg with
  | ExprBinary STMT_EXPR_ASSIGN field value => (field, value, true)
  | ExprUnary (STMT_EXPR_NOT | STMT_EXPR_INVERT) field => (field, STMT_EXPR_BOOLEAN_LITERAL false, false)
  | _ => (arg, STMT_EXPR_BOOLEAN_LITERAL true, false)
  end.

(** The loop over the arguments; [ret] is a success or the recoverable error. *)
Fixpoint handle_arguments (info : keymap_info) (mods : xkb_mod_set) (args : list ExprDef)
    (pendings : list pending_computation) (a : paction) (ret : parser_error)
    : result (parser_error * paction * list pending_computation) :=
  match args with
  | [] => Ok (ret, a, pendings)
  | arg :: args =>
      let '(field, value, value_ptr) := argument arg in
      let+ lhs := ExprResolveLhs (ki_ctx info) field in
      match lhs with
      | None | Some (Some _, _, _) => Ok (PARSER_FATAL_ERROR, a, pendings)
      | Some (None, fieldRtrn, arrayRtrn) =>
          match stringToField fieldRtrn with
          | None =>
              if has_flag (ki_strict info) PARSER_NO_UNKNOWN_ACTION_FIELDS
              then Ok (PARSER_FATAL_ERROR, a, pendings)
              else handle_arguments info mods args pendings a ret
          | Some fieldNdx =>
              let+ r := handle_field info mods pendings a fieldNdx arrayRtrn value value_ptr in
              let '(e, a, pendings) := r in
              match e with
              | PARSER_FATAL_ERROR => Ok (PARSER_FATAL_ERROR, a, pendings)
              | PARSER_RECOVERABLE_ERROR => handle_arguments info mods args pendings a PARSER_RECOVERABLE_ERROR
              | PARSER_SUCCESS _ => handle_arguments info mods args pendings a ret
              end
          end
      end
  end.

(** The error, the action and the pending computations. *)
Definition HandleActionDef (info : keymap_info) (defaults : ActionsInfo) (mods : xkb_mod_set)
    (pendings : list pending_computation) (def : ExprDef) (action : paction)
    : result (parser_error * paction * list pending_computation) :=
  match def with
  | STMT_EXPR_ACTION_DECL name args =>
      let+ action_name := xkb_atom_text (ki_ctx info) name in
      let found := match action_name with Some name => stringToActionType name | None => None end in
      let handler_type := default ACTION_TYPE_UNKNOWN found in
      if negb (bool_decide (is_Some found)) && has_flag (ki_strict info) PARSER_NO_UNKNOWN_ACTION
      then Ok (PARSER_FATAL_ERROR, action, pendings)
      else match item defaults handler_type with
      | None => Fault FaultOutOfBounds
      | Some a =>
          let a := if handler_type =? ACTION_TYPE_UNSUPPORTED_LEGACY then mk_paction 0 (pa_body a) else a in
          let+ r := handle_arguments info mods args pendings a success in
          let '(e, a, pendings) := r in
          match e with
          | PARSER_FATAL_ERROR => Ok (PARSER_FATAL_ERROR, a, pendings)
          | e => Ok (if pa_type a =? ACTION_TYPE_UNKNOWN then PARSER_RECOVERABLE_ERROR else e, a, pendings)
          end
      end
  | _ => Ok (PARSER_FATAL_ERROR, action, pendings)
  end.

Definition SetDefaultActionField (info : keymap_info) (defaults : ActionsInfo) (mods : xkb_mod_set)
    (pendings : list pending_computation) (elem field : list Z) (array_ndx : option ExprDef)
    (value : ExprDef) (merge : merge_mode)
    : result (parser_error * ActionsInfo * list pending_computation) :=
  let error flag : parser_error :=
    if has_flag (ki_strict info) flag then PARSER_FATAL_ERROR else PARSER_RECOVERABLE_ERROR in
  match stringToActionType elem with
  | None => Ok (error PARSER_NO_UNKNOWN_ACTION, defaults, pendings)
  | Some action =>
      match stringToField field with
      | None => Ok (error PARSER_NO_UNKNOWN_ACTION_FIELDS, defaults, pendings)
      | Some action_field =>
          match item defaults action with
          | None => Fault FaultOutOfBounds
          | Some into =>
              let+ r := handle_field info mods pendings into action_field array_ndx value true in
              let '(e, from, pendings) := r in
              Ok (match e with
                  | PARSER_SUCCESS _ =>
                      (success,
                       if negb (action_equal (union_action into) (union_action from)) && clobbers merge
                       then <[Z.to_nat action := from]> defaults else defaults, pendings)
                  | e => (e, defaults, pendings)
                  end)
          end
      end
  end.
