(* ===== verification/Sections.v ===== *)
(** * Sections of a keymap (src/xkbcomp/ast.h, src/xkbcomp/include.c)

    The statements of the sections of a keymap file, and the choice of the map
    of an included file.  What the parser makes of the files found in the
    include paths is a parameter of the definitions that follow includes. *)

From Stdlib Require Import ZArith Lia String.
From stdpp Require Import base tactics list numbers.
From S2P Require Import Prelude Numbers Atom Expr Vmod.

(** ** Statements *)

Inductive xkb_file_type :=
  FILE_TYPE_KEYCODES | FILE_TYPE_TYPES | FILE_TYPE_COMPAT | FILE_TYPE_SYMBOLS | FILE_TYPE_GEOMETRY
| FILE_TYPE_KEYMAP | FILE_TYPE_RULES | FILE_TYPE_INVALID.

#[global] Instance xkb_file_type_eq_dec : EqDecision xkb_file_type.
Proof. solve_decision. Defined.

(** A file of an include statement. *)
Record include_item := mk_include {
  inc_merge : merge_mode;
  inc_stmt : option (list Z);
  inc_file : list Z;
  inc_map : option (list Z);
  inc_modifier : option (list Z)
}.

(** [IncludeStmt]: the statement, then those of the links [next_incl]. *)
Record IncludeStmt := mk_include_stmt {
  inc_first : include_item;
  inc_next : list include_item
}.

Definition inc_items (include : IncludeStmt) : list include_item := inc_first include :: inc_next include.

(** A [VarDef] without a name is a list of the body of a key.  [vr_next]: the
    expressions linked to the value by [common.next], the lists of keysyms or
    actions of the levels after the first one. *)
Record VarDef := mk_var {
  vr_merge : merge_mode;
  vr_name : option ExprDef;
  vr_value : ExprDef;
  vr_next : list ExprDef
}.

Inductive statement :=
| STMT_INCLUDE (include : IncludeStmt)
| STMT_KEYCODE (merge : merge_mode) (name : Z) (value : Z)
| STMT_ALIAS (merge : merge_mode) (alias real : Z)
| STMT_VAR (var : VarDef)
| STMT_TYPE (merge : merge_mode) (name : Z) (body : list VarDef)
| STMT_INTERP (merge : merge_mode) (sym : Z) (match_ : option ExprDef) (def : list VarDef)
| STMT_VMOD (vmod : VModDef)
| STMT_SYMBOLS (merge : merge_mode) (keyName : Z) (symbols : list VarDef)
| STMT_MODMAP (merge : merge_mode) (modifiers : ExprDef) (keys : list ExprDef)
| STMT_GROUP_COMPAT (merge : merge_mode) (group : Z) (def : ExprDef)
| STMT_LED_MAP (merge : merge_mode) (name : Z) (body : list VarDef)
| STMT_LED_NAME (merge : merge_mode) (ndx : Z) (name : ExprDef)
| STMT_UNKNOWN.

Definition MAP_IS_DEFAULT : Z := 2 ^ 0.

Record XkbFile := mk_file {
  xf_name : option (list Z);
  xf_defs : list statement;
  xf_file_type : xkb_file_type;
  xf_flags : Z
}.

(** ** Names of maps (src/keymap-priv.c) *)

Definition legal : list Z :=
  [0x00; 0x00; 0x00; 0x00; 0x00; 0xa7; 0xff; 0x83; 0xfe; 0xff; 0xff; 0x87; 0xfe; 0xff; 0xff; 0x07;
   0x00; 0x00; 0x00; 0x00; 0x00; 0x00; 0x00; 0x00; 0xff; 0xff; 0x7f; 0xff; 0xff; 0xff; 0x7f; 0xff].

Definition is_legal (c : Z) : bool := has_flag (default 0 (legal !! Z.to_nat (c / 8))) (bit (c mod 8)).

Definition XkbEscapeMapName (name : list Z) : list Z := map (fun c => if is_legal c then c else 95) name.

(** ** Included files *)

Definition INCLUDE_MAX_DEPTH : nat := 15.

Definition ExceedsIncludeMaxDepth (include_depth : nat) : bool := Nat.leb INCLUDE_MAX_DEPTH include_depth.

(** The loop over the files found, in the order of the include paths; [None]
    is a file that the parser refuses. *)
Fixpoint select_file (file_type : xkb_file_type) (has_map : bool) (files : list (option XkbFile))
    (candidate : option XkbFile) : option XkbFile :=
  match files with
  | [] => candidate
  | None :: files => select_file file_type has_map files candidate
  | Some xkb_file :: files =>
      if negb (bool_decide (xf_file_type xkb_file = file_type)) then select_file file_type has_map files candidate
      else if has_map || has_flag (xf_flags xkb_file) MAP_IS_DEFAULT then Some xkb_file
      else select_file file_type has_map files (match candidate with None => Some xkb_file | c => c end)
  end.

(** [parse] is the list of the files found for a statement, parsed. *)
Definition ProcessIncludeFile (parse : xkb_file_type -> include_item -> list (option XkbFile))
    (stmt : include_item) (file_type : xkb_file_type) : option XkbFile :=
  select_file file_type (bool_decide (is_Some (inc_map stmt))) (parse file_type stmt) None.

(** The file chosen is of the type asked for, and one of those found. *)
Lemma select_file_spec file_type has_map files c f :
  (forall f', c = Some f' -> xf_file_type f' = file_type) ->
  select_file file_type has_map files c = Some f ->
  xf_file_type f = file_type /\ (Some f ∈ files \/ c = Some f).
Proof.
  revert c. induction files as [|[f'|] files IH]; cbn [select_file]; intros c Hc Hs.
  - split; [by apply Hc|by right].
  - destruct (bool_decide_reflect (xf_file_type f' = file_type)) as [Ht|Ht]; cbn [negb] in Hs.
    + destruct (has_map || _).
      * injection Hs as <-. split; [done|]. left. by left.
      * apply IH in Hs as [Hf Hin].
        -- split; [done|]. destruct Hin as [Hin|Hin]; [left; by right|].
           destruct c; [by right|]. injection Hin as <-. left. by left.
        -- intros f'' Hf. destruct c; [by apply Hc|]. by injection Hf as <-.
    + apply IH in Hs as [Hf [Hin|Hin]]; [| |done]; (split; [done|]); [left; by right|by right].
  - apply IH in Hs as [Hf [Hin|Hin]]; [| |done]; (split; [done|]); [left; by right|by right].
Qed.

(** ** Names of variables

    [ExprResolveLhs] on the name of a variable. *)
Definition var_lhs (ctx : atom_table) (var : VarDef)
    : result (option (option (list Z) * list Z * option ExprDef)) :=
  match vr_name var with
  | Some name => ExprResolveLhs ctx name
  | None => Fault FaultNull
  end.

(** [!(strict & flag)]: whether an error is ignored. *)
Definition lenient (strict flag : Z) : bool := negb (has_flag strict flag).
