(* ===== verification/Safe.v ===== *)
(** * Safety of the resolvers of expressions

    The results that are in bounds, and the expressions that the resolvers of
    src/xkbcomp/expr.c read within the table of atoms. *)

From Stdlib Require Import ZArith Lia String.
From stdpp Require Import base tactics list numbers.
From S2P Require Import Prelude Numbers Atom Keymap KeysymNames KeysymName Expr ExprSpec Vmod VmodSpec KeyAliases Derived DerivedInv Sections.

(** ** Results that are in bounds

    The faults left are the unchecked operations on 64-bit integers. *)

Definition safe {A} (Q : A -> Prop) (r : result A) : Prop :=
  match r with Ok a => Q a | Fault f => overflow_only f end.

Lemma safe_Ok {A} (Q : A -> Prop) a : Q a -> safe Q (Ok a).
Proof. done. Qed.

Lemma safe_bind {A B} (P : A -> Prop) (Q : B -> Prop) (m : result A) (k : A -> result B) :
  safe P m -> (forall a, P a -> safe Q (k a)) -> safe Q (result_bind m k).
Proof. intros Hm Hk. destruct m as [a|f]; [by apply Hk|exact Hm]. Qed.

Lemma safe_mono {A} (P Q : A -> Prop) (m : result A) : safe P m -> (forall a, P a -> Q a) -> safe Q m.
Proof. intros Hm H. destruct m; [by apply H|done]. Qed.

Lemma safe_map {A B} (P : B -> Prop) (f : A -> B) (m : result A) : safe (fun a => P (f a)) m -> safe P (result_map f m).
Proof. by destruct m. Qed.

Lemma safe_faults {A} (m : result A) : faults_only overflow_only m -> safe (fun _ => True) m.
Proof. intros H. destruct m as [a|f]; [done|]. by apply H. Qed.

(** Results whose faults are in [E]. *)
Definition within {A} (E : fault -> Prop) (Q : A -> Prop) (r : result A) : Prop :=
  match r with Ok a => Q a | Fault f => E f end.

Lemma within_bind {A B} E (P : A -> Prop) (Q : B -> Prop) (m : result A) (k : A -> result B) :
  within E P m -> (forall a, P a -> within E Q (k a)) -> within E Q (result_bind m k).
Proof. intros Hm Hk. destruct m as [a|f]; [by apply Hk|exact Hm]. Qed.

Lemma within_mono {A} E (P Q : A -> Prop) (m : result A) : within E P m -> (forall a, P a -> Q a) -> within E Q m.
Proof. intros Hm H. destruct m; [by apply H|done]. Qed.

Lemma safe_within {A} (E : fault -> Prop) (Q : A -> Prop) (m : result A) :
  (forall f, overflow_only f -> E f) -> safe Q m -> within E Q m.
Proof. intros HE Hm. destruct m; [done|by apply HE]. Qed.

(** ** Expressions whose atoms are in the table *)

Definition text_ok (ctx : atom_table) (a : Z) : Prop := exists o, xkb_atom_text ctx a = Ok o.
Definition atom_ok (ctx : atom_table) (a : Z) : Prop := exists s, atom_string ctx a = Ok s.

Fixpoint expr_wf (ctx : atom_table) (e : ExprDef) : Prop :=
  match e with
  | STMT_EXPR_STRING_LITERAL str => atom_ok ctx str
  | STMT_EXPR_IDENT ident => atom_ok ctx ident
  | STMT_EXPR_ACTION_DECL name args => text_ok ctx name /\ foldr (fun e P => expr_wf ctx e /\ P) True args
  | STMT_EXPR_FIELD_REF element field => text_ok ctx element /\ text_ok ctx field
  | STMT_EXPR_ARRAY_REF element field entry => text_ok ctx element /\ text_ok ctx field /\ expr_wf ctx entry
  | STMT_EXPR_ACTION_LIST actions => foldr (fun e P => expr_wf ctx e /\ P) True actions
  | ExprBinary _ e1 e2 => expr_wf ctx e1 /\ expr_wf ctx e2
  | ExprUnary _ child => expr_wf ctx child
  | _ => True
  end.

Lemma atom_text_ok ctx a : atom_ok ctx a -> text_ok ctx a.
Proof.
  intros [s Hs]. unfold atom_string in Hs. unfold text_ok. destruct (xkb_atom_text ctx a) as [[t|]|]; try done; eauto.
Qed.

Lemma foldr_Forall {A} (P : A -> Prop) l : foldr (fun e Q => P e /\ Q) True l <-> Forall P l.
Proof. induction l as [|x l IH]; cbn; [split; [constructor|done]|]. by rewrite IH, list.Forall_cons. Qed.

Lemma expr_wf_operands ctx e x : expr_wf ctx e -> x ∈ operands e -> expr_wf ctx x.
Proof.
  revert x. induction e; intros x Hw Hx; cbn [operands] in Hx; apply list.elem_of_cons in Hx as [->|Hx]; try done;
    try (by apply elem_of_nil in Hx).
  - destruct Hw. apply elem_of_app in Hx as []; auto.
  - by apply IHe.
Qed.

Lemma expr_wf_ok ctx e : expr_wf ctx e -> expr_ok ctx e.
Proof. intros Hw ident Hi. exact (expr_wf_operands ctx e _ Hw Hi). Qed.

Lemma safe_text ctx a : text_ok ctx a -> safe (fun _ => True) (xkb_atom_text ctx a).
Proof. by intros [o ->]. Qed.

Lemma safe_atom_string ctx a : atom_ok ctx a -> safe (fun _ => True) (atom_string ctx a).
Proof. by intros [s ->]. Qed.

(** ** Resolvers *)

Section resolvers.
Context (ctx : atom_table).

Lemma boolean_safe e : expr_wf ctx e -> safe (fun _ => True) (ExprResolveBoolean ctx e).
Proof.
  induction e; intros Hw; try done; cbn.
  - eapply safe_bind; [by apply safe_text, atom_text_ok|]. done.
  - destruct op; try done; (eapply safe_bind; [by apply IHe|done]).
Qed.

Lemma integer_lookup_none e :
  ExprResolveIntegerLookup None e = ExprResolveIntegerLookup (Some (fun _ => Ok Failed)) e.
Proof. induction e; cbn; try done; [destruct op; by rewrite ?IHe1, ?IHe2 | destruct op; by rewrite ?IHe]. Qed.

Lemma integer_safe e : safe (fun _ => True) (ExprResolveInteger e).
Proof.
  unfold ExprResolveInteger. rewrite integer_lookup_none. apply safe_map, safe_faults, integer_faults. done.
Qed.

Lemma simple_lookup_faults es ident : atom_ok ctx ident ->
  faults_only overflow_only (no_pending (SimpleLookup ctx (Some es) ident)).
Proof.
  intros [s Hs] f. unfold SimpleLookup. destruct (_ =? _); [done|]. rewrite Hs. done.
Qed.

Lemma button_safe e : expr_wf ctx e -> safe (fun _ => True) (ExprResolveButton ctx e).
Proof.
  intros Hw. apply safe_map, safe_faults, integer_faults. intros i Hi.
  apply simple_lookup_faults. exact (expr_wf_operands ctx e _ Hw Hi).
Qed.

Lemma enum_safe e es : expr_wf ctx e -> safe (fun r => forall v, r = Some v -> exists n, (n, v) ∈ es) (ExprResolveEnum ctx e es).
Proof.
  intros Hw. destruct e; try done. cbn. unfold SimpleLookup. destruct (_ =? _); [done|].
  destruct Hw as [s ->]. cbn. intros v. clear.
  induction es as [|[[n|] w] es IH]; cbn; [done| |done]. destruct (istreq s n).
  - intros [= ->]. exists (Some n). left.
  - intros H. destruct (IH H) as [n' Hn]. exists n'. by right.
Qed.

Lemma mask_safe e es : expr_wf ctx e -> Forall (fun x => is_u32 (snd x)) es ->
  safe (fun r => forall v, r = Some v -> is_u32 v) (ExprResolveMask ctx e es).
Proof.
  intros Hw Hes. unfold ExprResolveMask.
  destruct (ExprResolveMaskLookup _ e) as [r|f] eqn:Hr; cbn.
  - intros v Hv. destruct r as [w| |]; try done. injection Hv as ->.
    revert Hr. apply resolve_mask_u32. intros ident w Hw'. apply no_pending_Resolved in Hw'.
    unfold SimpleLookup in Hw'. destruct (_ =? _); [done|]. destruct (atom_string ctx ident) as [s|]; [|done].
    injection Hw' as Hw'. clear -Hes Hw'. induction Hes as [|[[n|] u] es Hu Hes IH]; cbn in Hw'; try done.
    destruct (istreq s n); [by injection Hw' as <-|by apply IH].
  - refine (mask_faults _ e _ f Hr). intros i Hi. apply simple_lookup_faults. exact (expr_wf_operands ctx e _ Hw Hi).
Qed.
Lemma mod_mask_safe mods value type : (length mods <= 32)%nat -> expr_wf ctx value ->
  safe (fun r => forall m, r = Some m -> is_u32 m) (ExprResolveModMask ctx value type mods).
Proof.
  intros Hlen Hv. destruct (ExprResolveModMask _ _ _ _) as [r|f] eqn:Hr; cbn.
  - intros m ->. eapply resolve_mod_mask_u32, Hr.
  - unfold ExprResolveModMask in Hr. destruct (ExprResolveMaskLookup _ _) as [|f'] eqn:Hm; [done|].
    injection Hr as <-. refine (mask_faults _ value _ f' Hm). intros i Hi f0.
    destruct (atom_text_ok ctx i (expr_wf_operands ctx value _ Hv Hi)) as [o Ho].
    unfold LookupModMask. rewrite Ho. cbn [result_bind]. destruct o as [str|]; [|done].
    destruct (istreq str modifier_all); [done|]. destruct (istreq str modifier_none); [done|].
    unfold XkbModNameToIndex. destruct (list_find _ mods) as [[k m]|] eqn:Hf; [|done].
    apply list_find_Some in Hf as (Hk%lookup_lt_Some & _). 
    destruct (_ =? XKB_MOD_INVALID); [done|]. replace (Z.of_nat k <? 32) with true by (symmetry; apply Z.ltb_lt; lia). done.
Qed.

Lemma lhs_safe e : expr_wf ctx e ->
  safe (fun r => forall el f ndx, r = Some (el, f, ndx) -> match ndx with Some e => expr_wf ctx e | None => True end)
    (ExprResolveLhs ctx e).
Proof.
  intros Hw. destruct e; try done; cbn.
  - eapply safe_bind; [by apply safe_text, atom_text_ok|]. intros [f|] _; cbn; [|done]. by intros el f' ndx [= <- <- <-].
  - destruct Hw as [He Hf]. eapply safe_bind; [by apply safe_text|]. intros o _.
    eapply safe_bind; [by apply safe_text|]. intros o' _ el f' ndx. destruct o, o'; try done. by intros [= <- <- <-].
  - destruct Hw as (He & Hf & Hn). eapply safe_bind; [by apply safe_text|]. intros o _.
    eapply safe_bind; [by apply safe_text|]. intros o' _. destruct (negb _ && negb _); [done|].
    intros el f' ndx. destruct o'; [|done]. by intros [= <- <- <-].
Qed.

End resolvers.

(** ** Statements whose atoms are in the table

    Names of keys are atoms, [XKB_ATOM_NONE] excepted; variables have a name,
    except in the body of a key. *)

Definition var_wf (ctx : atom_table) (v : VarDef) : Prop :=
  (exists e, vr_name v = Some e /\ expr_wf ctx e) /\ expr_wf ctx (vr_value v).

Definition key_var_wf (ctx : atom_table) (v : VarDef) : Prop :=
  match vr_name v with Some e => expr_wf ctx e | None => True end /\ expr_wf ctx (vr_value v).

Definition stmt_wf (ctx : atom_table) (stmt : statement) : Prop :=
  match stmt with
  | STMT_KEYCODE _ name _ => 0 < name
  | STMT_ALIAS _ alias _ => 0 <= alias
  | STMT_VAR v => var_wf ctx v
  | STMT_TYPE _ name body => text_ok ctx name /\ Forall (var_wf ctx) body
  | STMT_INTERP _ _ match_ def => match match_ with Some e => expr_wf ctx e | None => True end /\ Forall (var_wf ctx) def
  | STMT_VMOD v => vd_name v <> XKB_ATOM_NONE /\ match vd_value v with Some e => expr_wf ctx e | None => True end
  | STMT_SYMBOLS _ keyName symbols => text_ok ctx keyName /\ Forall (key_var_wf ctx) symbols
  | STMT_MODMAP _ modifiers keys => expr_wf ctx modifiers /\ Forall (expr_wf ctx) keys
  | STMT_LED_MAP _ name body => atom_ok ctx name /\ Forall (var_wf ctx) body
  | STMT_LED_NAME _ _ name => expr_wf ctx name
  | _ => True
  end.

Definition file_wf (ctx : atom_table) (file : XkbFile) : Prop := Forall (stmt_wf ctx) (xf_defs file).

(** Every file found is one of the parser's. *)
Definition parse_wf (ctx : atom_table) (parse : xkb_file_type -> include_item -> list (option XkbFile)) : Prop :=
  forall type item file, Some file ∈ parse type item -> file_wf ctx file.

Lemma process_wf ctx parse stmt type file : parse_wf ctx parse ->
  ProcessIncludeFile parse stmt type = Some file -> file_wf ctx file.
Proof.
  intros Hp Hf. apply select_file_spec in Hf as [_ [Hin|Hin]]; [|done|done]. by eapply Hp.
Qed.

Lemma var_lhs_safe ctx v : var_wf ctx v ->
  safe (fun r => forall el f ndx, r = Some (el, f, ndx) -> match ndx with Some e => expr_wf ctx e | None => True end)
    (var_lhs ctx v).
Proof. intros [(e & He & Hw) _]. unfold var_lhs. rewrite He. by apply lhs_safe. Qed.

(** ** Levels and virtual modifiers *)

Lemma level_safe ctx e : expr_wf ctx e ->
  safe (fun r => forall l, r = Some l -> 0 <= l < XKB_LEVEL_MAX_IMPL) (ExprResolveLevel ctx e).
Proof.
  intros Hw. unfold ExprResolveLevel. eapply safe_bind.
  { apply safe_faults, integer_faults. intros i Hi. apply named_integer_faults; [exact (expr_wf_operands ctx e _ Hw Hi)|done]. }
  intros [v| |] _; cbn; try done. intros l. destruct ((v <? 1) || (v >? XKB_LEVEL_MAX_IMPL)) eqn:E; [done|].
  intros [= <-]. apply orb_false_iff in E as [E1%Z.ltb_ge E2]. rewrite Z.gtb_ltb in E2. apply Z.ltb_ge in E2.
  unfold XKB_LEVEL_MAX_IMPL in *. rewrite u32_id; unfold is_u32; lia.
Qed.

Lemma vmod_def_safe ctx mods v : vmods_ok mods -> stmt_wf ctx (STMT_VMOD v) ->
  safe (fun r => vmods_ok (snd r) /\ extends mods (snd r)) (HandleVModDef ctx mods v).
Proof.
  intros Hm [Hn Hv]. destruct (HandleVModDef ctx mods v) as [[b s']|f] eqn:E; cbn; [by eapply handle_vmod_ok|].
  unfold HandleVModDef in E. destruct (vd_value v) as [e|]; [|by destruct (list_find _ _) as [[]|]].
  pose proof (mod_mask_safe ctx (ms_enum mods) e MOD_REAL) as Hs.
  destruct (ExprResolveModMask ctx e MOD_REAL (ms_enum mods)) as [[m|]|f']; cbn in *; try (by destruct (list_find _ _) as [[]|]); [done|].
  injection E as <-. apply Hs; [|done]. unfold ms_enum. rewrite length_take. pose proof (vo_num mods Hm). unfold XKB_MAX_MODS in *. lia.
Qed.

Lemma enum_length mods : vmods_ok mods -> (length (ms_enum mods) <= 32)%nat.
Proof. intros Hm. unfold ms_enum. rewrite length_take. pose proof (vo_num mods Hm). unfold XKB_MAX_MODS in *. lia. Qed.

Lemma vmods_mask_safe ctx mods e type : vmods_ok mods -> expr_wf ctx e ->
  safe (fun r => forall m, r = Some m -> is_u32 m) (ExprResolveModMask ctx e type (ms_enum mods)).
Proof. intros Hm Hw. apply mod_mask_safe; [by apply enum_length|done]. Qed.
