(* ===== verification/ActionsSpec.v ===== *)
(** * Typing of the actions of keymap files

    Whatever the expression of an action and the defaults that a file set, the
    definition of an action is in bounds and gives an action of the type it
    names, each field in the range of its C type. *)

From Stdlib Require Import ZArith Lia String.
From stdpp Require Import base tactics list numbers.
From S2P Require Import Prelude Numbers Atom AtomSpec Keymap KeysymNames KeysymName Expr ExprSpec Vmod VmodSpec KeyAliases Derived DerivedInv Actions Safe.

(** ** Well-typed actions *)

Definition in_range (low high v : Z) : Prop := low <= v <= high.

(** [n] is the number of pending computations. *)
Definition body_ok (n : nat) (a : xkb_action) : Prop :=
  match a with
  | act_mods _ flags m => is_u32 flags /\ is_u32 (m_mods m) /\ m_mask m = 0
  | act_group _ flags group => is_u32 flags /\ caction_ok n a
  | act_ptr_move flags x y => is_u32 flags /\ in_range (- 2 ^ 15) (2 ^ 15 - 1) x /\ in_range (- 2 ^ 15) (2 ^ 15 - 1) y
  | act_btn _ flags count button => is_u32 flags /\ in_range 0 255 count /\ in_range 0 5 button
  | act_ptr_default flags val => is_u32 flags /\ in_range (- 5) 5 val
  | act_switch_vt flags screen => is_u32 flags /\ in_range (- 2 ^ 7) (2 ^ 7 - 1) screen
  | act_ctrls _ flags c => is_u32 flags /\ is_u32 c
  | act_redirect r => is_u32 (r_affect r) /\ is_u32 (r_mods r)
  | act_private t data => t = ACTION_TYPE_PRIVATE /\ length data = 7%nat
  | _ => True
  end.

(** The type of the action of a handler [t]. *)
Definition type_ok (t type : Z) : Prop :=
  type = t \/ (t = ACTION_TYPE_UNSUPPORTED_LEGACY /\ type = 0) \/
  (t = ACTION_TYPE_PRIVATE /\ (type = 0 \/ ACTION_TYPE_PRIVATE <= type <= 255)).

Definition paction_ok (n : nat) (t : Z) (a : paction) : Prop :=
  action_type (pa_body a) = t /\ type_ok t (pa_type a) /\ body_ok n (pa_body a).

Definition defaults_ok (n : nat) (defaults : ActionsInfo) : Prop :=
  length defaults = 21%nat /\ forall t a, defaults !! t = Some a -> paction_ok n (Z.of_nat t) a /\
    (pa_type a = Z.of_nat t \/ Z.of_nat t = ACTION_TYPE_PRIVATE).

Lemma body_ok_mono n n' a : (n <= n')%nat -> body_ok n a -> body_ok n' a.
Proof. intros Hn. destruct a; cbn; try done. intros (Hf & Hg & Hp). split; [done|]. split; [done|]. intros H. specialize (Hp H). lia. Qed.

Lemma paction_ok_mono n n' t a : (n <= n')%nat -> paction_ok n t a -> paction_ok n' t a.
Proof. intros Hn (Ht & Hty & Hb). split; [done|]. split; [done|]. by eapply body_ok_mono. Qed.

Lemma defaults_ok_mono n n' d : (n <= n')%nat -> defaults_ok n d -> defaults_ok n' d.
Proof. intros Hn [Hl H]. split; [done|]. intros t a Ha. destruct (H t a Ha). split; [by eapply paction_ok_mono|done]. Qed.

Lemma init_actions_ok n auto : defaults_ok n (InitActionsInfo auto).
Proof.
  split; [reflexivity|]. intros t a Ha.
  do 21 (destruct t as [|t]; [injection Ha as <-; split; [|left; reflexivity]; split; [reflexivity|];
    split; [left; reflexivity|]; cbn; repeat split; try done; try (by apply is_u32_check); unfold in_range; cbn; lia|]).
  done.
Qed.

(** What a definition adds to the pending computations. *)
Definition grown (ctx : atom_table) (ps ps' : list pending_computation) : Prop :=
  exists extra, ps' = ps ++ extra /\ Forall (fun pc => expr_wf ctx (pc_expr pc) /\ pc_computed pc = false) extra.

Lemma grown_refl ctx ps : grown ctx ps ps.
Proof. exists []. by rewrite app_nil_r. Qed.

Lemma grown_trans ctx ps1 ps2 ps3 : grown ctx ps1 ps2 -> grown ctx ps2 ps3 -> grown ctx ps1 ps3.
Proof.
  intros (e1 & -> & H1) (e2 & -> & H2). exists (e1 ++ e2). rewrite app_assoc. split; [done|]. by apply list.Forall_app.
Qed.

Lemma grown_length ctx ps ps' : grown ctx ps ps' -> (length ps <= length ps')%nat.
Proof. intros (e & -> & _). rewrite length_app. lia. Qed.

(** The data that the handlers read. *)
Record reads_ok (info : keymap_info) (mods : xkb_mod_set) : Prop := {
  rd_mods : (length (ms_enum mods) <= 32)%nat;
  rd_max : ki_max_groups info <= 32;
  rd_keys : forall name entry, item (ki_key_names info) name = Some entry -> match_found entry = true ->
    if match_is_alias entry
    then exists real i, item (ki_key_names info) (match_value entry) = Some real /\
           key_index_of info (match_value entry) (match_value real) = Ok i
    else exists i, key_index_of info name (match_value entry) = Ok i
}.

Section handlers.
Context (info : keymap_info) (mods : xkb_mod_set) (Hreads : reads_ok info mods).
Let ctx := ki_ctx info.

Lemma flag_safe f ndx value flags : expr_wf ctx value -> is_u32 f -> is_u32 flags ->
  safe (fun r => is_u32 (snd r)) (CheckBooleanFlag info f ndx value flags).
Proof using Type.
  intros Hv Hf Hfl. unfold CheckBooleanFlag. destruct (has_index ndx); [done|].
  eapply safe_bind; [by apply boolean_safe|]. intros [[]|] _; cbn; auto with masks.
Qed.

Lemma affect_safe ndx value flags : expr_wf ctx value -> is_u32 flags ->
  safe (fun r => is_u32 (snd r)) (CheckAffectField info ndx value flags).
Proof using Type.
  intros Hv Hf. unfold CheckAffectField. destruct (has_index ndx); [done|].
  eapply safe_bind; [by apply enum_safe|]. intros [v|] Hw; cbn; [|done].
  destruct (Hw v eq_refl) as [n Hn]. apply is_u32_lor; [by apply is_u32_ldiff|].
  revert Hn. unfold lockWhich, entries_of. cbn. rewrite !list.elem_of_cons, elem_of_nil.
  intros H. repeat destruct H as [[= _ ->]|H]; try done; by apply is_u32_check.
Qed.

Lemma modifier_safe ndx value flags m : expr_wf ctx value -> is_u32 flags -> is_u32 m ->
  safe (fun r => is_u32 (fst (snd r)) /\ is_u32 (snd (snd r))) (CheckModifierField info mods ndx value flags m).
Proof using Hreads.
  intros Hv Hf Hm. unfold CheckModifierField. destruct (has_index ndx); [done|].
  eapply safe_bind with (P := fun _ => True).
  { destruct value; try done. cbn. eapply safe_bind; [by apply safe_text, atom_text_ok|done]. }
  intros [] _.
  - split; cbn; [|by apply is_u32_0]. apply is_u32_lor; [done|by apply is_u32_check].
  - eapply safe_bind; [apply mod_mask_safe; [apply Hreads|done]|]. intros [mask|] Hmask; cbn; [|done].
    split; [by apply is_u32_ldiff|by apply Hmask].
Qed.

Lemma integer_field_safe ndx value low high :
  safe (fun r => forall v, r = PARSER_SUCCESS v -> in_range low high v) (check_integer info ndx value low high).
Proof using Type.
  unfold check_integer. destruct (has_index ndx).
  { cbn. intros v. by destruct (has_flag _ _). }
  eapply safe_bind; [apply integer_safe|]. intros [v|] _; cbn.
  2: { intros v. by destruct (has_flag _ _). }
  intros w. destruct ((v <? low) || (v >? high)) eqn:E; [by destruct (has_flag _ _)|].
  intros [= <-]. unfold in_range. apply orb_false_iff in E as [?%Z.ltb_ge E]. rewrite Z.gtb_ltb in E. apply Z.ltb_ge in E. lia.
Qed.

Lemma button_field_safe ndx value : expr_wf ctx value ->
  safe (fun r => forall v, r = PARSER_SUCCESS v -> in_range 0 5 v) (check_button info ndx value).
Proof using Type.
  intros Hv. unfold check_button. destruct (has_index ndx).
  { cbn. intros v. by destruct (has_flag _ _). }
  eapply safe_bind; [by apply button_safe|]. intros [v|] _; cbn.
  2: { intros v. by destruct (has_flag _ _). }
  intros w. destruct ((v <? 0) || (v >? 5)) eqn:E; [by destruct (has_flag _ _)|].
  intros [= <-]. unfold in_range. apply orb_false_iff in E as [?%Z.ltb_ge E]. rewrite Z.gtb_ltb in E. apply Z.ltb_ge in E. lia.
Qed.

Lemma with_value_ok {A} n (r : xkb_parser_error A) a k :
  body_ok n a ->
  (forall v, r = PARSER_SUCCESS v -> body_ok n (k v) /\ action_type (k v) = action_type a) ->
  body_ok n (snd (with_value r a k)) /\ action_type (snd (with_value r a k)) = action_type a.
Proof using Type. intros Ha Hk. destruct r; cbn; [by apply Hk|done|done]. Qed.

(** The result of a handler of the action [a]. *)
Definition typed (n : nat) (a : xkb_action) (r : parser_error * xkb_action) : Prop :=
  body_ok n (snd r) /\ action_type (snd r) = action_type a.

Section typed.
Context (n : nat) (field : action_field) (ndx : option ExprDef) (value : ExprDef) (Hv : expr_wf ctx value).

Ltac keep := cbn; split; [cbn; tauto|reflexivity].
Ltac flag := eapply safe_bind; [apply flag_safe; [exact Hv|by apply is_u32_check|tauto]|]; intros [] ?; keep.

Lemma mods_typed t flags m : body_ok n (act_mods t flags m) ->
  safe (typed n (act_mods t flags m)) (HandleSetLatchLockMods info mods t flags m field ndx value).
Proof using Hreads Hv.
  intros (Hf & Hm & Hk). unfold HandleSetLatchLockMods. cbv zeta.
  assert (safe (typed n (act_mods t flags m)) (Ok (ReportFormatVersionMismatch (ki_strict info), act_mods t flags m)))
    as Hun by (split; [by split|done]).
  assert (safe (typed n (act_mods t flags m)) (Ok (illegal (ki_strict info), act_mods t flags m))) as Hill
    by (split; [by split|done]).
  destruct field; try exact Hill; try (by (destruct t; [..|exact Hill])).
  all: destruct t; try exact Hill; try (destruct (is_v2 _); [|exact Hun]); try flag.
  all: try (eapply safe_bind; [by apply modifier_safe|]; intros [e [f m']] [? ?]; split; [by split|by destruct e]).
  eapply safe_bind; [by apply affect_safe|]. intros [] ?. keep.
Qed.

Ltac ill := split; [cbn; tauto|reflexivity].
Ltac number := eapply safe_bind; [apply integer_field_safe|]; intros r Hr; apply with_value_ok;
  [cbn; tauto|intros v Hv'; specialize (Hr v Hv'); cbn].

Lemma move_typed flags x y : body_ok n (act_ptr_move flags x y) ->
  safe (typed n (act_ptr_move flags x y)) (HandleMovePtr info flags x y field ndx value).
Proof using Hv.
  intros (Hf & Hx & Hy). unfold HandleMovePtr. cbv zeta.
  assert (forall f, is_u32 f -> is_u32 (if negb (is_signed value) then Z.lor flags f else flags)) as Hset.
  { intros f ?. destruct (negb _); [by apply is_u32_lor|done]. }
  destruct field; try ill; try flag.
  - number. split; [|done]. split; [by apply Hset, is_u32_check|]. done.
  - number. split; [|done]. split; [by apply Hset, is_u32_check|]. done.
Qed.

Lemma button_typed t flags count button : body_ok n (act_btn t flags count button) ->
  safe (typed n (act_btn t flags count button)) (HandlePtrBtn info t flags count button field ndx value).
Proof using Hv.
  intros (Hf & Hc & Hb). unfold HandlePtrBtn. cbv zeta. destruct field; try ill.
  - destruct t; [ill|]. eapply safe_bind; [by apply affect_safe|]. intros [] ?. keep.
  - eapply safe_bind; [by apply button_field_safe|]. intros r Hr. apply with_value_ok; [cbn; tauto|].
    intros v Hv'. specialize (Hr v Hv'). by destruct t.
  - number. by destruct t.
Qed.

Lemma unsigned_wf : expr_wf ctx (unsigned value).
Proof using Hv. destruct value; try done. by destruct op. Qed.

Lemma absolute_flags flags : is_u32 flags ->
  is_u32 (if is_signed value then Z.ldiff flags ACTION_ABSOLUTE_SWITCH else Z.lor flags ACTION_ABSOLUTE_SWITCH).
Proof using Type. intros. destruct (is_signed value); [by apply is_u32_ldiff|]. apply is_u32_lor; [done|by apply is_u32_check]. Qed.

Lemma default_typed flags val : body_ok n (act_ptr_default flags val) ->
  safe (typed n (act_ptr_default flags val)) (HandleSetPtrDflt info flags val field ndx value).
Proof using Hv.
  intros (Hf & Hval). unfold HandleSetPtrDflt. cbv zeta. pose proof (absolute_flags flags Hf) as Habs.
  destruct field; try ill.
  { destruct (has_index ndx); [ill|]. eapply safe_bind; [by apply enum_safe|]. intros r _. ill. }
  all: destruct (has_index ndx); [ill|]; eapply safe_bind; [apply button_field_safe, unsigned_wf|];
    intros r Hr; destruct r as [v| |]; [|ill..];
    specialize (Hr v eq_refl); destruct (v =? 0); [ill|];
    split; [cbn; split; [done|]|done]; unfold in_range in *; destruct (is_negate value); lia.
Qed.

Lemma screen_typed flags screen : body_ok n (act_switch_vt flags screen) ->
  safe (typed n (act_switch_vt flags screen)) (HandleSwitchScreen info flags screen field ndx value).
Proof using Hv.
  intros (Hf & Hs). unfold HandleSwitchScreen. cbv zeta. pose proof (absolute_flags flags Hf) as Habs.
  destruct field; try ill; try flag.
  destruct (has_index ndx); [ill|]. eapply safe_bind; [apply integer_safe|]. intros [v|] _; [|ill].
  set (w := if is_negate value then - v else v). destruct (negb (in_int64 w)); [done|].
  destruct ((w <? - 2 ^ 7) || (w >? 2 ^ 7 - 1)) eqn:E; [ill|].
  apply orb_false_iff in E as [?%Z.ltb_ge E]. rewrite Z.gtb_ltb in E. apply Z.ltb_ge in E.
  split; [cbn; split; [done|]|done]. unfold in_range. lia.
Qed.

Lemma ctrl_names_u32 format : Forall (fun x => is_u32 (snd x)) (ctrlMaskNames format).
Proof using Type.
  unfold ctrlMaskNames, entries_of. destruct (format =? _); repeat constructor; cbn; by apply is_u32_check.
Qed.

Lemma ctrls_typed t flags c : body_ok n (act_ctrls t flags c) ->
  safe (typed n (act_ctrls t flags c)) (HandleSetLockControls info t flags c field ndx value).
Proof using Hv.
  intros (Hf & Hc). unfold HandleSetLockControls. cbv zeta. destruct field; try ill.
  - destruct t; [ill|]. eapply safe_bind; [by apply affect_safe|]. intros [] ?. keep.
  - destruct (has_index ndx); [by destruct t|]. 
    assert (safe (typed n (act_ctrls t flags c))
      (let+ mask := ExprResolveMask (ki_ctx info) value (ctrlMaskNames (ki_format info)) in
       Ok match mask with
          | Some mask => (success, act_ctrls t flags mask)
          | None => (mismatch (ki_strict info), act_ctrls t flags c)
          end)) as H; [|by destruct t].
    eapply safe_bind; [apply (mask_safe ctx _ _ Hv), ctrl_names_u32|]. intros [m|] Hm; [|ill].
    split; [split; [done|by apply Hm]|by destruct t].
Qed.

Lemma key_by_name_safe name :
  safe (fun r => forall i, r = Some i -> exists k, ki_keys info !! i = Some k) (XkbKeyByName info name true).
Proof using Hreads.
  assert (forall nm idx j i, key_index_of info nm idx = Ok j -> Some j = Some i -> exists k, ki_keys info !! i = Some k) as Hk.
  { intros nm idx j i. unfold key_index_of, item. destruct (idx <? 0); [done|].
    destruct (ki_keys info !! Z.to_nat idx) as [k|] eqn:E; [|done]. destruct (_ =? _); [|done].
    intros [= <-] [= <-]. eauto. }
  unfold XkbKeyByName. destruct (item (ki_key_names info) name) as [entry|] eqn:He; [|done].
  destruct (match_found entry) eqn:Hf; cbn [negb]; [|done].
  pose proof (rd_keys _ _ Hreads name entry He Hf) as H. destruct (match_is_alias entry); cbn [negb].
  - destruct H as (real & i & -> & Hi). rewrite Hi. intros j Hj. by eapply Hk.
  - destruct H as (i & Hi). rewrite Hi. intros j Hj. by eapply Hk.
Qed.

Lemma redirect_typed r : body_ok n (act_redirect r) ->
  safe (typed n (act_redirect r)) (HandleRedirectKey info mods r field ndx value).
Proof using Hreads Hv.
  intros (Ha & Hm). unfold HandleRedirectKey. cbv zeta.
  assert (forall clear : bool, safe (typed n (act_redirect r))
    (let+ c := CheckModifierField info mods ndx value 0 0 in
     let '(e, (flags, m)) := c in
     match e with
     | PARSER_SUCCESS _ =>
         if negb (flags =? 0) then Ok (mismatch (ki_strict info), act_redirect r)
         else Ok (success, act_redirect (mk_redirect (r_keycode r) (Z.lor (r_affect r) m)
                    (if clear then Z.ldiff (r_mods r) m else Z.lor (r_mods r) m)))
     | e => Ok (e, act_redirect r)
     end)) as Hset.
  { intros clear. eapply safe_bind; [apply modifier_safe; [exact Hv|by apply is_u32_0..]|].
    intros [e [flags m]] [_ Hm']. cbn [fst snd] in Hm'. destruct e; [|ill..]. destruct (negb (flags =? 0)); [ill|].
    split; [cbn; split; [by apply is_u32_lor|destruct clear; auto with masks]|done]. }
  destruct field; try ill; [apply (Hset false)| |apply (Hset true)].
  destruct (has_index ndx); [ill|]. eapply safe_bind with (P := fun _ => True).
  { destruct value; try done. cbn. eapply safe_bind; [by apply safe_text, atom_text_ok|done]. }
  intros [] _; [ill|]. destruct value; try ill.
  eapply safe_bind; [apply key_by_name_safe|]. intros [i|] Hi; [|ill]. destruct (Hi i eq_refl) as [k ->]. ill.
Qed.

Lemma private_typed type data : type_ok ACTION_TYPE_PRIVATE type -> length data = 7%nat ->
  safe (fun r => type_ok ACTION_TYPE_PRIVATE (fst (snd r)) /\ length (snd (snd r)) = 7%nat)
    (HandlePrivate info type data field ndx value).
Proof using Hv.
  intros Ht Hl. unfold HandlePrivate. cbv zeta. destruct field; try done.
  - eapply safe_bind; [apply integer_field_safe|]. intros [v| |] Hr; try done. split; [|done]. cbn.
    specialize (Hr v eq_refl). destruct (Z.ltb_spec v ACTION_TYPE_PRIVATE); right; right; (split; [done|]).
    + by left.
    + right. unfold in_range in Hr. lia.
  - destruct ndx as [e|].
    + eapply safe_bind; [apply integer_safe|]. intros [v|] _; [|done]. destruct ((v <? 0) || (v >=? 7)); [done|].
      eapply safe_bind; [apply integer_field_safe|]. intros [w| |] _; try done. split; [done|]. cbn. by rewrite length_insert.
    + destruct (ExprResolveString value) as [str|] eqn:Hs; [|done].
      assert (atom_ok ctx str) as Hstr by (destruct value; try done; by injection Hs as <-).
      eapply safe_bind; [by apply safe_atom_string|]. intros t _.
      destruct (Nat.ltb (length t) 1 || Nat.ltb 7 (length t)) eqn:E; [done|]. split; [done|]. cbn.
      apply orb_false_iff in E as [_ E%Nat.ltb_ge]. rewrite length_app, length_replicate. lia.
Qed.

(** Flags that differ in another bit. *)
Lemma other_flag flags f : Z.land f ACTION_PENDING_COMPUTATION = 0 ->
  has_flag (Z.lor flags f) ACTION_PENDING_COMPUTATION = has_flag flags ACTION_PENDING_COMPUTATION /\
  has_flag (Z.ldiff flags f) ACTION_PENDING_COMPUTATION = has_flag flags ACTION_PENDING_COMPUTATION.
Proof using Type.
  intros H. assert (Z.testbit f 13 = false) as Hf.
  { apply (f_equal (fun z => Z.testbit z 13)) in H. rewrite Z.land_spec, Z.testbit_0_l in H. cbn in H. by rewrite andb_true_r in H. }
  change ACTION_PENDING_COMPUTATION with (bit 13). rewrite !has_flag_bit by lia.
  rewrite Z.lor_spec, Z.ldiff_spec, Hf. cbn. by rewrite orb_false_r, andb_true_r.
Qed.

Lemma boolean_flag_cases f flags :
  safe (fun r => snd r = flags \/ snd r = Z.lor flags f \/ snd r = Z.ldiff flags f) (CheckBooleanFlag info f ndx value flags).
Proof using Hv.
  unfold CheckBooleanFlag. destruct (has_index ndx); [by left|].
  eapply safe_bind; [by apply boolean_safe|]. intros [[]|] _; cbn; auto.
Qed.

(** The result of the handler of groups. *)
Definition group_result (ps : list pending_computation) (a : xkb_action)
    (r : parser_error * xkb_action * list pending_computation) : Prop :=
  grown ctx ps (snd r) /\ (length (snd r) <= S (length ps))%nat /\ typed (length (snd r)) a (fst r).

Lemma group_flag_typed ps t flags group f :
  is_u32 f -> Z.land f ACTION_PENDING_COMPUTATION = 0 -> body_ok (length ps) (act_group t flags group) ->
  safe (group_result ps (act_group t flags group))
    (let+ r := CheckBooleanFlag info f ndx value flags in Ok (fst r, act_group t (snd r) group, ps)).
Proof using Hv.
  intros Hf Hn (Hfl & Hg & Hp). destruct (other_flag flags f Hn) as [Hl Hd].
  eapply safe_bind; [apply boolean_flag_cases|]. intros [e fl] Hcases. cbn [snd] in Hcases.
  split; [apply grown_refl|]. split; [cbn; lia|]. split; [|by destruct t]. cbn.
  destruct Hcases as [-> | [-> | ->]]; [done| |].
  - split; [by apply is_u32_lor|]. split; [done|]. by rewrite Hl.
  - split; [by apply is_u32_ldiff|]. split; [done|]. by rewrite Hd.
Qed.

Lemma group_field_safe ps flags : Z.of_nat (S (length ps)) < 2 ^ 31 -> is_u32 flags ->
  safe (fun r => forall fl g ps', r = PARSER_SUCCESS (fl, g, ps') ->
    grown ctx ps ps' /\ (length ps' <= S (length ps))%nat /\ is_u32 fl /\
    forall t, caction_ok (length ps') (act_group t fl g)) (CheckGroupField (ki_group_info info) ps value flags).
Proof using Hreads Hv.
  intros Hlen Hfl. unfold CheckGroupField.
  set (fs := match value with ExprUnary (STMT_EXPR_NEGATE | STMT_EXPR_UNARY_PLUS) child => _ | _ => _ end).
  assert (fs = (if is_signed value then Z.ldiff flags ACTION_ABSOLUTE_SWITCH else Z.lor flags ACTION_ABSOLUTE_SWITCH,
    unsigned value)) as -> by (unfold fs; destruct value; try done; by destruct op).
  pose proof (absolute_flags flags Hfl) as Habs. set (fl := if is_signed value then _ else _) in *. cbv zeta.
  eapply safe_bind with (P := fun _ => True).
  { apply safe_faults, resolve_group_faults; [by apply expr_wf_ok, unsigned_wf|apply (rd_max _ _ Hreads)]. }
  intros [ret pending] _. destruct pending; cbn.
  - intros fl' g ps' [= <- <- <-]. split.
    { exists [mk_pending (unsigned value) false 0]. split; [done|]. constructor; [|constructor]. split; [apply unsigned_wf|done]. }
    rewrite length_app. cbn [length]. split; [lia|].
    split; [apply is_u32_lor; [done|by apply is_u32_check]|]. intros t.
    replace (i32 (Z.of_nat (length ps))) with (Z.of_nat (length ps)) by (symmetry; apply i32_id; unfold is_i32; lia).
    cbn. split; [unfold is_i32; lia|]. intros _. lia.
  - destruct ret as [idx| |]; try done. intros fl' g ps' [= <- <- <-].
    split; [apply grown_refl|]. split; [lia|]. split; [by apply is_u32_ldiff|]. intros t. cbn. split.
    { destruct (has_flag _ _); [apply i32_range|]. destruct (is_negate value); apply i32_range. }
    change ACTION_PENDING_COMPUTATION with (bit 13). rewrite has_flag_bit, Z.ldiff_spec, bit_spec by lia.
    by rewrite andb_false_r.
Qed.

Lemma group_typed ps t flags group (vp : bool) :
  (vp = false -> exists b, value = STMT_EXPR_BOOLEAN_LITERAL b) -> Z.of_nat (S (length ps)) < 2 ^ 31 ->
  body_ok (length ps) (act_group t flags group) ->
  safe (group_result ps (act_group t flags group))
    (HandleSetLatchLockGroup info ps t flags group field ndx value vp).
Proof using Hreads Hv.
  intros Hvp Hlen Hb. unfold HandleSetLatchLockGroup. cbv zeta.
  assert (forall e, safe (group_result ps (act_group t flags group)) (Ok (e, act_group t flags group, ps))) as Hun.
  { intros e. split; [apply grown_refl|]. split; [cbn; lia|]. by split. }
  pose proof (fun f Hf Hn => group_flag_typed ps t flags group f Hf Hn Hb) as Hflag.
  destruct field; try apply Hun.
  - destruct t; try apply Hun; (apply Hflag; [by apply is_u32_check|done]).
  - destruct t; try apply Hun; (apply Hflag; [by apply is_u32_check|done]).
  - destruct (has_index ndx); [apply Hun|]. destruct vp; cbn [negb].
    + rewrite andb_false_r. eapply safe_bind; [apply group_field_safe; [done|apply Hb]|].
      intros [[[fl g] ps']| |] H; [|apply Hun..]. destruct (H fl g ps' eq_refl) as (Hg & Hl & Hfl & Hc).
      rewrite andb_false_r. split; [done|]. split; [done|]. split; [|by destruct t]. split; [done|apply Hc].
    + destruct (Hvp eq_refl) as [b ->]. cbn. destruct (has_flag _ _); apply Hun.
  - destruct t; try apply Hun. destruct (is_v2 _); [|apply Hun]. apply Hflag; [by apply is_u32_check|done].
Qed.
End typed.

(** ** Definitions of actions *)

Definition field_result (ps : list pending_computation) (t : Z) (r : parser_error * paction * list pending_computation) : Prop :=
  grown ctx ps (snd r) /\ (length (snd r) <= S (length ps))%nat /\ paction_ok (length (snd r)) t (snd (fst r)) .

Lemma handle_field_typed ps t a field ndx value (vp : bool) :
  expr_wf ctx value -> (vp = false -> exists b, value = STMT_EXPR_BOOLEAN_LITERAL b) ->
  Z.of_nat (S (length ps)) < 2 ^ 31 -> t <> ACTION_TYPE_INTERNAL -> paction_ok (length ps) t a ->
  safe (fun r => field_result ps t r /\ (t <> ACTION_TYPE_PRIVATE -> pa_type (snd (fst r)) = pa_type a))
    (handle_field info mods ps a field ndx value vp).
Proof using Hreads.
  intros Hv Hvp Hlen Ht Ha. pose proof Ha as (Hta & Hty & Hb). unfold handle_field.
  assert (forall e, field_result ps t (e, a, ps) /\ (t <> ACTION_TYPE_PRIVATE -> pa_type a = pa_type a)) as Hsame.
  { intros e. split; [|done]. split; [apply grown_refl|]. split; [cbn; lia|done]. }
  assert (forall r, safe (typed (length ps) (pa_body a)) r ->
    safe (fun r => field_result ps t r /\ (t <> ACTION_TYPE_PRIVATE -> pa_type (snd (fst r)) = pa_type a))
      (let+ r := r in Ok (fst r, pa_with_body (snd r) a, ps))) as Hbody.
  { intros r Hr. eapply safe_bind; [exact Hr|]. intros [e b] [Hb' Ht']. split; [|done].
    split; [apply grown_refl|]. split; [cbn; lia|]. split; [cbn in *; congruence|by split]. }
  destruct (pa_body a) eqn:Hbd; try (by apply Hsame); try apply Hbody.
  - by apply mods_typed.
  - eapply safe_bind; [by apply group_typed|]. intros [[e b] ps'] (Hg & Hl & Hb' & Ht').
    split; [|done]. split; [done|]. split; [done|]. split; [cbn in *; congruence|by split].
  - by apply move_typed.
  - by apply button_typed.
  - by apply default_typed.
  - by apply screen_typed.
  - by apply ctrls_typed.
  - by apply redirect_typed.
  - destruct Hb as [-> Hl]. cbn in Hta. subst t. eapply safe_bind; [by apply private_typed|].
    intros [e [ty d]] [Hty' Hl']. split; [|done]. split; [apply grown_refl|]. split; [cbn; lia|].
    split; [done|]. split; [exact Hty'|]. by split.
  - by subst t.
Qed.

Definition pending_room (ps : list pending_computation) (k : nat) : Prop := Z.of_nat (length ps + k) < 2 ^ 31.

Lemma argument_wf arg : expr_wf ctx arg ->
  expr_wf ctx (fst (fst (argument arg))) /\ expr_wf ctx (snd (fst (argument arg))) /\
  (snd (argument arg) = false -> exists b, snd (fst (argument arg)) = STMT_EXPR_BOOLEAN_LITERAL b).
Proof using Type.
  intros H. destruct arg; cbn; try (split; [exact H|]; split; [exact I|]; eauto; fail).
  - destruct op; cbn; try (split; [exact H|]; split; [exact I|]; eauto; fail). destruct H. split; [done|]. split; [done|]. done.
  - destruct op; cbn; (split; [exact H|]; split; [exact I|]; eauto).
Qed.

Definition args_result (ps : list pending_computation) (k : nat) (t : Z) (a : paction)
    (r : parser_error * paction * list pending_computation) : Prop :=
  grown ctx ps (snd r) /\ (length (snd r) <= length ps + k)%nat /\ paction_ok (length (snd r)) t (snd (fst r)) /\
  (t <> ACTION_TYPE_PRIVATE -> pa_type (snd (fst r)) = pa_type a).

Lemma arguments_typed args : forall ps t a ret,
  Forall (expr_wf ctx) args -> pending_room ps (length args) -> t <> ACTION_TYPE_INTERNAL -> paction_ok (length ps) t a ->
  safe (args_result ps (length args) t a)
    (handle_arguments info mods args ps a ret).
Proof using Hreads.
  induction args as [|arg args IH]; intros ps t a ret Hw Hroom Ht Ha.
  { split; [apply grown_refl|]. split; [cbn; lia|]. by split. }
  apply list.Forall_cons in Hw as [Hw Hws]. cbn [handle_arguments]. unfold pending_room in *. cbn [length] in Hroom.
  destruct (argument_wf arg Hw) as (Hf & Hv & Hvp). destruct (argument arg) as [[field value] vp]. cbn [fst snd] in *.
  assert (forall e, safe (args_result ps (length (arg :: args)) t a) (Ok (e, a, ps))) as Hsame.
  { intros e. split; [apply grown_refl|]. split; [cbn; lia|]. by split. }
  eapply safe_bind; [by apply lhs_safe|]. intros [[[el f] ndx]|] Hlhs; [|apply Hsame].
  destruct el as [el|]; [apply Hsame|]. destruct (stringToField f) as [fi|].
  2: { destruct (has_flag _ _); [apply Hsame|]. eapply safe_mono; [apply IH; try done; lia|].
       cbn. intros r (H1 & H2 & H3 & H4). split; [done|]. split; [lia|]. done. }
  eapply safe_bind; [apply (handle_field_typed ps t a fi ndx value vp); try done; lia|].
  intros [[e a'] ps'] ((Hg & Hl & Ha') & Hty). cbn [fst snd] in *.
  assert (forall ret, safe (args_result ps (length (arg :: args)) t a)
    (handle_arguments info mods args ps' a' ret)) as Hrest.
  { intros ret'. eapply safe_mono; [apply (IH ps' t a' ret'); try done; lia|].
    cbn. intros r (H1 & H2 & H3 & H4). split; [by eapply grown_trans|]. split; [lia|]. split; [done|].
    intros Hp. rewrite H4 by done. by apply Hty. }
  destruct e; [apply Hrest|apply Hrest|]. split; [done|]. split; [cbn; lia|]. by split.
Qed.

Lemma action_type_range str t : stringToActionType str = Some t -> 0 <= t < ACTION_TYPE_INTERNAL.
Proof using Type.
  unfold stringToActionType, LookupString. destruct (list_find _ actionTypeNames) as [[i [nm v]]|] eqn:Hf; [|done].
  intros [= <-]. apply list_find_Some in Hf as (Hi & _).
  assert (Forall (fun x => 0 <= snd x < ACTION_TYPE_INTERNAL) actionTypeNames) as Hall
    by (repeat constructor; cbn; unfold ACTION_TYPE_INTERNAL; lia).
  exact (Forall_lookup_1 _ _ _ _ Hall Hi).
Qed.

(** The actions that [HandleActionDef] defines. *)
Definition action_args (def : ExprDef) : list ExprDef :=
  match def with STMT_EXPR_ACTION_DECL _ args => args | _ => [] end.

Lemma action_def_ok defaults ps def :
  defaults_ok (length ps) defaults -> expr_wf ctx def -> pending_room ps (length (action_args def)) ->
  safe (fun r => let '(e, a, ps') := r in
          grown ctx ps ps' /\ (length ps' <= length ps + length (action_args def))%nat /\
          (e <> PARSER_FATAL_ERROR -> exists t, 0 <= t < ACTION_TYPE_INTERNAL /\ paction_ok (length ps') t a /\
             (e = success -> t <> ACTION_TYPE_UNKNOWN)))
    (HandleActionDef info defaults mods ps def (mk_paction 0 act_none)).
Proof using Hreads.
  intros [Hlen Hd] Hw Hroom. unfold HandleActionDef.
  destruct def; try (split; [apply grown_refl|]; split; [lia|done]).
  destruct Hw as [Hn Hargs]. apply foldr_Forall in Hargs. cbn [action_args] in *.
  eapply safe_bind; [by apply safe_text|]. intros nm _. cbv zeta.
  set (found := match nm with Some name => stringToActionType name | None => None end).
  destruct (negb _ && _); [split; [apply grown_refl|]; split; [lia|done]|].
  assert (0 <= default ACTION_TYPE_UNKNOWN found < ACTION_TYPE_INTERNAL) as Ht.
  { unfold found. destruct nm as [nm|]; [|done]. destruct (stringToActionType nm) as [t|] eqn:E; [|done]. by eapply action_type_range. }
  set (t := default ACTION_TYPE_UNKNOWN found) in *. unfold item. replace (t <? 0) with false by lia.
  destruct (defaults !! Z.to_nat t) as [a|] eqn:Ha.
  2: { apply lookup_ge_None in Ha. unfold ACTION_TYPE_INTERNAL in Ht. lia. }
  destruct (Hd _ _ Ha) as [Hok Hty]. rewrite Z2Nat.id in Hok, Hty by lia. destruct Hok as (Hta & Htt & Hb).
  set (a1 := if t =? ACTION_TYPE_UNSUPPORTED_LEGACY then mk_paction 0 (pa_body a) else a).
  assert (paction_ok (length ps) t a1 /\ (t = ACTION_TYPE_UNKNOWN -> pa_type a1 = t)) as [Ha1 Hunk].
  { unfold a1. destruct (Z.eqb_spec t ACTION_TYPE_UNSUPPORTED_LEGACY) as [Hl|Hl].
    - split; [|intros ?; rewrite Hl in *; done]. split; [done|]. split; [right; left; done|done].
    - split; [by split|]. intros Hu. destruct Hty as [?|Hp]; [done|]. rewrite Hu in Hp. done. }
  eapply safe_bind; [apply (arguments_typed args ps t a1 success); try done; unfold ACTION_TYPE_INTERNAL in *; lia|].
  intros [[e a'] ps'] (Hg & Hl & Ha' & Hty'). cbn [fst snd] in *.
  assert (t = ACTION_TYPE_UNKNOWN -> (pa_type a' =? ACTION_TYPE_UNKNOWN) = true) as Hu.
  { intros Hu. rewrite Hty' by (rewrite Hu; done). rewrite Hunk by done. by rewrite Hu. }
  destruct e as [[]| |]; (split; [done|]; split; [done|]; intros He); [| |done].
  all: exists t; split; [done|]; split; [done|]; intros Hs Ht'; by rewrite (Hu Ht') in Hs.
Qed.

Lemma default_field_ok defaults ps elem field ndx value merge :
  defaults_ok (length ps) defaults -> expr_wf ctx value -> pending_room ps 1 ->
  safe (fun r => let '(e, d, ps') := r in
          grown ctx ps ps' /\ (length ps' <= S (length ps))%nat /\ defaults_ok (length ps') d)
    (SetDefaultActionField info defaults mods ps elem field ndx value merge).
Proof using Hreads.
  intros Hd Hw Hroom. unfold SetDefaultActionField, pending_room in *. cbv zeta.
  assert (forall e, safe (fun r : parser_error * ActionsInfo * list pending_computation => let '(e, d, ps') := r in
          grown ctx ps ps' /\ (length ps' <= S (length ps))%nat /\ defaults_ok (length ps') d) (Ok (e, defaults, ps))) as Hsame.
  { intros e. split; [apply grown_refl|]. split; [lia|done]. }
  destruct (stringToActionType elem) as [t|] eqn:Et; [|apply Hsame].
  apply action_type_range in Et. destruct (stringToField field) as [fi|]; [|apply Hsame].
  unfold item. replace (t <? 0) with false by lia. pose proof Hd as [Hlen Hall].
  destruct (defaults !! Z.to_nat t) as [a|] eqn:Ha.
  2: { apply lookup_ge_None in Ha. unfold ACTION_TYPE_INTERNAL in Et. lia. }
  destruct (Hall _ _ Ha) as [Hok Hty]. rewrite Z2Nat.id in Hok, Hty by lia.
  eapply safe_bind; [apply (handle_field_typed ps t a fi ndx value true); try done; unfold ACTION_TYPE_INTERNAL in *; lia|].
  intros [[e a'] ps'] ((Hg & Hl & Ha') & Hty'). cbn [fst snd] in *.
  assert (defaults_ok (length ps') defaults) as Hd' by (eapply defaults_ok_mono; [by eapply grown_length|done]).
  destruct e; (split; [done|]; split; [lia|]); try exact Hd'.
  destruct (negb _ && _); [|exact Hd']. destruct Hd' as [_ Hall']. split; [by rewrite length_insert|]. intros j b Hb.
  destruct (decide (j = Z.to_nat t)) as [->|Hne].
  - rewrite list_lookup_insert_eq in Hb by (by eapply lookup_lt_Some). injection Hb as <-.
    rewrite Z2Nat.id by lia. split; [done|]. destruct (decide (t = ACTION_TYPE_PRIVATE)) as [|Hp]; [by right|].
    left. rewrite Hty' by done. destruct Hty; [done|contradiction].
  - rewrite list_lookup_insert_ne in Hb by done. by apply Hall'.
Qed.
End handlers.

(** ** Files that set defaults, then define an action *)

Record default_stmt := mk_default_stmt {
  ds_elem : list Z;
  ds_field : list Z;
  ds_index : option ExprDef;
  ds_value : ExprDef;
  ds_merge : merge_mode
}.

Fixpoint set_defaults (info : keymap_info) (mods : xkb_mod_set) (ps : list pending_computation)
    (defaults : ActionsInfo) (stmts : list default_stmt) : result (ActionsInfo * list pending_computation) :=
  match stmts with
  | [] => Ok (defaults, ps)
  | s :: stmts =>
      let+ r := SetDefaultActionField info defaults mods ps (ds_elem s) (ds_field s) (ds_index s) (ds_value s) (ds_merge s) in
      let '(_, defaults, ps) := r in set_defaults info mods ps defaults stmts
  end.

Lemma set_defaults_ok info mods stmts : reads_ok info mods -> forall ps defaults,
  Forall (fun s => expr_wf (ki_ctx info) (ds_value s)) stmts -> defaults_ok (length ps) defaults ->
  pending_room ps (length stmts) ->
  safe (fun r => grown (ki_ctx info) ps (snd r) /\ (length (snd r) <= length ps + length stmts)%nat /\
                 defaults_ok (length (snd r)) (fst r)) (set_defaults info mods ps defaults stmts).
Proof.
  intros Hr. induction stmts as [|s stmts IH]; intros ps d Hw Hd Hroom.
  { split; [apply grown_refl|]. split; [cbn; lia|done]. }
  apply list.Forall_cons in Hw as [Hw Hws]. cbn [set_defaults length] in *. unfold pending_room in *.
  eapply safe_bind; [apply default_field_ok; [done..|unfold pending_room; lia]|].
  intros [[e d'] ps'] (Hg & Hl & Hd'). eapply safe_mono; [apply IH; [done|done|lia]|].
  intros r (H1 & H2 & H3). split; [by eapply grown_trans|]. split; [lia|done].
Qed.

Lemma union_action_ok n t a : paction_ok n t a -> caction_ok n (union_action a).
Proof.
  intros (Ht & Hty & Hb). unfold union_action. destruct (pa_type a =? 0); [done|].
  destruct (pa_body a) as [| |? ? m|? ? ?|? ? ?|? ? ? ?|? ?| |? ?|? ? ?|r| | |ty d|? ?]; cbn in *; try done; try tauto.
  by destruct (_ =? _).
Qed.

(** The statement that defines an action after the statements that set
    defaults. *)
Definition define_action (info : keymap_info) (mods : xkb_mod_set) (ps : list pending_computation)
    (stmts : list default_stmt) (def : ExprDef) : result (parser_error * paction * list pending_computation) :=
  let+ d := set_defaults info mods ps (InitActionsInfo (ki_redirect_key_auto info)) stmts in
  HandleActionDef info (fst d) mods (snd d) def (mk_paction 0 act_none).


(** ** A sample *)

(** Each name once, in the order of its first use: the atom of the i-th name
    is i + 1. *)
Definition sample_names : list (list Z) := map bytes_of
  ["Shift"; "Lock"; "Control"; "Mod1"; "Mod2"; "Mod3"; "Mod4"; "Mod5";
   "LockMods"; "mods"; "unlock"; "Private"; "type"; "data"]%string.

Definition sample_ctx : atom_table :=
  match intern_all atom_table_new sample_names with Ok (_, t) => t | Fault _ => atom_table_new end.

Definition sample_reals : xkb_mod_set := mk_mod_set (ms_mods (builtin_mod_set [1; 2; 3; 4; 5; 6; 7; 8])) 8 0.

Definition sample_file : keymap_info :=
  mk_info sample_ctx 0 4 None None [] XKB_KEYMAP_FORMAT_TEXT_V2 [] 1 0 0 [] [] [] [] [] sample_reals MOD_REAL_MASK_ALL 0 0 [].

Definition int (n : Z) : ExprDef := STMT_EXPR_INTEGER_LITERAL n.

(** [LockMods.affect = unlock;] *)
Definition sample_default : default_stmt :=
  mk_default_stmt (bytes_of "LockMods"%string) (bytes_of "affect"%string) None (STMT_EXPR_IDENT 11) MERGE_OVERRIDE.

(** [LockMods(mods = Mod5)] *)
Definition sample_action : ExprDef :=
  STMT_EXPR_ACTION_DECL 9 [ExprBinary STMT_EXPR_ASSIGN (STMT_EXPR_IDENT 10) (STMT_EXPR_IDENT 8)].

(** [Private(type = 20, data[0] = 2, data[4] = 1)] *)
Definition data_at (i : Z) (v : Z) : ExprDef :=
  ExprBinary STMT_EXPR_ASSIGN (STMT_EXPR_ARRAY_REF 0 14 (int i)) (int v).

Definition sample_private : ExprDef :=
  STMT_EXPR_ACTION_DECL 12 [ExprBinary STMT_EXPR_ASSIGN (STMT_EXPR_IDENT 13) (int 20); data_at 0 2; data_at 4 1].

(** A private action of a keymap file is read back as an internal action of the
    library. *)
Example private_is_internal :
  match define_action sample_file sample_reals [] [] sample_private with
  | Ok (e, a, _) => (e, union_action a)
  | Fault _ => (success, act_none)
  end = (success, act_internal 2 1).
Proof. vm_compute. reflexivity. Qed.

Lemma sample_reads_ok : reads_ok sample_file sample_reals.
Proof. split; [vm_compute; lia|vm_compute; discriminate|]. intros name entry. by unfold item; cbn; destruct (name <? 0). Qed.

Ltac atom := vm_compute; eexists; reflexivity.

Lemma sample_wf :
  Forall (fun s => expr_wf (ki_ctx sample_file) (ds_value s)) [sample_default] /\
  expr_wf (ki_ctx sample_file) sample_action.
Proof.
  change (ki_ctx sample_file) with sample_ctx. split; [apply list.Forall_singleton|]; cbn; repeat split; atom.
Qed.

