(* ===== verification/Keycodes.v ===== *)
(** * Keycodes sections (src/xkbcomp/keycodes.c)

    The store of the names of keys and aliases, the statements of a keycodes
    section, the merge of the included ones, and the keys, the table of names
    and the LEDs of the keymap. *)

From Stdlib Require Import ZArith Lia String.
From stdpp Require Import base tactics list numbers.
From S2P Require Import Prelude Numbers Atom Keymap KeysymNames KeysymName Expr Vmod KeyAliases Derived Actions Sections.

(** ** The store *)

Definition XKB_KEYCODE_MAX_CONTIGUOUS : Z := 0xfff.

(** [KeycodeMatch] with its bit [low]; [cm_value] is [key.index] or
    [alias.real]. *)
Record keycode_match := mk_cmatch {
  cm_found : bool;
  cm_low : bool;
  cm_is_alias : bool;
  cm_value : Z
}.

Definition no_match : keycode_match := mk_cmatch false false false 0.

Record HighKeycodeEntry := mk_high {
  hk_keycode : Z;
  hk_name : Z
}.

Record KeycodeStore := mk_store {
  ks_min : Z;
  ks_low : list Z;
  ks_high : list HighKeycodeEntry;
  ks_names : list keycode_match
}.

Definition keycode_store_init : KeycodeStore := mk_store XKB_KEYCODE_INVALID [] [] [].

(** The guarded [darray_resize0(l, n)]. *)
Definition resize0 {A} (zero : A) (l : list A) (n : Z) : list A := l ++ replicate (Z.to_nat n - length l) zero.

(** [darray_item(l, i) = f(darray_item(l, i))] *)
Definition update_item {A} (l : list A) (i : Z) (f : A -> A) : result (list A) :=
  match item l i with Some x => Ok (<[Z.to_nat i := f x]> l) | None => Fault FaultOutOfBounds end.

Definition set_found (found : bool) (m : keycode_match) : keycode_match :=
  mk_cmatch found (cm_low m) (cm_is_alias m) (cm_value m).
Definition set_value (value : Z) (m : keycode_match) : keycode_match :=
  mk_cmatch (cm_found m) (cm_low m) (cm_is_alias m) value.

(** The table of names, grown for [name], with its entry. *)
Definition put_name (names : list keycode_match) (name : Z) (m : keycode_match) : list keycode_match :=
  <[Z.to_nat name := m]> (resize0 no_match names (name + 1)).

Definition keycode_store_update_key (store : KeycodeStore) (m : keycode_match) (name : Z) : result KeycodeStore :=
  if negb (cm_found m) || cm_is_alias m then Ok store
  else
    let names := put_name (ks_names store) name m in
    if cm_low m then
      asserting (cm_value m <? Z.of_nat (length (ks_low store)))
        (let+ low := update_item (ks_low store) (cm_value m) (fun _ => name) in
         Ok (mk_store (ks_min store) low (ks_high store) names))
    else
      asserting (cm_value m <? Z.of_nat (length (ks_high store)))
        (let+ high := update_item (ks_high store) (cm_value m) (fun e => mk_high (hk_keycode e) name) in
         Ok (mk_store (ks_min store) (ks_low store) high names)).

(** The end of a binary search of a keycode: its index, or the index of the
    first greater keycode. *)
Inductive high_pos := HighFound (mid : nat) | HighInsert (lower : nat).

Fixpoint search_high (fuel : nat) (high : list HighKeycodeEntry) (kc : Z) (lower upper : nat) : result high_pos :=
  match fuel with
  | O => Fault FaultFuel
  | S fuel =>
      if Nat.ltb lower upper then
        let mid := (lower + (upper - 1 - lower) / 2)%nat in
        match high !! mid with
        | None => Fault FaultOutOfBounds
        | Some entry =>
            if hk_keycode entry <? kc then search_high fuel high kc (S mid) upper
            else if hk_keycode entry >? kc then search_high fuel high kc lower mid
            else Ok (HighFound mid)
        end
      else Ok (HighInsert lower)
  end.

(** The references to the entries that an insertion moves. *)
Fixpoint move_entries (names : list keycode_match) (entries : list HighKeycodeEntry) : result (list keycode_match) :=
  match entries with
  | [] => Ok names
  | entry :: entries =>
      let+ names := update_item names (hk_name entry) (fun m => set_value (cm_value m + 1) m) in
      move_entries names entries
  end.

Definition min_high (high : list HighKeycodeEntry) : Z :=
  match high with [] => XKB_KEYCODE_INVALID | entry :: _ => hk_keycode entry end.

(** The last keycode of the list is over [kc]. *)
Definition must_sort (high : list HighKeycodeEntry) (kc : Z) : bool :=
  match high !! (length high - 1)%nat with Some entry => hk_keycode entry >? kc | None => false end.

Definition keycode_store_insert_key (store : KeycodeStore) (kc name : Z) : result KeycodeStore :=
  let names := resize0 no_match (ks_names store) (name + 1) in
  let set_name names m := <[Z.to_nat name := m]> names in
  if kc <=? XKB_KEYCODE_MAX_CONTIGUOUS then
    let low := <[Z.to_nat kc := name]> (resize0 XKB_ATOM_NONE (ks_low store) (kc + 1)) in
    Ok (mk_store (if kc <? ks_min store then kc else ks_min store) low (ks_high store)
          (set_name names (mk_cmatch true true false kc)))
  else
    let idx := length (ks_high store) in
    let+ r :=
      if must_sort (ks_high store) kc then
        let+ pos := search_high (S idx) (ks_high store) kc 0 idx in
        match pos with
        | HighFound _ => Fault FaultAssert
        | HighInsert lower =>
            match ks_high store !! lower with
            | Some entry =>
                asserting (hk_keycode entry >? kc)
                  (let+ names := move_entries names (drop lower (ks_high store)) in
                   Ok (take lower (ks_high store) ++ mk_high kc name :: drop lower (ks_high store),
                       set_name names (mk_cmatch true false false (Z.of_nat lower))))
            | None => Fault FaultAssert
            end
        end
      else
        Ok (ks_high store ++ [mk_high kc name], set_name names (mk_cmatch true false false (Z.of_nat idx))) in
    let '(high, names) := r in
    Ok (mk_store (match ks_low store with [] => min_high high | _ => ks_min store end)
          (ks_low store) high names).

Definition keycode_store_insert_alias (store : KeycodeStore) (alias real : Z) : KeycodeStore :=
  mk_store (ks_min store) (ks_low store) (ks_high store)
    (put_name (ks_names store) alias (mk_cmatch true false true real)).

Definition keycode_store_update_alias (store : KeycodeStore) (alias real : Z) : result KeycodeStore :=
  let+ names := update_item (ks_names store) alias (set_value real) in
  Ok (mk_store (ks_min store) (ks_low store) (ks_high store) names).

Definition keycode_store_delete_name (store : KeycodeStore) (name : Z) : result KeycodeStore :=
  if name <? Z.of_nat (length (ks_names store)) then
    let+ names := update_item (ks_names store) name (set_found false) in
    Ok (mk_store (ks_min store) (ks_low store) (ks_high store) names)
  else Ok store.

(** The size that ends with the last defined keycode under [idx]. *)
Fixpoint defined_size (low : list Z) (idx : nat) : option nat :=
  match idx with
  | O => None
  | S idx' =>
      match low !! idx' with
      | Some name => if name =? XKB_ATOM_NONE then defined_size low idx' else Some idx
      | None => None
      end
  end.

(** The first defined keycode from [kc]. *)
Fixpoint first_defined (low : list Z) (kc : nat) : option nat :=
  match low with
  | [] => None
  | name :: low =>
      if Nat.eqb kc 0
      then if name =? XKB_ATOM_NONE then option_map S (first_defined low 0) else Some O
      else option_map S (first_defined low (kc - 1))
  end.

Definition update_bounds (store : KeycodeStore) : KeycodeStore :=
  let min :=
    match ks_low store with
    | [] => min_high (ks_high store)
    | low => match first_defined low (Z.to_nat (ks_min store)) with
             | Some kc => Z.of_nat kc
             | None => ks_min store
             end
    end in
  mk_store min (ks_low store) (ks_high store) (ks_names store).

(** The references to the entries after the deleted one. *)
Definition shift_match (index : Z) (m : keycode_match) : keycode_match :=
  if cm_found m && negb (cm_is_alias m) && negb (cm_low m) && (cm_value m >? index)
  then set_value (cm_value m - 1) m else m.

Definition keycode_store_delete_key (store : KeycodeStore) (m : keycode_match) : result KeycodeStore :=
  if negb (cm_found m) || cm_is_alias m then Ok store
  else
    let index := cm_value m in
    if cm_low m then
      asserting (index <? Z.of_nat (length (ks_low store)))
        match item (ks_low store) index with
        | None => Fault FaultOutOfBounds
        | Some name =>
            let+ names := update_item (ks_names store) name (set_found false) in
            let low :=
              if index + 1 =? Z.of_nat (length (ks_low store)) then
                if ks_min store =? index then []
                else match defined_size (ks_low store) (Z.to_nat index) with
                     | Some size => take size (ks_low store)
                     | None => ks_low store
                     end
              else <[Z.to_nat index := XKB_ATOM_NONE]> (ks_low store) in
            Ok (update_bounds (mk_store (ks_min store) low (ks_high store) names))
        end
    else
      asserting (index <? Z.of_nat (length (ks_high store)))
        match item (ks_high store) index with
        | None => Fault FaultOutOfBounds
        | Some entry =>
            let+ names := update_item (ks_names store) (hk_name entry) (set_found false) in
            Ok (update_bounds (mk_store (ks_min store) (ks_low store)
                  (delete (Z.to_nat index) (ks_high store)) (map (shift_match index) names)))
        end.

Definition keycode_store_get_keycode (store : KeycodeStore) (m : keycode_match) : result Z :=
  if negb (cm_found m) || cm_is_alias m then Ok XKB_KEYCODE_INVALID
  else if cm_low m then
    asserting (cm_value m <? Z.of_nat (length (ks_low store))) (Ok (cm_value m))
  else
    asserting (cm_value m <? Z.of_nat (length (ks_high store)))
      match item (ks_high store) (cm_value m) with
      | Some entry => Ok (hk_keycode entry) | None => Fault FaultOutOfBounds end.

Definition keycode_store_get_key_name (store : KeycodeStore) (m : keycode_match) : result Z :=
  if negb (cm_found m) || cm_is_alias m then Ok XKB_ATOM_NONE
  else if cm_low m then
    asserting (cm_value m <? Z.of_nat (length (ks_low store)))
      match item (ks_low store) (cm_value m) with Some name => Ok name | None => Fault FaultOutOfBounds end
  else
    asserting (cm_value m <? Z.of_nat (length (ks_high store)))
      match item (ks_high store) (cm_value m) with
      | Some entry => Ok (hk_name entry) | None => Fault FaultOutOfBounds end.

Definition keycode_store_lookup_keycode (store : KeycodeStore) (kc : Z) : result keycode_match :=
  if kc <? Z.of_nat (length (ks_low store)) then Ok (mk_cmatch true true false kc)
  else if kc <=? XKB_KEYCODE_MAX_CONTIGUOUS then Ok no_match
  else
    let+ pos := search_high (S (length (ks_high store))) (ks_high store) kc 0 (length (ks_high store)) in
    Ok (match pos with
        | HighFound mid => mk_cmatch true false false (Z.of_nat mid)
        | HighInsert _ => no_match
        end).

Definition keycode_store_lookup_name (store : KeycodeStore) (name : Z) : keycode_match :=
  default no_match (item (ks_names store) name).

(** ** Names of LEDs *)

Definition XKB_MAX_LEDS : nat := 32.

Record LedNameInfo := mk_led_name {
  ln_merge : merge_mode;
  ln_name : Z
}.

Definition zero_led_name : LedNameInfo := mk_led_name MERGE_DEFAULT XKB_ATOM_NONE.

(** [KeyNamesInfo] *)
Record KeyNamesInfo := mk_names_info {
  kn_name : option (list Z);
  kn_errorCount : Z;
  kn_include_depth : nat;
  kn_keycodes : KeycodeStore;
  kn_led_names : list LedNameInfo;
  kn_num_led_names : nat
}.

Definition kn_set_keycodes (s : KeycodeStore) (i : KeyNamesInfo) : KeyNamesInfo :=
  mk_names_info (kn_name i) (kn_errorCount i) (kn_include_depth i) s (kn_led_names i) (kn_num_led_names i).
Definition kn_add_errors (n : Z) (i : KeyNamesInfo) : KeyNamesInfo :=
  mk_names_info (kn_name i) (kn_errorCount i + n) (kn_include_depth i) (kn_keycodes i) (kn_led_names i) (kn_num_led_names i).
Definition kn_set_name (name : option (list Z)) (i : KeyNamesInfo) : KeyNamesInfo :=
  mk_names_info name (kn_errorCount i) (kn_include_depth i) (kn_keycodes i) (kn_led_names i) (kn_num_led_names i).
Definition kn_set_leds (leds : list LedNameInfo) (num : nat) (i : KeyNamesInfo) : KeyNamesInfo :=
  mk_names_info (kn_name i) (kn_errorCount i) (kn_include_depth i) (kn_keycodes i) leds num.

Definition InitKeyNamesInfo (include_depth : nat) : KeyNamesInfo :=
  mk_names_info None 0 include_depth keycode_store_init (replicate XKB_MAX_LEDS zero_led_name) 0.

Definition FindLedByName (leds : list LedNameInfo) (num : nat) (name : Z) : option nat :=
  option_map fst (list_find (fun led => ln_name led = name) (take num leds)).

(** The table and its number of names; always a success. *)
Definition AddLedName (leds : list LedNameInfo) (num : nat) (new : LedNameInfo) (new_idx : nat)
    : result (list LedNameInfo * nat) :=
  let replace := clobbers (ln_merge new) in
  let set (leds : list LedNameInfo) : result (list LedNameInfo * nat) :=
    let num := if Nat.leb num new_idx then S new_idx else num in
    match leds !! new_idx with
    | None => Fault FaultOutOfBounds
    | Some old =>
        if negb (ln_name old =? XKB_ATOM_NONE)
        then Ok (if replace then <[new_idx := new]> leds else leds, num)
        else Ok (<[new_idx := new]> leds, num)
    end in
  match FindLedByName leds num (ln_name new) with
  | Some old_idx =>
      if Nat.eqb old_idx new_idx then Ok (leds, num)
      else if replace
      then set (alter (fun led => mk_led_name (ln_merge led) XKB_ATOM_NONE) old_idx leds)
      else Ok (leds, num)
  | None => set leds
  end.

(** ** Names of keys *)

(** The second half of [AddKeyName], when no other key or alias has the name. *)
Definition add_keycode (store : KeycodeStore) (kc name : Z) (merge : merge_mode) (match_name : keycode_match)
    : result KeycodeStore :=
  let+ match_kc := keycode_store_lookup_keycode store kc in
  let+ old_name := keycode_store_get_key_name store match_kc in
  if negb (old_name =? XKB_ATOM_NONE) then
    if old_name =? name then
      let+ name_kc := keycode_store_get_keycode store match_name in
      asserting (name_kc =? kc) (Ok store)
    else if clobbers merge then
      let+ store := keycode_store_delete_name store old_name in
      keycode_store_update_key store match_kc name
    else Ok store
  else keycode_store_insert_key store kc name.

Definition AddKeyName (store : KeycodeStore) (kc name : Z) (merge : merge_mode) : result KeycodeStore :=
  let match_name := keycode_store_lookup_name store name in
  if cm_found match_name then
    if cm_is_alias match_name then
      if clobbers merge then
        let+ store := keycode_store_delete_name store name in
        add_keycode store kc name merge (set_found false match_name)
      else Ok store
    else
      let+ old_kc := keycode_store_get_keycode store match_name in
      asserting (negb (old_kc =? XKB_KEYCODE_INVALID))
        (if negb (old_kc =? kc) then
           if clobbers merge then
             let+ store := keycode_store_delete_key store match_name in
             add_keycode store kc name merge match_name
           else Ok store
         else add_keycode store kc name merge match_name)
  else add_keycode store kc name merge match_name.

Definition HandleAliasDef (store : KeycodeStore) (merge : merge_mode) (alias real : Z) : result KeycodeStore :=
  let match_name := keycode_store_lookup_name store alias in
  if cm_found match_name then
    if cm_is_alias match_name then
      if real =? cm_value match_name then Ok store
      else keycode_store_update_alias store alias (if clobbers merge then real else cm_value match_name)
    else if clobbers merge then
      let+ store := keycode_store_delete_key store match_name in
      Ok (keycode_store_insert_alias store alias real)
    else Ok store
  else Ok (keycode_store_insert_alias store alias real).

(** ** Merge of an included section *)

(** The low keycodes from [kc]; [low] is the rest of the array. *)
Fixpoint merge_low (into : KeycodeStore) (low : list Z) (kc : Z) (merge : merge_mode) : result KeycodeStore :=
  match low with
  | [] => Ok into
  | name :: low =>
      let+ into := if name =? XKB_ATOM_NONE then Ok into else AddKeyName into kc name merge in
      merge_low into low (kc + 1) merge
  end.

Fixpoint merge_high (into : KeycodeStore) (high : list HighKeycodeEntry) (merge : merge_mode) : result KeycodeStore :=
  match high with
  | [] => Ok into
  | new :: high =>
      asserting (negb (hk_name new =? XKB_ATOM_NONE))
        (let+ into := AddKeyName into (hk_keycode new) (hk_name new) merge in
         merge_high into high merge)
  end.

Fixpoint merge_aliases (into : KeycodeStore) (names : list keycode_match) (alias : Z) (merge : merge_mode)
    : result KeycodeStore :=
  match names with
  | [] => Ok into
  | m :: names =>
      let+ into := if negb (cm_found m) || negb (cm_is_alias m) then Ok into
                   else HandleAliasDef into merge alias (cm_value m) in
      merge_aliases into names (alias + 1) merge
  end.

Definition MergeKeycodeStores (into from : KeycodeStore) (merge : merge_mode) : result KeycodeStore :=
  match ks_low into, ks_high into, ks_names into with
  | [], [], [] => Ok from
  | _, _, _ =>
      let+ into := merge_low into (drop (Z.to_nat (Z.min (ks_min from) (Z.of_nat (length (ks_low from))))) (ks_low from))
                    (ks_min from) merge in
      let+ into := merge_high into (ks_high from) merge in
      merge_aliases into (ks_names from) 0 merge
  end.

Fixpoint merge_leds (leds : list LedNameInfo) (num : nat) (from : list LedNameInfo) (idx : nat) (merge : merge_mode)
    : result (list LedNameInfo * nat) :=
  match from with
  | [] => Ok (leds, num)
  | led :: from =>
      let+ r := if ln_name led =? XKB_ATOM_NONE then Ok (leds, num)
                else AddLedName leds num (mk_led_name merge (ln_name led)) idx in
      merge_leds (fst r) (snd r) from (S idx) merge
  end.

Definition MergeIncludedKeycodes (into from : KeyNamesInfo) (merge : merge_mode) : result KeyNamesInfo :=
  if kn_errorCount from >? 0 then Ok (kn_add_errors (kn_errorCount from) into)
  else
    let into := match kn_name into with None => kn_set_name (kn_name from) into | Some _ => into end in
    let+ store := MergeKeycodeStores (kn_keycodes into) (kn_keycodes from) merge in
    let into := kn_set_keycodes store into in
    if Nat.eqb (kn_num_led_names into) 0 then
      let num := kn_num_led_names from in
      Ok (kn_set_leds (take num (kn_led_names from) ++ drop num (kn_led_names into)) num into)
    else
      let+ r := merge_leds (kn_led_names into) (kn_num_led_names into)
                  (take (kn_num_led_names from) (kn_led_names from)) 0 merge in
      Ok (kn_set_leds (fst r) (snd r) into).

(** ** Statements *)

Definition XKB_KEYCODE_MAX : Z := 0xfffffffe.
Definition PARSER_NO_UNKNOWN_KEYCODES_GLOBAL_FIELDS : Z := 2 ^ 3.

Definition HandleKeycodeDef (info : KeyNamesInfo) (merge : merge_mode) (name value : Z)
    : result (bool * KeyNamesInfo) :=
  if (value <? 0) || (value >? XKB_KEYCODE_MAX) then Ok (false, info)
  else
    let+ store := AddKeyName (kn_keycodes info) value name merge in
    Ok (true, kn_set_keycodes store info).

Definition minimum_maximum : list (list Z) := map bytes_of ["minimum"; "maximum"]%string.

Definition HandleKeyNameVar (ctx : atom_table) (strict : Z) (stmt : VarDef) : result bool :=
  let+ lhs := var_lhs ctx stmt in
  match lhs with
  | None => Ok false
  | Some (Some _, _, _) => Ok (lenient strict PARSER_NO_UNKNOWN_KEYCODES_GLOBAL_FIELDS)
  | Some (None, field, arrayNdx) =>
      if negb (existsb (istreq field) minimum_maximum)
      then Ok (lenient strict PARSER_NO_UNKNOWN_KEYCODES_GLOBAL_FIELDS)
      else match arrayNdx with
      | Some _ => Ok (lenient strict PARSER_NO_FIELD_TYPE_MISMATCH)
      | None =>
          let+ val := ExprResolveInteger (vr_value stmt) in
          Ok (match val with
              | Some val => if (val <? 0) || (val >? 2 ^ 32 - 1)
                            then lenient strict PARSER_NO_FIELD_TYPE_MISMATCH else true
              | None => lenient strict PARSER_NO_FIELD_TYPE_MISMATCH
              end)
      end
  end.

Definition HandleLedNameDef (info : KeyNamesInfo) (merge : merge_mode) (ndx : Z) (name : ExprDef)
    : result (bool * KeyNamesInfo) :=
  if (ndx <? 1) || (ndx >? Z.of_nat XKB_MAX_LEDS) then Ok (false, kn_add_errors 1 info)
  else match ExprResolveString name with
  | None => Ok (false, kn_add_errors 1 info)
  | Some name =>
      let+ r := AddLedName (kn_led_names info) (kn_num_led_names info) (mk_led_name merge name) (Z.to_nat (ndx - 1)) in
      Ok (true, kn_set_leds (fst r) (snd r) info)
  end.

Section files.
Context (parse : xkb_file_type -> include_item -> list (option XkbFile)) (ctx : atom_table) (strict : Z).

(** The handler of the included files. *)
Variable handle_file : KeyNamesInfo -> XkbFile -> result KeyNamesInfo.

(** The loop over the files of an include statement; [None] for a file that
    is not found. *)
Fixpoint include_keycodes (depth : nat) (included : KeyNamesInfo) (stmts : list include_item)
    : result (option KeyNamesInfo) :=
  match stmts with
  | [] => Ok (Some included)
  | stmt :: stmts =>
      match ProcessIncludeFile parse stmt FILE_TYPE_KEYCODES with
      | None => Ok None
      | Some file =>
          let+ next_incl := handle_file (InitKeyNamesInfo (S depth)) file in
          let+ included := MergeIncludedKeycodes included next_incl (inc_merge stmt) in
          include_keycodes depth included stmts
      end
  end.

Definition HandleIncludeKeycodes (info : KeyNamesInfo) (include : IncludeStmt) : result (bool * KeyNamesInfo) :=
  if ExceedsIncludeMaxDepth (kn_include_depth info) then Ok (false, kn_add_errors 10 info)
  else
    let+ r := include_keycodes (kn_include_depth info)
                (kn_set_name (inc_stmt (inc_first include)) (InitKeyNamesInfo 0)) (inc_items include) in
    match r with
    | None => Ok (false, kn_add_errors 10 info)
    | Some included =>
        let+ info := MergeIncludedKeycodes info included (inc_merge (inc_first include)) in
        Ok (kn_errorCount info =? 0, info)
    end.

Definition handle_keycodes_stmt (info : KeyNamesInfo) (stmt : statement) : result (bool * KeyNamesInfo) :=
  match stmt with
  | STMT_INCLUDE include => HandleIncludeKeycodes info include
  | STMT_KEYCODE merge name value => HandleKeycodeDef info merge name value
  | STMT_ALIAS merge alias real =>
      let+ store := HandleAliasDef (kn_keycodes info) merge alias real in
      Ok (true, kn_set_keycodes store info)
  | STMT_VAR var => let+ ok := HandleKeyNameVar ctx strict var in Ok (ok, info)
  | STMT_LED_NAME merge ndx name => HandleLedNameDef info merge ndx name
  | STMT_UNKNOWN => Ok (lenient strict PARSER_NO_UNKNOWN_STATEMENTS, info)
  | _ => Ok (false, info)
  end.

Fixpoint handle_keycodes_stmts (info : KeyNamesInfo) (defs : list statement) : result KeyNamesInfo :=
  match defs with
  | [] => Ok info
  | stmt :: defs =>
      let+ r := handle_keycodes_stmt info stmt in
      let '(ok, info) := r in
      let info := if ok : bool then info else kn_add_errors 1 info in
      if kn_errorCount info >? 10 then Ok info else handle_keycodes_stmts info defs
  end.
End files.

(** [fuel] bounds the depth of the included files. *)
Fixpoint HandleKeycodesFile (parse : xkb_file_type -> include_item -> list (option XkbFile)) (ctx : atom_table)
    (strict : Z) (fuel : nat) (info : KeyNamesInfo) (file : XkbFile) : result KeyNamesInfo :=
  match fuel with
  | O => Fault FaultFuel
  | S fuel =>
      handle_keycodes_stmts parse ctx strict (HandleKeycodesFile parse ctx strict fuel)
        (kn_set_name (xf_name file) info) (xf_defs file)
  end.

(** ** The keymap *)

Definition zero_key : key :=
  mk_ckey 0 XKB_ATOM_NONE 0 0 0 0 false [] false false false LAYOUT_WRAP 0 [].

Definition set_keycode (kc : Z) (k : key) : key :=
  mk_ckey kc (ky_name k) (ky_explicit k) (ky_modmap k) (ky_vmodmap k) (ky_overlays k) (ky_overlays_inline k)
    (ky_overlays_keys k) (ky_repeats k) (ky_implicit_actions k) (ky_pending_group k) (ky_policy k)
    (ky_group_number k) (ky_groups k).
Definition set_key_name (name : Z) (k : key) : key :=
  mk_ckey (ky_keycode k) name (ky_explicit k) (ky_modmap k) (ky_vmodmap k) (ky_overlays k) (ky_overlays_inline k)
    (ky_overlays_keys k) (ky_repeats k) (ky_implicit_actions k) (ky_pending_group k) (ky_policy k)
    (ky_group_number k) (ky_groups k).

(** The fields of the keymap that the section sets. *)
Record keycodes_result := mk_keycodes_result {
  kr_min_key_code : Z;
  kr_max_key_code : Z;
  kr_num_keys_low : Z;
  kr_keys : list key;
  kr_key_names : list KeycodeMatch;
  kr_leds : list led;
  kr_redirect_key_auto : Z;
  kr_section_name : option (list Z)
}.

Definition max_high (high : list HighKeycodeEntry) : option Z := option_map hk_keycode (high !! (length high - 1)%nat).

Definition CopyKeyNamesToKeymap (s : KeycodeStore) : result (Z * Z * Z * list key) :=
  let+ bounds :=
    match ks_low s, ks_high s with
    | [], [] => asserting (ks_min s =? XKB_KEYCODE_INVALID) (Ok (8, 255, 256))
    | low, high =>
        asserting (ks_min s <=? XKB_KEYCODE_MAX)
          (Ok (ks_min s,
               match max_high high with Some kc => kc | None => Z.of_nat (length low) - 1 end,
               Z.of_nat (length low)))
    end in
  let '(min_key_code, max_key_code, num_keys_low) := bounds in
  let low_key (kc : nat) : key :=
    let k := if min_key_code <=? Z.of_nat kc then set_keycode (Z.of_nat kc) zero_key else zero_key in
    match ks_low s !! kc with
    | Some name => if ks_min s <=? Z.of_nat kc then set_key_name name k else k
    | None => k
    end in
  if forallb (fun e => negb (hk_name e =? XKB_ATOM_NONE)) (ks_high s)
  then Ok (min_key_code, max_key_code, num_keys_low,
           map low_key (seq 0 (Z.to_nat num_keys_low)) ++
           map (fun e => set_key_name (hk_name e) (set_keycode (hk_keycode e) zero_key)) (ks_high s))
  else Fault FaultAssert.

(** The loop over the names, [name] being the next one. *)
Fixpoint check_names (num_keys_low : Z) (names : list keycode_match) (name : nat) (fuel : nat)
    : result (list keycode_match) :=
  match fuel with
  | O => Ok names
  | S fuel =>
      match names !! name with
      | None => Ok names
      | Some m =>
          if negb (cm_found m) then check_names num_keys_low names (S name) fuel
          else if cm_is_alias m then
            let real := default no_match (item names (cm_value m)) in
            if negb (cm_found real)
            then check_names num_keys_low (<[name := set_found false m]> names) (S name) fuel
            else asserting (negb (cm_is_alias real)) (check_names num_keys_low names (S name) fuel)
          else if negb (cm_low m)
          then check_names num_keys_low (<[name := set_value (cm_value m + num_keys_low) m]> names) (S name) fuel
          else check_names num_keys_low names (S name) fuel
      end
  end.

Definition CopyKeycodeNameLUT (num_keys_low : Z) (names : list keycode_match) : result (list KeycodeMatch) :=
  let+ names := check_names num_keys_low names 0 (length names) in
  Ok (map (fun m => mk_match (cm_found m) (cm_is_alias m) (cm_value m)) names).

Definition CopyLedNamesToKeymap (info : KeyNamesInfo) : list led :=
  map (fun led => mk_cled (mk_led (ln_name led) 0 0 0 (mk_xkb_mods 0 0) 0) false)
    (take (kn_num_led_names info) (kn_led_names info)).

(** The loop over the high keys, from the last one. *)
Fixpoint free_keycode (keycode : Z) (keys : list key) : Z :=
  match keys with
  | [] => keycode
  | k :: keys => if keycode >? ky_keycode k then keycode else free_keycode (ky_keycode k - 1) keys
  end.

Definition CopyKeyNamesInfoToKeymap (info : KeyNamesInfo) : result keycodes_result :=
  let+ r := CopyKeyNamesToKeymap (kn_keycodes info) in
  let '(min_key_code, max_key_code, num_keys_low, keys) := r in
  let+ names := CopyKeycodeNameLUT num_keys_low (ks_names (kn_keycodes info)) in
  let auto := if min_key_code >? 0 then 0
              else free_keycode (XKB_KEYCODE_INVALID - 1) (rev (drop (Z.to_nat num_keys_low) keys)) in
  Ok (mk_keycodes_result min_key_code max_key_code num_keys_low keys names
        (CopyLedNamesToKeymap info) auto (option_map XkbEscapeMapName (kn_name info))).

(** The depth of a file and the fuel left make 16. *)
Definition CompileKeycodes (parse : xkb_file_type -> include_item -> list (option XkbFile)) (ctx : atom_table)
    (strict : Z) (file : option XkbFile) : result (option keycodes_result) :=
  let+ info := match file with
               | Some file => HandleKeycodesFile parse ctx strict (S INCLUDE_MAX_DEPTH) (InitKeyNamesInfo 0) file
               | None => Ok (InitKeyNamesInfo 0)
               end in
  if negb (kn_errorCount info =? 0) then Ok None
  else let+ r := CopyKeyNamesInfoToKeymap info in Ok (Some r).
