(* ===== verification/KeycodesStore.v ===== *)
(** * The store of keycodes implements a dictionary

    A dictionary of names: a map from keycodes to the names of the keys, and
    the aliases.  The arrays of the store represent it, through every
    insertion, deletion and renaming. *)

From Stdlib Require Import ZArith Lia String.
From stdpp Require Import base tactics list numbers gmap.
From S2P Require Import Prelude Numbers Atom Keymap KeysymNames KeysymName Expr Vmod KeyAliases Derived Actions Sections Keycodes.

(** ** Dictionaries of names *)

Record keydict := mk_keydict {
  kd_keys : gmap Z Z;
  kd_aliases : gmap Z Z
}.

Definition kd_empty : keydict := mk_keydict ∅ ∅.

(** A name of a key or an alias. *)
Definition kd_has (D : keydict) (n : Z) : Prop :=
  (exists kc, kd_keys D !! kc = Some n) \/ is_Some (kd_aliases D !! n).

Definition drop_name (n : Z) (keys : gmap Z Z) : gmap Z Z := filter (fun p => p.2 <> n) keys.

Record dict_wf (D : keydict) : Prop := {
  dw_keys : forall kc n, kd_keys D !! kc = Some n -> 0 <= kc <= XKB_KEYCODE_MAX /\ 0 < n;
  dw_aliases : forall n r, kd_aliases D !! n = Some r -> 0 <= n;
  dw_inj : forall kc kc' n, kd_keys D !! kc = Some n -> kd_keys D !! kc' = Some n -> kc = kc';
  dw_disjoint : forall kc n, kd_keys D !! kc = Some n -> kd_aliases D !! n = None
}.

Lemma drop_name_lookup n keys k :
  drop_name n keys !! k = match keys !! k with Some m => if decide (m = n) then None else Some m | None => None end.
Proof.
  unfold drop_name. destruct (keys !! k) as [m|] eqn:E.
  - destruct (decide (m = n)) as [->|Hne].
    + apply map_lookup_filter_None. right. intros m Hm. rewrite E in Hm. injection Hm as <-. cbn. tauto.
    + apply map_lookup_filter_Some. done.
  - apply map_lookup_filter_None. by left.
Qed.

(** ** Representation *)

Definition low_at (low : list Z) (i : nat) : option Z :=
  match low !! i with Some n => if n =? XKB_ATOM_NONE then None else Some n | None => None end.

(** The entry of a name, or the match that is not found. *)
Definition nm (names : list keycode_match) (n : Z) : keycode_match := default no_match (item names n).

Definition entry_ok (s : KeycodeStore) (D : keydict) (n : Z) (m : keycode_match) : Prop :=
  if cm_found m then
    if cm_is_alias m then kd_aliases D !! n = Some (cm_value m)
    else exists i, cm_value m = Z.of_nat i /\
      if cm_low m then low_at (ks_low s) i = Some n
      else exists e, ks_high s !! i = Some e /\ hk_name e = n
  else ~ kd_has D n.

Definition min_ok (s : KeycodeStore) : Prop :=
  match ks_low s with
  | [] => ks_min s = min_high (ks_high s)
  | low => exists m, ks_min s = Z.of_nat m /\ low_at low m <> None /\ forall i, (i < m)%nat -> low_at low i = None
  end.

Definition high_sorted (high : list HighKeycodeEntry) : Prop :=
  forall i j e e', (i < j)%nat -> high !! i = Some e -> high !! j = Some e' -> hk_keycode e < hk_keycode e'.

Record represents (s : KeycodeStore) (D : keydict) : Prop := {
  rp_wf : dict_wf D;
  rp_low : forall i, Z.of_nat i <= XKB_KEYCODE_MAX_CONTIGUOUS -> kd_keys D !! Z.of_nat i = low_at (ks_low s) i;
  rp_low_length : Z.of_nat (length (ks_low s)) <= XKB_KEYCODE_MAX_CONTIGUOUS + 1;
  rp_low_last : ks_low s = [] \/ low_at (ks_low s) (length (ks_low s) - 1) <> None;
  rp_sorted : high_sorted (ks_high s);
  rp_high : forall kc n, XKB_KEYCODE_MAX_CONTIGUOUS < kc -> kd_keys D !! kc = Some n <-> mk_high kc n ∈ ks_high s;
  rp_high_range : Forall (fun e => XKB_KEYCODE_MAX_CONTIGUOUS < hk_keycode e) (ks_high s);
  rp_min : min_ok s;
  rp_names : forall n, entry_ok s D n (nm (ks_names s) n)
}.

Lemma low_at_Some low i n : low_at low i = Some n <-> low !! i = Some n /\ n <> 0.
Proof.
  unfold low_at, XKB_ATOM_NONE. destruct (low !! i) as [m|]; [|by split; intros; [|destruct_and?]].
  destruct (Z.eqb_spec m 0) as [->|Hm]; split; try done.
  - intros [[= <-] H]. done.
  - intros [= ->]. done.
  - intros [[= ->] _]. done.
Qed.

Lemma low_at_None low i : low_at low i = None <-> forall n, low !! i = Some n -> n = 0.
Proof.
  unfold low_at, XKB_ATOM_NONE. destruct (low !! i) as [m|]; [|by split].
  destruct (Z.eqb_spec m 0) as [->|Hm]; split; try done.
  - by intros _ n [= ->].
  - intros H. by specialize (H m eq_refl).
Qed.

Lemma represents_init : represents keycode_store_init kd_empty.
Proof.
  split; cbn; try done.
  - by left.
  - intros kc n Hkc. split; [done|]. intros H. by apply elem_of_nil in H.
  - intros n. assert (nm [] n = no_match) as -> by (unfold nm, item; by destruct (n <? 0)).
    intros [[kc H]|[r H]]; cbn in H; by rewrite lookup_empty in H.
Qed.

(** ** The table of names *)

Lemma item_insert {A} (l : list A) i x k : 0 <= i < Z.of_nat (length l) ->
  item (<[Z.to_nat i := x]> l) k = if decide (k = i) then Some x else item l k.
Proof.
  intros Hi. unfold item. destruct (Z.ltb_spec k 0) as [Hk|Hk].
  - destruct (decide (k = i)); [lia|done].
  - destruct (decide (k = i)) as [->|Hne].
    + rewrite list_lookup_insert_eq by lia. done.
    + rewrite list_lookup_insert_ne by lia. done.
Qed.

Lemma nm_insert names n m k : 0 <= n < Z.of_nat (length names) ->
  nm (<[Z.to_nat n := m]> names) k = if decide (k = n) then m else nm names k.
Proof. intros Hn. unfold nm. rewrite item_insert by done. by destruct (decide (k = n)). Qed.

Lemma nm_resize0 names n k : nm (resize0 no_match names n) k = nm names k.
Proof.
  unfold nm, item, resize0. destruct (k <? 0); [done|]. rewrite lookup_app.
  destruct (names !! Z.to_nat k) eqn:E; [done|]. cbn.
  destruct (replicate _ no_match !! (Z.to_nat k - length names)%nat) as [m|] eqn:E'; [|done].
  apply lookup_replicate in E' as [-> _]. done.
Qed.

Lemma resize0_length {A} (z : A) l n : n <= Z.of_nat (length (resize0 z l n)).
Proof. unfold resize0. rewrite length_app, length_replicate. lia. Qed.

Lemma nm_put names n m k : 0 <= n -> nm (put_name names n m) k = if decide (k = n) then m else nm names k.
Proof.
  intros Hn. unfold put_name. pose proof (resize0_length no_match names (n + 1)).
  rewrite nm_insert by lia. by rewrite nm_resize0.
Qed.

Lemma nm_found names n : cm_found (nm names n) = true -> item names n = Some (nm names n).
Proof. unfold nm. by destruct (item names n). Qed.

Lemma item_range {A} (l : list A) i x : item l i = Some x -> 0 <= i < Z.of_nat (length l).
Proof.
  unfold item. destruct (Z.ltb_spec i 0); [done|]. intros Hi%lookup_lt_Some. lia.
Qed.

(** The update of an entry that is found. *)
Lemma update_found names n f : cm_found (nm names n) = true ->
  exists names', update_item names n f = Ok names' /\ length names' = length names /\
    forall k, nm names' k = if decide (k = n) then f (nm names n) else nm names k.
Proof.
  intros Hf. pose proof (nm_found _ _ Hf) as Hi. unfold update_item. rewrite Hi. eexists. split; [done|].
  split; [by rewrite length_insert|]. intros k. rewrite nm_insert by (by eapply item_range). done.
Qed.

Lemma move_entries_spec entries : forall names,
  NoDup (map hk_name entries) -> Forall (fun e => cm_found (nm names (hk_name e)) = true) entries ->
  exists names', move_entries names entries = Ok names' /\ length names' = length names /\
    forall k, nm names' k = if decide (k ∈ map hk_name entries) then set_value (cm_value (nm names k) + 1) (nm names k) else nm names k.
Proof.
  induction entries as [|e entries IH]; intros names Hnd Hf; cbn [move_entries map].
  - exists names. split; [done|]. split; [done|]. intros k. by rewrite decide_False by (apply not_elem_of_nil).
  - apply list.NoDup_cons in Hnd as [Hni Hnd]. apply list.Forall_cons in Hf as [He Hf].
    destruct (update_found names (hk_name e) (fun m => set_value (cm_value m + 1) m) He) as (names1 & -> & Hl1 & H1).
    cbn [result_bind]. destruct (IH names1) as (names2 & -> & Hl2 & H2); [done|..].
    { apply list.Forall_forall. intros e' He'. rewrite H1. rewrite decide_False.
      - rewrite list.Forall_forall in Hf. by apply Hf.
      - intros Heq. apply Hni. rewrite <- Heq. apply list_elem_of_fmap. by exists e'. }
    exists names2. split; [done|]. split; [lia|]. intros k. rewrite H2, H1.
    destruct (decide (k = hk_name e)) as [->|Hne].
    + rewrite decide_False by done. rewrite decide_True by (left; done). done.
    + destruct (decide (k ∈ map hk_name entries)) as [Hin|Hin].
      * rewrite decide_True by (right; done). done.
      * rewrite decide_False; [done|]. rewrite list.elem_of_cons. tauto.
Qed.

Lemma nm_shift names index k : nm (map (shift_match index) names) k = shift_match index (nm names k).
Proof.
  unfold nm, item. destruct (k <? 0); [done|]. rewrite list_lookup_fmap. by destruct (names !! Z.to_nat k).
Qed.

(** ** Searches *)

Lemma search_high_spec high kc : high_sorted high -> forall fuel lower upper,
  (upper - lower < fuel)%nat -> (lower <= upper)%nat -> (upper <= length high)%nat ->
  (forall i e, (i < lower)%nat -> high !! i = Some e -> hk_keycode e < kc) ->
  (forall i e, (upper <= i)%nat -> high !! i = Some e -> kc < hk_keycode e) ->
  exists pos, search_high fuel high kc lower upper = Ok pos /\
    match pos with
    | HighFound mid => exists e, high !! mid = Some e /\ hk_keycode e = kc
    | HighInsert l => (l <= length high)%nat /\
        (forall i e, (i < l)%nat -> high !! i = Some e -> hk_keycode e < kc) /\
        (forall i e, (l <= i)%nat -> high !! i = Some e -> kc < hk_keycode e)
    end.
Proof.
  intros Hs. induction fuel as [|fuel IH]; intros lower upper Hf Hle Hlen Hlo Hup; [lia|]. cbn [search_high].
  destruct (Nat.ltb_spec lower upper) as [Hlt|Hge].
  2: { exists (HighInsert lower). split; [done|]. split; [lia|]. split; [done|]. intros i e Hi. apply Hup. lia. }
  set (mid := (lower + (upper - 1 - lower) / 2)%nat).
  assert (lower <= mid < upper)%nat as Hmid.
  { unfold mid. pose proof (Nat.Div0.div_le_upper_bound (upper - 1 - lower) 2 (upper - 1 - lower)). lia. }
  destruct (high !! mid) as [e|] eqn:He; [|apply lookup_ge_None in He; lia].
  destruct (Z.ltb_spec (hk_keycode e) kc) as [Hl|Hl].
  { apply IH; try lia; [|done]. intros i e' Hi He'. destruct (decide (i = mid)) as [->|Hne]; [congruence|].
    assert (hk_keycode e' < hk_keycode e) by (apply (Hs i mid); [lia|done|done]). lia. }
  rewrite Z.gtb_ltb. destruct (Z.ltb_spec kc (hk_keycode e)) as [Hg|Hg].
  { apply IH; try lia; [done|]. intros i e' Hi He'. destruct (decide (i = mid)) as [->|Hne]; [congruence|].
    assert (hk_keycode e < hk_keycode e') by (apply (Hs mid i); [lia|done|done]). lia. }
  exists (HighFound mid). split; [done|]. exists e. split; [done|]. lia.
Qed.

Lemma search_all s D kc : represents s D ->
  exists pos, search_high (S (length (ks_high s))) (ks_high s) kc 0 (length (ks_high s)) = Ok pos /\
    match pos with
    | HighFound mid => exists e, ks_high s !! mid = Some e /\ hk_keycode e = kc
    | HighInsert l => (l <= length (ks_high s))%nat /\
        (forall i e, (i < l)%nat -> ks_high s !! i = Some e -> hk_keycode e < kc) /\
        (forall i e, (l <= i)%nat -> ks_high s !! i = Some e -> kc < hk_keycode e)
    end.
Proof.
  intros Hr. apply search_high_spec; [apply Hr|lia|lia|lia|lia|]. intros i e Hi He%lookup_lt_Some. lia.
Qed.

(** ** What the representation says of an entry *)

Lemma high_key s D i e : represents s D -> ks_high s !! i = Some e ->
  XKB_KEYCODE_MAX_CONTIGUOUS < hk_keycode e /\ kd_keys D !! hk_keycode e = Some (hk_name e).
Proof.
  intros Hr He. pose proof (Forall_lookup_1 _ _ _ _ (rp_high_range s D Hr) He) as Hk. cbn in Hk. split; [done|].
  apply (rp_high s D Hr); [done|]. apply list_elem_of_lookup. exists i. by destruct e.
Qed.

Lemma low_key s D i n : represents s D -> low_at (ks_low s) i = Some n ->
  (i < length (ks_low s))%nat /\ kd_keys D !! Z.of_nat i = Some n.
Proof.
  intros Hr Hi. pose proof (rp_low_length s D Hr) as Hlen. assert (i < length (ks_low s))%nat as Hlt.
  { apply low_at_Some in Hi as [Hi%lookup_lt_Some _]. done. }
  split; [done|]. rewrite (rp_low s D Hr) by lia. done.
Qed.

(** The match of a name points to its key. *)
Lemma key_entry s D kc n : represents s D -> kd_keys D !! kc = Some n ->
  let m := nm (ks_names s) n in
  cm_found m = true /\ cm_is_alias m = false /\
  exists i, cm_value m = Z.of_nat i /\
    if cm_low m then kc = Z.of_nat i /\ low_at (ks_low s) i = Some n
    else ks_high s !! i = Some (mk_high kc n).
Proof.
  intros Hr Hk m. pose proof (rp_names s D Hr n) as He. fold m in He. unfold entry_ok in He.
  destruct (cm_found m); [|contradict He; left; by exists kc]. split; [done|].
  destruct (cm_is_alias m).
  { pose proof (dw_disjoint D (rp_wf s D Hr) _ _ Hk). congruence. }
  split; [done|]. destruct He as (i & Hv & He). exists i. split; [done|]. destruct (cm_low m).
  - split; [|done]. apply (low_key s D) in He as [_ He]; [|done]. by eapply (dw_inj D (rp_wf s D Hr)).
  - destruct He as (e & He & Hn). destruct (high_key s D i e Hr He) as [_ Hke]. rewrite Hn in Hke.
    rewrite (dw_inj D (rp_wf s D Hr) _ _ _ Hk Hke), He. destruct e. cbn in *. by rewrite Hn.
Qed.

Lemma alias_entry s D n r : represents s D -> kd_aliases D !! n = Some r ->
  let m := nm (ks_names s) n in cm_found m = true /\ cm_is_alias m = true /\ cm_value m = r.
Proof.
  intros Hr Ha m. pose proof (rp_names s D Hr n) as He. fold m in He. unfold entry_ok in He.
  destruct (cm_found m); [|contradict He; by right]. split; [done|].
  destruct (cm_is_alias m); [split; [done|congruence]|].
  destruct He as (i & Hv & He). exfalso. destruct (cm_low m).
  - apply (low_key s D) in He as [_ He]; [|done]. pose proof (dw_disjoint D (rp_wf s D Hr) _ _ He). congruence.
  - destruct He as (e & He & Hn). destruct (high_key s D i e Hr He) as [_ Hke]. rewrite Hn in Hke.
    pose proof (dw_disjoint D (rp_wf s D Hr) _ _ Hke). congruence.
Qed.

(** A match that is found is one of these two. *)
Lemma found_cases s D n : represents s D -> cm_found (nm (ks_names s) n) = true ->
  if cm_is_alias (nm (ks_names s) n) then kd_aliases D !! n = Some (cm_value (nm (ks_names s) n))
  else exists kc, kd_keys D !! kc = Some n.
Proof.
  intros Hr Hf. pose proof (rp_names s D Hr n) as He. unfold entry_ok in He. rewrite Hf in He.
  destruct (cm_is_alias _); [done|]. destruct He as (i & _ & He). destruct (cm_low _).
  - apply (low_key s D) in He as [_ He]; [eauto|done].
  - destruct He as (e & He & <-). exists (hk_keycode e). by apply (high_key s D i e).
Qed.

Lemma not_found s D n : represents s D -> cm_found (nm (ks_names s) n) = false -> ~ kd_has D n.
Proof. intros Hr Hf. pose proof (rp_names s D Hr n) as He. unfold entry_ok in He. by rewrite Hf in He. Qed.

(** A match at a keycode. *)
Definition match_at (s : KeycodeStore) (kc : Z) (m : keycode_match) : Prop :=
  cm_found m = true /\ cm_is_alias m = false /\
  exists i, cm_value m = Z.of_nat i /\
    if cm_low m then kc = Z.of_nat i /\ (i < length (ks_low s))%nat
    else exists e, ks_high s !! i = Some e /\ hk_keycode e = kc.

Lemma item_nat {A} (l : list A) i : item l (Z.of_nat i) = l !! i.
Proof. unfold item. rewrite (proj2 (Z.ltb_ge _ _)) by lia. by rewrite Nat2Z.id. Qed.

Lemma lookup_keycode_spec s D kc : represents s D -> 0 <= kc ->
  exists m, keycode_store_lookup_keycode s kc = Ok m /\
    keycode_store_get_key_name s m = Ok (default XKB_ATOM_NONE (kd_keys D !! kc)) /\
    (is_Some (kd_keys D !! kc) -> match_at s kc m).
Proof.
  intros Hr Hkc. unfold keycode_store_lookup_keycode. pose proof (rp_low_length s D Hr) as Hlen.
  destruct (Z.ltb_spec kc (Z.of_nat (length (ks_low s)))) as [Hl|Hl].
  - eexists. split; [done|]. rewrite <- (Z2Nat.id kc) by done.
    rewrite (rp_low s D Hr) by lia. unfold keycode_store_get_key_name, match_at. cbn.
    rewrite (proj2 (Z.ltb_lt _ _)) by lia. cbn [asserting]. rewrite item_nat.
    destruct (lookup_lt_is_Some_2 (ks_low s) (Z.to_nat kc)) as [n Hn]; [lia|]. rewrite Hn.
    split.
    + f_equal. unfold low_at. rewrite Hn. by destruct (Z.eqb_spec n XKB_ATOM_NONE) as [->|].
    + intros _. split; [done|]. split; [done|]. exists (Z.to_nat kc). split; [lia|]. split; lia.
  - destruct (Z.leb_spec kc XKB_KEYCODE_MAX_CONTIGUOUS) as [Hc|Hc].
    + exists no_match. split; [done|]. assert (kd_keys D !! kc = None) as ->.
      { rewrite <- (Z2Nat.id kc) by done. rewrite (rp_low s D Hr) by lia. unfold low_at.
        by rewrite lookup_ge_None_2 by lia. }
      split; [done|]. by intros [? ?].
    + destruct (search_all s D kc Hr) as (pos & -> & Hpos). cbn [result_bind]. destruct pos as [mid|l].
      * destruct Hpos as (e & He & Hke). eexists. split; [done|].
        destruct (high_key s D mid e Hr He) as [_ Hk]. rewrite Hke in Hk. rewrite Hk.
        unfold keycode_store_get_key_name, match_at. cbn. pose proof (lookup_lt_Some _ _ _ He).
        rewrite (proj2 (Z.ltb_lt _ _)) by lia. cbn [asserting]. rewrite item_nat, He. split; [done|].
        intros _. split; [done|]. split; [done|]. exists mid. split; [done|]. by exists e.
      * exists no_match. split; [done|]. destruct Hpos as (_ & Hlo & Hhi).
        destruct (kd_keys D !! kc) as [n|] eqn:Hk; [|split; [done|by intros [? ?]]]. exfalso.
        apply (rp_high s D Hr) in Hk; [|done]. apply list_elem_of_lookup in Hk as [i Hi].
        destruct (decide (i < l)%nat) as [Hil|Hil]; [apply Hlo in Hi; cbn in Hi; lia|].
        apply Hhi in Hi; cbn in Hi; lia.
Qed.

Lemma get_keycode_spec s D kc n : represents s D -> kd_keys D !! kc = Some n ->
  keycode_store_get_keycode s (nm (ks_names s) n) = Ok kc.
Proof.
  intros Hr Hk. destruct (key_entry s D kc n Hr Hk) as (Hf & Ha & i & Hv & Hi).
  unfold keycode_store_get_keycode. rewrite Hf, Ha, Hv. cbn [negb orb]. destruct (cm_low _).
  - destruct Hi as [-> Hi]. apply (low_key s D) in Hi as [Hi _]; [|done].
    by rewrite (proj2 (Z.ltb_lt _ _)) by lia.
  - pose proof (lookup_lt_Some _ _ _ Hi). rewrite (proj2 (Z.ltb_lt _ _)) by lia. cbn [asserting].
    by rewrite item_nat, Hi.
Qed.

(** ** The least keycode *)

Lemma first_defined_spec low : forall k,
  match first_defined low k with
  | Some j => (k <= j)%nat /\ low_at low j <> None /\ forall i, (k <= i < j)%nat -> low_at low i = None
  | None => forall i, (k <= i)%nat -> low_at low i = None
  end.
Proof.
  induction low as [|n low IH]; intros k; cbn [first_defined]; [by intros i _|].
  assert (forall i, low_at (n :: low) (S i) = low_at low i) as HS by done.
  destruct (Nat.eqb_spec k 0) as [->|Hk].
  - destruct (Z.eqb_spec n XKB_ATOM_NONE) as [->|Hn].
    + specialize (IH 0%nat). destruct (first_defined low 0) as [j|]; cbn [option_map].
      * destruct IH as (_ & Hj & Hi). split; [lia|]. split; [done|]. intros [|i] H; [done|]. apply Hi. lia.
      * intros [|i] _; [done|]. apply IH. lia.
    + split; [lia|]. split; [|lia]. unfold low_at. cbn. by rewrite (proj2 (Z.eqb_neq _ _)).
  - specialize (IH (k - 1)%nat). destruct (first_defined low (k - 1)) as [j|]; cbn [option_map].
    + destruct IH as (Hle & Hj & Hi). split; [lia|]. split; [done|]. intros [|i] H; [lia|]. rewrite HS. apply Hi. lia.
    + intros [|i] H; [lia|]. rewrite HS. apply IH. lia.
Qed.

Lemma update_bounds_ok s :
  (ks_low s <> [] -> exists m, ks_min s = Z.of_nat m /\ forall j, (j < m)%nat -> low_at (ks_low s) j = None) ->
  ks_low s = [] \/ low_at (ks_low s) (length (ks_low s) - 1) <> None -> min_ok (update_bounds s).
Proof.
  intros Hm Hlast. unfold min_ok, update_bounds. cbn [ks_low ks_min ks_high].
  destruct (ks_low s) as [|n low] eqn:El; [done|].
  destruct Hm as (m & -> & Hm); [done|]. rewrite Nat2Z.id. destruct Hlast as [|Hlast]; [done|].
  pose proof (first_defined_spec (n :: low) m) as Hf. destruct (first_defined (n :: low) m) as [j|].
  - destruct Hf as (Hle & Hj & Hi). exists j. split; [done|]. split; [done|]. intros i Hij.
    destruct (decide (i < m)%nat); [by apply Hm|]. apply Hi. lia.
  - exfalso. apply Hlast. destruct (decide (length (n :: low) - 1 < m)%nat); [by apply Hm|]. apply Hf. lia.
Qed.

Lemma defined_size_spec low idx : (idx <= length low)%nat ->
  match defined_size low idx with
  | Some size => (0 < size <= idx)%nat /\ low_at low (size - 1) <> None /\
                 forall i, (size <= i < idx)%nat -> low_at low i = None
  | None => forall i, (i < idx)%nat -> low_at low i = None
  end.
Proof.
  induction idx as [|idx IH]; intros Hle; cbn [defined_size]; [intros i Hi; lia|].
  destruct (low !! idx) as [n|] eqn:Hn; [|apply lookup_ge_None in Hn; lia].
  destruct (Z.eqb_spec n XKB_ATOM_NONE) as [->|Hne].
  - assert (low_at low idx = None) as Hz by (apply low_at_None; intros m Hm; rewrite Hn in Hm; by injection Hm).
    specialize (IH ltac:(lia)). destruct (defined_size low idx) as [size|].
    + destruct IH as (Hs & Hd & Hi). split; [lia|]. split; [done|]. intros i H.
      destruct (decide (i = idx)) as [->|]; [done|]. apply Hi. lia.
    + intros i Hi. destruct (decide (i = idx)) as [->|]; [done|]. apply IH. lia.
  - split; [lia|]. split; [|lia]. replace (S idx - 1)%nat with idx by lia. unfold low_at. rewrite Hn.
    by rewrite (proj2 (Z.eqb_neq _ _)).
Qed.

(** ** Deletions *)

Lemma drop_name_wf D n : dict_wf D -> dict_wf (mk_keydict (drop_name n (kd_keys D)) (kd_aliases D)).
Proof.
  intros Hw. assert (forall kc m, drop_name n (kd_keys D) !! kc = Some m -> kd_keys D !! kc = Some m) as Hd.
  { intros kc m. rewrite drop_name_lookup. destruct (kd_keys D !! kc); [|done]. by destruct (decide _). }
  split; cbn.
  - intros kc m Hm%Hd. by apply (dw_keys D Hw).
  - apply Hw.
  - intros kc kc' m H1%Hd H2%Hd. by apply (dw_inj D Hw _ _ m).
  - intros kc m Hm%Hd. by apply (dw_disjoint D Hw kc).
Qed.

Lemma drop_name_has D n k : kd_has (mk_keydict (drop_name n (kd_keys D)) (kd_aliases D)) k ->
  kd_has D k /\ (k = n -> is_Some (kd_aliases D !! k)).
Proof.
  intros [[kc Hk]|Hk]; cbn in Hk.
  - rewrite drop_name_lookup in Hk. destruct (kd_keys D !! kc) as [m|] eqn:E; [|done].
    destruct (decide (m = n)); [done|]. injection Hk as ->. split; [left; by exists kc|]. intros ->. done.
  - split; [by right|]. by intros ->.
Qed.

(** The array of the low keycodes without the index [i]. *)
Definition cut_low (min : Z) (low : list Z) (i : nat) : list Z :=
  if Z.of_nat i + 1 =? Z.of_nat (length low) then
    if min =? Z.of_nat i then []
    else match defined_size low i with Some size => take size low | None => low end
  else <[i := XKB_ATOM_NONE]> low.

Lemma low_at_insert low i n j : (i < length low)%nat ->
  low_at (<[i := n]> low) j = if decide (j = i) then (if n =? XKB_ATOM_NONE then None else Some n) else low_at low j.
Proof.
  intros Hi. unfold low_at. destruct (decide (j = i)) as [->|Hne].
  - by rewrite list_lookup_insert_eq.
  - by rewrite list_lookup_insert_ne.
Qed.

Lemma low_at_take low k j : low_at (take k low) j = if decide (j < k)%nat then low_at low j else None.
Proof.
  unfold low_at. destruct (decide (j < k)%nat).
  - by rewrite lookup_take_lt.
  - by rewrite lookup_take_ge by lia.
Qed.

Lemma low_at_ge low j : (length low <= j)%nat -> low_at low j = None.
Proof. intros H. unfold low_at. by rewrite lookup_ge_None_2. Qed.

Lemma cut_low_spec s i n : min_ok s -> low_at (ks_low s) i = Some n ->
  ks_low s = [] \/ low_at (ks_low s) (length (ks_low s) - 1) <> None ->
  let low' := cut_low (ks_min s) (ks_low s) i in
  (length low' <= length (ks_low s))%nat /\
  (low' = [] \/ low_at low' (length low' - 1) <> None) /\
  forall j, low_at low' j = if decide (j = i) then None else low_at (ks_low s) j.
Proof.
  intros Hmin Hi Hlast. unfold cut_low. set (low := ks_low s) in *.
  assert (i < length low)%nat as Hlt by (apply low_at_Some in Hi as [Hi%lookup_lt_Some _]; done).
  destruct Hlast as [He|Hlast]; [rewrite He in Hlt; cbn in Hlt; lia|].
  unfold min_ok in Hmin. fold low in Hmin. destruct low as [|x xs] eqn:El; [cbn in Hlt; lia|]. rewrite <- El in *. clear x xs El.
  destruct Hmin as (m & Hm & Hmd & Hmz). rewrite Hm.
  destruct (Z.eqb_spec (Z.of_nat i + 1) (Z.of_nat (length low))) as [Hl|Hl].
  - assert (forall j, (i < j)%nat -> low_at low j = None) as Hafter by (intros j Hj; apply low_at_ge; lia).
    destruct (Z.eqb_spec (Z.of_nat m) (Z.of_nat i)) as [Hmi|Hmi].
    + split; [cbn; lia|]. split; [by left|]. intros j. unfold low_at at 1. rewrite lookup_nil.
      destruct (decide (j = i)); [done|]. destruct (decide (j < i)%nat); [symmetry; apply Hmz; lia|symmetry; apply Hafter; lia].
    + pose proof (defined_size_spec low i ltac:(lia)) as Hd. destruct (defined_size low i) as [size|].
      * destruct Hd as (Hs & Hsd & Hz). rewrite length_take. split; [lia|]. split.
        { right. rewrite low_at_take. rewrite decide_True by lia. by replace (size `min` length low - 1)%nat with (size - 1)%nat by lia. }
        intros j. rewrite low_at_take. destruct (decide (j < size)%nat); [by rewrite decide_False by lia|].
        destruct (decide (j = i)); [done|]. destruct (decide (j < i)%nat); [symmetry; apply Hz; lia|symmetry; apply Hafter; lia].
      * exfalso. apply Hmd. apply Hd. destruct (decide (m < i)%nat); [done|]. exfalso. apply Hmd. apply Hafter. lia.
  - rewrite length_insert. split; [lia|]. split.
    + right. rewrite low_at_insert by done. by rewrite decide_False by lia.
    + intros j. rewrite low_at_insert by done. by destruct (decide (j = i)).
Qed.

Lemma high_names_inj s D i j e e' : represents s D -> ks_high s !! i = Some e -> ks_high s !! j = Some e' ->
  hk_name e = hk_name e' -> i = j.
Proof.
  intros Hr Hi Hj Hn. destruct (high_key s D i e Hr Hi) as [_ H1]. destruct (high_key s D j e' Hr Hj) as [_ H2].
  rewrite Hn in H1. pose proof (dw_inj D (rp_wf s D Hr) _ _ _ H1 H2) as Hk.
  destruct (lt_eq_lt_dec i j) as [[Hlt|?]|Hlt]; [|done|].
  - pose proof (rp_sorted s D Hr _ _ _ _ Hlt Hi Hj). lia.
  - pose proof (rp_sorted s D Hr _ _ _ _ Hlt Hj Hi). lia.
Qed.

Lemma min_ok_low s : min_ok s -> ks_low s <> [] ->
  exists m, ks_min s = Z.of_nat m /\ low_at (ks_low s) m <> None /\ forall j, (j < m)%nat -> low_at (ks_low s) j = None.
Proof. unfold min_ok. by destruct (ks_low s). Qed.

Section delete.
Context (s : KeycodeStore) (D : keydict) (kc n : Z) (Hr : represents s D) (Hk : kd_keys D !! kc = Some n).
Let D' := mk_keydict (drop_name n (kd_keys D)) (kd_aliases D).

Lemma drop_other k : k <> kc -> drop_name n (kd_keys D) !! k = kd_keys D !! k.
Proof using Hr Hk.
  intros Hne. rewrite drop_name_lookup. destruct (kd_keys D !! k) as [m|] eqn:E; [|done].
  destruct (decide (m = n)) as [->|]; [|done]. by destruct (Hne (dw_inj D (rp_wf s D Hr) _ _ _ E Hk)).
Qed.

Lemma drop_same : drop_name n (kd_keys D) !! kc = None.
Proof using Hk. rewrite drop_name_lookup, Hk. by rewrite decide_True. Qed.

Lemma dropped_not_has k : k = n \/ ~ kd_has D k -> ~ kd_has D' k.
Proof using Hr Hk.
  intros Hk' [Hh Hal]%drop_name_has. destruct Hk' as [->|Hn]; [|done].
  destruct (Hal eq_refl) as [r Hr']. pose proof (dw_disjoint D (rp_wf s D Hr) _ _ Hk). congruence.
Qed.

Lemma delete_low i names1 : low_at (ks_low s) i = Some n ->
  (forall k, nm names1 k = if decide (k = n) then set_found false (nm (ks_names s) n) else nm (ks_names s) k) ->
  kc = Z.of_nat i ->
  represents (update_bounds (mk_store (ks_min s) (cut_low (ks_min s) (ks_low s) i) (ks_high s) names1)) D'.
Proof using Hr Hk.
  intros Hi Hn1 Hkc. pose proof (low_key s D i n Hr Hi) as [Hlt _].
  assert (i < length (ks_low s))%nat as Hlen' by (apply low_at_Some in Hi as [Hi%lookup_lt_Some _]; done).
  destruct (cut_low_spec s i n (rp_min s D Hr) Hi (rp_low_last s D Hr)) as (Hlen & Hlast & Hat).
  pose proof (rp_low_length s D Hr). pose proof (drop_name_wf D n (rp_wf s D Hr)) as Hwf.
  split; [exact Hwf| |cbn [update_bounds ks_low]; lia|exact Hlast|apply Hr| |apply Hr| |].
  - intros j Hj. cbn [update_bounds ks_low kd_keys D']. rewrite Hat. destruct (decide (j = i)) as [->|Hne].
    + rewrite <- Hkc. apply drop_same.
    + rewrite drop_other by lia. by apply Hr.
  - intros kc' m Hkc'. cbn [update_bounds ks_high kd_keys D']. rewrite drop_other by lia. by apply Hr.
  - apply update_bounds_ok; [|exact Hlast]. cbn [ks_low ks_min]. intros _.
    destruct (min_ok_low s (rp_min s D Hr)) as (m & Hm & _ & Hz); [by intros Hn; rewrite Hn in Hlen'; cbn in Hlen'; lia|].
    exists m. split; [done|]. intros j Hj. rewrite Hat. destruct (decide (j = i)); [done|]. by apply Hz.
  - intros k. cbn [update_bounds ks_names]. rewrite Hn1. unfold entry_ok.
    destruct (decide (k = n)) as [->|Hne]; [apply dropped_not_has; by left|].
    pose proof (rp_names s D Hr k) as He. unfold entry_ok in He. destruct (cm_found _); [|apply dropped_not_has; by right].
    destruct (cm_is_alias _); [done|]. destruct He as (i' & Hv' & He). exists i'. split; [done|].
    cbn [update_bounds ks_low ks_high]. destruct (cm_low _); [|done]. rewrite Hat.
    destruct (decide (i' = i)) as [->|]; [|done]. rewrite Hi in He. congruence.
Qed.

Lemma delete_lookup {A} (l : list A) i j e : delete i l !! j = Some e ->
  l !! (if decide (j < i)%nat then j else S j) = Some e.
Proof using Type.
  destruct (decide (j < i)%nat) as [Hj|Hj].
  - by rewrite list_lookup_delete_lt.
  - by rewrite list_lookup_delete_ge by lia.
Qed.

Lemma delete_elem i kc' m : ks_high s !! i = Some (mk_high kc n) ->
  XKB_KEYCODE_MAX_CONTIGUOUS < kc' ->
  drop_name n (kd_keys D) !! kc' = Some m <-> mk_high kc' m ∈ delete i (ks_high s).
Proof using Hr Hk.
  intros Hi Hkc'. destruct (decide (kc' = kc)) as [->|Hne].
  - rewrite drop_same. split; [done|]. intros [j Hj%delete_lookup]%list_elem_of_lookup. exfalso.
    set (j' := if decide (j < i)%nat then j else S j) in *.
    assert (j' <> i) as Hji by (unfold j'; destruct (decide (j < i)%nat); lia).
    destruct (lt_eq_lt_dec j' i) as [[H'|H']|H']; [|done|].
    + pose proof (rp_sorted s D Hr _ _ _ _ H' Hj Hi). cbn in *. lia.
    + pose proof (rp_sorted s D Hr _ _ _ _ H' Hi Hj). cbn in *. lia.
  - rewrite drop_other by done. rewrite (rp_high s D Hr) by done. rewrite !list_elem_of_lookup. split.
    + intros [j Hj]. assert (j <> i) by (intros ->; congruence). destruct (decide (j < i)%nat).
      * exists j. by rewrite list_lookup_delete_lt.
      * exists (j - 1)%nat. rewrite list_lookup_delete_ge by lia. by replace (S (j - 1)) with j by lia.
    + intros [j Hj%delete_lookup]. eauto.
Qed.

Lemma delete_entry i names1 k : ks_high s !! i = Some (mk_high kc n) ->
  (forall k, nm names1 k = if decide (k = n) then set_found false (nm (ks_names s) n) else nm (ks_names s) k) ->
  entry_ok (mk_store (ks_min s) (ks_low s) (delete i (ks_high s)) names1) D' k (shift_match (Z.of_nat i) (nm names1 k)).
Proof using Hr Hk.
  intros Hi Hn1. rewrite Hn1. unfold entry_ok. destruct (decide (k = n)) as [->|Hne]; [apply dropped_not_has; by left|].
  pose proof (rp_names s D Hr k) as He. unfold entry_ok in He. unfold shift_match.
  destruct (cm_found (nm (ks_names s) k)) eqn:Ef; cbn [andb]; [|rewrite Ef; apply dropped_not_has; by right].
  destruct (cm_is_alias (nm (ks_names s) k)) eqn:Ea; cbn [andb negb]; [by rewrite Ef, Ea|].
  destruct He as (i' & Hv' & He). destruct (cm_low (nm (ks_names s) k)) eqn:Elow; cbn [andb negb].
  { rewrite Ef, Ea, Elow. by exists i'. }
  destruct He as (e & He & Hen). assert (i' <> i) by (intros ->; rewrite Hi in He; injection He as <-; cbn in Hen; congruence).
  rewrite Hv', Z.gtb_ltb. cbn [ks_high]. destruct (Z.ltb_spec (Z.of_nat i) (Z.of_nat i')).
  - cbn. rewrite Ef, Ea, Elow. exists (i' - 1)%nat. split; [lia|]. exists e. split; [|done].
    rewrite list_lookup_delete_ge by lia. by replace (S (i' - 1)) with i' by lia.
  - rewrite Ef, Ea, Elow. exists i'. split; [done|]. exists e. split; [|done]. by rewrite list_lookup_delete_lt by lia.
Qed.

Lemma delete_high i names1 : ks_high s !! i = Some (mk_high kc n) ->
  (forall k, nm names1 k = if decide (k = n) then set_found false (nm (ks_names s) n) else nm (ks_names s) k) ->
  represents (update_bounds (mk_store (ks_min s) (ks_low s) (delete i (ks_high s))
    (map (shift_match (Z.of_nat i)) names1))) D'.
Proof using Hr Hk.
  intros Hi Hn1. destruct (high_key s D i _ Hr Hi) as [Hkc _]. cbn in Hkc.
  pose proof (drop_name_wf D n (rp_wf s D Hr)) as Hwf.
  split; [exact Hwf| |apply Hr|apply Hr| | | | |].
  - intros j Hj. cbn [update_bounds ks_low kd_keys D']. rewrite drop_other by lia. by apply Hr.
  - intros a b e e' Hab H1%delete_lookup H2%delete_lookup.
    eapply (rp_sorted s D Hr); [|exact H1|exact H2]. destruct (decide (a < i)%nat), (decide (b < i)%nat); lia.
  - intros kc' m Hkc'. by apply delete_elem.
  - apply list.Forall_forall. intros e [j Hj%delete_lookup]%list_elem_of_lookup. by apply (high_key s D _ e Hr) in Hj as [? _].
  - apply update_bounds_ok; [|apply Hr]. cbn [ks_low ks_min]. intros Hne.
    destruct (min_ok_low s (rp_min s D Hr) Hne) as (m & Hm & _ & Hz). by exists m.
  - intros k. cbn [update_bounds ks_names]. rewrite nm_shift. by apply delete_entry.
Qed.

(** Deleting the key of a name. *)
Lemma delete_key_spec : exists s', keycode_store_delete_key s (nm (ks_names s) n) = Ok s' /\ represents s' D'.
Proof using Hr Hk.
  destruct (key_entry s D kc n Hr Hk) as (Hf & Ha & i & Hv & Hi).
  unfold keycode_store_delete_key. rewrite Hf, Ha. cbn [negb orb]. rewrite Hv.
  destruct (update_found (ks_names s) n (set_found false) Hf) as (names1 & Hup & _ & Hn1).
  destruct (cm_low (nm (ks_names s) n)).
  - destruct Hi as [Hkc Hi]. pose proof (low_key s D i n Hr Hi) as [Hlt _].
    rewrite (proj2 (Z.ltb_lt _ _)) by lia. cbn [asserting]. rewrite item_nat.
    apply low_at_Some in Hi as Hi'. destruct Hi' as [Hli _]. rewrite Hli, Hup. cbn [result_bind].
    rewrite Nat2Z.id. eexists. split; [done|]. by apply delete_low.
  - pose proof (lookup_lt_Some _ _ _ Hi) as Hlt. rewrite (proj2 (Z.ltb_lt _ _)) by lia. cbn [asserting].
    rewrite item_nat, Hi. cbn [hk_name]. rewrite Hup. cbn [result_bind]. rewrite Nat2Z.id.
    eexists. split; [done|]. by apply delete_high.
Qed.
End delete.

(** ** Aliases *)

Definition set_alias (a r : Z) (D : keydict) : keydict := mk_keydict (kd_keys D) (<[a := r]> (kd_aliases D)).
Definition drop_alias (a : Z) (D : keydict) : keydict := mk_keydict (kd_keys D) (delete a (kd_aliases D)).

(** Only the table of names and the aliases change. *)
Lemma represents_names s D names' aliases' : represents s D -> dict_wf (mk_keydict (kd_keys D) aliases') ->
  (forall n, entry_ok s (mk_keydict (kd_keys D) aliases') n (nm names' n)) ->
  represents (mk_store (ks_min s) (ks_low s) (ks_high s) names') (mk_keydict (kd_keys D) aliases').
Proof. intros Hr Hwf Hn. split; try apply Hr; [exact Hwf|exact Hn]. Qed.

Lemma set_alias_wf D a r : dict_wf D -> 0 <= a -> (forall kc, kd_keys D !! kc <> Some a) -> dict_wf (set_alias a r D).
Proof.
  intros Hw Ha Hk. split; cbn; [apply Hw| |apply Hw|].
  - intros n r'. destruct (decide (n = a)) as [->|Hne]; [done|]. rewrite lookup_insert_ne by done. by apply (dw_aliases D Hw).
  - intros kc n Hn. rewrite lookup_insert_ne; [by apply (dw_disjoint D Hw kc)|]. intros <-. by destruct (Hk kc).
Qed.

Lemma set_alias_entries s D a r names' : represents s D -> (forall kc, kd_keys D !! kc <> Some a) ->
  (exists low, nm names' a = mk_cmatch true low true r) ->
  (forall k, k <> a -> nm names' k = nm (ks_names s) k) ->
  forall k, entry_ok s (set_alias a r D) k (nm names' k).
Proof.
  intros Hr Hk [low Ha] Hn k. destruct (decide (k = a)) as [->|Hne].
  - rewrite Ha. unfold entry_ok. cbn. by rewrite lookup_insert_eq.
  - rewrite Hn by done. pose proof (rp_names s D Hr k) as He. unfold entry_ok in *. cbn.
    destruct (cm_found _).
    + destruct (cm_is_alias _); [|done]. by rewrite lookup_insert_ne.
    + intros Hh. apply He. destruct Hh as [Hh|Hh]; [by left|]. right. cbn in Hh. by rewrite lookup_insert_ne in Hh.
Qed.

Lemma insert_alias_spec s D a r : represents s D -> 0 <= a -> (forall kc, kd_keys D !! kc <> Some a) ->
  represents (keycode_store_insert_alias s a r) (set_alias a r D).
Proof.
  intros Hr Ha Hk. apply represents_names; [done|apply set_alias_wf; [apply Hr|done..]|].
  apply set_alias_entries; [done..| |].
  - exists false. rewrite nm_put by done. by rewrite decide_True.
  - intros k Hne. rewrite nm_put by done. by rewrite decide_False.
Qed.

Lemma update_alias_spec s D a r r0 : represents s D -> kd_aliases D !! a = Some r0 ->
  exists s', keycode_store_update_alias s a r = Ok s' /\ represents s' (set_alias a r D).
Proof.
  intros Hr Ha. destruct (alias_entry s D a r0 Hr Ha) as (Hf & Hal & _).
  destruct (update_found (ks_names s) a (set_value r) Hf) as (names' & Hup & _ & Hn).
  unfold keycode_store_update_alias. rewrite Hup. eexists. split; [done|].
  assert (forall kc, kd_keys D !! kc <> Some a) as Hk.
  { intros kc Hkc. pose proof (dw_disjoint D (rp_wf s D Hr) _ _ Hkc). congruence. }
  apply represents_names; [done|apply set_alias_wf; [apply Hr| |done]; by apply (dw_aliases D (rp_wf s D Hr) _ _ Ha)|].
  apply set_alias_entries; [done..| |].
  - rewrite Hn, decide_True by done. unfold set_value. rewrite Hf, Hal. eauto.
  - intros k Hne. by rewrite Hn, decide_False.
Qed.

Lemma delete_alias_spec s D a r : represents s D -> kd_aliases D !! a = Some r ->
  exists s', keycode_store_delete_name s a = Ok s' /\ represents s' (drop_alias a D).
Proof.
  intros Hr Ha. destruct (alias_entry s D a r Hr Ha) as (Hf & Hal & _).
  destruct (update_found (ks_names s) a (set_found false) Hf) as (names' & Hup & _ & Hn).
  unfold keycode_store_delete_name. pose proof (item_range _ _ _ (nm_found _ _ Hf)) as Hrng.
  rewrite (proj2 (Z.ltb_lt _ _)) by lia. rewrite Hup. eexists. split; [done|].
  pose proof (rp_wf s D Hr) as Hw. apply represents_names; [done| |].
  - split; cbn; [apply Hw| |apply Hw|].
    + intros n r' [_ H]%lookup_delete_Some. by apply (dw_aliases D Hw _ _ H).
    + intros kc n H. apply lookup_delete_None. right. by apply (dw_disjoint D Hw kc).
  - intros k. rewrite Hn. unfold entry_ok. destruct (decide (k = a)) as [->|Hne].
    + cbn. intros [[kc Hk]|Hk]; cbn in *.
      * pose proof (dw_disjoint D Hw _ _ Hk). congruence.
      * rewrite lookup_delete_eq in Hk. by destruct Hk.
    + pose proof (rp_names s D Hr k) as He. unfold entry_ok in He. cbn. destruct (cm_found (nm (ks_names s) k)).
      * destruct (cm_is_alias (nm (ks_names s) k)); [|done]. by rewrite lookup_delete_ne.
      * intros Hh. apply He. destruct Hh as [Hh|Hh]; [by left|]. right. cbn in Hh. by rewrite lookup_delete_ne in Hh.
Qed.

(** ** Insertion of a key *)

Definition set_key (kc n : Z) (D : keydict) : keydict := mk_keydict (<[kc := n]> (kd_keys D)) (kd_aliases D).

Lemma set_key_wf D kc n : dict_wf D -> 0 <= kc <= XKB_KEYCODE_MAX -> 0 < n -> ~ kd_has D n -> dict_wf (set_key kc n D).
Proof.
  intros Hw Hkc Hn Hh. split; cbn.
  - intros kc' n' [[<- <-]|[_ H]]%lookup_insert_Some; [done|]. by apply (dw_keys D Hw).
  - apply Hw.
  - intros k k' m [[<- <-]|[Hne H]]%lookup_insert_Some [[<- ?]|[Hne' H']]%lookup_insert_Some; subst; try done.
    + destruct Hh. left. by eexists.
    + destruct Hh. left. by eexists.
    + by apply (dw_inj D Hw _ _ m).
  - intros k m [[<- <-]|[_ H]]%lookup_insert_Some; [|by apply (dw_disjoint D Hw k m)].
    destruct (kd_aliases D !! n) eqn:E; [|done]. destruct Hh. by right.
Qed.

Lemma set_key_has D kc n k : kd_has (set_key kc n D) k -> k <> n -> kd_has D k.
Proof.
  intros [[kc' H]|H] Hne; [|by right]. cbn in H. apply lookup_insert_Some in H as [[_ ?]|[_ H]]; [done|]. left. by exists kc'.
Qed.

Lemma low_at_resize low k i : low_at (resize0 XKB_ATOM_NONE low k) i = low_at low i.
Proof.
  unfold low_at, resize0. rewrite lookup_app. destruct (low !! i) as [n|] eqn:E; [done|]. cbn.
  destruct (replicate _ XKB_ATOM_NONE !! (i - length low)%nat) as [n|] eqn:E'; [|done].
  apply lookup_replicate in E' as [-> _]. done.
Qed.

Section insert.
Context (s : KeycodeStore) (D : keydict) (kc n : Z) (Hr : represents s D).
Hypothesis (Hkc : 0 <= kc <= XKB_KEYCODE_MAX) (Hn : 0 < n) (Hnew : kd_keys D !! kc = None) (Hh : ~ kd_has D n).

(** The other names keep their matches, [f] moving the positions. *)
Lemma set_key_entries s' names' (f : nat -> nat) :
  (forall i m, low_at (ks_low s) i = Some m -> low_at (ks_low s') i = Some m) ->
  (forall i e, ks_high s !! i = Some e -> ks_high s' !! f i = Some e) ->
  entry_ok s' (set_key kc n D) n (nm names' n) ->
  (forall k, k <> n -> nm names' k = nm (ks_names s) k \/
     (exists i, cm_found (nm (ks_names s) k) = true /\ cm_is_alias (nm (ks_names s) k) = false /\
        cm_low (nm (ks_names s) k) = false /\ cm_value (nm (ks_names s) k) = Z.of_nat i /\
        nm names' k = set_value (Z.of_nat (f i)) (nm (ks_names s) k))) ->
  (forall k i e, nm names' k = nm (ks_names s) k -> cm_found (nm (ks_names s) k) = true -> cm_is_alias (nm (ks_names s) k) = false ->
     cm_low (nm (ks_names s) k) = false -> cm_value (nm (ks_names s) k) = Z.of_nat i ->
     ks_high s !! i = Some e -> k <> n -> f i = i) ->
  forall k, entry_ok s' (set_key kc n D) k (nm names' k).
Proof using Hr.
  intros Hlow Hhigh Hself Hother Hfix k. destruct (decide (k = n)) as [->|Hne]; [done|].
  pose proof (rp_names s D Hr k) as He. unfold entry_ok in He.
  destruct (Hother k Hne) as [Heq|(i & Hf & Ha & Hl & Hv & Heq)].
  - rewrite Heq. unfold entry_ok. destruct (cm_found (nm (ks_names s) k)) eqn:Hf.
    + destruct (cm_is_alias (nm (ks_names s) k)) eqn:Ha; [done|]. destruct He as (i & Hv & He). exists i. split; [done|].
      destruct (cm_low (nm (ks_names s) k)) eqn:Hl; [by apply Hlow|].
      destruct He as (e & He & Hen). exists e. split; [|done].
      rewrite <- (Hfix k i e Heq Hf Ha Hl Hv He Hne). by apply Hhigh.
    + intros H%set_key_has; done.
  - rewrite Heq. unfold entry_ok. cbn. rewrite Hf, Ha, Hl in *. destruct He as (i' & Hv' & e & He & Hen).
    assert (i' = i) as -> by lia. exists (f i). split; [done|]. exists e. split; [|done]. by apply Hhigh.
Qed.

Lemma insert_low : kc <= XKB_KEYCODE_MAX_CONTIGUOUS ->
  exists s', keycode_store_insert_key s kc n = Ok s' /\ represents s' (set_key kc n D).
Proof using Hr Hkc Hn Hnew Hh.
  intros Hc. unfold keycode_store_insert_key. rewrite (proj2 (Z.leb_le _ _)) by lia. eexists. split; [done|].
  set (i := Z.to_nat kc). set (low' := <[i := n]> (resize0 XKB_ATOM_NONE (ks_low s) (kc + 1))).
  pose proof (resize0_length XKB_ATOM_NONE (ks_low s) (kc + 1)) as Hlen.
  assert (length (resize0 XKB_ATOM_NONE (ks_low s) (kc + 1)) = length (ks_low s) `max` S i)%nat as Hlen'.
  { unfold resize0. rewrite length_app, length_replicate. lia. }
  assert (forall j, low_at low' j = if decide (j = i) then Some n else low_at (ks_low s) j) as Hat.
  { intros j. unfold low'. rewrite low_at_insert by lia. rewrite low_at_resize.
    destruct (decide (j = i)); [|done]. unfold XKB_ATOM_NONE. by rewrite (proj2 (Z.eqb_neq n 0)) by lia. }
  assert (Z.of_nat i = kc) as Hi by lia. pose proof (rp_low_length s D Hr) as Hll.
  assert (low_at (ks_low s) i = None) as Hfree by (rewrite <- (rp_low s D Hr) by lia; by rewrite Hi).
  split.
  - by apply set_key_wf; [apply Hr|..].
  - intros j Hj. cbn [ks_low set_key kd_keys]. rewrite Hat. destruct (decide (j = i)) as [->|Hne].
    + rewrite Hi. by rewrite lookup_insert_eq.
    + rewrite lookup_insert_ne by lia. by apply Hr.
  - cbn [ks_low]. unfold low'. rewrite length_insert. lia.
  - right. cbn [ks_low]. rewrite Hat. unfold low'. rewrite length_insert, Hlen'. destruct (decide _) as [|Hne]; [done|].
    destruct (rp_low_last s D Hr) as [He|Hl]; [rewrite He in Hne; cbn in Hne; lia|].
    by replace (length (ks_low s) `max` S i - 1)%nat with (length (ks_low s) - 1)%nat by lia.
  - apply Hr.
  - intros kc' m Hkc'. cbn [ks_high set_key kd_keys]. rewrite lookup_insert_ne by lia. by apply Hr.
  - apply Hr.
  - unfold min_ok. cbn [ks_low ks_min]. fold i low'. destruct low' as [|x xs] eqn:El.
    { apply (f_equal length) in El. unfold low' in El. rewrite length_insert, Hlen' in El. cbn in El. lia. }
    rewrite <- El in *. clear x xs El. destruct (decide (ks_low s = [])) as [He|He].
    + pose proof (rp_min s D Hr) as Hm. unfold min_ok in Hm. rewrite He in Hm.
      assert (kc < ks_min s) as Hlt.
      { rewrite Hm. unfold min_high. destruct (ks_high s) as [|e l] eqn:Eh.
        - unfold XKB_KEYCODE_INVALID, XKB_KEYCODE_MAX_CONTIGUOUS in *. lia.
        - pose proof (rp_high_range s D Hr) as Hrng. rewrite Eh in Hrng. apply list.Forall_cons in Hrng as [Hrng _]. lia. }
      rewrite (proj2 (Z.ltb_lt _ _)) by done. exists i. split; [done|]. rewrite Hat, decide_True by done. split; [done|].
      intros j Hj. rewrite Hat, decide_False by lia. rewrite He. done.
    + destruct (min_ok_low s (rp_min s D Hr) He) as (m & Hm & Hd & Hz). rewrite Hm.
      destruct (Z.ltb_spec kc (Z.of_nat m)).
      * exists i. split; [done|]. rewrite Hat, decide_True by done. split; [done|].
        intros j Hj. rewrite Hat, decide_False by lia. apply Hz. lia.
      * exists m. split; [done|]. rewrite Hat. split; [by destruct (decide _)|].
        intros j Hj. rewrite Hat. rewrite decide_False; [by apply Hz|].
        intros ->. assert (m <> i) by (intros ->; done). lia.
  - assert (forall k, nm (<[Z.to_nat n := mk_cmatch true true false kc]> (resize0 no_match (ks_names s) (n + 1))) k =
        if decide (k = n) then mk_cmatch true true false kc else nm (ks_names s) k) as Hnm by (intros k; by apply nm_put; lia).
    apply (set_key_entries _ _ id); cbn [ks_low ks_high ks_names].
    + intros j m Hj. rewrite Hat. destruct (decide (j = i)) as [->|]; [congruence|done].
    + done.
    + rewrite Hnm, decide_True by done. exists i. split; [done|]. cbn. by rewrite Hat, decide_True.
    + intros k Hne. left. by rewrite Hnm, decide_False.
    + done.
Qed.

Definition insert_at {A} (l : list A) (i : nat) (x : A) : list A := take i l ++ x :: drop i l.

Lemma insert_at_lookup {A} (l : list A) i x j : (i <= length l)%nat ->
  insert_at l i x !! j = if decide (j = i) then Some x else l !! (if decide (j < i)%nat then j else j - 1)%nat.
Proof using Type.
  intros Hi. unfold insert_at. destruct (decide (j < i)%nat) as [Hj|Hj].
  - rewrite decide_False by lia. rewrite lookup_app_l by (rewrite length_take; lia). by rewrite lookup_take_lt by lia.
  - rewrite lookup_app_r by (rewrite length_take; lia). rewrite length_take.
    replace (i `min` length l)%nat with i by lia. destruct (decide (j = i)) as [->|Hne]; [by rewrite Nat.sub_diag|].
    replace (j - i)%nat with (S (j - i - 1)) by lia. change ((x :: drop i l) !! S (j - i - 1)%nat) with (drop i l !! (j - i - 1)%nat). rewrite lookup_drop. by replace (i + (j - i - 1))%nat with (j - 1)%nat by lia.
Qed.

(** The position [l] of [kc] in the sorted array. *)
Section at_position.
Context (l : nat).
Hypothesis (Hl : (l <= length (ks_high s))%nat)
  (Hbefore : forall i e, (i < l)%nat -> ks_high s !! i = Some e -> hk_keycode e < kc)
  (Hafter : forall i e, (l <= i)%nat -> ks_high s !! i = Some e -> kc < hk_keycode e)
  (Hhigh : XKB_KEYCODE_MAX_CONTIGUOUS < kc).

Lemma insert_at_elem e : e ∈ insert_at (ks_high s) l (mk_high kc n) <-> e = mk_high kc n \/ e ∈ ks_high s.
Proof using Hkc kc l n s.
  unfold insert_at. rewrite list.elem_of_app, list.elem_of_cons. rewrite <- (take_drop l (ks_high s)) at 3.
  rewrite list.elem_of_app. tauto.
Qed.

Lemma insert_at_sorted : high_sorted (insert_at (ks_high s) l (mk_high kc n)).
Proof using Hr Hl Hbefore Hafter.
  intros i j e e' Hij. rewrite !insert_at_lookup by done.
  destruct (decide (i = l)) as [->|Hi], (decide (j = l)) as [->|Hj]; try lia.
  - rewrite decide_False by lia. intros [= <-] He'. cbn. apply (Hafter (j - 1)); [lia|done].
  - rewrite decide_True by lia. intros He [= <-]. cbn. apply (Hbefore i); [lia|done].
  - intros He He'. eapply (rp_sorted s D Hr); [|exact He|exact He'].
    destruct (decide (i < l)%nat), (decide (j < l)%nat); lia.
Qed.

Lemma insert_at_represents names' :
  (forall k, entry_ok (mk_store (ks_min s) (ks_low s) (insert_at (ks_high s) l (mk_high kc n)) names')
     (set_key kc n D) k (nm names' k)) ->
  represents (mk_store (match ks_low s with [] => min_high (insert_at (ks_high s) l (mk_high kc n)) | _ => ks_min s end)
    (ks_low s) (insert_at (ks_high s) l (mk_high kc n)) names') (set_key kc n D).
Proof using Hr Hl Hbefore Hafter Hhigh Hkc Hn Hh.
  intros Hnames. split; cbn [ks_low ks_high ks_names ks_min].
  - by apply set_key_wf; [apply Hr|..].
  - intros j Hj. cbn [set_key kd_keys]. rewrite lookup_insert_ne by lia. by apply Hr.
  - apply Hr.
  - apply Hr.
  - apply insert_at_sorted.
  - intros kc' m Hkc'. rewrite insert_at_elem. cbn [set_key kd_keys]. destruct (decide (kc' = kc)) as [->|Hne].
    + rewrite lookup_insert_eq. split; [intros [= ->]; by left|]. intros [[= ->]|Hin]; [done|].
      apply (rp_high s D Hr) in Hin; [|done]. exfalso.
      apply (rp_high s D Hr) in Hin; [|done]. apply list_elem_of_lookup in Hin as [i Hi].
      destruct (decide (i < l)%nat) as [Hlt|Hge].
      * apply Hbefore in Hi; [cbn in Hi; lia|done].
      * apply Hafter in Hi; [cbn in Hi; lia|lia].
    + rewrite lookup_insert_ne by done. rewrite (rp_high s D Hr) by done. split; [by right|]. intros [[= ? ?]|Hin]; [congruence|done].
  - apply list.Forall_forall. intros e He%insert_at_elem. destruct He as [->|He]; [done|].
    pose proof (rp_high_range s D Hr) as Hrng. rewrite list.Forall_forall in Hrng. by apply Hrng.
  - pose proof (rp_min s D Hr) as Hm. unfold min_ok in *. cbn. by destruct (ks_low s).
  - intros k. specialize (Hnames k). unfold entry_ok in *. exact Hnames.
Qed.

Let f (i : nat) : nat := if decide (i < l)%nat then i else S i.

Lemma insert_at_moved i e : ks_high s !! i = Some e -> insert_at (ks_high s) l (mk_high kc n) !! f i = Some e.
Proof using Hl.
  intros He. rewrite insert_at_lookup by done. unfold f. destruct (decide (i < l)%nat).
  - rewrite decide_False by lia. by rewrite decide_True by lia.
  - rewrite decide_False by lia. rewrite decide_False by lia. by replace (S i - 1)%nat with i by lia.
Qed.

(** The names of the entries from [l] are moved. *)
Lemma moved_entries names' :
  nm names' n = mk_cmatch true false false (Z.of_nat l) ->
  (forall k, k <> n -> nm names' k = if decide (k ∈ map hk_name (drop l (ks_high s)))
     then set_value (cm_value (nm (ks_names s) k) + 1) (nm (ks_names s) k) else nm (ks_names s) k) ->
  forall k, entry_ok (mk_store (ks_min s) (ks_low s) (insert_at (ks_high s) l (mk_high kc n)) names')
     (set_key kc n D) k (nm names' k).
Proof using Hr Hl.
  intros Hself Hother. apply (set_key_entries _ _ f); cbn [ks_low ks_high].
  - done.
  - apply insert_at_moved.
  - rewrite Hself. exists l. split; [done|]. exists (mk_high kc n). split; [|done].
    cbn [ks_high cm_value]. rewrite insert_at_lookup by done. by rewrite decide_True.
  - intros k Hne. rewrite Hother by done. destruct (decide _) as [Hin|Hin]; [right|by left].
    apply list_elem_of_fmap in Hin as (e & -> & [j Hj]%list_elem_of_lookup). rewrite lookup_drop in Hj.
    destruct (high_key s D _ e Hr Hj) as [Hge Hk]. destruct (key_entry s D _ _ Hr Hk) as (Hf & Ha & i & Hv & Hi).
    exists i. split; [done|]. split; [done|]. destruct (cm_low _) eqn:Elow.
    { destruct Hi as [Heq Hi]. pose proof (rp_low_length s D Hr). apply (low_key s D) in Hi as [? _]; [lia|done]. }
    split; [done|]. split; [done|].
    assert (i = l + j)%nat as -> by (eapply (high_names_inj s D); [done|exact Hi|exact Hj|done]).
    unfold f. rewrite decide_False by lia. rewrite Hv. f_equal. lia.
  - intros k i e Heq Hf Ha Hlow Hv He Hne. unfold f. destruct (decide (i < l)%nat) as [|Hge]; [done|]. exfalso.
    pose proof (Hother k Hne) as Hk. rewrite decide_True in Hk.
    2: { pose proof (rp_names s D Hr k) as Hek. unfold entry_ok in Hek. rewrite Hf, Ha, Hlow in Hek.
         destruct Hek as (i' & Hv' & e' & He' & Hen). assert (i' = i) as -> by lia.
         apply list_elem_of_fmap. exists e'. split; [done|]. apply list_elem_of_lookup. exists (i - l)%nat.
         rewrite lookup_drop. by replace (l + (i - l))%nat with i by lia. }
    rewrite Heq in Hk. apply (f_equal cm_value) in Hk. cbn in Hk. lia.
Qed.
End at_position.

Lemma drop_names_NoDup l : NoDup (map hk_name (drop l (ks_high s))).
Proof using Hr.
  apply list.NoDup_alt. intros i j x Hi Hj. rewrite !list_lookup_fmap in *.
  destruct (drop l (ks_high s) !! i) as [e|] eqn:Ei; [|done]. destruct (drop l (ks_high s) !! j) as [e'|] eqn:Ej; [|done].
  rewrite lookup_drop in Ei, Ej. injection Hi as <-. injection Hj as Hj.
  pose proof (high_names_inj s D _ _ _ _ Hr Ei Ej (eq_sym Hj)). lia.
Qed.

Lemma insert_high : XKB_KEYCODE_MAX_CONTIGUOUS < kc ->
  exists s', keycode_store_insert_key s kc n = Ok s' /\ represents s' (set_key kc n D).
Proof using Hr Hkc Hn Hnew Hh.
  intros Hc. unfold keycode_store_insert_key. rewrite (proj2 (Z.leb_gt _ _)) by lia.
  pose proof (resize0_length no_match (ks_names s) (n + 1)) as Hlen.
  destruct (must_sort (ks_high s) kc) eqn:Hsort.
  - destruct (search_all s D kc Hr) as (pos & -> & Hpos). cbn [result_bind]. destruct pos as [mid|l].
    { destruct Hpos as (e & He & Hke). destruct (high_key s D _ _ Hr He) as [_ Hk]. congruence. }
    destruct Hpos as (Hl & Hb & Ha). unfold must_sort in Hsort.
    destruct (ks_high s !! (length (ks_high s) - 1)%nat) as [el|] eqn:El; [|done].
    rewrite Z.gtb_ltb in Hsort. apply Z.ltb_lt in Hsort. pose proof (lookup_lt_Some _ _ _ El) as Hlt.
    destruct (ks_high s !! l) as [e|] eqn:Ee.
    2: { apply lookup_ge_None in Ee. pose proof (Hb (length (ks_high s) - 1)%nat el ltac:(lia) El). lia. }
    assert ((hk_keycode e >? kc) = true) as Hgt by (rewrite Z.gtb_ltb; apply Z.ltb_lt; by apply (Ha l)).
    rewrite Hgt. cbn [asserting].
    destruct (move_entries_spec (drop l (ks_high s)) (resize0 no_match (ks_names s) (n + 1))) as (names1 & -> & Hl1 & Hn1).
    { apply drop_names_NoDup. }
    { apply list.Forall_forall. intros e' [j Hj]%list_elem_of_lookup. rewrite lookup_drop in Hj. rewrite nm_resize0.
      destruct (high_key s D _ _ Hr Hj) as [_ Hk]. by destruct (key_entry s D _ _ Hr Hk) as (? & _). }
    cbn [result_bind]. eexists. split; [done|]. apply insert_at_represents; try done.
    apply moved_entries; [done|..].
    + rewrite nm_insert by lia. by rewrite decide_True.
    + intros k Hne. rewrite nm_insert by lia. rewrite decide_False by done. rewrite Hn1. by rewrite nm_resize0.
  - assert (forall i e, ks_high s !! i = Some e -> hk_keycode e < kc) as Hb.
    { intros i e He. unfold must_sort in Hsort. pose proof (lookup_lt_Some _ _ _ He).
      destruct (ks_high s !! (length (ks_high s) - 1)%nat) as [el|] eqn:El; [|apply lookup_ge_None in El; lia].
      rewrite Z.gtb_ltb in Hsort. apply Z.ltb_ge in Hsort.
      assert (hk_keycode e <= hk_keycode el) as Hle.
      { destruct (decide (i = length (ks_high s) - 1)%nat) as [->|Hne]; [rewrite He in El; by injection El as ->|].
        pose proof (rp_sorted s D Hr i (length (ks_high s) - 1)%nat e el ltac:(lia) He El). lia. }
      destruct (high_key s D _ _ Hr He) as [_ Hk]. assert (hk_keycode e <> kc) by congruence. lia. }
    cbn [result_bind]. eexists. split; [done|].
    assert (ks_high s ++ [mk_high kc n] = insert_at (ks_high s) (length (ks_high s)) (mk_high kc n)) as ->.
    { unfold insert_at. rewrite take_ge, drop_ge by lia. done. }
    apply insert_at_represents; try done.
    + intros i e _. apply Hb.
    + intros i e Hi He%lookup_lt_Some. lia.
    + apply moved_entries; [done|..].
      * rewrite nm_insert by lia. by rewrite decide_True.
      * intros k Hne. rewrite nm_insert by lia. rewrite decide_False by done. rewrite drop_ge by lia.
        rewrite decide_False by (apply not_elem_of_nil). by rewrite nm_resize0.
Qed.

(** Inserting a new key. *)
Lemma insert_key_spec : exists s', keycode_store_insert_key s kc n = Ok s' /\ represents s' (set_key kc n D).
Proof using Hr Hkc Hn Hnew Hh.
  destruct (Z.le_gt_cases kc XKB_KEYCODE_MAX_CONTIGUOUS); [by apply insert_low|apply insert_high; lia].
Qed.
End insert.
