(* ===== verification/KeycodesDict.v ===== *)
(** * Statements and merges of keycodes on dictionaries

    A definition of a key or of an alias, and the merge of the dictionary of an
    included section, with the precedence of the merge mode. *)

From Stdlib Require Import ZArith Lia String.
From stdpp Require Import base tactics list numbers gmap.
From S2P Require Import Prelude Numbers Atom Keymap KeysymNames KeysymName Expr Vmod KeyAliases Derived Actions Sections Keycodes KeycodesStore.

(** ** Operations on dictionaries *)

Lemma kd_has_dec_spec D n :
  kd_has D n <-> map_Exists (fun _ m => m = n) (kd_keys D) \/ is_Some (kd_aliases D !! n).
Proof. unfold kd_has, map_Exists. split; (intros [H|H]; [left|by right]); destruct H as [kc H]; [eauto|]. destruct H as (m & H & ->). eauto. Qed.

#[global] Instance kd_has_dec D n : Decision (kd_has D n).
Proof. destruct (decide (map_Exists (fun _ m => m = n) (kd_keys D) \/ is_Some (kd_aliases D !! n))) as [H|H]; [left|right]; by rewrite kd_has_dec_spec. Defined.

(** No key and no alias is named [n]. *)
Definition dict_forget (n : Z) (D : keydict) : keydict := mk_keydict (drop_name n (kd_keys D)) (delete n (kd_aliases D)).

Definition dict_key (merge : merge_mode) (kc n : Z) (D : keydict) : keydict :=
  if clobbers merge then set_key kc n (dict_forget n D)
  else if decide (is_Some (kd_keys D !! kc) \/ kd_has D n) then D else set_key kc n D.

Definition dict_alias (merge : merge_mode) (a r : Z) (D : keydict) : keydict :=
  if clobbers merge then set_alias a r (dict_forget a D)
  else if decide (kd_has D a) then D else set_alias a r D.

Lemma drop_name_id D n : (forall kc, kd_keys D !! kc <> Some n) -> drop_name n (kd_keys D) = kd_keys D.
Proof.
  intros Hn. apply map_eq. intros kc. rewrite drop_name_lookup. destruct (kd_keys D !! kc) as [m|] eqn:E; [|done].
  destruct (decide (m = n)) as [->|]; [|done]. by destruct (Hn kc).
Qed.

Lemma forget_id D n : ~ kd_has D n -> dict_forget n D = D.
Proof.
  intros Hn. unfold dict_forget. rewrite drop_name_id by (intros kc Hk; apply Hn; left; by exists kc).
  rewrite delete_id; [by destruct D|]. destruct (kd_aliases D !! n) eqn:E; [|done]. destruct Hn. by right.
Qed.

Lemma forget_not_has D n : ~ kd_has (dict_forget n D) n.
Proof.
  intros [[kc H]|[r H]]; cbn in H.
  - rewrite drop_name_lookup in H. destruct (kd_keys D !! kc) as [m|]; [|done]. by destruct (decide (m = n)); simplify_eq.
  - by rewrite lookup_delete_eq in H.
Qed.

(** ** Renaming the key of a keycode *)

Section rename.
Context (s : KeycodeStore) (D : keydict) (kc n old : Z) (Hr : represents s D) (Hk : kd_keys D !! kc = Some old).
Hypothesis (Hne : old <> n) (Hn : 0 < n) (Hh : ~ kd_has D n).
Let D' := set_key kc n D.

Lemma rename_wf : dict_wf D'.
Proof using Hr Hk Hn Hh.
  apply set_key_wf; [apply Hr| |done|done]. by destruct (dw_keys D (rp_wf s D Hr) _ _ Hk).
Qed.

Lemma rename_not_has k : k = old \/ (k <> n /\ ~ kd_has D k) -> ~ kd_has D' k.
Proof using Hr Hk Hne.
  intros [->|[Hkn Hnh]].
  - intros [[kc' H]|H]; cbn in H.
    + apply lookup_insert_Some in H as [[_ ?]|[Hkc H]]; [congruence|]. by destruct (Hkc (dw_inj D (rp_wf s D Hr) _ _ _ Hk H)).
    + pose proof (dw_disjoint D (rp_wf s D Hr) _ _ Hk) as Hd. rewrite Hd in H. by destruct H.
  - intros H. apply Hnh. by eapply set_key_has.
Qed.

Lemma rename_represents s' m :
  ks_min s' = ks_min s -> length (ks_low s') = length (ks_low s) ->
  (forall j, low_at (ks_low s') j = if decide (Z.of_nat j = kc) then match low_at (ks_low s) j with Some _ => Some n | None => None end
             else low_at (ks_low s) j) ->
  (forall j e, ks_high s' !! j = Some e <-> exists e', ks_high s !! j = Some e' /\
     e = if decide (hk_keycode e' = kc) then mk_high kc n else e') ->
  entry_ok s' D' n m ->
  (forall k, nm (ks_names s') k = if decide (k = n) then m else if decide (k = old) then set_found false (nm (ks_names s) old)
             else nm (ks_names s) k) ->
  represents s' D'.
Proof using Hr Hk Hne Hn Hh.
  intros Hmin Hlen Hat Hhigh Hself Hnm. pose proof (rp_low_length s D Hr) as Hll.
  split; [apply rename_wf| |lia| | | | | |].
  - intros j Hj. rewrite Hat. cbn. destruct (decide (Z.of_nat j = kc)) as [<-|Hjk].
    + rewrite lookup_insert_eq. rewrite <- (rp_low s D Hr) by done. by rewrite Hk.
    + rewrite lookup_insert_ne by done. by apply Hr.
  - destruct (rp_low_last s D Hr) as [He|Hl].
    + left. apply nil_length_inv. by rewrite Hlen, He.
    + right. rewrite Hlen, Hat. destruct (decide _); [|done]. by destruct (low_at _ _).
  - intros i j e e' Hij (e1 & H1 & ->)%Hhigh (e2 & H2 & ->)%Hhigh. pose proof (rp_sorted s D Hr _ _ _ _ Hij H1 H2).
    destruct (decide (hk_keycode e1 = kc)), (decide (hk_keycode e2 = kc)); cbn; lia.
  - intros kc' x Hkc'. rewrite list_elem_of_lookup. split.
    + cbn. intros [[<- <-]|[Hk1 Hk2]]%lookup_insert_Some.
      * apply (rp_high s D Hr) in Hk; [|done]. apply list_elem_of_lookup in Hk as [j Hj]. exists j. apply Hhigh.
        eexists. split; [exact Hj|]. by rewrite decide_True.
      * apply (rp_high s D Hr) in Hk2; [|done]. apply list_elem_of_lookup in Hk2 as [j Hj]. exists j. apply Hhigh.
        eexists. split; [exact Hj|]. by rewrite decide_False.
    + intros [j (e & He & Hx)%Hhigh]. cbn. destruct (decide (hk_keycode e = kc)) as [Hek|Hek].
      * injection Hx as -> ->. by rewrite lookup_insert_eq.
      * subst e. cbn in Hek. rewrite lookup_insert_ne by done. by apply (high_key s D j _ Hr) in He as [_ ?].
  - apply list.Forall_forall. intros e [j (e' & He & ->)%Hhigh]%list_elem_of_lookup.
    apply (high_key s D j _ Hr) in He as [? _]. destruct (decide _) as [<-|]; cbn; lia.
  - pose proof (rp_min s D Hr) as Hm. unfold min_ok in *. rewrite Hmin.
    destruct (ks_low s) as [|x l] eqn:El, (ks_low s') as [|x' l'] eqn:El'; try done.
    + rewrite Hm. unfold min_high. destruct (ks_high s) as [|e h] eqn:Eh, (ks_high s') as [|e' h'] eqn:Eh'; try done.
      * destruct (proj1 (Hhigh 0%nat e') eq_refl) as (e1 & ? & _). done.
      * pose proof (proj2 (Hhigh 0%nat _) ltac:(exists e; split; [done|reflexivity])) as H. by destruct (decide _).
      * destruct (proj1 (Hhigh 0%nat e') eq_refl) as (e1 & [= <-] & ->). by destruct (decide (hk_keycode e = kc)).
    + destruct Hm as (mm & Hmm & Hd & Hz). exists mm. split; [done|]. rewrite Hat. split.
      * destruct (decide _); [|done]. by destruct (low_at _ _).
      * intros i Hi. rewrite Hat, Hz by done. by destruct (decide _).
  - intros k. rewrite Hnm. destruct (decide (k = n)) as [->|Hkn]; [done|]. unfold entry_ok.
    destruct (decide (k = old)) as [->|Hko]; [apply rename_not_has; by left|].
    pose proof (rp_names s D Hr k) as He. unfold entry_ok in He. destruct (cm_found (nm (ks_names s) k)).
    2: { apply rename_not_has. by right. }
    destruct (cm_is_alias _); [done|]. destruct He as (i & Hv & He). exists i. split; [done|]. destruct (cm_low _).
    + rewrite Hat. rewrite decide_False; [done|]. intros Hi. apply (low_key s D) in He as [_ He]; [|done].
      rewrite Hi in He. congruence.
    + destruct He as (e & He & Hen). exists e. split; [|done]. apply Hhigh. exists e. split; [done|].
      rewrite decide_False; [done|]. intros Hek. destruct (high_key s D _ _ Hr He) as [_ H]. congruence.
Qed.

Lemma rename_spec m : match_at s kc m ->
  exists s1 s2, keycode_store_delete_name s old = Ok s1 /\ keycode_store_update_key s1 m n = Ok s2 /\ represents s2 D'.
Proof using Hr Hk Hne Hn Hh.
  intros (Hf & Ha & i & Hv & Hi). destruct (key_entry s D kc old Hr Hk) as (Hfo & _).
  destruct (update_found (ks_names s) old (set_found false) Hfo) as (names1 & Hup & _ & Hn1).
  unfold keycode_store_delete_name. pose proof (item_range _ _ _ (nm_found _ _ Hfo)) as Hrng.
  rewrite (proj2 (Z.ltb_lt _ _)) by lia. rewrite Hup. exists (mk_store (ks_min s) (ks_low s) (ks_high s) names1).
  unfold keycode_store_update_key. rewrite Hf, Ha. cbn [negb orb].
  rewrite Hv. cbn [result_bind ks_low ks_high ks_names ks_min].
  assert (forall k, nm (put_name names1 n m) k = if decide (k = n) then m
    else if decide (k = old) then set_found false (nm (ks_names s) old) else nm (ks_names s) k) as Hnm.
  { intros k. rewrite nm_put by lia. by rewrite Hn1. }
  destruct (cm_low m) eqn:Elow.
  - destruct Hi as [Hkc Hlt]. rewrite (proj2 (Z.ltb_lt _ _)) by lia. cbn [asserting]. unfold update_item.
    rewrite item_nat. destruct (lookup_lt_is_Some_2 (ks_low s) i Hlt) as [x Hx]. rewrite Hx. cbn [result_bind].
    eexists. split; [done|]. split; [done|]. rewrite Nat2Z.id. apply (rename_represents _ m); cbn [ks_min ks_low ks_high ks_names].
    + done.
    + by rewrite length_insert.
    + intros j. rewrite low_at_insert by done. pose proof (rp_low_length s D Hr).
      assert (low_at (ks_low s) i = Some old) as Hio by (rewrite <- (rp_low s D Hr) by lia; by rewrite <- Hkc).
      destruct (decide (j = i)) as [->|Hj].
      * rewrite decide_True by done. rewrite Hio. unfold XKB_ATOM_NONE. by rewrite (proj2 (Z.eqb_neq n 0)) by lia.
      * by rewrite decide_False by lia.
    + intros j e. split; [|intros (e' & He' & ->)].
      * intros He. exists e. split; [done|]. destruct (high_key s D _ _ Hr He). pose proof (rp_low_length s D Hr).
        by rewrite decide_False by lia.
      * destruct (high_key s D _ _ Hr He'). pose proof (rp_low_length s D Hr). by rewrite decide_False by lia.
    + unfold entry_ok. rewrite Hf, Ha, Elow. exists i. split; [done|]. cbn [ks_low]. apply low_at_Some.
      rewrite list_lookup_insert_eq by done. split; [done|lia].
    + done.
  - destruct Hi as (e & He & Hek). pose proof (lookup_lt_Some _ _ _ He) as Hlt.
    rewrite (proj2 (Z.ltb_lt _ _)) by lia. cbn [asserting]. unfold update_item.
    rewrite item_nat, He. cbn [result_bind]. eexists. split; [done|]. split; [done|]. rewrite Nat2Z.id.
    apply (rename_represents _ m); cbn [ks_min ks_low ks_high ks_names]; try done.
    + intros j. destruct (high_key s D _ _ Hr He). pose proof (rp_low_length s D Hr).
      destruct (decide (Z.of_nat j = kc)); [|done]. unfold low_at. by rewrite lookup_ge_None_2 by lia.
    + intros j e'. rewrite Hek. destruct (decide (j = i)) as [->|Hj].
      * rewrite list_lookup_insert_eq by done. split.
        -- intros [= <-]. exists e. split; [done|]. by rewrite decide_True.
        -- intros (e1 & He1 & ->). rewrite He in He1. injection He1 as <-. by rewrite decide_True.
      * rewrite list_lookup_insert_ne by done. split.
        -- intros He'. exists e'. split; [done|]. rewrite decide_False; [done|]. intros Hk'.
           apply Hj. destruct (lt_eq_lt_dec i j) as [[H|H]|H]; [|done|].
           ++ pose proof (rp_sorted s D Hr _ _ _ _ H He He'). lia.
           ++ pose proof (rp_sorted s D Hr _ _ _ _ H He' He). lia.
        -- intros (e1 & He1 & ->). rewrite decide_False; [done|]. intros Hk'.
           apply Hj. destruct (lt_eq_lt_dec i j) as [[H|H]|H]; [|done|].
           ++ pose proof (rp_sorted s D Hr _ _ _ _ H He He1). lia.
           ++ pose proof (rp_sorted s D Hr _ _ _ _ H He1 He). lia.
    + unfold entry_ok. rewrite Hf, Ha, Elow. exists i. split; [done|]. cbn [ks_high]. eexists.
      split; [by apply list_lookup_insert_eq|]. done.
Qed.
End rename.

(** ** A definition of a key *)

Section definition.
Context (s : KeycodeStore) (D : keydict) (Hr : represents s D).

(** A name that is free, at a keycode that may be taken. *)
Lemma add_keycode_spec kc n merge m : 0 <= kc <= XKB_KEYCODE_MAX -> 0 < n -> ~ kd_has D n ->
  exists s', add_keycode s kc n merge m = Ok s' /\
    represents s' (if clobbers merge then set_key kc n D
                   else if decide (is_Some (kd_keys D !! kc)) then D else set_key kc n D).
Proof using Hr.
  intros Hkc Hn Hh. unfold add_keycode. destruct (lookup_keycode_spec s D kc Hr) as (mk & -> & Hname & Hmk); [lia|].
  cbn [result_bind]. rewrite Hname. cbn [result_bind]. destruct (kd_keys D !! kc) as [old|] eqn:Hk; cbn [default].
  - pose proof (dw_keys D (rp_wf s D Hr) _ _ Hk) as [_ Hold]. unfold XKB_ATOM_NONE.
    unfold default, id. rewrite (proj2 (Z.eqb_neq old 0)) by lia. cbn [negb].
    assert (old <> n) as Hne by (intros ->; apply Hh; left; by exists kc).
    rewrite (proj2 (Z.eqb_neq old n)) by done. destruct (clobbers merge).
    + destruct (rename_spec s D kc n old Hr Hk Hne Hn Hh mk) as (s1 & s2 & -> & Hs2 & Hr2); [by apply Hmk|].
      cbn [result_bind]. by exists s2.
    + exists s. split; [done|]. by rewrite decide_True.
  - unfold default. rewrite Z.eqb_refl. cbn [negb].
    destruct (insert_key_spec s D kc n Hr Hkc Hn Hk Hh) as (s' & -> & Hr'). exists s'. split; [done|].
    destruct (clobbers merge); [done|]. by rewrite decide_False by (by intros [? ?]).
Qed.

(** A definition of the same key again. *)
Lemma add_keycode_same kc n merge : kd_keys D !! kc = Some n -> add_keycode s kc n merge (nm (ks_names s) n) = Ok s.
Proof using Hr.
  intros Hk. pose proof (dw_keys D (rp_wf s D Hr) _ _ Hk) as [Hkc Hn]. unfold add_keycode.
  destruct (lookup_keycode_spec s D kc Hr) as (mk & -> & Hname & _); [lia|]. cbn [result_bind].
  rewrite Hname, Hk. cbn. unfold XKB_ATOM_NONE. rewrite (proj2 (Z.eqb_neq n 0)) by lia. cbn [negb].
  rewrite Z.eqb_refl, (get_keycode_spec s D kc n Hr Hk). cbn [result_bind]. by rewrite Z.eqb_refl.
Qed.
End definition.

Lemma set_key_same D kc n : dict_wf D -> kd_keys D !! kc = Some n -> set_key kc n (dict_forget n D) = D.
Proof.
  intros Hw Hk. unfold set_key, dict_forget. cbn. rewrite delete_id by (by apply (dw_disjoint D Hw kc)).
  assert (<[kc:=n]> (drop_name n (kd_keys D)) = kd_keys D) as ->; [|by destruct D].
  apply map_eq. intros k. destruct (decide (k = kc)) as [->|Hne]; [by rewrite lookup_insert_eq|].
  rewrite lookup_insert_ne by done. rewrite drop_name_lookup. destruct (kd_keys D !! k) as [m|] eqn:E; [|done].
  destruct (decide (m = n)) as [->|]; [|done]. by destruct (Hne (dw_inj D Hw _ _ _ E Hk)).
Qed.

Lemma AddKeyName_spec s D kc n merge : represents s D -> 0 <= kc <= XKB_KEYCODE_MAX -> 0 < n ->
  exists s', AddKeyName s kc n merge = Ok s' /\ represents s' (dict_key merge kc n D).
Proof.
  intros Hr Hkc Hn. unfold AddKeyName, dict_key. change (keycode_store_lookup_name s n) with (nm (ks_names s) n).
  destruct (cm_found (nm (ks_names s) n)) eqn:Hf.
  - pose proof (found_cases s D n Hr Hf) as Hc. destruct (cm_is_alias (nm (ks_names s) n)) eqn:Ha.
    + assert (forall kc, kd_keys D !! kc <> Some n) as Hnk.
      { intros k Hk. pose proof (dw_disjoint D (rp_wf s D Hr) _ _ Hk). congruence. }
      destruct (clobbers merge) eqn:Ecl.
      * destruct (delete_alias_spec s D n _ Hr Hc) as (s1 & -> & Hr1). cbn [result_bind].
        assert (dict_forget n D = drop_alias n D) as Hfd by (unfold dict_forget; by rewrite drop_name_id).
        rewrite Hfd. pose proof (forget_not_has D n) as Hnh. rewrite Hfd in Hnh.
        destruct (add_keycode_spec s1 _ Hr1 kc n merge (set_found false (nm (ks_names s) n)) Hkc Hn Hnh) as (s3 & Hs3 & Hr3).
        rewrite Ecl in Hr3. eauto.
      * exists s. split; [done|]. rewrite decide_True; [done|]. right. by right.
    + destruct Hc as [old_kc Hk]. rewrite (get_keycode_spec s D old_kc n Hr Hk). cbn [result_bind].
      pose proof (dw_keys D (rp_wf s D Hr) _ _ Hk) as [Hko _]. unfold XKB_KEYCODE_MAX in Hko.
      rewrite (proj2 (Z.eqb_neq old_kc XKB_KEYCODE_INVALID)) by (unfold XKB_KEYCODE_INVALID; lia). cbn [asserting negb].
      destruct (Z.eqb_spec old_kc kc) as [->|Hne]; cbn [negb].
      * rewrite (add_keycode_same s D Hr kc n merge Hk). exists s. split; [done|]. destruct (clobbers merge).
        -- by rewrite (set_key_same D kc n (rp_wf s D Hr) Hk).
        -- rewrite decide_True; [done|]. left. by eexists.
      * destruct (clobbers merge) eqn:Ecl.
        -- destruct (delete_key_spec s D old_kc n Hr Hk) as (s1 & -> & Hr1). cbn [result_bind].
           assert (dict_forget n D = mk_keydict (drop_name n (kd_keys D)) (kd_aliases D)) as Hfd.
           { unfold dict_forget. by rewrite delete_id by (by apply (dw_disjoint D (rp_wf s D Hr) old_kc)). }
           rewrite <- Hfd in Hr1.
           destruct (add_keycode_spec s1 _ Hr1 kc n merge (nm (ks_names s) n) Hkc Hn (forget_not_has D n)) as (s2 & Hs2 & Hr2).
           rewrite Ecl in Hr2. eauto.
        -- exists s. split; [done|]. rewrite decide_True; [done|]. right. left. by exists old_kc.
  - pose proof (not_found s D n Hr Hf) as Hh. destruct (add_keycode_spec s D Hr kc n merge (nm (ks_names s) n) Hkc Hn Hh) as (s' & Hs' & Hr').
    exists s'. split; [done|]. rewrite forget_id by done. destruct (clobbers merge); [done|].
    destruct (decide (is_Some (kd_keys D !! kc))) as [Hs|Hs].
    + rewrite decide_True; [done|]. by left.
    + rewrite decide_False; [done|]. by intros [?|?].
Qed.

Lemma HandleAliasDef_spec s D merge a r : represents s D -> 0 <= a ->
  exists s', HandleAliasDef s merge a r = Ok s' /\ represents s' (dict_alias merge a r D).
Proof.
  intros Hr Ha0. unfold HandleAliasDef, dict_alias. change (keycode_store_lookup_name s a) with (nm (ks_names s) a).
  destruct (cm_found (nm (ks_names s) a)) eqn:Hf.
  - pose proof (found_cases s D a Hr Hf) as Hc. destruct (cm_is_alias (nm (ks_names s) a)).
    + assert (forall kc, kd_keys D !! kc <> Some a) as Hnk.
      { intros k Hk. pose proof (dw_disjoint D (rp_wf s D Hr) _ _ Hk). congruence. }
      set (r0 := cm_value (nm (ks_names s) a)) in *.
      assert (forall r', set_alias a r' (dict_forget a D) = set_alias a r' D) as Hset.
      { intros r'. unfold set_alias, dict_forget. cbn. by rewrite drop_name_id, insert_delete_eq. }
      assert (set_alias a r0 D = D) as Hid by (unfold set_alias; rewrite insert_id by done; by destruct D).
      assert (kd_has D a) as Hhas by (right; by eexists).
      destruct (Z.eqb_spec r r0) as [->|Hne].
      * exists s. split; [done|]. rewrite Hset, Hid. destruct (clobbers merge); [done|]. by rewrite decide_True.
      * destruct (update_alias_spec s D a (if clobbers merge then r else r0) r0 Hr Hc) as (s' & -> & Hr').
        exists s'. split; [done|]. destruct (clobbers merge); [by rewrite Hset|]. rewrite Hid in Hr'. by rewrite decide_True.
    + destruct Hc as [kc Hk]. destruct (clobbers merge).
      * destruct (delete_key_spec s D kc a Hr Hk) as (s1 & -> & Hr1). cbn [result_bind]. eexists. split; [done|].
        assert (dict_forget a D = mk_keydict (drop_name a (kd_keys D)) (kd_aliases D)) as Hfd.
        { unfold dict_forget. by rewrite delete_id by (by apply (dw_disjoint D (rp_wf s D Hr) kc)). }
        rewrite <- Hfd in Hr1. apply insert_alias_spec; [done|done|]. intros k Hka. apply (forget_not_has D a). left. by exists k.
      * exists s. split; [done|]. rewrite decide_True; [done|]. left. by exists kc.
  - pose proof (not_found s D a Hr Hf) as Hh. eexists. split; [done|]. rewrite forget_id by done.
    assert (represents (keycode_store_insert_alias s a r) (set_alias a r D)) as H.
    { apply insert_alias_spec; [done|done|]. intros kc Hk. apply Hh. left. by exists kc. }
    destruct (clobbers merge); [done|]. by rewrite decide_False.
Qed.

(** ** Union of dictionaries

    [from] wins, unless the merge mode is augment: what is kept of the other
    dictionary has neither a keycode nor a name of the winner. *)

Definition biased_union (winner other : keydict) : keydict :=
  mk_keydict (kd_keys winner ∪ filter (fun p => ~ kd_has winner p.2) (kd_keys other))
    (kd_aliases winner ∪ filter (fun p => ~ kd_has winner p.1) (kd_aliases other)).

Definition dict_merge (merge : merge_mode) (into from : keydict) : keydict :=
  if clobbers merge then biased_union from into else biased_union into from.

Lemma filter_lookup (P : Z * Z -> Prop) `{!forall p, Decision (P p)} (m : gmap Z Z) k :
  filter P m !! k = match m !! k with Some v => if decide (P (k, v)) then Some v else None | None => None end.
Proof.
  destruct (m !! k) as [v|] eqn:E.
  - destruct (decide (P (k, v))) as [Hp|Hp].
    + by apply map_lookup_filter_Some.
    + apply map_lookup_filter_None. right. intros v' Hv'. rewrite E in Hv'. by injection Hv' as <-.
  - apply map_lookup_filter_None. by left.
Qed.

Lemma union_keys W O k : kd_keys (biased_union W O) !! k =
  match kd_keys W !! k with Some n => Some n
  | None => match kd_keys O !! k with Some n => if decide (kd_has W n) then None else Some n | None => None end end.
Proof.
  cbn. rewrite lookup_union, filter_lookup. cbn. destruct (kd_keys W !! k), (kd_keys O !! k) as [n|]; cbn; try done.
  - by destruct (decide _).
  - by destruct (decide (~ kd_has W n)), (decide (kd_has W n)).
Qed.

Lemma union_aliases W O a : kd_aliases (biased_union W O) !! a =
  match kd_aliases W !! a with Some r => Some r
  | None => match kd_aliases O !! a with Some r => if decide (kd_has W a) then None else Some r | None => None end end.
Proof.
  cbn. rewrite lookup_union, filter_lookup. cbn. destruct (kd_aliases W !! a), (kd_aliases O !! a) as [r|]; cbn; try done.
  - by destruct (decide _).
  - by destruct (decide (~ kd_has W a)), (decide (kd_has W a)).
Qed.

Lemma keydict_eq D D' : (forall k, kd_keys D !! k = kd_keys D' !! k) ->
  (forall a, kd_aliases D !! a = kd_aliases D' !! a) -> D = D'.
Proof. intros Hk Ha. destruct D, D'. f_equal; by apply map_eq. Qed.

Lemma not_has_empty n : ~ kd_has kd_empty n.
Proof. intros [[kc H]|[r H]]; cbn in H; by rewrite lookup_empty in H. Qed.

Lemma merge_empty merge I : dict_merge merge I kd_empty = I.
Proof.
  unfold dict_merge. destruct (clobbers merge); apply keydict_eq; intros k; rewrite ?union_keys, ?union_aliases; cbn;
    rewrite !lookup_empty.
  - destruct (kd_keys I !! k); [|done]. by rewrite decide_False by apply not_has_empty.
  - destruct (kd_aliases I !! k); [|done]. by rewrite decide_False by apply not_has_empty.
  - by destruct (kd_keys I !! k).
  - by destruct (kd_aliases I !! k).
Qed.

Lemma empty_merge merge F : dict_merge merge kd_empty F = F.
Proof.
  unfold dict_merge. destruct (clobbers merge); apply keydict_eq; intros k; rewrite ?union_keys, ?union_aliases; cbn;
    rewrite !lookup_empty.
  - by destruct (kd_keys F !! k).
  - by destruct (kd_aliases F !! k).
  - destruct (kd_keys F !! k); [|done]. by rewrite decide_False by apply not_has_empty.
  - destruct (kd_aliases F !! k); [|done]. by rewrite decide_False by apply not_has_empty.
Qed.

Lemma has_set_key F kc n k : kd_keys F !! kc = None -> kd_has (set_key kc n F) k <-> k = n \/ kd_has F k.
Proof.
  intros Hf. split.
  - intros H. destruct (decide (k = n)); [by left|]. right. by eapply set_key_has.
  - intros [->|[[kc' H]|H]].
    + left. exists kc. cbn. by rewrite lookup_insert_eq.
    + left. exists kc'. cbn. rewrite lookup_insert_ne; [done|]. intros ->. congruence.
    + by right.
Qed.

Lemma has_set_alias F a r k : kd_has (set_alias a r F) k <-> k = a \/ kd_has F k.
Proof.
  unfold kd_has. cbn. destruct (decide (k = a)) as [->|Hne].
  - rewrite lookup_insert_eq. split; [by left|]. intros _. right. by eexists.
  - rewrite lookup_insert_ne by done. tauto.
Qed.

Lemma has_union W O n : kd_has W n -> kd_has (biased_union W O) n.
Proof.
  intros [[kc H]|[r H]]; [left; exists kc; by rewrite union_keys, H|right; rewrite union_aliases, H; by eexists].
Qed.

Lemma has_union_inv W O n : kd_has (biased_union W O) n -> kd_has W n \/ kd_has O n.
Proof.
  intros [[kc H]|[r H]].
  - rewrite union_keys in H. destruct (kd_keys W !! kc) eqn:E; [left; left; exists kc; congruence|].
    destruct (kd_keys O !! kc) as [m|] eqn:E'; [|done]. destruct (decide _); [done|]. right. left. exists kc. congruence.
  - rewrite union_aliases in H. destruct (kd_aliases W !! n) eqn:E; [left; right; by eexists|].
    destruct (kd_aliases O !! n) eqn:E'; [|done]. right. right. by eexists.
Qed.

Ltac decide_all := repeat match goal with |- context [decide ?P] => destruct (decide P) end; try done; try tauto; try congruence.

(** Merging one more key. *)
Lemma merge_key merge I F kc n : kd_keys F !! kc = None -> ~ kd_has F n ->
  dict_key merge kc n (dict_merge merge I F) = dict_merge merge I (set_key kc n F).
Proof.
  intros Hkc Hn. pose proof (fun k => has_set_key F kc n k Hkc) as Hhas.
  assert (forall k, kd_keys F !! k <> Some n) as Hnk by (intros k Hk; apply Hn; left; by exists k).
  assert (kd_aliases F !! n = None) as Hna by (destruct (kd_aliases F !! n) eqn:E; [destruct Hn; right; by eexists|done]).
  unfold dict_key, dict_merge. destruct (clobbers merge).
  - apply keydict_eq; intros k; rewrite ?union_keys, ?union_aliases; cbn [set_key dict_forget kd_keys kd_aliases].
    + destruct (decide (k = kc)) as [->|Hne]; [by rewrite !lookup_insert_eq|]. rewrite !lookup_insert_ne by done.
      rewrite drop_name_lookup, union_keys. specialize (Hnk k).
      destruct (kd_keys F !! k) as [m|]; [by rewrite decide_False by congruence|].
      destruct (kd_keys I !! k) as [m|]; [|done]. specialize (Hhas m).
      destruct (decide (kd_has (set_key kc n F) m)), (decide (kd_has F m)); try tauto.
      all: destruct (decide (m = n)); tauto.
    + specialize (Hhas k). destruct (decide (k = n)) as [->|Hne].
      * rewrite lookup_delete_eq, Hna. destruct (kd_aliases I !! n); [|done]. by rewrite decide_True by tauto.
      * rewrite lookup_delete_ne by done. rewrite union_aliases. destruct (kd_aliases F !! k); [done|].
        destruct (kd_aliases I !! k); [|done]. decide_all.
  - assert (is_Some (kd_keys (biased_union I F) !! kc) <-> is_Some (kd_keys I !! kc)) as H1.
    { rewrite union_keys, Hkc. by destruct (kd_keys I !! kc). }
    assert (kd_has (biased_union I F) n <-> kd_has I n) as H2.
    { split; [|apply has_union]. by intros [?|?]%has_union_inv. }
    assert (forall a, kd_aliases (biased_union I F) !! a = kd_aliases (biased_union I (set_key kc n F)) !! a) as Hal
      by (intros a; by rewrite !union_aliases).
    destruct (decide (is_Some (kd_keys (biased_union I F) !! kc) \/ kd_has (biased_union I F) n)) as [Hd|Hd];
      rewrite H1, H2 in Hd; (apply keydict_eq; [intros k|exact Hal]).
    + rewrite !union_keys. destruct (kd_keys I !! k) eqn:E; [done|]. change (kd_keys (set_key kc n F)) with (<[kc := n]> (kd_keys F)).
      destruct (decide (k = kc)) as [->|Hne]; [|by rewrite lookup_insert_ne].
      rewrite lookup_insert_eq, Hkc. rewrite decide_True; [done|]. destruct Hd as [[? ?]|?]; [congruence|done].
    + change (kd_keys (set_key kc n (biased_union I F))) with (<[kc := n]> (kd_keys (biased_union I F))).
      destruct (decide (k = kc)) as [->|Hne]; rewrite !union_keys; change (kd_keys (set_key kc n F)) with (<[kc := n]> (kd_keys F)).
      * rewrite !lookup_insert_eq. destruct (kd_keys I !! kc); [destruct Hd; left; by eexists|]. by rewrite decide_False by tauto.
      * rewrite !lookup_insert_ne by done. by rewrite union_keys.
Qed.

(** Merging one more alias. *)
Lemma merge_alias merge I F a r : ~ kd_has F a ->
  dict_alias merge a r (dict_merge merge I F) = dict_merge merge I (set_alias a r F).
Proof.
  intros Hn. pose proof (has_set_alias F a r) as Hhas.
  assert (forall k, kd_keys F !! k <> Some a) as Hnk by (intros k Hk; apply Hn; left; by exists k).
  assert (kd_aliases F !! a = None) as Hna by (destruct (kd_aliases F !! a) eqn:E; [destruct Hn; right; by eexists|done]).
  unfold dict_alias, dict_merge. destruct (clobbers merge).
  - apply keydict_eq; intros k; rewrite ?union_keys, ?union_aliases; cbn [set_alias dict_forget kd_keys kd_aliases].
    + rewrite drop_name_lookup, union_keys. specialize (Hnk k).
      destruct (kd_keys F !! k) as [m|]; [by rewrite decide_False by congruence|].
      destruct (kd_keys I !! k) as [m|]; [|done]. specialize (Hhas m).
      destruct (decide (kd_has (set_alias a r F) m)), (decide (kd_has F m)); try tauto.
      all: destruct (decide (m = a)); tauto.
    + destruct (decide (k = a)) as [->|Hne]; [by rewrite !lookup_insert_eq|]. rewrite !lookup_insert_ne by done.
      rewrite lookup_delete_ne by done. rewrite union_aliases. specialize (Hhas k). destruct (kd_aliases F !! k); [done|].
      destruct (kd_aliases I !! k); [|done]. decide_all.
  - assert (kd_has (biased_union I F) a <-> kd_has I a) as H2.
    { split; [|apply has_union]. by intros [?|?]%has_union_inv. }
    assert (forall k, kd_keys (biased_union I F) !! k = kd_keys (biased_union I (set_alias a r F)) !! k) as Hks
      by (intros k; by rewrite !union_keys).
    destruct (decide (kd_has (biased_union I F) a)) as [Hd|Hd]; rewrite H2 in Hd; (apply keydict_eq; [exact Hks|intros k]).
    + rewrite !union_aliases. destruct (kd_aliases I !! k); [done|].
      change (kd_aliases (set_alias a r F)) with (<[a := r]> (kd_aliases F)).
      destruct (decide (k = a)) as [->|Hne]; [|by rewrite lookup_insert_ne].
      rewrite lookup_insert_eq, Hna. by rewrite decide_True.
    + change (kd_aliases (set_alias a r (biased_union I F))) with (<[a := r]> (kd_aliases (biased_union I F))).
      destruct (decide (k = a)) as [->|Hne]; rewrite !union_aliases; change (kd_aliases (set_alias a r F)) with (<[a := r]> (kd_aliases F)).
      * rewrite !lookup_insert_eq. destruct (kd_aliases I !! a) eqn:E; [destruct Hd; right; by eexists|]. by rewrite decide_False.
      * rewrite !lookup_insert_ne by done. by rewrite union_aliases.
Qed.

(** ** The merge of stores *)

(** The definitions of a store, in the order of the merge. *)
Fixpoint low_pairs (low : list Z) (kc : Z) : list (Z * Z) :=
  match low with
  | [] => []
  | name :: low => (if name =? XKB_ATOM_NONE then [] else [(kc, name)]) ++ low_pairs low (kc + 1)
  end.

Definition high_pairs (high : list HighKeycodeEntry) : list (Z * Z) := map (fun e => (hk_keycode e, hk_name e)) high.

Fixpoint alias_pairs (names : list keycode_match) (alias : Z) : list (Z * Z) :=
  match names with
  | [] => []
  | m :: names => (if negb (cm_found m) || negb (cm_is_alias m) then [] else [(alias, cm_value m)]) ++ alias_pairs names (alias + 1)
  end.

Fixpoint add_keys (into : KeycodeStore) (l : list (Z * Z)) (merge : merge_mode) : result KeycodeStore :=
  match l with
  | [] => Ok into
  | (kc, n) :: l => let+ into := AddKeyName into kc n merge in add_keys into l merge
  end.

Fixpoint add_aliases (into : KeycodeStore) (l : list (Z * Z)) (merge : merge_mode) : result KeycodeStore :=
  match l with
  | [] => Ok into
  | (a, r) :: l => let+ into := HandleAliasDef into merge a r in add_aliases into l merge
  end.

Lemma merge_low_pairs low : forall into kc merge, merge_low into low kc merge = add_keys into (low_pairs low kc) merge.
Proof.
  induction low as [|n low IH]; intros into kc merge; cbn [merge_low low_pairs]; [done|].
  destruct (n =? XKB_ATOM_NONE); cbn; [by rewrite IH|]. destruct (AddKeyName into kc n merge); cbn; [by rewrite IH|done].
Qed.

Lemma merge_high_pairs high : Forall (fun e => 0 < hk_name e) high -> forall into merge,
  merge_high into high merge = add_keys into (high_pairs high) merge.
Proof.
  induction 1 as [|e high He _ IH]; intros into merge; cbn; [done|]. unfold XKB_ATOM_NONE.
  rewrite (proj2 (Z.eqb_neq _ 0)) by lia. cbn. destruct (AddKeyName _ _ _ _); cbn; [by rewrite IH|done].
Qed.

Lemma merge_aliases_pairs names : forall into a merge, merge_aliases into names a merge = add_aliases into (alias_pairs names a) merge.
Proof.
  induction names as [|m names IH]; intros into a merge; cbn [merge_aliases alias_pairs]; [done|].
  destruct (negb (cm_found m) || negb (cm_is_alias m)); cbn; [by rewrite IH|].
  destruct (HandleAliasDef into merge a (cm_value m)); cbn; [by rewrite IH|done].
Qed.

Lemma add_keys_app l l' : forall into merge,
  add_keys into (l ++ l') merge = result_bind (add_keys into l merge) (fun into => add_keys into l' merge).
Proof.
  induction l as [|[kc n] l IH]; intros into merge; cbn; [done|]. destruct (AddKeyName _ _ _ _); cbn; [by rewrite IH|done].
Qed.

Lemma low_pairs_elem low : forall k kc n,
  (kc, n) ∈ low_pairs low k <-> exists i, kc = k + Z.of_nat i /\ low_at low i = Some n.
Proof.
  induction low as [|x low IH]; intros k kc n; cbn [low_pairs].
  - split; [by intros ?%elem_of_nil|]. intros (i & _ & H). unfold low_at in H. by rewrite lookup_nil in H.
  - rewrite list.elem_of_app, IH. split.
    + intros [H|(i & -> & Hi)].
      * destruct (Z.eqb_spec x XKB_ATOM_NONE) as [|Hx]; [by apply elem_of_nil in H|].
        apply list.elem_of_cons in H as [[= -> ->]|H%elem_of_nil]; [|done]. exists 0%nat. split; [lia|]. unfold low_at. cbn.
        by rewrite (proj2 (Z.eqb_neq _ _)).
      * exists (S i). split; [lia|done].
    + intros ([|i] & -> & Hi).
      * left. unfold low_at in Hi. cbn in Hi. destruct (x =? XKB_ATOM_NONE); [done|]. injection Hi as ->.
        rewrite Z.add_0_r. by left.
      * right. exists i. split; [lia|done].
Qed.

Lemma low_pairs_NoDup low : forall k, NoDup (low_pairs low k).*1.
Proof.
  induction low as [|x low IH]; intros k; cbn [low_pairs]; [by apply NoDup_nil|]. rewrite fmap_app. apply list.NoDup_app.
  split; [destruct (x =? XKB_ATOM_NONE); [by apply NoDup_nil|by apply list.NoDup_singleton]|]. split; [|apply IH].
  intros kc H1 H2. apply list_elem_of_fmap in H2 as ([kc' n] & -> & (i & Hi & _)%low_pairs_elem).
  destruct (x =? XKB_ATOM_NONE); [by apply elem_of_nil in H1|]. cbn in *.
  apply list.elem_of_cons in H1 as [H1|H1%elem_of_nil]; [lia|done].
Qed.

Lemma high_pairs_NoDup high : high_sorted high -> NoDup (high_pairs high).*1.
Proof.
  intros Hs. apply list.NoDup_alt. intros i j x Hi Hj. unfold high_pairs in *.
  rewrite !list_lookup_fmap in Hi, Hj. destruct (high !! i) as [e|] eqn:Ei; [|done]. destruct (high !! j) as [e'|] eqn:Ej; [|done].
  cbn in *. simplify_eq. destruct (lt_eq_lt_dec i j) as [[H|H]|H]; [|done|].
  - pose proof (Hs _ _ _ _ H Ei Ej). lia.
  - pose proof (Hs _ _ _ _ H Ej Ei). lia.
Qed.

Lemma alias_pairs_elem names : forall k a r,
  (a, r) ∈ alias_pairs names k <-> exists i m, a = k + Z.of_nat i /\ names !! i = Some m /\
    cm_found m = true /\ cm_is_alias m = true /\ cm_value m = r.
Proof.
  induction names as [|x names IH]; intros k a r; cbn [alias_pairs].
  - split; [by intros ?%elem_of_nil|]. intros (i & m & _ & H & _). by rewrite lookup_nil in H.
  - rewrite list.elem_of_app, IH. split.
    + intros [H|(i & m & -> & Hi)].
      * destruct (cm_found x) eqn:Ef, (cm_is_alias x) eqn:Ea; cbn in H; try (by apply elem_of_nil in H).
        apply list.elem_of_cons in H as [[= -> ->]|H%elem_of_nil]; [|done]. exists 0%nat, x. split; [lia|done].
      * exists (S i), m. split; [lia|done].
    + intros ([|i] & m & -> & Hi & Hf & Ha & Hv).
      * left. injection Hi as ->. rewrite Hf, Ha. cbn. rewrite Z.add_0_r, Hv. by left.
      * right. exists i, m. split; [lia|done].
Qed.

Lemma alias_pairs_NoDup names : forall k, NoDup (alias_pairs names k).*1.
Proof.
  induction names as [|x names IH]; intros k; cbn [alias_pairs]; [by apply NoDup_nil|]. rewrite fmap_app. apply list.NoDup_app.
  split; [destruct (_ || _); [by apply NoDup_nil|by apply list.NoDup_singleton]|]. split; [|apply IH].
  intros a H1 H2. apply list_elem_of_fmap in H2 as ([a' r] & -> & (i & m & Hi & _)%alias_pairs_elem).
  destruct (_ || _); [by apply elem_of_nil in H1|]. cbn in *.
  apply list.elem_of_cons in H1 as [H1|H1%elem_of_nil]; [lia|done].
Qed.

Section merging.
Context (merge : merge_mode) (I F : keydict) (Hw : dict_wf F).

(** The keys [l] of [F] are merged, then the aliases [l']. *)
Lemma add_keys_spec l : forall s K,
  represents s (dict_merge merge I (mk_keydict K ∅)) ->
  (forall kc n, (kc, n) ∈ l -> kd_keys F !! kc = Some n) -> NoDup l.*1 ->
  (forall kc n, K !! kc = Some n -> kd_keys F !! kc = Some n) ->
  (forall kc, kc ∈ l.*1 -> K !! kc = None) ->
  exists s', add_keys s l merge = Ok s' /\
    represents s' (dict_merge merge I (mk_keydict (list_to_map (rev l) ∪ K) ∅)).
Proof using Hw.
  induction l as [|[kc n] l IH]; intros s K Hr Hl Hnd HK Hfresh; cbn [add_keys].
  { exists s. split; [done|]. cbn. by rewrite map_empty_union. }
  cbn in Hnd. apply list.NoDup_cons in Hnd as [Hni Hnd].
  assert (kd_keys F !! kc = Some n) as Hk by (apply Hl; by left).
  assert (K !! kc = None) as HKc by (apply Hfresh; by left).
  destruct (dw_keys F Hw _ _ Hk) as [Hkc Hn].
  destruct (AddKeyName_spec s _ kc n merge Hr Hkc Hn) as (s1 & -> & Hr1). cbn [result_bind].
  rewrite merge_key in Hr1; [|done|].
  2: { intros [[kc' H]|[r H]]; cbn in H; [|by rewrite lookup_empty in H]. pose proof (dw_inj F Hw _ _ _ (HK _ _ H) Hk). congruence. }
  destruct (IH s1 (<[kc := n]> K)) as (s2 & -> & Hr2); [done| |done| | |].
  - intros kc' n' H. apply Hl. by right.
  - intros kc' n' [[<- <-]|[_ H]]%lookup_insert_Some; [done|by apply HK].
  - intros kc' H. rewrite lookup_insert_ne by (intros ->; done). apply Hfresh. by right.
  - exists s2. split; [done|]. cbn [rev]. assert (list_to_map (rev l ++ [(kc, n)]) ∪ K =
      (list_to_map (rev l) : gmap Z Z) ∪ <[kc := n]> K) as ->; [|done].
    rewrite list_to_map_app. rewrite <- map_union_assoc. f_equal. cbn. by rewrite insert_empty, insert_union_singleton_l.
Qed.

Lemma add_aliases_spec l : forall s A,
  represents s (dict_merge merge I (mk_keydict (kd_keys F) A)) ->
  (forall a r, (a, r) ∈ l -> kd_aliases F !! a = Some r) -> NoDup l.*1 ->
  (forall a, a ∈ l.*1 -> A !! a = None) ->
  exists s', add_aliases s l merge = Ok s' /\
    represents s' (dict_merge merge I (mk_keydict (kd_keys F) (list_to_map (rev l) ∪ A))).
Proof using Hw.
  induction l as [|[a r] l IH]; intros s A Hr Hl Hnd Hfresh; cbn [add_aliases].
  { exists s. split; [done|]. cbn. by rewrite map_empty_union. }
  cbn in Hnd. apply list.NoDup_cons in Hnd as [Hni Hnd].
  assert (kd_aliases F !! a = Some r) as Ha by (apply Hl; by left).
  assert (A !! a = None) as HA by (apply Hfresh; by left).
  destruct (HandleAliasDef_spec s _ merge a r Hr) as (s1 & -> & Hr1); [by apply (dw_aliases F Hw _ _ Ha)|]. cbn [result_bind].
  rewrite merge_alias in Hr1.
  2: { intros [[kc H]|[r' H]]; cbn in H; [|congruence]. pose proof (dw_disjoint F Hw _ _ H). congruence. }
  destruct (IH s1 (<[a := r]> A)) as (s2 & -> & Hr2); [done| |done| |].
  - intros a' r' H. apply Hl. by right.
  - intros a' H. rewrite lookup_insert_ne by (intros ->; done). apply Hfresh. by right.
  - exists s2. split; [done|]. cbn [rev]. assert (list_to_map (rev l ++ [(a, r)]) ∪ A =
      (list_to_map (rev l) : gmap Z Z) ∪ <[a := r]> A) as ->; [|done].
    rewrite list_to_map_app. rewrite <- map_union_assoc. f_equal. cbn. by rewrite insert_empty, insert_union_singleton_l.
Qed.
End merging.

Lemma list_to_map_rev (l : list (Z * Z)) (m : gmap Z Z) : NoDup l.*1 ->
  (forall k v, m !! k = Some v <-> (k, v) ∈ l) -> list_to_map (rev l) = m.
Proof.
  intros Hnd Hm. apply map_eq. intros k. apply option_eq. intros v. rewrite Hm.
  assert (rev l ≡ₚ l) as Hp by (symmetry; apply Permutation_rev).
  rewrite <- elem_of_list_to_map; [by rewrite Hp|]. by rewrite Hp.
Qed.

(** What a store represents is the list of its definitions. *)
Section store_pairs.
Context (s : KeycodeStore) (D : keydict) (Hr : represents s D).

Definition store_keys : list (Z * Z) :=
  low_pairs (drop (Z.to_nat (Z.min (ks_min s) (Z.of_nat (length (ks_low s))))) (ks_low s)) (ks_min s) ++
  high_pairs (ks_high s).

Lemma low_at_drop low m i : low_at (drop m low) i = low_at low (m + i).
Proof using Type. unfold low_at. by rewrite lookup_drop. Qed.

Lemma high_pairs_elem kc n : (kc, n) ∈ high_pairs (ks_high s) <-> mk_high kc n ∈ ks_high s.
Proof using Type.
  unfold high_pairs. rewrite list_elem_of_fmap. split.
  - intros (e & [= -> ->] & He). by destruct e.
  - intros He. by exists (mk_high kc n).
Qed.

Lemma store_low_elem kc n :
  (kc, n) ∈ low_pairs (drop (Z.to_nat (Z.min (ks_min s) (Z.of_nat (length (ks_low s))))) (ks_low s)) (ks_min s) <->
  exists i, kc = Z.of_nat i /\ low_at (ks_low s) i = Some n.
Proof using Hr.
  rewrite low_pairs_elem. destruct (decide (ks_low s = [])) as [He|He].
  { rewrite He, drop_nil. split; intros (i & _ & H); unfold low_at in H; by rewrite lookup_nil in H. }
  destruct (min_ok_low s (rp_min s D Hr) He) as (m & Hm & Hd & Hz).
  assert (m < length (ks_low s))%nat as Hlt.
  { destruct (low_at (ks_low s) m) as [x|] eqn:E; [|done]. apply low_at_Some in E as [E%lookup_lt_Some _]. done. }
  replace (Z.to_nat (Z.min (ks_min s) (Z.of_nat (length (ks_low s))))) with m by lia. split.
  - intros (i & -> & Hi). rewrite low_at_drop in Hi. exists (m + i)%nat. split; [lia|done].
  - intros (i & -> & Hi). exists (i - m)%nat. assert (m <= i)%nat.
    { destruct (decide (i < m)%nat) as [H|H]; [rewrite Hz in Hi by done; done|lia]. }
    rewrite low_at_drop. split; [lia|]. by replace (m + (i - m))%nat with i by lia.
Qed.

Lemma store_keys_elem kc n : (kc, n) ∈ store_keys <-> kd_keys D !! kc = Some n.
Proof using Hr.
  unfold store_keys. rewrite list.elem_of_app, store_low_elem, high_pairs_elem. pose proof (rp_low_length s D Hr) as Hll. split.
  - intros [(i & -> & Hi)|Hi].
    + by apply (low_key s D) in Hi as [_ Hi].
    + apply list_elem_of_lookup in Hi as [j Hj]. by apply (high_key s D _ _ Hr) in Hj as [_ Hj].
  - intros Hk. destruct (Z.le_gt_cases kc XKB_KEYCODE_MAX_CONTIGUOUS) as [Hle|Hgt].
    + left. exists (Z.to_nat kc). pose proof (dw_keys D (rp_wf s D Hr) _ _ Hk) as [? _]. split; [lia|].
      rewrite <- (rp_low s D Hr) by lia. by rewrite Z2Nat.id by lia.
    + right. apply (rp_high s D Hr); [lia|done].
Qed.

Lemma store_keys_NoDup : NoDup store_keys.*1.
Proof using Hr.
  unfold store_keys. rewrite fmap_app. apply list.NoDup_app. split; [apply low_pairs_NoDup|].
  split; [|apply high_pairs_NoDup, Hr]. intros kc H1 H2.
  apply list_elem_of_fmap in H1 as ([k n] & -> & (i & -> & Hi)%store_low_elem).
  apply list_elem_of_fmap in H2 as ([k' n'] & Heq & (j & Hj)%high_pairs_elem%list_elem_of_lookup). cbn in Heq. subst k'.
  apply (high_key s D _ _ Hr) in Hj as [Hj _]. apply (low_key s D) in Hi as [Hi _]; [|done].
  pose proof (rp_low_length s D Hr). cbn in Hj. lia.
Qed.

Lemma store_aliases_elem a r : (a, r) ∈ alias_pairs (ks_names s) 0 <-> kd_aliases D !! a = Some r.
Proof using Hr.
  rewrite alias_pairs_elem. split.
  - intros (i & m & -> & Hi & Hf & Ha & Hv). assert (nm (ks_names s) (0 + Z.of_nat i) = m) as Hm.
    { unfold nm. rewrite Z.add_0_l, item_nat, Hi. done. }
    pose proof (rp_names s D Hr (0 + Z.of_nat i)) as He. unfold entry_ok in He. rewrite Hm, Hf, Ha in He. by rewrite He, Hv.
  - intros Ha. destruct (alias_entry s D a r Hr Ha) as (Hf & Hal & Hv). pose proof (dw_aliases D (rp_wf s D Hr) _ _ Ha).
    exists (Z.to_nat a), (nm (ks_names s) a). split; [lia|]. apply nm_found in Hf as Hi. rewrite <- (Z2Nat.id a) in Hi by done.
    rewrite item_nat in Hi. rewrite Z2Nat.id in Hi by done. done.
Qed.
End store_pairs.

(** C33. The merge of the keycodes of an included section is the union of the
    two dictionaries: the included one wins, unless the mode is augment, and
    what is kept of the other has neither a keycode nor a name of the winner.
    The arrays are accessed in bounds and no assertion fails. *)
Theorem MergeKeycodeStores_spec into from I F merge : represents into I -> represents from F ->
  exists s', MergeKeycodeStores into from merge = Ok s' /\ represents s' (dict_merge merge I F).
Proof.
  intros HI HF. unfold MergeKeycodeStores.
  assert (exists s', (let+ into := merge_low into (drop (Z.to_nat (Z.min (ks_min from) (Z.of_nat (length (ks_low from))))) (ks_low from))
                    (ks_min from) merge in
      let+ into := merge_high into (ks_high from) merge in
      merge_aliases into (ks_names from) 0 merge) = Ok s' /\ represents s' (dict_merge merge I F)) as Hslow.
  { assert (forall m, result_bind m (fun into => let+ into := merge_high into (ks_high from) merge in
        merge_aliases into (ks_names from) 0 merge) =
      let+ into := (let+ into := m in add_keys into (high_pairs (ks_high from)) merge) in
      add_aliases into (alias_pairs (ks_names from) 0) merge) as ->.
    { intros [x|f]; [|done]. cbn [result_bind]. rewrite merge_high_pairs.
      - destruct (add_keys x _ merge); cbn; [apply merge_aliases_pairs|done].
      - apply list.Forall_forall. intros e [j Hj]%list_elem_of_lookup. apply (high_key from F _ _ HF) in Hj as [_ Hj].
        by apply (dw_keys F (rp_wf from F HF)) in Hj as [_ ?]. }
    rewrite merge_low_pairs, <- add_keys_app. fold (store_keys from).
    destruct (add_keys_spec merge I F (rp_wf from F HF) (store_keys from) into ∅) as (s1 & -> & H1).
    - change (mk_keydict ∅ ∅) with kd_empty. by rewrite merge_empty.
    - intros kc n. by apply (store_keys_elem from F HF).
    - by apply (store_keys_NoDup from F).
    - intros kc n H. by rewrite lookup_empty in H.
    - intros kc _. by rewrite lookup_empty.
    - cbn [result_bind]. rewrite map_union_empty in H1.
      rewrite (list_to_map_rev _ (kd_keys F)) in H1; [|by apply (store_keys_NoDup from F)|].
      2: { intros k v. symmetry. by apply (store_keys_elem from F HF). }
      destruct (add_aliases_spec merge I F (rp_wf from F HF) (alias_pairs (ks_names from) 0) s1 ∅ H1) as (s2 & Hs2 & H2).
      + intros a r. by apply (store_aliases_elem from F HF).
      + apply alias_pairs_NoDup.
      + intros a _. by rewrite lookup_empty.
      + exists s2. split; [done|]. rewrite map_union_empty in H2.
        rewrite (list_to_map_rev _ (kd_aliases F)) in H2; [by destruct F|apply alias_pairs_NoDup|].
        intros k v. symmetry. by apply (store_aliases_elem from F HF). }
  destruct (ks_low into) as [|] eqn:El; [|exact Hslow]. destruct (ks_high into) as [|] eqn:Eh; [|exact Hslow].
  destruct (ks_names into) as [|] eqn:En; [|exact Hslow]. exists from. split; [done|].
  assert (I = kd_empty) as ->; [|by rewrite empty_merge]. apply keydict_eq; intros k; cbn; rewrite lookup_empty.
  - destruct (kd_keys I !! k) as [n|] eqn:E; [|done]. destruct (key_entry into I k n HI E) as (Hf & _). rewrite En in Hf.
    unfold nm, item in Hf. by destruct (n <? 0).
  - destruct (kd_aliases I !! k) as [n|] eqn:E; [|done]. destruct (alias_entry into I k n HI E) as (Hf & _). rewrite En in Hf.
    unfold nm, item in Hf. by destruct (k <? 0).
Qed.

(** A store merged into another. *)
Lemma MergeKeycodeStores_spec_witness :
  exists s1 s2 s', AddKeyName keycode_store_init 10 3 MERGE_DEFAULT = Ok s1 /\ AddKeyName keycode_store_init 11 3 MERGE_DEFAULT = Ok s2 /\
    MergeKeycodeStores s1 s2 MERGE_AUGMENT = Ok s' /\
    represents s' (dict_merge MERGE_AUGMENT (dict_key MERGE_DEFAULT 10 3 kd_empty) (dict_key MERGE_DEFAULT 11 3 kd_empty)).
Proof.
  destruct (AddKeyName_spec keycode_store_init kd_empty 10 3 MERGE_DEFAULT represents_init ltac:(vm_compute; split; discriminate) ltac:(lia)) as (s1 & E1 & H1).
  destruct (AddKeyName_spec keycode_store_init kd_empty 11 3 MERGE_DEFAULT represents_init ltac:(vm_compute; split; discriminate) ltac:(lia)) as (s2 & E2 & H2).
  destruct (MergeKeycodeStores_spec s1 s2 _ _ MERGE_AUGMENT H1 H2) as (s' & E' & H').
  exists s1, s2, s'. split; [exact E1|]. split; [exact E2|]. split; [exact E'|exact H'].
Defined.
