(* ===== verification/KeycodesSpec.v ===== *)
(** * Compilation of keycodes sections

    What the statements of a keycodes section and its includes mean, as a
    dictionary, and that the compiled keymap has this dictionary. *)

From Stdlib Require Import ZArith Lia String.
From stdpp Require Import base tactics list numbers gmap.
From S2P Require Import Prelude Numbers Atom AtomSpec Keymap KeysymNames KeysymName Expr ExprSpec Vmod KeyAliases Derived DerivedInv Actions Sections Safe Keycodes KeycodesStore KeycodesDict.

(** ** Meaning of a section

    The statements in order; an included file starts from nothing, the files
    of an include statement are merged in order, then into the section. *)

Section meaning.
Context (parse : xkb_file_type -> include_item -> list (option XkbFile)).

Inductive stmts_dict : keydict -> list statement -> keydict -> Prop :=
| SD_nil D : stmts_dict D [] D
| SD_key D merge n kc stmts D' :
    stmts_dict (dict_key merge kc n D) stmts D' -> stmts_dict D (STMT_KEYCODE merge n kc :: stmts) D'
| SD_alias D merge a r stmts D' :
    stmts_dict (dict_alias merge a r D) stmts D' -> stmts_dict D (STMT_ALIAS merge a r :: stmts) D'
| SD_include D include I stmts D' :
    items_dict kd_empty (inc_items include) I ->
    stmts_dict (dict_merge (inc_merge (inc_first include)) D I) stmts D' ->
    stmts_dict D (STMT_INCLUDE include :: stmts) D'
| SD_other D stmt stmts D' :
    match stmt with STMT_KEYCODE _ _ _ | STMT_ALIAS _ _ _ | STMT_INCLUDE _ => False | _ => True end ->
    stmts_dict D stmts D' -> stmts_dict D (stmt :: stmts) D'
with items_dict : keydict -> list include_item -> keydict -> Prop :=
| ID_nil D : items_dict D [] D
| ID_cons D item file F items D' :
    ProcessIncludeFile parse item FILE_TYPE_KEYCODES = Some file ->
    stmts_dict kd_empty (xf_defs file) F ->
    items_dict (dict_merge (inc_merge item) D F) items D' ->
    items_dict D (item :: items) D'.
End meaning.

(** ** The table of LEDs *)

(** As many entries as LEDs, those not counted without a name. *)
Definition leds_ok (info : KeyNamesInfo) : Prop :=
  length (kn_led_names info) = XKB_MAX_LEDS /\ (kn_num_led_names info <= XKB_MAX_LEDS)%nat.

Lemma AddLedName_ok leds num new idx : length leds = XKB_MAX_LEDS -> (num <= XKB_MAX_LEDS)%nat -> (idx < XKB_MAX_LEDS)%nat ->
  exists leds' num', AddLedName leds num new idx = Ok (leds', num') /\
    length leds' = XKB_MAX_LEDS /\ (num' <= XKB_MAX_LEDS)%nat.
Proof.
  intros Hl Hn Hi. unfold AddLedName. cbv zeta.
  assert (forall l, length l = XKB_MAX_LEDS -> exists leds' num',
    match l !! idx with
    | Some old => if negb (ln_name old =? XKB_ATOM_NONE)
        then Ok (if clobbers (ln_merge new) then <[idx:=new]> l else l, if Nat.leb num idx then S idx else num)
        else Ok (<[idx:=new]> l, if Nat.leb num idx then S idx else num)
    | None => Fault FaultOutOfBounds end = Ok (leds', num') /\ length leds' = XKB_MAX_LEDS /\ (num' <= XKB_MAX_LEDS)%nat) as Hset.
  { intros l Hll. destruct (lookup_lt_is_Some_2 l idx) as [old Hold]; [lia|]. rewrite Hold.
    assert (((if Nat.leb num idx then S idx else num) <= XKB_MAX_LEDS)%nat) by (destruct (Nat.leb num idx); lia).
    destruct (negb _); [destruct (clobbers _)|]; do 2 eexists; (split; [done|]); by rewrite ?length_insert. }
  destruct (FindLedByName leds num (ln_name new)) as [old|]; [|by apply Hset].
  destruct (Nat.eqb old idx); [by exists leds, num|]. destruct (clobbers (ln_merge new)); [|by exists leds, num].
  apply Hset. by rewrite length_alter.
Qed.

Lemma merge_leds_ok from : forall leds num idx merge,
  length leds = XKB_MAX_LEDS -> (num <= XKB_MAX_LEDS)%nat -> (idx + length from <= XKB_MAX_LEDS)%nat ->
  exists leds' num', merge_leds leds num from idx merge = Ok (leds', num') /\
    length leds' = XKB_MAX_LEDS /\ (num' <= XKB_MAX_LEDS)%nat.
Proof.
  induction from as [|led from IH]; intros leds num idx merge Hl Hn Hi; cbn [merge_leds length] in *; [by exists leds, num|].
  destruct (ln_name led =? XKB_ATOM_NONE); cbn [result_bind fst snd]; [apply IH; lia|].
  destruct (AddLedName_ok leds num (mk_led_name merge (ln_name led)) idx) as (l' & n' & -> & Hl' & Hn'); [lia..|].
  cbn [result_bind fst snd]. apply IH; lia.
Qed.

(** ** Sections *)

(** A section whose store represents [D]. *)
Record info_dict (info : KeyNamesInfo) (D : keydict) : Prop := {
  id_store : represents (kn_keycodes info) D;
  id_leds : leds_ok info;
  id_errors : 0 <= kn_errorCount info
}.

Lemma init_info depth : info_dict (InitKeyNamesInfo depth) kd_empty.
Proof. split; [apply represents_init|by vm_compute; lia|done]. Qed.

Lemma kn_errors_dict info D n : 0 <= n -> info_dict info D -> info_dict (kn_add_errors n info) D.
Proof. intros Hn [Hs Hl He]. split; [done|done|]. cbn. lia. Qed.

Lemma merge_included_spec into from I F merge : info_dict into I -> info_dict from F ->
  exists info', MergeIncludedKeycodes into from merge = Ok info' /\
    kn_include_depth info' = kn_include_depth into /\ kn_errorCount into <= kn_errorCount info' /\
    if kn_errorCount from >? 0 then info_dict info' I /\ 0 < kn_errorCount info'
    else info_dict info' (dict_merge merge I F) /\ kn_errorCount info' = kn_errorCount into.
Proof.
  intros [HI [Hll Hln] HeI] [HF [Hfl Hfn] HeF]. unfold MergeIncludedKeycodes.
  destruct (kn_errorCount from >? 0) eqn:Ee.
  { rewrite Z.gtb_ltb in Ee. apply Z.ltb_lt in Ee. eexists. split; [done|]. cbn. split; [done|]. split; [lia|].
    split; [|lia]. apply kn_errors_dict; [lia|]. by split. }
  set (into1 := match kn_name into with None => kn_set_name (kn_name from) into | Some _ => into end).
  assert (kn_keycodes into1 = kn_keycodes into /\ kn_led_names into1 = kn_led_names into /\
    kn_num_led_names into1 = kn_num_led_names into /\ kn_errorCount into1 = kn_errorCount into /\
    kn_include_depth into1 = kn_include_depth into) as (Hk & Hlm & Hnm & He1 & Hd1)
    by (unfold into1; by destruct (kn_name into)).
  rewrite Hk. destruct (MergeKeycodeStores_spec _ _ I F merge HI HF) as (s' & -> & Hs'). cbn [result_bind kn_set_keycodes kn_num_led_names kn_led_names].
  rewrite Hlm, Hnm. destruct (Nat.eqb (kn_num_led_names into) 0).
  - eexists. split; [done|]. cbn. rewrite He1, Hd1. split; [done|]. split; [lia|]. split; [|done].
    split; cbn; [done| |lia]. split; cbn; [|done]. rewrite length_app, length_take, length_drop. lia.
  - destruct (merge_leds_ok (take (kn_num_led_names from) (kn_led_names from)) (kn_led_names into) (kn_num_led_names into) 0 merge)
      as (l' & n' & -> & Hl' & Hn'); [done|done|rewrite length_take; lia|]. cbn [result_bind fst snd].
    eexists. split; [done|]. cbn. rewrite He1, Hd1. split; [done|]. split; [lia|]. split; [|done].
    split; cbn; [done|by split|lia].
Qed.

Section sections.
Context (parse : xkb_file_type -> include_item -> list (option XkbFile)) (ctx : atom_table) (strict : Z).
Hypothesis (Hparse : parse_wf ctx parse).

(** The result of statements: when there is no error, their meaning. *)
Definition stmts_result (D : keydict) (stmts : list statement) (info info' : KeyNamesInfo) : Prop :=
  kn_include_depth info' = kn_include_depth info /\ kn_errorCount info <= kn_errorCount info' /\
  exists D', info_dict info' D' /\ (kn_errorCount info' = 0 -> stmts_dict parse D stmts D').

Definition file_handled (handle_file : KeyNamesInfo -> XkbFile -> result KeyNamesInfo) (depth : nat) : Prop :=
  forall file, file_wf ctx file -> safe (stmts_result kd_empty (xf_defs file) (InitKeyNamesInfo depth))
    (handle_file (InitKeyNamesInfo depth) file).

Section handlers.
Context (handle_file : KeyNamesInfo -> XkbFile -> result KeyNamesInfo).

Lemma include_keycodes_spec depth items : file_handled handle_file (S depth) -> forall included I,
  info_dict included I ->
  safe (fun r => forall included', r = Some included' -> exists I', info_dict included' I' /\
     kn_errorCount included <= kn_errorCount included' /\
     (kn_errorCount included' = 0 -> items_dict parse I items I')) (include_keycodes parse handle_file depth included items).
Proof using Hparse.
  intros Hh. induction items as [|item items IH]; intros included I Hi; cbn [include_keycodes].
  { intros ? [= <-]. exists I. split; [done|]. split; [lia|]. constructor. }
  destruct (ProcessIncludeFile parse item FILE_TYPE_KEYCODES) as [file|] eqn:Hf; [|done].
  eapply safe_bind; [apply Hh; by eapply process_wf|]. intros next (_ & He & F & HF & HFd). cbn in He.
  destruct (merge_included_spec included next I F (inc_merge item) Hi HF) as (inc1 & -> & _ & Hle & Hc). cbn [result_bind].
  assert (0 <= kn_errorCount next) by apply HF. rewrite Z.gtb_ltb in Hc. destruct (Z.ltb_spec 0 (kn_errorCount next)).
  - destruct Hc as [Hc Hpos]. eapply safe_mono; [by apply IH|]. intros r Hr inc' ->.
    destruct (Hr inc' eq_refl) as (I' & HI' & Hle' & _). exists I'. split; [done|]. split; [lia|]. lia.
  - destruct Hc as [Hc Heq]. eapply safe_mono; [by apply IH|]. intros r Hr inc' ->.
    destruct (Hr inc' eq_refl) as (I' & HI' & Hle' & Hd). exists I'. split; [done|]. split; [lia|]. intros Hz.
    econstructor; [done|apply HFd; lia|by apply Hd].
Qed.

Lemma HandleIncludeKeycodes_spec info D include :
  ((kn_include_depth info < INCLUDE_MAX_DEPTH)%nat -> file_handled handle_file (S (kn_include_depth info))) ->
  info_dict info D ->
  safe (fun r => kn_include_depth (snd r) = kn_include_depth info /\ kn_errorCount info <= kn_errorCount (snd r) /\
     exists D', info_dict (snd r) D' /\
     (kn_errorCount (snd r) = 0 -> exists I, items_dict parse kd_empty (inc_items include) I /\
        D' = dict_merge (inc_merge (inc_first include)) D I)) (HandleIncludeKeycodes parse handle_file info include).
Proof using Hparse.
  intros Hh Hi. unfold HandleIncludeKeycodes, ExceedsIncludeMaxDepth. assert (0 <= kn_errorCount info) by apply Hi.
  assert (forall n, 0 < n -> safe (fun r => kn_include_depth (snd r) = kn_include_depth info /\
     kn_errorCount info <= kn_errorCount (snd r) /\ exists D', info_dict (snd r) D' /\
     (kn_errorCount (snd r) = 0 -> exists I, items_dict parse kd_empty (inc_items include) I /\
        D' = dict_merge (inc_merge (inc_first include)) D I)) (Ok (false, kn_add_errors n info))) as Herr.
  { intros n Hn. cbn. split; [done|]. split; [lia|]. exists D. split; [apply kn_errors_dict; [lia|done]|lia]. }
  destruct (Nat.leb_spec INCLUDE_MAX_DEPTH (kn_include_depth info)) as [Hd|Hd]; [by apply Herr|].
  eapply safe_bind; [apply (include_keycodes_spec _ _ (Hh Hd) _ kd_empty); split; apply (init_info 0)|].
  intros [included|] Hr; [|by apply Herr]. destruct (Hr included eq_refl) as (I & HI & Hle & HId). cbn in Hle.
  destruct (merge_included_spec info included D I (inc_merge (inc_first include)) Hi HI) as (info1 & -> & Hdep & Hle1 & Hc). cbn [result_bind safe snd].
  split; [done|]. split; [done|]. rewrite Z.gtb_ltb in Hc. destruct (Z.ltb_spec 0 (kn_errorCount included)).
  - destruct Hc as [Hc Hpos]. exists D. split; [done|]. lia.
  - destruct Hc as [Hc Heq]. eexists. split; [exact Hc|]. intros Hz. exists I. split; [|done]. apply HId. lia.
Qed.

Lemma HandleKeyNameVar_safe v : var_wf ctx v -> safe (fun _ => True) (HandleKeyNameVar ctx strict v).
Proof using Type.
  intros Hv. unfold HandleKeyNameVar. eapply safe_bind; [by apply var_lhs_safe|].
  intros [[[[el|] f] ndx]|] _; [done| |done]. destruct (negb _); [done|]. destruct ndx; [done|].
  eapply safe_bind; [apply integer_safe|done].
Qed.

Lemma kn_set_keycodes_dict info D s D' : info_dict info D -> represents s D' -> info_dict (kn_set_keycodes s info) D'.
Proof using Type. intros [_ Hl He] Hs. by split. Qed.

Lemma handle_keycodes_stmt_spec info D stmt :
  ((kn_include_depth info < INCLUDE_MAX_DEPTH)%nat -> file_handled handle_file (S (kn_include_depth info))) ->
  stmt_wf ctx stmt -> info_dict info D ->
  safe (fun r => kn_include_depth (snd r) = kn_include_depth info /\ kn_errorCount info <= kn_errorCount (snd r) /\
     exists D', info_dict (snd r) D' /\ (fst r = true -> kn_errorCount (snd r) = 0 -> forall stmts D'',
        stmts_dict parse D' stmts D'' -> stmts_dict parse D (stmt :: stmts) D''))
    (handle_keycodes_stmt parse ctx strict handle_file info stmt).
Proof using Hparse.
  intros Hh Hw Hi. unfold handle_keycodes_stmt.
  assert (forall (b : bool) n, 0 <= n -> match stmt with STMT_KEYCODE _ _ _ | STMT_ALIAS _ _ _ | STMT_INCLUDE _ => b = false | _ => True end ->
     safe (fun r => kn_include_depth (snd r) = kn_include_depth info /\ kn_errorCount info <= kn_errorCount (snd r) /\
     exists D', info_dict (snd r) D' /\ (fst r = true -> kn_errorCount (snd r) = 0 -> forall stmts D'',
        stmts_dict parse D' stmts D'' -> stmts_dict parse D (stmt :: stmts) D'')) (Ok (b, kn_add_errors n info))) as Hother.
  { intros b n Hn Hb. cbn. split; [done|]. split; [lia|]. exists D. split; [by apply kn_errors_dict|].
    intros -> _ stmts D'' Hs. constructor; [|done]. by destruct stmt. }
  assert (forall b : bool, match stmt with STMT_KEYCODE _ _ _ | STMT_ALIAS _ _ _ | STMT_INCLUDE _ => b = false | _ => True end ->
     safe (fun r => kn_include_depth (snd r) = kn_include_depth info /\ kn_errorCount info <= kn_errorCount (snd r) /\
     exists D', info_dict (snd r) D' /\ (fst r = true -> kn_errorCount (snd r) = 0 -> forall stmts D'',
        stmts_dict parse D' stmts D'' -> stmts_dict parse D (stmt :: stmts) D'')) (Ok (b, info))) as Hsame.
  { intros b Hb. cbn. split; [done|]. split; [lia|]. exists D. split; [done|].
    intros -> _ stmts D'' Hs. constructor; [|done]. by destruct stmt. }
  destruct stmt; try (by apply Hsame).
  - eapply safe_mono; [by apply HandleIncludeKeycodes_spec|]. intros [ok info'] (Hd & Hle & D' & HD' & Hm).
    split; [done|]. split; [done|]. exists D'. split; [done|]. intros _ H0 stmts D'' Hs.
    destruct (Hm H0) as (I & HI & ->). by econstructor.
  - unfold HandleKeycodeDef. destruct ((value <? 0) || _) eqn:Ev; [by apply Hsame|].
    apply orb_false_iff in Ev as [E1%Z.ltb_ge E2]. rewrite Z.gtb_ltb in E2. apply Z.ltb_ge in E2.
    destruct (AddKeyName_spec _ D value name merge (id_store _ _ Hi) ltac:(lia) Hw) as (s' & -> & Hs'). cbn.
    split; [done|]. split; [lia|]. eexists. split; [by eapply kn_set_keycodes_dict|]. intros _ _ stmts D'' Hs. by constructor.
  - destruct (HandleAliasDef_spec _ D merge alias real (id_store _ _ Hi) Hw) as (s' & -> & Hs'). cbn.
    split; [done|]. split; [lia|]. eexists. split; [by eapply kn_set_keycodes_dict|]. intros _ _ stmts D'' Hs. by constructor.
  - eapply safe_bind; [by apply HandleKeyNameVar_safe|]. intros b _. by apply Hsame.
  - unfold HandleLedNameDef. destruct ((ndx <? 1) || _) eqn:Ev; [by apply Hother|].
    destruct (ExprResolveString name) as [nm|]; [|by apply Hother].
    apply orb_false_iff in Ev as [E1%Z.ltb_ge E2]. rewrite Z.gtb_ltb in E2. apply Z.ltb_ge in E2.
    destruct (id_leds _ _ Hi) as [Hl Hn].
    destruct (AddLedName_ok (kn_led_names info) (kn_num_led_names info) (mk_led_name merge nm) (Z.to_nat (ndx - 1)))
      as (l' & n' & -> & Hl' & Hn'); [done|done|lia|]. cbn. split; [done|]. split; [lia|]. exists D.
    split; [split; [apply Hi|by split|apply Hi]|]. intros _ _ stmts D'' Hs. by constructor.
Qed.

Lemma handle_keycodes_stmts_spec stmts : forall info D,
  ((kn_include_depth info < INCLUDE_MAX_DEPTH)%nat -> file_handled handle_file (S (kn_include_depth info))) ->
  Forall (stmt_wf ctx) stmts -> info_dict info D ->
  safe (stmts_result D stmts info) (handle_keycodes_stmts parse ctx strict handle_file info stmts).
Proof using Hparse.
  induction stmts as [|stmt stmts IH]; intros info D Hh Hw Hi; cbn [handle_keycodes_stmts].
  { split; [done|]. split; [lia|]. exists D. split; [done|]. intros _. constructor. }
  apply list.Forall_cons in Hw as [Hw Hws]. eapply safe_bind; [by apply (handle_keycodes_stmt_spec info D)|].
  intros [ok info1] (Hd1 & Hle1 & D1 & HD1 & Hs1). cbn [fst snd] in *.
  set (info2 := if ok then info1 else kn_add_errors 1 info1).
  assert (info_dict info2 D1) as Hi2 by (unfold info2; destruct ok; [done|by apply kn_errors_dict]).
  assert (kn_include_depth info2 = kn_include_depth info) as Hd2 by (unfold info2; by destruct ok).
  assert (kn_errorCount info1 <= kn_errorCount info2) as Hle2 by (unfold info2; destruct ok; cbn; lia).
  assert (0 <= kn_errorCount info) as H0 by apply Hi.
  assert (kn_errorCount info2 = 0 -> ok = true /\ kn_errorCount info1 = 0) as Hok by (unfold info2; destruct ok; cbn; lia || done).
  rewrite Z.gtb_ltb. destruct (Z.ltb_spec 10 (kn_errorCount info2)).
  - split; [done|]. split; [lia|]. exists D1. split; [done|]. lia.
  - eapply safe_mono; [apply (IH info2 D1); [by rewrite Hd2|done|done]|]. intros info3 (Hd3 & Hle3 & D3 & HD3 & Hs3).
    split; [by rewrite Hd3|]. split; [lia|]. exists D3. split; [done|]. intros Hz.
    destruct (Hok ltac:(lia)) as [Hok1 Hz1]. apply Hs1; [done|done|by apply Hs3].
Qed.
End handlers.

(** The fuel is over the depth that is left. *)
Lemma HandleKeycodesFile_spec fuel : forall info D file,
  (kn_include_depth info <= INCLUDE_MAX_DEPTH)%nat -> (INCLUDE_MAX_DEPTH < kn_include_depth info + fuel)%nat ->
  file_wf ctx file -> info_dict info D ->
  safe (stmts_result D (xf_defs file) info) (HandleKeycodesFile parse ctx strict fuel info file).
Proof using Hparse.
  induction fuel as [|fuel IH]; intros info D file Hd Hf Hw Hi; cbn [HandleKeycodesFile]; [lia|].
  eapply safe_mono; [apply (handle_keycodes_stmts_spec _ _ _ D); [|exact Hw|]|].
  - cbn [kn_set_name kn_include_depth]. intros Hlt file' Hw'. apply (IH _ kd_empty); cbn [InitKeyNamesInfo kn_include_depth]; [lia|lia|done|apply init_info].
  - destruct Hi. by split.
  - done.
Qed.
End sections.

(** ** The keymap *)

(** An alias of the dictionary names an alias. *)
Definition alias_chain (D : keydict) : Prop := exists a b c, kd_aliases D !! a = Some b /\ kd_aliases D !! b = Some c.

(** The keys of the keymap are those of the dictionary, with nothing but a
    keycode and a name; the table of names finds them. *)
Record keycodes_ok (r : keycodes_result) (D : keydict) : Prop := {
  ko_dict : dict_wf D;
  ko_layout : layout_ok (map ky_keycode (kr_keys r)) (kr_min_key_code r) (kr_num_keys_low r);
  ko_blank : Forall (fun k => k = set_key_name (ky_name k) (set_keycode (ky_keycode k) zero_key)) (kr_keys r);
  ko_shown : forall i k, kr_keys r !! i = Some k -> ky_name k <> XKB_ATOM_NONE ->
    kr_min_key_code r <= Z.of_nat i \/ kr_num_keys_low r = 0;
  ko_keys : forall kc n, kd_keys D !! kc = Some n <->
    exists k, k ∈ kr_keys r /\ ky_keycode k = kc /\ ky_name k = n /\ n <> XKB_ATOM_NONE;
  ko_bounds : forall kc n, kd_keys D !! kc = Some n -> kr_min_key_code r <= kc <= kr_max_key_code r;
  ko_names : forall n m, item (kr_key_names r) n = Some m -> match_found m = true ->
    if match_is_alias m then kd_aliases D !! n = Some (match_value m) /\ exists kc, kd_keys D !! kc = Some (match_value m)
    else exists k, item (kr_keys r) (match_value m) = Some k /\ ky_name k = n /\ kd_keys D !! ky_keycode k = Some n;
  ko_complete : forall n,
    (exists kc, kd_keys D !! kc = Some n) \/ (exists real kc, kd_aliases D !! n = Some real /\ kd_keys D !! kc = Some real) ->
    exists m, item (kr_key_names r) n = Some m /\ match_found m = true;
  ko_leds : (length (kr_leds r) <= XKB_MAX_LEDS)%nat;
  ko_led_pending : Forall (fun l => ld_pending_groups l = false) (kr_leds r);
  ko_auto : Z.of_nat (length (kr_keys r)) < 2 ^ 31 -> kd_keys D !! kr_redirect_key_auto r = None
}.

Section copy.
Context (s : KeycodeStore) (D : keydict) (Hr : represents s D).

(** *** Names *)

Definition is_key (m : keycode_match) : bool := cm_found m && negb (cm_is_alias m).

Definition final_match (low : Z) (m : keycode_match) : keycode_match :=
  if negb (cm_found m) then m
  else if cm_is_alias m then if is_key (nm (ks_names s) (cm_value m)) then m else set_found false m
  else if cm_low m then m else set_value (cm_value m + low) m.

Lemma final_found low m : cm_found (final_match low m) = true ->
  cm_found m = true /\ cm_is_alias (final_match low m) = cm_is_alias m.
Proof using Type.
  unfold final_match. destruct m as [[] l [] v]; cbn; try done; [by destruct (is_key _)|by destruct l].
Qed.

Lemma final_key low m : is_key m = true -> cm_found (final_match low m) = true.
Proof using Type. unfold final_match, is_key. destruct m as [[] l [] v]; cbn; try done. by destruct l. Qed.

Lemma check_names_spec low fuel : forall name cur,
  (name + fuel = length (ks_names s))%nat -> length cur = length (ks_names s) ->
  (forall k m, (k < name)%nat -> ks_names s !! k = Some m -> cur !! k = Some (final_match low m)) ->
  (forall k, (name <= k)%nat -> cur !! k = ks_names s !! k) ->
  match check_names low cur name fuel with
  | Ok names' => names' = map (final_match low) (ks_names s)
  | Fault f => f = FaultAssert /\ alias_chain D
  end.
Proof using Hr.
  induction fuel as [|fuel IH]; intros name cur Hf Hl Hdone Htodo; cbn [check_names].
  { apply list_eq. intros k. rewrite list_lookup_fmap. destruct (ks_names s !! k) as [m|] eqn:Hm; cbn.
    - apply Hdone; [apply lookup_lt_Some in Hm; lia|done].
    - apply lookup_ge_None in Hm. apply lookup_ge_None. lia. }
  destruct (lookup_lt_is_Some_2 (ks_names s) name) as [m Hm]; [lia|]. rewrite Htodo, Hm by lia.
  assert (forall m', m' = final_match low m -> match check_names low (<[name := m']> cur) (S name) fuel with
     | Ok names' => names' = map (final_match low) (ks_names s) | Fault f => f = FaultAssert /\ alias_chain D end) as Hset.
  { intros m' ->. apply IH; [lia|by rewrite length_insert|..].
    - intros k mk Hk Hmk. destruct (decide (k = name)) as [->|Hne].
      + rewrite list_lookup_insert_eq by lia. congruence.
      + rewrite list_lookup_insert_ne by done. apply Hdone; [lia|done].
    - intros k Hk. rewrite list_lookup_insert_ne by lia. apply Htodo. lia. }
  assert (m = final_match low m -> match check_names low cur (S name) fuel with
     | Ok names' => names' = map (final_match low) (ks_names s) | Fault f => f = FaultAssert /\ alias_chain D end) as Hskip.
  { intros Hfm. specialize (Hset m Hfm). rewrite list_insert_id in Hset; [done|]. rewrite Htodo by lia. done. }
  unfold final_match in Hset, Hskip. destruct (cm_found m) eqn:Ef; cbn [negb] in *; [|by apply Hskip].
  destruct (cm_is_alias m) eqn:Ea; cbn [negb].
  2: { destruct (cm_low m); cbn [negb]; [by apply Hskip|by apply Hset]. }
  change (default no_match (item cur (cm_value m))) with (nm cur (cm_value m)).
  assert (nm cur (cm_value m) = nm (ks_names s) (cm_value m) \/
          nm cur (cm_value m) = final_match low (nm (ks_names s) (cm_value m))) as Hreal.
  { unfold nm, item. destruct (cm_value m <? 0); [by left|].
    destruct (decide (Z.to_nat (cm_value m) < name)%nat) as [Hlt|Hge]; [|rewrite Htodo by lia; by left]. right.
    destruct (lookup_lt_is_Some_2 (ks_names s) (Z.to_nat (cm_value m))) as [mr Hmr]; [lia|].
    rewrite Hmr. by rewrite (Hdone _ _ Hlt Hmr). }
  assert (cm_found (nm cur (cm_value m)) = true -> cm_found (nm (ks_names s) (cm_value m)) = true /\
          cm_is_alias (nm cur (cm_value m)) = cm_is_alias (nm (ks_names s) (cm_value m))) as Hfound.
  { destruct Hreal as [->| ->]; [done|]. apply final_found. }
  assert (is_key (nm (ks_names s) (cm_value m)) = true -> cm_found (nm cur (cm_value m)) = true) as Hkey.
  { destruct Hreal as [->| ->]; [by intros [? _]%andb_true_iff|apply final_key]. }
  destruct (cm_found (nm cur (cm_value m))) eqn:Er; cbn [negb].
  - destruct (Hfound eq_refl) as [Hfo Hal]. rewrite Hal. destruct (cm_is_alias (nm (ks_names s) (cm_value m))) eqn:Ear; cbn [negb asserting].
    + split; [done|]. pose proof (found_cases s D (cm_value m) Hr Hfo) as Hc. rewrite Ear in Hc.
      assert (nm (ks_names s) (Z.of_nat name) = m) as Hnm by (unfold nm; by rewrite item_nat, Hm).
      pose proof (rp_names s D Hr (Z.of_nat name)) as He. unfold entry_ok in He. rewrite Hnm, Ef, Ea in He. by repeat eexists.
    + apply Hskip. unfold is_key. by rewrite Hfo, Ear.
  - apply Hset. destruct (is_key _) eqn:Ek; [by specialize (Hkey eq_refl)|done].
Qed.

(** *** Keys *)

Lemma high_names_defined : forallb (fun e => negb (hk_name e =? XKB_ATOM_NONE)) (ks_high s) = true.
Proof using Hr.
  apply forallb_forall. intros e [j Hj]%list_elem_of_In%list_elem_of_lookup. apply (high_key s D _ _ Hr) in Hj as [_ Hk].
  apply (dw_keys D (rp_wf s D Hr)) in Hk as [_ Hk]. unfold XKB_ATOM_NONE. by rewrite (proj2 (Z.eqb_neq _ 0)) by lia.
Qed.

Lemma min_high_spec e high : ks_high s = e :: high -> min_high (ks_high s) <= XKB_KEYCODE_MAX /\ 0 <= min_high (ks_high s).
Proof using Hr.
  intros He. rewrite He. cbn. destruct (high_key s D 0 e Hr) as [H1 H2]; [by rewrite He|].
  apply (dw_keys D (rp_wf s D Hr)) in H2 as [H2 _]. lia.
Qed.

(** A key at each position. *)
Definition blank_key (min : Z) (kc : nat) : key :=
  let k := if min <=? Z.of_nat kc then set_keycode (Z.of_nat kc) zero_key else zero_key in
  match ks_low s !! kc with
  | Some name => if ks_min s <=? Z.of_nat kc then set_key_name name k else k
  | None => k
  end.

Definition copied_keys (min low : Z) : list key :=
  map (blank_key min) (seq 0 (Z.to_nat low)) ++
  map (fun e => set_key_name (hk_name e) (set_keycode (hk_keycode e) zero_key)) (ks_high s).

(** The bounds of the keycodes of the keymap. *)
Definition copied_bounds (min max low : Z) : Prop :=
  (ks_low s = [] /\ ks_high s = [] /\ min = 8 /\ max = 255 /\ low = 256) \/
  ((ks_low s <> [] \/ ks_high s <> []) /\ min = ks_min s /\ low = Z.of_nat (length (ks_low s)) /\
   max = match max_high (ks_high s) with Some kc => kc | None => low - 1 end).

Lemma copy_keys_spec : exists min max low, CopyKeyNamesToKeymap s = Ok (min, max, low, copied_keys min low) /\
  copied_bounds min max low.
Proof using Hr.
  unfold CopyKeyNamesToKeymap. pose proof high_names_defined as Hh. pose proof (rp_min s D Hr) as Hm. unfold min_ok in Hm.
  destruct (ks_low s) as [|x l] eqn:El; [destruct (ks_high s) as [|e h] eqn:Eh|].
  - rewrite Hm. cbn. do 3 eexists. split; [|by left]. unfold copied_keys. rewrite Eh. unfold blank_key. rewrite El. reflexivity.
  - rewrite (proj2 (Z.leb_le _ _)) by (rewrite Hm, <- Eh; by eapply min_high_spec). cbn [asserting result_bind]. rewrite Hh.
    do 3 eexists. split; [unfold copied_keys, blank_key; rewrite El, Eh; reflexivity|]. right. split; [right; by rewrite Eh|].
    rewrite El, Eh. split; [done|]. split; [done|]. done.
  - rewrite <- El in *. destruct (min_ok_low s (rp_min s D Hr)) as (m & Hmm & Hd & _); [by rewrite El|].
    assert (m < length (ks_low s))%nat as Hlt.
    { destruct (low_at (ks_low s) m) as [y|] eqn:E; [|done]. apply low_at_Some in E as [E%lookup_lt_Some _]. done. }
    pose proof (rp_low_length s D Hr) as Hll. unfold XKB_KEYCODE_MAX_CONTIGUOUS in Hll.
    rewrite (proj2 (Z.leb_le _ _)) by (rewrite Hmm; unfold XKB_KEYCODE_MAX; lia). cbn [asserting result_bind]. rewrite Hh.
    do 3 eexists. split; [unfold copied_keys, blank_key; reflexivity|]. right. split; [left; by rewrite El|].
    split; [done|]. split; [done|]. done.
Qed.

Section bounds.
Context (min max low : Z) (Hb : copied_bounds min max low).

Lemma bounds_low : Z.of_nat (length (ks_low s)) <= low /\ 0 <= min /\ (ks_low s <> [] \/ ks_high s <> [] -> min = ks_min s /\ low = Z.of_nat (length (ks_low s))).
Proof using Hb Hr.
  destruct Hb as [(El & Eh & -> & -> & ->)|(Hne & -> & -> & _)].
  - rewrite El, Eh. cbn. split; [lia|]. split; [lia|]. by intros [?|?].
  - split; [lia|]. split; [|done]. destruct (decide (ks_low s = [])) as [He|He].
    + pose proof (rp_min s D Hr) as Hm. unfold min_ok in Hm. rewrite He in Hm. destruct (ks_high s) as [|e h] eqn:Eh.
      { by destruct Hne. }
      rewrite Hm, <- Eh. by apply (min_high_spec e h).
    + destruct (min_ok_low s (rp_min s D Hr) He) as (m & -> & _). lia.
Qed.

Lemma defined_over_min i n : low_at (ks_low s) i = Some n -> min = ks_min s /\ ks_min s <= Z.of_nat i /\ (i < Z.to_nat low)%nat.
Proof using Hb Hr.
  intros Hi. assert (i < length (ks_low s))%nat as Hlt by (apply low_at_Some in Hi as [Hi%lookup_lt_Some _]; done).
  assert (ks_low s <> []) as Hne by (intros He; rewrite He in Hlt; cbn in Hlt; lia).
  destruct bounds_low as (Hl & _ & Hm). destruct (Hm (or_introl Hne)) as [-> ->]. split; [done|]. split; [|lia].
  destruct (min_ok_low s (rp_min s D Hr) Hne) as (m & -> & _ & Hz). destruct (decide (i < m)%nat); [by rewrite Hz in Hi|lia].
Qed.

Lemma low_key_fields i : ky_keycode (blank_key min i) = (if min <=? Z.of_nat i then Z.of_nat i else 0) /\
  (forall n, n <> XKB_ATOM_NONE -> ky_name (blank_key min i) = n <-> low_at (ks_low s) i = Some n).
Proof using Hb Hr.
  unfold blank_key. split.
  - destruct (ks_low s !! i), (ks_min s <=? Z.of_nat i), (min <=? Z.of_nat i); done.
  - intros n Hn. rewrite low_at_Some. destruct (ks_low s !! i) as [x|] eqn:Ex.
    2: { split; [|by intros [? _]]. intros H. destruct Hn. rewrite <- H. by destruct (min <=? Z.of_nat i). }
    destruct (Z.leb_spec (ks_min s) (Z.of_nat i)) as [Hle|Hlt].
    + cbn. split; [by intros ->|]. by intros [[= ->] _].
    + split.
      * intros H. destruct Hn. rewrite <- H. by destruct (min <=? Z.of_nat i).
      * intros [[= ->] Hn0]. destruct (defined_over_min i n) as (_ & ? & _); [by apply low_at_Some|]. lia.
Qed.

Lemma copied_lookup i k : copied_keys min low !! i = Some k ->
  ((i < Z.to_nat low)%nat /\ k = blank_key min i) \/
  (exists e, (Z.to_nat low <= i)%nat /\ ks_high s !! (i - Z.to_nat low)%nat = Some e /\
     k = set_key_name (hk_name e) (set_keycode (hk_keycode e) zero_key)).
Proof using Type.
  unfold copied_keys. rewrite lookup_app_Some, length_map, length_seq, !list_lookup_fmap. intros [H|[Hle H]].
  - destruct (seq 0 (Z.to_nat low) !! i) as [j|] eqn:E; [|done]. apply lookup_seq in E as [-> Hlt]. injection H as <-. by left.
  - destruct (ks_high s !! (i - Z.to_nat low)%nat) as [e|] eqn:E; [|done]. injection H as <-. right. by exists e.
Qed.

Lemma copied_low i : (i < Z.to_nat low)%nat -> copied_keys min low !! i = Some (blank_key min i).
Proof using Type.
  intros Hi. unfold copied_keys. rewrite lookup_app_l by (rewrite length_map, length_seq; lia).
  rewrite list_lookup_fmap, lookup_seq_lt by done. done.
Qed.

Lemma copied_high j e : ks_high s !! j = Some e ->
  copied_keys min low !! (Z.to_nat low + j)%nat = Some (set_key_name (hk_name e) (set_keycode (hk_keycode e) zero_key)).
Proof using Type.
  intros He. unfold copied_keys. rewrite lookup_app_r by (rewrite length_map, length_seq; lia).
  rewrite length_map, length_seq, list_lookup_fmap. replace (Z.to_nat low + j - Z.to_nat low)%nat with j by lia. by rewrite He.
Qed.

Lemma low_bound : low <= XKB_KEYCODE_MAX_CONTIGUOUS + 1.
Proof using Hb Hr.
  pose proof (rp_low_length s D Hr). destruct Hb as [(_ & _ & _ & _ & ->)|(_ & _ & -> & _)]; [done|lia].
Qed.

(** A key that has a name is visited. *)
Lemma copied_shown i k : copied_keys min low !! i = Some k -> ky_name k <> XKB_ATOM_NONE -> min <= Z.of_nat i \/ low = 0.
Proof using Hb Hr.
  intros Hi Hn. destruct (copied_lookup i k Hi) as [[Hlt ->]|(e & Hle & He & _)].
  - left. destruct (low_key_fields i) as [_ H]. specialize (H _ Hn). destruct (defined_over_min i (ky_name (blank_key min i))) as (-> & ? & _); [by apply H|done].
  - assert (ks_high s <> []) as Hne by (by intros E; rewrite E in He). destruct bounds_low as (_ & _ & Hm).
    destruct (Hm (or_intror Hne)) as [-> ->]. destruct (decide (ks_low s = [])) as [El|El]; [right; by rewrite El|].
    left. destruct (min_ok_low s (rp_min s D Hr) El) as (m & -> & Hd & _).
    assert (m < length (ks_low s))%nat; [|lia]. destruct (low_at (ks_low s) m) as [y|] eqn:E; [|done].
    apply low_at_Some in E as [E%lookup_lt_Some _]. done.
Qed.

Lemma copied_layout : layout_ok (map ky_keycode (copied_keys min low)) min low.
Proof using Hb Hr.
  destruct bounds_low as (Hl & Hmin & _). pose proof low_bound as Hlb.
  assert (0 <= low) by lia. unfold copied_keys at 1.
  split.
  - done.
  - rewrite !length_map, length_app, !length_map, length_seq. lia.
  - intros i kc Hi Hlt Hle. change (map ky_keycode (copied_keys min low) !! i = Some kc) in Hi. rewrite list_lookup_fmap in Hi.
    rewrite copied_low in Hi by lia. injection Hi as <-. rewrite (proj1 (low_key_fields i)).
    by rewrite (proj2 (Z.leb_le _ _)) by lia.
  - intros i j kc kc' Hi Hj Hle Hij. change (map ky_keycode (copied_keys min low) !! i = Some kc) in Hi.
    change (map ky_keycode (copied_keys min low) !! j = Some kc') in Hj. rewrite list_lookup_fmap in Hi, Hj.
    destruct (copied_keys min low !! i) as [k|] eqn:Ek; [|done]. destruct (copied_keys min low !! j) as [k'|] eqn:Ek'; [|done].
    apply copied_lookup in Ek as [[? _]|(e & _ & He & ->)]; [lia|]. apply copied_lookup in Ek' as [[? _]|(e' & _ & He' & ->)]; [lia|].
    injection Hi as <-. injection Hj as <-. cbn. eapply (rp_sorted s D Hr); [|exact He|exact He']. lia.
  - intros i kc Hi Hle. change (map ky_keycode (copied_keys min low) !! i = Some kc) in Hi. rewrite list_lookup_fmap in Hi.
    destruct (copied_keys min low !! i) as [k|] eqn:Ek; [|done].
    apply copied_lookup in Ek as [[? _]|(e & _ & He & ->)]; [lia|]. injection Hi as <-. cbn.
    destruct (high_key s D _ _ Hr He). lia.
Qed.

Lemma copied_blank : Forall (fun k => k = set_key_name (ky_name k) (set_keycode (ky_keycode k) zero_key)) (copied_keys min low).
Proof using Type.
  apply list.Forall_forall. intros k [i Hi]%list_elem_of_lookup. apply copied_lookup in Hi as [[_ ->]|(e & _ & _ & ->)]; [|done].
  unfold blank_key. destruct (ks_low s !! i), (min <=? Z.of_nat i); try done; by destruct (ks_min s <=? Z.of_nat i).
Qed.

Lemma copied_keys_dict kc n : kd_keys D !! kc = Some n <->
  exists i k, copied_keys min low !! i = Some k /\ ky_keycode k = kc /\ ky_name k = n /\ n <> XKB_ATOM_NONE.
Proof using Hb Hr.
  split.
  - intros Hk. assert (n <> XKB_ATOM_NONE) as Hn by (apply (dw_keys D (rp_wf s D Hr)) in Hk as [_ ?]; unfold XKB_ATOM_NONE; lia).
    destruct (Z.le_gt_cases kc XKB_KEYCODE_MAX_CONTIGUOUS) as [Hle|Hgt].
    + pose proof (dw_keys D (rp_wf s D Hr) _ _ Hk) as [Hkc _].
      assert (low_at (ks_low s) (Z.to_nat kc) = Some n) as Hl.
      { rewrite <- (rp_low s D Hr) by lia. by rewrite Z2Nat.id by lia. }
      destruct (defined_over_min _ _ Hl) as (Hm & Hge & Hlt). exists (Z.to_nat kc), (blank_key min (Z.to_nat kc)).
      split; [by apply copied_low|]. destruct (low_key_fields (Z.to_nat kc)) as [-> Hname]. rewrite (Hname n Hn).
      rewrite (proj2 (Z.leb_le _ _)) by lia. split; [lia|]. done.
    + apply (rp_high s D Hr) in Hk; [|lia]. apply list_elem_of_lookup in Hk as [j Hj]. apply copied_high in Hj.
      do 2 eexists. split; [exact Hj|]. done.
  - intros (i & k & Hi & <- & <- & Hn). apply copied_lookup in Hi as [[Hlt ->]|(e & _ & He & ->)].
    + pose proof (proj1 (proj2 (low_key_fields i) _ Hn) eq_refl) as Hl.
      destruct (defined_over_min _ _ Hl) as (Hm & Hge & _). rewrite (proj1 (low_key_fields i)).
      rewrite (proj2 (Z.leb_le _ _)) by lia. by apply (low_key s D _ _ Hr) in Hl as [_ ?].
    + by apply (high_key s D _ _ Hr) in He as [_ ?].
Qed.

Lemma copied_range kc n : kd_keys D !! kc = Some n -> min <= kc <= max.
Proof using Hb Hr.
  intros Hk. pose proof (rp_low_length s D Hr) as Hll. pose proof (dw_keys D (rp_wf s D Hr) _ _ Hk) as [Hkc _].
  assert (ks_low s <> [] \/ ks_high s <> []) as Hne.
  { destruct (Z.le_gt_cases kc XKB_KEYCODE_MAX_CONTIGUOUS) as [Hle|Hgt].
    - left. intros He. pose proof (rp_low s D Hr (Z.to_nat kc) ltac:(lia)) as H. rewrite Z2Nat.id, He, Hk in H by lia.
      by unfold low_at in H.
    - right. intros He. apply (rp_high s D Hr) in Hk; [|lia]. rewrite He in Hk. by apply elem_of_nil in Hk. }
  destruct bounds_low as (_ & _ & Hm). destruct (Hm Hne) as [Hmin Hlow].
  assert (max = match max_high (ks_high s) with Some kc => kc | None => low - 1 end) as Hmax.
  { destruct Hb as [(El & Eh & _)|(_ & _ & _ & ->)]; [|done]. rewrite El, Eh in Hne. by destruct Hne. }
  unfold max_high in Hmax. destruct (Z.le_gt_cases kc XKB_KEYCODE_MAX_CONTIGUOUS) as [Hle|Hgt].
  - assert (low_at (ks_low s) (Z.to_nat kc) = Some n) as Hl.
    { rewrite <- (rp_low s D Hr) by lia. by rewrite Z2Nat.id by lia. }
    destruct (defined_over_min _ _ Hl) as (_ & Hge & Hlt). split; [lia|].
    destruct (ks_high s !! _) as [e|] eqn:He; cbn in Hmax; [|lia]. destruct (high_key s D _ _ Hr He). lia.
  - apply (rp_high s D Hr) in Hk; [|lia]. apply list_elem_of_lookup in Hk as [j Hj]. pose proof (lookup_lt_Some _ _ _ Hj) as Hlt.
    assert (forall i e, ks_high s !! i = Some e -> (i <= j)%nat -> hk_keycode e <= kc) as Hbefore.
    { intros i e He Hij. destruct (decide (i = j)) as [->|Hne']; [rewrite Hj in He; by injection He as <-|].
      pose proof (rp_sorted s D Hr i j e _ ltac:(lia) He Hj). cbn in *. lia. }
    split.
    + rewrite Hmin. destruct (decide (ks_low s = [])) as [He|He].
      * pose proof (rp_min s D Hr) as Hmn. unfold min_ok in Hmn. rewrite He in Hmn. rewrite Hmn.
        destruct (ks_high s) as [|e h] eqn:Eh; [cbn in Hlt; lia|]. apply (Hbefore 0%nat); [done|lia].
      * destruct (min_ok_low s (rp_min s D Hr) He) as (m & -> & Hd & _).
        assert (m < length (ks_low s))%nat; [|lia].
        destruct (low_at (ks_low s) m) as [y|] eqn:E; [|done]. apply low_at_Some in E as [E%lookup_lt_Some _]. done.
    + destruct (lookup_lt_is_Some_2 (ks_high s) (length (ks_high s) - 1)) as [e He]; [lia|]. rewrite He in Hmax. cbn in Hmax.
      destruct (decide (j = length (ks_high s) - 1)%nat) as [->|Hne']; [rewrite Hj in He; injection He as <-; cbn in Hmax; lia|].
      pose proof (rp_sorted s D Hr j (length (ks_high s) - 1)%nat _ e ltac:(lia) Hj He). cbn in *. lia.
Qed.

(** *** The table of names *)

Lemma key_of_match n : is_key (nm (ks_names s) n) = true <-> exists kc, kd_keys D !! kc = Some n.
Proof using Hr.
  unfold is_key. split.
  - intros [Hf Ha]%andb_true_iff. apply negb_true_iff in Ha. pose proof (found_cases s D n Hr Hf) as H. by rewrite Ha in H.
  - intros [kc Hk]. destruct (key_entry s D kc n Hr Hk) as (-> & -> & _). done.
Qed.

Lemma final_names n m : item (map (fun m => mk_match (cm_found m) (cm_is_alias m) (cm_value m)) (map (final_match low) (ks_names s))) n = Some m ->
  match_found m = true ->
  if match_is_alias m then kd_aliases D !! n = Some (match_value m) /\ exists kc, kd_keys D !! kc = Some (match_value m)
  else exists k, item (copied_keys min low) (match_value m) = Some k /\ ky_name k = n /\ kd_keys D !! ky_keycode k = Some n.
Proof using Hb Hr.
  intros Hi Hf. assert (exists m0, item (ks_names s) n = Some m0 /\
    m = mk_match (cm_found (final_match low m0)) (cm_is_alias (final_match low m0)) (cm_value (final_match low m0))) as (m0 & Hi0 & ->).
  { unfold item in *. destruct (n <? 0); [done|]. rewrite !list_lookup_fmap in Hi. destruct (ks_names s !! Z.to_nat n) as [m0|]; [|done].
    injection Hi as <-. by exists m0. }
  assert (nm (ks_names s) n = m0) as Hnm by (unfold nm; by rewrite Hi0). cbn [match_found match_is_alias match_value] in *.
  destruct (final_found low m0 Hf) as [Hf0 Ha0]. rewrite Ha0. pose proof (found_cases s D n Hr) as Hc. rewrite Hnm in Hc. specialize (Hc Hf0).
  unfold final_match in Hf |- *. rewrite Hf0 in Hf |- *. cbn [negb] in *. destruct (cm_is_alias m0) eqn:Ea.
  - destruct (is_key (nm (ks_names s) (cm_value m0))) eqn:Ek; [|done]. split; [done|]. by apply key_of_match.
  - destruct Hc as [kc Hk]. destruct (key_entry s D kc n Hr Hk) as (_ & _ & i & Hv & Hpos). rewrite Hnm in Hv, Hpos.
    assert (n <> XKB_ATOM_NONE) as Hn by (apply (dw_keys D (rp_wf s D Hr)) in Hk as [_ ?]; unfold XKB_ATOM_NONE; lia).
    destruct (cm_low m0).
    + destruct Hpos as [-> Hl]. destruct (defined_over_min _ _ Hl) as (Hm & Hge & Hlt).
      exists (blank_key min i). rewrite Hv, item_nat. split; [by apply copied_low|].
      destruct (low_key_fields i) as [Hkc Hname]. split; [by apply Hname|]. rewrite Hkc. by rewrite (proj2 (Z.leb_le _ _)) by lia.
    + assert (0 <= low) by (destruct bounds_low; lia). eexists. cbn [cm_value set_value]. rewrite Hv.
      replace (Z.of_nat i + low) with (Z.of_nat (Z.to_nat low + i)) by lia. rewrite item_nat.
      split; [by apply copied_high|]. done.
Qed.

Lemma final_complete n :
  (exists kc, kd_keys D !! kc = Some n) \/ (exists real kc, kd_aliases D !! n = Some real /\ kd_keys D !! kc = Some real) ->
  exists m, item (map (fun m => mk_match (cm_found m) (cm_is_alias m) (cm_value m)) (map (final_match low) (ks_names s))) n = Some m /\
    match_found m = true.
Proof using Hr.
  intros H. assert (cm_found (nm (ks_names s) n) = true /\ cm_found (final_match low (nm (ks_names s) n)) = true) as [Hf Hff].
  { destruct H as [Hk|(real & kc & Ha & Hk)].
    - apply key_of_match in Hk. split; [by apply andb_true_iff in Hk as [? _]|by apply final_key].
    - destruct (alias_entry s D n real Hr Ha) as (Hf & Hal & Hv). split; [done|]. unfold final_match. rewrite Hf, Hal, Hv. cbn [negb].
      rewrite (proj2 (key_of_match real)) by (by exists kc). done. }
  apply nm_found in Hf. pose proof (item_range _ _ _ Hf) as Hrng.
  set (m := final_match low (nm (ks_names s) n)) in *. exists (mk_match (cm_found m) (cm_is_alias m) (cm_value m)). split; [|exact Hff].
  unfold item in *. rewrite (proj2 (Z.ltb_ge _ _)) in * by lia. rewrite !list_lookup_fmap, Hf. done.
Qed.
End bounds.

(** *** The keycode that no key has *)

Lemma free_keycode_spec keys : forall kc,
  (forall i j k k', (i < j)%nat -> keys !! i = Some k -> keys !! j = Some k' -> ky_keycode k' < ky_keycode k) ->
  Forall (fun k => ky_keycode k <= kc) keys ->
  kc - Z.of_nat (length keys) <= free_keycode kc keys <= kc /\ Forall (fun k => ky_keycode k <> free_keycode kc keys) keys.
Proof using Type.
  induction keys as [|k keys IH]; intros kc Hs Hle; cbn [free_keycode length]; [split; [lia|by constructor]|].
  apply list.Forall_cons in Hle as [Hk Hle]. rewrite Z.gtb_ltb.
  assert (Forall (fun k' => ky_keycode k' < ky_keycode k) keys) as Hlt.
  { apply list.Forall_forall. intros k' [j Hj]%list_elem_of_lookup. by apply (Hs 0%nat (S j) k k'); [lia|..]. }
  destruct (Z.ltb_spec (ky_keycode k) kc) as [Hc|Hc].
  - split; [lia|]. apply list.Forall_cons. split; [lia|]. eapply Forall_impl; [exact Hlt|]. cbn. lia.
  - destruct (IH (ky_keycode k - 1)) as [H1 H2].
    + intros i j k1 k2 Hij H1 H2. by apply (Hs (S i) (S j)); [lia|..].
    + eapply Forall_impl; [exact Hlt|]. cbn. lia.
    + split; [lia|]. apply list.Forall_cons. split; [lia|done].
Qed.

Lemma auto_spec min max low : copied_bounds min max low -> Z.of_nat (length (copied_keys min low)) < 2 ^ 31 ->
  kd_keys D !! (if min >? 0 then 0 else free_keycode (XKB_KEYCODE_INVALID - 1) (rev (drop (Z.to_nat low) (copied_keys min low)))) = None.
Proof using Hr.
  intros Hb Hlen. rewrite Z.gtb_ltb. destruct (Z.ltb_spec 0 min) as [Hm|Hm].
  { destruct (kd_keys D !! 0) as [n|] eqn:E; [|done]. apply (copied_range min max low Hb) in E. lia. }
  set (high := map (fun e => set_key_name (hk_name e) (set_keycode (hk_keycode e) zero_key)) (ks_high s)).
  assert (drop (Z.to_nat low) (copied_keys min low) = high) as ->.
  { unfold copied_keys. rewrite drop_app_length'; [done|]. by rewrite length_map, length_seq. }
  assert (length high <= length (copied_keys min low))%nat as Hl by (unfold copied_keys; fold high; rewrite length_app; lia).
  assert (forall i k, rev high !! i = Some k -> exists e, ks_high s !! (length (ks_high s) - S i)%nat = Some e /\ (i < length (ks_high s))%nat /\ ky_keycode k = hk_keycode e) as Hrev.
  { intros i k Hi. rewrite rev_alt in Hi. change (reverse high !! i = Some k) in Hi. pose proof (lookup_lt_Some _ _ _ Hi) as Hlt. rewrite length_reverse in Hlt.
    rewrite reverse_lookup in Hi by done. unfold high in *. rewrite length_map in *. rewrite list_lookup_fmap in Hi.
    destruct (ks_high s !! (length (ks_high s) - S i)%nat) as [e|]; [|done]. injection Hi as <-. by exists e. }
  destruct (free_keycode_spec (rev high) (XKB_KEYCODE_INVALID - 1)) as [Hrange Hnone].
  - intros i j k k' Hij (e & He & Hi & ->)%Hrev (e' & He' & Hj & ->)%Hrev. eapply (rp_sorted s D Hr); [|exact He'|exact He]. lia.
  - apply list.Forall_forall. intros k [i (e & He & _ & ->)%Hrev]%list_elem_of_lookup. destruct (high_key s D _ _ Hr He) as [_ Hk].
    apply (dw_keys D (rp_wf s D Hr)) in Hk as [Hk _]. unfold XKB_KEYCODE_MAX, XKB_KEYCODE_INVALID in *. lia.
  - destruct (kd_keys D !! free_keycode _ _) as [n|] eqn:E; [|done]. exfalso. rewrite length_rev in Hrange.
    apply (rp_high s D Hr) in E.
    2: { unfold XKB_KEYCODE_INVALID, XKB_KEYCODE_MAX_CONTIGUOUS in *. lia. }
    rewrite list.Forall_forall in Hnone. apply (Hnone (set_key_name n (set_keycode (free_keycode (XKB_KEYCODE_INVALID - 1) (rev high)) zero_key))); [|done].
    apply list_elem_of_In, in_rev, list_elem_of_In. rewrite rev_involutive. apply list_elem_of_fmap. by eexists (mk_high _ n).
Qed.
End copy.

Lemma copy_info_spec info D : info_dict info D ->
  match CopyKeyNamesInfoToKeymap info with
  | Ok r => keycodes_ok r D
  | Fault f => f = FaultAssert /\ alias_chain D
  end.
Proof.
  intros [Hr [Hll Hln] _]. unfold CopyKeyNamesInfoToKeymap.
  destruct (copy_keys_spec _ D Hr) as (min & max & low & -> & Hb). cbn [result_bind]. unfold CopyKeycodeNameLUT.
  pose proof (check_names_spec _ D Hr low (length (ks_names (kn_keycodes info))) 0 (ks_names (kn_keycodes info))) as Hn.
  specialize (Hn ltac:(lia) ltac:(done) ltac:(intros k m Hk; lia) ltac:(done)).
  destruct (check_names low _ 0 _) as [names|f]; cbn [result_bind]; [subst names|done].
  split; cbn [kr_keys kr_min_key_code kr_max_key_code kr_num_keys_low kr_key_names kr_leds kr_redirect_key_auto].
  - apply (rp_wf _ _ Hr).
  - by eapply copied_layout.
  - apply copied_blank.
  - by apply (copied_shown _ D Hr min max low Hb).
  - intros kc n. rewrite (copied_keys_dict _ D Hr min max low Hb). split.
    + intros (i & k & Hi & H). exists k. split; [|done]. apply list_elem_of_lookup. by exists i.
    + intros (k & [i Hi]%list_elem_of_lookup & H). by exists i, k.
  - intros kc n. by apply (copied_range _ D Hr min max low Hb).
  - intros n m. by apply (final_names _ D Hr min max low Hb).
  - by apply final_complete.
  - unfold CopyLedNamesToKeymap. rewrite length_map, length_take. lia.
  - apply list.Forall_forall. by intros l (x & -> & _)%list_elem_of_fmap.
  - by apply (auto_spec _ D Hr min max low Hb).
Qed.

(** The meaning of the section, empty without one. *)
Definition section_dict (parse : xkb_file_type -> include_item -> list (option XkbFile)) (file : option XkbFile) (D : keydict) : Prop :=
  match file with Some f => stmts_dict parse kd_empty (xf_defs f) D | None => D = kd_empty end.

Lemma CompileKeycodes_ok (parse : xkb_file_type -> include_item -> list (option XkbFile)) (ctx : atom_table)
    (strict : Z) (file : option XkbFile) :
  parse_wf ctx parse -> (forall f, file = Some f -> file_wf ctx f) ->
  match CompileKeycodes parse ctx strict file with
  | Ok None => True
  | Ok (Some r) => exists D, section_dict parse file D /\ keycodes_ok r D
  | Fault f => overflow_only f \/
      (f = FaultAssert /\ exists D, section_dict parse file D /\ alias_chain D)
  end.
Proof.
  intros Hp Hw. unfold CompileKeycodes. destruct file as [file|].
  2: { cbn [result_bind kn_errorCount InitKeyNamesInfo]. cbn [Z.eqb negb]. pose proof (copy_info_spec _ _ (init_info 0)) as Hc.
       destruct (CopyKeyNamesInfoToKeymap (InitKeyNamesInfo 0)) as [r|f]; cbn [result_bind]; [by exists kd_empty|].
       right. destruct Hc as [-> Hc]. split; [done|]. by exists kd_empty. }
  pose proof (HandleKeycodesFile_spec parse ctx strict Hp (S INCLUDE_MAX_DEPTH) (InitKeyNamesInfo 0) kd_empty file) as H.
  cbn [InitKeyNamesInfo kn_include_depth] in H. specialize (H ltac:(lia) ltac:(lia) (Hw file eq_refl) (init_info 0)).
  destruct (HandleKeycodesFile _ _ _ _ _ _) as [info|f]; cbn [result_bind]; [|by left].
  destruct H as (_ & _ & D & HD & Hs). destruct (Z.eqb_spec (kn_errorCount info) 0) as [He|He]; cbn [negb]; [|done].
  pose proof (copy_info_spec info D HD) as Hc. destruct (CopyKeyNamesInfoToKeymap info) as [r|f]; cbn [result_bind].
  - exists D. split; [by apply Hs|done].
  - right. destruct Hc as [-> Hc]. split; [done|]. exists D. split; [by apply Hs|done].
Qed.

(** C28. Compilation of the keycodes section, for any statements and any
    included files: it ends within the depth of includes, every access of the
    store of keycodes in bounds; if it succeeds, the keymap has exactly the
    keys and the aliases of the meaning of the section, in the order that the
    search of keys needs, its table finds each name, and the keycode reserved
    for automatic redirections is free.  The one assertion that can fail is
    that of an alias of an alias. *)
Theorem compile_keycodes_ok (parse : xkb_file_type -> include_item -> list (option XkbFile)) (ctx : atom_table)
    (strict : Z) (file : XkbFile) :
  parse_wf ctx parse -> file_wf ctx file ->
  match CompileKeycodes parse ctx strict (Some file) with
  | Ok None => True
  | Ok (Some r) => exists D, stmts_dict parse kd_empty (xf_defs file) D /\ keycodes_ok r D
  | Fault f => overflow_only f \/
      (f = FaultAssert /\ exists D, stmts_dict parse kd_empty (xf_defs file) D /\ alias_chain D)
  end.
Proof.
  intros Hp Hw. apply (CompileKeycodes_ok parse ctx strict (Some file)); [done|]. by intros f [= <-].
Qed.

(** ** A sample

    [<3> = 10; <4> = 0x2000; alias <5> = <3>; indicator 1 = "6";] after the
    inclusion of [<3> = 9; <7> = 0x1fff;]. *)

Definition included_file : XkbFile :=
  mk_file None [STMT_KEYCODE MERGE_DEFAULT 3 9; STMT_KEYCODE MERGE_DEFAULT 7 0x1fff] FILE_TYPE_KEYCODES 0.

Definition sample_parse (type : xkb_file_type) (item : include_item) : list (option XkbFile) :=
  match type with FILE_TYPE_KEYCODES => [None; Some included_file] | _ => [] end.

Definition keycodes_file : XkbFile :=
  mk_file None
    [STMT_INCLUDE (mk_include_stmt (mk_include MERGE_DEFAULT None (bytes_of "base"%string) None None) []);
     STMT_KEYCODE MERGE_DEFAULT 3 10; STMT_KEYCODE MERGE_DEFAULT 4 0x2000; STMT_ALIAS MERGE_DEFAULT 5 3;
     STMT_LED_NAME MERGE_DEFAULT 1 (STMT_EXPR_STRING_LITERAL 6)] FILE_TYPE_KEYCODES 0.

(** A table whose atoms are the letters a to g. *)
Definition letters : atom_table :=
  match intern_all atom_table_new (map bytes_of ["a"; "b"; "c"; "d"; "e"; "f"; "g"]%string) with
  | Ok (_, t) => t | Fault _ => atom_table_new end.

Definition keycodes_result_of (r : result (option keycodes_result)) : option keycodes_result :=
  match r with Ok r => r | Fault _ => None end.

(** The definition of the section replaces the included one: the key 9 has no
    name any more. *)
Lemma compile_keycodes_ok_witness :
  exists r D, CompileKeycodes sample_parse letters 0 (Some keycodes_file) = Ok (Some r) /\ keycodes_ok r D /\
    map (fun k => (ky_keycode k, ky_name k)) (drop 10 (kr_keys r)) = [(10, 3); (0x1fff, 7); (0x2000, 4)] /\
    kr_min_key_code r = 10 /\ kr_max_key_code r = 0x2000.
Proof.
  assert (parse_wf letters sample_parse) as Hp.
  { intros type item file Hin. destruct type; cbn in Hin; try (by apply elem_of_nil in Hin).
    apply list.elem_of_cons in Hin as [Hin|Hin]; [discriminate|]. apply list.elem_of_cons in Hin as [[= ->]|Hin%elem_of_nil]; [|done].
    repeat (apply Forall_cons_2 || apply Forall_nil_2); cbn; lia. }
  assert (file_wf letters keycodes_file) as Hw.
  { repeat (apply Forall_cons_2 || apply Forall_nil_2); cbn; try lia; try exact I. vm_compute. eexists. reflexivity. }
  pose proof (compile_keycodes_ok sample_parse letters 0 keycodes_file Hp Hw) as H.
  destruct (CompileKeycodes sample_parse letters 0 (Some keycodes_file)) as [[r|]|f] eqn:E; [|vm_compute in E; discriminate..].
  destruct H as (D & _ & HD). exists r, D. split; [reflexivity|]. split; [exact HD|].
  assert (keycodes_result_of (CompileKeycodes sample_parse letters 0 (Some keycodes_file)) = Some r) as Er by (rewrite E; reflexivity).
  vm_compute in Er. injection Er as <-. split; [reflexivity|]. split; reflexivity.
Defined.

(** [<1> = 1; alias <2> = <1>; alias <3> = <2>;] stops on the assertion. *)
Example alias_of_alias :
  CompileKeycodes sample_parse letters 0
    (Some (mk_file None [STMT_KEYCODE MERGE_DEFAULT 1 1; STMT_ALIAS MERGE_DEFAULT 2 1; STMT_ALIAS MERGE_DEFAULT 3 2] FILE_TYPE_KEYCODES 0))
  = Fault FaultAssert.
Proof. vm_compute. reflexivity. Qed.
