(* ===== verification/Types.v ===== *)
(** * Key types sections (src/xkbcomp/types.c)

    The definition of a key type by its fields, the statements of a types
    section, the merge of the included ones, and the types of the keymap. *)

From Stdlib Require Import ZArith Lia String.
From stdpp Require Import base tactics list numbers.
From S2P Require Import Prelude Numbers Atom Keymap KeysymNames KeysymName Expr Vmod KeyAliases Derived Actions Sections Keycodes.

(** ** Data *)

Definition TYPE_FIELD_MASK : Z := 2 ^ 0.
Definition TYPE_FIELD_MAP : Z := 2 ^ 1.
Definition TYPE_FIELD_PRESERVE : Z := 2 ^ 2.
Definition TYPE_FIELD_LEVEL_NAME : Z := 2 ^ 3.

Definition PARSER_NO_UNKNOWN_TYPES_GLOBAL_FIELDS : Z := 2 ^ 4.
Definition PARSER_NO_UNKNOWN_TYPE_FIELDS : Z := 2 ^ 5.

Record KeyTypeInfo := mk_type_info {
  ty_defined : Z;
  ty_merge : merge_mode;
  ty_name : Z;
  ty_mods : Z;
  ty_num_levels : Z;
  ty_entries : list xkb_key_type_entry;
  ty_level_names : list Z
}.

Definition ty_add_defined (f : Z) (t : KeyTypeInfo) : KeyTypeInfo :=
  mk_type_info (Z.lor (ty_defined t) f) (ty_merge t) (ty_name t) (ty_mods t) (ty_num_levels t) (ty_entries t) (ty_level_names t).
Definition ty_set_mods (m : Z) (t : KeyTypeInfo) : KeyTypeInfo :=
  mk_type_info (ty_defined t) (ty_merge t) (ty_name t) m (ty_num_levels t) (ty_entries t) (ty_level_names t).
Definition ty_set_entries (n : Z) (l : list xkb_key_type_entry) (t : KeyTypeInfo) : KeyTypeInfo :=
  mk_type_info (ty_defined t) (ty_merge t) (ty_name t) (ty_mods t) n l (ty_level_names t).
Definition ty_set_level_names (l : list Z) (t : KeyTypeInfo) : KeyTypeInfo :=
  mk_type_info (ty_defined t) (ty_merge t) (ty_name t) (ty_mods t) (ty_num_levels t) (ty_entries t) l.
Definition ty_set_merge (m : merge_mode) (t : KeyTypeInfo) : KeyTypeInfo :=
  mk_type_info (ty_defined t) m (ty_name t) (ty_mods t) (ty_num_levels t) (ty_entries t) (ty_level_names t).

(** [KeyTypesInfo] *)
Record KeyTypesInfo := mk_types_info {
  kt_name : option (list Z);
  kt_errorCount : Z;
  kt_include_depth : nat;
  kt_types : list KeyTypeInfo;
  kt_mods : xkb_mod_set
}.

Definition kt_add_errors (n : Z) (i : KeyTypesInfo) : KeyTypesInfo :=
  mk_types_info (kt_name i) (kt_errorCount i + n) (kt_include_depth i) (kt_types i) (kt_mods i).
Definition kt_set_types (l : list KeyTypeInfo) (i : KeyTypesInfo) : KeyTypesInfo :=
  mk_types_info (kt_name i) (kt_errorCount i) (kt_include_depth i) l (kt_mods i).
Definition kt_set_mods (m : xkb_mod_set) (i : KeyTypesInfo) : KeyTypesInfo :=
  mk_types_info (kt_name i) (kt_errorCount i) (kt_include_depth i) (kt_types i) m.
Definition kt_set_name (n : option (list Z)) (i : KeyTypesInfo) : KeyTypesInfo :=
  mk_types_info n (kt_errorCount i) (kt_include_depth i) (kt_types i) (kt_mods i).

Definition InitKeyTypesInfo (include_depth : nat) (mods : xkb_mod_set) : KeyTypesInfo :=
  mk_types_info None 0 include_depth [] (InitVMods mods (Nat.ltb 0 include_depth)).

(** The types with the new one; always a success. *)
Definition AddKeyType (types : list KeyTypeInfo) (new : KeyTypeInfo) : list KeyTypeInfo :=
  match list_find (fun old => ty_name old = ty_name new) types with
  | Some (i, _) => if clobbers (ty_merge new) then <[i := new]> types else types
  | None => types ++ [new]
  end.

Definition MergeIncludedKeyTypes (into from : KeyTypesInfo) (merge : merge_mode) : result KeyTypesInfo :=
  if kt_errorCount from >? 0 then Ok (kt_add_errors (kt_errorCount from) into)
  else
    let+ mods := MergeModSets (kt_mods into) (kt_mods from) merge in
    let into := kt_set_mods mods into in
    let into := match kt_name into with None => kt_set_name (kt_name from) into | Some _ => into end in
    Ok (match kt_types into with
        | [] => kt_set_types (kt_types from) into
        | types => kt_set_types (foldl AddKeyType types (map (ty_set_merge merge) (kt_types from))) into
        end).

(** ** Fields of a type

    The type after the field, with the returned boolean. *)

Definition SetModifiers (ctx : atom_table) (mods : xkb_mod_set) (type : KeyTypeInfo) (arrayNdx : option ExprDef)
    (value : ExprDef) : result (bool * KeyTypeInfo) :=
  match arrayNdx with
  | Some _ => Ok (false, type)
  | None =>
      let+ mask := ExprResolveModMask ctx value MOD_BOTH (ms_enum mods) in
      Ok (match mask with
          | None => (false, type)
          | Some mask => if has_flag (ty_defined type) TYPE_FIELD_MASK then (false, type) else (true, ty_set_mods mask type)
          end)
  end.

Definition FindMatchingMapEntry (type : KeyTypeInfo) (mods : Z) : option (nat * xkb_key_type_entry) :=
  list_find (fun entry => m_mods (e_mods entry) = mods) (ty_entries type).

Definition AddMapEntry (type : KeyTypeInfo) (new : xkb_key_type_entry) (clobber report : bool) : KeyTypeInfo :=
  let num_levels := if e_level new >=? ty_num_levels type then e_level new + 1 else ty_num_levels type in
  match FindMatchingMapEntry type (m_mods (e_mods new)) with
  | Some (i, old) =>
      if report && negb (e_level old =? e_level new) then
        if clobber
        then ty_set_entries num_levels (<[i := mk_entry (e_level new) (e_mods old) (e_preserve old)]> (ty_entries type)) type
        else type
      else type
  | None => ty_set_entries num_levels (ty_entries type ++ [new]) type
  end.

(** The masks of a new entry are those that [ComputeEffectiveMask] sets. *)
Definition SetMapEntry (ctx : atom_table) (mods : xkb_mod_set) (type : KeyTypeInfo) (arrayNdx : option ExprDef)
    (value : ExprDef) : result (bool * KeyTypeInfo) :=
  match arrayNdx with
  | None => Ok (false, type)
  | Some arrayNdx =>
      let+ mask := ExprResolveModMask ctx arrayNdx MOD_BOTH (ms_enum mods) in
      match mask with
      | None => Ok (false, type)
      | Some mask =>
          let mask := if negb (Z.ldiff mask (ty_mods type) =? 0) then Z.land mask (ty_mods type) else mask in
          let+ level := ExprResolveLevel ctx value in
          Ok (match level with
              | None => (false, type)
              | Some level => (true, AddMapEntry type (mk_entry level (mk_xkb_mods mask 0) (mk_xkb_mods 0 0)) true true)
              end)
      end
  end.

Definition AddPreserve (type : KeyTypeInfo) (mods preserve_mods : Z) : KeyTypeInfo :=
  match FindMatchingMapEntry type mods with
  | Some (i, entry) =>
      if m_mods (e_preserve entry) =? preserve_mods then type
      else ty_set_entries (ty_num_levels type)
             (<[i := mk_entry (e_level entry) (e_mods entry) (mk_xkb_mods preserve_mods (m_mask (e_preserve entry)))]> (ty_entries type)) type
  | None =>
      ty_set_entries (ty_num_levels type)
        (ty_entries type ++ [mk_entry 0 (mk_xkb_mods mods 0) (mk_xkb_mods preserve_mods 0)]) type
  end.

Definition SetPreserve (ctx : atom_table) (mods : xkb_mod_set) (type : KeyTypeInfo) (arrayNdx : option ExprDef)
    (value : ExprDef) : result (bool * KeyTypeInfo) :=
  match arrayNdx with
  | None => Ok (false, type)
  | Some arrayNdx =>
      let+ mask := ExprResolveModMask ctx arrayNdx MOD_BOTH (ms_enum mods) in
      match mask with
      | None => Ok (false, type)
      | Some mask =>
          let mask := if negb (Z.ldiff mask (ty_mods type) =? 0) then Z.land mask (ty_mods type) else mask in
          let+ preserve := ExprResolveModMask ctx value MOD_BOTH (ms_enum mods) in
          Ok (match preserve with
              | None => (false, type)
              | Some preserve =>
                  let preserve := if negb (Z.ldiff preserve mask =? 0) then Z.land preserve mask else preserve in
                  (true, AddPreserve type mask preserve)
              end)
      end
  end.

Definition AddLevelName (type : KeyTypeInfo) (level name : Z) (clobber : bool) : result KeyTypeInfo :=
  if level >=? Z.of_nat (length (ty_level_names type)) then
    let+ names := update_item (resize0 XKB_ATOM_NONE (ty_level_names type) (level + 1)) level (fun _ => name) in
    Ok (ty_set_level_names names type)
  else match item (ty_level_names type) level with
  | None => Fault FaultOutOfBounds
  | Some old =>
      if old =? name then Ok type
      else if negb (old =? XKB_ATOM_NONE) && negb clobber then Ok type
      else
        let+ names := update_item (ty_level_names type) level (fun _ => name) in
        Ok (ty_set_level_names names type)
  end.

Definition SetLevelName (ctx : atom_table) (type : KeyTypeInfo) (arrayNdx : option ExprDef) (value : ExprDef)
    : result (bool * KeyTypeInfo) :=
  match arrayNdx with
  | None => Ok (false, type)
  | Some arrayNdx =>
      let+ level := ExprResolveLevel ctx arrayNdx in
      match level with
      | None => Ok (false, type)
      | Some level =>
          match ExprResolveString value with
          | None => Ok (false, type)
          | Some level_name => let+ type := AddLevelName type level level_name true in Ok (true, type)
          end
      end
  end.

Definition name_is (str : list Z) (name : string) : bool := istreq str (bytes_of name).

Definition SetKeyTypeField (ctx : atom_table) (strict : Z) (mods : xkb_mod_set) (type : KeyTypeInfo) (field : list Z)
    (arrayNdx : option ExprDef) (value : ExprDef) : result (bool * KeyTypeInfo) :=
  let defined (f : Z) (r : result (bool * KeyTypeInfo)) := let+ r := r in Ok (fst r, ty_add_defined f (snd r)) in
  if name_is field "modifiers" then defined TYPE_FIELD_MASK (SetModifiers ctx mods type arrayNdx value)
  else if name_is field "map" then defined TYPE_FIELD_MAP (SetMapEntry ctx mods type arrayNdx value)
  else if name_is field "preserve" then defined TYPE_FIELD_PRESERVE (SetPreserve ctx mods type arrayNdx value)
  else if name_is field "levelname" || name_is field "level_name"
  then defined TYPE_FIELD_LEVEL_NAME (SetLevelName ctx type arrayNdx value)
  else Ok (lenient strict PARSER_NO_UNKNOWN_TYPE_FIELDS, type).

(** ** Statements *)

Fixpoint HandleKeyTypeBody (ctx : atom_table) (strict : Z) (mods : xkb_mod_set) (def : list VarDef) (type : KeyTypeInfo)
    (ok : bool) : result (bool * KeyTypeInfo) :=
  match def with
  | [] => Ok (ok, type)
  | v :: def =>
      let+ lhs := var_lhs ctx v in
      match lhs with
      | None => HandleKeyTypeBody ctx strict mods def type false
      | Some (Some elem, _, _) => HandleKeyTypeBody ctx strict mods def type (ok && name_is elem "type")
      | Some (None, field, arrayNdx) =>
          let+ r := SetKeyTypeField ctx strict mods type field arrayNdx (vr_value v) in
          HandleKeyTypeBody ctx strict mods def (snd r) (ok && fst r)
      end
  end.

Definition HandleKeyTypeDef (ctx : atom_table) (strict : Z) (info : KeyTypesInfo) (merge : merge_mode) (name : Z)
    (body : list VarDef) : result (bool * KeyTypesInfo) :=
  let+ r := HandleKeyTypeBody ctx strict (kt_mods info) body (mk_type_info 0 merge name 0 1 [] []) true in
  Ok (if fst r then (true, kt_set_types (AddKeyType (kt_types info) (snd r)) info) else (false, kt_add_errors 1 info)).

Definition HandleGlobalVar (ctx : atom_table) (strict : Z) (stmt : VarDef) : result bool :=
  let+ lhs := var_lhs ctx stmt in
  Ok (match lhs with
      | None => false
      | Some (Some elem, _, _) => name_is elem "type" || lenient strict PARSER_NO_UNKNOWN_STATEMENTS
      | Some (None, _, _) => lenient strict PARSER_NO_UNKNOWN_TYPES_GLOBAL_FIELDS
      end).

Section files.
Context (parse : xkb_file_type -> include_item -> list (option XkbFile)) (ctx : atom_table) (strict : Z).
Variable handle_file : KeyTypesInfo -> XkbFile -> result KeyTypesInfo.

Fixpoint include_types (depth : nat) (included : KeyTypesInfo) (stmts : list include_item) : result (option KeyTypesInfo) :=
  match stmts with
  | [] => Ok (Some included)
  | stmt :: stmts =>
      match ProcessIncludeFile parse stmt FILE_TYPE_TYPES with
      | None => Ok None
      | Some file =>
          let+ next_incl := handle_file (InitKeyTypesInfo (S depth) (kt_mods included)) file in
          let+ included := MergeIncludedKeyTypes included next_incl (inc_merge stmt) in
          include_types depth included stmts
      end
  end.

Definition HandleIncludeKeyTypes (info : KeyTypesInfo) (include : IncludeStmt) : result (bool * KeyTypesInfo) :=
  if ExceedsIncludeMaxDepth (kt_include_depth info) then Ok (false, kt_add_errors 10 info)
  else
    let+ r := include_types (kt_include_depth info)
                (kt_set_name (inc_stmt (inc_first include)) (InitKeyTypesInfo (S (kt_include_depth info)) (kt_mods info)))
                (inc_items include) in
    match r with
    | None => Ok (false, kt_add_errors 10 info)
    | Some included =>
        let+ info := MergeIncludedKeyTypes info included (inc_merge (inc_first include)) in
        Ok (kt_errorCount info =? 0, info)
    end.

Definition handle_types_stmt (info : KeyTypesInfo) (stmt : statement) : result (bool * KeyTypesInfo) :=
  match stmt with
  | STMT_INCLUDE include => HandleIncludeKeyTypes info include
  | STMT_TYPE merge name body => HandleKeyTypeDef ctx strict info merge name body
  | STMT_VAR var => let+ ok := HandleGlobalVar ctx strict var in Ok (ok, info)
  | STMT_VMOD vmod => let+ r := HandleVModDef ctx (kt_mods info) vmod in Ok (fst r, kt_set_mods (snd r) info)
  | STMT_UNKNOWN => Ok (lenient strict PARSER_NO_UNKNOWN_STATEMENTS, info)
  | _ => Ok (false, info)
  end.

Fixpoint handle_types_stmts (info : KeyTypesInfo) (defs : list statement) : result KeyTypesInfo :=
  match defs with
  | [] => Ok info
  | stmt :: defs =>
      let+ r := handle_types_stmt info stmt in
      let '(ok, info) := r in
      let info := if ok : bool then info else kt_add_errors 1 info in
      if kt_errorCount info >? 10 then Ok info else handle_types_stmts info defs
  end.
End files.

(** [fuel] bounds the depth of the included files. *)
Fixpoint HandleKeyTypesFile (parse : xkb_file_type -> include_item -> list (option XkbFile)) (ctx : atom_table)
    (strict : Z) (fuel : nat) (info : KeyTypesInfo) (file : XkbFile) : result KeyTypesInfo :=
  match fuel with
  | O => Fault FaultFuel
  | S fuel =>
      handle_types_stmts parse ctx strict (HandleKeyTypesFile parse ctx strict fuel)
        (kt_set_name (xf_name file) info) (xf_defs file)
  end.

(** ** The keymap *)

(** [struct xkb_key_type]: its fields that the queries read, and the others. *)
Record compiled_type := mk_compiled_type {
  ct_name : Z;
  ct_type : xkb_key_type;
  ct_level_names : list Z;
  ct_required : bool
}.

(** [canonical_types]: the atoms of the four names, that of ["ONE_LEVEL"]
    first. *)
Definition CopyKeyTypesToKeymap (canonical_types : list Z) (types : list KeyTypeInfo) : list compiled_type :=
  match types with
  | [] => [mk_compiled_type (default XKB_ATOM_NONE (head canonical_types)) (mk_key_type (mk_xkb_mods 0 0) 1 []) [] true]
  | _ =>
      map (fun def => mk_compiled_type (ty_name def)
             (mk_key_type (mk_xkb_mods (ty_mods def) 0) (ty_num_levels def) (ty_entries def)) (ty_level_names def)
             ((ty_num_levels def <=? 2) && existsb (Z.eqb (ty_name def)) canonical_types)) types
  end.

Record types_result := mk_types_result {
  tr_types : list compiled_type;
  tr_mods : xkb_mod_set;
  tr_section_name : option (list Z)
}.

Definition CompileKeyTypes (parse : xkb_file_type -> include_item -> list (option XkbFile)) (ctx : atom_table)
    (strict : Z) (canonical_types : list Z) (mods : xkb_mod_set) (file : option XkbFile) : result (option types_result) :=
  let info := InitKeyTypesInfo 0 mods in
  let+ info := match file with
               | Some file => HandleKeyTypesFile parse ctx strict (S INCLUDE_MAX_DEPTH) info file
               | None => Ok info
               end in
  Ok (if negb (kt_errorCount info =? 0) then None
      else Some (mk_types_result (CopyKeyTypesToKeymap canonical_types (kt_types info)) (kt_mods info) (option_map XkbEscapeMapName (kt_name info)))).
