(* ===== verification/TypesSpec.v ===== *)
(** * Compilation of key types sections

    The types of a section are well formed, with distinct names and distinct
    modifiers, and its virtual modifiers extend those of the keymap. *)

From Stdlib Require Import ZArith Lia String.
From stdpp Require Import base tactics list numbers.
From S2P Require Import Prelude Numbers Atom AtomSpec Keymap KeysymNames KeysymName Expr ExprSpec Vmod VmodSpec KeyAliases Derived DerivedInv Actions Sections Safe Keycodes Types.

(** ** Well-formed types *)

Definition submask (a b : Z) : Prop := Z.ldiff a b = 0.

Record entry_wf (mods num_levels : Z) (e : xkb_key_type_entry) : Prop := {
  ew_level : 0 <= e_level e < num_levels;
  ew_mods : is_u32 (m_mods (e_mods e)) /\ submask (m_mods (e_mods e)) mods;
  ew_preserve : is_u32 (m_mods (e_preserve e)) /\ submask (m_mods (e_preserve e)) (m_mods (e_mods e))
}.

Definition entry_mods (e : xkb_key_type_entry) : Z := m_mods (e_mods e).

Record type_wf (t : KeyTypeInfo) : Prop := {
  tw_mods : is_u32 (ty_mods t);
  tw_levels : 1 <= ty_num_levels t <= XKB_LEVEL_MAX_IMPL;
  tw_entries : Forall (entry_wf (ty_mods t) (ty_num_levels t)) (ty_entries t);
  tw_distinct : NoDup (map entry_mods (ty_entries t));
  tw_names : Z.of_nat (length (ty_level_names t)) <= XKB_LEVEL_MAX_IMPL
}.

(** The modifiers of a type are empty until they are defined. *)
Definition type_inv (t : KeyTypeInfo) : Prop :=
  type_wf t /\ (has_flag (ty_defined t) TYPE_FIELD_MASK = false -> ty_mods t = 0).

Lemma submask_land a b : submask (Z.land a b) b.
Proof. unfold submask. bitblast. Qed.

Lemma submask_0 a : is_u32 a -> submask a 0 -> a = 0.
Proof. unfold submask. by rewrite Z.ldiff_0_r. Qed.

(** The mask that a field keeps. *)
Lemma kept_mask a b : is_u32 a -> let m := if negb (Z.ldiff a b =? 0) then Z.land a b else a in is_u32 m /\ submask m b.
Proof.
  intros Ha m. unfold m. destruct (Z.eqb_spec (Z.ldiff a b) 0) as [E|E]; cbn [negb].
  - by split.
  - split; [by apply is_u32_land_l|apply submask_land].
Qed.

Lemma entry_wf_levels mods n n' e : n <= n' -> entry_wf mods n e -> entry_wf mods n' e.
Proof. intros Hn [Hl Hm Hp]. split; [lia|done|done]. Qed.

Lemma find_entry_lookup t mods i e : FindMatchingMapEntry t mods = Some (i, e) -> ty_entries t !! i = Some e /\ entry_mods e = mods.
Proof. intros (Hi & Hm & _)%list_find_Some. done. Qed.

Lemma find_entry_none t mods : FindMatchingMapEntry t mods = None -> mods ∉ map entry_mods (ty_entries t).
Proof.
  intros Hf%list_find_None Hin. apply list_elem_of_fmap in Hin as (e & -> & He). rewrite list.Forall_forall in Hf. by apply (Hf e).
Qed.

Lemma insert_entry_mods (l : list xkb_key_type_entry) i e e' : l !! i = Some e -> entry_mods e' = entry_mods e ->
  map entry_mods (<[i := e']> l) = map entry_mods l.
Proof.
  intros Hi He. change (entry_mods <$> <[i := e']> l = entry_mods <$> l). rewrite list_fmap_insert. rewrite He.
  apply list_insert_id. rewrite list_lookup_fmap, Hi. done.
Qed.

Section fields.
Context (ctx : atom_table) (strict : Z) (mods : xkb_mod_set) (Hmods : vmods_ok mods).

Lemma add_entry_wf t e clobber report : type_wf t ->
  0 <= e_level e < XKB_LEVEL_MAX_IMPL ->
  entry_wf (ty_mods t) (Z.max (ty_num_levels t) (e_level e + 1)) e -> type_wf (AddMapEntry t e clobber report).
Proof using Type.
  intros Ht Hl He. unfold AddMapEntry.
  set (n := if e_level e >=? ty_num_levels t then e_level e + 1 else ty_num_levels t).
  assert (n = Z.max (ty_num_levels t) (e_level e + 1)) as Hn.
  { unfold n. rewrite Z.geb_leb. destruct (Z.leb_spec (ty_num_levels t) (e_level e)); lia. }
  pose proof (tw_levels t Ht) as Hlv. rewrite <- Hn in He.
  assert (Forall (entry_wf (ty_mods t) n) (ty_entries t)) as Hall.
  { refine (list.Forall_impl _ _ _ (tw_entries t Ht) _). intros e' He'. eapply entry_wf_levels; [|exact He']. lia. }
  destruct (FindMatchingMapEntry t (m_mods (e_mods e))) as [[i old]|] eqn:Ef.
  - apply find_entry_lookup in Ef as [Hi Hm]. destruct (report && _); [|done]. destruct clobber; [|done].
    split; cbn; [apply Ht|lia| | |apply Ht].
    + apply Forall_insert; [done|]. destruct (Forall_lookup_1 _ _ _ _ Hall Hi) as [_ H2 H3]. split; cbn; [|done|done].
      apply (ew_level _ _ _ He).
    + rewrite (insert_entry_mods _ _ old); [apply Ht|done|done].
  - apply find_entry_none in Ef. split; cbn; [apply Ht|lia| | |apply Ht].
    + apply list.Forall_app. split; [done|]. by apply list.Forall_singleton.
    + rewrite map_app. apply list.NoDup_app. split; [apply Ht|]. split; [|apply list.NoDup_singleton].
      intros x Hx Hin. apply list_elem_of_singleton in Hin. subst x. done.
Qed.

Lemma add_preserve_wf t m p : type_wf t -> is_u32 m -> submask m (ty_mods t) -> is_u32 p -> submask p m ->
  type_wf (AddPreserve t m p).
Proof using Type.
  intros Ht Hm Hms Hp Hps. unfold AddPreserve. destruct (FindMatchingMapEntry t m) as [[i e]|] eqn:Ef.
  - apply find_entry_lookup in Ef as [Hi He]. destruct (_ =? _); [done|]. split; cbn; try apply Ht.
    + apply Forall_insert; [apply Ht|]. destruct (Forall_lookup_1 _ _ _ _ (tw_entries t Ht) Hi) as [H1 H2 _].
      split; cbn; [done|done|]. change (m_mods (e_mods e)) with (entry_mods e). by rewrite He.
    + rewrite (insert_entry_mods _ _ e); [apply Ht|done|done].
  - apply find_entry_none in Ef. pose proof (tw_levels t Ht). split; cbn; try apply Ht.
    + apply list.Forall_app. split; [apply Ht|]. apply list.Forall_singleton. split; cbn; [lia|done|done].
    + rewrite map_app. apply list.NoDup_app. split; [apply Ht|]. split; [|apply list.NoDup_singleton].
      intros x Hx Hin. apply list_elem_of_singleton in Hin. subst x. done.
Qed.

Lemma level_name_safe t level name : type_wf t -> 0 <= level < XKB_LEVEL_MAX_IMPL ->
  safe (fun t' => type_wf t' /\ ty_defined t' = ty_defined t /\ ty_mods t' = ty_mods t) (AddLevelName t level name true).
Proof using Type.
  intros Ht Hl. unfold AddLevelName.
  assert (forall l, (level < Z.of_nat (length l)) -> Z.of_nat (length l) <= XKB_LEVEL_MAX_IMPL ->
    safe (fun t' => type_wf t' /\ ty_defined t' = ty_defined t /\ ty_mods t' = ty_mods t)
      (let+ names := update_item l level (fun _ => name) in Ok (ty_set_level_names names t))) as Hset.
  { intros l H1 H2. unfold update_item. destruct (item_of_nat l level) as [x Hx]; [lia|]. rewrite Hx. cbn [result_bind safe].
    split; [|done]. split; cbn; try apply Ht. by rewrite length_insert. }
  rewrite Z.geb_leb. destruct (Z.leb_spec (Z.of_nat (length (ty_level_names t))) level).
  - apply Hset; unfold resize0; rewrite length_app, length_replicate; lia.
  - destruct (item_of_nat (ty_level_names t) level) as [x Hx]; [lia|]. rewrite Hx. destruct (x =? name); [done|].
    destruct (negb _ && _); [done|]. apply Hset; [done|apply Ht].
Qed.

Lemma add_entry_fields t e clobber report : ty_defined (AddMapEntry t e clobber report) = ty_defined t /\
  ty_mods (AddMapEntry t e clobber report) = ty_mods t.
Proof using Type. unfold AddMapEntry. destruct (FindMatchingMapEntry _ _) as [[]|]; [destruct (_ && _), clobber|]; done. Qed.

Lemma add_preserve_fields t m p : ty_defined (AddPreserve t m p) = ty_defined t /\ ty_mods (AddPreserve t m p) = ty_mods t.
Proof using Type. unfold AddPreserve. destruct (FindMatchingMapEntry _ _) as [[]|]; [destruct (_ =? _)|]; done. Qed.

Definition field_ok (t : KeyTypeInfo) (r : bool * KeyTypeInfo) : Prop :=
  type_wf (snd r) /\ ty_defined (snd r) = ty_defined t /\ (ty_mods (snd r) = ty_mods t).

Lemma SetMapEntry_safe t ndx value : type_wf t -> (match ndx with Some e => expr_wf ctx e | None => True end) -> expr_wf ctx value ->
  safe (field_ok t) (SetMapEntry ctx mods t ndx value).
Proof using Hmods.
  intros Ht Hn Hv. unfold SetMapEntry. destruct ndx as [ndx|]; [|done].
  eapply safe_bind; [by apply vmods_mask_safe|]. intros [m|] Hm; [|done]. destruct (kept_mask m (ty_mods t) (Hm m eq_refl)) as [Hu Hs].
  eapply safe_bind; [by apply level_safe|]. intros [l|] Hl; [|done]. specialize (Hl l eq_refl).
  split; [cbn [snd]|apply add_entry_fields].
  apply add_entry_wf; [done|done|]. split; cbn; [lia|done|]. split; [apply is_u32_0|]. unfold submask. apply Z.ldiff_0_l.
Qed.

Lemma SetPreserve_safe t ndx value : type_wf t -> (match ndx with Some e => expr_wf ctx e | None => True end) -> expr_wf ctx value ->
  safe (field_ok t) (SetPreserve ctx mods t ndx value).
Proof using Hmods.
  intros Ht Hn Hv. unfold SetPreserve. destruct ndx as [ndx|]; [|done].
  eapply safe_bind; [by apply vmods_mask_safe|]. intros [m|] Hm; [|done]. destruct (kept_mask m (ty_mods t) (Hm m eq_refl)) as [Hu Hs].
  eapply safe_bind; [by apply vmods_mask_safe|]. intros [p|] Hp; [|done].
  set (m' := if negb _ then _ else m) in *. destruct (kept_mask p m' (Hp p eq_refl)) as [Hu' Hs'].
  split; [cbn [snd]|apply add_preserve_fields].
  by apply add_preserve_wf.
Qed.

Lemma SetLevelName_safe t ndx value : type_wf t -> (match ndx with Some e => expr_wf ctx e | None => True end) ->
  safe (field_ok t) (SetLevelName ctx t ndx value).
Proof using Type.
  intros Ht Hn. unfold SetLevelName. destruct ndx as [ndx|]; [|done].
  eapply safe_bind; [by apply level_safe|]. intros [l|] Hl; [|done]. destruct (ExprResolveString value); [|done].
  eapply safe_bind; [apply level_name_safe; [done|by apply Hl]|]. intros t' Ht'. done.
Qed.

Lemma defined_inv t r f : Z.land f TYPE_FIELD_MASK = 0 -> type_inv t -> safe (field_ok t) r ->
  safe (fun r => type_inv (snd r)) (let+ r := r in Ok (fst r, ty_add_defined f (snd r))).
Proof using Type.
  intros Hf [Ht Hm] Hr. eapply safe_bind; [exact Hr|]. intros [b t'] (Hw & Hd & Hmm). cbn in *. split.
  - destruct Hw as [H1 H2 H3 H4 H5]. by split.
  - cbn. rewrite Hd, Hmm. intros H. apply Hm. apply has_flag_false in H. apply has_flag_false.
    rewrite Z.land_lor_distr_l, Hf, Z.lor_0_r in H. done.
Qed.

Lemma SetModifiers_safe t ndx value : type_inv t -> expr_wf ctx value ->
  safe (fun r => type_inv (snd r)) (let+ r := SetModifiers ctx mods t ndx value in Ok (fst r, ty_add_defined TYPE_FIELD_MASK (snd r))).
Proof using Hmods.
  intros [Ht Hm] Hv.
  assert (forall t', type_wf t' -> type_inv (ty_add_defined TYPE_FIELD_MASK t')) as Hdef.
  { intros t' [H1 H2 H3 H4 H5]. split; [by split|]. cbn. intros H%has_flag_false. exfalso. revert H.
    rewrite Z.land_lor_distr_l. change (Z.land TYPE_FIELD_MASK TYPE_FIELD_MASK) with 1. intros [_ H]%Z.lor_eq_0_iff. done. }
  eapply safe_bind with (P := fun r => type_wf (snd r)); [|intros r Hr; by apply Hdef].
  unfold SetModifiers. destruct ndx; [done|]. eapply safe_bind; [by apply vmods_mask_safe|]. intros [m|] Hmk; [|done].
  destruct (has_flag (ty_defined t) TYPE_FIELD_MASK); [done|]. specialize (Hm eq_refl). specialize (Hmk m eq_refl).
  split; cbn; try apply Ht; [done|]. refine (list.Forall_impl _ _ _ (tw_entries t Ht) _). intros e [H1 [H2 H3] H4].
  split; [done| |done]. split; [done|]. rewrite Hm in H3. rewrite (submask_0 _ H2 H3). apply Z.ldiff_0_l.
Qed.

Lemma SetKeyTypeField_safe t field ndx value : type_inv t -> (match ndx with Some e => expr_wf ctx e | None => True end) ->
  expr_wf ctx value -> safe (fun r => type_inv (snd r)) (SetKeyTypeField ctx strict mods t field ndx value).
Proof using Hmods.
  intros Ht Hn Hv. unfold SetKeyTypeField. cbv zeta. destruct (name_is field "modifiers"); [by apply SetModifiers_safe|].
  destruct (name_is field "map"); [apply (defined_inv t); [done|done|apply SetMapEntry_safe; [apply Ht|done|done]]|].
  destruct (name_is field "preserve"); [apply (defined_inv t); [done|done|apply SetPreserve_safe; [apply Ht|done|done]]|].
  destruct (_ || _); [apply (defined_inv t); [done|done|apply SetLevelName_safe; [apply Ht|done]]|]. done.
Qed.

Lemma HandleKeyTypeBody_safe def : forall t ok, type_inv t -> Forall (var_wf ctx) def ->
  safe (fun r => type_inv (snd r) /\ ty_name (snd r) = ty_name t /\ ty_merge (snd r) = ty_merge t) (HandleKeyTypeBody ctx strict mods def t ok).
Proof using Hmods.
  induction def as [|v def IH]; intros t ok Ht Hw; cbn [HandleKeyTypeBody]; [done|].
  apply list.Forall_cons in Hw as [Hv Hw]. eapply safe_bind; [by apply var_lhs_safe|].
  intros [[[[el|] f] ndx]|] Hl; [by apply IH| |by apply IH].
  eapply safe_bind with (P := fun r => type_inv (snd r) /\ ty_name (snd r) = ty_name t /\ ty_merge (snd r) = ty_merge t).
  2: { intros r (H1 & H2 & H3). eapply safe_mono; [by apply IH|]. intros r' (? & -> & ->). done. }
  pose proof (SetKeyTypeField_safe t f ndx (vr_value v) Ht (Hl _ _ _ eq_refl) (proj2 Hv)) as Hs.
  destruct (SetKeyTypeField ctx strict mods t f ndx (vr_value v)) as [[b t']|] eqn:E; [|done]. cbn in Hs |- *.
  split; [done|]. revert E. unfold SetKeyTypeField, SetModifiers, SetMapEntry, SetPreserve, SetLevelName, AddMapEntry, AddPreserve, AddLevelName, result_bind.
  cbv zeta. repeat case_match; intros; simplify_eq; done.
Qed.
End fields.

(** ** Sections *)

(** The types of a section, whose virtual modifiers extend those of [base]. *)
Record types_inv (base : xkb_mod_set) (info : KeyTypesInfo) : Prop := {
  ti_mods : vmods_ok (kt_mods info);
  ti_extends : extends base (kt_mods info);
  ti_types : Forall type_wf (kt_types info);
  ti_names : NoDup (map ty_name (kt_types info));
  ti_errors : 0 <= kt_errorCount info
}.

Lemma kt_errors_inv base info n : 0 <= n -> types_inv base info -> types_inv base (kt_add_errors n info).
Proof. intros Hn []. split; cbn; try done. lia. Qed.

Lemma init_types_inv depth mods : vmods_ok mods -> types_inv mods (InitKeyTypesInfo depth mods).
Proof.
  intros Hm. destruct (init_ok mods (Nat.ltb 0 depth) Hm) as [H1 H2]. split; [done|done|constructor|constructor|done].
Qed.

Lemma add_type_inv types new : Forall type_wf types -> NoDup (map ty_name types) -> type_wf new ->
  Forall type_wf (AddKeyType types new) /\ NoDup (map ty_name (AddKeyType types new)).
Proof.
  intros Ht Hn Hw. unfold AddKeyType. destruct (list_find _ types) as [[i old]|] eqn:Ef.
  - apply list_find_Some in Ef as (Hi & Ho & _). destruct (clobbers _); [|done]. split; [by apply Forall_insert|].
    change (NoDup (ty_name <$> <[i := new]> types)). rewrite list_fmap_insert, <- Ho.
    rewrite list_insert_id; [done|]. by rewrite list_lookup_fmap, Hi.
  - apply list_find_None in Ef. split; [by apply list.Forall_app; split; [|apply list.Forall_singleton]|].
    rewrite map_app. apply list.NoDup_app. split; [done|]. split; [|apply list.NoDup_singleton].
    intros x (t & -> & Hin)%list_elem_of_fmap Hx. apply list_elem_of_singleton in Hx.
    rewrite list.Forall_forall in Ef. by apply (Ef t).
Qed.

Lemma set_merge_wf merge t : type_wf t -> type_wf (ty_set_merge merge t).
Proof. intros []. by split. Qed.

Lemma add_types_inv new : forall types, Forall type_wf types -> NoDup (map ty_name types) -> Forall type_wf new ->
  Forall type_wf (foldl AddKeyType types new) /\ NoDup (map ty_name (foldl AddKeyType types new)).
Proof.
  induction new as [|t new IH]; intros types Ht Hn Hw; cbn [foldl]; [done|].
  apply list.Forall_cons in Hw as [Hw Hws]. destruct (add_type_inv types t Ht Hn Hw). by apply IH.
Qed.

Lemma merge_types_inv base into from merge : types_inv base into -> types_inv (kt_mods into) from ->
  exists info, MergeIncludedKeyTypes into from merge = Ok info /\ types_inv base info /\
    kt_include_depth info = kt_include_depth into.
Proof.
  intros Hi Hf. unfold MergeIncludedKeyTypes. destruct (_ >? 0).
  { eexists. split; [done|]. split; [apply kt_errors_inv; [apply Hf|done]|done]. }
  destruct Hi as [Hm He Ht Hn Hc], Hf as [Hm' He' Ht' Hn' Hc'].
  destruct (MergeModSets_extends (kt_mods into) (kt_mods from) merge Hm Hm' He') as (mods & -> & Hok & Hext). cbn [result_bind].
  set (into1 := match kt_name _ with Some _ => _ | None => _ end).
  assert (kt_types into1 = kt_types into /\ kt_mods into1 = mods /\ kt_errorCount into1 = kt_errorCount into /\
    kt_include_depth into1 = kt_include_depth into) as (H1 & H2 & H3 & H4) by (unfold into1; by destruct (kt_name _)).
  assert (extends base mods) by (by apply (extends_trans _ (kt_mods into))).
  assert (forall l, Forall type_wf l -> NoDup (map ty_name l) -> types_inv base (kt_set_types l into1)) as Hset.
  { intros l Hl Hd. split; cbn; rewrite ?H2, ?H3; done. }
  rewrite H1. eexists. split; [done|]. destruct (kt_types into) as [|t types] eqn:Et.
  - split; [by apply Hset|]. by rewrite <- H4.
  - destruct (add_types_inv (map (ty_set_merge merge) (kt_types from)) (t :: types)) as [Ha Hb]; [done|done| |].
    { apply list.Forall_fmap. refine (list.Forall_impl _ _ _ Ht' _). intros t'. apply set_merge_wf. }
    split; [by apply Hset|]. by rewrite <- H4.
Qed.

Section sections.
Context (parse : xkb_file_type -> include_item -> list (option XkbFile)) (ctx : atom_table) (strict : Z).
Hypothesis (Hparse : parse_wf ctx parse).

(** What a statement or a file keeps. *)
Definition kept (base : xkb_mod_set) (depth : nat) (info : KeyTypesInfo) : Prop :=
  types_inv base info /\ kt_include_depth info = depth.

Definition file_handled (handle_file : KeyTypesInfo -> XkbFile -> result KeyTypesInfo) (depth : nat) : Prop :=
  forall mods file, vmods_ok mods -> file_wf ctx file -> safe (kept mods depth) (handle_file (InitKeyTypesInfo depth mods) file).

Section handlers.
Context (handle_file : KeyTypesInfo -> XkbFile -> result KeyTypesInfo).

Lemma include_types_inv depth base items : file_handled handle_file (S depth) -> forall included,
  types_inv base included ->
  safe (fun r => forall included', r = Some included' -> types_inv base included') (include_types parse handle_file depth included items).
Proof using Hparse.
  intros Hh. induction items as [|item items IH]; intros included Hi; cbn [include_types]; [by intros ? [= <-]|].
  destruct (ProcessIncludeFile parse item FILE_TYPE_TYPES) as [file|] eqn:Hf; [|done].
  eapply safe_bind; [apply Hh; [apply Hi|by eapply process_wf]|]. intros next [Hnext _].
  destruct (merge_types_inv base included next (inc_merge item) Hi Hnext) as (inc' & -> & Hinc & _). by apply IH.
Qed.

Lemma HandleIncludeKeyTypes_inv info base include :
  ((kt_include_depth info < INCLUDE_MAX_DEPTH)%nat -> file_handled handle_file (S (kt_include_depth info))) ->
  types_inv base info -> safe (fun r => kept base (kt_include_depth info) (snd r)) (HandleIncludeKeyTypes parse handle_file info include).
Proof using Hparse.
  intros Hh Hi. unfold HandleIncludeKeyTypes, ExceedsIncludeMaxDepth.
  assert (kept base (kt_include_depth info) (kt_add_errors 10 info)) as Herr by (split; [by apply kt_errors_inv|done]).
  destruct (Nat.leb_spec INCLUDE_MAX_DEPTH (kt_include_depth info)) as [Hd|Hd]; [exact Herr|].
  eapply safe_bind; [apply (include_types_inv _ (kt_mods info) _ (Hh Hd))|].
  { destruct (init_types_inv (S (kt_include_depth info)) (kt_mods info)); [apply Hi|]. by split. }
  intros [included|] Hr; [|exact Herr].
  destruct (merge_types_inv base info included (inc_merge (inc_first include)) Hi (Hr _ eq_refl)) as (info' & -> & Hi' & Hd'). done.
Qed.

Lemma HandleKeyTypeDef_inv info base merge name body : types_inv base info -> Forall (var_wf ctx) body ->
  safe (fun r => kept base (kt_include_depth info) (snd r)) (HandleKeyTypeDef ctx strict info merge name body).
Proof using Type.
  intros Hi Hb. unfold HandleKeyTypeDef. eapply safe_bind.
  { apply HandleKeyTypeBody_safe; [apply Hi| |exact Hb]. split; [|done]. split; cbn; try constructor; try done; unfold XKB_LEVEL_MAX_IMPL; lia. }
  intros [b t] ([Ht _] & _). cbn [fst snd] in *. destruct b; [|split; [by apply kt_errors_inv|done]].
  destruct Hi as [Hm He Hty Hn Hc]. destruct (add_type_inv _ t Hty Hn Ht). split; [by split|done].
Qed.

Lemma HandleGlobalVar_safe v : var_wf ctx v -> safe (fun _ => True) (HandleGlobalVar ctx strict v).
Proof using Type. intros Hv. eapply safe_bind; [by apply var_lhs_safe|]. done. Qed.

Lemma handle_types_stmt_inv info base stmt :
  ((kt_include_depth info < INCLUDE_MAX_DEPTH)%nat -> file_handled handle_file (S (kt_include_depth info))) ->
  stmt_wf ctx stmt -> types_inv base info ->
  safe (fun r => kept base (kt_include_depth info) (snd r)) (handle_types_stmt parse ctx strict handle_file info stmt).
Proof using Hparse.
  intros Hh Hw Hi. unfold handle_types_stmt. destruct stmt; try done.
  - by apply HandleIncludeKeyTypes_inv.
  - eapply safe_bind; [by apply HandleGlobalVar_safe|]. done.
  - apply HandleKeyTypeDef_inv; [done|apply Hw].
  - destruct Hi as [Hm He Hty Hn Hc]. eapply safe_bind; [by apply vmod_def_safe|]. intros [b mods] [Hm' He']. split; [|done].
    split; try done. by apply (extends_trans _ (kt_mods info)).
Qed.

Lemma handle_types_stmts_inv base stmts : forall info,
  ((kt_include_depth info < INCLUDE_MAX_DEPTH)%nat -> file_handled handle_file (S (kt_include_depth info))) ->
  Forall (stmt_wf ctx) stmts -> types_inv base info ->
  safe (kept base (kt_include_depth info)) (handle_types_stmts parse ctx strict handle_file info stmts).
Proof using Hparse.
  induction stmts as [|stmt stmts IH]; intros info Hh Hw Hi; cbn [handle_types_stmts]; [done|].
  apply list.Forall_cons in Hw as [Hw Hws]. eapply safe_bind; [by apply handle_types_stmt_inv|].
  intros [ok info1] [Hi1 Hd1]. cbn [snd] in *.
  assert (kept base (kt_include_depth info) (if ok then info1 else kt_add_errors 1 info1)) as [Hi2 Hd2]
    by (destruct ok; split; try done; by apply kt_errors_inv).
  destruct (_ >? 10); [done|]. rewrite <- Hd2. apply IH; [by rewrite Hd2|done|done].
Qed.
End handlers.

(** The fuel is over the depth that is left. *)
Lemma HandleKeyTypesFile_inv fuel : forall info base file,
  (kt_include_depth info <= INCLUDE_MAX_DEPTH)%nat -> (INCLUDE_MAX_DEPTH < kt_include_depth info + fuel)%nat ->
  file_wf ctx file -> types_inv base info ->
  safe (kept base (kt_include_depth info)) (HandleKeyTypesFile parse ctx strict fuel info file).
Proof using Hparse.
  induction fuel as [|fuel IH]; intros info base file Hd Hf Hw Hi; cbn [HandleKeyTypesFile]; [lia|].
  apply (handle_types_stmts_inv _ base (xf_defs file) (kt_set_name (xf_name file) info)).
  - cbn. intros Hlt mods file' Hm Hw'. apply IH; cbn; [lia|lia|done|by apply init_types_inv].
  - done.
  - by destruct Hi.
Qed.
End sections.

(** ** The types of the keymap *)

Definition ct_entries_ok (t : xkb_key_type) : Prop :=
  Forall (fun e => submask (entry_mods e) (m_mods (t_mods t)) /\ submask (m_mods (e_preserve e)) (entry_mods e)) (t_entries t) /\
  NoDup (map entry_mods (t_entries t)).

(** At least one type, of distinct names; each is well formed, and selects a
    level by masks of its own modifiers, no two the same. *)
Record types_ok (base : xkb_mod_set) (r : types_result) : Prop := {
  to_nonempty : tr_types r <> [];
  to_names : NoDup (map ct_name (tr_types r));
  to_wf : Forall (fun t => key_type_wf (ct_type t) /\ t_num_levels (ct_type t) <= XKB_LEVEL_MAX_IMPL /\ is_u32 (m_mods (t_mods (ct_type t))))
    (tr_types r);
  to_entries : Forall (fun t => ct_entries_ok (ct_type t)) (tr_types r);
  to_level_names : Forall (fun t => Z.of_nat (length (ct_level_names t)) <= XKB_LEVEL_MAX_IMPL) (tr_types r);
  to_mods : vmods_ok (tr_mods r);
  to_extends : extends base (tr_mods r)
}.

Lemma copy_types_ok base names info : types_inv base info ->
  types_ok base (mk_types_result (CopyKeyTypesToKeymap names (kt_types info)) (kt_mods info) (option_map XkbEscapeMapName (kt_name info))).
Proof.
  intros [Hm He Ht Hn Hc]. unfold CopyKeyTypesToKeymap. destruct (kt_types info) as [|t types] eqn:Et.
  - split; cbn; try done; try apply list.NoDup_singleton; try apply list.Forall_singleton; try done.
  - rewrite <- Et in *. assert (kt_types info <> []) as Hne by (by rewrite Et). clear Et t types. split; cbn; try done.
    + by destruct (kt_types info).
    + by rewrite map_map.
    + apply list.Forall_fmap. refine (list.Forall_impl _ _ _ Ht _). intros t [Hu Hl Hes _ _]. cbn. split; [|by split; [apply Hl|]]. split; cbn.
      * refine (list.Forall_impl _ _ _ Hes _). intros e. by intros [? _ _].
      * unfold XKB_LEVEL_MAX_IMPL, XKB_LEVEL_INVALID in *. lia.
    + apply list.Forall_fmap. refine (list.Forall_impl _ _ _ Ht _). intros t [Hu Hl Hes Hd _]. split; [|done].
      refine (list.Forall_impl _ _ _ Hes _). intros e [_ [_ H1] [_ H2]]. by split.
    + apply list.Forall_fmap. refine (list.Forall_impl _ _ _ Ht _). by intros t [].
Qed.

Lemma CompileKeyTypes_ok (parse : xkb_file_type -> include_item -> list (option XkbFile)) (ctx : atom_table)
    (strict : Z) (canonical_types : list Z) (mods : xkb_mod_set) (file : option XkbFile) :
  parse_wf ctx parse -> vmods_ok mods -> (forall f, file = Some f -> file_wf ctx f) ->
  match CompileKeyTypes parse ctx strict canonical_types mods file with
  | Ok None => True
  | Ok (Some r) => types_ok mods r
  | Fault f => overflow_only f
  end.
Proof.
  intros Hp Hm Hw. pose proof (init_types_inv 0 mods Hm) as Hi.
  change (safe (fun o => match o with Some r => types_ok mods r | None => True end) (CompileKeyTypes parse ctx strict canonical_types mods file)).
  unfold CompileKeyTypes. cbv zeta. eapply safe_bind with (P := types_inv mods).
  - destruct file as [file|]; [|done]. eapply safe_mono; [apply HandleKeyTypesFile_inv; try done; cbn; try lia; by apply Hw|].
    by intros info [].
  - intros info Hinfo. destruct (negb _); [done|]. by apply copy_types_ok.
Qed.

(** C32. Compilation of the types section, for any statements and any included
    files: it ends within the depth of includes, without an assertion or an
    access out of bounds; if it succeeds there is at least one type, the names
    are distinct, each type has from 1 to 2048 levels, its entries select
    levels it has, by masks of its modifiers, no two the same, and preserve
    modifiers of their masks; and the virtual modifiers of the keymap are only
    added to. *)
Theorem compile_types_ok (parse : xkb_file_type -> include_item -> list (option XkbFile)) (ctx : atom_table)
    (strict : Z) (canonical_types : list Z) (mods : xkb_mod_set) (file : option XkbFile) :
  parse_wf ctx parse -> vmods_ok mods -> (forall f, file = Some f -> file_wf ctx f) ->
  match CompileKeyTypes parse ctx strict canonical_types mods file with
  | Ok None => True
  | Ok (Some r) => types_ok mods r
  | Fault f => overflow_only f
  end.
Proof. apply CompileKeyTypes_ok. Qed.

(** ** A sample

    [virtual_modifiers V;
     type "TWO" { modifiers = Shift + V; map[Shift] = 2; map[Shift + Lock] = 3;
     preserve[Shift] = Shift; level_name[1] = "Base"; };] *)

Definition type_words : atom_table :=
  match intern_all atom_table_new (map bytes_of ["Shift"; "Lock"; "Control"; "Mod1"; "Mod2"; "Mod3"; "Mod4"; "Mod5";
    "modifiers"; "map"; "preserve"; "level_name"; "TWO"; "V"; "Base"]%string) with
  | Ok (_, t) => t | Fault _ => atom_table_new end.

Definition plus (a b : ExprDef) : ExprDef := ExprBinary STMT_EXPR_ADD a b.

Definition two_type : statement :=
  STMT_TYPE MERGE_DEFAULT 13
    [mk_var MERGE_DEFAULT (Some (STMT_EXPR_IDENT 9)) (plus (STMT_EXPR_IDENT 1) (STMT_EXPR_IDENT 14)) [];
     mk_var MERGE_DEFAULT (Some (STMT_EXPR_ARRAY_REF 0 10 (STMT_EXPR_IDENT 1))) (STMT_EXPR_INTEGER_LITERAL 2) [];
     mk_var MERGE_DEFAULT (Some (STMT_EXPR_ARRAY_REF 0 10 (plus (STMT_EXPR_IDENT 1) (STMT_EXPR_IDENT 2)))) (STMT_EXPR_INTEGER_LITERAL 3) [];
     mk_var MERGE_DEFAULT (Some (STMT_EXPR_ARRAY_REF 0 11 (STMT_EXPR_IDENT 1))) (STMT_EXPR_IDENT 1) [];
     mk_var MERGE_DEFAULT (Some (STMT_EXPR_ARRAY_REF 0 12 (STMT_EXPR_INTEGER_LITERAL 1))) (STMT_EXPR_STRING_LITERAL 15) []].

Definition types_file : XkbFile :=
  mk_file None [STMT_VMOD (mk_vmod_def MERGE_DEFAULT 14 None); two_type] FILE_TYPE_TYPES 0.

Definition no_includes (type : xkb_file_type) (item : include_item) : list (option XkbFile) := [].

Lemma no_includes_wf ctx : parse_wf ctx no_includes.
Proof. intros type item file Hin. by apply elem_of_nil in Hin. Qed.

Lemma sample_mods_ok : vmods_ok sample_mods.
Proof.
  split; [reflexivity | cbn; unfold XKB_MAX_MODS; lia | by apply is_u32_check |].
  intros i m Hi. assert (i < 32)%nat as Hlt by (apply lookup_lt_Some in Hi; exact Hi).
  do 32 (destruct i as [|i]; [vm_compute in Hi; injection Hi as <-; split; [by apply is_u32_check | vm_compute; done]|]).
  lia.
Qed.

Definition types_of (r : result (option types_result)) : list compiled_type :=
  match r with Ok (Some r) => tr_types r | _ => [] end.

(** The third level, of [Shift + Lock], replaces the second one, of [Shift]:
    [Lock] is not a modifier of the type. *)
Lemma compile_types_ok_witness :
  exists r, CompileKeyTypes no_includes type_words 0 [13] sample_mods (Some types_file) = Ok (Some r) /\
    types_ok sample_mods r /\
    tr_types r = [mk_compiled_type 13 (mk_key_type (mk_xkb_mods 0x101 0) 3
      [mk_entry 2 (mk_xkb_mods 1 0) (mk_xkb_mods 1 0)]) [15] false].
Proof.
  pose proof (compile_types_ok no_includes type_words 0 [13] sample_mods (Some types_file) (no_includes_wf _) sample_mods_ok) as H.
  assert (forall f, Some types_file = Some f -> file_wf type_words f) as Hw.
  { intros f [= <-]. apply Forall_cons_2; [split; [discriminate|exact I]|]. apply Forall_cons_2; [|apply Forall_nil_2].
    split; [vm_compute; eexists; reflexivity|].
    repeat (apply Forall_cons_2 || apply Forall_nil_2); (split; [eexists; split; [reflexivity|]|]); vm_compute;
      repeat (exact I || (eexists; reflexivity) || split). }
  specialize (H Hw). destruct (CompileKeyTypes _ _ _ _ _ _) as [[r|]|f] eqn:E; [|vm_compute in E; discriminate..].
  exists r. split; [reflexivity|]. split; [exact H|].
  assert (types_of (CompileKeyTypes no_includes type_words 0 [13] sample_mods (Some types_file)) = tr_types r) as Er by (rewrite E; reflexivity).
  rewrite <- Er. vm_compute. reflexivity.
Defined.
