(* ===== verification/Compat.v ===== *)
(** * Compatibility sections (src/xkbcomp/compat.c)

    The interpretations of keysyms and the maps of indicators: their fields,
    their defaults, their merge, the statements of a compat section and what
    they leave in the keymap.

    An interpretation with several actions holds a pointer to an allocated
    array; the copies of the default interpretation share it.  The arrays are
    a store, threaded with the pending computations; a freed one is [None]. *)

From Stdlib Require Import ZArith Lia String.
From stdpp Require Import base tactics list numbers.
From S2P Require Import Prelude Numbers Atom Keymap State KeysymNames KeysymName Expr Vmod KeyAliases Derived Actions Sections Keycodes Types.

(** ** Data *)

Definition SI_FIELD_VIRTUAL_MOD : Z := 2 ^ 0.
Definition SI_FIELD_ACTION : Z := 2 ^ 1.
Definition SI_FIELD_AUTO_REPEAT : Z := 2 ^ 2.
Definition SI_FIELD_LEVEL_ONE_ONLY : Z := 2 ^ 3.

Definition LED_FIELD_MODS : Z := 2 ^ 0.
Definition LED_FIELD_GROUPS : Z := 2 ^ 1.
Definition LED_FIELD_CTRLS : Z := 2 ^ 2.

Definition PARSER_NO_UNKNOWN_COMPAT_GLOBAL_FIELDS : Z := 2 ^ 6.
Definition PARSER_NO_UNKNOWN_INTERPRET_FIELDS : Z := 2 ^ 7.
Definition PARSER_NO_UNKNOWN_LED_FIELDS : Z := 2 ^ 8.

#[global] Instance xkb_match_operation_eq_dec : EqDecision xkb_match_operation.
Proof. solve_decision. Defined.

(** [num_actions] and the union [a] of [struct xkb_sym_interpret]: an action
    in place, or a pointer to an array of at least two. *)
Inductive interp_actions :=
| NoActions
| OneAction (a : paction)
| ActionArray (ptr : nat).

Record SymInterpInfo := mk_si {
  sy_defined : Z;
  sy_merge : merge_mode;
  sy_sym : Z;
  sy_match : xkb_match_operation;
  sy_mods : Z;
  sy_virtual_mod : Z;
  sy_level_one_only : bool;
  sy_repeat : bool;
  sy_actions : interp_actions
}.

Record LedInfo := mk_led_info {
  le_defined : Z;
  le_merge : merge_mode;
  le_led : led
}.

(** What the sections share: the pending computations, and the arrays of
    actions that are allocated. *)
Record shared := mk_shared {
  sh_pendings : list pending_computation;
  sh_arrays : list (option (list paction))
}.

Definition sh_set_pendings (l : list pending_computation) (sh : shared) : shared := mk_shared l (sh_arrays sh).
Definition sh_set_arrays (l : list (option (list paction))) (sh : shared) : shared := mk_shared (sh_pendings sh) l.

Record CompatInfo := mk_compat_info {
  ci_name : option (list Z);
  ci_errorCount : Z;
  ci_include_depth : nat;
  ci_default_interp : SymInterpInfo;
  ci_interps : list SymInterpInfo;
  ci_default_led : LedInfo;
  ci_leds : list LedInfo;
  ci_default_actions : ActionsInfo;
  ci_mods : xkb_mod_set
}.

Definition ci_set_name n (i : CompatInfo) := mk_compat_info n (ci_errorCount i) (ci_include_depth i) (ci_default_interp i) (ci_interps i) (ci_default_led i) (ci_leds i) (ci_default_actions i) (ci_mods i).
Definition ci_add_errors n (i : CompatInfo) := mk_compat_info (ci_name i) (ci_errorCount i + n) (ci_include_depth i) (ci_default_interp i) (ci_interps i) (ci_default_led i) (ci_leds i) (ci_default_actions i) (ci_mods i).
Definition ci_set_default_interp si (i : CompatInfo) := mk_compat_info (ci_name i) (ci_errorCount i) (ci_include_depth i) si (ci_interps i) (ci_default_led i) (ci_leds i) (ci_default_actions i) (ci_mods i).
Definition ci_set_interps l (i : CompatInfo) := mk_compat_info (ci_name i) (ci_errorCount i) (ci_include_depth i) (ci_default_interp i) l (ci_default_led i) (ci_leds i) (ci_default_actions i) (ci_mods i).
Definition ci_set_default_led d (i : CompatInfo) := mk_compat_info (ci_name i) (ci_errorCount i) (ci_include_depth i) (ci_default_interp i) (ci_interps i) d (ci_leds i) (ci_default_actions i) (ci_mods i).
Definition ci_set_leds l (i : CompatInfo) := mk_compat_info (ci_name i) (ci_errorCount i) (ci_include_depth i) (ci_default_interp i) (ci_interps i) (ci_default_led i) l (ci_default_actions i) (ci_mods i).
Definition ci_set_default_actions d (i : CompatInfo) := mk_compat_info (ci_name i) (ci_errorCount i) (ci_include_depth i) (ci_default_interp i) (ci_interps i) (ci_default_led i) (ci_leds i) d (ci_mods i).
Definition ci_set_mods m (i : CompatInfo) := mk_compat_info (ci_name i) (ci_errorCount i) (ci_include_depth i) (ci_default_interp i) (ci_interps i) (ci_default_led i) (ci_leds i) (ci_default_actions i) m.

(** A zeroed structure, then [InitInterp]; [MATCH_NONE] is 0. *)
Definition InitInterp : SymInterpInfo :=
  mk_si 0 MERGE_DEFAULT XKB_KEY_NoSymbol MATCH_NONE 0 XKB_MOD_INVALID false false NoActions.

Definition zero_led : led := mk_cled (mk_led XKB_ATOM_NONE 0 0 0 (mk_xkb_mods 0 0) 0) false.

Definition InitLED : LedInfo := mk_led_info 0 MERGE_DEFAULT zero_led.

Definition InitCompatInfo (keymap_info : keymap_info) (include_depth : nat) (mods : xkb_mod_set) : CompatInfo :=
  mk_compat_info None 0 include_depth InitInterp [] InitLED [] (InitActionsInfo (ki_redirect_key_auto keymap_info))
    (InitVMods mods (Nat.ltb 0 include_depth)).

(** [free] of an array of actions. *)
Definition free_actions (a : interp_actions) (sh : shared) : result shared :=
  match a with
  | ActionArray ptr =>
      match sh_arrays sh !! ptr with
      | Some (Some _) => Ok (sh_set_arrays (<[ptr := None]> (sh_arrays sh)) sh)
      | _ => Fault FaultUseAfterFree
      end
  | _ => Ok sh
  end.

(** ** Interpretations *)

Definition FindMatchingInterp (interps : list SymInterpInfo) (new : SymInterpInfo) : option (nat * SymInterpInfo) :=
  list_find (fun old => sy_sym old = sy_sym new /\ sy_mods old = sy_mods new /\ sy_match old = sy_match new) interps.

Definition UseNewInterpField (field old new : Z) (clobber : bool) : bool :=
  if negb (has_flag old field) then has_flag new field else has_flag new field && clobber.

Definition sy_define (f : Z) (si : SymInterpInfo) : SymInterpInfo :=
  mk_si (Z.lor (sy_defined si) f) (sy_merge si) (sy_sym si) (sy_match si) (sy_mods si) (sy_virtual_mod si) (sy_level_one_only si) (sy_repeat si) (sy_actions si).
Definition sy_set_virtual_mod v (si : SymInterpInfo) := mk_si (sy_defined si) (sy_merge si) (sy_sym si) (sy_match si) (sy_mods si) v (sy_level_one_only si) (sy_repeat si) (sy_actions si).
Definition sy_set_level_one_only b (si : SymInterpInfo) := mk_si (sy_defined si) (sy_merge si) (sy_sym si) (sy_match si) (sy_mods si) (sy_virtual_mod si) b (sy_repeat si) (sy_actions si).
Definition sy_set_repeat b (si : SymInterpInfo) := mk_si (sy_defined si) (sy_merge si) (sy_sym si) (sy_match si) (sy_mods si) (sy_virtual_mod si) (sy_level_one_only si) b (sy_actions si).
Definition sy_set_actions a (si : SymInterpInfo) := mk_si (sy_defined si) (sy_merge si) (sy_sym si) (sy_match si) (sy_mods si) (sy_virtual_mod si) (sy_level_one_only si) (sy_repeat si) a.
Definition sy_set_merge m (si : SymInterpInfo) := mk_si (sy_defined si) m (sy_sym si) (sy_match si) (sy_mods si) (sy_virtual_mod si) (sy_level_one_only si) (sy_repeat si) (sy_actions si).
Definition sy_set_trigger sym match_ mods (si : SymInterpInfo) := mk_si (sy_defined si) (sy_merge si) sym match_ mods (sy_virtual_mod si) (sy_level_one_only si) (sy_repeat si) (sy_actions si).

(** The actions of [new] in [old], whose array is freed. *)
Definition take_actions (sh : shared) (old new : SymInterpInfo) : result (SymInterpInfo * shared) :=
  let+ sh := free_actions (sy_actions old) sh in
  Ok (sy_define SI_FIELD_ACTION (sy_set_actions (sy_actions new) old), sh).

(** The old interpretation, field by field; the new one, which gives its array
    away, is not used afterwards. *)
Definition merge_field (field : Z) (new : SymInterpInfo) (clobber : bool) (set : SymInterpInfo -> SymInterpInfo)
    (old : SymInterpInfo) : SymInterpInfo :=
  if UseNewInterpField field (sy_defined old) (sy_defined new) clobber then sy_define field (set old) else old.

Definition merge_interp_fields (sh : shared) (old new : SymInterpInfo) (clobber : bool) : result (SymInterpInfo * shared) :=
  let old := merge_field SI_FIELD_VIRTUAL_MOD new clobber (sy_set_virtual_mod (sy_virtual_mod new)) old in
  let+ r := if UseNewInterpField SI_FIELD_ACTION (sy_defined old) (sy_defined new) clobber
            then take_actions sh old new else Ok (old, sh) in
  let '(old, sh) := r in
  let old := merge_field SI_FIELD_AUTO_REPEAT new clobber (sy_set_repeat (sy_repeat new)) old in
  Ok (merge_field SI_FIELD_LEVEL_ONE_ONLY new clobber (sy_set_level_one_only (sy_level_one_only new)) old, sh).

Definition MergeInterp (sh : shared) (old new : SymInterpInfo) : result (SymInterpInfo * shared) :=
  match sy_merge new with
  | MERGE_REPLACE => Ok (new, sh)
  | MERGE_AUGMENT => merge_interp_fields sh old new false
  | _ => merge_interp_fields sh old new true
  end.

(** Always a success. *)
Definition AddInterp (sh : shared) (interps : list SymInterpInfo) (new : SymInterpInfo)
    : result (list SymInterpInfo * shared) :=
  match FindMatchingInterp interps new with
  | Some (i, old) => let+ r := MergeInterp sh old new in Ok (<[i := fst r]> interps, snd r)
  | None => Ok (interps ++ [new], sh)
  end.

Definition symInterpretMatchMaskNames : list (list Z * xkb_match_operation) := names
  [("NoneOf", MATCH_NONE); ("AnyOfOrNone", MATCH_ANY_OR_NONE); ("AnyOf", MATCH_ANY); ("AllOf", MATCH_ALL);
   ("Exactly", MATCH_EXACTLY)]%string.

Definition ResolveStateAndPredicate (ctx : atom_table) (mods : xkb_mod_set) (expr : option ExprDef)
    : result (option (xkb_match_operation * Z)) :=
  let mask pred e :=
    let+ m := ExprResolveModMask ctx e MOD_REAL (ms_enum mods) in
    Ok (match m with Some m => Some (pred, m) | None => None end) in
  match expr with
  | None => Ok (Some (MATCH_ANY_OR_NONE, MOD_REAL_MASK_ALL))
  | Some (STMT_EXPR_ACTION_DECL name args) =>
      let+ pred_txt := xkb_atom_text ctx name in
      match (match pred_txt with Some txt => LookupString symInterpretMatchMaskNames txt | None => None end), args with
      | Some pred, [arg] => mask pred arg
      | _, _ => Ok None
      end
  | Some (STMT_EXPR_IDENT ident as e) =>
      let+ pred_txt := xkb_atom_text ctx ident in
      if match pred_txt with Some txt => name_is txt "any" | None => false end
      then Ok (Some (MATCH_ANY, MOD_REAL_MASK_ALL))
      else mask MATCH_EXACTLY e
  | Some e => mask MATCH_EXACTLY e
  end.

(** ** Maps of indicators *)

(** The name of the indicator in a message: the default one has no name, the
    others have one. *)
Definition LEDText (ctx : atom_table) (is_default : bool) (ledi : LedInfo) : result unit :=
  let+ name := xkb_atom_text ctx (led_name (ld_led (le_led ledi))) in
  asserting (if is_default then negb (bool_decide (is_Some name)) else bool_decide (is_Some name)) (Ok tt).

Definition UseNewLEDField (field old new : Z) (clobber : bool) : bool :=
  if negb (has_flag old field) then has_flag new field else has_flag new field && clobber.

Definition le_define (f : Z) (l : LedInfo) : LedInfo := mk_led_info (Z.lor (le_defined l) f) (le_merge l) (le_led l).
Definition le_set_merge m (l : LedInfo) := mk_led_info (le_defined l) m (le_led l).
Definition le_set_name n (l : LedInfo) := mk_led_info (le_defined l) (le_merge l)
  (mk_cled (mk_led n (led_which_groups (ld_led (le_led l))) (led_groups (ld_led (le_led l))) (led_which_mods (ld_led (le_led l))) (led_mods (ld_led (le_led l))) (led_ctrls (ld_led (le_led l)))) (ld_pending_groups (le_led l))).
Definition le_set_modifiers which m (l : LedInfo) := mk_led_info (le_defined l) (le_merge l)
  (mk_cled (mk_led (led_name (ld_led (le_led l))) (led_which_groups (ld_led (le_led l))) (led_groups (ld_led (le_led l))) which m (led_ctrls (ld_led (le_led l)))) (ld_pending_groups (le_led l))).
Definition le_set_groups which g pending (l : LedInfo) := mk_led_info (le_defined l) (le_merge l)
  (mk_cled (mk_led (led_name (ld_led (le_led l))) which g (led_which_mods (ld_led (le_led l))) (led_mods (ld_led (le_led l))) (led_ctrls (ld_led (le_led l)))) pending).
Definition le_set_ctrls c (l : LedInfo) := mk_led_info (le_defined l) (le_merge l)
  (mk_cled (mk_led (led_name (ld_led (le_led l))) (led_which_groups (ld_led (le_led l))) (led_groups (ld_led (le_led l))) (led_which_mods (ld_led (le_led l))) (led_mods (ld_led (le_led l))) c) (ld_pending_groups (le_led l))).

Definition same_map (old new : led) : bool :=
  (m_mods (led_mods (ld_led old)) =? m_mods (led_mods (ld_led new))) &&
  Bool.eqb (ld_pending_groups old) (ld_pending_groups new) &&
  (led_groups (ld_led old) =? led_groups (ld_led new)) &&
  (led_ctrls (ld_led old) =? led_ctrls (ld_led new)) &&
  (led_which_mods (ld_led old) =? led_which_mods (ld_led new)) &&
  (led_which_groups (ld_led old) =? led_which_groups (ld_led new)).

Definition merge_led_field (field : Z) (new : LedInfo) (clobber : bool) (set : LedInfo -> LedInfo) (old : LedInfo) : LedInfo :=
  if UseNewLEDField field (le_defined old) (le_defined new) clobber then le_define field (set old) else old.

Definition merge_led_fields (old new : LedInfo) (clobber : bool) : LedInfo :=
  let led := ld_led (le_led new) in
  let old := merge_led_field LED_FIELD_MODS new clobber (le_set_modifiers (led_which_mods led) (led_mods led)) old in
  let old := merge_led_field LED_FIELD_GROUPS new clobber
               (le_set_groups (led_which_groups led) (led_groups led) (ld_pending_groups (le_led new))) old in
  merge_led_field LED_FIELD_CTRLS new clobber (le_set_ctrls (led_ctrls led)) old.

(** The reports of duplicated fields, which depend on the verbosity, are
    left out: their assertions are those of maps of the section. *)
Definition MergeLedMap (old new : LedInfo) : LedInfo :=
  if same_map (le_led old) (le_led new) then le_define (le_defined new) old
  else match le_merge new with
  | MERGE_REPLACE => new
  | MERGE_AUGMENT => merge_led_fields old new false
  | _ => merge_led_fields old new true
  end.

Definition le_name (l : LedInfo) : Z := led_name (ld_led (le_led l)).

(** [leds] holds the [num_leds] maps; [None]: there is no room. *)
Definition AddLedMap (leds : list LedInfo) (new : LedInfo) : option (list LedInfo) :=
  match list_find (fun old => le_name old = le_name new) leds with
  | Some (i, old) => Some (<[i := MergeLedMap old new]> leds)
  | None => if Nat.leb XKB_MAX_LEDS (length leds) then None else Some (leds ++ [new])
  end.

(** ** The merge of an included section *)

Fixpoint merge_interps (sh : shared) (into from : list SymInterpInfo) (merge : merge_mode)
    : result (list SymInterpInfo * shared) :=
  match from with
  | [] => Ok (into, sh)
  | si :: from => let+ r := AddInterp sh into (sy_set_merge merge si) in merge_interps (snd r) (fst r) from merge
  end.

Fixpoint merge_led_maps (into : CompatInfo) (from : list LedInfo) (merge : merge_mode) : CompatInfo :=
  match from with
  | [] => into
  | ledi :: from =>
      merge_led_maps (match AddLedMap (ci_leds into) (le_set_merge merge ledi) with
                      | Some leds => ci_set_leds leds into
                      | None => ci_add_errors 1 into
                      end) from merge
  end.

Definition MergeIncludedCompatMaps (sh : shared) (into from : CompatInfo) (merge : merge_mode) : result (CompatInfo * shared) :=
  if ci_errorCount from >? 0 then Ok (ci_add_errors (ci_errorCount from) into, sh)
  else
    let+ mods := MergeModSets (ci_mods into) (ci_mods from) merge in
    let into := ci_set_mods mods into in
    let into := match ci_name into with None => ci_set_name (ci_name from) into | Some _ => into end in
    let+ r := match ci_interps into with
              | [] => Ok (ci_interps from, sh)
              | interps => merge_interps sh interps (ci_interps from) merge
              end in
    let into := ci_set_interps (fst r) into in
    Ok (match ci_leds into with
        | [] => ci_set_leds (ci_leds from) into
        | _ => merge_led_maps into (ci_leds from) merge
        end, snd r).

(** ** Fields *)

(** Text of src/text.c *)
Definition useModMapValueNames : list LookupEntry := entries_of
  [("LevelOne", 1); ("Level1", 1); ("AnyLevel", 0); ("any", 0)]%string.

Definition modComponentMaskNames : list LookupEntry := entries_of
  [("base", XKB_STATE_MODS_DEPRESSED); ("latched", XKB_STATE_MODS_LATCHED); ("locked", XKB_STATE_MODS_LOCKED);
   ("effective", XKB_STATE_MODS_EFFECTIVE); ("compat", XKB_STATE_MODS_EFFECTIVE); ("any", XKB_STATE_MODS_EFFECTIVE);
   ("none", 0)]%string.

Definition groupComponentMaskNames : list LookupEntry := entries_of
  [("base", XKB_STATE_LAYOUT_DEPRESSED); ("latched", XKB_STATE_LAYOUT_LATCHED); ("locked", XKB_STATE_LAYOUT_LOCKED);
   ("effective", XKB_STATE_LAYOUT_EFFECTIVE); ("any", XKB_STATE_LAYOUT_EFFECTIVE); ("none", 0)]%string.

Section fields.
Context (info : keymap_info) (defaults : ActionsInfo) (mods : xkb_mod_set).

(** The actions of a list, those without type dropped; [None] on an error. *)
Fixpoint parse_actions (pendings : list pending_computation) (acts : list ExprDef)
    : result (option (list paction) * list pending_computation) :=
  match acts with
  | [] => Ok (Some [], pendings)
  | act :: acts =>
      let+ r := HandleActionDef info defaults mods pendings act (mk_paction 0 act_none) in
      let '(e, toAct, pendings) := r in
      match e with
      | PARSER_FATAL_ERROR => Ok (None, pendings)
      | _ =>
          let dropped := match e with PARSER_RECOVERABLE_ERROR => true | _ => pa_type toAct =? 0 end in
          let+ r := parse_actions pendings acts in
          Ok (match fst r with
              | Some l => Some (if dropped then l else toAct :: l)
              | None => None
              end, snd r)
      end
  end.

(** The boolean returned, the interpretation, and the shared data.  One action
    of several is read at the index 1. *)
Definition SetInterpField (sh : shared) (si : SymInterpInfo) (field : list Z) (arrayNdx : option ExprDef)
    (value : ExprDef) : result (bool * SymInterpInfo * shared) :=
  let array := has_index arrayNdx in
  if name_is field "action" then
    if array then Ok (false, si, sh)
    else match value with
    | STMT_EXPR_ACTION_LIST acts =>
        let num_actions := Z.of_nat (length acts) in
        if num_actions >? MAX_ACTIONS_PER_LEVEL then Ok (false, si, sh)
        else
          let+ r := parse_actions (sh_pendings sh) acts in
          let sh := sh_set_pendings (snd r) sh in
          match fst r with
          | None => Ok (false, sy_set_actions NoActions si, sh)
          | Some [] => Ok (true, sy_define SI_FIELD_ACTION (sy_set_actions NoActions si), sh)
          | Some ([a] as actions) =>
              if num_actions =? 1 then Ok (true, sy_define SI_FIELD_ACTION (sy_set_actions (OneAction a) si), sh)
              else match item actions 1 with
              | Some a => Ok (true, sy_define SI_FIELD_ACTION (sy_set_actions (OneAction a) si), sh)
              | None => Fault FaultOutOfBounds
              end
          | Some actions =>
              Ok (true, sy_define SI_FIELD_ACTION (sy_set_actions (ActionArray (length (sh_arrays sh))) si),
                  sh_set_arrays (sh_arrays sh ++ [Some actions]) sh)
          end
    | _ =>
        let+ r := HandleActionDef info defaults mods (sh_pendings sh) value (mk_paction 0 act_none) in
        let '(e, a, pendings) := r in
        let sh := sh_set_pendings pendings sh in
        match e with
        | PARSER_FATAL_ERROR => Ok (false, si, sh)
        | PARSER_RECOVERABLE_ERROR => Ok (true, sy_define SI_FIELD_ACTION (sy_set_actions NoActions si), sh)
        | PARSER_SUCCESS _ =>
            Ok (true, sy_define SI_FIELD_ACTION
                  (sy_set_actions (if pa_type a =? 0 then NoActions else OneAction a) si), sh)
        end
    end
  else if name_is field "virtualmodifier" || name_is field "virtualmod" then
    if array then Ok (false, si, sh)
    else Ok (match ExprResolveMod value MOD_VIRT (ms_enum mods) with
             | Some ndx => (true, sy_define SI_FIELD_VIRTUAL_MOD (sy_set_virtual_mod ndx si), sh)
             | None => (false, si, sh)
             end)
  else if name_is field "repeat" then
    if array then Ok (false, si, sh)
    else
      let+ set := ExprResolveBoolean (ki_ctx info) value in
      Ok (match set with
          | Some set => (true, sy_define SI_FIELD_AUTO_REPEAT (sy_set_repeat set si), sh)
          | None => (false, si, sh)
          end)
  else if name_is field "locking" then Ok (true, si, sh)
  else if name_is field "usemodmap" || name_is field "usemodmapmods" then
    if array then Ok (false, si, sh)
    else
      let+ val := ExprResolveEnum (ki_ctx info) value useModMapValueNames in
      Ok (match val with
          | Some val => (true, sy_define SI_FIELD_LEVEL_ONE_ONLY (sy_set_level_one_only (negb (val =? 0)) si), sh)
          | None => (false, si, sh)
          end)
  else Ok (lenient (ki_strict info) PARSER_NO_UNKNOWN_INTERPRET_FIELDS, si, sh).

(** A failure names the indicator.  [is_default]: [ledi] is the default of the
    section, which no caller gives. *)
Definition led_failure (ledi : LedInfo) (ok : bool) (sh : shared) : result (bool * LedInfo * shared) :=
  let+ _ := LEDText (ki_ctx info) false ledi in Ok (ok, ledi, sh).

Definition SetLedMapField (sh : shared) (ledi : LedInfo) (field : list Z) (arrayNdx : option ExprDef)
    (value : ExprDef) : result (bool * LedInfo * shared) :=
  let fail := led_failure ledi false sh in
  let with_mask (m : result (option Z)) (set : Z -> LedInfo) : result (bool * LedInfo * shared) :=
    if has_index arrayNdx then fail
    else let+ m := m in match m with Some m => Ok (true, set m, sh) | None => fail end in
  let led := ld_led (le_led ledi) in
  if name_is field "modifiers" || name_is field "mods" then
    with_mask (ExprResolveModMask (ki_ctx info) value MOD_BOTH (ms_enum mods))
      (fun m => le_define LED_FIELD_MODS (le_set_modifiers (led_which_mods led) (mk_xkb_mods m (m_mask (led_mods led))) ledi))
  else if name_is field "groups" then
    if has_index arrayNdx then fail
    else
      let+ r := ExprResolveGroupMask (ki_group_info info) value true in
      match r with
      | Resolved mask =>
          Ok (true, le_define LED_FIELD_GROUPS (le_set_groups (led_which_groups led) mask false ledi), sh)
      | Pending =>
          let pending_index := u32 (Z.of_nat (length (sh_pendings sh))) in
          Ok (true, le_define LED_FIELD_GROUPS (le_set_groups (led_which_groups led) pending_index true ledi),
              sh_set_pendings (sh_pendings sh ++ [mk_pending value false 0]) sh)
      | Failed => fail
      end
  else if name_is field "controls" || name_is field "ctrls" then
    with_mask (ExprResolveMask (ki_ctx info) value (ctrlMaskNames (ki_format info)))
      (fun m => le_define LED_FIELD_CTRLS (le_set_ctrls m ledi))
  else if name_is field "allowexplicit" then Ok (true, ledi, sh)
  else if name_is field "whichmodstate" || name_is field "whichmodifierstate" then
    with_mask (ExprResolveMask (ki_ctx info) value modComponentMaskNames)
      (fun m => le_set_modifiers m (led_mods led) ledi)
  else if name_is field "whichgroupstate" then
    with_mask (ExprResolveMask (ki_ctx info) value groupComponentMaskNames)
      (fun m => le_set_groups (Z.land m (2 ^ 31 - 1)) (led_groups led) (ld_pending_groups (le_led ledi)) ledi)
  else if existsb (fun f => name_is field f)
            ["driveskbd"; "driveskeyboard"; "leddriveskbd"; "leddriveskeyboard"; "indicatordriveskbd";
             "indicatordriveskeyboard"; "index"]%string
  then Ok (true, ledi, sh)
  else led_failure ledi (lenient (ki_strict info) PARSER_NO_UNKNOWN_LED_FIELDS) sh.
End fields.

(** ** Statements *)

(** A default that replaces only replaces the field, says the source; but the
    test is on the merge mode of the temporary, not on that of the statement. *)
Definition default_merge (temp : merge_mode) (stmt : VarDef) : merge_mode :=
  match temp with MERGE_REPLACE => MERGE_OVERRIDE | _ => vr_merge stmt end.

Section statements.
Context (info : keymap_info).

Definition HandleGlobalVar (sh : shared) (ci : CompatInfo) (stmt : VarDef) : result (bool * CompatInfo * shared) :=
  let+ lhs := var_lhs (ki_ctx info) stmt in
  match lhs with
  | None => Ok (false, ci, sh)
  | Some (Some elem, field, ndx) =>
      if name_is elem "interpret" then
        let temp := sy_set_merge (default_merge (sy_merge InitInterp) stmt) InitInterp in
        let+ r := SetInterpField info (ci_default_actions ci) (ci_mods ci) sh temp field ndx (vr_value stmt) in
        let '(ret, temp, sh) := r in
        if ret : bool then
          let+ m := MergeInterp sh (ci_default_interp ci) temp in
          Ok (true, ci_set_default_interp (fst m) ci, snd m)
        else Ok (false, ci, sh)
      else if name_is elem "indicator" then
        let temp := le_set_merge (default_merge (le_merge InitLED) stmt) InitLED in
        let+ r := SetLedMapField info (ci_mods ci) sh temp field ndx (vr_value stmt) in
        let '(ret, temp, sh) := r in
        Ok (ret, if ret : bool then ci_set_default_led (MergeLedMap (ci_default_led ci) temp) ci else ci, sh)
      else
        let+ r := SetDefaultActionField info (ci_default_actions ci) (ci_mods ci) (sh_pendings sh) elem field ndx
                    (vr_value stmt) (vr_merge stmt) in
        let '(e, defaults, pendings) := r in
        Ok (match e with PARSER_FATAL_ERROR => false | _ => true end, ci_set_default_actions defaults ci,
            sh_set_pendings pendings sh)
  | Some (None, _, _) => Ok (lenient (ki_strict info) PARSER_NO_UNKNOWN_COMPAT_GLOBAL_FIELDS, ci, sh)
  end.

Fixpoint HandleInterpBody (ci : CompatInfo) (sh : shared) (def : list VarDef) (si : SymInterpInfo) (ok : bool)
    : result (bool * SymInterpInfo * shared) :=
  match def with
  | [] => Ok (ok, si, sh)
  | v :: def =>
      let+ lhs := var_lhs (ki_ctx info) v in
      match lhs with
      | Some (None, field, arrayNdx) =>
          let+ r := SetInterpField info (ci_default_actions ci) (ci_mods ci) sh si field arrayNdx (vr_value v) in
          let '(b, si, sh) := r in HandleInterpBody ci sh def si (ok && b)
      | _ => HandleInterpBody ci sh def si false
      end
  end.

Definition HandleInterpDef (sh : shared) (ci : CompatInfo) (merge : merge_mode) (sym : Z) (match_ : option ExprDef)
    (def : list VarDef) : result (bool * CompatInfo * shared) :=
  let+ p := ResolveStateAndPredicate (ki_ctx info) (ci_mods ci) match_ in
  match p with
  | None => Ok (false, ci, sh)
  | Some (pred, mods) =>
      let+ r := HandleInterpBody ci sh def (sy_set_trigger sym pred mods (sy_set_merge merge (ci_default_interp ci))) true in
      let '(ok, si, sh) := r in
      if ok : bool then
        let+ r := AddInterp sh (ci_interps ci) si in
        Ok (true, ci_set_interps (fst r) ci, snd r)
      else Ok (false, ci_add_errors 1 ci, sh)
  end.

Fixpoint led_map_body (ci : CompatInfo) (sh : shared) (body : list VarDef) (ledi : LedInfo) (ok : bool)
    : result (bool * LedInfo * shared) :=
  match body with
  | [] => Ok (ok, ledi, sh)
  | v :: body =>
      let+ lhs := var_lhs (ki_ctx info) v in
      match lhs with
      | Some (None, field, arrayNdx) =>
          let+ r := SetLedMapField info (ci_mods ci) sh ledi field arrayNdx (vr_value v) in
          let '(b, ledi, sh) := r in led_map_body ci sh body ledi (ok && b)
      | _ => led_map_body ci sh body ledi false
      end
  end.

Definition HandleLedMapDef (sh : shared) (ci : CompatInfo) (merge : merge_mode) (name : Z) (body : list VarDef)
    : result (bool * CompatInfo * shared) :=
  let+ r := led_map_body ci sh body (le_set_name name (le_set_merge merge (ci_default_led ci))) true in
  let '(ok, ledi, sh) := r in
  Ok (if ok : bool then
        match AddLedMap (ci_leds ci) ledi with
        | Some leds => (true, ci_set_leds leds ci, sh)
        | None => (false, ci, sh)
        end
      else (false, ci, sh)).

Section files.
Context (parse : xkb_file_type -> include_item -> list (option XkbFile)).
Variable handle_file : shared -> CompatInfo -> XkbFile -> result (CompatInfo * shared).

(** Each file starts with the default interpretation and indicator of [info]. *)
Fixpoint include_compat (ci : CompatInfo) (sh : shared) (included : CompatInfo) (stmts : list include_item)
    : result (option CompatInfo * shared) :=
  match stmts with
  | [] => Ok (Some included, sh)
  | stmt :: stmts =>
      match ProcessIncludeFile parse stmt FILE_TYPE_COMPAT with
      | None => Ok (None, sh)
      | Some file =>
          let next_incl := InitCompatInfo info (S (ci_include_depth ci)) (ci_mods included) in
          let+ r := handle_file sh (ci_set_default_led (ci_default_led ci) (ci_set_default_interp (ci_default_interp ci) next_incl)) file in
          let+ m := MergeIncludedCompatMaps (snd r) included (fst r) (inc_merge stmt) in
          include_compat ci (snd m) (fst m) stmts
      end
  end.

Definition HandleIncludeCompatMap (sh : shared) (ci : CompatInfo) (include : IncludeStmt) : result (bool * CompatInfo * shared) :=
  if ExceedsIncludeMaxDepth (ci_include_depth ci) then Ok (false, ci_add_errors 10 ci, sh)
  else
    let+ r := include_compat ci sh
                (ci_set_name (inc_stmt (inc_first include)) (InitCompatInfo info (S (ci_include_depth ci)) (ci_mods ci)))
                (inc_items include) in
    match r with
    | (None, sh) => Ok (false, ci_add_errors 10 ci, sh)
    | (Some included, sh) =>
        let+ m := MergeIncludedCompatMaps sh ci included (inc_merge (inc_first include)) in
        Ok (ci_errorCount (fst m) =? 0, fst m, snd m)
    end.

Definition handle_compat_stmt (sh : shared) (ci : CompatInfo) (stmt : statement) : result (bool * CompatInfo * shared) :=
  match stmt with
  | STMT_INCLUDE include => HandleIncludeCompatMap sh ci include
  | STMT_INTERP merge sym match_ def => HandleInterpDef sh ci merge sym match_ def
  | STMT_GROUP_COMPAT _ _ _ => Ok (true, ci, sh)
  | STMT_LED_MAP merge name body => HandleLedMapDef sh ci merge name body
  | STMT_VAR var => HandleGlobalVar sh ci var
  | STMT_VMOD vmod => let+ r := HandleVModDef (ki_ctx info) (ci_mods ci) vmod in Ok (fst r, ci_set_mods (snd r) ci, sh)
  | STMT_UNKNOWN => Ok (lenient (ki_strict info) PARSER_NO_UNKNOWN_STATEMENTS, ci, sh)
  | _ => Ok (false, ci, sh)
  end.

Fixpoint handle_compat_stmts (sh : shared) (ci : CompatInfo) (defs : list statement) : result (CompatInfo * shared) :=
  match defs with
  | [] => Ok (ci, sh)
  | stmt :: defs =>
      let+ r := handle_compat_stmt sh ci stmt in
      let '(ok, ci, sh) := r in
      let ci := if ok : bool then ci else ci_add_errors 1 ci in
      if ci_errorCount ci >? 10 then Ok (ci, sh) else handle_compat_stmts sh ci defs
  end.
End files.
End statements.

(** [fuel] bounds the depth of the included files. *)
Fixpoint HandleCompatMapFile (info : keymap_info) (parse : xkb_file_type -> include_item -> list (option XkbFile))
    (fuel : nat) (sh : shared) (ci : CompatInfo) (file : XkbFile) : result (CompatInfo * shared) :=
  match fuel with
  | O => Fault FaultFuel
  | S fuel =>
      handle_compat_stmts info parse (HandleCompatMapFile info parse fuel) sh (ci_set_name (xf_name file) ci) (xf_defs file)
  end.

(** ** The keymap *)

Definition CopyInterps (interps : list SymInterpInfo) (needSymbol : bool) (pred : xkb_match_operation) : list SymInterpInfo :=
  filter (fun si => sy_match si = pred /\ negb (sy_sym si =? XKB_KEY_NoSymbol) = needSymbol) interps.

(** From the most to the least specific. *)
Definition sorted_interps (interps : list SymInterpInfo) : list SymInterpInfo :=
  concat (map (fun needSymbol =>
    concat (map (CopyInterps interps needSymbol) [MATCH_EXACTLY; MATCH_ALL; MATCH_NONE; MATCH_ANY; MATCH_ANY_OR_NONE]))
    [true; false]).

(** Without a component, the effective one. *)
Definition complete_led (l : led) : led :=
  let l' := ld_led l in
  let which_groups := if (led_which_groups l' =? 0) && (negb (led_groups l' =? 0) || ld_pending_groups l)
                      then XKB_STATE_LAYOUT_EFFECTIVE else led_which_groups l' in
  let which_mods := if (led_which_mods l' =? 0) && negb (m_mods (led_mods l') =? 0)
                    then XKB_STATE_MODS_EFFECTIVE else led_which_mods l' in
  mk_cled (mk_led (led_name l') which_groups (led_groups l') which_mods (led_mods l') (led_ctrls l')) (ld_pending_groups l).

(** [keymap_leds] has the [num_leds] LEDs of the keymap. *)
Definition copy_led (ctx : atom_table) (keymap_leds : list led) (ledi : LedInfo) : result (list led) :=
  let l := complete_led (le_led ledi) in
  match list_find (fun led => led_name (ld_led led) = le_name ledi) keymap_leds with
  | Some (i, _) => Ok (<[i := l]> keymap_leds)
  | None =>
      let+ _ := LEDText ctx false ledi in
      match list_find (fun led => led_name (ld_led led) = XKB_ATOM_NONE) keymap_leds with
      | Some (i, _) => Ok (<[i := l]> keymap_leds)
      | None => if Nat.leb XKB_MAX_LEDS (length keymap_leds) then Ok keymap_leds else Ok (keymap_leds ++ [l])
      end
  end.

Fixpoint CopyLedMapDefsToKeymap (ctx : atom_table) (keymap_leds : list led) (leds : list LedInfo) : result (list led) :=
  match leds with
  | [] => Ok keymap_leds
  | ledi :: leds => let+ keymap_leds := copy_led ctx keymap_leds ledi in CopyLedMapDefsToKeymap ctx keymap_leds leds
  end.

Record compat_result := mk_compat_result {
  cr_mods : xkb_mod_set;
  cr_interprets : list SymInterpInfo;
  cr_leds : list led;
  cr_section_name : option (list Z)
}.

Definition CopyCompatToKeymap (ctx : atom_table) (keymap_leds : list led) (ci : CompatInfo) : result compat_result :=
  let+ leds := CopyLedMapDefsToKeymap ctx keymap_leds (ci_leds ci) in
  Ok (mk_compat_result (ci_mods ci) (sorted_interps (ci_interps ci)) leds (option_map XkbEscapeMapName (ci_name ci))).

(** The LEDs and the modifiers of the keymap are those of [info]. *)
Definition CompileCompatMap (info : keymap_info) (parse : xkb_file_type -> include_item -> list (option XkbFile))
    (sh : shared) (file : option XkbFile) : result (option compat_result * shared) :=
  let ci := InitCompatInfo info 0 (ki_mods info) in
  let+ r := match file with
            | Some file => HandleCompatMapFile info parse (S INCLUDE_MAX_DEPTH) sh ci file
            | None => Ok (ci, sh)
            end in
  let '(ci, sh) := r in
  if negb (ci_errorCount ci =? 0) then Ok (None, sh)
  else let+ c := CopyCompatToKeymap (ki_ctx info) (ki_leds info) ci in Ok (Some c, sh).

(** *** The interpretations of the keymap

    Their arrays of actions, when they are read. *)

Definition read_actions (sh : shared) (a : interp_actions) : result (list xkb_action) :=
  match a with
  | NoActions => Ok []
  | OneAction a => Ok [union_action a]
  | ActionArray ptr =>
      match sh_arrays sh !! ptr with
      | Some (Some l) => Ok (map union_action l)
      | _ => Fault FaultUseAfterFree
      end
  end.

Fixpoint keymap_interprets (sh : shared) (interps : list SymInterpInfo) : result (list xkb_sym_interpret) :=
  match interps with
  | [] => Ok []
  | si :: interps =>
      let+ actions := read_actions sh (sy_actions si) in
      let+ l := keymap_interprets sh interps in
      Ok (mk_interp (sy_sym si) (sy_match si) (sy_mods si) (sy_virtual_mod si) (sy_level_one_only si) (sy_repeat si)
            false actions :: l)
  end.

(** [clear_interpret] of src/keymap.c, for each interpretation. *)
Fixpoint clear_interprets (sh : shared) (interps : list SymInterpInfo) : result shared :=
  match interps with
  | [] => Ok sh
  | si :: interps => let+ sh := free_actions (sy_actions si) sh in clear_interprets sh interps
  end.
