(* ===== verification/CompatStore.v ===== *)
(** * The arrays of actions of a compat section

    Which section owns which array, and the merges of interpretations, which
    free the arrays they replace. *)

From Stdlib Require Import ZArith Lia String.
From stdpp Require Import base tactics list numbers.
From S2P Require Import Prelude Numbers Atom AtomSpec Keymap KeymapSpec State KeysymNames KeysymName Expr ExprSpec Vmod VmodSpec KeyAliases Derived DerivedInv Actions Sections Safe ActionsSpec Keycodes Types TypesSpec Compat.

(** ** The arrays of actions *)

Definition array_of (si : SymInterpInfo) : option nat :=
  match sy_actions si with ActionArray ptr => Some ptr | _ => None end.

Definition trigger (si : SymInterpInfo) : Z * Z * xkb_match_operation := (sy_sym si, sy_mods si, sy_match si).

(** The arrays of interpretations. *)
Definition arrays_of (l : list SymInterpInfo) : list nat := omap array_of l.

(** Distinct arrays that are allocated. *)
Definition own (sh : shared) (l : list nat) : Prop :=
  NoDup l /\ Forall (fun p => exists x, sh_arrays sh !! p = Some (Some x)) l.

(** From the arrays [I] to [I']: the others stay as they are, and the new ones
    are new. *)
Record owns (ctx : atom_table) (I : list nat) (sh : shared) (I' : list nat) (sh' : shared) : Prop := {
  ow_length : (length (sh_arrays sh) <= length (sh_arrays sh'))%nat;
  ow_frame : forall p, (p < length (sh_arrays sh))%nat -> p ∉ I -> sh_arrays sh' !! p = sh_arrays sh !! p;
  ow_fresh : forall p, p ∈ I' -> p ∈ I \/ (length (sh_arrays sh) <= p)%nat;
  ow_grown : grown ctx (sh_pendings sh) (sh_pendings sh')
}.

Lemma own_lt sh l p : own sh l -> p ∈ l -> (p < length (sh_arrays sh))%nat.
Proof.
  intros [_ Ha] Hp. rewrite list.Forall_forall in Ha. destruct (Ha p Hp) as [x Hx]. by eapply lookup_lt_Some.
Qed.

Lemma own_app sh R I : own sh (R ++ I) <-> own sh R /\ own sh I /\ (forall p, p ∈ R -> p ∉ I).
Proof.
  unfold own. rewrite list.NoDup_app, list.Forall_app. split; [intros ((H1 & H2 & H3) & H4 & H5)|intros ((H1 & H2) & (H3 & H4) & H5)]; done.
Qed.

Lemma owns_refl ctx I sh : owns ctx I sh I sh.
Proof. split; [lia|done|by left|apply grown_refl]. Qed.

Lemma owns_trans ctx I sh I1 sh1 I2 sh2 : owns ctx I sh I1 sh1 -> owns ctx I1 sh1 I2 sh2 -> owns ctx I sh I2 sh2.
Proof.
  intros [L1 F1 N1 G1] [L2 F2 N2 G2]. split; [lia| | |by eapply grown_trans].
  - intros p Hp Hn. rewrite F2; [by apply F1|lia|]. intros Hin. destruct (N1 p Hin); [done|lia].
  - intros p Hp. destruct (N2 p Hp) as [H|H]; [by apply N1|right; lia].
Qed.

(** The arrays [R] are owned by another section. *)
Lemma owns_frame ctx R I sh I' sh' : own sh (R ++ I) -> own sh' I' -> owns ctx I sh I' sh' ->
  own sh' (R ++ I') /\ owns ctx (R ++ I) sh (R ++ I') sh'.
Proof.
  intros (HR & HI & Hd)%own_app HI' [L F N G]. split.
  - apply own_app. split; [|split; [done|]].
    + destruct HR as [Hn Ha]. split; [done|]. rewrite list.Forall_forall in Ha |- *. intros p Hp.
      rewrite F; [by apply Ha|by apply (own_lt sh R); [split; [|apply list.Forall_forall]|]|by apply Hd].
    + intros p Hp Hin. destruct (N p Hin) as [H|H]; [by apply (Hd p)|]. pose proof (own_lt sh R p HR Hp). lia.
  - split; [done| | |done].
    + intros p Hp Hni. apply F; [done|]. intros Hin. apply Hni, elem_of_app. by right.
    + intros p [Hp|Hp]%elem_of_app; [left; apply elem_of_app; by left|].
      destruct (N p Hp); [left; apply elem_of_app; by right|by right].
Qed.

(** A section that owns nothing, merged afterwards. *)
Lemma owns_extra ctx J sh K sh1 J' sh2 : owns ctx [] sh K sh1 -> owns ctx (J ++ K) sh1 J' sh2 -> owns ctx J sh J' sh2.
Proof.
  intros [L1 F1 N1 G1] [L2 F2 N2 G2].
  assert (forall p, p ∈ K -> (length (sh_arrays sh) <= p)%nat) as HK by (intros p Hp; by destruct (N1 p Hp) as [?%elem_of_nil|]).
  split; [lia| | |by eapply grown_trans].
  - intros p Hp Hn. rewrite F2; [apply F1; [done|apply not_elem_of_nil]|lia|].
    intros [Hin|Hin]%elem_of_app; [done|]. specialize (HK p Hin). lia.
  - intros p Hp. destruct (N2 p Hp) as [[H|H]%elem_of_app|H]; [by left|right; by apply HK|right; lia].
Qed.

(** ** Well-formed interpretations and indicators

    [n] is the number of pending computations. *)

Definition typed_action (n : nat) (a : paction) : Prop := caction_ok n (union_action a).

Record si_ok (n : nat) (si : SymInterpInfo) : Prop := {
  so_vmod : sy_virtual_mod si = XKB_MOD_INVALID \/ 0 <= sy_virtual_mod si < 32;
  so_action : match sy_actions si with OneAction a => typed_action n a | _ => True end
}.

Definition arrays_ok (n : nat) (sh : shared) : Prop :=
  Forall (fun o => match o with Some l => Forall (typed_action n) l | None => True end) (sh_arrays sh).

Record led_ok (n : nat) (l : led) : Prop := {
  lo_pending : ld_pending_groups l = true -> 0 <= led_groups (ld_led l) < Z.of_nat n;
  lo_u32 : is_u32 (m_mods (led_mods (ld_led l))) /\ is_u32 (led_which_mods (ld_led l)) /\
    is_u32 (led_which_groups (ld_led l)) /\ is_u32 (led_ctrls (ld_led l))
}.

Lemma caction_ok_mono n n' a : (n <= n')%nat -> caction_ok n a -> caction_ok n' a.
Proof. intros Hn. destruct a; cbn; try done. intros [H1 H2]. split; [done|]. intros H. specialize (H2 H). lia. Qed.

Lemma si_ok_mono n n' si : (n <= n')%nat -> si_ok n si -> si_ok n' si.
Proof. intros Hn [Hv Ha]. split; [done|]. destruct (sy_actions si); try done. by eapply caction_ok_mono. Qed.

Lemma led_ok_mono n n' l : (n <= n')%nat -> led_ok n l -> led_ok n' l.
Proof. intros Hn [Hp Hu]. split; [|done]. intros H. specialize (Hp H). lia. Qed.

Lemma arrays_ok_mono n n' sh sh' : (n <= n')%nat -> sh_arrays sh' = sh_arrays sh -> arrays_ok n sh -> arrays_ok n' sh'.
Proof.
  intros Hn Ha H. unfold arrays_ok. rewrite Ha. eapply list.Forall_impl; [exact H|]. intros [l|] Hl; [|done].
  eapply list.Forall_impl; [exact Hl|]. intros a. by apply caction_ok_mono.
Qed.

(** ** Merges of interpretations *)

Definition arrays_of_one (si : SymInterpInfo) : list nat := match array_of si with Some p => [p] | None => [] end.

Lemma arrays_of_cons si l : arrays_of (si :: l) = arrays_of_one si ++ arrays_of l.
Proof. unfold arrays_of, arrays_of_one. cbn. by destruct (array_of si). Qed.

Lemma arrays_of_app l l' : arrays_of (l ++ l') = arrays_of l ++ arrays_of l'.
Proof. unfold arrays_of. apply omap_app. Qed.

#[global] Instance own_perm sh : Proper (Permutation ==> iff) (own sh).
Proof. intros l l' Hl. unfold own. by rewrite Hl. Qed.

#[global] Instance owns_perm ctx : Proper (Permutation ==> eq ==> Permutation ==> eq ==> iff) (owns ctx).
Proof.
  intros I I' HI sh ? <- J J' HJ sh' ? <-. split; intros [L F N G]; (split; [done| | |done]).
  - intros p Hp Hn. apply F; [done|]. by rewrite HI.
  - intros p Hp. rewrite <- HI. apply N. by rewrite HJ.
  - intros p Hp Hn. apply F; [done|]. by rewrite <- HI.
  - intros p Hp. rewrite HI. apply N. by rewrite <- HJ.
Qed.

Section merges.
Context (ctx : atom_table).

(** The array is freed. *)
Lemma free_owned sh a : own sh (match a with ActionArray p => [p] | _ => [] end) ->
  exists sh', free_actions a sh = Ok sh' /\ owns ctx (match a with ActionArray p => [p] | _ => [] end) sh [] sh' /\
    (forall n, arrays_ok n sh -> arrays_ok n sh') /\ sh_pendings sh' = sh_pendings sh.
Proof using Type.
  intros [_ Ha]. destruct a as [|a|p]; cbn; [by exists sh; split; [|split; [apply owns_refl|]]..|].
  apply list.Forall_singleton in Ha as [x Hx]. rewrite Hx. eexists. split; [done|]. split; [split|].
  - cbn. by rewrite length_insert.
  - cbn. intros q Hq Hne. apply list_lookup_insert_ne. intros ->. apply Hne. by left.
  - intros q Hq. by apply elem_of_nil in Hq.
  - apply grown_refl.
  - split; [|done]. intros n Hok. unfold arrays_ok in *. cbn. by apply Forall_insert.
Qed.

(** The interpretation after a merge, with the array it owns. *)
Definition merged_ok (n : nat) (sh : shared) (old new : SymInterpInfo) (r : SymInterpInfo * shared) : Prop :=
  let '(old', sh') := r in
  si_ok n old' /\ arrays_ok n sh' /\ sh_pendings sh' = sh_pendings sh /\ own sh' (arrays_of_one old') /\
  owns ctx (arrays_of_one old ++ arrays_of_one new) sh (arrays_of_one old') sh' /\
  (array_of old' = array_of old \/ array_of old' = array_of new) /\
  (trigger old' = trigger old \/ trigger old' = trigger new).

Lemma merged_same n sh old new o sh' : sy_actions o = sy_actions old -> sy_virtual_mod o = sy_virtual_mod old ->
  trigger o = trigger old -> forall o', merged_ok n sh o' new (old, sh') -> merged_ok n sh o' new (o, sh').
Proof using Type.
  intros Ha Hv Ht o' (Hs & Hok & Hp & Hown & Hw & Hc). assert (array_of o = array_of old) as Harr by (unfold array_of; by rewrite Ha).
  assert (arrays_of_one o = arrays_of_one old) as Har by (unfold arrays_of_one; by rewrite Harr).
  unfold merged_ok. rewrite Har, Harr, Ht. split; [|done]. destruct Hs as [H1 H2]. split; [by rewrite Hv|by rewrite Ha].
Qed.

Section one.
Context (n : nat) (sh : shared) (old new : SymInterpInfo).
Hypothesis (Hold : si_ok n old) (Hnew : si_ok n new) (Hok : arrays_ok n sh) (Hown : own sh (arrays_of_one old ++ arrays_of_one new)).

Lemma merged_old : merged_ok n sh old new (old, sh).
Proof using All.
  apply own_app in Hown as (Ho & Hn & Hd). split; [done|]. split; [done|]. split; [done|]. split; [done|]. split; [|by split; left].
  split; [lia|done| |apply grown_refl]. intros p Hp. left. apply elem_of_app. by left.
Qed.

Lemma merged_new : merged_ok n sh old new (new, sh).
Proof using All.
  apply own_app in Hown as (Ho & Hn & Hd). split; [done|]. split; [done|]. split; [done|]. split; [done|]. split; [|by split; right].
  split; [lia|done| |apply grown_refl]. intros p Hp. left. apply elem_of_app. by right.
Qed.

Lemma take_actions_ok : exists r, take_actions sh old new = Ok r /\ merged_ok n sh old new r.
Proof using All.
  pose proof Hown as (Ho & Hn & Hd)%own_app. unfold take_actions.
  destruct (free_owned sh (sy_actions old)) as (sh' & -> & Hw & Hok' & Hp').
  { unfold arrays_of_one, array_of in Ho. by destruct (sy_actions old). }
  specialize (Hok' n Hok).
  eexists. split; [done|]. split; [split; [apply Hold|apply Hnew]|]. split; [done|]. split; [done|].
  set (o := sy_define _ _). assert (arrays_of_one o = arrays_of_one new /\ array_of o = array_of new) as [-> ->] by done.
  assert (owns ctx (arrays_of_one old) sh [] sh') as Hw' by (unfold arrays_of_one, array_of; by destruct (sy_actions old)).
  destruct (owns_frame ctx (arrays_of_one new) (arrays_of_one old) sh [] sh') as [H1 H2]; [|by split; constructor|exact Hw'|].
  { by rewrite (Permutation_app_comm (arrays_of_one new)). }
  rewrite app_nil_r in H1, H2. split; [done|]. split; [|split; [by right|by left]].
  by rewrite (Permutation_app_comm (arrays_of_one old)).
Qed.
End one.

Lemma merge_fields_ok n sh old new clobber : si_ok n old -> si_ok n new -> arrays_ok n sh ->
  own sh (arrays_of_one old ++ arrays_of_one new) ->
  exists r, merge_interp_fields sh old new clobber = Ok r /\ merged_ok n sh old new r.
Proof using Type.
  intros Hold Hnew Hok Hown. unfold merge_interp_fields. set (o1 := merge_field SI_FIELD_VIRTUAL_MOD _ _ _ _). cbv zeta.
  assert (si_ok n o1 /\ sy_actions o1 = sy_actions old /\ trigger o1 = trigger old) as (Ho1 & Ha1 & Ht1).
  { unfold o1, merge_field. destruct (UseNewInterpField _ _ _ _); [|done]. destruct Hold as [H1 H2], Hnew as [H3 H4]. by repeat split. }
  assert (array_of o1 = array_of old) as Harr by (unfold array_of; by rewrite Ha1).
  assert (arrays_of_one o1 = arrays_of_one old) as Har by (unfold arrays_of_one; by rewrite Harr).
  rewrite <- Har in Hown.
  assert (exists r, (if UseNewInterpField SI_FIELD_ACTION (sy_defined o1) (sy_defined new) clobber
      then take_actions sh o1 new else Ok (o1, sh)) = Ok r /\ merged_ok n sh o1 new r) as ([o2 sh2] & -> & H2).
  { destruct (UseNewInterpField _ _ _ _); [by apply take_actions_ok|]. eexists. split; [done|]. by apply merged_old. }
  cbn [result_bind]. eexists. split; [done|]. cbv beta iota.
  match goal with |- merged_ok _ _ _ _ (?o, _) => assert (merged_ok n sh o1 new (o, sh2)) as H4 end.
  { apply (merged_same n sh o2 new); [| | |exact H2].
    all: unfold merge_field; by do 2 destruct (UseNewInterpField _ _ _ _). }
  unfold merged_ok in H4 |- *. by rewrite Har, Harr, Ht1 in H4.
Qed.

Lemma merge_interp_ok n sh old new : si_ok n old -> si_ok n new -> arrays_ok n sh ->
  own sh (arrays_of_one old ++ arrays_of_one new) ->
  exists r, MergeInterp sh old new = Ok r /\ merged_ok n sh old new r.
Proof using Type.
  intros Hold Hnew Hok Hown. unfold MergeInterp. destruct (sy_merge new); try (by apply merge_fields_ok).
  eexists. split; [done|]. by apply merged_new.
Qed.

(** Interpretations with their own arrays, of distinct triggers. *)
Record interps_ok (n : nat) (sh : shared) (l : list SymInterpInfo) : Prop := {
  ip_ok : Forall (si_ok n) l;
  ip_own : own sh (arrays_of l);
  ip_distinct : NoDup (map trigger l)
}.

Lemma arrays_of_insert l i old new : l !! i = Some old ->
  arrays_of (<[i := new]> l) ≡ₚ arrays_of (take i l) ++ arrays_of (drop (S i) l) ++ arrays_of_one new /\
  arrays_of l ≡ₚ arrays_of (take i l) ++ arrays_of (drop (S i) l) ++ arrays_of_one old.
Proof using Type.
  intros Hi. assert (forall x, arrays_of (take i l ++ x :: drop (S i) l) ≡ₚ
    arrays_of (take i l) ++ arrays_of (drop (S i) l) ++ arrays_of_one x) as H.
  { intros x. by rewrite arrays_of_app, arrays_of_cons, (Permutation_app_comm (arrays_of_one x)). }
  split; [by rewrite insert_take_drop by (by eapply lookup_lt_Some)|]. rewrite <- H. by rewrite (take_drop_middle l i old Hi).
Qed.

Lemma add_interp_ok n sh l new : interps_ok n sh l -> si_ok n new -> arrays_ok n sh ->
  own sh (arrays_of l ++ arrays_of_one new) ->
  exists r, AddInterp sh l new = Ok r /\ interps_ok n (snd r) (fst r) /\ arrays_ok n (snd r) /\
    sh_pendings (snd r) = sh_pendings sh /\ owns ctx (arrays_of l ++ arrays_of_one new) sh (arrays_of (fst r)) (snd r).
Proof using Type.
  intros [Hl Hlo Hd] Hnew Hok Hown. unfold AddInterp. destruct (FindMatchingInterp l new) as [[i old]|] eqn:Ef.
  - apply list_find_Some in Ef as (Hi & (Hs & Hm & Hma) & _). destruct (arrays_of_insert l i old new Hi) as [_ Hp].
    set (R := arrays_of (take i l) ++ arrays_of (drop (S i) l)) in *.
    rewrite Hp, !app_assoc in Hown. fold R in Hown. rewrite <- app_assoc in Hown.
    destruct (merge_interp_ok n sh old new (Forall_lookup_1 _ _ _ _ Hl Hi) Hnew Hok) as ([old' sh'] & -> & Hmg).
    { by apply own_app in Hown as (_ & ? & _). }
    destruct Hmg as (Hso & Hok' & Hpend & Hown' & Hw & _ & Ht). cbn [result_bind fst snd].
    eexists. split; [done|]. cbn [fst snd]. destruct (arrays_of_insert l i old old' Hi) as [Hp' _].
    destruct (owns_frame ctx R _ sh _ sh' Hown Hown' Hw) as [Hf1 Hf2].
    split; [split|].
    + by apply Forall_insert.
    + by rewrite Hp', !app_assoc.
    + change (NoDup (trigger <$> <[i := old']> l)). rewrite list_fmap_insert.
      assert (trigger old' = trigger old) as -> by (destruct Ht as [->| ->]; [done|unfold trigger; by rewrite Hs, Hm, Hma]).
      rewrite list_insert_id; [done|]. by rewrite list_lookup_fmap, Hi.
    + split; [done|]. split; [done|]. rewrite Hp, Hp', !app_assoc. fold R. by rewrite <- !app_assoc.
  - eexists. split; [done|]. cbn [fst snd]. apply list_find_None in Ef.
    assert (arrays_of (l ++ [new]) = arrays_of l ++ arrays_of_one new) as Heq.
    { rewrite arrays_of_app, arrays_of_cons. cbn. by rewrite app_nil_r. }
    split; [split|].
    + apply list.Forall_app. split; [done|]. by apply list.Forall_singleton.
    + by rewrite Heq.
    + rewrite map_app. apply list.NoDup_app. split; [done|]. split; [|apply list.NoDup_singleton].
      intros x (t & -> & Hin)%list_elem_of_fmap Hx. apply list_elem_of_singleton in Hx.
      rewrite list.Forall_forall in Ef. apply (Ef t Hin). by injection Hx as -> -> ->.
    + split; [done|]. split; [done|]. rewrite Heq. apply owns_refl.
Qed.

Lemma merge_interps_ok n from merge : forall sh into, interps_ok n sh into -> Forall (si_ok n) from -> arrays_ok n sh ->
  own sh (arrays_of into ++ arrays_of from) ->
  exists r, merge_interps sh into from merge = Ok r /\ interps_ok n (snd r) (fst r) /\ arrays_ok n (snd r) /\
    sh_pendings (snd r) = sh_pendings sh /\ owns ctx (arrays_of into ++ arrays_of from) sh (arrays_of (fst r)) (snd r).
Proof using Type.
  induction from as [|si from IH]; intros sh into Hi Hf Hok Hown; cbn [merge_interps].
  { eexists. split; [done|]. cbn. rewrite app_nil_r. do 3 (split; [done|]). apply owns_refl. }
  apply list.Forall_cons in Hf as [Hs Hf]. set (si' := sy_set_merge merge si).
  assert (si_ok n si' /\ arrays_of_one si' = arrays_of_one si) as [Hs' Ha] by (destruct Hs; done).
  rewrite arrays_of_cons in Hown |- *. rewrite app_assoc in Hown |- *. rewrite <- Ha in Hown |- *.
  destruct (add_interp_ok n sh into si' Hi Hs' Hok) as ([l1 sh1] & -> & Hi1 & Hok1 & Hp1 & Hw1); [by apply own_app in Hown as [? _]|].
  cbn [result_bind fst snd] in *. rewrite Permutation_app_comm in Hown.
  destruct (owns_frame ctx (arrays_of from) _ sh _ sh1 Hown (ip_own _ _ _ Hi1) Hw1) as [H1 H2].
  rewrite (Permutation_app_comm (arrays_of from)) in H1.
  destruct (IH sh1 l1 Hi1 Hf Hok1 H1) as (r & -> & Hi2 & Hok2 & Hp2 & Hw2). exists r. split; [done|]. split; [done|]. split; [done|].
  split; [by rewrite Hp2|]. rewrite Permutation_app_comm. eapply owns_trans; [exact H2|].
  by rewrite (Permutation_app_comm (arrays_of from)).
Qed.
End merges.
