(* ===== verification/CompatSpec.v ===== *)
(** * Compilation of compat sections

    The interpretations of a section own their arrays of actions, unless the
    default interpretation has one; their actions and the maps of indicators
    are well formed. *)

From Stdlib Require Import ZArith Lia String Sorting.Sorted.
From stdpp Require Import base tactics list numbers.
From S2P Require Import Prelude Numbers Atom AtomSpec Keymap KeymapSpec State KeysymNames KeysymName Expr ExprSpec Vmod VmodSpec KeyAliases Derived DerivedInv Actions Sections Safe ActionsSpec Keycodes Types TypesSpec Compat CompatStore.

(** ** Fields *)

(** The faults that remain: unchecked 64-bit operations; the one action left of
    a list of several, read out of its array; and the assertion of the message
    about a default indicator. *)
Definition compat_fault (f : fault) : Prop := overflow_only f \/ f = FaultOutOfBounds \/ f = FaultAssert.

Lemma safe_compat {A} (Q : A -> Prop) (m : result A) : safe Q m -> within compat_fault Q m.
Proof. apply safe_within. by left. Qed.

Fixpoint acts_pendings (acts : list ExprDef) : nat :=
  match acts with [] => 0 | act :: acts => length (action_args act) + acts_pendings acts end.

(** What an expression may add to the pending computations. *)
Definition expr_pendings (e : ExprDef) : nat :=
  match e with
  | STMT_EXPR_ACTION_DECL _ args => S (length args)
  | STMT_EXPR_ACTION_LIST acts => S (acts_pendings acts)
  | _ => 1
  end.

Definition several (e : ExprDef) : Prop :=
  match e with STMT_EXPR_ACTION_LIST acts => (2 <= length acts)%nat | _ => False end.

Section fields.
Context (info : keymap_info) (defaults : ActionsInfo) (mods : xkb_mod_set).
Hypothesis (Hmods : vmods_ok mods) (Hreads : reads_ok info mods).
Let ctx := ki_ctx info.

Lemma parse_actions_ok acts : forall ps, defaults_ok (length ps) defaults -> Forall (expr_wf ctx) acts ->
  pending_room ps (acts_pendings acts) ->
  safe (fun r => grown ctx ps (snd r) /\
      (length (snd r) <= length ps + acts_pendings acts)%nat /\
      forall l, fst r = Some l -> Forall (typed_action (length (snd r))) l /\ (length l <= length acts)%nat)
    (parse_actions info defaults mods ps acts).
Proof using Hreads.
  induction acts as [|act acts IH]; intros ps Hd Hw Hroom; cbn [parse_actions acts_pendings] in *.
  { split; [apply grown_refl|]. split; [cbn; lia|]. by intros l [= <-]. }
  apply list.Forall_cons in Hw as [Hw Hws]. unfold pending_room in *.
  eapply safe_bind; [apply (action_def_ok info mods Hreads); try done; unfold pending_room; lia|].
  intros [[e a] ps1] (Hg & Hl & Ha).
  assert (forall d, (d = false -> typed_action (length ps1) a) -> safe (fun r => grown ctx ps (snd r) /\
      (length (snd r) <= length ps + (length (action_args act) + acts_pendings acts))%nat /\
      forall l, fst r = Some l -> Forall (typed_action (length (snd r))) l /\ (length l <= S (length acts))%nat)
      (let+ r := parse_actions info defaults mods ps1 acts in
       Ok (match fst r with Some l => Some (if d : bool then l else a :: l) | None => None end, snd r))) as Hrest.
  { intros d Hd'. eapply safe_bind; [apply IH; [eapply defaults_ok_mono; [by eapply grown_length|done]|done|lia]|].
    intros [o ps2] (Hg2 & Hl2 & Hf). cbn [fst snd] in *. split; [by eapply grown_trans|]. split; [cbn [snd]; lia|].
    intros l Hl'. destruct o as [l0|]; [|done]. injection Hl' as <-. destruct (Hf l0 eq_refl) as [Hf1 Hf2].
    destruct d; [split; [done|lia]|]. split; [|cbn; lia]. constructor; [|done].
    eapply caction_ok_mono; [by eapply grown_length|]. by apply Hd'. }
  destruct e as [u| |].
  - apply (Hrest (pa_type a =? 0)). intros _. destruct (Ha ltac:(done)) as (t & _ & Hok & _). by eapply union_action_ok.
  - by apply (Hrest true).
  - split; [done|]. split; [cbn; lia|]. done.
Qed.

Definition field_set (sh : shared) (si : SymInterpInfo) (value : ExprDef) (r : bool * SymInterpInfo * shared) : Prop :=
  let '(_, si', sh') := r in
  let n := length (sh_pendings sh') in
  si_ok n si' /\ arrays_ok n sh' /\ own sh' (arrays_of_one si') /\
  owns ctx (arrays_of_one si) sh (arrays_of_one si') sh' /\ (n <= length (sh_pendings sh) + expr_pendings value)%nat /\
  (~ several value -> array_of si = None -> array_of si' = None).

(** The interpretation keeps its actions, or has an action in place. *)
Lemma field_result sh si value ps b si' : arrays_ok (length (sh_pendings sh)) sh -> own sh (arrays_of_one si) ->
  si_ok (length (sh_pendings sh)) si -> grown ctx (sh_pendings sh) ps ->
  (length ps <= length (sh_pendings sh) + expr_pendings value)%nat ->
  sy_virtual_mod si' = XKB_MOD_INVALID \/ 0 <= sy_virtual_mod si' < 32 ->
  sy_actions si' = sy_actions si \/
    match sy_actions si' with OneAction a => typed_action (length ps) a | ActionArray _ => False | NoActions => True end ->
  field_set sh si value (b, si', sh_set_pendings ps sh).
Proof using Type.
  intros Ha Ho Hs Hg Hl Hv Hact. pose proof (grown_length _ _ _ Hg) as Hle. unfold field_set. cbn [sh_pendings sh_set_pendings].
  assert (arrays_ok (length ps) (sh_set_pendings ps sh)) as Ha' by (by eapply arrays_ok_mono).
  destruct Hact as [Hact|Hact].
  - assert (array_of si' = array_of si) as Har by (unfold array_of; by rewrite Hact).
    assert (arrays_of_one si' = arrays_of_one si) as Har' by (unfold arrays_of_one; by rewrite Har).
    rewrite Har', Har. split; [split; [done|rewrite Hact; apply (si_ok_mono _ _ si Hle Hs)]|].
    split; [done|]. split; [done|]. split; [|done]. split; [done|done| |done]. by left.
  - assert (array_of si' = None) as Hn by (unfold array_of; by destruct (sy_actions si')).
    assert (arrays_of_one si' = []) as -> by (unfold arrays_of_one; by rewrite Hn).
    split; [split; [done|by destruct (sy_actions si')]|]. split; [done|]. split; [by split; constructor|].
    split; [|done]. split; [done|done| |done]. intros p Hp. by apply elem_of_nil in Hp.
Qed.

Lemma virtual_index value k : ExprResolveMod value MOD_VIRT (ms_enum mods) = Some k -> 0 <= k < 32.
Proof using Hmods.
  destruct value; try done. cbn. unfold XkbModNameToIndex. pose proof (enum_length mods Hmods).
  destruct (list_find _ _) as [[i m]|] eqn:Ef; [|done]. apply list_find_Some in Ef as (Hi%lookup_lt_Some & _).
  destruct (_ =? _); [done|]. intros [= <-]. lia.
Qed.

Lemma SetInterpField_ok sh si field ndx value : arrays_ok (length (sh_pendings sh)) sh -> own sh (arrays_of_one si) ->
  si_ok (length (sh_pendings sh)) si -> defaults_ok (length (sh_pendings sh)) defaults -> expr_wf ctx value ->
  pending_room (sh_pendings sh) (expr_pendings value) ->
  within compat_fault (field_set sh si value) (SetInterpField info defaults mods sh si field ndx value).
Proof using Hmods Hreads.
  intros Ha Ho Hs Hd Hw Hroom. unfold SetInterpField. cbv zeta.
  assert (forall b si', sy_actions si' = sy_actions si ->
    sy_virtual_mod si' = XKB_MOD_INVALID \/ 0 <= sy_virtual_mod si' < 32 ->
    within compat_fault (field_set sh si value) (Ok (b, si', sh))) as Hsame.
  { intros b si' Hact Hv. assert (sh_set_pendings (sh_pendings sh) sh = sh) as Hsh by (by destruct sh). rewrite <- Hsh at 2.
    apply field_result; [done..|apply grown_refl|lia|done|by left]. }
  assert (sy_virtual_mod si = XKB_MOD_INVALID \/ 0 <= sy_virtual_mod si < 32) as Hvm by apply Hs.
  destruct (name_is field "action").
  { destruct (has_index ndx); [by apply Hsame|]. destruct (match value with STMT_EXPR_ACTION_LIST _ => true | _ => false end) eqn:El.
    - destruct value; try done. cbn in Hw. apply foldr_Forall in Hw. destruct (_ >? _); [by apply Hsame|].
      eapply within_bind; [apply safe_compat, parse_actions_ok; [done|done|]|].
      { unfold pending_room in *. cbn in Hroom. lia. }
      intros [o ps] (Hg & Hl & Hf). cbn [fst snd] in *.
      assert (length ps <= length (sh_pendings sh) + expr_pendings (STMT_EXPR_ACTION_LIST actions))%nat as Hl' by (cbn; lia).
      destruct o as [[|a [|a' l]]|].
      + apply field_result; try done. by right.
      + destruct (Hf _ eq_refl) as [[Hf1 _]%list.Forall_cons _].
        destruct (_ =? 1); [apply field_result; try done; by right|]. cbn. by right; left.
      + destruct (Hf _ eq_refl) as [Hf1 Hf2]. pose proof (grown_length _ _ _ Hg) as Hle. cbn in Hf2.
        unfold field_set, within, arrays_of_one. cbn [array_of sy_define sy_set_actions sy_actions sh_set_arrays sh_set_pendings sh_pendings sh_arrays].
        split; [split; [apply Hs|done]|]. split; [|split; [split|]].
        * unfold arrays_ok. cbn. apply list.Forall_app. split; [apply (arrays_ok_mono (length (sh_pendings sh)) (length ps) sh (sh_set_pendings ps sh)); done|].
          by apply list.Forall_singleton.
        * apply list.NoDup_singleton.
        * apply list.Forall_singleton. exists (a :: a' :: l). cbn. by rewrite lookup_app_r, Nat.sub_diag by lia.
        * split; [|split; [done|]].
          -- split; cbn; [rewrite length_app; lia| | |done].
             ++ intros p Hp _. by rewrite lookup_app_l.
             ++ intros p Hp%list_elem_of_singleton. right. lia.
          -- intros Hns _. exfalso. apply Hns. cbn. lia.
      + apply field_result; try done. by right.
    - assert (within compat_fault (field_set sh si value)
        (let+ r := HandleActionDef info defaults mods (sh_pendings sh) value (mk_paction 0 act_none) in
         let '(e, a, pendings) := r in
         match e with
         | PARSER_FATAL_ERROR => Ok (false, si, sh_set_pendings pendings sh)
         | PARSER_RECOVERABLE_ERROR => Ok (true, sy_define SI_FIELD_ACTION (sy_set_actions NoActions si), sh_set_pendings pendings sh)
         | PARSER_SUCCESS _ => Ok (true, sy_define SI_FIELD_ACTION
               (sy_set_actions (if pa_type a =? 0 then NoActions else OneAction a) si), sh_set_pendings pendings sh)
         end)) as H; [|by destruct value].
      unfold pending_room in *. eapply within_bind; [apply safe_compat, (action_def_ok info mods Hreads); try done|].
      { unfold pending_room. destruct value; cbn in *; lia. }
      intros [[e a] ps] (Hg & Hl & Hact).
      assert (length ps <= length (sh_pendings sh) + expr_pendings value)%nat as Hl' by (destruct value; cbn in *; lia).
      destruct e as [u| |].
      + apply field_result; try done. right. cbn. destruct (pa_type a =? 0); [done|].
        destruct (Hact ltac:(done)) as (t & _ & Hok & _). by eapply union_action_ok.
      + apply field_result; try done. by right.
      + apply field_result; try done. by left. }
  destruct (_ || _).
  { destruct (has_index ndx); [by apply Hsame|]. destruct (ExprResolveMod _ _ _) as [k|] eqn:Ek; [|by apply Hsame].
    apply Hsame; [done|]. right. by eapply virtual_index. }
  destruct (name_is field "repeat").
  { destruct (has_index ndx); [by apply Hsame|]. eapply within_bind; [by apply safe_compat, boolean_safe|].
    intros [b|] _; by apply Hsame. }
  destruct (name_is field "locking"); [by apply Hsame|].
  destruct (_ || _).
  { destruct (has_index ndx); [by apply Hsame|]. eapply within_bind; [by apply safe_compat, enum_safe|].
    intros [v|] _; by apply Hsame. }
  by apply Hsame.
Qed.
Definition led_set (sh : shared) (l : LedInfo) (value : ExprDef) (r : bool * LedInfo * shared) : Prop :=
  let '(_, l', sh') := r in
  led_ok (length (sh_pendings sh')) (le_led l') /\ le_name l' = le_name l /\ sh_arrays sh' = sh_arrays sh /\
  grown ctx (sh_pendings sh) (sh_pendings sh') /\
  (length (sh_pendings sh') <= length (sh_pendings sh) + expr_pendings value)%nat.

Lemma led_failure_ok sh l b value : led_ok (length (sh_pendings sh)) (le_led l) ->
  within compat_fault (led_set sh l value) (led_failure info l b sh).
Proof using Type.
  intros Hl. unfold led_failure, LEDText. destruct (xkb_atom_text (ki_ctx info) _) as [o|f] eqn:Ho; cbn.
  - destruct (bool_decide (is_Some o)); cbn; [|by right; right]. do 3 (split; [done|]). split; [apply grown_refl|lia].
  - unfold xkb_atom_text, atom_text in Ho. destruct (at_strings _ !! _); [done|]. injection Ho as <-. by right; right.
Qed.

Lemma entries_u32 (l : list (string * Z)) : Forall (fun x => is_u32 (snd x)) l -> Forall (fun x => is_u32 (snd x)) (entries_of l).
Proof using Type.
  intros Hl. unfold entries_of. apply list.Forall_app. split.
  - apply list.Forall_fmap. eapply list.Forall_impl; [exact Hl|]. by intros [n v].
  - by apply list.Forall_singleton.
Qed.

Lemma SetLedMapField_ok sh l field ndx value : led_ok (length (sh_pendings sh)) (le_led l) -> expr_wf ctx value ->
  pending_room (sh_pendings sh) (expr_pendings value) ->
  within compat_fault (led_set sh l value) (SetLedMapField info mods sh l field ndx value).
Proof using Hmods Hreads.
  intros Hl Hw Hroom. unfold SetLedMapField. cbv zeta.
  assert (forall b l', led_ok (length (sh_pendings sh)) (le_led l') -> le_name l' = le_name l ->
    within compat_fault (led_set sh l value) (Ok (b, l', sh))) as Hsame.
  { intros b l' Hl' Hn. do 3 (split; [done|]). split; [apply grown_refl|lia]. }
  pose proof (led_failure_ok sh l false value Hl) as Hfail. destruct Hl as [Hp (H1 & H2 & H3 & H4)].
  assert (forall m set, safe (fun r => forall v, r = Some v -> is_u32 v) m ->
    (forall v, is_u32 v -> led_ok (length (sh_pendings sh)) (le_led (set v)) /\ le_name (set v) = le_name l) ->
    within compat_fault (led_set sh l value)
      (if has_index ndx then led_failure info l false sh
       else let+ m := m in match m with Some m => Ok (true, set m, sh) | None => led_failure info l false sh end)) as Hmask.
  { intros m set Hm Hset. destruct (has_index ndx); [done|]. eapply within_bind; [by apply safe_compat|].
    intros [v|] Hv; [|done]. destruct (Hset v (Hv v eq_refl)). by apply Hsame. }
  destruct (_ || _).
  { apply Hmask; [by apply vmods_mask_safe|]. intros v Hv. split; [|done]. by split. }
  destruct (name_is field "groups").
  { destruct (has_index ndx); [done|]. eapply within_bind.
    { apply safe_compat, safe_faults, resolve_group_mask_faults; [by apply expr_wf_ok|apply (rd_max _ _ Hreads)]. }
    intros [mask| |] _; [|done|].
    - apply Hsame; [by split|done].
    - unfold pending_room in Hroom. cbn.
      assert (u32 (Z.of_nat (length (sh_pendings sh))) = Z.of_nat (length (sh_pendings sh))) as Hu by (apply u32_id; unfold is_u32; lia).
      split; [split; [|done]|].
      + intros _. cbn. rewrite Hu, length_app. cbn. lia.
      + split; [done|]. split; [done|]. split.
        * exists [mk_pending value false 0]. split; [done|]. apply list.Forall_singleton. by split.
        * rewrite length_app. cbn. destruct value; cbn; lia. }
  destruct (_ || _).
  { apply Hmask; [apply mask_safe; [done|apply ctrl_names_u32]|]. intros v Hv. split; [|done]. by split. }
  destruct (name_is field "allowexplicit"); [by apply Hsame; [split|]|].
  destruct (_ || _).
  { apply Hmask; [apply mask_safe; [done|]|].
    - apply entries_u32. repeat (apply Forall_cons_2; [by apply is_u32_check|]). apply Forall_nil_2.
    - intros v Hv. split; [|done]. by split. }
  destruct (name_is field "whichgroupstate").
  { apply Hmask; [apply mask_safe; [done|]|].
    - apply entries_u32. repeat (apply Forall_cons_2; [by apply is_u32_check|]). apply Forall_nil_2.
    - intros v Hv. split; [|done]. split; [done|]. cbn. do 2 (split; [done|]). split; [by apply is_u32_land_l|done]. }
  destruct (existsb _ _); [by apply Hsame; [split|]|]. by apply led_failure_ok; split.
Qed.
End fields.

(** ** Sections *)

Definition vars_pendings (l : list VarDef) : nat := sum_list_with (fun v => expr_pendings (vr_value v)) l.

(** What a statement or a file may add to the pending computations. *)
Definition stmt_pendings (parse : xkb_file_type -> include_item -> list (option XkbFile)) (file_pendings : XkbFile -> nat)
    (stmt : statement) : nat :=
  match stmt with
  | STMT_INCLUDE include =>
      sum_list_with (fun item => match ProcessIncludeFile parse item FILE_TYPE_COMPAT with
                                 | Some file => file_pendings file | None => 0%nat end) (inc_items include)
  | STMT_INTERP _ _ _ def => vars_pendings def
  | STMT_LED_MAP _ _ body => vars_pendings body
  | STMT_VAR v => expr_pendings (vr_value v)
  | _ => 0
  end.

Fixpoint compat_pendings (parse : xkb_file_type -> include_item -> list (option XkbFile)) (fuel : nat) (file : XkbFile) : nat :=
  match fuel with
  | O => 0
  | S fuel => sum_list_with (stmt_pendings parse (compat_pendings parse fuel)) (xf_defs file)
  end.

(** No default has a list of several actions. *)
Definition plain_stmt (stmt : statement) : Prop :=
  match stmt with STMT_VAR v => ~ several (vr_value v) | _ => True end.

Definition compat_file_ok (ctx : atom_table) (file : XkbFile) : Prop :=
  file_wf ctx file /\ Forall plain_stmt (xf_defs file).

Record leds_ok (ctx : atom_table) (n : nat) (leds : list LedInfo) : Prop := {
  ls_ok : Forall (fun l => led_ok n (le_led l)) leds;
  ls_names : Forall (fun l => atom_ok ctx (le_name l)) leds;
  ls_distinct : NoDup (map le_name leds);
  ls_length : (length leds <= XKB_MAX_LEDS)%nat
}.

Record compat_inv (ctx : atom_table) (base : xkb_mod_set) (sh : shared) (ci : CompatInfo) : Prop := {
  cv_mods : vmods_ok (ci_mods ci);
  cv_extends : extends base (ci_mods ci);
  cv_interps : interps_ok (length (sh_pendings sh)) sh (ci_interps ci);
  cv_arrays : arrays_ok (length (sh_pendings sh)) sh;
  cv_default : si_ok (length (sh_pendings sh)) (ci_default_interp ci) /\ array_of (ci_default_interp ci) = None;
  cv_leds : leds_ok ctx (length (sh_pendings sh)) (ci_leds ci);
  cv_default_led : led_ok (length (sh_pendings sh)) (le_led (ci_default_led ci));
  cv_actions : defaults_ok (length (sh_pendings sh)) (ci_default_actions ci)
}.

Lemma interps_ok_grow n n' sh sh' l : (n <= n')%nat -> own sh' (arrays_of l) -> interps_ok n sh l -> interps_ok n' sh' l.
Proof. intros Hn Ho [H1 _ H3]. split; [|done|done]. eapply list.Forall_impl; [exact H1|]. intros si. by apply si_ok_mono. Qed.

Lemma leds_ok_mono ctx n n' l : (n <= n')%nat -> leds_ok ctx n l -> leds_ok ctx n' l.
Proof. intros Hn [H1 H2 H3 H4]. split; try done. eapply list.Forall_impl; [exact H1|]. intros x. by apply led_ok_mono. Qed.

(** The others' steps. *)
Lemma compat_inv_grow ctx base sh sh' ci : compat_inv ctx base sh ci -> own sh' (arrays_of (ci_interps ci)) ->
  arrays_ok (length (sh_pendings sh')) sh' -> (length (sh_pendings sh) <= length (sh_pendings sh'))%nat ->
  compat_inv ctx base sh' ci.
Proof.
  intros [H1 H2 H3 H4 [H5 H6] H7 H8 H9] Ho Ha Hn. split; try done.
  - by eapply interps_ok_grow.
  - split; [|done]. by eapply si_ok_mono.
  - by eapply leds_ok_mono.
  - by eapply led_ok_mono.
  - by eapply defaults_ok_mono.
Qed.

Lemma ci_errors_inv ctx base sh ci n : compat_inv ctx base sh ci -> compat_inv ctx base sh (ci_add_errors n ci).
Proof. intros []. by split. Qed.

Lemma init_compat_inv info depth mods sh : vmods_ok mods -> arrays_ok (length (sh_pendings sh)) sh ->
  compat_inv (ki_ctx info) mods sh (InitCompatInfo info depth mods).
Proof.
  intros Hm Ha. destruct (init_ok mods (Nat.ltb 0 depth) Hm) as [H1 H2]. split; try done.
  - split; [constructor|split; constructor|constructor].
  - split; [|done]. split; [by left|done].
  - split; [constructor|constructor|constructor|cbn; lia].
  - apply init_actions_ok.
Qed.

Lemma merge_led_map_ok n old new : led_ok n (le_led old) -> led_ok n (le_led new) ->
  led_ok n (le_led (MergeLedMap old new)) /\ (le_name (MergeLedMap old new) = le_name old \/ le_name (MergeLedMap old new) = le_name new).
Proof.
  intros [Hop (Ho1 & Ho2 & Ho3 & Ho4)] [Hnp (Hn1 & Hn2 & Hn3 & Hn4)]. unfold MergeLedMap.
  destruct (same_map _ _); [split; [by split|by left]|].
  assert (forall clobber, led_ok n (le_led (merge_led_fields old new clobber)) /\ le_name (merge_led_fields old new clobber) = le_name old) as H.
  { intros clobber. unfold merge_led_fields, merge_led_field. repeat (destruct (UseNewLEDField _ _ _ _)); by split. }
  destruct (le_merge new); try (split; [apply H|left; apply H]). split; [by split|by right].
Qed.

Lemma add_led_ok ctx n leds new leds' : leds_ok ctx n leds -> led_ok n (le_led new) -> atom_ok ctx (le_name new) ->
  AddLedMap leds new = Some leds' -> leds_ok ctx n leds'.
Proof.
  intros [H1 H2 H3 H4] Hn Ha. unfold AddLedMap. destruct (list_find _ leds) as [[i old]|] eqn:Ef.
  - apply list_find_Some in Ef as (Hi & Hnm & _). intros [= <-].
    destruct (merge_led_map_ok n old new (Forall_lookup_1 _ _ _ _ H1 Hi) Hn) as [Hok Hname].
    assert (le_name (MergeLedMap old new) = le_name old) as Hname' by (destruct Hname as [->| ->]; done).
    split; [by apply Forall_insert| | |by rewrite length_insert].
    + apply Forall_insert; [done|]. by rewrite Hname', Hnm.
    + change (NoDup (le_name <$> <[i := MergeLedMap old new]> leds)). rewrite list_fmap_insert, Hname'.
      rewrite list_insert_id; [done|]. by rewrite list_lookup_fmap, Hi.
  - destruct (Nat.leb_spec XKB_MAX_LEDS (length leds)); [done|]. intros [= <-]. apply list_find_None in Ef. split.
    + apply list.Forall_app. split; [done|]. by apply list.Forall_singleton.
    + apply list.Forall_app. split; [done|]. by apply list.Forall_singleton.
    + rewrite map_app. apply list.NoDup_app. split; [done|]. split; [|apply list.NoDup_singleton].
      intros x (t & -> & Hin)%list_elem_of_fmap Hx. apply list_elem_of_singleton in Hx.
      rewrite list.Forall_forall in Ef. by apply (Ef t).
    + rewrite length_app. cbn. lia.
Qed.

Lemma set_leds_inv ctx base sh ci leds : compat_inv ctx base sh ci -> leds_ok ctx (length (sh_pendings sh)) leds ->
  compat_inv ctx base sh (ci_set_leds leds ci).
Proof. intros []. by split. Qed.

Lemma merge_led_maps_inv ctx base sh from merge : forall into, compat_inv ctx base sh into ->
  Forall (fun l => led_ok (length (sh_pendings sh)) (le_led l)) from -> Forall (fun l => atom_ok ctx (le_name l)) from ->
  compat_inv ctx base sh (merge_led_maps into from merge) /\
  ci_include_depth (merge_led_maps into from merge) = ci_include_depth into /\
  ci_interps (merge_led_maps into from merge) = ci_interps into.
Proof.
  induction from as [|l from IH]; intros into Hi Hf Ha; cbn [merge_led_maps]; [done|].
  apply list.Forall_cons in Hf as [Hl Hf]. apply list.Forall_cons in Ha as [Hn Ha].
  destruct (AddLedMap _ _) as [leds|] eqn:E.
  - apply (add_led_ok ctx (length (sh_pendings sh))) in E; [|apply Hi|done|done].
    apply (IH (ci_set_leds leds into)); [by apply set_leds_inv|done|done].
  - apply (IH (ci_add_errors 1 into)); [by apply ci_errors_inv|done|done].
Qed.

(** Sections whose arrays are disjoint. *)
Lemma merge_included_inv ctx base sh into from merge : compat_inv ctx base sh into -> compat_inv ctx (ci_mods into) sh from ->
  own sh (arrays_of (ci_interps into) ++ arrays_of (ci_interps from)) ->
  exists r, MergeIncludedCompatMaps sh into from merge = Ok r /\ compat_inv ctx base (snd r) (fst r) /\
    ci_include_depth (fst r) = ci_include_depth into /\ sh_pendings (snd r) = sh_pendings sh /\
    owns ctx (arrays_of (ci_interps into) ++ arrays_of (ci_interps from)) sh (arrays_of (ci_interps (fst r))) (snd r).
Proof.
  intros Hi Hf Hown. unfold MergeIncludedCompatMaps. destruct (_ >? 0).
  { eexists. split; [done|]. split; [by apply ci_errors_inv|]. do 2 (split; [done|]). split; [done|done| |apply grown_refl].
    intros p Hp. left. apply elem_of_app. by left. }
  destruct (MergeModSets_extends (ci_mods into) (ci_mods from) merge) as (mods & -> & Hok & Hext); [apply Hi|apply Hf|apply Hf|].
  cbn [result_bind]. set (into1 := match ci_name _ with Some _ => _ | None => _ end).
  assert (compat_inv ctx base sh into1 /\ ci_interps into1 = ci_interps into /\ ci_include_depth into1 = ci_include_depth into)
    as (Hi1 & Hin & Hd).
  { assert (extends base mods) by (by apply (extends_trans _ (ci_mods into)); [apply Hi|apply Hi|]).
    unfold into1. destruct Hi. destruct (ci_name _); by split. }
  set (m := match ci_interps into1 with [] => _ | _ => _ end).
  assert (exists r, m = Ok r /\ interps_ok (length (sh_pendings sh)) (snd r) (fst r) /\ arrays_ok (length (sh_pendings sh)) (snd r) /\
    sh_pendings (snd r) = sh_pendings sh /\
    owns ctx (arrays_of (ci_interps into) ++ arrays_of (ci_interps from)) sh (arrays_of (fst r)) (snd r))
    as ([l1 sh1] & -> & Hl1 & Hok1 & Hp1 & Hw1).
  { unfold m. rewrite Hin. destruct (ci_interps into) as [|si l] eqn:El.
    - eexists. split; [done|]. cbn. split; [apply Hf|]. split; [apply Hf|]. split; [done|apply owns_refl].
    - rewrite <- El in *. apply merge_interps_ok; [apply Hi|apply (ip_ok _ _ _ (cv_interps _ _ _ _ Hf))|apply Hi|done]. }
  cbn [result_bind fst snd] in *. eexists. split; [done|]. cbn [fst snd].
  assert (compat_inv ctx base sh1 (ci_set_interps l1 into1)) as Hi2.
  { destruct Hi1 as [A1 A2 _ _ A5 A6 A7 A8]. rewrite <- Hp1 in *. by split. }
  assert (leds_ok ctx (length (sh_pendings sh1)) (ci_leds from)) as [Hf1 Hf2 Hf3 Hf4] by (rewrite Hp1; apply Hf).
  destruct (ci_leds (ci_set_interps l1 into1)).
  - split; [by apply set_leds_inv|]. by split.
  - destruct (merge_led_maps_inv ctx base sh1 (ci_leds from) merge (ci_set_interps l1 into1)) as (H1 & H2 & H3); [done..|].
    rewrite H2, H3. by split.
Qed.

(** ** Statements *)

(** The data of a section that a statement leaves, among its arrays. *)
Definition kept (ctx : atom_table) (base : xkb_mod_set) (sh : shared) (ci : CompatInfo) (cost : nat) (r : CompatInfo * shared) : Prop :=
  compat_inv ctx base (snd r) (fst r) /\ ci_include_depth (fst r) = ci_include_depth ci /\
  owns ctx (arrays_of (ci_interps ci)) sh (arrays_of (ci_interps (fst r))) (snd r) /\
  (length (sh_pendings (snd r)) <= length (sh_pendings sh) + cost)%nat.

Lemma kept_le ctx base sh ci cost cost' r : (cost <= cost')%nat -> kept ctx base sh ci cost r -> kept ctx base sh ci cost' r.
Proof. intros Hc (H1 & H2 & H3 & H4). do 3 (split; [done|]). lia. Qed.

Lemma kept_refl ctx base sh ci cost : compat_inv ctx base sh ci -> kept ctx base sh ci cost (ci, sh).
Proof. intros H. split; [done|]. split; [done|]. split; [apply owns_refl|cbn; lia]. Qed.

(** What does not touch the interpretations. *)
Lemma kept_step ctx base sh ci cost ci' sh' : compat_inv ctx base sh ci -> sh_arrays sh' = sh_arrays sh ->
  grown ctx (sh_pendings sh) (sh_pendings sh') -> (length (sh_pendings sh') <= length (sh_pendings sh) + cost)%nat ->
  ci_interps ci' = ci_interps ci -> ci_include_depth ci' = ci_include_depth ci ->
  (compat_inv ctx base sh' ci -> compat_inv ctx base sh' ci') -> kept ctx base sh ci cost (ci', sh').
Proof.
  intros Hi Ha Hg Hl Hin Hd Hci. split; [|split; [done|split; [|done]]].
  - apply Hci. eapply compat_inv_grow; [exact Hi| | |by eapply grown_length].
    + unfold own. rewrite Ha. apply Hi.
    + eapply arrays_ok_mono; [by eapply grown_length|done|apply Hi].
  - cbn. rewrite Hin. split; [by rewrite Ha|by intros; rewrite Ha|by left|done].
Qed.

Section sections.
Context (info : keymap_info) (parse : xkb_file_type -> include_item -> list (option XkbFile)).
Let ctx := ki_ctx info.
Hypothesis (Hparse : forall item file, Some file ∈ parse FILE_TYPE_COMPAT item -> compat_file_ok ctx file).
Hypothesis (Hreads : forall mods, vmods_ok mods -> reads_ok info mods).

Lemma process_compat item file : ProcessIncludeFile parse item FILE_TYPE_COMPAT = Some file -> compat_file_ok ctx file.
Proof using Hparse. intros Hf. apply select_file_spec in Hf as [_ [Hin|Hin]]; [by eapply Hparse|done..]. Qed.

Definition file_handled (handle_file : shared -> CompatInfo -> XkbFile -> result (CompatInfo * shared))
    (file_pendings : XkbFile -> nat) (depth : nat) : Prop :=
  forall base sh ci file, compat_inv ctx base sh ci -> ci_include_depth ci = depth -> compat_file_ok ctx file ->
    pending_room (sh_pendings sh) (file_pendings file) ->
    within compat_fault (kept ctx base sh ci (file_pendings file)) (handle_file sh ci file).

Section handlers.
Context (handle_file : shared -> CompatInfo -> XkbFile -> result (CompatInfo * shared)) (file_pendings : XkbFile -> nat).

Definition items_pendings (items : list include_item) : nat :=
  sum_list_with (fun item => match ProcessIncludeFile parse item FILE_TYPE_COMPAT with
                             | Some file => file_pendings file | None => 0%nat end) items.

Definition included_arrays (o : option CompatInfo) : list nat :=
  match o with Some i => arrays_of (ci_interps i) | None => [] end.

Lemma own_nil_owned sh sh' I : arrays_ok (length (sh_pendings sh)) sh -> owns ctx I sh I sh' -> own sh' [].
Proof using Type. intros _ _. split; constructor. Qed.

Lemma include_compat_inv ci base items : file_handled handle_file file_pendings (S (ci_include_depth ci)) ->
  array_of (ci_default_interp ci) = None -> forall sh included,
  si_ok (length (sh_pendings sh)) (ci_default_interp ci) -> led_ok (length (sh_pendings sh)) (le_led (ci_default_led ci)) ->
  compat_inv ctx base sh included -> pending_room (sh_pendings sh) (items_pendings items) ->
  within compat_fault (fun r => let '(o, sh') := r in
      (forall included', o = Some included' -> compat_inv ctx base sh' included') /\
      arrays_ok (length (sh_pendings sh')) sh' /\ own sh' (included_arrays o) /\
      owns ctx (arrays_of (ci_interps included)) sh (included_arrays o) sh' /\
      (length (sh_pendings sh') <= length (sh_pendings sh) + items_pendings items)%nat)
    (include_compat info parse handle_file ci sh included items).
Proof using Hparse.
  intros Hh Hna. induction items as [|item items IH]; intros sh included Hsi Hled Hi Hroom; cbn [include_compat].
  { split; [by intros ? [= <-]|]. split; [apply Hi|]. split; [apply (ip_own _ _ _ (cv_interps _ _ _ _ Hi))|].
    split; [apply owns_refl|lia]. }
  unfold items_pendings in Hroom |- *. cbn [sum_list_with] in *. fold (items_pendings items) in *. unfold pending_room in Hroom.
  destruct (ProcessIncludeFile parse item FILE_TYPE_COMPAT) as [file|] eqn:Hf.
  2: { split; [done|]. split; [apply Hi|]. split; [by split; constructor|]. split; [|lia].
       split; [lia|done| |apply grown_refl]. intros p Hp. by apply elem_of_nil in Hp. }
  set (next := ci_set_default_led _ _).
  assert (compat_inv ctx (ci_mods included) sh next) as Hnext.
  { destruct (init_compat_inv info (S (ci_include_depth ci)) (ci_mods included) sh) as [A1 A2 A3 A4 A5 A6 A7 A8];
      [apply Hi|apply Hi|]. by split. }
  eapply within_bind; [apply (Hh (ci_mods included) sh next file); [done|done|by eapply process_compat|unfold pending_room; lia]|].
  intros [from sh1] (Hfrom & _ & Hw1 & Hl1). cbn [fst snd] in *. change (arrays_of (ci_interps next)) with (@nil nat) in Hw1.
  pose proof (cv_interps _ _ _ _ Hi) as Hint. pose proof (cv_interps _ _ _ _ Hfrom) as Hint1.
  destruct (owns_frame ctx (arrays_of (ci_interps included)) [] sh (arrays_of (ci_interps from)) sh1) as [Ho1 Hw1'];
    [rewrite app_nil_r; apply Hint|apply Hint1|done|]. rewrite app_nil_r in Hw1'.
  pose proof (grown_length _ _ _ (ow_grown _ _ _ _ _ Hw1)) as Hg1.
  assert (compat_inv ctx base sh1 included) as Hi1.
  { eapply compat_inv_grow; [exact Hi|by apply own_app in Ho1 as [? _]|apply Hfrom|done]. }
  destruct (merge_included_inv ctx base sh1 included from (inc_merge item) Hi1 Hfrom Ho1) as ([inc2 sh2] & -> & Hi2 & _ & Hp2 & Hw2).
  cbn [result_bind fst snd] in *. assert (length (sh_pendings sh2) = length (sh_pendings sh1)) as Hp2' by (by rewrite Hp2).
  eapply within_mono.
  { apply IH; [eapply si_ok_mono; [|exact Hsi]; lia|eapply led_ok_mono; [|exact Hled]; lia|done|unfold pending_room; lia]. }
  intros [o sh3] (H1 & H2 & H3 & H4 & H5). split; [done|]. split; [done|]. split; [done|]. split; [|lia].
  eapply owns_trans; [exact Hw1'|]. by eapply owns_trans.
Qed.

Definition stmt_kept (base : xkb_mod_set) (sh : shared) (ci : CompatInfo) (cost : nat) (r : bool * CompatInfo * shared) : Prop :=
  let '(_, ci', sh') := r in kept ctx base sh ci cost (ci', sh').

Lemma HandleIncludeCompatMap_inv base sh ci include :
  ((ci_include_depth ci < INCLUDE_MAX_DEPTH)%nat -> file_handled handle_file file_pendings (S (ci_include_depth ci))) ->
  compat_inv ctx base sh ci -> pending_room (sh_pendings sh) (items_pendings (inc_items include)) ->
  within compat_fault (stmt_kept base sh ci (items_pendings (inc_items include)))
    (HandleIncludeCompatMap info parse handle_file sh ci include).
Proof using Hparse.
  intros Hh Hi Hroom. unfold HandleIncludeCompatMap, ExceedsIncludeMaxDepth.
  destruct (Nat.leb_spec INCLUDE_MAX_DEPTH (ci_include_depth ci)) as [Hd|Hd].
  { apply kept_step; [done|done|apply grown_refl|lia|done|done|]. apply ci_errors_inv. }
  set (init := ci_set_name _ _).
  assert (compat_inv ctx (ci_mods ci) sh init) as Hinit.
  { destruct (init_compat_inv info (S (ci_include_depth ci)) (ci_mods ci) sh) as [A1 A2 A3 A4 A5 A6 A7 A8]; [apply Hi|apply Hi|]. by split. }
  pose proof (cv_default _ _ _ _ Hi) as [Hsi Hna]. pose proof (cv_default_led _ _ _ _ Hi) as Hled.
  pose proof (cv_interps _ _ _ _ Hi) as Hint.
  eapply within_bind; [by apply (include_compat_inv ci (ci_mods ci) _ (Hh Hd) Hna sh init Hsi Hled Hinit Hroom)|].
  intros [o sh1] (Ho & Ha1 & Hown1 & Hw1 & Hl1). change (arrays_of (ci_interps init)) with (@nil nat) in Hw1.
  destruct (owns_frame ctx (arrays_of (ci_interps ci)) [] sh (included_arrays o) sh1) as [Ho1 Hw1'];
    [rewrite app_nil_r; apply Hint|done|done|]. rewrite app_nil_r in Hw1'.
  pose proof (grown_length _ _ _ (ow_grown _ _ _ _ _ Hw1)) as Hg1.
  assert (compat_inv ctx base sh1 ci) as Hi1.
  { eapply compat_inv_grow; [exact Hi|by apply own_app in Ho1 as [? _]|done|done]. }
  destruct o as [included|].
  - destruct (merge_included_inv ctx base sh1 ci included (inc_merge (inc_first include)) Hi1 (Ho _ eq_refl) Ho1)
      as ([ci2 sh2] & -> & Hi2 & Hd2 & Hp2 & Hw2). cbn [result_bind fst snd] in *.
    split; [done|]. split; [done|]. split; [by eapply owns_trans|]. cbn. by rewrite Hp2.
  - cbn [included_arrays] in Hw1'. rewrite app_nil_r in Hw1'. split; [by apply ci_errors_inv|]. split; [done|]. split; [|done]. done.
Qed.

(** *** Interpretations *)

Lemma predicate_safe mods e : vmods_ok mods -> match e with Some e => expr_wf ctx e | None => True end ->
  safe (fun _ => True) (ResolveStateAndPredicate ctx mods e).
Proof using Type.
  intros Hm Hw. unfold ResolveStateAndPredicate.
  assert (forall pred e, expr_wf ctx e -> safe (fun _ : option (xkb_match_operation * Z) => True)
    (let+ m := ExprResolveModMask ctx e MOD_REAL (ms_enum mods) in
     Ok (match m with Some m => Some (pred, m) | None => None end))) as Hmask.
  { intros pred e' He'. eapply safe_bind; [by apply vmods_mask_safe|done]. }
  destruct e as [e|]; [|done]. destruct e; try (by apply Hmask).
  - eapply safe_bind; [by apply safe_text, atom_text_ok|]. intros o _. destruct (match o with Some _ => _ | None => _ end); [done|by apply Hmask].
  - destruct Hw as [Hn Ha]. eapply safe_bind; [by apply safe_text|]. intros o _.
    destruct (match o with Some _ => _ | None => _ end); [|done]. destruct args as [|arg []]; [done| |done].
    apply Hmask. by destruct Ha.
Qed.

Lemma HandleInterpBody_inv ci def : vmods_ok (ci_mods ci) -> forall sh si ok,
  arrays_ok (length (sh_pendings sh)) sh -> own sh (arrays_of_one si) -> si_ok (length (sh_pendings sh)) si ->
  defaults_ok (length (sh_pendings sh)) (ci_default_actions ci) -> Forall (var_wf ctx) def ->
  pending_room (sh_pendings sh) (vars_pendings def) ->
  within compat_fault (fun r => let '(_, si', sh') := r in
      si_ok (length (sh_pendings sh')) si' /\ arrays_ok (length (sh_pendings sh')) sh' /\ own sh' (arrays_of_one si') /\
      owns ctx (arrays_of_one si) sh (arrays_of_one si') sh' /\
      (length (sh_pendings sh') <= length (sh_pendings sh) + vars_pendings def)%nat)
    (HandleInterpBody info ci sh def si ok).
Proof using Hreads.
  intros Hm. induction def as [|v def IH]; intros sh si ok Ha Ho Hs Hd Hw Hroom; cbn [HandleInterpBody].
  { do 3 (split; [done|]). split; [apply owns_refl|lia]. }
  apply list.Forall_cons in Hw as [Hv Hw]. unfold vars_pendings, pending_room in *. cbn [sum_list_with] in *. fold (vars_pendings def) in *.
  eapply within_bind; [by apply safe_compat, var_lhs_safe|].
  assert (forall ok, within compat_fault (fun r : bool * SymInterpInfo * shared => let '(_, si', sh') := r in
      si_ok (length (sh_pendings sh')) si' /\ arrays_ok (length (sh_pendings sh')) sh' /\ own sh' (arrays_of_one si') /\
      owns ctx (arrays_of_one si) sh (arrays_of_one si') sh' /\
      (length (sh_pendings sh') <= length (sh_pendings sh) + (expr_pendings (vr_value v) + vars_pendings def))%nat)
      (HandleInterpBody info ci sh def si ok)) as Hskip.
  { intros ok'. eapply within_mono; [apply IH; try done; lia|]. intros [[b si'] sh'] (H1 & H2 & H3 & H4 & H5).
    do 4 (split; [done|]). lia. }
  intros [[[[el|] f] ndx]|] _; [apply Hskip| |apply Hskip].
  eapply within_bind; [apply SetInterpField_ok; try done; [by apply Hreads|apply Hv|unfold pending_room; lia]|].
  intros [[b si1] sh1] (H1 & H2 & H3 & H4 & H5 & _). eapply within_mono.
  { apply IH; try done; [|lia]. eapply defaults_ok_mono; [|exact Hd]. eapply grown_length, (ow_grown _ _ _ _ _ H4). }
  intros [[b' si'] sh'] (K1 & K2 & K3 & K4 & K5). do 3 (split; [done|]). split; [by eapply owns_trans|lia].
Qed.

Lemma HandleInterpDef_inv base sh ci merge sym match_ def : compat_inv ctx base sh ci ->
  match match_ with Some e => expr_wf ctx e | None => True end -> Forall (var_wf ctx) def ->
  pending_room (sh_pendings sh) (vars_pendings def) ->
  within compat_fault (stmt_kept base sh ci (vars_pendings def)) (HandleInterpDef info sh ci merge sym match_ def).
Proof using Hreads.
  intros Hi Hm Hw Hroom. pose proof Hi as [A1 A2 A3 A4 [A5 A6] A7 A8 A9]. unfold HandleInterpDef.
  eapply within_bind; [by apply safe_compat, predicate_safe|]. intros [[pred mods]|] _; [|by apply kept_refl].
  set (si := sy_set_trigger _ _ _ _).
  assert (arrays_of_one si = []) as Hn by (unfold arrays_of_one, array_of in *; cbn; by destruct (sy_actions _)).
  eapply within_bind; [apply (HandleInterpBody_inv ci def A1 sh si true); try done; [rewrite Hn; by split; constructor|by destruct A5]|].
  intros [[ok si'] sh1] (H1 & H2 & H3 & H4 & H5). rewrite Hn in H4. pose proof (grown_length _ _ _ (ow_grown _ _ _ _ _ H4)) as Hg.
  destruct (owns_frame ctx (arrays_of (ci_interps ci)) [] sh (arrays_of_one si') sh1) as [Ho1 Hw1];
    [rewrite app_nil_r; apply A3|done|done|]. rewrite app_nil_r in Hw1.
  assert (compat_inv ctx base sh1 ci) as Hi1.
  { eapply compat_inv_grow; [exact Hi|by apply own_app in Ho1 as [? _]|done|done]. }
  destruct ok.
  - destruct (add_interp_ok ctx (length (sh_pendings sh1)) sh1 (ci_interps ci) si') as ([l2 sh2] & -> & Hl2 & Ha2 & Hp2 & Hw2);
      [apply Hi1|done|done|done|]. cbn [result_bind fst snd] in *.
    split; [|split; [done|split; [by eapply owns_trans|cbn; by rewrite Hp2]]].
    destruct Hi1 as [B1 B2 _ _ B5 B6 B7 B8]. rewrite <- Hp2 in *. by split.
  - split; [by apply ci_errors_inv|]. split; [done|]. split; [|done]. cbn. destruct Hw1 as [L F N G]. split; [done|done| |done].
    intros p Hp. apply N, elem_of_app. by left.
Qed.

(** *** Indicators *)

Lemma led_map_body_inv ci body : vmods_ok (ci_mods ci) -> forall sh l ok,
  led_ok (length (sh_pendings sh)) (le_led l) -> Forall (var_wf ctx) body -> pending_room (sh_pendings sh) (vars_pendings body) ->
  within compat_fault (fun r => let '(_, l', sh') := r in
      led_ok (length (sh_pendings sh')) (le_led l') /\ le_name l' = le_name l /\ sh_arrays sh' = sh_arrays sh /\
      grown ctx (sh_pendings sh) (sh_pendings sh') /\
      (length (sh_pendings sh') <= length (sh_pendings sh) + vars_pendings body)%nat)
    (led_map_body info ci sh body l ok).
Proof using Hreads.
  intros Hm. induction body as [|v body IH]; intros sh l ok Hl Hw Hroom; cbn [led_map_body].
  { do 3 (split; [done|]). split; [apply grown_refl|lia]. }
  apply list.Forall_cons in Hw as [Hv Hw]. unfold vars_pendings, pending_room in *. cbn [sum_list_with] in *. fold (vars_pendings body) in *.
  eapply within_bind; [by apply safe_compat, var_lhs_safe|].
  assert (forall ok, within compat_fault (fun r : bool * LedInfo * shared => let '(_, l', sh') := r in
      led_ok (length (sh_pendings sh')) (le_led l') /\ le_name l' = le_name l /\ sh_arrays sh' = sh_arrays sh /\
      grown ctx (sh_pendings sh) (sh_pendings sh') /\
      (length (sh_pendings sh') <= length (sh_pendings sh) + (expr_pendings (vr_value v) + vars_pendings body))%nat)
      (led_map_body info ci sh body l ok)) as Hskip.
  { intros ok'. eapply within_mono; [apply IH; try done; lia|]. intros [[b l'] sh'] (H1 & H2 & H3 & H4 & H5).
    do 4 (split; [done|]). lia. }
  intros [[[[el|] f] ndx]|] _; [apply Hskip| |apply Hskip].
  eapply within_bind; [apply SetLedMapField_ok; try done; [by apply Hreads|apply Hv|unfold pending_room; lia]|].
  intros [[b l1] sh1] (H1 & H2 & H3 & H4 & H5). eapply within_mono; [apply IH; try done; lia|].
  intros [[b' l'] sh'] (K1 & K2 & K3 & K4 & K5). split; [done|]. split; [by rewrite K2|]. split; [by rewrite K3|].
  split; [by eapply grown_trans|lia].
Qed.

Lemma HandleLedMapDef_inv base sh ci merge name body : compat_inv ctx base sh ci -> atom_ok ctx name ->
  Forall (var_wf ctx) body -> pending_room (sh_pendings sh) (vars_pendings body) ->
  within compat_fault (stmt_kept base sh ci (vars_pendings body)) (HandleLedMapDef info sh ci merge name body).
Proof using Hreads.
  intros Hi Hn Hw Hroom. unfold HandleLedMapDef. set (l := le_set_name _ _).
  assert (led_ok (length (sh_pendings sh)) (le_led l)) as Hl by (destruct (cv_default_led _ _ _ _ Hi); by split).
  eapply within_bind; [by apply (led_map_body_inv ci body (cv_mods _ _ _ _ Hi) sh l true)|].
  intros [[ok l'] sh1] (H1 & H2 & H3 & H4 & H5).
  assert (kept ctx base sh ci (vars_pendings body) (ci, sh1)) as Hsame by (by apply kept_step).
  destruct ok; [|exact Hsame]. destruct (AddLedMap _ _) as [leds|] eqn:E; [|exact Hsame].
  apply kept_step; try done. intros Hi1. apply set_leds_inv; [done|].
  refine (add_led_ok ctx _ _ l' leds (cv_leds _ _ _ _ Hi1) H1 _ E). by rewrite H2.
Qed.

(** *** Defaults *)

Lemma arrays_of_none si : array_of si = None -> arrays_of_one si = [].
Proof using Type. intros H. unfold arrays_of_one. by rewrite H. Qed.

(** A step that owns no array. *)
Lemma kept_frame base sh ci cost ci' sh' : compat_inv ctx base sh ci -> owns ctx [] sh [] sh' ->
  arrays_ok (length (sh_pendings sh')) sh' -> (length (sh_pendings sh') <= length (sh_pendings sh) + cost)%nat ->
  ci_interps ci' = ci_interps ci -> ci_include_depth ci' = ci_include_depth ci ->
  (compat_inv ctx base sh' ci -> compat_inv ctx base sh' ci') -> kept ctx base sh ci cost (ci', sh').
Proof using Type.
  intros Hi Hw Ha Hl Hin Hd Hci. pose proof (cv_interps _ _ _ _ Hi) as Hint.
  destruct (owns_frame ctx (arrays_of (ci_interps ci)) [] sh [] sh') as [Ho1 Hw1];
    [rewrite app_nil_r; apply Hint|by split; constructor|done|]. rewrite app_nil_r in Ho1, Hw1.
  split; [|split; [done|split; [by cbn; rewrite Hin|done]]].
  apply Hci. eapply compat_inv_grow; [exact Hi|done|done|]. eapply grown_length, (ow_grown _ _ _ _ _ Hw).
Qed.

Lemma HandleGlobalVar_inv base sh ci v : compat_inv ctx base sh ci -> var_wf ctx v -> ~ several (vr_value v) ->
  pending_room (sh_pendings sh) (expr_pendings (vr_value v)) ->
  within compat_fault (stmt_kept base sh ci (expr_pendings (vr_value v))) (Compat.HandleGlobalVar info sh ci v).
Proof using Hreads.
  intros Hi Hv Hns Hroom. pose proof Hi as [A1 A2 A3 A4 [A5 A6] A7 A8 A9]. unfold Compat.HandleGlobalVar.
  eapply within_bind; [by apply safe_compat, var_lhs_safe|].
  intros [[[[el|] f] ndx]|] _; [|by apply kept_refl..]. destruct (name_is el "interpret").
  - set (temp := sy_set_merge _ _). eapply within_bind.
    { apply (SetInterpField_ok info (ci_default_actions ci) (ci_mods ci) A1 (Hreads _ A1) sh temp f ndx (vr_value v)); try done;
        [by split; constructor|split; [by left|done]|apply Hv]. }
    intros [[ret si] sh1] (H1 & H2 & H3 & H4 & H5 & H6). specialize (H6 Hns eq_refl). rewrite (arrays_of_none _ H6) in H3, H4.
    change (arrays_of_one temp) with (@nil nat) in H4. pose proof (grown_length _ _ _ (ow_grown _ _ _ _ _ H4)) as Hg.
    destruct ret; [|by apply kept_frame].
    destruct (merge_interp_ok ctx (length (sh_pendings sh1)) sh1 (ci_default_interp ci) si) as ([d sh2] & -> & Hm); [|done|done| |].
    { by eapply si_ok_mono. }
    { rewrite (arrays_of_none _ A6), (arrays_of_none _ H6). by split; constructor. }
    destruct Hm as (K1 & K2 & K3 & K4 & K5 & K6 & _). rewrite (arrays_of_none _ A6), (arrays_of_none _ H6) in K5.
    assert (array_of d = None) as Hdn by (destruct K6 as [->| ->]; done). rewrite (arrays_of_none _ Hdn) in K5.
    cbn [result_bind fst snd]. rewrite <- K3 in *. apply kept_frame; try done.
    + by eapply owns_trans.
    + intros []. by split.
  - destruct (name_is el "indicator").
    + set (temp := le_set_merge _ _). eapply within_bind.
      { apply (SetLedMapField_ok info (ci_mods ci) A1 (Hreads _ A1) sh temp f ndx (vr_value v)); [|apply Hv|done].
        split; [done|]. cbn. do 3 (split; [apply is_u32_0|]). apply is_u32_0. }
      intros [[ret l] sh1] (H1 & H2 & H3 & H4 & H5). destruct ret; (apply kept_step; try done).
      intros [B1 B2 B3 B4 B5 B6 B7 B8]. split; try done. by apply merge_led_map_ok.
    + eapply within_bind.
      { apply safe_compat, default_field_ok; [by apply Hreads|done|apply Hv|].
        unfold pending_room in *. destruct (vr_value v); cbn in *; lia. }
      intros [[e d] ps] (H1 & H2 & H3). apply kept_step; try done.
      * cbn. destruct (vr_value v); cbn; lia.
      * intros []. by split.
Qed.

(** *** Files *)

Lemma handle_compat_stmt_inv base sh ci stmt :
  ((ci_include_depth ci < INCLUDE_MAX_DEPTH)%nat -> file_handled handle_file file_pendings (S (ci_include_depth ci))) ->
  stmt_wf ctx stmt -> plain_stmt stmt -> compat_inv ctx base sh ci ->
  pending_room (sh_pendings sh) (stmt_pendings parse file_pendings stmt) ->
  within compat_fault (stmt_kept base sh ci (stmt_pendings parse file_pendings stmt))
    (handle_compat_stmt info parse handle_file sh ci stmt).
Proof using Hparse Hreads.
  intros Hh Hw Hp Hi Hroom. unfold handle_compat_stmt. destruct stmt; try (by apply kept_refl).
  - by apply HandleIncludeCompatMap_inv.
  - by apply HandleGlobalVar_inv.
  - apply HandleInterpDef_inv; [done|apply Hw|apply Hw|done].
  - eapply within_bind; [apply safe_compat, vmod_def_safe; [apply Hi|done]|]. intros [b mods] [Hm He].
    apply kept_step; try done; [apply grown_refl|lia|]. intros [B1 B2 B3 B4 B5 B6 B7 B8]. split; try done.
    by apply (extends_trans _ (ci_mods ci)).
  - apply HandleLedMapDef_inv; [done|apply Hw|apply Hw|done].
Qed.

Lemma handle_compat_stmts_inv base stmts : forall sh ci,
  ((ci_include_depth ci < INCLUDE_MAX_DEPTH)%nat -> file_handled handle_file file_pendings (S (ci_include_depth ci))) ->
  Forall (stmt_wf ctx) stmts -> Forall plain_stmt stmts -> compat_inv ctx base sh ci ->
  pending_room (sh_pendings sh) (sum_list_with (stmt_pendings parse file_pendings) stmts) ->
  within compat_fault (kept ctx base sh ci (sum_list_with (stmt_pendings parse file_pendings) stmts))
    (handle_compat_stmts info parse handle_file sh ci stmts).
Proof using Hparse Hreads.
  induction stmts as [|stmt stmts IH]; intros sh ci Hh Hw Hp Hi Hroom; cbn [handle_compat_stmts sum_list_with] in *; [by apply kept_refl|].
  apply list.Forall_cons in Hw as [Hw Hws]. apply list.Forall_cons in Hp as [Hp Hps]. unfold pending_room in *.
  eapply within_bind; [apply (handle_compat_stmt_inv base); try done; unfold pending_room; lia|].
  intros [[ok ci1] sh1] (Hi1 & Hd1 & Hw1 & Hl1). cbn [fst snd] in *.
  set (ci2 := if ok then ci1 else ci_add_errors 1 ci1).
  assert (compat_inv ctx base sh1 ci2 /\ ci_include_depth ci2 = ci_include_depth ci /\ ci_interps ci2 = ci_interps ci1) as (Hi2 & Hd2 & Hin2).
  { unfold ci2. destruct ok; [done|]. split; [by apply ci_errors_inv|done]. }
  destruct (_ >? 10).
  - split; [done|]. split; [done|]. cbn [fst snd]. rewrite Hin2. split; [done|lia].
  - eapply within_mono; [apply IH; [by rewrite Hd2|done|done|done|lia]|]. intros [ci3 sh3] (Hi3 & Hd3 & Hw3 & Hl3).
    cbn [fst snd] in *. split; [done|]. split; [by rewrite <- Hd2|]. split; [|cbn [snd]; lia].
    rewrite Hin2 in Hw3. by eapply owns_trans.
Qed.
End handlers.

(** The fuel is over the depth that is left. *)
Lemma HandleCompatMapFile_inv fuel : forall base sh ci file,
  (ci_include_depth ci <= INCLUDE_MAX_DEPTH)%nat -> (INCLUDE_MAX_DEPTH < ci_include_depth ci + fuel)%nat ->
  compat_file_ok ctx file -> compat_inv ctx base sh ci -> pending_room (sh_pendings sh) (compat_pendings parse fuel file) ->
  within compat_fault (kept ctx base sh ci (compat_pendings parse fuel file)) (HandleCompatMapFile info parse fuel sh ci file).
Proof using Hparse Hreads.
  induction fuel as [|fuel IH]; intros base sh ci file Hd Hf Hok Hi Hroom; cbn [HandleCompatMapFile]; [lia|]. cbn [compat_pendings].
  apply (handle_compat_stmts_inv _ (compat_pendings parse fuel) base (xf_defs file) sh (ci_set_name (xf_name file) ci)); try apply Hok; [| |done].
  - cbn. intros Hlt base' sh' ci' file' Hi' Hd' Hok' Hroom'. apply IH; [lia|lia|done|done|done].
  - by destruct Hi.
Qed.
End sections.

(** ** The interpretations of the keymap *)

Lemma concat_filter_perm {A B} `{EqDecision B} (f : A -> B) (cs : list B) (l : list A) :
  NoDup cs -> (forall x, f x ∈ cs) -> concat (map (fun c => filter (fun x => f x = c) l) cs) ≡ₚ l.
Proof.
  intros Hn Hc. induction l as [|x l IH].
  - induction cs as [|c cs IHc]; [done|]. cbn. clear -cs. induction cs; [done|]. done.
  - destruct (list_elem_of_split _ _ (Hc x)) as (c1 & c2 & Hs). rewrite Hs in Hn.
    apply list.NoDup_app in Hn as (_ & H1 & H2). apply list.NoDup_cons in H2 as [H2 _].
    rewrite <- IH. rewrite Hs, !map_app, !concat_app. cbn [map concat]. rewrite filter_cons_True by done.
    assert (forall c, c <> f x -> filter (fun x => f x = c) (x :: l) = filter (fun x => f x = c) l) as Hf
      by (intros c Hne; apply filter_cons_False; congruence).
    rewrite (map_ext_in _ (fun c => filter (fun x => f x = c) l) c1), (map_ext_in _ (fun c => filter (fun x => f x = c) l) c2).
    + by rewrite Permutation_middle.
    + intros c Hin%list_elem_of_In. apply Hf. by intros ->.
    + intros c Hin%list_elem_of_In. apply Hf. intros ->. apply (H1 _ Hin). by left.
Qed.

(** The classes of interpretations, from the most specific. *)
Definition interp_class (si : SymInterpInfo) : bool * xkb_match_operation := (negb (sy_sym si =? XKB_KEY_NoSymbol), sy_match si).

Definition classes : list (bool * xkb_match_operation) :=
  concat (map (fun needSymbol => map (pair needSymbol) [MATCH_EXACTLY; MATCH_ALL; MATCH_NONE; MATCH_ANY; MATCH_ANY_OR_NONE]) [true; false]).

Lemma sorted_interps_classes l : sorted_interps l = concat (map (fun c => filter (fun si => interp_class si = c) l) classes).
Proof.
  assert (forall b p, CopyInterps l b p = filter (fun si => interp_class si = (b, p)) l) as H.
  { intros b p. apply list_filter_iff. intros si. unfold interp_class. split; [by intros [-> ->]|by intros [= -> ->]]. }
  unfold sorted_interps. cbn. by rewrite !H, !app_nil_r, <- !app_assoc.
Qed.

Lemma sorted_interps_perm l : sorted_interps l ≡ₚ l.
Proof.
  rewrite sorted_interps_classes. apply concat_filter_perm; [by apply (bool_decide_unpack _); vm_compute|].
  intros si. unfold interp_class. destruct (negb _), (sy_match si); by apply (bool_decide_unpack _); vm_compute.
Qed.

(** The order of the classes. *)
Definition class_rank (c : bool * xkb_match_operation) : nat :=
  (if fst c then 0 else 5) + match snd c with
  | MATCH_EXACTLY => 0 | MATCH_ALL => 1 | MATCH_NONE => 2 | MATCH_ANY => 3 | MATCH_ANY_OR_NONE => 4 end.

Lemma concat_filter_sorted {A B} `{EqDecision B} (f : A -> B) (rank : B -> nat) (l : list A) cs :
  StronglySorted (fun c c' => rank c <= rank c')%nat cs ->
  StronglySorted (fun a b => rank (f a) <= rank (f b))%nat (concat (map (fun c => filter (fun x => f x = c) l) cs)).
Proof.
  induction 1 as [|c cs _ IH Hc]; [constructor|]. cbn [map concat].
  assert (Forall (fun b => rank c <= rank (f b))%nat (concat (map (fun c => filter (fun x => f x = c) l) cs))) as Hall.
  { apply Forall_concat, list.Forall_fmap. eapply list.Forall_impl; [exact Hc|]. intros c' Hle. cbn.
    apply list.Forall_forall. intros x [-> _]%list_elem_of_filter. done. }
  revert IH Hall. generalize (concat (map (fun c => filter (fun x => f x = c) l) cs)) as rest. intros rest IH Hall.
  induction l as [|x l IHl]; [done|]. rewrite filter_cons. destruct (decide (f x = c)) as [Hx|]; [|done].
  cbn. constructor; [done|]. rewrite Hx. apply list.Forall_app. split; [|done].
  apply list.Forall_forall. intros y [-> _]%list_elem_of_filter. done.
Qed.

Lemma sorted_interps_sorted l : StronglySorted (fun a b => class_rank (interp_class a) <= class_rank (interp_class b))%nat (sorted_interps l).
Proof.
  rewrite sorted_interps_classes. apply concat_filter_sorted.
  repeat (constructor; [|repeat (apply Forall_cons_2; [cbn; lia|]); apply Forall_nil_2]). constructor.
Qed.

(** The arrays are read, then freed, without a fault. *)
Lemma keymap_interprets_ok n sh l : Forall (si_ok n) l -> arrays_ok n sh -> Forall (fun p => exists x, sh_arrays sh !! p = Some (Some x)) (arrays_of l) ->
  exists r, keymap_interprets sh l = Ok r /\ Forall (interp_ok n) r /\ length r = length l.
Proof.
  intros Hl Ha. induction l as [|si l IH]; intros Ho; cbn [keymap_interprets]; [by exists []|].
  apply list.Forall_cons in Hl as [[Hv Hs] Hl]. rewrite arrays_of_cons in Ho. apply list.Forall_app in Ho as [Ho1 Ho].
  destruct (IH Hl Ho) as (r & -> & Hr & Hlen).
  assert (exists acts, read_actions sh (sy_actions si) = Ok acts /\ Forall (caction_ok n) acts) as (acts & -> & Hacts).
  { unfold arrays_of_one, array_of in Ho1. destruct (sy_actions si) as [|a|p]; cbn.
    - by exists [].
    - eexists. split; [done|]. by apply list.Forall_singleton.
    - apply list.Forall_cons in Ho1 as [[x Hx] _]. rewrite Hx. eexists. split; [done|].
      apply list.Forall_fmap. exact (Forall_lookup_1 _ _ _ _ Ha Hx). }
  cbn. eexists. split; [done|]. split; [|cbn; lia]. constructor; [|done]. by split.
Qed.

Lemma clear_interprets_ok (ctx : atom_table) l : forall sh, own sh (arrays_of l) -> exists sh', clear_interprets sh l = Ok sh'.
Proof.
  induction l as [|si l IH]; intros sh Ho; cbn [clear_interprets]; [by eexists|]. rewrite arrays_of_cons in Ho.
  pose proof Ho as (H1 & _)%own_app. destruct (free_owned ctx sh (sy_actions si)) as (sh1 & -> & Hw & _).
  { unfold arrays_of_one, array_of in H1. by destruct (sy_actions si). }
  cbn [result_bind]. apply IH. rewrite Permutation_app_comm in Ho.
  destruct (owns_frame ctx (arrays_of l) (arrays_of_one si) sh [] sh1) as [H2 _]; [done|by split; constructor| |by rewrite app_nil_r in H2].
  unfold arrays_of_one, array_of. by destruct (sy_actions si).
Qed.

(** ** The LEDs of the keymap *)

Lemma copy_led_ok ctx n leds l : (length leds <= 32)%nat ->
  Forall (fun l => ld_pending_groups l = true -> 0 <= led_groups (ld_led l) < Z.of_nat n) leds ->
  led_ok n (le_led l) -> atom_ok ctx (le_name l) ->
  exists leds', copy_led ctx leds l = Ok leds' /\ (length leds' <= 32)%nat /\
    Forall (fun l => ld_pending_groups l = true -> 0 <= led_groups (ld_led l) < Z.of_nat n) leds'.
Proof.
  intros Hlen Hp [Hl _] [s Hs]. unfold copy_led.
  assert (ld_pending_groups (complete_led (le_led l)) = true -> 0 <= led_groups (ld_led (complete_led (le_led l))) < Z.of_nat n) as Hc by done.
  destruct (list_find _ leds) as [[i old]|].
  { eexists. split; [done|]. rewrite length_insert. split; [done|]. by apply Forall_insert. }
  assert (LEDText ctx false l = Ok tt) as ->.
  { unfold LEDText. unfold atom_string in Hs. change (led_name (ld_led (le_led l))) with (le_name l).
    destruct (xkb_atom_text ctx (le_name l)) as [[t|]|]; done. }
  cbn [result_bind]. destruct (list_find _ leds) as [[i old]|].
  { eexists. split; [done|]. rewrite length_insert. split; [done|]. by apply Forall_insert. }
  destruct (Nat.leb_spec XKB_MAX_LEDS (length leds)) as [H|H]; eexists; (split; [done|]); [done|].
  unfold XKB_MAX_LEDS in H. rewrite length_app. split; [cbn; lia|]. apply list.Forall_app. split; [done|]. by apply list.Forall_singleton.
Qed.

Lemma copy_leds_ok ctx n from : forall leds, (length leds <= 32)%nat ->
  Forall (fun l => ld_pending_groups l = true -> 0 <= led_groups (ld_led l) < Z.of_nat n) leds ->
  Forall (fun l => led_ok n (le_led l)) from -> Forall (fun l => atom_ok ctx (le_name l)) from ->
  exists leds', CopyLedMapDefsToKeymap ctx leds from = Ok leds' /\ (length leds' <= 32)%nat /\
    Forall (fun l => ld_pending_groups l = true -> 0 <= led_groups (ld_led l) < Z.of_nat n) leds'.
Proof.
  induction from as [|l from IH]; intros leds Hlen Hp Hl Hn; cbn [CopyLedMapDefsToKeymap]; [by exists leds|].
  apply list.Forall_cons in Hl as [Hl Hls]. apply list.Forall_cons in Hn as [Hn Hns].
  destruct (copy_led_ok ctx n leds l Hlen Hp Hl Hn) as (leds' & -> & Hlen' & Hp'). by apply IH.
Qed.

(** What the compat section gives to the keymap: interpretations of distinct
    triggers from the most to the least specific, whose arrays are read then
    freed without a fault, each with well-typed actions. *)
Record compat_ok (info : keymap_info) (sh : shared) (r : compat_result) : Prop := {
  co_mods : vmods_ok (cr_mods r);
  co_extends : extends (ki_mods info) (cr_mods r);
  co_distinct : NoDup (map trigger (cr_interprets r));
  co_sorted : StronglySorted (fun a b => class_rank (interp_class a) <= class_rank (interp_class b))%nat (cr_interprets r);
  co_read : exists l, keymap_interprets sh (cr_interprets r) = Ok l /\ Forall (interp_ok (length (sh_pendings sh))) l /\
    length l = length (cr_interprets r);
  co_freed : exists sh', clear_interprets sh (cr_interprets r) = Ok sh';
  co_leds : (length (cr_leds r) <= 32)%nat;
  co_led_pending : Forall (fun l => ld_pending_groups l = true ->
    0 <= led_groups (ld_led l) < Z.of_nat (length (sh_pendings sh))) (cr_leds r);
  co_pendings : grown (ki_ctx info) (ki_pendings info) (sh_pendings sh)
}.

Lemma reads_ok_mods info m m' : reads_ok info m -> vmods_ok m' -> reads_ok info m'.
Proof. intros [_ H2 H3] Hm. split; [by apply enum_length|done|done]. Qed.

(** What the section may add to the pending computations. *)
Definition section_pendings (parse : xkb_file_type -> include_item -> list (option XkbFile)) (file : option XkbFile) : nat :=
  match file with Some f => compat_pendings parse (S INCLUDE_MAX_DEPTH) f | None => 0 end.

Lemma CompileCompatMap_ok (info : keymap_info) (parse : xkb_file_type -> include_item -> list (option XkbFile))
    (file : option XkbFile) :
  (forall item f, Some f ∈ parse FILE_TYPE_COMPAT item -> compat_file_ok (ki_ctx info) f) ->
  (forall f, file = Some f -> compat_file_ok (ki_ctx info) f /\
     pending_room (ki_pendings info) (compat_pendings parse (S INCLUDE_MAX_DEPTH) f)) ->
  vmods_ok (ki_mods info) -> reads_ok info (ki_mods info) ->
  (length (ki_leds info) <= 32)%nat -> Forall (fun l => ld_pending_groups l = false) (ki_leds info) ->
  match CompileCompatMap info parse (mk_shared (ki_pendings info) []) file with
  | Ok (None, _) => True
  | Ok (Some r, sh) => compat_ok info sh r /\ (length (sh_pendings sh) <= length (ki_pendings info) + section_pendings parse file)%nat
  | Fault f => compat_fault f
  end.
Proof.
  intros Hp Hf Hm Hr Hlen Hled. set (sh0 := mk_shared (ki_pendings info) []).
  change (within compat_fault (fun r => let '(o, sh) := r in match o with Some r => compat_ok info sh r /\
      (length (sh_pendings sh) <= length (ki_pendings info) + section_pendings parse file)%nat | None => True end)
    (CompileCompatMap info parse sh0 file)).
  assert (compat_inv (ki_ctx info) (ki_mods info) sh0 (InitCompatInfo info 0 (ki_mods info))) as Hinit
    by (apply init_compat_inv; [done|constructor]).
  unfold CompileCompatMap. cbv zeta.
  eapply within_bind with (P := fun r => compat_inv (ki_ctx info) (ki_mods info) (snd r) (fst r) /\
    grown (ki_ctx info) (ki_pendings info) (sh_pendings (snd r)) /\
    (length (sh_pendings (snd r)) <= length (ki_pendings info) + section_pendings parse file)%nat).
  - destruct file as [file|]; [|split; [done|split; [apply grown_refl|cbn; lia]]]. destruct (Hf file eq_refl) as [Hok Hroom].
    eapply within_mono.
    { apply (HandleCompatMapFile_inv info parse Hp); [intros m; by eapply reads_ok_mods|..]; try done; unfold INCLUDE_MAX_DEPTH; cbn; lia. }
    intros [ci sh] (Hi & _ & Hw & Hl). split; [done|]. split; [exact (ow_grown _ _ _ _ _ Hw)|done].
  - intros [ci sh] (Hi & Hg & Hl). cbn [fst snd] in *. destruct (negb _); [done|]. unfold CopyCompatToKeymap.
    destruct (copy_leds_ok (ki_ctx info) (length (sh_pendings sh)) (ci_leds ci) (ki_leds info)) as (leds & -> & H1 & H2); [done| | |..].
    { eapply list.Forall_impl; [exact Hled|]. intros l Hl0. cbn. by rewrite Hl0. }
    { apply (ls_ok _ _ _ (cv_leds _ _ _ _ Hi)). }
    { apply (ls_names _ _ _ (cv_leds _ _ _ _ Hi)). }
    pose proof (sorted_interps_perm (ci_interps ci)) as Hperm. destruct (cv_interps _ _ _ _ Hi) as [K1 K2 K3].
    assert (arrays_of (sorted_interps (ci_interps ci)) ≡ₚ arrays_of (ci_interps ci)) as Harr by (unfold arrays_of; by rewrite Hperm).
    split; [|done]. split; cbn; try done; try apply Hi.
    + change (map trigger (sorted_interps (ci_interps ci))) with (trigger <$> sorted_interps (ci_interps ci)). by rewrite Hperm.
    + apply sorted_interps_sorted.
    + apply keymap_interprets_ok; [by rewrite Hperm|apply Hi|]. rewrite Harr. apply K2.
    + apply (clear_interprets_ok (ki_ctx info)). by rewrite Harr.
Qed.

(** C29. Compilation of the compat section, for any statements and included
    files in which no default interpretation has a list of several actions: it
    ends within the depth of includes, and no array of actions is read or freed
    once it is freed, then or when the keymap is destroyed; the faults left are
    those of [compat_fault].  If it succeeds, the interpretations of the keymap
    have distinct triggers, are in the order of their specificity, and have
    well-typed actions. *)
Theorem compile_compat_ok (info : keymap_info) (parse : xkb_file_type -> include_item -> list (option XkbFile))
    (file : option XkbFile) :
  (forall item f, Some f ∈ parse FILE_TYPE_COMPAT item -> compat_file_ok (ki_ctx info) f) ->
  (forall f, file = Some f -> compat_file_ok (ki_ctx info) f /\
     pending_room (ki_pendings info) (compat_pendings parse (S INCLUDE_MAX_DEPTH) f)) ->
  vmods_ok (ki_mods info) -> reads_ok info (ki_mods info) ->
  (length (ki_leds info) <= 32)%nat -> Forall (fun l => ld_pending_groups l = false) (ki_leds info) ->
  match CompileCompatMap info parse (mk_shared (ki_pendings info) []) file with
  | Ok (None, _) => True
  | Ok (Some r, sh) => compat_ok info sh r
  | Fault f => compat_fault f
  end.
Proof.
  intros Hp Hf Hm Hr Hl Hled. pose proof (CompileCompatMap_ok info parse file Hp Hf Hm Hr Hl Hled) as H.
  destruct (CompileCompatMap _ _ _ _) as [[[r|] sh]|f]; [apply H|done..].
Qed.

(** ** Samples *)

Definition compat_words : atom_table :=
  match intern_all atom_table_new (map bytes_of ["Shift"; "Lock"; "Control"; "Mod1"; "Mod2"; "Mod3"; "Mod4"; "Mod5";
    "interpret"; "action"; "SetMods"; "modifiers"; "LockMods"; "NoAction"; "indicator"; "groups"; "Num"; "repeat";
    "useModMapMods"; "Level1"]%string) with
  | Ok (_, t) => t | Fault _ => atom_table_new end.

Definition compat_info : keymap_info :=
  mk_info compat_words 0 4 None None [] XKB_KEYMAP_FORMAT_TEXT_V2 [] 1 0 0 [] [] [] [] [] sample_mods MOD_REAL_MASK_ALL 0 0 [].

(** [SetMods(modifiers = m)], [LockMods(modifiers = m)] *)
Definition mods_action (name m : Z) : ExprDef :=
  STMT_EXPR_ACTION_DECL name [ExprBinary STMT_EXPR_ASSIGN (STMT_EXPR_IDENT 12) (STMT_EXPR_IDENT m)].

Definition two_actions : ExprDef := STMT_EXPR_ACTION_LIST [mods_action 11 1; mods_action 13 2].

Definition set_var (name value : ExprDef) : VarDef := mk_var MERGE_DEFAULT (Some name) value [].

(** [interpret 0x61 + AnyOfOrNone(all) { action = ...; };] *)
Definition interp_with (sym : Z) (body : list VarDef) : statement := STMT_INTERP MERGE_DEFAULT sym None body.

(** [interpret 0x62; interpret 0x61+Exactly(Lock) { action = {SetMods(...), LockMods(...)}; };
    indicator "Num" { groups = 2; };] *)
Definition compat_file : XkbFile :=
  mk_file None
    [interp_with 0x62 [];
     STMT_INTERP MERGE_DEFAULT 0x61 (Some (STMT_EXPR_IDENT 2)) [set_var (STMT_EXPR_IDENT 10) two_actions];
     STMT_LED_MAP MERGE_DEFAULT 17 [set_var (STMT_EXPR_IDENT 16) (STMT_EXPR_INTEGER_LITERAL 2)]] FILE_TYPE_COMPAT 0.

Definition compile_compat (stmts : list statement) : result (option compat_result * shared) :=
  CompileCompatMap compat_info no_includes (mk_shared [] []) (Some (mk_file None stmts FILE_TYPE_COMPAT 0)).

Definition compiled_interps (r : result (option compat_result * shared)) : list (Z * Z) :=
  match r with Ok (Some r, _) => map (fun si => (sy_sym si, sy_mods si)) (cr_interprets r) | _ => [] end.

Lemma compat_reads_ok : reads_ok compat_info sample_mods.
Proof. split; [vm_compute; lia|vm_compute; discriminate|]. intros name entry. by unfold item; cbn; destruct (name <? 0). Qed.

Lemma compat_file_wf : compat_file_ok compat_words compat_file.
Proof.
  split.
  - apply Forall_cons_2; [split; [exact I|apply Forall_nil_2]|]. apply Forall_cons_2; [|apply Forall_cons_2; [|apply Forall_nil_2]].
    + split; [atom|]. apply Forall_cons_2; [|apply Forall_nil_2]. split; [eexists; split; [reflexivity|atom]|].
      cbn. repeat split; atom.
    + split; [atom|]. apply Forall_cons_2; [|apply Forall_nil_2]. split; [eexists; split; [reflexivity|atom]|exact I].
  - repeat (apply Forall_cons_2; [exact I|]). apply Forall_nil_2.
Qed.

(** The interpretation that matches exactly comes first. *)
Lemma compile_compat_ok_witness :
  exists r sh, CompileCompatMap compat_info no_includes (mk_shared [] []) (Some compat_file) = Ok (Some r, sh) /\
    compat_ok compat_info sh r /\
    map (fun si => (sy_sym si, sy_mods si)) (cr_interprets r) = [(0x61, 2); (0x62, 0xff)].
Proof.
  assert (forall item f, Some f ∈ no_includes FILE_TYPE_COMPAT item -> compat_file_ok (ki_ctx compat_info) f) as Hp
    by (intros item f Hin; apply elem_of_nil in Hin; contradiction).
  assert (forall f, Some compat_file = Some f -> compat_file_ok (ki_ctx compat_info) f /\
    pending_room (ki_pendings compat_info) (compat_pendings no_includes (S INCLUDE_MAX_DEPTH) f)) as Hf
    by (intros f [= <-]; split; [exact compat_file_wf|vm_compute; reflexivity]).
  pose proof (compile_compat_ok compat_info no_includes (Some compat_file) Hp Hf sample_mods_ok compat_reads_ok) as H.
  specialize (H ltac:(vm_compute; lia) ltac:(apply Forall_nil_2)).
  change (ki_pendings compat_info) with (@nil pending_computation) in H.
  assert (compiled_interps (CompileCompatMap compat_info no_includes (mk_shared [] []) (Some compat_file)) = [(0x61, 2); (0x62, 0xff)]) as Ei
    by (vm_compute; reflexivity).
  destruct (CompileCompatMap compat_info no_includes (mk_shared [] []) (Some compat_file)) as [[[r|] sh]|f] eqn:E;
    [|cbn in Ei; discriminate..].
  exists r, sh. split; [reflexivity|]. split; [exact H|exact Ei].
Defined.

Definition read_and_free (r : result (option compat_result * shared)) : option (fault + unit) * option (fault + unit) :=
  match r with
  | Ok (Some r, sh) =>
      (Some (match keymap_interprets sh (cr_interprets r) with Ok _ => inr tt | Fault f => inl f end),
       Some (match clear_interprets sh (cr_interprets r) with Ok _ => inr tt | Fault f => inl f end))
  | _ => (None, None)
  end.

(** [interpret.action = {SetMods(...), LockMods(...)}; interpret 0x61; interpret 0x62;]:
    both interpretations have the array of the default one, freed twice with
    the keymap. *)
Definition default_actions_stmt : statement := STMT_VAR (set_var (STMT_EXPR_FIELD_REF 9 10) two_actions).

Example default_array_freed_twice :
  read_and_free (compile_compat [default_actions_stmt; interp_with 0x61 []; interp_with 0x62 []]) =
    (Some (inr tt), Some (inl FaultUseAfterFree)).
Proof. vm_compute. reflexivity. Qed.

(** With the same keysym, the merge frees the array that it keeps. *)
Example default_array_read_after_free :
  read_and_free (compile_compat [default_actions_stmt; interp_with 0x61 []; interp_with 0x61 []]) =
    (Some (inl FaultUseAfterFree), Some (inl FaultUseAfterFree)).
Proof. vm_compute. reflexivity. Qed.

(** [interpret 0x61 { action = {NoAction(), SetMods(...)}; };] *)
Example one_action_left :
  compile_compat [interp_with 0x61 [set_var (STMT_EXPR_IDENT 10)
    (STMT_EXPR_ACTION_LIST [STMT_EXPR_ACTION_DECL 14 []; mods_action 11 1])]] = Fault FaultOutOfBounds.
Proof. vm_compute. reflexivity. Qed.

(** [indicator.modifiers = "Num";]: the message names an indicator without
    name. *)
Example default_indicator_asserts :
  compile_compat [STMT_VAR (set_var (STMT_EXPR_FIELD_REF 15 12) (STMT_EXPR_STRING_LITERAL 17))] = Fault FaultAssert.
Proof. vm_compute. reflexivity. Qed.

(** [interpret.repeat = true; replace interpret.useModMapMods = level1;
    interpret 0x61;]: the second default replaces the first one too. *)
Definition first_repeat (r : result (option compat_result * shared)) : option bool :=
  match r with Ok (Some r, _) => match cr_interprets r with si :: _ => Some (sy_repeat si) | [] => None end | _ => None end.

Example default_replaced_whole :
  first_repeat (compile_compat [STMT_VAR (set_var (STMT_EXPR_FIELD_REF 9 18) (STMT_EXPR_BOOLEAN_LITERAL true));
    STMT_VAR (mk_var MERGE_REPLACE (Some (STMT_EXPR_FIELD_REF 9 19)) (STMT_EXPR_IDENT 20) []); interp_with 0x61 []]) = Some false /\
  first_repeat (compile_compat [STMT_VAR (set_var (STMT_EXPR_FIELD_REF 9 18) (STMT_EXPR_BOOLEAN_LITERAL true));
    STMT_VAR (mk_var MERGE_OVERRIDE (Some (STMT_EXPR_FIELD_REF 9 19)) (STMT_EXPR_IDENT 20) []); interp_with 0x61 []]) = Some true.
Proof. split; vm_compute; reflexivity. Qed.
