(* ===== verification/Symbols.v ===== *)
(** * Symbols sections (src/xkbcomp/symbols.c)

    The keys being compiled and their merge, the fields of a key, the
    statements of a symbols section and the merge of the included ones.  What
    the keymap gets from them is in [SymbolsCopy].

    Groups and levels are values: each array of keysyms or actions has one
    owner.  The array of overlays of the default key is the exception, see
    [HandleSymbolsDef]. *)

From Stdlib Require Import ZArith Lia String.
From stdpp Require Import base tactics list numbers.
From S2P Require Import Prelude Numbers Atom Keymap KeysymNames KeysymName Expr Vmod KeyAliases Derived SymOverlays Actions Sections Keycodes Types Compat.

(** ** Data *)

Definition GROUP_FIELD_SYMS : Z := 2 ^ 0.
Definition GROUP_FIELD_ACTS : Z := 2 ^ 1.
Definition GROUP_FIELD_TYPE : Z := 2 ^ 2.

Definition KEY_FIELD_REPEAT : Z := 2 ^ 0.
Definition KEY_FIELD_DEFAULT_TYPE : Z := 2 ^ 1.
Definition KEY_FIELD_GROUPINFO : Z := 2 ^ 2.
Definition KEY_FIELD_VMODMAP : Z := 2 ^ 3.

Definition PARSER_NO_UNKNOWN_SYMBOLS_GLOBAL_FIELDS : Z := 2 ^ 9.
Definition PARSER_NO_UNKNOWN_KEY_FIELDS : Z := 2 ^ 10.

Definition MAX_KEYSYMS_PER_LEVEL : Z := 65535.

Inductive key_repeat := KEY_REPEAT_UNDEFINED | KEY_REPEAT_YES | KEY_REPEAT_NO.

Record GroupInfo := mk_groupi {
  gr_defined : Z;
  gr_type : Z;
  gr_levels : list xkb_level
}.

(** A level filled with zeros. *)
Definition zero_level : xkb_level := mk_level 0 0 false [] [].

Definition InitGroupInfo : GroupInfo := mk_groupi 0 XKB_ATOM_NONE [].

Definition gr_set_defined d (g : GroupInfo) := mk_groupi d (gr_type g) (gr_levels g).
Definition gr_set_type t (g : GroupInfo) := mk_groupi (gr_defined g) t (gr_levels g).
Definition gr_set_levels l (g : GroupInfo) := mk_groupi (gr_defined g) (gr_type g) l.
Definition gr_define f (g : GroupInfo) := gr_set_defined (Z.lor (gr_defined g) f) g.

(** [KeyInfo]; [kf_overlays] is [None] when [KEY_FIELD_OVERLAY] is not defined:
    the fields about overlays are then zeros. *)
Record KeyInfo := mk_keyi {
  kf_name : Z;
  kf_vmodmap : Z;
  kf_default_type : Z;
  kf_group_number : Z;
  kf_groups : list GroupInfo;
  kf_policy : out_of_range_policy;
  kf_defined : Z;
  kf_merge : merge_mode;
  kf_repeat : key_repeat;
  kf_pending_group : bool;
  kf_overlays : option overlays_info
}.

Definition kf_set_name n (k : KeyInfo) := mk_keyi n (kf_vmodmap k) (kf_default_type k) (kf_group_number k) (kf_groups k) (kf_policy k) (kf_defined k) (kf_merge k) (kf_repeat k) (kf_pending_group k) (kf_overlays k).
Definition kf_set_vmodmap m (k : KeyInfo) := mk_keyi (kf_name k) m (kf_default_type k) (kf_group_number k) (kf_groups k) (kf_policy k) (kf_defined k) (kf_merge k) (kf_repeat k) (kf_pending_group k) (kf_overlays k).
Definition kf_set_default_type t (k : KeyInfo) := mk_keyi (kf_name k) (kf_vmodmap k) t (kf_group_number k) (kf_groups k) (kf_policy k) (kf_defined k) (kf_merge k) (kf_repeat k) (kf_pending_group k) (kf_overlays k).
Definition kf_set_groups gs (k : KeyInfo) := mk_keyi (kf_name k) (kf_vmodmap k) (kf_default_type k) (kf_group_number k) gs (kf_policy k) (kf_defined k) (kf_merge k) (kf_repeat k) (kf_pending_group k) (kf_overlays k).
Definition kf_set_policy p (k : KeyInfo) := mk_keyi (kf_name k) (kf_vmodmap k) (kf_default_type k) (kf_group_number k) (kf_groups k) p (kf_defined k) (kf_merge k) (kf_repeat k) (kf_pending_group k) (kf_overlays k).
Definition kf_set_number pending n (k : KeyInfo) := mk_keyi (kf_name k) (kf_vmodmap k) (kf_default_type k) n (kf_groups k) (kf_policy k) (kf_defined k) (kf_merge k) (kf_repeat k) pending (kf_overlays k).
Definition kf_define f (k : KeyInfo) := mk_keyi (kf_name k) (kf_vmodmap k) (kf_default_type k) (kf_group_number k) (kf_groups k) (kf_policy k) (Z.lor (kf_defined k) f) (kf_merge k) (kf_repeat k) (kf_pending_group k) (kf_overlays k).
Definition kf_set_merge m (k : KeyInfo) := mk_keyi (kf_name k) (kf_vmodmap k) (kf_default_type k) (kf_group_number k) (kf_groups k) (kf_policy k) (kf_defined k) m (kf_repeat k) (kf_pending_group k) (kf_overlays k).
Definition kf_set_repeat r (k : KeyInfo) := mk_keyi (kf_name k) (kf_vmodmap k) (kf_default_type k) (kf_group_number k) (kf_groups k) (kf_policy k) (kf_defined k) (kf_merge k) r (kf_pending_group k) (kf_overlays k).
Definition kf_set_overlays o (k : KeyInfo) := mk_keyi (kf_name k) (kf_vmodmap k) (kf_default_type k) (kf_group_number k) (kf_groups k) (kf_policy k) (kf_defined k) (kf_merge k) (kf_repeat k) (kf_pending_group k) o.

(** [xkb_atom_intern_literal]: the index of the string in the table, to which
    the atoms of the literals belong; that of the next atom otherwise. *)
Definition literal (ctx : atom_table) (s : string) : Z :=
  match list_find (fun t => t = Some (bytes_of s)) (at_strings ctx) with
  | Some (i, _) => Z.of_nat i
  | None => Z.of_nat (length (at_strings ctx))
  end.

Definition InitKeyInfo (ctx : atom_table) : KeyInfo :=
  mk_keyi (literal ctx "*") 0 XKB_ATOM_NONE 0 [] LAYOUT_WRAP 0 MERGE_DEFAULT KEY_REPEAT_UNDEFINED false None.

(** [ModMapEntry] *)
Inductive modmap_target := ModKeyName (keyName : Z) | ModKeySym (keySym : Z).

#[global] Instance modmap_target_eq_dec : EqDecision modmap_target.
Proof. solve_decision. Defined.

(** [mm_keyCode] is not initialised until the copy to the keymap. *)
Record ModMapEntry := mk_modmap {
  mm_merge : merge_mode;
  mm_target : modmap_target;
  mm_mods : Z;
  mm_keyCode : option Z
}.

(** [SymbolsInfo]; [sb_explicit_group] is [None] for [XKB_LAYOUT_INVALID], and
    [max_groups] is that of the features. *)
Record SymbolsInfo := mk_symbols_info {
  sb_name : option (list Z);
  sb_errorCount : Z;
  sb_include_depth : nat;
  sb_explicit_group : option Z;
  sb_keys : list KeyInfo;
  sb_default_key : KeyInfo;
  sb_default_actions : ActionsInfo;
  sb_group_names : list Z;
  sb_modmaps : list ModMapEntry;
  sb_mods : xkb_mod_set
}.

Definition sb_set_name n (i : SymbolsInfo) := mk_symbols_info n (sb_errorCount i) (sb_include_depth i) (sb_explicit_group i) (sb_keys i) (sb_default_key i) (sb_default_actions i) (sb_group_names i) (sb_modmaps i) (sb_mods i).
Definition sb_add_errors n (i : SymbolsInfo) := mk_symbols_info (sb_name i) (sb_errorCount i + n) (sb_include_depth i) (sb_explicit_group i) (sb_keys i) (sb_default_key i) (sb_default_actions i) (sb_group_names i) (sb_modmaps i) (sb_mods i).
Definition sb_set_explicit_group g (i : SymbolsInfo) := mk_symbols_info (sb_name i) (sb_errorCount i) (sb_include_depth i) g (sb_keys i) (sb_default_key i) (sb_default_actions i) (sb_group_names i) (sb_modmaps i) (sb_mods i).
Definition sb_set_keys l (i : SymbolsInfo) := mk_symbols_info (sb_name i) (sb_errorCount i) (sb_include_depth i) (sb_explicit_group i) l (sb_default_key i) (sb_default_actions i) (sb_group_names i) (sb_modmaps i) (sb_mods i).
Definition sb_set_default_key k (i : SymbolsInfo) := mk_symbols_info (sb_name i) (sb_errorCount i) (sb_include_depth i) (sb_explicit_group i) (sb_keys i) k (sb_default_actions i) (sb_group_names i) (sb_modmaps i) (sb_mods i).
Definition sb_set_default_actions a (i : SymbolsInfo) := mk_symbols_info (sb_name i) (sb_errorCount i) (sb_include_depth i) (sb_explicit_group i) (sb_keys i) (sb_default_key i) a (sb_group_names i) (sb_modmaps i) (sb_mods i).
Definition sb_set_group_names l (i : SymbolsInfo) := mk_symbols_info (sb_name i) (sb_errorCount i) (sb_include_depth i) (sb_explicit_group i) (sb_keys i) (sb_default_key i) (sb_default_actions i) l (sb_modmaps i) (sb_mods i).
Definition sb_set_modmaps l (i : SymbolsInfo) := mk_symbols_info (sb_name i) (sb_errorCount i) (sb_include_depth i) (sb_explicit_group i) (sb_keys i) (sb_default_key i) (sb_default_actions i) (sb_group_names i) l (sb_mods i).
Definition sb_set_mods m (i : SymbolsInfo) := mk_symbols_info (sb_name i) (sb_errorCount i) (sb_include_depth i) (sb_explicit_group i) (sb_keys i) (sb_default_key i) (sb_default_actions i) (sb_group_names i) (sb_modmaps i) m.

(** [darray_resize0] *)
Definition resized {A} (zero : A) (l : list A) (n : Z) : list A := resize0 zero (take (Z.to_nat n) l) n.

(** ** The merge of groups *)

Definition level_action_type (lv : xkb_level) : Z := action_type (default act_none (lv_actions lv !! 0%nat)).

Definition lv_set_syms (from lv : xkb_level) : xkb_level :=
  mk_level (lv_num_syms from) (lv_upper lv) (lv_has_upper lv) (lv_syms from) (lv_actions lv).

Definition no_keysym (lv : xkb_level) : bool := Nat.eqb (lv_num_syms lv) 0.
Definition no_action (lv : xkb_level) : bool := Nat.eqb (length (lv_actions lv)) 0.

Definition StealLevelInfo (into from : xkb_level) : xkb_level := lv_set_actions (lv_actions from) (lv_set_syms from into).

(** Whether the keysyms of [from] are used. *)
Definition use_keysyms (into from : xkb_level) (clobber : bool) : bool :=
  if XkbLevelsSameSyms from into then false
  else if no_keysym from then false
  else if clobber then Nat.ltb 1 (lv_num_syms from) || negb (level_sym from =? XKB_KEY_NoSymbol)
  else negb (Nat.ltb 1 (lv_num_syms into)) && (level_sym into =? XKB_KEY_NoSymbol).

Definition use_actions (into from : xkb_level) (clobber : bool) : bool :=
  if XkbLevelsSameActions into from then false
  else if no_action from then false
  else if clobber then Nat.ltb 1 (length (lv_actions from)) || negb (level_action_type from =? 0)
  else negb (Nat.ltb 1 (length (lv_actions into))) && (level_action_type into =? 0).

(** A turn of the loop: the level, and whether its keysyms, its actions are
    counted as those of [from]. *)
Definition merge_level (clobber : bool) (into from : xkb_level) : xkb_level * bool * bool :=
  if no_keysym from && no_action from then (into, false, false)
  else if no_keysym into && no_action into then (StealLevelInfo into from, true, true)
  else
    let syms := use_keysyms into from clobber in
    let into := if syms then lv_set_syms from into else into in
    let acts := use_actions into from clobber in
    (if acts then lv_set_actions (lv_actions from) into else into, syms, acts).

Fixpoint merge_levels (clobber : bool) (into from : list xkb_level) (fromKeysyms fromActions : nat)
    : list xkb_level * nat * nat :=
  match into, from with
  | _, [] => (into, fromKeysyms, fromActions)
  | [], _ => (from, (fromKeysyms + length from)%nat, (fromActions + length from)%nat)
  | lv :: into, lf :: from =>
      let '(lv, syms, acts) := merge_level clobber lv lf in
      let '(levels, ns, na) := merge_levels clobber into from (fromKeysyms + Nat.b2n syms)%nat (fromActions + Nat.b2n acts)%nat in
      (lv :: levels, ns, na)
  end.

(** The flag [field] after [count] levels of [from] were used. *)
Definition merged_flag (field : Z) (count : nat) (from : GroupInfo) (into : GroupInfo) : GroupInfo :=
  if Nat.eqb count 0 then into
  else
    let into := if Nat.eqb count (length (gr_levels into)) then gr_set_defined (Z.ldiff (gr_defined into) field) into else into in
    gr_define (Z.land (gr_defined from) field) into.

(** The messages, which depend on the verbosity, are left out. *)
Definition MergeGroups (into from : GroupInfo) (clobber : bool) : GroupInfo :=
  let into :=
    if gr_type into =? gr_type from then into
    else if gr_type from =? XKB_ATOM_NONE then into
    else if gr_type into =? XKB_ATOM_NONE then gr_set_type (gr_type from) into
    else gr_set_type (if clobber then gr_type from else gr_type into) into in
  let into := gr_define (Z.land (gr_defined from) GROUP_FIELD_TYPE) into in
  match gr_levels from, gr_levels into with
  | [], _ => into
  | _, [] => gr_set_type (gr_type into) from
  | _, _ =>
      let '(levels, fromKeysyms, fromActions) := merge_levels clobber (gr_levels into) (gr_levels from) 0 0 in
      merged_flag GROUP_FIELD_ACTS fromActions from
        (merged_flag GROUP_FIELD_SYMS fromKeysyms from (gr_set_levels levels into))
  end.

Fixpoint merge_groups (clobber : bool) (into from : list GroupInfo) : list GroupInfo :=
  match into, from with
  | _, [] => into
  | [], _ => from
  | g :: into, f :: from => MergeGroups g f clobber :: merge_groups clobber into from
  end.

(** ** The merge of keys *)

Definition UseNewKeyField (field old new : Z) (clobber : bool) : bool :=
  if negb (has_flag old field) then has_flag new field else has_flag new field && clobber.

Definition merge_key_field (field : Z) (from : KeyInfo) (clobber : bool) (set : KeyInfo -> KeyInfo) (into : KeyInfo) : KeyInfo :=
  if UseNewKeyField field (kf_defined into) (kf_defined from) clobber then kf_define field (set into) else into.

Definition merge_key_fields (into from : KeyInfo) (clobber : bool) : KeyInfo :=
  let into := kf_set_groups (merge_groups clobber (kf_groups into) (kf_groups from)) into in
  let into := merge_key_field KEY_FIELD_VMODMAP from clobber (kf_set_vmodmap (kf_vmodmap from)) into in
  let into := merge_key_field KEY_FIELD_REPEAT from clobber (kf_set_repeat (kf_repeat from)) into in
  let into := merge_key_field KEY_FIELD_DEFAULT_TYPE from clobber (kf_set_default_type (kf_default_type from)) into in
  merge_key_field KEY_FIELD_GROUPINFO from clobber
    (fun into => kf_set_number (kf_pending_group from) (kf_group_number from) (kf_set_policy (kf_policy from) into)) into.

(** [areOverlappingOverlaysSupported] *)
Definition overlapping_overlays (info : keymap_info) : bool := is_v2 (ki_format info).

(** [report] only matters to the messages. *)
Definition MergeKeys (info : keymap_info) (into from : KeyInfo) : result (bool * KeyInfo) :=
  let clobber := clobbers (kf_merge from) in
  match kf_merge from with
  | MERGE_REPLACE => Ok (true, from)
  | _ =>
      let into := merge_key_fields into from clobber in
      let+ o := merge_overlays (overlapping_overlays info) (kf_overlays into) (kf_overlays from) clobber false in
      Ok (match o with
          | Some (overlays, _) => (true, kf_set_overlays overlays into)
          | None => (false, into)
          end)
  end.

Definition XkbResolveKeyAlias (info : keymap_info) (name : Z) : Z :=
  match item (ki_key_names info) name with
  | Some m => if match_found m && match_is_alias m then match_value m else name
  | None => name
  end.

Definition AddKeySymbols (info : keymap_info) (keys : list KeyInfo) (keyi : KeyInfo) : result (bool * list KeyInfo) :=
  let keyi := kf_set_name (XkbResolveKeyAlias info (kf_name keyi)) keyi in
  match list_find (fun iter => kf_name iter = kf_name keyi) keys with
  | Some (i, iter) => let+ r := MergeKeys info iter keyi in Ok (fst r, <[i := snd r]> keys)
  | None => Ok (true, keys ++ [keyi])
  end.

(** Always a success. *)
Definition AddModMapEntry (modmaps : list ModMapEntry) (new : ModMapEntry) : list ModMapEntry :=
  match list_find (fun old => mm_target old = mm_target new) modmaps with
  | Some (i, old) =>
      if mm_mods new =? mm_mods old then modmaps
      else <[i := mk_modmap (mm_merge old) (mm_target old)
                    (if clobbers (mm_merge new) then mm_mods new else mm_mods old) (mm_keyCode old)]> modmaps
  | None => modmaps ++ [new]
  end.

(** ** Symbols and actions of a key *)

Section fields.
Context (info : keymap_info) (default_actions : ActionsInfo) (mods : xkb_mod_set).

(** The index of the first group without [field], from the index [i] on. *)
Fixpoint first_group_without (field : Z) (groups : list GroupInfo) (i : Z) : option Z :=
  match groups with
  | [] => None
  | g :: groups => if has_flag (gr_defined g) field then first_group_without field groups (i + 1) else Some i
  end.

(** The groups, that may have grown, with the index. *)
Definition GetGroupIndex (groups : list GroupInfo) (arrayNdx : option ExprDef) (field : Z)
    : result (option (list GroupInfo * Z)) :=
  let size := Z.of_nat (length groups) in
  match arrayNdx with
  | None =>
      match first_group_without field groups 0 with
      | Some i => Ok (Some (groups, i))
      | None => if size >=? ki_max_groups info then Ok None
                else Ok (Some (resized InitGroupInfo groups (size + 1), size))
      end
  | Some arrayNdx =>
      let+ r := ExprResolveGroup (ki_group_info info) arrayNdx false false in
      Ok (match fst r with
          | PARSER_SUCCESS ndx =>
              let ndx := u32 (ndx - 1) in
              Some (if ndx >=? size then resized InitGroupInfo groups (u32 (ndx + 1)) else groups, ndx)
          | _ => None
          end)
  end.

(** The keysyms of the linked lists; the lists of an expression are all of the
    type of the first one, else a list of another type is read as one of
    keysyms. *)
Fixpoint keysym_lists (lists : list ExprDef) : result (list (list Z)) :=
  match lists with
  | [] => Ok []
  | STMT_EXPR_KEYSYM_LIST syms :: lists => let+ l := keysym_lists lists in Ok (syms :: l)
  | _ => Fault FaultOutOfBounds
  end.

(** Without the empty levels at the end. *)
Fixpoint non_empty_levels {A} (lists : list (list A)) : list (list A) :=
  match lists with
  | [] => []
  | l :: lists => match l, non_empty_levels lists with [], [] => [] | l, lists => l :: lists end
  end.

Definition level_set_syms (syms : list Z) (lv : xkb_level) : xkb_level :=
  mk_level (length syms) (lv_upper lv) (lv_has_upper lv) syms (lv_actions lv).

Fixpoint set_levels_syms (levels : list xkb_level) (lists : list (list Z)) {struct lists} : result (bool * list xkb_level) :=
  match lists, levels with
  | [], _ => Ok (true, levels)
  | _, [] => Fault FaultOutOfBounds
  | syms :: lists, lv :: levels =>
      asserting (Nat.eqb (lv_num_syms lv) 0)
        (if Z.of_nat (length syms) >? MAX_KEYSYMS_PER_LEVEL then Ok (false, lv :: levels)
         else asserting (forallb (fun sym => negb (sym =? XKB_KEY_NoSymbol)) syms)
           (let+ r := set_levels_syms levels lists in Ok (fst r, level_set_syms syms lv :: snd r)))
  end.

(** The group of index [ndx] after [f]. *)
Definition at_group {A} (groups : list GroupInfo) (ndx : Z) (f : GroupInfo -> result (A * GroupInfo))
    : result (A * list GroupInfo) :=
  match item groups ndx with
  | Some g => let+ r := f g in Ok (fst r, <[Z.to_nat ndx := snd r]> groups)
  | None => Fault FaultOutOfBounds
  end.

Definition add_group_symbols (value : ExprDef) (next : list ExprDef) (groupi : GroupInfo) : result (bool * GroupInfo) :=
  match value with
  | STMT_EXPR_EMPTY_LIST => Ok (true, gr_define GROUP_FIELD_SYMS groupi)
  | STMT_EXPR_KEYSYM_LIST _ =>
      if has_flag (gr_defined groupi) GROUP_FIELD_SYMS then Ok (false, groupi)
      else
        let+ lists := keysym_lists (value :: next) in
        let lists := non_empty_levels lists in
        let levels := resize0 zero_level (gr_levels groupi) (Z.of_nat (length lists)) in
        let+ r := set_levels_syms levels lists in
        Ok (fst r, gr_define GROUP_FIELD_SYMS (gr_set_levels (snd r) groupi))
  | _ => Ok (false, groupi)
  end.

Definition AddSymbolsToKey (keyi : KeyInfo) (arrayNdx : option ExprDef) (value : ExprDef) (next : list ExprDef)
    : result (bool * KeyInfo) :=
  let+ r := GetGroupIndex (kf_groups keyi) arrayNdx GROUP_FIELD_SYMS in
  match r with
  | None => Ok (false, keyi)
  | Some (groups, ndx) =>
      let+ r := at_group groups ndx (add_group_symbols value next) in Ok (fst r, kf_set_groups (snd r) keyi)
  end.

(** The actions of the linked lists, as [keysym_lists]. *)
Fixpoint action_lists (lists : list ExprDef) : result (list (list ExprDef)) :=
  match lists with
  | [] => Ok []
  | STMT_EXPR_ACTION_LIST actions :: lists => let+ l := action_lists lists in Ok (actions :: l)
  | _ => Fault FaultOutOfBounds
  end.

(** The loop over the lists from the level [level] on: the boolean, the levels,
    and [nonEmptyLevels]. *)
Fixpoint set_levels_actions (pendings : list pending_computation) (levels : list xkb_level) (lists : list (list ExprDef))
    (level nonEmptyLevels : nat) {struct lists} : result (bool * list xkb_level * nat * list pending_computation) :=
  match lists, levels with
  | [], _ => Ok (true, levels, nonEmptyLevels, pendings)
  | _, [] => Fault FaultOutOfBounds
  | acts :: lists, lv :: levels =>
      asserting (no_action lv)
        (if Z.of_nat (length acts) >? MAX_ACTIONS_PER_LEVEL then Ok (false, lv :: levels, nonEmptyLevels, pendings)
         else
           let+ r := parse_actions info default_actions mods pendings acts in
           match r with
           | (None, pendings) => Ok (false, lv :: levels, nonEmptyLevels, pendings)
           | (Some actions, pendings) =>
               let lv := lv_set_actions (map union_action actions) lv in
               let nonEmptyLevels := if no_action lv && no_keysym lv then nonEmptyLevels else S level in
               let+ r := set_levels_actions pendings levels lists (S level) nonEmptyLevels in
               let '(ok, levels, n, pendings) := r in Ok (ok, lv :: levels, n, pendings)
           end)
  end.

(** The levels after the last one of the list that is not empty are dropped,
    when the list ends by empty ones. *)
Definition add_group_actions (pendings : list pending_computation) (value : ExprDef) (next : list ExprDef) (groupi : GroupInfo)
    : result (bool * list pending_computation * GroupInfo) :=
  match value with
  | STMT_EXPR_EMPTY_LIST => Ok (true, pendings, gr_define GROUP_FIELD_ACTS groupi)
  | STMT_EXPR_ACTION_LIST _ =>
      if has_flag (gr_defined groupi) GROUP_FIELD_ACTS then Ok (false, pendings, groupi)
      else
        let+ lists := action_lists (value :: next) in
        let nLevels := length lists in
        let levels := resize0 zero_level (gr_levels groupi) (Z.of_nat nLevels) in
        let+ r := set_levels_actions pendings levels lists 0 0 in
        let '(ok, levels, nonEmptyLevels, pendings) := r in
        let levels := if ok && Nat.ltb nonEmptyLevels nLevels then take nonEmptyLevels levels else levels in
        Ok (ok, pendings, gr_define GROUP_FIELD_ACTS (gr_set_levels levels groupi))
  | _ => Ok (false, pendings, groupi)
  end.

Definition AddActionsToKey (pendings : list pending_computation) (keyi : KeyInfo) (arrayNdx : option ExprDef)
    (value : ExprDef) (next : list ExprDef) : result (bool * KeyInfo * list pending_computation) :=
  let+ r := GetGroupIndex (kf_groups keyi) arrayNdx GROUP_FIELD_ACTS in
  match r with
  | None => Ok (false, keyi, pendings)
  | Some (groups, ndx) =>
      let+ r := at_group groups ndx (add_group_actions pendings value next) in
      let '(ok, pendings, groups) := r in Ok (ok, kf_set_groups groups keyi, pendings)
  end.

(** ** Overlays *)

(** [format_max_overlays] *)
Definition max_overlays : Z := if ki_format info =? XKB_KEYMAP_FORMAT_TEXT_V1 then 2 else 8.

(** [None] for an error; the overlay is [None] for [XKB_OVERLAY_INVALID]. *)
Definition ExprResolveOverlayEntry (field : list Z) (arrayNdx : option ExprDef) (expr : ExprDef)
    : result (option (option nat * option nat)) :=
  if has_index arrayNdx then Ok None
  else
    let digits := drop 7 field in
    let '(count, raw_overlay) := parse_dec_to_uint64_t digits (length digits) in
    if negb (count =? Z.of_nat (length digits)) || (raw_overlay <? 1) || (raw_overlay >? max_overlays) then Ok None
    else
      let overlay := Z.to_nat (raw_overlay - 1) in
      match expr with
      | STMT_EXPR_KEYNAME_LITERAL key_name =>
          let+ key := XkbKeyByName info key_name false in
          Ok (match key with Some key => Some (Some overlay, Some key) | None => None end)
      | STMT_EXPR_IDENT ident =>
          let+ id := xkb_atom_text (ki_ctx info) ident in
          Ok (match id with
              | Some id => if name_is id "none" then Some (Some overlay, None)
                           else if name_is id "any" then Some (None, None) else None
              | None => None
              end)
      | _ => Ok None
      end.

Definition key_name_of (key : nat) : option Z := option_map ky_name (ki_keys info !! key).

(** The overlays of the key after the entry. *)
Definition add_overlay_entry (o : overlays_info) (overlay : nat) (key : option nat) (defined : option overlays_info)
    : result (bool * option overlays_info) :=
  let+ prev := overlays_get o overlay in
  match prev with
  | Some _ => Ok (true, defined)
  | None =>
      if overlapping_overlays info then
        let+ o := overlays_insert o overlay key in
        Ok (match o with Some o => (true, Some o) | None => (false, defined) end)
      else if (ov_mask o =? 0) || ov_clear o then
        match key with
        | Some _ => let+ storage := set_overlay_key o key in
                    Ok (true, Some (mk_overlays (overlay_bit overlay) false storage))
        | None => Ok (true, Some (mk_overlays (Z.lor (ov_mask o) (overlay_bit overlay)) true (ov_storage o)))
        end
      else match key with
      | Some _ =>
          (** the message names the key of the other overlay *)
          match ov_storage o with
          | OvInline (Some _) => Ok (lenient (ki_strict info) PARSER_NO_FIELD_VALUE_MISMATCH, defined)
          | _ => Fault FaultNull
          end
      | None => Ok (true, defined)
      end
  end.

Definition set_overlay_field (keyi : KeyInfo) (field : list Z) (arrayNdx : option ExprDef) (value : ExprDef)
    : result (bool * KeyInfo) :=
  let+ entry := ExprResolveOverlayEntry field arrayNdx value in
  match entry with
  | None => Ok (false, keyi)
  | Some (None, _) => Ok (true, keyi)
  | Some (Some overlay, key) =>
      if bool_decide (is_Some key) && bool_decide ((key ≫= key_name_of) = Some (kf_name keyi)) then Ok (true, keyi)
      else
        let+ r := add_overlay_entry (default no_overlays (kf_overlays keyi)) overlay key (kf_overlays keyi) in
        Ok (fst r, kf_set_overlays (snd r) keyi)
  end.

(** ** Fields of a key *)

Definition repeatEntries : list LookupEntry := entries_of
  [("true", 1); ("yes", 1); ("on", 1); ("false", 2); ("no", 2); ("off", 2); ("default", 0)]%string.

Definition key_repeat_of (val : Z) : key_repeat :=
  if val =? 1 then KEY_REPEAT_YES else if val =? 2 then KEY_REPEAT_NO else KEY_REPEAT_UNDEFINED.

Definition is_prefix (prefix : string) (field : list Z) : bool :=
  istrneq (bytes_of prefix) field (String.length prefix).

Definition one_of (field : list Z) (l : list string) : bool := existsb (name_is field) l.

(** The type of the group [ndx]. *)
Definition set_group_type (keyi : KeyInfo) (ndx type : Z) : result KeyInfo :=
  let size := Z.of_nat (length (kf_groups keyi)) in
  let+ groups := if ndx >=? size
                 then asserting (size <? u32 (ndx + 1)) (Ok (resized InitGroupInfo (kf_groups keyi) (u32 (ndx + 1))))
                 else Ok (kf_groups keyi) in
  let+ groups := update_item groups ndx (fun g => gr_define GROUP_FIELD_TYPE (gr_set_type type g)) in
  Ok (kf_set_groups groups keyi).

Definition set_type_field (keyi : KeyInfo) (arrayNdx : option ExprDef) (value : ExprDef) : result (bool * KeyInfo) :=
  match ExprResolveString value with
  | None => Ok (false, keyi)
  | Some val =>
      match arrayNdx with
      | None => Ok (true, kf_define KEY_FIELD_DEFAULT_TYPE (kf_set_default_type val keyi))
      | Some arrayNdx =>
          let+ r := ExprResolveGroup (ki_group_info info) arrayNdx false false in
          match fst r with
          | PARSER_SUCCESS ndx => let+ keyi := set_group_type keyi (u32 (ndx - 1)) val in Ok (true, keyi)
          | _ => Ok (false, keyi)
          end
      end
  end.

Definition set_redirect_field (pendings : list pending_computation) (keyi : KeyInfo) (value : ExprDef)
    : result (bool * KeyInfo * list pending_computation) :=
  let+ r := ExprResolveGroup (ki_group_info info) value false true in
  let redirect pending number := kf_define KEY_FIELD_GROUPINFO (kf_set_policy LAYOUT_REDIRECT (kf_set_number pending number keyi)) in
  Ok (match r with
      | (_, true) => (true, redirect true (u32 (Z.of_nat (length pendings))), pendings ++ [mk_pending value false 0])
      | (PARSER_SUCCESS grp, false) => (true, redirect false (u32 (grp - 1)), pendings)
      | (_, false) => (false, keyi, pendings)
      end).

Definition set_policy_field (keyi : KeyInfo) (value : ExprDef) (yes no : out_of_range_policy) : result (bool * KeyInfo) :=
  let+ set := ExprResolveBoolean (ki_ctx info) value in
  Ok (match set with
      | Some set => (true, kf_define KEY_FIELD_GROUPINFO (kf_set_policy (if set : bool then yes else no) keyi))
      | None => (false, keyi)
      end).

Definition SetSymbolsField (pendings : list pending_computation) (keyi : KeyInfo) (field : list Z) (arrayNdx : option ExprDef)
    (value : ExprDef) (next : list ExprDef) : result (bool * KeyInfo * list pending_computation) :=
  let pure (r : result (bool * KeyInfo)) := let+ r := r in Ok (r, pendings) in
  if name_is field "type" then pure (set_type_field keyi arrayNdx value)
  else if name_is field "symbols" then pure (AddSymbolsToKey keyi arrayNdx value next)
  else if name_is field "actions" then AddActionsToKey pendings keyi arrayNdx value next
  else if one_of field ["vmods"; "virtualmods"; "virtualmodifiers"]%string then
    pure (let+ mask := ExprResolveModMask (ki_ctx info) value MOD_VIRT (ms_enum mods) in
          Ok (match mask with
              | Some mask => (true, kf_define KEY_FIELD_VMODMAP (kf_set_vmodmap mask keyi))
              | None => (false, keyi)
              end))
  else if one_of field ["locking"; "lock"; "locks"]%string then Ok (true, keyi, pendings)
  else if one_of field ["radiogroup"; "permanentradiogroup"; "allownone"]%string then Ok (true, keyi, pendings)
  else if is_prefix "permanentoverlay" field then Ok (true, keyi, pendings)
  else if is_prefix "overlay" field then pure (set_overlay_field keyi field arrayNdx value)
  else if one_of field ["repeating"; "repeats"; "repeat"]%string then
    pure (let+ val := ExprResolveEnum (ki_ctx info) value repeatEntries in
          Ok (match val with
              | Some val => (true, kf_define KEY_FIELD_REPEAT (kf_set_repeat (key_repeat_of val) keyi))
              | None => (false, keyi)
              end))
  else if one_of field ["groupswrap"; "wrapgroups"]%string then pure (set_policy_field keyi value LAYOUT_WRAP LAYOUT_CLAMP)
  else if one_of field ["groupsclamp"; "clampgroups"]%string then pure (set_policy_field keyi value LAYOUT_CLAMP LAYOUT_WRAP)
  else if one_of field ["groupsredirect"; "redirectgroups"]%string then set_redirect_field pendings keyi value
  else Ok (lenient (ki_strict info) PARSER_NO_UNKNOWN_KEY_FIELDS, keyi, pendings).
End fields.

(** ** Statements *)

Definition overlays_shared (o : option overlays_info) : bool :=
  match o with Some o => negb (Nat.eqb (ov_alloc o) 0) | None => false end.

Section statements.
Context (info : keymap_info).

Definition InitSymbolsInfo (include_depth : nat) (mods : xkb_mod_set) : SymbolsInfo :=
  mk_symbols_info None 0 include_depth None [] (InitKeyInfo (ki_ctx info)) (InitActionsInfo (ki_redirect_key_auto info))
    [] [] (InitVMods mods (Nat.ltb 0 include_depth)).

(** *** The merge of an included section *)

Fixpoint merge_group_names (into from : list Z) (merge : merge_mode) : list Z :=
  match into, from with
  | _, [] => into
  | [], _ => from
  | i :: into, f :: from =>
      (if f =? XKB_ATOM_NONE then i
       else match merge with MERGE_AUGMENT => if i =? XKB_ATOM_NONE then f else i | _ => f end)
      :: merge_group_names into from merge
  end.

Fixpoint merge_keys (into : SymbolsInfo) (from : list KeyInfo) (merge : merge_mode) : result SymbolsInfo :=
  match from with
  | [] => Ok into
  | keyi :: from =>
      let+ r := AddKeySymbols info (sb_keys into) (kf_set_merge merge keyi) in
      let into := sb_set_keys (snd r) into in
      merge_keys (if fst r : bool then into else sb_add_errors 1 into) from merge
  end.

Definition mm_set_merge merge (mm : ModMapEntry) := mk_modmap merge (mm_target mm) (mm_mods mm) (mm_keyCode mm).

Definition MergeIncludedSymbols (into from : SymbolsInfo) (merge : merge_mode) : result SymbolsInfo :=
  if sb_errorCount from >? 0 then Ok (sb_add_errors (sb_errorCount from) into)
  else
    let+ mods := MergeModSets (sb_mods into) (sb_mods from) merge in
    let into := sb_set_mods mods into in
    let into := match sb_name into with None => sb_set_name (sb_name from) into | Some _ => into end in
    let into := sb_set_group_names (merge_group_names (sb_group_names into) (sb_group_names from) merge) into in
    let+ into := match sb_keys into with
                 | [] => Ok (sb_set_keys (sb_keys from) into)
                 | _ => merge_keys into (sb_keys from) merge
                 end in
    Ok (match sb_modmaps into with
        | [] => sb_set_modmaps (sb_modmaps from) into
        | modmaps => sb_set_modmaps (foldl AddModMapEntry modmaps (map (mm_set_merge merge) (sb_modmaps from))) into
        end).

(** *** Names of groups *)

Definition SetGroupName (sb : SymbolsInfo) (arrayNdx : option ExprDef) (value : ExprDef) (merge : merge_mode)
    : result (bool * SymbolsInfo) :=
  match arrayNdx with
  | None => Ok (false, sb)
  | Some arrayNdx =>
      let+ r := ExprResolveGroup (ki_group_info info) arrayNdx false false in
      match fst r, ExprResolveString value with
      | PARSER_SUCCESS group, Some name =>
          let group_to_use := match sb_explicit_group sb with
                              | None => Some (u32 (group - 1))
                              | Some explicit => if u32 (group - 1) =? 0 then Some explicit else None
                              end in
          match group_to_use with
          | None => Ok (false, sb)
          | Some group_to_use =>
              let size := Z.of_nat (length (sb_group_names sb)) in
              let+ r := if group_to_use >=? size
                        then asserting (size <? u32 (group_to_use + 1))
                               (Ok (resized XKB_ATOM_NONE (sb_group_names sb) (u32 (group_to_use + 1)), name))
                        else match item (sb_group_names sb) group_to_use with
                        | None => Fault FaultOutOfBounds
                        | Some old_name =>
                            Ok (sb_group_names sb,
                                if negb (old_name =? XKB_ATOM_NONE) && negb (old_name =? name)
                                then if clobbers merge then name else old_name else name)
                        end in
              let+ names := update_item (fst r) group_to_use (fun _ => snd r) in
              Ok (true, sb_set_group_names names sb)
          end
      | _, _ => Ok (false, sb)
      end
  end.

(** *** Keys *)

(** [temp.merge] is tested before it is set, as in the compat section. *)
Definition HandleGlobalVar (pendings : list pending_computation) (sb : SymbolsInfo) (stmt : VarDef)
    : result (bool * SymbolsInfo * list pending_computation) :=
  let+ lhs := var_lhs (ki_ctx info) stmt in
  match lhs with
  | None => Ok (false, sb, pendings)
  | Some (Some elem, field, ndx) =>
      if name_is elem "key" then
        let temp := InitKeyInfo (ki_ctx info) in
        let temp := kf_set_merge (default_merge (kf_merge temp) stmt) temp in
        let+ r := SetSymbolsField info (sb_default_actions sb) (sb_mods sb) pendings temp field ndx (vr_value stmt) (vr_next stmt) in
        let '(ret, temp, pendings) := r in
        if ret : bool then
          let+ m := MergeKeys info (sb_default_key sb) temp in
          Ok (fst m, sb_set_default_key (snd m) sb, pendings)
        else Ok (false, sb, pendings)
      else
        let+ r := SetDefaultActionField info (sb_default_actions sb) (sb_mods sb) pendings elem field ndx
                    (vr_value stmt) (vr_merge stmt) in
        let '(e, defaults, pendings) := r in
        Ok (match e with PARSER_FATAL_ERROR => false | _ => true end, sb_set_default_actions defaults sb, pendings)
  | Some (None, field, ndx) =>
      if one_of field ["name"; "groupname"]%string then
        let+ r := SetGroupName sb ndx (vr_value stmt) (vr_merge stmt) in Ok (r, pendings)
      else if one_of field ["groupswrap"; "wrapgroups"; "groupsclamp"; "clampgroups"; "groupsredirect"; "redirectgroups"; "allownone"]%string
      then Ok (true, sb, pendings)
      else Ok (lenient (ki_strict info) PARSER_NO_UNKNOWN_SYMBOLS_GLOBAL_FIELDS, sb, pendings)
  end.

(** The field of an entry, with its index; [None] for an error. *)
Definition body_field (def : VarDef) : result (option (list Z * option ExprDef)) :=
  match vr_name def with
  | None =>
      Ok (Some (bytes_of (match vr_value def with STMT_EXPR_ACTION_LIST _ => "actions" | _ => "symbols" end)%string, None))
  | Some name =>
      let+ lhs := ExprResolveLhs (ki_ctx info) name in
      Ok (match lhs with Some (None, field, arrayNdx) => Some (field, arrayNdx) | _ => None end)
  end.

Fixpoint HandleSymbolsBody (sb : SymbolsInfo) (pendings : list pending_computation) (def : list VarDef) (keyi : KeyInfo)
    (ok : bool) : result (bool * KeyInfo * list pending_computation) :=
  match def with
  | [] => Ok (ok, keyi, pendings)
  | v :: def =>
      let+ f := body_field v in
      match f with
      | None => HandleSymbolsBody sb pendings def keyi false
      | Some (field, arrayNdx) =>
          let+ r := SetSymbolsField info (sb_default_actions sb) (sb_mods sb) pendings keyi field arrayNdx (vr_value v) (vr_next v) in
          let '(b, keyi, pendings) := r in HandleSymbolsBody sb pendings def keyi (ok && b)
      end
  end.

(** The groups that are left when the map has an explicit group. *)
Definition SetExplicitGroup (explicit_group : option Z) (groups : list GroupInfo) : result (list GroupInfo) :=
  match explicit_group with
  | None => Ok groups
  | Some explicit =>
      let groups := match groups with
                    | [] => []
                    | g :: groups => g :: map (fun g => if gr_defined g =? 0 then g else InitGroupInfo) groups
                    end in
      let groups := resized InitGroupInfo groups (explicit + 1) in
      if explicit >? 0 then
        match groups with
        | g :: rest => update_item (InitGroupInfo :: rest) explicit (fun _ => g)
        | [] => Fault FaultOutOfBounds
        end
      else Ok groups
  end.

(** The copy of the default key shares its array of overlays, if it is
    allocated: both keys free it, wherever the copy goes.  The model stops
    there. *)
Definition HandleSymbolsDef (pendings : list pending_computation) (sb : SymbolsInfo) (merge : merge_mode) (keyName : Z)
    (symbols : list VarDef) : result (bool * SymbolsInfo * list pending_computation) :=
  if overlays_shared (kf_overlays (sb_default_key sb)) then Fault FaultUseAfterFree
  else
    let keyi := kf_set_name keyName (kf_set_merge merge (sb_default_key sb)) in
    let+ r := HandleSymbolsBody sb pendings symbols keyi true in
    let '(ok, keyi, pendings) := r in
    if ok : bool then
      let+ groups := SetExplicitGroup (sb_explicit_group sb) (kf_groups keyi) in
      let+ r := AddKeySymbols info (sb_keys sb) (kf_set_groups groups keyi) in
      let sb := sb_set_keys (snd r) sb in
      Ok (if fst r : bool then (true, sb, pendings) else (false, sb_add_errors 1 sb, pendings))
    else Ok (false, sb_add_errors 1 sb, pendings).

(** *** Modifier map *)

Fixpoint add_modmap_keys (modmaps : list ModMapEntry) (merge : merge_mode) (mods : Z) (keys : list ExprDef) : list ModMapEntry :=
  match keys with
  | [] => modmaps
  | key :: keys =>
      let add target := add_modmap_keys (AddModMapEntry modmaps (mk_modmap merge target mods None)) merge mods keys in
      match key with
      | STMT_EXPR_KEYNAME_LITERAL key_name => add (ModKeyName key_name)
      | STMT_EXPR_KEYSYM_LITERAL keysym =>
          if keysym =? XKB_KEY_NoSymbol then add_modmap_keys modmaps merge mods keys else add (ModKeySym keysym)
      | _ => add_modmap_keys modmaps merge mods keys
      end
  end.

Definition is_ident (e : ExprDef) : bool := match e with STMT_EXPR_IDENT _ => true | _ => false end.

Definition HandleModMapDef (sb : SymbolsInfo) (merge : merge_mode) (modifiers : ExprDef) (keys : list ExprDef)
    : result (bool * SymbolsInfo) :=
  let+ mods := ExprResolveModMask (ki_ctx info) modifiers MOD_REAL (ms_enum (sb_mods sb)) in
  match mods with
  | None => Ok (false, sb)
  | Some mods =>
      asserting (negb (ki_format info =? XKB_KEYMAP_FORMAT_TEXT_V1) || is_ident modifiers)
        (Ok (true, sb_set_modmaps (add_modmap_keys (sb_modmaps sb) merge mods keys) sb))
  end.

(** *** Files *)

Section files.
Context (parse : xkb_file_type -> include_item -> list (option XkbFile)).
Variable handle_file : list pending_computation -> SymbolsInfo -> XkbFile -> result (SymbolsInfo * list pending_computation).

(** The explicit group of an included file. *)
Definition included_group (sb : SymbolsInfo) (modifier : option (list Z)) : option Z :=
  match modifier with
  | Some modifier =>
      let '(count, group) := parse_dec_to_uint32_t modifier (S (length modifier)) in
      if (count <=? 0) || negb (Nat.eqb (length (drop (Z.to_nat count) modifier)) 0) ||
         (group =? 0) || (group >? ki_max_groups info)
      then sb_explicit_group sb else Some (group - 1)
  | None =>
      if negb (ki_num_groups info =? 0) && Nat.eqb (S (sb_include_depth sb)) 1 then Some 0 else sb_explicit_group sb
  end.

Fixpoint include_symbols (sb : SymbolsInfo) (pendings : list pending_computation) (included : SymbolsInfo) (stmts : list include_item)
    : result (option SymbolsInfo * list pending_computation) :=
  match stmts with
  | [] => Ok (Some included, pendings)
  | stmt :: stmts =>
      match ProcessIncludeFile parse stmt FILE_TYPE_SYMBOLS with
      | None => Ok (None, pendings)
      | Some file =>
          let next_incl := sb_set_explicit_group (included_group sb (inc_modifier stmt))
                             (InitSymbolsInfo (S (sb_include_depth sb)) (sb_mods included)) in
          let+ r := handle_file pendings next_incl file in
          let+ included := MergeIncludedSymbols included (fst r) (inc_merge stmt) in
          include_symbols sb (snd r) included stmts
      end
  end.

Definition HandleIncludeSymbols (pendings : list pending_computation) (sb : SymbolsInfo) (include : IncludeStmt)
    : result (bool * SymbolsInfo * list pending_computation) :=
  if ExceedsIncludeMaxDepth (sb_include_depth sb) then Ok (false, sb_add_errors 10 sb, pendings)
  else
    let+ r := include_symbols sb pendings
                (sb_set_name (inc_stmt (inc_first include)) (InitSymbolsInfo (S (sb_include_depth sb)) (sb_mods sb)))
                (inc_items include) in
    match r with
    | (None, pendings) => Ok (false, sb_add_errors 10 sb, pendings)
    | (Some included, pendings) =>
        let+ sb := MergeIncludedSymbols sb included (inc_merge (inc_first include)) in
        Ok (sb_errorCount sb =? 0, sb, pendings)
    end.

Definition handle_symbols_stmt (pendings : list pending_computation) (sb : SymbolsInfo) (stmt : statement)
    : result (bool * SymbolsInfo * list pending_computation) :=
  match stmt with
  | STMT_INCLUDE include => HandleIncludeSymbols pendings sb include
  | STMT_SYMBOLS merge keyName symbols => HandleSymbolsDef pendings sb merge keyName symbols
  | STMT_VAR var => HandleGlobalVar pendings sb var
  | STMT_VMOD vmod =>
      let+ r := HandleVModDef (ki_ctx info) (sb_mods sb) vmod in Ok (fst r, sb_set_mods (snd r) sb, pendings)
  | STMT_MODMAP merge modifiers keys => let+ r := HandleModMapDef sb merge modifiers keys in Ok (r, pendings)
  | STMT_UNKNOWN => Ok (lenient (ki_strict info) PARSER_NO_UNKNOWN_STATEMENTS, sb, pendings)
  | _ => Ok (false, sb, pendings)
  end.

Fixpoint handle_symbols_stmts (pendings : list pending_computation) (sb : SymbolsInfo) (defs : list statement)
    : result (SymbolsInfo * list pending_computation) :=
  match defs with
  | [] => Ok (sb, pendings)
  | stmt :: defs =>
      let+ r := handle_symbols_stmt pendings sb stmt in
      let '(ok, sb, pendings) := r in
      let sb := if ok : bool then sb else sb_add_errors 1 sb in
      if sb_errorCount sb >? 10 then Ok (sb, pendings) else handle_symbols_stmts pendings sb defs
  end.
End files.
End statements.

(** [fuel] bounds the depth of the included files. *)
Fixpoint HandleSymbolsFile (info : keymap_info) (parse : xkb_file_type -> include_item -> list (option XkbFile)) (fuel : nat)
    (pendings : list pending_computation) (sb : SymbolsInfo) (file : XkbFile) : result (SymbolsInfo * list pending_computation) :=
  match fuel with
  | O => Fault FaultFuel
  | S fuel =>
      handle_symbols_stmts info parse (HandleSymbolsFile info parse fuel) pendings (sb_set_name (xf_name file) sb) (xf_defs file)
  end.
