(* ===== verification/SymbolsCopy.v ===== *)
(** * The keys of the keymap (src/xkbcomp/symbols.c)

    The types of the groups, the levels with the upper case of their keysyms,
    the fields of each key of the keymap, and the modifier map. *)

From Stdlib Require Import ZArith Lia String.
From stdpp Require Import base tactics list numbers.
From S2P Require Import Prelude Numbers Atom Keymap KeysymNames KeysymName Keysym Expr Vmod KeyAliases Derived SymOverlays Actions Sections Keycodes Types Compat Symbols.

Definition EXPLICIT_SYMBOLS : Z := 2 ^ 0.
Definition EXPLICIT_INTERP : Z := 2 ^ 1.
Definition EXPLICIT_TYPES : Z := 2 ^ 2.
Definition EXPLICIT_OVERLAY : Z := 2 ^ 5.

(** ** Types of groups *)

Definition get_sym (levels : list xkb_level) (i : nat) : Z := level_sym (default zero_level (levels !! i)).

Definition FindAutomaticType (ctx : atom_table) (groupi : GroupInfo) : Z :=
  let width := length (gr_levels groupi) in
  let sym := get_sym (gr_levels groupi) in
  let alphabetic a b := xkb_keysym_is_lower a && xkb_keysym_is_upper_or_title b in
  let keypad := xkb_keysym_is_keypad (sym 0%nat) || xkb_keysym_is_keypad (sym 1%nat) in
  if Nat.leb width 1 then literal ctx "ONE_LEVEL"
  else if Nat.eqb width 2 then
    if alphabetic (sym 0%nat) (sym 1%nat) then literal ctx "ALPHABETIC"
    else if keypad then literal ctx "KEYPAD"
    else literal ctx "TWO_LEVEL"
  else if Nat.leb width 4 then
    if alphabetic (sym 0%nat) (sym 1%nat) then
      let sym3 := if Nat.eqb width 4 then sym 3%nat else XKB_KEY_NoSymbol in
      if alphabetic (sym 2%nat) sym3 then literal ctx "FOUR_LEVEL_ALPHABETIC" else literal ctx "FOUR_LEVEL_SEMIALPHABETIC"
    else if keypad then literal ctx "FOUR_LEVEL_KEYPAD"
    else literal ctx "FOUR_LEVEL"
  else XKB_ATOM_NONE.

(** The name of the type of a group, and whether the type is explicit. *)
Definition group_type_name (ctx : atom_table) (keyi : KeyInfo) (groupi : GroupInfo) : Z * bool :=
  if negb (gr_type groupi =? XKB_ATOM_NONE) then (gr_type groupi, true)
  else if negb (kf_default_type keyi =? XKB_ATOM_NONE) then (kf_default_type keyi, true)
  else let type_name := FindAutomaticType ctx groupi in (type_name, type_name =? XKB_ATOM_NONE).

(** The index of the type, the explicit types, and the types, that one
    required; the first type is the default one. *)
Definition FindTypeForGroup (ctx : atom_table) (types : list compiled_type) (keyi : KeyInfo) (groupi : GroupInfo)
    : result (nat * bool * list compiled_type) :=
  let '(type_name, explicit_type) := group_type_name ctx keyi groupi in
  let i := if type_name =? XKB_ATOM_NONE then O
           else match list_find (fun t => ct_name t = type_name) types with Some (i, _) => i | None => O end in
  match types !! i with
  | Some t => Ok (i, explicit_type, <[i := mk_compiled_type (ct_name t) (ct_type t) (ct_level_names t) true]> types)
  | None => Fault FaultOutOfBounds
  end.

(** ** Levels *)

(** The upper case of the keysyms: in [upper] for one keysym, after the keysyms
    in their array if one of several has an upper case. *)
Definition capitalize_level (lv : xkb_level) : xkb_level :=
  match lv_num_syms lv with
  | 0%nat => mk_level 0 XKB_KEY_NoSymbol (lv_has_upper lv) (lv_syms lv) (lv_actions lv)
  | 1%nat => mk_level 1 (xkb_keysym_to_upper (level_sym lv)) (lv_has_upper lv) (lv_syms lv) (lv_actions lv)
  | n =>
      let has_upper := existsb (fun sym => negb (xkb_keysym_to_upper sym =? sym)) (lv_syms lv) in
      mk_level n (lv_upper lv) has_upper
        (if has_upper then lv_syms lv ++ map xkb_keysym_to_upper (lv_syms lv) else lv_syms lv) (lv_actions lv)
  end.

(** A group with its type. *)
Record typed_group := mk_typed_group {
  tg_type : nat;
  tg_explicit : bool;
  tg_defined : Z;
  tg_levels : list xkb_level
}.

(** As many levels as the type has. *)
Fixpoint assign_types (ctx : atom_table) (types : list compiled_type) (keyi : KeyInfo) (groups : list GroupInfo)
    : result (list typed_group * list compiled_type) :=
  match groups with
  | [] => Ok ([], types)
  | g :: groups =>
      let+ r := FindTypeForGroup ctx types keyi g in
      let '(i, explicit_type, types) := r in
      let num_levels := match types !! i with Some t => t_num_levels (ct_type t) | None => 0 end in
      let+ r := assign_types ctx types keyi groups in
      Ok (mk_typed_group i explicit_type (gr_defined g) (resized zero_level (gr_levels g) num_levels) :: fst r, snd r)
  end.

Definition group_explicit (g : typed_group) : result Z :=
  let+ symbols := if Nat.ltb 1 (length (tg_levels g)) then Ok true
                  else match tg_levels g with
                  | lv :: _ => Ok (negb (no_keysym lv))
                  | [] => Fault FaultNull
                  end in
  Ok (Z.lor (if symbols : bool then EXPLICIT_SYMBOLS else 0)
        (Z.lor (if has_flag (tg_defined g) GROUP_FIELD_ACTS then EXPLICIT_INTERP else 0)
           (if tg_explicit g then EXPLICIT_TYPES else 0))).

Definition copy_group (g : typed_group) : key_group :=
  mk_key_group (has_flag (tg_defined g) GROUP_FIELD_ACTS) false (tg_type g) (map capitalize_level (tg_levels g)).

Fixpoint explicit_groups (groups : list typed_group) (explicit : Z) : result Z :=
  match groups with
  | [] => Ok explicit
  | g :: groups => let+ e := group_explicit g in explicit_groups groups (Z.lor explicit e)
  end.

(** ** Keys *)

Definition has_explicit_type (keyi : KeyInfo) (g : GroupInfo) : bool :=
  has_flag (kf_defined keyi) KEY_FIELD_DEFAULT_TYPE || has_flag (gr_defined g) GROUP_FIELD_TYPE.

(** The groups up to the last one that has a level or an explicit type. *)
Fixpoint needed_groups (keyi : KeyInfo) (groups : list GroupInfo) : list GroupInfo :=
  match groups with
  | [] => []
  | g :: groups =>
      match needed_groups keyi groups with
      | [] => if Nat.ltb 0 (length (gr_levels g)) || has_explicit_type keyi g then [g] else []
      | l => g :: l
      end
  end.

(** The first group instead of the empty ones. *)
Definition fill_groups (groups : list GroupInfo) : list GroupInfo :=
  match groups with
  | [] => []
  | group0 :: groups => group0 :: map (fun g => if gr_defined g =? 0 then group0 else g) groups
  end.

Fixpoint overlay_prefix (keys : list (option (option nat))) : list nat :=
  match keys with Some (Some key) :: keys => key :: overlay_prefix keys | _ => [] end.

Definition ky_set_explicit e (k : key) := mk_ckey (ky_keycode k) (ky_name k) e (ky_modmap k) (ky_vmodmap k) (ky_overlays k) (ky_overlays_inline k) (ky_overlays_keys k) (ky_repeats k) (ky_implicit_actions k) (ky_pending_group k) (ky_policy k) (ky_group_number k) (ky_groups k).
Definition ky_set_modmap m (k : key) := mk_ckey (ky_keycode k) (ky_name k) (ky_explicit k) m (ky_vmodmap k) (ky_overlays k) (ky_overlays_inline k) (ky_overlays_keys k) (ky_repeats k) (ky_implicit_actions k) (ky_pending_group k) (ky_policy k) (ky_group_number k) (ky_groups k).
Definition ky_set_overlays o inline keys (k : key) := mk_ckey (ky_keycode k) (ky_name k) (ky_explicit k) (ky_modmap k) (ky_vmodmap k) o inline keys (ky_repeats k) (ky_implicit_actions k) (ky_pending_group k) (ky_policy k) (ky_group_number k) (ky_groups k).
Definition ky_set_policy p (k : key) := mk_ckey (ky_keycode k) (ky_name k) (ky_explicit k) (ky_modmap k) (ky_vmodmap k) (ky_overlays k) (ky_overlays_inline k) (ky_overlays_keys k) (ky_repeats k) (ky_implicit_actions k) (ky_pending_group k) p (ky_group_number k) (ky_groups k).

(** The groups of the key. *)
Definition copy_key_groups (ctx : atom_table) (types : list compiled_type) (keyi : KeyInfo) (k : key)
    : result (key * list compiled_type) :=
  let groups := needed_groups keyi (kf_groups keyi) in
  let explicit := if existsb (has_explicit_type keyi) (kf_groups keyi) then Z.lor (ky_explicit k) EXPLICIT_TYPES else ky_explicit k in
  let+ r := assign_types ctx types keyi (fill_groups groups) in
  let+ explicit := explicit_groups (fst r) explicit in
  let k := ky_set_groups (ky_implicit_actions k) (map copy_group (fst r)) (ky_set_explicit explicit k) in
  Ok (ky_set_policy (kf_policy keyi) (ky_set_redirect (kf_pending_group keyi) (u8 (kf_group_number keyi)) k), snd r).

(** [key_fields] *)
Definition copy_key_fields (keyi : KeyInfo) (k : key) : result key :=
  let k := if has_flag (kf_defined keyi) KEY_FIELD_VMODMAP
           then ky_set_explicit (Z.lor (ky_explicit k) EXPLICIT_VMODMAP) (ky_set_derived (ky_repeats k) (kf_vmodmap keyi) k) else k in
  let k := match kf_repeat keyi with
           | KEY_REPEAT_UNDEFINED => k
           | r => ky_set_explicit (Z.lor (ky_explicit k) EXPLICIT_REPEAT)
                    (ky_set_derived (match r with KEY_REPEAT_YES => true | _ => false end) (ky_vmodmap k) k)
           end in
  match kf_overlays keyi with
  | None => Ok k
  | Some o =>
      let+ copied := copy_overlays o in
      Ok (match copied with
          | Some (mask, inline, keys) =>
              ky_set_explicit (Z.lor (ky_explicit k) EXPLICIT_OVERLAY) (ky_set_overlays mask inline (overlay_prefix keys) k)
          | None => k
          end)
  end.

(** The boolean returned, the keys and the types; the names of the keys are
    those of [info]. *)
Definition CopySymbolsDefToKeymap (info : keymap_info) (keys : list key) (types : list compiled_type) (keyi : KeyInfo)
    : result (bool * list key * list compiled_type) :=
  let+ found := XkbKeyByName info (kf_name keyi) false in
  match found with
  | None => Ok (false, keys, types)
  | Some i =>
      match keys !! i with
      | None => Fault FaultOutOfBounds
      | Some k =>
          let k := ky_set_groups (ky_implicit_actions k) [] k in
          match needed_groups keyi (kf_groups keyi) with
          | [] =>
              if negb (kf_defined keyi =? 0) || bool_decide (is_Some (kf_overlays keyi))
              then let+ k := copy_key_fields keyi k in Ok (true, <[i := k]> keys, types)
              else Ok (false, <[i := k]> keys, types)
          | _ =>
              let+ r := copy_key_groups (ki_ctx info) types keyi k in
              let+ k := copy_key_fields keyi (fst r) in
              Ok (true, <[i := k]> keys, snd r)
          end
      end
  end.

Fixpoint copy_keys (info : keymap_info) (keys : list key) (types : list compiled_type) (l : list KeyInfo)
    : result (list key * list compiled_type) :=
  match l with
  | [] => Ok (keys, types)
  | keyi :: l =>
      let+ r := CopySymbolsDefToKeymap info keys types keyi in
      let '(_, keys, types) := r in copy_keys info keys types l
  end.

(** ** The modifier map *)

(** The level of a key, if it has it. *)
Definition level_at (types : list xkb_key_type) (k : key) (group level : nat) : result (option xkb_level) :=
  match ky_groups k !! group with
  | None => Ok None
  | Some g =>
      let+ num_levels := group_num_levels types g in
      if Nat.ltb level num_levels then
        match kg_levels g !! level with Some lv => Ok (Some lv) | None => Fault FaultOutOfBounds end
      else Ok None
  end.

Definition level_has_sym (lv : xkb_level) (sym : Z) : bool :=
  if Nat.ltb 1 (lv_num_syms lv) then existsb (Z.eqb sym) (take (lv_num_syms lv) (lv_syms lv))
  else negb (no_keysym lv) && (level_sym lv =? sym).

(** The keys with the level, from the index [i] on: [got_one_level], and the
    first key with the keysym. *)
Fixpoint scan_keys (types : list xkb_key_type) (keys : list key) (i : nat) (group level : nat) (sym : Z)
    : result (bool * option nat) :=
  match keys with
  | [] => Ok (false, None)
  | k :: keys =>
      let+ lv := level_at types k group level in
      match lv with
      | Some lv =>
          if level_has_sym lv sym then Ok (true, Some i)
          else let+ r := scan_keys types keys (S i) group level sym in Ok (true, snd r)
      | None => scan_keys types keys (S i) group level sym
      end
  end.

Fixpoint scan_levels (fuel : nat) (types : list xkb_key_type) (keys : list key) (start group level : nat) (sym : Z)
    : result (bool * option nat) :=
  match fuel with
  | O => Fault FaultFuel
  | S fuel =>
      let+ r := scan_keys types keys start group level sym in
      match r with
      | (_, Some i) => Ok (true, Some i)
      | (false, None) => Ok (false, None)
      | (true, None) => let+ r := scan_levels fuel types keys start group (S level) sym in Ok (true, snd r)
      end
  end.

Fixpoint scan_groups (fuel lfuel : nat) (types : list xkb_key_type) (keys : list key) (start group : nat) (sym : Z)
    : result (option nat) :=
  match fuel with
  | O => Fault FaultFuel
  | S fuel =>
      let+ r := scan_levels lfuel types keys start group 0 sym in
      match r with
      | (_, Some i) => Ok (Some i)
      | (false, None) => Ok None
      | (true, None) => scan_groups fuel lfuel types keys start (S group) sym
      end
  end.

(** The loops end after the last level of the types and the last group of the
    keys. *)
Definition levels_bound (types : list xkb_key_type) : nat := S (max_list (map (fun t => Z.to_nat (t_num_levels t)) types)).
Definition groups_bound (keys : list key) : nat := S (max_list (map (fun k => length (ky_groups k)) keys)).

Definition FindKeyForSymbol (info : keymap_info) (types : list xkb_key_type) (keys : list key) (sym : Z) : result (option nat) :=
  let start := keys_start (keymap_of info) in
  scan_groups (groups_bound keys) (levels_bound types) types (drop start keys) start 0 sym.

(** The keys and the entry; the boolean only counts errors. *)
Definition CopyModMapDefToKeymap (info : keymap_info) (types : list xkb_key_type) (keys : list key) (entry : ModMapEntry)
    : result (list key * ModMapEntry) :=
  let+ found := match mm_target entry with
                | ModKeyName name => XkbKeyByName info name true
                | ModKeySym sym => FindKeyForSymbol info types keys sym
                end in
  match found with
  | None => Ok (keys, mk_modmap (mm_merge entry) (mm_target entry) 0 (mm_keyCode entry))
  | Some i =>
      if mm_mods entry =? 0 then Ok (keys, entry)
      else match keys !! i with
      | Some k =>
          Ok (<[i := ky_set_modmap (Z.lor (ky_modmap k) (mm_mods entry)) k]> keys,
              mk_modmap (mm_merge entry) (mm_target entry) (mm_mods entry) (Some (ky_keycode k)))
      | None => Fault FaultOutOfBounds
      end
  end.

Fixpoint copy_modmaps (info : keymap_info) (types : list xkb_key_type) (keys : list key) (modmaps : list ModMapEntry)
    : result (list key * list ModMapEntry) :=
  match modmaps with
  | [] => Ok (keys, [])
  | mm :: modmaps =>
      let+ r := CopyModMapDefToKeymap info types keys mm in
      let+ rs := copy_modmaps info types (fst r) modmaps in
      Ok (fst rs, snd r :: snd rs)
  end.

(** ** The keymap *)

Record symbols_result := mk_symbols_result {
  sr_section_name : option (list Z);
  sr_mods : xkb_mod_set;
  sr_group_names : list Z;
  sr_keys : list key;
  sr_types : list compiled_type;
  sr_modmaps : list ModMapEntry
}.

(** Always a success. *)
Definition CopySymbolsToKeymap (info : keymap_info) (types : list compiled_type) (sb : SymbolsInfo) : result symbols_result :=
  let+ r := copy_keys info (ki_keys info) types (sb_keys sb) in
  let+ m := copy_modmaps info (map ct_type (snd r)) (fst r) (sb_modmaps sb) in
  Ok (mk_symbols_result (option_map XkbEscapeMapName (sb_name sb)) (sb_mods sb) (sb_group_names sb) (fst m) (snd r) (snd m)).

Definition CompileSymbols (info : keymap_info) (types : list compiled_type)
    (parse : xkb_file_type -> include_item -> list (option XkbFile)) (file : option XkbFile)
    : result (option symbols_result * list pending_computation) :=
  let sb := InitSymbolsInfo info 0 (ki_mods info) in
  let+ r := match file with
            | Some file => HandleSymbolsFile info parse (S INCLUDE_MAX_DEPTH) (ki_pendings info) sb file
            | None => Ok (sb, ki_pendings info)
            end in
  let '(sb, pendings) := r in
  if negb (sb_errorCount sb =? 0) then Ok (None, pendings)
  else let+ s := CopySymbolsToKeymap info types sb in Ok (Some s, pendings).
