(* ===== verification/SymbolsInv.v ===== *)
(** * Invariants of the keys being compiled

    A group without the flag of its keysyms, or of its actions, has none: the
    merge of two definitions of a key keeps it, with the sparse arrays of
    overlays, the indices of the pending computations and the count of groups. *)

From Stdlib Require Import ZArith Lia String.
From stdpp Require Import base tactics list numbers.
From S2P Require Import Prelude Numbers Atom Keymap KeysymNames KeysymName Expr Vmod KeyAliases Derived DerivedInv SymOverlays SymOverlaysSpec Actions ActionsSpec Sections Safe Keycodes Types Compat CompatStore Symbols.

(** ** Levels and groups *)

Definition klevel_ok (n : nat) (lv : xkb_level) : Prop :=
  lv_num_syms lv = length (lv_syms lv) /\ Forall (caction_ok n) (lv_actions lv).

Definition without_syms (lv : xkb_level) : Prop := lv_num_syms lv = 0%nat.
Definition without_actions (lv : xkb_level) : Prop := lv_actions lv = [].

Record kgroup_ok (n : nat) (g : GroupInfo) : Prop := {
  gk_levels : Forall (klevel_ok n) (gr_levels g);
  gk_syms : has_flag (gr_defined g) GROUP_FIELD_SYMS = false -> Forall without_syms (gr_levels g);
  gk_actions : has_flag (gr_defined g) GROUP_FIELD_ACTS = false -> Forall without_actions (gr_levels g)
}.

Lemma init_group_ok n : kgroup_ok n InitGroupInfo.
Proof. split; cbn; constructor. Qed.

Lemma zero_level_ok n : klevel_ok n zero_level.
Proof. split; [done|constructor]. Qed.

Lemma klevel_ok_mono n n' lv : (n <= n')%nat -> klevel_ok n lv -> klevel_ok n' lv.
Proof. intros Hn [H1 H2]. split; [done|]. eapply list.Forall_impl; [exact H2|]. intros a. by apply caction_ok_mono. Qed.

Lemma kgroup_ok_mono n n' g : (n <= n')%nat -> kgroup_ok n g -> kgroup_ok n' g.
Proof.
  intros Hn [H1 H2 H3]. split; [|done..]. eapply list.Forall_impl; [exact H1|]. intros lv. by apply klevel_ok_mono.
Qed.

(** *** The sources of the merged levels *)

Definition same_syms (lv src : xkb_level) : Prop := lv_num_syms lv = lv_num_syms src /\ lv_syms lv = lv_syms src.
Definition same_actions (lv src : xkb_level) : Prop := lv_actions lv = lv_actions src.

Lemma merge_level_sources clobber into from :
  let '(lv, s, a) := merge_level clobber into from in
  same_syms lv (if s : bool then from else into) /\ same_actions lv (if a : bool then from else into).
Proof.
  unfold merge_level. destruct (no_keysym from && no_action from); [done|].
  destruct (no_keysym into && no_action into); [done|]. cbv zeta.
  destruct (use_keysyms into from clobber), (use_actions _ from clobber); done.
Qed.

(** Where each level of [levels] comes from, [true] for [from]. *)
Definition sources (R : xkb_level -> xkb_level -> Prop) (into from : list xkb_level) (flags : list bool) (levels : list xkb_level) : Prop :=
  length flags = length levels /\
  forall i lv b, levels !! i = Some lv -> flags !! i = Some b ->
    exists src, (if b : bool then from else into) !! i = Some src /\ R lv src.

Definition count_true (flags : list bool) : nat := sum_list_with Nat.b2n flags.

Lemma sources_cons R into from li lf lv b flags levels : R lv (if b : bool then lf else li) ->
  sources R into from flags levels -> sources R (li :: into) (lf :: from) (b :: flags) (lv :: levels).
Proof.
  intros Hr [Hl H]. split; [cbn; lia|]. intros [|i] lv' b' Hlv Hb; cbn in *.
  - injection Hlv as <-. injection Hb as <-. destruct b; eauto.
  - destruct (H i lv' b' Hlv Hb) as (src & Hs & HR). exists src. split; [|done]. by destruct b'.
Qed.

Lemma sources_into (R : xkb_level -> xkb_level -> Prop) into : (forall lv, R lv lv) -> sources R into [] (replicate (length into) false) into.
Proof.
  intros HR. split; [by rewrite length_replicate|]. intros i lv b Hi Hb. apply lookup_replicate in Hb as [-> _]. eauto.
Qed.

Lemma sources_from (R : xkb_level -> xkb_level -> Prop) from : (forall lv, R lv lv) -> sources R [] from (replicate (length from) true) from.
Proof.
  intros HR. split; [by rewrite length_replicate|]. intros i lv b Hi Hb. apply lookup_replicate in Hb as [-> _]. eauto.
Qed.

Lemma count_replicate n b : count_true (replicate n b) = (n * Nat.b2n b)%nat.
Proof. unfold count_true. induction n as [|n IH]; cbn; [done|]. rewrite IH. lia. Qed.

Lemma count_le flags : (count_true flags <= length flags)%nat.
Proof. unfold count_true. induction flags as [|[] flags IH]; cbn; lia. Qed.

Lemma merge_levels_sources clobber into : forall from a b,
  exists ss ts, let '(levels, ns, na) := merge_levels clobber into from a b in
    sources same_syms into from ss levels /\ sources same_actions into from ts levels /\
    ns = (a + count_true ss)%nat /\ na = (b + count_true ts)%nat.
Proof.
  assert (forall lv, same_syms lv lv) as Hs by done. assert (forall lv, same_actions lv lv) as Ha by done.
  induction into as [|li into IH]; intros [|lf from] a b; cbn [merge_levels].
  - exists [], []. split; [by apply (sources_into same_syms [])|]. split; [by apply (sources_into same_actions [])|]. cbn. lia.
  - exists (replicate (length (lf :: from)) true), (replicate (length (lf :: from)) true).
    split; [by apply sources_from|]. split; [by apply sources_from|]. rewrite count_replicate. cbn. lia.
  - exists (replicate (length (li :: into)) false), (replicate (length (li :: into)) false).
    split; [by apply sources_into|]. split; [by apply sources_into|]. rewrite count_replicate. cbn. lia.
  - pose proof (merge_level_sources clobber li lf) as Hm. destruct (merge_level clobber li lf) as [[lv s] t]. destruct Hm as [Hms Hmt].
    destruct (IH from (a + Nat.b2n s)%nat (b + Nat.b2n t)%nat) as (ss & ts & H).
    destruct (merge_levels clobber into from _ _) as [[levels ns] na]. destruct H as (H1 & H2 & -> & ->).
    exists (s :: ss), (t :: ts). split; [by apply sources_cons|]. split; [by apply sources_cons|].
    unfold count_true. cbn. lia.
Qed.

Lemma sources_levels n into from ss ts levels : sources same_syms into from ss levels -> sources same_actions into from ts levels ->
  Forall (klevel_ok n) into -> Forall (klevel_ok n) from -> Forall (klevel_ok n) levels.
Proof.
  intros [Hl Hs] [Hl' Ht] Hi Hf. apply Forall_lookup_2. intros i lv Hlv.
  assert (is_Some (ss !! i)) as [b Hb] by (apply lookup_lt_is_Some_2; rewrite Hl; by eapply lookup_lt_Some).
  assert (is_Some (ts !! i)) as [c Hc] by (apply lookup_lt_is_Some_2; rewrite Hl'; by eapply lookup_lt_Some).
  destruct (Hs i lv b Hlv Hb) as (src & Hsrc & E1 & E2). destruct (Ht i lv c Hlv Hc) as (src' & Hsrc' & E3).
  assert (forall (d : bool) x, (if d then from else into) !! i = Some x -> klevel_ok n x) as Hall.
  { intros [] x Hx; [exact (Forall_lookup_1 _ _ _ _ Hf Hx)|exact (Forall_lookup_1 _ _ _ _ Hi Hx)]. }
  split; [rewrite E1, E2; by apply (Hall b)|rewrite E3; by apply (Hall c)].
Qed.

(** A property of the sources. *)
Lemma sources_all (R : xkb_level -> xkb_level -> Prop) (P : xkb_level -> Prop) into from flags levels :
  (forall lv src, R lv src -> P src -> P lv) -> sources R into from flags levels ->
  (count_true flags <> length levels -> Forall P into) -> (count_true flags <> 0%nat -> Forall P from) -> Forall P levels.
Proof.
  intros HP [Hl Hs] Hi Hf. apply Forall_lookup_2. intros i lv Hlv.
  assert (is_Some (flags !! i)) as [b Hb] by (apply lookup_lt_is_Some_2; rewrite Hl; by eapply lookup_lt_Some).
  destruct (Hs i lv b Hlv Hb) as (src & Hsrc & HR). apply (HP lv src HR).
  assert (count_true flags <> (if b then 0 else length levels))%nat as Hne.
  { rewrite <- Hl. clear -Hb. revert i Hb. unfold count_true. induction flags as [|f flags IH]; intros [|i] Hb; cbn in *; try done.
    - injection Hb as ->. pose proof (count_le flags). unfold count_true in *. destruct b; cbn; lia.
    - specialize (IH i Hb). pose proof (count_le flags). unfold count_true in *. destruct b, f; cbn; lia. }
  destruct b; [exact (Forall_lookup_1 _ _ _ _ (Hf Hne) Hsrc)|exact (Forall_lookup_1 _ _ _ _ (Hi Hne) Hsrc)].
Qed.

(** *** The flags *)

Lemma merged_flag_levels field count from into : gr_levels (merged_flag field count from into) = gr_levels into.
Proof. unfold merged_flag. destruct (Nat.eqb count 0); [done|]. by destruct (Nat.eqb count _). Qed.

Lemma merged_flag_same k count from into : 0 <= k ->
  has_flag (gr_defined (merged_flag (bit k) count from into)) (bit k) =
  (negb (Nat.eqb count (length (gr_levels into))) || Nat.eqb count 0) && has_flag (gr_defined into) (bit k) ||
  negb (Nat.eqb count 0) && has_flag (gr_defined from) (bit k).
Proof.
  intros Hk. unfold merged_flag. destruct (Nat.eqb count 0); cbn [negb andb orb]; [by rewrite orb_true_r, orb_false_r|].
  rewrite !has_flag_bit by done. destruct (Nat.eqb count _); cbn;
    rewrite ?Z.lor_spec, ?Z.land_spec, ?Z.ldiff_spec, !bit_spec, Z.eqb_refl by done; cbn;
    by rewrite ?andb_false_r, ?andb_true_r.
Qed.

Lemma merged_flag_other k k' count from into : 0 <= k -> 0 <= k' -> k <> k' ->
  has_flag (gr_defined (merged_flag (bit k) count from into)) (bit k') = has_flag (gr_defined into) (bit k').
Proof.
  intros Hk Hk' Hne. unfold merged_flag. destruct (Nat.eqb count 0); [done|].
  rewrite !has_flag_bit by done. assert ((k =? k') = false) as E by (by apply Z.eqb_neq).
  destruct (Nat.eqb count _); cbn; rewrite ?Z.lor_spec, ?Z.land_spec, ?Z.ldiff_spec, !bit_spec, E by done; cbn;
    by rewrite ?andb_true_r, ?andb_false_r, ?orb_false_r.
Qed.

Lemma define_type_flag g d field : 0 <= field < 2 ->
  has_flag (gr_defined (gr_define (Z.land d GROUP_FIELD_TYPE) g)) (bit field) = has_flag (gr_defined g) (bit field).
Proof.
  intros Hf. rewrite !has_flag_bit by lia. cbn. change GROUP_FIELD_TYPE with (bit 2).
  rewrite Z.lor_spec, Z.land_spec, bit_spec by lia. replace (2 =? field) with false by lia. by rewrite andb_false_r, orb_false_r.
Qed.

Lemma MergeGroups_ok n into from clobber : kgroup_ok n into -> kgroup_ok n from -> kgroup_ok n (MergeGroups into from clobber).
Proof.
  intros Hi Hf. unfold MergeGroups.
  set (typed := if gr_type into =? gr_type from then into else _).
  assert (gr_levels typed = gr_levels into /\ gr_defined typed = gr_defined into) as [Htl Htd].
  { unfold typed. repeat case_match; done. }
  set (i2 := gr_define _ typed).
  assert (kgroup_ok n i2) as Hi2.
  { split.
    - change (gr_levels i2) with (gr_levels typed). rewrite Htl. apply Hi.
    - unfold i2. change GROUP_FIELD_SYMS with (bit 0). rewrite define_type_flag by lia. cbn. rewrite Htl, Htd. apply Hi.
    - unfold i2. change GROUP_FIELD_ACTS with (bit 1). rewrite define_type_flag by lia. cbn. rewrite Htl, Htd. apply Hi. }
  clearbody i2. clear typed Htl Htd Hi into. destruct (gr_levels from) as [|lf lfs] eqn:Ef; [by destruct (gr_levels i2)|].
  destruct (gr_levels i2) as [|li lis] eqn:Ei; [split; apply Hf|]. rewrite <- Ef, <- Ei.
  destruct (merge_levels_sources clobber (gr_levels i2) (gr_levels from) 0 0) as (ss & ts & H).
  destruct (merge_levels _ _ _ _ _) as [[levels ns] na]. destruct H as (Hs & Ht & -> & ->). cbn [Nat.add].
  change GROUP_FIELD_ACTS with (bit 1) in *. change GROUP_FIELD_SYMS with (bit 0) in *.
  pose proof (gk_syms _ _ Hi2) as Ss. pose proof (gk_syms _ _ Hf) as Sf. pose proof (gk_actions _ _ Hi2) as As. pose proof (gk_actions _ _ Hf) as Af.
  change GROUP_FIELD_ACTS with (bit 1) in *. change GROUP_FIELD_SYMS with (bit 0) in *.
  split; rewrite ?merged_flag_levels; cbn [gr_levels gr_set_levels];
    change GROUP_FIELD_ACTS with (bit 1); change GROUP_FIELD_SYMS with (bit 0).
  - eapply sources_levels; [done..|apply Hi2|apply Hf].
  - rewrite merged_flag_other, merged_flag_same by lia. cbn [gr_levels gr_set_levels gr_defined]. intros [H1 H2]%orb_false_iff.
    eapply (sources_all same_syms); [|exact Hs| |].
    + intros lv src [E _] Hn. unfold without_syms in *. by rewrite E.
    + intros Hc. apply Ss. rewrite (proj2 (Nat.eqb_neq _ _) Hc) in H1. done.
    + intros Hc. apply Sf. rewrite (proj2 (Nat.eqb_neq _ _) Hc) in H2. done.
  - rewrite merged_flag_same by lia. rewrite merged_flag_other, merged_flag_levels by lia. cbn [gr_levels gr_set_levels gr_defined]. intros [H1 H2]%orb_false_iff.
    eapply (sources_all same_actions); [|exact Ht| |].
    + intros lv src E Hn. unfold without_actions in *. by rewrite E.
    + intros Hc. apply As. rewrite (proj2 (Nat.eqb_neq _ _) Hc) in H1. done.
    + intros Hc. apply Af. rewrite (proj2 (Nat.eqb_neq _ _) Hc) in H2. done.
Qed.

Lemma merge_groups_ok n clobber into : forall from, Forall (kgroup_ok n) into -> Forall (kgroup_ok n) from ->
  Forall (kgroup_ok n) (merge_groups clobber into from) /\
  length (merge_groups clobber into from) = Nat.max (length into) (length from).
Proof.
  induction into as [|g into IH]; intros [|f from] Hi Hf; cbn [merge_groups]; try (split; [done|cbn; lia]).
  apply list.Forall_cons in Hi as [Hg Hi]. apply list.Forall_cons in Hf as [Hff Hf]. destruct (IH from Hi Hf) as [H1 H2].
  split; [constructor; [by apply MergeGroups_ok|done]|cbn; lia].
Qed.

(** ** Overlays

    Those of a key that no entry sets to [none]. *)

(** Whether overlays can overlap, and the number of keys. *)
Record overlay_context := mk_overlay_context {
  oc_overlapping : bool;
  oc_num_keys : nat
}.

Definition info_overlays (info : keymap_info) : overlay_context :=
  mk_overlay_context (overlapping_overlays info) (length (ki_keys info)).

Definition known_key (oc : overlay_context) (key : option nat) : Prop := exists i, key = Some i /\ (i < oc_num_keys oc)%nat.

Record kov_ok (oc : overlay_context) (o : overlays_info) : Prop := {
  kv_ok : ov_ok o;
  kv_mask : ov_mask o <> 0;
  kv_keys : forall b key, ov_get o b = Some key -> known_key oc key;
  kv_inline : oc_overlapping oc = false -> ov_alloc o = 0%nat
}.

Lemma mask_has_overlay m : 0 <= m < 256 -> m <> 0 -> exists b, (b < 8)%nat /\ has_overlay m b = true.
Proof.
  intros Hm Hz. pose proof (check_masks (fun m => (m =? 0) || existsb (has_overlay m) (seq 0 8)) m ltac:(reflexivity) Hm) as H.
  cbn beta in H. apply Z.eqb_neq in Hz. rewrite Hz in H. apply existsb_exists in H as (b & Hb%in_seq & Hh). exists b. split; [lia|done].
Qed.

Lemma kov_clear oc o : kov_ok oc o -> ov_clear o = false.
Proof.
  intros [Hok Hz Hn _]. destruct (ov_clear o) eqn:Hc; [|done].
  destruct (mask_has_overlay (ov_mask o) (proj1 Hok) Hz) as (b & Hb & Hh). destruct (Hn b None) as (i & [=] & _).
  unfold ov_get. rewrite Hc, Hh. by rewrite (proj2 (Nat.ltb_lt _ _) Hb).
Qed.

(** Keys for some overlays, and no null key. *)
Lemma kov_of_get oc o b : ov_ok o -> is_Some (ov_get o b) -> (forall b key, ov_get o b = Some key -> known_key oc key) ->
  (oc_overlapping oc = false -> ov_alloc o = 0%nat) -> kov_ok oc o.
Proof.
  intros Hok [k Hk] Hn Ha. split; [done| |done..]. intros Hz. rewrite get_no_overlay in Hk by done. done.
Qed.

Lemma insert_overlay_ok oc o b key : oc_overlapping oc = true -> ov_ok o -> (forall b key, ov_get o b = Some key -> known_key oc key) ->
  (b < 8)%nat -> (key < oc_num_keys oc)%nat ->
  exists o', overlays_insert o b (Some key) = Ok (Some o') /\ kov_ok oc o'.
Proof.
  intros Ho Hok Hn Hb Hk. destruct (overlays_insert_ok o b (Some key) Hok Hb) as (o' & -> & Hok' & _ & _ & Hg).
  exists o'. split; [done|]. apply (kov_of_get oc o' b); [done| | |by rewrite Ho].
  - rewrite Hg. unfold set_overlay. rewrite Nat.eqb_refl. eauto.
  - intros b' key'. rewrite Hg. unfold set_overlay. destruct (Nat.eqb b b'); [|apply Hn]. intros [= <-]. by exists key.
Qed.

Lemma merge_overlays_kept oc into from clobber : kov_ok oc into -> kov_ok oc from ->
  exists o c, merge_overlays (oc_overlapping oc) (Some into) (Some from) clobber false = Ok (Some (Some o, c)) /\ kov_ok oc o.
Proof.
  intros Hi Hf. pose proof (kov_clear _ _ Hi) as Ci. pose proof (kov_clear _ _ Hf) as Cf. unfold merge_overlays. rewrite Ci, Cf. cbn [andb].
  destruct (oc_overlapping oc) eqn:Eoc.
  - assert (merged clobber false into from (merge_overlapping into from clobber false)) as (o & -> & Hok & Hg).
    { apply merge_overlapping_ok; try apply Hi; try apply Hf; unfold cleared_grows; by rewrite Ci. }
    cbn. do 2 eexists. split; [done|]. destruct (mask_has_overlay (ov_mask into) (proj1 (kv_ok _ _ Hi)) (kv_mask _ _ Hi)) as (b & Hb & Hh).
    apply (kov_of_get oc o b); [done| | |by rewrite Eoc].
    + rewrite Hg. destruct (ov_get_some into b Hh Hb) as [k ->]. cbn. destruct (ov_get from b); eauto.
    + intros b' key. rewrite Hg. pose proof (kv_keys _ _ Hi b') as Ki. pose proof (kv_keys _ _ Hf b') as Kf.
      destruct (ov_get into b') as [x|], (ov_get from b') as [y|]; cbn; try done; [|intros [= <-]; auto..].
      destruct (Ki x eq_refl) as (i & -> & ?), (Kf y eq_refl) as (j & -> & ?). cbn. destruct clobber; intros [= <-]; by eexists.
  - unfold merge_disjoint. rewrite Ci, Cf. cbv zeta.
    assert (forall c (d : bool), exists o c', Ok (Some (Some (fst (if d then from else into, c)), snd (if d then from else into, c : bool)))
      = Ok (Some (Some o, c')) /\ kov_ok oc o) as Hpick.
    { intros c d. do 2 eexists. split; [done|]. by destruct d. }
    repeat case_match; try (by apply (Hpick _ false)); try (by apply (Hpick _ true)); try (by apply Hpick).
Qed.

Lemma steal_overlays oc o : kov_ok oc o -> mk_overlays (ov_mask o) false (ov_storage o) = o.
Proof. intros Ho. pose proof (kov_clear _ _ Ho) as Hc. destruct o. cbn in *. by subst. Qed.

(** ** Keys *)

Record keyi_ok (oc : overlay_context) (n : nat) (k : KeyInfo) : Prop := {
  kk_groups : Forall (kgroup_ok n) (kf_groups k);
  kk_num_groups : (length (kf_groups k) <= 32)%nat;
  kk_number : 0 <= kf_group_number k;
  kk_pending : kf_pending_group k = true -> kf_group_number k < Z.of_nat n;
  kk_overlays : forall o, kf_overlays k = Some o -> kov_ok oc o
}.

Lemma keyi_ok_mono oc n n' k : (n <= n')%nat -> keyi_ok oc n k -> keyi_ok oc n' k.
Proof.
  intros Hn [H1 H2 H3 H4 H5]. split; [|done|done| |done].
  - eapply list.Forall_impl; [exact H1|]. intros g. by apply kgroup_ok_mono.
  - intros Hp. specialize (H4 Hp). lia.
Qed.

Lemma init_keyi_ok oc n ctx : keyi_ok oc n (InitKeyInfo ctx).
Proof. split; cbn; [constructor|lia|lia|done|done]. Qed.

Lemma merge_key_fields_ok oc n into from clobber : keyi_ok oc n into -> keyi_ok oc n from ->
  keyi_ok oc n (merge_key_fields into from clobber) /\ kf_overlays (merge_key_fields into from clobber) = kf_overlays into /\
  kf_name (merge_key_fields into from clobber) = kf_name into.
Proof.
  intros Hi Hf. destruct (merge_groups_ok n clobber (kf_groups into) (kf_groups from) (kk_groups _ _ _ Hi) (kk_groups _ _ _ Hf)) as [Hg Hl].
  pose proof (kk_num_groups _ _ _ Hi). pose proof (kk_num_groups _ _ _ Hf).
  assert (forall field set k, (forall k, keyi_ok oc n k -> keyi_ok oc n (set k) /\ kf_overlays (set k) = kf_overlays k /\ kf_name (set k) = kf_name k) ->
    keyi_ok oc n k /\ kf_overlays k = kf_overlays into /\ kf_name k = kf_name into ->
    keyi_ok oc n (merge_key_field field from clobber set k) /\ kf_overlays (merge_key_field field from clobber set k) = kf_overlays into /\
    kf_name (merge_key_field field from clobber set k) = kf_name into) as Hstep.
  { intros field set k Hset [Hk [Ho Hn]]. unfold merge_key_field. destruct (UseNewKeyField _ _ _ _); [|done].
    destruct (Hset k Hk) as [[A1 A2 A3 A4 A5] [A6 A7]]. split; [by split|]. split; [by rewrite <- Ho, <- A6|by rewrite <- Hn, <- A7]. }
  unfold merge_key_fields. apply Hstep.
  { intros k [A1 A2 A3 A4 A5]. split; [|done]. split; cbn; try done; apply Hf. }
  do 3 (apply Hstep; [intros k [A1 A2 A3 A4 A5]; split; [by split|done]|]).
  split; [|done]. destruct Hi as [A1 A2 A3 A4 A5]. split; cbn; try done. lia.
Qed.

Section merge.
Context (info : keymap_info).
Let oc := info_overlays info.

Lemma MergeKeys_ok n into from : keyi_ok oc n into -> keyi_ok oc n from -> kf_name from = kf_name into ->
  exists k, MergeKeys info into from = Ok (true, k) /\ keyi_ok oc n k /\ kf_name k = kf_name into /\
    (kf_overlays into = None -> kf_overlays from = None -> kf_overlays k = None).
Proof.
  intros Hi Hf Hn. unfold MergeKeys. cbv zeta.
  assert (forall clobber, exists k, (let+ o := merge_overlays (overlapping_overlays info) (kf_overlays (merge_key_fields into from clobber))
      (kf_overlays from) clobber false in
      Ok (match o with Some (overlays, _) => (true, kf_set_overlays overlays (merge_key_fields into from clobber))
          | None => (false, merge_key_fields into from clobber) end)) = Ok (true, k) /\ keyi_ok oc n k /\ kf_name k = kf_name into /\
      (kf_overlays into = None -> kf_overlays from = None -> kf_overlays k = None)) as H.
  { intros clobber. destruct (merge_key_fields_ok oc n into from clobber Hi Hf) as (Hk & Ho & Hkn).
    set (k := merge_key_fields into from clobber) in *. rewrite Ho.
    assert (forall o, (forall o', o = Some o' -> kov_ok oc o') -> keyi_ok oc n (kf_set_overlays o k)) as Hset.
    { intros o Hov. destruct Hk as [A1 A2 A3 A4 A5]. by split. }
    destruct (kf_overlays from) as [f|] eqn:Ef.
    - pose proof (kk_overlays _ _ _ Hf f Ef) as Hff. destruct (kf_overlays into) as [i|] eqn:Ei.
      + pose proof (kk_overlays _ _ _ Hi i Ei) as Hii. destruct (merge_overlays_kept oc i f clobber Hii Hff) as (o & c & Hm & Hov).
        change (oc_overlapping oc) with (overlapping_overlays info) in Hm. rewrite Hm. clear Hm.
        cbn. eexists. split; [done|]. split; [apply Hset; by intros o' [= <-]|done].
      + cbn. eexists. split; [done|]. rewrite (steal_overlays _ _ Hff). split; [apply Hset; by intros o' [= <-]|done].
    - assert (merge_overlays (overlapping_overlays info) (kf_overlays into) None clobber false = Ok (Some (kf_overlays into, false))) as ->
        by (by destruct (kf_overlays into)).
      cbn. eexists. split; [done|]. split; [apply Hset; intros o' Ho'; by apply (kk_overlays _ _ _ Hi)|done]. }
  destruct (kf_merge from); [apply H..|]. exists from. done.
Qed.

(** Keys of distinct names. *)
Record keys_ok (n : nat) (keys : list KeyInfo) : Prop := {
  ko_keys : Forall (keyi_ok oc n) keys;
  ko_names : NoDup (map kf_name keys)
}.

Lemma AddKeySymbols_ok n keys k : keys_ok n keys -> keyi_ok oc n k ->
  exists keys', AddKeySymbols info keys k = Ok (true, keys') /\ keys_ok n keys'.
Proof.
  intros [Hk Hn] Hi. unfold AddKeySymbols. cbv zeta. set (k' := kf_set_name _ k).
  assert (keyi_ok oc n k') as Hi' by (destruct Hi; by split). clearbody k'.
  destruct (list_find _ keys) as [[i iter]|] eqn:E.
  - apply list_find_Some in E as (Hiter & Hname & _). pose proof (Forall_lookup_1 _ _ _ _ Hk Hiter) as Hit.
    destruct (MergeKeys_ok n iter k' Hit Hi' ltac:(done)) as (m & -> & Hm & Hmn & _). cbn. eexists. split; [done|].
    split; [by apply Forall_insert|]. change (map kf_name (<[i:=m]> keys)) with (kf_name <$> <[i:=m]> keys). rewrite list_fmap_insert.
    rewrite list_insert_id; [done|]. rewrite list_lookup_fmap, Hiter. cbn. by rewrite Hmn.
  - cbn. eexists. split; [done|]. split; [apply list.Forall_app; split; [done|by constructor]|].
    change (map ?f ?l) with (f <$> l). rewrite fmap_app. apply list.NoDup_app. split; [done|]. split; [|by apply list.NoDup_singleton].
    intros x Hx ->%list_elem_of_singleton. apply list_find_None in E. apply list_elem_of_fmap in Hx as (y & Hy & Hin).
    rewrite list.Forall_forall in E. by apply (E y Hin).
Qed.

Lemma keys_ok_mono n n' keys : (n <= n')%nat -> keys_ok n keys -> keys_ok n' keys.
Proof. intros Hn [H1 H2]. split; [|done]. eapply list.Forall_impl; [exact H1|]. intros k. by apply keyi_ok_mono. Qed.
End merge.
