(* ===== verification/SymbolsSpec.v ===== *)
(** * Fields and statements of symbols sections

    The fields of a key are set in bounds, except by an index that resolves to
    zero; the statements keep the invariants of the keys being compiled. *)

From Stdlib Require Import ZArith Lia String.
From stdpp Require Import base tactics list numbers.
From S2P Require Import Prelude Numbers Atom AtomSpec Keymap KeysymNames KeysymName Expr ExprSpec Vmod VmodSpec KeyAliases Derived DerivedInv SymOverlays SymOverlaysSpec Actions Sections Safe ActionsSpec Keycodes Types Compat CompatStore CompatSpec Symbols SymbolsInv.

(** ** Fields that are well formed *)

(** An index that is not resolved to 0, which is accepted then decremented. *)
Definition nonzero_index (info : keymap_info) (e : ExprDef) : Prop :=
  forall b, ExprResolveGroup (ki_group_info info) e false false <> Ok (PARSER_SUCCESS 0, b).

(** The value [none] of an overlay. *)
Definition sets_none (ctx : atom_table) (value : ExprDef) : Prop :=
  match value with
  | STMT_EXPR_IDENT ident => exists id, xkb_atom_text ctx ident = Ok (Some id) /\ name_is id "none" = true
  | _ => False
  end.

Record plain_field (info : keymap_info) (field : list Z) (ndx : option ExprDef) (value : ExprDef) : Prop := {
  pf_index : match ndx with Some e => expr_wf (ki_ctx info) e /\ nonzero_index info e | None => True end;
  pf_overlay : is_prefix "overlay" field = true -> ~ sets_none (ki_ctx info) value
}.

(** The lists of the levels: all of keysyms, none of which is [NoSymbol], or all
    of actions. *)
Definition is_keysyms (e : ExprDef) : Prop :=
  match e with STMT_EXPR_KEYSYM_LIST syms => Forall (fun sym => sym <> XKB_KEY_NoSymbol) syms | _ => False end.
Definition is_actions (ctx : atom_table) (e : ExprDef) : Prop :=
  match e with STMT_EXPR_ACTION_LIST actions => Forall (expr_wf ctx) actions | _ => False end.

Definition lists_wf (ctx : atom_table) (value : ExprDef) (next : list ExprDef) : Prop :=
  match value with
  | STMT_EXPR_KEYSYM_LIST _ => Forall is_keysyms (value :: next)
  | STMT_EXPR_ACTION_LIST _ => Forall (is_actions ctx) (value :: next)
  | _ => True
  end.

Definition list_pendings (e : ExprDef) : nat :=
  match e with STMT_EXPR_ACTION_LIST acts => acts_pendings acts | _ => 0 end.

(** What a field may add to the pending computations. *)
Definition value_pendings (value : ExprDef) (next : list ExprDef) : nat :=
  S (expr_pendings value + sum_list_with list_pendings next).

Lemma resize0_Forall {A} (P : A -> Prop) zero l n : P zero -> Forall P l -> Forall P (resize0 zero l n).
Proof. intros Hz Hl. unfold resize0. apply list.Forall_app. split; [done|]. by apply Forall_replicate. Qed.

Lemma length_resize0 {A} (zero : A) l n : length (resize0 zero l n) = Nat.max (length l) (Z.to_nat n).
Proof. unfold resize0. rewrite length_app, length_replicate. lia. Qed.

Lemma resized_Forall {A} (P : A -> Prop) zero l n : P zero -> Forall P l -> Forall P (resized zero l n).
Proof. intros Hz Hl. unfold resized. apply resize0_Forall; [done|]. by apply list.Forall_take. Qed.

Lemma resized_length {A} (zero : A) l n : length (resized zero l n) = Z.to_nat n.
Proof. unfold resized. rewrite length_resize0, length_take. lia. Qed.

Lemma parse_dec_loop_nonneg max s : Forall is_char s -> forall len i v, 0 <= v -> 0 <= snd (parse_dec_loop max s len i v).
Proof.
  induction 1 as [|c s Hc _ IH]; intros [|len] i v Hv; cbn [parse_dec_loop]; try done.
  destruct (_ && _) eqn:E; [|done]. apply IH. apply andb_true_iff in E as [[H%Z.ltb_lt _]%andb_true_iff _].
  destruct (dec_digit_char c Hc) as [Hd He]. rewrite (proj2 (Z.ltb_lt _ _) H) in Hd. specialize (He (eq_sym Hd)).
  assert (0 <= dec_digit c) by apply Z.mod_pos_bound, eq_refl. lia.
Qed.

Section fields.
Context (info : keymap_info) (defaults : ActionsInfo) (mods : xkb_mod_set).
Hypothesis (Hmods : vmods_ok mods) (Hreads : reads_ok info mods).
Let ctx := ki_ctx info.
Let oc := info_overlays info.

(** *** Groups *)

Lemma group_index_safe e : expr_wf ctx e -> nonzero_index info e ->
  safe (fun r => forall ndx, fst r = PARSER_SUCCESS ndx -> 1 <= ndx <= ki_max_groups info)
    (ExprResolveGroup (ki_group_info info) e false false).
Proof using Hreads.
  intros Hw Hn. destruct (ExprResolveGroup (ki_group_info info) e false false) as [[r b]|f] eqn:E; cbn.
  - intros ndx ->. assert (ndx <> 0) as Hz by (intros ->; by apply (Hn b)).
    pose proof (rd_max _ _ Hreads) as Hmax. unfold ExprResolveGroup in E. cbn [gi_max_groups ki_group_info] in E.
    destruct (ExprResolveIntegerLookup _ e) as [[v| |]|]; cbn in E; try done;
      [|destruct (has_flag _ _); discriminate..].
    destruct (Z.ltb_spec v 0); cbn [orb] in E; [destruct (has_flag _ _); discriminate|].
    destruct (Z.gtb_spec v (ki_max_groups info)); [destruct (has_flag _ _); discriminate|].
    injection E as <- <-. rewrite u32_id in *; unfold is_u32; lia.
  - refine (resolve_group_faults (ki_group_info info) e false false _ _ f E); [by apply expr_wf_ok|apply (rd_max _ _ Hreads)].
Qed.

Lemma first_group_spec field groups : forall i k, first_group_without field groups i = Some k ->
  i <= k < i + Z.of_nat (length groups).
Proof using Type.
  induction groups as [|g groups IH]; intros i k H; cbn [first_group_without length] in *; [done|].
  destruct (has_flag _ _); [apply IH in H; lia|]. injection H as <-. lia.
Qed.

Lemma group_index_ok n groups ndx field : Forall (kgroup_ok n) groups -> (length groups <= 32)%nat ->
  match ndx with Some e => expr_wf ctx e /\ nonzero_index info e | None => True end ->
  safe (fun r => forall gs i, r = Some (gs, i) -> Forall (kgroup_ok n) gs /\ (length gs <= 32)%nat /\ 0 <= i < Z.of_nat (length gs))
    (GetGroupIndex info groups ndx field).
Proof using Hreads.
  intros Hg Hl Hn. unfold GetGroupIndex. pose proof (rd_max _ _ Hreads) as Hmax. destruct ndx as [e|].
  - destruct Hn as [Hw Hnz]. eapply safe_bind; [by apply group_index_safe|]. intros [r b] Hr. cbn [fst] in *.
    destruct r as [g| |]; try done. intros gs i. specialize (Hr g eq_refl). rewrite (u32_id (g - 1)) by (unfold is_u32; lia).
    rewrite (u32_id (g - 1 + 1)) by (unfold is_u32; lia). intros [= <- <-]. destruct (Z.geb_spec (g - 1) (Z.of_nat (length groups))).
    + rewrite resized_length. split; [apply resized_Forall; [apply init_group_ok|done]|]. lia.
    + split; [done|]. split; [done|]. lia.
  - destruct (first_group_without field groups 0) as [k|] eqn:E.
    + intros gs i [= <- <-]. apply first_group_spec in E. split; [done|]. split; [done|]. lia.
    + destruct (Z.geb_spec (Z.of_nat (length groups)) (ki_max_groups info)); [done|]. intros gs i [= <- <-].
      rewrite resized_length. split; [apply resized_Forall; [apply init_group_ok|done]|]. lia.
Qed.

Lemma at_group_ok {A} (P : GroupInfo -> Prop) (Q : A -> Prop) groups ndx (f : GroupInfo -> result (A * GroupInfo)) :
  Forall P groups -> 0 <= ndx < Z.of_nat (length groups) -> (forall g, P g -> safe (fun r => P (snd r) /\ Q (fst r)) (f g)) ->
  safe (fun r => Forall P (snd r) /\ length (snd r) = length groups /\ Q (fst r)) (at_group groups ndx f).
Proof using Type.
  intros Hg Hn Hf. unfold at_group. destruct (item_of_nat groups ndx Hn) as [g Hi]. rewrite Hi.
  eapply safe_bind; [apply Hf; by eapply item_Forall|]. intros [a g'] [H1 H2]. cbn [fst snd] in *.
  cbn. split; [by apply Forall_insert|]. split; [by rewrite length_insert|done].
Qed.

(** *** Symbols *)

Lemma keysym_lists_ok l : Forall is_keysyms l ->
  exists lists, keysym_lists l = Ok lists /\ Forall (Forall (fun sym => sym <> XKB_KEY_NoSymbol)) lists.
Proof using Type.
  induction 1 as [|e l He _ IH]; cbn [keysym_lists]; [by exists []|]. destruct e; try done. destruct IH as (lists & -> & Hl).
  cbn. eexists. split; [done|by constructor].
Qed.

Lemma non_empty_Forall {A} (P : list A -> Prop) lists : Forall P lists -> Forall P (non_empty_levels lists).
Proof using Type.
  induction 1 as [|l lists Hl _ IH]; cbn [non_empty_levels]; [constructor|]. destruct l, (non_empty_levels lists); by constructor.
Qed.

Lemma set_levels_syms_ok n lists : Forall (Forall (fun sym => sym <> XKB_KEY_NoSymbol)) lists -> forall levels,
  (length lists <= length levels)%nat -> Forall (klevel_ok n) levels -> Forall without_syms levels ->
  exists b levels', set_levels_syms levels lists = Ok (b, levels') /\ Forall (klevel_ok n) levels' /\
    (Forall without_actions levels -> Forall without_actions levels').
Proof using Type.
  induction 1 as [|syms lists Hs _ IH]; intros levels Hlen Hk Hn; cbn [set_levels_syms]; [by exists true, levels|].
  destruct levels as [|lv levels]; [cbn in Hlen; lia|]. apply list.Forall_cons in Hk as [Hlv Hk]. apply list.Forall_cons in Hn as [Hz Hn].
  rewrite Hz. cbn [Nat.eqb asserting]. destruct (_ >? MAX_KEYSYMS_PER_LEVEL).
  { exists false, (lv :: levels). split; [done|]. split; [by constructor|done]. }
  assert (forallb (fun sym => negb (sym =? XKB_KEY_NoSymbol)) syms = true) as ->.
  { apply forallb_forall. intros s Hin%list_elem_of_In. rewrite list.Forall_forall in Hs. apply negb_true_iff, Z.eqb_neq. by apply Hs. }
  cbn [asserting]. destruct (IH levels) as (b & levels' & -> & Hk' & Ha); [cbn in Hlen; lia|done|done|]. cbn [result_bind fst snd].
  exists b, (level_set_syms syms lv :: levels'). split; [done|]. split; [constructor; [split; [done|apply Hlv]|done]|].
  intros [Hl Hls]%list.Forall_cons. constructor; [done|by apply Ha].
Qed.

Lemma group_defined n g field k : 0 <= k < 2 -> field = bit k -> has_flag (gr_defined (gr_define field g)) (bit k) = true /\
  (forall k', 0 <= k' -> k' <> k -> has_flag (gr_defined (gr_define field g)) (bit k') = has_flag (gr_defined g) (bit k')) /\
  (kgroup_ok n g -> kgroup_ok n (gr_define field g)).
Proof using Type.
  intros Hk ->.
  assert (has_flag (gr_defined (gr_define (bit k) g)) (bit k) = true) as Hs.
  { rewrite has_flag_bit by lia. cbn. rewrite Z.lor_spec, bit_spec, Z.eqb_refl by lia. by rewrite orb_true_r. }
  assert (forall k', 0 <= k' -> k' <> k -> has_flag (gr_defined (gr_define (bit k) g)) (bit k') = has_flag (gr_defined g) (bit k')) as Ho.
  { intros k' Hk' Hne. rewrite !has_flag_bit by lia. cbn. rewrite Z.lor_spec, bit_spec by lia.
    replace (k =? k') with false by (symmetry; apply Z.eqb_neq; lia). by rewrite orb_false_r. }
  split; [done|]. split; [done|]. intros [A1 A2 A3]. split; [done| |].
  - change GROUP_FIELD_SYMS with (bit 0) in *. intros H. apply A2. destruct (decide (k = 0)) as [->|]; [congruence|].
    rewrite Ho in H by lia. done.
  - change GROUP_FIELD_ACTS with (bit 1) in *. intros H. apply A3. destruct (decide (k = 1)) as [->|]; [congruence|].
    rewrite Ho in H by lia. done.
Qed.

Lemma add_group_symbols_ok n value next g : kgroup_ok n g -> lists_wf ctx value next ->
  exists b g', add_group_symbols value next g = Ok (b, g') /\ kgroup_ok n g'.
Proof using Type.
  intros Hg Hw. destruct (group_defined n g GROUP_FIELD_SYMS 0 ltac:(lia) eq_refl) as (Hs & Ho & Hd).
  unfold add_group_symbols. destruct value; try (by exists false, g); [by exists true, (gr_define GROUP_FIELD_SYMS g); split; [|apply Hd]|].
  destruct (has_flag (gr_defined g) GROUP_FIELD_SYMS) eqn:Hdef; [by exists false, g|]. destruct (keysym_lists_ok _ Hw) as (lists & -> & Hl).
  cbn [result_bind]. destruct Hg as [A1 A2 A3]. specialize (A2 Hdef).
  destruct (set_levels_syms_ok n (non_empty_levels lists) (non_empty_Forall _ _ Hl)
    (resize0 zero_level (gr_levels g) (Z.of_nat (length (non_empty_levels lists))))) as (b & levels & -> & Hk & Ha).
  { rewrite length_resize0. lia. }
  { apply resize0_Forall; [apply zero_level_ok|done]. }
  { by apply resize0_Forall. }
  cbn [result_bind fst snd]. exists b. eexists. split; [done|]. split; [done| |].
  - intros H. exfalso. change GROUP_FIELD_SYMS with (bit 0) in *. cbn in Hs, H. congruence.
  - intros H. apply Ha, resize0_Forall; [done|]. apply A3. change GROUP_FIELD_ACTS with (bit 1) in *. rewrite <- (Ho 1) by lia. done.
Qed.

Lemma set_groups_ok n k gs : keyi_ok oc n k -> Forall (kgroup_ok n) gs -> (length gs <= 32)%nat ->
  keyi_ok oc n (kf_set_groups gs k).
Proof using Type. intros [A1 A2 A3 A4 A5] Hg Hl. by split. Qed.

(** The key after a field. *)
Definition same_but_groups (k k' : KeyInfo) : Prop := kf_name k' = kf_name k /\ kf_overlays k' = kf_overlays k.

Lemma AddSymbolsToKey_ok n k ndx value next : keyi_ok oc n k -> lists_wf ctx value next ->
  match ndx with Some e => expr_wf ctx e /\ nonzero_index info e | None => True end ->
  safe (fun r => keyi_ok oc n (snd r) /\ same_but_groups k (snd r)) (AddSymbolsToKey info k ndx value next).
Proof using Hreads.
  intros Hk Hw Hn. unfold AddSymbolsToKey.
  eapply safe_bind; [apply (group_index_ok n); [apply Hk|apply Hk|done]|]. intros [[gs i]|] H; [|done].
  destruct (H gs i eq_refl) as (Hg & Hl & Hi).
  eapply safe_bind; [apply (at_group_ok (kgroup_ok n) (fun _ => True)); [done|done|]|].
  - intros g Hgg. by destruct (add_group_symbols_ok n value next g Hgg Hw) as (b & g' & -> & Hg').
  - intros [b gs'] (Hg' & Hl' & _). cbn [fst snd] in *. split; [apply set_groups_ok; [done|done|lia]|done].
Qed.

(** *** Actions *)

Lemma action_lists_ok l : Forall (is_actions ctx) l ->
  exists lists, action_lists l = Ok lists /\ Forall (Forall (expr_wf ctx)) lists /\
    sum_list_with acts_pendings lists = sum_list_with list_pendings l.
Proof using Type.
  induction 1 as [|e l He _ IH]; cbn [action_lists]; [by exists []|]. destruct e; try done. destruct IH as (lists & -> & Hl & Hs).
  cbn. eexists. split; [done|]. split; [by constructor|]. cbn. by rewrite Hs.
Qed.

Lemma parsed_level_ok n lv l : klevel_ok n lv -> Forall (typed_action n) l -> klevel_ok n (lv_set_actions (map union_action l) lv).
Proof using Type.
  intros [H1 _] Hl. split; [done|]. cbn. change (map union_action l) with (union_action <$> l). by rewrite list.Forall_fmap.
Qed.

Lemma set_levels_actions_ok lists : Forall (Forall (expr_wf ctx)) lists -> forall ps levels level m,
  defaults_ok (length ps) defaults -> pending_room ps (sum_list_with acts_pendings lists) ->
  (length lists <= length levels)%nat -> Forall (klevel_ok (length ps)) levels -> Forall without_actions levels ->
  safe (fun r => let '(_, levels', _, ps') := r in
      Forall (klevel_ok (length ps')) levels' /\ (Forall without_syms levels -> Forall without_syms levels') /\
      grown ctx ps ps' /\ (length ps' <= length ps + sum_list_with acts_pendings lists)%nat)
    (set_levels_actions info defaults mods ps levels lists level m).
Proof using Hreads.
  induction 1 as [|acts lists Hw _ IH]; intros ps levels level m Hd Hroom Hlen Hk Hn; cbn [set_levels_actions sum_list_with] in *.
  { split; [done|]. split; [done|]. split; [apply grown_refl|lia]. }
  destruct levels as [|lv levels]; [cbn in Hlen; lia|]. unfold pending_room in *.
  pose proof Hk as [Hlv Hk']%list.Forall_cons. apply list.Forall_cons in Hn as [Hz Hn]. unfold without_actions in Hz.
  assert (forall ps1 n', grown ctx ps ps1 -> (length ps1 <= length ps + (acts_pendings acts + sum_list_with acts_pendings lists))%nat ->
    safe (fun r : bool * list xkb_level * nat * list pending_computation => let '(_, levels', _, ps') := r in
      Forall (klevel_ok (length ps')) levels' /\ (Forall without_syms (lv :: levels) -> Forall without_syms levels') /\
      grown ctx ps ps' /\ (length ps' <= length ps + (acts_pendings acts + sum_list_with acts_pendings lists))%nat)
    (Ok (false, lv :: levels, n', ps1))) as Hstop.
  { intros ps1 n' Hg Hl1. split; [|done]. eapply list.Forall_impl; [exact Hk|]. intros x. by apply klevel_ok_mono, (grown_length ctx). }
  unfold no_action. rewrite Hz. cbn [length Nat.eqb asserting].
  destruct (_ >? MAX_ACTIONS_PER_LEVEL); [apply Hstop; [apply grown_refl|lia]|].
  eapply safe_bind; [apply (parse_actions_ok info defaults mods Hreads acts ps); [done|done|unfold pending_room; lia]|].
  intros [[l|] ps1] (Hg & Hl & Hacts); cbn [fst snd] in *; [|apply Hstop; [done|lia]].
  destruct (Hacts l eq_refl) as [Hty _]. pose proof (grown_length _ _ _ Hg) as Hg1. cbv zeta.
  eapply safe_bind.
  { apply (IH ps1); [by eapply defaults_ok_mono|lia|cbn in Hlen; lia| |done].
    eapply list.Forall_impl; [exact Hk'|]. intros x. by apply klevel_ok_mono. }
  intros [[[ok levels'] m'] ps2] (H1 & H2 & H3 & H4). split.
  - constructor; [|done]. pose proof (grown_length _ _ _ H3). apply (klevel_ok_mono (length ps1)); [lia|].
    apply parsed_level_ok; [|done]. by eapply klevel_ok_mono.
  - split; [|split; [by eapply grown_trans|lia]]. intros [Hl1 Hl2]%list.Forall_cons. constructor; [done|by apply H2].
Qed.

Lemma add_group_actions_ok ps value next g : kgroup_ok (length ps) g -> lists_wf ctx value next ->
  defaults_ok (length ps) defaults -> pending_room ps (list_pendings value + sum_list_with list_pendings next) ->
  safe (fun r => let '(_, ps', g') := r in kgroup_ok (length ps') g' /\ grown ctx ps ps' /\
      (length ps' <= length ps + (list_pendings value + sum_list_with list_pendings next))%nat)
    (add_group_actions info defaults mods ps value next g).
Proof using Hreads.
  intros Hg Hw Hd Hroom. destruct (group_defined (length ps) g GROUP_FIELD_ACTS 1 ltac:(lia) eq_refl) as (Hs & Ho & Hdef).
  assert (forall b g', kgroup_ok (length ps) g' ->
    safe (fun r : bool * list pending_computation * GroupInfo => let '(_, ps', g') := r in kgroup_ok (length ps') g' /\ grown ctx ps ps' /\
      (length ps' <= length ps + (list_pendings value + sum_list_with list_pendings next))%nat) (Ok (b, ps, g'))) as Hsame.
  { intros b g' Hg'. split; [done|]. split; [apply grown_refl|lia]. }
  unfold add_group_actions. destruct value; try (by apply Hsame); [by apply Hsame, Hdef|].
  destruct (has_flag (gr_defined g) GROUP_FIELD_ACTS) eqn:E; [by apply Hsame|].
  destruct (action_lists_ok _ Hw) as (lists & -> & Hl & Hsum). cbn [sum_list_with] in Hsum. cbn [result_bind]. cbv zeta.
  destruct Hg as [A1 A2 A3]. specialize (A3 E). eapply safe_bind.
  { apply (set_levels_actions_ok lists Hl ps); [done|by rewrite Hsum|rewrite length_resize0; lia| |].
    - apply resize0_Forall; [apply zero_level_ok|done].
    - by apply resize0_Forall. }
  intros [[[ok levels] m] ps'] (H1 & H2 & H3 & H4). split; [|split; [done|by rewrite <- Hsum]].
  set (levels' := if ok && _ then _ else _).
  assert (forall P, Forall P levels -> Forall P levels') as Htake by (intros P HP; unfold levels'; case_match; [by apply list.Forall_take|done]).
  split.
  - by apply Htake.
  - intros H. apply Htake, H2, resize0_Forall; [done|]. apply A2. change GROUP_FIELD_SYMS with (bit 0) in *. rewrite <- (Ho 0) by lia. done.
  - intros H. exfalso. change GROUP_FIELD_ACTS with (bit 1) in *. cbn in Hs, H. congruence.
Qed.

(** What a field leaves. *)
Definition field_kept (ps : list pending_computation) (k : KeyInfo) (overlay : bool) (cost : nat) (r : bool * KeyInfo * list pending_computation) : Prop :=
  let '(_, k', ps') := r in
  keyi_ok oc (length ps') k' /\ kf_name k' = kf_name k /\ (overlay = false -> kf_overlays k' = kf_overlays k) /\
  grown ctx ps ps' /\ (length ps' <= length ps + cost)%nat.

Lemma field_same ps k overlay cost b k' : keyi_ok oc (length ps) k' -> kf_name k' = kf_name k ->
  (overlay = false -> kf_overlays k' = kf_overlays k) -> safe (field_kept ps k overlay cost) (Ok (b, k', ps)).
Proof using Type. intros H1 H2 H3. do 3 (split; [done|]). split; [apply grown_refl|lia]. Qed.

Lemma field_pure ps k overlay cost (r : result (bool * KeyInfo)) :
  safe (fun r => keyi_ok oc (length ps) (snd r) /\ kf_name (snd r) = kf_name k /\ (overlay = false -> kf_overlays (snd r) = kf_overlays k)) r ->
  safe (field_kept ps k overlay cost) (let+ r := r in Ok (r, ps)).
Proof using Type. intros H. eapply safe_bind; [exact H|]. intros [b k'] (H1 & H2 & H3). by apply field_same. Qed.

Lemma groups_mono ps ps' k gs : grown ctx ps ps' -> keyi_ok oc (length ps) k -> Forall (kgroup_ok (length ps')) gs -> (length gs <= 32)%nat ->
  keyi_ok oc (length ps') (kf_set_groups gs k).
Proof using Type. intros Hg Hk. apply set_groups_ok. eapply keyi_ok_mono; [by eapply grown_length|done]. Qed.

Lemma AddActionsToKey_ok ps k ndx value next overlay : keyi_ok oc (length ps) k -> lists_wf ctx value next ->
  match ndx with Some e => expr_wf ctx e /\ nonzero_index info e | None => True end ->
  defaults_ok (length ps) defaults -> pending_room ps (list_pendings value + sum_list_with list_pendings next) ->
  safe (field_kept ps k overlay (list_pendings value + sum_list_with list_pendings next))
    (AddActionsToKey info defaults mods ps k ndx value next).
Proof using Hreads.
  intros Hk Hw Hn Hd Hroom. unfold AddActionsToKey.
  eapply safe_bind; [apply (group_index_ok (length ps)); [apply Hk|apply Hk|done]|]. intros [[gs i]|] H; [|by apply field_same].
  destruct (H gs i eq_refl) as (Hg & Hl & Hi). unfold at_group. destruct (item_of_nat gs i Hi) as [g Hgi]. rewrite Hgi.
  eapply safe_bind with (P := fun r => let '(_, ps', gs') := r in Forall (kgroup_ok (length ps')) gs' /\ length gs' = length gs /\ grown ctx ps ps' /\
      (length ps' <= length ps + (list_pendings value + sum_list_with list_pendings next))%nat).
  - eapply safe_bind; [apply add_group_actions_ok; [by eapply (item_Forall _ gs)|done..]|].
    intros [[b ps'] g'] (H1 & H2 & H3). cbn. split; [|split; [by rewrite length_insert|done]]. apply Forall_insert; [|done].
    eapply list.Forall_impl; [exact Hg|]. intros x. by apply kgroup_ok_mono, (grown_length ctx).
  - intros [[b ps'] gs'] (H1 & H2 & H3 & H4). split; [by apply (groups_mono ps); [..|lia]|]. do 3 (split; [done|]). done.
Qed.

(** *** Overlays *)

Lemma key_by_name_ok name use_aliases :
  exists r, XkbKeyByName info name use_aliases = Ok r /\ forall i, r = Some i -> exists k, ki_keys info !! i = Some k.
Proof using Hreads.
  assert (forall nm idx j, key_index_of info nm idx = Ok j -> exists k, ki_keys info !! j = Some k) as Hk.
  { intros nm idx j. unfold key_index_of, item. destruct (idx <? 0); [done|].
    destruct (ki_keys info !! Z.to_nat idx) as [k|] eqn:E; [|done]. destruct (_ =? _); [|done]. intros [= <-]. eauto. }
  unfold XkbKeyByName. destruct (item (ki_key_names info) name) as [entry|] eqn:He; [|by exists None].
  destruct (match_found entry) eqn:Hf; cbn [negb]; [|by exists None].
  pose proof (rd_keys _ _ Hreads name entry He Hf) as H. destruct (match_is_alias entry); cbn [negb].
  - destruct use_aliases; [|by exists None]. destruct H as (real & i & -> & Hi). rewrite Hi. exists (Some i). split; [done|].
    intros j [= <-]. by eapply Hk.
  - destruct H as (i & Hi). rewrite Hi. exists (Some i). split; [done|]. intros j [= <-]. by eapply Hk.
Qed.

Lemma overlay_entry_safe field ndx value : (match ndx with Some e => expr_wf ctx e | None => True end) -> expr_wf ctx value ->
  ~ sets_none ctx value ->
  safe (fun r => forall o key, r = Some (Some o, key) -> (o < 8)%nat /\ known_key oc key) (ExprResolveOverlayEntry info field ndx value).
Proof using Hreads.
  intros _ Hw Hn. unfold ExprResolveOverlayEntry. destruct (has_index ndx); [done|]. cbv zeta.
  destruct (parse_dec_to_uint64_t _ _) as [count raw].
  destruct (negb _ || (raw <? 1) || (raw >? max_overlays info)) eqn:E; [done|].
  apply orb_false_iff in E as [[_ E1%Z.ltb_ge]%orb_false_iff E2]. rewrite Z.gtb_ltb in E2. apply Z.ltb_ge in E2.
  assert (max_overlays info <= 8) by (unfold max_overlays; destruct (_ =? _); lia).
  destruct value; try done.
  - destruct (key_by_name_ok key_name false) as (r & -> & Hr). cbn. intros o key. destruct r as [i|]; [|done]. intros [= <- <-].
    split; [lia|]. destruct (Hr i eq_refl) as [k Hk]. exists i. split; [done|]. by apply lookup_lt_Some in Hk.
  - cbn [expr_wf] in Hw. destruct (atom_text_ok _ _ Hw) as [o Ho]. fold ctx. rewrite Ho. cbn. intros o' key. destruct o as [id|]; [|done].
    destruct (name_is id "none") eqn:En; [|by destruct (name_is id "any")]. exfalso. apply Hn. cbn. eauto.
Qed.

Lemma no_overlays_ok : ov_ok no_overlays.
Proof using Type. split; [cbn; lia|by left]. Qed.

Lemma overlay_bit_ok b : (b < 8)%nat -> 0 <= overlay_bit b < 256 /\ overlay_bit b <> 0.
Proof using Type. intros Hb. do 8 (destruct b as [|b]; [vm_compute; split; [split; discriminate || reflexivity|discriminate]|]). lia. Qed.

Lemma single_overlay_ok b key : (b < 8)%nat -> (key < length (ki_keys info))%nat -> kov_ok oc (mk_overlays (overlay_bit b) false (OvInline (Some key))).
Proof using Type.
  intros Hb Hk. destruct (overlay_bit_ok b Hb) as [H1 H2]. split; [|done| |done].
  - split; [done|]. right. exists b. split; [done|]. split; [done|eauto].
  - intros b' key'. unfold ov_get. cbn. destruct (_ && _); [|done]. intros [= <-]. by exists key.
Qed.

Lemma add_overlay_ok o b key (defined : option overlays_info) : (b < 8)%nat -> (key < length (ki_keys info))%nat ->
  (forall d, defined = Some d -> kov_ok oc d) -> o = default no_overlays defined ->
  exists r d, add_overlay_entry info o b (Some key) defined = Ok (r, d) /\ (forall d', d = Some d' -> kov_ok oc d').
Proof using Type.
  intros Hb Hk Hd ->. unfold add_overlay_entry.
  assert (ov_ok (default no_overlays defined) /\ forall b key, ov_get (default no_overlays defined) b = Some key -> known_key oc key) as [Hok Hn].
  { destruct defined as [d|]; [split; apply (Hd d eq_refl)|]. split; [apply no_overlays_ok|]. intros b' key'. by rewrite get_no_overlay. }
  set (o := default no_overlays defined) in *. rewrite overlays_get_ok by done. cbn [result_bind].
  destruct (ov_get o b); [by exists true, defined|]. change (overlapping_overlays info) with (oc_overlapping oc). destruct (oc_overlapping oc) eqn:Hov.
  - destruct (insert_overlay_ok oc o b key Hov Hok Hn Hb Hk) as (o' & -> & Ho'). cbn. do 2 eexists. split; [done|]. by intros d' [= <-].
  - destruct defined as [d|]; cbn [default from_option id] in o; subst o.
    + pose proof (Hd d eq_refl) as Hkd. rewrite (kov_clear _ _ Hkd). rewrite orb_false_r. pose proof (kv_mask _ _ Hkd).
      destruct (Z.eqb_spec (ov_mask d) 0); [done|]. pose proof (kv_inline _ _ Hkd Hov) as Ha. pose proof (kov_clear _ _ Hkd) as Hc.
      destruct (kv_ok _ _ Hkd) as [_ Ho]. unfold ov_alloc in Ha. destruct (ov_storage d) as [[k|]|keys|al]; [| | |done].
      * by do 2 eexists.
      * rewrite Hc in Ho. destruct Ho as [[? _]|(b0 & _ & _ & [? ?])]; done.
      * destruct Ho as [_ (Hl & Hp & _)]. lia.
    + cbn. do 2 eexists. split; [done|]. intros d' [= <-]. by apply single_overlay_ok.
Qed.

Lemma set_overlay_field_ok n k field ndx value : keyi_ok oc n k -> expr_wf ctx value ->
  (match ndx with Some e => expr_wf ctx e | None => True end) -> ~ sets_none ctx value ->
  safe (fun r => keyi_ok oc n (snd r) /\ kf_name (snd r) = kf_name k) (set_overlay_field info k field ndx value).
Proof using Hreads.
  intros Hk Hw Hn Hs. unfold set_overlay_field. eapply safe_bind; [by apply overlay_entry_safe|].
  intros [[[o|] key]|] H; [|done|done]. destruct (H o key eq_refl) as [Ho (i & -> & Hi)]. destruct (_ && _); [done|].
  destruct (add_overlay_ok (default no_overlays (kf_overlays k)) o i (kf_overlays k) Ho Hi (kk_overlays _ _ _ Hk) eq_refl) as (r & d & -> & Hd).
  cbn. split; [|done]. destruct Hk as [A1 A2 A3 A4 A5]. by split.
Qed.

(** *** The other fields *)

Lemma set_group_type_ok n k ndx type : keyi_ok oc n k -> 0 <= ndx < 32 ->
  exists k', set_group_type k ndx type = Ok k' /\ keyi_ok oc n k' /\ same_but_groups k k'.
Proof using Type.
  intros Hk Hn. unfold set_group_type. cbv zeta. rewrite (u32_id (ndx + 1)) by (unfold is_u32; lia).
  set (r := if ndx >=? _ then _ else _).
  assert (exists gs, r = Ok gs /\ Forall (kgroup_ok n) gs /\ (length gs <= 32)%nat /\ 0 <= ndx < Z.of_nat (length gs)) as (gs & -> & Hg & Hl & Hi).
  { unfold r. pose proof (kk_num_groups _ _ _ Hk). destruct (Z.geb_spec ndx (Z.of_nat (length (kf_groups k)))) as [Hge|Hlt].
    - replace (Z.of_nat (length (kf_groups k)) <? ndx + 1) with true by (symmetry; apply Z.ltb_lt; lia). eexists. split; [done|].
      rewrite resized_length. split; [apply resized_Forall; [apply init_group_ok|apply Hk]|]. lia.
    - eexists. split; [done|]. split; [apply Hk|]. split; [apply Hk|]. lia. }
  cbn [result_bind]. unfold update_item. destruct (item_of_nat gs ndx Hi) as [g Hgi]. rewrite Hgi. cbn [result_bind].
  eexists. split; [done|]. split; [|done]. apply set_groups_ok; [done| |by rewrite length_insert]. apply Forall_insert; [done|].
  pose proof (item_Forall _ _ _ _ Hg Hgi) as [A1 A2 A3].
  assert (forall k, 0 <= k < 2 -> has_flag (gr_defined (gr_define GROUP_FIELD_TYPE (gr_set_type type g))) (bit k) = has_flag (gr_defined g) (bit k)) as Hf.
  { intros j Hj. rewrite !has_flag_bit by lia. cbn. change GROUP_FIELD_TYPE with (bit 2). rewrite Z.lor_spec, bit_spec by lia.
    replace (2 =? j) with false by (symmetry; apply Z.eqb_neq; lia). by rewrite orb_false_r. }
  split; [done| |].
  - change GROUP_FIELD_SYMS with (bit 0) in *. rewrite Hf by lia. done.
  - change GROUP_FIELD_ACTS with (bit 1) in *. rewrite Hf by lia. done.
Qed.

Lemma set_type_field_ok n k ndx value : keyi_ok oc n k ->
  match ndx with Some e => expr_wf ctx e /\ nonzero_index info e | None => True end ->
  safe (fun r => keyi_ok oc n (snd r) /\ same_but_groups k (snd r)) (set_type_field info k ndx value).
Proof using Hreads.
  intros Hk Hn. unfold set_type_field. destruct (ExprResolveString value) as [val|]; [|done]. destruct ndx as [e|].
  - destruct Hn as [Hw Hz]. eapply safe_bind; [by apply group_index_safe|]. intros [r b] Hr. cbn [fst] in *.
    destruct r as [g| |]; [|done..]. specialize (Hr g eq_refl). pose proof (rd_max _ _ Hreads).
    rewrite u32_id by (unfold is_u32; lia). destruct (set_group_type_ok n k (g - 1) val Hk ltac:(lia)) as (k' & -> & Hk' & Hs). done.
  - split; [|done]. destruct Hk. by split.
Qed.

Lemma set_redirect_ok ps k value overlay : keyi_ok oc (length ps) k -> expr_wf ctx value -> pending_room ps 1 ->
  safe (field_kept ps k overlay 1) (set_redirect_field info ps k value).
Proof using Hreads.
  intros Hk Hw Hroom. unfold set_redirect_field, pending_room in *.
  eapply safe_bind; [apply safe_faults, resolve_group_faults; [by apply expr_wf_ok|apply (rd_max _ _ Hreads)]|].
  intros [r []] _.
  - assert (match r with PARSER_SUCCESS _ | _ => True end) by (by destruct r).
    set (k' := kf_define _ _). assert (keyi_ok oc (length (ps ++ [mk_pending value false 0])) k' /\ same_but_groups k k') as [Hk' [Hn Ho]].
    { split; [|done]. rewrite length_app. cbn [length]. apply (keyi_ok_mono _ _ (length ps + 1)) in Hk; [|lia]. destruct Hk as [A1 A2 A3 A4 A5].
      pose proof (u32_id (Z.of_nat (length ps)) ltac:(unfold is_u32; lia)) as Hu. split; cbn [k' kf_define kf_set_policy kf_set_number kf_groups kf_group_number kf_pending_group kf_overlays]; try done; rewrite Hu; lia. }
    clearbody k'. replace (match r with PARSER_SUCCESS _ | _ => (true, k', ps ++ [mk_pending value false 0]) end) with
      (true, k', ps ++ [mk_pending value false 0]) by (by destruct r).
    destruct r; (split; [done|]; split; [done|]; split; [done|]; split;
      [exists [mk_pending value false 0]; split; [done|by repeat constructor]|rewrite length_app; cbn; lia]).
  - destruct r as [g| |]; (apply field_same; [|done|done]); [|done..]. destruct Hk as [A1 A2 A3 A4 A5]. split; cbn; try done. apply u32_range.
Qed.

Lemma set_policy_ok n k value yes no : keyi_ok oc n k -> expr_wf ctx value ->
  safe (fun r => keyi_ok oc n (snd r) /\ same_but_groups k (snd r)) (set_policy_field info k value yes no).
Proof using Type.
  intros Hk Hw. unfold set_policy_field. eapply safe_bind; [by apply boolean_safe|]. intros [b|] _; [|done].
  split; [|done]. destruct Hk. by split.
Qed.

Lemma SetSymbolsField_ok ps k field ndx value next : keyi_ok oc (length ps) k -> defaults_ok (length ps) defaults ->
  expr_wf ctx value -> lists_wf ctx value next -> plain_field info field ndx value ->
  pending_room ps (value_pendings value next) ->
  safe (field_kept ps k (is_prefix "overlay" field) (value_pendings value next))
    (SetSymbolsField info defaults mods ps k field ndx value next).
Proof using Hmods Hreads.
  intros Hk Hd Hw Hl [Hidx Hov] Hroom. unfold pending_room in Hroom.
  assert (list_pendings value <= expr_pendings value)%nat as Hle by (destruct value; cbn; lia).
  assert (forall r overlay cost, (cost <= value_pendings value next)%nat -> safe (field_kept ps k overlay cost) r ->
    safe (field_kept ps k overlay (value_pendings value next)) r) as Hmono.
  { intros r overlay cost Hc H. eapply safe_mono; [exact H|]. intros [[b k'] ps'] (H1 & H2 & H3 & H4 & H5). do 4 (split; [done|]). lia. }
  assert (forall overlay r, safe (fun r => keyi_ok oc (length ps) (snd r) /\ same_but_groups k (snd r)) r ->
    safe (field_kept ps k overlay (value_pendings value next)) (let+ r := r in Ok (r, ps))) as Hpure.
  { intros overlay r H. apply field_pure. eapply safe_mono; [exact H|]. intros x (H1 & H2 & H3). done. }
  assert (match ndx with Some e => expr_wf ctx e | None => True end) as Hndx by (destruct ndx; [apply Hidx|done]).
  unfold SetSymbolsField. cbv zeta.
  destruct (name_is field "type"); [by apply Hpure, set_type_field_ok|].
  destruct (name_is field "symbols"); [by apply Hpure, AddSymbolsToKey_ok|].
  destruct (name_is field "actions").
  { eapply Hmono; [|apply AddActionsToKey_ok; try done]; unfold value_pendings, pending_room in *; lia. }
  destruct (one_of field ["vmods"; _; _]%string).
  { apply Hpure. eapply safe_bind; [by apply vmods_mask_safe|]. intros [m|] _; [|done]. split; [|done]. destruct Hk. by split. }
  destruct (one_of field ["locking"; _; _]%string); [by apply field_same|].
  destruct (one_of field ["radiogroup"; _; _]%string); [by apply field_same|].
  destruct (is_prefix "permanentoverlay" field); [by apply field_same|].
  destruct (is_prefix "overlay" field) eqn:Hp.
  { apply field_pure. eapply safe_mono; [apply set_overlay_field_ok; [done..|by apply Hov]|]. intros r [H1 H2]. done. }
  destruct (one_of field ["repeating"; _; _]%string).
  { apply Hpure. eapply safe_bind; [by apply enum_safe|]. intros [m|] _; [|done]. split; [|done]. destruct Hk. by split. }
  destruct (one_of field ["groupswrap"; _]%string); [by apply Hpure, set_policy_ok|].
  destruct (one_of field ["groupsclamp"; _]%string); [by apply Hpure, set_policy_ok|].
  destruct (one_of field ["groupsredirect"; _]%string).
  { eapply Hmono; [|by apply set_redirect_ok; [..|unfold pending_room, value_pendings in *; lia]]. unfold value_pendings. lia. }
  by apply field_same.
Qed.
End fields.

(** ** Statements that are well formed *)

(** The fields of the default key: an overlay would be shared by the keys. *)
Definition global_ok (info : keymap_info) (v : VarDef) : Prop :=
  lists_wf (ki_ctx info) (vr_value v) (vr_next v) /\
  forall elem field ndx, var_lhs (ki_ctx info) v = Ok (Some (elem, field, ndx)) ->
    plain_field info field ndx (vr_value v) /\
    (forall e, elem = Some e -> name_is e "key" = true -> is_prefix "overlay" field = false).

Definition body_ok (info : keymap_info) (v : VarDef) : Prop :=
  lists_wf (ki_ctx info) (vr_value v) (vr_next v) /\
  forall field ndx, body_field info v = Ok (Some (field, ndx)) -> plain_field info field ndx (vr_value v).

Definition chars_ok (modifier : option (list Z)) : Prop := match modifier with Some m => Forall is_char m | None => True end.

(** [parser.y] only takes identifiers for the masks of the first format. *)
Definition symbols_stmt_ok (info : keymap_info) (stmt : statement) : Prop :=
  match stmt with
  | STMT_VAR v => global_ok info v
  | STMT_SYMBOLS _ _ symbols => Forall (body_ok info) symbols
  | STMT_MODMAP _ modifiers _ => ki_format info = XKB_KEYMAP_FORMAT_TEXT_V1 -> is_ident modifiers = true
  | STMT_INCLUDE include => Forall (fun item => chars_ok (inc_modifier item)) (inc_items include)
  | _ => True
  end.

Definition symbols_file_ok (info : keymap_info) (file : XkbFile) : Prop :=
  file_wf (ki_ctx info) file /\ Forall (symbols_stmt_ok info) (xf_defs file).

Definition symbols_vars_pendings (l : list VarDef) : nat := sum_list_with (fun v => value_pendings (vr_value v) (vr_next v)) l.

(** What a statement or a file may add to the pending computations. *)
Definition symbols_stmt_pendings (parse : xkb_file_type -> include_item -> list (option XkbFile)) (file_pendings : XkbFile -> nat)
    (stmt : statement) : nat :=
  match stmt with
  | STMT_INCLUDE include =>
      sum_list_with (fun item => match ProcessIncludeFile parse item FILE_TYPE_SYMBOLS with
                                 | Some file => file_pendings file | None => 0%nat end) (inc_items include)
  | STMT_SYMBOLS _ _ symbols => symbols_vars_pendings symbols
  | STMT_VAR v => value_pendings (vr_value v) (vr_next v)
  | _ => 0
  end.

Fixpoint symbols_pendings (parse : xkb_file_type -> include_item -> list (option XkbFile)) (fuel : nat) (file : XkbFile) : nat :=
  match fuel with
  | O => 0
  | S fuel => sum_list_with (symbols_stmt_pendings parse (symbols_pendings parse fuel)) (xf_defs file)
  end.

(** ** The invariant of a section *)

Section sections.
Context (info : keymap_info).
Let ctx := ki_ctx info.
Let oc := info_overlays info.
Hypothesis (Hreads : forall mods, vmods_ok mods -> reads_ok info mods).

Record symbols_inv (base : xkb_mod_set) (ps : list pending_computation) (sb : SymbolsInfo) : Prop := {
  sv_keys : keys_ok info (length ps) (sb_keys sb);
  sv_default : keyi_ok oc (length ps) (sb_default_key sb);
  sv_no_overlays : kf_overlays (sb_default_key sb) = None;
  sv_default_name : kf_name (sb_default_key sb) = literal ctx "*";
  sv_actions : defaults_ok (length ps) (sb_default_actions sb);
  sv_mods : vmods_ok (sb_mods sb);
  sv_extends : extends base (sb_mods sb);
  sv_group : forall g, sb_explicit_group sb = Some g -> 0 <= g < 32;
  sv_names : (length (sb_group_names sb) <= 32)%nat;
  sv_modmaps : Forall (fun mm => is_u32 (mm_mods mm)) (sb_modmaps sb)
}.

Lemma symbols_inv_mono base ps ps' sb : grown ctx ps ps' -> symbols_inv base ps sb -> symbols_inv base ps' sb.
Proof using Type.
  intros Hg%grown_length []. split; try done; [by eapply keys_ok_mono|by eapply keyi_ok_mono|by eapply defaults_ok_mono].
Qed.

Lemma sb_errors_inv base ps sb n : symbols_inv base ps sb -> symbols_inv base ps (sb_add_errors n sb).
Proof using Type. intros []. by split. Qed.

Lemma init_symbols_inv depth mods ps : vmods_ok mods -> symbols_inv mods ps (InitSymbolsInfo info depth mods).
Proof using Type.
  intros Hm. destruct (init_ok mods (Nat.ltb 0 depth) Hm) as [H1 H2].
  assert (keys_ok info (length ps) []) as Hk by (split; [apply Forall_nil_2|apply NoDup_nil_2]).
  split; try done; try apply init_keyi_ok; try apply init_actions_ok; try apply Forall_nil_2; cbn; lia.
Qed.

(** *** Merge *)

Lemma merge_group_names_length from merge : forall into,
  length (merge_group_names into from merge) = Nat.max (length into) (length from).
Proof using Type.
  induction from as [|f from IH]; intros [|i into]; cbn [merge_group_names length]; try lia. rewrite IH. lia.
Qed.

Lemma set_keys_inv base ps sb keys : symbols_inv base ps sb -> keys_ok info (length ps) keys -> symbols_inv base ps (sb_set_keys keys sb).
Proof using Type. intros [] Hk. by split. Qed.

Lemma merge_keys_inv base ps from merge : Forall (keyi_ok oc (length ps)) from -> forall into, symbols_inv base ps into ->
  exists sb, merge_keys info into from merge = Ok sb /\ symbols_inv base ps sb /\ sb_include_depth sb = sb_include_depth into /\
    sb_modmaps sb = sb_modmaps into.
Proof using Type.
  induction 1 as [|k from Hk _ IH]; intros into Hi; cbn [merge_keys]; [by exists into|].
  assert (keyi_ok oc (length ps) (kf_set_merge merge k)) as Hk' by (destruct Hk; by split).
  destruct (AddKeySymbols_ok info (length ps) (sb_keys into) _ (sv_keys _ _ _ Hi) Hk') as (keys & -> & Hkeys). cbn [result_bind fst snd].
  destruct (IH (sb_set_keys keys into)) as (sb & -> & Hs & Hd & Hm); [by apply set_keys_inv|]. by exists sb.
Qed.

Lemma add_modmap_entry_ok modmaps new : Forall (fun mm => is_u32 (mm_mods mm)) modmaps -> is_u32 (mm_mods new) ->
  Forall (fun mm => is_u32 (mm_mods mm)) (AddModMapEntry modmaps new).
Proof using Type.
  intros Hm Hn. unfold AddModMapEntry. destruct (list_find _ modmaps) as [[i old]|] eqn:E.
  - apply list_find_Some in E as (Hi & _). pose proof (Forall_lookup_1 _ _ _ _ Hm Hi).
    destruct (_ =? _); [done|]. apply Forall_insert; [done|]. cbn. by destruct (clobbers _).
  - apply list.Forall_app. split; [done|by constructor].
Qed.

Lemma add_modmaps_ok new : forall modmaps, Forall (fun mm => is_u32 (mm_mods mm)) modmaps -> Forall (fun mm => is_u32 (mm_mods mm)) new ->
  Forall (fun mm => is_u32 (mm_mods mm)) (foldl AddModMapEntry modmaps new).
Proof using Type.
  induction new as [|mm new IH]; intros modmaps Hm Hn; cbn [foldl]; [done|]. apply list.Forall_cons in Hn as [Hmm Hn].
  apply IH; [by apply add_modmap_entry_ok|done].
Qed.

Lemma set_modmaps_inv base ps sb l : symbols_inv base ps sb -> Forall (fun mm => is_u32 (mm_mods mm)) l -> symbols_inv base ps (sb_set_modmaps l sb).
Proof using Type. intros [] Hl. by split. Qed.

Lemma merge_symbols_inv base ps into from merge : symbols_inv base ps into -> symbols_inv (sb_mods into) ps from ->
  exists sb, MergeIncludedSymbols info into from merge = Ok sb /\ symbols_inv base ps sb /\ sb_include_depth sb = sb_include_depth into.
Proof using Type.
  intros Hi Hf. unfold MergeIncludedSymbols. destruct (_ >? 0).
  { eexists. split; [done|]. split; [by apply sb_errors_inv|done]. }
  destruct (MergeModSets_extends (sb_mods into) (sb_mods from) merge) as (mods & -> & Hok & Hext); [apply Hi|apply Hf|apply Hf|].
  cbn [result_bind]. set (into1 := match sb_name _ with Some _ => _ | None => _ end). set (into2 := sb_set_group_names _ into1).
  assert (symbols_inv base ps into2 /\ sb_include_depth into2 = sb_include_depth into) as [Hi2 Hd].
  { assert (extends base mods) by (by apply (extends_trans _ (sb_mods into)); [apply Hi|apply Hi|]).
    assert (symbols_inv base ps into1 /\ sb_include_depth into1 = sb_include_depth into) as [H1 H2].
    { unfold into1. destruct Hi. destruct (sb_name _); by split. }
    split; [|done]. pose proof (sv_names _ _ _ Hf). destruct H1. split; try done. cbn. rewrite merge_group_names_length. lia. }
  clearbody into2. set (m := match sb_keys into2 with [] => _ | _ => _ end).
  assert (exists sb, m = Ok sb /\ symbols_inv base ps sb /\ sb_include_depth sb = sb_include_depth into) as (sb & -> & Hs & Hsd).
  { unfold m. destruct (sb_keys into2).
    - eexists. split; [done|]. split; [apply set_keys_inv; [done|apply Hf]|done].
    - destruct (merge_keys_inv base ps (sb_keys from) merge (ko_keys _ _ _ (sv_keys _ _ _ Hf)) into2 Hi2) as (sb & -> & H1 & H2 & _).
      exists sb. split; [done|]. split; [done|congruence]. }
  cbn [result_bind]. eexists. split; [done|]. pose proof (sv_modmaps _ _ _ Hs) as Hmm. destruct (sb_modmaps sb).
  - split; [apply set_modmaps_inv; [done|apply Hf]|done].
  - split; [|done]. apply set_modmaps_inv; [done|]. apply add_modmaps_ok; [done|]. change (map ?f ?l) with (f <$> l).
    rewrite list.Forall_fmap. eapply list.Forall_impl; [apply (sv_modmaps _ _ _ Hf)|]. done.
Qed.

(** *** Names of groups *)

Lemma SetGroupName_ok base ps sb ndx value merge : symbols_inv base ps sb ->
  match ndx with Some e => expr_wf ctx e /\ nonzero_index info e | None => True end ->
  safe (fun r => symbols_inv base ps (snd r) /\ sb_include_depth (snd r) = sb_include_depth sb) (SetGroupName info sb ndx value merge).
Proof using Hreads.
  intros Hi Hn. unfold SetGroupName. destruct ndx as [e|]; [|done]. destruct Hn as [Hw Hz].
  pose proof (Hreads _ (sv_mods _ _ _ Hi)) as Hr. pose proof (rd_max _ _ Hr) as Hmax.
  eapply safe_bind; [by eapply group_index_safe|]. intros [r b] Hg. cbn [fst] in *. destruct r as [g| |]; [|done..].
  specialize (Hg g eq_refl). destruct (ExprResolveString value) as [name|]; [|done]. rewrite (u32_id (g - 1)) by (unfold is_u32; lia).
  set (gu := match sb_explicit_group sb with None => _ | Some _ => _ end).
  assert (forall x, gu = Some x -> 0 <= x < 32) as Hgu.
  { unfold gu. intros x. destruct (sb_explicit_group sb) as [ex|] eqn:E; [|intros [= <-]; lia].
    destruct (_ =? 0); [|done]. intros [= <-]. by apply (sv_group _ _ _ Hi). }
  destruct gu as [x|]; [|done]. specialize (Hgu x eq_refl). cbv zeta. rewrite (u32_id (x + 1)) by (unfold is_u32; lia).
  set (m := if x >=? _ then _ else _).
  assert (exists l nm, m = Ok (l, nm) /\ (length l <= 32)%nat /\ 0 <= x < Z.of_nat (length l)) as (l & nm & -> & Hl & Hx).
  { unfold m. pose proof (sv_names _ _ _ Hi). destruct (Z.geb_spec x (Z.of_nat (length (sb_group_names sb)))) as [Hge|Hlt].
    - replace (Z.of_nat (length (sb_group_names sb)) <? x + 1) with true by (symmetry; apply Z.ltb_lt; lia).
      do 2 eexists. split; [done|]. rewrite resized_length. lia.
    - destruct (item_of_nat (sb_group_names sb) x) as [old ->]; [lia|]. do 2 eexists. split; [done|]. lia. }
  cbn [result_bind fst snd]. unfold update_item. destruct (item_of_nat l x Hx) as [old ->]. cbn [result_bind].
  split; [|done]. destruct Hi. split; try done. cbn. by rewrite length_insert.
Qed.

(** *** Keys *)

(** What a statement leaves. *)
Definition skept (base : xkb_mod_set) (ps : list pending_computation) (sb : SymbolsInfo) (cost : nat) (sb' : SymbolsInfo) (ps' : list pending_computation) : Prop :=
  symbols_inv base ps' sb' /\ sb_include_depth sb' = sb_include_depth sb /\ grown ctx ps ps' /\ (length ps' <= length ps + cost)%nat.

Definition skept_stmt base ps sb cost (r : bool * SymbolsInfo * list pending_computation) : Prop :=
  let '(_, sb', ps') := r in skept base ps sb cost sb' ps'.

Lemma skept_same base ps sb cost sb' : symbols_inv base ps sb' -> sb_include_depth sb' = sb_include_depth sb -> skept base ps sb cost sb' ps.
Proof using Type. intros H1 H2. do 2 (split; [done|]). split; [apply grown_refl|lia]. Qed.

Lemma symbols_global_inv base ps sb v : symbols_inv base ps sb -> var_wf ctx v -> global_ok info v ->
  pending_room ps (value_pendings (vr_value v) (vr_next v)) ->
  safe (skept_stmt base ps sb (value_pendings (vr_value v) (vr_next v))) (Symbols.HandleGlobalVar info ps sb v).
Proof using Hreads.
  intros Hi Hv [Hl Hf] Hroom. unfold Symbols.HandleGlobalVar. pose proof (var_lhs_safe ctx v Hv) as Hlhs. unfold ctx in Hlhs.
  destruct (var_lhs (ki_ctx info) v) as [[[[elem field] ndx]|]|f]; [| |done]; cbn [result_bind safe] in *; [|by apply skept_same].
  destruct (Hf elem field ndx eq_refl) as [Hpf Hkey]. pose proof (sv_mods _ _ _ Hi) as Hm. pose proof (Hreads _ Hm) as Hr.
  destruct elem as [elem|].
  - destruct (name_is elem "key") eqn:Ek.
    + cbv zeta. set (temp0 := kf_set_merge _ _).
      assert (keyi_ok oc (length ps) temp0) as Ht by (destruct (init_keyi_ok oc (length ps) ctx); by split).
      eapply safe_bind; [apply SetSymbolsField_ok; [done|done|exact Ht|apply Hi|apply Hv|done|done|done]|].
      intros [[ret temp] ps'] (H1 & H2 & H3 & H4 & H5). specialize (H3 (Hkey _ eq_refl Ek)).
      apply (symbols_inv_mono base ps ps') in Hi; [|done]. destruct ret; [|done].
      destruct (MergeKeys_ok info (length ps') (sb_default_key sb) temp (sv_default _ _ _ Hi) H1) as (k & -> & Hk & Hkn & Hko).
      { rewrite H2. symmetry. apply Hi. }
      cbn. split; [|done]. specialize (Hko (sv_no_overlays _ _ _ Hi) H3). destruct Hi. split; try done. cbn. congruence.
    + eapply safe_bind.
      { apply default_field_ok; [done|apply Hi|apply Hv|]. unfold pending_room, value_pendings in *. lia. }
      intros [[e d] ps'] (H1 & H2 & H3). split; [|split; [done|split; [done|unfold value_pendings; lia]]].
      apply (symbols_inv_mono base ps ps') in Hi; [|done]. destruct Hi. by split.
  - destruct (one_of field _).
    + eapply safe_bind; [apply SetGroupName_ok; [done|apply Hpf]|]. intros [b sb'] [H1 H2]. by apply skept_same.
    + destruct (one_of field _); by apply skept_same.
Qed.

Lemma body_field_safe v : key_var_wf ctx v -> safe (fun _ => True) (body_field info v).
Proof using Type.
  intros [Hn _]. unfold body_field. destruct (vr_name v) as [e|]; [|done]. eapply safe_bind; [by apply lhs_safe|]. done.
Qed.

Lemma HandleSymbolsBody_inv sb def : vmods_ok (sb_mods sb) -> Forall (key_var_wf ctx) def -> Forall (body_ok info) def ->
  forall ps k ok, keyi_ok oc (length ps) k -> defaults_ok (length ps) (sb_default_actions sb) ->
  pending_room ps (symbols_vars_pendings def) ->
  safe (fun r => let '(_, k', ps') := r in keyi_ok oc (length ps') k' /\ grown ctx ps ps' /\
      (length ps' <= length ps + symbols_vars_pendings def)%nat)
    (HandleSymbolsBody info sb ps def k ok).
Proof using Hreads.
  intros Hm. induction 1 as [|v def Hv _ IH]; intros Hb ps k ok Hk Hd Hroom; cbn [HandleSymbolsBody].
  { split; [done|]. split; [apply grown_refl|lia]. }
  apply list.Forall_cons in Hb as [[Hlists Hpf] Hb]. unfold symbols_vars_pendings, pending_room in *. cbn [sum_list_with] in *.
  fold (symbols_vars_pendings def) in *. pose proof (body_field_safe v Hv) as Hsf.
  destruct (body_field info v) as [[[field ndx]|]|f]; [| |done]; cbn [result_bind].
  - eapply safe_bind.
    { eapply SetSymbolsField_ok; [done|by apply Hreads|done|done|apply Hv|done|by apply Hpf|unfold pending_room; lia]. }
    intros [[b k'] ps'] (H1 & H2 & H3 & H4 & H5). eapply safe_mono.
    { apply (IH Hb ps' k'); [done| |lia]. eapply defaults_ok_mono; [by eapply grown_length|done]. }
    intros [[b' k''] ps''] (K1 & K2 & K3). split; [done|]. split; [by eapply grown_trans|lia].
  - eapply safe_mono; [apply (IH Hb ps k); [done|done|lia]|]. intros [[b' k''] ps''] (K1 & K2 & K3). split; [done|]. split; [done|lia].
Qed.

Lemma SetExplicitGroup_ok n g groups : Forall (kgroup_ok n) groups -> (length groups <= 32)%nat -> (forall x, g = Some x -> 0 <= x < 32) ->
  exists gs, SetExplicitGroup g groups = Ok gs /\ Forall (kgroup_ok n) gs /\ (length gs <= 32)%nat.
Proof using Type.
  intros Hg Hl Hx. unfold SetExplicitGroup. destruct g as [x|]; [|by exists groups]. specialize (Hx x eq_refl).
  set (gs := match groups with [] => [] | _ => _ end).
  assert (Forall (kgroup_ok n) (resized InitGroupInfo gs (x + 1))) as Hgs.
  { apply resized_Forall; [apply init_group_ok|]. unfold gs. destruct Hg as [|g0 l H0 Hg]; constructor; [done|].
    change (map ?f ?l) with (f <$> l). rewrite list.Forall_fmap. eapply list.Forall_impl; [exact Hg|]. intros y Hy. cbn.
    destruct (_ =? 0); [done|apply init_group_ok]. }
  pose proof (resized_length InitGroupInfo gs (x + 1)) as Hrl. destruct (Z.gtb_spec x 0).
  - destruct (resized InitGroupInfo gs (x + 1)) as [|g0 rest] eqn:E; [cbn in Hrl; lia|]. apply list.Forall_cons in Hgs as [H0 Hgs].
    assert (0 <= x < Z.of_nat (length (InitGroupInfo :: rest))) as Hb by (cbn [length] in *; lia).
    unfold update_item. destruct (item_of_nat (InitGroupInfo :: rest) x Hb) as [y ->]. eexists. split; [done|].
    rewrite length_insert. split; [|cbn [length] in *; lia]. apply Forall_insert; [constructor; [apply init_group_ok|done]|done].
  - eexists. split; [done|]. split; [done|lia].
Qed.

Lemma HandleSymbolsDef_inv base ps sb merge keyName symbols : symbols_inv base ps sb -> Forall (key_var_wf ctx) symbols ->
  Forall (body_ok info) symbols -> pending_room ps (symbols_vars_pendings symbols) ->
  safe (skept_stmt base ps sb (symbols_vars_pendings symbols)) (HandleSymbolsDef info ps sb merge keyName symbols).
Proof using Hreads.
  intros Hi Hv Hb Hroom. unfold HandleSymbolsDef. rewrite (sv_no_overlays _ _ _ Hi). cbn [overlays_shared]. cbv zeta.
  set (k0 := kf_set_name keyName _). assert (keyi_ok oc (length ps) k0) as Hk0 by (destruct (sv_default _ _ _ Hi); by split).
  eapply safe_bind; [apply HandleSymbolsBody_inv; [apply Hi|done|done|done|apply Hi|done]|].
  intros [[ok k] ps'] (H1 & H2 & H3). apply (symbols_inv_mono base ps ps') in Hi; [|done].
  assert (forall b sb', symbols_inv base ps' sb' -> sb_include_depth sb' = sb_include_depth sb ->
    safe (skept_stmt base ps sb (symbols_vars_pendings symbols)) (Ok (b, sb', ps'))) as Hret by (intros b sb' A1 A2; cbn; split; [done|]; split; [done|]; split; [done|lia]).
  destruct ok; [|apply Hret; [by apply sb_errors_inv|done]].
  destruct (SetExplicitGroup_ok (length ps') (sb_explicit_group sb) (kf_groups k)) as (gs & -> & Hgs & Hgl); [apply H1|apply H1|apply Hi|].
  cbn [result_bind].
  destruct (AddKeySymbols_ok info (length ps') (sb_keys sb) (kf_set_groups gs k) (sv_keys _ _ _ Hi)) as (keys & -> & Hkeys).
  { destruct H1. by split. }
  cbn [result_bind fst snd]. apply Hret; [by apply set_keys_inv|done].
Qed.

(** *** Modifier map *)

Lemma add_modmap_keys_ok merge mods keys : is_u32 mods -> forall modmaps, Forall (fun mm => is_u32 (mm_mods mm)) modmaps ->
  Forall (fun mm => is_u32 (mm_mods mm)) (add_modmap_keys modmaps merge mods keys).
Proof using Type.
  intros Hm. induction keys as [|key keys IH]; intros modmaps Hmm; cbn [add_modmap_keys]; [done|].
  destruct key; try (by apply IH); [|destruct (_ =? _); [by apply IH|]]; apply IH, add_modmap_entry_ok; done.
Qed.

Lemma HandleModMapDef_inv base ps sb merge modifiers keys : symbols_inv base ps sb -> expr_wf ctx modifiers ->
  (ki_format info = XKB_KEYMAP_FORMAT_TEXT_V1 -> is_ident modifiers = true) ->
  safe (fun r => symbols_inv base ps (snd r) /\ sb_include_depth (snd r) = sb_include_depth sb) (HandleModMapDef info sb merge modifiers keys).
Proof using Type.
  intros Hi Hw Hf. unfold HandleModMapDef. eapply safe_bind; [apply vmods_mask_safe; [apply Hi|done]|].
  intros [m|] Hm; [|done]. assert (negb (ki_format info =? XKB_KEYMAP_FORMAT_TEXT_V1) || is_ident modifiers = true) as ->.
  { destruct (Z.eqb_spec (ki_format info) XKB_KEYMAP_FORMAT_TEXT_V1); [|done]. by rewrite Hf. }
  split; [|done]. apply set_modmaps_inv; [done|]. apply add_modmap_keys_ok; [by apply Hm|apply Hi].
Qed.

(** ** Files *)

Context (parse : xkb_file_type -> include_item -> list (option XkbFile)).
Hypothesis (Hparse : forall item file, Some file ∈ parse FILE_TYPE_SYMBOLS item -> symbols_file_ok info file).

Lemma process_symbols item file : ProcessIncludeFile parse item FILE_TYPE_SYMBOLS = Some file -> symbols_file_ok info file.
Proof using Hparse. intros Hf. apply select_file_spec in Hf as [_ [Hin|Hin]]; [by eapply Hparse|done..]. Qed.

Definition file_handled (handle_file : list pending_computation -> SymbolsInfo -> XkbFile -> result (SymbolsInfo * list pending_computation))
    (file_pendings : XkbFile -> nat) (depth : nat) : Prop :=
  forall base ps sb file, symbols_inv base ps sb -> sb_include_depth sb = depth -> symbols_file_ok info file ->
    pending_room ps (file_pendings file) ->
    safe (fun r => skept base ps sb (file_pendings file) (fst r) (snd r)) (handle_file ps sb file).

Section handlers.
Context (handle_file : list pending_computation -> SymbolsInfo -> XkbFile -> result (SymbolsInfo * list pending_computation))
  (file_pendings : XkbFile -> nat).

Definition items_pendings (items : list include_item) : nat :=
  sum_list_with (fun item => match ProcessIncludeFile parse item FILE_TYPE_SYMBOLS with
                             | Some file => file_pendings file | None => 0%nat end) items.

Lemma included_group_ok sb modifier : chars_ok modifier -> ki_max_groups info <= 32 -> (forall g, sb_explicit_group sb = Some g -> 0 <= g < 32) ->
  forall g, included_group info sb modifier = Some g -> 0 <= g < 32.
Proof using Type.
  intros Hc Hmax Hs g. unfold included_group. destruct modifier as [m|].
  - unfold parse_dec_to_uint32_t, parse_dec_to. pose proof (parse_dec_loop_nonneg UINT32_MAX m Hc (S (length m)) 0 0) as Hn.
    destruct (parse_dec_loop _ _ _ _ _) as [[i rest] v].
    destruct (_ || _) eqn:E; [by apply Hs|]. intros [= <-]. apply orb_false_iff in E as [[_ E1%Z.eqb_neq]%orb_false_iff E2].
    rewrite Z.gtb_ltb in E2. apply Z.ltb_ge in E2. specialize (Hn ltac:(lia)). cbn in Hn. lia.
  - destruct (_ && _); [intros [= <-]; lia|apply Hs].
Qed.

Lemma include_symbols_inv base sb items : file_handled handle_file file_pendings (S (sb_include_depth sb)) ->
  (forall g, sb_explicit_group sb = Some g -> 0 <= g < 32) -> Forall (fun item => chars_ok (inc_modifier item)) items ->
  forall ps included, symbols_inv base ps included -> pending_room ps (items_pendings items) ->
  safe (fun r => let '(o, ps') := r in
      (forall included', o = Some included' -> symbols_inv base ps' included') /\
      grown ctx ps ps' /\ (length ps' <= length ps + items_pendings items)%nat)
    (include_symbols info parse handle_file sb ps included items).
Proof using Hparse Hreads.
  intros Hh Hg. induction 1 as [|item items Hc _ IH]; intros ps included Hi Hroom; cbn [include_symbols].
  { split; [by intros ? [= <-]|]. split; [apply grown_refl|lia]. }
  unfold items_pendings in Hroom |- *. cbn [sum_list_with] in *. fold (items_pendings items) in *. unfold pending_room in Hroom.
  destruct (ProcessIncludeFile parse item FILE_TYPE_SYMBOLS) as [file|] eqn:Hf.
  2: { split; [done|]. split; [apply grown_refl|lia]. }
  cbv zeta. set (next := sb_set_explicit_group _ _).
  assert (symbols_inv (sb_mods included) ps next) as Hnext.
  { destruct (init_symbols_inv (S (sb_include_depth sb)) (sb_mods included) ps) as [A1 A2 A3 A4 A5 A6 A7 A8 A9 A10]; [apply Hi|].
    split; try done. apply included_group_ok; [done| |done]. apply (rd_max _ _ (Hreads _ (sv_mods _ _ _ Hi))). }
  eapply safe_bind; [apply (Hh (sb_mods included) ps next file); [done|done|by eapply process_symbols|unfold pending_room; lia]|].
  intros [from ps1] (Hfrom & _ & Hw1 & Hl1). cbn [fst snd] in *. apply (symbols_inv_mono base ps ps1) in Hi; [|done].
  destruct (merge_symbols_inv base ps1 included from (inc_merge item) Hi Hfrom) as (inc2 & -> & Hi2 & _). cbn [result_bind].
  eapply safe_mono; [apply IH; [done|unfold pending_room; lia]|].
  intros [o ps3] (H1 & H2 & H3). split; [done|]. split; [by eapply grown_trans|lia].
Qed.

Lemma HandleIncludeSymbols_inv base ps sb include :
  ((sb_include_depth sb < INCLUDE_MAX_DEPTH)%nat -> file_handled handle_file file_pendings (S (sb_include_depth sb))) ->
  Forall (fun item => chars_ok (inc_modifier item)) (inc_items include) ->
  symbols_inv base ps sb -> pending_room ps (items_pendings (inc_items include)) ->
  safe (skept_stmt base ps sb (items_pendings (inc_items include))) (HandleIncludeSymbols info parse handle_file ps sb include).
Proof using Hparse Hreads.
  intros Hh Hc Hi Hroom. unfold HandleIncludeSymbols, ExceedsIncludeMaxDepth.
  destruct (Nat.leb_spec INCLUDE_MAX_DEPTH (sb_include_depth sb)) as [Hd|Hd].
  { apply skept_same; [by apply sb_errors_inv|done]. }
  set (init := sb_set_name _ _).
  assert (symbols_inv (sb_mods sb) ps init) as Hinit.
  { destruct (init_symbols_inv (S (sb_include_depth sb)) (sb_mods sb) ps) as [A1 A2 A3 A4 A5 A6 A7 A8 A9 A10]; [apply Hi|]. by split. }
  eapply safe_bind; [by apply (include_symbols_inv (sb_mods sb) sb _ (Hh Hd) (sv_group _ _ _ Hi) Hc ps init)|].
  intros [o ps1] (Ho & Hg & Hl). apply (symbols_inv_mono base ps ps1) in Hi; [|done]. destruct o as [included|].
  - destruct (merge_symbols_inv base ps1 sb included (inc_merge (inc_first include)) Hi (Ho _ eq_refl)) as (sb2 & -> & H1 & H2).
    cbn. split; [done|]. split; [done|]. by split.
  - split; [by apply sb_errors_inv|]. split; [done|]. by split.
Qed.

Lemma handle_symbols_stmt_inv base ps sb stmt :
  ((sb_include_depth sb < INCLUDE_MAX_DEPTH)%nat -> file_handled handle_file file_pendings (S (sb_include_depth sb))) ->
  stmt_wf ctx stmt -> symbols_stmt_ok info stmt -> symbols_inv base ps sb ->
  pending_room ps (symbols_stmt_pendings parse file_pendings stmt) ->
  safe (skept_stmt base ps sb (symbols_stmt_pendings parse file_pendings stmt)) (handle_symbols_stmt info parse handle_file ps sb stmt).
Proof using Hparse Hreads.
  intros Hh Hw Hp Hi Hroom. unfold handle_symbols_stmt. destruct stmt; try (by apply skept_same).
  - by apply HandleIncludeSymbols_inv.
  - by apply symbols_global_inv.
  - eapply safe_bind; [apply vmod_def_safe; [apply Hi|done]|]. intros [b mods] [Hm He].
    apply skept_same; [|done]. destruct Hi. split; try done. by apply (extends_trans _ (sb_mods sb)).
  - apply HandleSymbolsDef_inv; [done|apply Hw|done|done].
  - eapply safe_bind; [apply HandleModMapDef_inv; [done|apply Hw|done]|]. intros [b sb'] [H1 H2]. by apply skept_same.
Qed.

Lemma handle_symbols_stmts_inv base stmts : forall ps sb,
  ((sb_include_depth sb < INCLUDE_MAX_DEPTH)%nat -> file_handled handle_file file_pendings (S (sb_include_depth sb))) ->
  Forall (stmt_wf ctx) stmts -> Forall (symbols_stmt_ok info) stmts -> symbols_inv base ps sb ->
  pending_room ps (sum_list_with (symbols_stmt_pendings parse file_pendings) stmts) ->
  safe (fun r => skept base ps sb (sum_list_with (symbols_stmt_pendings parse file_pendings) stmts) (fst r) (snd r))
    (handle_symbols_stmts info parse handle_file ps sb stmts).
Proof using Hparse Hreads.
  induction stmts as [|stmt stmts IH]; intros ps sb Hh Hw Hp Hi Hroom; cbn [handle_symbols_stmts sum_list_with] in *; [by apply skept_same|].
  apply list.Forall_cons in Hw as [Hw Hws]. apply list.Forall_cons in Hp as [Hp Hps]. unfold pending_room in *.
  eapply safe_bind; [apply (handle_symbols_stmt_inv base); try done; unfold pending_room; lia|].
  intros [[ok sb1] ps1] (Hi1 & Hd1 & Hw1 & Hl1).
  set (sb2 := if ok then sb1 else sb_add_errors 1 sb1).
  assert (symbols_inv base ps1 sb2 /\ sb_include_depth sb2 = sb_include_depth sb) as (Hi2 & Hd2).
  { unfold sb2. destruct ok; [done|]. split; [by apply sb_errors_inv|done]. }
  destruct (_ >? 10).
  - split; [done|]. split; [done|]. cbn [fst snd]. split; [done|lia].
  - eapply safe_mono; [apply IH; [by rewrite Hd2|done|done|done|lia]|]. intros [sb3 ps3] (Hi3 & Hd3 & Hw3 & Hl3).
    cbn [fst snd] in *. split; [done|]. split; [by rewrite <- Hd2|]. split; [|cbn [snd]; lia]. by eapply grown_trans.
Qed.
End handlers.

(** The fuel is over the depth that is left. *)
Lemma HandleSymbolsFile_inv fuel : forall base ps sb file,
  (sb_include_depth sb <= INCLUDE_MAX_DEPTH)%nat -> (INCLUDE_MAX_DEPTH < sb_include_depth sb + fuel)%nat ->
  symbols_file_ok info file -> symbols_inv base ps sb -> pending_room ps (symbols_pendings parse fuel file) ->
  safe (fun r => skept base ps sb (symbols_pendings parse fuel file) (fst r) (snd r)) (HandleSymbolsFile info parse fuel ps sb file).
Proof using Hparse Hreads.
  induction fuel as [|fuel IH]; intros base ps sb file Hd Hf Hok Hi Hroom; cbn [HandleSymbolsFile]; [lia|]. cbn [symbols_pendings].
  apply (handle_symbols_stmts_inv _ (symbols_pendings parse fuel) base (xf_defs file) ps (sb_set_name (xf_name file) sb)); try apply Hok; [| |done].
  - cbn. intros Hlt base' ps' sb' file' Hi' Hd' Hok' Hroom'. apply IH; [lia|lia|done|done|done].
  - destruct Hi. by split.
Qed.
End sections.
