(* ===== verification/SymbolsFind.v ===== *)
(** * The search of a key by its keysym (FindKeyForSymbol, src/xkbcomp/symbols.c)

    The loops over the groups, the levels and the keys end, and find the key
    whose group, then level, then index is the lowest. *)

From Stdlib Require Import ZArith Lia String.
From stdpp Require Import base tactics list numbers.
From S2P Require Import Prelude Numbers Atom Keymap KeymapSpec Keysym Expr Vmod Derived DerivedInv DerivedSpec Sections Symbols SymbolsCopy.

(** A level of a key, and the keysym in it. *)
Definition key_level (k : key) (group level : nat) : option xkb_level :=
  match ky_groups k !! group with Some g => kg_levels g !! level | None => None end.

Definition has_sym_at (k : key) (group level : nat) (sym : Z) : Prop :=
  exists lv, key_level k group level = Some lv /\ level_has_sym lv sym = true.

Section find.
Context (types : list xkb_key_type) (n : nat) (sym : Z).
Let nls := map t_num_levels types.

Lemma level_at_ok k group level : Forall (cgroup_ok nls n) (ky_groups k) ->
  level_at types k group level = Ok (key_level k group level).
Proof using Type.
  intros Hg. unfold level_at, key_level. destruct (ky_groups k !! group) as [g|] eqn:E; [|done].
  rewrite (group_num_levels_ok types n) by exact (Forall_lookup_1 _ _ _ _ Hg E). cbn [result_bind].
  destruct (Nat.ltb_spec level (length (kg_levels g))) as [H|H].
  - destruct (lookup_lt_is_Some_2 _ _ H) as [lv ->]. done.
  - by rewrite lookup_ge_None_2.
Qed.

(** A level is preceded by the lower ones, and a group by the lower ones. *)
Lemma key_level_le k group level level' : (level <= level')%nat -> is_Some (key_level k group level') -> is_Some (key_level k group level).
Proof using Type.
  intros Hl. unfold key_level. destruct (ky_groups k !! group); [|by intros []]. intros H%lookup_lt_is_Some_1.
  apply lookup_lt_is_Some_2. lia.
Qed.

Lemma group_has_level k group group' level : Forall key_type_wf types -> Forall (cgroup_ok nls n) (ky_groups k) ->
  (group <= group')%nat -> is_Some (key_level k group' level) -> is_Some (key_level k group 0).
Proof using Type.
  intros Ht Hg Hle. unfold key_level. destruct (ky_groups k !! group') as [g'|] eqn:E'; [|by intros []]. intros _.
  apply lookup_lt_Some in E'. destruct (lookup_lt_is_Some_2 (ky_groups k) group ltac:(lia)) as [g E]. rewrite E.
  pose proof (cg_type _ _ _ (Forall_lookup_1 _ _ _ _ Hg E)) as Hn. unfold nls in Hn. change (map ?f ?l) with (f <$> l) in Hn.
  apply list_lookup_fmap_Some in Hn as (t & Hn & Hlook). pose proof (twf_levels _ (Forall_lookup_1 _ _ _ _ Ht Hlook)) as Hw.
  apply lookup_lt_is_Some_2. lia.
Qed.

Section keys.
Context (keys : list key).
Hypothesis (Hkeys : Forall (fun k => Forall (cgroup_ok nls n) (ky_groups k)) keys).

Definition some_level (group level : nat) : Prop := Exists (fun k => is_Some (key_level k group level)) keys.

(** No key has the keysym in the group and the level. *)
Definition nowhere (group level : nat) : Prop := forall j k, keys !! j = Some k -> ~ has_sym_at k group level sym.

Definition first_index (start group level i : nat) : Prop :=
  (start <= i)%nat /\ (exists k, keys !! (i - start)%nat = Some k /\ has_sym_at k group level sym) /\
  forall j k, keys !! j = Some k -> has_sym_at k group level sym -> (i - start <= j)%nat.
End keys.

Lemma scan_keys_ok keys group level : Forall (fun k => Forall (cgroup_ok nls n) (ky_groups k)) keys -> forall start,
  exists b o, scan_keys types keys start group level sym = Ok (b, o) /\
    match o with
    | Some i => first_index keys start group level i
    | None => nowhere keys group level /\ (b = true <-> some_level keys group level)
    end.
Proof using Type.
  induction 1 as [|k keys Hk _ IH]; intros start; cbn [scan_keys].
  { exists false, None. split; [done|]. split; [by intros j k|]. split; [done|]. intros H; inversion H. }
  rewrite level_at_ok by done. cbn [result_bind]. destruct (IH (S start)) as (b & o & -> & Ho). cbn [result_bind snd].
  assert (forall b', ~ has_sym_at k group level sym ->
    match o with
    | Some i => first_index (k :: keys) start group level i
    | None => (b' = true <-> some_level (k :: keys) group level) -> nowhere (k :: keys) group level /\ (b' = true <-> some_level (k :: keys) group level)
    end) as Hnext.
  { intros b' Hno. destruct o as [i|].
    - destruct Ho as (H1 & (k' & H2 & H2') & H3). split; [lia|]. split.
      + exists k'. replace (i - start)%nat with (S (i - S start)) by lia. done.
      + intros [|j] k'' Hj Hh; cbn in Hj; [injection Hj as <-; done|]. specialize (H3 j k'' Hj Hh). lia.
    - intros Hb. split; [|done]. intros [|j] k'' Hj; cbn in Hj; [injection Hj as <-; done|]. by apply (proj1 Ho j). }
  destruct (key_level k group level) as [lv|] eqn:E.
  - destruct (level_has_sym lv sym) eqn:Hs.
    + exists true, (Some start). split; [done|]. split; [lia|]. rewrite Nat.sub_diag. split; [|intros; lia].
      exists k. split; [done|]. by exists lv.
    + exists true, o. split; [done|]. assert (~ has_sym_at k group level sym) as Hno by (intros (lv' & E' & Hs'); congruence).
      specialize (Hnext true Hno). destruct o as [i|]; [done|]. apply Hnext. split; [|done]. intros _. apply Exists_cons_hd. by rewrite E.
  - exists b, o. split; [done|]. assert (~ has_sym_at k group level sym) as Hno by (intros (lv' & E' & _); congruence).
    specialize (Hnext b Hno). destruct o as [i|]; [done|]. apply Hnext. destruct Ho as [_ Hb]. rewrite Hb. unfold some_level.
    rewrite Exists_cons, E. split; [by right|]. by intros [[]|].
Qed.

Section bounds.
Context (keys : list key) (start : nat).
Hypothesis (Hkeys : Forall (fun k => Forall (cgroup_ok nls n) (ky_groups k)) keys).

Lemma some_level_bound group level : some_level keys group level -> (S level < levels_bound types)%nat.
Proof using Hkeys.
  intros (k & Hin & lv & Hl)%list.Exists_exists. rewrite list.Forall_forall in Hkeys. specialize (Hkeys k Hin).
  unfold key_level in Hl. destruct (ky_groups k !! group) as [g|] eqn:E; [|done]. apply lookup_lt_Some in Hl.
  pose proof (cg_type _ _ _ (Forall_lookup_1 _ _ _ _ Hkeys E)) as Hn. unfold nls in Hn. change (map ?f ?l) with (f <$> l) in Hn.
  apply list_lookup_fmap_Some in Hn as (t & Hn & Hlook). unfold levels_bound.
  enough (Z.to_nat (t_num_levels t) <= max_list (map (fun t => Z.to_nat (t_num_levels t)) types))%nat by lia.
  apply max_list_elem_of_le, list_elem_of_fmap. exists t. split; [done|]. by eapply list_elem_of_lookup_2.
Qed.

Lemma some_group_bound group level : some_level keys group level -> (S group < groups_bound keys)%nat.
Proof using Type.
  intros (k & Hin & lv & Hl)%list.Exists_exists. unfold key_level in Hl. destruct (ky_groups k !! group) as [g|] eqn:E; [|done].
  apply lookup_lt_Some in E. unfold groups_bound.
  enough (length (ky_groups k) <= max_list (map (fun k => length (ky_groups k)) keys))%nat by lia.
  apply max_list_elem_of_le, list_elem_of_fmap. by exists k.
Qed.

Lemma nowhere_of_none group level : ~ some_level keys group level -> nowhere keys group level.
Proof using Type.
  intros Hn j k Hj (lv & Hl & _). apply Hn, list.Exists_exists. exists k. split; [by eapply list_elem_of_lookup_2|]. by exists lv.
Qed.

Lemma scan_levels_ok group : forall fuel level, (levels_bound types <= level + fuel)%nat -> (0 < fuel)%nat ->
  exists b o, scan_levels fuel types keys start group level sym = Ok (b, o) /\
    match o with
    | Some i => exists l, (level <= l)%nat /\ first_index keys start group l i /\ forall l', (level <= l' < l)%nat -> nowhere keys group l'
    | None => (forall l, (level <= l)%nat -> nowhere keys group l) /\ (b = true <-> some_level keys group level)
    end.
Proof using Hkeys.
  induction fuel as [|fuel IH]; intros level Hb Hf; cbn [scan_levels]; [lia|].
  destruct (scan_keys_ok keys group level Hkeys start) as (b & o & -> & Ho). cbn [result_bind].
  destruct o as [i|].
  { exists true, (Some i). split; [by destruct b|]. exists level. split; [lia|]. split; [done|]. intros; lia. }
  destruct Ho as [Hno Hsome]. destruct b.
  - assert (some_level keys group level) as Hl by (by apply Hsome). pose proof (some_level_bound _ _ Hl) as Hlt.
    destruct (IH (S level) ltac:(lia) ltac:(lia)) as (b & o & -> & Ho). cbn [result_bind snd]. exists true, o. split; [done|].
    destruct o as [i|].
    + destruct Ho as (l & H1 & H2 & H3). exists l. split; [lia|]. split; [done|]. intros l' Hl'.
      destruct (decide (l' = level)) as [->|]; [done|]. apply H3. lia.
    + split; [|by rewrite <- Hsome]. intros l Hl'. destruct (decide (l = level)) as [->|]; [done|]. apply Ho. lia.
  - exists false, None. split; [done|]. split; [|done]. intros l Hl. apply nowhere_of_none.
    intros (k & Hin & Hk)%list.Exists_exists. assert (false = true) as Hft; [|done]. apply Hsome, list.Exists_exists. exists k. split; [done|].
    by apply (key_level_le k group level l).
Qed.

Lemma scan_groups_ok : Forall key_type_wf types -> forall fuel group, (groups_bound keys <= group + fuel)%nat -> (0 < fuel)%nat ->
  exists o, scan_groups fuel (levels_bound types) types keys start group sym = Ok o /\
    match o with
    | Some i => exists g l, (group <= g)%nat /\ first_index keys start g l i /\
        (forall l', (l' < l)%nat -> nowhere keys g l') /\ forall g' l', (group <= g' < g)%nat -> nowhere keys g' l'
    | None => forall g l, (group <= g)%nat -> nowhere keys g l
    end.
Proof using Hkeys.
  intros Ht. induction fuel as [|fuel IH]; intros group Hb Hf; cbn [scan_groups]; [lia|].
  destruct (scan_levels_ok group (levels_bound types) 0) as (b & o & -> & Ho); [lia|unfold levels_bound; lia|]. cbn [result_bind].
  destruct o as [i|].
  { exists (Some i). split; [by destruct b|]. destruct Ho as (l & _ & H2 & H3). exists group, l. split; [lia|]. split; [done|].
    split; [|intros; lia]. intros l' Hl'. apply H3. lia. }
  destruct Ho as [Hno Hsome]. destruct b.
  - assert (some_level keys group 0) as Hl by (by apply Hsome). pose proof (some_group_bound _ _ Hl) as Hlt.
    destruct (IH (S group) ltac:(lia) ltac:(lia)) as (o & -> & Ho). exists o. split; [done|]. destruct o as [i|].
    + destruct Ho as (g & l & H1 & H2 & H3 & H4). exists g, l. split; [lia|]. split; [done|]. split; [done|].
      intros g' l' Hg'. destruct (decide (g' = group)) as [->|]; [apply Hno; lia|]. apply H4. lia.
    + intros g l Hg. destruct (decide (g = group)) as [->|]; [apply Hno; lia|]. apply Ho. lia.
  - exists None. split; [done|]. intros g l Hg. apply nowhere_of_none. intros (k & Hin & Hk)%list.Exists_exists.
    assert (false = true) as Hft; [|done]. apply Hsome, list.Exists_exists. exists k. split; [done|].
    apply (group_has_level k group g l); [done| |done|done]. rewrite list.Forall_forall in Hkeys. by apply Hkeys.
Qed.
End bounds.
End find.

Lemma groups_bound_drop start keys : (groups_bound (drop start keys) <= groups_bound keys)%nat.
Proof.
  unfold groups_bound. revert start. induction keys as [|k keys IH]; intros [|start]; cbn; try lia. specialize (IH start). lia.
Qed.

(** The group, the level and the index of a key, in the order of the search. *)
Definition search_le (x y : nat * nat * nat) : Prop :=
  let '(g, l, i) := x in let '(g', l', i') := y in
  (g < g')%nat \/ g = g' /\ ((l < l')%nat \/ l = l' /\ (i <= i')%nat).

(** Where the keys visited from [start] on have the keysym. *)
Definition sym_at (keys : list key) (start : nat) (sym : Z) (x : nat * nat * nat) : Prop :=
  let '(g, l, i) := x in (start <= i)%nat /\ exists k, keys !! i = Some k /\ has_sym_at k g l sym.

Lemma find_key_lowest (info : keymap_info) (types : list xkb_key_type) (keys : list key) (n : nat) (sym : Z)
    (Htypes : Forall key_type_wf types) (Hkeys : Forall (ckey_ok (map t_num_levels types) n) keys) :
  let found := sym_at keys (keys_start (keymap_of info)) sym in
  exists r, FindKeyForSymbol info types keys sym = Ok r /\
    match r with
    | Some i => exists g l, found (g, l, i) /\ forall x, found x -> search_le (g, l, i) x
    | None => forall x, ~ found x
    end.
Proof.
  intros found. unfold found, FindKeyForSymbol. set (start := keys_start (keymap_of info)). clearbody start. clear found.
  destruct (scan_groups_ok types n sym (drop start keys) start) with (fuel := groups_bound keys) (group := 0%nat) as (o & -> & Ho); [|done| | |].
  - apply list.Forall_drop. eapply list.Forall_impl; [exact Hkeys|]. intros k Hk. apply Hk.
  - apply groups_bound_drop.
  - unfold groups_bound. lia.
  - exists o. split; [done|].
    assert (forall g l i, sym_at keys start sym (g, l, i) -> exists k, drop start keys !! (i - start)%nat = Some k /\ has_sym_at k g l sym) as Hat.
    { intros g l i (Hi & k & Hk & Hs). exists k. rewrite lookup_drop. by replace (start + (i - start))%nat with i by lia. }
    destruct o as [i|].
    + destruct Ho as (g & l & _ & (H1 & (k & H2 & H2') & H3) & H4 & H5). exists g, l. split.
      * split; [done|]. exists k. rewrite lookup_drop in H2. by replace (start + (i - start))%nat with i in H2 by lia.
      * intros [[g' l'] i'] Hx. destruct (Hat _ _ _ Hx) as (k' & Hk' & Hs'). destruct Hx as [Hi' _]. cbn.
        destruct (lt_eq_lt_dec g g') as [[Hg| ->]|Hg]; [by left|right; split; [done|]|by destruct (H5 g' l' ltac:(lia) _ _ Hk')].
        destruct (lt_eq_lt_dec l l') as [[Hl| ->]|Hl]; [by left|right; split; [done|]|by destruct (H4 l' ltac:(lia) _ _ Hk')].
        specialize (H3 _ _ Hk' Hs'). lia.
    + intros [[g l] i] Hx. destruct (Hat _ _ _ Hx) as (k & Hk & Hs). by destruct (Ho g l ltac:(lia) _ _ Hk).
Qed.

(** C31. [FindKeyForSymbol] returns for every keysym, although its loops over
    the groups and the levels have no bound of their own; the key it returns
    has the keysym in the lowest group that holds it in any key, in the lowest
    level of that group, and is the first such key; without a key, no level of
    any key has the keysym. *)
Theorem find_key_for_symbol_spec (info : keymap_info) (types : list xkb_key_type) (keys : list key) (n : nat) (sym : Z)
    (Htypes : Forall key_type_wf types) (Hkeys : Forall (ckey_ok (map t_num_levels types) n) keys) :
  let found := sym_at keys (keys_start (keymap_of info)) sym in
  exists r, FindKeyForSymbol info types keys sym = Ok r /\
    match r with
    | Some i => exists g l, found (g, l, i) /\ forall x, found x -> search_le (g, l, i) x
    | None => forall x, ~ found x
    end.
Proof. by apply (find_key_lowest info types keys n). Qed.

(** The keysym [a] is in the second level of a key, and in the first level of
    the next one. *)
Definition letter_level (sym : Z) : xkb_level := mk_level 1 sym false [sym] [].
Definition letter_keys : list key :=
  [sample_key 0 0 0 0 [];
   sample_key 1 0 0 0 [mk_key_group false false 0 [letter_level 0x62; letter_level 0x61]];
   sample_key 2 0 0 0 [mk_key_group false false 0 [letter_level 0x61; letter_level 0x63]]].

Lemma find_key_for_symbol_spec_witness :
  FindKeyForSymbol sample_info [sample_type] letter_keys 0x61 = Ok (Some 2%nat) /\
  exists g l, sym_at letter_keys 1 0x61 (g, l, 2%nat) /\ forall x, sym_at letter_keys 1 0x61 x -> search_le (g, l, 2%nat) x.
Proof.
  assert (FindKeyForSymbol sample_info [sample_type] letter_keys 0x61 = Ok (Some 2%nat)) as E by (vm_compute; reflexivity).
  split; [exact E|].
  destruct (find_key_for_symbol_spec sample_info [sample_type] letter_keys 0 0x61) as (r & Hr & H).
  - exact (io_types _ _ (cp_info _ sample_info_compiled)).
  - repeat (apply Forall_cons_2 || apply Forall_nil_2).
    all: split; [|unfold ky_num_groups, XKB_MAX_GROUPS; cbn; lia | by apply is_u32_check | cbn; lia | done].
    all: cbn; repeat (apply Forall_cons_2 || apply Forall_nil_2); (split; [reflexivity|]).
    all: cbn; repeat (apply Forall_cons_2 || apply Forall_nil_2); done.
  - rewrite E in Hr. injection Hr as <-. exact H.
Defined.
