(* ===== verification/SymbolsCopySpec.v ===== *)
(** * The keys of the keymap, well formed

    What [CopySymbolsToKeymap] makes of the keys of the symbols section: groups
    with as many levels as their type, and no key lost or renamed. *)

From Stdlib Require Import ZArith Lia String.
From stdpp Require Import base tactics list numbers.
From S2P Require Import Prelude Numbers Atom AtomSpec Keymap KeymapSpec KeysymNames KeysymName Keysym Expr ExprSpec Vmod VmodSpec KeyAliases Derived DerivedInv SymOverlays SymOverlaysSpec Actions Sections Safe ActionsSpec Keycodes Types Compat CompatStore CompatSpec Symbols SymbolsCopy SymbolsInv SymbolsSpec SymbolsFind TypesSpec.

(** ** Types *)

(** A type without the flag that a key sets. *)
Definition forget_required (t : compiled_type) : compiled_type :=
  mk_compiled_type (ct_name t) (ct_type t) (ct_level_names t) false.

Definition same_types (types types' : list compiled_type) : Prop := map forget_required types' = map forget_required types.

Definition type_levels (types : list compiled_type) : list Z := map (fun t => t_num_levels (ct_type t)) types.

Lemma same_types_map {A} (f : compiled_type -> A) types types' : (forall t, f (forget_required t) = f t) ->
  same_types types types' -> map f types' = map f types.
Proof.
  intros Hf H. apply (f_equal (map f)) in H. rewrite !map_map in H.
  rewrite (map_ext _ f Hf types'), (map_ext _ f Hf types) in H. done.
Qed.

Lemma same_types_trans a b c : same_types a b -> same_types b c -> same_types a c.
Proof. unfold same_types. congruence. Qed.

Lemma same_types_length a b : same_types a b -> length b = length a.
Proof. intros H%(f_equal length). by rewrite !length_map in H. Qed.

Definition ctypes_ok (types : list compiled_type) : Prop := types <> [] /\ Forall (fun t => key_type_wf (ct_type t)) types.

Lemma ctypes_ok_same types types' : same_types types types' -> ctypes_ok types -> ctypes_ok types'.
Proof.
  intros Hs [Hne Hf]. split.
  - apply same_types_length in Hs. by destruct types, types'.
  - apply (same_types_map ct_type) in Hs; [|done]. change (Forall key_type_wf (ct_type <$> types')) in Hf || idtac.
    apply list.Forall_fmap. change (ct_type <$> types') with (map ct_type types'). rewrite Hs. by apply list.Forall_fmap.
Qed.

Lemma FindTypeForGroup_ok ctx types keyi g : types <> [] ->
  exists i e types', FindTypeForGroup ctx types keyi g = Ok (i, e, types') /\ same_types types types' /\ (i < length types)%nat.
Proof.
  intros Hne. unfold FindTypeForGroup. destruct (group_type_name ctx keyi g) as [type_name e].
  set (i := if type_name =? XKB_ATOM_NONE then O else _).
  assert (i < length types)%nat as Hi.
  { unfold i. destruct (type_name =? XKB_ATOM_NONE); [by destruct types; [|cbn; lia]|].
    destruct (list_find _ types) as [[j t]|] eqn:E; [|by destruct types; [|cbn; lia]].
    apply list_find_Some in E as (E & _). by apply lookup_lt_Some in E. }
  clearbody i. destruct (lookup_lt_is_Some_2 _ _ Hi) as [t Ht]. rewrite Ht. do 3 eexists. split; [done|]. split; [|done].
  unfold same_types. change (map forget_required) with (fmap (M := list) forget_required). rewrite list_fmap_insert.
  apply list_insert_id. rewrite list_lookup_fmap, Ht. done.
Qed.

(** ** Groups *)

Record tgroup_ok (nls : list Z) (n : nat) (g : typed_group) : Prop := {
  tk_type : nls !! tg_type g = Some (Z.of_nat (length (tg_levels g)));
  tk_some : tg_levels g <> [];
  tk_levels : Forall (klevel_ok n) (tg_levels g);
  tk_actions : has_flag (tg_defined g) GROUP_FIELD_ACTS = false -> Forall without_actions (tg_levels g)
}.

Lemma assign_types_ok ctx keyi n groups : Forall (kgroup_ok n) groups -> forall types, ctypes_ok types ->
  exists l types', assign_types ctx types keyi groups = Ok (l, types') /\ same_types types types' /\
    Forall (tgroup_ok (type_levels types) n) l /\ length l = length groups.
Proof.
  induction 1 as [|g groups Hg _ IH]; intros types Ht; cbn [assign_types]; [by exists [], types|].
  destruct (FindTypeForGroup_ok ctx types keyi g (proj1 Ht)) as (i & e & types1 & -> & Hs & Hi). cbn [result_bind].
  destruct (IH types1 (ctypes_ok_same _ _ Hs Ht)) as (l & types' & -> & Hs' & Hl & Hlen). cbn [result_bind fst snd].
  assert (type_levels types1 = type_levels types) as E by (by apply same_types_map).
  do 2 eexists. split; [done|]. split; [by eapply same_types_trans|]. rewrite E in Hl. split; [|cbn; lia]. constructor; [|done].
  rewrite <- (same_types_length _ _ Hs) in Hi. destruct (lookup_lt_is_Some_2 _ _ Hi) as [t Hlook].
  set (num_levels := match types1 !! i with Some t => _ | None => 0 end).
  assert (num_levels = t_num_levels (ct_type t)) as -> by (unfold num_levels; by rewrite Hlook).
  pose proof (twf_levels _ (Forall_lookup_1 _ _ _ _ (proj2 (ctypes_ok_same _ _ Hs Ht)) Hlook)) as Hw. cbn beta in Hw.
  split; cbn [tg_type tg_levels tg_defined].
  - rewrite <- E. unfold type_levels. change (map ?f ?l) with (f <$> l). rewrite list_lookup_fmap, Hlook. cbn. f_equal.
    rewrite resized_length. lia.
  - intros H. apply (f_equal length) in H. rewrite resized_length in H. cbn in H. lia.
  - apply resized_Forall; [apply zero_level_ok|apply Hg].
  - intros H. by apply resized_Forall; [|by apply Hg].
Qed.

Lemma capitalize_actions lv : lv_actions (capitalize_level lv) = lv_actions lv.
Proof. unfold capitalize_level. by destruct (lv_num_syms lv) as [|[]]. Qed.

Lemma copy_group_ok nls n g : tgroup_ok nls n g -> cgroup_ok nls n (copy_group g) /\ unset_group (copy_group g).
Proof.
  intros [H1 _ H2 H3]. unfold copy_group. split.
  - split; cbn [kg_type kg_levels]; [by rewrite length_map|].
    change (map ?f ?l) with (f <$> l). apply list.Forall_fmap. refine (list.Forall_impl _ _ _ H2 _).
    intros lv [_ Hl]. unfold compose, clevel_ok. by rewrite capitalize_actions.
  - unfold unset_group. cbn [kg_explicit_actions kg_levels]. intros Hf. specialize (H3 Hf).
    change (map ?f ?l) with (f <$> l). apply list.Forall_fmap. refine (list.Forall_impl _ _ _ H3 _).
    intros lv Hl. unfold compose. by rewrite capitalize_actions.
Qed.

Lemma explicit_groups_ok nls n l : Forall (tgroup_ok nls n) l -> forall e, exists e', explicit_groups l e = Ok e'.
Proof.
  induction 1 as [|g l [_ Hs _ _] _ IH]; intros e; cbn [explicit_groups]; [eauto|]. unfold group_explicit.
  destruct (Nat.ltb 1 (length (tg_levels g))); [apply IH|]. destruct (tg_levels g); [done|apply IH].
Qed.

Lemma needed_groups_ok keyi n groups : Forall (kgroup_ok n) groups ->
  Forall (kgroup_ok n) (needed_groups keyi groups) /\ (length (needed_groups keyi groups) <= length groups)%nat.
Proof.
  induction 1 as [|g groups Hg _ [IH1 IH2]]; cbn [needed_groups]; [done|].
  destruct (needed_groups keyi groups); [|split; [by constructor|cbn in *; lia]].
  destruct (_ || _); (split; [repeat (apply Forall_nil_2 || apply Forall_cons_2); done|cbn; lia]).
Qed.

Lemma fill_groups_ok n groups : Forall (kgroup_ok n) groups ->
  Forall (kgroup_ok n) (fill_groups groups) /\ length (fill_groups groups) = length groups.
Proof.
  intros [|g0 l H0 Hl]; cbn [fill_groups]; [done|]. split; [|by cbn; rewrite length_map]. constructor; [done|].
  change (map ?f ?l) with (f <$> l). apply list.Forall_fmap. refine (list.Forall_impl _ _ _ Hl _). intros g Hg. cbn. by destruct (_ =? 0).
Qed.

(** ** Overlays *)

(** Each overlay of the mask has a key of the keymap. *)
Definition overlays_known (nk : nat) (mask : Z) (inline : bool) (keys : list nat) : Prop :=
  forall b, (b < 8)%nat -> has_overlay mask b = true ->
    exists j, keys !! (if inline then 0%nat else overlay_rank mask b) = Some j /\ (j < nk)%nat.

Lemma no_overlays_dropped keys mask bits : forall pos,
  (forall i, (i < length bits)%nat -> exists k, keys !! (pos + i)%nat = Some (Some (Some k))) ->
  drop_null_overlays bits keys pos mask = Ok mask.
Proof.
  induction bits as [|b bits IH]; intros pos Hk; cbn [drop_null_overlays]; [done|].
  destruct (Hk 0%nat ltac:(cbn; lia)) as [k H0]. rewrite Nat.add_0_r in H0. unfold heap_read. rewrite H0. cbn [result_bind].
  apply IH. intros i Hi. replace (S pos + i)%nat with (pos + S i)%nat by lia. apply Hk. cbn. lia.
Qed.

Lemma overlay_prefix_lookup keys : forall j k, (forall i, (i < j)%nat -> exists k, keys !! i = Some (Some (Some k))) ->
  keys !! j = Some (Some (Some k)) -> overlay_prefix keys !! j = Some k.
Proof.
  induction keys as [|x keys IH]; intros [|j] k Hi Hk; cbn in Hk; try done; [by injection Hk as ->|].
  destruct (Hi 0%nat ltac:(lia)) as [k0 H0]. injection H0 as ->. cbn. apply IH; [|done]. intros i Hlt.
  apply (Hi (S i)). lia.
Qed.

Lemma copy_known oc o : kov_ok oc o -> exists mask inline keys, copy_overlays o = Ok (Some (mask, inline, keys)) /\
  overlays_known (oc_num_keys oc) mask inline (overlay_prefix keys).
Proof.
  intros Ho. pose proof (kov_clear _ _ Ho) as Hc. destruct Ho as [[Hm Hst] Hz Hk _]. unfold copy_overlays. rewrite Hc, (proj2 (Z.eqb_neq _ _) Hz).
  cbn [negb andb]. unfold ov_get in Hk. rewrite Hc in Hk, Hst. destruct (ov_storage o) as [key|keys|a]; [| |done].
  - destruct Hst as [[? _]|(b0 & Hb0 & Hm0 & [k0 ->])]; [done|]. do 3 eexists. split; [done|]. intros b Hb Hh.
    exists k0. split; [done|]. destruct (Hk b (Some k0)) as (i & [= <-] & ?); [|done].
    by rewrite (proj2 (Nat.ltb_lt _ _) Hb), Hh.
  - destruct Hst as [_ Hheap].
    assert (forall j b, overlay_bits (ov_mask o) !! j = Some b -> exists k, keys !! j = Some (Some (Some k)) /\ (k < oc_num_keys oc)%nat) as Hat.
    { intros j b Hj. destruct (source_facts _ _ _ Hm Hj) as (Hb & Hh & Hr). destruct (heap_read_ok _ _ b Hheap Hm Hb Hh) as [key Hkey].
      rewrite Hr in Hkey. destruct (Hk b key) as (i & -> & Hi); [|by exists i].
      rewrite (proj2 (Nat.ltb_lt _ _) Hb), Hh. cbn [andb]. by rewrite Hr, Hkey. }
    assert (forall j, (j < length (overlay_bits (ov_mask o)))%nat -> exists k, keys !! j = Some (Some (Some k)) /\ (k < oc_num_keys oc)%nat) as Hall.
    { intros j [b Hb]%lookup_lt_is_Some_2. by eapply Hat. }
    rewrite no_overlays_dropped by (intros i Hi; destruct (Hall i Hi) as (k & ? & _); by exists k). cbn [result_bind].
    rewrite (proj2 (Z.eqb_neq _ _) Hz). do 3 eexists. split; [done|]. intros b Hb Hh.
    assert (b ∈ overlay_bits (ov_mask o)) as [j Hj]%list_elem_of_lookup by (by apply elem_overlay_bits).
    destruct (Hat j b Hj) as (k & Hkey & Hlt). destruct (source_facts _ _ _ Hm Hj) as (_ & _ & ->). exists k. split; [|done].
    apply overlay_prefix_lookup; [|done]. intros i Hi. apply lookup_lt_Some in Hj. destruct (Hall i ltac:(lia)) as (k' & ? & _). by exists k'.
Qed.

(** ** Keys *)

(** A key without groups of its own or with new ones. *)
Record key_copied (nls : list Z) (n nk : nat) (k k' : key) : Prop := {
  kc_ok : ckey_ok nls n k';
  kc_unset : Forall unset_group (ky_groups k');
  kc_overlays : overlays_known nk (ky_overlays k') (ky_overlays_inline k') (ky_overlays_keys k');
  kc_keycode : ky_keycode k' = ky_keycode k;
  kc_name : ky_name k' = ky_name k
}.

Lemma u8_range z : 0 <= u8 z < 2 ^ 8.
Proof. apply Z.mod_pos_bound. lia. Qed.

Lemma u8_le z : 0 <= z -> u8 z <= z.
Proof. intros Hz. apply Z.mod_le; [done|lia]. Qed.

Section copy.
Context (info : keymap_info) (n : nat) (base : list compiled_type).
Hypothesis (Hbase : ctypes_ok base) (Hreads : reads_ok info (ki_mods info)).
Hypothesis (Hshown : forall name b i, XkbKeyByName info name b = Ok (Some i) -> (keys_start (keymap_of info) <= i)%nat).
Let nls := type_levels base.
Let oc := info_overlays info.
Let start := keys_start (keymap_of info).
Let nk := length (ki_keys info).

Lemma copy_key_groups_ok types keyi k0 k : same_types base types -> keyi_ok oc n keyi ->
  key_copied nls n nk k0 k ->
  exists k' types', copy_key_groups (ki_ctx info) types keyi k = Ok (k', types') /\ same_types base types' /\ key_copied nls n nk k0 k'.
Proof using Hbase.
  intros Hs [K1 K2 K3 K4 K5] [[C1 C2 C3 C4 C5] Cu Cov Ck Cn]. unfold copy_key_groups. cbv zeta.
  destruct (needed_groups_ok keyi n (kf_groups keyi) K1) as [N1 N2]. destruct (fill_groups_ok n _ N1) as [F1 F2].
  destruct (assign_types_ok (ki_ctx info) keyi n _ F1 types (ctypes_ok_same _ _ Hs Hbase)) as (l & types' & -> & Hs' & Hl & Hlen).
  assert (type_levels types = nls) as E by (by apply same_types_map). rewrite E in Hl.
  cbn [result_bind fst snd]. destruct (explicit_groups_ok _ _ _ Hl (if existsb (has_explicit_type keyi) (kf_groups keyi)
    then Z.lor (ky_explicit k) EXPLICIT_TYPES else ky_explicit k)) as [e ->]. cbn [result_bind].
  do 2 eexists. split; [done|]. split; [by eapply same_types_trans|].
  assert (Forall (fun g => cgroup_ok nls n g /\ unset_group g) (map copy_group l)) as Hg.
  { change (map ?f ?l) with (f <$> l). apply list.Forall_fmap. refine (list.Forall_impl _ _ _ Hl _). intros g Hg. by apply copy_group_ok. }
  split; [split| |done..]; cbn [ky_groups ky_set_policy ky_set_redirect ky_set_groups ky_set_explicit ky_modmap ky_group_number ky_pending_group].
  - refine (list.Forall_impl _ _ _ Hg _). by intros g [].
  - unfold ky_num_groups, XKB_MAX_GROUPS. cbn. rewrite length_map. lia.
  - done.
  - apply u8_range.
  - intros Hp. specialize (K4 Hp). pose proof (u8_le _ K3). lia.
  - refine (list.Forall_impl _ _ _ Hg _). by intros g [].
Qed.

(** A change of the other fields. *)
Lemma key_copied_fields k k1 k2 : key_copied nls n nk k k1 ->
  overlays_known nk (ky_overlays k2) (ky_overlays_inline k2) (ky_overlays_keys k2) -> ky_groups k2 = ky_groups k1 -> ky_modmap k2 = ky_modmap k1 ->
  ky_group_number k2 = ky_group_number k1 -> ky_pending_group k2 = ky_pending_group k1 -> ky_keycode k2 = ky_keycode k1 ->
  ky_name k2 = ky_name k1 -> key_copied nls n nk k k2.
Proof using Type.
  intros [[C1 C2 C3 C4 C5] H2 Hov H3 H4] Ho E1 E2 E3 E4 E5 E6. unfold ky_num_groups in C2. split; [split|..]; unfold ky_num_groups; rewrite ?E1, ?E2, ?E3, ?E4, ?E5, ?E6; done.
Qed.

Lemma copy_key_fields_ok keyi k k1 : keyi_ok oc n keyi -> key_copied nls n nk k k1 ->
  exists k', copy_key_fields keyi k1 = Ok k' /\ key_copied nls n nk k k' /\ ky_groups k' = ky_groups k1.
Proof using Type.
  intros Hk Hc. unfold copy_key_fields.
  set (k2 := if has_flag (kf_defined keyi) KEY_FIELD_VMODMAP then _ else k1).
  assert (key_copied nls n nk k k2 /\ ky_groups k2 = ky_groups k1) as [H2 E2].
  { unfold k2. destruct (has_flag _ _); [|done]. split; [|done]. apply (key_copied_fields k k1); try done. apply Hc. }
  set (k3 := match kf_repeat keyi with KEY_REPEAT_UNDEFINED => k2 | _ => _ end).
  assert (key_copied nls n nk k k3 /\ ky_groups k3 = ky_groups k1) as [H3 E3].
  { unfold k3. destruct (kf_repeat keyi); (split; [|done]); try done; apply (key_copied_fields k k2); try done; apply H2. }
  clearbody k3. destruct (kf_overlays keyi) as [o|] eqn:Eo; [|by exists k3].
  pose proof (kk_overlays _ _ _ Hk o Eo) as Ho.
  destruct (copy_known oc o Ho) as (mask & inline & keys & -> & Hkn). cbn [result_bind].
  eexists. split; [done|]. split; [|done]. by apply (key_copied_fields k k3).
Qed.

(** The keys so far. *)
Record keys_copied (keys : list key) : Prop := {
  kd_copied : Forall2 (key_copied nls n nk) (ki_keys info) keys;
  kd_hidden : Forall (fun k => ky_groups k = []) (take start keys)
}.

Lemma keys_copied_insert keys i k k0 : keys_copied keys -> (start <= i)%nat -> ki_keys info !! i = Some k0 ->
  key_copied nls n nk k0 k -> keys_copied (<[i := k]> keys).
Proof using Type.
  intros [H1 H2] Hi Hk0 Hk. split.
  - rewrite <- (list_insert_id (ki_keys info) i k0) by done. by apply Forall2_insert.
  - rewrite take_insert_ge by done. done.
Qed.

Lemma keys_copied_lookup keys i k0 : keys_copied keys -> ki_keys info !! i = Some k0 ->
  exists k, keys !! i = Some k /\ key_copied nls n nk k0 k.
Proof using Type. intros [H _] Hk. destruct (Forall2_lookup_l _ _ _ _ _ H Hk) as (k & ? & ?). eauto. Qed.

Lemma CopySymbolsDefToKeymap_ok keys types keyi : keys_copied keys -> same_types base types -> keyi_ok oc n keyi ->
  exists b keys' types', CopySymbolsDefToKeymap info keys types keyi = Ok (b, keys', types') /\ keys_copied keys' /\ same_types base types'.
Proof using Hbase Hreads Hshown.
  intros Hks Hs Hk. unfold CopySymbolsDefToKeymap.
  destruct (key_by_name_ok info (ki_mods info) Hreads (kf_name keyi) false) as (r & Hr & Hi). rewrite Hr. cbn [result_bind].
  destruct r as [i|]; [|by exists false, keys, types]. apply Hshown in Hr. destruct (Hi i eq_refl) as [k0 Hk0].
  destruct (keys_copied_lookup _ _ _ Hks Hk0) as (k & -> & Hck). cbv zeta. set (kn := ky_set_groups _ [] k).
  assert (key_copied nls n nk k0 kn) as Hkn.
  { destruct Hck as [[C1 C2 C3 C4 C5] C6 C7 C8 C9]. split; [split|..]; try done; cbn; apply Forall_nil_2. }
  clearbody kn. destruct (needed_groups keyi (kf_groups keyi)) as [|g gs] eqn:Eg.
  - destruct (_ || _).
    + destruct (copy_key_fields_ok keyi k0 kn Hk Hkn) as (k' & -> & Hk' & _). cbn [result_bind]. do 3 eexists. split; [done|].
      split; [by eapply keys_copied_insert|done].
    + do 3 eexists. split; [done|]. split; [by eapply keys_copied_insert|done].
  - destruct (copy_key_groups_ok types keyi k0 kn Hs Hk Hkn) as (k1 & types' & -> & Hs' & Hk1). cbn [result_bind fst snd].
    destruct (copy_key_fields_ok keyi k0 k1 Hk Hk1) as (k' & -> & Hk' & _). cbn [result_bind].
    do 3 eexists. split; [done|]. split; [by eapply keys_copied_insert|done].
Qed.

Lemma copy_keys_ok l : Forall (keyi_ok oc n) l -> forall keys types, keys_copied keys -> same_types base types ->
  exists keys' types', copy_keys info keys types l = Ok (keys', types') /\ keys_copied keys' /\ same_types base types'.
Proof using Hbase Hreads Hshown.
  induction 1 as [|keyi l Hk _ IH]; intros keys types Hks Hs; cbn [copy_keys]; [by exists keys, types|].
  destruct (CopySymbolsDefToKeymap_ok keys types keyi Hks Hs Hk) as (b & keys1 & types1 & -> & H1 & H2). cbn [result_bind].
  by apply IH.
Qed.

(** ** Modifier map *)

Lemma keys_copied_ckeys keys : keys_copied keys -> Forall (ckey_ok nls n) keys.
Proof using Type.
  intros [H _]. apply Forall_lookup_2. intros i k Hk. destruct (Forall2_lookup_r _ _ _ _ _ H Hk) as (k0 & _ & Hc). apply Hc.
Qed.

Lemma CopyModMapDefToKeymap_ok keys types entry : keys_copied keys -> same_types base types -> is_u32 (mm_mods entry) ->
  exists keys' entry', CopyModMapDefToKeymap info (map ct_type types) keys entry = Ok (keys', entry') /\ keys_copied keys'.
Proof using Hbase Hreads Hshown.
  intros Hks Hs Hm. unfold CopyModMapDefToKeymap.
  assert (exists r, match mm_target entry with
      | ModKeyName name => XkbKeyByName info name true
      | ModKeySym sym => FindKeyForSymbol info (map ct_type types) keys sym
      end = Ok r /\ forall i, r = Some i -> (start <= i)%nat /\ exists k0, ki_keys info !! i = Some k0) as (r & -> & Hr).
  { destruct (mm_target entry) as [name|sym].
    - destruct (key_by_name_ok info (ki_mods info) Hreads name true) as (r & Hr & Hi). exists r. split; [done|]. intros i ->.
      split; [by eapply Hshown|]. by apply Hi.
    - destruct (find_key_lowest info (map ct_type types) keys n sym) as (r & -> & Hr).
      + change (map ?f ?l) with (f <$> l). apply list.Forall_fmap. by apply (ctypes_ok_same base).
      + rewrite map_map. change (map _ types) with (type_levels types).
        assert (type_levels types = nls) as -> by (by apply same_types_map). by apply keys_copied_ckeys.
      + exists r. split; [done|]. intros i ->. destruct Hr as (g & l & (Hi & k & Hk & _) & _). split; [done|].
        destruct (Forall2_lookup_r _ _ _ _ _ (kd_copied _ Hks) Hk) as (k0 & ? & _). eauto. }
  cbn [result_bind]. destruct r as [i|]; [|by do 2 eexists]. destruct (Hr i eq_refl) as [Hi (k0 & Hk0)].
  destruct (mm_mods entry =? 0); [by do 2 eexists|]. destruct (keys_copied_lookup _ _ _ Hks Hk0) as (k & -> & Hk).
  do 2 eexists. split; [done|]. apply (keys_copied_insert keys i _ k0); [done..|].
  destruct Hk as [[C1 C2 C3 C4 C5] C6 C7 C8 C9]. split; [split|..]; try done. cbn. by apply is_u32_lor.
Qed.

Lemma copy_modmaps_ok types modmaps : same_types base types -> Forall (fun mm => is_u32 (mm_mods mm)) modmaps -> forall keys, keys_copied keys ->
  exists keys' modmaps', copy_modmaps info (map ct_type types) keys modmaps = Ok (keys', modmaps') /\ keys_copied keys'.
Proof using Hbase Hreads Hshown.
  intros Hs. induction 1 as [|mm modmaps Hm _ IH]; intros keys Hks; cbn [copy_modmaps]; [by exists keys, []|].
  destruct (CopyModMapDefToKeymap_ok keys types mm Hks Hs Hm) as (keys1 & mm1 & -> & H1). cbn [result_bind fst snd].
  destruct (IH keys1 H1) as (keys2 & modmaps2 & -> & H2). cbn. by do 2 eexists.
Qed.
End copy.

(** ** The compilation of the section *)

(** A key of the keycodes section, that nothing has set. *)
Record blank_key_ok (k : key) : Prop := {
  bk_groups : ky_groups k = [];
  bk_modmap : is_u32 (ky_modmap k);
  bk_number : ky_group_number k = 0;
  bk_pending : ky_pending_group k = false;
  bk_overlays : ky_overlays k = 0
}.

(** What the section leaves: keys with the same keycodes and names, and none
    before the first one that is visited; groups with as many levels as their
    type, those without explicit actions having no action; overlays with a key
    of the keymap each; the same types, some
    required; virtual modifiers and pending computations only added. *)
Record symbols_ok (info : keymap_info) (types : list compiled_type) (ps : list pending_computation) (r : symbols_result) : Prop := {
  sk_keys : Forall (ckey_ok (type_levels types) (length ps)) (sr_keys r);
  sk_unset : Forall (fun k => Forall unset_group (ky_groups k)) (sr_keys r);
  sk_overlays : Forall (fun k => overlays_known (length (ki_keys info)) (ky_overlays k) (ky_overlays_inline k) (ky_overlays_keys k)) (sr_keys r);
  sk_hidden : Forall (fun k => ky_groups k = []) (take (keys_start (keymap_of info)) (sr_keys r));
  sk_keycodes : map ky_keycode (sr_keys r) = map ky_keycode (ki_keys info);
  sk_names : map ky_name (sr_keys r) = map ky_name (ki_keys info);
  sk_types : same_types types (sr_types r);
  sk_mods : vmods_ok (sr_mods r);
  sk_extends : extends (ki_mods info) (sr_mods r);
  sk_group_names : (length (sr_group_names r) <= 32)%nat;
  sk_pendings : grown (ki_ctx info) (ki_pendings info) ps
}.

Lemma keys_copied_start info n base : Forall blank_key_ok (ki_keys info) -> keys_copied info n base (ki_keys info).
Proof.
  intros Hb. split.
  - apply Forall_Forall2_diag. refine (list.Forall_impl _ _ _ Hb _). intros k [B1 B2 B3 B4 B5]. split; try done; rewrite ?B1; try apply Forall_nil_2.
    2: { rewrite B5. intros b _. by rewrite has_overlay_0. }
    split; unfold ky_num_groups, XKB_MAX_GROUPS; rewrite ?B1, ?B3, ?B4; try done; try apply Forall_nil_2.
  - apply list.Forall_take. refine (list.Forall_impl _ _ _ Hb _). by intros k [].
Qed.

Lemma Forall2_map_same {A B} (f : A -> B) (R : A -> A -> Prop) l l' : (forall x y, R x y -> f y = f x) -> Forall2 R l l' -> map f l' = map f l.
Proof. intros Hf. induction 1; cbn; [done|]. f_equal; auto. Qed.

Lemma CopySymbolsToKeymap_ok info types ps sb : ctypes_ok types -> reads_ok info (ki_mods info) ->
  (forall name b i, XkbKeyByName info name b = Ok (Some i) -> (keys_start (keymap_of info) <= i)%nat) ->
  Forall blank_key_ok (ki_keys info) -> symbols_inv info (ki_mods info) ps sb -> grown (ki_ctx info) (ki_pendings info) ps ->
  exists r, CopySymbolsToKeymap info types sb = Ok r /\ symbols_ok info types ps r.
Proof.
  intros Ht Hr Hs Hb Hi Hg. unfold CopySymbolsToKeymap.
  pose proof (keys_copied_start info (length ps) types Hb) as Hk.
  destruct (copy_keys_ok info (length ps) types Ht Hr Hs (sb_keys sb) (ko_keys _ _ _ (sv_keys _ _ _ _ Hi)) _ types Hk eq_refl)
    as (keys1 & types1 & -> & Hk1 & Ht1). cbn [result_bind fst snd].
  destruct (copy_modmaps_ok info (length ps) types Ht Hr Hs types1 (sb_modmaps sb) Ht1 (sv_modmaps _ _ _ _ Hi) keys1 Hk1)
    as (keys2 & mms & -> & Hk2). cbn [result_bind fst snd].
  eexists. split; [done|]. pose proof (kd_copied _ _ _ _ Hk2) as H2. split; cbn; try done; try apply Hi.
  - by apply (keys_copied_ckeys info).
  - apply Forall_lookup_2. intros i k Hlook. destruct (Forall2_lookup_r _ _ _ _ _ H2 Hlook) as (k0 & _ & Hc). apply Hc.
  - apply Forall_lookup_2. intros i k Hlook. destruct (Forall2_lookup_r _ _ _ _ _ H2 Hlook) as (k0 & _ & Hc). apply Hc.
  - apply Hk2.
  - eapply Forall2_map_same; [|exact H2]. by intros x y [].
  - eapply Forall2_map_same; [|exact H2]. by intros x y [].
Qed.

Lemma CompileSymbols_ok (info : keymap_info) (types : list compiled_type)
    (parse : xkb_file_type -> include_item -> list (option XkbFile)) (file : option XkbFile) :
  (forall item f, Some f ∈ parse FILE_TYPE_SYMBOLS item -> symbols_file_ok info f) ->
  (forall f, file = Some f -> symbols_file_ok info f /\
     pending_room (ki_pendings info) (symbols_pendings parse (S INCLUDE_MAX_DEPTH) f)) ->
  vmods_ok (ki_mods info) -> (forall mods, vmods_ok mods -> reads_ok info mods) -> ctypes_ok types -> Forall blank_key_ok (ki_keys info) ->
  (forall name b i, XkbKeyByName info name b = Ok (Some i) -> (keys_start (keymap_of info) <= i)%nat) ->
  match CompileSymbols info types parse file with
  | Ok (None, _) => True
  | Ok (Some r, ps) => symbols_ok info types ps r
  | Fault f => overflow_only f
  end.
Proof.
  intros Hparse Hfile Hm Hr Ht Hb Hs.
  change (safe (fun r => match r with (Some r, ps) => symbols_ok info types ps r | _ => True end) (CompileSymbols info types parse file)).
  unfold CompileSymbols. cbv zeta. set (sb := InitSymbolsInfo info 0 (ki_mods info)).
  assert (symbols_inv info (ki_mods info) (ki_pendings info) sb) as Hi by (by apply init_symbols_inv).
  eapply safe_bind with (P := fun r => symbols_inv info (ki_mods info) (snd r) (fst r) /\ grown (ki_ctx info) (ki_pendings info) (snd r)).
  - destruct file as [file|]; [|split; [done|apply grown_refl]]. destruct (Hfile file eq_refl) as [Hw Hroom].
    eapply safe_mono.
    { apply (HandleSymbolsFile_inv info Hr parse Hparse (S INCLUDE_MAX_DEPTH) (ki_mods info) (ki_pendings info) sb file); try done; cbn; lia. }
    intros [sb1 ps1] (H1 & _ & H2 & _). by split.
  - intros [sb1 ps1] [H1 H2]. cbn [fst snd] in *. destruct (negb _); [done|].
    destruct (CopySymbolsToKeymap_ok info types ps1 sb1) as (r & -> & Hok); try done. by apply Hr.
Qed.


(** ** Samples *)

Definition symbols_words : atom_table :=
  match intern_all atom_table_new (map bytes_of ["Shift"; "Lock"; "Control"; "Mod1"; "Mod2"; "Mod3"; "Mod4"; "Mod5";
    "*"; "AC01"; "AC02"; "modifiers"; "SetMods"; "NoAction"; "symbols"; "actions"; "type"; "name"; "overlay1"; "none";
    "ONE_LEVEL"; "TWO_LEVEL"; "ALPHABETIC"; "key"; "repeat"; "AC03"; "overlay2"]%string) with
  | Ok (_, t) => t | Fault _ => atom_table_new end.

(** The keys AC01, AC02 and AC03, of keycodes 1 to 3. *)
Definition symbols_names : list KeycodeMatch :=
  map (fun n => if Nat.eqb n 10 then mk_match true false 1 else if Nat.eqb n 11 then mk_match true false 2
                else if Nat.eqb n 26 then mk_match true false 3 else mk_match false false 0) (seq 0 27).

Definition symbols_info (format : Z) : keymap_info :=
  mk_info symbols_words 0 4 None None [] format [] 1 3 4
    [zero_key; set_key_name 10 (set_keycode 1 zero_key); set_key_name 11 (set_keycode 2 zero_key);
     set_key_name 26 (set_keycode 3 zero_key)] symbols_names [] [] [] sample_mods MOD_REAL_MASK_ALL 0 0 [].

Definition two_level (name : Z) : compiled_type :=
  mk_compiled_type name (mk_key_type (mk_xkb_mods 1 0) 2 [mk_entry 1 (mk_xkb_mods 1 0) (mk_xkb_mods 0 0)]) [] false.

Definition four_level : compiled_type :=
  mk_compiled_type 0 (mk_key_type (mk_xkb_mods 3 0) 4 [mk_entry 3 (mk_xkb_mods 3 0) (mk_xkb_mods 0 0)]) [] false.

Definition symbols_types : list compiled_type :=
  [mk_compiled_type 21 (mk_key_type (mk_xkb_mods 0 0) 1 []) [] false; two_level 22; two_level 23].

(** [modifiers = Shift] *)
Definition set_shift : ExprDef :=
  STMT_EXPR_ACTION_DECL 13 [ExprBinary STMT_EXPR_ASSIGN (STMT_EXPR_IDENT 12) (STMT_EXPR_IDENT 1)].
Definition no_action_decl : ExprDef := STMT_EXPR_ACTION_DECL 14 [].

Definition key_stmt (name : Z) (body : list VarDef) : statement := STMT_SYMBOLS MERGE_DEFAULT name body.
Definition syms_of (field : option ExprDef) (l : list (list Z)) : VarDef :=
  match l with [] => mk_var MERGE_DEFAULT field STMT_EXPR_EMPTY_LIST []
  | syms :: l => mk_var MERGE_DEFAULT field (STMT_EXPR_KEYSYM_LIST syms) (map STMT_EXPR_KEYSYM_LIST l) end.
Definition acts_of (field : option ExprDef) (l : list (list ExprDef)) : VarDef :=
  match l with [] => mk_var MERGE_DEFAULT field STMT_EXPR_EMPTY_LIST []
  | acts :: l => mk_var MERGE_DEFAULT field (STMT_EXPR_ACTION_LIST acts) (map STMT_EXPR_ACTION_LIST l) end.

Definition compile_symbols (format : Z) (types : list compiled_type) (stmts : list statement)
    : result (option symbols_result * list pending_computation) :=
  CompileSymbols (symbols_info format) types no_includes (Some (mk_file None stmts FILE_TYPE_SYMBOLS 0)).

(** The keysyms and the number of actions of the levels of the groups, and the
    modifiers of the keys. *)
Definition shown_keys (r : result (option symbols_result * list pending_computation))
    : option (list (list (list (Z * nat)) * Z)) :=
  match r with
  | Ok (Some r, _) =>
      Some (map (fun k => (map (fun g => map (fun lv => (level_sym lv, length (lv_actions lv))) (kg_levels g)) (ky_groups k), ky_modmap k))
        (sr_keys r))
  | _ => None
  end.

(** [key <AC01> { [a, A] };  key <AC02> { [b], [SetMods(modifiers=Shift)] };
    modifier_map Shift { <AC02>, a };] *)
Definition symbols_file : XkbFile :=
  mk_file None
    [key_stmt 10 [syms_of None [[0x61]; [0x41]]];
     key_stmt 11 [syms_of None [[0x62]]; acts_of None [[set_shift]]];
     STMT_MODMAP MERGE_DEFAULT (STMT_EXPR_IDENT 1) [STMT_EXPR_KEYNAME_LITERAL 11; STMT_EXPR_KEYSYM_LITERAL 0x61]] FILE_TYPE_SYMBOLS 0.

Lemma symbols_reads_ok format mods : vmods_ok mods -> reads_ok (symbols_info format) mods.
Proof.
  intros Hm. split; [by apply enum_length|cbn; lia|]. intros name entry He Hf. unfold item in He.
  destruct (name <? 0) eqn:Hn; [done|]. apply Z.ltb_ge in Hn.
  assert (Z.to_nat name < 27)%nat as Hlt by (apply lookup_lt_Some in He; exact He).
  assert (name = Z.of_nat (Z.to_nat name)) as -> by lia. revert He Hf. generalize (Z.to_nat name) Hlt. clear. intros n Hlt.
  do 27 (destruct n as [|n]; [cbn; intros [= <-]; cbn; first [discriminate|intros _; vm_compute; eauto]|]). lia.
Qed.

Lemma symbols_shown format name b i : XkbKeyByName (symbols_info format) name b = Ok (Some i) -> (1 <= i)%nat.
Proof.
  unfold XkbKeyByName, item. destruct (name <? 0) eqn:Hn; [done|]. apply Z.ltb_ge in Hn.
  destruct (ki_key_names (symbols_info format) !! Z.to_nat name) as [e|] eqn:He; [|done].
  assert (Z.to_nat name < 27)%nat as Hlt by (apply lookup_lt_Some in He; exact He).
  revert He. rewrite <- (Z2Nat.id name Hn), ?Nat2Z.id. generalize (Z.to_nat name) Hlt. clear. intros n Hlt.
  do 27 (destruct n as [|n]; [intros [= <-]; vm_compute; try discriminate; intros [= <-]; lia|]). lia.
Qed.

Lemma symbols_blank format : Forall blank_key_ok (ki_keys (symbols_info format)).
Proof. repeat (apply Forall_cons_2 || apply Forall_nil_2); (split; [reflexivity|by apply is_u32_check|reflexivity..]). Qed.

Lemma symbols_types_ok : ctypes_ok symbols_types.
Proof.
  split; [done|]. repeat (apply Forall_cons_2 || apply Forall_nil_2).
  all: split; cbn; [repeat (apply Forall_cons_2 || apply Forall_nil_2); cbn; lia|unfold XKB_LEVEL_INVALID; lia].
Qed.

Lemma symbols_file_wf format : symbols_file_ok (symbols_info format) symbols_file.
Proof.
  assert (forall info v, vr_name v = None -> lists_wf (ki_ctx info) (vr_value v) (vr_next v) ->
    is_prefix "overlay" (bytes_of (match vr_value v with STMT_EXPR_ACTION_LIST _ => "actions" | _ => "symbols" end)) = false -> body_ok info v) as Hbody.
  { intros info v Hn Hl Hp. split; [done|]. unfold body_field. rewrite Hn. intros field ndx [= <- <-]. split; [done|].
    cbn in *. destruct (vr_value v); cbn in *; congruence. }
  split.
  - apply Forall_cons_2; [|apply Forall_cons_2; [|apply Forall_cons_2; [|apply Forall_nil_2]]]; cbn [stmt_wf].
    + split; [atom|]. apply Forall_cons_2; [|apply Forall_nil_2]. done.
    + split; [atom|]. apply Forall_cons_2; [done|]. apply Forall_cons_2; [|apply Forall_nil_2]. cbn. repeat split; atom.
    + split; [atom|]. repeat (apply Forall_cons_2 || apply Forall_nil_2); done.
  - apply Forall_cons_2; [|apply Forall_cons_2; [|apply Forall_cons_2; [|apply Forall_nil_2]]]; cbn [symbols_stmt_ok].
    + apply Forall_cons_2; [|apply Forall_nil_2]. apply Hbody; [done| |done].
      repeat (apply Forall_cons_2 || apply Forall_nil_2); cbn; repeat (apply Forall_cons_2 || apply Forall_nil_2); done.
    + apply Forall_cons_2; [|apply Forall_cons_2; [|apply Forall_nil_2]].
      * apply Hbody; [done| |done]. repeat (apply Forall_cons_2 || apply Forall_nil_2); cbn; repeat (apply Forall_cons_2 || apply Forall_nil_2); done.
      * apply Hbody; [done| |done]. repeat (apply Forall_cons_2 || apply Forall_nil_2); cbn. repeat split; atom.
    + done.
Qed.


(** *** Indices that resolve to zero

    [symbols[0]]: the index is decremented after the check of its range, and
    so is the one of [type[0]] and [name[0]]. *)

Example zero_index_resolves format :
  ExprResolveGroup (ki_group_info (symbols_info format)) (STMT_EXPR_INTEGER_LITERAL 0) false false = Ok (PARSER_SUCCESS 0, false).
Proof. reflexivity. Qed.

Lemma zero_index_out_of_bounds info k e value next b : (length (kf_groups k) <= 32)%nat ->
  ExprResolveGroup (ki_group_info info) e false false = Ok (PARSER_SUCCESS 0, b) ->
  AddSymbolsToKey info k (Some e) value next = Fault FaultOutOfBounds.
Proof.
  intros Hl He. unfold AddSymbolsToKey, GetGroupIndex. rewrite He. cbn [result_bind fst].
  change (u32 (0 - 1)) with (2 ^ 32 - 1). change (u32 (2 ^ 32 - 1 + 1)) with 0.
  destruct (Z.geb_spec (2 ^ 32 - 1) (Z.of_nat (length (kf_groups k)))); [|lia].
  unfold at_group, item. replace (2 ^ 32 - 1 <? 0) with false by done. rewrite lookup_ge_None_2; [done|].
  rewrite resized_length. lia.
Qed.

Lemma zero_name_asserts info sb e value merge b : sb_explicit_group sb = None -> is_Some (ExprResolveString value) ->
  (length (sb_group_names sb) <= 32)%nat -> ExprResolveGroup (ki_group_info info) e false false = Ok (PARSER_SUCCESS 0, b) ->
  SetGroupName info sb (Some e) value merge = Fault FaultAssert.
Proof.
  intros Hx [name Hv] Hl He. unfold SetGroupName. rewrite He. cbn [result_bind fst]. rewrite Hv, Hx. cbv zeta.
  change (u32 (0 - 1)) with (2 ^ 32 - 1). change (u32 (2 ^ 32 - 1 + 1)) with 0.
  destruct (Z.geb_spec (2 ^ 32 - 1) (Z.of_nat (length (sb_group_names sb)))); [|lia].
  replace (Z.of_nat (length (sb_group_names sb)) <? 0) with false by (symmetry; apply Z.ltb_ge; lia). done.
Qed.

(** *** Levels lost

    [key <AC01> { symbols = [a, NoSymbol, c, d], actions = [SetMods(...), NoAction()] };]
    has one level: the trailing empty actions drop the keysyms after them.
    With the same statement, but for the second action, it has four. *)

Definition key_field (n : Z) : option ExprDef := Some (STMT_EXPR_IDENT n).

Definition syms_acts (acts : list (list ExprDef)) : list statement :=
  [key_stmt 10 [syms_of (key_field 15) [[0x61]; []; [0x63]; [0x64]]; acts_of (key_field 16) acts]].

Example trailing_actions_drop_keysyms :
  shown_keys (compile_symbols XKB_KEYMAP_FORMAT_TEXT_V2 [four_level] (syms_acts [[set_shift]; [no_action_decl]])) =
    Some [([], 0); ([[(0x61, 1%nat); (0, 0%nat); (0, 0%nat); (0, 0%nat)]], 0); ([], 0); ([], 0)] /\
  shown_keys (compile_symbols XKB_KEYMAP_FORMAT_TEXT_V2 [four_level] (syms_acts [[set_shift]])) =
    Some [([], 0); ([[(0x61, 1%nat); (0, 0%nat); (0x63, 0%nat); (0x64, 0%nat)]], 0); ([], 0); ([], 0)].
Proof. split; vm_compute; reflexivity. Qed.

(** *** Overlays of the default key

    [key.overlay1 = <AC02>; key.overlay2 = <AC03>; key <AC01> { [a] };]: the
    key has the array of the default key. *)
Definition key_var (field value : Z) : statement :=
  STMT_VAR (mk_var MERGE_DEFAULT (Some (STMT_EXPR_FIELD_REF 24 field)) (STMT_EXPR_KEYNAME_LITERAL value) []).

Example default_overlays_shared :
  compile_symbols XKB_KEYMAP_FORMAT_TEXT_V2 symbols_types [key_var 19 11; key_var 27 26; key_stmt 10 [syms_of None [[0x61]]]] =
    Fault FaultUseAfterFree.
Proof. vm_compute. reflexivity. Qed.
