(* ===== verification/CompileKeymap.v ===== *)
(** * Compilation of a keymap (src/xkbcomp/keymap.c, src/xkbcomp/xkbcomp.c)

    The sections of a keymap file, compiled one after the other into the keymap,
    then its derived fields.  What each section reads of the keymap is in
    [keymap_info]; the types keep their names beside it. *)

From Stdlib Require Import ZArith Lia String.
From stdpp Require Import base tactics list numbers.
From S2P Require Import Prelude Numbers Atom Keymap KeysymName Expr Vmod KeyAliases Derived Actions Sections Keycodes Types Compat Symbols SymbolsCopy.

(** ** The new keymap *)

Definition XKB_KEYMAP_COMPILE_STRICT_MODE : Z := 2 ^ 0.
Definition PARSER_NO_UNKNOWN_SECTION_FLAGS : Z := 2 ^ 14.
Definition PARSER_STRICT_FLAGS_ALL : Z := Z.shiftl PARSER_NO_UNKNOWN_SECTION_FLAGS 1 - 1.
Definition PARSER_V1_STRICT_FLAGS : Z := PARSER_STRICT_FLAGS_ALL.
Definition PARSER_V1_LAX_FLAGS : Z := Z.ldiff PARSER_V1_STRICT_FLAGS PARSER_NO_FIELD_VALUE_MISMATCH.
Definition PARSER_V2_STRICT_FLAGS : Z := PARSER_STRICT_FLAGS_ALL.
Definition PARSER_V2_LAX_FLAGS : Z := 0.

Definition parser_strict_flags_from_keymap (format flags : Z) : Z :=
  if format =? XKB_KEYMAP_FORMAT_TEXT_V1
  then if has_flag flags XKB_KEYMAP_COMPILE_STRICT_MODE then PARSER_V1_STRICT_FLAGS else PARSER_V1_LAX_FLAGS
  else if has_flag flags XKB_KEYMAP_COMPILE_STRICT_MODE then PARSER_V2_STRICT_FLAGS else PARSER_V2_LAX_FLAGS.

Definition XKB_MAX_GROUPS_X11 : Z := 4.
Definition format_max_groups (format : Z) : Z :=
  if format =? XKB_KEYMAP_FORMAT_TEXT_V1 then XKB_MAX_GROUPS_X11 else XKB_MAX_GROUPS.

(** [update_builtin_keymap_fields] *)
Definition builtin_mods (ctx : atom_table) : xkb_mod_set :=
  builtin_mod_set (map (literal ctx) ["Shift"; "Lock"; "Control"; "Mod1"; "Mod2"; "Mod3"; "Mod4"; "Mod5"]%string).

(** The keymap of [xkb_keymap_new], with the number of layouts of the RMLVO, 0
    for the other sources, in the [keymap_info] of [CompileKeymap]: the entries
    "last" are only active when this number is known. *)
Definition new_keymap_info (ctx : atom_table) (format flags num_groups : Z) : keymap_info :=
  mk_info ctx (parser_strict_flags_from_keymap format flags) (format_max_groups format)
    (if num_groups =? 0 then None else Some num_groups)
    (if num_groups =? 0 then None else Some (if num_groups <=? XKB_MAX_GROUPS then bit (num_groups - 1) else 0))
    [] format [] 0 0 0 [] [] [] [] [] (builtin_mods ctx) MOD_REAL_MASK_ALL 0 num_groups [].

(** ** The sections *)

(** [files], by type. *)
Record keymap_sections := mk_sections {
  kx_keycodes : option XkbFile;
  kx_types : option XkbFile;
  kx_compat : option XkbFile;
  kx_symbols : option XkbFile
}.

Definition no_sections : keymap_sections := mk_sections None None None None.

Definition first_file (old : option XkbFile) (file : XkbFile) : option XkbFile :=
  match old with Some f => Some f | None => Some file end.

(** The first section of each type; the geometry and the sections of other
    types are ignored. *)
Fixpoint collect_sections (defs : list XkbFile) (files : keymap_sections) : keymap_sections :=
  match defs with
  | [] => files
  | file :: defs =>
      collect_sections defs
        (match xf_file_type file with
         | FILE_TYPE_KEYCODES => mk_sections (first_file (kx_keycodes files) file) (kx_types files) (kx_compat files) (kx_symbols files)
         | FILE_TYPE_TYPES => mk_sections (kx_keycodes files) (first_file (kx_types files) file) (kx_compat files) (kx_symbols files)
         | FILE_TYPE_COMPAT => mk_sections (kx_keycodes files) (kx_types files) (first_file (kx_compat files) file) (kx_symbols files)
         | FILE_TYPE_SYMBOLS => mk_sections (kx_keycodes files) (kx_types files) (kx_compat files) (first_file (kx_symbols files) file)
         | _ => files
         end)
  end.

(** What each section copies to the keymap. *)
Definition ki_set_keycodes (r : keycodes_result) (i : keymap_info) : keymap_info :=
  mk_info (ki_ctx i) (ki_strict i) (ki_max_groups i) (ki_last_index i) (ki_last_mask i) (ki_pendings i) (ki_format i)
    (kr_leds r) (kr_min_key_code r) (kr_max_key_code r) (kr_num_keys_low r) (kr_keys r) (kr_key_names r) (ki_key_aliases i)
    (ki_types i) (ki_interprets i) (ki_mods i) (ki_canonical_state_mask i) (kr_redirect_key_auto r) (ki_num_groups i) (ki_group_names i).

Definition ki_set_compat (r : compat_result) (interprets : list xkb_sym_interpret) (ps : list pending_computation) (i : keymap_info) : keymap_info :=
  ki_set_mods (cr_mods r) (ki_set_leds ps (cr_leds r) (ki_set_interprets ps interprets i)).

Definition ki_set_group_names l (i : keymap_info) := mk_info (ki_ctx i) (ki_strict i) (ki_max_groups i) (ki_last_index i) (ki_last_mask i) (ki_pendings i) (ki_format i) (ki_leds i) (ki_min_key_code i) (ki_max_key_code i) (ki_num_keys_low i) (ki_keys i) (ki_key_names i) (ki_key_aliases i) (ki_types i) (ki_interprets i) (ki_mods i) (ki_canonical_state_mask i) (ki_redirect_key_auto i) (ki_num_groups i) l.

Definition ki_set_symbols (r : symbols_result) (ps : list pending_computation) (i : keymap_info) : keymap_info :=
  ki_set_group_names (sr_group_names r) (ki_set_mods (sr_mods r) (ki_set_types (map ct_type (sr_types r)) (ki_set_keys ps (sr_keys r) i))).

(** The keymap, with what the queries do not use. *)
Record compiled_keymap := mk_compiled_keymap {
  cm_info : keymap_info;
  cm_types : list compiled_type;
  cm_modmaps : list ModMapEntry;
  cm_keycodes_section_name : option (list Z);
  cm_types_section_name : option (list Z);
  cm_compat_section_name : option (list Z);
  cm_symbols_section_name : option (list Z)
}.

(** The names of the types whose masks [UpdateDerivedKeymapFields] computes. *)
Definition with_types (types : list compiled_type) (l : list xkb_key_type) : list compiled_type :=
  zip_with (fun t ty => mk_compiled_type (ct_name t) ty (ct_level_names t) (ct_required t)) types l.

Section compile.
Context (parse : xkb_file_type -> include_item -> list (option XkbFile)).

Definition canonical_types (ctx : atom_table) : list Z :=
  map (literal ctx) ["ONE_LEVEL"; "TWO_LEVEL"; "ALPHABETIC"; "KEYPAD"]%string.

(** [None] for the returned [false].  The arrays of actions of the
    interpretations are read after the symbols section, which does not use
    them. *)
Definition compile_sections (info : keymap_info) (files : keymap_sections) : result (option compiled_keymap) :=
  let! k := CompileKeycodes parse (ki_ctx info) (ki_strict info) (kx_keycodes files) in
  let info := ki_set_keycodes k info in
  let! t := CompileKeyTypes parse (ki_ctx info) (ki_strict info) (canonical_types (ki_ctx info)) (ki_mods info) (kx_types files) in
  let info := ki_set_mods (tr_mods t) info in
  let+ c := CompileCompatMap info parse (mk_shared (ki_pendings info) []) (kx_compat files) in
  let '(c, sh) := c in
  match c with
  | None => Ok None
  | Some c =>
      let info := ki_set_compat c [] (sh_pendings sh) info in
      let+ s := CompileSymbols info (tr_types t) parse (kx_symbols files) in
      let '(s, pendings) := s in
      match s with
      | None => Ok None
      | Some s =>
          let+ interprets := keymap_interprets sh (cr_interprets c) in
          let info := ki_set_interprets pendings interprets (ki_set_symbols s pendings info) in
          Ok (Some (mk_compiled_keymap info (sr_types s) (sr_modmaps s)
            (kr_section_name k) (tr_section_name t) (cr_section_name c) (sr_section_name s)))
      end
  end.

Definition CompileKeymap (info : keymap_info) (defs : list XkbFile) : result (option compiled_keymap) :=
  let! cm := compile_sections info (collect_sections defs no_sections) in
  let! info := UpdateDerivedKeymapFields (cm_info cm) in
  Ok (Some (mk_compiled_keymap info (with_types (cm_types cm) (ki_types info)) (cm_modmaps cm)
    (cm_keycodes_section_name cm) (cm_types_section_name cm) (cm_compat_section_name cm) (cm_symbols_section_name cm))).
End compile.
