(* ===== verification/CompileKeymapSpec.v ===== *)
(** * The compilation of a keymap, from its sections to the keyboard states

    What each section establishes is what the next one relies on, and what all
    leave is what [UpdateDerivedKeymapFields] completes in a keymap that the
    states of a keyboard need. *)

From Stdlib Require Import ZArith Lia String.
From stdpp Require Import base tactics list numbers gmap.
From S2P Require Import Prelude Numbers Atom AtomSpec Keymap State KeymapSpec Filters Server Safety Reach Machine Overlays MachineInv MachineSpec KeysymNames KeysymName Expr ExprSpec Vmod VmodSpec KeyAliases Derived DerivedInv DerivedSpec SymOverlays SymOverlaysSpec Actions Sections Safe ActionsSpec Keycodes KeycodesStore KeycodesDict KeycodesSpec Types TypesSpec Compat CompatStore CompatSpec Symbols SymbolsCopy SymbolsInv SymbolsSpec SymbolsFind SymbolsCopySpec CompileKeymap.

(** ** What the end of the compilation leaves as it is

    [UpdateDerivedKeymapFields] changes no keycode, name, overlay or modifier
    map of a key, no bound of the keycodes, and no format. *)

(** ** Successes

    [returns Q r]: a value that [r] returns satisfies [Q]. *)

Definition returns {A} (Q : A -> Prop) (r : result (option A)) : Prop :=
  match r with Ok (Some a) => Q a | _ => True end.

Lemma returns_obind {A B} (P : A -> Prop) (Q : B -> Prop) (m : result (option A)) (k : A -> result (option B)) :
  returns P m -> (forall a, P a -> returns Q (k a)) -> returns Q (obind m k).
Proof. destruct m as [[a|]|]; cbn; auto. Qed.

Lemma returns_bind {A B} (Q : B -> Prop) (m : result A) (k : A -> result (option B)) :
  (forall a, returns Q (k a)) -> returns Q (result_bind m k).
Proof. destruct m; cbn; auto. Qed.

Lemma returns_any {A} (r : result (option A)) : returns (fun _ => True) r.
Proof. by destruct r as [[]|]. Qed.

Lemma returns_traverse {T A B} (R : A -> B -> Prop) (f : T -> A -> result (option (T * B))) l : forall s,
  (forall s x, returns (fun r => R x r.2) (f s x)) -> returns (fun r => Forall2 R l r.2) (traverse f s l).
Proof.
  induction l as [|x l IH]; intros s Hf; cbn [traverse]; [constructor|].
  eapply returns_obind; [apply Hf|]. intros [s1 y] Hy. eapply returns_obind; [by apply IH|]. intros [s2 l2] Hl. by constructor.
Qed.

(** ** The keys *)

Record same_key (k k' : key) : Prop := {
  sa_keycode : ky_keycode k' = ky_keycode k;
  sa_name : ky_name k' = ky_name k;
  sa_modmap : ky_modmap k' = ky_modmap k;
  sa_mask : ky_overlays k' = ky_overlays k;
  sa_inline : ky_overlays_inline k' = ky_overlays_inline k;
  sa_overlays : ky_overlays_keys k' = ky_overlays_keys k
}.

#[export] Instance same_key_preorder : PreOrder same_key.
Proof. split; [by split|]. intros x y z [] []. split; congruence. Qed.

Definition same_keys : list key -> list key -> Prop := Forall2 same_key.

Lemma same_keys_refl l : same_keys l l.
Proof. by apply Forall2_refl_on, Forall_true. Qed.

Lemma same_keys_trans l1 l2 l3 : same_keys l1 l2 -> same_keys l2 l3 -> same_keys l1 l3.
Proof.
  intros H12. revert l3. induction H12 as [|x y l1 l2 Hxy _ IH]; intros l3 H23; inversion H23; subst; constructor; [|by apply IH].
  by transitivity y.
Qed.

(** What is left of the keymap. *)
Record same_frame (info info' : keymap_info) : Prop := {
  sf_keys : same_keys (ki_keys info) (ki_keys info');
  sf_min : ki_min_key_code info' = ki_min_key_code info;
  sf_max : ki_max_key_code info' = ki_max_key_code info;
  sf_low : ki_num_keys_low info' = ki_num_keys_low info;
  sf_format : ki_format info' = ki_format info;
  sf_ctx : ki_ctx info' = ki_ctx info;
  sf_redirect : ki_redirect_key_auto info' = ki_redirect_key_auto info;
  sf_num_types : length (ki_types info') = length (ki_types info)
}.

#[export] Instance same_frame_preorder : PreOrder same_frame.
Proof.
  split; [intros info; split; try done; apply same_keys_refl|]. intros x y z [K1 ?????? T1] [K2 ?????? T2].
  split; [by eapply same_keys_trans|congruence..].
Qed.

(** A change of other fields. *)
Ltac same_frame_of := split; try done; try apply same_keys_refl.

Lemma foreach_key_same {T} info (f : T -> key -> result (option (T * key))) s :
  (forall s k, returns (fun r => same_key k r.2) (f s k)) -> returns (fun r => same_keys (ki_keys info) r.2) (foreach_key info f s).
Proof.
  intros Hf. unfold foreach_key. eapply returns_obind; [by apply (returns_traverse same_key)|]. intros [s1 l] Hl.
  cbn [returns snd fst] in *. rewrite <- (take_drop (keys_start (keymap_of info)) (ki_keys info)) at 1.
  apply Forall2_app; [apply same_keys_refl|exact Hl].
Qed.

Lemma apply_interps_same km types interps k : returns (fun r => same_key k r.2) (ApplyInterpsToKey km types interps k).
Proof.
  unfold ApplyInterpsToKey. eapply returns_obind; [apply returns_any|]. intros [[st implicit] groups] _. by split.
Qed.

Lemma check_actions_same types k : returns (same_key k) (CheckMultipleActionsCategories types k).
Proof. unfold CheckMultipleActionsCategories. eapply returns_obind; [apply returns_any|]. intros r _. by split. Qed.

Lemma pending_key_same gi ps k : returns (fun r => same_key k r.2) (update_pending_key_fields gi ps k).
Proof.
  unfold update_pending_key_fields. destruct (ky_pending_group k); [|by split]. apply returns_bind. intros pc.
  destruct (pc_computed pc); [by split|]. apply returns_bind. intros [r b]. cbn [fst]. destruct r; [by split|by split|].
  by destruct (has_flag _ _).
Qed.

Lemma update_key_same info b ps k : returns (fun r => same_key k r.2) (update_key_actions info b ps k).
Proof.
  unfold update_key_actions. eapply returns_obind; [apply pending_key_same|]. intros [ps1 k1] Hk. cbn [snd] in Hk.
  eapply returns_obind; [apply returns_any|]. intros r _. destruct Hk. by split.
Qed.

Lemma derive_interprets_same info : returns (same_frame info) (derive_interprets info).
Proof.
  unfold derive_interprets. eapply returns_obind.
  - apply foreach_key_same. intros interps k. eapply returns_obind; [apply apply_interps_same|]. intros [i1 k1] Hk. cbn [fst snd] in *.
    eapply returns_obind; [apply check_actions_same|]. intros k2 Hk2. cbn. by transitivity k1.
  - intros [i1 keys] Hk. by split.
Qed.

Theorem update_derived_frame info : returns (same_frame info) (UpdateDerivedKeymapFields info).
Proof.
  unfold UpdateDerivedKeymapFields.
  assert (forall (m : step) i, (forall i, returns (same_frame i) (m i)) -> same_frame info i -> forall k,
    (forall i', same_frame info i' -> returns (same_frame info) (k i')) -> returns (same_frame info) (obind (m i) k)) as Hstep.
  { intros m i Hm Hi k Hk. eapply returns_obind; [apply Hm|]. intros i' Hi'. apply Hk. by transitivity i. }
  assert (forall f : keymap_info -> keymap_info, (forall i, same_frame i (f i)) -> forall i, same_frame info i -> same_frame info (f i)) as Hfun.
  { intros f Hf i Hi. by transitivity i. }
  apply Hstep; [|done|].
  { intros i. unfold derive_aliases. apply returns_bind. intros a. same_frame_of. }
  intros i1 H1. cbv zeta. apply Hstep.
  { intros i. unfold derive_pending_interprets. destruct (has_pendings i); [|cbn; reflexivity]. cbv zeta.
    eapply returns_obind; [apply returns_any|]. intros r _. same_frame_of. }
  { apply (Hfun derive_num_groups); [|done]. intros i. same_frame_of. }
  intros i2 H2. apply Hstep; [apply derive_interprets_same|done|]. intros i3 H3. apply Hstep.
  { intros i. unfold derive_canonical. destruct (_ =? _); [|done]. same_frame_of. }
  { apply (Hfun derive_vmods); [|done]. intros i. same_frame_of. }
  intros i4 H4. apply Hstep.
  { intros i. unfold derive_actions. eapply returns_obind; [apply foreach_key_same, update_key_same|]. intros [ps keys] Hk. by split. }
  { apply (Hfun derive_types); [|done]. intros i. same_frame_of. cbn. apply length_map. }
  intros i5 H5. unfold derive_leds. eapply returns_obind; [apply returns_any|]. intros r _. cbn.
  transitivity i5; [done|]. same_frame_of.
Qed.

(** ** The new keymap *)

(** The atom 0 is none. *)
Definition atoms_ok (ctx : atom_table) : Prop := at_strings ctx !! 0%nat = Some None.

Lemma literal_defined ctx s : atoms_ok ctx -> literal ctx s <> XKB_ATOM_NONE.
Proof.
  intros Ha. unfold literal, XKB_ATOM_NONE. destruct (list_find _ _) as [[i t]|] eqn:E.
  - apply list_find_Some in E as (Hi & -> & _). destruct i; [|lia]. unfold atoms_ok in Ha. congruence.
  - apply lookup_lt_Some in Ha. lia.
Qed.

Lemma builtin_mods_ok ctx : atoms_ok ctx -> vmods_ok (builtin_mods ctx).
Proof.
  intros Ha. split; [reflexivity|cbn; unfold XKB_MAX_MODS; lia|by apply is_u32_check|].
  intros i m Hi. assert (i < 32)%nat as Hlt by (apply lookup_lt_Some in Hi; exact Hi).
  do 8 (destruct i as [|i]; [injection Hi as <-; split; [by apply is_u32_check|split; [done|]; split; [by apply literal_defined|done]]|]).
  do 24 (destruct i as [|i]; [cbn in Hi; injection Hi as <-; split; [by apply is_u32_check|done]|]). lia.
Qed.

(** ** The first section of each type *)

Definition first_of (type : xkb_file_type) (defs : list XkbFile) : option XkbFile :=
  snd <$> list_find (fun f => xf_file_type f = type) defs.

Lemma first_of_cons type f defs :
  first_of type (f :: defs) = if decide (xf_file_type f = type) then Some f else first_of type defs.
Proof. unfold first_of. cbn. destruct (decide _); [done|]. by destruct (list_find _ defs) as [[]|]. Qed.

Lemma first_file_of old type f defs : xf_file_type f = type ->
  match first_file old f with Some g => Some g | None => first_of type defs end =
  match old with Some g => Some g | None => first_of type (f :: defs) end.
Proof. intros Hf. rewrite first_of_cons, decide_True by done. by destruct old. Qed.

Lemma collect_sections_from defs : forall files,
  let r := collect_sections defs files in
  kx_keycodes r = match kx_keycodes files with Some f => Some f | None => first_of FILE_TYPE_KEYCODES defs end /\
  kx_types r = match kx_types files with Some f => Some f | None => first_of FILE_TYPE_TYPES defs end /\
  kx_compat r = match kx_compat files with Some f => Some f | None => first_of FILE_TYPE_COMPAT defs end /\
  kx_symbols r = match kx_symbols files with Some f => Some f | None => first_of FILE_TYPE_SYMBOLS defs end.
Proof.
  induction defs as [|f defs IH]; intros [k t c s]; cbn [collect_sections].
  - cbn. by destruct k, t, c, s.
  - rewrite !first_of_cons. destruct (IH (match xf_file_type f with
      | FILE_TYPE_KEYCODES => mk_sections (first_file k f) t c s | FILE_TYPE_TYPES => mk_sections k (first_file t f) c s
      | FILE_TYPE_COMPAT => mk_sections k t (first_file c f) s | FILE_TYPE_SYMBOLS => mk_sections k t c (first_file s f)
      | _ => mk_sections k t c s end)) as (H1 & H2 & H3 & H4).
    cbn [kx_keycodes kx_types kx_compat kx_symbols]. rewrite H1, H2, H3, H4. clear.
    destruct (xf_file_type f); cbn; repeat split; by destruct k, t, c, s.
Qed.

(** ** The keys of the keycodes section, as the other sections find them *)

Section keycodes.
Context (info : keymap_info) (r : keycodes_result) (D : keydict).
Hypothesis (Hok : keycodes_ok r D) (Hkeys : ki_keys info = kr_keys r) (Hnames : ki_key_names info = kr_key_names r)
  (Hmin : ki_min_key_code info = kr_min_key_code r) (Hlow : ki_num_keys_low info = kr_num_keys_low r).

Lemma found_key name m : item (ki_key_names info) name = Some m -> match_found m = true -> match_is_alias m = false ->
  exists k, item (ki_keys info) (match_value m) = Some k /\ ky_name k = name /\ name <> XKB_ATOM_NONE /\
    key_index_of info name (match_value m) = Ok (Z.to_nat (match_value m)).
Proof using Hok Hkeys Hnames.
  rewrite Hnames. intros Hi Hf Ha. pose proof (KeycodesSpec.ko_names _ _ Hok name m Hi Hf) as H. rewrite Ha in H.
  destruct H as (k & Hk & Hn & Hd). exists k. rewrite Hkeys. split; [done|]. split; [done|].
  split; [apply (KeycodesSpec.ko_keys _ _ Hok) in Hd as (_ & _ & _ & _ & ?); done|]. unfold key_index_of. rewrite Hkeys, Hk, Hn, Z.eqb_refl. done.
Qed.

Lemma found_alias name m : item (ki_key_names info) name = Some m -> match_found m = true -> match_is_alias m = true ->
  exists real, item (ki_key_names info) (match_value m) = Some real /\ match_found real = true /\ match_is_alias real = false.
Proof using Hok Hnames.
  rewrite Hnames. intros Hi Hf Ha. pose proof (KeycodesSpec.ko_names _ _ Hok name m Hi Hf) as H. rewrite Ha in H. destruct H as [_ [kc Hkc]].
  destruct (ko_complete _ _ Hok (match_value m)) as (real & Hr & Hrf); [left; by exists kc|]. exists real. split; [done|]. split; [done|].
  destruct (match_is_alias real) eqn:E; [|done]. pose proof (KeycodesSpec.ko_names _ _ Hok _ _ Hr Hrf) as H2. rewrite E in H2.
  pose proof (dw_disjoint _ (ko_dict _ _ Hok) _ _ Hkc). destruct H2. congruence.
Qed.

Lemma keycodes_reads mods : ki_max_groups info <= 32 -> vmods_ok mods -> reads_ok info mods.
Proof using Hok Hkeys Hnames.
  intros Hmax Hm. split; [by apply enum_length|done|]. intros name m Hi Hf. destruct (match_is_alias m) eqn:Ha.
  - destruct (found_alias name m Hi Hf Ha) as (real & Hr & Hrf & Hra). destruct (found_key _ _ Hr Hrf Hra) as (k & _ & _ & _ & Hk). eauto.
  - destruct (found_key _ _ Hi Hf Ha) as (k & _ & _ & _ & Hk). eauto.
Qed.

Lemma named_key_shown name idx : name <> XKB_ATOM_NONE -> (exists k, item (ki_keys info) idx = Some k /\ ky_name k = name) ->
  (keys_start (keymap_of info) <= Z.to_nat idx)%nat.
Proof using Hok Hkeys Hmin Hlow.
  intros Hn (k & Hk & Hkn). unfold item in Hk. destruct (Z.ltb_spec idx 0) as [?|Hp]; [done|]. rewrite Hkeys in Hk.
  unfold keys_start. cbn. rewrite Hlow, Hmin. destruct (ko_shown _ _ Hok _ _ Hk) as [H| ->]; [congruence| |cbn; lia].
  destruct (_ =? 0); lia.
Qed.

Lemma keycodes_shown name b i : XkbKeyByName info name b = Ok (Some i) -> (keys_start (keymap_of info) <= i)%nat.
Proof using Hok Hkeys Hnames Hmin Hlow.
  unfold XkbKeyByName. destruct (item (ki_key_names info) name) as [m|] eqn:Hi; [|done]. destruct (match_found m) eqn:Hf; cbn [negb]; [|done].
  destruct (match_is_alias m) eqn:Ha; cbn [negb].
  - destruct b; [|done]. destruct (found_alias name m Hi Hf Ha) as (real & Hr & Hrf & Hra). rewrite Hr.
    destruct (found_key _ _ Hr Hrf Hra) as (k & Hk & Hkn & Hne & ->). cbn. intros [= <-]. eapply named_key_shown; [exact Hne|eauto].
  - destruct (found_key _ _ Hi Hf Ha) as (k & Hk & Hkn & Hne & ->). cbn. intros [= <-]. eapply named_key_shown; [exact Hne|eauto].
Qed.

Lemma keycodes_blank : Forall blank_key_ok (ki_keys info).
Proof using Hok Hkeys.
  rewrite Hkeys. eapply list.Forall_impl; [exact (ko_blank _ _ Hok)|]. intros k ->. by split.
Qed.
End keycodes.

(** ** The sections, one after the other *)

(** What the symbols section may add to the pending computations. *)
Definition symbols_section_pendings (parse : xkb_file_type -> include_item -> list (option XkbFile)) (file : option XkbFile) : nat :=
  match file with Some f => symbols_pendings parse (S INCLUDE_MAX_DEPTH) f | None => 0 end.

(** What a source keeps: the files of the definitions and those included. *)
Record source_ok (info : keymap_info) (parse : xkb_file_type -> include_item -> list (option XkbFile)) (defs : list XkbFile) : Prop := {
  so_atoms : atoms_ok (ki_ctx info);
  so_parse : parse_wf (ki_ctx info) parse;
  so_parse_compat : forall item f, Some f ∈ parse FILE_TYPE_COMPAT item -> compat_file_ok (ki_ctx info) f;
  so_parse_symbols : forall item f, Some f ∈ parse FILE_TYPE_SYMBOLS item -> symbols_file_ok info f;
  so_defs : Forall (fun f => file_wf (ki_ctx info) f /\
    (xf_file_type f = FILE_TYPE_COMPAT -> compat_file_ok (ki_ctx info) f) /\
    (xf_file_type f = FILE_TYPE_SYMBOLS -> symbols_file_ok info f)) defs;
  so_room : Z.of_nat (section_pendings parse (first_of FILE_TYPE_COMPAT defs) +
    symbols_section_pendings parse (first_of FILE_TYPE_SYMBOLS defs)) < 2 ^ 31
}.

Lemma first_of_Some type defs f : first_of type defs = Some f -> f ∈ defs /\ xf_file_type f = type.
Proof.
  unfold first_of. intros H. apply fmap_Some in H as ([i g] & Hl & ->). apply list_find_Some in Hl as (Hi & Ht & _).
  split; [by eapply list_elem_of_lookup_2|done].
Qed.

Definition sections_of (defs : list XkbFile) : keymap_sections :=
  mk_sections (first_of FILE_TYPE_KEYCODES defs) (first_of FILE_TYPE_TYPES defs) (first_of FILE_TYPE_COMPAT defs) (first_of FILE_TYPE_SYMBOLS defs).

Lemma collect_sections_spec defs : collect_sections defs no_sections = sections_of defs.
Proof.
  destruct (collect_sections_from defs no_sections) as (H1 & H2 & H3 & H4).
  cbn in H1, H2, H3, H4. unfold sections_of. rewrite <- H1, <- H2, <- H3, <- H4. by destruct (collect_sections defs no_sections).
Qed.

(** What a section may do. *)
Definition sections_ok (info : keymap_info) : Prop :=
  compiled info /\ Forall (fun k => overlays_known (length (ki_keys info)) (ky_overlays k) (ky_overlays_inline k) (ky_overlays_keys k)) (ki_keys info).

Section compile.
Context (parse : xkb_file_type -> include_item -> list (option XkbFile)) (defs : list XkbFile) (ctx : atom_table) (format flags num_groups : Z).
Let info0 := new_keymap_info ctx format flags num_groups.
Hypothesis (Hgroups : 0 <= num_groups <= 32) (Hsrc : source_ok info0 parse defs).

Lemma first_of_ok type f : first_of type defs = Some f -> xf_file_type f = type /\ file_wf ctx f /\
  (xf_file_type f = FILE_TYPE_COMPAT -> compat_file_ok ctx f) /\ (xf_file_type f = FILE_TYPE_SYMBOLS -> symbols_file_ok info0 f).
Proof using Hsrc. intros [Hin Ht]%first_of_Some. split; [done|]. exact (proj1 (list.Forall_forall _ _) (so_defs _ _ _ Hsrc) f Hin). Qed.

Lemma first_of_wf type f : first_of type defs = Some f -> file_wf ctx f.
Proof using Hsrc. intros H. by destruct (first_of_ok type f H) as (_ & ? & _). Qed.

Lemma max_groups_le : ki_max_groups info0 <= 32.
Proof using Type. cbn. unfold format_max_groups. by destruct (_ =? _). Qed.

Lemma to_ctypes base t : types_ok base t -> ctypes_ok (tr_types t).
Proof. intros [Hne _ Hw _ _ _ _]. split; [done|]. eapply list.Forall_impl; [exact Hw|]. intros x Hx. apply Hx. Qed.

Lemma pendings_ok ps ps' : grown ctx [] ps -> grown ctx ps ps' -> Forall (pending_ok ctx) ps'.
Proof.
  intros H1 H2. destruct (grown_trans _ _ _ _ H1 H2) as (e & -> & He). cbn. eapply list.Forall_impl; [exact He|].
  intros pc [Hpc _]. by apply expr_wf_ok.
Qed.

(** The earlier sections change nothing that the form of a symbols file depends
    on. *)
Lemma symbols_file_kept k m c ps file :
  symbols_file_ok info0 file -> symbols_file_ok (ki_set_compat c [] ps (ki_set_mods m (ki_set_keycodes k info0))) file.
Proof using Type.
  set (info3 := ki_set_compat c [] ps _).
  assert (forall field ndx value, plain_field info0 field ndx value -> plain_field info3 field ndx value) as Hp by (intros ? ? ? []; by split).
  intros [Hw Hs]. split; [exact Hw|]. refine (list.Forall_impl _ _ _ Hs _). intros [] Hst; try exact Hst.
  - destruct Hst as [Hl Hv]. split; [exact Hl|]. intros elem field ndx Hlhs. destruct (Hv elem field ndx Hlhs) as [H1 H2]. split; auto.
  - refine (list.Forall_impl _ _ _ Hst _). intros v [Hl Hb]. split; [exact Hl|]. intros field ndx Hf. apply Hp, (Hb field ndx Hf).
Qed.

(** The keymap once the last section is copied. *)
Lemma sections_compiled k D t c sh s ps interprets :
  let info1 := ki_set_keycodes k info0 in
  let info2 := ki_set_mods (tr_mods t) info1 in
  let info3 := ki_set_compat c [] (sh_pendings sh) info2 in
  keycodes_ok k D -> types_ok (ki_mods info1) t -> compat_ok info2 sh c -> symbols_ok info3 (tr_types t) ps s ->
  keymap_interprets sh (cr_interprets c) = Ok interprets ->
  sections_ok (ki_set_interprets ps interprets (ki_set_symbols s ps info3)).
Proof using Hgroups.
  intros info1 info2 info3 Hk Ht Hc Hs Hi. pose proof (grown_length _ _ _ (sk_pendings _ _ _ _ Hs)) as Hlen. cbn in Hlen.
  destruct (co_read _ _ _ Hc) as (l & Hl & Hin & _). rewrite Hi in Hl. injection Hl as <-.
  assert (num_levels_of (ki_set_interprets ps interprets (ki_set_symbols s ps info3)) = type_levels (tr_types t)) as Hnl.
  { unfold num_levels_of, type_levels. cbn. rewrite List.map_map. by apply same_types_map, Hs. }
  assert (length (sr_keys s) = length (ki_keys info3)) as Hnk.
  { rewrite <- (length_map ky_keycode), (sk_keycodes _ _ _ _ Hs). apply length_map. }
  split; [split; [|apply Hs|apply Hs|reflexivity]|]; cbn.
  - split; rewrite ?Hnl; cbn.
    + apply Hs.
    + apply Hs.
    + rewrite (sk_keycodes _ _ _ _ Hs). apply Hk.
    + rewrite (same_types_map ct_type _ _ (fun _ => eq_refl) (sk_types _ _ _ _ Hs)). apply list.Forall_fmap.
      apply (to_ctypes _ _ Ht).
    + eapply list.Forall_impl; [exact Hin|]. intros i [Ha Hv]. split; [|done]. eapply list.Forall_impl; [exact Ha|].
      intros a. by apply caction_ok_mono.
    + apply vmods_ok_mods, Hs.
    + apply Hc.
    + eapply list.Forall_impl; [exact (co_led_pending _ _ _ Hc)|]. cbn. intros led Hled Hp. specialize (Hled Hp). lia.
    + exact Hgroups.
    + apply max_groups_le.
    + by apply is_u32_check.
    + split; [done|]. apply (pendings_ok (sh_pendings sh)); [apply Hc|apply Hs].
  - rewrite Hnk. apply Hs.
Qed.

Lemma compile_sections_ok :
  within compat_fault (fun r => match r with Some cm => sections_ok (cm_info cm) | None => True end)
    (compile_sections parse info0 (sections_of defs)).
Proof using Hgroups Hsrc.
  pose proof max_groups_le as Hmax.
  pose proof (builtin_mods_ok ctx (so_atoms _ _ _ Hsrc)) as Hbuiltin. unfold compile_sections, sections_of. cbn [kx_keycodes kx_types kx_compat kx_symbols].
  pose proof (CompileKeycodes_ok parse ctx (ki_strict info0) (first_of FILE_TYPE_KEYCODES defs) (so_parse _ _ _ Hsrc) (first_of_wf _)) as Hk.
  change (ki_ctx info0) with ctx in *.
  destruct (CompileKeycodes _ _ _ _) as [[k|]|f]; [|done|].
  2: { destruct Hk as [?|[-> _]]; [by left|by right; right]. }
  destruct Hk as (D & _ & Hk). cbn [obind result_bind].
  set (info1 := ki_set_keycodes k info0).
  pose proof (CompileKeyTypes_ok parse ctx (ki_strict info0) (canonical_types ctx) (ki_mods info1) (first_of FILE_TYPE_TYPES defs)
    (so_parse _ _ _ Hsrc) Hbuiltin (first_of_wf _)) as Ht.
  change (ki_ctx info1) with ctx. change (ki_strict info1) with (ki_strict info0).
  destruct (CompileKeyTypes _ _ _ _ _ _) as [[t|]|f]; [|done|by left]. cbn [obind result_bind].
  set (info2 := ki_set_mods (tr_mods t) info1).
  assert (forall mods, vmods_ok mods -> reads_ok info2 mods) as Hr2 by (intros mods Hm; by apply (keycodes_reads info2 k D)).
  pose proof (so_room _ _ _ Hsrc) as Hroom.
  assert (match CompileCompatMap info2 parse (mk_shared (ki_pendings info2) []) (first_of FILE_TYPE_COMPAT defs) with
    | Ok (None, _) => True
    | Ok (Some c, sh) => compat_ok info2 sh c /\ (length (sh_pendings sh) <= section_pendings parse (first_of FILE_TYPE_COMPAT defs))%nat
    | Fault f => compat_fault f end) as Hc.
  { apply (CompileCompatMap_ok info2 parse); [apply Hsrc| | |apply Hr2| |apply Hk]; try apply Ht; [|apply Hk].
    intros f Hf. destruct (first_of_ok _ _ Hf) as (Hty & _ & Hco & Hsy). split; [by auto|]. rewrite Hf in Hroom. unfold pending_room. cbn in *. lia. }
  destruct (CompileCompatMap _ _ _ _) as [[[c|] sh]|f]; [|done|exact Hc]. destruct Hc as [Hc Hcl]. cbn [result_bind].
  set (info3 := ki_set_compat c [] (sh_pendings sh) info2).
  assert (match CompileSymbols info3 (tr_types t) parse (first_of FILE_TYPE_SYMBOLS defs) with
    | Ok (None, _) => True
    | Ok (Some r, ps) => symbols_ok info3 (tr_types t) ps r
    | Fault f => overflow_only f end) as Hs.
  { apply CompileSymbols_ok; [|intros f Hf|apply Hc|intros mods Hm|by eapply to_ctypes| |].
    - intros item f Hf. by apply symbols_file_kept, (so_parse_symbols _ _ _ Hsrc item).
    - destruct (first_of_ok _ _ Hf) as (Hty & _ & Hco & Hsy). split; [by apply symbols_file_kept, Hsy|]. rewrite Hf in Hroom. unfold pending_room. cbn in *. lia.
    - by apply (keycodes_reads info3 k D).
    - by apply (keycodes_blank info3 k D).
    - by apply (keycodes_shown info3 k D). }
  destruct (CompileSymbols _ _ _ _) as [[[s|] ps]|f]; [|done|by left]. cbn [result_bind].
  destruct (co_read _ _ _ Hc) as (l & Hl & _). rewrite Hl. by apply (sections_compiled k D t c sh s ps l).
Qed.
End compile.

(** ** The keymap, for the state machines *)

Lemma overlay_at_rank types k x :
  is_overlay x -> Z.testbit (ky_overlays k) (x - 1) = true ->
  has_overlay (ky_overlays k) (Z.to_nat (x - 1)) = true /\
  overlay_key_at (key_of types k) x =
    ky_overlays_keys k !! (if ky_overlays_inline k then 0%nat else overlay_rank (ky_overlays k) (Z.to_nat (x - 1))).
Proof.
  intros [Hx _] Hb. unfold has_overlay, overlay_bit, overlay_key_at, overlay_rank, overlay_bit. rewrite Z2Nat.id by lia.
  split; [by rewrite has_flag_bit by lia|done].
Qed.

Lemma overlays_compiled info info' : sections_ok info -> same_frame info info' -> overlays_wf (keymap_of info').
Proof.
  intros [_ Hov] Hf. pose proof (sf_keys _ _ Hf) as Hk. unfold overlays_wf. cbn [km_keys keymap_of].
  assert (length (map (key_of (ki_types info')) (ki_keys info')) = length (ki_keys info)) as ->.
  { by rewrite length_map, <- (Forall2_length _ _ _ Hk). }
  apply list.Forall_fmap, Forall_lookup_2. intros i k' Hi. destruct (Forall2_lookup_r _ _ _ _ _ Hk Hi) as (k & Hi0 & [_ _ _ Em Ei Ek]).
  pose proof (Forall_lookup_1 _ _ _ _ Hov Hi0) as H. cbn in H. rewrite <- Em, <- Ei, <- Ek in H.
  intros x Hx Hb. destruct (overlay_at_rank (ki_types info') k' x Hx Hb) as [Hh ->]. apply H; [|done]. destruct Hx. lia.
Qed.

(** The faults of a compilation. *)
Definition compile_fault (info : keymap_info) (f : fault) : Prop := compat_fault f \/ f = FaultOverlap.

Lemma CompileKeymap_ok (parse : xkb_file_type -> include_item -> list (option XkbFile)) (defs : list XkbFile) (ctx : atom_table)
    (format flags num_groups : Z) :
  0 <= num_groups <= 32 -> source_ok (new_keymap_info ctx format flags num_groups) parse defs ->
  match CompileKeymap parse (new_keymap_info ctx format flags num_groups) defs with
  | Ok None => True
  | Ok (Some cm) => derived_keymap (cm_info cm) /\ overlays_wf (keymap_of (cm_info cm))
  | Fault f => compat_fault f \/ f = FaultOverlap
  end.
Proof.
  intros Hg Hsrc. unfold CompileKeymap. rewrite collect_sections_spec.
  pose proof (compile_sections_ok parse defs ctx format flags num_groups Hg Hsrc) as H.
  destruct (compile_sections _ _ _) as [[cm|]|f]; [|done|by left]. cbn [obind result_bind]. cbn in H.
  pose proof (update_derived_keymap _ (proj1 H)) as Hd. pose proof (update_derived_frame (cm_info cm)) as Hf.
  destruct (UpdateDerivedKeymapFields (cm_info cm)) as [[info'|]|f]; cbn [obind result_bind]; [|done|].
  - cbn in Hd, Hf. split; [exact Hd|]. by apply (overlays_compiled (cm_info cm)).
  - destruct Hd as [[_ ->]|[[= ->] _]]; [left; by left|by right].
Qed.



(** ** A sample *)

Definition keymap_words : atom_table :=
  match intern_all atom_table_new (map bytes_of ["Shift"; "Lock"; "Control"; "Mod1"; "Mod2"; "Mod3"; "Mod4"; "Mod5";
    "AC01"; "AC02"; "modifiers"; "SetMods"; "map"; "ONE_LEVEL"; "ALPHABETIC"; "overlay1"; "interpret"; "action"]%string) with
  | Ok (_, t) => t | Fault _ => atom_table_new end.

Definition set_shift_action : ExprDef :=
  STMT_EXPR_ACTION_DECL 12 [ExprBinary STMT_EXPR_ASSIGN (STMT_EXPR_IDENT 11) (STMT_EXPR_IDENT 1)].
Definition field (name : ExprDef) (value : ExprDef) : VarDef := mk_var MERGE_DEFAULT (Some name) value [].

(** [xkb_keycodes { <AC01> = 8; <AC02> = 9; };
     xkb_types { type "ONE_LEVEL" { modifiers = none; };
       type "ALPHABETIC" { modifiers = Shift; map[Shift] = 2; }; };
     xkb_compat { interpret Shift_L { action = SetMods(modifiers = Shift); }; };
     xkb_symbols { key <AC01> { [a, A] }; key <AC02> { [Shift_L], overlay1 = <AC01> }; };]
    and a second keycodes section, ignored. *)
Definition keycodes_section : XkbFile :=
  mk_file None [STMT_KEYCODE MERGE_DEFAULT 9 8; STMT_KEYCODE MERGE_DEFAULT 10 9] FILE_TYPE_KEYCODES 0.
Definition types_section : XkbFile :=
  mk_file None
    [STMT_TYPE MERGE_DEFAULT 14 [field (STMT_EXPR_IDENT 11) (STMT_EXPR_INTEGER_LITERAL 0)];
     STMT_TYPE MERGE_DEFAULT 15 [field (STMT_EXPR_IDENT 11) (STMT_EXPR_IDENT 1);
       field (STMT_EXPR_ARRAY_REF 0 13 (STMT_EXPR_IDENT 1)) (STMT_EXPR_INTEGER_LITERAL 2)]] FILE_TYPE_TYPES 0.
Definition compat_section : XkbFile :=
  mk_file None [STMT_INTERP MERGE_DEFAULT 0xffe1 None [field (STMT_EXPR_IDENT 18) set_shift_action]] FILE_TYPE_COMPAT 0.
Definition symbols_section : XkbFile :=
  mk_file None
    [STMT_SYMBOLS MERGE_DEFAULT 9 [mk_var MERGE_DEFAULT None (STMT_EXPR_KEYSYM_LIST [0x61]) [STMT_EXPR_KEYSYM_LIST [0x41]]];
     STMT_SYMBOLS MERGE_DEFAULT 10 [mk_var MERGE_DEFAULT None (STMT_EXPR_KEYSYM_LIST [0xffe1]) [];
       field (STMT_EXPR_IDENT 16) (STMT_EXPR_KEYNAME_LITERAL 9)]] FILE_TYPE_SYMBOLS 0.
Definition second_keycodes : XkbFile := mk_file None [STMT_KEYCODE MERGE_DEFAULT 9 100] FILE_TYPE_KEYCODES 0.

Definition keymap_sections_sample : list XkbFile :=
  [keycodes_section; types_section; compat_section; symbols_section; second_keycodes].

Definition compiled_sample : result (option compiled_keymap) :=
  CompileKeymap no_includes (new_keymap_info keymap_words XKB_KEYMAP_FORMAT_TEXT_V2 0 0) keymap_sections_sample.

(** The keycodes, the keysyms and actions of their levels, and the overlays. *)
Definition shown_keymap (r : result (option compiled_keymap)) : option (list (Z * list (list (Z * list xkb_action)) * list nat)) :=
  match r with
  | Ok (Some cm) => Some (map (fun k => (ky_keycode k, map (fun g => map (fun lv => (level_sym lv, lv_actions lv)) (kg_levels g)) (ky_groups k),
                                         ky_overlays_keys k)) (drop 8 (ki_keys (cm_info cm))))
  | _ => None
  end.

Ltac fields := repeat (apply Forall_cons_2 || apply Forall_nil_2);
  (split; [eexists; split; [reflexivity|]|]); vm_compute; repeat (exact I || (eexists; reflexivity) || split).

Lemma types_section_wf : file_wf keymap_words types_section.
Proof. apply Forall_cons_2; [|apply Forall_cons_2; [|apply Forall_nil_2]]; (split; [atom|fields]). Qed.

Lemma compat_section_ok : compat_file_ok keymap_words compat_section.
Proof. split; (apply Forall_cons_2; [|apply Forall_nil_2]); [split; [exact I|fields]|exact I]. Qed.

Lemma keysyms_body_ok info syms next : Forall is_keysyms (STMT_EXPR_KEYSYM_LIST syms :: next) ->
  body_ok info (mk_var MERGE_DEFAULT None (STMT_EXPR_KEYSYM_LIST syms) next).
Proof. intros Hl. split; [done|]. intros f ndx [= <- <-]. by split. Qed.

Lemma keysyms_forall l : Forall (fun syms => Forall (fun sym => sym <> XKB_KEY_NoSymbol) syms) l -> Forall is_keysyms (map STMT_EXPR_KEYSYM_LIST l).
Proof. intros H. apply list.Forall_fmap. exact H. Qed.

Lemma symbols_section_ok n : symbols_file_ok (new_keymap_info keymap_words XKB_KEYMAP_FORMAT_TEXT_V2 0 n) symbols_section.
Proof.
  split; (apply Forall_cons_2; [|apply Forall_cons_2; [|apply Forall_nil_2]]); cbn [symbols_stmt_ok].
  - split; [atom|]. apply Forall_cons_2; [done|apply Forall_nil_2].
  - split; [atom|]. apply Forall_cons_2; [done|]. apply Forall_cons_2; [|apply Forall_nil_2]. split; [atom|]. cbn. atom.
  - apply Forall_cons_2; [|apply Forall_nil_2]. apply keysyms_body_ok, (keysyms_forall [[_]; [_]]).
    repeat (apply Forall_cons_2 || apply Forall_nil_2); done.
  - apply Forall_cons_2; [|apply Forall_cons_2; [|apply Forall_nil_2]].
    + apply keysyms_body_ok, (keysyms_forall [[_]]). repeat (apply Forall_cons_2 || apply Forall_nil_2); done.
    + split; [exact I|]. intros f ndx Hf. assert (ndx = None) as -> by (vm_compute in Hf; by injection Hf). split; [exact I|]. intros _ [].
Qed.

Lemma sample_source_ok : source_ok (new_keymap_info keymap_words XKB_KEYMAP_FORMAT_TEXT_V2 0 0) no_includes keymap_sections_sample.
Proof.
  split; [reflexivity|apply no_includes_wf|by intros item f Hin%elem_of_nil..| |vm_compute; reflexivity].
  assert (forall f, xf_defs f = [STMT_KEYCODE MERGE_DEFAULT 9 8; STMT_KEYCODE MERGE_DEFAULT 10 9] \/ xf_defs f = [STMT_KEYCODE MERGE_DEFAULT 9 100] ->
    file_wf keymap_words f) as Hk.
  { intros f [E|E]; unfold file_wf; rewrite E; repeat (apply Forall_cons_2 || apply Forall_nil_2); cbn; lia. }
  unfold keymap_sections_sample. apply Forall_cons_2; [|apply Forall_cons_2; [|apply Forall_cons_2; [|apply Forall_cons_2; [|apply Forall_cons_2; [|apply Forall_nil_2]]]]].
  - split; [apply Hk; by left|done].
  - split; [apply types_section_wf|done].
  - split; [apply compat_section_ok|]. split; [|done]. intros _. apply compat_section_ok.
  - split; [apply (symbols_section_ok 0)|]. split; [done|]. intros _. apply (symbols_section_ok 0).
  - split; [apply Hk; by right|done].
Qed.


(** The keymap of the sample, and what a press of the second key, interpreted as
    [SetMods], sends from a new machine: the modifier is depressed. *)
Definition sample_compiled : compiled_keymap :=
  match compiled_sample with
  | Ok (Some cm) => cm
  | _ => mk_compiled_keymap (new_keymap_info keymap_words 0 0 0) [] [] None None None None
  end.

Definition compiled_builder : xkb_machine_builder := mk_builder (keymap_of (cm_info sample_compiled)) 0 0 [] 0 [].
Definition sample_machine : xkb_machine := xkb_machine_new compiled_builder.

Definition machine_mods (r : result (xkb_error_code * (xkb_machine * xkb_events))) : option Z :=
  match r with Ok (_, (sm, _)) => Some (mods (ss_components (sm_base sm))) | Fault _ => None end.

