(* ===== verification/Rules.v ===== *)
(** * Rules files (src/xkbcomp/rules.c)

    The scanner of rules files and the matcher that applies them to names of
    model, layouts, variants and options.  A substring of a file is the list of
    its bytes, read from a pointer on; those of the groups, kept after their
    file, say whether it is still mapped.  The texts being built are lists of
    bytes without the terminator.  Messages are not modelled. *)

From Stdlib Require Import ZArith Lia String.
From stdpp Require Import base tactics list numbers.
From S2P Require Import Prelude Numbers Keymap Utf8 Scanner KeysymNames Expr.

Definition MAX_INCLUDE_DEPTH : nat := 5.

(** ** Scanner *)

Inductive rules_token :=
| TOK_END_OF_FILE
| TOK_END_OF_LINE
| TOK_IDENTIFIER (string : list Z)
| TOK_GROUP_NAME (string : list Z)
| TOK_BANG
| TOK_EQUALS
| TOK_WILD_CARD_STAR
| TOK_WILD_CARD_NONE
| TOK_WILD_CARD_SOME
| TOK_WILD_CARD_ANY
| TOK_INCLUDE
| TOK_ERROR.

Definition is_ident (ch : Z) : bool := is_graph ch && negb (ch =? 92).

Fixpoint skip_blanks (l : list Z) : list Z :=
  match l with
  | c :: l' => if (c =? 32) || (c =? 9) || (c =? 13) then skip_blanks l' else l
  | [] => []
  end.

Fixpoint skip_eols (l : list Z) : list Z :=
  match l with
  | c :: l' => if c =? 10 then skip_eols l' else l
  | [] => []
  end.

(** The longest prefix of characters of an identifier, and what follows. *)
Fixpoint span_ident (l : list Z) : list Z * list Z :=
  match l with
  | c :: l' => if is_ident c then let (v, rest) := span_ident l' in (c :: v, rest) else ([], l)
  | [] => ([], [])
  end.

Definition set_rest (l : list Z) (s : scanner) : scanner := mk_scanner l (scn_buf s).

Definition lex_ident (token : list Z -> rules_token) (s : scanner) : rules_token * scanner :=
  let (v, rest) := span_ident (scn_rest s) in
  (match v with [] => TOK_ERROR | _ => token v end, set_rest rest s).

(** A new token, once blanks and comments are skipped. *)
Definition lex_token (s : scanner) : rules_token * scanner :=
  if scanner_eof s then (TOK_END_OF_FILE, s) else
  match scanner_chr s 33 with Some s => (TOK_BANG, s) | None =>
  match scanner_chr s 61 with Some s => (TOK_EQUALS, s) | None =>
  match scanner_chr s 42 with Some s => (TOK_WILD_CARD_STAR, s) | None =>
  match scanner_str s (bytes_of "<none>") with Some s => (TOK_WILD_CARD_NONE, s) | None =>
  match scanner_str s (bytes_of "<some>") with Some s => (TOK_WILD_CARD_SOME, s) | None =>
  match scanner_str s (bytes_of "<any>") with Some s => (TOK_WILD_CARD_ANY, s) | None =>
  match scanner_chr s 36 with Some s => lex_ident TOK_GROUP_NAME s | None =>
  match scanner_str s (bytes_of "include") with Some s => (TOK_INCLUDE, s) | None =>
  lex_ident TOK_IDENTIFIER s
  end end end end end end end end.

Fixpoint lex (fuel : nat) (s : scanner) : result (rules_token * scanner) :=
  match fuel with
  | O => Fault FaultFuel
  | S fuel =>
      let s := set_rest (skip_blanks (scn_rest s)) s in
      let s := match scanner_str s (bytes_of "//") with Some s => scanner_skip_to_eol s | None => s end in
      if scanner_eol s then Ok (TOK_END_OF_LINE, set_rest (skip_eols (scn_rest s)) s)
      else match scanner_chr s 92 with
           | Some s =>
               let s := match scanner_chr s 13 with Some s => s | None => s end in
               if negb (scanner_eol s) then Ok (TOK_ERROR, s) else lex fuel (scanner_next s).2
           | None => Ok (lex_token s)
           end
  end.

(** ** Matcher *)

Inductive rules_mlvo := MLVO_MODEL | MLVO_LAYOUT | MLVO_VARIANT | MLVO_OPTION.
Inductive rules_kccgst := KCCGST_KEYCODES | KCCGST_TYPES | KCCGST_COMPAT | KCCGST_SYMBOLS | KCCGST_GEOMETRY.

#[export] Instance rules_mlvo_eq_dec : EqDecision rules_mlvo.
Proof. solve_decision. Defined.
#[export] Instance rules_kccgst_eq_dec : EqDecision rules_kccgst.
Proof. solve_decision. Defined.

Definition MLVO_NUM_ENTRIES : nat := 4.
Definition KCCGST_NUM_ENTRIES : nat := 5.

Definition mlvo_index (v : rules_mlvo) : Z :=
  match v with MLVO_MODEL => 0 | MLVO_LAYOUT => 1 | MLVO_VARIANT => 2 | MLVO_OPTION => 3 end.
Definition kccgst_index (v : rules_kccgst) : nat :=
  match v with KCCGST_KEYCODES => 0 | KCCGST_TYPES => 1 | KCCGST_COMPAT => 2 | KCCGST_SYMBOLS => 3 | KCCGST_GEOMETRY => 4 end.

Definition MLVO_LAYOUT_AND_VARIANT : Z := Z.lor (bit (mlvo_index MLVO_LAYOUT)) (bit (mlvo_index MLVO_VARIANT)).

Definition rules_mlvo_svals : list (rules_mlvo * list Z) :=
  [(MLVO_MODEL, bytes_of "model"); (MLVO_LAYOUT, bytes_of "layout"); (MLVO_VARIANT, bytes_of "variant");
   (MLVO_OPTION, bytes_of "option")].
Definition rules_kccgst_svals : list (rules_kccgst * list Z) :=
  [(KCCGST_KEYCODES, bytes_of "keycodes"); (KCCGST_TYPES, bytes_of "types"); (KCCGST_COMPAT, bytes_of "compat");
   (KCCGST_SYMBOLS, bytes_of "symbols"); (KCCGST_GEOMETRY, bytes_of "geometry")].

Definition GLOBAL_MATCHED_LAYOUTS : Z := 2 ^ 32 - 1.
Definition XKB_OPTION_LAYOUT_MASK_GLOBAL : Z := 0.

Record matched_sval := mk_matched_sval {
  mv_sval : list Z;
  mv_layouts : Z;
  mv_matched : Z
}.

Record rule_names := mk_rule_names {
  rn_model : matched_sval;
  rn_layouts : list matched_sval;
  rn_variants : list matched_sval;
  rn_options : list matched_sval
}.

(** [gr_mapped]: whether the file of the group is still mapped in memory. *)
Record group := mk_group {
  gr_mapped : bool;
  gr_name : list Z;
  gr_elements : list (list Z)
}.

(** The lists are the parts of the arrays that are set.  [mp_layout_idx_min]
    and [mp_layout_idx_max] are the [layout_idx] and [variant_idx] of their
    union until the end of the header, and [mp_layouts_candidates_mask] is also
    [active], as a boolean. *)
Record mapping := mk_mapping {
  mp_mlvo_at_pos : list rules_mlvo;
  mp_defined_mlvo_mask : Z;
  mp_has_layout_idx_range : bool;
  mp_has_multiple_layouts : bool;
  mp_layout_idx_min : Z;
  mp_layout_idx_max : Z;
  mp_layouts_candidates_mask : Z;
  mp_kccgst_at_pos : list rules_kccgst;
  mp_defined_kccgst_mask : Z
}.

Definition mp_active (p : mapping) : bool := negb (mp_layouts_candidates_mask p =? 0).

Inductive mlvo_match_type :=
| MLVO_MATCH_NORMAL
| MLVO_MATCH_WILDCARD_LEGACY
| MLVO_MATCH_WILDCARD_NONE
| MLVO_MATCH_WILDCARD_SOME
| MLVO_MATCH_WILDCARD_ANY
| MLVO_MATCH_GROUP.

(** The positions of a rule that are set. *)
Record rule := mk_rule {
  rl_mlvo : list (mlvo_match_type * list Z);
  rl_kccgst : list (list Z);
  rl_skip : bool
}.

(** [ks_length] is a field of 28 bits. *)
Record kccgst_buffer_slice := mk_slice {
  ks_length : Z;
  ks_kccgst : rules_kccgst;
  ks_layout : Z
}.

Record kccgst_buffer := mk_kccgst_buffer {
  kb_buffer : list Z;
  kb_slices : list kccgst_buffer_slice
}.

Record matcher := mk_matcher {
  m_rmlvo : rule_names;
  m_groups : list group;
  m_mapping : mapping;
  m_rule : rule;
  m_pending_kccgst : kccgst_buffer;
  m_kccgst : list (list Z)
}.

Definition m_set_rmlvo v m := mk_matcher v (m_groups m) (m_mapping m) (m_rule m) (m_pending_kccgst m) (m_kccgst m).
Definition m_set_groups v m := mk_matcher (m_rmlvo m) v (m_mapping m) (m_rule m) (m_pending_kccgst m) (m_kccgst m).
Definition m_set_mapping v m := mk_matcher (m_rmlvo m) (m_groups m) v (m_rule m) (m_pending_kccgst m) (m_kccgst m).
Definition m_set_rule v m := mk_matcher (m_rmlvo m) (m_groups m) (m_mapping m) v (m_pending_kccgst m) (m_kccgst m).
Definition m_set_pending v m := mk_matcher (m_rmlvo m) (m_groups m) (m_mapping m) (m_rule m) v (m_kccgst m).
Definition m_set_kccgst v m := mk_matcher (m_rmlvo m) (m_groups m) (m_mapping m) (m_rule m) (m_pending_kccgst m) v.

(** ** Names of the user *)

Fixpoint drop_spaces (l : list Z) : list Z :=
  match l with c :: l' => if is_space c then drop_spaces l' else l | [] => [] end.

Definition strip_spaces (v : list Z) : list Z := rev (drop_spaces (rev (drop_spaces v))).

Definition OPTIONS_GROUP_SPECIFIER_PREFIX : Z := 33.

(** Up to a comma, or the prefix of a layout. *)
Fixpoint span_value (s : list Z) : list Z * list Z :=
  match s with
  | c :: s' => if (c =? 44) || (c =? OPTIONS_GROUP_SPECIFIER_PREFIX) then ([], s)
               else let (v, rest) := span_value s' in (c :: v, rest)
  | [] => ([], [])
  end.

Fixpoint skip_to_comma (s : list Z) : list Z :=
  match s with c :: s' => if c =? 44 then s else skip_to_comma s' | [] => [] end.

(** The layouts of the specifier that follows the prefix. *)
Definition split_specifier (mlvo : rules_mlvo) (s : list Z) : Z * list Z :=
  let (count, layout) := parse_dec_to_uint32_t s (S (length s)) in
  if count >? 0 then
    (if (layout =? 0) || (layout >? XKB_MAX_GROUPS) then XKB_OPTION_LAYOUT_MASK_GLOBAL
     else if bool_decide (mlvo = MLVO_OPTION) then bit (layout - 1) else XKB_OPTION_LAYOUT_MASK_GLOBAL,
     skip_to_comma (drop (Z.to_nat count) s))
  else (XKB_OPTION_LAYOUT_MASK_GLOBAL, skip_to_comma s).

(** The merge of the layouts of an option that is set twice. *)
Definition merge_option_layouts (prev layouts : Z) : Z :=
  if layouts =? XKB_OPTION_LAYOUT_MASK_GLOBAL then layouts
  else if negb (prev =? XKB_OPTION_LAYOUT_MASK_GLOBAL) then Z.lor prev layouts
  else prev.

Fixpoint merge_option (val : matched_sval) (arr : list matched_sval) : option (list matched_sval) :=
  match arr with
  | [] => None
  | prev :: arr =>
      if bool_decide (mv_sval prev = mv_sval val)
      then Some (mk_matched_sval (mv_sval prev) (merge_option_layouts (mv_layouts prev) (mv_layouts val)) (mv_matched prev) :: arr)
      else cons prev <$> merge_option val arr
  end.

Definition add_value (mlvo : rules_mlvo) (val : matched_sval) (arr : list matched_sval) : list matched_sval :=
  if bool_decide (mv_sval val = []) && bool_decide (mlvo = MLVO_OPTION) then arr
  else if bool_decide (mlvo = MLVO_OPTION) then default (arr ++ [val]) (merge_option val arr)
  else arr ++ [val].

Fixpoint split_values (fuel : nat) (mlvo : rules_mlvo) (s : list Z) (arr : list matched_sval) : result (list matched_sval) :=
  match fuel with
  | O => Fault FaultFuel
  | S fuel =>
      let (v, s) := span_value s in
      let (layouts, s) :=
        match s with
        | c :: s' => if c =? OPTIONS_GROUP_SPECIFIER_PREFIX then split_specifier mlvo s' else (XKB_OPTION_LAYOUT_MASK_GLOBAL, s)
        | [] => (XKB_OPTION_LAYOUT_MASK_GLOBAL, s)
        end in
      let arr := add_value mlvo (mk_matched_sval (strip_spaces v) layouts 0) arr in
      match s with
      | [] => Ok arr
      | c :: s' => split_values fuel mlvo (if c =? 44 then s' else s) arr
      end
  end.

Definition no_value : matched_sval := mk_matched_sval [] XKB_OPTION_LAYOUT_MASK_GLOBAL 0.

Definition split_comma_separated_mlvo (mlvo : rules_mlvo) (s : option (list Z)) : result (list matched_sval) :=
  match s with
  | None => Ok [no_value]
  | Some s =>
      let+ arr := split_values (S (length s)) mlvo s [] in
      Ok (match arr with [] => [no_value] | _ => arr end)
  end.

(** As many variants as layouts; [darray_resize0] adds empty ones. *)
Definition resize_variants (layouts variants : list matched_sval) : list matched_sval :=
  resize (length layouts) (mk_matched_sval [] 0 0) variants.

Definition zero_mapping : mapping := mk_mapping [] 0 false false 0 0 0 [] 0.
Definition zero_rule : rule := mk_rule [] [] false.

Definition new_matcher (rmlvo : rule_names) : matcher :=
  mk_matcher rmlvo [] zero_mapping zero_rule (mk_kccgst_buffer [] []) (replicate KCCGST_NUM_ENTRIES []).

(** [struct xkb_rule_names], [None] for a null pointer. *)
Record xkb_rule_names := mk_xkb_rule_names {
  xn_rules : option (list Z);
  xn_model : option (list Z);
  xn_layout : option (list Z);
  xn_variant : option (list Z);
  xn_options : option (list Z)
}.

Definition text_or_empty (s : option (list Z)) : list Z := default [] s.

Definition matcher_new_from_names (names : xkb_rule_names) : result matcher :=
  let+ layouts := split_comma_separated_mlvo MLVO_LAYOUT (xn_layout names) in
  let+ variants := split_comma_separated_mlvo MLVO_VARIANT (xn_variant names) in
  let+ options := split_comma_separated_mlvo MLVO_OPTION (xn_options names) in
  Ok (new_matcher (mk_rule_names (mk_matched_sval (text_or_empty (xn_model names)) XKB_OPTION_LAYOUT_MASK_GLOBAL 0)
    layouts (resize_variants layouts variants) options)).

(** ** Groups *)

Definition matcher_group_start_new (name : list Z) (m : matcher) : matcher :=
  m_set_groups (m_groups m ++ [mk_group true name []]) m.

Definition matcher_group_add_element (element : list Z) (m : matcher) : result matcher :=
  match m_groups m !! (length (m_groups m) - 1)%nat with
  | Some g =>
      Ok (m_set_groups (take (length (m_groups m) - 1) (m_groups m) ++ [mk_group (gr_mapped g) (gr_name g) (gr_elements g ++ [element])]) m)
  | None => Fault FaultOutOfBounds
  end.

(** ** Headers of rule sets *)

Definition matcher_mapping_start_new (m : matcher) : matcher :=
  m_set_mapping (mk_mapping [] 0 (mp_has_layout_idx_range (m_mapping m)) false XKB_LAYOUT_INVALID XKB_LAYOUT_INVALID 1 [] 0) m.

Definition mp_set_active (active : bool) (p : mapping) : mapping :=
  mk_mapping (mp_mlvo_at_pos p) (mp_defined_mlvo_mask p) (mp_has_layout_idx_range p) (mp_has_multiple_layouts p)
    (mp_layout_idx_min p) (mp_layout_idx_max p) (if active then 1 else 0) (mp_kccgst_at_pos p) (mp_defined_kccgst_mask p).

Definition mapping_inactive (m : matcher) : matcher := m_set_mapping (mp_set_active false (m_mapping m)) m.

(** [s] is a bracket and what follows it. *)
Definition parse_layout_int_index_tail (s : list Z) : option (nat * Z) :=
  if Nat.ltb (length s) 3 then None
  else let (count, val) := parse_dec_to_uint32_t (drop 1 s) (length s - 2) in
       if (count <=? 0) || negb (bool_decide (s !! Z.to_nat (1 + count) = Some 93)) || (val =? 0) || (val >? XKB_MAX_GROUPS)
       then None else Some (Z.to_nat (count + 2), val - 1).

Definition is_small_digit (c : Z) : bool := between 49 57 c.

(** The length of the index, and [XKB_LAYOUT_INVALID] for [%i]. *)
Definition extract_layout_index (s : list Z) : option (nat * Z) :=
  match s with
  | c0 :: c1 :: c2 :: s' =>
      if negb (c0 =? 91) then None
      else if (c2 =? 93) && is_small_digit c1 then Some (3%nat, c1 - 49)
      else if (c1 =? 37) && (c2 =? 105) && bool_decide (head s' = Some 93) then Some (4%nat, XKB_LAYOUT_INVALID)
      else parse_layout_int_index_tail s
  | _ => None
  end.

Definition LAYOUT_INDEX_SINGLE : Z := XKB_LAYOUT_INVALID - 5.
Definition LAYOUT_INDEX_FIRST : Z := XKB_LAYOUT_INVALID - 4.
Definition LAYOUT_INDEX_LATER : Z := XKB_LAYOUT_INVALID - 3.
Definition LAYOUT_INDEX_MULTIPLE : Z := XKB_LAYOUT_INVALID - 2.
Definition LAYOUT_INDEX_ANY : Z := XKB_LAYOUT_INVALID - 1.

Definition layout_index_names : list (list Z * Z) :=
  [(bytes_of "[single]", LAYOUT_INDEX_SINGLE); (bytes_of "[first]", LAYOUT_INDEX_FIRST); (bytes_of "[later]", LAYOUT_INDEX_LATER);
   (bytes_of "[multiple]", LAYOUT_INDEX_MULTIPLE); (bytes_of "[any]", LAYOUT_INDEX_ANY)].

Definition extract_mapping_layout_index (s : list Z) : option Z :=
  match s with
  | c0 :: c1 :: c2 :: s' =>
      if negb (c0 =? 91) then None
      else if bool_decide (s' = []) && (c2 =? 93) && is_small_digit c1 then Some (c1 - 49)
      else match list_find (fun p => p.1 = s) layout_index_names with
           | Some (_, (_, value)) => Some value
           | None => match parse_layout_int_index_tail s with
                     | Some (count, idx) => if Nat.eqb count (length s) then Some idx else None
                     | None => None
                     end
           end
  | _ => None
  end.

Definition is_mlvo_mask_defined (m : matcher) (mlvo : rules_mlvo) : bool :=
  has_flag (mp_defined_mlvo_mask (m_mapping m)) (bit (mlvo_index mlvo)).

Definition mp_set_layout_idx (v : Z) (p : mapping) : mapping :=
  mk_mapping (mp_mlvo_at_pos p) (mp_defined_mlvo_mask p) (mp_has_layout_idx_range p) (mp_has_multiple_layouts p)
    v (mp_layout_idx_max p) (mp_layouts_candidates_mask p) (mp_kccgst_at_pos p) (mp_defined_kccgst_mask p).
Definition mp_set_variant_idx (v : Z) (p : mapping) : mapping :=
  mk_mapping (mp_mlvo_at_pos p) (mp_defined_mlvo_mask p) (mp_has_layout_idx_range p) (mp_has_multiple_layouts p)
    (mp_layout_idx_min p) v (mp_layouts_candidates_mask p) (mp_kccgst_at_pos p) (mp_defined_kccgst_mask p).

(** [svaleq_prefix]. *)
Definition is_sval_prefix (s1 s2 : list Z) : bool := bool_decide (take (length s1) s2 = s1).

(** The index that follows the name in the header, [None] for an error. *)
Definition mapping_index (mlvo : rules_mlvo) (tail : list Z) (p : mapping) : option mapping :=
  match tail with
  | [] => Some (match mlvo with
                | MLVO_LAYOUT => mp_set_layout_idx LAYOUT_INDEX_SINGLE p
                | MLVO_VARIANT => mp_set_variant_idx LAYOUT_INDEX_SINGLE p
                | _ => p
                end)
  | _ =>
      match extract_mapping_layout_index tail with
      | None => None
      | Some idx => match mlvo with
                    | MLVO_LAYOUT => Some (mp_set_layout_idx idx p)
                    | MLVO_VARIANT => Some (mp_set_variant_idx idx p)
                    | _ => None
                    end
      end
  end.

(** The write at the next position of the array. *)
Definition add_mlvo (mlvo : rules_mlvo) (p : mapping) : result mapping :=
  if Nat.leb MLVO_NUM_ENTRIES (length (mp_mlvo_at_pos p)) then Fault FaultOutOfBounds
  else Ok (mk_mapping (mp_mlvo_at_pos p ++ [mlvo]) (Z.lor (mp_defined_mlvo_mask p) (bit (mlvo_index mlvo)))
    (mp_has_layout_idx_range p) (mp_has_multiple_layouts p) (mp_layout_idx_min p) (mp_layout_idx_max p)
    (mp_layouts_candidates_mask p) (mp_kccgst_at_pos p) (mp_defined_kccgst_mask p)).

Definition add_kccgst (kccgst : rules_kccgst) (p : mapping) : result mapping :=
  if Nat.leb KCCGST_NUM_ENTRIES (length (mp_kccgst_at_pos p)) then Fault FaultOutOfBounds
  else Ok (mk_mapping (mp_mlvo_at_pos p) (mp_defined_mlvo_mask p) (mp_has_layout_idx_range p) (mp_has_multiple_layouts p)
    (mp_layout_idx_min p) (mp_layout_idx_max p) (mp_layouts_candidates_mask p) (mp_kccgst_at_pos p ++ [kccgst])
    (Z.lor (mp_defined_kccgst_mask p) (bit (Z.of_nat (kccgst_index kccgst))))).

Definition matcher_mapping_set_mlvo (ident : list Z) (m : matcher) : result matcher :=
  match list_find (fun p => is_sval_prefix p.2 ident) rules_mlvo_svals with
  | None => Ok (mapping_inactive m)
  | Some (_, (mlvo, mlvo_sval)) =>
      if is_mlvo_mask_defined m mlvo then Ok (mapping_inactive m)
      else match mapping_index mlvo (drop (length mlvo_sval) ident) (m_mapping m) with
           | None => Ok (mapping_inactive m)
           | Some p =>
               let m := m_set_mapping p m in
               if (bool_decide (mlvo = MLVO_LAYOUT) && is_mlvo_mask_defined m MLVO_VARIANT ||
                   bool_decide (mlvo = MLVO_VARIANT) && is_mlvo_mask_defined m MLVO_LAYOUT) &&
                  negb (mp_layout_idx_min p =? mp_layout_idx_max p)
               then Ok (mapping_inactive m)
               else let+ p := add_mlvo mlvo p in Ok (m_set_mapping p m)
           end
  end.

Definition mp_set_bounds (range : bool) (min max candidates : Z) (p : mapping) : mapping :=
  mk_mapping (mp_mlvo_at_pos p) (mp_defined_mlvo_mask p) range ((max >? min) && (u32 (max - min) >? 1))
    min max candidates (mp_kccgst_at_pos p) (mp_defined_kccgst_mask p).

Definition num_layouts (m : matcher) : Z := Z.of_nat (length (rn_layouts (m_rmlvo m))).
Definition num_variants (m : matcher) : Z := Z.of_nat (length (rn_variants (m_rmlvo m))).

Definition matcher_mapping_set_layout_bounds (m : matcher) : result matcher :=
  let p := m_mapping m in
  let idx := Z.min (mp_layout_idx_min p) (mp_layout_idx_max p) in
  let max := Z.min XKB_MAX_GROUPS (num_layouts m) in
  let+ p :=
    if idx =? XKB_LAYOUT_INVALID then
      if is_mlvo_mask_defined m MLVO_LAYOUT || is_mlvo_mask_defined m MLVO_VARIANT then Fault FaultAssert
      else Ok (mp_set_bounds false XKB_LAYOUT_INVALID XKB_LAYOUT_INVALID 1 p)
    else if idx =? LAYOUT_INDEX_LATER then Ok (mp_set_bounds true 1 max (u32 (Z.ldiff (bit max - 1) 1)) p)
    else if (idx =? LAYOUT_INDEX_MULTIPLE) || (idx =? LAYOUT_INDEX_ANY) then Ok (mp_set_bounds true 0 max (u32 (bit max - 1)) p)
    else let idx := if (idx =? LAYOUT_INDEX_SINGLE) || (idx =? LAYOUT_INDEX_FIRST) then 0 else idx in
         if idx <? 32 then Ok (mp_set_bounds false idx (idx + 1) (bit idx) p) else Fault FaultShift in
  Ok (m_set_mapping p m).

Definition matcher_mapping_set_kccgst (ident : list Z) (m : matcher) : result matcher :=
  match list_find (fun p => p.2 = ident) rules_kccgst_svals with
  | None => Ok (mapping_inactive m)
  | Some (_, (kccgst, _)) =>
      if has_flag (mp_defined_kccgst_mask (m_mapping m)) (bit (Z.of_nat (kccgst_index kccgst))) then Ok (mapping_inactive m)
      else let+ p := add_kccgst kccgst (m_mapping m) in Ok (m_set_mapping p m)
  end.

(** The restrictions on the number of layouts. *)
Definition layout_index_allowed (m : matcher) : bool :=
  let idx := mp_layout_idx_min (m_mapping m) in
  let n := num_layouts m in
  if idx =? LAYOUT_INDEX_SINGLE then n <=? 1
  else if (idx =? LAYOUT_INDEX_MULTIPLE) || (idx =? LAYOUT_INDEX_LATER) then 2 <=? n
  else if (idx =? LAYOUT_INDEX_ANY) || (idx =? LAYOUT_INDEX_FIRST) then true
  else (2 <=? n) && (idx <? n).

Definition variant_index_allowed (m : matcher) : bool :=
  let idx := mp_layout_idx_max (m_mapping m) in
  let n := num_variants m in
  if idx =? LAYOUT_INDEX_SINGLE then n <=? 1
  else if (idx =? LAYOUT_INDEX_ANY) || (idx =? LAYOUT_INDEX_LATER) || (idx =? LAYOUT_INDEX_FIRST) then true
  else (2 <=? n) && (idx <? n).

Definition matcher_mapping_verify (m : matcher) : result (bool * matcher) :=
  let p := m_mapping m in
  let skip := Ok (false, mapping_inactive m) in
  match mp_mlvo_at_pos p, mp_kccgst_at_pos p with
  | [], _ => skip
  | _, [] => skip
  | _, _ =>
      let layout := is_mlvo_mask_defined m MLVO_LAYOUT in
      let variant := is_mlvo_mask_defined m MLVO_VARIANT in
      if layout && (mp_layout_idx_min p =? XKB_LAYOUT_INVALID) then Fault FaultAssert
      else if layout && negb (layout_index_allowed m) then skip
      else if variant && (mp_layout_idx_max p =? XKB_LAYOUT_INVALID) then Fault FaultAssert
      else if variant && negb (variant_index_allowed m) then skip
      else Ok (true, m)
  end.

(** ** Values of a rule *)

Definition matcher_rule_start_new (m : matcher) : matcher :=
  m_set_rule (mk_rule [] [] (negb (mp_active (m_mapping m)))) m.

Definition rl_set_skip (r : rule) : rule := mk_rule (rl_mlvo r) (rl_kccgst r) true.

Definition matcher_rule_set_mlvo_common (match_type : mlvo_match_type) (ident : list Z) (m : matcher) : result matcher :=
  let r := m_rule m in
  if Nat.leb (length (mp_mlvo_at_pos (m_mapping m))) (length (rl_mlvo r)) then Ok (m_set_rule (rl_set_skip r) m)
  else if Nat.leb MLVO_NUM_ENTRIES (length (rl_mlvo r)) then Fault FaultOutOfBounds
  else Ok (m_set_rule (mk_rule (rl_mlvo r ++ [(match_type, ident)]) (rl_kccgst r) (rl_skip r)) m).

Definition matcher_rule_set_mlvo_wildcard (match_type : mlvo_match_type) (m : matcher) : result matcher :=
  matcher_rule_set_mlvo_common match_type [] m.
Definition matcher_rule_set_mlvo_group (ident : list Z) (m : matcher) : result matcher :=
  matcher_rule_set_mlvo_common MLVO_MATCH_GROUP ident m.
Definition matcher_rule_set_mlvo (ident : list Z) (m : matcher) : result matcher :=
  matcher_rule_set_mlvo_common MLVO_MATCH_NORMAL ident m.

Definition matcher_rule_set_kccgst (ident : list Z) (m : matcher) : result matcher :=
  let r := m_rule m in
  if Nat.leb (length (mp_kccgst_at_pos (m_mapping m))) (length (rl_kccgst r)) then Ok (m_set_rule (rl_set_skip r) m)
  else if Nat.leb KCCGST_NUM_ENTRIES (length (rl_kccgst r)) then Fault FaultOutOfBounds
  else Ok (m_set_rule (mk_rule (rl_mlvo r) (rl_kccgst r ++ [ident]) (rl_skip r)) m).

Definition matcher_rule_verify (m : matcher) : matcher :=
  let r := m_rule m in
  if negb (Nat.eqb (length (rl_mlvo r)) (length (mp_mlvo_at_pos (m_mapping m)))) ||
     negb (Nat.eqb (length (rl_kccgst r)) (length (mp_kccgst_at_pos (m_mapping m))))
  then m_set_rule (rl_set_skip r) m else m.

(** ** Matching *)

Inductive wildcard_match_type := WILDCARD_MATCH_NONEMPTY | WILDCARD_MATCH_ALL.

(** [svaleq] with a substring of the file of a group: it is read when the
    lengths are equal. *)
Definition group_sval_eq (mapped : bool) (a b : list Z) : result bool :=
  if negb (Nat.eqb (length a) (length b)) then Ok false
  else if mapped || Nat.eqb (length a) 0 then Ok (bool_decide (a = b))
  else Fault FaultUseAfterFree.

Fixpoint find_group (groups : list group) (name : list Z) : result (option group) :=
  match groups with
  | [] => Ok None
  | g :: groups =>
      let+ b := group_sval_eq (gr_mapped g) (gr_name g) name in
      if b then Ok (Some g) else find_group groups name
  end.

Fixpoint match_elements (mapped : bool) (elements : list (list Z)) (to : list Z) : result bool :=
  match elements with
  | [] => Ok false
  | e :: elements =>
      let+ b := group_sval_eq mapped e to in
      if b then Ok true else match_elements mapped elements to
  end.

Definition match_group (groups : list group) (group_name to : list Z) : result bool :=
  let+ g := find_group groups group_name in
  match g with
  | None => Ok false
  | Some g => match_elements (gr_mapped g) (gr_elements g) to
  end.

Definition match_value (groups : list group) (val to : list Z) (match_type : mlvo_match_type)
    (wildcard_type : wildcard_match_type) : result bool :=
  let empty := bool_decide (to = []) in
  match match_type with
  | MLVO_MATCH_WILDCARD_LEGACY => Ok (match wildcard_type with WILDCARD_MATCH_ALL => true | _ => negb empty end)
  | MLVO_MATCH_WILDCARD_NONE => Ok empty
  | MLVO_MATCH_WILDCARD_SOME => Ok (negb empty)
  | MLVO_MATCH_WILDCARD_ANY => Ok true
  | MLVO_MATCH_GROUP => match_group groups val to
  | MLVO_MATCH_NORMAL => Ok (bool_decide (val = to))
  end.

Definition mark (layouts : Z) (v : matched_sval) : matched_sval :=
  mk_matched_sval (mv_sval v) (mv_layouts v) (Z.lor (mv_matched v) layouts).

Definition match_value_and_mark (groups : list group) (val : list Z) (to : matched_sval) (match_type : mlvo_match_type)
    (wildcard_type : wildcard_match_type) (layouts : Z) : result (bool * matched_sval) :=
  let+ b := match_value groups val (mv_sval to) match_type wildcard_type in
  Ok (b, if b then mark layouts to else to).

Section values.
Context (groups : list group) (value : list Z) (match_type : mlvo_match_type).

(** The options, with what is left to match and whether one matched. *)
Fixpoint match_options (options : list matched_sval) (unmatched : Z) : result (bool * Z * list matched_sval) :=
  match options with
  | [] => Ok (false, unmatched, [])
  | option :: options =>
      let matchable := if negb (mv_layouts option =? 0) then Z.land unmatched (mv_layouts option) else GLOBAL_MATCHED_LAYOUTS in
      let next (b : bool) option unmatched :=
        let+ r := match_options options unmatched in
        let '(matched, unmatched, options) := r in Ok (b || matched, unmatched, option :: options) in
      if matchable =? 0 then next false option unmatched
      else
        let+ r := match_value_and_mark groups value option match_type WILDCARD_MATCH_ALL matchable in
        let (b, option) := r : bool * matched_sval in
        if b then
          let unmatched := Z.ldiff unmatched matchable in
          if unmatched =? 0 then Ok (true, 0, option :: options) else next true option unmatched
        else next false option unmatched
  end.

(** The layouts from [idx] on, with the candidates left and whether one matched. *)
Fixpoint match_layouts (n : nat) (idx : Z) (input : list matched_sval) (candidates : Z) (matched : bool)
    : result (bool * Z * list matched_sval) :=
  match n with
  | O => Ok (matched, candidates, input)
  | S n =>
      if candidates =? 0 then Ok (matched, candidates, input)
      else if 32 <=? idx then Fault FaultShift
      else
        let layout := bit idx in
        if Z.land layout candidates =? 0 then match_layouts n (idx + 1) input candidates matched
        else match input !! Z.to_nat idx with
             | None => Fault FaultOutOfBounds
             | Some to =>
                 let+ r := match_value_and_mark groups value to match_type WILDCARD_MATCH_NONEMPTY layout in
                 let (b, to) := r : bool * matched_sval in
                 match_layouts n (idx + 1) (<[Z.to_nat idx := to]> input) (if b then candidates else Z.ldiff candidates layout) (matched || b)
             end
  end.
End values.

Definition set_model v (r : rule_names) := mk_rule_names v (rn_layouts r) (rn_variants r) (rn_options r).
Definition set_layouts v (r : rule_names) := mk_rule_names (rn_model r) v (rn_variants r) (rn_options r).
Definition set_variants v (r : rule_names) := mk_rule_names (rn_model r) (rn_layouts r) v (rn_options r).
Definition set_options v (r : rule_names) := mk_rule_names (rn_model r) (rn_layouts r) (rn_variants r) v.

Definition matcher_rule_match_model (value : list Z) (match_type : mlvo_match_type) (m : matcher) : result (bool * matcher) :=
  let+ r := match_value_and_mark (m_groups m) value (rn_model (m_rmlvo m)) match_type WILDCARD_MATCH_ALL GLOBAL_MATCHED_LAYOUTS in
  let (b, model) := r : bool * matched_sval in Ok (b, m_set_rmlvo (set_model model (m_rmlvo m)) m).

Definition matcher_rule_match_option (value : list Z) (match_type : mlvo_match_type) (candidates : Z) (m : matcher)
    : result (bool * Z * matcher) :=
  let options := rn_options (m_rmlvo m) in
  match options with
  | [] => Fault FaultAssert
  | _ =>
      let unmatched := if negb (Z.land (mp_defined_mlvo_mask (m_mapping m)) MLVO_LAYOUT_AND_VARIANT =? 0) then candidates else 0 in
      let+ r := match_options (m_groups m) value match_type options unmatched in
      let '(matched, unmatched, options) := r in
      Ok (matched, if negb (unmatched =? 0) then Z.ldiff candidates unmatched else candidates,
          m_set_rmlvo (set_options options (m_rmlvo m)) m)
  end.

Definition matcher_rule_match_layout_or_variant (input : list matched_sval) (value : list Z) (match_type : mlvo_match_type)
    (candidates : Z) (m : matcher) : result (bool * Z * list matched_sval) :=
  match input with
  | [] => Fault FaultAssert
  | _ => let p := m_mapping m in
         match_layouts (m_groups m) value match_type (Z.to_nat (mp_layout_idx_max p - mp_layout_idx_min p)) (mp_layout_idx_min p)
           input candidates false
  end.

Definition match_field (mlvo : rules_mlvo) (value : list Z) (match_type : mlvo_match_type) (candidates : Z) (m : matcher)
    : result (bool * Z * matcher) :=
  match mlvo with
  | MLVO_MODEL => let+ r := matcher_rule_match_model value match_type m in Ok (r.1, candidates, r.2)
  | MLVO_LAYOUT =>
      let+ r := matcher_rule_match_layout_or_variant (rn_layouts (m_rmlvo m)) value match_type candidates m in
      Ok (r.1.1, r.1.2, m_set_rmlvo (set_layouts r.2 (m_rmlvo m)) m)
  | MLVO_VARIANT =>
      let+ r := matcher_rule_match_layout_or_variant (rn_variants (m_rmlvo m)) value match_type candidates m in
      Ok (r.1.1, r.1.2, m_set_rmlvo (set_variants r.2 (m_rmlvo m)) m)
  | MLVO_OPTION => matcher_rule_match_option value match_type candidates m
  end.

(** The fields of the header, each with its value in the rule; [None] when one
    does not match. *)
Fixpoint match_fields (fields : list rules_mlvo) (values : list (mlvo_match_type * list Z)) (candidates : Z) (m : matcher)
    : result (option Z * matcher) :=
  match fields with
  | [] => Ok (Some candidates, m)
  | mlvo :: fields =>
      match values with
      | [] => Fault FaultOutOfBounds
      | (match_type, value) :: values =>
          let+ r := match_field mlvo value match_type candidates m in
          let '(matched, candidates, m) := r in
          if (matched : bool) then match_fields fields values candidates m else Ok (None, m)
      end
  end.

(** ** Expansion of the values *)

Definition is_merge_mode_prefix (ch : Z) : bool := (ch =? 43) || (ch =? 124) || (ch =? 94).
Definition MERGE_DEFAULT_PREFIX : Z := 43.

(** [%u] of [snprintf]. *)
Fixpoint dec_loop (fuel : nat) (n : Z) : list Z :=
  match fuel with
  | O => []
  | S fuel => (if n <? 10 then [] else dec_loop fuel (n / 10)) ++ [48 + n mod 10]
  end.
Definition dec_str (n : Z) : list Z := dec_loop 10 n.

(** Whether nothing, or a new item, follows. *)
Definition ends_item (str : list Z) : bool := match str with [] => true | c :: _ => is_merge_mode_prefix c end.

(** The value that an expansion refers to, and its marking. *)
Definition expanded_value (mlv : rules_mlvo) (idx : Z) (variable_index : bool) (rn : rule_names) : option (matched_sval * rule_names) :=
  let pick (l : list matched_sval) (set : list matched_sval -> rule_names) :=
    let n := Z.of_nat (length l) in
    let at_ (i : nat) := (fun v => (v, set (<[i := mark GLOBAL_MATCHED_LAYOUTS v]> l))) <$> l !! i in
    if idx =? XKB_LAYOUT_INVALID then (if n =? 1 then at_ 0%nat else None)
    else if (idx <? n) && (variable_index || (1 <? n)) then at_ (Z.to_nat idx) else None in
  match mlv with
  | MLVO_LAYOUT => pick (rn_layouts rn) (fun l => set_layouts l rn)
  | MLVO_VARIANT => pick (rn_variants rn) (fun l => set_variants l rn)
  | MLVO_MODEL =>
      Some (rn_model rn, set_model (mark (if idx =? XKB_LAYOUT_INVALID then 1 else bit idx) (rn_model rn)) rn)
  | MLVO_OPTION => None
  end.

Definition opt_char (c : option Z) : list Z := match c with Some c => [c] | None => [] end.

(** The index in brackets, if any: the index, whether it is [%i], and what
    follows; [None] for an error. *)
Definition expansion_index (mlv : rules_mlvo) (str : list Z) (layout_idx : Z) : result (option (Z * bool * list Z)) :=
  if bool_decide (head str = Some 91) then
    if negb (bool_decide (mlv = MLVO_LAYOUT) || bool_decide (mlv = MLVO_VARIANT)) then Ok None
    else match extract_layout_index str with
         | None => Ok None
         | Some (consumed, idx) =>
             if idx =? XKB_LAYOUT_INVALID then
               if layout_idx =? XKB_LAYOUT_INVALID then Fault FaultAssert
               else Ok (Some (layout_idx, true, drop consumed str))
             else Ok (Some (idx, false, drop consumed str))
         end
  else Ok (Some (XKB_LAYOUT_INVALID, false, str)).

Definition expansion_field (c : Z) : option rules_mlvo :=
  if c =? 109 then Some MLVO_MODEL else if c =? 108 then Some MLVO_LAYOUT else if c =? 118 then Some MLVO_VARIANT else None.

(** The names of the user, and for a success the text expanded and what
    follows in the value. *)
Definition expand_rmlvo_in_kccgst_value (rn : rule_names) (str : list Z) (layout_idx : Z) (expanded : list Z)
    : result (rule_names * option (list Z * list Z)) :=
  let error := Ok (rn, None) in
  if bool_decide (head str = Some 105) && ends_item (drop 1 str) then
    if layout_idx =? XKB_LAYOUT_INVALID then error
    else Ok (rn, Some (expanded ++ dec_str (u32 (layout_idx + 1)), drop 1 str))
  else
    let pfx := match str with
               | c :: _ => if (c =? 40) || is_merge_mode_prefix c || (c =? 95) || (c =? 45) then Some c else None
               | [] => None
               end in
    let sfx := match pfx with Some c => if c =? 40 then Some 41 else None | None => None end in
    match match pfx with Some _ => drop 1 str | None => str end with
    | [] => error
    | c :: str =>
        match expansion_field c with
        | None => error
        | Some mlv =>
            let+ r := expansion_index mlv str layout_idx in
            match r with
            | None => error
            | Some (idx, variable_index, str) =>
                if negb (bool_decide (sfx = None)) && negb (bool_decide (head str = sfx)) then error
                else
                  let str := match sfx with Some _ => drop 1 str | None => str end in
                  Ok (match expanded_value mlv idx variable_index rn with
                      | Some (v, rn') =>
                          if bool_decide (mv_sval v = []) then (rn, Some (expanded, str))
                          else (rn', Some (expanded ++ opt_char pfx ++ mv_sval v ++ opt_char sfx, str))
                      | None => (rn, Some (expanded, str))
                      end)
            end
        end
    end.

(** The items of the layouts from [l] on. *)
Fixpoint all_layouts (n : nat) (l : Z) (has_separator : bool) (prefix : list Z) : list Z :=
  match n with
  | O => []
  | S n => (if has_separator then [] else [MERGE_DEFAULT_PREFIX]) ++ prefix ++ dec_str (l + 1) ++ all_layouts n (l + 1) has_separator prefix
  end.

(** The text expanded, and what follows in the value. *)
Definition expand_qualifier_in_kccgst_value (num_layouts : Z) (str expanded : list Z) (has_separator : bool) (prefix_idx : nat)
    : list Z * list Z :=
  if is_sval_prefix (bytes_of "all") str && ends_item (drop 3 str) then
    let expanded := expanded ++ [49] in
    let prefix := take (length expanded - prefix_idx - 1) (drop prefix_idx expanded) in
    (expanded ++ (if num_layouts >? 1 then all_layouts (Z.to_nat (Z.min XKB_MAX_GROUPS num_layouts - 1)) 1 has_separator prefix else []),
     drop 3 str)
  else (expanded, str).

(** [from] is not empty. *)
Definition concat_kccgst (into from : list Z) : list Z :=
  let from_plus := match from with c :: _ => is_merge_mode_prefix c | [] => false end in
  if from_plus || bool_decide (into = []) then into ++ from
  else match into with
       | ch :: _ => if is_merge_mode_prefix ch then from ++ into else into
       | [] => into
       end.

Fixpoint expand_value (fuel : nat) (rn : rule_names) (layout_idx : Z) (str expanded : list Z) (last_item_idx : nat) (has_separator : bool)
    : result (rule_names * option (list Z)) :=
  match fuel with
  | O => Fault FaultFuel
  | S fuel =>
      match str with
      | [] => Ok (rn, Some expanded)
      | c :: str =>
          if c =? 58 then
            let (expanded, str) := expand_qualifier_in_kccgst_value (Z.of_nat (length (rn_layouts rn))) str (expanded ++ [c]) has_separator
                                     last_item_idx in
            expand_value fuel rn layout_idx str expanded last_item_idx has_separator
          else if c =? 37 then
            match str with
            | [] => Ok (rn, None)
            | _ =>
                let+ r := expand_rmlvo_in_kccgst_value rn str layout_idx expanded in
                match r with
                | (rn, Some (expanded, str)) => expand_value fuel rn layout_idx str expanded last_item_idx has_separator
                | (rn, None) => Ok (rn, None)
                end
            end
          else if is_merge_mode_prefix c then
            expand_value fuel rn layout_idx str (expanded ++ [c]) (length expanded) true
          else expand_value fuel rn layout_idx str (expanded ++ [c]) last_item_idx has_separator
      end
  end.

(** The names of the user, and the text appended to; it is as it was after an
    error. *)
Definition append_expanded_kccgst_value (merge : bool) (rn : rule_names) (to value : list Z) (layout_idx : Z)
    : result (rule_names * list Z) :=
  let+ r := expand_value (S (length value)) rn layout_idx value [] 0 false in
  let (rn, expanded) := r : rule_names * option (list Z) in
  Ok (rn, match expanded with
          | None => to
          | Some expanded =>
              if merge then (if bool_decide (expanded = []) then to else concat_kccgst to expanded) else to ++ expanded
          end).

(** ** Output *)

Definition kccgst_at (m : matcher) (k : rules_kccgst) : list Z := default [] (m_kccgst m !! kccgst_index k).
Definition set_kccgst (k : rules_kccgst) (v : list Z) (m : matcher) : matcher := m_set_kccgst (<[kccgst_index k := v]> (m_kccgst m)) m.

(** The slices, with the offset of the next one in the buffer. *)
Fixpoint append_slices (buffer : list Z) (slices : list kccgst_buffer_slice) (offset : Z) (kccgst : rules_kccgst) (layout : Z)
    (out : list Z) : list Z :=
  match slices with
  | [] => out
  | slice :: slices =>
      let out := if bool_decide (ks_kccgst slice = kccgst) && (ks_layout slice =? layout) && negb (ks_length slice =? 0)
                 then concat_kccgst out (take (Z.to_nat (ks_length slice)) (drop (Z.to_nat offset) buffer)) else out in
      append_slices buffer slices (offset + ks_length slice) kccgst layout out
  end.

(** The [n] layouts from [layout] on. *)
Fixpoint append_layouts (n : nat) (buf : kccgst_buffer) (kccgst : rules_kccgst) (layout : Z) (out : list Z) : list Z :=
  match n with
  | O => out
  | S n => append_layouts n buf kccgst (layout + 1) (append_slices (kb_buffer buf) (kb_slices buf) 0 kccgst layout out)
  end.

Fixpoint append_pending (kccgsts : list rules_kccgst) (m : matcher) : matcher :=
  match kccgsts with
  | [] => m
  | k :: kccgsts =>
      let p := m_mapping m in
      append_pending kccgsts
        (set_kccgst k (append_layouts (Z.to_nat (mp_layout_idx_max p - mp_layout_idx_min p)) (m_pending_kccgst m) k (mp_layout_idx_min p)
                         (kccgst_at m k)) m)
  end.

Definition mp_set_has_multiple_layouts (b : bool) (p : mapping) : mapping :=
  mk_mapping (mp_mlvo_at_pos p) (mp_defined_mlvo_mask p) (mp_has_layout_idx_range p) b
    (mp_layout_idx_min p) (mp_layout_idx_max p) (mp_layouts_candidates_mask p) (mp_kccgst_at_pos p) (mp_defined_kccgst_mask p).

Definition matcher_append_pending_kccgst (m : matcher) : matcher :=
  if negb (mp_has_multiple_layouts (m_mapping m)) then m
  else let m := append_pending (mp_kccgst_at_pos (m_mapping m)) m in
       m_set_mapping (mp_set_has_multiple_layouts false (m_mapping m)) m.

(** The value for a layout, at the end of the buffer. *)
Definition buffer_value (k : rules_kccgst) (value : list Z) (idx : Z) (m : matcher) : result matcher :=
  let buf := m_pending_kccgst m in
  let+ r := append_expanded_kccgst_value false (m_rmlvo m) (kb_buffer buf) value idx in
  let (rn, buffer) := r : rule_names * list Z in
  let length := (Z.of_nat (length buffer) - Z.of_nat (length (kb_buffer buf))) mod 2 ^ 28 in
  Ok (m_set_pending (mk_kccgst_buffer buffer (kb_slices buf ++ [mk_slice length k idx])) (m_set_rmlvo rn m)).

(** The value, merged with the output. *)
Definition merge_value (k : rules_kccgst) (value : list Z) (idx : Z) (m : matcher) : result matcher :=
  let+ r := append_expanded_kccgst_value true (m_rmlvo m) (kccgst_at m k) value idx in
  let (rn, out) := r : rule_names * list Z in
  Ok (set_kccgst k out (m_set_rmlvo rn m)).

Fixpoint apply_values (apply : rules_kccgst -> list Z -> Z -> matcher -> result matcher) (kccgsts : list rules_kccgst) (values : list (list Z))
    (idx : Z) (m : matcher) : result matcher :=
  match kccgsts with
  | [] => Ok m
  | k :: kccgsts =>
      match values with
      | [] => Fault FaultOutOfBounds
      | v :: values => let+ m := apply k v idx m in apply_values apply kccgsts values idx m
      end
  end.

Fixpoint buffer_layouts (n : nat) (idx : Z) (candidates : Z) (m : matcher) : result matcher :=
  match n with
  | O => Ok m
  | S n =>
      if 32 <=? idx then Fault FaultShift
      else
        let+ m := if negb (Z.land candidates (bit idx) =? 0)
                  then apply_values buffer_value (mp_kccgst_at_pos (m_mapping m)) (rl_kccgst (m_rule m)) idx m else Ok m in
        buffer_layouts n (idx + 1) candidates m
  end.

Definition mp_set_candidates (v : Z) (p : mapping) : mapping :=
  mk_mapping (mp_mlvo_at_pos p) (mp_defined_mlvo_mask p) (mp_has_layout_idx_range p) (mp_has_multiple_layouts p)
    (mp_layout_idx_min p) (mp_layout_idx_max p) v (mp_kccgst_at_pos p) (mp_defined_kccgst_mask p).

Definition matcher_rule_apply_if_matches (m : matcher) : result matcher :=
  let p := m_mapping m in
  let+ r := match_fields (mp_mlvo_at_pos p) (rl_mlvo (m_rule m)) (mp_layouts_candidates_mask p) m in
  match r with
  | (None, m) => Ok m
  | (Some candidates, m) =>
      let+ m := if mp_has_multiple_layouts p
                then buffer_layouts (Z.to_nat (mp_layout_idx_max p - mp_layout_idx_min p)) (mp_layout_idx_min p) candidates m
                else apply_values merge_value (mp_kccgst_at_pos p) (rl_kccgst (m_rule m)) (mp_layout_idx_min p) m in
      Ok (if is_mlvo_mask_defined m MLVO_OPTION then m
          else m_set_mapping (mp_set_candidates (Z.ldiff (mp_layouts_candidates_mask (m_mapping m)) candidates) (m_mapping m)) m)
  end.

(** ** The states of the matcher *)

Inductive label :=
| L_initial | L_bang | L_group_name | L_group_element | L_include_statement | L_include_statement_end
| L_mapping_mlvo | L_mapping_kccgst | L_rule_mlvo_first | L_rule_mlvo | L_rule_kccgst.

(** The next state, or the value returned. *)
Inductive next := Goto (l : label) | Finish (b : bool).

Section matcher_match.
(** [matcher_include]. *)
Context (include_file : list Z -> matcher -> result matcher).

Definition reset_pending (m : matcher) : matcher := m_set_pending (mk_kccgst_buffer [] []) m.

(** A token in the state [rule_mlvo]. *)
Definition step_rule_mlvo (tok : rules_token) (m : matcher) : result (next * matcher) :=
  let add (set : matcher -> result matcher) :=
    let+ m := if negb (rl_skip (m_rule m)) then set m else Ok m in Ok (Goto L_rule_mlvo, m) in
  match tok with
  | TOK_IDENTIFIER v =>
      add (if bool_decide (v = [43]) then matcher_rule_set_mlvo_wildcard MLVO_MATCH_WILDCARD_SOME else matcher_rule_set_mlvo v)
  | TOK_WILD_CARD_STAR => add (matcher_rule_set_mlvo_wildcard MLVO_MATCH_WILDCARD_LEGACY)
  | TOK_WILD_CARD_NONE => add (matcher_rule_set_mlvo_wildcard MLVO_MATCH_WILDCARD_NONE)
  | TOK_WILD_CARD_SOME => add (matcher_rule_set_mlvo_wildcard MLVO_MATCH_WILDCARD_SOME)
  | TOK_WILD_CARD_ANY => add (matcher_rule_set_mlvo_wildcard MLVO_MATCH_WILDCARD_ANY)
  | TOK_GROUP_NAME v => add (matcher_rule_set_mlvo_group v)
  | TOK_EQUALS => Ok (Goto L_rule_kccgst, m)
  | _ => Ok (Finish false, m)
  end.

Definition end_mapping (m : matcher) : result matcher :=
  if mp_active (m_mapping m) then
    let+ r := matcher_mapping_verify m in
    let (b, m) := r : bool * matcher in
    if b then
      let+ m := matcher_mapping_set_layout_bounds m in
      Ok (if mp_has_multiple_layouts (m_mapping m) then reset_pending m else m)
    else Ok m
  else Ok m.

Definition end_rule (m : matcher) : result matcher :=
  let m := if negb (rl_skip (m_rule m)) then matcher_rule_verify m else m in
  if negb (rl_skip (m_rule m)) then matcher_rule_apply_if_matches m else Ok m.

Definition step (l : label) (tok : rules_token) (m : matcher) : result (next * matcher) :=
  match l, tok with
  | L_initial, TOK_BANG => Ok (Goto L_bang, m)
  | L_initial, TOK_END_OF_LINE => Ok (Goto L_initial, m)
  | L_initial, TOK_END_OF_FILE => Ok (Finish true, m)
  | L_bang, TOK_GROUP_NAME v => Ok (Goto L_group_name, matcher_group_start_new v m)
  | L_bang, TOK_INCLUDE => Ok (Goto L_include_statement, m)
  | L_bang, TOK_IDENTIFIER v =>
      let+ m := matcher_mapping_set_mlvo v (matcher_mapping_start_new m) in Ok (Goto L_mapping_mlvo, m)
  | L_group_name, TOK_EQUALS => Ok (Goto L_group_element, m)
  | L_group_element, TOK_IDENTIFIER v => let+ m := matcher_group_add_element v m in Ok (Goto L_group_element, m)
  | L_group_element, TOK_END_OF_LINE => Ok (Goto L_initial, m)
  | L_include_statement, TOK_IDENTIFIER v => let+ m := include_file v m in Ok (Goto L_include_statement_end, m)
  | L_include_statement_end, TOK_END_OF_LINE => Ok (Goto L_initial, m)
  | L_mapping_mlvo, TOK_IDENTIFIER v =>
      let+ m := if mp_active (m_mapping m) then matcher_mapping_set_mlvo v m else Ok m in Ok (Goto L_mapping_mlvo, m)
  | L_mapping_mlvo, TOK_EQUALS => Ok (Goto L_mapping_kccgst, m)
  | L_mapping_kccgst, TOK_IDENTIFIER v =>
      let+ m := if mp_active (m_mapping m) then matcher_mapping_set_kccgst v m else Ok m in Ok (Goto L_mapping_kccgst, m)
  | L_mapping_kccgst, TOK_END_OF_LINE => let+ m := end_mapping m in Ok (Goto L_rule_mlvo_first, m)
  | L_rule_mlvo_first, TOK_BANG => Ok (Goto L_bang, matcher_append_pending_kccgst m)
  | L_rule_mlvo_first, TOK_END_OF_LINE => Ok (Goto L_rule_mlvo_first, m)
  | L_rule_mlvo_first, TOK_END_OF_FILE => Ok (Finish true, matcher_append_pending_kccgst m)
  | L_rule_mlvo_first, tok => step_rule_mlvo tok (matcher_rule_start_new m)
  | L_rule_mlvo, tok => step_rule_mlvo tok m
  | L_rule_kccgst, TOK_IDENTIFIER v =>
      let+ m := if negb (rl_skip (m_rule m)) then matcher_rule_set_kccgst v m else Ok m in Ok (Goto L_rule_kccgst, m)
  | L_rule_kccgst, TOK_END_OF_LINE => let+ m := end_rule m in Ok (Goto L_rule_mlvo_first, m)
  | _, _ => Ok (Finish false, m)
  end.

Fixpoint matcher_match (fuel : nat) (l : label) (s : scanner) (m : matcher) : result (bool * matcher) :=
  match fuel with
  | O => Fault FaultFuel
  | S fuel =>
      let+ t := lex (S (length (scn_rest s))) s in
      let (tok, s) := t : rules_token * scanner in
      let+ r := step l tok m in
      match r with
      | (Finish b, m) => Ok (b, m)
      | (Goto l, m) => matcher_match fuel l s m
      end
  end.
End matcher_match.

(** ** Files *)

(** [unmap_file]: the groups from the [n]-th on are of the file, or of files
    that it includes. *)
Definition unmap_groups (n : nat) (m : matcher) : matcher :=
  m_set_groups (take n (m_groups m) ++ map (fun g => mk_group false (gr_name g) (gr_elements g)) (drop n (m_groups m))) m.

Section files.
(** The files that an include statement finds, after its expansion and in the
    order of the paths, and the files of the include paths with a name; [None]
    is a file that cannot be mapped. *)
Context (find_include find_rules : list Z -> list (option (list Z))).

Fixpoint try_files (read : option (list Z) -> matcher -> result (bool * matcher)) (files : list (option (list Z))) (m : matcher)
    : result matcher :=
  match files with
  | [] => Ok m
  | file :: files =>
      let+ r := read file m in
      let (ret, m) := r : bool * matcher in
      if ret then Ok m else try_files read files m
  end.

(** [fuel] bounds the depth of the calls, that [include_depth] counts. *)
Fixpoint read_rules_file (fuel : nat) (include_depth : nat) (file : option (list Z)) (m : matcher) : result (bool * matcher) :=
  match fuel with
  | O => Fault FaultFuel
  | S fuel =>
      match file with
      | None => Ok (false, m)
      | Some string =>
          match scanner_check_supported_char_encoding (scanner_init string) with
          | None => Ok (false, m)
          | Some s =>
              let matcher_include inc m :=
                if Nat.leb MAX_INCLUDE_DEPTH include_depth then Ok m
                else try_files (read_rules_file fuel (S include_depth)) (find_include inc) m in
              let+ r := matcher_match matcher_include (S (length string)) L_initial s m in
              Ok (r.1, unmap_groups (length (m_groups m)) r.2)
          end
      end
  end.

Definition read_top_file : option (list Z) -> matcher -> result (bool * matcher) := read_rules_file (S MAX_INCLUDE_DEPTH) 0.

(** [sizeof(partial_rules)]. *)
Definition PARTIAL_RULES_SIZE : nat := 60.

Fixpoint read_all (files : list (option (list Z))) (m : matcher) : result (bool * matcher) :=
  match files with
  | [] => Ok (true, m)
  | file :: files =>
      let+ r := read_top_file file m in
      let (ok, m) := r : bool * matcher in
      if ok then read_all files m else Ok (false, m)
  end.

Definition xkb_resolve_partial_rules (rules suffix : list Z) (m : matcher) : result (bool * matcher) :=
  if Nat.leb PARTIAL_RULES_SIZE (length (rules ++ suffix)) then Ok (false, m)
  else read_all (find_rules (rules ++ suffix)) m.

Record xkb_component_names := mk_component_names {
  xc_keycodes : list Z;
  xc_types : list Z;
  xc_compatibility : list Z;
  xc_symbols : list Z;
  xc_geometry : list Z
}.

Fixpoint after_colon (s : list Z) : option (list Z) :=
  match s with c :: s' => if c =? 58 then Some s' else after_colon s' | [] => None end.

(** The highest valid index of a qualifier, at least [layouts]. *)
Fixpoint explicit_layouts (fuel : nat) (symbols : list Z) (layouts : Z) : result Z :=
  match fuel with
  | O => Fault FaultFuel
  | S fuel =>
      match after_colon symbols with
      | None | Some [] => Ok layouts
      | Some symbols =>
          let (count, group) := parse_dec_to_uint32_t symbols (S (length symbols)) in
          let rest := drop (Z.to_nat count) symbols in
          if (count >? 0) && ends_item rest && (group >? 0) && (group <=? XKB_MAX_GROUPS)
          then explicit_layouts fuel rest (Z.max layouts group)
          else explicit_layouts fuel symbols layouts
      end
  end.

Definition xkb_resolve_rules (rules : list Z) (m : matcher) : result (option (xkb_component_names * Z)) :=
  match find_rules rules with
  | [] => Ok None
  | file :: _ =>
      let+ r := xkb_resolve_partial_rules rules (bytes_of ".pre") m in
      if negb r.1 then Ok None else
      let+ r := read_top_file file r.2 in
      if negb r.1 then Ok None else
      let+ r := xkb_resolve_partial_rules rules (bytes_of ".post") r.2 in
      if negb r.1 then Ok None else
      let out := kccgst_at r.2 in
      if bool_decide (out KCCGST_KEYCODES = []) || bool_decide (out KCCGST_TYPES = []) ||
         bool_decide (out KCCGST_COMPAT = []) || bool_decide (out KCCGST_SYMBOLS = [])
      then Ok None
      else
        let symbols := out KCCGST_SYMBOLS in
        let+ layouts := explicit_layouts (S (length symbols)) symbols 1 in
        Ok (Some (mk_component_names (out KCCGST_KEYCODES) (out KCCGST_TYPES) (out KCCGST_COMPAT) symbols (out KCCGST_GEOMETRY), layouts))
  end.

Definition xkb_components_from_rules_names (names : xkb_rule_names) : result (option (xkb_component_names * Z)) :=
  let+ m := matcher_new_from_names names in
  match xn_rules names with
  | Some rules => xkb_resolve_rules rules m
  | None => Fault FaultNull
  end.
End files.
