(* ===== verification/RulesSpec.v ===== *)
(** * What rules files do to the names of the user

    The matcher ends and stays in bounds, whatever the files; the fields of a
    rule select the layouts that match them; the values are merged in order. *)

From Stdlib Require Import ZArith Lia String.
From stdpp Require Import base tactics list numbers.
From S2P Require Import Prelude Numbers Keymap Utf8 Scanner KeysymNames Expr Safe Rules.

(** ** The scanner *)

Definition left_ (s : scanner) : nat := length (scn_rest s).

Lemma skip_blanks_left l : (length (skip_blanks l) <= length l)%nat.
Proof. induction l as [|c l IH]; cbn; [done|]. destruct (_ || _); cbn; lia. Qed.

Lemma skip_eols_left l : (length (skip_eols l) <= length l)%nat.
Proof. induction l as [|c l IH]; cbn; [done|]. destruct (_ =? _); cbn; lia. Qed.

Lemma skip_eol_left l : (length (skip_to_eol l) <= length l)%nat.
Proof. induction l as [|c l IH]; cbn; [done|]. destruct (_ =? _); cbn; lia. Qed.

Lemma span_ident_left l : forall v rest, span_ident l = (v, rest) -> (length rest + length v = length l)%nat.
Proof.
  induction l as [|c l IH]; intros v rest; cbn [span_ident]; [by intros [= <- <-]|].
  destruct (is_ident c); [|intros [= <- <-]; cbn; lia]. destruct (span_ident l) as [v' r'].
  intros [= <- <-]. specialize (IH _ _ eq_refl). cbn. lia.
Qed.

Lemma rules_chr_left s c s' : c <> 0 -> scanner_chr s c = Some s' -> S (left_ s') = left_ s.
Proof.
  unfold scanner_chr, scanner_peek, left_, advance. intros Hc. destruct (scn_rest s) as [|x l].
  - destruct (Z.eqb_spec 0 c); [by subst|done].
  - destruct (x =? c); [by intros [= <-]|done].
Qed.

Lemma str_left s t s' : t <> [] -> scanner_str s t = Some s' -> (left_ s' < left_ s)%nat.
Proof.
  unfold scanner_str, left_. intros Ht. destruct (bool_decide_reflect (take (length t) (scn_rest s) = t)) as [E|]; [|done].
  intros [= <-]. cbn. rewrite length_drop. assert (length (scn_rest s) <> 0)%nat; [|destruct t; [done|cbn; lia]].
  intros H0. apply nil_length_inv in H0. rewrite H0, take_nil in E. by subst.
Qed.

(** The bytes of the names in a token. *)
Definition token_ok (tok : rules_token) : Prop :=
  match tok with TOK_IDENTIFIER v | TOK_GROUP_NAME v => Forall is_char v | _ => True end.

Lemma span_ident_chars l : Forall is_char (span_ident l).1.
Proof.
  induction l as [|c l IH]; cbn [span_ident]; [by apply Forall_nil_2|]. destruct (is_ident c) eqn:Hc; [|by apply Forall_nil_2].
  destruct (span_ident l) as [v rest]. apply Forall_cons_2; [|exact IH]. apply andb_true_iff in Hc as [[H1 H2]%andb_true_iff _].
  rewrite Z.geb_leb in H1. apply Z.leb_le in H1, H2. unfold is_char. lia.
Qed.

Lemma lex_ident_chars token s : (forall v, Forall is_char v -> token_ok (token v)) -> token_ok (lex_ident token s).1.
Proof.
  intros Ht. unfold lex_ident. pose proof (span_ident_chars (scn_rest s)) as H. destruct (span_ident _) as [[|c v] rest]; [done|]. by apply Ht.
Qed.

Lemma lex_token_chars s : token_ok (lex_token s).1.
Proof.
  unfold lex_token. destruct (scanner_eof s); [done|].
  repeat (match goal with |- context [match ?x with Some _ => _ | None => _ end] => destruct x; [try done; by apply lex_ident_chars|] end).
  by apply lex_ident_chars.
Qed.

Lemma lex_chars fuel : forall s tok s', lex fuel s = Ok (tok, s') -> token_ok tok.
Proof.
  induction fuel as [|fuel IH]; intros s tok s'; cbn [lex]; [done|]. set (s2 := match scanner_str _ _ with Some _ => _ | None => _ end).
  destruct (scanner_eol s2); [by intros [= <- <-]|]. destruct (scanner_chr s2 92).
  - destruct (negb _); [by intros [= <- <-]|]. apply IH.
  - pose proof (lex_token_chars s2) as H. destruct (lex_token s2). by intros [= <- <-].
Qed.

(** A token takes at least a byte, but the end of the file and an error. *)
Definition ends (tok : rules_token) : Prop := tok = TOK_END_OF_FILE \/ tok = TOK_ERROR.

Lemma lex_ident_left token s : forall tok s', lex_ident token s = (tok, s') ->
  (left_ s' <= left_ s)%nat /\ (ends tok \/ left_ s' < left_ s)%nat.
Proof.
  intros tok s'. unfold lex_ident, left_. destruct (span_ident _) as [v rest] eqn:E. apply span_ident_left in E.
  destruct v as [|c v]; intros [= <- <-]; cbn in *; (split; [lia|]); [left; by right|right; lia].
Qed.

Lemma lex_token_left s tok s' : lex_token s = (tok, s') -> (left_ s' <= left_ s)%nat /\ (ends tok \/ left_ s' < left_ s)%nat.
Proof.
  unfold lex_token. destruct (scanner_eof s); [intros [= <- <-]; split; [done|left; by left]|].
  assert (forall c s1 token, c <> 0 -> scanner_chr s c = Some s1 -> (token, s1) = (tok, s') ->
    (left_ s' <= left_ s)%nat /\ (ends tok \/ left_ s' < left_ s)%nat) as Hc.
  { intros c s1 token Hc E [= <- <-]. apply rules_chr_left in E; [|done]. split; [lia|right; lia]. }
  assert (forall t s1 token, t <> [] -> scanner_str s t = Some s1 -> (token, s1) = (tok, s') ->
    (left_ s' <= left_ s)%nat /\ (ends tok \/ left_ s' < left_ s)%nat) as Ht.
  { intros t s1 token Ht E [= <- <-]. apply str_left in E; [|done]. split; [lia|right; lia]. }
  destruct (scanner_chr s 33) as [s1|] eqn:E; [refine (Hc 33 _ _ _ E); done|clear E].
  destruct (scanner_chr s 61) as [s1|] eqn:E; [refine (Hc 61 _ _ _ E); done|clear E].
  destruct (scanner_chr s 42) as [s1|] eqn:E; [refine (Hc 42 _ _ _ E); done|clear E].
  destruct (scanner_str s (bytes_of "<none>")) as [s1|] eqn:E; [refine (Ht _ _ _ _ E); done|clear E].
  destruct (scanner_str s (bytes_of "<some>")) as [s1|] eqn:E; [refine (Ht _ _ _ _ E); done|clear E].
  destruct (scanner_str s (bytes_of "<any>")) as [s1|] eqn:E; [refine (Ht _ _ _ _ E); done|clear E].
  destruct (scanner_chr s 36) as [s1|] eqn:E.
  { apply rules_chr_left in E; [|done]. intros H. apply lex_ident_left in H as [H1 H2]. split; [lia|right; lia]. }
  destruct (scanner_str s (bytes_of "include")) as [s1|] eqn:E1; [refine (Ht _ _ _ _ E1); done|clear E1].
  apply lex_ident_left.
Qed.

Lemma rules_next_left s : (left_ (scanner_next s).2 <= left_ s)%nat.
Proof. unfold left_, scanner_next. destruct (scn_rest s) eqn:E; cbn; rewrite ?E; cbn; lia. Qed.

(** Enough fuel for the scanner. *)
Lemma lex_ok fuel : forall s, (left_ s < fuel)%nat ->
  exists tok s', lex fuel s = Ok (tok, s') /\ (left_ s' <= left_ s)%nat /\ (ends tok \/ left_ s' < left_ s)%nat.
Proof.
  induction fuel as [|fuel IH]; intros s Hf; [lia|]. cbn [lex].
  set (s1 := set_rest (skip_blanks (scn_rest s)) s). set (s2 := match scanner_str s1 (bytes_of "//") with Some s => scanner_skip_to_eol s | None => s1 end).
  assert (left_ s2 <= left_ s)%nat as H2.
  { assert (left_ s1 <= left_ s)%nat by apply skip_blanks_left. unfold s2. destruct (scanner_str s1 _) as [s0|] eqn:E; [|done].
    apply str_left in E; [|done]. pose proof (skip_eol_left (scn_rest s0)). unfold left_ in *. cbn. lia. }
  destruct (scanner_eol s2) eqn:Heol.
  { eexists _, _. split; [reflexivity|]. unfold scanner_eol, scanner_peek, left_ in *. cbn.
    destruct (scn_rest s2) as [|c l]; [done|]. cbn in *. rewrite Heol. pose proof (skip_eols_left l). split; [lia|right; lia]. }
  destruct (scanner_chr s2 92) as [s3|] eqn:E3.
  - apply rules_chr_left in E3; [|done]. set (s4 := match scanner_chr s3 13 with Some s => s | None => s3 end).
    assert (left_ s4 <= left_ s3)%nat as H4.
    { unfold s4. destruct (scanner_chr s3 13) eqn:E; [|done]. apply rules_chr_left in E; [lia|done]. }
    destruct (scanner_eol s4) eqn:H5; cbn [negb].
    + assert (left_ (scanner_next s4).2 <= left_ s4)%nat as H6 by apply rules_next_left.
      destruct (IH (scanner_next s4).2) as (tok & s' & -> & H7 & H8); [lia|]. exists tok, s'. split; [done|]. split; [lia|].
      destruct H8; [by left|right; lia].
    + eexists _, _. split; [reflexivity|]. split; [lia|right; lia].
  - destruct (lex_token s2) as [tok s'] eqn:E. apply lex_token_left in E as [H3 H4]. exists tok, s'. split; [done|]. split; [lia|].
    destruct H4; [by left|right; lia].
Qed.

(** ** The names of the user *)

(** The texts and the layouts do not change, only what matched. *)
Definition name_of (v : matched_sval) : list Z * Z := (mv_sval v, mv_layouts v).
Definition names_of (rn : rule_names) := (name_of (rn_model rn), map name_of (rn_layouts rn), map name_of (rn_variants rn), map name_of (rn_options rn)).

Lemma name_of_mark w v : name_of (mark w v) = name_of v.
Proof. done. Qed.

Lemma names_insert l i v w : l !! i = Some v -> name_of w = name_of v -> map name_of (<[i := w]> l) = map name_of l.
Proof.
  intros Hi Hw. change (map name_of ?l) with (name_of <$> l). rewrite list_fmap_insert, Hw. apply list_insert_id.
  by rewrite list_lookup_fmap, Hi.
Qed.

Record names_ok (rn : rule_names) : Prop := {
  nk_layouts : rn_layouts rn <> [];
  nk_variants : length (rn_variants rn) = length (rn_layouts rn);
  nk_options : rn_options rn <> []
}.

Lemma names_of_length rn rn' : names_of rn' = names_of rn ->
  length (rn_layouts rn') = length (rn_layouts rn) /\ length (rn_variants rn') = length (rn_variants rn) /\
  length (rn_options rn') = length (rn_options rn).
Proof.
  intros [= _ _ H1 H2 H3]. apply (f_equal length) in H1, H2, H3. by rewrite !length_map in *.
Qed.

Lemma names_ok_same rn rn' : names_of rn' = names_of rn -> names_ok rn -> names_ok rn'.
Proof.
  intros (H1 & H2 & H3)%names_of_length [N1 N2 N3]. split.
  - intros E. rewrite E in H1. by destruct (rn_layouts rn).
  - congruence.
  - intros E. rewrite E in H3. by destruct (rn_options rn).
Qed.

(** ** The expansion of values *)

Definition assert_only (f : fault) : Prop := f = FaultAssert.

Lemma expanded_value_names mlv idx variable rn v rn' : expanded_value mlv idx variable rn = Some (v, rn') -> names_of rn' = names_of rn.
Proof.
  assert (forall (l : list matched_sval) w, (forall l', map name_of l' = map name_of l -> names_of (w l') = names_of rn) ->
    forall i : nat, (fun x => (x, w (<[i := mark GLOBAL_MATCHED_LAYOUTS x]> l))) <$> l !! i = Some (v, rn') -> names_of rn' = names_of rn) as Hpick.
  { intros l w Hw i H. apply fmap_Some in H as (x & Hx & [= -> ->]). by apply Hw, (names_insert l i x). }
  unfold expanded_value. destruct mlv.
  - intros [= <- <-]. done.
  - destruct (idx =? _); [destruct (_ =? 1); [|done]|destruct (_ && _); [|done]];
      apply (Hpick (rn_layouts rn) (fun l => set_layouts l rn)); intros l' H; unfold names_of; cbn; by rewrite H.
  - destruct (idx =? _); [destruct (_ =? 1); [|done]|destruct (_ && _); [|done]];
      apply (Hpick (rn_variants rn) (fun l => set_variants l rn)); intros l' H; unfold names_of; cbn; by rewrite H.
  - done.
Qed.

Lemma expansion_index_ok mlv str layout_idx :
  within assert_only (fun r => match r with Some (_, _, str') => (length str' <= length str)%nat | None => True end)
    (expansion_index mlv str layout_idx).
Proof.
  unfold expansion_index. destruct (bool_decide (head str = Some 91)); [|cbn; done]. destruct (negb _); [done|].
  destruct (extract_layout_index str) as [[n idx]|]; [|done]. destruct (_ =? _); [destruct (_ =? _); [done|]|];
    cbn; rewrite length_drop; lia.
Qed.

Lemma expand_rmlvo_ok rn str layout_idx expanded :
  within assert_only (fun r => names_of r.1 = names_of rn /\
      match r.2 with Some (_, str') => (length str' <= length str)%nat | None => True end)
    (expand_rmlvo_in_kccgst_value rn str layout_idx expanded).
Proof.
  unfold expand_rmlvo_in_kccgst_value. destruct (_ && _).
  { destruct (_ =? _); [done|]. cbn. rewrite length_drop. split; [done|lia]. }
  cbv zeta. set (pfx := match str with c :: _ => _ | [] => None end). set (str1 := match pfx with Some _ => drop 1 str | None => str end).
  assert (length str1 <= length str)%nat as H1 by (unfold str1; destruct pfx; [rewrite length_drop; lia|done]).
  destruct str1 as [|c str2]; [done|]. destruct (expansion_field c) as [mlv|]; [|done].
  eapply within_bind; [apply expansion_index_ok|]. intros [[[idx variable] str3]|] H3; [|done].
  destruct (negb _ && negb _); [done|]. set (str4 := match _ with Some _ => drop 1 str3 | None => str3 end).
  assert (length str4 <= length str)%nat as H4.
  { unfold str4. cbn in *. destruct (match pfx with Some _ => _ | None => None end); [rewrite length_drop|]; lia. }
  cbn. destruct (expanded_value mlv idx variable rn) as [[v rn']|] eqn:Ev; [|done].
  destruct (bool_decide _); [done|]. split; [by eapply expanded_value_names|done].
Qed.

Lemma expand_qualifier_left n str expanded sep i : (length (expand_qualifier_in_kccgst_value n str expanded sep i).2 <= length str)%nat.
Proof. unfold expand_qualifier_in_kccgst_value. destruct (_ && _); cbn [snd]; [rewrite length_drop; lia|done]. Qed.

Lemma expand_value_ok layout_idx fuel : forall rn str expanded i sep, (length str < fuel)%nat ->
  within assert_only (fun r => names_of r.1 = names_of rn) (expand_value fuel rn layout_idx str expanded i sep).
Proof.
  induction fuel as [|fuel IH]; intros rn str expanded i sep Hf; [lia|]. cbn [expand_value]. destruct str as [|c str]; [done|]. cbn in Hf.
  destruct (c =? 58).
  { pose proof (expand_qualifier_left (Z.of_nat (length (rn_layouts rn))) str (expanded ++ [c]) sep i) as Hq.
    destruct (expand_qualifier_in_kccgst_value _ _ _ _ _) as [e s']. cbn in Hq. apply IH. lia. }
  destruct (c =? 37).
  { destruct str as [|c1 str]; [done|]. eapply within_bind; [apply expand_rmlvo_ok|]. intros [rn' [[e s']|]] [H1 H2]; [|exact H1].
    eapply within_mono; [apply IH; cbn in *; lia|]. cbn in *. intros a ->. exact H1. }
  destruct (is_merge_mode_prefix c); apply IH; lia.
Qed.

Lemma append_expanded_ok merge rn to value layout_idx :
  within assert_only (fun r => names_of r.1 = names_of rn) (append_expanded_kccgst_value merge rn to value layout_idx).
Proof.
  unfold append_expanded_kccgst_value. eapply within_bind; [apply expand_value_ok; lia|]. intros [rn' e] H. exact H.
Qed.

(** ** The match of a value *)

(** The faults: without [strict], a group of a file that is not mapped any more. *)
Definition unmapped_fault (strict : bool) (f : fault) : Prop := strict = false /\ f = FaultUseAfterFree.
Definition groups_ok (strict : bool) (groups : list group) : Prop := strict = true -> Forall (fun g => gr_mapped g = true) groups.

(** The first group of a name has the text. *)
Definition in_group (groups : list group) (name to : list Z) : bool :=
  match list_find (fun g => gr_name g = name) groups with
  | Some (_, g) => bool_decide (to ∈ gr_elements g)
  | None => false
  end.

Definition value_matches (groups : list group) (val to : list Z) (match_type : mlvo_match_type) (wildcard_type : wildcard_match_type) : bool :=
  match match_type with
  | MLVO_MATCH_WILDCARD_LEGACY => match wildcard_type with WILDCARD_MATCH_ALL => true | _ => bool_decide (to <> []) end
  | MLVO_MATCH_WILDCARD_NONE => bool_decide (to = [])
  | MLVO_MATCH_WILDCARD_SOME => bool_decide (to <> [])
  | MLVO_MATCH_WILDCARD_ANY => true
  | MLVO_MATCH_GROUP => in_group groups val to
  | MLVO_MATCH_NORMAL => bool_decide (val = to)
  end.

Section matching.
Context (strict : bool).
Let E := unmapped_fault strict.

Lemma group_sval_ok mapped a b : (strict = true -> mapped = true) ->
  within E (fun r => r = bool_decide (a = b)) (group_sval_eq mapped a b).
Proof.
  intros Hm. unfold group_sval_eq. destruct (Nat.eqb_spec (length a) (length b)) as [Hl|Hl]; cbn [negb].
  - destruct (mapped || _) eqn:Hr; [done|]. apply orb_false_iff in Hr as [Hr _]. split; [|done]. destruct strict; [|done].
    rewrite Hm in Hr; done.
  - cbn. rewrite bool_decide_eq_false_2; [done|]. by intros ->.
Qed.

Lemma find_group_ok groups name : groups_ok strict groups ->
  within E (fun r => r = snd <$> list_find (fun g => gr_name g = name) groups) (find_group groups name).
Proof.
  induction groups as [|g groups IH]; intros Hg; cbn [find_group]; [done|]. eapply within_bind.
  - apply group_sval_ok. intros H. by apply Hg in H as [? _]%list.Forall_cons.
  - intros b ->. cbn. destruct (decide (gr_name g = name)) as [Hn|Hn]; [by rewrite bool_decide_eq_true_2|].
    rewrite bool_decide_eq_false_2 by done. eapply within_mono.
    + apply IH. intros H. by apply Hg in H as [_ ?]%list.Forall_cons.
    + intros r ->. by destruct (list_find _ groups) as [[]|].
Qed.

Lemma match_elements_ok mapped elements to : (strict = true -> mapped = true) ->
  within E (fun r => r = bool_decide (to ∈ elements)) (match_elements mapped elements to).
Proof.
  intros Hm. induction elements as [|e elements IH]; cbn [match_elements]; [done|]. eapply within_bind; [by apply group_sval_ok|].
  intros b ->. destruct (bool_decide_reflect (e = to)) as [->|Hne].
  - cbn. rewrite bool_decide_eq_true_2; [done|]. by left.
  - eapply within_mono; [exact IH|]. intros r ->. apply bool_decide_ext. rewrite list.elem_of_cons. split; [by right|]. by intros [->|].
Qed.

Lemma match_value_ok groups val to mt wt : groups_ok strict groups ->
  within E (fun r => r = value_matches groups val to mt wt) (match_value groups val to mt wt).
Proof.
  intros Hg. unfold match_value, value_matches. destruct mt; try done.
  - destruct wt; [|done]. cbn. by destruct (decide (to = [])) as [->|]; [|rewrite bool_decide_eq_false_2, bool_decide_eq_true_2 by done].
  - cbn. by destruct (decide (to = [])) as [->|]; [|rewrite bool_decide_eq_false_2, bool_decide_eq_true_2 by done].
  - unfold match_group, in_group. eapply within_bind; [by apply find_group_ok|]. intros g ->.
    destruct (list_find _ groups) as [[i g]|] eqn:Hf; cbn [fmap option_fmap option_map snd]; [|done].
    apply match_elements_ok. intros Hs. apply list_find_Some in Hf as (Hi & _ & _). exact (Forall_lookup_1 _ _ _ _ (Hg Hs) Hi).
Qed.

Lemma match_and_mark_ok groups val to mt wt w : groups_ok strict groups ->
  within E (fun r => r.1 = value_matches groups val (mv_sval to) mt wt /\ name_of r.2 = name_of to)
    (match_value_and_mark groups val to mt wt w).
Proof. intros Hg. eapply within_bind; [by apply match_value_ok|]. intros b ->. cbn. by destruct (value_matches _ _ _ _ _). Qed.

(** ** The match of a field *)

Section field.
Context (groups : list group) (val : list Z) (mt : mlvo_match_type) (Hg : groups_ok strict groups).

(** The [i]-th name matches. *)
Definition name_matches (names : list (list Z * Z)) (i : Z) : bool :=
  match names !! Z.to_nat i with Some p => value_matches groups val p.1 mt WILDCARD_MATCH_NONEMPTY | None => false end.

Lemma bit_land_0 c i : 0 <= i -> (Z.land (bit i) c =? 0) = negb (Z.testbit c i).
Proof.
  intros Hi. destruct (Z.testbit c i) eqn:Ht; cbn [negb].
  - apply Z.eqb_neq. intros H. apply (f_equal (fun z => Z.testbit z i)) in H. rewrite Z.land_spec, Ht, bit_spec, Z.bits_0, Z.eqb_refl in H by done. done.
  - apply Z.eqb_eq. apply Z.bits_inj'. intros j Hj. rewrite Z.land_spec, bit_spec, Z.bits_0 by done. destruct (Z.eqb_spec i j) as [->|]; [by rewrite Ht|done].
Qed.

Definition in_range (idx : Z) (n : nat) (i : Z) : bool := (idx <=? i) && (i <? idx + Z.of_nat n).

Lemma in_range_O idx i : in_range idx 0 i = false.
Proof. unfold in_range. destruct (Z.leb_spec idx i), (Z.ltb_spec i (idx + Z.of_nat 0)); cbn; try done; lia. Qed.

Lemma in_range_S idx n i : in_range idx (S n) i = (idx =? i) || in_range (idx + 1) n i.
Proof.
  unfold in_range. destruct (Z.eqb_spec idx i), (Z.leb_spec idx i), (Z.leb_spec (idx + 1) i), (Z.ltb_spec i (idx + Z.of_nat (S n))),
    (Z.ltb_spec i (idx + 1 + Z.of_nat n)); cbn; try done; lia.
Qed.

Lemma in_range_first idx n : in_range (idx + 1) n idx = false.
Proof. unfold in_range. by rewrite (proj2 (Z.leb_gt _ _)) by lia. Qed.

Lemma ldiff_bit c idx i : 0 <= idx -> 0 <= i -> Z.testbit (Z.ldiff c (bit idx)) i = Z.testbit c i && negb (idx =? i).
Proof. intros H1 H2. by rewrite Z.ldiff_spec, bit_spec by done. Qed.

Lemma match_layouts_ok n : forall idx input c matched, 0 <= idx -> idx + Z.of_nat n <= 32 -> idx + Z.of_nat n <= Z.of_nat (length input) ->
  within E (fun r => let '(matched', c', input') := r in
      map name_of input' = map name_of input /\
      (forall i, 0 <= i -> Z.testbit c' i = Z.testbit c i && (negb (in_range idx n i) || name_matches (map name_of input) i)) /\
      (matched' = true <-> matched = true \/ exists i, in_range idx n i = true /\ Z.testbit c i = true /\ name_matches (map name_of input) i = true))
    (match_layouts groups val mt n idx input c matched).
Proof using Hg.
  induction n as [|n IH]; intros idx input c matched Hi H32 Hlen; cbn [match_layouts].
  { cbn. split; [done|]. split; [intros i _; by rewrite in_range_O, andb_true_r|].
    split; [by left|]. intros [?|(i & H & _)]; [done|by rewrite in_range_O in H]. }
  destruct (Z.eqb_spec c 0) as [->|Hc].
  { cbn. split; [done|]. split; [intros i _; by rewrite Z.bits_0|]. split; [by left|]. intros [?|(i & _ & Hb & _)]; [done|]. by rewrite Z.bits_0 in Hb. }
  rewrite (proj2 (Z.leb_gt 32 idx)) by lia. rewrite bit_land_0 by done. rewrite Nat2Z.inj_succ in H32, Hlen.
  destruct (Z.testbit c idx) eqn:Hb; cbn [negb].
  - destruct (lookup_lt_is_Some_2 input (Z.to_nat idx)) as [to Hto]; [lia|]. rewrite Hto. eapply within_bind; [by apply match_and_mark_ok|].
    intros [b to'] [Hbm Hnm]. cbn in Hbm, Hnm. eapply within_mono; [apply IH; rewrite ?length_insert; lia|].
    intros [[matched' c'] input'] (H1 & H2 & H3). rewrite (names_insert _ _ to) in H1, H2, H3 by done.
    assert (name_matches (map name_of input) idx = b) as Hnb.
    { unfold name_matches. change (map name_of input) with (name_of <$> input). by rewrite list_lookup_fmap, Hto. }
    split; [done|]. split.
    + intros i Hi0. rewrite H2, in_range_S by done. destruct (Z.eqb_spec idx i) as [<-|Hne]; cbn [orb negb].
      * rewrite in_range_first, Hnb. destruct b; cbn; [by rewrite Hb|]. by rewrite ldiff_bit, Z.eqb_refl, Hb by done.
      * f_equal. destruct b; [done|]. rewrite ldiff_bit by done. rewrite (proj2 (Z.eqb_neq _ _) Hne). by rewrite andb_true_r.
    + rewrite H3, orb_true_iff. split.
      * intros [[Hm|Hm]|(i & Hr & Hbi & Hni)]; [by left| |]; right.
        -- exists idx. rewrite in_range_S, Z.eqb_refl. split; [done|]. split; [done|congruence].
        -- exists i. rewrite in_range_S, Hr, orb_true_r. split; [done|]. split; [|done]. destruct b; [done|].
           assert (0 <= i) by (apply andb_true_iff in Hr as [?%Z.leb_le _]; lia). rewrite ldiff_bit in Hbi by done. by apply andb_true_iff in Hbi as [? _].
      * intros [Hm|(i & Hr & Hbi & Hni)]; [by left; left|]. rewrite in_range_S in Hr. apply orb_true_iff in Hr as [<-%Z.eqb_eq|Hr].
        -- left. right. congruence.
        -- right. exists i. split; [done|]. split; [|done]. destruct b; [done|].
           assert (0 <= i /\ idx <> i) as [? ?] by (apply andb_true_iff in Hr as [?%Z.leb_le _]; lia).
           rewrite ldiff_bit, Hbi, (proj2 (Z.eqb_neq _ _)) by done. done.
  - eapply within_mono; [apply IH; lia|]. intros [[matched' c'] input'] (H1 & H2 & H3). split; [done|]. split.
    + intros i Hi0. rewrite H2, in_range_S by done. destruct (Z.eqb_spec idx i) as [<-|Hne]; [by rewrite Hb|done].
    + rewrite H3. split; (intros [Hm|(i & Hr & Hbi & Hni)]; [by left|]; right; exists i; split; [|done]).
      * by rewrite in_range_S, Hr, orb_true_r.
      * rewrite in_range_S in Hr. apply orb_true_iff in Hr as [<-%Z.eqb_eq|Hr]; [congruence|done].
Qed.

(** An option, and the layouts that it covers. *)
Definition option_matches (p : list Z * Z) : bool := value_matches groups val p.1 mt WILDCARD_MATCH_ALL.
Definition option_covers (i : Z) (p : list Z * Z) : bool := (p.2 =? 0) || Z.testbit p.2 i.

Definition matchable (u : Z) (p : list Z * Z) : Z := if negb (p.2 =? 0) then Z.land u p.2 else GLOBAL_MATCHED_LAYOUTS.

Lemma matchable_bit u p i : 0 <= i < 32 -> Z.testbit u i = true -> Z.testbit (matchable u p) i = option_covers i p.
Proof.
  intros Hi Hu. unfold matchable, option_covers. destruct (p.2 =? 0); cbn [negb orb].
  - unfold GLOBAL_MATCHED_LAYOUTS. change (2 ^ 32 - 1) with (Z.ones 32). by rewrite Z.ones_spec_low by lia.
  - by rewrite Z.land_spec, Hu.
Qed.

Lemma matchable_ldiff u p i : 0 <= i < 32 ->
  Z.testbit (Z.ldiff u (matchable u p)) i = Z.testbit u i && negb (option_covers i p).
Proof.
  intros Hi. rewrite Z.ldiff_spec. destruct (Z.testbit u i) eqn:Hu; [|done]. by rewrite matchable_bit.
Qed.

Lemma matchable_less u q p : matchable (Z.ldiff u q) p <> 0 -> matchable u p <> 0.
Proof.
  unfold matchable. destruct (negb _); [|done]. intros H H0. apply H. apply Z.bits_inj'. intros j Hj.
  apply (f_equal (fun z => Z.testbit z j)) in H0. rewrite Z.land_spec, Z.bits_0 in *. rewrite Z.ldiff_spec.
  destruct (Z.testbit u j), (Z.testbit p.2 j); cbn in *; rewrite ?andb_false_r; done.
Qed.

Lemma match_options_ok options : forall u,
  within E (fun r => let '(matched, u', options') := r in
      map name_of options' = map name_of options /\
      (forall i, 0 <= i < 32 -> Z.testbit u' i = Z.testbit u i && negb (existsb (fun p => option_matches p && option_covers i p) (map name_of options))) /\
      (matched = true <-> exists p, p ∈ map name_of options /\ option_matches p = true /\ matchable u p <> 0) /\
      (forall i, Z.testbit u' i = true -> Z.testbit u i = true))
    (match_options groups val mt options u).
Proof using Hg.
  induction options as [|o options IH]; intros u; cbn [match_options].
  { cbn. split; [done|]. split; [intros i _; by rewrite andb_true_r|]. split; [|done]. split; [done|]. by intros (p & Hp%elem_of_nil & _). }
  set (p := name_of o). change (if negb (mv_layouts o =? 0) then _ else _) with (matchable u p).
  assert (forall u1 m o', name_of o' = p -> (m = true -> option_matches p = true /\ matchable u p <> 0) ->
    (m = false -> u1 = u /\ (option_matches p = false \/ matchable u p = 0)) -> (m = true -> u1 = Z.ldiff u (matchable u p)) ->
    within E (fun r => let '(matched, u', options') := r in
      map name_of options' = p :: map name_of options /\
      (forall i, 0 <= i < 32 -> Z.testbit u' i =
         Z.testbit u i && negb (existsb (fun p => option_matches p && option_covers i p) (p :: map name_of options))) /\
      (matched = true <-> exists q, q ∈ p :: map name_of options /\ option_matches q = true /\ matchable u q <> 0) /\
      (forall i, Z.testbit u' i = true -> Z.testbit u i = true))
    (let+ r := match_options groups val mt options u1 in let '(matched, u', options) := r in Ok (m || matched, u', o' :: options))) as Hnext.
  { intros u1 m o' Ho Hm Hf Ht. eapply within_bind; [apply IH|]. intros [[matched u'] options'] (H1 & H2 & H3 & H4). cbn -[existsb].
    split; [by rewrite Ho, H1|]. split; [|split].
    - intros i Hi. rewrite H2 by done. cbn [existsb]. destruct m.
      + destruct Hm as [-> _]; [done|]. rewrite Ht, matchable_ldiff by done. by rewrite andb_true_l, negb_orb, andb_assoc.
      + destruct Hf as [-> [->|H0]]; [done|done|]. destruct (Z.testbit u i) eqn:Hu; [|done].
        rewrite <- (matchable_bit u p i Hi Hu), H0, Z.bits_0. by rewrite andb_false_r.
    - rewrite orb_true_iff, H3. split.
      + intros [->|(q & Hq & Hmq & Hu)]; [exists p; split; [by left|by apply Hm]|]. exists q. split; [by right|]. split; [done|].
        destruct m; [rewrite Ht in Hu by done; by eapply matchable_less|]. by destruct Hf as [-> _].
      + intros (q & Hq & Hmq & Hu). destruct m; [by left|]. right. destruct Hf as [-> Hf]; [done|].
        apply list.elem_of_cons in Hq as [->|Hq]; [destruct Hf; congruence|]. by exists q.
    - intros i Hi. apply H4 in Hi. destruct m; [|by destruct Hf as [-> _]]. rewrite Ht, Z.ldiff_spec in Hi by done.
      by apply andb_true_iff in Hi as [? _]. }
  destruct (Z.eqb_spec (matchable u p) 0) as [H0|H0].
  { apply Hnext; try done. intros _. split; [done|by right]. }
  eapply within_bind; [by apply match_and_mark_ok|]. intros [b o'] [Hb Hn]. cbn in Hb, Hn. change (b = option_matches p) in Hb.
  destruct b; [|apply Hnext; [done|done|intros _; split; [done|by left]|done]].
  destruct (Z.eqb_spec (Z.ldiff u (matchable u p)) 0) as [Hz|Hz]; [|by apply Hnext].
  cbn -[existsb]. rewrite Hn. fold p. split; [done|]. split.
  - intros i Hi. rewrite Z.bits_0. cbn [existsb]. rewrite <- Hb, andb_true_l, negb_orb, andb_assoc.
    rewrite <- matchable_ldiff, Hz, Z.bits_0 by done. done.
  - split; [|by intros i; rewrite Z.bits_0]. split; [|done]. intros _. exists p. split; [by left|]. done.
Qed.
End field.

(** ** The match of a rule *)

(** Whether a field matches, for the [i]-th layout. *)
Definition field_matches (groups : list group) (rn : rule_names) (mlvo : rules_mlvo) (v : mlvo_match_type * list Z) (i : Z) : bool :=
  match mlvo with
  | MLVO_MODEL => value_matches groups v.2 (mv_sval (rn_model rn)) v.1 WILDCARD_MATCH_ALL
  | MLVO_LAYOUT => name_matches groups v.2 v.1 (map name_of (rn_layouts rn)) i
  | MLVO_VARIANT => name_matches groups v.2 v.1 (map name_of (rn_variants rn)) i
  | MLVO_OPTION => existsb (fun p => option_matches groups v.2 v.1 p && option_covers i p) (map name_of (rn_options rn))
  end.

Definition rule_matches (groups : list group) (rn : rule_names) (fields : list rules_mlvo) (values : list (mlvo_match_type * list Z)) (i : Z) : bool :=
  forallb (fun f => field_matches groups rn f.1 f.2 i) (zip fields values).

Lemma field_matches_same groups rn rn' mlvo v i : names_of rn' = names_of rn -> field_matches groups rn' mlvo v i = field_matches groups rn mlvo v i.
Proof. intros H. injection H as Hm _ H1 H2 H3. unfold field_matches. by rewrite Hm, H1, H2, H3. Qed.

Lemma rule_matches_same groups rn rn' fields values i : names_of rn' = names_of rn ->
  rule_matches groups rn' fields values i = rule_matches groups rn fields values i.
Proof.
  intros H. unfold rule_matches. induction (zip fields values) as [|f l IH]; [done|]. cbn. by rewrite IH, (field_matches_same groups rn rn').
Qed.

(** The matcher, but for what matched. *)
Definition marked (m m' : matcher) : Prop := m' = m_set_rmlvo (m_rmlvo m') m /\ names_of (m_rmlvo m') = names_of (m_rmlvo m).

Lemma marked_refl m : marked m m.
Proof. by destruct m. Qed.

Lemma marked_trans m1 m2 m3 : marked m1 m2 -> marked m2 m3 -> marked m1 m3.
Proof. intros [E1 N1] [E2 N2]. split; [|congruence]. rewrite E2, E1. by destruct m1. Qed.

Lemma marked_set m rn : names_of rn = names_of (m_rmlvo m) -> marked m (m_set_rmlvo rn m).
Proof. by intros H. Qed.

(** The header has a layout or a variant. *)
Definition located (p : mapping) : bool := negb (Z.land (mp_defined_mlvo_mask p) MLVO_LAYOUT_AND_VARIANT =? 0).

(** The layouts of a header are in the names of the user. *)
Record bounds_ok (m : matcher) : Prop := {
  bo_min : 0 <= mp_layout_idx_min (m_mapping m) <= mp_layout_idx_max (m_mapping m);
  bo_max : mp_layout_idx_max (m_mapping m) <= 32;
  bo_layouts : mp_layout_idx_max (m_mapping m) <= Z.of_nat (length (rn_layouts (m_rmlvo m)))
}.

Definition candidates_in (m : matcher) (c : Z) : Prop :=
  forall i, 0 <= i -> Z.testbit c i = true -> mp_layout_idx_min (m_mapping m) <= i < mp_layout_idx_max (m_mapping m).

Lemma nonzero_bit c : 0 <= c -> c <> 0 -> exists i, 0 <= i /\ Z.testbit c i = true.
Proof. intros H1 H2. exists (Z.log2 c). split; [apply Z.log2_nonneg|apply Z.bit_log2; lia]. Qed.

Lemma some_bit_nonzero c i : Z.testbit c i = true -> c <> 0.
Proof. intros H ->. by rewrite Z.bits_0 in H. Qed.

(** What a field does to the candidates [c]. *)
Definition field_result (m : matcher) (c : Z) (matches : Z -> bool) (r : bool * Z * matcher) : Prop :=
  let '(matched, c', m') := r in
  marked m m' /\
  (forall i, 0 <= i < 32 -> matched && Z.testbit c' i = Z.testbit c i && matches i) /\
  (matched = true -> 0 <= c' /\ c' <> 0 /\ candidates_in m c').

Lemma range_bits (m : matcher) i : bounds_ok m -> mp_layout_idx_min (m_mapping m) <= i < mp_layout_idx_max (m_mapping m) ->
  in_range (mp_layout_idx_min (m_mapping m)) (Z.to_nat (mp_layout_idx_max (m_mapping m) - mp_layout_idx_min (m_mapping m))) i = true.
Proof.
  intros [Hmin _ _] Hi. unfold in_range. rewrite Z2Nat.id by lia. apply andb_true_iff.
  split; [apply Z.leb_le|apply Z.ltb_lt]; lia.
Qed.

Lemma match_input_ok (m : matcher) input v mt c (set : list matched_sval -> rule_names) :
  groups_ok strict (m_groups m) -> bounds_ok m -> 0 <= c -> c <> 0 -> candidates_in m c ->
  length input = length (rn_layouts (m_rmlvo m)) -> input <> [] ->
  (forall l, map name_of l = map name_of input -> names_of (set l) = names_of (m_rmlvo m)) ->
  within E (field_result m c (name_matches (m_groups m) v mt (map name_of input)))
    (let+ r := matcher_rule_match_layout_or_variant input v mt c m in Ok (r.1.1, r.1.2, m_set_rmlvo (set r.2) m)).
Proof.
  intros Hg Hb H0 Hne Hc Hlen Hin Hset. unfold matcher_rule_match_layout_or_variant. destruct input as [|x input]; [done|].
  pose proof Hb as [Hmin Hmax Hl]. eapply within_bind; [apply match_layouts_ok; [done|lia|rewrite Z2Nat.id by lia; lia|rewrite Z2Nat.id, Hlen by lia; lia]|].
  intros [[matched c'] input'] (H1 & H2 & H3). cbn [fst snd]. unfold field_result. split; [by apply marked_set, Hset|].
  assert (forall i, 0 <= i -> Z.testbit c' i = Z.testbit c i && name_matches (m_groups m) v mt (map name_of (x :: input)) i) as Hbits.
  { intros i Hi. rewrite H2 by done. destruct (Z.testbit c i) eqn:Ht; [|done]. by rewrite (range_bits m i Hb (Hc i Hi Ht)). }
  assert (matched = true <-> exists i, 0 <= i /\ Z.testbit c' i = true) as Hm.
  { rewrite H3. split.
    - intros [?|(i & Hr & Hti & Hn)]; [done|]. assert (0 <= i) by (apply andb_true_iff in Hr as [?%Z.leb_le _]; lia).
      exists i. split; [done|]. by rewrite Hbits, Hti, Hn by done.
    - intros (i & Hi & Ht). right. rewrite Hbits in Ht by done. apply andb_true_iff in Ht as [Ht Hn]. exists i.
      split; [|done]. by apply range_bits, Hc. }
  split.
  - intros i Hi. destruct matched; [apply Hbits; lia|]. cbn. rewrite <- Hbits by lia. destruct (Z.testbit c' i) eqn:Ht; [|done].
    assert (false = true) as [=]. apply Hm. exists i. split; [lia|done].
  - intros Hmt. apply Hm in Hmt as (i & Hi & Ht). split; [|split; [by apply (some_bit_nonzero c' i)|]].
    + apply Z.bits_iff_nonneg_ex. destruct (proj1 (Z.bits_iff_nonneg_ex c) H0) as [k Hk]. exists (Z.max k 0). intros j Hj.
      rewrite Hbits by lia. by rewrite Hk by lia.
    + intros j Hj Htj. rewrite Hbits in Htj by done. apply andb_true_iff in Htj as [Htj _]. by apply Hc.
Qed.

Lemma match_option_located (m : matcher) v mt c :
  groups_ok strict (m_groups m) -> bounds_ok m -> names_ok (m_rmlvo m) -> located (m_mapping m) = true -> 0 <= c -> c <> 0 -> candidates_in m c ->
  within E (field_result m c (field_matches (m_groups m) (m_rmlvo m) MLVO_OPTION (mt, v))) (matcher_rule_match_option v mt c m).
Proof.
  intros Hg Hb [_ _ Ho] Hloc H0 Hne Hc. unfold matcher_rule_match_option, located in *. rewrite Hloc.
  destruct (rn_options (m_rmlvo m)) as [|x options] eqn:Eo; [done|]. eapply within_bind; [by apply match_options_ok|].
  intros [[matched u] options'] (H1 & H2 & H3 & H4). unfold field_result.
  split; [by apply marked_set; unfold names_of; cbn; rewrite H1, Eo|].
  set (P i := existsb (fun p => option_matches (m_groups m) v mt p && option_covers i p) (map name_of (x :: options))).
  change (forall i, 0 <= i < 32 -> Z.testbit u i = Z.testbit c i && negb (P i)) in H2.
  set (c' := if negb (u =? 0) then Z.ldiff c u else c).
  assert (forall i, 0 <= i < 32 -> Z.testbit c' i = Z.testbit c i && P i) as Hbits.
  { intros i Hi. unfold c'. specialize (H2 i Hi). destruct (Z.eqb_spec u 0) as [->|Hu]; cbn [negb].
    - rewrite Z.bits_0 in H2. destruct (Z.testbit c i), (P i); done.
    - rewrite Z.ldiff_spec, H2. destruct (Z.testbit c i), (P i); done. }
  assert (forall i, 0 <= i -> Z.testbit c' i = true -> Z.testbit c i = true) as Hsub.
  { intros i Hi. unfold c'. destruct (u =? 0); cbn [negb]; [done|]. rewrite Z.ldiff_spec. by intros [? _]%andb_true_iff. }
  assert (matched = true <-> exists i, 0 <= i < 32 /\ Z.testbit c' i = true) as Hm.
  { rewrite H3. split.
    - intros (p & Hp & Hmp & Hu).
      assert (exists i, 0 <= i < 32 /\ Z.testbit c i = true /\ option_covers i p = true) as (i & Hi & Hti & Hcov).
      { pose proof Hb as [? ? _]. unfold matchable, option_covers in *. destruct (p.2 =? 0); cbn [negb orb] in *.
        - destruct (nonzero_bit c H0 Hne) as (i & Hi & Ht). exists i. specialize (Hc i Hi Ht). split; [lia|done].
        - destruct (nonzero_bit (Z.land c p.2)) as (i & Hi & Ht); [apply Z.land_nonneg; by left|done|]. rewrite Z.land_spec in Ht.
          apply andb_true_iff in Ht as [Ht1 Ht2]. exists i. specialize (Hc i Hi Ht1). split; [lia|done]. }
      exists i. split; [done|]. rewrite Hbits, Hti by done. apply existsb_exists. exists p. split; [by apply list_elem_of_In|]. by rewrite Hmp, Hcov.
    - intros (i & Hi & Ht). rewrite Hbits in Ht by done. apply andb_true_iff in Ht as [Ht Hp].
      apply existsb_exists in Hp as (p & Hp & Hmp). apply andb_true_iff in Hmp as [Hmp Hcov]. exists p. split; [by apply list_elem_of_In|].
      split; [done|]. apply (some_bit_nonzero _ i). by rewrite matchable_bit. }
  assert (forall i, field_matches (m_groups m) (m_rmlvo m) MLVO_OPTION (mt, v) i = P i) as HP by (intros i; unfold field_matches; by rewrite Eo).
  split.
  - intros i Hi. rewrite HP, <- Hbits by done. fold c'. destruct matched; [done|].
    destruct (Z.testbit c' i) eqn:Ht; [|done]. assert (false = true) as [=]. apply Hm. by exists i.
  - intros Hmt. apply Hm in Hmt as (i & Hi & Ht). split; [|split; [by apply (some_bit_nonzero c' i)|]].
    + change (0 <= c'). unfold c'. destruct (u =? 0); cbn [negb]; [done|]. apply Z.ldiff_nonneg. by left.
    + intros j Hj Htj. apply Hc; [done|]. by apply Hsub.
Qed.

Lemma match_model_ok (m : matcher) v mt : groups_ok strict (m_groups m) ->
  within E (fun r => marked m r.2 /\ r.1 = value_matches (m_groups m) v (mv_sval (rn_model (m_rmlvo m))) mt WILDCARD_MATCH_ALL)
    (matcher_rule_match_model v mt m).
Proof.
  intros Hg. unfold matcher_rule_match_model. eapply within_bind; [by apply match_and_mark_ok|]. intros [b x] [H1 H2]. cbn in *.
  split; [|done]. apply marked_set. unfold names_of. cbn. by rewrite H2.
Qed.

Lemma nonempty_of_length {A B} (l : list A) (l' : list B) : length l = length l' -> l' <> [] -> l <> [].
Proof. intros Hl Hn ->. by destruct l'. Qed.

Lemma match_field_located (m : matcher) mlvo v mt c :
  groups_ok strict (m_groups m) -> bounds_ok m -> names_ok (m_rmlvo m) -> located (m_mapping m) = true -> 0 <= c -> c <> 0 -> candidates_in m c ->
  within E (field_result m c (field_matches (m_groups m) (m_rmlvo m) mlvo (mt, v))) (match_field mlvo v mt c m).
Proof.
  intros Hg Hb Hn Hloc H0 Hne Hc. pose proof Hn as [N1 N2 N3]. destruct mlvo; cbn [match_field].
  - eapply within_bind; [by apply match_model_ok|]. intros [b m'] [Hm ->]. cbn in *. split; [done|]. split; [|done].
    intros i Hi. apply andb_comm.
  - apply (match_input_ok m _ v mt c (fun l => set_layouts l (m_rmlvo m))); try done. intros l H. unfold names_of. cbn. by rewrite H.
  - apply (match_input_ok m _ v mt c (fun l => set_variants l (m_rmlvo m))); try done; [by eapply nonempty_of_length|].
    intros l H. unfold names_of. cbn. by rewrite H.
  - by apply match_option_located.
Qed.

Lemma marked_same m m' : marked m m' -> m_groups m' = m_groups m /\ m_mapping m' = m_mapping m /\ (names_ok (m_rmlvo m) -> names_ok (m_rmlvo m')) /\
  (bounds_ok m -> bounds_ok m') /\ (forall c, candidates_in m c -> candidates_in m' c) /\ (forall c, candidates_in m' c -> candidates_in m c).
Proof.
  intros [E1 N]. assert (m_groups m' = m_groups m) as Eg by by rewrite E1. assert (m_mapping m' = m_mapping m) as Em by by rewrite E1.
  split; [done|]. split; [done|]. split; [by apply names_ok_same|]. unfold candidates_in. split.
  - destruct (names_of_length _ _ N) as (H & _). intros []. split; rewrite Em, ?H; done.
  - by rewrite Em.
Qed.

(** With a layout or a variant in the header, the rule keeps the candidates that
    match it. *)
Lemma match_fields_located fields : forall values c m, length fields = length values ->
  groups_ok strict (m_groups m) -> bounds_ok m -> names_ok (m_rmlvo m) -> located (m_mapping m) = true -> 0 <= c -> c <> 0 -> candidates_in m c ->
  within E (fun r => marked m r.2 /\
      (forall i, 0 <= i < 32 -> Z.testbit (default 0 r.1) i = Z.testbit c i && rule_matches (m_groups m) (m_rmlvo m) fields values i) /\
      (forall c', r.1 = Some c' -> 0 <= c' /\ c' <> 0 /\ candidates_in m c'))
    (match_fields fields values c m).
Proof.
  induction fields as [|f fields IH]; intros [|[mt v] values] c m Hlen Hg Hb Hn Hloc H0 Hne Hc; try done; cbn [match_fields].
  { cbn. split; [by apply marked_refl|]. split; [by intros i _; rewrite andb_true_r|]. by intros c' [= <-]. }
  eapply within_bind; [by apply match_field_located|]. intros [[matched c1] m1] (Hm1 & Hbits & Hc1).
  destruct (marked_same _ _ Hm1) as (Eg & Em & Hn1 & Hb1 & Hci & Hci'). destruct matched; cbn [andb] in *.
  - destruct Hc1 as (C1 & C2 & C3); [done|]. eapply within_mono.
    { apply IH; [by injection Hlen|by rewrite Eg|by auto|by auto|by rewrite Em|done|done|by auto]. }
    intros [r m2] (Hm2 & Hb2 & Hr). cbn [fst snd] in *. split; [by eapply marked_trans|]. split; [|by intros c' Hc'; destruct (Hr c' Hc') as (?&?&?); auto].
    intros i Hi. rewrite Hb2, Hbits by done. unfold rule_matches. cbn [zip zip_with forallb fst snd]. fold (rule_matches (m_groups m) (m_rmlvo m) fields values i).
    rewrite <- andb_assoc. f_equal. f_equal. rewrite Eg. apply rule_matches_same, Hm1.
  - cbn. split; [done|]. split; [|done]. intros i Hi. rewrite Z.bits_0. unfold rule_matches. cbn [zip zip_with forallb fst snd].
    by rewrite andb_assoc, <- Hbits.
Qed.

(** Without them, it matches or not: -1 stands for no layout. *)
Definition no_layout : Z := -1.

Lemma match_option_unlocated (m : matcher) v mt c :
  groups_ok strict (m_groups m) -> names_ok (m_rmlvo m) -> located (m_mapping m) = false ->
  within E (fun r => marked m r.2 /\ r.1.2 = c /\ r.1.1 = field_matches (m_groups m) (m_rmlvo m) MLVO_OPTION (mt, v) no_layout)
    (matcher_rule_match_option v mt c m).
Proof.
  intros Hg [_ _ Ho] Hloc. unfold matcher_rule_match_option, located in *. rewrite Hloc.
  destruct (rn_options (m_rmlvo m)) as [|x options] eqn:Eo; [done|]. eapply within_bind; [by apply match_options_ok|].
  intros [[matched u] options'] (H1 & H2 & H3 & H4). cbn [fst snd].
  split; [by apply marked_set; unfold names_of; cbn; rewrite H1, Eo|].
  assert (u = 0) as ->. { apply Z.bits_inj'. intros i _. rewrite Z.bits_0. destruct (Z.testbit u i) eqn:E1; [|done]. apply H4 in E1. by rewrite Z.bits_0 in E1. }
  split; [done|]. unfold field_matches. rewrite Eo. apply eq_bool_prop_intro. rewrite !Is_true_true, H3, existsb_exists.
  assert (forall p, matchable 0 p <> 0 <-> option_covers no_layout p = true) as Hp.
  { intros p. unfold matchable, option_covers, no_layout. destruct (p.2 =? 0); cbn [negb orb]; [done|]. split; [done|]. by rewrite Z.testbit_neg_r. }
  split; intros (p & Hin & Hr); exists p; rewrite list_elem_of_In in *; (split; [done|]); rewrite Hp, andb_true_iff in *; done.
Qed.

Lemma match_fields_unlocated fields : forall values c m, length fields = length values ->
  groups_ok strict (m_groups m) -> names_ok (m_rmlvo m) -> located (m_mapping m) = false ->
  Forall (fun f => f = MLVO_MODEL \/ f = MLVO_OPTION) fields ->
  within E (fun r => marked m r.2 /\ r.1 = if rule_matches (m_groups m) (m_rmlvo m) fields values no_layout then Some c else None)
    (match_fields fields values c m).
Proof.
  induction fields as [|f fields IH]; intros [|[mt v] values] c m Hlen Hg Hn Hloc Hf; try done; cbn [match_fields].
  { cbn. split; [by apply marked_refl|done]. }
  apply list.Forall_cons in Hf as [Hf Hfs].
  assert (within E (fun r => marked m r.2 /\ r.1.2 = c /\ r.1.1 = field_matches (m_groups m) (m_rmlvo m) f (mt, v) no_layout) (match_field f v mt c m)) as Hfield.
  { destruct Hf as [-> | ->]; cbn [match_field]; [|by apply match_option_unlocated].
    eapply within_bind; [by apply match_model_ok|]. intros [b m'] [Hm ->]. done. }
  eapply within_bind; [exact Hfield|]. intros [[matched c1] m1] (Hm1 & Hc1 & Hmt). cbn [fst snd] in *. subst c1.
  unfold rule_matches. cbn [zip zip_with forallb fst snd]. rewrite <- Hmt. destruct matched; [|done].
  destruct (marked_same _ _ Hm1) as (Eg & Em & Hn1 & _). eapply within_mono.
  { apply IH; [by injection Hlen|by rewrite Eg|by auto|by rewrite Em|done]. }
  intros [r m2] (Hm2 & Hr). split; [by eapply marked_trans|]. rewrite Hr, Eg. cbn [andb]. by rewrite (rule_matches_same _ (m_rmlvo m)) by apply Hm1.
Qed.
End matching.

(** ** Headers *)

Definition special_index (idx : Z) : Prop := LAYOUT_INDEX_SINGLE <= idx <= LAYOUT_INDEX_ANY.
Definition index_ok (idx : Z) : Prop := 0 <= idx < 32 \/ special_index idx.

Lemma parse_dec_nonneg max s len : 0 <= max -> Forall is_char s -> 0 <= (parse_dec_to max s len).2.
Proof.
  intros Hm Hs. pose proof (parse_dec_spec max s len Hm Hs) as H. unfold parsed in H. destruct (_ <=? max) eqn:Hv.
  - rewrite H. cbn. apply value_in_ge; [lia|done|]. clear. generalize (prefix_of_class is_digit s len). intros l.
    apply list.Forall_true. intros c. by apply Z.mod_pos_bound.
  - destruct H as [_ [? _]]. done.
Qed.

Lemma index_tail_ok s count idx : Forall is_char s -> parse_layout_int_index_tail s = Some (count, idx) -> 0 <= idx < 32.
Proof.
  intros Hs. unfold parse_layout_int_index_tail. destruct (Nat.ltb _ _); [done|].
  pose proof (parse_dec_nonneg UINT32_MAX (drop 1 s) (length s - 2) ltac:(done) (list.Forall_drop _ _ _ Hs)) as Hn.
  unfold parse_dec_to_uint32_t. destruct (parse_dec_to _ _ _) as [n v]. cbn in Hn.
  destruct (_ || _) eqn:E; [done|]. intros [= _ <-]. apply orb_false_iff in E as [[_ E1%Z.eqb_neq]%orb_false_iff E2].
  rewrite Z.gtb_ltb in E2. apply Z.ltb_ge in E2. unfold XKB_MAX_GROUPS in E2. lia.
Qed.

Lemma mapping_layout_index_ok s idx : Forall is_char s -> extract_mapping_layout_index s = Some idx -> index_ok idx.
Proof.
  intros Hs. unfold extract_mapping_layout_index. destruct s as [|c [|c1 [|c2 s]]]; try done. destruct (negb _); [done|].
  destruct (_ && _ && _) eqn:E.
  { intros [= <-]. left. apply andb_true_iff in E as [_ E]. unfold is_small_digit, between in E. lia. }
  destruct (list_find _ _) as [[i [n v]]|] eqn:Ef.
  { intros [= <-]. right. apply list_find_Some in Ef as (Hi & _ & _). unfold special_index.
    do 5 (destruct i as [|i]; [injection Hi as _ <-; unfold LAYOUT_INDEX_SINGLE, LAYOUT_INDEX_FIRST, LAYOUT_INDEX_LATER, LAYOUT_INDEX_MULTIPLE,
      LAYOUT_INDEX_ANY; lia|]). done. }
  destruct (parse_layout_int_index_tail _) as [[n v]|] eqn:Et; [|done]. destruct (Nat.eqb _ _); [|done]. intros [= <-]. left.
  by eapply index_tail_ok.
Qed.

(** The masks of the header, and what its fields are. *)
Record fields_ok (p : mapping) : Prop := {
  fo_mask : forall v, has_flag (mp_defined_mlvo_mask p) (bit (mlvo_index v)) = bool_decide (v ∈ mp_mlvo_at_pos p);
  fo_nodup : NoDup (mp_mlvo_at_pos p);
  fo_kmask : forall v, has_flag (mp_defined_kccgst_mask p) (bit (Z.of_nat (kccgst_index v))) = bool_decide (v ∈ mp_kccgst_at_pos p);
  fo_knodup : NoDup (mp_kccgst_at_pos p)
}.

Record header_ok (p : mapping) : Prop := {
  hd_fields : fields_ok p;
  hd_layout : mp_layout_idx_min p = XKB_LAYOUT_INVALID \/ index_ok (mp_layout_idx_min p);
  hd_variant : mp_layout_idx_max p = XKB_LAYOUT_INVALID \/ index_ok (mp_layout_idx_max p);
  hd_layout_set : mp_active p = true -> MLVO_LAYOUT ∈ mp_mlvo_at_pos p <-> mp_layout_idx_min p <> XKB_LAYOUT_INVALID;
  hd_variant_set : mp_active p = true -> MLVO_VARIANT ∈ mp_mlvo_at_pos p <-> mp_layout_idx_max p <> XKB_LAYOUT_INVALID
}.

Lemma mlvo_length (l : list rules_mlvo) : NoDup l -> (length l <= MLVO_NUM_ENTRIES)%nat.
Proof.
  intros H. apply (submseteq_length l [MLVO_MODEL; MLVO_LAYOUT; MLVO_VARIANT; MLVO_OPTION]), NoDup_submseteq; [done|].
  intros [] _; repeat (apply list.elem_of_cons; first [by left|right]).
Qed.

Lemma kccgst_length (l : list rules_kccgst) : NoDup l -> (length l <= KCCGST_NUM_ENTRIES)%nat.
Proof.
  intros H. apply (submseteq_length l [KCCGST_KEYCODES; KCCGST_TYPES; KCCGST_COMPAT; KCCGST_SYMBOLS; KCCGST_GEOMETRY]), NoDup_submseteq; [done|].
  intros [] _; repeat (apply list.elem_of_cons; first [by left|right]).
Qed.

Lemma full_elem {A} `{!EqDecision A} (l : list A) x : NoDup l -> x ∉ l -> NoDup (l ++ [x]).
Proof. intros Hl Hx. apply list.NoDup_app. split; [done|]. split; [|apply list.NoDup_singleton]. intros y Hy ->%list_elem_of_singleton. done. Qed.

Lemma flag_lor m i j : 0 <= i -> 0 <= j -> has_flag (Z.lor m (bit j)) (bit i) = has_flag m (bit i) || (j =? i).
Proof. intros Hi Hj. by rewrite !has_flag_bit, Z.lor_spec, bit_spec by done. Qed.

Lemma mlvo_index_inj v w : (mlvo_index v =? mlvo_index w) = bool_decide (v = w).
Proof. by destruct v, w. Qed.
Lemma kccgst_index_inj v w : (Z.of_nat (kccgst_index v) =? Z.of_nat (kccgst_index w)) = bool_decide (v = w).
Proof. by destruct v, w. Qed.
Lemma mlvo_index_nonneg v : 0 <= mlvo_index v.
Proof. by destruct v. Qed.

Lemma elem_snoc {A} `{!EqDecision A} (l : list A) x y : bool_decide (y ∈ l ++ [x]) = bool_decide (y ∈ l) || bool_decide (x = y).
Proof.
  destruct (decide (y ∈ l)) as [H|H]; [by rewrite !bool_decide_eq_true_2 by (try apply list.elem_of_app; tauto)|].
  rewrite (bool_decide_eq_false_2 (y ∈ l)) by done. apply bool_decide_ext. rewrite list.elem_of_app, list_elem_of_singleton.
  split; [intros [?|?]; [done|congruence]|]. intros ->. by right.
Qed.

Lemma add_mlvo_ok p v : fields_ok p -> v ∉ mp_mlvo_at_pos p ->
  exists p', add_mlvo v p = Ok p' /\ fields_ok p' /\ mp_mlvo_at_pos p' = mp_mlvo_at_pos p ++ [v] /\
    mp_layout_idx_min p' = mp_layout_idx_min p /\ mp_layout_idx_max p' = mp_layout_idx_max p /\ mp_active p' = mp_active p.
Proof.
  intros [F1 F2 F3 F4] Hv. unfold add_mlvo. pose proof (mlvo_length _ (full_elem _ v F2 Hv)) as Hl. rewrite length_app in Hl. cbn in Hl.
  rewrite (proj2 (Nat.leb_gt _ _)) by (unfold MLVO_NUM_ENTRIES in *; lia). eexists. split; [reflexivity|]. split; [|done]. split; cbn; try done.
  - intros w. by rewrite flag_lor, F1, mlvo_index_inj, elem_snoc by apply mlvo_index_nonneg.
  - by apply full_elem.
Qed.

Lemma add_kccgst_ok p v : fields_ok p -> v ∉ mp_kccgst_at_pos p ->
  exists p', add_kccgst v p = Ok p' /\ fields_ok p' /\ mp_mlvo_at_pos p' = mp_mlvo_at_pos p /\
    mp_layout_idx_min p' = mp_layout_idx_min p /\ mp_layout_idx_max p' = mp_layout_idx_max p /\ mp_active p' = mp_active p.
Proof.
  intros [F1 F2 F3 F4] Hv. unfold add_kccgst. pose proof (kccgst_length _ (full_elem _ v F4 Hv)) as Hl. rewrite length_app in Hl. cbn in Hl.
  rewrite (proj2 (Nat.leb_gt _ _)) by (unfold KCCGST_NUM_ENTRIES in *; lia). eexists. split; [reflexivity|]. split; [|done]. split; cbn; try done.
  - intros w. by rewrite flag_lor, F3, kccgst_index_inj, elem_snoc by lia.
  - by apply full_elem.
Qed.

(** A header that an error makes inactive. *)
Lemma header_inactive p : fields_ok p ->
  (mp_layout_idx_min p = XKB_LAYOUT_INVALID \/ index_ok (mp_layout_idx_min p)) ->
  (mp_layout_idx_max p = XKB_LAYOUT_INVALID \/ index_ok (mp_layout_idx_max p)) -> header_ok (mp_set_active false p).
Proof. intros [] H1 H2. by split. Qed.

(** Only the header changes. *)
Definition remapped (m m' : matcher) : Prop := m' = m_set_mapping (m_mapping m') m.
Lemma remapped_set m p : remapped m (m_set_mapping p m).
Proof. done. Qed.
Lemma remapped_refl m : remapped m m.
Proof. by destruct m. Qed.

Lemma special_ok v : v ∈ map snd layout_index_names -> index_ok v.
Proof. intros Hv. right. cbn in Hv. unfold special_index. repeat (apply list.elem_of_cons in Hv as [->|Hv]; [unfold LAYOUT_INDEX_SINGLE, LAYOUT_INDEX_FIRST, LAYOUT_INDEX_LATER, LAYOUT_INDEX_MULTIPLE, LAYOUT_INDEX_ANY; lia|]). by apply elem_of_nil in Hv. Qed.

Lemma index_valid idx : index_ok idx -> idx <> XKB_LAYOUT_INVALID.
Proof. unfold index_ok, special_index, LAYOUT_INDEX_SINGLE, LAYOUT_INDEX_ANY, XKB_LAYOUT_INVALID. lia. Qed.

Lemma mapping_index_ok mlvo tail p p' : Forall is_char tail -> mapping_index mlvo tail p = Some p' ->
  (mlvo = MLVO_LAYOUT /\ exists idx, index_ok idx /\ p' = mp_set_layout_idx idx p) \/
  (mlvo = MLVO_VARIANT /\ exists idx, index_ok idx /\ p' = mp_set_variant_idx idx p) \/
  ((mlvo = MLVO_MODEL \/ mlvo = MLVO_OPTION) /\ p' = p).
Proof.
  intros Ht. unfold mapping_index. assert (index_ok LAYOUT_INDEX_SINGLE) as Hs by (apply special_ok; by left). destruct tail as [|c tail].
  - intros [= <-]. destruct mlvo; eauto 10.
  - destruct (extract_mapping_layout_index (c :: tail)) as [idx|] eqn:E; [|done]. apply mapping_layout_index_ok in E; [|done].
    destruct mlvo; try done; intros [= <-]; eauto 10.
Qed.

Lemma set_mlvo_ok ident m : Forall is_char ident -> header_ok (m_mapping m) -> mp_active (m_mapping m) = true ->
  exists m', matcher_mapping_set_mlvo ident m = Ok m' /\ header_ok (m_mapping m') /\ remapped m m'.
Proof.
  intros Hid [Hf Hl Hv Hls Hvs] Hact. specialize (Hls Hact). specialize (Hvs Hact). unfold matcher_mapping_set_mlvo.
  assert (forall p, fields_ok p -> (mp_layout_idx_min p = XKB_LAYOUT_INVALID \/ index_ok (mp_layout_idx_min p)) ->
    (mp_layout_idx_max p = XKB_LAYOUT_INVALID \/ index_ok (mp_layout_idx_max p)) ->
    exists m', Ok (mapping_inactive (m_set_mapping p m)) = Ok m' /\ header_ok (m_mapping m') /\ remapped m m') as Hfail.
  { intros p H1 H2 H3. eexists. split; [reflexivity|]. split; [by apply header_inactive|done]. }
  assert (mapping_inactive m = mapping_inactive (m_set_mapping (m_mapping m) m)) as Em by by destruct m.
  destruct (list_find _ rules_mlvo_svals) as [[i [mlvo name]]|]; [|rewrite Em; by apply Hfail].
  destruct (is_mlvo_mask_defined m mlvo) eqn:Hd; [rewrite Em; by apply Hfail|].
  unfold is_mlvo_mask_defined in Hd. rewrite (fo_mask _ Hf), bool_decide_eq_false in Hd.
  destruct (mapping_index mlvo _ _) as [p|] eqn:Hi; [|rewrite Em; by apply Hfail].
  apply mapping_index_ok in Hi; [|by apply list.Forall_drop].
  assert (fields_ok p /\ (mp_layout_idx_min p = XKB_LAYOUT_INVALID \/ index_ok (mp_layout_idx_min p)) /\
    (mp_layout_idx_max p = XKB_LAYOUT_INVALID \/ index_ok (mp_layout_idx_max p)) /\ mp_mlvo_at_pos p = mp_mlvo_at_pos (m_mapping m) /\
    mp_active p = true /\
    (mlvo = MLVO_LAYOUT \/ (MLVO_LAYOUT ∈ mp_mlvo_at_pos (m_mapping m) <-> mp_layout_idx_min p <> XKB_LAYOUT_INVALID)) /\
    (mlvo = MLVO_VARIANT \/ (MLVO_VARIANT ∈ mp_mlvo_at_pos (m_mapping m) <-> mp_layout_idx_max p <> XKB_LAYOUT_INVALID)) /\
    (mlvo = MLVO_LAYOUT -> mp_layout_idx_min p <> XKB_LAYOUT_INVALID) /\ (mlvo = MLVO_VARIANT -> mp_layout_idx_max p <> XKB_LAYOUT_INVALID))
    as (Pf & Pl & Pv & Pm & Pa & Q1 & Q2 & Q3 & Q4).
  { destruct Hi as [(-> & idx & Hidx & ->)|[(-> & idx & Hidx & ->)|(Hm & ->)]].
    - split; [by destruct Hf|]. cbn. pose proof (index_valid _ Hidx). repeat (split; [by auto|]). done.
    - split; [by destruct Hf|]. cbn. pose proof (index_valid _ Hidx). repeat (split; [by auto|]). done.
    - repeat (split; [by auto|]). split; by destruct Hm as [-> | ->]. }
  destruct (_ && _); [by apply Hfail|].
  destruct (add_mlvo_ok p mlvo Pf) as (p' & -> & Pf' & Pm' & E1 & E2 & E3); [by rewrite Pm|]. cbn [result_bind].
  eexists. split; [reflexivity|]. split; [|done]. cbn. split; rewrite ?E1, ?E2, ?Pm', ?Pm; try done; intros _;
    rewrite list.elem_of_app, list_elem_of_singleton.
  - destruct (decide (mlvo = MLVO_LAYOUT)) as [->|Hne]; [split; [intros _; by apply Q3|by right]|].
    destruct Q1 as [?|Q1]; [done|]. rewrite <- Q1. split; [by intros [?|?]|by left].
  - destruct (decide (mlvo = MLVO_VARIANT)) as [->|Hne]; [split; [intros _; by apply Q4|by right]|].
    destruct Q2 as [?|Q2]; [done|]. rewrite <- Q2. split; [by intros [?|?]|by left].
Qed.

Lemma start_mapping_ok m : header_ok (m_mapping (matcher_mapping_start_new m)) /\ mp_active (m_mapping (matcher_mapping_start_new m)) = true.
Proof.
  split; [|done]. split; cbn.
  - split; cbn; [|apply NoDup_nil_2| |apply NoDup_nil_2]; intros []; done.
  - by left.
  - by left.
  - intros _. split; [by intros ?%elem_of_nil|done].
  - intros _. split; [by intros ?%elem_of_nil|done].
Qed.

Lemma set_kccgst_ok ident m : header_ok (m_mapping m) -> mp_active (m_mapping m) = true ->
  exists m', matcher_mapping_set_kccgst ident m = Ok m' /\ header_ok (m_mapping m') /\ remapped m m'.
Proof.
  intros [Hf Hl Hv Hls Hvs] Hact. unfold matcher_mapping_set_kccgst.
  assert (exists m', Ok (mapping_inactive m) = Ok m' /\ header_ok (m_mapping m') /\ remapped m m') as Hfail.
  { eexists. split; [reflexivity|]. split; [by apply header_inactive|done]. }
  destruct (list_find _ rules_kccgst_svals) as [[i [k name]]|]; [|done]. destruct (has_flag _ _) eqn:Hd; [done|].
  rewrite (fo_kmask _ Hf), bool_decide_eq_false in Hd.
  destruct (add_kccgst_ok _ k Hf Hd) as (p' & -> & Pf' & Pm' & E1 & E2 & E3). cbn [result_bind]. eexists. split; [reflexivity|]. split; [|done].
  cbn. split; rewrite ?E1, ?E2, ?E3, ?Pm'; done.
Qed.

(** ** The layouts of a header *)

Record ready (m : matcher) : Prop := {
  rd_fields : fields_ok (m_mapping m);
  rd_located : mp_active (m_mapping m) = true -> located (m_mapping m) = true ->
    bounds_ok m /\ candidates_in m (mp_layouts_candidates_mask (m_mapping m));
  rd_single : mp_active (m_mapping m) = true -> located (m_mapping m) = false -> mp_has_multiple_layouts (m_mapping m) = false;
  rd_nonneg : 0 <= mp_layouts_candidates_mask (m_mapping m)
}.

Lemma located_fields p : fields_ok p -> located p = bool_decide (MLVO_LAYOUT ∈ mp_mlvo_at_pos p) || bool_decide (MLVO_VARIANT ∈ mp_mlvo_at_pos p).
Proof.
  intros Hf. rewrite <- !(fo_mask _ Hf), !has_flag_bit by apply mlvo_index_nonneg. unfold located, MLVO_LAYOUT_AND_VARIANT.
  rewrite Z.land_lor_distr_r, !land_bit by apply mlvo_index_nonneg.
  by destruct (Z.testbit _ (mlvo_index MLVO_LAYOUT)), (Z.testbit _ (mlvo_index MLVO_VARIANT)).
Qed.

Lemma verify_ok m : header_ok (m_mapping m) -> mp_active (m_mapping m) = true ->
  exists b m', matcher_mapping_verify m = Ok (b, m') /\ remapped m m' /\
    if b : bool then m' = m /\ (MLVO_LAYOUT ∈ mp_mlvo_at_pos (m_mapping m) -> layout_index_allowed m = true) /\
                    (MLVO_VARIANT ∈ mp_mlvo_at_pos (m_mapping m) -> variant_index_allowed m = true)
    else m' = mapping_inactive m.
Proof.
  intros [Hf Hl Hv Hls Hvs] Hact. specialize (Hls Hact). specialize (Hvs Hact). unfold matcher_mapping_verify.
  assert (exists b m', Ok (false, mapping_inactive m) = Ok (b, m') /\ remapped m m' /\
    if b : bool then m' = m /\ (MLVO_LAYOUT ∈ mp_mlvo_at_pos (m_mapping m) -> layout_index_allowed m = true) /\
                    (MLVO_VARIANT ∈ mp_mlvo_at_pos (m_mapping m) -> variant_index_allowed m = true)
    else m' = mapping_inactive m) as Hskip by (by exists false, (mapping_inactive m)).
  destruct (mp_mlvo_at_pos (m_mapping m)) as [|v l] eqn:El; [done|]. destruct (mp_kccgst_at_pos _) as [|]; [done|]. rewrite <- El in *.
  unfold is_mlvo_mask_defined. rewrite !(fo_mask _ Hf).
  destruct (bool_decide_reflect (MLVO_LAYOUT ∈ mp_mlvo_at_pos (m_mapping m))) as [H1|H1];
    destruct (bool_decide_reflect (MLVO_VARIANT ∈ mp_mlvo_at_pos (m_mapping m))) as [H2|H2]; cbn [andb];
    try (rewrite (proj2 (Z.eqb_neq _ _)) by (by apply Hls));
    try (destruct (layout_index_allowed m); cbn [negb]; [|done]);
    try (rewrite (proj2 (Z.eqb_neq _ _)) by (by apply Hvs));
    try (destruct (variant_index_allowed m); cbn [negb]; [|done]);
    exists true, m; (split; [done|]); (split; [apply remapped_refl|]); done.
Qed.

Lemma ones_candidates max i : 0 <= max <= 32 -> 0 <= i -> Z.testbit (u32 (bit max - 1)) i = true -> i < max.
Proof.
  intros Hm Hi. unfold u32, bit. rewrite Z.shiftl_1_l. change (2 ^ max - 1) with (Z.pred (2 ^ max)). rewrite <- Z.ones_equiv.
  destruct (Z.lt_ge_cases i 32) as [Hlt|Hge]; [|by rewrite Z.mod_pow2_bits_high by lia]. rewrite Z.mod_pow2_bits_low by lia.
  destruct (Z.lt_ge_cases i max); [done|]. by rewrite Z.ones_spec_high by lia.
Qed.

Lemma later_candidates max i : 0 <= max <= 32 -> 0 <= i -> Z.testbit (u32 (Z.ldiff (bit max - 1) 1)) i = true -> 1 <= i < max.
Proof.
  intros Hm Hi H. assert (Z.testbit (u32 (bit max - 1)) i = true /\ i <> 0) as [H1 H2].
  - destruct (Z.lt_ge_cases i 32) as [Hlt|Hge]; [|by unfold u32 in H; rewrite Z.mod_pow2_bits_high in H by lia].
    unfold u32 in *. rewrite Z.mod_pow2_bits_low in * by lia. rewrite Z.ldiff_spec in H. apply andb_true_iff in H as [H H0]. split; [done|].
    intros ->. done.
  - apply ones_candidates in H1; lia.
Qed.

Lemma num_layouts_pos m : names_ok (m_rmlvo m) -> 1 <= num_layouts m /\ num_variants m = num_layouts m.
Proof.
  intros [N1 N2 _]. unfold num_layouts, num_variants. rewrite N2. split; [|done]. destruct (rn_layouts (m_rmlvo m)); [done|]. cbn. lia.
Qed.

Lemma bounds_multiple range min max c p : mp_has_multiple_layouts (mp_set_bounds range min max c p) = true -> min < max.
Proof. cbn. intros [H _]%andb_true_iff. lia. Qed.

(** A mere index, that the number of layouts allows. *)
Lemma index_allowed m idx : idx = mp_layout_idx_min (m_mapping m) -> 0 <= idx < 32 -> layout_index_allowed m = true -> idx < num_layouts m.
Proof.
  intros -> Hi. unfold layout_index_allowed, LAYOUT_INDEX_SINGLE, LAYOUT_INDEX_MULTIPLE, LAYOUT_INDEX_LATER, LAYOUT_INDEX_ANY, LAYOUT_INDEX_FIRST, XKB_LAYOUT_INVALID.
  rewrite !(proj2 (Z.eqb_neq _ _)) by lia. cbn [orb]. intros [_ H%Z.ltb_lt]%andb_true_iff. done.
Qed.

Lemma variant_allowed m idx : idx = mp_layout_idx_max (m_mapping m) -> 0 <= idx < 32 -> variant_index_allowed m = true -> idx < num_variants m.
Proof.
  intros -> Hi. unfold variant_index_allowed, LAYOUT_INDEX_SINGLE, LAYOUT_INDEX_LATER, LAYOUT_INDEX_ANY, LAYOUT_INDEX_FIRST, XKB_LAYOUT_INVALID.
  rewrite !(proj2 (Z.eqb_neq _ _)) by lia. cbn [orb]. intros [_ H%Z.ltb_lt]%andb_true_iff. done.
Qed.

(** The layouts [min] to [max], with candidates among them. *)
Lemma bounds_ready m range min max c : fields_ok (m_mapping m) -> 0 <= min <= max -> max <= 32 -> max <= num_layouts m ->
  0 <= c -> (forall i, 0 <= i -> Z.testbit c i = true -> min <= i < max) ->
  (located (m_mapping m) = true \/ max - min <= 1) ->
  ready (m_set_mapping (mp_set_bounds range min max c (m_mapping m)) m).
Proof.
  intros [] H1 H2 H3 H4 H5 H6. split; [by split|..]; cbn.
  - intros _ _. split; [by split|exact H5].
  - intros _ Hl. destruct H6 as [H6|H6]; [by unfold located in *; cbn in *; congruence|].
    apply andb_false_iff. right. rewrite Z.gtb_ltb. apply Z.ltb_ge. unfold u32. rewrite Z.mod_small; [|change (2 ^ 32) with 4294967296]; lia.
  - done.
Qed.

Lemma set_layout_bounds_ok m : header_ok (m_mapping m) -> mp_active (m_mapping m) = true -> names_ok (m_rmlvo m) ->
  (MLVO_LAYOUT ∈ mp_mlvo_at_pos (m_mapping m) -> layout_index_allowed m = true) ->
  (MLVO_VARIANT ∈ mp_mlvo_at_pos (m_mapping m) -> variant_index_allowed m = true) ->
  exists m', matcher_mapping_set_layout_bounds m = Ok m' /\ remapped m m' /\ ready m'.
Proof.
  intros [Hf Hl Hv Hls Hvs] Hact Hn Hla Hva. specialize (Hls Hact). specialize (Hvs Hact).
  destruct (num_layouts_pos m Hn) as [Hpos Hnv]. unfold matcher_mapping_set_layout_bounds.
  set (li := mp_layout_idx_min (m_mapping m)) in *. set (vi := mp_layout_idx_max (m_mapping m)) in *.
  set (max := Z.min XKB_MAX_GROUPS (num_layouts m)). assert (1 <= max <= 32) as Hmax by (unfold max, XKB_MAX_GROUPS; lia).
  assert (forall range min max c, 0 <= min <= max -> max <= 32 -> max <= num_layouts m -> 0 <= c ->
    (forall i, 0 <= i -> Z.testbit c i = true -> min <= i < max) -> (located (m_mapping m) = true \/ max - min <= 1) ->
    exists m', (let+ p := Ok (mp_set_bounds range min max c (m_mapping m)) in Ok (m_set_mapping p m)) = Ok m' /\ remapped m m' /\ ready m') as Hok.
  { intros range min mx c H1 H2 H3 H4 H5 H6. eexists. split; [reflexivity|]. split; [done|]. by apply bounds_ready. }
  assert (Z.min li vi = li \/ Z.min li vi = vi) as Hmin by lia.
  destruct (Z.eqb_spec (Z.min li vi) XKB_LAYOUT_INVALID) as [Hinv|Hinv].
  { assert (li = XKB_LAYOUT_INVALID /\ vi = XKB_LAYOUT_INVALID) as [El Ev].
    { destruct Hl as [?|Hl], Hv as [?|Hv]; try done; unfold index_ok, special_index, LAYOUT_INDEX_SINGLE, LAYOUT_INDEX_ANY, XKB_LAYOUT_INVALID in *; lia. }
    unfold is_mlvo_mask_defined. rewrite !(fo_mask _ Hf), !bool_decide_eq_false_2 by (rewrite ?Hls, ?Hvs; tauto). cbn [orb result_bind].
    eexists. split; [reflexivity|]. split; [done|]. split; [by destruct Hf|..]; cbn; try done.
    unfold located. cbn. intros _ Hloc. exfalso. change (located (m_mapping m) = true) in Hloc. rewrite (located_fields _ Hf) in Hloc.
    rewrite !bool_decide_eq_false_2 in Hloc by (rewrite ?Hls, ?Hvs; tauto). done. }
  assert (located (m_mapping m) = true) as Hloc.
  { rewrite (located_fields _ Hf). apply orb_true_iff. rewrite !bool_decide_eq_true, Hls, Hvs. destruct Hmin; [left|right]; congruence. }
  assert (index_ok (Z.min li vi)) as Hidx by (destruct Hmin as [E|E]; rewrite E in *; [by destruct Hl|by destruct Hv]).
  assert (forall v, 0 <= Z.ldiff (bit max - 1) v) as Hnn.
  { intros v. apply Z.ldiff_nonneg. left. unfold bit. rewrite Z.shiftl_1_l. pose proof (Z.pow_pos_nonneg 2 max). lia. }
  destruct (Z.eqb_spec (Z.min li vi) LAYOUT_INDEX_LATER) as [Hlat|Hlat].
  { apply Hok; try lia; [apply u32_range|intros i Hi Ht; by apply later_candidates in Ht; [|lia|done]|by left]. }
  destruct (_ || _) eqn:Hany.
  { apply Hok; try lia; [apply u32_range|intros i Hi Ht; apply ones_candidates in Ht; [lia|lia|done]|by left]. }
  apply orb_false_iff in Hany as [Hmul%Z.eqb_neq Hany%Z.eqb_neq].
  set (idx := if _ || _ then 0 else Z.min li vi). assert (0 <= idx < 32 /\ idx + 1 <= num_layouts m) as [Hi Hin].
  { unfold idx. destruct (_ || _) eqn:Hsf; [lia|]. apply orb_false_iff in Hsf as [Hs%Z.eqb_neq Hff%Z.eqb_neq].
    assert (0 <= Z.min li vi < 32) as Hr.
    { destruct Hidx as [?|Hsp]; [done|]. unfold special_index, LAYOUT_INDEX_SINGLE, LAYOUT_INDEX_FIRST, LAYOUT_INDEX_LATER,
        LAYOUT_INDEX_MULTIPLE, LAYOUT_INDEX_ANY, XKB_LAYOUT_INVALID in *. lia. }
    split; [done|]. destruct Hmin as [E|E]; rewrite E in *.
    - assert (li < num_layouts m); [|lia]. apply index_allowed; [done|done|]. by apply Hla, Hls.
    - assert (vi < num_variants m); [|lia]. apply variant_allowed; [done|done|]. by apply Hva, Hvs. }
  rewrite (proj2 (Z.ltb_lt _ _)) by lia. apply Hok; try lia.
  - unfold bit. rewrite Z.shiftl_1_l. pose proof (Z.pow_pos_nonneg 2 idx). lia.
  - intros i Hi0. rewrite bit_spec by lia. intros ->%Z.eqb_eq. lia.
Qed.

Lemma end_mapping_ok m : header_ok (m_mapping m) -> names_ok (m_rmlvo m) ->
  exists m', end_mapping m = Ok m' /\ ready m' /\ m_rmlvo m' = m_rmlvo m /\ m_groups m' = m_groups m.
Proof.
  intros Hh Hn. assert (forall p, fields_ok p -> mp_layouts_candidates_mask p = 0 -> ready (m_set_mapping p m)) as Hinact.
  { intros p Hp Hz. split; cbn; try done; try (by rewrite Hz); unfold mp_active; rewrite Hz; done. }
  unfold end_mapping. destruct (mp_active (m_mapping m)) eqn:Hact.
  - destruct (verify_ok m Hh Hact) as (b & m1 & -> & Hr1 & Hb). cbn [result_bind]. destruct b.
    + destruct Hb as (-> & Hla & Hva). destruct (set_layout_bounds_ok m Hh Hact Hn Hla Hva) as (m2 & -> & Hr2 & Hrd). cbn [result_bind].
      eexists. split; [reflexivity|]. rewrite Hr2 in *. destruct (mp_has_multiple_layouts _); [|done]. split; [|done].
      destruct Hrd as [R1 R2 R3 R4]. split; try done. intros Ha Hl. destruct (R2 Ha Hl) as [[] Hc]. split; [by split|done].
    + subst m1. eexists. split; [reflexivity|]. split; [|done]. destruct Hh as [[] ? ? ? ?]. by apply Hinact.
  - eexists. split; [reflexivity|]. split; [|done]. destruct Hh as [Hf _ _ _ _].
    assert (m = m_set_mapping (m_mapping m) m) as -> by by destruct m. apply Hinact; [done|].
    unfold mp_active in Hact. apply negb_false_iff in Hact. by apply Z.eqb_eq.
Qed.

(** ** The rules *)

(** The faults of the matcher. *)
Definition rules_fault (strict : bool) (f : fault) : Prop := f = FaultAssert \/ unmapped_fault strict f.

Lemma within_weaken {A} (E E' : fault -> Prop) (Q : A -> Prop) r : (forall f, E f -> E' f) -> within E Q r -> within E' Q r.
Proof. intros H. destruct r; cbn; auto. Qed.

(** What the values of a rule do not change. *)
Record applied (m m' : matcher) : Prop := {
  ap_names : names_of (m_rmlvo m') = names_of (m_rmlvo m);
  ap_groups : m_groups m' = m_groups m;
  ap_mapping : m_mapping m' = m_mapping m;
  ap_rule : m_rule m' = m_rule m
}.

#[export] Instance applied_preorder : PreOrder applied.
Proof. split; [by split|]. intros x y z [] []. split; congruence. Qed.

Lemma buffer_value_ok k value idx m : within assert_only (applied m) (buffer_value k value idx m).
Proof. unfold buffer_value. eapply within_bind; [apply append_expanded_ok|]. intros [rn b] H. by split. Qed.

Lemma merge_value_ok k value idx m : within assert_only (applied m) (merge_value k value idx m).
Proof. unfold merge_value. eapply within_bind; [apply append_expanded_ok|]. intros [rn b] H. by split. Qed.

Lemma apply_values_ok apply kccgsts : (forall k v idx m, within assert_only (applied m) (apply k v idx m)) ->
  forall values idx m, length kccgsts = length values -> within assert_only (applied m) (apply_values apply kccgsts values idx m).
Proof.
  intros Ha. induction kccgsts as [|k kccgsts IH]; intros [|v values] idx m Hl; cbn [apply_values]; try done.
  eapply within_bind; [apply Ha|]. intros m1 Hm1. eapply within_mono; [apply IH; by injection Hl|]. intros m2 Hm2. by transitivity m1.
Qed.

Lemma buffer_layouts_ok n : forall idx c m, idx + Z.of_nat n <= 32 ->
  length (mp_kccgst_at_pos (m_mapping m)) = length (rl_kccgst (m_rule m)) -> within assert_only (applied m) (buffer_layouts n idx c m).
Proof.
  induction n as [|n IH]; intros idx c m Hi Hl; cbn [buffer_layouts]; [done|]. rewrite (proj2 (Z.leb_gt _ _)) by lia.
  eapply within_bind with (P := applied m).
  - destruct (negb _); [|done]. apply apply_values_ok; [apply buffer_value_ok|done].
  - intros m1 Hm1. eapply within_mono; [apply IH; [lia|by destruct Hm1 as [_ _ -> ->]]|]. intros m2 Hm2. by transitivity m1.
Qed.

(** A rule that is complete, in an active rule set. *)
Record applicable (m : matcher) : Prop := {
  al_active : mp_active (m_mapping m) = true;
  al_mlvo : length (mp_mlvo_at_pos (m_mapping m)) = length (rl_mlvo (m_rule m));
  al_kccgst : length (mp_kccgst_at_pos (m_mapping m)) = length (rl_kccgst (m_rule m))
}.

(** What reading a rule set keeps. *)
Definition kept (m m' : matcher) : Prop := names_of (m_rmlvo m') = names_of (m_rmlvo m) /\ m_groups m' = m_groups m.

Lemma unlocated_fields p : fields_ok p -> located p = false -> Forall (fun f => f = MLVO_MODEL \/ f = MLVO_OPTION) (mp_mlvo_at_pos p).
Proof.
  intros Hf. rewrite (located_fields p Hf). intros [H1%bool_decide_eq_false H2%bool_decide_eq_false]%orb_false_iff.
  apply list.Forall_forall. intros [] Hin; auto; done.
Qed.

Lemma candidates_less m c c' : candidates_in m c -> candidates_in m (Z.ldiff c c').
Proof. intros H i Hi Ht. apply H; [done|]. rewrite Z.ldiff_spec in Ht. by apply andb_true_iff in Ht as [? _]. Qed.

Lemma match_fields_ok strict m : ready m -> names_ok (m_rmlvo m) -> groups_ok strict (m_groups m) -> applicable m ->
  within (unmapped_fault strict) (fun r => marked m r.2 /\ forall c, r.1 = Some c -> 0 <= c)
    (match_fields (mp_mlvo_at_pos (m_mapping m)) (rl_mlvo (m_rule m)) (mp_layouts_candidates_mask (m_mapping m)) m).
Proof.
  intros [Hf Hloc Hsingle H0] Hn Hg [Hact Hlen _]. specialize (Hloc Hact). destruct (located (m_mapping m)) eqn:El.
  - destruct (Hloc eq_refl) as [Hb Hc]. eapply within_mono.
    { apply match_fields_located; try done. unfold mp_active in Hact. by apply negb_true_iff, Z.eqb_neq in Hact. }
    intros [r m1] (Hm & _ & Hr). split; [done|]. intros c Hc1. by apply Hr in Hc1 as [? _].
  - eapply within_mono.
    { apply match_fields_unlocated; try done. by apply unlocated_fields. }
    intros [r m1] [Hm Hr]. split; [done|]. cbn in *. intros c ->. destruct (rule_matches _ _ _ _ _); [|done]. by injection Hr as ->.
Qed.

Lemma apply_rule_ok strict m : ready m -> names_ok (m_rmlvo m) -> groups_ok strict (m_groups m) -> applicable m ->
  within (rules_fault strict) (fun m' => kept m m' /\ ready m') (matcher_rule_apply_if_matches m).
Proof.
  intros Hr Hn Hg Ha. unfold matcher_rule_apply_if_matches. eapply within_bind.
  { apply (within_weaken (unmapped_fault strict)); [by right|]. by apply match_fields_ok. }
  intros [[c|] m1] [Hm Hc]; cbn [fst snd] in *.
  2: { destruct Hm as [E N]. split; [by rewrite E|]. rewrite E. destruct Hr as [R1 R2 R3 R4]. split; try done.
       intros H1 H2. destruct (R2 H1 H2) as [Hb Hcc]. split; [|done]. destruct (names_of_length _ _ N) as (Hl & _). destruct Hb. by split; cbn; rewrite ?Hl. }
  specialize (Hc c eq_refl). destruct (marked_same _ _ Hm) as (Eg & Em & Hn1 & Hb1 & Hci & _). destruct Hm as [E1 N1].
  assert (m_rule m1 = m_rule m) as Er by by rewrite E1. pose proof Ha as [Hact _ Hk]. destruct Hr as [Hf Hloc Hsingle H0].
  eapply within_bind with (P := applied m1).
  { apply (within_weaken assert_only); [by left|]. destruct (mp_has_multiple_layouts (m_mapping m)) eqn:Hmul.
    - apply buffer_layouts_ok; [|by rewrite Em, Er]. destruct (located (m_mapping m)) eqn:El; [|by specialize (Hsingle Hact eq_refl)].
      destruct (Hloc Hact eq_refl) as [[] _]. rewrite Z2Nat.id by lia. lia.
    - apply apply_values_ok; [apply merge_value_ok|by rewrite Er, Hk]. }
  intros m2 [A1 A2 A3 A4].
  assert (forall c', ready (m_set_mapping (mp_set_candidates (Z.ldiff (mp_layouts_candidates_mask (m_mapping m2)) c') (m_mapping m2)) m2)) as Hrd.
  { intros c'. rewrite A3, Em. destruct (names_of_length _ _ (eq_trans A1 N1)) as (Hl & _). split; cbn.
    - by destruct Hf.
    - intros _ Hl2. destruct (Hloc Hact Hl2) as [[] Hcc]. split; [by split; cbn; rewrite ?Hl|]. by apply (candidates_less m).
    - intros _ Hl2. by apply Hsingle.
    - apply Z.ldiff_nonneg. by left. }
  assert (kept m m2) as Hkept by (split; congruence). destruct (is_mlvo_mask_defined m2 MLVO_OPTION); [|split; [done|apply Hrd]].
  split; [done|]. specialize (Hrd 0). rewrite Z.ldiff_0_r in Hrd.
  assert (m_set_mapping (mp_set_candidates (mp_layouts_candidates_mask (m_mapping m2)) (m_mapping m2)) m2 = m2) as E2 by by destruct m2 as [? ? [] ? ? ?].
  by rewrite E2 in Hrd.
Qed.

(** ** The states of the matcher *)

Lemma ready_rule m r : ready m -> ready (m_set_rule r m).
Proof. intros [R1 R2 R3 R4]. split; try done. intros H1 H2. destruct (R2 H1 H2) as [[] Hc]. split; [by split|done]. Qed.

Definition rule_ok (m : matcher) : Prop := ready m /\ (rl_skip (m_rule m) = false -> mp_active (m_mapping m) = true).

(** Only the rule changes. *)
Lemma set_mlvo_common_ok mt v m : rule_ok m ->
  exists m', matcher_rule_set_mlvo_common mt v m = Ok m' /\ rule_ok m' /\ kept m m'.
Proof.
  intros [Hr Ha]. unfold matcher_rule_set_mlvo_common. destruct (Nat.leb_spec (length (mp_mlvo_at_pos (m_mapping m))) (length (rl_mlvo (m_rule m)))) as [|Hl].
  - eexists. split; [reflexivity|]. split; [|done]. split; [by apply ready_rule|done].
  - pose proof (mlvo_length _ (fo_nodup _ (rd_fields _ Hr))). rewrite (proj2 (Nat.leb_gt _ _)) by lia.
    eexists. split; [reflexivity|]. split; [|done]. split; [by apply ready_rule|exact Ha].
Qed.

Lemma set_rule_kccgst_ok v m : rule_ok m -> exists m', matcher_rule_set_kccgst v m = Ok m' /\ rule_ok m' /\ kept m m'.
Proof.
  intros [Hr Ha]. unfold matcher_rule_set_kccgst. destruct (Nat.leb_spec (length (mp_kccgst_at_pos (m_mapping m))) (length (rl_kccgst (m_rule m)))) as [|Hl].
  - eexists. split; [reflexivity|]. split; [|done]. split; [by apply ready_rule|done].
  - pose proof (kccgst_length _ (fo_knodup _ (rd_fields _ Hr))). rewrite (proj2 (Nat.leb_gt _ _)) by lia.
    eexists. split; [reflexivity|]. split; [|done]. split; [by apply ready_rule|exact Ha].
Qed.

Lemma end_rule_ok strict m : rule_ok m -> names_ok (m_rmlvo m) -> groups_ok strict (m_groups m) ->
  within (rules_fault strict) (fun m' => kept m m' /\ ready m') (end_rule m).
Proof.
  intros [Hr Ha] Hn Hg. unfold end_rule. destruct (rl_skip (m_rule m)) eqn:Hs; cbn [negb]; [rewrite Hs; cbn; by split|].
  unfold matcher_rule_verify. destruct (_ || _) eqn:Hl; [cbn; by split; [|apply ready_rule]|].
  rewrite Hs. cbn [negb]. apply orb_false_iff in Hl as [H1%negb_false_iff H2%negb_false_iff]. apply Nat.eqb_eq in H1, H2.
  apply apply_rule_ok; try done. split; auto.
Qed.

Lemma append_pending_kept l : forall m, kept m (append_pending l m) /\ m_mapping (append_pending l m) = m_mapping m.
Proof.
  induction l as [|k l IH]; intros m; cbn [append_pending]; [done|].
  destruct (IH (set_kccgst k (append_layouts (Z.to_nat (mp_layout_idx_max (m_mapping m) - mp_layout_idx_min (m_mapping m)))
    (m_pending_kccgst m) k (mp_layout_idx_min (m_mapping m)) (kccgst_at m k)) m)) as [[H1 H2] H3]. done.
Qed.

Lemma pending_kept m : kept m (matcher_append_pending_kccgst m).
Proof.
  unfold matcher_append_pending_kccgst. destruct (negb _); [done|]. by destruct (append_pending_kept (mp_kccgst_at_pos (m_mapping m)) m) as [? _].
Qed.

Definition label_ok (l : label) (m : matcher) : Prop :=
  match l with
  | L_group_name | L_group_element => m_groups m <> []
  | L_mapping_mlvo | L_mapping_kccgst => header_ok (m_mapping m)
  | L_rule_mlvo_first => ready m
  | L_rule_mlvo | L_rule_kccgst => rule_ok m
  | _ => True
  end.

Record state_ok (strict : bool) (l : label) (m : matcher) : Prop := {
  st_names : names_ok (m_rmlvo m);
  st_groups : groups_ok strict (m_groups m);
  st_label : label_ok l m
}.

Section states.
Context (strict : bool) (include_file : list Z -> matcher -> result matcher).
Hypothesis Hinclude : forall inc m, names_ok (m_rmlvo m) -> groups_ok strict (m_groups m) ->
  within (rules_fault strict) (fun m' => names_of (m_rmlvo m') = names_of (m_rmlvo m) /\ groups_ok strict (m_groups m')) (include_file inc m).

(** The result of a step. *)
Definition stepped (m : matcher) (tok : rules_token) (r : next * matcher) : Prop :=
  names_of (m_rmlvo r.2) = names_of (m_rmlvo m) /\ groups_ok strict (m_groups r.2) /\
  match r.1 with Goto l => label_ok l r.2 /\ ~ ends tok | Finish _ => True end.

Lemma stepped_kept m tok l m' : groups_ok strict (m_groups m) -> kept m m' -> label_ok l m' -> ~ ends tok -> stepped m tok (Goto l, m').
Proof. intros Hg [H1 H2] Hl Ht. split; [done|]. cbn. by rewrite H2. Qed.

Lemma not_ends tok : tok <> TOK_END_OF_FILE -> tok <> TOK_ERROR -> ~ ends tok.
Proof. intros H1 H2 [?|?]; done. Qed.

Lemma finished m tok b : groups_ok strict (m_groups m) -> stepped m tok (Finish b, m).
Proof. done. Qed.

Lemma step_rule_ok tok m : groups_ok strict (m_groups m) -> rule_ok m ->
  within (rules_fault strict) (stepped m tok) (step_rule_mlvo tok m).
Proof.
  intros Hg Hr. assert (forall mt v, ~ ends tok -> within (rules_fault strict) (stepped m tok)
    (let+ m' := if negb (rl_skip (m_rule m)) then matcher_rule_set_mlvo_common mt v m else Ok m in Ok (Goto L_rule_mlvo, m'))) as Hadd.
  { intros mt v Ht. destruct (negb _); [|cbn; by apply stepped_kept]. destruct (set_mlvo_common_ok mt v m Hr) as (m' & -> & Hr' & Hk).
    cbn. by apply stepped_kept. }
  unfold step_rule_mlvo. destruct tok; try (by apply finished); try (by apply Hadd, not_ends).
  - destruct (bool_decide _); by apply Hadd, not_ends.
  - cbn. by apply stepped_kept; [..|apply not_ends].
Qed.

Lemma groups_snoc g groups : gr_mapped g = true -> groups_ok strict groups -> groups_ok strict (groups ++ [g]).
Proof. intros Hm Hg Hs. apply list.Forall_app. split; [by apply Hg|]. by apply list.Forall_singleton. Qed.

Lemma add_element_ok v m : groups_ok strict (m_groups m) -> m_groups m <> [] ->
  exists m', matcher_group_add_element v m = Ok m' /\ names_of (m_rmlvo m') = names_of (m_rmlvo m) /\ groups_ok strict (m_groups m') /\ m_groups m' <> [].
Proof.
  intros Hg Hne. unfold matcher_group_add_element. destruct (lookup_lt_is_Some_2 (m_groups m) (length (m_groups m) - 1)) as [g Hi].
  { destruct (m_groups m); [done|]. cbn. lia. }
  rewrite Hi. eexists. split; [reflexivity|]. split; [done|]. cbn. split.
  - intros Hs. specialize (Hg Hs). apply list.Forall_app. split; [by apply list.Forall_take|]. apply list.Forall_singleton. cbn.
    exact (Forall_lookup_1 _ _ _ _ Hg Hi).
  - by destruct (take _ _).
Qed.

Lemma stepped_from m m1 tok r : kept m m1 -> stepped m1 tok r -> stepped m tok r.
Proof. intros [H1 _] (S1 & S2 & S3). split; [congruence|done]. Qed.

Lemma rule_start_ok m : ready m -> rule_ok (matcher_rule_start_new m).
Proof. intros Hr. split; [by apply ready_rule|]. intros H. by apply negb_false_iff in H. Qed.

Lemma first_rule_ok tok m : groups_ok strict (m_groups m) -> ready m ->
  within (rules_fault strict) (stepped m tok) (step_rule_mlvo tok (matcher_rule_start_new m)).
Proof. intros Hg Hr. apply (step_rule_ok tok (matcher_rule_start_new m)); [done|by apply rule_start_ok]. Qed.

Lemma step_bang_ok tok m : token_ok tok -> groups_ok strict (m_groups m) ->
  within (rules_fault strict) (stepped m tok) (step include_file L_bang tok m).
Proof.
  intros Ht Hg. destruct tok; try (by apply finished); cbn [step].
  - destruct (start_mapping_ok m) as [Hh Ha]. destruct (set_mlvo_ok _ _ Ht Hh Ha) as (m' & -> & Hh' & Hr). cbn.
    apply stepped_kept; [done|by rewrite Hr|done|by apply not_ends].
  - cbn. split; [done|]. split; [by apply groups_snoc|]. cbn. split; [by destruct (m_groups m)|by apply not_ends].
  - cbn. apply stepped_kept; [done|done|done|by apply not_ends].
Qed.

(** A header that is active, or skipped. *)
Lemma active_step_ok (set : matcher -> result matcher) m l tok : groups_ok strict (m_groups m) -> header_ok (m_mapping m) -> ~ ends tok ->
  (forall m', header_ok (m_mapping m') -> label_ok l m') ->
  (mp_active (m_mapping m) = true -> exists m', set m = Ok m' /\ header_ok (m_mapping m') /\ remapped m m') ->
  within (rules_fault strict) (stepped m tok) (let+ m := if mp_active (m_mapping m) then set m else Ok m in Ok (Goto l, m)).
Proof.
  intros Hg Hh Ht Hl Hset. destruct (mp_active (m_mapping m)); [|cbn; apply stepped_kept; [done|done|by apply Hl|done]].
  destruct (Hset eq_refl) as (m' & -> & Hh' & Hr). cbn. apply stepped_kept; [done|by rewrite Hr|by apply Hl|done].
Qed.

Lemma step_header_ok l tok m : l = L_mapping_mlvo \/ l = L_mapping_kccgst -> state_ok strict l m -> token_ok tok ->
  within (rules_fault strict) (stepped m tok) (step include_file l tok m).
Proof.
  intros Hlab [Hn Hg Hl] Ht. destruct Hlab as [-> | ->]; destruct tok; try (by apply finished); cbn [step].
  - apply active_step_ok; try done; [by apply not_ends|]. intros Ha. by apply set_mlvo_ok.
  - cbn. apply stepped_kept; [done|done|done|by apply not_ends].
  - destruct (end_mapping_ok m Hl Hn) as (m' & -> & Hr & E1 & E2). cbn. apply stepped_kept; [done|split; congruence|done|by apply not_ends].
  - apply active_step_ok; try done; [by apply not_ends|]. intros Ha. by apply set_kccgst_ok.
Qed.

Lemma step_rule_end_ok tok m : state_ok strict L_rule_kccgst m -> within (rules_fault strict) (stepped m tok) (step include_file L_rule_kccgst tok m).
Proof.
  intros [Hn Hg Hl]. destruct tok; try (by apply finished); cbn [step].
  - eapply within_bind; [by apply end_rule_ok|]. intros m' [Hk Hr]. cbn. apply stepped_kept; [done|done|done|by apply not_ends].
  - destruct (negb _); [|cbn; apply stepped_kept; [done|done|done|by apply not_ends]].
    destruct (set_rule_kccgst_ok string m Hl) as (m' & -> & Hr & Hk). cbn. apply stepped_kept; [done|done|done|by apply not_ends].
Qed.

Lemma step_first_ok tok m : state_ok strict L_rule_mlvo_first m ->
  within (rules_fault strict) (stepped m tok) (step include_file L_rule_mlvo_first tok m).
Proof.
  intros [Hn Hg Hl]. pose proof (pending_kept m) as [K1 K2].
  destruct tok; cbn [step]; try (by apply first_rule_ok); cbn [within].
  - split; [done|]. cbn. by rewrite K2.
  - apply stepped_kept; [done|done|done|by apply not_ends].
  - by apply stepped_kept; [done|split|done|apply not_ends].
Qed.

Lemma step_ok l tok m : state_ok strict l m -> token_ok tok -> within (rules_fault strict) (stepped m tok) (step include_file l tok m).
Proof using Hinclude.
  intros Hst Ht. pose proof Hst as [Hn Hg Hl].
  destruct l; try (apply step_header_ok; by auto); try (by apply step_first_ok); try (by apply step_rule_end_ok); try (by apply step_bang_ok);
    try (by apply step_rule_ok); destruct tok; try (by apply finished); try (cbn; apply stepped_kept; [done|done|done|by apply not_ends]); cbn [step].
  - destruct (add_element_ok string m Hg Hl) as (m' & -> & H1 & H2 & H3). cbn. split; [done|]. split; [done|]. split; [done|by apply not_ends].
  - eapply within_bind; [by apply Hinclude|]. intros m' [H1 H2]. cbn. split; [done|]. split; [done|]. split; [done|by apply not_ends].
Qed.

(** What the file does to the matcher. *)
Definition matched_file (m m' : matcher) : Prop := names_of (m_rmlvo m') = names_of (m_rmlvo m) /\ groups_ok strict (m_groups m').

Lemma matcher_match_ok fuel : forall l s m, (left_ s < fuel)%nat -> state_ok strict l m ->
  within (rules_fault strict) (fun r => matched_file m r.2) (matcher_match include_file fuel l s m).
Proof using Hinclude.
  induction fuel as [|fuel IH]; intros l s m Hf Hst; [lia|]. cbn [matcher_match].
  destruct (lex_ok (S (length (scn_rest s))) s) as (tok & s' & Hlex & H1 & H2); [unfold left_; lia|]. rewrite Hlex. cbn [result_bind].
  apply lex_chars in Hlex. eapply within_bind; [by apply step_ok|]. intros [[l'|b] m'] (S1 & S2 & S3); [|done]. cbn in *.
  destruct S3 as [S3 Hend]. destruct H2 as [?|H2]; [done|]. eapply within_mono; [apply IH; [lia|]|].
  - split; [|done|done]. destruct Hst. by eapply names_ok_same.
  - intros r [R1 R2]. split; [congruence|done].
Qed.
End states.
