(* ===== verification/RulesNames.v ===== *)
(** * From the names of the user to the names of the components

    The names are split, the rules files read with those that they include, and
    the output checked (src/xkbcomp/rules.c). *)

From Stdlib Require Import ZArith Lia String.
From stdpp Require Import base tactics list numbers.
From S2P Require Import Prelude Numbers Keymap Utf8 KeysymNames Scanner Expr Safe Rules RulesSpec.

(** ** The names of the user *)

Lemma skip_to_comma_left s : (length (skip_to_comma s) <= length s)%nat /\ (skip_to_comma s = [] \/ head (skip_to_comma s) = Some 44).
Proof.
  induction s as [|c s [IH1 IH2]]; cbn [skip_to_comma]; [split; [done|by left]|].
  destruct (Z.eqb_spec c 44) as [->|]; [split; [done|by right]|]. split; [cbn; lia|done].
Qed.

Lemma span_value_left s : forall v rest, span_value s = (v, rest) ->
  (length rest <= length s)%nat /\ (rest = [] \/ head rest = Some 44 \/ head rest = Some OPTIONS_GROUP_SPECIFIER_PREFIX).
Proof.
  induction s as [|c s IH]; intros v rest; cbn [span_value]; [intros [= <- <-]; split; [done|by left]|].
  destruct (_ || _) eqn:E.
  - intros [= <- <-]. split; [done|]. right. apply orb_true_iff in E as [->%Z.eqb_eq | ->%Z.eqb_eq]; [by left|by right].
  - destruct (span_value s) as [v' r']. intros [= <- <-]. destruct (IH _ _ eq_refl) as [H1 H2]. split; [cbn; lia|done].
Qed.

Lemma split_specifier_left mlvo s : (length (split_specifier mlvo s).2 <= length s)%nat /\
  ((split_specifier mlvo s).2 = [] \/ head (split_specifier mlvo s).2 = Some 44).
Proof.
  unfold split_specifier. destruct (parse_dec_to_uint32_t _ _) as [count layout]. destruct (count >? 0); cbn [snd]; [|apply skip_to_comma_left].
  destruct (skip_to_comma_left (drop (Z.to_nat count) s)) as [H1 H2]. rewrite length_drop in H1. split; [lia|done].
Qed.

(** Enough fuel to split the names. *)
Lemma split_values_ok mlvo fuel : forall s arr, (length s < fuel)%nat -> exists arr', split_values fuel mlvo s arr = Ok arr'.
Proof.
  induction fuel as [|fuel IH]; intros s arr Hf; [lia|]. cbn [split_values].
  destruct (span_value s) as [v rest] eqn:Es. destruct (span_value_left _ _ _ Es) as [H1 H2].
  set (r := match rest with [] => _ | c :: s' => if c =? OPTIONS_GROUP_SPECIFIER_PREFIX then _ else _ end).
  assert (r.2 = [] \/ exists s', r.2 = 44 :: s' /\ (S (length s') <= length s)%nat) as Hr.
  { unfold r. destruct rest as [|c rest]; [by left|]. destruct (Z.eqb_spec c OPTIONS_GROUP_SPECIFIER_PREFIX) as [->|Hne].
    - destruct (split_specifier_left mlvo rest) as [H3 [->|H4]]; [by left|]. destruct (split_specifier mlvo rest).2 as [|c s'] eqn:E; [done|].
      injection H4 as ->. right. exists s'. split; [done|]. cbn in *. lia.
    - destruct H2 as [?|[H2|H2]]; [done| |by injection H2 as ->]. injection H2 as ->. right. exists rest. split; [done|]. cbn in *. lia. }
  destruct r as [layouts s']. cbn in Hr. destruct Hr as [->|(s2 & -> & Hl)]; [by eexists|]. cbn. apply IH. lia.
Qed.

Lemma split_ok mlvo s : exists arr, split_comma_separated_mlvo mlvo s = Ok arr /\ arr <> [].
Proof.
  unfold split_comma_separated_mlvo. destruct s as [s|]; [|by eexists]. destruct (split_values_ok mlvo (S (length s)) s []) as [arr ->]; [lia|].
  cbn. destruct arr; by eexists.
Qed.

Lemma new_names_ok names : exists m, matcher_new_from_names names = Ok m /\ names_ok (m_rmlvo m) /\ m_groups m = [].
Proof.
  unfold matcher_new_from_names. destruct (split_ok MLVO_LAYOUT (xn_layout names)) as (layouts & -> & H1).
  destruct (split_ok MLVO_VARIANT (xn_variant names)) as (variants & -> & H2). destruct (split_ok MLVO_OPTION (xn_options names)) as (options & -> & H3).
  cbn. eexists. split; [reflexivity|]. split; [|done]. split; cbn; try done. apply length_resize.
Qed.

(** ** The layouts that are named in the symbols *)

Lemma after_colon_left s s' : after_colon s = Some s' -> (S (length s') <= length s)%nat.
Proof. induction s as [|c s IH]; cbn [after_colon]; [done|]. destruct (_ =? _); [intros [= ->]; done|]. intros H. apply IH in H. cbn. lia. Qed.

Lemma explicit_layouts_ok fuel : forall s n, (length s < fuel)%nat -> 1 <= n <= XKB_MAX_GROUPS ->
  exists n', explicit_layouts fuel s n = Ok n' /\ 1 <= n' <= XKB_MAX_GROUPS.
Proof.
  induction fuel as [|fuel IH]; intros s n Hf Hn; [lia|]. cbn [explicit_layouts]. destruct (after_colon s) as [s1|] eqn:E; [|by eexists].
  apply after_colon_left in E. destruct s1 as [|c s1]; [by eexists|]. destruct (parse_dec_to_uint32_t _ _) as [count group].
  destruct (_ && _) eqn:Hc; [|apply IH; [lia|done]]. apply andb_true_iff in Hc as [_ Hg%Z.leb_le]. apply IH; [rewrite length_drop; lia|lia].
Qed.

(** ** Files *)

Section files.
Context (find_include find_rules : list Z -> list (option (list Z))) (strict : bool).
Hypothesis Hstrict : strict = true -> forall inc, find_include inc = [].
Let E := rules_fault strict.

Definition read_ok (read : option (list Z) -> matcher -> result (bool * matcher)) : Prop :=
  forall file m, names_ok (m_rmlvo m) -> groups_ok strict (m_groups m) ->
    within E (fun r => names_of (m_rmlvo r.2) = names_of (m_rmlvo m)) (read file m).

Lemma try_files_ok read files : read_ok read -> forall m, names_ok (m_rmlvo m) -> strict = false ->
  within E (fun m' => names_of (m_rmlvo m') = names_of (m_rmlvo m)) (try_files read files m).
Proof.
  intros Hread. induction files as [|file files IH]; intros m Hn Hs; cbn [try_files]; [done|].
  eapply within_bind; [apply Hread; [done|by rewrite Hs]|]. intros [[] m1] H1; [done|]. cbn in *.
  eapply within_mono; [apply IH; [by eapply names_ok_same|done]|]. cbn. intros m2 H2. congruence.
Qed.

Lemma encoding_left s s' : scanner_check_supported_char_encoding s = Some s' -> (left_ s' <= left_ s)%nat.
Proof.
  unfold scanner_check_supported_char_encoding. destruct (scanner_str s _) as [s1|] eqn:Es; [intros [= <-]; apply str_left in Es; [lia|done]|].
  destruct (scn_rest s) as [|c0 [|c1 l]]; [by intros [= <-]..|]. destruct (_ || _); [done|]. destruct (negb _); [done|]. by intros [= <-].
Qed.

(** The depth of the includes bounds the calls. *)
Lemma read_rules_file_ok fuel : forall depth, (fuel + depth = S MAX_INCLUDE_DEPTH)%nat -> (depth <= MAX_INCLUDE_DEPTH)%nat ->
  read_ok (read_rules_file find_include fuel depth).
Proof using Hstrict.
  induction fuel as [|fuel IH]; intros depth Hf Hd; [lia|]. intros file m Hn Hg. cbn [read_rules_file]. destruct file as [string|]; [|done].
  destruct (scanner_check_supported_char_encoding _) as [s|] eqn:Es; [|done]. apply encoding_left in Es. eapply within_bind.
  - apply (matcher_match_ok strict); [|unfold left_ in *; cbn in Es; lia|by split]. intros inc m1 Hn1 Hg1.
    destruct (Nat.leb_spec MAX_INCLUDE_DEPTH depth) as [Hle|Hlt]; [done|].
    destruct (decide (strict = true)) as [Hs|Hs%not_true_is_false]; [by rewrite Hstrict|].
    eapply within_mono; [apply try_files_ok; [apply IH; lia|done|done]|]. intros m2 H2. split; [done|]. by rewrite Hs.
  - intros r [H1 _]. exact H1.
Qed.

Lemma read_all_ok files : (strict = true -> files = []) -> forall m, names_ok (m_rmlvo m) ->
  within E (fun r => names_of (m_rmlvo r.2) = names_of (m_rmlvo m) /\ (files = [] -> r.2 = m)) (read_all find_include files m).
Proof using Hstrict.
  induction files as [|file files IH]; intros Hs m Hn; cbn [read_all]; [done|]. assert (strict = false) as Hf by (destruct strict; [by specialize (Hs eq_refl)|done]).
  eapply within_bind; [apply read_rules_file_ok; [done|lia|done|by rewrite Hf]|]. intros [[] m1] H1; [|done]. cbn in H1.
  eapply within_mono; [apply IH; [by rewrite Hf|by eapply names_ok_same]|]. intros r [H2 _]. split; [congruence|done].
Qed.

Lemma partial_rules_ok rules suffix m : (strict = true -> find_rules (rules ++ suffix) = []) -> names_ok (m_rmlvo m) -> groups_ok strict (m_groups m) ->
  within E (fun r => names_of (m_rmlvo r.2) = names_of (m_rmlvo m) /\ groups_ok strict (m_groups r.2)) (xkb_resolve_partial_rules find_include find_rules rules suffix m).
Proof using Hstrict.
  intros Hs Hn Hg. unfold xkb_resolve_partial_rules. destruct (Nat.leb _ _); [done|].
  eapply within_mono; [by apply read_all_ok|]. intros r [H1 H2]. split; [done|]. intros Ht. rewrite H2; auto.
Qed.

(** The names of the components, and the number of layouts. *)
Definition components_ok (r : option (xkb_component_names * Z)) : Prop :=
  match r with
  | Some (c, n) => xc_keycodes c <> [] /\ xc_types c <> [] /\ xc_compatibility c <> [] /\ xc_symbols c <> [] /\ 1 <= n <= XKB_MAX_GROUPS
  | None => True
  end.

Lemma post_rules_ok rules m : (strict = true -> find_rules (rules ++ bytes_of ".post") = []) -> names_ok (m_rmlvo m) ->
  within E (fun _ => True) (xkb_resolve_partial_rules find_include find_rules rules (bytes_of ".post") m).
Proof using Hstrict.
  intros Hs Hn. unfold xkb_resolve_partial_rules. destruct (Nat.leb _ _); [done|]. eapply within_mono; [by apply read_all_ok|]. done.
Qed.

Lemma resolve_rules_ok rules m : (strict = true -> find_rules (rules ++ bytes_of ".pre") = [] /\ find_rules (rules ++ bytes_of ".post") = []) ->
  names_ok (m_rmlvo m) -> groups_ok strict (m_groups m) -> within E components_ok (xkb_resolve_rules find_include find_rules rules m).
Proof using Hstrict.
  intros Hs Hn Hg. unfold xkb_resolve_rules. destruct (find_rules rules) as [|file files]; [done|].
  eapply within_bind; [apply partial_rules_ok; try done; intros H; by apply Hs|]. intros [b m1] [H1 G1]. cbn in H1, G1. destruct b; [|done].
  assert (names_ok (m_rmlvo m1)) as N1 by by eapply names_ok_same. cbn [negb snd].
  eapply within_bind; [apply read_rules_file_ok; [done|lia|done|done]|]. intros [b m2] H2. cbn in H2. destruct b; [|done]. cbn [negb snd].
  eapply within_bind; [apply post_rules_ok; [intros H; by apply Hs|by eapply names_ok_same]|]. intros [b m3] _. destruct b; [|done]. cbn [negb snd].
  destruct (_ || _) eqn:Ho; [done|]. rewrite !orb_false_iff, !bool_decide_eq_false in Ho. destruct Ho as (((O1 & O2) & O3) & O4).
  destruct (explicit_layouts_ok (S (length (kccgst_at m3 KCCGST_SYMBOLS))) (kccgst_at m3 KCCGST_SYMBOLS) 1) as (n & -> & Hnn); [lia|unfold XKB_MAX_GROUPS; lia|].
  done.
Qed.
End files.

(** No other file is read than the rules. *)
Definition alone (find_include find_rules : list Z -> list (option (list Z))) (rules : list Z) : Prop :=
  (forall inc, find_include inc = []) /\ find_rules (rules ++ bytes_of ".pre") = [] /\ find_rules (rules ++ bytes_of ".post") = [].

Lemma components_within find_include find_rules names rules strict : xn_rules names = Some rules ->
  (strict = true -> alone find_include find_rules rules) ->
  within (rules_fault strict) components_ok (xkb_components_from_rules_names find_include find_rules names).
Proof.
  intros Hr Ha. unfold xkb_components_from_rules_names. destruct (new_names_ok names) as (m & -> & Hn & Hg). cbn [result_bind]. rewrite Hr.
  apply resolve_rules_ok; try done.
  - intros H. by destruct (Ha H) as [? _].
  - intros H. by destruct (Ha H) as [_ ?].
  - rewrite Hg. intros _. apply Forall_nil_2.
Qed.

(** C10. Whatever the rules files found, their contents and the names of the
    user: the call returns (the matcher, the includes and the splits end), an
    array is never read or written out of its bounds and a shift is never too
    large; a success has the four components, none empty, and between 1 and 32
    layouts.  The faults that are left are an assertion of the code, and the
    read of a group of a file that is not mapped any more, only with several
    files. *)
Theorem rules_names_safe find_include find_rules names rules : xn_rules names = Some rules ->
  match xkb_components_from_rules_names find_include find_rules names with
  | Ok None => True
  | Ok (Some (c, n)) =>
      xc_keycodes c <> [] /\ xc_types c <> [] /\ xc_compatibility c <> [] /\ xc_symbols c <> [] /\ 1 <= n <= XKB_MAX_GROUPS
  | Fault f => f = FaultAssert \/ f = FaultUseAfterFree /\ ~ alone find_include find_rules rules
  end.
Proof.
  intros Hr. pose proof (components_within find_include find_rules names rules false Hr ltac:(done)) as H0.
  destruct (xkb_components_from_rules_names _ _ _) as [[[c n]|]|f] eqn:Ec; [exact H0|done|].
  destruct H0 as [->|[_ ->]]; [by left|]. right. split; [done|]. intros Ha.
  pose proof (components_within find_include find_rules names rules true Hr ltac:(done)) as H1. rewrite Ec in H1.
  destruct H1 as [?|[? _]]; done.
Qed.

(** Two layouts, and a rule set for both. *)
Definition sample_rules : list Z :=
  flat_map (fun s => bytes_of s ++ [10])
    ["! model = keycodes types compat symbols"; "  * = evdev complete complete pc"; "! layout[any] variant[any] = symbols"; "  * <any> = +%l[%i]%(v[%i]):%i"]%string.

Lemma rules_names_safe_witness :
  xkb_components_from_rules_names (fun _ => []) (fun rules => if bool_decide (rules = bytes_of "evdev") then [Some sample_rules] else [])
    (mk_xkb_rule_names (Some (bytes_of "evdev")) (Some (bytes_of "pc105")) (Some (bytes_of "us,fr")) (Some (bytes_of ",bepo")) None)
  = Ok (Some (mk_component_names (bytes_of "evdev") (bytes_of "complete") (bytes_of "complete") (bytes_of "pc+us:1+fr(bepo):2") [], 2)) /\
  1 <= 2 <= XKB_MAX_GROUPS.
Proof.
  pose proof (rules_names_safe (fun _ => []) (fun rules => if bool_decide (rules = bytes_of "evdev") then [Some sample_rules] else [])
    (mk_xkb_rule_names (Some (bytes_of "evdev")) (Some (bytes_of "pc105")) (Some (bytes_of "us,fr")) (Some (bytes_of ",bepo")) None)
    (bytes_of "evdev") eq_refl) as H.
  vm_compute in H. split; [vm_compute; reflexivity|]. exact (proj2 (proj2 (proj2 (proj2 H)))).
Defined.

(** ** What the rules select and output

    The layouts that a rule keeps, the merge of the values, those of a rule set
    for several layouts, and the names of the user (src/xkbcomp/rules.c). *)

(** ** The layouts that a rule keeps *)

Definition all_mapped (m : matcher) : Prop := Forall (fun g => gr_mapped g = true) (m_groups m).

(** C11. In a rule set for layouts or variants, a rule keeps, of the candidates,
    the layouts for which every field of the header matches its value: a name or
    a wildcard, a group that lists the name of the user, and for an option one
    whose layouts include this one; the rule does not match when there is none.
    Only what matched is marked. *)
Theorem match_fields_spec m values c :
  all_mapped m -> names_ok (m_rmlvo m) -> bounds_ok m -> located (m_mapping m) = true -> 0 < c -> candidates_in m c ->
  length (mp_mlvo_at_pos (m_mapping m)) = length values ->
  exists r m', match_fields (mp_mlvo_at_pos (m_mapping m)) values c m = Ok (r, m') /\ marked m m' /\
    (forall i, 0 <= i < 32 ->
       Z.testbit (default 0 r) i = Z.testbit c i && rule_matches (m_groups m) (m_rmlvo m) (mp_mlvo_at_pos (m_mapping m)) values i) /\
    (r = None <-> forall i, 0 <= i < 32 -> Z.testbit c i = true ->
       rule_matches (m_groups m) (m_rmlvo m) (mp_mlvo_at_pos (m_mapping m)) values i = false).
Proof.
  intros Hg Hn Hb Hl Hc Hin Hlen.
  pose proof (match_fields_located true (mp_mlvo_at_pos (m_mapping m)) values c m Hlen (fun _ => Hg) Hb Hn Hl ltac:(lia) ltac:(lia) Hin) as H.
  destruct (match_fields _ _ _ _) as [[r m']|f]; [|by destruct H as [[=] _]]. destruct H as (H1 & H2 & H3). cbn [fst snd] in *.
  exists r, m'. split; [done|]. split; [done|]. split; [done|]. split.
  - intros -> i Hi Ht. specialize (H2 i Hi). by rewrite Ht, Z.bits_0 in H2.
  - intros Hno. destruct r as [c'|]; [|done]. destruct (H3 c' eq_refl) as (P1 & P2 & P3). destruct (nonzero_bit c' P1 P2) as (i & Hi & Ht).
    assert (0 <= i < 32) as Hi32. { pose proof (P3 i Hi Ht). destruct Hb. lia. }
    specialize (H2 i Hi32). cbn in H2. rewrite Ht in H2. symmetry in H2. apply andb_true_iff in H2 as [H4 H5]. by rewrite Hno in H5.
Qed.

(** ** The merge of the values *)

Definition prefixed (v : list Z) : bool := match v with c :: _ => is_merge_mode_prefix c | [] => false end.

(** The first value without a merge mode. *)
Definition base_value (vs : list (list Z)) : list Z := default [] (snd <$> list_find (fun v => prefixed v = false) vs).
Definition merged_values (vs : list (list Z)) : list Z := base_value vs ++ concat (filter (fun v => prefixed v = true) vs).

Lemma base_snoc vs v : Forall (fun v => v <> []) vs -> v <> [] ->
  base_value (vs ++ [v]) = if bool_decide (base_value vs = []) && negb (prefixed v) then v else base_value vs.
Proof.
  intros Hvs Hv. unfold base_value. destruct (list_find (fun v => prefixed v = false) vs) as [[i x]|] eqn:E.
  - rewrite (list_find_app_l _ _ _ i x) by done. cbn. apply list_find_Some in E as (Hi & _ & _).
    rewrite bool_decide_eq_false_2; [done|]. exact (Forall_lookup_1 _ _ _ _ Hvs Hi).
  - rewrite list_find_app_r by done. cbn. destruct (prefixed v); cbn; done.
Qed.

Lemma head_prefixed b l : Forall (fun v => v <> [] /\ prefixed v = true) l -> b = [] -> l <> [] -> prefixed (b ++ concat l) = true.
Proof. intros Hl -> Hne. destruct l as [|[|c v] l]; [done|by apply list.Forall_cons in Hl as [[? _] _]|]. by apply list.Forall_cons in Hl as [[_ ?] _]. Qed.

(** C12. The merge of the values of a component, in any order of those with and
    without a merge mode: the first one without, then those with one in their
    order; the other values are dropped. *)
Theorem concat_kccgst_spec vs : Forall (fun v => v <> []) vs -> foldl concat_kccgst [] vs = merged_values vs.
Proof.
  induction vs as [|v vs IH] using rev_ind; intros H; [done|]. apply list.Forall_app in H as [Hvs Hv].
  apply list.Forall_cons in Hv as [Hv _].
  rewrite foldl_app. cbn [foldl]. rewrite IH by done. unfold merged_values. rewrite base_snoc, list.filter_app, concat_app by done.
  assert (Forall (fun v => v <> [] /\ prefixed v = true) (filter (fun v => prefixed v = true) vs)) as Hf.
  { apply list.Forall_forall. intros x [Hx Hin]%list_elem_of_filter. split; [|done]. rewrite list.Forall_forall in Hvs. by apply Hvs. }
  set (ps := filter (fun v => prefixed v = true) vs) in *. set (b := base_value vs).
  assert (b <> [] -> prefixed b = false) as Hb.
  { unfold b, base_value. destruct (list_find _ vs) as [[i x]|] eqn:E; [|done]. intros _. by apply list_find_Some in E as (_ & ? & _). }
  unfold concat_kccgst. fold (prefixed v). destruct (prefixed v) eqn:Hp; cbn [orb negb].
  - rewrite andb_false_r. rewrite filter_cons_True by done. cbn [concat]. by rewrite app_nil_r, app_assoc.
  - rewrite filter_cons_False by congruence. cbn. rewrite andb_true_r, app_nil_r. destruct (bool_decide_reflect (b = [])) as [E|E].
    + rewrite E. cbn [app]. destruct (bool_decide_reflect (concat ps = [])) as [->|Hne]; [by rewrite app_nil_r|].
      destruct (concat ps) as [|c l] eqn:Ec; [done|]. assert (prefixed (c :: l) = true) as Hc.
      { rewrite <- Ec. apply (head_prefixed [] ps); [done|done|]. intros ->. done. }
      cbn in Hc. by rewrite Hc.
    + specialize (Hb E). destruct b as [|c l]; [done|]. cbn in *. by rewrite Hb.
Qed.

Lemma concat_kccgst_spec_witness :
  foldl concat_kccgst [] [bytes_of "+a"; bytes_of "b"; bytes_of "c"; bytes_of "|d"] = bytes_of "b+a|d".
Proof. rewrite concat_kccgst_spec; [reflexivity|]. repeat (apply Forall_cons_2; [discriminate|]). apply Forall_nil_2. Defined.

(** ** The values of several layouts *)

Record pending := mk_pending { pe_kccgst : rules_kccgst; pe_layout : Z; pe_text : list Z }.

(** The buffer and its slices are the values, in the order of the rules. *)
Record pending_repr (buf : kccgst_buffer) (es : list pending) : Prop := {
  pr_buffer : kb_buffer buf = concat (map pe_text es);
  pr_slices : kb_slices buf = map (fun e => mk_slice (Z.of_nat (length (pe_text e))) (pe_kccgst e) (pe_layout e)) es;
  pr_length : Forall (fun e => Z.of_nat (length (pe_text e)) < 2 ^ 28) es
}.

Definition is_for (k : rules_kccgst) (layout : Z) (e : pending) : Prop := pe_kccgst e = k /\ pe_layout e = layout /\ pe_text e <> [].

(** The values of a component for a layout, but the empty ones. *)
Definition pending_values (es : list pending) (k : rules_kccgst) (layout : Z) : list (list Z) :=
  map pe_text (filter (is_for k layout) es).

Lemma append_slices_spec k layout es : forall pre post out,
  append_slices (pre ++ concat (map pe_text es) ++ post)
    (map (fun e => mk_slice (Z.of_nat (length (pe_text e))) (pe_kccgst e) (pe_layout e)) es) (Z.of_nat (length pre)) k layout out
  = foldl concat_kccgst out (pending_values es k layout).
Proof.
  induction es as [|e es IH]; intros pre post out; [done|]. cbn [map append_slices concat ks_kccgst ks_layout ks_length].
  rewrite <- Nat2Z.inj_add, <- length_app. rewrite <- (app_assoc (pe_text e)), (app_assoc pre). rewrite IH.
  rewrite !Nat2Z.id, <- app_assoc, drop_app_length, take_app_length. unfold pending_values.
  set (b := bool_decide _ && _ && _). destruct (decide (is_for k layout e)) as [Hf|Hf].
  - rewrite filter_cons_True by done. cbn [map foldl]. destruct Hf as (H1 & H2 & H3). unfold b. rewrite H1, H2, Z.eqb_refl, bool_decide_eq_true_2 by done.
    by destruct (pe_text e).
  - rewrite filter_cons_False by done. destruct b eqn:Hb; [|done]. unfold b in Hb. rewrite !andb_true_iff, bool_decide_eq_true in Hb.
    destruct Hb as [[H1 H2%Z.eqb_eq] H3]. destruct Hf. split; [done|]. split; [done|]. intros E. by rewrite E in H3.
Qed.

Lemma append_layouts_spec n buf es k : pending_repr buf es -> forall layout out,
  append_layouts n buf k layout out = foldl concat_kccgst out (concat (map (pending_values es k) (seqZ layout (Z.of_nat n)))).
Proof.
  intros [H1 H2 _]. induction n as [|n IH]; intros layout out; cbn [append_layouts]; [done|].
  rewrite IH, (seqZ_cons layout) by lia. cbn [map concat]. rewrite foldl_app. unfold Z.succ. replace (Z.pred (Z.of_nat (S n))) with (Z.of_nat n) by lia.
  f_equal. rewrite H1, H2. rewrite <- (append_slices_spec k layout es [] [] out). cbn [app length]. by rewrite app_nil_r.
Qed.

Lemma kccgst_index_eq k k' : kccgst_index k = kccgst_index k' -> k = k'.
Proof. by destruct k, k'. Qed.

Lemma kccgst_at_set k k' v m : length (m_kccgst m) = KCCGST_NUM_ENTRIES ->
  kccgst_at (set_kccgst k v m) k' = if bool_decide (k = k') then v else kccgst_at m k'.
Proof.
  intros Hl. unfold kccgst_at, set_kccgst. cbn. destruct (bool_decide_reflect (k = k')) as [->|Hne].
  - by rewrite list_lookup_insert_eq by (rewrite Hl; destruct k'; cbn; unfold KCCGST_NUM_ENTRIES; lia).
  - rewrite list_lookup_insert_ne; [done|]. intros H. by apply Hne, kccgst_index_eq.
Qed.

Lemma append_pending_at es kccgsts : NoDup kccgsts -> forall m, pending_repr (m_pending_kccgst m) es -> length (m_kccgst m) = KCCGST_NUM_ENTRIES ->
  mp_layout_idx_min (m_mapping m) <= mp_layout_idx_max (m_mapping m) ->
  forall k, kccgst_at (append_pending kccgsts m) k =
    if bool_decide (k ∈ kccgsts)
    then foldl concat_kccgst (kccgst_at m k)
           (concat (map (pending_values es k) (seqZ (mp_layout_idx_min (m_mapping m)) (mp_layout_idx_max (m_mapping m) - mp_layout_idx_min (m_mapping m)))))
    else kccgst_at m k.
Proof.
  induction kccgsts as [|k0 kccgsts IH]; intros Hnd m Hr Hl Hle k; cbn [append_pending].
  { rewrite bool_decide_eq_false_2; [done|]. by intros ?%elem_of_nil. }
  apply list.NoDup_cons in Hnd as [H0 Hnd]. rewrite IH; [|done|done|by unfold set_kccgst; cbn; rewrite length_insert|done].
  cbn [m_mapping set_kccgst m_set_kccgst]. rewrite !kccgst_at_set by done. rewrite (append_layouts_spec _ _ _ _ Hr), Z2Nat.id by lia.
  destruct (decide (k0 = k)) as [->|Hne].
  - by rewrite (bool_decide_eq_false_2 (k ∈ kccgsts)), (bool_decide_eq_true_2 (k = k)), (bool_decide_eq_true_2 (k ∈ k :: kccgsts)) by (done || by left).
  - rewrite (bool_decide_eq_false_2 (k0 = k)) by done. rewrite (bool_decide_ext (k ∈ k0 :: kccgsts) (k ∈ kccgsts)); [done|].
    rewrite list.elem_of_cons. split; [|by right]. by intros [->|].
Qed.

(** At the end of a rule set for several layouts, the values that its rules
    left in the buffer are merged with the output of their component: the
    layouts in order, and for each layout in the order of the rules; the other
    components do not change. *)
Theorem append_pending_spec m es k :
  pending_repr (m_pending_kccgst m) es -> NoDup (mp_kccgst_at_pos (m_mapping m)) -> length (m_kccgst m) = KCCGST_NUM_ENTRIES ->
  mp_layout_idx_min (m_mapping m) <= mp_layout_idx_max (m_mapping m) -> mp_has_multiple_layouts (m_mapping m) = true ->
  kccgst_at (matcher_append_pending_kccgst m) k =
    if bool_decide (k ∈ mp_kccgst_at_pos (m_mapping m))
    then foldl concat_kccgst (kccgst_at m k)
           (concat (map (pending_values es k) (seqZ (mp_layout_idx_min (m_mapping m)) (mp_layout_idx_max (m_mapping m) - mp_layout_idx_min (m_mapping m)))))
    else kccgst_at m k.
Proof. intros Hr Hnd Hl Hle Hm. unfold matcher_append_pending_kccgst. rewrite Hm. cbn [negb]. by apply append_pending_at. Qed.

(** A value that a rule leaves in the buffer. *)
Lemma buffer_value_repr k value idx m m' es : pending_repr (m_pending_kccgst m) es -> buffer_value k value idx m = Ok m' ->
  exists rn text, append_expanded_kccgst_value false (m_rmlvo m) [] value idx = Ok (rn, text) /\
    (Z.of_nat (length text) < 2 ^ 28 -> pending_repr (m_pending_kccgst m') (es ++ [mk_pending k idx text])).
Proof.
  intros [H1 H2 H3]. unfold buffer_value, append_expanded_kccgst_value. destruct (expand_value _ _ _ _ _ _ _) as [[rn e]|f]; [|done].
  cbn [result_bind]. intros [= <-]. exists rn, (default [] e). split; [by destruct e|]. intros Hs.
  assert (forall text, Z.of_nat (length text) < 2 ^ 28 -> pending_repr (mk_kccgst_buffer (kb_buffer (m_pending_kccgst m) ++ text)
    (kb_slices (m_pending_kccgst m) ++ [mk_slice ((Z.of_nat (length (kb_buffer (m_pending_kccgst m) ++ text)) - Z.of_nat (length (kb_buffer (m_pending_kccgst m)))) mod 2 ^ 28) k idx]))
    (es ++ [mk_pending k idx text])) as Hrep.
  { intros text Ht. split; cbn.
    - rewrite H1, map_app, concat_app. cbn. by rewrite app_nil_r.
    - rewrite H2, map_app, length_app, Nat2Z.inj_add. do 3 f_equal. cbn. replace (_ + _ - _) with (Z.of_nat (length text)) by lia.
      by rewrite Z.mod_small by lia.
    - apply list.Forall_app. split; [done|]. apply Forall_cons_2; [done|apply Forall_nil_2]. }
  destruct e as [text|]; [by apply Hrep|]. cbn in Hs |- *. specialize (Hrep [] eq_refl). by rewrite app_nil_r in Hrep.
Qed.

(** ** The names of the user *)

Record named := mk_named { nd_name : list Z; nd_layout : option Z }.

Definition name_text (e : named) : list Z :=
  nd_name e ++ match nd_layout e with Some l => OPTIONS_GROUP_SPECIFIER_PREFIX :: dec_str l | None => [] end.
Definition name_value (e : named) : matched_sval :=
  mk_matched_sval (nd_name e) (match nd_layout e with Some l => bit (l - 1) | None => XKB_OPTION_LAYOUT_MASK_GLOBAL end) 0.

Fixpoint join_names (es : list named) : list Z :=
  match es with
  | [] => []
  | [e] => name_text e
  | e :: es => name_text e ++ 44 :: join_names es
  end.

(** A name without the separators, nor a space at an end; only an option has a
    layout, and is not empty. *)
Record name_ok (mlvo : rules_mlvo) (e : named) : Prop := {
  no_chars : Forall (fun c => c <> 44 /\ c <> OPTIONS_GROUP_SPECIFIER_PREFIX) (nd_name e);
  no_spaces : strip_spaces (nd_name e) = nd_name e;
  no_layouts : match nd_layout e with Some l => mlvo = MLVO_OPTION /\ 1 <= l <= XKB_MAX_GROUPS | None => True end;
  no_option : mlvo = MLVO_OPTION -> nd_name e <> []
}.

(** What follows a value. *)
Definition stops (rest : list Z) : Prop := rest = [] \/ exists l, rest = 44 :: l.

Lemma span_value_app v rest : Forall (fun c => c <> 44 /\ c <> OPTIONS_GROUP_SPECIFIER_PREFIX) v ->
  stops rest \/ head rest = Some OPTIONS_GROUP_SPECIFIER_PREFIX -> span_value (v ++ rest) = (v, rest).
Proof.
  intros Hv Hr. induction Hv as [|c v [H1 H2] _ IH]; cbn [span_value app].
  - destruct Hr as [[->|[l ->]]|Hr]; [done|done|]. destruct rest as [|c rest]; [done|]. by injection Hr as ->.
  - rewrite (proj2 (Z.eqb_neq _ _) H1), (proj2 (Z.eqb_neq _ _) H2). cbn. by rewrite IH.
Qed.

Lemma split_specifier_dec l rest : 1 <= l <= XKB_MAX_GROUPS -> stops rest ->
  split_specifier MLVO_OPTION (dec_str l ++ rest) = (bit (l - 1), rest).
Proof.
  intros Hl Hr. assert (l ∈ map Z.of_nat (seq 1 32)) as Hin.
  { apply list_elem_of_In, in_map_iff. exists (Z.to_nat l). split; [lia|]. apply in_seq. unfold XKB_MAX_GROUPS in Hl. lia. }
  clear Hl. cbn in Hin. destruct Hr as [->|[r ->]];
    repeat (apply list.elem_of_cons in Hin as [->|Hin]; [vm_compute; reflexivity|]); by apply elem_of_nil in Hin.
Qed.

Lemma merge_option_none val arr : Forall (fun v => mv_sval v <> mv_sval val) arr -> merge_option val arr = None.
Proof. induction 1 as [|v arr Hv _ IH]; cbn [merge_option]; [done|]. by rewrite bool_decide_eq_false_2, IH by done. Qed.

Lemma add_value_new mlvo e arr : name_ok mlvo e -> (mlvo = MLVO_OPTION -> nd_name e ∉ map mv_sval arr) ->
  add_value mlvo (name_value e) arr = arr ++ [name_value e].
Proof.
  intros [_ _ _ Ho] Hn. unfold add_value. destruct (bool_decide_reflect (mlvo = MLVO_OPTION)) as [E|E]; [|by rewrite andb_false_r].
  rewrite bool_decide_eq_false_2 by (by apply Ho). cbn [andb]. rewrite merge_option_none; [done|]. apply list.Forall_forall. intros v Hv Heq.
  apply (Hn E). apply list_elem_of_In, in_map_iff. exists v. split; [done|]. by apply list_elem_of_In.
Qed.

Lemma split_value_step mlvo e rest fuel arr : name_ok mlvo e -> stops rest ->
  split_values (S fuel) mlvo (name_text e ++ rest) arr =
  match rest with
  | [] => Ok (add_value mlvo (name_value e) arr)
  | c :: s' => split_values fuel mlvo (if c =? 44 then s' else rest) (add_value mlvo (name_value e) arr)
  end.
Proof.
  intros [H1 H2 H3 H4] Hr. destruct e as [name [l|]]; unfold name_text, name_value in *; cbn [nd_name nd_layout] in *; cbn [split_values].
  - destruct H3 as [-> H3]. rewrite <- app_assoc, span_value_app by (done || by right). cbn [app]. rewrite Z.eqb_refl, split_specifier_dec by done.
    rewrite H2. by destruct rest.
  - rewrite app_nil_r, span_value_app by (done || by left). rewrite H2. destruct Hr as [->|[r ->]]; [done|]. done.
Qed.

(** The values added, one after the other. *)
Definition add_names (mlvo : rules_mlvo) (es : list named) (arr : list matched_sval) : list matched_sval :=
  foldl (fun arr e => add_value mlvo (name_value e) arr) arr es.

Lemma split_values_join mlvo es : Forall (name_ok mlvo) es -> es <> [] -> forall fuel arr, (length (join_names es) < fuel)%nat ->
  split_values fuel mlvo (join_names es) arr = Ok (add_names mlvo es arr).
Proof.
  induction 1 as [|e es He Hes IH]; intros Hne fuel arr Hf; [done|]. destruct fuel as [|fuel]; [lia|]. destruct es as [|e' es].
  - cbn [join_names map]. by rewrite <- (app_nil_r (name_text e)), split_value_step by (done || by left).
  - cbn [join_names map] in *. rewrite split_value_step by (done || right; by eexists). cbn [Z.eqb Pos.eqb]. rewrite IH; [done|done|].
    rewrite length_app in Hf. cbn [length] in Hf. cbn [join_names] in *. lia.
Qed.

Lemma add_names_new mlvo es : Forall (name_ok mlvo) es -> forall arr, (mlvo = MLVO_OPTION -> NoDup (map mv_sval arr ++ map nd_name es)) ->
  add_names mlvo es arr = arr ++ map name_value es.
Proof.
  induction 1 as [|e es He Hes IH]; intros arr Hnd; [by rewrite app_nil_r|].
  assert (mlvo = MLVO_OPTION -> nd_name e ∉ map mv_sval arr) as Hnew.
  { intros E Hin. apply list.NoDup_app in Hnd as (_ & Hd & _); [|done]. apply (Hd _ Hin). by left. }
  change (add_names mlvo es (add_value mlvo (name_value e) arr) = arr ++ map name_value (e :: es)). rewrite add_value_new by done. rewrite IH.
  - by rewrite <- app_assoc.
  - intros E. specialize (Hnd E). rewrite map_app, <- app_assoc. exact Hnd.
Qed.

Lemma split_join mlvo es : Forall (name_ok mlvo) es -> es <> [] ->
  split_comma_separated_mlvo mlvo (Some (join_names es)) = Ok (match add_names mlvo es [] with [] => [no_value] | arr => arr end).
Proof. intros H Hne. unfold split_comma_separated_mlvo. rewrite split_values_join; [|done|done|lia]. cbn. by destruct (add_names mlvo es []). Qed.

(** The names of the user survive their list: joined with commas, each
    option with its layout after [!], they are split into the same names and
    layouts; the layouts and the variants may be empty or repeated, the options
    not. *)
Theorem split_names_roundtrip mlvo es : Forall (name_ok mlvo) es -> es <> [] -> (mlvo = MLVO_OPTION -> NoDup (map nd_name es)) ->
  split_comma_separated_mlvo mlvo (Some (join_names es)) = Ok (map name_value es).
Proof. intros H Hne Hnd. rewrite split_join, add_names_new by done. by destruct es. Qed.

Lemma split_names_roundtrip_witness :
  split_comma_separated_mlvo MLVO_OPTION (Some (bytes_of "a:b!2,c,d!31"))
  = Ok [mk_matched_sval (bytes_of "a:b") 2 0; mk_matched_sval (bytes_of "c") 0 0; mk_matched_sval (bytes_of "d") (bit 30) 0].
Proof.
  apply (split_names_roundtrip MLVO_OPTION [mk_named (bytes_of "a:b") (Some 2); mk_named (bytes_of "c") None; mk_named (bytes_of "d") (Some 31)]).
  - repeat (apply Forall_cons_2; [split; [by repeat (apply Forall_cons_2; [done|]); apply Forall_nil_2|reflexivity|done|done]|]). apply Forall_nil_2.
  - discriminate.
  - intros _. apply (bool_decide_unpack _). vm_compute. exact I.
Defined.

(** Two layouts, and a rule set for a group and an option. *)
Definition sample_matcher : matcher :=
  m_set_groups [mk_group true (bytes_of "g") [bytes_of "us"; bytes_of "de"]]
    (m_set_mapping (mk_mapping [MLVO_LAYOUT; MLVO_OPTION] 10 true true 0 2 3 [KCCGST_SYMBOLS] 8)
       (new_matcher (mk_rule_names no_value [mk_matched_sval (bytes_of "fr") 0 0; mk_matched_sval (bytes_of "de") 0 0] [no_value; no_value]
          [mk_matched_sval (bytes_of "opt") 3 0]))).

Lemma match_fields_spec_witness : exists r m',
  match_fields (mp_mlvo_at_pos (m_mapping sample_matcher)) [(MLVO_MATCH_GROUP, bytes_of "g"); (MLVO_MATCH_NORMAL, bytes_of "opt")] 3 sample_matcher = Ok (r, m')
  /\ r = Some 2.
Proof.
  destruct (match_fields_spec sample_matcher [(MLVO_MATCH_GROUP, bytes_of "g"); (MLVO_MATCH_NORMAL, bytes_of "opt")] 3) as (r & m' & H1 & _ & H2 & _).
  - apply (bool_decide_unpack _). vm_compute. exact I.
  - split; [discriminate|reflexivity|discriminate].
  - split; [split|..]; cbn; lia.
  - reflexivity.
  - lia.
  - intros i Hi Ht. pose proof (ones_candidates 2 i ltac:(lia) Hi Ht). cbn. lia.
  - reflexivity.
  - exists r, m'. split; [exact H1|]. vm_compute in H1. injection H1 as <- _. reflexivity.
Defined.

Lemma append_pending_spec_witness :
  let m := m_set_pending (mk_kccgst_buffer (bytes_of "+a:2+b:1+c:2") [mk_slice 4 KCCGST_SYMBOLS 1; mk_slice 4 KCCGST_SYMBOLS 0; mk_slice 4 KCCGST_SYMBOLS 1])
             (set_kccgst KCCGST_SYMBOLS (bytes_of "pc") sample_matcher) in
  kccgst_at (matcher_append_pending_kccgst m) KCCGST_SYMBOLS = bytes_of "pc+b:1+a:2+c:2".
Proof.
  intros m. rewrite (append_pending_spec m
    [mk_pending KCCGST_SYMBOLS 1 (bytes_of "+a:2"); mk_pending KCCGST_SYMBOLS 0 (bytes_of "+b:1"); mk_pending KCCGST_SYMBOLS 1 (bytes_of "+c:2")]).
  - reflexivity.
  - split; [reflexivity|reflexivity|]. repeat (apply Forall_cons_2; [reflexivity|]). apply Forall_nil_2.
  - apply NoDup_singleton.
  - reflexivity.
  - cbn. lia.
  - reflexivity.
Defined.
