(* ===== verification/RulesBytes.v ===== *)
(** * The output of the rules is made of bytes

    From names that are lists of bytes, whatever the rules files, every text of
    the matcher is one: the sections that read the output rely on it. *)

From Stdlib Require Import ZArith Lia String.
From stdpp Require Import base tactics list numbers.
From S2P Require Import Prelude Numbers Keymap Utf8 Scanner KeysymNames Expr Safe Rules RulesSpec RulesNames.

Definition bytes (s : list Z) : Prop := Forall is_char s.

(** What holds of the value returned, if any. *)
Definition returns {A} (Q : A -> Prop) (r : result A) : Prop := within (fun _ => True) Q r.

Lemma rules_returns_bind {A B} (P : A -> Prop) (Q : B -> Prop) (m : result A) (k : A -> result B) :
  returns P m -> (forall a, P a -> returns Q (k a)) -> returns Q (result_bind m k).
Proof. apply within_bind. Qed.

Lemma returns_mono {A} (P Q : A -> Prop) (m : result A) : returns P m -> (forall a, P a -> Q a) -> returns Q m.
Proof. apply within_mono. Qed.

Lemma bytes_app a b : bytes a -> bytes b -> bytes (a ++ b).
Proof. intros. by apply list.Forall_app. Qed.
Lemma bytes_take n s : bytes s -> bytes (take n s).
Proof. apply list.Forall_take. Qed.
Lemma bytes_drop n s : bytes s -> bytes (drop n s).
Proof. apply list.Forall_drop. Qed.
Lemma bytes_one c : is_char c -> bytes [c].
Proof. intros. by apply Forall_cons_2; [|apply Forall_nil_2]. Qed.
Lemma bytes_nil : bytes [].
Proof. apply Forall_nil_2. Qed.

Create HintDb bytes.
#[export] Hint Resolve bytes_app bytes_take bytes_drop bytes_one bytes_nil : bytes.

(** ** The names of the user *)

Definition names_bytes (rn : rule_names) : Prop :=
  bytes (mv_sval (rn_model rn)) /\ Forall (fun v => bytes (mv_sval v)) (rn_layouts rn) /\ Forall (fun v => bytes (mv_sval v)) (rn_variants rn).

Lemma bytes_of_names l l' : map name_of l' = map name_of l -> Forall (fun v => bytes (mv_sval v)) l -> Forall (fun v => bytes (mv_sval v)) l'.
Proof.
  intros E H. assert (Forall (fun p => bytes p.1) (map name_of l)) as H1 by by apply list.Forall_fmap.
  rewrite <- E in H1. exact (proj1 (list.Forall_fmap _ _ _) H1).
Qed.

Lemma names_bytes_same rn rn' : names_of rn' = names_of rn -> names_bytes rn -> names_bytes rn'.
Proof.
  intros E (H1 & H2 & H3). injection E as E1 _ E2 E3 _. split; [by rewrite E1|]. split; by eapply bytes_of_names.
Qed.

(** ** The match of a rule only marks the names *)

Lemma mark_names groups val to mt wt w : returns (fun r => name_of r.2 = name_of to) (match_value_and_mark groups val to mt wt w).
Proof. unfold match_value_and_mark. destruct (match_value _ _ _ _ _) as [[]|]; done. Qed.

Lemma match_options_names groups val mt options : forall u, returns (fun r => map name_of r.2 = map name_of options) (match_options groups val mt options u).
Proof.
  induction options as [|o options IH]; intros u; cbn [match_options]; [done|]. generalize (if negb (mv_layouts o =? 0) then Z.land u (mv_layouts o) else GLOBAL_MATCHED_LAYOUTS). intros mm.
  assert (forall b o' u', name_of o' = name_of o -> returns (fun r => map name_of r.2 = map name_of (o :: options))
    (let+ r := match_options groups val mt options u' in let '(matched, unmatched, options) := r in Ok (b || matched, unmatched, o' :: options))) as Hnext.
  { intros b o' u' Ho. eapply rules_returns_bind; [apply IH|]. intros [[m u1] os] H. cbn in *. by rewrite Ho, H. }
  destruct (mm =? 0); [by apply Hnext|]. eapply rules_returns_bind; [apply mark_names|]. intros [[] o'] Ho; cbn in Ho; [|by apply Hnext].
  destruct (_ =? 0); [|by apply Hnext]. change (map name_of (o' :: options) = map name_of (o :: options)). cbn [map]. by rewrite Ho.
Qed.

Lemma match_layouts_names groups val mt n : forall idx input c m,
  returns (fun r => map name_of r.2 = map name_of input) (match_layouts groups val mt n idx input c m).
Proof.
  induction n as [|n IH]; intros idx input c m; cbn [match_layouts]; [done|]. destruct (c =? 0); [done|]. destruct (32 <=? idx); [done|].
  destruct (_ =? 0); [apply IH|]. destruct (input !! Z.to_nat idx) as [to|] eqn:Hto; [|done].
  eapply rules_returns_bind; [apply mark_names|]. intros [b to'] Ht. eapply returns_mono; [apply IH|]. intros r ->. by eapply names_insert.
Qed.

Lemma match_field_marked f v mt c m : returns (fun r => marked m r.2) (match_field f v mt c m).
Proof.
  destruct f; cbn [match_field].
  - eapply rules_returns_bind with (P := fun r => marked m r.2); [|by intros r H]. unfold matcher_rule_match_model.
    eapply rules_returns_bind; [apply mark_names|]. intros [b x] H. cbn in H |- *. apply marked_set. unfold names_of. cbn. by rewrite H.
  - unfold matcher_rule_match_layout_or_variant. destruct (rn_layouts (m_rmlvo m)) as [|x l] eqn:E; [done|]. rewrite <- E.
    eapply rules_returns_bind; [apply match_layouts_names|]. intros r H. cbn in H |- *. apply marked_set. unfold names_of. cbn. by rewrite H.
  - unfold matcher_rule_match_layout_or_variant. destruct (rn_variants (m_rmlvo m)) as [|x l] eqn:E; [done|]. rewrite <- E.
    eapply rules_returns_bind; [apply match_layouts_names|]. intros r H. cbn in H |- *. apply marked_set. unfold names_of. cbn. by rewrite H.
  - unfold matcher_rule_match_option. destruct (rn_options (m_rmlvo m)) as [|x l] eqn:E; [done|]. rewrite <- E.
    eapply rules_returns_bind; [apply match_options_names|]. intros [[b u] os] H. cbn in H |- *. apply marked_set. unfold names_of. cbn. by rewrite H.
Qed.

Lemma match_fields_marked fields : forall values c m, returns (fun r => marked m r.2) (match_fields fields values c m).
Proof.
  induction fields as [|f fields IH]; intros values c m; cbn [match_fields]; [apply marked_refl|]. destruct values as [|[mt v] values]; [done|].
  eapply rules_returns_bind; [apply match_field_marked|]. intros [[b c'] m'] H. cbn in H. destruct b; [|exact H].
  eapply returns_mono; [apply IH|]. intros r Hr. by eapply marked_trans.
Qed.

(** ** The expansion of the values *)

Lemma dec_loop_bytes fuel : forall n, bytes (dec_loop fuel n).
Proof.
  induction fuel as [|fuel IH]; intros n; cbn [dec_loop]; [apply bytes_nil|]. apply bytes_app; [destruct (_ <? _); auto with bytes|].
  apply bytes_one. pose proof (Z.mod_pos_bound n 10). unfold is_char. lia.
Qed.
Lemma dec_str_bytes n : bytes (dec_str n).
Proof. apply dec_loop_bytes. Qed.
#[local] Hint Resolve dec_str_bytes : bytes.

Lemma expanded_value_bytes mlv idx variable rn v rn' : names_bytes rn -> expanded_value mlv idx variable rn = Some (v, rn') -> bytes (mv_sval v).
Proof.
  intros (H1 & H2 & H3).
  assert (forall (l : list matched_sval) (w : list matched_sval -> rule_names) (i : nat), Forall (fun v => bytes (mv_sval v)) l ->
    (fun x => (x, w (<[i := mark GLOBAL_MATCHED_LAYOUTS x]> l))) <$> l !! i = Some (v, rn') -> bytes (mv_sval v)) as Hpick.
  { intros l w i Hl Hi. apply fmap_Some in Hi as (x & Hx & [= -> _]). exact (Forall_lookup_1 _ _ _ _ Hl Hx). }
  unfold expanded_value. destruct mlv.
  - by intros [= <- _].
  - destruct (idx =? _); [destruct (_ =? 1); [|done]|destruct (_ && _); [|done]]; by apply (Hpick (rn_layouts rn) (fun l => set_layouts l rn)).
  - destruct (idx =? _); [destruct (_ =? 1); [|done]|destruct (_ && _); [|done]]; by apply (Hpick (rn_variants rn) (fun l => set_variants l rn)).
  - done.
Qed.

Lemma expansion_index_bytes mlv str layout_idx : bytes str ->
  returns (fun r => match r with Some (_, _, str') => bytes str' | None => True end) (expansion_index mlv str layout_idx).
Proof.
  intros Hs. unfold expansion_index. destruct (bool_decide _); [|done]. destruct (negb _); [done|].
  destruct (extract_layout_index str) as [[n idx]|]; [|done]. destruct (_ =? _); [destruct (_ =? _); [done|]|]; cbn; auto with bytes.
Qed.

Lemma expand_rmlvo_bytes rn str layout_idx expanded : names_bytes rn -> bytes str -> bytes expanded ->
  returns (fun r => names_bytes r.1 /\ match r.2 with Some (e, str') => bytes e /\ bytes str' | None => True end)
    (expand_rmlvo_in_kccgst_value rn str layout_idx expanded).
Proof.
  intros Hn Hs He. unfold expand_rmlvo_in_kccgst_value. destruct (_ && _).
  { destruct (_ =? _); [done|]. cbn [within returns fst snd]. split; [done|]. split; auto with bytes. }
  cbv zeta. set (pfx := match str with c :: _ => _ | [] => None end). set (str1 := match pfx with Some _ => drop 1 str | None => str end).
  assert (bytes str1) as H1 by (unfold str1; destruct pfx; auto with bytes).
  assert (bytes (opt_char pfx)) as Hp.
  { unfold pfx. destruct str as [|c l]; [apply bytes_nil|]. destruct (_ || _); [|apply bytes_nil]. apply bytes_one. by apply list.Forall_cons in Hs as [? _]. }
  set (sfx := match pfx with Some c => if c =? 40 then Some 41 else None | None => None end).
  assert (bytes (opt_char sfx)) as Hsx by (unfold sfx; destruct pfx as [c|]; [destruct (c =? 40)|]; apply Forall_nil_2 || by apply bytes_one).
  destruct str1 as [|c str2]; [done|]. apply list.Forall_cons in H1 as [_ H1]. destruct (expansion_field c) as [mlv|]; [|done].
  eapply rules_returns_bind; [by apply expansion_index_bytes|]. intros [[[idx variable] str3]|] H3; [|done]. destruct (_ && _); [done|].
  assert (bytes (match sfx with Some _ => drop 1 str3 | None => str3 end)) as H4 by (destruct sfx; auto with bytes).
  cbn [within returns fst snd]. destruct (expanded_value mlv idx variable rn) as [[v rn']|] eqn:Ev; [|done].
  pose proof (expanded_value_bytes _ _ _ _ _ _ Hn Ev). destruct (bool_decide _); [done|].
  split; [eapply names_bytes_same; [by eapply expanded_value_names|done]|]. split; auto with bytes.
Qed.

Lemma all_layouts_bytes n : forall l sep prefix, bytes prefix -> bytes (all_layouts n l sep prefix).
Proof. induction n as [|n IH]; intros l sep prefix Hp; cbn [all_layouts]; [apply bytes_nil|]. apply bytes_app; [destruct sep; [apply bytes_nil|by apply bytes_one]|]. auto with bytes. Qed.

Lemma expand_qualifier_bytes n str expanded sep i : bytes str -> bytes expanded ->
  bytes (expand_qualifier_in_kccgst_value n str expanded sep i).1 /\ bytes (expand_qualifier_in_kccgst_value n str expanded sep i).2.
Proof.
  intros Hs He. unfold expand_qualifier_in_kccgst_value. destruct (_ && _); [|done]. cbn [fst snd]. assert (bytes (expanded ++ [49])) by by apply bytes_app; [|apply bytes_one].
  split; [|auto with bytes]. apply bytes_app; [done|]. destruct (n >? 1); [|apply bytes_nil]. apply all_layouts_bytes. auto with bytes.
Qed.

Lemma expand_value_bytes layout_idx fuel : forall rn str expanded i sep, names_bytes rn -> bytes str -> bytes expanded ->
  returns (fun r => names_bytes r.1 /\ match r.2 with Some e => bytes e | None => True end) (expand_value fuel rn layout_idx str expanded i sep).
Proof.
  induction fuel as [|fuel IH]; intros rn str expanded i sep Hn Hs He; cbn [expand_value]; [done|]. destruct str as [|c str]; [done|].
  apply list.Forall_cons in Hs as [Hc Hs]. assert (bytes (expanded ++ [c])) by by apply bytes_app; [|apply bytes_one].
  destruct (c =? 58).
  { destruct (expand_qualifier_bytes (Z.of_nat (length (rn_layouts rn))) str (expanded ++ [c]) sep i) as [H1 H2]; [done|done|].
    destruct (expand_qualifier_in_kccgst_value _ _ _ _ _) as [e s']. by apply IH. }
  destruct (c =? 37).
  { destruct str as [|c1 str]; [done|]. eapply rules_returns_bind; [by apply expand_rmlvo_bytes|]. intros [rn' [[e s']|]] [H1 H2]; [|done]. cbn in H1, H2.
    destruct H2. by apply IH. }
  destruct (is_merge_mode_prefix c); by apply IH.
Qed.

Lemma concat_kccgst_bytes a b : bytes a -> bytes b -> bytes (concat_kccgst a b).
Proof. intros Ha Hb. unfold concat_kccgst. destruct (_ || _); [auto with bytes|]. destruct a as [|c a]; [done|]. destruct (is_merge_mode_prefix c); auto with bytes. Qed.

Lemma append_expanded_bytes merge rn to value layout_idx : names_bytes rn -> bytes to -> bytes value ->
  returns (fun r => names_bytes r.1 /\ bytes r.2) (append_expanded_kccgst_value merge rn to value layout_idx).
Proof.
  intros Hn Ht Hv. unfold append_expanded_kccgst_value. eapply rules_returns_bind; [apply expand_value_bytes; auto with bytes|]. intros [rn' e] [H1 H2].
  cbn in *. split; [done|]. destruct e as [e|]; [|done]. destruct merge; [destruct (bool_decide _); [done|by apply concat_kccgst_bytes]|by apply bytes_app].
Qed.

(** ** The matcher *)

Record bytes_ok (m : matcher) : Prop := {
  by_names : names_bytes (m_rmlvo m);
  by_rule : Forall bytes (rl_kccgst (m_rule m));
  by_buffer : bytes (kb_buffer (m_pending_kccgst m));
  by_output : Forall bytes (m_kccgst m)
}.

(** What the rest of the matcher keeps. *)
Lemma bytes_kept m m' : m_rmlvo m' = m_rmlvo m -> rl_kccgst (m_rule m') = rl_kccgst (m_rule m) -> m_pending_kccgst m' = m_pending_kccgst m ->
  m_kccgst m' = m_kccgst m -> bytes_ok m -> bytes_ok m'.
Proof. intros E1 E2 E3 E4 [H1 H2 H3 H4]. split; [by rewrite E1|by rewrite E2|by rewrite E3|by rewrite E4]. Qed.

Lemma marked_bytes m m' : marked m m' -> bytes_ok m -> bytes_ok m'.
Proof. intros [E N] [H1 H2 H3 H4]. rewrite E. split; try done. cbn. by eapply names_bytes_same. Qed.

Lemma kccgst_at_bytes m k : bytes_ok m -> bytes (kccgst_at m k).
Proof.
  intros [_ _ _ H]. unfold kccgst_at. destruct (m_kccgst m !! kccgst_index k) as [s|] eqn:E; [exact (Forall_lookup_1 _ _ _ _ H E)|apply Forall_nil_2].
Qed.

Lemma set_kccgst_bytes m k v : bytes_ok m -> bytes v -> bytes_ok (set_kccgst k v m).
Proof. intros [H1 H2 H3 H4] Hv. split; try done. cbn. by apply list.Forall_insert. Qed.

Lemma append_slices_bytes buffer slices k layout : bytes buffer -> forall offset out, bytes out -> bytes (append_slices buffer slices offset k layout out).
Proof.
  intros Hb. induction slices as [|s slices IH]; intros offset out Ho; cbn [append_slices]; [done|]. apply IH.
  destruct (_ && _); [|done]. apply concat_kccgst_bytes; auto with bytes.
Qed.

Lemma append_layouts_bytes n buf k : bytes (kb_buffer buf) -> forall layout out, bytes out -> bytes (append_layouts n buf k layout out).
Proof. intros Hb. induction n as [|n IH]; intros layout out Ho; cbn [append_layouts]; [done|]. by apply IH, append_slices_bytes. Qed.

Lemma append_pending_bytes l : forall m, bytes_ok m -> bytes_ok (append_pending l m).
Proof.
  induction l as [|k l IH]; intros m Hm; cbn [append_pending]; [done|]. apply IH, set_kccgst_bytes; [done|].
  apply append_layouts_bytes; [apply Hm|by apply kccgst_at_bytes].
Qed.

Lemma pending_bytes m : bytes_ok m -> bytes_ok (matcher_append_pending_kccgst m).
Proof.
  intros Hm. unfold matcher_append_pending_kccgst. destruct (negb _); [done|]. pose proof (append_pending_bytes (mp_kccgst_at_pos (m_mapping m)) m Hm) as H.
  by apply (bytes_kept (append_pending (mp_kccgst_at_pos (m_mapping m)) m)).
Qed.

Lemma buffer_value_bytes k v idx m : bytes_ok m -> bytes v -> returns bytes_ok (buffer_value k v idx m).
Proof.
  intros Hm Hv. unfold buffer_value. eapply rules_returns_bind; [apply append_expanded_bytes; [apply Hm|apply Hm|done]|]. intros [rn b] [H1 H2].
  destruct Hm. by split.
Qed.

Lemma merge_value_bytes k v idx m : bytes_ok m -> bytes v -> returns bytes_ok (merge_value k v idx m).
Proof.
  intros Hm Hv. unfold merge_value. eapply rules_returns_bind; [apply append_expanded_bytes; [apply Hm|by apply kccgst_at_bytes|done]|]. intros [rn b] [H1 H2].
  apply set_kccgst_bytes; [|done]. destruct Hm. by split.
Qed.

Lemma apply_values_bytes apply kccgsts : (forall k v idx m, bytes_ok m -> bytes v -> returns bytes_ok (apply k v idx m)) ->
  forall values idx m, bytes_ok m -> Forall bytes values -> returns bytes_ok (apply_values apply kccgsts values idx m).
Proof.
  intros Ha. induction kccgsts as [|k kccgsts IH]; intros values idx m Hm Hv; cbn [apply_values]; [done|]. destruct values as [|v values]; [done|].
  apply list.Forall_cons in Hv as [Hv Hvs]. eapply rules_returns_bind; [by apply Ha|]. intros m1 Hm1. by apply IH.
Qed.

Lemma buffer_layouts_bytes n : forall idx c m, bytes_ok m -> returns bytes_ok (buffer_layouts n idx c m).
Proof.
  induction n as [|n IH]; intros idx c m Hm; cbn [buffer_layouts]; [done|]. destruct (32 <=? idx); [done|]. eapply rules_returns_bind; [|intros m1; apply IH].
  destruct (negb _); [|done]. apply apply_values_bytes; [apply buffer_value_bytes|done|apply Hm].
Qed.

Lemma apply_rule_bytes m : bytes_ok m -> returns bytes_ok (matcher_rule_apply_if_matches m).
Proof.
  intros Hm. unfold matcher_rule_apply_if_matches. eapply rules_returns_bind; [apply match_fields_marked|]. intros [[c|] m1] H1; cbn in H1;
    pose proof (marked_bytes _ _ H1 Hm) as Hm1; [|done].
  assert (Forall bytes (rl_kccgst (m_rule m1))) as Hr by apply Hm1. eapply rules_returns_bind with (P := bytes_ok).
  - destruct (mp_has_multiple_layouts _); [by apply buffer_layouts_bytes|]. apply apply_values_bytes; [apply merge_value_bytes|done|done].
  - intros m2 Hm2. cbn. destruct (is_mlvo_mask_defined m2 MLVO_OPTION); [done|]. by apply (bytes_kept m2).
Qed.

Lemma end_rule_bytes m : bytes_ok m -> returns bytes_ok (end_rule m).
Proof.
  intros Hm. unfold end_rule.
  assert (bytes_ok (if negb (rl_skip (m_rule m)) then matcher_rule_verify m else m)) as H.
  { destruct (negb _); [|done]. unfold matcher_rule_verify. destruct (_ || _); [|done]. by apply (bytes_kept m). }
  destruct (negb (rl_skip (m_rule (if negb (rl_skip (m_rule m)) then matcher_rule_verify m else m)))); [by apply apply_rule_bytes|done].
Qed.

(** The operations on the header and on the fields of a rule. *)
Lemma mlvo_common_bytes mt v m : bytes_ok m -> returns bytes_ok (matcher_rule_set_mlvo_common mt v m).
Proof. intros Hm. unfold matcher_rule_set_mlvo_common. destruct (Nat.leb _ _); [by apply (bytes_kept m)|]. destruct (Nat.leb _ _); [done|]. by apply (bytes_kept m). Qed.

Lemma set_rule_kccgst_bytes v m : bytes v -> bytes_ok m -> returns bytes_ok (matcher_rule_set_kccgst v m).
Proof.
  intros Hv Hm. unfold matcher_rule_set_kccgst. destruct (Nat.leb _ _); [by apply (bytes_kept m)|]. destruct (Nat.leb _ _); [done|].
  destruct Hm as [H1 H2 H3 H4]. split; try done. cbn. apply list.Forall_app. split; [done|]. by apply Forall_cons_2; [|apply Forall_nil_2].
Qed.

Lemma set_mlvo_bytes v m : bytes_ok m -> returns bytes_ok (matcher_mapping_set_mlvo v m).
Proof.
  intros Hm. assert (forall p, bytes_ok (m_set_mapping p m)) as Hp by (intros p; by apply (bytes_kept m)). unfold matcher_mapping_set_mlvo.
  destruct (list_find _ _) as [[i [mlvo s]]|]; [|apply Hp]. destruct (is_mlvo_mask_defined _ _); [apply Hp|].
  destruct (mapping_index _ _ _); [|apply Hp]. destruct (_ && _); [apply Hp|]. unfold add_mlvo. destruct (Nat.leb _ _); [done|]. apply Hp.
Qed.

Lemma set_header_kccgst_bytes v m : bytes_ok m -> returns bytes_ok (matcher_mapping_set_kccgst v m).
Proof.
  intros Hm. assert (forall p, bytes_ok (m_set_mapping p m)) as Hp by (intros p; by apply (bytes_kept m)). unfold matcher_mapping_set_kccgst.
  destruct (list_find _ _) as [[i [k s]]|]; [|apply Hp]. destruct (has_flag _ _); [apply Hp|]. unfold add_kccgst. destruct (Nat.leb _ _); [done|]. apply Hp.
Qed.

Lemma verify_bytes m : bytes_ok m -> returns (fun r => bytes_ok r.2) (matcher_mapping_verify m).
Proof.
  intros Hm. assert (bytes_ok (mapping_inactive m)) as Hp by by apply (bytes_kept m). unfold matcher_mapping_verify.
  destruct (mp_mlvo_at_pos _); [done|]. destruct (mp_kccgst_at_pos _); [done|]. do 4 (destruct (_ && _); [done|]). done.
Qed.

Lemma set_bounds_bytes m : bytes_ok m -> returns bytes_ok (matcher_mapping_set_layout_bounds m).
Proof.
  intros Hm. unfold matcher_mapping_set_layout_bounds. eapply rules_returns_bind with (P := fun _ => True); [|intros p _; by apply (bytes_kept m)].
  destruct (_ =? XKB_LAYOUT_INVALID); [by destruct (_ || _)|]. destruct (_ =? LAYOUT_INDEX_LATER); [done|]. destruct (_ || _); [done|].
  destruct (_ || _); destruct (_ <? 32); done.
Qed.

Lemma end_mapping_bytes m : bytes_ok m -> returns bytes_ok (end_mapping m).
Proof.
  intros Hm. unfold end_mapping. destruct (mp_active _); [|done]. eapply rules_returns_bind; [by apply verify_bytes|]. intros [b m1] H1. cbn in H1. destruct b; [|done].
  eapply rules_returns_bind; [by apply set_bounds_bytes|]. intros m2 H2. cbn. destruct (mp_has_multiple_layouts _); [|done].
  destruct H2. split; try done. apply Forall_nil_2.
Qed.

Section states.
Context (include_file : list Z -> matcher -> result matcher).
Hypothesis Hinclude : forall inc m, bytes_ok m -> returns bytes_ok (include_file inc m).

Lemma step_rule_bytes tok m : bytes_ok m -> returns (fun r => bytes_ok r.2) (step_rule_mlvo tok m).
Proof.
  intros Hm. assert (forall mt v, returns (fun r => bytes_ok r.2)
    (let+ m := if negb (rl_skip (m_rule m)) then matcher_rule_set_mlvo_common mt v m else Ok m in Ok (Goto L_rule_mlvo, m))) as Hadd.
  { intros mt v. destruct (negb _); [|done]. eapply rules_returns_bind; [by apply mlvo_common_bytes|]. by intros m1 H1. }
  unfold step_rule_mlvo. destruct tok; try done; try apply Hadd. destruct (bool_decide _); apply Hadd.
Qed.

Lemma guarded_bytes (b : bool) (set : result matcher) m l : bytes_ok m -> returns bytes_ok set ->
  returns (fun r : next * matcher => bytes_ok r.2) (let+ m := if b then set else Ok m in Ok (Goto l, m)).
Proof. intros Hm Hs. destruct b; [|done]. eapply rules_returns_bind; [exact Hs|]. by intros m1 H1. Qed.

Lemma step_bytes l tok m : token_ok tok -> bytes_ok m -> returns (fun r => bytes_ok r.2) (step include_file l tok m).
Proof using Hinclude.
  intros Ht Hm. assert (bytes_ok (matcher_rule_start_new m)) as Hnew by (destruct Hm; split; try done; apply Forall_nil_2).
  destruct l; try (by apply step_rule_bytes); destruct tok; try done; try (by apply step_rule_bytes); cbn [step]; try (by apply pending_bytes);
    try (by apply (bytes_kept m)).
  - eapply rules_returns_bind; [apply set_mlvo_bytes; by apply (bytes_kept m)|]. by intros m1 H1.
  - unfold matcher_group_add_element. destruct (m_groups m !! _) as [g|]; [|done]. by apply (bytes_kept m).
  - eapply rules_returns_bind; [by apply Hinclude|]. by intros m1 H1.
  - apply guarded_bytes; [done|by apply set_mlvo_bytes].
  - eapply rules_returns_bind; [by apply end_mapping_bytes|]. by intros m1 H1.
  - apply guarded_bytes; [done|by apply set_header_kccgst_bytes].
  - eapply rules_returns_bind; [by apply end_rule_bytes|]. by intros m1 H1.
  - apply guarded_bytes; [done|by apply set_rule_kccgst_bytes].
Qed.

Lemma matcher_match_bytes fuel : forall l s m, bytes_ok m -> returns (fun r => bytes_ok r.2) (matcher_match include_file fuel l s m).
Proof using Hinclude.
  induction fuel as [|fuel IH]; intros l s m Hm; cbn [matcher_match]; [done|].
  destruct (lex (S (length (scn_rest s))) s) as [[tok s']|f] eqn:El; [|done]. apply lex_chars in El. cbn [result_bind].
  eapply rules_returns_bind; [by apply step_bytes|]. intros [[l'|b] m'] H; cbn in H; [by apply IH|done].
Qed.
End states.

Section files.
Context (find_include find_rules : list Z -> list (option (list Z))).

Lemma try_files_bytes read files : (forall file m, bytes_ok m -> returns (fun r => bytes_ok r.2) (read file m)) ->
  forall m, bytes_ok m -> returns bytes_ok (try_files read files m).
Proof.
  intros Hr. induction files as [|f files IH]; intros m Hm; cbn [try_files]; [done|]. eapply rules_returns_bind; [by apply Hr|]. intros [[] m1] H1; [done|]. by apply IH.
Qed.

Lemma read_file_bytes fuel : forall depth file m, bytes_ok m -> returns (fun r => bytes_ok r.2) (read_rules_file find_include fuel depth file m).
Proof.
  induction fuel as [|fuel IH]; intros depth file m Hm; cbn [read_rules_file]; [done|]. destruct file as [string|]; [|done].
  destruct (scanner_check_supported_char_encoding _); [|done]. eapply rules_returns_bind; [apply matcher_match_bytes; [|done]|].
  - intros inc m1 Hm1. destruct (Nat.leb _ _); [done|]. apply try_files_bytes; [by intros f m2; apply IH|done].
  - intros r H. cbn. by apply (bytes_kept r.2).
Qed.

Lemma read_all_bytes files : forall m, bytes_ok m -> returns (fun r => bytes_ok r.2) (read_all find_include files m).
Proof.
  induction files as [|f files IH]; intros m Hm; cbn [read_all]; [done|]. eapply rules_returns_bind; [by apply read_file_bytes|]. intros [[] m1] H1; [by apply IH|done].
Qed.

Lemma partial_bytes rules suffix m : bytes_ok m -> returns (fun r => bytes_ok r.2) (xkb_resolve_partial_rules find_include find_rules rules suffix m).
Proof. intros Hm. unfold xkb_resolve_partial_rules. destruct (Nat.leb _ _); [done|]. by apply read_all_bytes. Qed.

Definition components_bytes (r : option (xkb_component_names * Z)) : Prop :=
  match r with
  | Some (c, _) => bytes (xc_keycodes c) /\ bytes (xc_types c) /\ bytes (xc_compatibility c) /\ bytes (xc_symbols c) /\ bytes (xc_geometry c)
  | None => True
  end.

Lemma resolve_bytes rules m : bytes_ok m -> returns components_bytes (xkb_resolve_rules find_include find_rules rules m).
Proof.
  intros Hm. unfold xkb_resolve_rules. destruct (find_rules rules) as [|file files]; [done|].
  eapply rules_returns_bind; [by apply partial_bytes|]. intros [[] m1] H1; [|done]. cbn [negb fst snd] in *.
  eapply rules_returns_bind; [by apply read_file_bytes|]. intros [[] m2] H2; [|done]. cbn [negb fst snd] in *.
  eapply rules_returns_bind; [by apply partial_bytes|]. intros [[] m3] H3; [|done]. cbn [negb fst snd] in *.
  destruct (_ || _); [done|]. eapply rules_returns_bind with (P := fun _ => True); [by destruct (explicit_layouts _ _ _)|]. intros n _. cbn.
  repeat split; by apply kccgst_at_bytes.
Qed.

Lemma new_matcher_bytes rn : names_bytes rn -> bytes_ok (new_matcher rn).
Proof. intros H. split; [done|apply Forall_nil_2|apply Forall_nil_2|]. cbn. repeat (apply Forall_cons_2; [apply Forall_nil_2|]). apply Forall_nil_2. Qed.
End files.

(** ** The names that are split *)

Definition text_bytes (s : option (list Z)) : Prop := match s with Some s => bytes s | None => True end.
Definition values_bytes (l : list matched_sval) : Prop := Forall (fun v => bytes (mv_sval v)) l.

Lemma span_value_bytes s : bytes s -> bytes (span_value s).1 /\ bytes (span_value s).2.
Proof.
  intros Hs. induction Hs as [|c s Hc Hs [IH1 IH2]]; cbn [span_value]; [split; apply Forall_nil_2|].
  destruct (_ || _); [split; [apply Forall_nil_2|by apply Forall_cons_2]|]. destruct (span_value s) as [v r]. split; [by apply Forall_cons_2|done].
Qed.

Lemma drop_spaces_bytes s : bytes s -> bytes (drop_spaces s).
Proof. intros Hs. induction Hs as [|c s Hc Hs IH]; cbn [drop_spaces]; [apply Forall_nil_2|]. destruct (is_space c); [done|by apply Forall_cons_2]. Qed.

Lemma strip_spaces_bytes s : bytes s -> bytes (strip_spaces s).
Proof. intros Hs. by apply List.Forall_rev, drop_spaces_bytes, List.Forall_rev, drop_spaces_bytes. Qed.

Lemma skip_to_comma_bytes s : bytes s -> bytes (skip_to_comma s).
Proof. intros Hs. induction Hs as [|c s Hc Hs IH]; cbn [skip_to_comma]; [apply Forall_nil_2|]. destruct (c =? 44); [by apply Forall_cons_2|done]. Qed.

Lemma split_specifier_bytes mlvo s : bytes s -> bytes (split_specifier mlvo s).2.
Proof. intros Hs. unfold split_specifier. destruct (parse_dec_to_uint32_t _ _). destruct (_ >? _); cbn; apply skip_to_comma_bytes; auto with bytes. Qed.

Lemma merge_option_bytes val arr arr' : values_bytes arr -> merge_option val arr = Some arr' -> values_bytes arr'.
Proof.
  intros H. revert arr'. induction H as [|v arr Hv H IH]; intros arr'; cbn [merge_option]; [done|]. destruct (bool_decide _).
  - intros [= <-]. by apply Forall_cons_2.
  - intros (l & Hl & ->)%fmap_Some. apply Forall_cons_2; [done|by apply IH].
Qed.

Lemma add_value_bytes mlvo val arr : values_bytes arr -> bytes (mv_sval val) -> values_bytes (add_value mlvo val arr).
Proof.
  intros Ha Hv. assert (values_bytes (arr ++ [val])) as Happ by (apply list.Forall_app; split; [done|]; by apply Forall_cons_2; [|apply Forall_nil_2]).
  unfold add_value. destruct (_ && _); [done|]. destruct (bool_decide _); [|done].
  destruct (merge_option val arr) as [l|] eqn:E; [by apply (merge_option_bytes val arr)|done].
Qed.

Lemma split_values_bytes mlvo fuel : forall s arr, bytes s -> values_bytes arr -> returns values_bytes (split_values fuel mlvo s arr).
Proof.
  induction fuel as [|fuel IH]; intros s arr Hs Ha; cbn [split_values]; [done|]. destruct (span_value_bytes s Hs) as [H1 H2].
  destruct (span_value s) as [v rest]. cbn in H1, H2.
  set (r := match rest with [] => _ | c :: s' => if c =? OPTIONS_GROUP_SPECIFIER_PREFIX then _ else _ end).
  assert (bytes r.2) as Hr.
  { unfold r. destruct rest as [|c rest]; [done|]. destruct (c =? _); [|done]. apply split_specifier_bytes. by apply list.Forall_cons in H2 as [_ ?]. }
  clearbody r. destruct r as [layouts s']. cbn in Hr.
  assert (values_bytes (add_value mlvo (mk_matched_sval (strip_spaces v) layouts 0) arr)) as Hn by (apply add_value_bytes; [done|by apply strip_spaces_bytes]).
  destruct s' as [|c s']; [exact Hn|]. apply IH; [|done]. destruct (c =? 44); [by apply list.Forall_cons in Hr as [_ ?]|done].
Qed.

Lemma split_bytes mlvo s : text_bytes s -> returns values_bytes (split_comma_separated_mlvo mlvo s).
Proof.
  intros Hs. assert (values_bytes [no_value]) as Hno by (apply Forall_cons_2; apply Forall_nil_2). unfold split_comma_separated_mlvo. destruct s as [s|]; [|done].
  eapply rules_returns_bind; [by apply split_values_bytes; [|apply Forall_nil_2]|]. intros [|v arr] H; done.
Qed.

Lemma resize_bytes layouts variants : values_bytes variants -> values_bytes (resize_variants layouts variants).
Proof. intros H. apply list.Forall_resize; [apply Forall_nil_2|done]. Qed.

Definition names_text_bytes (n : xkb_rule_names) : Prop := text_bytes (xn_model n) /\ text_bytes (xn_layout n) /\ text_bytes (xn_variant n).

Lemma names_matcher_bytes n : names_text_bytes n -> returns bytes_ok (matcher_new_from_names n).
Proof.
  intros (H1 & H2 & H3). unfold matcher_new_from_names. eapply rules_returns_bind; [by apply split_bytes|]. intros layouts Hl.
  eapply rules_returns_bind; [by apply split_bytes|]. intros variants Hv. eapply rules_returns_bind with (P := fun _ => True); [by destruct (split_comma_separated_mlvo _ _)|].
  intros options _. apply new_matcher_bytes. split; [cbn; destruct (xn_model n); [done|apply Forall_nil_2]|]. split; [done|by apply resize_bytes].
Qed.

(** The output from the names of the user. *)
Lemma names_components_bytes find_include find_rules n : names_text_bytes n ->
  returns components_bytes (xkb_components_from_rules_names find_include find_rules n).
Proof.
  intros Hn. unfold xkb_components_from_rules_names. eapply rules_returns_bind; [by apply names_matcher_bytes|]. intros m Hm.
  destruct (xn_rules n); [by apply resolve_bytes|done].
Qed.
