(* ===== verification/Rmlvo.v ===== *)
(** * The names of the user, with their defaults (src/rmlvo.c, src/context-priv.c)

    The builder of names, the names that replace the missing ones, and the
    matcher of the rules made from either.  The environment and the names chosen
    when the library is built are parameters.  Allocations succeed. *)

From Stdlib Require Import ZArith Lia String.
From stdpp Require Import base tactics list numbers.
From S2P Require Import Prelude Numbers Keymap Machine KeysymNames Expr Rules.

(** ** Defaults *)

(** What the context reads: the variables of its environment, whether it uses
    them, and the names of the build. *)
Record rmlvo_context := mk_rmlvo_context {
  rc_getenv : list Z -> option (list Z);
  rc_use_environment_names : bool;
  DEFAULT_XKB_RULES : list Z;
  DEFAULT_XKB_MODEL : list Z;
  DEFAULT_XKB_LAYOUT : list Z;
  DEFAULT_XKB_VARIANT : option (list Z);
  DEFAULT_XKB_OPTIONS : option (list Z)
}.

Definition xkb_context_getenv (c : rmlvo_context) (name : string) : option (list Z) := rc_getenv c (bytes_of name).

Definition default_from (c : rmlvo_context) (name : string) (build : option (list Z)) : option (list Z) :=
  match (if rc_use_environment_names c then xkb_context_getenv c name else None) with
  | Some env => Some env
  | None => build
  end.

Definition xkb_context_get_default_rules (c : rmlvo_context) := default_from c "XKB_DEFAULT_RULES" (Some (DEFAULT_XKB_RULES c)).
Definition xkb_context_get_default_model (c : rmlvo_context) := default_from c "XKB_DEFAULT_MODEL" (Some (DEFAULT_XKB_MODEL c)).
Definition xkb_context_get_default_layout (c : rmlvo_context) := default_from c "XKB_DEFAULT_LAYOUT" (Some (DEFAULT_XKB_LAYOUT c)).
Definition xkb_context_get_default_options (c : rmlvo_context) := default_from c "XKB_DEFAULT_OPTIONS" (DEFAULT_XKB_OPTIONS c).

Definition xkb_context_get_default_variant (c : rmlvo_context) : option (list Z) :=
  match xkb_context_getenv c "XKB_DEFAULT_LAYOUT" with
  | Some _ => default_from c "XKB_DEFAULT_VARIANT" (DEFAULT_XKB_VARIANT c)
  | None => DEFAULT_XKB_VARIANT c
  end.

Definition RMLVO_RULES : Z := 2 ^ 0.
Definition RMLVO_MODEL : Z := 2 ^ 1.
Definition RMLVO_LAYOUT : Z := 2 ^ 2.
Definition RMLVO_VARIANT : Z := 2 ^ 3.
Definition RMLVO_OPTIONS : Z := 2 ^ 4.

Definition isempty (s : option (list Z)) : bool := match s with None | Some [] => true | Some _ => false end.

Definition xn_set_rules v (n : xkb_rule_names) := mk_xkb_rule_names v (xn_model n) (xn_layout n) (xn_variant n) (xn_options n).
Definition xn_set_model v (n : xkb_rule_names) := mk_xkb_rule_names (xn_rules n) v (xn_layout n) (xn_variant n) (xn_options n).
Definition xn_set_layout layout variant (n : xkb_rule_names) := mk_xkb_rule_names (xn_rules n) (xn_model n) layout variant (xn_options n).
Definition xn_set_options v (n : xkb_rule_names) := mk_xkb_rule_names (xn_rules n) (xn_model n) (xn_layout n) (xn_variant n) v.

(** The flags of what changed, and the names. *)
Definition xkb_context_sanitize_rule_names (c : rmlvo_context) (rmlvo : xkb_rule_names) : Z * xkb_rule_names :=
  let modified := 0 in
  let (modified, rmlvo) :=
    if isempty (xn_rules rmlvo) then (Z.lor modified RMLVO_RULES, xn_set_rules (xkb_context_get_default_rules c) rmlvo) else (modified, rmlvo) in
  let (modified, rmlvo) :=
    if isempty (xn_model rmlvo) then (Z.lor modified RMLVO_MODEL, xn_set_model (xkb_context_get_default_model c) rmlvo) else (modified, rmlvo) in
  let (modified, rmlvo) :=
    if isempty (xn_layout rmlvo)
    then (Z.lor (Z.lor modified RMLVO_LAYOUT) RMLVO_VARIANT,
          xn_set_layout (xkb_context_get_default_layout c) (xkb_context_get_default_variant c) rmlvo)
    else (modified, rmlvo) in
  if bool_decide (xn_options rmlvo = None)
  then (Z.lor modified RMLVO_OPTIONS, xn_set_options (xkb_context_get_default_options c) rmlvo) else (modified, rmlvo).

(** ** The builder *)

Record xkb_rmlvo_builder_layout := mk_builder_layout {
  bl_layout : list Z;
  bl_variant : option (list Z)
}.

Record xkb_rmlvo_builder_option := mk_builder_option {
  bo_option : list Z;
  bo_layouts : Z
}.

Record xkb_rmlvo_builder := mk_rmlvo_builder {
  rb_rules : option (list Z);
  rb_model : option (list Z);
  rb_layouts : list xkb_rmlvo_builder_layout;
  rb_options : list xkb_rmlvo_builder_option
}.

Definition rb_set_layouts v (r : xkb_rmlvo_builder) := mk_rmlvo_builder (rb_rules r) (rb_model r) v (rb_options r).
Definition rb_set_options v (r : xkb_rmlvo_builder) := mk_rmlvo_builder (rb_rules r) (rb_model r) (rb_layouts r) v.

(** No flag is supported. *)
Definition xkb_rmlvo_builder_new (rules model : option (list Z)) (flags : Z) : option xkb_rmlvo_builder :=
  if negb (flags =? 0) then None else Some (mk_rmlvo_builder rules model [] []).

Fixpoint merge_builder_option (option_ : list Z) (layouts : Z) (options : list xkb_rmlvo_builder_option)
    : option (list xkb_rmlvo_builder_option) :=
  match options with
  | [] => None
  | prev :: options =>
      if bool_decide (bo_option prev = option_)
      then Some (mk_builder_option (bo_option prev)
        (if layouts =? XKB_OPTION_LAYOUT_MASK_GLOBAL then layouts
         else if negb (bo_layouts prev =? XKB_OPTION_LAYOUT_MASK_GLOBAL) then Z.lor (bo_layouts prev) layouts
         else bo_layouts prev) :: options)
      else cons prev <$> merge_builder_option option_ layouts options
  end.

(** Whether the code is [XKB_SUCCESS]; the other one is [XKB_ERROR_INVALID]. *)
Definition rmlvo_builder_append_option (rmlvo : xkb_rmlvo_builder) (option_ : option (list Z)) (layouts : Z) : bool * xkb_rmlvo_builder :=
  match option_ with
  | None | Some [] => (false, rmlvo)
  | Some o =>
      (true, rb_set_options (default (rb_options rmlvo ++ [mk_builder_option o layouts]) (merge_builder_option o layouts (rb_options rmlvo))) rmlvo)
  end.

Fixpoint append_options (rmlvo : xkb_rmlvo_builder) (options : list (option (list Z))) (layouts : Z) : xkb_rmlvo_builder :=
  match options with
  | [] => rmlvo
  | o :: options => append_options (rmlvo_builder_append_option rmlvo o layouts).2 options layouts
  end.

(** [options] is the array, empty for a null pointer. *)
Definition xkb_rmlvo_builder_append_layout (rmlvo : xkb_rmlvo_builder) (layout variant : option (list Z)) (options : list (option (list Z)))
    : bool * xkb_rmlvo_builder :=
  let idx := Z.of_nat (length (rb_layouts rmlvo)) in
  if idx >=? XKB_MAX_GROUPS then (false, rmlvo)
  else match layout with
       | None => (false, rmlvo)
       | Some layout =>
           (true, append_options (rb_set_layouts (rb_layouts rmlvo ++ [mk_builder_layout layout variant]) rmlvo) options (bit idx))
       end.

Definition xkb_rmlvo_builder_append_option (rmlvo : xkb_rmlvo_builder) (option_ : option (list Z)) : bool * xkb_rmlvo_builder :=
  rmlvo_builder_append_option rmlvo option_ XKB_OPTION_LAYOUT_MASK_GLOBAL.

(** ** The builder as text *)

(** [snprintf] of a text: the room left. *)
Definition print_text (size : Z) (text : list Z) : option Z :=
  let count := Z.of_nat (length text) in if count >=? size then None else Some (size - count).

(** The texts one after the other, with the room left. *)
Fixpoint print_texts (size : Z) (texts : list (list Z)) : option (list Z * Z) :=
  match texts with
  | [] => Some ([], size)
  | t :: texts =>
      match print_text size t with
      | None => None
      | Some size => match print_texts size texts with Some (out, size) => Some (t ++ out, size) | None => None end
      end
  end.

(** With a comma before each but the first one. *)
Definition with_commas (texts : list (list Z)) : list (list Z) :=
  match texts with [] => [] | t :: texts => t :: map (cons 44) texts end.

(** The two texts of an option. *)
Definition option_texts (first : bool) (o : xkb_rmlvo_builder_option) : list (list Z) :=
  ((if first then [] else [44]) ++ bo_option o) ::
  (if negb (bo_layouts o =? XKB_LAYOUT_INVALID) then [OPTIONS_GROUP_SPECIFIER_PREFIX :: dec_str (bo_layouts o)] else []).

Definition options_texts (options : list xkb_rmlvo_builder_option) : list (list Z) :=
  match options with [] => [] | o :: options => option_texts true o ++ flat_map (option_texts false) options end.

Definition xkb_rmlvo_builder_to_rules_names (builder : xkb_rmlvo_builder) (buf_size : Z) : option xkb_rule_names :=
  match print_texts buf_size (with_commas (map bl_layout (rb_layouts builder))) with
  | None => None
  | Some (layout, buf_size) =>
      if buf_size <=? 1 then None else
      match print_texts (buf_size - 1) (with_commas (map (fun l => text_or_empty (bl_variant l)) (rb_layouts builder))) with
      | None => None
      | Some (variant, buf_size) =>
          if buf_size <=? 1 then None else
          match print_texts (buf_size - 1) (options_texts (rb_options builder)) with
          | None => None
          | Some (options, buf_size) =>
              if buf_size =? 0 then None
              else Some (mk_xkb_rule_names (rb_rules builder) (rb_model builder) (Some layout) (Some variant) (Some options))
          end
      end
  end.

(** ** The matcher of the rules *)

(** [sval.start] and [sval.len] of the model are those of two strings. *)
Definition matcher_new_from_rmlvo (c : rmlvo_context) (rmlvo : xkb_rmlvo_builder) : result (option (list Z) * matcher) :=
  let missing {A} (l : list A) : option (list Z) := match l with [] => None | _ => Some (bytes_of "x") end in
  let (changed, names) := xkb_context_sanitize_rule_names c
    (mk_xkb_rule_names (rb_rules rmlvo) (rb_model rmlvo) (missing (rb_layouts rmlvo)) (missing (rb_layouts rmlvo)) (missing (rb_options rmlvo))) in
  let rules := if has_flag changed RMLVO_RULES then xn_rules names else rb_rules rmlvo in
  let start := if has_flag changed RMLVO_MODEL then xn_model names else rb_model rmlvo in
  let model := mk_matched_sval (take (length (text_or_empty (rb_model rmlvo))) (text_or_empty start)) XKB_OPTION_LAYOUT_MASK_GLOBAL 0 in
  if negb (has_flag changed RMLVO_LAYOUT || negb (has_flag changed RMLVO_VARIANT)) then Fault FaultAssert else
  let+ r :=
    if has_flag changed RMLVO_LAYOUT then
      let+ layouts := split_comma_separated_mlvo MLVO_LAYOUT (xn_layout names) in
      let+ variants := split_comma_separated_mlvo MLVO_VARIANT (xn_variant names) in
      Ok (layouts, resize_variants layouts variants)
    else Ok (map (fun l => mk_matched_sval (bl_layout l) XKB_OPTION_LAYOUT_MASK_GLOBAL 0) (rb_layouts rmlvo),
             map (fun l => mk_matched_sval (text_or_empty (bl_variant l)) XKB_OPTION_LAYOUT_MASK_GLOBAL 0) (rb_layouts rmlvo)) in
  let+ options :=
    if has_flag changed RMLVO_OPTIONS then split_comma_separated_mlvo MLVO_OPTION (xn_options names)
    else Ok (map (fun o => mk_matched_sval (bo_option o) (bo_layouts o) 0) (rb_options rmlvo)) in
  Ok (rules, new_matcher (mk_rule_names model r.1 r.2 options)).

Section files.
Context (find_include find_rules : list Z -> list (option (list Z))).

Definition xkb_components_from_rmlvo_builder (c : rmlvo_context) (rmlvo : xkb_rmlvo_builder) : result (option (xkb_component_names * Z)) :=
  let+ r := matcher_new_from_rmlvo c rmlvo in
  match r with
  | (Some rules, m) => xkb_resolve_rules find_include find_rules rules m
  | (None, _) => Fault FaultNull
  end.

(** The names and the components, each if it is asked. *)
Definition xkb_components_names_from_rules (c : rmlvo_context) (rmlvo_in : xkb_rule_names) (want_names want_components : bool)
    : result (bool * option xkb_rule_names * option xkb_component_names) :=
  let rmlvo := (xkb_context_sanitize_rule_names c rmlvo_in).2 in
  let names := if want_names then Some rmlvo else None in
  if negb want_components then Ok (want_names, names, None)
  else let+ r := xkb_components_from_rules_names find_include find_rules rmlvo in
       Ok (match r with Some (out, _) => (true, names, Some out) | None => (false, names, None) end).
End files.

(** ** The buffer of texts of the context *)

(** [sizeof(text_buffer)]. *)
Definition TEXT_BUFFER_SIZE : Z := 2048.

(** The offset of the buffer given, and the next one. *)
Definition xkb_context_get_buffer (text_next size : Z) : option Z * Z :=
  if size >=? TEXT_BUFFER_SIZE then (None, text_next)
  else let text_next := if TEXT_BUFFER_SIZE - text_next <=? size then 0 else text_next in
       (Some text_next, text_next + size).
