(* ===== verification/RmlvoSpec.v ===== *)
(** * The builder of names and the text of names

    What a builder keeps, the names that replace those missing, and the same
    components from a builder as from the text of its names. *)

From Stdlib Require Import ZArith Lia String.
From stdpp Require Import base tactics list numbers.
From S2P Require Import Prelude Numbers Keymap KeysymNames Expr Safe Rules RulesSpec RulesNames Rmlvo.

(** ** What a builder keeps *)

(** The builders of the interface. *)
Inductive builder_reachable : xkb_rmlvo_builder -> Prop :=
| builder_new rules model flags r : xkb_rmlvo_builder_new rules model flags = Some r -> builder_reachable r
| builder_layout r layout variant options : builder_reachable r ->
    builder_reachable (xkb_rmlvo_builder_append_layout r layout variant options).2
| builder_option r option_ : builder_reachable r -> builder_reachable (xkb_rmlvo_builder_append_option r option_).2.

(** At most 32 layouts; the options are named once, and their masks only have
    bits of the layouts. *)
Record builder_ok (r : xkb_rmlvo_builder) : Prop := {
  bk_layouts : Z.of_nat (length (rb_layouts r)) <= XKB_MAX_GROUPS;
  bk_names : NoDup (map bo_option (rb_options r));
  bk_options : Forall (fun o => bo_option o <> [] /\ 0 <= bo_layouts o < 2 ^ Z.of_nat (length (rb_layouts r))) (rb_options r)
}.

Lemma lor_below a b n : 0 <= a < 2 ^ n -> 0 <= b < 2 ^ n -> 0 <= n -> 0 <= Z.lor a b < 2 ^ n.
Proof.
  intros Ha Hb Hn. assert (0 <= Z.lor a b) as H0 by (apply Z.lor_nonneg; lia). split; [done|].
  assert (forall x, 0 <= x < 2 ^ n -> n = 0 \/ Z.log2 x < n) as Hlog.
  { intros x Hx. destruct (Z.eq_dec n 0); [by left|right]. destruct (Z.eq_dec x 0) as [->|]; [cbn; lia|]. apply Z.log2_lt_pow2; lia. }
  destruct (Z.eq_dec n 0) as [->|Hn0]; [assert (a = 0 /\ b = 0) as [-> ->] by (cbn in *; lia); done|].
  destruct (Z.eq_dec (Z.lor a b) 0) as [->|Hz]; [lia|]. apply Z.log2_lt_pow2; [lia|]. rewrite Z.log2_lor by lia.
  destruct (Hlog a Ha), (Hlog b Hb); lia.
Qed.

Lemma merge_builder_names o m l l' : merge_builder_option o m l = Some l' -> map bo_option l' = map bo_option l.
Proof.
  revert l'. induction l as [|p l IH]; intros l'; cbn [merge_builder_option]; [done|]. destruct (bool_decide _); [by intros [= <-]|].
  intros (l1 & Hl & ->)%fmap_Some. cbn. by rewrite (IH _ Hl).
Qed.

Lemma merge_builder_None o m l : merge_builder_option o m l = None -> o ∉ map bo_option l.
Proof.
  induction l as [|p l IH]; cbn [merge_builder_option map]; [intros _; apply not_elem_of_nil|].
  destruct (bool_decide_reflect (bo_option p = o)) as [|Hne]; [done|]. intros H%fmap_None. apply list.not_elem_of_cons. split; [done|by apply IH].
Qed.

Lemma merge_builder_masks o m l l' (P : Z -> Prop) : P m -> (forall a b, P a -> P b -> P (Z.lor a b)) ->
  Forall (fun p => bo_option p <> [] /\ P (bo_layouts p)) l -> merge_builder_option o m l = Some l' ->
  Forall (fun p => bo_option p <> [] /\ P (bo_layouts p)) l'.
Proof.
  intros Hm Hor. revert l'. induction l as [|p l IH]; intros l' Hl; cbn [merge_builder_option]; [done|]. apply list.Forall_cons in Hl as [[Hn Hp] Hl].
  destruct (bool_decide _).
  - intros [= <-]. apply Forall_cons_2; [|done]. split; [done|]. cbn. destruct (m =? _); [done|]. destruct (negb _); [by apply Hor|done].
  - intros (l1 & Hl1 & ->)%fmap_Some. apply Forall_cons_2; [done|]. by apply IH.
Qed.

Lemma append_option_ok r o mask : builder_ok r -> 0 <= mask < 2 ^ Z.of_nat (length (rb_layouts r)) ->
  builder_ok (rmlvo_builder_append_option r o mask).2 /\ rb_layouts (rmlvo_builder_append_option r o mask).2 = rb_layouts r.
Proof.
  intros [H1 H2 H3] Hm. unfold rmlvo_builder_append_option. destruct o as [[|c o]|]; [by split|cbn [snd]|by split].
  split; [|done]. destruct (merge_builder_option (c :: o) mask (rb_options r)) as [l|] eqn:E; cbn [default]; split; cbn; try done.
  - by rewrite (merge_builder_names _ _ _ _ E).
  - eapply (merge_builder_masks (c :: o) mask (rb_options r) l (fun m => 0 <= m < 2 ^ Z.of_nat (length (rb_layouts r)))); try done.
    intros a b Ha Hb. apply lor_below; lia.
  - apply merge_builder_None in E. rewrite map_app. by apply full_elem.
  - apply list.Forall_app. split; [done|]. apply Forall_cons_2; [done|apply Forall_nil_2].
Qed.

Lemma append_options_ok options mask : forall r, builder_ok r -> 0 <= mask < 2 ^ Z.of_nat (length (rb_layouts r)) ->
  builder_ok (append_options r options mask).
Proof.
  induction options as [|o options IH]; intros r Hr Hm; cbn [append_options]; [done|].
  destruct (append_option_ok r o mask Hr Hm) as [H1 H2]. apply IH; [done|by rewrite H2].
Qed.

Lemma append_layout_ok r layout variant options : builder_ok r -> builder_ok (xkb_rmlvo_builder_append_layout r layout variant options).2.
Proof.
  intros Hr. pose proof Hr as [H1 H2 H3]. unfold xkb_rmlvo_builder_append_layout. destruct (_ >=? _) eqn:Hf; [done|]. destruct layout as [layout|]; [|done].
  rewrite Z.geb_leb in Hf. apply Z.leb_gt in Hf. cbn [snd]. set (n := Z.of_nat (length (rb_layouts r))) in *.
  assert (Z.of_nat (length (rb_layouts r ++ [mk_builder_layout layout variant])) = n + 1) as Hn by (rewrite length_app; cbn; lia).
  apply append_options_ok; cbn; [split; cbn|]; rewrite ?Hn.
  - lia.
  - done.
  - refine (list.Forall_impl _ _ _ H3 _). intros o [Ho Hl]. split; [done|]. rewrite Z.pow_add_r by lia. lia.
  - unfold bit. rewrite Z.shiftl_1_l, Z.pow_add_r by lia. split; [apply Z.pow_nonneg; lia|]. assert (0 < 2 ^ n) by (apply Z.pow_pos_nonneg; lia). lia.
Qed.

(** C26. Whatever the calls on a builder: it has at most 32 layouts, names each
    option once, none empty, and the mask of an option, 0 for all layouts, only
    has bits of the layouts that it has. *)
Theorem rmlvo_builder_ok r : builder_reachable r -> builder_ok r.
Proof.
  induction 1 as [rules model flags r H|r layout variant options _ IH|r o _ IH].
  - unfold xkb_rmlvo_builder_new in H. destruct (negb _); [done|]. injection H as <-. split; cbn; [unfold XKB_MAX_GROUPS; lia|apply NoDup_nil_2|apply Forall_nil_2].
  - by apply append_layout_ok.
  - apply append_option_ok; [done|]. split; [done|]. cbn. apply Z.pow_pos_nonneg; lia.
Qed.

(** ** A builder and the text of its names *)

Record layout_spec := mk_layout_spec {
  ls_layout : list Z;
  ls_variant : list Z;
  ls_options : list (list Z)
}.

Definition append_spec (r : xkb_rmlvo_builder) (l : layout_spec) : xkb_rmlvo_builder :=
  (xkb_rmlvo_builder_append_layout r (Some (ls_layout l)) (Some (ls_variant l)) (map Some (ls_options l))).2.

(** The calls for the layouts with their options, then those for all layouts. *)
Definition build (rules model : list Z) (layouts : list layout_spec) (options : list (list Z)) : xkb_rmlvo_builder :=
  foldl (fun r o => (xkb_rmlvo_builder_append_option r (Some o)).2)
    (foldl append_spec (mk_rmlvo_builder (Some rules) (Some model) [] []) layouts) options.

Fixpoint option_names (i : Z) (layouts : list layout_spec) : list named :=
  match layouts with
  | [] => []
  | l :: layouts => map (fun o => mk_named o (Some (i + 1))) (ls_options l) ++ option_names (i + 1) layouts
  end.

Definition all_option_names (layouts : list layout_spec) (options : list (list Z)) : list named :=
  option_names 0 layouts ++ map (fun o => mk_named o None) options.

(** The same names as a text. *)
Definition text_names (rules model : list Z) (layouts : list layout_spec) (options : list (list Z)) : xkb_rule_names :=
  mk_xkb_rule_names (Some rules) (Some model) (Some (join_names (map (fun l => mk_named (ls_layout l) None) layouts)))
    (Some (join_names (map (fun l => mk_named (ls_variant l) None) layouts))) (Some (join_names (all_option_names layouts options))).

Definition option_value (o : xkb_rmlvo_builder_option) : matched_sval := mk_matched_sval (bo_option o) (bo_layouts o) 0.
Definition option_values (r : xkb_rmlvo_builder) : list matched_sval := map option_value (rb_options r).

Lemma merge_same o mask l :
  merge_option (mk_matched_sval o mask 0) (map option_value l) = map option_value <$> merge_builder_option o mask l.
Proof.
  induction l as [|p l IH]; cbn [merge_option merge_builder_option map]; [done|]. cbn [mv_sval option_value].
  destruct (bool_decide _); [done|]. rewrite IH. by destruct (merge_builder_option o mask l).
Qed.

Lemma append_option_values r o mask : o <> [] ->
  option_values (rmlvo_builder_append_option r (Some o) mask).2 = add_value MLVO_OPTION (mk_matched_sval o mask 0) (option_values r).
Proof.
  intros Ho. unfold option_values, add_value. cbn [mv_sval]. rewrite (bool_decide_eq_false_2 (o = [])), (bool_decide_eq_true_2 (MLVO_OPTION = MLVO_OPTION)) by done.
  cbn [andb]. rewrite merge_same. destruct o as [|c o]; [done|]. cbn [rmlvo_builder_append_option snd rb_options rb_set_options].
  destruct (merge_builder_option _ _ _); cbn; [done|]. by rewrite map_app.
Qed.

Lemma append_option_layouts r o mask : rb_layouts (rmlvo_builder_append_option r o mask).2 = rb_layouts r /\
  rb_rules (rmlvo_builder_append_option r o mask).2 = rb_rules r /\ rb_model (rmlvo_builder_append_option r o mask).2 = rb_model r.
Proof. unfold rmlvo_builder_append_option. by destruct o as [[]|]. Qed.

(** What differs is the options. *)
Definition same_builder (r r' : xkb_rmlvo_builder) : Prop :=
  rb_layouts r' = rb_layouts r /\ rb_rules r' = rb_rules r /\ rb_model r' = rb_model r.

Lemma add_names_cons mlvo e es arr : add_names mlvo (e :: es) arr = add_names mlvo es (add_value mlvo (name_value e) arr).
Proof. done. Qed.

Lemma append_options_values options i : forall r, Forall (fun o => o <> []) options ->
  same_builder r (append_options r (map Some options) (bit i)) /\
  option_values (append_options r (map Some options) (bit i)) =
    add_names MLVO_OPTION (map (fun o => mk_named o (Some (i + 1))) options) (option_values r).
Proof.
  induction options as [|o options IH]; intros r Ho; cbn [map append_options]; [done|]. apply list.Forall_cons in Ho as [Ho Hos].
  destruct (IH (rmlvo_builder_append_option r (Some o) (bit i)).2 Hos) as [(H1 & H2 & H3) H4].
  destruct (append_option_layouts r (Some o) (bit i)) as (L1 & L2 & L3). split; [split; [congruence|]; split; congruence|].
  rewrite H4, append_option_values, add_names_cons by done. unfold name_value. cbn [nd_name nd_layout]. by rewrite Z.add_simpl_r.
Qed.

Lemma append_global_values options : forall r, Forall (fun o => o <> []) options ->
  let r' := foldl (fun r o => (xkb_rmlvo_builder_append_option r (Some o)).2) r options in
  same_builder r r' /\ option_values r' = add_names MLVO_OPTION (map (fun o => mk_named o None) options) (option_values r).
Proof.
  induction options as [|o options IH]; intros r Ho; cbn [map foldl]; [done|]. apply list.Forall_cons in Ho as [Ho Hos].
  destruct (IH (xkb_rmlvo_builder_append_option r (Some o)).2 Hos) as [(H1 & H2 & H3) H4].
  assert (same_builder r (xkb_rmlvo_builder_append_option r (Some o)).2) as (L1 & L2 & L3) by apply append_option_layouts. split; [split; [congruence|]; split; congruence|].
  rewrite H4, add_names_cons. unfold xkb_rmlvo_builder_append_option. by rewrite append_option_values by done.
Qed.

Definition spec_layout (l : layout_spec) : xkb_rmlvo_builder_layout := mk_builder_layout (ls_layout l) (Some (ls_variant l)).

Lemma add_names_app mlvo es es' arr : add_names mlvo (es ++ es') arr = add_names mlvo es' (add_names mlvo es arr).
Proof. apply foldl_app. Qed.

Lemma append_specs_values layouts : forall r, Forall (fun l => Forall (fun o => o <> []) (ls_options l)) layouts ->
  Z.of_nat (length (rb_layouts r) + length layouts) <= XKB_MAX_GROUPS ->
  let r' := foldl append_spec r layouts in
  rb_layouts r' = rb_layouts r ++ map spec_layout layouts /\ rb_rules r' = rb_rules r /\ rb_model r' = rb_model r /\
  option_values r' = add_names MLVO_OPTION (option_names (Z.of_nat (length (rb_layouts r))) layouts) (option_values r).
Proof.
  induction layouts as [|l layouts IH]; intros r Ho Hl; cbn [foldl map option_names]; [by rewrite app_nil_r|].
  apply list.Forall_cons in Ho as [Ho Hos]. cbn [length] in Hl.
  unfold append_spec at 2 4 6 8. unfold xkb_rmlvo_builder_append_layout. rewrite Z.geb_leb, (proj2 (Z.leb_gt _ _)) by lia. cbn [snd].
  set (r1 := rb_set_layouts (rb_layouts r ++ [mk_builder_layout (ls_layout l) (Some (ls_variant l))]) r). set (n := Z.of_nat (length (rb_layouts r))) in *.
  destruct (append_options_values (ls_options l) n r1 Ho) as [(H1 & H2 & H3) H4].
  assert (length (rb_layouts r1) = S (length (rb_layouts r))) as Hn by (cbn; rewrite length_app; cbn; lia).
  destruct (IH (append_options r1 (map Some (ls_options l)) (bit n)) Hos) as (K1 & K2 & K3 & K4); [rewrite H1, Hn; lia|].
  split; [rewrite K1, H1; cbn; by rewrite <- app_assoc|]. split; [by rewrite K2, H2|]. split; [by rewrite K3, H3|].
  rewrite K4, H4, H1, Hn, add_names_app. do 2 f_equal. lia.
Qed.

Lemma add_names_nonempty es arr : Forall (name_ok MLVO_OPTION) es -> es <> [] \/ arr <> [] -> add_names MLVO_OPTION es arr <> [].
Proof.
  intros H. revert arr. induction H as [|e es He _ IH]; intros arr Hne; [by destruct Hne|].
  change (add_names MLVO_OPTION es (add_value MLVO_OPTION (name_value e) arr) <> []). apply IH. right. unfold add_value.
  rewrite (bool_decide_eq_false_2 (mv_sval _ = [])) by (by apply He). cbn [andb]. rewrite bool_decide_eq_true_2 by done.
  destruct (merge_option _ arr) as [arr'|] eqn:E; [|by destruct arr]. change (arr' <> []). intros ->. destruct arr; cbn in E; [done|].
  destruct (bool_decide _); [done|]. by destruct (merge_option _ arr).
Qed.

Lemma sanitize_complete c rules model layout variant options : rules <> [] -> model <> [] -> layout <> [] ->
  xkb_context_sanitize_rule_names c (mk_xkb_rule_names (Some rules) (Some model) (Some layout) variant (Some options)) =
  (0, mk_xkb_rule_names (Some rules) (Some model) (Some layout) variant (Some options)).
Proof. by destruct rules, model, layout. Qed.

(** The names that the text of the names can express. *)
Record spec_ok (layouts : list layout_spec) (options : list (list Z)) : Prop := {
  sp_length : (0 < length layouts <= 32)%nat;
  sp_layouts : Forall (name_ok MLVO_LAYOUT) (map (fun l => mk_named (ls_layout l) None) layouts);
  sp_variants : Forall (name_ok MLVO_VARIANT) (map (fun l => mk_named (ls_variant l) None) layouts);
  sp_options : Forall (name_ok MLVO_OPTION) (all_option_names layouts options);
  sp_some : all_option_names layouts options <> []
}.

Lemma option_names_nonempty layouts i : Forall (name_ok MLVO_OPTION) (option_names i layouts) ->
  Forall (fun l => Forall (fun o => o <> []) (ls_options l)) layouts.
Proof.
  revert i. induction layouts as [|l layouts IH]; intros i H; [apply Forall_nil_2|]. cbn [option_names] in H. apply list.Forall_app in H as [H1 H2].
  apply Forall_cons_2; [|by apply (IH (i + 1))]. clear -H1. induction (ls_options l) as [|o os IHo]; [apply Forall_nil_2|].
  cbn [map] in H1. apply list.Forall_cons in H1 as [Ho Hos]. apply Forall_cons_2; [by apply Ho|by apply IHo].
Qed.

Lemma build_values rules model layouts options : spec_ok layouts options ->
  let r := build rules model layouts options in
  rb_rules r = Some rules /\ rb_model r = Some model /\ rb_layouts r = map spec_layout layouts /\
  option_values r = add_names MLVO_OPTION (all_option_names layouts options) [].
Proof.
  intros [Hl _ _ Ho _]. apply list.Forall_app in Ho as [Ho1 Ho2]. unfold build.
  assert (Forall (fun o => o <> []) options) as Hg.
  { clear -Ho2. induction options as [|o os IH]; [apply Forall_nil_2|]. cbn [map] in Ho2. apply list.Forall_cons in Ho2 as [Ho Hos].
    apply Forall_cons_2; [by apply Ho|by apply IH]. }
  destruct (append_specs_values layouts (mk_rmlvo_builder (Some rules) (Some model) [] []) (option_names_nonempty _ _ Ho1)) as (H1 & H2 & H3 & H4).
  { cbn. unfold XKB_MAX_GROUPS. lia. }
  destruct (append_global_values options (foldl append_spec (mk_rmlvo_builder (Some rules) (Some model) [] []) layouts) Hg) as [(K1 & K2 & K3) K4].
  cbv zeta. rewrite K1, K2, K3, K4, H1, H2, H3, H4. repeat (split; [done|]). unfold all_option_names. by rewrite add_names_app.
Qed.

(** The matcher of the text. *)
Definition spec_names (model : list Z) (layouts : list layout_spec) (options : list (list Z)) : rule_names :=
  mk_rule_names (mk_matched_sval model XKB_OPTION_LAYOUT_MASK_GLOBAL 0)
    (map (fun l => mk_matched_sval (ls_layout l) XKB_OPTION_LAYOUT_MASK_GLOBAL 0) layouts)
    (map (fun l => mk_matched_sval (ls_variant l) XKB_OPTION_LAYOUT_MASK_GLOBAL 0) layouts)
    (add_names MLVO_OPTION (all_option_names layouts options) []).

Lemma split_layouts mlvo (f : layout_spec -> list Z) layouts : mlvo <> MLVO_OPTION -> layouts <> [] ->
  Forall (name_ok mlvo) (map (fun l => mk_named (f l) None) layouts) ->
  split_comma_separated_mlvo mlvo (Some (join_names (map (fun l => mk_named (f l) None) layouts))) =
  Ok (map (fun l => mk_matched_sval (f l) XKB_OPTION_LAYOUT_MASK_GLOBAL 0) layouts).
Proof.
  intros Hm Hne H. assert (map (fun l => mk_named (f l) None) layouts <> []) as Hne' by by destruct layouts.
  rewrite split_join, add_names_new by done. cbn [app]. rewrite List.map_map. by destruct layouts.
Qed.

Lemma text_matcher rules model layouts options : spec_ok layouts options ->
  matcher_new_from_names (text_names rules model layouts options) = Ok (new_matcher (spec_names model layouts options)).
Proof.
  intros [Hl Hla Hva Hop Hsome]. assert (layouts <> []) as Hne by (intros ->; cbn in Hl; lia). unfold matcher_new_from_names, text_names.
  cbn [xn_layout xn_variant xn_options xn_model]. rewrite (split_layouts MLVO_LAYOUT ls_layout), (split_layouts MLVO_VARIANT ls_variant), split_join by done.
  cbn [result_bind]. unfold resize_variants. rewrite resize_all_alt by by rewrite !length_map.
  pose proof (add_names_nonempty _ [] Hop ltac:(by left)) as Hn. unfold spec_names. by destruct (add_names _ _ _).
Qed.

Lemma builder_matcher c rules model layouts options : rules <> [] -> model <> [] -> spec_ok layouts options ->
  matcher_new_from_rmlvo c (build rules model layouts options) = Ok (Some rules, new_matcher (spec_names model layouts options)).
Proof.
  intros Hr Hm Hs. destruct (build_values rules model layouts options Hs) as (H1 & H2 & H3 & H4). pose proof Hs as [Hl _ _ Hop Hsome].
  pose proof (add_names_nonempty _ [] Hop ltac:(by left)) as Hn. unfold matcher_new_from_rmlvo. rewrite H1, H2, H3.
  assert (rb_options (build rules model layouts options) <> []) as Hro by (intros E; unfold option_values in H4; rewrite E in H4; by rewrite <- H4 in Hn).
  assert (map spec_layout layouts <> []) as Hlo by (destruct layouts; [cbn in Hl; lia|done]).
  destruct (map spec_layout layouts) as [|l0 ls] eqn:El; [done|]. destruct (rb_options _) as [|o0 os] eqn:Eo; [done|].
  rewrite sanitize_complete by done. cbn [has_flag]. rewrite <- El, <- Eo. change (has_flag 0 _) with false. cbn [orb negb result_bind text_or_empty default].
  rewrite firstn_all. do 3 f_equal. unfold spec_names. unfold option_values in H4. rewrite <- H4. rewrite !List.map_map. done.
Qed.

Section files.
Context (find_include find_rules : list Z -> list (option (list Z))).

End files.

(** ** The names that replace those missing *)

Ltac projections :=
  cbn [fst snd xn_set_rules xn_set_model xn_set_layout xn_set_options xn_rules xn_model xn_layout xn_variant xn_options].

(** What changed, and the new names: the layout and the variant together; the
    options may be empty. *)
Lemma sanitize_spec c n :
  let r := xkb_context_sanitize_rule_names c n in
  has_flag r.1 RMLVO_RULES = isempty (xn_rules n) /\ has_flag r.1 RMLVO_MODEL = isempty (xn_model n) /\
  has_flag r.1 RMLVO_LAYOUT = isempty (xn_layout n) /\ has_flag r.1 RMLVO_VARIANT = isempty (xn_layout n) /\
  has_flag r.1 RMLVO_OPTIONS = bool_decide (xn_options n = None) /\
  r.2 = mk_xkb_rule_names
    (if isempty (xn_rules n) then xkb_context_get_default_rules c else xn_rules n)
    (if isempty (xn_model n) then xkb_context_get_default_model c else xn_model n)
    (if isempty (xn_layout n) then xkb_context_get_default_layout c else xn_layout n)
    (if isempty (xn_layout n) then xkb_context_get_default_variant c else xn_variant n)
    (if bool_decide (xn_options n = None) then xkb_context_get_default_options c else xn_options n).
Proof.
  destruct n as [rules model layout variant options]. unfold xkb_context_sanitize_rule_names. cbn [xn_rules xn_model xn_layout xn_variant xn_options].
  destruct (isempty rules); projections; destruct (isempty model); projections; destruct (isempty layout); projections;
    destruct (bool_decide (options = None)); projections; done.
Qed.

Lemma default_rules_some c : exists rules, xkb_context_get_default_rules c = Some rules.
Proof. unfold xkb_context_get_default_rules, default_from. destruct (if rc_use_environment_names c then _ else _); by eexists. Qed.

(** Whatever the builder: the matcher has as many variants as layouts, and at
    least one of each and of the options. *)
Lemma builder_names_ok c r : exists rules m, matcher_new_from_rmlvo c r = Ok (Some rules, m) /\ names_ok (m_rmlvo m) /\ m_groups m = [] /\
  (isempty (rb_model r) = true -> mv_sval (rn_model (m_rmlvo m)) = []).
Proof.
  unfold matcher_new_from_rmlvo. set (names := mk_xkb_rule_names _ _ _ _ _). pose proof (sanitize_spec c names) as H.
  destruct (xkb_context_sanitize_rule_names c names) as [changed names']. cbn [fst snd] in H. destruct H as (H1 & H2 & H3 & H4 & H5 & ->).
  rewrite H1, H3, H4, H5. cbn [xn_rules xn_model xn_layout xn_variant xn_options names]. rewrite orb_negb_r. cbn [negb].
  assert (exists rules, (if isempty (rb_rules r) then if isempty (rb_rules r) then xkb_context_get_default_rules c else rb_rules r else rb_rules r) = Some rules) as [rules ->].
  { destruct (rb_rules r) as [[|z l]|]; [apply default_rules_some|by eexists|apply default_rules_some]. }
  assert (forall o : result (list matched_sval), (exists options, o = Ok options /\ options <> []) -> forall layouts variants model,
    layouts <> [] -> length variants = length layouts -> (isempty (rb_model r) = true -> mv_sval model = []) ->
    exists rules' m, (let+ options := o in Ok (Some rules, new_matcher (mk_rule_names model layouts variants options))) = Ok (Some rules', m) /\
      names_ok (m_rmlvo m) /\ m_groups m = [] /\ (isempty (rb_model r) = true -> mv_sval (rn_model (m_rmlvo m)) = [])) as Hfin.
  { intros o (options & -> & Ho) layouts variants model Hl Hv Hm. eexists _, _. split; [reflexivity|]. split; [by split|done]. }
  set (options := if bool_decide _ then _ else Ok (map _ (rb_options r))).
  assert (exists l, options = Ok l /\ l <> []) as Ho.
  { unfold options. destruct (rb_options r) as [|o os]; cbn; [apply split_ok|by eexists]. }
  set (model := mk_matched_sval _ _ _). assert (isempty (rb_model r) = true -> mv_sval model = []) as Hm.
  { unfold model. destruct (rb_model r) as [[|z l]|]; done. }
  destruct (rb_layouts r) as [|l ls] eqn:El; cbn [isempty].
  - destruct (split_ok MLVO_LAYOUT (xkb_context_get_default_layout c)) as (layouts & -> & Hl).
    destruct (split_ok MLVO_VARIANT (xkb_context_get_default_variant c)) as (variants & -> & Hv). cbn [result_bind].
    apply Hfin; try done. cbn. apply length_resize.
  - change (isempty (Some (bytes_of "x"))) with false. cbn [result_bind]. apply Hfin; try done. cbn. by rewrite !length_map.
Qed.

(** The components of a builder, within the same faults as those of names. *)
Lemma builder_components_within find_include find_rules c r :
  within (rules_fault false) components_ok (xkb_components_from_rmlvo_builder find_include find_rules c r).
Proof.
  unfold xkb_components_from_rmlvo_builder. destruct (builder_names_ok c r) as (rules & m & -> & Hn & Hg & _). cbn [result_bind].
  apply resolve_rules_ok; done.
Qed.

(** The default model that replaces a missing one is empty: its length is that
    of the model of the builder. *)
Theorem default_model_lost c r : isempty (rb_model r) = true ->
  exists rules m, matcher_new_from_rmlvo c r = Ok (rules, m) /\ mv_sval (rn_model (m_rmlvo m)) = [].
Proof. intros Hm. destruct (builder_names_ok c r) as (rules & m & H & _ & _ & H2). eexists _, _. split; [exact H|auto]. Qed.

(** An option for the third layout, read again from the text of the names, is
    for the fourth one, and an option for all layouts has a layout 0. *)
Example layouts_reread :
  let r := build (bytes_of "evdev") (bytes_of "pc105") [mk_layout_spec (bytes_of "us") [] []; mk_layout_spec (bytes_of "de") [] [];
             mk_layout_spec (bytes_of "fr") [] [bytes_of "a:b"]] [bytes_of "c:d"] in
  option_values r = [mk_matched_sval (bytes_of "a:b") 4 0; mk_matched_sval (bytes_of "c:d") 0 0] /\
  match xkb_rmlvo_builder_to_rules_names r 2047 with
  | Some names => xn_options names = Some (bytes_of "a:b!4,c:d!0") /\
      split_comma_separated_mlvo MLVO_OPTION (xn_options names) = Ok [mk_matched_sval (bytes_of "a:b") 8 0; mk_matched_sval (bytes_of "c:d") 0 0]
  | None => False
  end.
Proof. by vm_compute. Qed.

(** ** The buffer of texts *)

(** The buffer given is in the array, and the whole array is never given. *)
Lemma get_buffer_ok text_next size : 0 <= text_next <= TEXT_BUFFER_SIZE -> 0 <= size ->
  let r := xkb_context_get_buffer text_next size in
  0 <= r.2 <= TEXT_BUFFER_SIZE /\ match r.1 with Some p => 0 <= p /\ p + size <= TEXT_BUFFER_SIZE /\ size < TEXT_BUFFER_SIZE | None => TEXT_BUFFER_SIZE <= size end.
Proof.
  intros Hn Hs. unfold xkb_context_get_buffer. rewrite Z.geb_leb. destruct (Z.leb_spec TEXT_BUFFER_SIZE size); cbn; [lia|].
  destruct (Z.leb_spec (TEXT_BUFFER_SIZE - text_next) size); cbn; lia.
Qed.

(** ** Samples *)

Definition sample_layouts : list layout_spec :=
  [mk_layout_spec (bytes_of "us") [] [bytes_of "a:b"]; mk_layout_spec (bytes_of "fr") (bytes_of "bepo") [bytes_of "a:b"; bytes_of "c:d"]].

Definition sample_find (rules : list Z) : list (option (list Z)) := if bool_decide (rules = bytes_of "evdev") then [Some sample_rules] else [].

Lemma sample_layouts_ok : spec_ok sample_layouts [bytes_of "e:f"].
Proof.
  assert (forall mlvo l, forallb (fun e => forallb (fun c => negb (c =? 44) && negb (c =? OPTIONS_GROUP_SPECIFIER_PREFIX)) (nd_name e) &&
    bool_decide (strip_spaces (nd_name e) = nd_name e) &&
    match nd_layout e with Some l => bool_decide (mlvo = MLVO_OPTION) && (1 <=? l) && (l <=? XKB_MAX_GROUPS) | None => true end &&
    (negb (bool_decide (mlvo = MLVO_OPTION)) || negb (bool_decide (nd_name e = [])))) l = true -> Forall (name_ok mlvo) l) as Hcheck.
  { intros mlvo l H. apply list.Forall_forall. intros e He. rewrite forallb_forall in H. specialize (H e (proj1 (list_elem_of_In _ _) He)).
    apply andb_true_iff in H as [[[H1 H2]%andb_true_iff H3]%andb_true_iff H4]. split.
    - apply list.Forall_forall. intros c Hc. rewrite forallb_forall in H1. specialize (H1 c (proj1 (list_elem_of_In _ _) Hc)).
      apply andb_true_iff in H1 as [A1%negb_true_iff A2%negb_true_iff]. by apply Z.eqb_neq in A1, A2.
    - by apply bool_decide_eq_true in H2.
    - destruct (nd_layout e); [|done]. apply andb_true_iff in H3 as [[A1 A2]%andb_true_iff A3]. apply bool_decide_eq_true in A1. split; [done|lia].
    - intros ->. apply orb_true_iff in H4 as [H4|H4]; [done|]. by apply negb_true_iff, bool_decide_eq_false in H4. }
  split; [cbn; lia|apply Hcheck; reflexivity|apply Hcheck; reflexivity|apply Hcheck; reflexivity|discriminate].
Qed.


Lemma rmlvo_builder_ok_witness :
  builder_ok (xkb_rmlvo_builder_append_layout (mk_rmlvo_builder None None [] []) (Some (bytes_of "us")) None [Some (bytes_of "a:b"); None; Some (bytes_of "a:b")]).2.
Proof. apply rmlvo_builder_ok, builder_layout. apply (builder_new None None 0). reflexivity. Defined.
