(* ===== verification/KeymapNew.v ===== *)
(** * A keymap from its sources (src/xkbcomp/xkbcomp.c, src/keymap.c)

    The components that the rules give, as include statements
    (src/xkbcomp/include.c, src/xkbcomp/ast-build.c), and the creation of a
    keymap from names or from a builder.  What the parser makes of the included
    files is a parameter. *)

From Stdlib Require Import ZArith Lia String.
From stdpp Require Import base tactics list numbers.
From S2P Require Import Prelude Numbers Atom Keymap KeysymName Expr Vmod Derived Sections CompileKeymap Rules Rmlvo.

(** ** Include statements *)

(** Before the first character of the class, that character and what follows. *)
Fixpoint split_at (f : Z -> bool) (s : list Z) : list Z * option (Z * list Z) :=
  match s with
  | [] => ([], None)
  | c :: s => if f c then ([], Some (c, s)) else let (a, b) := split_at f s in (c :: a, b)
  end.

Record include_map := mk_include_map {
  im_file : list Z;
  im_map : option (list Z);
  im_nextop : option Z;
  im_extra : option (list Z);
  im_rest : option (list Z)
}.

(** The file and the map, [None] for an illegal string. *)
Definition parse_file_map (str : list Z) : option (list Z * option (list Z)) :=
  match split_at (Z.eqb 40) str with
  | (file, None) => Some (file, None)
  | ([], Some _) => None
  | (file, Some (_, str)) =>
      match split_at (Z.eqb 41) str with
      | (map, Some (_, [])) => Some (file, Some map)
      | _ => None
      end
  end.

Definition ParseIncludeMap (str : list Z) : option include_map :=
  let (item, next) := split_at is_merge_mode_prefix str in
  let (str, extra) := split_at (Z.eqb 58) item in
  match parse_file_map str with
  | None => None
  | Some (file, map) => Some (mk_include_map file map (fst <$> next) (snd <$> extra) (snd <$> next))
  end.

(** The merge mode of the file after an operator. *)
Definition next_merge (nextop : option Z) : merge_mode :=
  match nextop with
  | Some c => if c =? 124 then MERGE_AUGMENT else if c =? 94 then MERGE_REPLACE else MERGE_OVERRIDE
  | None => MERGE_OVERRIDE
  end.

(** The files of the statement; [None] for an error. *)
Fixpoint include_items (fuel : nat) (str : option (list Z)) (merge : merge_mode) : result (option (list include_item)) :=
  match fuel with
  | O => Fault FaultFuel
  | S fuel =>
      match str with
      | None | Some [] => Ok (Some [])
      | Some s =>
          match ParseIncludeMap s with
          | None => Ok None
          | Some im =>
              match im_file im with
              | [] => include_items fuel (im_rest im) merge
              | file =>
                  let! items := include_items fuel (im_rest im) (next_merge (im_nextop im)) in
                  Ok (Some (mk_include merge None file (im_map im) (im_extra im) :: items))
              end
          end
      end
  end.

(** The statement is kept in the first file; no file is a null pointer too. *)
Definition IncludeCreate (str : list Z) (merge : merge_mode) : result (option IncludeStmt) :=
  let! items := include_items (S (length str)) (Some str) merge in
  Ok (match items with
      | [] => None
      | first :: next =>
          Some (mk_include_stmt (mk_include (inc_merge first) (Some str) (inc_file first) (inc_map first) (inc_modifier first)) next)
      end).

Definition component_file (type : xkb_file_type) (component : list Z) : result (option XkbFile) :=
  let! include := IncludeCreate component MERGE_DEFAULT in
  Ok (Some (mk_file None [STMT_INCLUDE include] type 0)).

(** The sections of the keymap file. *)
Definition XkbFileFromComponents (kkctgs : xkb_component_names) : result (option (list XkbFile)) :=
  let! keycodes := component_file FILE_TYPE_KEYCODES (xc_keycodes kkctgs) in
  let! types := component_file FILE_TYPE_TYPES (xc_types kkctgs) in
  let! compat := component_file FILE_TYPE_COMPAT (xc_compatibility kkctgs) in
  let! symbols := component_file FILE_TYPE_SYMBOLS (xc_symbols kkctgs) in
  Ok (Some [keycodes; types; compat; symbols]).

(** ** Keymaps *)

(** A parsed file: its type and its sections. *)
Record parsed_file := mk_parsed_file {
  pf_file_type : xkb_file_type;
  pf_sections : list XkbFile
}.

Section keymap.
(** The atoms, the included files, parsed, and the rules files. *)
Context (ctx : atom_table) (parse : xkb_file_type -> include_item -> list (option XkbFile)).
Context (find_include find_rules : list Z -> list (option (list Z))) (c : rmlvo_context).

Definition compile_keymap_file (format flags num_groups : Z) (file : parsed_file) : result (option compiled_keymap) :=
  if negb (bool_decide (pf_file_type file = FILE_TYPE_KEYMAP)) then Ok None
  else CompileKeymap parse (new_keymap_info ctx format flags num_groups) (pf_sections file).

(** From the components, with the number of their layouts. *)
Definition keymap_from_components (format flags : Z) (kccgst : xkb_component_names * Z) : result (option compiled_keymap) :=
  let num_groups := Z.min (snd kccgst) (format_max_groups format) in
  let! sections := XkbFileFromComponents (fst kccgst) in
  compile_keymap_file format flags num_groups (mk_parsed_file FILE_TYPE_KEYMAP sections).

Definition text_v1_keymap_new_from_names (format flags : Z) (rmlvo : xkb_rule_names) : result (option compiled_keymap) :=
  let! kccgst := xkb_components_from_rules_names find_include find_rules rmlvo in
  keymap_from_components format flags kccgst.

(** [debug]: whether the level of the log is at least debug; the names are then
    printed in a buffer of the context, and have to fit. *)
Definition text_v1_keymap_new_from_rmlvo (debug : bool) (format flags : Z) (rmlvo : xkb_rmlvo_builder) : result (option compiled_keymap) :=
  if debug && bool_decide (xkb_rmlvo_builder_to_rules_names rmlvo (TEXT_BUFFER_SIZE - 1) = None) then Ok None
  else
    let! kccgst := xkb_components_from_rmlvo_builder find_include find_rules c rmlvo in
    keymap_from_components format flags kccgst.

(** [get_keymap_format_ops] *)
Definition is_text_format (format : Z) : bool := (format =? XKB_KEYMAP_FORMAT_TEXT_V1) || (format =? XKB_KEYMAP_FORMAT_TEXT_V2).

Definition XKB_KEYMAP_COMPILE_FLAGS_VALUES : Z := XKB_KEYMAP_COMPILE_STRICT_MODE.

(** The checks of [xkb_keymap_new]. *)
Definition keymap_flags_ok (flags : Z) : bool := Z.ldiff flags XKB_KEYMAP_COMPILE_FLAGS_VALUES =? 0.

Definition xkb_keymap_new_from_rmlvo (debug : bool) (rmlvo : xkb_rmlvo_builder) (format flags : Z) : result (option compiled_keymap) :=
  if negb (is_text_format format) then Ok None
  else if negb (keymap_flags_ok flags) then Ok None
  else text_v1_keymap_new_from_rmlvo debug format flags rmlvo.

Definition no_names : xkb_rule_names := mk_xkb_rule_names None None None None None.

Definition xkb_keymap_new_from_names2 (rmlvo_in : option xkb_rule_names) (format flags : Z) : result (option compiled_keymap) :=
  if negb (is_text_format format) then Ok None
  else if negb (keymap_flags_ok flags) then Ok None
  else text_v1_keymap_new_from_names format flags (xkb_context_sanitize_rule_names c (default no_names rmlvo_in)).2.

Definition xkb_keymap_new_from_names (rmlvo_in : option xkb_rule_names) (flags : Z) : result (option compiled_keymap) :=
  xkb_keymap_new_from_names2 rmlvo_in XKB_KEYMAP_FORMAT_TEXT_V2 flags.
End keymap.
