(* ===== verification/KeymapNewSpec.v ===== *)
(** * From the names of the user to a keymap

    The include statements made of the components read back, and a keymap from
    names or from a builder is compiled within its faults. *)

From Stdlib Require Import ZArith Lia String.
From stdpp Require Import base tactics list numbers.
From S2P Require Import Prelude Numbers Atom Keymap KeymapSpec Machine Overlays MachineInv MachineSpec KeysymNames KeysymName Expr Vmod KeyAliases Derived DerivedInv DerivedSpec Sections Safe Compat CompatSpec Symbols SymbolsSpec SymbolsCopySpec CompileKeymap CompileKeymapSpec Rules RulesSpec RulesNames RulesBytes Rmlvo RmlvoSpec KeymapNew.

(** ** Include statements *)

Lemma split_at_app f a c b : Forall (fun x => f x = false) a -> f c = true -> split_at f (a ++ c :: b) = (a, Some (c, b)).
Proof. intros Ha Hc. induction Ha as [|x a Hx _ IH]; cbn [app split_at]; [by rewrite Hc|]. by rewrite Hx, IH. Qed.

Lemma split_at_none f a : Forall (fun x => f x = false) a -> split_at f a = (a, None).
Proof. intros Ha. induction Ha as [|x a Hx _ IH]; cbn [split_at]; [done|]. by rewrite Hx, IH. Qed.

Lemma split_at_left f s : forall a r, split_at f s = (a, r) ->
  match r with Some (_, b) => (S (length a + length b) = length s)%nat | None => length a = length s end.
Proof.
  induction s as [|c s IH]; intros a r; cbn [split_at]; [by intros [= <- <-]|]. destruct (f c); [by intros [= <- <-]|].
  destruct (split_at f s) as [a' r']. intros [= <- <-]. specialize (IH _ _ eq_refl). destruct r' as [[c' b]|]; cbn; lia.
Qed.

(** What follows a file in the statement is shorter. *)
Lemma include_map_left s im : ParseIncludeMap s = Some im -> match im_rest im with Some r => (length r < length s)%nat | None => True end.
Proof.
  unfold ParseIncludeMap. destruct (split_at is_merge_mode_prefix s) as [item next] eqn:E. destruct (split_at (Z.eqb 58) item) as [str extra].
  destruct (parse_file_map str) as [[file map]|]; [|done]. intros [= <-]. apply split_at_left in E. cbn. destruct next as [[c b]|]; cbn; [lia|done].
Qed.

Lemma include_items_total fuel : forall str merge, (length (default [] str) < fuel)%nat -> exists r, include_items fuel str merge = Ok r.
Proof.
  induction fuel as [|fuel IH]; intros str merge Hf; [lia|]. cbn [include_items]. destruct str as [[|c s]|]; [by eexists| |by eexists].
  destruct (ParseIncludeMap (c :: s)) as [im|] eqn:E; [|by eexists]. apply include_map_left in E.
  assert (length (default [] (im_rest im)) < fuel)%nat as Hl by (destruct (im_rest im); cbn in *; lia).
  destruct (im_file im); [by apply IH|]. destruct (IH (im_rest im) (next_merge (im_nextop im)) Hl) as [[items|] ->]; by eexists.
Qed.

Lemma include_create_total str merge : exists r, IncludeCreate str merge = Ok r.
Proof. unfold IncludeCreate. destruct (include_items_total (S (length str)) (Some str) merge) as [[items|] ->]; cbn; [lia|by eexists..]. Qed.

(** The modifiers are made of bytes of the statement. *)
Lemma split_at_bytes f s : bytes s -> bytes (split_at f s).1 /\ match (split_at f s).2 with Some (_, b) => bytes b | None => True end.
Proof.
  intros Hs. induction Hs as [|c s Hc Hs [IH1 IH2]]; cbn [split_at]; [split; [apply Forall_nil_2|done]|].
  destruct (f c); [split; [apply Forall_nil_2|done]|]. destruct (split_at f s) as [a r]. split; [by apply Forall_cons_2|done].
Qed.

Lemma include_map_bytes s im : bytes s -> ParseIncludeMap s = Some im -> text_bytes (im_extra im) /\ text_bytes (im_rest im).
Proof.
  intros Hs. unfold ParseIncludeMap. destruct (split_at_bytes is_merge_mode_prefix s Hs) as [H1 H2]. destruct (split_at is_merge_mode_prefix s) as [item next].
  cbn in H1, H2. destruct (split_at_bytes (Z.eqb 58) item H1) as [_ H3]. destruct (split_at (Z.eqb 58) item) as [str extra].
  destruct (parse_file_map str) as [[file map]|]; [|done]. intros [= <-]. cbn in *. split; [by destruct extra as [[]|]|by destruct next as [[]|]].
Qed.

Lemma include_items_bytes fuel : forall str merge, text_bytes str ->
  returns (fun r => match r with Some l => Forall (fun i => chars_ok (inc_modifier i)) l | None => True end) (include_items fuel str merge).
Proof.
  induction fuel as [|fuel IH]; intros str merge Hs; cbn [include_items]; [done|].
  destruct str as [[|c s]|]; [by apply Forall_nil_2| |by apply Forall_nil_2]. destruct (ParseIncludeMap (c :: s)) as [im|] eqn:E; [|done].
  apply include_map_bytes in E as [H1 H2]; [|done]. destruct (im_file im); [by apply IH|].
  unfold obind. eapply rules_returns_bind; [by apply IH|]. intros [items|] Hi; [|done]. by apply Forall_cons_2.
Qed.

Lemma include_create_bytes str merge : bytes str ->
  returns (fun r => match r with Some i => Forall (fun item => chars_ok (inc_modifier item)) (inc_items i) | None => True end) (IncludeCreate str merge).
Proof.
  intros Hs. unfold IncludeCreate, obind. eapply rules_returns_bind; [by apply include_items_bytes|]. intros [[|i items]|] Hi; try done.
  apply list.Forall_cons in Hi as [H1 H2]. by apply Forall_cons_2.
Qed.

(** The text of a file of the statement, and of the next ones. *)
Definition merge_char (merge : merge_mode) : Z :=
  match merge with MERGE_AUGMENT => 124 | MERGE_REPLACE => 94 | _ => 43 end.

Definition opt_text (before : list Z) (s : option (list Z)) (after : list Z) : list Z :=
  match s with Some s => before ++ s ++ after | None => [] end.

Definition item_text (i : include_item) : list Z := inc_file i ++ opt_text [40] (inc_map i) [41] ++ opt_text [58] (inc_modifier i) [].
Fixpoint next_text (l : list include_item) : list Z :=
  match l with [] => [] | i :: l => merge_char (inc_merge i) :: item_text i ++ next_text l end.
Definition include_text (i : IncludeStmt) : list Z := item_text (inc_first i) ++ next_text (inc_next i).

Definition no_char (l s : list Z) : Prop := Forall (fun c => c ∉ l) s.

(** The names have none of the characters of the syntax: of the operators, the
    colon and the parenthesis that ends them. *)
Record item_ok (i : include_item) : Prop := {
  io_some : inc_file i <> [];
  io_file : no_char [43; 124; 94; 58; 40] (inc_file i);
  io_map : match inc_map i with Some m => no_char [43; 124; 94; 58; 41] m | None => True end;
  io_modifier : match inc_modifier i with Some e => no_char [43; 124; 94] e | None => True end
}.

Lemma no_char_other l s x : no_char l s -> x ∈ l -> Forall (fun c => (x =? c) = false) s.
Proof. intros H Hx. refine (list.Forall_impl _ _ _ H _). intros c Hc. apply Z.eqb_neq. by intros ->. Qed.

Lemma no_char_prefix l s : no_char l s -> 43 ∈ l -> 124 ∈ l -> 94 ∈ l -> Forall (fun c => is_merge_mode_prefix c = false) s.
Proof.
  intros H H1 H2 H3. refine (list.Forall_impl _ _ _ H _). intros c Hc. unfold is_merge_mode_prefix.
  destruct (Z.eqb_spec c 43) as [->|]; [done|]. destruct (Z.eqb_spec c 124) as [->|]; [done|]. by destruct (Z.eqb_spec c 94) as [->|].
Qed.

Ltac in_list := repeat (apply list.elem_of_cons; first [by left|right]).

Lemma parse_file_map_text i : item_ok i -> parse_file_map (inc_file i ++ opt_text [40] (inc_map i) [41]) = Some (inc_file i, inc_map i).
Proof.
  intros [H1 H2 H3 _]. unfold parse_file_map. assert (Forall (fun c => (40 =? c) = false) (inc_file i)) as Hf by (apply (no_char_other _ _ _ H2); in_list).
  destruct (inc_map i) as [m|]; cbn [opt_text].
  - cbn [app]. rewrite split_at_app by done. destruct (inc_file i) as [|c f]; [done|]. rewrite split_at_app; [done| |done].
    apply (no_char_other _ _ _ H3). in_list.
  - rewrite app_nil_r, split_at_none by done. by destruct (inc_file i).
Qed.

Lemma item_chars i : item_ok i -> Forall (fun c => is_merge_mode_prefix c = false) (item_text i).
Proof.
  intros [H1 H2 H3 H4]. unfold item_text. apply list.Forall_app. split; [apply (no_char_prefix _ _ H2); in_list|]. apply list.Forall_app. split.
  - destruct (inc_map i) as [m|]; [|apply Forall_nil_2]. cbn [opt_text app]. apply Forall_cons_2; [done|]. apply list.Forall_app.
    split; [apply (no_char_prefix _ _ H3); in_list|by repeat constructor].
  - destruct (inc_modifier i) as [e|]; [|apply Forall_nil_2]. cbn [opt_text app]. rewrite app_nil_r. apply Forall_cons_2; [done|].
    apply (no_char_prefix _ _ H4); in_list.
Qed.

Lemma item_extra i : item_ok i ->
  exists x, split_at (Z.eqb 58) (item_text i) = (inc_file i ++ opt_text [40] (inc_map i) [41], x) /\ (snd <$> x) = inc_modifier i.
Proof.
  intros [H1 H2 H3 H4]. unfold item_text. rewrite app_assoc. set (a := inc_file i ++ opt_text [40] (inc_map i) [41]).
  assert (Forall (fun c => (58 =? c) = false) a) as Ha.
  { apply list.Forall_app. split; [apply (no_char_other _ _ _ H2); in_list|]. destruct (inc_map i) as [m|]; [|apply Forall_nil_2]. cbn [opt_text app].
    apply Forall_cons_2; [done|]. apply list.Forall_app. split; [apply (no_char_other _ _ _ H3); in_list|by repeat constructor]. }
  destruct (inc_modifier i) as [e|]; cbn [opt_text].
  - cbn [app]. rewrite app_nil_r, split_at_app by done. by eexists.
  - rewrite app_nil_r, split_at_none by done. by eexists.
Qed.

Definition next_item_ok (i : include_item) : Prop := item_ok i /\ inc_stmt i = None /\ inc_merge i <> MERGE_DEFAULT.

Lemma next_merge_char m : m <> MERGE_DEFAULT -> is_merge_mode_prefix (merge_char m) = true /\ next_merge (Some (merge_char m)) = m.
Proof. by destruct m. Qed.

Lemma parse_include_text i l : item_ok i -> Forall next_item_ok l ->
  exists op, ParseIncludeMap (item_text i ++ next_text l) =
    Some (mk_include_map (inc_file i) (inc_map i) op (inc_modifier i) (match l with [] => None | j :: l => Some (item_text j ++ next_text l) end)) /\
    match l with [] => True | j :: _ => next_merge op = inc_merge j end.
Proof.
  intros Hi Hl. unfold ParseIncludeMap. destruct (item_extra i Hi) as (x & Hx & Hm). destruct l as [|j l]; cbn [next_text].
  - rewrite app_nil_r, split_at_none, Hx, parse_file_map_text by (done || by apply item_chars). rewrite Hm. by eexists.
  - apply list.Forall_cons in Hl as [(Hj & _ & Hd) _]. destruct (next_merge_char _ Hd) as [Hc Hn].
    rewrite split_at_app, Hx, parse_file_map_text by (done || by apply item_chars). rewrite Hm. by eexists.
Qed.

Lemma include_items_text l : forall i merge fuel, item_ok i -> Forall next_item_ok l -> (length (item_text i ++ next_text l) < fuel)%nat ->
  include_items fuel (Some (item_text i ++ next_text l)) merge = Ok (Some (mk_include merge None (inc_file i) (inc_map i) (inc_modifier i) :: l)).
Proof.
  induction l as [|j l IH]; intros i merge fuel Hi Hl Hf; (destruct fuel as [|fuel]; [lia|]); cbn [include_items];
    destruct (parse_include_text i _ Hi Hl) as (op & Hp & Hop); rewrite Hp; cbn [im_file im_map im_nextop im_extra im_rest];
    (assert (exists c s, inc_file i = c :: s) as (c & f & Hfile) by (destruct (inc_file i) eqn:E; [by destruct Hi|by eexists _, _]));
    rewrite Hfile.
  - unfold item_text. rewrite Hfile. cbn [app]. destruct fuel; [unfold item_text in Hf; rewrite Hfile in Hf; cbn in Hf; lia|]. done.
  - rewrite Hop. apply list.Forall_cons in Hl as [(Hj & Hs & Hd) Hl]. rewrite IH; [|done|done|].
    + cbn. unfold item_text. rewrite Hfile. cbn. by destruct j as [? ? ? ? ?]; cbn in Hs; subst.
    + cbn [next_text] in Hf. rewrite length_app in Hf. cbn in Hf. lia.
Qed.

(** C25. An include statement survives its text: the files with their maps and
    modifiers, and the operators between them as the merge modes of the files
    that follow. *)
Theorem include_roundtrip (i : IncludeStmt) :
  item_ok (inc_first i) -> inc_stmt (inc_first i) = Some (include_text i) -> Forall next_item_ok (inc_next i) ->
  IncludeCreate (include_text i) (inc_merge (inc_first i)) = Ok (Some i).
Proof.
  intros H1 H2 H3. unfold IncludeCreate. change (include_text i) with (item_text (inc_first i) ++ next_text (inc_next i)) at 2.
  rewrite include_items_text; [|done|done|unfold include_text; lia]. cbn. rewrite <- H2. by destruct i as [[] ?].
Qed.

Lemma include_roundtrip_witness :
  IncludeCreate (bytes_of "pc+fr(bepo):2|inet(evdev)") MERGE_DEFAULT =
  Ok (Some (mk_include_stmt (mk_include MERGE_DEFAULT (Some (bytes_of "pc+fr(bepo):2|inet(evdev)")) (bytes_of "pc") None None)
    [mk_include MERGE_OVERRIDE None (bytes_of "fr") (Some (bytes_of "bepo")) (Some (bytes_of "2"));
     mk_include MERGE_AUGMENT None (bytes_of "inet") (Some (bytes_of "evdev")) None])).
Proof.
  assert (forall l s, forallb (fun c => negb (bool_decide (c ∈ l))) s = true -> no_char l s) as Hno.
  { intros l s H. apply list.Forall_forall. intros c Hc. rewrite forallb_forall in H. specialize (H c (proj1 (list_elem_of_In _ _) Hc)).
    by apply negb_true_iff, bool_decide_eq_false in H. }
  apply (include_roundtrip (mk_include_stmt (mk_include MERGE_DEFAULT (Some (bytes_of "pc+fr(bepo):2|inet(evdev)")) (bytes_of "pc") None None)
    [mk_include MERGE_OVERRIDE None (bytes_of "fr") (Some (bytes_of "bepo")) (Some (bytes_of "2"));
     mk_include MERGE_AUGMENT None (bytes_of "inet") (Some (bytes_of "evdev")) None])).
  - split; [discriminate|apply Hno; reflexivity|exact I|exact I].
  - reflexivity.
  - repeat (apply Forall_cons_2; [split; [split; [discriminate|apply Hno; reflexivity|apply Hno; reflexivity|first [exact I|apply Hno; reflexivity]]|split; [reflexivity|discriminate]]|]).
    apply Forall_nil_2.
Defined.

(** The operator after a file that is empty, as the rules give for a layout
    without a name, is lost: the next file has the mode of the last file. *)
Example empty_file_operator :
  IncludeCreate (bytes_of "pc+:2|fr:3") MERGE_DEFAULT =
  Ok (Some (mk_include_stmt (mk_include MERGE_DEFAULT (Some (bytes_of "pc+:2|fr:3")) (bytes_of "pc") None None)
    [mk_include MERGE_OVERRIDE None (bytes_of "fr") None (Some (bytes_of "3"))])).
Proof. reflexivity. Qed.

(** ** Keymaps *)

Section keymap.
Context (ctx : atom_table) (parse : xkb_file_type -> include_item -> list (option XkbFile)).
Context (find_include find_rules : list Z -> list (option (list Z))) (c : rmlvo_context) (format flags : Z).

(** The files that the sections include. *)
Record library_ok : Prop := {
  lb_atoms : atoms_ok ctx;
  lb_parse : parse_wf ctx parse;
  lb_compat : forall item f, Some f ∈ parse FILE_TYPE_COMPAT item -> compat_file_ok ctx f;
  lb_symbols : forall n item f, Some f ∈ parse FILE_TYPE_SYMBOLS item -> symbols_file_ok (new_keymap_info ctx format flags n) f
}.

(** The pending computations of what the components include fit their index. *)
Definition room_ok (r : result (option (xkb_component_names * Z))) : Prop :=
  forall kccgst n sections, r = Ok (Some (kccgst, n)) -> XkbFileFromComponents kccgst = Ok (Some sections) ->
    Z.of_nat (section_pendings parse (first_of FILE_TYPE_COMPAT sections) + symbols_section_pendings parse (first_of FILE_TYPE_SYMBOLS sections)) < 2 ^ 31.

(** Only an include statement, with modifiers made of bytes. *)
Definition include_file (f : XkbFile) : Prop :=
  exists i, xf_defs f = [STMT_INCLUDE i] /\ Forall (fun item => chars_ok (inc_modifier item)) (inc_items i).

Lemma component_file_ok type component : bytes component -> exists r, component_file type component = Ok r /\
  match r with Some f => include_file f | None => True end.
Proof.
  intros Hb. unfold component_file. pose proof (include_create_bytes component MERGE_DEFAULT Hb) as Hi.
  destruct (include_create_total component MERGE_DEFAULT) as [[i|] E]; rewrite E in *; cbn; eexists; (split; [reflexivity|]); [|done].
  by eexists.
Qed.

Lemma components_file_ok kccgst : bytes (xc_keycodes kccgst) -> bytes (xc_types kccgst) -> bytes (xc_compatibility kccgst) -> bytes (xc_symbols kccgst) ->
  exists r, XkbFileFromComponents kccgst = Ok r /\ match r with Some l => Forall include_file l | None => True end.
Proof.
  intros B1 B2 B3 B4. unfold XkbFileFromComponents.
  destruct (component_file_ok FILE_TYPE_KEYCODES _ B1) as (r1 & -> & H1). destruct r1; cbn; [|by eexists].
  destruct (component_file_ok FILE_TYPE_TYPES _ B2) as (r2 & -> & H2). destruct r2; cbn; [|by eexists].
  destruct (component_file_ok FILE_TYPE_COMPAT _ B3) as (r3 & -> & H3). destruct r3; cbn; [|by eexists].
  destruct (component_file_ok FILE_TYPE_SYMBOLS _ B4) as (r4 & -> & H4). destruct r4; cbn; [|by eexists].
  eexists. split; [reflexivity|]. repeat (apply Forall_cons_2; [done|]). apply Forall_nil_2.
Qed.

Lemma include_file_ok n f : include_file f -> file_wf ctx f /\ compat_file_ok ctx f /\ symbols_file_ok (new_keymap_info ctx format flags n) f.
Proof.
  intros (i & Hi & Hm). assert (file_wf ctx f) as Hw by (unfold file_wf; rewrite Hi; by apply Forall_cons_2; [|apply Forall_nil_2]).
  split; [done|]. split; (split; [done|]; rewrite Hi; by apply Forall_cons_2; [|apply Forall_nil_2]).
Qed.

(** A keymap for the states of a keyboard and the state machines, no keymap, or
    a fault of the compilation or of the rules. *)
Definition keymap_result (r : result (option compiled_keymap)) : Prop :=
  match r with
  | Ok None => True
  | Ok (Some cm) => derived_keymap (cm_info cm) /\ overlays_wf (keymap_of (cm_info cm))
  | Fault f => (compat_fault f \/ f = FaultOverlap) \/ f = FaultAssert \/ f = FaultUseAfterFree
  end.

Definition components_fine (r : option (xkb_component_names * Z)) : Prop := components_ok r /\ components_bytes r.

Lemma from_components_ok kccgst : library_ok -> components_fine (Some kccgst) -> room_ok (Ok (Some kccgst)) -> keymap_result (keymap_from_components ctx parse format flags kccgst).
Proof.
  intros [A P Co Sy] [Hn Hb] R. unfold keymap_from_components. destruct kccgst as [names n]. destruct Hn as (_ & _ & _ & _ & Hn). cbn [fst snd] in *.
  destruct Hb as (B1 & B2 & B3 & B4 & _). destruct (components_file_ok names B1 B2 B3 B4) as (r & Hr & Hf). rewrite Hr.
  destruct r as [sections|]; cbn [obind result_bind]; [|done].
  unfold compile_keymap_file. cbn [pf_file_type pf_sections]. rewrite bool_decide_eq_true_2 by done. cbn [negb].
  set (m := Z.min n (format_max_groups format)).
  assert (0 <= m <= 32) as Hm by (unfold m, format_max_groups, XKB_MAX_GROUPS_X11, XKB_MAX_GROUPS in *; destruct (_ =? _); lia).
  assert (source_ok (new_keymap_info ctx format flags m) parse sections) as Hsrc.
  { split; try done; [intros item f; apply Sy| |by apply (R names n)].
    refine (list.Forall_impl _ _ _ Hf _). intros f Hfi. by destruct (include_file_ok m f Hfi) as (? & ? & ?). }
  pose proof (CompileKeymap_ok parse sections ctx format flags m Hm Hsrc) as H. unfold keymap_result.
  destruct (CompileKeymap _ _ _) as [[cm|]|f]; [exact H|done|by left].
Qed.

Lemma components_compiled r : library_ok -> room_ok r -> within (rules_fault false) components_ok r -> returns components_bytes r ->
  keymap_result (let! kccgst := r in keymap_from_components ctx parse format flags kccgst).
Proof.
  intros Hl Hroom Hr Hb. destruct r as [[kccgst|]|f]; cbn [obind result_bind]; [by apply from_components_ok|done|].
  right. destruct Hr as [->|[_ ->]]; [by left|by right].
Qed.

(** The texts of the context are C strings. *)
Record context_bytes : Prop := {
  cb_getenv : forall name s, rc_getenv c name = Some s -> bytes s;
  cb_model : bytes (DEFAULT_XKB_MODEL c);
  cb_layout : bytes (DEFAULT_XKB_LAYOUT c);
  cb_variant : text_bytes (DEFAULT_XKB_VARIANT c)
}.

Lemma default_bytes name build : context_bytes -> text_bytes build -> text_bytes (default_from c name build).
Proof.
  intros [H _ _ _] Hb. unfold default_from. destruct (rc_use_environment_names c); [|done]. unfold xkb_context_getenv.
  destruct (rc_getenv c (bytes_of name)) as [s|] eqn:E; [by apply (H _ _ E)|done].
Qed.

Lemma default_variant_bytes : context_bytes -> text_bytes (xkb_context_get_default_variant c).
Proof. intros H. unfold xkb_context_get_default_variant. destruct (xkb_context_getenv _ _); [apply default_bytes; [done|]|]; apply H. Qed.

Lemma sanitized_bytes n : context_bytes -> names_text_bytes n -> names_text_bytes (xkb_context_sanitize_rule_names c n).2.
Proof.
  intros Hc (H1 & H2 & H3). pose proof (sanitize_spec c n) as (_ & _ & _ & _ & _ & ->). split; cbn; [|split].
  - destruct (isempty _); [apply default_bytes; [done|apply Hc]|done].
  - destruct (isempty _); [apply default_bytes; [done|apply Hc]|done].
  - destruct (isempty _); [by apply default_variant_bytes|done].
Qed.

Definition builder_bytes (r : xkb_rmlvo_builder) : Prop :=
  text_bytes (rb_model r) /\ Forall (fun l => bytes (bl_layout l) /\ text_bytes (bl_variant l)) (rb_layouts r).

Lemma builder_matcher_bytes r : context_bytes -> builder_bytes r -> returns (fun p => bytes_ok p.2) (matcher_new_from_rmlvo c r).
Proof.
  intros Hc [Hm Hl]. unfold matcher_new_from_rmlvo. set (names := mk_xkb_rule_names _ _ _ _ _).
  assert (names_text_bytes names) as Hn by (split; [done|]; cbn; destruct (rb_layouts r); [done|]; split; by apply bytes_one).
  pose proof (sanitized_bytes names Hc Hn) as (S1 & S2 & S3). destruct (xkb_context_sanitize_rule_names c names) as [changed n']. cbn [snd] in *.
  destruct (negb (_ || _)); [done|]. eapply rules_returns_bind with (P := fun p => values_bytes p.1 /\ values_bytes p.2).
  - destruct (has_flag changed RMLVO_LAYOUT).
    + eapply rules_returns_bind; [by apply split_bytes|]. intros layouts H1. eapply rules_returns_bind; [by apply split_bytes|]. intros variants H2.
      split; [done|by apply resize_bytes].
    + split; cbn; apply list.Forall_fmap; refine (list.Forall_impl _ _ _ Hl _); intros l [B1 B2]; cbn; [done|]. by destruct (bl_variant l); [|apply Forall_nil_2].
  - intros [layouts variants] [H1 H2]. eapply rules_returns_bind with (P := fun _ => True); [by destruct (if has_flag changed RMLVO_OPTIONS then _ else _)|].
    intros options _. apply new_matcher_bytes. split; [|done]. cbn. apply bytes_take.
    destruct (has_flag changed RMLVO_MODEL); cbn; [destruct (xn_model n')|destruct (rb_model r)]; done || apply Forall_nil_2.
Qed.

Lemma builder_components_bytes r : context_bytes -> builder_bytes r -> returns components_bytes (xkb_components_from_rmlvo_builder find_include find_rules c r).
Proof.
  intros Hc Hr. unfold xkb_components_from_rmlvo_builder. eapply rules_returns_bind; [by apply builder_matcher_bytes|]. intros [[rules|] m] Hm; [|done].
  by apply resolve_bytes.
Qed.

End keymap.

(** ** A sample *)

(** The sections of the sample keymap, whatever the file. *)
Definition sample_parse (type : xkb_file_type) (item : include_item) : list (option XkbFile) :=
  match type with
  | FILE_TYPE_KEYCODES => [Some keycodes_section]
  | FILE_TYPE_TYPES => [Some types_section]
  | FILE_TYPE_COMPAT => [None; Some compat_section]
  | FILE_TYPE_SYMBOLS => [Some symbols_section]
  | _ => []
  end.

Lemma keycodes_section_wf : file_wf keymap_words keycodes_section.
Proof. repeat (apply Forall_cons_2 || apply Forall_nil_2); cbn; lia. Qed.

Lemma sample_library_ok : library_ok keymap_words sample_parse XKB_KEYMAP_FORMAT_TEXT_V2 0.
Proof.
  assert (forall (f g : XkbFile) l, Some f ∈ (l : list (option XkbFile)) -> l = [Some g] \/ l = [None; Some g] -> f = g) as Hin.
  { intros f g l Hf [-> | ->]; [by apply list_elem_of_singleton in Hf as [= ->]|].
    apply list.elem_of_cons in Hf as [?|Hf]; [done|]. by apply list_elem_of_singleton in Hf as [= ->]. }
  split.
  - reflexivity.
  - intros type item f Hf. destruct type; try by apply elem_of_nil in Hf.
    + rewrite (Hin f keycodes_section _ Hf) by by left. apply keycodes_section_wf.
    + rewrite (Hin f types_section _ Hf) by by left. apply types_section_wf.
    + rewrite (Hin f compat_section _ Hf) by by right. apply compat_section_ok.
    + rewrite (Hin f symbols_section _ Hf) by by left. apply (symbols_section_ok 0).
  - intros item f Hf. rewrite (Hin f compat_section _ Hf) by by right. apply compat_section_ok.
  - intros n item f Hf. rewrite (Hin f symbols_section _ Hf) by by left. apply symbols_section_ok.
Qed.

Definition sample_context : rmlvo_context :=
  mk_rmlvo_context (fun _ => None) true (bytes_of "evdev") (bytes_of "pc105") (bytes_of "us") None None.

Lemma sample_context_bytes : context_bytes sample_context.
Proof.
  assert (forall s, forallb (fun c => (0 <=? c) && (c <? 256)) s = true -> bytes s) as Hb.
  { intros s H. apply list.Forall_forall. intros c Hc. rewrite forallb_forall in H. specialize (H c (proj1 (list_elem_of_In _ _) Hc)). unfold is_char. lia. }
  split; [done|by apply Hb|by apply Hb|exact I].
Qed.

