(* ===== verification/KeymapLexer.v ===== *)
(** * The lexer of keymap files (src/xkbcomp/scanner.c, src/xkbcomp/keywords.c)

    The tokens, the perfect hash of the keywords, and [_xkbcommon_lex].  Names
    of keys become atoms: the table of atoms is threaded. *)

From Stdlib Require Import ZArith Lia String.
From stdpp Require Import base tactics list numbers.
From S2P Require Import Prelude Numbers Atom Utf8 KeysymNames Scanner Expr.

(** ** Tokens (src/xkbcomp/parser.h) *)

Inductive yytokentype :=
  | END_OF_FILE | ERROR_TOK | XKB_KEYMAP | XKB_KEYCODES | XKB_TYPES | XKB_SYMBOLS | XKB_COMPATMAP
  | XKB_GEOMETRY | XKB_SEMANTICS | XKB_LAYOUT | INCLUDE | OVERRIDE | AUGMENT | REPLACE | ALTERNATE
  | VIRTUAL_MODS | TYPE | INTERPRET | ACTION_TOK | KEY | ALIAS | GROUP | MODIFIER_MAP | INDICATOR
  | SHAPE | KEYS | ROW | SECTION | OVERLAY | TEXT | OUTLINE | SOLID | LOGO | VIRTUAL | EQUALS
  | PLUS | MINUS | DIVIDE | TIMES | OBRACE | CBRACE | OPAREN | CPAREN | OBRACKET | CBRACKET | DOT
  | COMMA | SEMI | EXCLAM | INVERT | STRING | DECIMAL_DIGIT | INTEGER | FLOAT | IDENT | KEYNAME
  | PARTIAL | DEFAULT | HIDDEN | ALPHANUMERIC_KEYS | MODIFIER_KEYS | KEYPAD_KEYS | FUNCTION_KEYS
  | ALTERNATE_GROUP | DEPRECATED.

Definition token_number (t : yytokentype) : Z :=
  match t with
  | END_OF_FILE => 0 | ERROR_TOK => 255 | XKB_KEYMAP => 1 | XKB_KEYCODES => 2 | XKB_TYPES => 3
  | XKB_SYMBOLS => 4 | XKB_COMPATMAP => 5 | XKB_GEOMETRY => 6 | XKB_SEMANTICS => 7
  | XKB_LAYOUT => 8 | INCLUDE => 10 | OVERRIDE => 11 | AUGMENT => 12 | REPLACE => 13
  | ALTERNATE => 14 | VIRTUAL_MODS => 20 | TYPE => 21 | INTERPRET => 22 | ACTION_TOK => 23
  | KEY => 24 | ALIAS => 25 | GROUP => 26 | MODIFIER_MAP => 27 | INDICATOR => 28 | SHAPE => 29
  | KEYS => 30 | ROW => 31 | SECTION => 32 | OVERLAY => 33 | TEXT => 34 | OUTLINE => 35
  | SOLID => 36 | LOGO => 37 | VIRTUAL => 38 | EQUALS => 40 | PLUS => 41 | MINUS => 42
  | DIVIDE => 43 | TIMES => 44 | OBRACE => 45 | CBRACE => 46 | OPAREN => 47 | CPAREN => 48
  | OBRACKET => 49 | CBRACKET => 50 | DOT => 51 | COMMA => 52 | SEMI => 53 | EXCLAM => 54
  | INVERT => 55 | STRING => 60 | DECIMAL_DIGIT => 61 | INTEGER => 62 | FLOAT => 63 | IDENT => 64
  | KEYNAME => 65 | PARTIAL => 70 | DEFAULT => 71 | HIDDEN => 72 | ALPHANUMERIC_KEYS => 73
  | MODIFIER_KEYS => 74 | KEYPAD_KEYS => 75 | FUNCTION_KEYS => 76 | ALTERNATE_GROUP => 77
  | DEPRECATED => 78
  end.

(** ** Keywords

    Computed positions of the hash: the fifth character and the last one. *)

Definition gperf_downcase : list Z :=
  [0; 1; 2; 3; 4; 5; 6; 7; 8; 9; 10; 11; 12; 13; 14; 15; 16; 17; 18; 19; 20; 21; 22; 23; 24; 25;
   26; 27; 28; 29; 30; 31; 32; 33; 34; 35; 36; 37; 38; 39; 40; 41; 42; 43; 44; 45; 46; 47; 48; 49;
   50; 51; 52; 53; 54; 55; 56; 57; 58; 59; 60; 61; 62; 63; 64; 97; 98; 99; 100; 101; 102; 103; 104;
   105; 106; 107; 108; 109; 110; 111; 112; 113; 114; 115; 116; 117; 118; 119; 120; 121; 122; 91;
   92; 93; 94; 95; 96; 97; 98; 99; 100; 101; 102; 103; 104; 105; 106; 107; 108; 109; 110; 111; 112;
   113; 114; 115; 116; 117; 118; 119; 120; 121; 122; 123; 124; 125; 126; 127; 128; 129; 130; 131;
   132; 133; 134; 135; 136; 137; 138; 139; 140; 141; 142; 143; 144; 145; 146; 147; 148; 149; 150;
   151; 152; 153; 154; 155; 156; 157; 158; 159; 160; 161; 162; 163; 164; 165; 166; 167; 168; 169;
   170; 171; 172; 173; 174; 175; 176; 177; 178; 179; 180; 181; 182; 183; 184; 185; 186; 187; 188;
   189; 190; 191; 192; 193; 194; 195; 196; 197; 198; 199; 200; 201; 202; 203; 204; 205; 206; 207;
   208; 209; 210; 211; 212; 213; 214; 215; 216; 217; 218; 219; 220; 221; 222; 223; 224; 225; 226;
   227; 228; 229; 230; 231; 232; 233; 234; 235; 236; 237; 238; 239; 240; 241; 242; 243; 244; 245;
   246; 247; 248; 249; 250; 251; 252; 253; 254; 255].

Definition gperf_asso_values : list Z :=
  [88; 88; 88; 88; 88; 88; 88; 88; 88; 88; 88; 88; 88; 88; 88; 88; 88; 88; 88; 88; 88; 88; 88; 88;
   88; 88; 88; 88; 88; 88; 88; 88; 88; 88; 88; 88; 88; 88; 88; 88; 88; 88; 88; 88; 88; 88; 88; 88;
   88; 88; 88; 88; 88; 88; 88; 88; 88; 88; 88; 88; 88; 88; 88; 88; 88; 5; 88; 25; 15; 5; 30; 20;
   88; 50; 88; 0; 30; 30; 25; 10; 10; 88; 20; 0; 15; 20; 88; 0; 88; 35; 88; 88; 88; 88; 88; 88; 88;
   5; 88; 25; 15; 5; 30; 20; 88; 50; 88; 0; 30; 30; 25; 10; 10; 88; 20; 0; 15; 20; 88; 0; 88; 35;
   88; 88; 88; 88; 88; 88; 88; 88; 88; 88; 88; 88; 88; 88; 88; 88; 88; 88; 88; 88; 88; 88; 88; 88;
   88; 88; 88; 88; 88; 88; 88; 88; 88; 88; 88; 88; 88; 88; 88; 88; 88; 88; 88; 88; 88; 88; 88; 88;
   88; 88; 88; 88; 88; 88; 88; 88; 88; 88; 88; 88; 88; 88; 88; 88; 88; 88; 88; 88; 88; 88; 88; 88;
   88; 88; 88; 88; 88; 88; 88; 88; 88; 88; 88; 88; 88; 88; 88; 88; 88; 88; 88; 88; 88; 88; 88; 88;
   88; 88; 88; 88; 88; 88; 88; 88; 88; 88; 88; 88; 88; 88; 88; 88; 88; 88; 88; 88; 88; 88; 88; 88;
   88; 88; 88; 88; 88; 88; 88; 88; 88; 88; 88; 88; 88; 88].

Definition gperf_lengthtable : list Z :=
  [0; 0; 0; 3; 4; 5; 0; 0; 0; 4; 0; 11; 12; 13; 4; 5; 11; 7; 0; 4; 10; 6; 17; 0; 9; 5; 0; 7; 13; 0;
   10; 0; 7; 8; 9; 5; 6; 17; 3; 0; 0; 6; 7; 13; 9; 15; 0; 7; 0; 14; 10; 0; 12; 0; 9; 10; 21; 7; 0;
   0; 0; 0; 7; 0; 0; 0; 0; 12; 0; 0; 0; 0; 7; 0; 0; 0; 0; 17; 0; 0; 0; 0; 7; 0; 0; 0; 0; 7].

(** [struct keyword_tok]: the name and its token. *)
Definition gperf_wordlist : list (option (string * yytokentype)) :=
  [None; None; None; Some ("row"%string, ROW); Some ("keys"%string, KEYS);
   Some ("alias"%string, ALIAS); None; None; None; Some ("type"%string, TYPE); None;
   Some ("xkb_symbols"%string, XKB_SYMBOLS); Some ("xkb_keycodes"%string, XKB_KEYCODES);
   Some ("xkb_semantics"%string, XKB_SEMANTICS); Some ("logo"%string, LOGO);
   Some ("shape"%string, SHAPE); Some ("keypad_keys"%string, KEYPAD_KEYS);
   Some ("replace"%string, REPLACE); None; Some ("text"%string, TEXT);
   Some ("xkb_keymap"%string, XKB_KEYMAP); Some ("modmap"%string, MODIFIER_MAP);
   Some ("alphanumeric_keys"%string, ALPHANUMERIC_KEYS); None;
   Some ("xkb_types"%string, XKB_TYPES); Some ("group"%string, GROUP); None;
   Some ("augment"%string, AUGMENT); Some ("function_keys"%string, FUNCTION_KEYS); None;
   Some ("deprecated"%string, DEPRECATED); None; Some ("include"%string, INCLUDE);
   Some ("override"%string, OVERRIDE); Some ("alternate"%string, ALTERNATE);
   Some ("solid"%string, SOLID); Some ("hidden"%string, HIDDEN);
   Some ("virtual_modifiers"%string, VIRTUAL_MODS); Some ("key"%string, KEY); None; None;
   Some ("action"%string, ACTION_TOK); Some ("default"%string, DEFAULT);
   Some ("modifier_keys"%string, MODIFIER_KEYS); Some ("interpret"%string, INTERPRET);
   Some ("alternate_group"%string, ALTERNATE_GROUP); None; Some ("mod_map"%string, MODIFIER_MAP);
   None; Some ("xkb_compat_map"%string, XKB_COMPATMAP); Some ("xkb_compat"%string, XKB_COMPATMAP);
   None; Some ("modifier_map"%string, MODIFIER_MAP); None; Some ("indicator"%string, INDICATOR);
   Some ("xkb_layout"%string, XKB_LAYOUT); Some ("xkb_compatibility_map"%string, XKB_COMPATMAP);
   Some ("virtual"%string, VIRTUAL); None; None; None; None; Some ("outline"%string, OUTLINE);
   None; None; None; None; Some ("xkb_geometry"%string, XKB_GEOMETRY); None; None; None; None;
   Some ("overlay"%string, OVERLAY); None; None; None; None;
   Some ("xkb_compatibility"%string, XKB_COMPATMAP); None; None; None; None;
   Some ("section"%string, SECTION); None; None; None; None; Some ("partial"%string, PARTIAL)].

Definition gperf_downcase_array : array Z := array_of gperf_downcase.
Definition gperf_asso_array : array Z := array_of gperf_asso_values.

Definition downcase (c : Z) : Z := default 0 (array_get gperf_downcase_array c).

(** Whether the first [n] characters are the same without regard to case. *)
Fixpoint gperf_case_memcmp (s1 s2 : list Z) (n : nat) : bool :=
  match n with
  | O => true
  | S n =>
      (downcase (default 0 (s1 !! 0%nat)) =? downcase (default 0 (s2 !! 0%nat))) &&
      gperf_case_memcmp (drop 1 s1) (drop 1 s2) n
  end.

Definition char_at (str : list Z) (i : nat) : Z := default 0 (str !! i).
Definition asso_value (c : Z) : Z := default 0 (array_get gperf_asso_array c).

Definition keyword_gperf_hash (str : list Z) (len : nat) : Z :=
  let hval := Z.of_nat len + (if Nat.leb len 4 then 0 else asso_value (char_at str 4)) in
  hval + asso_value (char_at str (len - 1)).

Definition MIN_WORD_LENGTH : nat := 3.
Definition MAX_WORD_LENGTH : nat := 21.
Definition MAX_HASH_VALUE : Z := 87.

Definition keyword_gperf_lookup (str : list Z) (len : nat) : option (string * yytokentype) :=
  if Nat.leb len MAX_WORD_LENGTH && Nat.leb MIN_WORD_LENGTH len then
    let key := keyword_gperf_hash str len in
    if (key <=? MAX_HASH_VALUE) && (Z.of_nat len =? default 0 (gperf_lengthtable !! Z.to_nat key)) then
      match gperf_wordlist !! Z.to_nat key with
      | Some (Some (name, tok)) =>
          let s := bytes_of name in
          if (Z.land (Z.lxor (char_at str 0) (char_at s 0)) (Z.lnot 32) =? 0) && gperf_case_memcmp str s len
          then Some (name, tok) else None
      | _ => None
      end
    else None
  else None.

(** [None] for [-1]. *)
Definition keyword_to_token (string : list Z) (len : nat) : option yytokentype :=
  match keyword_gperf_lookup string len with Some (_, tok) => Some tok | None => None end.

(** ** Numbers *)

Definition DECIMAL_SEPARATOR : Z := 46.

(** The token of a number, its value, and the scanner. *)
Definition number (s : scanner) : option (yytokentype * Z) * scanner :=
  match scanner_str s [48; 120] with
  | Some s =>
      let '(count, out, s) := scanner_hex_int64 s in
      if count =? -1 then (Some (ERROR_TOK, 0), s)
      else if count =? 0 then (None, s)
      else (Some (INTEGER, out), s)
  | None =>
      let '(count, out, s) := scanner_dec_int64 s in
      if count =? -1 then (Some (ERROR_TOK, 0), s)
      else if count =? 0 then (None, s)
      else
        match scanner_chr s DECIMAL_SEPARATOR with
        | Some s =>
            let '(count, _, s) := scanner_dec_int64 s in
            (Some (if count <? 0 then ERROR_TOK else FLOAT, out), s)
        | None => (Some (if count =? 1 then DECIMAL_DIGIT else INTEGER, out), s)
        end
  end.

(** ** The lexer *)

(** The members of [YYSTYPE] that the lexer sets. *)
Inductive lexval := LexNone | LexNum (num : Z) | LexStr (str : list Z) | LexSval (sval : list Z) | LexAtom (atom : Z).

Fixpoint skip_spaces (l : list Z) : list Z :=
  match l with
  | c :: l' => if is_space c then skip_spaces l' else l
  | [] => []
  end.

Definition LEFT_TO_RIGHT_MARK : list Z := [0xe2; 0x80; 0x8e].
Definition RIGHT_TO_LEFT_MARK : list Z := [0xe2; 0x80; 0x8f].

(** The label [skip_more_whitespace_and_comments]. *)
Fixpoint skip_more_whitespace_and_comments (fuel : nat) (s : scanner) : scanner :=
  match fuel with
  | O => s
  | S fuel =>
      let s := mk_scanner (skip_spaces (scn_rest s)) (scn_buf s) in
      match scanner_str s LEFT_TO_RIGHT_MARK with
      | Some s => skip_more_whitespace_and_comments fuel s
      | None =>
      match scanner_str s RIGHT_TO_LEFT_MARK with
      | Some s => skip_more_whitespace_and_comments fuel s
      | None =>
      match scanner_str s [47; 47] with
      | Some s => skip_more_whitespace_and_comments fuel (scanner_skip_to_eol s)
      | None =>
      match scanner_chr s 35 with
      | Some s => skip_more_whitespace_and_comments fuel (scanner_skip_to_eol s)
      | None => s
      end end end end
  end.

(** The appends to the buffer do not look at whether there is room. *)
Definition append_char (s : scanner) (c : Z) : scanner := fst (scanner_buf_append s c).

(** The characters of the escape sequences of one letter. *)
Definition escape_char (c : Z) : option Z :=
  if c =? 92 then Some 92 else if c =? 34 then Some 34 else if c =? 110 then Some 10
  else if c =? 116 then Some 9 else if c =? 114 then Some 13 else if c =? 98 then Some 8
  else if c =? 102 then Some 12 else if c =? 118 then Some 11 else if c =? 101 then Some 27 else None.

(** After the backslash of an escape sequence; one that is not valid is ignored. *)
Definition string_escape (s : scanner) : scanner :=
  match escape_char (scanner_peek s) with
  | Some c => append_char (advance s) c
  | None =>
      match scanner_chr s 117 with
      | Some s =>
          let (s, cp) := scanner_unicode_code_point s in
          match cp with
          | Some cp => if is_valid_char cp then fst (scanner_buf_appends_code_point s cp) else s
          | None => s
          end
      | None =>
          let (s, o) := scanner_oct s in
          match o with
          | Some o => if is_valid_char o then append_char s o else s
          | None => s
          end
      end
  end.

Fixpoint string_literal (fuel : nat) (s : scanner) : scanner :=
  match fuel with
  | O => s
  | S fuel =>
      if scanner_eof s || scanner_eol s || (scanner_peek s =? 34) then s
      else match scanner_chr s 92 with
           | Some s => string_literal fuel (string_escape s)
           | None => let (c, s) := scanner_next s in string_literal fuel (append_char s c)
           end
  end.

(** The bytes that satisfy [f], and those that follow. *)
Fixpoint take_chars (f : Z -> bool) (l : list Z) : list Z * list Z :=
  match l with
  | c :: l' => if f c then let (t, rest) := take_chars f l' in (c :: t, rest) else ([], l)
  | [] => ([], [])
  end.

Definition is_keyname_char (c : Z) : bool := is_graph c && negb (c =? 62).
Definition is_ident_char (c : Z) : bool := is_alnum c || (c =? 95).

Definition punctuation : list (Z * yytokentype) :=
  [(59, SEMI); (123, OBRACE); (125, CBRACE); (61, EQUALS); (91, OBRACKET); (93, CBRACKET); (40, OPAREN); (41, CPAREN);
   (46, DOT); (44, COMMA); (43, PLUS); (45, MINUS); (42, TIMES); (47, DIVIDE); (33, EXCLAM); (126, INVERT)].

Definition punctuation_token (c : Z) : option yytokentype :=
  match list_find (fun p => fst p = c) punctuation with Some (_, (_, tok)) => Some tok | None => None end.

Definition _xkbcommon_lex (atoms : atom_table) (s : scanner) : result (yytokentype * lexval * scanner * atom_table) :=
  let s := skip_more_whitespace_and_comments (S (length (scn_rest s))) s in
  if scanner_eof s then Ok (END_OF_FILE, LexNone, s, atoms)
  else
    let s := reset_buf s in
    match scanner_chr s 34 with
    | Some s =>
        let s := string_literal (S (length (scn_rest s))) s in
        let (s', ok) := scanner_buf_append s 0 in
        if negb ok then Ok (ERROR_TOK, LexNone, s, atoms)
        else match scanner_chr s' 34 with
             | Some s' => Ok (STRING, LexStr (cstr (scn_buf s')), s', atoms)
             | None => Ok (ERROR_TOK, LexNone, s', atoms)
             end
    | None =>
    match scanner_chr s 60 with
    | Some s =>
        let (name, rest) := take_chars is_keyname_char (scn_rest s) in
        let s := mk_scanner rest (scn_buf s) in
        match scanner_chr s 62 with
        | None => Ok (ERROR_TOK, LexNone, s, atoms)
        | Some s =>
            let+ r := atom_intern atoms name (length name) true in
            Ok (KEYNAME, LexAtom (Z.of_nat (fst r)), s, snd r)
        end
    | None =>
    match punctuation_token (scanner_peek s) with
    | Some tok => Ok (tok, LexNone, advance s, atoms)
    | None =>
    if is_alpha (scanner_peek s) || (scanner_peek s =? 95) then
      let (ident, rest) := take_chars is_ident_char (scn_rest s) in
      let s := mk_scanner rest (scn_buf s) in
      match keyword_to_token ident (length ident) with
      | Some tok => Ok (tok, LexNone, s, atoms)
      | None => Ok (IDENT, LexSval ident, s, atoms)
      end
    else
      match number s with
      | (Some (tok, num), s) => Ok (tok, match tok with ERROR_TOK => LexNone | _ => LexNum num end, s, atoms)
      | (None, s) => Ok (ERROR_TOK, LexNone, s, atoms)
      end
    end end end.
