(* ===== verification/KeymapParser.v ===== *)
(** * The parser of keymap files (src/xkbcomp/parser.c, parser.y, ast-build.c)

    The values of the symbols, the actions of the rules, the automaton of
    [yyparse], and the choice of a map in a file.  A list that the code builds
    by its first and last elements is a list; an object has one owner, and what
    frees it is not modelled.  Messages are not modelled. *)

From Stdlib Require Import ZArith Lia String.
From stdpp Require Import base list tactics numbers.
From S2P Require Import Prelude Numbers Atom Keymap Utf8 Keysym KeysymNames KeysymName Scanner Expr Vmod Derived Sections Symbols CompileKeymap Rules Rmlvo KeymapNew KeymapLexer.

(** ** Tables of the parser of keymap files (src/xkbcomp/parser.c)

    The arrays of the LALR(1) automaton that Bison generates from parser.y,
    entry for entry. *)

Definition YYFINAL : Z := 18.
Definition YYLAST : Z := 945.
Definition YYNTOKENS : Z := 67.
Definition YYNSTATES : Z := 386.
Definition YYMAXUTOK : Z := 257.
Definition YYPACT_NINF : Z := -225.

(** The symbol of a token. *)
Definition yytranslate_list : list Z :=
  [0; 4; 5; 6; 7; 8; 9; 10; 11; 2; 12; 13; 14; 15; 16; 2; 2; 2; 2; 2; 17; 18; 19; 20; 21; 22; 23; 24; 25;
   26; 27; 28; 29; 30; 31; 32; 33; 34; 35; 2; 36; 37; 38; 39; 40; 41; 42; 43; 44; 45; 46; 47; 48; 49; 50;
   51; 2; 2; 2; 2; 52; 53; 54; 55; 56; 57; 2; 2; 2; 2; 58; 59; 60; 61; 62; 63; 64; 65; 66; 2; 2; 2; 2; 2;
   2; 2; 2; 2; 2; 2; 2; 2; 2; 2; 2; 2; 2; 2; 2; 2; 2; 2; 2; 2; 2; 2; 2; 2; 2; 2; 2; 2; 2; 2; 2; 2; 2; 2; 2;
   2; 2; 2; 2; 2; 2; 2; 2; 2; 2; 2; 2; 2; 2; 2; 2; 2; 2; 2; 2; 2; 2; 2; 2; 2; 2; 2; 2; 2; 2; 2; 2; 2; 2; 2;
   2; 2; 2; 2; 2; 2; 2; 2; 2; 2; 2; 2; 2; 2; 2; 2; 2; 2; 2; 2; 2; 2; 2; 2; 2; 2; 2; 2; 2; 2; 2; 2; 2; 2; 2;
   2; 2; 2; 2; 2; 2; 2; 2; 2; 2; 2; 2; 2; 2; 2; 2; 2; 2; 2; 2; 2; 2; 2; 2; 2; 2; 2; 2; 2; 2; 2; 2; 2; 2; 2;
   2; 2; 2; 2; 2; 2; 2; 2; 2; 2; 2; 2; 2; 2; 2; 2; 2; 2; 2; 2; 2; 2; 2; 2; 2; 2; 2; 2; 2; 2; 2; 3; 1; 2].

(** Where the row of a state starts in [yytable]. *)
Definition yypact_list : list Z :=
  [113; -225; -225; -225; -225; -225; -225; -225; -225; -225; -225; -225; 26; -225; -225; 530; 537; -225;
   -225; -225; -225; -225; -225; -225; -225; -225; -225; -2; -2; -225; -225; 42; -225; 76; -225; -225; 241;
   18; 10; -225; 429; -225; -225; -225; -225; -225; 48; -225; 23; 75; -225; -225; 140; 88; 79; -225; 96;
   100; 114; 348; 309; 88; -225; 88; 161; -225; -225; -225; 167; 140; 203; 180; -225; -225; -225; -225;
   -225; -225; -225; -225; -225; -225; -225; -225; -225; -225; -225; -225; -225; 88; 141; -225; 190; 200;
   -225; -225; -36; -225; 215; -225; 218; -225; -225; -225; -225; -225; 228; 242; -225; 244; 258; -225;
   -225; 278; -225; -225; -225; -225; -225; -225; -225; -225; -225; 348; 348; 843; 348; 348; 348; -225;
   -225; 313; 430; -225; -225; -225; 283; -225; -225; -225; -225; -225; 286; 247; 290; 291; 114; 279; 297;
   303; 179; 300; 348; 886; 348; -225; 140; -225; 348; -225; -225; 348; 657; 293; 348; -225; -225; -225;
   -225; 314; 52; -225; 385; -225; -225; 348; 348; 348; 348; 348; 72; 348; 348; -225; -21; 474; 334; -225;
   -225; 348; -225; -225; 326; -225; 144; 333; -22; -225; 438; 672; 714; 438; 491; 140; 338; 339; -225;
   -225; 352; 56; 341; 235; 348; -225; 886; -225; -23; 438; 269; 269; -225; -225; -225; 94; -225; -225;
   438; 287; 729; 347; 37; 97; -225; 99; -225; 376; 88; 379; 88; -225; -225; 432; -225; -225; -225; 348;
   771; 315; -225; 786; -225; 348; -225; 344; -225; 368; 383; 533; -225; 387; 158; 181; -225; -225; 191;
   -225; -225; -225; 399; 657; 292; -225; -225; 68; -225; -225; 348; 405; 72; -225; 410; 107; 329; -225;
   -225; -225; 384; -225; 423; -37; 424; 347; 390; 43; 398; 431; -225; 357; 434; -225; 435; 252; -225;
   -225; -225; -225; 108; -225; -225; 553; -225; 872; -225; 66; -225; -225; -225; 438; -225; 438; -225;
   -225; -225; -225; -225; 37; -225; -225; -225; -225; 828; 438; 440; -225; 615; -225; 422; -225; -225;
   -225; -225; -225; -225; 166; 595; 194; 216; -225; -225; 182; -225; -225; -225; 439; 143; 46; 437; -225;
   451; 155; -225; -225; -225; -225; -225; -225; -225; -225; -225; 348; -225; 175; -225; -225; 433; 447;
   422; 183; 452; 46; -225; -225; -225; -225; -225; -225].

(** The default reduction of a state, 0 for an error. *)
Definition yydefact_list : list Z :=
  [18; 4; 30; 21; 22; 23; 24; 25; 26; 27; 28; 29; 0; 2; 3; 0; 17; 20; 1; 6; 12; 13; 15; 14; 16; 7; 8; 220;
   220; 19; 221; 0; 219; 0; 10; 33; 18; 144; 0; 9; 0; 145; 147; 146; 148; 149; 0; 31; 0; 143; 5; 11; 0;
   134; 133; 132; 135; 0; 136; 137; 138; 139; 140; 141; 142; 127; 128; 129; 0; 0; 216; 0; 217; 34; 36; 37;
   32; 35; 38; 39; 41; 40; 42; 43; 47; 48; 44; 45; 46; 0; 178; 131; 0; 130; 49; 216; 0; 57; 58; 218; 0;
   203; 201; 204; 205; 202; 0; 62; 200; 0; 0; 213; 212; 0; 134; 133; 135; 136; 137; 138; 139; 141; 142; 0;
   0; 0; 0; 0; 0; 211; 187; 178; 0; 158; 175; 165; 163; 166; 186; 185; 130; 184; 0; 0; 0; 0; 0; 0; 0; 182;
   0; 0; 0; 0; 0; 51; 0; 55; 0; 64; 64; 0; 68; 0; 0; 160; 163; 159; 176; 0; 0; 173; 0; 161; 162; 152; 0; 0;
   0; 0; 0; 0; 0; 64; 0; 0; 0; 52; 64; 0; 215; 214; 0; 64; 0; 179; 0; 56; 59; 0; 0; 61; 83; 0; 0; 67; 70;
   75; 0; 130; 0; 0; 152; 174; 0; 167; 0; 151; 154; 155; 153; 156; 88; 0; 87; 89; 157; 0; 0; 0; 0; 0; 118;
   0; 123; 0; 138; 140; 0; 101; 103; 0; 99; 104; 102; 0; 0; 0; 53; 0; 180; 0; 50; 0; 63; 0; 203; 0; 197;
   202; 0; 0; 171; 170; 0; 191; 190; 74; 0; 0; 0; 54; 84; 0; 172; 164; 0; 0; 0; 91; 0; 0; 0; 209; 210; 208;
   0; 207; 0; 0; 0; 0; 0; 0; 0; 0; 98; 0; 0; 93; 0; 0; 65; 60; 82; 195; 0; 194; 80; 0; 78; 0; 76; 0; 66;
   69; 72; 71; 177; 150; 85; 86; 90; 119; 206; 0; 95; 117; 96; 122; 0; 121; 0; 108; 0; 106; 0; 97; 92; 94;
   125; 181; 196; 0; 0; 0; 0; 169; 168; 0; 198; 189; 188; 0; 0; 0; 0; 105; 0; 0; 115; 193; 192; 81; 79; 77;
   199; 124; 120; 152; 111; 0; 110; 100; 0; 0; 0; 0; 0; 0; 116; 113; 114; 112; 107; 109].

(** Where the row of a nonterminal starts in [yytable]. *)
Definition yypgoto_list : list Z :=
  [-225; -225; -225; -225; -225; 453; -225; 477; -225; 502; -225; -225; -47; -225; -225; -225; -225; 365;
   -225; -225; -107; -225; -225; -225; -225; 254; 255; -225; -225; -225; -225; 248; 479; -225; -225; -225;
   -225; -225; -225; 288; -225; 197; -225; 149; -225; -225; 170; -225; 253; -224; 257; 501; -225; -48;
   -225; -225; -225; -206; 89; 153; 246; -225; -199; 249; -200; -39; -225; 493; 256; -225; 267; -225; 512;
   -179; 243; 285; -225; -50; -225; -41; -24; 541; -225].

(** The default state after a nonterminal. *)
Definition yydefgoto_list : list Z :=
  [0; 12; 13; 27; 36; 14; 28; 15; 16; 17; 37; 47; 254; 74; 75; 76; 96; 97; 77; 106; 199; 78; 79; 204; 205;
   206; 207; 260; 80; 81; 223; 224; 240; 83; 84; 85; 86; 87; 241; 242; 334; 335; 371; 372; 243; 359; 360;
   231; 232; 233; 234; 244; 89; 131; 91; 48; 49; 216; 217; 133; 261; 170; 134; 135; 171; 136; 148; 137;
   264; 306; 265; 351; 225; 108; 286; 287; 138; 139; 192; 140; 141; 31; 32].

(** What to do: shift to a state, or reduce by the opposite. *)
Definition yytable_list : list Z :=
  [90; 73; 263; 262; 229; 281; 273; 93; 113; 92; 142; 98; 156; 157; 274; 176; 177; 178; 179; 95; 229; 275;
   72; 266; 230; 276; 18; 252; 147; 100; 41; 42; 43; 44; 45; 95; 143; 144; 72; 145; 52; 53; 54; 55; 56; 57;
   58; 59; 60; 61; 30; 62; 63; 200; 64; 65; 66; 67; 68; 50; 46; 114; 115; 55; 116; 151; 117; 118; 119; 120;
   332; 62; 121; 69; 122; 282; 228; 169; 307; 70; 71; 246; 72; 34; 166; 166; 249; 369; 166; 166; 283; 284;
   285; 69; 213; 101; 186; 51; -73; 95; 214; 101; 72; 370; -73; 195; 354; 349; 101; 263; 262; 348; 318; 1;
   90; 98; 276; 35; 258; 103; 104; 209; 105; 208; 102; 103; 104; 94; 105; 222; 266; 102; 103; 104; 352;
   105; 277; 90; 239; 288; 99; 290; 278; 235; 93; 289; 92; 291; 132; 323; 342; 90; 90; 109; 169; 291; 343;
   110; 93; 93; 92; 92; 267; 377; 362; 307; 169; 111; 112; 2; 307; 3; 4; 5; 6; 7; 8; 9; 10; 11; 90; 176;
   177; 178; 179; 368; 152; 93; 153; 92; 250; 291; 146; 90; 239; 101; 95; 375; 90; 72; 93; 90; 92; 376;
   308; 93; 309; 92; 93; 169; 92; 101; 143; -126; 294; 172; 150; 378; 361; 103; 104; 90; 105; 379; 366;
   383; 154; 310; 209; 311; 208; 276; 190; 191; 305; 103; 104; 312; 105; 313; 364; 194; 311; 196; -183; 90;
   333; 198; 235; 155; 201; 158; 93; 211; 92; 99; 111; 112; 129; 159; 130; 169; 365; 169; 313; 218; 219;
   220; 221; 160; 226; 227; 176; 177; 178; 179; 165; 167; 247; 161; 173; 174; 169; 38; 272; 162; 90; 333;
   183; 176; 177; 178; 179; 93; 163; 92; 169; 2; 341; 3; 4; 5; 6; 7; 8; 9; 10; 11; 178; 179; 114; 115; 55;
   116; 164; 117; 118; 119; 120; 181; 62; 121; 182; 122; 176; 177; 178; 179; 187; 123; 124; 184; 185; 125;
   297; 126; 279; 202; 188; 189; 301; 193; 127; 128; 99; 111; 112; 129; 95; 130; 210; 72; 176; 177; 178;
   179; 175; 212; 152; 317; 153; 99; 111; 112; 299; 319; 114; 115; 55; 116; 245; 117; 118; 119; 120; 248;
   62; 121; 251; 122; 268; 331; 283; 284; 285; 123; 124; 269; 270; 125; 271; 126; 230; 302; 176; 177; 178;
   179; 127; 128; 99; 111; 112; 129; 95; 130; 338; 72; 114; 115; 55; 116; 292; 117; 118; 119; 120; 303; 62;
   121; 293; 122; 176; 177; 178; 179; -141; 123; 124; 215; -216; 330; 325; 126; 20; 21; 22; 23; 24; 336;
   127; 128; 99; 111; 112; 129; 95; 130; 314; 72; 114; 115; 55; 116; 320; 117; 118; 236; 120; 322; 237;
   121; 238; 64; 65; 66; 67; 176; 177; 178; 179; 180; 326; 328; 295; 176; 177; 178; 179; 358; 337; 355; 69;
   339; 340; 367; 373; 374; 95; 39; 380; 72; 114; 115; 55; 116; 381; 117; 118; 236; 120; 384; 237; 121;
   238; 64; 65; 66; 67; 114; 115; 55; 116; 40; 117; 118; 119; 120; 29; 62; 256; 197; 122; 315; 69; 316;
   321; 82; 385; 296; 95; 357; 257; 72; 19; 20; 21; 22; 23; 24; 25; 26; 327; 258; 103; 104; 382; 259; 329;
   88; 72; 114; 115; 55; 116; 345; 117; 118; 119; 120; 347; 62; 256; 149; 122; 346; 107; 324; 353; 33; 0;
   114; 115; 55; 116; 304; 117; 118; 119; 120; 350; 62; 256; 0; 122; 305; 103; 104; 0; 259; 0; 0; 72; 2;
   344; 3; 4; 5; 6; 7; 8; 9; 10; 11; 0; 258; 103; 104; 0; 259; 0; 0; 72; 114; 115; 55; 116; 0; 117; 118;
   119; 120; 0; 62; 256; 0; 122; 0; 0; 0; 0; 0; 0; 114; 115; 55; 116; 363; 117; 118; 119; 120; 332; 62;
   121; 0; 122; 305; 103; 104; 0; 259; 0; 0; 72; 0; 0; 356; 0; 0; 0; 0; 0; 0; 0; 69; 0; 0; 0; 0; 0; 95; 0;
   0; 72; 114; 115; 55; 116; 0; 117; 118; 119; 120; 0; 62; 121; 0; 122; 0; 114; 115; 55; 116; 0; 117; 118;
   119; 120; 0; 62; 121; 202; 122; 0; 0; 0; 203; 0; 0; 0; 0; 0; 95; 253; 0; 72; 0; 0; 0; 0; 0; 69; 0; 0; 0;
   0; 0; 95; 0; 0; 72; 114; 115; 55; 116; 0; 117; 118; 119; 120; 0; 62; 121; 0; 122; 0; 114; 115; 55; 116;
   0; 117; 118; 119; 120; 255; 62; 121; 0; 122; 0; 0; 0; 69; 0; 0; 0; 0; 0; 95; 280; 0; 72; 0; 0; 0; 0; 0;
   69; 0; 0; 0; 0; 0; 95; 0; 0; 72; 114; 115; 55; 116; 0; 117; 118; 119; 120; 0; 62; 121; 0; 122; 0; 114;
   115; 55; 116; 0; 117; 118; 119; 120; 298; 62; 121; 0; 122; 0; 0; 0; 69; 0; 0; 0; 0; 0; 95; 300; 0; 72;
   0; 0; 0; 0; 0; 69; 0; 0; 0; 0; 0; 95; 0; 0; 72; 114; 115; 55; 116; 0; 117; 118; 119; 120; 0; 62; 121; 0;
   122; 0; 114; 115; 55; 116; 0; 117; 118; 119; 120; 168; 62; 121; 230; 122; 0; 0; 0; 0; 0; 0; 0; 0; 0; 95;
   168; 0; 72; 0; 0; 114; 115; 55; 116; 0; 117; 118; 119; 120; 95; 62; 121; 72; 122; 114; 115; 55; 116; 0;
   117; 118; 119; 120; 125; 62; 121; 0; 122; 0; 0; 0; 0; 0; 0; 0; 0; 0; 0; 95; 0; 0; 72; 0; 0; 0; 0; 0; 0;
   0; 0; 0; 0; 95; 0; 0; 72].

(** What the entries of [yytable] are for. *)
Definition yycheck_list : list Z :=
  [48; 48; 202; 202; 41; 229; 212; 48; 58; 48; 60; 52; 48; 49; 214; 37; 38; 39; 40; 56; 41; 44; 59; 202;
   45; 48; 0; 49; 69; 53; 12; 13; 14; 15; 16; 56; 60; 61; 59; 63; 17; 18; 19; 20; 21; 22; 23; 24; 25; 26;
   52; 28; 29; 160; 31; 32; 33; 34; 35; 49; 42; 18; 19; 20; 21; 89; 23; 24; 25; 26; 27; 28; 29; 50; 31; 38;
   183; 125; 257; 56; 57; 188; 59; 41; 123; 124; 193; 41; 127; 128; 53; 54; 55; 50; 42; 29; 146; 49; 42;
   56; 48; 29; 59; 57; 48; 153; 330; 41; 29; 309; 309; 311; 44; 0; 162; 156; 48; 41; 52; 53; 54; 162; 56;
   162; 52; 53; 54; 52; 56; 57; 309; 52; 53; 54; 313; 56; 42; 185; 185; 42; 52; 42; 48; 184; 185; 48; 185;
   48; 59; 42; 42; 199; 200; 57; 202; 48; 48; 57; 199; 200; 199; 200; 203; 369; 343; 344; 214; 53; 54; 56;
   349; 58; 59; 60; 61; 62; 63; 64; 65; 66; 228; 37; 38; 39; 40; 42; 45; 228; 47; 228; 46; 48; 25; 241;
   241; 29; 56; 42; 246; 59; 241; 249; 241; 48; 46; 246; 48; 246; 249; 257; 249; 29; 236; 52; 238; 126; 36;
   42; 52; 53; 54; 269; 56; 48; 42; 42; 36; 46; 269; 48; 269; 48; 53; 54; 52; 53; 54; 46; 56; 48; 46; 152;
   48; 154; 41; 293; 293; 158; 289; 49; 161; 36; 293; 164; 293; 52; 53; 54; 55; 41; 57; 309; 46; 311; 48;
   176; 177; 178; 179; 41; 181; 182; 37; 38; 39; 40; 123; 124; 189; 37; 127; 128; 330; 42; 49; 41; 334;
   334; 41; 37; 38; 39; 40; 334; 36; 334; 344; 56; 46; 58; 59; 60; 61; 62; 63; 64; 65; 66; 39; 40; 18; 19;
   20; 21; 36; 23; 24; 25; 26; 36; 28; 29; 36; 31; 37; 38; 39; 40; 49; 37; 38; 41; 41; 41; 245; 43; 49; 45;
   41; 36; 251; 41; 50; 51; 52; 53; 54; 55; 56; 57; 57; 59; 37; 38; 39; 40; 43; 43; 45; 270; 47; 52; 53;
   54; 49; 276; 18; 19; 20; 21; 36; 23; 24; 25; 26; 49; 28; 29; 45; 31; 42; 292; 53; 54; 55; 37; 38; 48;
   36; 41; 49; 43; 45; 49; 37; 38; 39; 40; 50; 51; 52; 53; 54; 55; 56; 57; 49; 59; 18; 19; 20; 21; 36; 23;
   24; 25; 26; 49; 28; 29; 41; 31; 37; 38; 39; 40; 43; 37; 38; 44; 43; 41; 48; 43; 5; 6; 7; 8; 9; 41; 50;
   51; 52; 53; 54; 55; 56; 57; 49; 59; 18; 19; 20; 21; 49; 23; 24; 25; 26; 49; 28; 29; 30; 31; 32; 33; 34;
   37; 38; 39; 40; 41; 49; 49; 42; 37; 38; 39; 40; 57; 49; 41; 50; 49; 49; 46; 49; 36; 56; 36; 57; 59; 18;
   19; 20; 21; 49; 23; 24; 25; 26; 49; 28; 29; 30; 31; 32; 33; 34; 18; 19; 20; 21; 36; 23; 24; 25; 26; 16;
   28; 29; 156; 31; 269; 50; 270; 278; 48; 379; 241; 56; 334; 41; 59; 4; 5; 6; 7; 8; 9; 10; 11; 289; 52;
   53; 54; 376; 56; 291; 48; 59; 18; 19; 20; 21; 309; 23; 24; 25; 26; 311; 28; 29; 70; 31; 309; 54; 282;
   325; 28; -1; 18; 19; 20; 21; 42; 23; 24; 25; 26; 313; 28; 29; -1; 31; 52; 53; 54; -1; 56; -1; -1; 59;
   56; 41; 58; 59; 60; 61; 62; 63; 64; 65; 66; -1; 52; 53; 54; -1; 56; -1; -1; 59; 18; 19; 20; 21; -1; 23;
   24; 25; 26; -1; 28; 29; -1; 31; -1; -1; -1; -1; -1; -1; 18; 19; 20; 21; 42; 23; 24; 25; 26; 27; 28; 29;
   -1; 31; 52; 53; 54; -1; 56; -1; -1; 59; -1; -1; 42; -1; -1; -1; -1; -1; -1; -1; 50; -1; -1; -1; -1; -1;
   56; -1; -1; 59; 18; 19; 20; 21; -1; 23; 24; 25; 26; -1; 28; 29; -1; 31; -1; 18; 19; 20; 21; -1; 23; 24;
   25; 26; -1; 28; 29; 45; 31; -1; -1; -1; 50; -1; -1; -1; -1; -1; 56; 42; -1; 59; -1; -1; -1; -1; -1; 50;
   -1; -1; -1; -1; -1; 56; -1; -1; 59; 18; 19; 20; 21; -1; 23; 24; 25; 26; -1; 28; 29; -1; 31; -1; 18; 19;
   20; 21; -1; 23; 24; 25; 26; 42; 28; 29; -1; 31; -1; -1; -1; 50; -1; -1; -1; -1; -1; 56; 42; -1; 59; -1;
   -1; -1; -1; -1; 50; -1; -1; -1; -1; -1; 56; -1; -1; 59; 18; 19; 20; 21; -1; 23; 24; 25; 26; -1; 28; 29;
   -1; 31; -1; 18; 19; 20; 21; -1; 23; 24; 25; 26; 42; 28; 29; -1; 31; -1; -1; -1; 50; -1; -1; -1; -1; -1;
   56; 42; -1; 59; -1; -1; -1; -1; -1; 50; -1; -1; -1; -1; -1; 56; -1; -1; 59; 18; 19; 20; 21; -1; 23; 24;
   25; 26; -1; 28; 29; -1; 31; -1; 18; 19; 20; 21; -1; 23; 24; 25; 26; 42; 28; 29; 45; 31; -1; -1; -1; -1;
   -1; -1; -1; -1; -1; 56; 42; -1; 59; -1; -1; 18; 19; 20; 21; -1; 23; 24; 25; 26; 56; 28; 29; 59; 31; 18;
   19; 20; 21; -1; 23; 24; 25; 26; 41; 28; 29; -1; 31; -1; -1; -1; -1; -1; -1; -1; -1; -1; -1; 56; -1; -1;
   59; -1; -1; -1; -1; -1; -1; -1; -1; -1; -1; 56; -1; -1; 59].

(** The symbol that leads to a state. *)
Definition yystos_list : list Z :=
  [0; 0; 56; 58; 59; 60; 61; 62; 63; 64; 65; 66; 68; 69; 72; 74; 75; 76; 0; 4; 5; 6; 7; 8; 9; 10; 11; 70;
   73; 76; 52; 148; 149; 148; 41; 41; 71; 77; 42; 72; 74; 12; 13; 14; 15; 16; 42; 78; 122; 123; 49; 49; 17;
   18; 19; 20; 21; 22; 23; 24; 25; 26; 28; 29; 31; 32; 33; 34; 35; 50; 56; 57; 59; 79; 80; 81; 82; 85; 88;
   89; 95; 96; 99; 100; 101; 102; 103; 104; 118; 119; 120; 121; 132; 146; 52; 56; 83; 84; 146; 52; 147; 29;
   52; 53; 54; 56; 86; 139; 140; 57; 57; 53; 54; 144; 18; 19; 21; 23; 24; 25; 26; 29; 31; 37; 38; 41; 43;
   50; 51; 55; 57; 120; 125; 126; 129; 130; 132; 134; 143; 144; 146; 147; 144; 147; 147; 147; 25; 146; 133;
   134; 36; 147; 45; 47; 36; 49; 48; 49; 36; 41; 41; 37; 41; 36; 36; 126; 132; 126; 42; 120; 128; 131; 125;
   126; 126; 43; 37; 38; 39; 40; 41; 36; 36; 41; 41; 41; 144; 49; 41; 36; 53; 54; 145; 41; 125; 120; 125;
   84; 125; 87; 87; 125; 45; 50; 90; 91; 92; 93; 132; 146; 57; 125; 43; 42; 48; 44; 124; 125; 125; 125;
   125; 125; 57; 97; 98; 139; 125; 125; 87; 41; 45; 114; 115; 116; 117; 146; 25; 28; 30; 79; 99; 105; 106;
   111; 118; 36; 87; 125; 49; 87; 46; 45; 49; 42; 79; 42; 29; 41; 52; 56; 94; 127; 129; 131; 135; 137; 140;
   146; 42; 48; 36; 49; 49; 124; 131; 44; 48; 42; 48; 49; 42; 116; 38; 53; 54; 55; 141; 142; 42; 48; 42;
   48; 36; 41; 147; 42; 106; 125; 42; 49; 42; 125; 49; 49; 42; 52; 136; 140; 46; 48; 46; 48; 46; 48; 49;
   92; 93; 125; 44; 125; 49; 98; 49; 42; 142; 48; 49; 115; 49; 117; 41; 125; 27; 79; 107; 108; 41; 49; 49;
   49; 49; 46; 42; 48; 41; 127; 135; 130; 131; 41; 137; 138; 140; 141; 116; 41; 42; 108; 57; 112; 113; 52;
   140; 42; 46; 46; 42; 46; 42; 41; 57; 109; 110; 49; 36; 42; 48; 124; 42; 48; 57; 49; 113; 42; 49; 110].

(** The left-hand side of a rule. *)
Definition yyr1_list : list Z :=
  [0; 67; 68; 68; 68; 69; 70; 70; 70; 71; 71; 72; 73; 73; 73; 73; 73; 74; 74; 75; 75; 76; 76; 76; 76; 76;
   76; 76; 76; 76; 76; 77; 77; 77; 78; 78; 78; 78; 78; 78; 78; 78; 78; 78; 78; 78; 78; 78; 78; 78; 79; 79;
   79; 80; 81; 82; 83; 83; 84; 84; 85; 86; 86; 87; 87; 88; 89; 90; 90; 91; 91; 92; 92; 92; 92; 92; 93; 93;
   93; 93; 93; 94; 94; 94; 95; 96; 97; 97; 98; 98; 99; 100; 100; 101; 102; 103; 103; 104; 105; 105; 106;
   106; 106; 106; 106; 107; 107; 108; 108; 109; 109; 110; 110; 111; 112; 112; 113; 114; 114; 115; 115; 115;
   116; 116; 117; 118; 119; 119; 119; 119; 120; 120; 121; 121; 121; 121; 121; 121; 121; 121; 121; 121; 121;
   122; 122; 123; 123; 123; 123; 123; 124; 124; 124; 125; 125; 125; 125; 125; 125; 126; 126; 126; 126; 126;
   126; 126; 126; 126; 127; 127; 127; 127; 128; 128; 129; 130; 130; 131; 132; 132; 132; 132; 133; 133; 134;
   134; 134; 134; 135; 135; 135; 135; 136; 136; 136; 136; 137; 137; 138; 138; 139; 139; 140; 140; 140; 140;
   141; 141; 142; 142; 142; 143; 144; 144; 145; 145; 146; 146; 147; 148; 148; 149].

(** The length of the right-hand side of a rule. *)
Definition yyr2_list : list Z :=
  [0; 2; 1; 1; 1; 7; 1; 1; 1; 2; 0; 7; 1; 1; 1; 1; 1; 1; 0; 2; 1; 1; 1; 1; 1; 1; 1; 1; 1; 1; 1; 2; 3; 0; 2;
   2; 2; 2; 2; 2; 2; 2; 2; 2; 2; 2; 2; 2; 2; 2; 4; 2; 3; 4; 5; 3; 3; 1; 1; 3; 6; 3; 1; 2; 0; 6; 6; 1; 0; 3;
   1; 3; 3; 1; 2; 1; 3; 5; 3; 5; 3; 4; 2; 0; 5; 6; 3; 1; 1; 1; 6; 5; 6; 5; 6; 6; 6; 6; 2; 1; 5; 1; 1; 1; 1;
   2; 1; 5; 1; 3; 1; 1; 3; 6; 3; 1; 3; 3; 1; 3; 5; 3; 3; 1; 5; 6; 1; 1; 1; 1; 1; 1; 1; 1; 1; 1; 1; 1; 1; 1;
   1; 1; 1; 1; 0; 1; 1; 1; 1; 1; 3; 1; 0; 3; 3; 3; 3; 3; 1; 2; 2; 2; 2; 1; 4; 1; 1; 3; 3; 3; 1; 1; 3; 1; 3;
   1; 2; 4; 1; 3; 4; 6; 1; 0; 1; 1; 1; 1; 3; 3; 1; 1; 3; 3; 1; 1; 3; 1; 1; 2; 1; 1; 1; 1; 1; 1; 2; 1; 1; 1;
   1; 1; 1; 1; 1; 1; 1; 1; 1; 1; 0; 1].

Definition yytranslate : array Z := array_of yytranslate_list.
Definition yypact : array Z := array_of yypact_list.
Definition yydefact : array Z := array_of yydefact_list.
Definition yypgoto : array Z := array_of yypgoto_list.
Definition yydefgoto : array Z := array_of yydefgoto_list.
Definition yytable : array Z := array_of yytable_list.
Definition yycheck : array Z := array_of yycheck_list.
Definition yystos : array Z := array_of yystos_list.
Definition yyr1 : array Z := array_of yyr1_list.
Definition yyr2 : array Z := array_of yyr2_list.

(** ** Values of the symbols *)

Definition MAP_IS_PARTIAL : Z := 2 ^ 1.
Definition MAP_IS_HIDDEN : Z := 2 ^ 2.
Definition MAP_HAS_ALPHANUMERIC : Z := 2 ^ 3.
Definition MAP_HAS_MODIFIER : Z := 2 ^ 4.
Definition MAP_HAS_KEYPAD : Z := 2 ^ 5.
Definition MAP_HAS_FN : Z := 2 ^ 6.
Definition MAP_IS_ALTGR : Z := 2 ^ 7.
Definition MAP_IS_DEPRECATED : Z := 2 ^ 8.

(** [XkbFile]: the definitions of a section are statements, those of a keymap
    are sections. *)
Inductive parsed_map :=
| ParsedSection (file : XkbFile)
| ParsedKeymap (name : option (list Z)) (sections : list XkbFile) (flags : Z).

Definition pm_name (m : parsed_map) : option (list Z) :=
  match m with ParsedSection file => xf_name file | ParsedKeymap name _ _ => name end.
Definition pm_flags (m : parsed_map) : Z :=
  match m with ParsedSection file => xf_flags file | ParsedKeymap _ _ flags => flags end.

(** [YYSTYPE], with the member that was written.  The expression that starts a
    list of keysyms or of actions of a key is the list; [val_stmt] is the
    pointer to a declaration, of any of their types, and [val_null] a pointer of
    the type [geom], or to an expression, that is null. *)
Inductive yystype :=
| val_none
| val_num (num : Z)
| val_file_type (type : xkb_file_type)
| val_str (str : option (list Z))
| val_sval (sval : list Z)
| val_atom (atom : Z)
| val_merge (merge : merge_mode)
| val_mapFlags (flags : Z)
| val_keysym (keysym : Z)
| val_any (stmt : option statement)
| val_anyList (stmts : list statement)
| val_noSymbolOrActionList (count : Z)
| val_expr (expr : ExprDef)
| val_exprList (exprs : list ExprDef)
| val_var (var : VarDef)
| val_varList (vars : list VarDef)
| val_vmod (vmod : VModDef)
| val_vmodList (vmods : list VModDef)
| val_stmt (stmt : statement)
| val_null
| val_file (file : option parsed_map)
| val_fileList (files : list XkbFile).

Definition lexval_yystype (v : lexval) : yystype :=
  match v with
  | LexNone => val_none
  | LexNum num => val_num num
  | LexStr str => val_str (Some str)
  | LexSval sval => val_sval sval
  | LexAtom atom => val_atom atom
  end.

(** [struct parser_param], with the atoms of its context. *)
Record parser_param := mk_param {
  pp_atoms : atom_table;
  pp_format : Z;
  pp_strict : Z;
  pp_rtrn : option parsed_map;
  pp_more_maps : bool
}.

Definition pp_set_atoms (atoms : atom_table) (p : parser_param) : parser_param :=
  mk_param atoms (pp_format p) (pp_strict p) (pp_rtrn p) (pp_more_maps p).
Definition pp_return (m : option parsed_map) (p : parser_param) : parser_param :=
  mk_param (pp_atoms p) (pp_format p) (pp_strict p) m (bool_decide (is_Some m)).

(** How the action of a rule ends: a value, [YYACCEPT], [YYABORT], [YYERROR]. *)
Inductive action_outcome :=
| Value (v : yystype) (p : parser_param)
| Accept (p : parser_param)
| AbortParse (p : parser_param)
| ErrorParse (p : parser_param).

(** ** Nodes (src/xkbcomp/ast-build.c) *)

Definition XKB_KEY_VoidSymbol : Z := 0xffffff.
Definition XKB_KEY_section : Z := 0x00a7.
Definition XKB_KEY_0 : Z := 0x0030.

Definition ExprCreateKeySymList (sym : Z) : ExprDef :=
  STMT_EXPR_KEYSYM_LIST (if sym =? XKB_KEY_NoSymbol then [] else [sym]).

Definition ExprAppendKeySymList (expr : ExprDef) (sym : Z) : result ExprDef :=
  match expr with
  | STMT_EXPR_KEYSYM_LIST syms => Ok (STMT_EXPR_KEYSYM_LIST (if sym =? XKB_KEY_NoSymbol then syms else syms ++ [sym]))
  | _ => Fault FaultUnion
  end.

(** The keysyms of the code points, [None] for an error. *)
Fixpoint append_code_points (fuel : nat) (syms : list Z) (string : list Z) : result (option (list Z)) :=
  match string with
  | [] => Ok (Some syms)
  | _ =>
      match fuel with
      | O => Fault FaultFuel
      | S fuel =>
          match utf8_next_code_point string (Z.of_nat (length string)) with
          | None => Fault FaultOutOfBounds
          | Some (cp, count) =>
              if cp =? INVALID_UTF8_CODE_POINT then Ok None
              else
                let sym := xkb_utf32_to_keysym cp in
                if sym =? XKB_KEY_NoSymbol then Ok None
                else append_code_points fuel (syms ++ [sym]) (drop (Z.to_nat count) string)
          end
      end
  end.

Definition ExprKeySymListAppendString (expr : ExprDef) (string : list Z) : result (option ExprDef) :=
  match expr with
  | STMT_EXPR_KEYSYM_LIST syms =>
      let! syms := append_code_points (length string) syms string in Ok (Some (STMT_EXPR_KEYSYM_LIST syms))
  | _ => Fault FaultUnion
  end.

Definition KeysymParseString (string : list Z) : Z :=
  match utf8_next_code_point string (Z.of_nat (length string)) with
  | None => XKB_KEY_NoSymbol
  | Some (cp, count) =>
      if cp =? INVALID_UTF8_CODE_POINT then XKB_KEY_NoSymbol
      else if negb (count =? Z.of_nat (length string)) then XKB_KEY_NoSymbol
      else xkb_utf32_to_keysym cp
  end.

(** The merge mode is set with the declaration, and not read in a body. *)
Definition VarCreate (name : option ExprDef) (value : ExprDef) (next : list ExprDef) : VarDef :=
  mk_var MERGE_DEFAULT name value next.
Definition BoolVarCreate (ident : Z) (set : bool) : VarDef :=
  VarCreate (Some (STMT_EXPR_IDENT ident)) (STMT_EXPR_BOOLEAN_LITERAL set) [].
Definition VModCreate (name : Z) (value : option ExprDef) : VModDef := mk_vmod_def MERGE_DEFAULT name value.

Definition vmod_set_merge (merge : merge_mode) (v : VModDef) : VModDef := mk_vmod_def merge (vd_name v) (vd_value v).
Definition var_set_merge (merge : merge_mode) (v : VarDef) : VarDef := mk_var merge (vr_name v) (vr_value v) (vr_next v).

(** [$2->merge = $1] *)
Definition stmt_set_merge (merge : merge_mode) (stmt : statement) : statement :=
  match stmt with
  | STMT_KEYCODE _ name value => STMT_KEYCODE merge name value
  | STMT_ALIAS _ alias real => STMT_ALIAS merge alias real
  | STMT_TYPE _ name body => STMT_TYPE merge name body
  | STMT_INTERP _ sym match_ def => STMT_INTERP merge sym match_ def
  | STMT_SYMBOLS _ keyName symbols => STMT_SYMBOLS merge keyName symbols
  | STMT_MODMAP _ modifiers keys => STMT_MODMAP merge modifiers keys
  | STMT_GROUP_COMPAT _ group def => STMT_GROUP_COMPAT merge group def
  | STMT_LED_MAP _ name body => STMT_LED_MAP merge name body
  | STMT_LED_NAME _ ndx name => STMT_LED_NAME merge ndx name
  | stmt => stmt
  end.

Definition XkbFileCreate (type : xkb_file_type) (name : option (list Z)) (defs : list statement) (flags : Z) : XkbFile :=
  mk_file (XkbEscapeMapName <$> name) defs type flags.

Definition XkbKeymapFileCreate (name : option (list Z)) (sections : list XkbFile) (flags : Z) : parsed_map :=
  ParsedKeymap (XkbEscapeMapName <$> name) sections flags.

(** ** Keysyms *)

Definition isvaleq (s1 s2 : list Z) : bool := Nat.eqb (length s1) (length s2) && (istrncmp s1 s2 (length s1) =? 0).

Definition resolve_keysym (name : list Z) : option Z :=
  if isvaleq name (bytes_of "any") || isvaleq name (bytes_of "nosymbol") then Some XKB_KEY_NoSymbol
  else if isvaleq name (bytes_of "none") || isvaleq name (bytes_of "voidsymbol") then Some XKB_KEY_VoidSymbol
  else if Z.of_nat (length name) >=? XKB_KEYSYM_NAME_MAX_SIZE then None
  else
    let sym := xkb_keysym_from_name name 0 in
    if negb (sym =? XKB_KEY_NoSymbol) then Some sym else None.

(** A number as a keysym. *)
Definition numeric_keysym (num : Z) : Z :=
  if num <? 0 then XKB_KEY_NoSymbol else if num <=? XKB_KEYSYM_MAX then num else XKB_KEY_NoSymbol.

(** ** Actions of the rules (src/xkbcomp/parser.y)

    The values of the right-hand side are listed from [$1] on. *)

Notation "'rhs' p '=>' e" := (fun v : list yystype => match v with p => e | _ => Fault FaultUnion end)
  (at level 10, p pattern, e at level 200, only parsing) : xkb_scope.

Section actions.
Context (p : parser_param).

Definition value (v : yystype) : result action_outcome := Ok (Value v p).

Definition intern (string : list Z) : result action_outcome :=
  let+ r := atom_intern (pp_atoms p) string (length string) true in
  Ok (Value (val_atom (Z.of_nat (fst r))) (pp_set_atoms (snd r) p)).
Definition intern_literal (string : string) : result action_outcome := intern (bytes_of string).

(** [YYERROR] when there is no value. *)
Definition value_or_error (v : result (option yystype)) : result action_outcome :=
  let+ v := v in Ok (match v with Some v => Value v p | None => ErrorParse p end).

Definition append_string (expr : ExprDef) (string : list Z) : result action_outcome :=
  value_or_error (let! e := ExprKeySymListAppendString expr string in Ok (Some (val_expr e))).

Definition decl (merge : merge_mode) (stmt : statement) : result action_outcome :=
  value (val_any (Some (stmt_set_merge merge stmt))).

(** Sections: rules 2 to 33. *)
Definition file_actions (n : Z) : list yystype -> result action_outcome :=
  match n with
  | 2 => rhs [val_file f] => Ok (Value (val_file f) (pp_return f p))
  | 3 => rhs [val_file f] => Ok (Accept (pp_return f p))
  | 4 => rhs [_] => Ok (Value (val_file None) (pp_return None p))
  | 5 => rhs [val_mapFlags flags; val_file_type _; val_str name; _; val_fileList files; _; _] =>
      value (val_file (Some (XkbKeymapFileCreate name files flags)))
  | 6 | 7 | 8 => rhs [_] => value (val_file_type FILE_TYPE_KEYMAP)
  | 9 => rhs [val_fileList files; val_file (Some (ParsedSection file))] => value (val_fileList (files ++ [file]))
  | 10 => rhs [] => value (val_fileList [])
  | 11 => rhs [val_mapFlags flags; val_file_type type; val_str name; _; val_anyList defs; _; _] =>
      value (val_file (Some (ParsedSection (XkbFileCreate type name defs flags))))
  | 12 => rhs [_] => value (val_file_type FILE_TYPE_KEYCODES)
  | 13 => rhs [_] => value (val_file_type FILE_TYPE_TYPES)
  | 14 => rhs [_] => value (val_file_type FILE_TYPE_COMPAT)
  | 15 => rhs [_] => value (val_file_type FILE_TYPE_SYMBOLS)
  | 16 => rhs [_] => value (val_file_type FILE_TYPE_GEOMETRY)
  | 17 => rhs [val_mapFlags flags] => value (val_mapFlags flags)
  | 18 => rhs [] => value (val_mapFlags 0)
  | 19 => rhs [val_mapFlags flags; val_mapFlags flag] => value (val_mapFlags (Z.lor flags flag))
  | 20 => rhs [val_mapFlags flag] => value (val_mapFlags flag)
  | 21 => rhs [_] => value (val_mapFlags MAP_IS_PARTIAL)
  | 22 => rhs [_] => value (val_mapFlags MAP_IS_DEFAULT)
  | 23 => rhs [_] => value (val_mapFlags MAP_IS_HIDDEN)
  | 24 => rhs [_] => value (val_mapFlags MAP_HAS_ALPHANUMERIC)
  | 25 => rhs [_] => value (val_mapFlags MAP_HAS_MODIFIER)
  | 26 => rhs [_] => value (val_mapFlags MAP_HAS_KEYPAD)
  | 27 => rhs [_] => value (val_mapFlags MAP_HAS_FN)
  | 28 => rhs [_] => value (val_mapFlags MAP_IS_ALTGR)
  | 29 => rhs [_] => value (val_mapFlags MAP_IS_DEPRECATED)
  | 30 => rhs [val_sval _] =>
      if has_flag (pp_strict p) PARSER_NO_UNKNOWN_SECTION_FLAGS then Ok (AbortParse p) else value (val_mapFlags 0)
  | 31 => rhs [val_anyList defs; val_any stmt] =>
      value (val_anyList (match stmt with Some stmt => defs ++ [stmt] | None => defs end))
  | 32 => rhs [val_anyList defs; val_merge merge; val_vmodList vmods] =>
      value (val_anyList (defs ++ map (fun v => STMT_VMOD (vmod_set_merge merge v)) vmods))
  | 33 => rhs [] => value (val_anyList [])
  | _ => fun _ => Fault FaultOutOfBounds
  end.

(** Declarations: rules 34 to 94. *)
Definition decl_actions (n : Z) : list yystype -> result action_outcome :=
  match n with
  | 34 => rhs [val_merge merge; val_var v] => value (val_any (Some (STMT_VAR (var_set_merge merge v))))
  | 35 | 36 | 37 | 38 | 39 | 40 | 41 | 42 | 43 => rhs [val_merge merge; val_stmt stmt] => decl merge stmt
  | 44 | 45 | 46 => rhs [val_merge _; val_null] => value (val_any None)
  | 47 | 48 => rhs [val_merge _; val_stmt stmt] => value (val_any (Some stmt))
  | 49 => rhs [val_merge merge; val_str (Some str)] =>
      let+ include := IncludeCreate str merge in value (val_any (STMT_INCLUDE <$> include))
  | 50 => rhs [val_expr lhs; _; val_expr e; _] => value (val_var (VarCreate (Some lhs) e []))
  | 51 => rhs [val_atom ident; _] => value (val_var (BoolVarCreate ident true))
  | 52 => rhs [_; val_atom ident; _] => value (val_var (BoolVarCreate ident false))
  | 53 => rhs [val_atom name; _; val_num keycode; _] => value (val_stmt (STMT_KEYCODE MERGE_DEFAULT name keycode))
  | 54 => rhs [_; val_atom alias; _; val_atom real; _] => value (val_stmt (STMT_ALIAS MERGE_DEFAULT alias real))
  | 55 => rhs [_; val_vmodList l; _] => value (val_vmodList l)
  | 56 => rhs [val_vmodList l; _; val_vmod v] => value (val_vmodList (l ++ [v]))
  | 57 => rhs [val_vmod v] => value (val_vmodList [v])
  | 58 => rhs [val_atom name] => value (val_vmod (VModCreate name None))
  | 59 => rhs [val_atom name; _; val_expr e] => value (val_vmod (VModCreate name (Some e)))
  | 60 => rhs [_; val_stmt (STMT_INTERP merge sym match_ _); _; val_varList def; _; _] =>
      value (val_stmt (STMT_INTERP merge sym match_ def))
  | 61 => rhs [val_keysym sym; _; val_expr e] => value (val_stmt (STMT_INTERP MERGE_DEFAULT sym (Some e) []))
  | 62 => rhs [val_keysym sym] => value (val_stmt (STMT_INTERP MERGE_DEFAULT sym None []))
  | 63 => rhs [val_varList l; val_var v] => value (val_varList (l ++ [v]))
  | 64 => rhs [] => value (val_varList [])
  | 65 => rhs [_; val_atom name; _; val_varList body; _; _] => value (val_stmt (STMT_TYPE MERGE_DEFAULT name body))
  | 66 => rhs [_; val_atom name; _; val_varList body; _; _] => value (val_stmt (STMT_SYMBOLS MERGE_DEFAULT name body))
  | 67 => rhs [val_varList l] => value (val_varList l)
  | 68 => rhs [] => value (val_varList [])
  | 69 => rhs [val_varList l; _; val_var v] => value (val_varList (l ++ [v]))
  | 70 => rhs [val_var v] => value (val_varList [v])
  | 71 => rhs [val_expr lhs; _; val_expr e] => value (val_var (VarCreate (Some lhs) e []))
  | 72 => rhs [val_expr lhs; _; val_exprList (e :: next)] => value (val_var (VarCreate (Some lhs) e next))
  | 73 => rhs [val_atom ident] => value (val_var (BoolVarCreate ident true))
  | 74 => rhs [_; val_atom ident] => value (val_var (BoolVarCreate ident false))
  | 75 => rhs [val_exprList (e :: next)] => value (val_var (VarCreate None e next))
  | 76 => rhs [_; val_exprList l; _] => value (val_exprList l)
  | 77 => rhs [_; val_noSymbolOrActionList k; _; val_exprList l; _] =>
      value (val_exprList (repeat (ExprCreateKeySymList XKB_KEY_NoSymbol) (Z.to_nat k) ++ l))
  | 78 => rhs [_; val_exprList l; _] => value (val_exprList l)
  | 79 => rhs [_; val_noSymbolOrActionList k; _; val_exprList l; _] =>
      value (val_exprList (repeat (STMT_EXPR_ACTION_LIST []) (Z.to_nat k) ++ l))
  | 80 => rhs [_; val_noSymbolOrActionList _; _] => value (val_exprList [STMT_EXPR_EMPTY_LIST])
  | 81 => rhs [val_noSymbolOrActionList k; _; _; _] => value (val_noSymbolOrActionList (u32 (k + 1)))
  | 82 => rhs [_; _] => value (val_noSymbolOrActionList 1)
  | 83 => rhs [] => value (val_noSymbolOrActionList 0)
  | 84 => rhs [_; val_num group; _; val_expr e; _] => value (val_stmt (STMT_GROUP_COMPAT MERGE_DEFAULT group e))
  | 85 => rhs [_; val_expr e; _; val_exprList keys; _; _] =>
      if (pp_format p =? XKB_KEYMAP_FORMAT_TEXT_V1) && negb (Symbols.is_ident e) then Ok (ErrorParse p)
      else value (val_stmt (STMT_MODMAP MERGE_DEFAULT e keys))
  | 86 => rhs [val_exprList l; _; val_expr e] => value (val_exprList (l ++ [e]))
  | 87 => rhs [val_expr e] => value (val_exprList [e])
  | 88 => rhs [val_atom name] => value (val_expr (STMT_EXPR_KEYNAME_LITERAL name))
  | 89 => rhs [val_keysym sym] => value (val_expr (STMT_EXPR_KEYSYM_LITERAL sym))
  | 90 => rhs [_; val_atom name; _; val_varList body; _; _] => value (val_stmt (STMT_LED_MAP MERGE_DEFAULT name body))
  | 91 => rhs [_; val_num ndx; _; val_expr e; _] => value (val_stmt (STMT_LED_NAME MERGE_DEFAULT ndx e))
  | 92 => rhs [_; _; val_num ndx; _; val_expr e; _] => value (val_stmt (STMT_LED_NAME MERGE_DEFAULT ndx e))
  | 93 => rhs [val_sval _; val_expr _; _; val_expr _; _] => value (val_stmt STMT_UNKNOWN)
  | 94 => rhs [val_sval _; _; _; val_varList _; _; _] => value (val_stmt STMT_UNKNOWN)
  | _ => fun _ => Fault FaultOutOfBounds
  end.

(** Geometry, parsed and dropped, names and merge modes: rules 95 to 149. *)
Definition geometry_actions (n : Z) : list yystype -> result action_outcome :=
  match n with
  | 95 | 96 | 97 => rhs [_; val_atom _; _; val_null; _; _] => value val_null
  | 98 => rhs [val_null; val_null] => value val_null
  | 99 => rhs [val_null] => value val_null
  | 100 => rhs [_; _; val_null; _; _] => value val_null
  | 101 => rhs [val_var _] => value val_null
  | 102 => rhs [val_null] => value val_null
  | 103 => rhs [val_stmt _] => value val_null
  | 104 => rhs [val_null] => value val_null
  | 105 => rhs [val_null; val_null] => value val_null
  | 106 => rhs [val_null] => value val_null
  | 107 => rhs [_; _; val_null; _; _] => value val_null
  | 108 => rhs [val_var _] => value val_null
  | 109 => rhs [val_null; _; val_null] => value val_null
  | 110 => rhs [val_null] => value val_null
  | 111 => rhs [val_atom _] => value val_null
  | 112 => rhs [_; val_exprList _; _] => value val_null
  | 113 => rhs [_; val_atom _; _; val_null; _; _] => value val_null
  | 114 => rhs [val_null; _; val_null] => value val_null
  | 115 => rhs [val_null] => value val_null
  | 116 => rhs [val_atom _; _; val_atom _] => value val_null
  | 117 => rhs [val_null; _; val_null] => value val_null
  | 118 => rhs [val_null] => value val_null
  | 119 => rhs [_; val_null; _] => value val_null
  | 120 => rhs [val_atom _; _; _; val_null; _] => value val_null
  | 121 => rhs [val_atom _; _; val_expr _] => value val_null
  | 122 => rhs [val_null; _; val_null] => value val_null
  | 123 => rhs [val_null] => value val_null
  | 124 => rhs [_; val_num _; _; val_num _; _] => value val_null
  | 125 => rhs [val_num _; val_atom _; _; val_varList _; _; _] => value val_null
  | 126 | 127 | 128 | 129 => rhs [_] => value (val_num 0)
  | 130 | 131 => rhs [val_atom a] => value (val_atom a)
  | 132 => rhs [_] => intern_literal "action"
  | 133 => rhs [_] => intern_literal "interpret"
  | 134 => rhs [_] => intern_literal "type"
  | 135 => rhs [_] => intern_literal "key"
  | 136 => rhs [_] => intern_literal "group"
  | 137 => rhs [_] => intern_literal "modifier_map"
  | 138 => rhs [_] => intern_literal "indicator"
  | 139 => rhs [_] => intern_literal "shape"
  | 140 => rhs [_] => intern_literal "row"
  | 141 => rhs [_] => intern_literal "section"
  | 142 => rhs [_] => intern_literal "text"
  | 143 => rhs [val_merge merge] => value (val_merge merge)
  | 144 => rhs [] => value (val_merge MERGE_DEFAULT)
  | 145 | 149 => rhs [_] => value (val_merge MERGE_DEFAULT)
  | 146 => rhs [_] => value (val_merge MERGE_AUGMENT)
  | 147 => rhs [_] => value (val_merge MERGE_OVERRIDE)
  | 148 => rhs [_] => value (val_merge MERGE_REPLACE)
  | _ => fun _ => Fault FaultOutOfBounds
  end.

(** Expressions: rules 150 to 187. *)
Definition expr_actions (n : Z) : list yystype -> result action_outcome :=
  match n with
  | 150 => rhs [val_exprList l; _; val_expr e] => value (val_exprList (l ++ [e]))
  | 151 => rhs [val_expr e] => value (val_exprList [e])
  | 152 => rhs [] => value (val_exprList [])
  | 153 => rhs [val_expr a; _; val_expr b] => value (val_expr (ExprBinary STMT_EXPR_DIVIDE a b))
  | 154 => rhs [val_expr a; _; val_expr b] => value (val_expr (ExprBinary STMT_EXPR_ADD a b))
  | 155 => rhs [val_expr a; _; val_expr b] => value (val_expr (ExprBinary STMT_EXPR_SUBTRACT a b))
  | 156 => rhs [val_expr a; _; val_expr b] => value (val_expr (ExprBinary STMT_EXPR_MULTIPLY a b))
  | 157 => rhs [val_expr a; _; val_expr b] => value (val_expr (ExprBinary STMT_EXPR_ASSIGN a b))
  | 158 | 163 | 165 | 166 | 175 => rhs [val_expr e] => value (val_expr e)
  | 159 => rhs [_; val_expr e] => value (val_expr (ExprUnary STMT_EXPR_NEGATE e))
  | 160 => rhs [_; val_expr e] => value (val_expr (ExprUnary STMT_EXPR_UNARY_PLUS e))
  | 161 => rhs [_; val_expr e] => value (val_expr (ExprUnary STMT_EXPR_NOT e))
  | 162 => rhs [_; val_expr e] => value (val_expr (ExprUnary STMT_EXPR_INVERT e))
  | 164 | 177 => rhs [val_atom name; _; val_exprList args; _] => value (val_expr (STMT_EXPR_ACTION_DECL name args))
  | 167 => rhs [_; val_expr e; _] => value (val_expr e)
  | 168 => rhs [val_exprList l; _; val_expr e] => value (val_exprList (l ++ [STMT_EXPR_ACTION_LIST [e]]))
  | 169 | 172 => rhs [val_exprList l; _; val_expr e] => value (val_exprList (l ++ [e]))
  | 170 => rhs [val_expr e] => value (val_exprList [STMT_EXPR_ACTION_LIST [e]])
  | 171 | 173 => rhs [val_expr e] => value (val_exprList [e])
  | 174 => rhs [_; val_exprList l; _] => value (val_expr (STMT_EXPR_ACTION_LIST l))
  | 176 => rhs [_; _] => value (val_expr (STMT_EXPR_ACTION_LIST []))
  | 178 => rhs [val_atom ident] => value (val_expr (STMT_EXPR_IDENT ident))
  | 179 => rhs [val_atom element; _; val_atom field] => value (val_expr (STMT_EXPR_FIELD_REF element field))
  | 180 => rhs [val_atom field; _; val_expr e; _] => value (val_expr (STMT_EXPR_ARRAY_REF XKB_ATOM_NONE field e))
  | 181 => rhs [val_atom element; _; val_atom field; _; val_expr e; _] =>
      value (val_expr (STMT_EXPR_ARRAY_REF element field e))
  | 182 => rhs [val_expr e] => value (val_expr e)
  | 183 => rhs [] => value val_null
  | 184 => rhs [val_atom str] => value (val_expr (STMT_EXPR_STRING_LITERAL str))
  | 185 => rhs [val_num ival] => value (val_expr (STMT_EXPR_INTEGER_LITERAL ival))
  | 186 => rhs [val_num _] => value (val_expr STMT_EXPR_FLOAT_LITERAL)
  | 187 => rhs [val_atom name] => value (val_expr (STMT_EXPR_KEYNAME_LITERAL name))
  | _ => fun _ => Fault FaultOutOfBounds
  end.

(** Keysyms, numbers and strings: rules 188 to 221. *)
Definition keysym_actions (n : Z) : list yystype -> result action_outcome :=
  match n with
  | 188 => rhs [val_exprList l; _; val_keysym sym] => value (val_exprList (l ++ [ExprCreateKeySymList sym]))
  | 189 => rhs [val_exprList l; _; val_expr e] => value (val_exprList (l ++ [e]))
  | 190 => rhs [val_keysym sym] => value (val_exprList [ExprCreateKeySymList sym])
  | 191 => rhs [val_expr e] => value (val_exprList [e])
  | 192 => rhs [val_expr e; _; val_keysym sym] => let+ e := ExprAppendKeySymList e sym in value (val_expr e)
  | 193 => rhs [val_expr e; _; val_str (Some str)] => append_string e str
  | 194 => rhs [val_keysym sym] => value (val_expr (ExprCreateKeySymList sym))
  | 195 | 197 => rhs [val_str (Some str)] => append_string (ExprCreateKeySymList XKB_KEY_NoSymbol) str
  | 196 => rhs [_; val_expr e; _] => value (val_expr e)
  | 198 => rhs [val_expr e] => value (val_expr e)
  | 199 => rhs [_; _] => value (val_expr (ExprCreateKeySymList XKB_KEY_NoSymbol))
  | 200 => rhs [val_keysym sym] => value (val_keysym sym)
  | 201 => rhs [val_str (Some str)] =>
      let sym := KeysymParseString str in
      if sym =? XKB_KEY_NoSymbol then Ok (ErrorParse p) else value (val_keysym sym)
  | 202 => rhs [val_sval name] => value (val_keysym (default XKB_KEY_NoSymbol (resolve_keysym name)))
  | 203 => rhs [_] => value (val_keysym XKB_KEY_section)
  | 204 => rhs [val_num num] => value (val_keysym (u32 (XKB_KEY_0 + num)))
  | 205 => rhs [val_num num] => value (val_keysym (numeric_keysym num))
  | 206 => rhs [_; val_num num] => value (val_num (- num))
  | 207 | 208 | 209 | 210 | 212 | 213 | 214 | 215 => rhs [val_num num] => value (val_num num)
  | 211 => rhs [val_num _] => value (val_num 0)
  | 216 => rhs [val_sval ident] => intern ident
  | 217 => rhs [_] => intern_literal "default"
  | 218 => rhs [val_str (Some str)] => intern str
  | 219 => rhs [val_str str] => value (val_str str)
  | 220 => rhs [] => value (val_str None)
  | 221 => rhs [val_str str] => value (val_str str)
  | _ => fun _ => Fault FaultOutOfBounds
  end.

Definition semantic_action (n : Z) (v : list yystype) : result action_outcome :=
  (if n <? 34 then file_actions n else if n <? 95 then decl_actions n
   else if n <? 150 then geometry_actions n else if n <? 188 then expr_actions n else keysym_actions n) v.
End actions.

(** ** The automaton (yyparse)

    The stack is listed from its top, without the state 0 at its bottom, that
    has no value.  [yychar] is [None] when it is empty. *)

Definition YYSYMBOL_YYEOF : Z := 0.
Definition YYSYMBOL_YYerror : Z := 1.
Definition YYSYMBOL_YYUNDEF : Z := 2.

Definition YYINITDEPTH : Z := 200.
Definition YYMAXDEPTH : Z := 10000.

Record yyparser := mk_yy {
  yy_stack : list (Z * yystype);
  yy_stacksize : Z;
  yy_char : option (Z * yystype);
  yy_scanner : scanner;
  yy_param : parser_param
}.

Definition top_state (stack : list (Z * yystype)) : Z := match stack with [] => 0 | (s, _) :: _ => s end.

(** An access to a table. *)
Definition entry (t : array Z) (i : Z) : result Z := match array_get t i with Some x => Ok x | None => Fault FaultOutOfBounds end.

Definition YYTRANSLATE (yyx : Z) : result Z :=
  if (0 <=? yyx) && (yyx <=? YYMAXUTOK) then entry yytranslate yyx else Ok YYSYMBOL_YYUNDEF.

(** What the row at [yyn] of [yytable] says of a symbol, if anything. *)
Definition table_entry (yyn symbol : Z) : result (option Z) :=
  if (yyn <? 0) || (YYLAST <? yyn) then Ok None
  else
    let+ c := entry yycheck yyn in
    if negb (c =? symbol) then Ok None else let+ n := entry yytable yyn in Ok (Some n).

(** The state after the symbol of a rule, from the state at the top. *)
Definition goto_state (rule state : Z) : result Z :=
  let+ lhs := entry yyr1 rule in
  let+ row := entry yypgoto (lhs - YYNTOKENS) in
  let yyi := row + state in
  if (0 <=? yyi) && (yyi <=? YYLAST) then
    let+ c := entry yycheck yyi in
    if c =? state then entry yytable yyi else entry yydefgoto (lhs - YYNTOKENS)
  else entry yydefgoto (lhs - YYNTOKENS).

(** The growth of the stacks; [None] when their size is the largest. *)
Definition extend_stacks (depth stacksize : Z) : option Z :=
  if stacksize - 1 <=? depth then
    if YYMAXDEPTH <=? stacksize then None else Some (Z.min (stacksize * 2) YYMAXDEPTH)
  else Some stacksize.

(** The value returned by [yyparse]. *)
Inductive yyresult := YYACCEPT | YYABORT | YYNOMEM.

Definition yyoutcome : Type := yyparser + (yyresult * scanner * parser_param).

Definition yystop (r : yyresult) (s : scanner) (p : parser_param) : result yyoutcome := Ok (inr (r, s, p)).

(** [yyerrlab1]: the stack is popped until a state shifts the error token. *)
Fixpoint yyerrlab1 (stack : list (Z * yystype)) (yy : yyparser) : result yyoutcome :=
  let+ yyn := entry yypact (top_state stack) in
  let+ shift := if yyn =? YYPACT_NINF then Ok None else table_entry (yyn + YYSYMBOL_YYerror) YYSYMBOL_YYerror in
  let pop :=
    match stack with
    | [] => yystop YYABORT (yy_scanner yy) (yy_param yy)
    | _ :: stack => yyerrlab1 stack yy
    end in
  match shift with
  | Some n => if 0 <? n then Ok (inl (mk_yy ((n, val_none) :: stack) (yy_stacksize yy) (yy_char yy) (yy_scanner yy) (yy_param yy))) else pop
  | None => pop
  end.

(** [yyerrlab], the error status being 0 before. *)
Definition yyerrlab (yy : yyparser) : result yyoutcome := yyerrlab1 (yy_stack yy) yy.

Definition yyreduce (yyn : Z) (yy : yyparser) : result yyoutcome :=
  let+ yylen := entry yyr2 yyn in
  let len := Z.to_nat yylen in
  if Nat.ltb (length (yy_stack yy)) len then Fault FaultOutOfBounds
  else
    let+ outcome := semantic_action (yy_param yy) yyn (rev (map snd (take len (yy_stack yy)))) in
    let stack := drop len (yy_stack yy) in
    match outcome with
    | Value v p =>
        let+ state := goto_state yyn (top_state stack) in
        Ok (inl (mk_yy ((state, v) :: stack) (yy_stacksize yy) (yy_char yy) (yy_scanner yy) p))
    | Accept p => yystop YYACCEPT (yy_scanner yy) p
    | AbortParse p => yystop YYABORT (yy_scanner yy) p
    | ErrorParse p => yyerrlab1 stack (mk_yy stack (yy_stacksize yy) (yy_char yy) (yy_scanner yy) p)
    end.

Definition yydefault (yy : yyparser) : result yyoutcome :=
  let+ yyn := entry yydefact (top_state (yy_stack yy)) in
  if yyn =? 0 then yyerrlab yy else yyreduce yyn yy.

(** Read a token when there is none. *)
Definition yyread (yy : yyparser) : result (Z * yystype * yyparser) :=
  match yy_char yy with
  | Some (c, v) => Ok (c, v, yy)
  | None =>
      let+ r := _xkbcommon_lex (pp_atoms (yy_param yy)) (yy_scanner yy) in
      let '(tok, lval, s, atoms) := r in
      let v := lexval_yystype lval in
      let c := token_number tok in
      Ok (c, v, mk_yy (yy_stack yy) (yy_stacksize yy) (Some (c, v)) s (pp_set_atoms atoms (yy_param yy)))
  end.

(** [yysetstate], with the new state at the top of the stack, and [yybackup]. *)
Definition yystep (yy : yyparser) : result yyoutcome :=
  match extend_stacks (Z.of_nat (length (yy_stack yy))) (yy_stacksize yy) with
  | None => yystop YYNOMEM (yy_scanner yy) (yy_param yy)
  | Some stacksize =>
      let yy := mk_yy (yy_stack yy) stacksize (yy_char yy) (yy_scanner yy) (yy_param yy) in
      let state := top_state (yy_stack yy) in
      if state =? YYFINAL then yystop YYACCEPT (yy_scanner yy) (yy_param yy)
      else
        let+ yyn := entry yypact state in
        if yyn =? YYPACT_NINF then yydefault yy
        else
          let+ r := yyread yy in
          let '(c, v, yy) := r in
          let+ yytoken := if c <=? token_number END_OF_FILE then Ok YYSYMBOL_YYEOF else YYTRANSLATE c in
          let+ n := table_entry (yyn + yytoken) yytoken in
          match n with
          | None => yydefault yy
          | Some n =>
              if n <=? 0 then yyreduce (- n) yy
              else Ok (inl (mk_yy ((n, v) :: yy_stack yy) (yy_stacksize yy) None (yy_scanner yy) (yy_param yy)))
          end
  end.

Fixpoint yyloop (fuel : nat) (yy : yyparser) : result (yyresult * scanner * parser_param) :=
  match fuel with
  | O => Fault FaultFuel
  | S fuel =>
      let+ r := yystep yy in
      match r with inl yy => yyloop fuel yy | inr r => Ok r end
  end.

(** The rules reduced between two tokens are few. *)
Definition yyfuel (s : scanner) : nat := 16 * S (length (scn_rest s)).

Definition yyparse (s : scanner) (p : parser_param) : result (yyresult * scanner * parser_param) :=
  yyloop (yyfuel s) (mk_yy [] YYINITDEPTH None s p).

(** ** Maps of a file *)

Definition streq_not_null (s1 : list Z) (s2 : option (list Z)) : bool := bool_decide (Some s1 = s2).

(** The loop of [parse], with the first map so far. *)
Fixpoint parse_maps (fuel : nat) (map_ : option (list Z)) (s : scanner) (p : parser_param) (first : option parsed_map)
    : result (option parsed_map * scanner * atom_table) :=
  match fuel with
  | O => Fault FaultFuel
  | S fuel =>
      let+ r := yyparse s p in
      let '(ret, s, p) := r in
      match ret with
      | YYACCEPT =>
          if negb (pp_more_maps p) then Ok (first, s, pp_atoms p)
          else match pp_rtrn p with
               | None => Fault FaultNull
               | Some m =>
                   let next := parse_maps fuel map_ s (mk_param (pp_atoms p) (pp_format p) (pp_strict p) None (pp_more_maps p)) in
                   match map_ with
                   | Some map_ => if streq_not_null map_ (pm_name m) then Ok (Some m, s, pp_atoms p) else next first
                   | None =>
                       if has_flag (pm_flags m) MAP_IS_DEFAULT then Ok (Some m, s, pp_atoms p)
                       else next (match first with None => Some m | Some _ => first end)
                   end
               end
      | _ => Ok (None, s, pp_atoms p)
      end
  end.

Definition parse (format strict : Z) (atoms : atom_table) (s : scanner) (map_ : option (list Z))
    : result (option parsed_map * scanner * atom_table) :=
  parse_maps (S (length (scn_rest s))) map_ s (mk_param atoms format strict None false) None.

(** [None] for the returned [false]. *)
Definition parse_next (format strict : Z) (atoms : atom_table) (s : scanner)
    : result (option (option parsed_map) * scanner * atom_table) :=
  let+ r := yyparse s (mk_param atoms format strict None false) in
  let '(ret, s, p) := r in
  Ok (match ret with
      | YYACCEPT => if pp_more_maps p then Some (pp_rtrn p) else Some None
      | _ => None
      end, s, pp_atoms p).

(** ** Texts (src/xkbcomp/scanner.c) *)

Definition XkbParseStringInit (string : list Z) : option scanner := scanner_check_supported_char_encoding (scanner_init string).

Definition XkbParseString (format strict : Z) (atoms : atom_table) (string : list Z) (map_ : option (list Z))
    : result (option parsed_map * atom_table) :=
  match XkbParseStringInit string with
  | None => Ok (None, atoms)
  | Some s =>
      let+ r := parse format strict atoms s map_ in
      Ok (r.1.1, r.2)
  end.

Definition XkbParseStringNext (format strict : Z) (atoms : atom_table) (s : scanner) (map_ : option (list Z))
    : result (option (option parsed_map) * scanner * atom_table) :=
  match map_ with
  | Some _ =>
      let+ r := parse format strict atoms s map_ in
      let '(m, s, atoms) := r in
      Ok (match m with Some m => Some (Some m) | None => None end, s, atoms)
  | None => parse_next format strict atoms s
  end.

(** ** Keymaps (src/xkbcomp/xkbcomp.c, src/keymap.c)

    The files that the sections include are found and parsed by [parse_file],
    with the atoms of the text. *)

Definition map_parsed_file (m : parsed_map) : parsed_file :=
  match m with
  | ParsedSection file => mk_parsed_file (xf_file_type file) []
  | ParsedKeymap _ sections _ => mk_parsed_file FILE_TYPE_KEYMAP sections
  end.

(** [None] when the file cannot be mapped. *)
Definition XkbParseFile (format strict : Z) (atoms : atom_table) (content : option (list Z)) (map_ : option (list Z))
    : result (option parsed_map * atom_table) :=
  match content with
  | None => Ok (None, atoms)
  | Some string => XkbParseString format strict atoms string map_
  end.

Section keymap.
Context (ctx : atom_table) (parse_file : xkb_file_type -> include_item -> list (option XkbFile)).

Definition text_v1_keymap_new_from_string (format flags : Z) (string : list Z) : result (option compiled_keymap) :=
  let+ r := XkbParseString format (parser_strict_flags_from_keymap format flags) ctx string None in
  match fst r with
  | None => Ok None
  | Some m => compile_keymap_file (snd r) parse_file format flags 0 (map_parsed_file m)
  end.

Definition text_v1_keymap_new_from_file (format flags : Z) (content : option (list Z)) : result (option compiled_keymap) :=
  let+ r := XkbParseFile format (parser_strict_flags_from_keymap format flags) ctx content None in
  match fst r with
  | None => Ok None
  | Some m => compile_keymap_file (snd r) parse_file format flags 0 (map_parsed_file m)
  end.

(** A trailing zero is dropped. *)
Definition drop_zero (buffer : list Z) : list Z :=
  if bool_decide (buffer !! (length buffer - 1)%nat = Some 0) then take (length buffer - 1) buffer else buffer.

Definition xkb_keymap_new_from_buffer (buffer : option (list Z)) (format flags : Z) : result (option compiled_keymap) :=
  if negb (is_text_format format) then Ok None
  else match buffer with
       | None => Ok None
       | Some buffer => if negb (keymap_flags_ok flags) then Ok None else text_v1_keymap_new_from_string format flags (drop_zero buffer)
       end.

(** The bytes of a string, before its terminating zero. *)
Definition xkb_keymap_new_from_string (string : list Z) (format flags : Z) : result (option compiled_keymap) :=
  xkb_keymap_new_from_buffer (Some (cstr string)) format flags.

(** A file that is not null, with what it maps to. *)
Definition xkb_keymap_new_from_file (file : option (option (list Z))) (format flags : Z) : result (option compiled_keymap) :=
  if negb (is_text_format format) then Ok None
  else match file with
       | None => Ok None
       | Some content => if negb (keymap_flags_ok flags) then Ok None else text_v1_keymap_new_from_file format flags content
       end.
End keymap.
