(* ===== verification/KeymapLexerSpec.v ===== *)
(** * The lexer of keymap files

    The keywords are recognised by their names, without regard to case; a call
    ends, and gives a token with a value of the type of the token, having read
    one byte at least; the atoms of the names of keys are in the table. *)

From Stdlib Require Import ZArith Lia String.
From stdpp Require Import base tactics list numbers strings.
From S2P Require Import Prelude Numbers Atom AtomSpec Utf8 KeysymNames Scanner Expr Safe RulesBytes KeymapLexer.

(** ** Keywords *)

(** The names of keywords.gperf. *)
Definition keywords : list (string * yytokentype) := omap id gperf_wordlist.

Lemma asso_downcase c : is_char c -> asso_value (downcase c) = asso_value c.
Proof.
  intros Hc. assert (forallb (fun n => asso_value (downcase (Z.of_nat n)) =? asso_value (Z.of_nat n)) (seq 0 256) = true) as H by (vm_compute; reflexivity).
  rewrite forallb_forall in H. specialize (H (Z.to_nat c)). rewrite Z2Nat.id in H by (unfold is_char in Hc; lia).
  apply Z.eqb_eq, H, in_seq. unfold is_char in Hc. lia.
Qed.

(** The test of the first character. *)
Lemma first_char_matches c d : is_char c -> is_char d -> downcase c = downcase d -> is_alpha d = true -> Z.land (Z.lxor c d) (Z.lnot 32) = 0.
Proof.
  intros Hc Hd E Ha.
  assert (forallb (fun n => forallb (fun m => negb (downcase (Z.of_nat n) =? downcase (Z.of_nat m)) || negb (is_alpha (Z.of_nat m)) ||
      (Z.land (Z.lxor (Z.of_nat n) (Z.of_nat m)) (Z.lnot 32) =? 0)) (seq 0 256)) (seq 0 256) = true) as H by (vm_compute; reflexivity).
  rewrite forallb_forall in H. specialize (H (Z.to_nat c)). unfold is_char in *. rewrite forallb_forall in H.
  assert (forall x, 0 <= x < 256 -> In (Z.to_nat x) (seq 0 256)) as Hin by (intros x Hx; apply in_seq; lia).
  specialize (H (Hin c Hc) (Z.to_nat d) (Hin d Hd)). rewrite !Z2Nat.id, E, Z.eqb_refl, Ha in H by lia. by apply Z.eqb_eq.
Qed.

Definition same_word (s name : list Z) : Prop := map downcase s = map downcase name.

Lemma case_memcmp_spec n : forall s1 s2, length s1 = n -> length s2 = n -> gperf_case_memcmp s1 s2 n = true <-> same_word s1 s2.
Proof.
  induction n as [|n IH]; intros [|a s1] [|b s2] H1 H2; try done. cbn [gperf_case_memcmp]. rewrite andb_true_iff, Z.eqb_eq.
  change (drop 1 (a :: s1)) with s1. change (drop 1 (b :: s2)) with s2. rewrite IH by (cbn in *; lia). unfold same_word. cbn. split; [by intros [-> ->]|by intros [= -> ->]].
Qed.

Lemma same_word_at s name i : same_word s name -> (i < length name)%nat -> downcase (char_at s i) = downcase (char_at name i).
Proof.
  intros H Hi. unfold char_at. assert (length s = length name) as Hl by (by rewrite <- (length_map downcase s), H, length_map).
  assert (map downcase s !! i = map downcase name !! i) as E by (by rewrite H). rewrite !list_lookup_fmap in E.
  destruct (lookup_lt_is_Some_2 s i) as [x Hx]; [lia|]. destruct (lookup_lt_is_Some_2 name i) as [y Hy]; [lia|].
  rewrite Hx, Hy in *. cbn in *. by injection E.
Qed.

Lemma char_at_char s i : bytes s -> is_char (char_at s i).
Proof.
  intros Hs. unfold char_at. destruct (s !! i) as [c|] eqn:E; cbn; [|by split].
  exact (proj1 (list.Forall_lookup _ _) Hs i c E).
Qed.

(** The hash does not depend on the case. *)
Lemma hash_same s name : bytes s -> bytes name -> name <> [] -> same_word s name ->
  keyword_gperf_hash s (length s) = keyword_gperf_hash name (length name).
Proof.
  intros Hs Hn Hne H. assert (length s = length name) as Hl by (by rewrite <- (length_map downcase s), H, length_map).
  unfold keyword_gperf_hash. rewrite Hl. destruct name as [|c name]; [done|].
  assert (forall i, (i < length (c :: name))%nat -> asso_value (char_at s i) = asso_value (char_at (c :: name) i)) as Ha.
  { intros i Hi. rewrite <- (asso_downcase (char_at s i)), <- (asso_downcase (char_at (c :: name) i)) by by apply char_at_char. by rewrite (same_word_at s (c :: name)). }
  rewrite (Ha (length (c :: name) - 1)%nat) by (cbn; lia). destruct (Nat.leb_spec (length (c :: name)) 4); [done|]. by rewrite Ha by lia.
Qed.

(** Each keyword is where its hash says. *)
Definition keyword_placed (k : string * yytokentype) : bool :=
  let name := bytes_of (fst k) in
  let key := keyword_gperf_hash name (length name) in
  forallb (fun c => (0 <=? c) && (c <? 256)) name && is_alpha (char_at name 0) &&
  Nat.leb (length name) MAX_WORD_LENGTH && Nat.leb MIN_WORD_LENGTH (length name) && (0 <=? key) && (key <=? MAX_HASH_VALUE) &&
  bool_decide (gperf_lengthtable !! Z.to_nat key = Some (Z.of_nat (length name))) &&
  match gperf_wordlist !! Z.to_nat key with
  | Some (Some (n, _)) => String.eqb n (fst k)
  | _ => false
  end.

Lemma keywords_placed : forallb keyword_placed keywords = true.
Proof. vm_compute. reflexivity. Qed.

Lemma lookup_found s name tok : bytes s -> (name, tok) ∈ keywords -> same_word s (bytes_of name) ->
  exists tok', keyword_gperf_lookup s (length s) = Some (name, tok').
Proof.
  intros Hs Hin H. pose proof keywords_placed as Hp. rewrite forallb_forall in Hp. apply list_elem_of_In, Hp in Hin. clear Hp.
  unfold keyword_placed in Hin. cbn [fst] in Hin. repeat (apply andb_true_iff in Hin as [Hin ?]).
  assert (bytes (bytes_of name)) as Hn.
  { apply list.Forall_forall. intros c Hc. rewrite forallb_forall in Hin. apply list_elem_of_In, Hin in Hc. unfold is_char. lia. }
  assert (bytes_of name <> []) as Hne by (intros E; rewrite E in *; done).
  assert (length s = length (bytes_of name)) as Hl by (by rewrite <- (length_map downcase s), H, length_map).
  unfold keyword_gperf_lookup. rewrite (hash_same s (bytes_of name)), Hl by done.
  match goal with H1 : Nat.leb (length _) _ = true, H2 : Nat.leb _ (length _) = true |- _ => rewrite H1, H2 end. cbn [andb].
  match goal with H1 : bool_decide _ = true |- _ => apply bool_decide_eq_true in H1; rewrite H1 end.
  match goal with H1 : (_ <=? MAX_HASH_VALUE) = true |- _ => rewrite H1 end. cbn [andb default]. rewrite Z.eqb_refl.
  destruct (gperf_wordlist !! _) as [[[n t]|]|]; try done. 
  match goal with H1 : String.eqb n name = true |- _ => apply String.eqb_eq in H1; subst n end.
  rewrite (first_char_matches _ (char_at (bytes_of name) 0)); [|by apply char_at_char|by apply char_at_char| |done].
  - rewrite (proj2 (case_memcmp_spec (length (bytes_of name)) s (bytes_of name) Hl eq_refl) H). by exists t.
  - apply same_word_at; [done|]. destruct (bytes_of name); [done|cbn; lia].
Qed.

(** The tokens of the names are unique. *)
Lemma keyword_names_distinct : NoDup (map fst keywords).
Proof. apply (bool_decide_eq_true_1 (NoDup (map fst keywords))). vm_compute. reflexivity. Qed.

Lemma wordlist_keyword key name tok : gperf_wordlist !! key = Some (Some (name, tok)) -> (name, tok) ∈ keywords.
Proof. intros H. apply list_elem_of_omap. exists (Some (name, tok)). split; [by eapply list_elem_of_lookup_2|done]. Qed.

Lemma keyword_token_unique name tok tok' : (name, tok) ∈ keywords -> (name, tok') ∈ keywords -> tok = tok'.
Proof.
  intros (i & Hi)%list_elem_of_lookup_1 (j & Hj)%list_elem_of_lookup_1.
  assert (i = j) as ->.
  { apply (NoDup_lookup (map fst keywords) i j name); [apply keyword_names_distinct|by rewrite list_lookup_fmap, Hi|by rewrite list_lookup_fmap, Hj]. }
  congruence.
Qed.

Lemma word_lengths key name tok : gperf_wordlist !! key = Some (Some (name, tok)) -> gperf_lengthtable !! key = Some (Z.of_nat (length (bytes_of name))).
Proof.
  assert (forallb (fun key => match gperf_wordlist !! key with
    | Some (Some (name, _)) => bool_decide (gperf_lengthtable !! key = Some (Z.of_nat (length (bytes_of name))))
    | _ => true end) (seq 0 88) = true) as H by (vm_compute; reflexivity).
  intros Hk. rewrite forallb_forall in H. specialize (H key). rewrite Hk in H. eapply bool_decide_eq_true_1, H, in_seq.
  apply lookup_lt_Some in Hk. replace (length gperf_wordlist) with 88%nat in Hk by (vm_compute; reflexivity). lia.
Qed.

Lemma keyword_lookup_sound s name tok : keyword_gperf_lookup s (length s) = Some (name, tok) -> (name, tok) ∈ keywords /\ same_word s (bytes_of name).
Proof.
  unfold keyword_gperf_lookup. destruct (_ && _); [|done]. destruct (_ && _) eqn:Hk; [|done]. apply andb_true_iff in Hk as [_ Hl].
  destruct (gperf_wordlist !! _) as [[[n t]|]|] eqn:Hw; try done. destruct (_ && _) eqn:E; [|done]. intros [= <- <-].
  rewrite (word_lengths _ _ _ Hw) in Hl. cbn in Hl. apply wordlist_keyword in Hw. split; [done|]. apply andb_true_iff in E as [_ E].
  apply (case_memcmp_spec (length s)); [done| |done]. apply Z.eqb_eq in Hl. lia.
Qed.

(** C9. The perfect hash recognises the keywords, and only them: a word is the
    token of the keyword that it spells, in whatever case. *)
Theorem keyword_to_token_spec (s : list Z) (tok : yytokentype) : bytes s ->
  keyword_to_token s (length s) = Some tok <-> exists name, (name, tok) ∈ keywords /\ same_word s (bytes_of name).
Proof.
  intros Hs. unfold keyword_to_token. split.
  - destruct (keyword_gperf_lookup s (length s)) as [[name t]|] eqn:E; [|done]. intros [= <-]. exists name. by apply keyword_lookup_sound.
  - intros (name & Hin & Hw). destruct (lookup_found s name tok Hs Hin Hw) as (t & E). rewrite E.
    apply keyword_lookup_sound in E as [Hin' _]. by rewrite (keyword_token_unique name tok t).
Qed.

Lemma keyword_to_token_spec_witness : exists name, (name, MODIFIER_MAP) ∈ keywords /\ same_word (bytes_of "ModMap") (bytes_of name).
Proof.
  apply (keyword_to_token_spec (bytes_of "ModMap") MODIFIER_MAP); [|vm_compute; reflexivity].
  apply list.Forall_forall. intros c Hc. apply list_elem_of_In in Hc. cbn in Hc. unfold is_char. lia.
Defined.

(** ** Tables of atoms that grow *)

Definition atoms_fine (t : atom_table) : Prop := exists ss, atoms_ok t ss.

(** The atoms keep their texts. *)
Definition grows (t t' : atom_table) : Prop := forall a o, xkb_atom_text t a = Ok o -> xkb_atom_text t' a = Ok o.

#[export] Instance grows_preorder : PreOrder grows.
Proof. split; [by intros t a o|]. intros t1 t2 t3 H1 H2 a o H. by apply H2, H1. Qed.

Lemma prefix_grows t t' ss ss' : atoms_ok t ss -> atoms_ok t' ss' -> ss `prefix_of` ss' -> grows t t'.
Proof.
  intros Ht Ht' Hp a o. unfold xkb_atom_text. destruct (Z.to_nat a) as [|j].
  - unfold atom_text. by rewrite (ao_strings _ _ Ht), (ao_strings _ _ Ht').
  - rewrite (atom_text_spec t ss), (atom_text_spec t' ss') by done. destruct (ss !! j) as [s|] eqn:E; [|done].
    intros [= <-]. by rewrite (prefix_lookup_Some _ _ _ _ E Hp).
Qed.

Lemma intern_fine t s : atoms_fine t -> no_nul s ->
  exists a t', atom_intern t s (length s) true = Ok (a, t') /\ atoms_fine t' /\ grows t t' /\
    0 < Z.of_nat a /\ xkb_atom_text t' (Z.of_nat a) = Ok (Some s).
Proof.
  intros [ss Ht] Hs. destruct (atom_intern_ok t ss s true Ht Hs) as (t' & E & Ht').
  destruct (intern_spec_lookup ss s) as (j & Hj & Hat & Hp). rewrite Hj in E. exists (S j), t'.
  split; [done|]. split; [by eexists|]. split; [by eapply prefix_grows|]. split; [lia|].
  unfold xkb_atom_text. rewrite Nat2Z.id, (atom_text_spec _ _ _ Ht'). by rewrite Hat.
Qed.

Lemma text_atom t a s : xkb_atom_text t a = Ok (Some s) -> atom_ok t a.
Proof. intros H. exists s. unfold atom_string. by rewrite H. Qed.

(** ** Scanners of bytes *)

Definition scanner_bytes (s : scanner) : Prop := bytes (scn_rest s) /\ bytes (scn_buf s).

(** [s'] is [s] after some bytes. *)
Definition reads (s s' : scanner) : Prop := scanner_bytes s' /\ (length (scn_rest s') <= length (scn_rest s))%nat.
Definition reads_some (s s' : scanner) : Prop := scanner_bytes s' /\ (length (scn_rest s') < length (scn_rest s))%nat.

Lemma reads_trans s1 s2 s3 : reads s1 s2 -> reads s2 s3 -> reads s1 s3.
Proof. intros [_ H1] [H2 H3]. split; [done|lia]. Qed.
Lemma reads_some_left s1 s2 s3 : reads_some s1 s2 -> reads s2 s3 -> reads_some s1 s3.
Proof. intros [_ H1] [H2 H3]. split; [done|lia]. Qed.
Lemma reads_some_right s1 s2 s3 : reads s1 s2 -> reads_some s2 s3 -> reads_some s1 s3.
Proof. intros [_ H1] [H2 H3]. split; [done|lia]. Qed.
Lemma reads_some_reads s s' : reads_some s s' -> reads s s'.
Proof. intros [H1 H2]. split; [done|lia]. Qed.
Lemma reads_refl s : scanner_bytes s -> reads s s.
Proof. by split. Qed.

Create HintDb scan.
#[export] Hint Resolve reads_some_reads reads_refl : scan.

Lemma chr_reads s ch s' : scanner_bytes s -> ch <> 0 -> scanner_chr s ch = Some s' -> reads_some s s' /\ scn_rest s = ch :: scn_rest s' /\ scn_buf s' = scn_buf s.
Proof.
  intros [H1 H2] Hch. unfold scanner_chr, scanner_peek. destruct s as [[|c l] buf]; cbn [scn_rest scn_buf] in *.
  - rewrite (proj2 (Z.eqb_neq 0 ch)) by done. done.
  - destruct (Z.eqb_spec c ch) as [->|]; [|done]. intros [= <-]. split; [|done]. apply list.Forall_cons in H1 as [_ H1]. split; [by split|]. unfold advance. cbn [scn_rest drop length]. rewrite drop_0. lia.
Qed.

Lemma str_reads s str s' : scanner_bytes s -> str <> [] -> scanner_str s str = Some s' -> reads_some s s'.
Proof.
  intros [H1 H2] Hne. unfold scanner_str. destruct (bool_decide_reflect (take (length str) (scn_rest s) = str)) as [E|]; [|done]. intros [= <-].
  split; [split; cbn; auto with bytes|]. cbn. rewrite length_drop. destruct str; [done|].
  assert (length (take (length (z :: str)) (scn_rest s)) = length (z :: str)) as Hl by (by rewrite E). rewrite length_take in Hl. cbn [length] in *. lia.
Qed.

Lemma skip_spaces_reads l : bytes l -> bytes (skip_spaces l) /\ (length (skip_spaces l) <= length l)%nat.
Proof.
  intros H. induction H as [|c l Hc Hl [IH1 IH2]]; cbn; [split; [apply Forall_nil_2|done]|]. destruct (is_space c); [split; [done|lia]|]. split; [by apply Forall_cons_2|done].
Qed.

Lemma skip_to_eol_reads l : bytes l -> bytes (skip_to_eol l) /\ (length (skip_to_eol l) <= length l)%nat.
Proof.
  intros H. induction H as [|c l Hc Hl [IH1 IH2]]; cbn; [split; [apply Forall_nil_2|done]|]. destruct (c =? 10); [|split; [done|lia]]. split; [by apply Forall_cons_2|done].
Qed.

Lemma eol_reads s : scanner_bytes s -> reads s (scanner_skip_to_eol s).
Proof. intros [H1 H2]. destruct (skip_to_eol_reads _ H1). by split; [split|]. Qed.

Lemma skip_more_reads fuel : forall s, scanner_bytes s -> reads s (skip_more_whitespace_and_comments fuel s).
Proof.
  induction fuel as [|fuel IH]; intros s Hs; cbn [skip_more_whitespace_and_comments]; [by apply reads_refl|].
  set (s1 := mk_scanner (skip_spaces (scn_rest s)) (scn_buf s)). assert (reads s s1) as R.
  { destruct Hs as [H1 H2]. destruct (skip_spaces_reads _ H1). by split; [split|]. }
  apply (reads_trans s s1); [done|]. destruct R as [Hs1 _]. clearbody s1. clear s Hs.
  assert (forall s2, reads_some s1 s2 -> reads s1 (skip_more_whitespace_and_comments fuel s2)) as Hnext.
  { intros s2 R. eapply reads_trans; [by apply reads_some_reads|]. apply IH, R. }
  assert (forall s2, reads_some s1 s2 -> reads_some s1 (scanner_skip_to_eol s2)) as Heol.
  { intros s2 R. eapply reads_some_left; [done|]. apply eol_reads, R. }
  destruct (scanner_str s1 LEFT_TO_RIGHT_MARK) eqn:E1; [apply str_reads in E1; [by apply Hnext|done..]|].
  destruct (scanner_str s1 RIGHT_TO_LEFT_MARK) eqn:E2; [apply str_reads in E2; [by apply Hnext|done..]|].
  destruct (scanner_str s1 [47; 47]) eqn:E3; [apply str_reads in E3; [by apply Hnext, Heol|done..]|].
  destruct (scanner_chr s1 35) eqn:E4; [|by apply reads_refl]. apply chr_reads in E4 as (R & _); [by apply Hnext, Heol|done..].
Qed.

(** ** String literals *)

Lemma append_char_reads s c : scanner_bytes s -> is_char c -> reads s (append_char s c).
Proof.
  intros [H1 H2] Hc. unfold append_char, scanner_buf_append. destruct (Nat.leb _ _); [by split|]. split; [|done]. split; cbn; auto with bytes.
Qed.

Lemma encode_bytes cp : scalar cp -> bytes (encode cp).
Proof.
  intros [Hr _]. unfold encode. assert (forall x, 0 <= x mod 64 < 64) as Hm by (intros; apply Z.mod_pos_bound; lia).
  pose proof (Hm cp). pose proof (Hm (cp / 64)). pose proof (Hm (cp / 4096)).
  assert (0 <= cp / 64 /\ 0 <= cp / 4096 /\ 0 <= cp / 262144 /\ (cp <= 0x7ff -> cp / 64 < 32) /\ (cp <= 0xffff -> cp / 4096 < 16) /\ cp / 262144 < 5) as Hd
    by (Z.to_euclidean_division_equations; lia).
  destruct (Z.leb_spec cp 0x7f); [|destruct (Z.leb_spec cp 0x7ff); [|destruct (Z.leb_spec cp 0xffff)]];
    repeat (apply Forall_cons_2 || apply Forall_nil_2); unfold is_char; lia.
Qed.

Lemma append_code_point_reads s cp : scanner_bytes s -> 0 <= cp <= 0x10ffff -> reads s (fst (scanner_buf_appends_code_point s cp)).
Proof.
  intros [H1 H2] Hcp. unfold scanner_buf_appends_code_point. destruct (Nat.leb _ _); [|by split].
  assert (forall u, scalar u -> bytes (take (Z.to_nat (fst (utf32_to_utf8 u) - 1)) (snd (utf32_to_utf8 u)))) as Henc.
  { intros u Hu. rewrite (utf32_to_utf8_scalar u Hu). cbn [fst snd]. replace (Z.to_nat _) with (length (encode u)) by lia.
    rewrite take_app_length. by apply encode_bytes. }
  destruct (is_surrogate cp) eqn:Hsur.
  - assert (utf32_to_utf8 cp = (0, [0])) as ->.
    { apply is_surrogate_spec in Hsur as Hr. unfold utf32_to_utf8. rewrite Hsur. destruct (Z.leb_spec cp 0x7f); [lia|]. by destruct (Z.leb_spec cp 0x7ff); [lia|]. }
    cbn. split; [|done]. split; cbn; [done|]. apply bytes_app; [done|]. repeat (apply Forall_cons_2 || apply Forall_nil_2); by split.
  - assert (scalar cp) as Hs by (split; [done|]; intros Hx; apply is_surrogate_spec in Hx; congruence).
    specialize (Henc cp Hs). destruct (utf32_to_utf8 cp) as [count b] eqn:E. cbn [fst snd] in Henc.
    destruct (count =? 0) eqn:E0.
    + split; [|done]. split; cbn; [done|]. apply bytes_app; [done|]. repeat (apply Forall_cons_2 || apply Forall_nil_2); by split.
    + rewrite E0. split; [|done]. split; cbn; auto with bytes.
Qed.

Lemma skip_escape_reads l : bytes l -> bytes (skip_escape l) /\ (length (skip_escape l) <= length l)%nat.
Proof.
  intros H. induction H as [|c l Hc Hl [IH1 IH2]]; cbn; [split; [apply Forall_nil_2|done]|]. destruct (_ || _); [|split; [done|lia]]. split; [by apply Forall_cons_2|done].
Qed.

Lemma drop_reads s n : scanner_bytes s -> reads s (mk_scanner (drop n (scn_rest s)) (scn_buf s)).
Proof. intros [H1 H2]. split; [split; cbn; auto with bytes|]. cbn. rewrite length_drop. lia. Qed.

Lemma parsed_value base digit isd max s len r : 0 <= max -> parsed base digit isd max s len r -> 1 <= base ->
  (forall c, is_char c -> isd c = true -> 0 <= digit c) -> bytes s -> 0 <= snd r <= max /\ fst r <= Z.of_nat (length s).
Proof.
  intros Hm H Hb Hd Hs. unfold parsed in H. assert (forall len, Forall (fun c => 0 <= digit c) (prefix_of_class isd s len)) as Hall.
  { clear -Hs Hd. induction Hs as [|c s Hc Hs IH]; intros [|len]; cbn; try apply Forall_nil_2. destruct (isd c) eqn:E; [|apply Forall_nil_2]. apply Forall_cons_2; auto. }
  assert (forall len, (length (prefix_of_class isd s len) <= length s)%nat) as Hl.
  { clear. induction s as [|c s IH]; intros [|len]; cbn; try lia. destruct (isd c); cbn; [specialize (IH len)|]; lia. }
  destruct (Z.leb_spec (value_in base digit (prefix_of_class isd s len) 0) max) as [Hle|Hgt].
  - rewrite H. cbn [fst snd]. pose proof (value_in_ge base digit _ 0 Hb ltac:(lia) (Hall len)). specialize (Hl len). lia.
  - destruct H as [-> H]. lia.
Qed.

Lemma parse_hex32_range s : bytes s -> 0 <= snd (parse_hex_to_uint32_t s (length s)) <= UINT32_MAX.
Proof.
  intros Hs. pose proof (parse_hex_spec UINT32_MAX s (length s) ltac:(done) ltac:(done) Hs) as H.
  apply parsed_value in H as [H _]; [exact H|done|done| |done]. intros c Hc Hx. by apply (hex_class c Hc).
Qed.

Lemma unicode_reads s : scanner_bytes s ->
  reads s (fst (scanner_unicode_code_point s)) /\ forall cp, snd (scanner_unicode_code_point s) = Some cp -> 0 <= cp <= 0x10ffff.
Proof.
  intros Hs. unfold scanner_unicode_code_point. destruct (scanner_chr s 123) as [s1|] eqn:E1; [|by split; [apply reads_refl|]].
  apply chr_reads in E1 as (R1 & _); [|done|done]. pose proof (parse_hex32_range (scn_rest s1) ltac:(apply R1)) as Hcp.
  destruct (parse_hex_to_uint32_t _ _) as [count cp]. cbn [snd] in Hcp.
  set (s2 := if count >? 0 then _ else _). assert (reads s s2) as R2.
  { unfold s2. destruct (count >? 0); [|by apply reads_some_reads]. eapply reads_trans; [by apply reads_some_reads|]. apply drop_reads, R1. }
  clearbody s2. destruct (skip_escape_reads (scn_rest s2) ltac:(apply R2)) as [H1 H2].
  destruct (scanner_chr _ 125) as [s3|] eqn:E3; [|by split].
  apply chr_reads in E3 as (R3 & _); [|split; [done|apply R2]|done]. cbn [fst snd]. split.
  - eapply reads_trans; [exact R2|]. destruct R3 as [R3 R4]. split; [done|]. cbn in R4. lia.
  - intros cp'. destruct (_ && _) eqn:E; [|done]. intros [= <-]. apply andb_true_iff in E as [_ E]. lia.
Qed.

Lemma next_reads s : scanner_bytes s -> reads s (snd (scanner_next s)) /\ is_char (fst (scanner_next s)).
Proof.
  intros [H1 H2]. unfold scanner_next. destruct (scn_rest s) as [|c l] eqn:E.
  - split; [apply reads_refl; split; cbn; [by rewrite E|done]|by split].
  - apply list.Forall_cons in H1 as [Hc Hl]. split; [|done]. split; [by split|]. rewrite E. cbn. lia.
Qed.

Lemma oct_loop_reads fuel : forall s i c, scanner_bytes s -> is_char c ->
  reads s (fst (oct_loop fuel s i c)) /\ forall o, snd (oct_loop fuel s i c) = Some o -> is_char o.
Proof.
  assert (forall (i c o : Z), is_char c -> (if i >? 0 then Some c else None) = Some o -> is_char o) as Hend.
  { intros i c o Hc. destruct (i >? 0); [by intros [= <-]|done]. }
  induction fuel as [|fuel IH]; intros s i c Hs Hc; cbn [oct_loop]; [split; [by apply reads_refl|intros o; by apply Hend]|].
  destruct (is_octal (scanner_peek s)); [|split; [by apply reads_refl|intros o; by apply Hend]].
  destruct (next_reads s Hs) as [R _]. destruct (c <? 32); [|by split].
  destruct (scanner_next s) as [ch s']. cbn [snd] in R.
  assert (is_char (u8 (c * 8 + (ch - 48)))) as H8 by apply Z.mod_pos_bound, eq_refl.
  destruct (IH s' (i + 1) _ (proj1 R) H8) as [H1 H2]. split; [|exact H2]. by eapply reads_trans.
Qed.

Lemma peek_advance s c : escape_char (scanner_peek s) = Some c -> scanner_bytes s -> reads s (advance s) /\ is_char c.
Proof.
  intros E Hs. split; [by apply drop_reads|]. unfold escape_char in E.
  repeat (destruct (_ =? _) in E; [injection E as <-; split; lia|]). done.
Qed.

Lemma string_escape_reads s : scanner_bytes s -> reads s (string_escape s).
Proof.
  intros Hs. unfold string_escape. destruct (escape_char _) as [c|] eqn:E.
  { apply peek_advance in E as [R Hc]; [|done]. eapply reads_trans; [done|]. apply append_char_reads; [apply R|done]. }
  destruct (scanner_chr s 117) as [s1|] eqn:E1.
  - apply chr_reads in E1 as (R1 & _); [|done|done]. destruct (unicode_reads s1 (proj1 R1)) as [R2 Hcp].
    destruct (scanner_unicode_code_point s1) as [s2 [cp|]]; cbn [fst snd] in *; [destruct (is_valid_char cp)|].
    + eapply reads_trans; [by apply reads_some_reads|]. eapply reads_trans; [done|]. apply append_code_point_reads; [apply R2|by apply Hcp].
    + eapply reads_trans; [by apply reads_some_reads|done].
    + eapply reads_trans; [by apply reads_some_reads|done].
  - destruct (oct_loop_reads 4 s 0 0 Hs ltac:(by split)) as [R Ho]. unfold scanner_oct.
    destruct (oct_loop 4 s 0 0) as [s2 [o|]]; cbn [fst snd] in *; [|done]. destruct (is_valid_char o); [|done].
    eapply reads_trans; [done|]. apply append_char_reads; [apply R|by apply Ho].
Qed.

(** The loop over a string ends at its quote, at the end of its line or of the
    text. *)
Definition string_ends (s : scanner) : bool := scanner_eof s || scanner_eol s || (scanner_peek s =? 34).

Lemma string_literal_reads fuel : forall s, scanner_bytes s -> (length (scn_rest s) < fuel)%nat ->
  reads s (string_literal fuel s) /\ string_ends (string_literal fuel s) = true.
Proof.
  induction fuel as [|fuel IH]; intros s Hs Hf; [lia|]. cbn [string_literal]. destruct (scanner_eof s || _ || _) eqn:E; [by split; [apply reads_refl|]|].
  assert (forall s1, reads_some s s1 -> reads s (string_literal fuel s1) /\ string_ends (string_literal fuel s1) = true) as Hnext.
  { intros s1 [H1 H2]. destruct (IH s1 H1) as [R H]; [lia|]. split; [|done]. eapply reads_trans; [|done]. split; [done|lia]. }
  destruct (scanner_chr s 92) as [s1|] eqn:E1.
  - apply chr_reads in E1 as (R1 & _); [|done|done]. apply Hnext. eapply reads_some_left; [done|]. apply string_escape_reads, R1.
  - destruct (next_reads s Hs) as [_ Hc]. apply orb_false_iff in E as [[He _]%orb_false_iff _].
    unfold scanner_eof, scanner_next in *. destruct (scn_rest s) as [|c l] eqn:El; [done|]. cbn [fst] in Hc. apply Hnext.
    destruct Hs as [H1 H2]. rewrite El in H1. apply list.Forall_cons in H1 as [_ H1].
    assert (reads_some s (mk_scanner l (scn_buf s))) as R by (split; [by split|rewrite El; cbn; lia]).
    eapply reads_some_left; [done|]. apply append_char_reads; [apply R|done].
Qed.

(** ** Words *)

Lemma take_chars_spec f l : bytes l -> let (t, rest) := take_chars f l in
  l = t ++ rest /\ Forall (fun c => f c = true) t /\ bytes t /\ bytes rest.
Proof.
  intros H. induction H as [|c l Hc Hl IH]; cbn [take_chars]; [repeat split; apply Forall_nil_2|].
  destruct (f c) eqn:Ef; [|repeat split; try apply Forall_nil_2; by apply Forall_cons_2].
  destruct (take_chars f l) as [t rest]. destruct IH as (-> & H1 & H2 & H3). repeat split; try done; by apply Forall_cons_2.
Qed.

Lemma class_no_nul f t : f 0 = false -> Forall (fun c => f c = true) t -> no_nul t.
Proof. intros Hf H. refine (list.Forall_impl _ _ _ H _). intros c Hc ->. congruence. Qed.

Lemma cstr_no_nul s : bytes s -> no_nul (cstr s) /\ bytes (cstr s).
Proof.
  intros H. induction H as [|c s Hc Hs [IH1 IH2]]; cbn [cstr]; [split; apply Forall_nil_2|].
  destruct (Z.eqb_spec c 0); [split; apply Forall_nil_2|]. split; by apply Forall_cons_2.
Qed.

(** ** Numbers *)

Definition is_int63 (n : Z) : Prop := 0 <= n < 2 ^ 63.

Lemma int64_reads (parse : list Z -> nat -> Z * Z) s :
  (fst (parse (scn_rest s) (length (scn_rest s))) <= Z.of_nat (length (scn_rest s)) /\ 0 <= snd (parse (scn_rest s) (length (scn_rest s)))) ->
  scanner_bytes s ->
  let r := (let (count, val) := parse (scn_rest s) (length (scn_rest s)) in
            if count >? 0 then
              if val >=? 2 ^ 63 then (-1, 0, s)
              else (count, val, mk_scanner (drop (Z.to_nat count) (scn_rest s)) (scn_buf s))
            else (count, 0, s)) in
  reads s (snd r) /\ is_int63 (snd (fst r)) /\ (0 < fst (fst r) -> reads_some s (snd r)).
Proof.
  intros [Hc Hv] Hs. destruct (parse _ _) as [count val]. cbn [fst snd] in Hc, Hv. destruct (Z.gtb_spec count 0) as [Hp|Hp].
  - destruct (Z.geb_spec val (2 ^ 63)); cbn [fst snd]; [split; [by apply reads_refl|]; split; [by split|lia]|].
    split; [by apply drop_reads|]. split; [by split|]. intros _. split; [by apply drop_reads|]. cbn. rewrite length_drop. lia.
  - cbn [fst snd]. split; [by apply reads_refl|]. split; [by split|lia].
Qed.

Lemma dec_int64_reads s : scanner_bytes s ->
  reads s (snd (scanner_dec_int64 s)) /\ is_int63 (snd (fst (scanner_dec_int64 s))) /\ (0 < fst (fst (scanner_dec_int64 s)) -> reads_some s (snd (scanner_dec_int64 s))).
Proof.
  intros Hs. apply int64_reads; [|done]. pose proof (parse_dec_spec UINT64_MAX (scn_rest s) (length (scn_rest s)) ltac:(done) (proj1 Hs)) as H.
  apply parsed_value in H as [H1 H2]; [unfold parse_dec_to_uint64_t; lia|done|lia| |apply Hs]. intros c _ _. apply Z.mod_pos_bound, eq_refl.
Qed.

Lemma hex_int64_reads s : scanner_bytes s ->
  reads s (snd (scanner_hex_int64 s)) /\ is_int63 (snd (fst (scanner_hex_int64 s))) /\ (0 < fst (fst (scanner_hex_int64 s)) -> reads_some s (snd (scanner_hex_int64 s))).
Proof.
  intros Hs. apply int64_reads; [|done]. pose proof (parse_hex_spec UINT64_MAX (scn_rest s) (length (scn_rest s)) ltac:(done) ltac:(done) (proj1 Hs)) as H.
  apply parsed_value in H as [H1 H2]; [unfold parse_hex_to_uint64_t; lia|done|lia| |apply Hs]. intros c Hc Hx. by apply (hex_class c Hc).
Qed.

Lemma dec_int64_min s : -1 <= fst (fst (scanner_dec_int64 s)).
Proof.
  unfold scanner_dec_int64. assert (-1 <= fst (parse_dec_to_uint64_t (scn_rest s) (length (scn_rest s)))) as H.
  { unfold parse_dec_to_uint64_t, parse_dec_to. destruct (parse_dec_loop _ _ _ _ _) as [[i rest] val]. cbn [fst]. destruct (_ || _); lia. }
  destruct (parse_dec_to_uint64_t _ _) as [count val]. cbn [fst] in H. destruct (_ >? 0); [|done]. by destruct (_ >=? _).
Qed.

Definition is_number_token (tok : yytokentype) : Prop := tok = INTEGER \/ tok = FLOAT \/ tok = DECIMAL_DIGIT.

Lemma number_reads s : scanner_bytes s ->
  reads s (snd (number s)) /\
  forall tok v, fst (number s) = Some (tok, v) -> tok = ERROR_TOK \/ (is_number_token tok /\ is_int63 v /\ reads_some s (snd (number s))).
Proof.
  intros Hs. unfold number. destruct (scanner_str s [48; 120]) as [s1|] eqn:E1.
  - apply str_reads in E1 as R1; [|done|done]. destruct (hex_int64_reads s1 (proj1 R1)) as (R2 & Hv & _).
    destruct (scanner_hex_int64 s1) as [[count out] s2]. cbn [fst snd] in *.
    assert (reads_some s s2) as R by by eapply reads_some_left.
    destruct (count =? -1); cbn [fst snd]; [split; [by apply reads_some_reads|]; intros tok v [= <- <-]; by left|].
    destruct (count =? 0); cbn [fst snd]; [by split; [apply reads_some_reads|]|].
    split; [by apply reads_some_reads|]. intros tok v [= <- <-]. right. split; [by left|done].
  - destruct (dec_int64_reads s Hs) as (R2 & Hv & Hsome). destruct (scanner_dec_int64 s) as [[count out] s2] eqn:E2. cbn [fst snd] in *.
    destruct (Z.eqb_spec count (-1)); cbn [fst snd]; [split; [done|]; intros tok v [= <- <-]; by left|].
    destruct (Z.eqb_spec count 0); cbn [fst snd]; [by split|].
    assert (0 < count) as Hpos.
    { pose proof (dec_int64_min s) as Hmin. rewrite E2 in Hmin. cbn in Hmin. lia. }
    specialize (Hsome Hpos). destruct (scanner_chr s2 DECIMAL_SEPARATOR) as [s3|] eqn:E3.
    + apply chr_reads in E3 as (R3 & _); [|apply R2|done]. destruct (dec_int64_reads s3 (proj1 R3)) as (R4 & _ & _).
      destruct (scanner_dec_int64 s3) as [[count' out'] s4]. cbn [fst snd] in *.
      assert (reads_some s s4) as R by (eapply reads_some_left; [done|]; eapply reads_trans; [by apply reads_some_reads|done]).
      split; [by apply reads_some_reads|]. intros tok v [= <- <-]. destruct (count' <? 0); [by left|]. right. split; [by right; left|done].
    + split; [done|]. intros tok v [= <- <-]. right. split; [|done]. unfold is_number_token. destruct (count =? 1); tauto.
Qed.

(** ** Tokens *)

Definition lexval_ok (atoms : atom_table) (tok : yytokentype) (v : lexval) : Prop :=
  match tok with
  | STRING => exists str, v = LexStr str /\ no_nul str /\ bytes str
  | IDENT => exists name, v = LexSval name /\ no_nul name
  | KEYNAME => exists a, v = LexAtom a /\ 0 < a /\ atom_ok atoms a
  | INTEGER | FLOAT | DECIMAL_DIGIT => exists n, v = LexNum n /\ is_int63 n
  | _ => True
  end.

Definition has_value (tok : yytokentype) : bool :=
  match tok with STRING | IDENT | KEYNAME | INTEGER | FLOAT | DECIMAL_DIGIT => true | _ => false end.

Lemma no_value atoms tok v : has_value tok = false -> lexval_ok atoms tok v.
Proof. by destruct tok. Qed.

(** A token is made of one byte at least, the end of the text and the invalid
    ones excepted. *)
Definition token_read (tok : yytokentype) (s s' : scanner) : Prop :=
  match tok with
  | END_OF_FILE | ERROR_TOK => reads s s'
  | _ => reads_some s s'
  end.

Definition lexed_ok (atoms : atom_table) (s : scanner) (r : result (yytokentype * lexval * scanner * atom_table)) : Prop :=
  match r with
  | Ok (tok, v, s', atoms') => atoms_fine atoms' /\ grows atoms atoms' /\ token_read tok s s' /\ lexval_ok atoms' tok v
  | Fault _ => False
  end.

Lemma token_reads tok s s' : reads_some s s' -> token_read tok s s'.
Proof. intros R. destruct tok; try exact R; by apply reads_some_reads. Qed.

Lemma punctuation_value tok c v atoms : punctuation_token c = Some tok -> lexval_ok atoms tok v.
Proof.
  unfold punctuation_token. destruct (list_find _ _) as [[i [c' t]]|] eqn:E; [|done]. intros [= <-]. apply list_find_Some in E as (E & _ & _).
  apply list_elem_of_lookup_2 in E. assert (forallb (fun p => negb (has_value (snd p))) punctuation = true) as H by reflexivity.
  rewrite forallb_forall in H. apply list_elem_of_In, H in E. apply no_value. by apply negb_true_iff in E.
Qed.

Lemma punctuation_reads tok s : punctuation_token (scanner_peek s) = Some tok -> scanner_bytes s -> reads_some s (advance s).
Proof.
  intros H [H1 H2]. unfold scanner_peek in H. destruct s as [[|c l] buf]; [done|]. cbn in *. apply list.Forall_cons in H1 as [_ H1].
  split; [by split|]. unfold advance. cbn [scn_rest drop length]. rewrite drop_0. lia.
Qed.

(** No keyword is a token with a value. *)
Lemma keyword_value s tok v atoms : keyword_to_token s (length s) = Some tok -> lexval_ok atoms tok v.
Proof.
  unfold keyword_to_token. destruct (keyword_gperf_lookup s (length s)) as [[name t]|] eqn:E; [|done]. intros [= <-].
  apply keyword_lookup_sound in E as [Hin _].
  assert (forallb (fun p => negb (has_value (snd p))) keywords = true) as H by (vm_compute; reflexivity).
  rewrite forallb_forall in H. apply list_elem_of_In, H in Hin. apply no_value. by apply negb_true_iff in Hin.
Qed.

Lemma xkb_lex_ok atoms s : atoms_fine atoms -> scanner_bytes s -> lexed_ok atoms s (_xkbcommon_lex atoms s).
Proof.
  intros Ha Hs. unfold _xkbcommon_lex. set (s1 := skip_more_whitespace_and_comments _ s).
  assert (reads s s1) as R1 by by apply skip_more_reads. clearbody s1. destruct (scanner_eof s1).
  { split; [done|]. by split. }
  assert (scanner_bytes (reset_buf s1)) as Hb by (split; cbn; [apply R1|apply Forall_nil_2]).
  assert (forall s2, reads_some (reset_buf s1) s2 -> reads_some s s2) as Hsome by (intros s2 R; eapply reads_some_right; [exact R1|exact R]).
  assert (forall s2, reads (reset_buf s1) s2 -> reads s s2) as Hread by (intros s2 R; eapply reads_trans; [exact R1|exact R]).
  set (s2 := reset_buf s1) in *. clearbody s2. clear s1 R1.
  assert (forall v s', reads_some s s' -> lexed_ok atoms s (Ok (ERROR_TOK, v, s', atoms))) as Herr by (intros v s' R; split; [done|]; split; [done|]; by split; [apply token_reads|]).
  destruct (scanner_chr s2 34) as [s3|] eqn:E3.
  { apply chr_reads in E3 as (R3 & _); [|done|done]. destruct (string_literal_reads (S (length (scn_rest s3))) s3 (proj1 R3)) as [R4 _]; [lia|].
    set (s4 := string_literal _ s3) in *. clearbody s4. assert (reads_some s s4) as R by by apply Hsome; eapply reads_some_left.
    destruct (scanner_buf_append s4 0) as [s5 ok] eqn:E5. destruct ok; cbn [negb]; [|by apply Herr].
    assert (reads s4 s5) as R5. { replace s5 with (append_char s4 0) by (unfold append_char; by rewrite E5). apply append_char_reads; [apply R4|by split]. }
    destruct (scanner_chr s5 34) as [s6|] eqn:E6; [|by apply Herr; eapply reads_some_left]. apply chr_reads in E6 as (R6 & _ & ->); [|apply R5|done].
    split; [done|]. split; [done|]. split; [eapply reads_some_left; [exact R|]; eapply reads_trans; [exact R5|by apply reads_some_reads]|].
    eexists. split; [done|]. apply cstr_no_nul, R5. }
  destruct (scanner_chr s2 60) as [s3|] eqn:E4.
  { apply chr_reads in E4 as (R3 & _); [|done|done]. pose proof (take_chars_spec is_keyname_char (scn_rest s3) (proj1 (proj1 R3))) as Ht.
    destruct (take_chars _ _) as [name rest]. destruct Ht as (El & Hn & _ & Hrest). set (s4 := mk_scanner rest _).
    assert (reads s3 s4) as R4 by (split; [split; [done|apply R3]|]; rewrite El; cbn; rewrite length_app; lia).
    assert (reads_some s s4) as R by by apply Hsome; eapply reads_some_left.
    destruct (scanner_chr s4 62) as [s5|] eqn:E5; [|by apply Herr]. apply chr_reads in E5 as (R5 & _); [|apply R4|done].
    destruct (intern_fine atoms name Ha) as (a & t & -> & Ht & Hg & Hpos & Htext); [by apply (class_no_nul is_keyname_char)|].
    cbn [result_bind fst snd]. split; [done|]. split; [done|]. split; [eapply reads_some_left; [exact R|by apply reads_some_reads]|].
    eexists. split; [done|]. split; [done|]. by eapply text_atom. }
  destruct (punctuation_token (scanner_peek s2)) as [tok|] eqn:Ep.
  { split; [done|]. split; [done|]. split; [apply token_reads, Hsome; by eapply punctuation_reads|by eapply punctuation_value]. }
  destruct (is_alpha (scanner_peek s2) || (scanner_peek s2 =? 95)) eqn:Ealpha.
  { pose proof (take_chars_spec is_ident_char (scn_rest s2) (proj1 Hb)) as Ht.
    assert (fst (take_chars is_ident_char (scn_rest s2)) <> []) as Hne.
    { unfold scanner_peek in Ealpha. destruct (scn_rest s2) as [|c l]; [done|]. cbn [take_chars].
      assert (is_ident_char c = true) as -> by (unfold is_ident_char, is_alnum; by apply orb_true_iff in Ealpha as [-> | ->]; rewrite ?orb_true_r). by destruct (take_chars _ l). }
    destruct (take_chars _ _) as [name rest]. destruct Ht as (El & Hn & _ & Hrest). cbn [fst] in Hne. set (s4 := mk_scanner rest _).
    assert (reads_some s s4) as R.
    { apply Hsome. split; [split; [done|apply Hb]|]. rewrite El. cbn. rewrite length_app. destruct name; [done|cbn; lia]. }
    destruct (keyword_to_token name (length name)) as [tok|] eqn:Ek.
    - split; [done|]. split; [done|]. split; [by apply token_reads|by eapply keyword_value].
    - split; [done|]. split; [done|]. split; [done|]. eexists. split; [done|]. by apply (class_no_nul is_ident_char). }
  destruct (number_reads s2 Hb) as [Rn Hn]. destruct (number s2) as [[[tok num]|] s3]; cbn [fst snd] in *.
  - destruct (Hn tok num eq_refl) as [->|(Htok & Hv & R)].
    + split; [done|]. split; [done|]. by split; [apply Hread|].
    + split; [done|]. split; [done|]. split; [apply token_reads; by apply Hsome|]. destruct Htok as [->|[-> | ->]]; by eexists.
  - split; [done|]. split; [done|]. by split; [apply Hread|].
Qed.

(** A string of 1020 characters and an escape sequence: the code point, of one
    byte, is dropped, and the character after it is kept. *)
Example unicode_escape_dropped :
  match _xkbcommon_lex atom_table_new (scanner_init ([34] ++ repeat 97 1020 ++ bytes_of "\u{41}b" ++ [34])) with
  | Ok (tok, LexStr s, _, _) => tok = STRING /\ s = repeat 97 1020 ++ [98]
  | _ => False
  end.
Proof. vm_compute. split; reflexivity. Qed.
