(* ===== verification/KeymapGrammar.v ===== *)
(** * The grammar and the automaton of keymap files

    The right-hand sides of the rules of parser.y, the kinds of values of the
    symbols, and what the states of the automaton of [ParserTables] know: the
    states under them on the stack, and weights that every reduction lowers.
    They are checked against the tables. *)

From Stdlib Require Import ZArith Lia.
From stdpp Require Import base tactics list numbers.
From S2P Require Import Prelude Numbers Expr KeymapParser.

(** The right-hand sides of the rules, by their symbols (src/xkbcomp/parser.y). *)
Definition rhs_list : list (list Z) :=
  [[]; []; [69]; [72]; [0]; [74; 70; 148; 41; 71; 42; 49]; [4]; [10]; [11]; [71; 72]; [];
   [74; 73; 148; 41; 77; 42; 49]; [5]; [6]; [8]; [7]; [9]; [75]; []; [75; 76]; [76]; [58]; [59]; [60];
   [61]; [62]; [63]; [64]; [65]; [66]; [56]; [77; 78]; [77; 122; 82]; []; [122; 79]; [122; 85]; [122; 80];
   [122; 81]; [122; 88]; [122; 89]; [122; 96]; [122; 95]; [122; 99]; [122; 100]; [122; 103]; [122; 104];
   [122; 118]; [122; 101]; [122; 102]; [123; 52]; [132; 36; 125; 49]; [146; 49]; [50; 146; 49];
   [57; 36; 145; 49]; [22; 57; 36; 57; 49]; [17; 83; 49]; [83; 48; 84]; [84]; [146]; [146; 36; 125];
   [19; 86; 41; 87; 42; 49]; [139; 37; 125]; [139]; [87; 79]; []; [18; 147; 41; 87; 42; 49];
   [21; 57; 41; 90; 42; 49]; [91]; []; [91; 48; 92]; [92]; [132; 36; 125]; [132; 36; 93]; [146]; [50; 146];
   [93]; [45; 135; 46]; [45; 94; 48; 135; 46]; [45; 127; 46]; [45; 94; 48; 127; 46]; [45; 94; 46];
   [94; 48; 41; 42]; [41; 42]; []; [23; 144; 36; 125; 49]; [24; 125; 41; 97; 42; 49]; [97; 48; 98]; [98];
   [57]; [139]; [25; 147; 41; 87; 42; 49]; [25; 144; 36; 125; 49]; [35; 25; 144; 36; 125; 49];
   [56; 134; 36; 125; 49]; [56; 133; 41; 87; 42; 49]; [26; 147; 41; 114; 42; 49];
   [26; 147; 41; 116; 42; 49]; [29; 147; 41; 105; 42; 49]; [105; 106]; [106]; [28; 41; 107; 42; 49]; [79];
   [118]; [99]; [111]; [107; 108]; [108]; [27; 41; 109; 42; 49]; [79]; [109; 48; 110]; [110]; [57];
   [41; 124; 42]; [30; 147; 41; 112; 42; 49]; [112; 48; 113]; [113]; [57; 36; 57]; [114; 48; 115]; [115];
   [41; 116; 42]; [146; 36; 41; 116; 42]; [146; 36; 125]; [116; 48; 117]; [117]; [45; 141; 48; 141; 46];
   [119; 147; 41; 87; 42; 49]; [31]; [32]; [33]; [34]; [146]; [121]; [20]; [19]; [18]; [21]; [23]; [24];
   [25]; [26]; [28]; [29]; [31]; [123]; []; [12]; [14]; [13]; [15]; [16]; [124; 48; 125]; [125]; [];
   [125; 39; 125]; [125; 37; 125]; [125; 38; 125]; [125; 40; 125]; [132; 36; 125]; [126]; [38; 126];
   [37; 126]; [50; 126]; [51; 126]; [132]; [120; 43; 124; 44]; [130]; [134]; [43; 125; 44]; [127; 48; 131];
   [127; 48; 130]; [131]; [129]; [128; 48; 131]; [131]; [41; 128; 42]; [129]; [41; 42]; [120; 43; 124; 44];
   [120]; [120; 47; 120]; [120; 45; 125; 46]; [120; 47; 120; 45; 125; 46]; [134]; []; [147]; [144]; [143];
   [57]; [135; 48; 140]; [135; 48; 138]; [140]; [137]; [136; 48; 140]; [136; 48; 52]; [140]; [52];
   [41; 136; 42]; [52]; [137]; [41; 42]; [140]; [52]; [56]; [29]; [53]; [54]; [38; 142]; [142]; [55]; [53];
   [54]; [55]; [54]; [53]; [54]; [53]; [56]; [59]; [52]; [149]; []; [52]].

(** The kinds of the values of the symbols. *)
Inductive kind :=
| KAny | KNum | KString | KOptStr | KSval | KAtom | KMerge | KFlags | KFileType | KKeysym | KCount
| KExpr | KExprs | KKeysyms | KKeysymLists | KActions | KActionLists | KHeads
| KVar | KVars | KKeyVar | KKeyVars | KVmod | KVmods | KInterp | KStmt | KOptStmt | KStmts | KNull
| KSection | KFile | KFiles.

(** The kind of a symbol. *)
Definition kind_list : list kind :=
  [KAny; KAny; KAny; KAny; KAny; KAny; KAny; KAny; KAny; KAny; KAny; KAny; KAny; KAny; KAny; KAny; KAny;
   KAny; KAny; KAny; KAny; KAny; KAny; KAny; KAny; KAny; KAny; KAny; KAny; KAny; KAny; KAny; KAny; KAny;
   KAny; KAny; KAny; KAny; KAny; KAny; KAny; KAny; KAny; KAny; KAny; KAny; KAny; KAny; KAny; KAny; KAny;
   KAny; KString; KNum; KNum; KNum; KSval; KAtom; KAny; KAny; KAny; KAny; KAny; KAny; KAny; KAny; KAny;
   KAny; KFile; KFile; KFileType; KFiles; KSection; KFileType; KFlags; KFlags; KFlags; KStmts; KOptStmt;
   KVar; KStmt; KStmt; KVmods; KVmods; KVmod; KStmt; KInterp; KVars; KStmt; KStmt; KKeyVars; KKeyVars;
   KKeyVar; KHeads; KCount; KStmt; KStmt; KExprs; KExpr; KStmt; KStmt; KStmt; KStmt; KNull; KNull; KNull;
   KNull; KNull; KNull; KNull; KNull; KNull; KNull; KNull; KNull; KNull; KNull; KNull; KNull; KNum; KAtom;
   KAtom; KMerge; KMerge; KExprs; KExpr; KExpr; KActionLists; KExprs; KActions; KActions; KExpr; KExpr;
   KAny; KExpr; KKeysymLists; KKeysyms; KKeysyms; KKeysyms; KKeysym; KKeysym; KNum; KNum; KNum; KNum; KNum;
   KAtom; KAtom; KOptStr; KOptStr].

(** The states that may be under a state on the stack. *)
Definition preds_list : list (list Z) :=
  [[]; [0]; [0; 16; 36]; [0; 16; 36]; [0; 16; 36]; [0; 16; 36]; [0; 16; 36]; [0; 16; 36]; [0; 16; 36];
   [0; 16; 36]; [0; 16; 36]; [0; 16; 36]; [0]; [0]; [0]; [0]; [0; 36]; [0; 36]; [12]; [15]; [15; 40];
   [15; 40]; [15; 40]; [15; 40]; [15; 40]; [15]; [15]; [15]; [15; 40]; [16]; [27; 28]; [27]; [27; 28];
   [28]; [31]; [33]; [34]; [35]; [36]; [36]; [36]; [37]; [37]; [37]; [37]; [37]; [37]; [37]; [37]; [37];
   [38]; [46]; [48]; [48]; [48];
   [48; 59; 123; 124; 125; 126; 127; 128; 152; 153; 154; 158; 161; 162; 164; 175; 176; 177; 178; 179; 181; 182; 185; 189; 199; 200; 202; 212; 214; 228; 241; 245; 246; 249; 251; 257; 269; 270; 276; 292; 293; 309; 311; 330; 334; 344; 369];
   [48]; [48]; [48]; [48]; [48]; [48];
   [48; 59; 123; 124; 125; 126; 127; 128; 152; 153; 154; 158; 161; 162; 164; 175; 176; 177; 178; 179; 181; 182; 189; 199; 200; 202; 212; 214; 228; 245; 246; 249; 251; 257; 269; 270; 276; 292; 293; 309; 311; 330; 334; 344; 369];
   [48]; [48; 185; 241]; [48; 185; 241]; [48; 185; 241]; [48; 185; 241]; [48];
   [48; 185; 199; 200; 228; 241; 246; 249; 293; 334]; [48]; [48];
   [48; 52; 59; 69; 123; 124; 125; 126; 127; 128; 152; 153; 154; 156; 158; 161; 162; 164; 175; 176; 177; 178; 179; 181; 182; 184; 185; 189; 199; 200; 202; 203; 212; 214; 228; 241; 245; 246; 249; 251; 257; 269; 270; 276; 289; 292; 293; 309; 311; 330; 334; 344; 369];
   [48]; [48]; [48]; [48]; [48]; [48]; [48]; [48]; [48]; [48]; [48]; [48]; [48]; [48]; [48]; [48];
   [48; 185; 241]; [48; 162; 185; 199; 200; 228; 241; 246; 249; 269; 293; 334];
   [48; 59; 123; 124; 125; 126; 127; 128; 152; 153; 154; 158; 161; 162; 164; 175; 176; 177; 178; 179; 181; 182; 185; 189; 199; 200; 202; 212; 214; 228; 241; 245; 246; 249; 251; 257; 269; 270; 276; 292; 293; 309; 311; 330; 334; 344; 369];
   [48; 185; 199; 200; 228; 241; 246; 249; 293; 334]; [48; 185; 199; 200; 228; 241; 246; 249; 293; 334];
   [49];
   [52; 59; 69; 123; 124; 125; 126; 127; 128; 152; 153; 154; 156; 158; 161; 162; 164; 175; 176; 177; 178; 179; 181; 182; 184; 185; 189; 199; 200; 203; 212; 214; 228; 241; 245; 246; 249; 251; 269; 270; 276; 289; 292; 293; 311; 330; 334; 369];
   [52]; [52]; [52; 156];
   [53; 59; 60; 61; 63; 70; 89; 123; 124; 126; 127; 128; 152; 154; 158; 161; 164; 175; 176; 177; 178; 179; 181; 182; 189; 212; 236; 238; 245; 251; 270; 276; 292; 369];
   [53]; [54; 180; 278; 313; 343; 349]; [54; 180; 278]; [54; 180; 202; 257; 278; 309; 313; 343; 344; 349];
   [54; 180; 202; 257; 278; 309; 313; 343; 344; 349]; [54; 180; 278; 313; 343; 349]; [54]; [54];
   [54; 180; 278]; [56]; [57];
   [58; 59; 60; 70; 123; 124; 126; 127; 128; 146; 152; 154; 158; 161; 164; 175; 176; 177; 178; 179; 181; 182; 189; 212; 245; 251; 270; 276; 292; 369];
   [58; 59; 60; 70; 123; 124; 126; 127; 128; 146; 152; 154; 158; 161; 164; 175; 176; 177; 178; 179; 181; 182; 189; 212; 245; 251; 270; 276; 292; 369];
   [58];
   [59; 123; 124; 125; 126; 127; 128; 152; 153; 154; 158; 161; 162; 164; 175; 176; 177; 178; 179; 181; 182; 185; 189; 199; 200; 202; 212; 214; 228; 241; 245; 246; 249; 251; 257; 269; 270; 276; 292; 293; 309; 311; 330; 334; 344; 369];
   [59; 123; 124; 125; 126; 127; 128; 152; 153; 154; 158; 161; 162; 164; 175; 176; 177; 178; 179; 181; 182; 185; 189; 199; 200; 202; 212; 214; 228; 241; 245; 246; 249; 251; 257; 269; 270; 276; 292; 293; 309; 311; 330; 334; 344; 369];
   [59; 123; 124; 125; 126; 127; 128; 152; 153; 154; 158; 161; 162; 164; 175; 176; 177; 178; 179; 181; 182; 185; 189; 199; 200; 202; 212; 214; 228; 241; 245; 246; 249; 251; 257; 269; 270; 276; 292; 293; 309; 311; 330; 334; 344; 369];
   [59; 123; 124; 125; 126; 127; 128; 152; 153; 154; 158; 161; 162; 164; 175; 176; 177; 178; 179; 181; 182; 185; 189; 199; 200; 202; 212; 214; 228; 241; 245; 246; 249; 251; 257; 269; 270; 276; 292; 293; 309; 311; 330; 334; 344; 369];
   [59; 123; 124; 125; 126; 127; 128; 152; 153; 154; 158; 161; 162; 164; 175; 176; 177; 178; 179; 181; 182; 185; 189; 199; 200; 202; 212; 214; 228; 241; 245; 246; 249; 251; 257; 269; 270; 276; 292; 293; 309; 311; 330; 334; 344; 369];
   [59; 123; 124; 125; 126; 127; 128; 152; 153; 154; 158; 161; 162; 164; 175; 176; 177; 178; 179; 181; 182; 189; 199; 200; 202; 212; 214; 228; 245; 246; 249; 251; 257; 269; 270; 276; 292; 293; 309; 311; 330; 334; 344; 369];
   [59; 123; 124; 125; 126; 127; 128; 152; 153; 154; 158; 161; 162; 164; 175; 176; 177; 178; 179; 181; 182; 185; 189; 199; 200; 202; 212; 214; 228; 241; 245; 246; 249; 251; 257; 269; 270; 276; 292; 293; 309; 311; 330; 334; 344; 369];
   [59; 123; 124; 125; 126; 127; 128; 152; 153; 154; 158; 161; 162; 164; 175; 176; 177; 178; 179; 181; 182; 185; 189; 199; 200; 212; 214; 228; 241; 245; 246; 249; 251; 269; 270; 276; 292; 293; 311; 330; 334; 369];
   [59; 123; 124; 125; 126; 127; 128; 152; 153; 154; 158; 161; 162; 164; 175; 176; 177; 178; 179; 181; 182; 189; 199; 200; 202; 212; 214; 228; 245; 246; 249; 251; 257; 269; 270; 276; 292; 293; 309; 311; 330; 334; 344; 369];
   [59; 123; 124; 126; 127; 128; 152; 154; 158; 161; 164; 175; 176; 177; 178; 179; 181; 182; 189; 212; 245; 251; 270; 276; 292; 369];
   [59; 123; 124; 126; 127; 128; 152; 154; 158; 161; 164; 175; 176; 177; 178; 179; 181; 182; 189; 212; 245; 251; 270; 276; 292; 369];
   [59; 123; 124; 126; 127; 128; 152; 154; 158; 161; 164; 175; 176; 177; 178; 179; 181; 182; 189; 212; 245; 251; 270; 276; 311; 369];
   [59; 123; 124; 126; 127; 128; 152; 154; 158; 161; 164; 175; 176; 177; 178; 179; 181; 182; 189; 212; 245; 251; 270; 276; 292; 369];
   [59; 123; 124; 126; 127; 128; 152; 154; 158; 161; 164; 175; 176; 177; 178; 179; 181; 182; 189; 212; 245; 251; 270; 276; 292; 369];
   [59; 123; 124; 126; 127; 128; 152; 154; 158; 161; 164; 175; 176; 177; 178; 179; 181; 182; 189; 212; 245; 251; 270; 276; 292; 369];
   [59; 70; 123; 124; 126; 127; 128; 152; 154; 158; 161; 164; 175; 176; 177; 178; 179; 181; 182; 189; 212; 245; 251; 270; 276; 292; 369];
   [59; 70; 123; 124; 126; 127; 128; 152; 154; 158; 161; 164; 175; 176; 177; 178; 179; 181; 182; 189; 212; 245; 251; 270; 276; 292; 369];
   [59; 123; 124; 126; 127; 128; 152; 154; 158; 161; 164; 175; 176; 177; 178; 179; 181; 182; 189; 212; 245; 251; 270; 276; 292; 369];
   [59];
   [59; 126; 152; 154; 158; 161; 164; 175; 176; 177; 178; 179; 181; 182; 189; 212; 245; 251; 270; 276; 292; 369];
   [59; 123; 124; 126; 127; 128; 152; 154; 158; 161; 164; 175; 176; 177; 178; 179; 181; 182; 189; 212; 245; 251; 270; 276; 292; 311; 369];
   [59; 123; 124; 126; 127; 128; 152; 154; 158; 161; 164; 175; 176; 177; 178; 179; 181; 182; 189; 212; 245; 251; 270; 276; 292; 369];
   [59; 126; 152; 154; 158; 161; 164; 175; 176; 177; 178; 179; 181; 182; 189; 212; 245; 251; 270; 276; 292; 369];
   [59; 123; 124; 126; 127; 128; 152; 154; 158; 161; 164; 175; 176; 177; 178; 179; 181; 182; 189; 212; 245; 251; 270; 276; 292; 369];
   [59; 70; 123; 124; 126; 127; 128; 152; 154; 158; 161; 164; 175; 176; 177; 178; 179; 181; 182; 189; 212; 245; 251; 270; 276; 292; 369];
   [59; 70; 123; 124; 126; 127; 128; 152; 154; 158; 161; 164; 175; 176; 177; 178; 179; 181; 182; 189; 212; 245; 251; 270; 276; 292; 369];
   [59; 123; 124; 125; 126; 127; 128; 152; 153; 154; 158; 161; 164; 175; 176; 177; 178; 179; 181; 182; 189; 202; 212; 214; 245; 251; 257; 270; 276; 292; 309; 311; 330; 344; 369];
   [59; 70; 123; 124; 126; 127; 128; 152; 154; 158; 161; 164; 175; 176; 177; 178; 179; 181; 182; 189; 212; 245; 251; 270; 276; 292; 369];
   [60]; [60; 236]; [61]; [63]; [68]; [69]; [70]; [70]; [71]; [89]; [90; 131]; [90; 131]; [92]; [93]; [96];
   [96]; [98]; [100]; [106]; [107]; [109]; [110]; [113]; [123]; [123; 124; 127; 128]; [124]; [125; 330];
   [125; 202; 214; 257; 309; 311; 330; 344]; [125; 257; 330; 344]; [125; 257; 330; 344]; [126]; [127];
   [128]; [131]; [132; 172; 194; 196; 198; 201; 211; 217; 226; 227; 247; 297; 301; 317; 319; 331];
   [132; 172; 194; 196; 198; 201; 211; 217; 226; 227; 247; 297; 301; 317; 319; 331];
   [132; 172; 194; 196; 198; 201; 211; 217; 218; 219; 226; 227; 247; 297; 301; 317; 319; 331];
   [132; 172; 194; 196; 198; 201; 211; 217; 218; 219; 226; 227; 247; 297; 301; 317; 319; 331]; [132];
   [136]; [142]; [143]; [144]; [145]; [146]; [147]; [148]; [149]; [150]; [150]; [150]; [151]; [152]; [153];
   [154]; [156]; [158]; [159]; [160]; [161]; [162; 269; 270]; [162; 269]; [162]; [162]; [162]; [162; 269];
   [162; 269]; [162; 269]; [163]; [164]; [169]; [170]; [170]; [172]; [175]; [175; 212; 369]; [176]; [177];
   [178]; [179]; [180; 278]; [180]; [180]; [180; 278]; [181]; [182]; [183]; [184; 289];
   [184; 229; 291; 330]; [184]; [184]; [184]; [184; 229; 330]; [184; 289]; [185; 241]; [185; 241];
   [185; 241]; [185; 241]; [185; 241]; [185]; [185]; [185; 241]; [185; 241]; [186]; [188]; [189]; [192];
   [193]; [194]; [195]; [196]; [199]; [199; 200; 228; 246; 249]; [200]; [202; 257; 309; 344]; [202];
   [202; 309; 313]; [202; 257; 309; 344]; [202]; [202]; [202; 309]; [202; 309]; [202]; [202; 309];
   [202; 309]; [203]; [204]; [205]; [208]; [210]; [211]; [212]; [214]; [216]; [216; 273; 377]; [223];
   [223]; [227]; [228]; [229]; [230; 325]; [230; 282; 325]; [230; 282; 325]; [230; 282; 325]; [230];
   [230; 325]; [231]; [231]; [233]; [233; 281; 354]; [235]; [237]; [238]; [241]; [241]; [245]; [246];
   [247]; [249]; [251]; [253]; [255]; [257]; [257; 344; 349]; [257; 344; 349]; [257; 344; 349]; [260];
   [260]; [261]; [261; 345]; [264]; [264; 346]; [268]; [269]; [270]; [270]; [273]; [276]; [277]; [278];
   [280]; [281]; [282]; [286]; [288]; [289]; [290]; [291]; [292]; [292]; [293; 334]; [293; 334]; [293];
   [293]; [294]; [295]; [297]; [298]; [300]; [301]; [306]; [306]; [309]; [309]; [309]; [311]; [311]; [313];
   [313]; [313]; [313]; [325]; [330]; [332]; [334]; [334]; [336; 376]; [336]; [336]; [343]; [343]; [344];
   [345]; [346]; [349]; [353]; [354]; [355; 379]; [355; 379]; [355]; [355]; [356]; [358]; [359]; [359];
   [369]; [371]; [371]; [374]; [375]; [376]; [377]; [378]; [379]].

(** The weight of a symbol. *)
Definition symbol_weight_list : list Z :=
  [0; 6; 6; 6; 6; 6; 6; 6; 6; 6; 6; 6; 6; 6; 6; 6; 6; 6; 6; 6; 6; 6; 6; 6; 6; 6; 6; 6; 6; 6; 6; 6; 6; 6; 6;
   6; 6; 6; 6; 6; 6; 6; 6; 6; 6; 6; 6; 6; 6; 6; 6; 6; 6; 6; 6; 6; 6; 6; 6; 6; 6; 6; 6; 6; 6; 6; 6; 6; 0; 6;
   4; 0; 6; 4; 0; 4; 5; 0; 5; 6; 6; 6; 6; 3; 4; 6; 3; 0; 6; 6; 0; 3; 4; 6; 0; 6; 6; 2; 3; 6; 6; 6; 6; 6; 6;
   4; 5; 4; 5; 4; 5; 6; 5; 6; 5; 6; 5; 6; 6; 5; 4; 5; 0; 5; 0; 1; 2; 5; 5; 6; 5; 6; 3; 0; 4; 4; 4; 5; 4; 4;
   5; 4; 5; 5; 5; 5; 5; 5; 0; 5].

(** The weight of a state at the top of the stack. *)
Definition state_weight_list : list Z :=
  [3; 2; 0; 0; 0; 0; 0; 0; 0; 0; 0; 0; 1; 0; 0; 0; 0; 0; 0; 0; 0; 0; 0; 0; 0; 0; 0; 1; 1; 0; 0; 0; 0; 0; 2;
   2; 1; 1; 0; 0; 0; 0; 0; 0; 0; 0; 0; 0; 0; 0; 0; 0; 0; 0; 0; 0; 0; 0; 0; 0; 0; 0; 0; 0; 0; 0; 0; 0; 0; 0;
   1; 0; 0; 0; 0; 0; 0; 0; 0; 0; 0; 0; 0; 0; 0; 0; 0; 0; 0; 0; 0; 0; 0; 0; 0; 0; 0; 0; 0; 0; 0; 0; 0; 0; 0;
   0; 0; 0; 0; 0; 0; 0; 0; 0; 0; 0; 0; 0; 0; 0; 0; 0; 0; 0; 0; 0; 0; 0; 0; 0; 0; 0; 0; 0; 0; 0; 0; 0; 0; 0;
   0; 0; 0; 0; 0; 0; 0; 0; 0; 0; 0; 0; 0; 0; 0; 0; 0; 0; 0; 1; 1; 0; 1; 0; 0; 0; 0; 0; 0; 0; 0; 0; 0; 0; 0;
   1; 0; 0; 0; 0; 0; 0; 0; 1; 0; 0; 0; 0; 1; 0; 0; 0; 0; 1; 0; 0; 0; 0; 0; 0; 0; 0; 1; 0; 0; 0; 0; 0; 0; 0;
   0; 0; 1; 0; 0; 0; 0; 0; 0; 0; 0; 0; 0; 0; 0; 0; 0; 0; 0; 0; 0; 0; 0; 0; 0; 0; 0; 0; 0; 0; 0; 0; 0; 0; 0;
   0; 0; 0; 0; 0; 0; 0; 0; 0; 0; 0; 0; 0; 0; 0; 0; 0; 0; 0; 0; 0; 0; 0; 0; 0; 0; 0; 0; 0; 0; 0; 0; 0; 0; 0;
   0; 0; 0; 0; 0; 0; 0; 0; 0; 0; 0; 0; 0; 0; 0; 0; 0; 0; 0; 0; 0; 0; 0; 0; 0; 0; 0; 0; 0; 0; 0; 0; 0; 0; 0;
   0; 0; 0; 0; 0; 0; 0; 0; 0; 0; 0; 0; 0; 0; 0; 0; 0; 0; 0; 0; 0; 0; 0; 0; 0; 0; 0; 0; 0; 0; 0; 0; 0; 0; 0;
   0; 0; 0; 0; 0; 0; 0; 0; 0; 0; 0; 0; 0; 0; 0; 0; 0; 0; 0; 1; 0; 0; 0; 0; 0; 0; 0; 0; 0; 0; 0; 0; 0; 0; 0;
   0].

Definition rhs_array : array (list Z) := array_of rhs_list.
Definition kind_array : array kind := array_of kind_list.
Definition preds_array : array (list Z) := array_of preds_list.
Definition symbol_weight_array : array Z := array_of symbol_weight_list.
Definition state_weight_array : array Z := array_of state_weight_list.

Definition rhs_of (n : Z) : list Z := default [] (array_get rhs_array n).
Definition lhs_of (n : Z) : Z := default 0 (array_get yyr1 n).
Definition kind_of (symbol : Z) : kind := default KAny (array_get kind_array symbol).
Definition preds (s : Z) : list Z := default [] (array_get preds_array s).
Definition stos (s : Z) : Z := default 0 (array_get yystos s).
Definition symbol_weight (symbol : Z) : Z := default 0 (array_get symbol_weight_array symbol).
Definition state_weight (s : Z) : Z := default 0 (array_get state_weight_array s).

(** ** Derivations *)

Definition is_terminal (symbol : Z) : Prop := 0 <= symbol < YYNTOKENS.
Definition is_rule (n : Z) : Prop := 2 <= n < 222.

(** The terminals that a symbol derives. *)
Inductive derives : Z -> list Z -> Prop :=
| derives_terminal t : is_terminal t -> derives t [t]
| derives_rule n ws : is_rule n -> Forall2 derives (rhs_of n) ws -> derives (lhs_of n) (concat ws).

(** ** Checks

    The symbols of the top of a stack are the list [l], from the top down: what
    holds of every state under them. *)
Fixpoint back (s : Z) (l : list Z) (f : Z -> bool) : bool :=
  match l with
  | [] => f s
  | x :: l => negb (s =? 0) && (stos s =? x) && forallb (fun p => back p l f) (preds s)
  end.

Definition in_states (s : Z) : bool := (0 <=? s) && (s <? YYNSTATES).
Definition mem (x : Z) (l : list Z) : bool := existsb (Z.eqb x) l.

Definition sum_weights (l : list Z) : Z := foldr (fun x n => symbol_weight x + n) 0 l.

(** [quiet s]: no token is read ahead when [s] is entered. *)
Definition MAP_STATE : Z := 14.
Definition quiet (s : Z) : bool := (stos s <? YYNTOKENS) || (s =? MAP_STATE).
Definition reads_nothing (s : Z) : bool := default 0 (array_get yypact s) =? YYPACT_NINF.

(** The state [g] is entered from the state [p] with the symbol [x]. *)
Definition edge (p g x : Z) : bool := in_states g && mem p (preds g) && (stos g =? x).

(** The reduction by the rule [n] from the state [s]. *)
Definition reduction_ok (s n : Z) : bool :=
  (2 <=? n) && (n <? 222) && bool_decide (array_get yyr2 n = Some (Z.of_nat (length (rhs_of n)))) &&
  back s (rev (rhs_of n)) (fun p =>
    match goto_state n p with
    | Ok g =>
        edge p g (lhs_of n) &&
        (symbol_weight (lhs_of n) + state_weight g <? sum_weights (rhs_of n) + state_weight s) &&
        (negb (quiet g) || (reads_nothing s && quiet s)) && (negb (n =? 3) || ((p =? 0) && quiet s && reads_nothing s))
    | Fault _ => false
    end).

Definition MAX_SHIFT_WEIGHT : Z := 8.

Definition token_ok (s yyn t : Z) : bool :=
  match table_entry (yyn + t) t with
  | Ok None => true
  | Ok (Some n) =>
      if n <=? 0 then reduction_ok s (- n)
      else edge s n t && negb (t =? YYSYMBOL_YYerror) &&
           (symbol_weight t + state_weight n <=? state_weight s + MAX_SHIFT_WEIGHT) &&
           (negb (t =? YYSYMBOL_YYEOF) || (symbol_weight t + state_weight n <? state_weight s))
  | Fault _ => false
  end.

Definition terminals : list Z := map Z.of_nat (seq 0 67).
Definition states : list Z := map Z.of_nat (seq 0 386).

Definition state_ok (s : Z) : bool :=
  match array_get yypact s, array_get yydefact s with
  | Some yyn, Some d =>
      (if s =? YYFINAL then (yyn =? YYPACT_NINF) && bool_decide (preds s = [12]) && bool_decide (preds 12 = [0]) && (stos 12 =? 68) && (stos s =? 0)
       else ((yyn =? YYPACT_NINF) || forallb (token_ok s yyn) terminals) && ((d =? 0) || reduction_ok s d)) &&
      (0 <=? state_weight s)
  | _, _ => false
  end.

Lemma states_ok : forallb state_ok states = true.
Proof. vm_compute. reflexivity. Qed.

Lemma symbol_weights_ok : forallb (Z.leb 0) symbol_weight_list = true.
Proof. vm_compute. reflexivity. Qed.
