(* ===== verification/KeymapParserValues.v ===== *)
(** * The values of the symbols of keymap files

    Each action of parser.y, given values of the kinds of the right-hand side,
    reads the members of the union that were written, and gives a value of the
    kind of the left-hand side: trees that are well formed, whose atoms are in
    the table. *)

From Stdlib Require Import ZArith Lia String.
From stdpp Require Import base tactics list numbers.
From S2P Require Import Prelude Numbers Atom AtomSpec Keymap Utf8 Keysym KeysymNames KeysymName Scanner Expr Vmod Derived Sections Safe Symbols SymbolsSpec CompileKeymap Rules RulesBytes Rmlvo KeymapNew KeymapNewSpec KeymapLexer KeymapParser KeymapLexerSpec KeymapGrammar.

(** ** Trees in a table of atoms that grows *)

Lemma grows_text t t' a : grows t t' -> text_ok t a -> text_ok t' a.
Proof. intros H [o Ho]. exists o. by apply H. Qed.

Lemma grows_atom t t' a : grows t t' -> atom_ok t a -> atom_ok t' a.
Proof.
  intros H [s Hs]. exists s. unfold atom_string in *. destruct (xkb_atom_text t a) as [o|] eqn:E; [|done]. by rewrite (H _ _ E).
Qed.

Lemma grows_expr t t' e : grows t t' -> expr_wf t e -> expr_wf t' e.
Proof.
  intros H. revert e. fix IH 1. intros e. 
  assert (forall l, foldr (fun e P => expr_wf t e /\ P) True l -> foldr (fun e P => expr_wf t' e /\ P) True l) as Hl.
  { fix IHl 1. intros [|x l]; cbn; [done|]. intros [Hx Hl]. split; [by apply IH|by apply IHl]. }
  destruct e; cbn; try done; try (by apply grows_atom).
  - intros [Hn Ha]. split; [by eapply grows_text|by apply Hl].
  - intros [He Hf]. split; by eapply grows_text.
  - intros (He & Hf & Hn). split; [by eapply grows_text|]. split; [by eapply grows_text|by apply IH].
  - apply Hl.
  - intros [H1 H2]. split; by apply IH.
  - apply IH.
Qed.

Section growth.
Context (t t' : atom_table).
Hypothesis Hg : grows t t'.

Lemma grows_exprs l : Forall (expr_wf t) l -> Forall (expr_wf t') l.
Proof using Hg. intros H. refine (list.Forall_impl _ _ _ H _). intros e. by apply grows_expr. Qed.

Lemma grows_actions e : is_actions t e -> is_actions t' e.
Proof using Hg. destruct e; try done. apply grows_exprs. Qed.

Lemma grows_lists v next : lists_wf t v next -> lists_wf t' v next.
Proof using Hg.
  destruct v; try done. intros H. refine (list.Forall_impl _ _ _ H _). intros e. by apply grows_actions.
Qed.
End growth.

(** ** Statements *)

Definition key_var_ok (t : atom_table) (v : VarDef) : Prop := key_var_wf t v /\ lists_wf t (vr_value v) (vr_next v).

Definition parsed_var_ok (t : atom_table) (v : VarDef) : Prop := var_wf t v /\ lists_wf t (vr_value v) (vr_next v).

Definition parsed_vmod_ok (t : atom_table) (v : VModDef) : Prop :=
  0 < vd_name v /\ match vd_value v with Some e => expr_wf t e | None => True end.

(** What the sections need of the statements that the parser makes. *)
Definition parsed_stmt_ok (t : atom_table) (format : Z) (stmt : statement) : Prop :=
  stmt_wf t stmt /\
  match stmt with
  | STMT_VAR v => lists_wf t (vr_value v) (vr_next v)
  | STMT_SYMBOLS _ _ symbols => Forall (fun v => lists_wf t (vr_value v) (vr_next v)) symbols
  | STMT_MODMAP _ modifiers _ => format = XKB_KEYMAP_FORMAT_TEXT_V1 -> Symbols.is_ident modifiers = true
  | STMT_INCLUDE include => Forall (fun item => chars_ok (inc_modifier item)) (inc_items include)
  | _ => True
  end.

Definition parsed_file_ok (t : atom_table) (format : Z) (file : XkbFile) : Prop := Forall (parsed_stmt_ok t format) (xf_defs file).

Definition parsed_map_ok (t : atom_table) (format : Z) (m : parsed_map) : Prop :=
  match m with
  | ParsedSection file => parsed_file_ok t format file
  | ParsedKeymap _ sections _ => Forall (parsed_file_ok t format) sections
  end.

Definition opt_map_ok (t : atom_table) (format : Z) (m : option parsed_map) : Prop :=
  match m with Some m => parsed_map_ok t format m | None => True end.

Section growth.
Context (t t' : atom_table) (format : Z).
Hypothesis Hg : grows t t'.

Lemma grows_var v : parsed_var_ok t v -> parsed_var_ok t' v.
Proof using Hg.
  intros [[(e & He & Hw) Hv] Hl]. split; [|by eapply grows_lists]. split; [exists e; split; [done|]|]; by eapply grows_expr.
Qed.

Lemma grows_key_var v : key_var_ok t v -> key_var_ok t' v.
Proof using Hg.
  intros [[Hn Hv] Hl]. split; [|by eapply grows_lists]. split; [|by eapply grows_expr]. destruct (vr_name v); [by eapply grows_expr|done].
Qed.

Lemma grows_vmod v : parsed_vmod_ok t v -> parsed_vmod_ok t' v.
Proof using Hg. intros [H1 H2]. split; [done|]. destruct (vd_value v); [by eapply grows_expr|done]. Qed.

Lemma grows_var_wf v : var_wf t v -> var_wf t' v.
Proof using Hg. intros [(e & He & Hw) Hv]. split; [exists e; split; [done|]|]; by eapply grows_expr. Qed.

Lemma grows_stmt stmt : parsed_stmt_ok t format stmt -> parsed_stmt_ok t' format stmt.
Proof using Hg.
  intros [H1 H2]. assert (forall l, Forall (var_wf t) l -> Forall (var_wf t') l) as Hvars.
  { intros l H. refine (list.Forall_impl _ _ _ H _). apply grows_var_wf. }
  destruct stmt; cbn in *; (split; [|try done]); try done.
  - by apply grows_var_wf.
  - by eapply grows_lists.
  - destruct H1. split; [by eapply grows_text|by apply Hvars].
  - destruct H1. split; [destruct match_; [by eapply grows_expr|done]|by apply Hvars].
  - destruct H1. split; [done|]. destruct (vd_value vmod); [by eapply grows_expr|done].
  - destruct H1 as [H1 H3]. split; [by eapply grows_text|]. refine (list.Forall_impl _ _ _ H3 _). intros v [Hn Hv].
    split; [|by eapply grows_expr]. destruct (vr_name v); [by eapply grows_expr|done].
  - refine (list.Forall_impl _ _ _ H2 _). intros v. by apply grows_lists.
  - destruct H1. split; [by eapply grows_expr|by eapply grows_exprs].
  - destruct H1. split; [by eapply grows_atom|by apply Hvars].
  - by eapply grows_expr.
Qed.

Lemma grows_file file : parsed_file_ok t format file -> parsed_file_ok t' format file.
Proof using Hg. intros H. refine (list.Forall_impl _ _ _ H _). apply grows_stmt. Qed.

Lemma grows_map m : opt_map_ok t format m -> opt_map_ok t' format m.
Proof using Hg.
  destruct m as [[file|name sections flags]|]; cbn; [apply grows_file| |done]. intros H. refine (list.Forall_impl _ _ _ H _). apply grows_file.
Qed.
End growth.

(** ** Kinds *)

Definition name_ok (t : atom_table) (a : Z) : Prop := 0 < a /\ atom_ok t a.

(** An expression, that may be a list of actions of a single level. *)
Definition plain_expr (t : atom_table) (e : ExprDef) : Prop := expr_wf t e /\ lists_wf t e [].

Definition kind_ok (t : atom_table) (format : Z) (k : kind) (v : yystype) : Prop :=
  match k with
  | KAny => True
  | KNum => exists n, v = val_num n /\ - 2 ^ 63 < n < 2 ^ 63
  | KString => exists s, v = val_str (Some s) /\ no_nul s /\ bytes s
  | KOptStr => exists s, v = val_str s
  | KSval => exists s, v = val_sval s /\ no_nul s
  | KAtom => exists a, v = val_atom a /\ name_ok t a
  | KMerge => exists m, v = val_merge m
  | KFlags => exists f, v = val_mapFlags f
  | KFileType => exists ft, v = val_file_type ft
  | KKeysym => exists k, v = val_keysym k
  | KCount => exists c, v = val_noSymbolOrActionList c
  | KExpr => exists e, v = val_expr e /\ plain_expr t e
  | KExprs => exists l, v = val_exprList l /\ Forall (expr_wf t) l
  | KKeysyms => exists e, v = val_expr e /\ is_keysyms e
  | KKeysymLists => exists e l, v = val_exprList (e :: l) /\ is_keysyms e /\ Forall is_keysyms l
  | KActions => exists e, v = val_expr e /\ is_actions t e
  | KActionLists => exists e l, v = val_exprList (e :: l) /\ is_actions t e /\ Forall (is_actions t) l
  | KHeads => exists e l, v = val_exprList (e :: l) /\ expr_wf t e /\ lists_wf t e l
  | KVar => exists x, v = val_var x /\ parsed_var_ok t x
  | KVars => exists l, v = val_varList l /\ Forall (parsed_var_ok t) l
  | KKeyVar => exists x, v = val_var x /\ key_var_ok t x
  | KKeyVars => exists l, v = val_varList l /\ Forall (key_var_ok t) l
  | KVmod => exists x, v = val_vmod x /\ parsed_vmod_ok t x
  | KVmods => exists l, v = val_vmodList l /\ Forall (parsed_vmod_ok t) l
  | KInterp => exists m s e, v = val_stmt (STMT_INTERP m s e []) /\ match e with Some e => expr_wf t e | None => True end
  | KStmt => exists s, v = val_stmt s /\ parsed_stmt_ok t format s
  | KOptStmt => exists s, v = val_any s /\ match s with Some s => parsed_stmt_ok t format s | None => True end
  | KStmts => exists l, v = val_anyList l /\ Forall (parsed_stmt_ok t format) l
  | KNull => v = val_null
  | KSection => exists f, v = val_file (Some (ParsedSection f)) /\ parsed_file_ok t format f
  | KFile => exists f, v = val_file f /\ opt_map_ok t format f
  | KFiles => exists l, v = val_fileList l /\ Forall (parsed_file_ok t format) l
  end.

Lemma grows_kind t t' format k v : grows t t' -> kind_ok t format k v -> kind_ok t' format k v.
Proof.
  intros Hg. assert (forall A (P Q : A -> Prop) l, (forall x, P x -> Q x) -> Forall P l -> Forall Q l) as Hmono
    by (intros A P Q l HPQ Hl; by refine (list.Forall_impl _ _ _ Hl _)).
  destruct k; cbn [kind_ok]; try done.
  - intros (a & -> & Ha & Hb). exists a. split; [done|]. split; [done|by eapply grows_atom].
  - intros (e & -> & He & Hl). exists e. split; [done|]. split; [by eapply grows_expr|by eapply grows_lists].
  - intros (l & -> & Hl). exists l. split; [done|by eapply grows_exprs].
  - intros (e & -> & He). exists e. split; [done|by eapply grows_actions].
  - intros (e & l & -> & He & Hl). exists e, l. split; [done|]. split; [by eapply grows_actions|]. eapply Hmono; [|done]. by apply grows_actions.
  - intros (e & l & -> & He & Hl). exists e, l. split; [done|]. split; [by eapply grows_expr|by eapply grows_lists].
  - intros (x & -> & Hx). exists x. split; [done|by eapply grows_var].
  - intros (l & -> & Hl). exists l. split; [done|]. eapply Hmono; [|done]. by apply grows_var.
  - intros (x & -> & Hx). exists x. split; [done|by eapply grows_key_var].
  - intros (l & -> & Hl). exists l. split; [done|]. eapply Hmono; [|done]. by apply grows_key_var.
  - intros (x & -> & Hx). exists x. split; [done|by eapply grows_vmod].
  - intros (l & -> & Hl). exists l. split; [done|]. eapply Hmono; [|done]. by apply grows_vmod.
  - intros (m & sym & e & -> & He). exists m, sym, e. split; [done|]. destruct e; [by eapply grows_expr|done].
  - intros (x & -> & Hx). exists x. split; [done|by eapply grows_stmt].
  - intros (x & -> & Hx). exists x. split; [done|]. destruct x; [by eapply grows_stmt|done].
  - intros (l & -> & Hl). exists l. split; [done|]. eapply Hmono; [|done]. by apply grows_stmt.
  - intros (f & -> & Hf). exists f. split; [done|by eapply grows_file].
  - intros (f & -> & Hf). exists f. split; [done|by eapply grows_map].
  - intros (l & -> & Hl). exists l. split; [done|]. eapply Hmono; [|done]. by apply grows_file.
Qed.

(** ** Actions *)

Record param_ok (p : parser_param) : Prop := {
  po_atoms : atoms_fine (pp_atoms p);
  po_rtrn : opt_map_ok (pp_atoms p) (pp_format p) (pp_rtrn p)
}.

(** What the actions change of the parameters. *)
Definition extends_param (p p' : parser_param) : Prop :=
  param_ok p' /\ grows (pp_atoms p) (pp_atoms p') /\ pp_format p' = pp_format p /\ pp_strict p' = pp_strict p.

Definition outcome_ok (p : parser_param) (n : Z) (r : result action_outcome) : Prop :=
  match r with
  | Ok (Value v p') => extends_param p p' /\ kind_ok (pp_atoms p') (pp_format p) (kind_of (lhs_of n)) v
  | Ok (Accept p') => extends_param p p' /\ n = 3
  | Ok (AbortParse p') | Ok (ErrorParse p') => extends_param p p'
  | Fault _ => False
  end.

Lemma extends_refl p : param_ok p -> extends_param p p.
Proof. intros H. split; [exact H|]. split; [reflexivity|]. by split. Qed.

Lemma value_ok p n v : param_ok p -> kind_ok (pp_atoms p) (pp_format p) (kind_of (lhs_of n)) v -> outcome_ok p n (value p v).
Proof. intros Hp Hv. by split; [apply extends_refl|]. Qed.

Lemma extends_atoms p t : param_ok p -> atoms_fine t -> grows (pp_atoms p) t -> extends_param p (pp_set_atoms t p).
Proof.
  intros [H1 H2] Ht Hg. split; [|done]. split; [done|]. by eapply grows_map.
Qed.

Lemma intern_ok p n s : param_ok p -> no_nul s -> kind_of (lhs_of n) = KAtom -> outcome_ok p n (intern p s).
Proof.
  intros Hp Hs Hk. destruct (intern_fine (pp_atoms p) s (po_atoms p Hp) Hs) as (a & t & E & Ht & Hg & Ha & Htext).
  unfold intern. rewrite E. cbn [result_bind fst snd outcome_ok]. split; [by apply extends_atoms|]. rewrite Hk.
  exists (Z.of_nat a). split; [done|]. split; [done|by eapply text_atom].
Qed.

Lemma intern_literal_ok p n s : param_ok p -> forallb (fun c => negb (c =? 0)) (bytes_of s) = true -> kind_of (lhs_of n) = KAtom -> outcome_ok p n (intern_literal p s).
Proof.
  intros Hp Hs Hk. apply intern_ok; [done| |done]. apply list.Forall_forall. intros c Hc ->. rewrite forallb_forall in Hs.
  apply list_elem_of_In, Hs in Hc. done.
Qed.

Lemma return_ok p m : param_ok p -> opt_map_ok (pp_atoms p) (pp_format p) m -> extends_param p (pp_return m p).
Proof. intros [H1 H2] Hm. split; [|done]. by split. Qed.

Lemma create_keysyms sym : is_keysyms (ExprCreateKeySymList sym).
Proof.
  unfold ExprCreateKeySymList. cbn. destruct (Z.eqb_spec sym XKB_KEY_NoSymbol); [apply Forall_nil_2|]. by apply Forall_cons_2; [|apply Forall_nil_2].
Qed.

Lemma append_keysym e sym : is_keysyms e -> exists e', ExprAppendKeySymList e sym = Ok e' /\ is_keysyms e'.
Proof.
  destruct e; try done. cbn. intros H. eexists. split; [done|]. destruct (Z.eqb_spec sym XKB_KEY_NoSymbol); [done|].
  cbn. apply list.Forall_app. split; [done|]. by apply Forall_cons_2; [|apply Forall_nil_2].
Qed.

Lemma next_code_point_count s cp count : s <> [] -> utf8_next_code_point s (Z.of_nat (length s)) = Some (cp, count) ->
  cp = INVALID_UTF8_CODE_POINT \/ 0 < count <= Z.of_nat (length s).
Proof.
  intros Hne. destruct s as [|b s]; [done|]. unfold utf8_next_code_point.
  assert (0 <= utf8_sequence_length b) as H0 by (unfold utf8_sequence_length; repeat destruct (_ <=? _); lia).
  destruct (_ || _) eqn:E; [intros [= <- <-]; by left|]. apply orb_false_iff in E as [_ E].
  destruct (Z.eqb_spec (utf8_sequence_length b) 1); [intros [= <- <-]; right; cbn [length]; lia|].
  destruct (Z.eqb_spec (utf8_sequence_length b) 0); [intros [= <- <-]; by left|].
  destruct (next_cp_loop _ _ _) as [c|]; [|intros [= <- <-]; by left]. destruct (is_surrogate c); intros [= <- <-]; [by left|right].
  split; [lia|]. rewrite Z.gtb_ltb in E. apply Z.ltb_ge in E. exact E.
Qed.

Lemma append_code_points_ok fuel : forall syms s, (length s <= fuel)%nat -> Forall (fun sym => sym <> XKB_KEY_NoSymbol) syms ->
  exists r, append_code_points fuel syms s = Ok r /\ match r with Some syms => Forall (fun sym => sym <> XKB_KEY_NoSymbol) syms | None => True end.
Proof.
  induction fuel as [|fuel IH]; intros syms s Hf Hs.
  - destruct s; [|cbn in Hf; lia]. by eexists.
  - destruct s as [|b s]; [by eexists|]. unfold append_code_points. fold append_code_points.
    destruct (utf8_next_code_point _ _) as [[cp count]|] eqn:E; [|by unfold utf8_next_code_point in E; repeat case_match].
    apply next_code_point_count in E as Hc; [|done]. destruct (Z.eqb_spec cp INVALID_UTF8_CODE_POINT); [by eexists|].
    destruct Hc as [?|Hc]; [done|]. destruct (Z.eqb_spec (xkb_utf32_to_keysym cp) XKB_KEY_NoSymbol); [by eexists|].
    apply IH; [rewrite length_drop; lia|]. apply list.Forall_app. split; [done|]. by apply Forall_cons_2; [|apply Forall_nil_2].
Qed.

Lemma append_string_ok p n e s : param_ok p -> is_keysyms e -> kind_of (lhs_of n) = KKeysyms -> outcome_ok p n (append_string p e s).
Proof.
  intros Hp He Hk. destruct e; try done. unfold append_string, value_or_error, ExprKeySymListAppendString.
  destruct (append_code_points_ok (length s) syms s (le_n _) He) as ([syms'|] & -> & Hs); cbn [obind result_bind outcome_ok].
  - split; [by apply extends_refl|]. rewrite Hk. by eexists.
  - by apply extends_refl.
Qed.

(** The tables are only looked up by [vm_compute]. *)
#[global] Opaque kind_of lhs_of rhs_of stos preds symbol_weight state_weight.

(** The values of the right-hand side of a rule. *)
Definition rhs_kinds (n : Z) : list kind := map kind_of (rhs_of n).
Definition values_ok (p : parser_param) (n : Z) (vs : list yystype) : Prop :=
  Forall2 (kind_ok (pp_atoms p) (pp_format p)) (rhs_kinds n) vs.

(** The values of a given rule, one by one. *)
Ltac rule_values :=
  match goal with
  | H : values_ok _ ?n _ |- outcome_ok _ ?n _ =>
      unfold values_ok in H;
      let k := eval vm_compute in (rhs_kinds n) in
      assert (rhs_kinds n = k) as Erhs by (vm_compute; reflexivity); rewrite Erhs in H; clear Erhs;
      let k := eval vm_compute in (kind_of (lhs_of n)) in
      assert (kind_of (lhs_of n) = k) as Ekind by (vm_compute; reflexivity)
  end;
  repeat match goal with
  | H : Forall2 _ (_ :: _) _ |- _ => apply Forall2_cons_inv_l in H as (? & ? & ? & H & ->)
  | H : Forall2 _ [] _ |- _ => apply Forall2_nil_inv_l in H as ->
  end;
  cbn [kind_ok] in *;
  repeat match goal with
  | H : exists _, _ |- _ => destruct H
  | H : _ /\ _ |- _ => destruct H
  end; subst.

Ltac value_of := apply value_ok; [assumption|]; match goal with H : kind_of _ = _ |- _ => rewrite H end; cbn [kind_ok].

Lemma Forall_snoc {A} (P : A -> Prop) l x : Forall P l -> P x -> Forall P (l ++ [x]).
Proof. intros. apply list.Forall_app. split; [done|]. by apply Forall_cons_2; [|apply Forall_nil_2]. Qed.
Lemma Forall_one {A} (P : A -> Prop) x : P x -> Forall P [x].
Proof. intros. by apply Forall_cons_2; [|apply Forall_nil_2]. Qed.

Create HintDb tree.
#[export] Hint Resolve Forall_snoc Forall_one list.Forall_nil_2 : tree.

Section actions.
Context (p : parser_param).
Hypothesis Hp : param_ok p.

Lemma plain_wf t e : plain_expr t e -> expr_wf t e.
Proof using. by intros []. Qed.
Lemma plain_actions t e : is_actions t e -> plain_expr t e.
Proof using. destruct e; try done. intros H. split; [by apply foldr_Forall|by apply Forall_one]. Qed.
Lemma plain_binary t op a b : expr_wf t a -> expr_wf t b -> plain_expr t (ExprBinary op a b).
Proof using. by repeat split. Qed.
Lemma plain_unary t op a : expr_wf t a -> plain_expr t (ExprUnary op a).
Proof using. by repeat split. Qed.
Lemma plain_action t a l : name_ok t a -> Forall (expr_wf t) l -> plain_expr t (STMT_EXPR_ACTION_DECL a l).
Proof using. intros [_ Ha] Hl. split; [|exact I]. split; [by apply atom_text_ok|by apply foldr_Forall]. Qed.
Lemma plain_ident t a : name_ok t a -> plain_expr t (STMT_EXPR_IDENT a).
Proof using. by intros [_ Ha]. Qed.
Lemma plain_string t a : name_ok t a -> plain_expr t (STMT_EXPR_STRING_LITERAL a).
Proof using. by intros [_ Ha]. Qed.
Lemma plain_field_ref t a b : name_ok t a -> name_ok t b -> plain_expr t (STMT_EXPR_FIELD_REF a b).
Proof using. intros [_ Ha] [_ Hb]. split; [|exact I]. split; by apply atom_text_ok. Qed.
Lemma plain_array t a b e : text_ok t a -> name_ok t b -> expr_wf t e -> plain_expr t (STMT_EXPR_ARRAY_REF a b e).
Proof using. intros Ha [_ Hb] He. split; [|exact I]. split; [done|]. split; [by apply atom_text_ok|done]. Qed.
Lemma plain_other t e : match e with STMT_EXPR_INTEGER_LITERAL _ | STMT_EXPR_FLOAT_LITERAL | STMT_EXPR_BOOLEAN_LITERAL _
  | STMT_EXPR_KEYNAME_LITERAL _ | STMT_EXPR_KEYSYM_LITERAL _ | STMT_EXPR_EMPTY_LIST => True | _ => False end -> plain_expr t e.
Proof using. by destruct e. Qed.

Lemma name_text t a : name_ok t a -> text_ok t a.
Proof using. intros [_ Ha]. by apply atom_text_ok. Qed.
Lemma none_text t : atoms_fine t -> text_ok t XKB_ATOM_NONE.
Proof using. intros [ss H]. exists None. unfold xkb_atom_text, atom_text. by rewrite (ao_strings _ _ H). Qed.

Lemma var_created t lhs e : expr_wf t lhs -> plain_expr t e -> parsed_var_ok t (VarCreate (Some lhs) e []).
Proof using. intros Hl [He Hn]. split; [|done]. split; [by eexists|done]. Qed.
Lemma bool_var_created t a b : name_ok t a -> parsed_var_ok t (BoolVarCreate a b).
Proof using. intros Ha. apply var_created; [by apply plain_wf, plain_ident|by apply plain_other]. Qed.
Lemma key_var_created t lhs e next : match lhs with Some e => expr_wf t e | None => True end -> expr_wf t e -> lists_wf t e next ->
  key_var_ok t (VarCreate lhs e next).
Proof using. intros Hl He Hn. by repeat split. Qed.
Lemma key_var_named t v : parsed_var_ok t v -> key_var_ok t v.
Proof using. intros [[(e & He & Hw) Hv] Hl]. split; [|done]. split; [by rewrite He|done]. Qed.

Lemma keysym_heads t e l : is_keysyms e -> Forall is_keysyms l -> expr_wf t e /\ lists_wf t e l.
Proof using. destruct e; try done. intros He Hl. split; [exact I|]. by apply Forall_cons_2. Qed.
Lemma action_heads t e l : is_actions t e -> Forall (is_actions t) l -> expr_wf t e /\ lists_wf t e l.
Proof using. destruct e; try done. intros He Hl. split; [by apply foldr_Forall|]. by apply Forall_cons_2. Qed.

Lemma repeat_app_cons {A} (P : A -> Prop) a k x l : P a -> P x -> Forall P l ->
  exists y l', repeat a k ++ x :: l = y :: l' /\ P y /\ Forall P l'.
Proof using.
  intros Ha Hx Hl. destruct k; [by exists x, l|]. exists a, (repeat a k ++ x :: l). split; [done|]. split; [done|].
  apply list.Forall_app. split; [|by apply Forall_cons_2]. apply list.Forall_forall. intros y Hy. apply list_elem_of_In, repeat_spec in Hy. by subst.
Qed.

Lemma stmt_ok_plain t format stmt : stmt_wf t stmt ->
  match stmt with STMT_VAR _ | STMT_SYMBOLS _ _ _ | STMT_MODMAP _ _ _ | STMT_INCLUDE _ => False | _ => True end -> parsed_stmt_ok t format stmt.
Proof using. intros H Hs. split; [done|]. by destruct stmt. Qed.

Lemma merge_ok t format merge stmt : parsed_stmt_ok t format stmt -> parsed_stmt_ok t format (stmt_set_merge merge stmt).
Proof using. intros [H1 H2]. by destruct stmt. Qed.

Lemma decl_ok n merge stmt : kind_of (lhs_of n) = KOptStmt -> parsed_stmt_ok (pp_atoms p) (pp_format p) stmt -> outcome_ok p n (decl p merge stmt).
Proof using Hp. intros Hk H. apply value_ok; [done|]. rewrite Hk. eexists. split; [done|]. by apply merge_ok. Qed.

Lemma include_ok n str merge : kind_of (lhs_of n) = KOptStmt -> bytes str ->
  outcome_ok p n (let+ include := IncludeCreate str merge in value p (val_any (STMT_INCLUDE <$> include))).
Proof using Hp.
  intros Hk Hs. pose proof (include_create_bytes str merge Hs) as Hb. destruct (include_create_total str merge) as [r E]. rewrite E in *.
  cbn [result_bind]. apply value_ok; [done|]. rewrite Hk. eexists. split; [done|]. destruct r as [include|]; [|done]. by split.
Qed.

Lemma vars_wf t l : Forall (parsed_var_ok t) l -> Forall (var_wf t) l.
Proof using. intros H. refine (list.Forall_impl _ _ _ H _). by intros v []. Qed.

Lemma key_vars_ok t l : Forall (key_var_ok t) l -> Forall (key_var_wf t) l /\ Forall (fun v => lists_wf t (vr_value v) (vr_next v)) l.
Proof using. intros H. split; refine (list.Forall_impl _ _ _ H _); by intros v []. Qed.

Lemma vmod_stmts t format merge l : Forall (parsed_vmod_ok t) l ->
  Forall (parsed_stmt_ok t format) (map (fun v => STMT_VMOD (vmod_set_merge merge v)) l).
Proof using.
  intros H. apply list.Forall_fmap. refine (list.Forall_impl _ _ _ H _). intros v [Hv Hw]. split; [|done]. split; [cbn; unfold XKB_ATOM_NONE; lia|exact Hw].
Qed.

(** The rules of a range, one by one. *)
Lemma in_range_of lo len n : lo <= n < lo + Z.of_nat len -> In n (map (fun k => lo + Z.of_nat k) (seq 0 len)).
Proof using. intros H. apply in_map_iff. exists (Z.to_nat (n - lo)). split; [lia|]. apply in_seq. lia. Qed.

Ltac rule_cases lo len Hn tac :=
  apply (in_range_of lo len) in Hn;
  match type of Hn with In ?n ?l => let l' := eval vm_compute in l in change (In n l') in Hn end;
  repeat (destruct Hn as [<-|Hn]; [rule_values; tac; try (value_of; eauto 6 with tree; fail)|]); [..|destruct Hn].

#[local] Hint Resolve plain_wf plain_actions plain_binary plain_unary plain_action plain_ident plain_string plain_field_ref plain_array name_text
  none_text var_created bool_var_created key_var_created key_var_named vars_wf create_keysyms : tree.
#[local] Hint Resolve po_atoms : tree.
#[local] Hint Extern 1 (plain_expr _ _) => (apply plain_other; exact I) : tree.

Lemma file_actions_ok n vs : 2 <= n < 34 -> values_ok p n vs -> outcome_ok p n (file_actions p n vs).
Proof using Hp.
  intros Hn H. rule_cases 2 32%nat Hn ltac:(cbn [file_actions]).
  - split; [by apply return_ok|]. rewrite Ekind. by eexists.
  - split; [by apply return_ok|done].
  - split; [by apply return_ok|]. rewrite Ekind. by eexists.
  - destruct (has_flag _ _); [by apply extends_refl|]. value_of. by eexists.
  - value_of. destruct x0; eauto with tree.
  - value_of. eexists. split; [done|]. apply list.Forall_app. split; [done|]. by apply vmod_stmts.
Qed.

Lemma stmt_value n stmt : kind_of (lhs_of n) = KStmt -> stmt_wf (pp_atoms p) stmt ->
  match stmt with STMT_VAR _ | STMT_SYMBOLS _ _ _ | STMT_MODMAP _ _ _ | STMT_INCLUDE _ => False | _ => True end ->
  outcome_ok p n (value p (val_stmt stmt)).
Proof using Hp. intros Hk H1 H2. apply value_ok; [done|]. rewrite Hk. eexists. split; [done|]. by apply stmt_ok_plain. Qed.

Lemma vmod_value n name e : kind_of (lhs_of n) = KVmod -> name_ok (pp_atoms p) name ->
  match e with Some e => plain_expr (pp_atoms p) e | None => True end -> outcome_ok p n (value p (val_vmod (VModCreate name e))).
Proof using Hp.
  intros Hk [H1 H2] He. apply value_ok; [done|]. rewrite Hk. eexists. split; [done|]. split; [done|]. destruct e; [by destruct He|done].
Qed.

Lemma interp_value n merge sym e : kind_of (lhs_of n) = KInterp -> match e with Some e => plain_expr (pp_atoms p) e | None => True end ->
  outcome_ok p n (value p (val_stmt (STMT_INTERP merge sym e []))).
Proof using Hp.
  intros Hk He. apply value_ok; [done|]. rewrite Hk. eexists _, _, _. split; [done|]. destruct e; [by destruct He|done].
Qed.

Lemma heads_value n (Q : ExprDef -> Prop) l : kind_of (lhs_of n) = KHeads -> (forall e l, Q e -> Forall Q l -> expr_wf (pp_atoms p) e /\ lists_wf (pp_atoms p) e l) ->
  (exists e l', l = e :: l' /\ Q e /\ Forall Q l') -> outcome_ok p n (value p (val_exprList l)).
Proof using Hp. intros Hk HQ (e & l' & -> & He & Hl). apply value_ok; [done|]. rewrite Hk. exists e, l'. split; [done|]. by apply HQ. Qed.

Lemma null_decl_ok n : kind_of (lhs_of n) = KOptStmt -> outcome_ok p n (value p (val_any None)).
Proof using Hp. intros Hk. apply value_ok; [done|]. rewrite Hk. by exists None. Qed.

Lemma decl_actions_ok n vs : 34 <= n < 95 -> values_ok p n vs -> outcome_ok p n (decl_actions p n vs).
Proof using Hp.
  intros Hn H.
  rule_cases 34 61%nat Hn ltac:(cbn [decl_actions]; first [by apply decl_ok|by apply include_ok|by apply null_decl_ok|by apply stmt_value|idtac]).
  - apply stmt_value; [done| |exact I]. by destruct H5.
  - apply stmt_value; [done| |exact I]. cbn. unfold name_ok in *. lia.
  - by apply vmod_value.
  - by apply vmod_value.
  - apply stmt_value; [done| |exact I]. split; [done|by apply vars_wf].
  - by apply interp_value.
  - by apply interp_value.
  - apply stmt_value; [done| |exact I]. split; [by apply name_text|by apply vars_wf].
  - value_of. eexists. split; [done|]. edestruct key_vars_ok as [Hv Hl]; [eassumption|]. split; [|exact Hl]. split; [by apply name_text|done].
  - eapply heads_value; [done|apply keysym_heads|]. by eexists _, _.
  - eapply heads_value; [done|apply keysym_heads|]. apply repeat_app_cons; [apply create_keysyms|done..].
  - eapply heads_value; [done|apply action_heads|]. by eexists _, _.
  - eapply heads_value; [done|apply action_heads|]. apply repeat_app_cons; [by apply list.Forall_nil_2|done..].
  - destruct (Z.eqb_spec (pp_format p) XKB_KEYMAP_FORMAT_TEXT_V1); cbn [andb].
    + destruct (Symbols.is_ident _) eqn:Ei; cbn [negb]; [|by apply extends_refl]. value_of. eexists. split; [done|].
      split; [|done]. split; [by eapply plain_wf|done].
    + value_of. eexists. split; [done|]. split; [|done]. split; [by eapply plain_wf|done].
  - apply stmt_value; [done| |exact I]. match goal with H : name_ok _ _ |- _ => destruct H end. split; [done|by apply vars_wf].
  - apply stmt_value; [done| |exact I]. by eapply plain_wf.
  - apply stmt_value; [done| |exact I]. by eapply plain_wf.
Qed.

Lemma geometry_actions_ok n vs : 95 <= n < 150 -> values_ok p n vs -> outcome_ok p n (geometry_actions p n vs).
Proof using Hp.
  intros Hn H.
  rule_cases 95 55%nat Hn ltac:(cbn [geometry_actions]; first [by apply intern_literal_ok|by apply value_ok; [done|rewrite Ekind]|idtac]).
  all: value_of; eexists; split; [reflexivity|lia].
Qed.

Lemma expr_actions_ok n vs : 150 <= n < 188 -> values_ok p n vs -> outcome_ok p n (expr_actions p n vs).
Proof using Hp.
  intros Hn H. rule_cases 150 38%nat Hn ltac:(cbn [expr_actions]).
  all: try (value_of; eexists; split; [reflexivity|]; eauto 8 with tree; fail).
  - value_of. eexists _, (_ ++ _). split; [reflexivity|]. split; [done|]. apply Forall_snoc; [done|]. by apply Forall_one, plain_wf.
  - value_of. eexists _, _. split; [reflexivity|]. split; [by apply Forall_one, plain_wf|by apply list.Forall_nil_2].
  - value_of. eexists. split; [reflexivity|]. by apply list.Forall_nil_2.
Qed.

Lemma keysym_actions_ok n vs : 188 <= n < 222 -> values_ok p n vs -> outcome_ok p n (keysym_actions p n vs).
Proof using Hp.
  intros Hn H. rule_cases 188 34%nat Hn ltac:(cbn [keysym_actions]; first [by apply intern_literal_ok|by apply intern_ok|apply append_string_ok; eauto with tree; fail|idtac]).
  all: try (value_of; eexists; split; [reflexivity|]; eauto 8 with tree; fail).
  - destruct (append_keysym _ x2 H2) as (e & E & He). rewrite E. cbn [result_bind]. value_of. by eexists.
  - cbn zeta. destruct (_ =? _); [by apply extends_refl|]. value_of. by eexists.
  - value_of. eexists. split; [reflexivity|lia].
  - value_of. eexists. split; [reflexivity|lia].
Qed.

(** Each action reads the values of the kinds of its right-hand side, and gives
    one of the kind of its left-hand side. *)
Lemma action_ok n vs : is_rule n -> values_ok p n vs -> outcome_ok p n (semantic_action p n vs).
Proof using Hp.
  unfold is_rule. intros Hn H. unfold semantic_action.
  destruct (Z.ltb_spec n 34); [apply file_actions_ok; [lia|exact H]|]. destruct (Z.ltb_spec n 95); [apply decl_actions_ok; [lia|exact H]|].
  destruct (Z.ltb_spec n 150); [apply geometry_actions_ok; [lia|exact H]|]. destruct (Z.ltb_spec n 188); [apply expr_actions_ok; [lia|exact H]|].
  apply keysym_actions_ok; [lia|exact H].
Qed.
End actions.
