(* ===== verification/KeymapParserSpec.v ===== *)
(** * Properties of the parser of keymap files

    Invariant of the automaton: the states of the stack follow each other, their
    values are of the kinds of their symbols, and the words of these symbols are
    the tokens read.  A potential, lowered by each reduction, bounds the steps. *)

From Stdlib Require Import ZArith Lia String.
From stdpp Require Import base tactics list numbers.
From S2P Require Import Prelude Numbers Atom AtomSpec Keymap KeysymNames Scanner Expr Derived Sections Safe Symbols SymbolsSpec CompileKeymap Rules RulesBytes KeymapNew KeymapNewSpec KeymapLexer KeymapParser KeymapLexerSpec KeymapGrammar KeymapParserValues.

(** ** Tokens *)

(** The symbol of a token that was read. *)
Definition symbol_of (c : Z) : result Z := if c <=? token_number END_OF_FILE then Ok YYSYMBOL_YYEOF else YYTRANSLATE c.

Definition ERROR_TOK_SYMBOL : Z := 3.
Definition token_symbol (tok : yytokentype) : Z := match symbol_of (token_number tok) with Ok t => t | Fault _ => YYSYMBOL_YYUNDEF end.

(** The symbols of the tokens of a text, for the tables of atoms of the moment. *)
Inductive lexes (s : scanner) : list Z -> scanner -> Prop :=
| lexes_nil : lexes s [] s
| lexes_snoc ts s' atoms tok v s'' atoms' : lexes s ts s' -> atoms_fine atoms ->
    _xkbcommon_lex atoms s' = Ok (tok, v, s'', atoms') -> lexes s (ts ++ [token_symbol tok]) s''.

Definition token_ok_kind (k : kind) (tok : yytokentype) : bool :=
  match k, tok with
  | KString, STRING | KSval, IDENT | KAtom, KEYNAME | KNum, (INTEGER | FLOAT | DECIMAL_DIGIT) | KAny, _ => true
  | _, _ => false
  end.

Lemma token_kinds tok : symbol_of (token_number tok) = Ok (token_symbol tok) /\ is_terminal (token_symbol tok) /\
  token_ok_kind (kind_of (token_symbol tok)) tok = true.
Proof. destruct tok; (split; [vm_compute; reflexivity|]; split; [by vm_compute|vm_compute; reflexivity]). Qed.

Lemma token_eof tok : token_symbol tok = YYSYMBOL_YYEOF -> tok = END_OF_FILE.
Proof. by destruct tok; vm_compute. Qed.
Lemma token_error tok : token_symbol tok = ERROR_TOK_SYMBOL -> tok = ERROR_TOK.
Proof. by destruct tok; vm_compute. Qed.

Lemma token_value t format tok v : lexval_ok t tok v -> kind_ok t format (kind_of (token_symbol tok)) (lexval_yystype v).
Proof.
  destruct (token_kinds tok) as (_ & _ & Hk). intros Hv.
  destruct (kind_of (token_symbol tok)); try done; destruct tok; try done; cbn in Hv |- *.
  - destruct Hv as (n & -> & H). exists n. split; [done|]. unfold is_int63 in H. lia.
  - destruct Hv as (n & -> & H). exists n. split; [done|]. unfold is_int63 in H. lia.
  - destruct Hv as (n & -> & H). exists n. split; [done|]. unfold is_int63 in H. lia.
  - destruct Hv as (str & -> & H). by exists str.
  - destruct Hv as (name & -> & H). by exists name.
  - destruct Hv as (a & -> & H). by exists a.
Qed.

Lemma lexes_reads s ts s' : scanner_bytes s -> lexes s ts s' ->
  reads s s' /\ (forall t, t ∈ ts -> t <> YYSYMBOL_YYEOF -> t <> ERROR_TOK_SYMBOL -> reads_some s s').
Proof.
  intros Hs. induction 1 as [|ts s' atoms tok v s'' atoms' _ [IH1 IH2] Ha E].
  - split; [by apply reads_refl|]. by intros t Ht%elem_of_nil.
  - pose proof (xkb_lex_ok atoms s' Ha (proj1 IH1)) as H. rewrite E in H. destruct H as (_ & _ & Ht & _).
    assert (reads s' s'') as R by (destruct tok; try (by apply reads_some_reads); exact Ht).
    split; [by eapply reads_trans|]. intros t Hin H1 H2. apply elem_of_app in Hin as [Hin|Hin%list_elem_of_singleton]; [|subst t].
    + eapply reads_some_left; [by apply (IH2 t)|done].
    + eapply reads_some_right; [exact IH1|]. destruct tok; try exact Ht; [by destruct H1|by destruct H2].
Qed.

(** ** Words *)

Lemma lhs_nonterminal n : is_rule n -> YYNTOKENS <= lhs_of n.
Proof.
  intros Hn. assert (forallb (fun k => YYNTOKENS <=? lhs_of (Z.of_nat k)) (seq 2 220) = true) as H by (vm_compute; reflexivity).
  rewrite forallb_forall in H. unfold is_rule in Hn. specialize (H (Z.to_nat n)). rewrite Z2Nat.id in H by lia. apply Z.leb_le, H, in_seq. lia.
Qed.

Lemma derives_terminal_inv t w : is_terminal t -> derives t w -> w = [t].
Proof.
  intros Ht Hd. inversion Hd as [|n ws Hn Hws]; subst; [done|]. apply lhs_nonterminal in Hn. unfold is_terminal in Ht. lia.
Qed.

Definition XkbFile_symbol : Z := 68.
Definition OBRACE_SYMBOL : Z := 41.

(** The rules of the symbols of a map. *)
Lemma map_rules n : is_rule n -> lhs_of n = 69 \/ lhs_of n = 72 -> OBRACE_SYMBOL ∈ rhs_of n.
Proof.
  intros Hn H. assert (forallb (fun k => negb ((lhs_of (Z.of_nat k) =? 69) || (lhs_of (Z.of_nat k) =? 72)) || mem OBRACE_SYMBOL (rhs_of (Z.of_nat k))) (seq 2 220) = true) as Hall
    by (vm_compute; reflexivity).
  rewrite forallb_forall in Hall. unfold is_rule in Hn. specialize (Hall (Z.to_nat n)). rewrite Z2Nat.id in Hall by lia.
  assert (((lhs_of n =? 69) || (lhs_of n =? 72)) = true) as E by (destruct H as [-> | ->]; reflexivity).
  rewrite E in Hall. cbn [negb orb] in Hall. assert (mem OBRACE_SYMBOL (rhs_of n) = true) as Hm by (apply Hall, in_seq; lia).
  unfold mem in Hm. apply existsb_exists in Hm as (x & Hx & E'%Z.eqb_eq). subst x. by apply list_elem_of_In.
Qed.

Lemma map_word x w : x = 69 \/ x = 72 -> derives x w -> OBRACE_SYMBOL ∈ w.
Proof.
  intros Hx Hd. inversion Hd as [t Ht|n ws Hn Hws]; subst; [unfold is_terminal, YYNTOKENS in Ht; lia|].
  pose proof (map_rules n Hn Hx) as Hin. apply list_elem_of_lookup in Hin as [i Hi].
  destruct (Forall2_lookup_l _ _ _ _ _ Hws Hi) as (w & Hw & Hdw). apply derives_terminal_inv in Hdw; [|by unfold is_terminal, YYNTOKENS, OBRACE_SYMBOL].
  subst w. apply list_elem_of_In, in_concat. exists [OBRACE_SYMBOL]. split; [by eapply list_elem_of_In, list_elem_of_lookup_2|by left].
Qed.

(** ** Stacks *)

Definition entry_state (e : Z * yystype) : Z := fst e.

Fixpoint stack_ok (t : atom_table) (format : Z) (st : list (Z * yystype)) : Prop :=
  match st with
  | [] => True
  | (s, v) :: st => 0 < s < YYNSTATES /\ top_state st ∈ preds s /\ kind_ok t format (kind_of (stos s)) v /\ stack_ok t format st
  end.

Definition stack_symbols (st : list (Z * yystype)) : list Z := map (fun e => stos (fst e)) st.

Lemma top_state_range t format st : stack_ok t format st -> 0 <= top_state st < YYNSTATES.
Proof. destruct st as [|[s v] st]; cbn; [by unfold YYNSTATES|]. intros [H _]. unfold YYNSTATES in *. lia. Qed.

Lemma grows_stack t t' format st : grows t t' -> stack_ok t format st -> stack_ok t' format st.
Proof.
  intros Hg. induction st as [|[s v] st IH]; [done|]. intros (H1 & H2 & H3 & H4). split; [done|]. split; [done|]. split; [by eapply grows_kind|by apply IH].
Qed.

Lemma stack_drop t format n : forall st, stack_ok t format st -> stack_ok t format (drop n st).
Proof. induction n as [|n IH]; [done|]. intros [|[s v] st]; [done|]. intros (_ & _ & _ & H). by apply IH. Qed.

(** What [back] checks, on a stack. *)
Lemma back_sound t format f l : forall st, stack_ok t format st -> back (top_state st) l f = true ->
  (length l <= length st)%nat /\ stack_symbols (take (length l) st) = l /\ f (top_state (drop (length l) st)) = true.
Proof.
  induction l as [|x l IH]; intros st Hst H; [cbn in *; split; [lia|by split]|].
  cbn [back] in H. apply andb_true_iff in H as [[H0 Hx]%andb_true_iff H]. destruct st as [|[s v] st]; [done|]. cbn [top_state] in *.
  destruct Hst as (_ & Hin & _ & Hst). rewrite forallb_forall in H. apply list_elem_of_In, H in Hin.
  destruct (IH st Hst Hin) as (H1 & H2 & H3). cbn [length take drop stack_symbols map fst]. fold (stack_symbols (take (length l) st)).
  split; [lia|]. split; [|done]. rewrite H2. f_equal. by apply Z.eqb_eq.
Qed.

Lemma stack_values t format st : stack_ok t format st -> Forall2 (fun x v => kind_ok t format (kind_of x) v) (stack_symbols st) (map snd st).
Proof. induction st as [|[s v] st IH]; [by constructor|]. intros (_ & _ & Hv & Hst). constructor; [done|by apply IH]. Qed.

Lemma stack_take t format n : forall st, stack_ok t format st ->
  Forall2 (fun x v => kind_ok t format (kind_of x) v) (stack_symbols (take n st)) (map snd (take n st)).
Proof.
  induction n as [|n IH]; [constructor|]. intros [|[s v] st]; [constructor|]. intros (_ & _ & Hv & Hst). constructor; [done|by apply IH].
Qed.

(** ** Weights *)

Definition stack_weight (st : list (Z * yystype)) : Z := sum_weights (stack_symbols st).

Lemma weights_app l l' : sum_weights (l ++ l') = sum_weights l + sum_weights l'.
Proof. induction l as [|x l IH]; cbn; [done|]. fold (sum_weights (l ++ l')) (sum_weights l). rewrite IH. lia. Qed.

Lemma weights_rev l : sum_weights (rev l) = sum_weights l.
Proof. induction l as [|x l IH]; [done|]. cbn [rev]. rewrite weights_app, IH. cbn. fold (sum_weights l). lia. Qed.

Lemma stack_weight_take n st : stack_weight st = sum_weights (stack_symbols (take n st)) + stack_weight (drop n st).
Proof. unfold stack_weight, stack_symbols. rewrite <- weights_app, <- map_app, take_drop. done. Qed.

Lemma symbol_weight_nonneg x : 0 <= symbol_weight x.
Proof.
  Transparent symbol_weight. unfold symbol_weight. Opaque symbol_weight. destruct (array_get symbol_weight_array x) as [w|] eqn:E; [|cbn; lia].
  assert (0 <= x) as Hx by (by destruct x). unfold symbol_weight_array in E. rewrite array_get_of in E by done. apply list_elem_of_lookup_2 in E. pose proof symbol_weights_ok as H. rewrite forallb_forall in H. apply list_elem_of_In, H in E. by apply Z.leb_le.
Qed.

Lemma stack_weight_nonneg st : 0 <= stack_weight st.
Proof.
  unfold stack_weight. induction (stack_symbols st) as [|x l IH]; cbn; [done|]. fold (sum_weights l). pose proof (symbol_weight_nonneg x). lia.
Qed.

(** ** What the states know *)

Lemma state_checked s : 0 <= s < YYNSTATES -> state_ok s = true.
Proof.
  intros Hs. pose proof states_ok as H. rewrite forallb_forall in H. apply H, in_map_iff. exists (Z.to_nat s). split; [lia|].
  apply in_seq. unfold YYNSTATES in Hs. lia.
Qed.

Lemma state_entries s : 0 <= s < YYNSTATES -> exists yyn d, array_get yypact s = Some yyn /\ array_get yydefact s = Some d /\
  (if s =? YYFINAL then yyn = YYPACT_NINF else (yyn = YYPACT_NINF \/ forallb (token_ok s yyn) terminals = true) /\ (d = 0 \/ reduction_ok s d = true)) /\
  0 <= state_weight s.
Proof.
  intros Hs%state_checked. unfold state_ok in Hs. destruct (array_get yypact s) as [yyn|]; [|done]. destruct (array_get yydefact s) as [d|]; [|done].
  apply andb_true_iff in Hs as [H1 H2%Z.leb_le]. exists yyn, d. split; [done|]. split; [done|]. split; [|done]. destruct (s =? YYFINAL).
  - by repeat apply andb_true_iff in H1 as [H1 _]; apply Z.eqb_eq.
  - apply andb_true_iff in H1 as [[H3%Z.eqb_eq|H3]%orb_true_iff [H4%Z.eqb_eq|H4]%orb_true_iff]; tauto.
Qed.

Lemma final_preds : preds YYFINAL = [12] /\ preds 12 = [0] /\ stos 12 = XkbFile_symbol /\ stos YYFINAL = YYSYMBOL_YYEOF /\ preds 0 = [].
Proof. vm_compute. by split. Qed.

Lemma edge_sound p g x : edge p g x = true -> 0 < g < YYNSTATES /\ p ∈ preds g /\ stos g = x.
Proof.
  unfold edge, in_states. intros [[[H1%Z.leb_le H2%Z.ltb_lt]%andb_true_iff Hm]%andb_true_iff H3%Z.eqb_eq]%andb_true_iff.
  unfold mem in Hm. apply existsb_exists in Hm as (y & Hy & E%Z.eqb_eq). subst y. apply list_elem_of_In in Hy. split; [|done].
  destruct (Z.eq_dec g 0) as [->|]; [|lia]. destruct final_preds as (_ & _ & _ & _ & E). rewrite E in Hy. by apply elem_of_nil in Hy.
Qed.

(** A reduction that was checked, on a stack. *)
Record reduces (st : list (Z * yystype)) (n g : Z) : Prop := {
  rd_rule : is_rule n;
  rd_len : array_get yyr2 n = Some (Z.of_nat (length (rhs_of n)));
  rd_enough : (length (rhs_of n) <= length st)%nat;
  rd_symbols : stack_symbols (take (length (rhs_of n)) st) = rev (rhs_of n);
  rd_goto : goto_state n (top_state (drop (length (rhs_of n)) st)) = Ok g;
  rd_range : 0 < g < YYNSTATES;
  rd_pred : top_state (drop (length (rhs_of n)) st) ∈ preds g;
  rd_stos : stos g = lhs_of n;
  rd_weight : symbol_weight (lhs_of n) + state_weight g < sum_weights (rhs_of n) + state_weight (top_state st);
  rd_quiet : quiet g = true -> reads_nothing (top_state st) = true /\ quiet (top_state st) = true;
  rd_map : n = 3 -> top_state (drop (length (rhs_of n)) st) = 0 /\ reads_nothing (top_state st) = true /\ quiet (top_state st) = true
}.

Lemma reduction_sound t format st n : stack_ok t format st -> reduction_ok (top_state st) n = true -> exists g, reduces st n g.
Proof.
  intros Hst. unfold reduction_ok. intros [[[H1%Z.leb_le H2%Z.ltb_lt]%andb_true_iff H3%bool_decide_eq_true_1]%andb_true_iff H]%andb_true_iff.
  apply (back_sound t format) in H as (H4 & H5 & H6); [|done]. rewrite length_rev in H4, H5, H6.
  destruct (goto_state n _) as [g|] eqn:Eg; [|done]. exists g.
  apply andb_true_iff in H6 as [[[He Hw%Z.ltb_lt]%andb_true_iff Hq]%andb_true_iff Hm]. apply edge_sound in He as (Hr & Hp & Hs).
  split; try done.
  - intros E. rewrite E in Hq. cbn [negb orb] in Hq. by apply andb_true_iff in Hq.
  - intros ->. cbn in Hm. apply andb_true_iff in Hm as [[Hm1%Z.eqb_eq Hm2]%andb_true_iff Hm3]. done.
Qed.

(** ** The invariant of the automaton *)

(** What a parser that accepts has read: a file of the grammar, and the end of
    the text after a last map. *)
Definition accepted (s0 s : scanner) : Prop :=
  exists ts, lexes s0 ts s /\ (derives XkbFile_symbol ts \/ exists w, ts = w ++ [YYSYMBOL_YYEOF] /\ derives XkbFile_symbol w).

(** A map is returned if there are more, and it was read from some bytes. *)
Definition map_returned (s0 s : scanner) (p : parser_param) : Prop :=
  pp_more_maps p = bool_decide (is_Some (pp_rtrn p)) /\ (pp_more_maps p = true -> reads_some s0 s).

(** The symbol of the token that was read ahead, and its value. *)
Definition lookahead_ok (p : parser_param) (char : option (Z * yystype)) (la : list Z) : Prop :=
  match char with
  | None => la = []
  | Some (c, v) => exists t, symbol_of c = Ok t /\ is_terminal t /\ la = [t] /\ kind_ok (pp_atoms p) (pp_format p) (kind_of t) v
  end.

Definition pending (la : list Z) : Z :=
  match la with [t] => if (t =? YYSYMBOL_YYEOF) || (t =? ERROR_TOK_SYMBOL) then 0 else 1 | _ => 0 end.

Definition measure (yy : yyparser) (la : list Z) : Z :=
  stack_weight (yy_stack yy) + state_weight (top_state (yy_stack yy)) +
  (MAX_SHIFT_WEIGHT + 1) * (Z.of_nat (length (scn_rest (yy_scanner yy))) + pending la).

Section automaton.
Context (s0 : scanner) (p0 : parser_param).
Hypothesis Hs0 : scanner_bytes s0.

Record yy_ok (yy : yyparser) (la : list Z) (ws : list (list Z)) : Prop := {
  yo_param : extends_param p0 (yy_param yy);
  yo_stack : stack_ok (pp_atoms (yy_param yy)) (pp_format (yy_param yy)) (yy_stack yy);
  yo_words : Forall2 derives (stack_symbols (yy_stack yy)) ws;
  yo_lexed : lexes s0 (concat (rev ws) ++ la) (yy_scanner yy);
  yo_char : lookahead_ok (yy_param yy) (yy_char yy) la;
  yo_quiet : quiet (top_state (yy_stack yy)) = true -> reads_nothing (top_state (yy_stack yy)) = true -> yy_char yy = None;
  yo_maps : top_state (yy_stack yy) = 12 \/ top_state (yy_stack yy) = YYFINAL -> map_returned s0 (yy_scanner yy) (yy_param yy)
}.

Definition step_ok (m : Z) (r : result yyoutcome) : Prop :=
  match r with
  | Ok (inl yy) => exists la ws, yy_ok yy la ws /\ measure yy la < m
  | Ok (inr (ret, s, p)) => extends_param p0 p /\ reads s0 s /\ (ret = YYACCEPT -> accepted s0 s /\ map_returned s0 s p)
  | Fault _ => False
  end.

Lemma yo_reads yy la ws : yy_ok yy la ws -> reads s0 (yy_scanner yy).
Proof using Hs0. intros H. by eapply lexes_reads, yo_lexed. Qed.

Lemma measure_nonneg yy la ws : yy_ok yy la ws -> 0 <= measure yy la.
Proof using Type.
  intros H. pose proof (stack_weight_nonneg (yy_stack yy)) as H1. pose proof (top_state_range _ _ _ (yo_stack _ _ _ H)) as Hr.
  apply state_entries in Hr as (? & ? & _ & _ & _ & H2). unfold measure, pending, MAX_SHIFT_WEIGHT. repeat case_match; lia.
Qed.

Lemma extends_param_trans p p' p'' : extends_param p p' -> extends_param p' p'' -> extends_param p p''.
Proof using Type.
  intros (_ & Hg & Hf & Hs) (Hp & Hg' & Hf' & Hs'). split; [done|]. split; [by intros a o H; apply Hg', Hg|]. split; congruence.
Qed.

(** No state shifts the error token: an error ends the parsing. *)
Lemma no_error_shift s : 0 <= s < YYNSTATES -> exists yyn shift, entry yypact s = Ok yyn /\
  (if yyn =? YYPACT_NINF then Ok None else table_entry (yyn + YYSYMBOL_YYerror) YYSYMBOL_YYerror) = Ok shift /\
  match shift with Some n => n <= 0 | None => True end.
Proof using Type.
  intros (yyn & d & E & _ & Hf & _)%state_entries. unfold entry. rewrite E. exists yyn.
  destruct (Z.eqb_spec yyn YYPACT_NINF) as [|Hne]; [by exists None|].
  destruct (Z.eqb_spec s YYFINAL); [done|]. destruct Hf as [[?|Ht] _]; [done|].
  rewrite forallb_forall in Ht. specialize (Ht YYSYMBOL_YYerror ltac:(vm_compute; tauto)). unfold token_ok in Ht.
  destruct (table_entry _ _) as [[k|]|]; try done; eexists; (split; [done|]; split; [done|]); [|done].
  destruct (Z.leb_spec k 0); [done|]. by rewrite andb_false_r in Ht.
Qed.

Lemma errlab_aborts t format yy st : stack_ok t format st -> yyerrlab1 st yy = Ok (inr (YYABORT, yy_scanner yy, yy_param yy)).
Proof using Type.
  induction st as [|[s v] st IH]; intros Hst; destruct (no_error_shift _ (top_state_range _ _ _ Hst)) as (yyn & shift & E1 & E2 & Hn);
    cbn [yyerrlab1]; rewrite E1; cbn [result_bind]; rewrite E2; cbn [result_bind].
  - destruct shift as [n|]; [by rewrite (proj2 (Z.ltb_ge 0 n))|done].
  - destruct Hst as (_ & _ & _ & Hst). destruct shift as [n|]; [rewrite (proj2 (Z.ltb_ge 0 n)) by done|]; by apply IH.
Qed.

Lemma aborts_ok m t format yy st : stack_ok t format st -> extends_param p0 (yy_param yy) -> reads s0 (yy_scanner yy) -> step_ok m (yyerrlab1 st yy).
Proof using Type. intros Hst Hp Hs. rewrite (errlab_aborts t format) by done. by split. Qed.

(** Reductions. *)
Lemma file_rules n : is_rule n -> lhs_of n = XkbFile_symbol -> n = 2 \/ n = 3 \/ n = 4.
Proof using Type.
  intros Hn E. assert (forallb (fun k => negb (lhs_of (Z.of_nat k) =? XkbFile_symbol)) (seq 5 217) = true) as H by (vm_compute; reflexivity).
  rewrite forallb_forall in H. unfold is_rule in Hn. destruct (Z_lt_dec n 5); [lia|]. specialize (H (Z.to_nat n)). rewrite Z2Nat.id in H by lia.
  rewrite E, Z.eqb_refl in H. discriminate H. apply in_seq. lia.
Qed.

Lemma file_value p n vs v p' : is_rule n -> lhs_of n = XkbFile_symbol -> semantic_action p n vs = Ok (Value v p') ->
  (n = 2 /\ exists m, p' = pp_return m p) \/ (n = 4 /\ p' = pp_return None p).
Proof using Type.
  intros Hn E. destruct (file_rules n Hn E) as [->|[-> | ->]]; cbn.
  - intros H. left. split; [done|]. repeat (case_match; try done). injection H as <- <-. by eexists.
  - intros H. repeat (case_match; try done).
  - intros H. right. split; [done|]. repeat (case_match; try done). by injection H as <- <-.
Qed.

Lemma accept_value p vs p' : semantic_action p 3 vs = Ok (Accept p') -> exists m, p' = pp_return m p.
Proof using Type. cbn. intros H. repeat (case_match; try done). injection H as <-. by eexists. Qed.

Lemma Forall2_of_rev {A B} (P : A -> B -> Prop) l k : Forall2 P (rev l) k -> Forall2 P l (rev k).
Proof using Type.
  intros H. rewrite <- (rev_involutive l). induction H as [|x y l' k' Hxy _ IH]; [constructor|]. cbn [rev].
  apply Forall2_app; [done|]. by constructor; [|constructor].
Qed.

Lemma words_taken st ws n g : Forall2 derives (stack_symbols st) ws -> reduces st n g ->
  Forall2 derives (rhs_of n) (rev (take (length (rhs_of n)) ws)).
Proof using Type.
  intros Hw Hr. apply Forall2_of_rev. rewrite <- (rd_symbols _ _ _ Hr).
  unfold stack_symbols. rewrite <- firstn_map. by apply Forall2_take.
Qed.

Lemma words_concat (ws : list (list Z)) k : concat (rev (drop k ws)) ++ concat (rev (take k ws)) = concat (rev ws).
Proof using Type. rewrite <- concat_app, <- rev_app_distr, take_drop. done. Qed.

Lemma values_taken t format st n g : stack_ok t format st -> reduces st n g ->
  Forall2 (kind_ok t format) (rhs_kinds n) (rev (map snd (take (length (rhs_of n)) st))).
Proof using Type.
  intros Hst Hr. unfold rhs_kinds. change (map kind_of (rhs_of n)) with (kind_of <$> rhs_of n). apply Forall2_fmap_l, Forall2_of_rev.
  rewrite <- (rd_symbols _ _ _ Hr). by apply stack_take.
Qed.

(** A map is made of some bytes. *)
Lemma map_read yy la ws n g : yy_ok yy la ws -> reduces (yy_stack yy) n g -> n = 2 \/ n = 3 -> reads_some s0 (yy_scanner yy).
Proof using Hs0.
  intros Hyy Hr Hn. pose proof (words_taken _ _ _ _ (yo_words _ _ _ Hyy) Hr) as Hw.
  assert (exists x, rhs_of n = [x] /\ (x = 69 \/ x = 72)) as (x & Ex & Hx) by (destruct Hn as [-> | ->]; eexists; (split; [vm_compute; reflexivity|tauto])).
  rewrite Ex in Hw. apply Forall2_cons_inv_l in Hw as (w & ws' & Hd & Hnil & Ew). apply Forall2_nil_inv_l in Hnil as ->.
  pose proof (yo_lexed _ _ _ Hyy) as Hl. eapply (proj2 (lexes_reads _ _ _ Hs0 Hl) OBRACE_SYMBOL); [|done..].
  apply elem_of_app. left. rewrite <- (words_concat ws (length (rhs_of n))). apply elem_of_app. right. rewrite Ex, Ew. cbn. rewrite app_nil_r.
  by eapply map_word.
Qed.

Lemma extends_kinds p p' char la : extends_param p p' -> lookahead_ok p char la -> lookahead_ok p' char la.
Proof using Type.
  intros (_ & Hg & Hf & _). destruct char as [[c v]|]; [|done]. intros (t & Hc & Ht & Hl & Hv). exists t.
  split; [done|]. split; [done|]. split; [done|]. rewrite Hf. by eapply grows_kind.
Qed.

(** The state after the reduction, with the value of the action. *)
Lemma reduced_ok yy la ws n g v p : yy_ok yy la ws -> reduces (yy_stack yy) n g ->
  semantic_action (yy_param yy) n (rev (map snd (take (length (rhs_of n)) (yy_stack yy)))) = Ok (Value v p) ->
  extends_param (yy_param yy) p -> kind_ok (pp_atoms p) (pp_format (yy_param yy)) (kind_of (lhs_of n)) v ->
  step_ok (measure yy la) (Ok (inl (mk_yy ((g, v) :: drop (length (rhs_of n)) (yy_stack yy)) (yy_stacksize yy) (yy_char yy) (yy_scanner yy) p))).
Proof using Hs0.
  intros Hyy Hr Ha Hp Hv. pose proof Hp as (_ & Hg & Hf & _). set (len := length (rhs_of n)) in *.
  exists la, (concat (rev (take len ws)) :: drop len ws). split; [split; cbn [yy_stack yy_param yy_char yy_scanner top_state]|].
  - eapply extends_param_trans; [by eapply yo_param|done].
  - split; [by eapply rd_range|]. split; [by apply (rd_pred _ _ _ Hr)|]. rewrite (rd_stos _ _ _ Hr), Hf. split; [done|].
    apply stack_drop. eapply grows_stack; [done|]. by eapply yo_stack.
  - cbn [stack_symbols map fst]. rewrite (rd_stos _ _ _ Hr). constructor.
    + apply derives_rule; [by eapply rd_rule|]. eapply words_taken; [by eapply yo_words|done].
    + unfold stack_symbols. rewrite <- skipn_map. apply Forall2_drop. by eapply yo_words.
  - cbn [rev]. rewrite concat_app. cbn [concat]. rewrite app_nil_r, words_concat. by eapply yo_lexed.
  - eapply extends_kinds; [done|]. by eapply yo_char.
  - intros Hq _. apply (rd_quiet _ _ _ Hr) in Hq as [H1 H2]. by eapply yo_quiet.
  - intros Hgs. assert (lhs_of n = XkbFile_symbol) as El.
    { rewrite <- (rd_stos _ _ _ Hr). destruct Hgs as [-> | ->]; [vm_compute; reflexivity|].
      exfalso. pose proof (lhs_nonterminal n (rd_rule _ _ _ Hr)) as H. pose proof (rd_stos _ _ _ Hr) as H'.
      destruct final_preds as (_ & _ & _ & E & _). unfold YYNTOKENS, YYSYMBOL_YYEOF in *. unfold YYFINAL in *. lia. }
    destruct (file_value _ _ _ _ _ (rd_rule _ _ _ Hr) El Ha) as [(-> & m & ->)|(-> & ->)]; (split; [done|]); [|done].
    intros _. eapply map_read; [done|done|by left].
  - unfold measure. cbn [yy_stack yy_scanner top_state]. rewrite (stack_weight_take len (yy_stack yy)).
    unfold len. rewrite (rd_symbols _ _ _ Hr), weights_rev. pose proof (rd_weight _ _ _ Hr) as Hw.
    unfold stack_weight at 1. cbn [stack_symbols map fst]. cbn [sum_weights foldr]. rewrite (rd_stos _ _ _ Hr).
    fold (sum_weights (map (fun e => stos (fst e)) (drop (length (rhs_of n)) (yy_stack yy)))). fold (stack_symbols (drop (length (rhs_of n)) (yy_stack yy))).
    fold (stack_weight (drop (length (rhs_of n)) (yy_stack yy))). lia.
Qed.

(** A map that ends the parsing. *)
Lemma accept_ok yy la ws g p : yy_ok yy la ws -> reduces (yy_stack yy) 3 g ->
  semantic_action (yy_param yy) 3 (rev (map snd (take (length (rhs_of 3)) (yy_stack yy)))) = Ok (Accept p) ->
  extends_param (yy_param yy) p -> step_ok (measure yy la) (Ok (inr (YYACCEPT, yy_scanner yy, p))).
Proof using Hs0.
  intros Hyy Hr Ha Hp. split; [eapply extends_param_trans; [by eapply yo_param|done]|]. split; [by eapply yo_reads|]. intros _.
  pose proof (words_taken _ _ _ _ (yo_words _ _ _ Hyy) Hr) as Hw. pose proof (rd_map _ _ _ Hr eq_refl) as (Htop & Hn & Hq).
  assert (length (rhs_of 3) = 1%nat) as E1 by (vm_compute; reflexivity). pose proof (yo_lexed _ _ _ Hyy) as Hl.
  pose proof (yo_char _ _ _ Hyy) as Hc. rewrite (yo_quiet _ _ _ Hyy Hq Hn) in Hc. cbn in Hc. subst la. rewrite app_nil_r in Hl.
  split.
  - exists (concat (rev ws)). split; [done|]. left. rewrite E1 in *.
    assert (drop 1 ws = []) as E2.
    { pose proof (yo_words _ _ _ Hyy) as Hws. apply Forall2_length in Hws. unfold stack_symbols in Hws. rewrite length_map in Hws.
      pose proof (stack_drop _ _ 1 _ (yo_stack _ _ _ Hyy)) as Hd. destruct (drop 1 (yy_stack yy)) as [|[s v] st] eqn:E; [|cbn in Htop, Hd; lia].
      apply (f_equal length) in E. rewrite length_drop in E. apply length_zero_iff_nil. rewrite length_drop. cbn in E. lia. }
    rewrite <- (words_concat ws 1), E2. cbn [rev concat app].
    replace XkbFile_symbol with (lhs_of 3) by (vm_compute; reflexivity). apply derives_rule; [by vm_compute|done].
  - destruct (accept_value _ _ _ Ha) as [m ->]. split; [done|]. intros _. eapply map_read; [done|done|by right].
Qed.

Lemma reduce_ok yy la ws n : yy_ok yy la ws -> reduction_ok (top_state (yy_stack yy)) n = true -> step_ok (measure yy la) (yyreduce n yy).
Proof using Hs0.
  intros Hyy Hred. destruct (reduction_sound _ _ _ _ (yo_stack _ _ _ Hyy) Hred) as [g Hr]. unfold yyreduce, entry at 1.
  rewrite (rd_len _ _ _ Hr). cbn [result_bind]. rewrite Nat2Z.id. pose proof (rd_enough _ _ _ Hr) as He. rewrite (proj2 (Nat.ltb_ge _ _)) by done.
  pose proof (action_ok (yy_param yy) (proj1 (yo_param _ _ _ Hyy)) n _ (rd_rule _ _ _ Hr) (values_taken _ _ _ _ _ (yo_stack _ _ _ Hyy) Hr)) as Ha.
  destruct (semantic_action _ _ _) as [[v p|p|p|p]|] eqn:E; cbn [result_bind outcome_ok] in *; [| | | |done].
  - destruct Ha as [Hp Hv]. rewrite (rd_goto _ _ _ Hr). cbn [result_bind]. by eapply reduced_ok.
  - destruct Ha as [Hp ->]. by eapply accept_ok.
  - split; [eapply extends_param_trans; [by eapply yo_param|done]|]. by split; [eapply yo_reads|].
  - eapply aborts_ok; cbn [yy_param yy_scanner].
    + apply stack_drop. by eapply yo_stack.
    + eapply extends_param_trans; [by eapply yo_param|done].
    + by eapply yo_reads.
Qed.

Lemma default_ok yy la ws : yy_ok yy la ws -> top_state (yy_stack yy) <> YYFINAL -> step_ok (measure yy la) (yydefault yy).
Proof using Hs0.
  intros Hyy Hf. unfold yydefault, entry. destruct (state_entries _ (top_state_range _ _ _ (yo_stack _ _ _ Hyy))) as (yyn & d & _ & Ed & H & _).
  rewrite Ed. cbn [result_bind]. rewrite (proj2 (Z.eqb_neq _ _) Hf) in H. destruct H as [_ Hd]. destruct (Z.eqb_spec d 0).
  - eapply aborts_ok; [by eapply yo_stack|by eapply yo_param|by eapply yo_reads].
  - destruct Hd as [?|Hd]; [done|]. by eapply reduce_ok.
Qed.

(** Tokens. *)
Record read_ok (yy : yyparser) (la : list Z) (ws : list (list Z)) (c : Z) (v : yystype) (yy' : yyparser) (t : Z) : Prop := {
  ro_ok : yy_ok yy' [t] ws;
  ro_char : yy_char yy' = Some (c, v);
  ro_symbol : symbol_of c = Ok t;
  ro_stack : yy_stack yy' = yy_stack yy;
  ro_measure : measure yy' [t] <= measure yy la
}.

Lemma yyread_ok yy la ws : yy_ok yy la ws -> reads_nothing (top_state (yy_stack yy)) = false ->
  exists c v yy' t, yyread yy = Ok (c, v, yy') /\ read_ok yy la ws c v yy' t.
Proof using Hs0.
  intros Hyy Hr. unfold yyread. pose proof (yo_char _ _ _ Hyy) as Hc. destruct (yy_char yy) as [[c v]|] eqn:Ec; cbn in Hc.
  - destruct Hc as (t & Hc & Ht & -> & Hv). exists c, v, yy, t. split; [done|]. split; try done.
  - subst la. pose proof (yo_reads _ _ _ Hyy) as Hrd. pose proof (yo_param _ _ _ Hyy) as Hp.
    pose proof (xkb_lex_ok (pp_atoms (yy_param yy)) (yy_scanner yy) (po_atoms _ (proj1 Hp)) (proj1 Hrd)) as Hlex.
    destruct (_xkbcommon_lex _ _) as [[[[tok lv] s'] atoms']|] eqn:El; [|done]. destruct Hlex as (Ha & Hg & Htok & Hlv). cbn [result_bind].
    destruct (token_kinds tok) as (Es & Ht & _).
    pose proof (extends_atoms (yy_param yy) atoms' (proj1 Hp) Ha Hg) as Hx.
    assert (reads (yy_scanner yy) s') as R by (destruct tok; try (by apply reads_some_reads); exact Htok).
    eexists _, _, _, (token_symbol tok). split; [reflexivity|]. split; [|done..|].
    + split; cbn [yy_param yy_stack yy_char yy_scanner].
      * by eapply extends_param_trans.
      * eapply grows_stack; [exact Hg|by eapply yo_stack].
      * by eapply yo_words.
      * eapply lexes_snoc; [|exact (po_atoms _ (proj1 Hp))|exact El]. pose proof (yo_lexed _ _ _ Hyy) as Hl. by rewrite app_nil_r in Hl.
      * exists (token_symbol tok). split; [done|]. split; [done|]. split; [done|]. by apply token_value.
      * by rewrite Hr.
      * intros Hm%(yo_maps _ _ _ Hyy). destruct Hm as [H1 H2]. split; [done|]. intros H. eapply reads_some_left; [by apply H2|done].
    + unfold measure, MAX_SHIFT_WEIGHT. cbn [yy_stack yy_scanner pending].
      destruct (Z.eqb_spec (token_symbol tok) YYSYMBOL_YYEOF); [cbn [orb]; destruct R as [_ R]; lia|].
      destruct (Z.eqb_spec (token_symbol tok) ERROR_TOK_SYMBOL); [cbn [orb]; destruct R as [_ R]; lia|]. cbn [orb].
      assert (reads_some (yy_scanner yy) s') as [_ R'] by (destruct tok; try exact Htok; done). lia.
Qed.

Lemma no_error_tok g : 0 <= g < YYNSTATES -> stos g <> ERROR_TOK_SYMBOL.
Proof using Type.
  intros Hg. assert (forallb (fun s => negb (stos s =? ERROR_TOK_SYMBOL)) states = true) as H by (vm_compute; reflexivity).
  rewrite forallb_forall in H. intros E. specialize (H g). rewrite E, Z.eqb_refl in H. discriminate H.
  apply in_map_iff. exists (Z.to_nat g). unfold YYNSTATES in Hg. split; [lia|]. apply in_seq. lia.
Qed.

Lemma shift_ok yy ws t c v n m : yy_ok yy [t] ws -> yy_char yy = Some (c, v) -> symbol_of c = Ok t -> measure yy [t] <= m ->
  edge (top_state (yy_stack yy)) n t = true ->
  symbol_weight t + state_weight n <= state_weight (top_state (yy_stack yy)) + MAX_SHIFT_WEIGHT ->
  (t = YYSYMBOL_YYEOF -> symbol_weight t + state_weight n < state_weight (top_state (yy_stack yy))) ->
  step_ok m (Ok (inl (mk_yy ((n, v) :: yy_stack yy) (yy_stacksize yy) None (yy_scanner yy) (yy_param yy)))).
Proof using Type.
  intros Hyy Ec Es Hm He Hw1 Hw2. apply edge_sound in He as (Hn & Hp & Ht).
  pose proof (yo_char _ _ _ Hyy) as Hc. rewrite Ec in Hc. destruct Hc as (t' & Es' & Hterm & [= <-] & Hv).
  exists [], ([t] :: ws). split; [split; cbn [yy_stack yy_param yy_char yy_scanner top_state]|].
  - by eapply yo_param.
  - split; [done|]. split; [done|]. rewrite Ht. split; [done|by eapply yo_stack].
  - cbn [stack_symbols map fst]. rewrite Ht. constructor; [by apply derives_terminal|by eapply yo_words].
  - cbn [rev]. rewrite concat_app. cbn [concat]. rewrite !app_nil_r. by eapply yo_lexed.
  - done.
  - done.
  - destruct final_preds as (Ep & _ & E12 & _). intros [-> | ->].
    + exfalso. rewrite E12 in Ht. subst t. unfold is_terminal, XkbFile_symbol, YYNTOKENS in Hterm. lia.
    + rewrite Ep in Hp. apply list_elem_of_singleton in Hp. apply (yo_maps _ _ _ Hyy). by left.
  - unfold measure in *. cbn [yy_stack yy_scanner top_state pending] in *. unfold stack_weight at 1. cbn [stack_symbols map fst]. cbn [sum_weights foldr].
    fold (sum_weights (map (fun e => stos (fst e)) (yy_stack yy))). fold (stack_symbols (yy_stack yy)). fold (stack_weight (yy_stack yy)). rewrite Ht.
    pose proof (no_error_tok n ltac:(lia)) as H3. rewrite Ht in H3. unfold MAX_SHIFT_WEIGHT in *.
    rewrite (proj2 (Z.eqb_neq _ _) H3), orb_false_r in Hm. destruct (Z.eqb_spec t YYSYMBOL_YYEOF) as [E|E]; [specialize (Hw2 E)|]; lia.
Qed.

(** The end of the text, after a map. *)
Lemma final_ok yy la ws m : yy_ok yy la ws -> top_state (yy_stack yy) = YYFINAL -> step_ok m (yystop YYACCEPT (yy_scanner yy) (yy_param yy)).
Proof using Hs0.
  intros Hyy Hf. split; [by eapply yo_param|]. split; [by eapply yo_reads|]. intros _. split; [|apply (yo_maps _ _ _ Hyy); by right].
  destruct final_preds as (Ep1 & Ep2 & E12 & Ef & _). pose proof (yo_lexed _ _ _ Hyy) as Hl. pose proof (yo_char _ _ _ Hyy) as Hc.
  rewrite (yo_quiet _ _ _ Hyy) in Hc by (rewrite Hf; vm_compute; reflexivity). cbn in Hc. subst la. rewrite app_nil_r in Hl.
  exists (concat (rev ws)). split; [done|]. right. pose proof (yo_stack _ _ _ Hyy) as Hst. pose proof (yo_words _ _ _ Hyy) as Hw.
  destruct (yy_stack yy) as [|[s v] st]; [done|]. cbn [top_state] in Hf. subst s. destruct Hst as (_ & Hp & _ & Hst). rewrite Ep1 in Hp. apply list_elem_of_singleton in Hp.
  destruct st as [|[s v'] st]; [done|]. cbn [top_state] in Hp. subst s. destruct Hst as (_ & Hp & _ & Hst). rewrite Ep2 in Hp. apply list_elem_of_singleton in Hp.
  destruct st as [|[s v''] st]; [|cbn in Hp, Hst; lia]. cbn [stack_symbols map fst] in Hw. rewrite Ef, E12 in Hw.
  apply Forall2_cons_inv_l in Hw as (w1 & ws1 & Hd1 & Hw & ->). apply Forall2_cons_inv_l in Hw as (w2 & ws2 & Hd2 & Hw & ->). apply Forall2_nil_inv_l in Hw as ->.
  apply derives_terminal_inv in Hd1; [|by vm_compute]. subst w1. by exists w2.
Qed.

Lemma step_weaken m m' r : m <= m' -> step_ok m r -> step_ok m' r.
Proof using Type. intros Hm. destruct r as [[yy|[[ret s] p]]|]; [|done..]. intros (la & ws & H & Hlt). exists la, ws. split; [done|lia]. Qed.

Lemma yystep_ok yy la ws : yy_ok yy la ws -> step_ok (measure yy la) (yystep yy).
Proof using Hs0.
  intros Hyy. unfold yystep. destruct (extend_stacks _ _) as [size|]; [|by split; [eapply yo_param|split; [eapply yo_reads|]]].
  set (yy1 := mk_yy _ size _ _ _). assert (yy_ok yy1 la ws) as Hyy1 by by destruct Hyy.
  change (measure yy la) with (measure yy1 la). cbn zeta. clearbody yy1. clear yy Hyy. cbn [yy_stack yy_scanner yy_param].
  destruct (Z.eqb_spec (top_state (yy_stack yy1)) YYFINAL) as [|Hf]; [by eapply final_ok|].
  destruct (state_entries _ (top_state_range _ _ _ (yo_stack _ _ _ Hyy1))) as (yyn & d & E & _ & H & _).
  rewrite (proj2 (Z.eqb_neq _ _) Hf) in H. destruct H as [Ht _]. unfold entry at 1. rewrite E. cbn [result_bind].
  destruct (Z.eqb_spec yyn YYPACT_NINF) as [|Hne]; [by eapply default_ok|]. destruct Ht as [?|Ht]; [done|].
  destruct (yyread_ok yy1 la ws Hyy1) as (c & v & yy2 & t & -> & [Hyy2 Ec Es Est Hm]).
  { unfold reads_nothing. rewrite E. by apply Z.eqb_neq. }
  cbn [result_bind]. fold (symbol_of c). rewrite Es. cbn [result_bind].
  pose proof (yo_char _ _ _ Hyy2) as Hc. rewrite Ec in Hc. destruct Hc as (t' & _ & Hterm & [= <-] & _).
  rewrite forallb_forall in Ht. assert (In t terminals) as Hin.
  { apply in_map_iff. exists (Z.to_nat t). unfold is_terminal, YYNTOKENS in Hterm. split; [lia|]. apply in_seq. lia. }
  apply Ht in Hin. unfold token_ok in Hin. destruct (table_entry _ _) as [[n|]|]; [| |done]; cbn [result_bind].
  - rewrite <- Est in Hin, Hf. destruct (Z.leb_spec n 0); [by eapply step_weaken; [exact Hm|]; apply reduce_ok with ws|].
    apply andb_true_iff in Hin as [[[He _]%andb_true_iff H1%Z.leb_le]%andb_true_iff H2]. eapply shift_ok; try done.
    intros ->. cbn [negb orb] in H2. by apply Z.ltb_lt in H2.
  - eapply step_weaken; [exact Hm|]. apply default_ok with ws; [done|by rewrite Est].
Qed.

Lemma yyloop_ok fuel : forall yy la ws, yy_ok yy la ws -> measure yy la < Z.of_nat fuel ->
  exists ret s p, yyloop fuel yy = Ok (ret, s, p) /\ extends_param p0 p /\ reads s0 s /\ (ret = YYACCEPT -> accepted s0 s /\ map_returned s0 s p).
Proof using Hs0.
  induction fuel as [|fuel IH]; intros yy la ws Hyy Hm; [pose proof (measure_nonneg _ _ _ Hyy); lia|].
  cbn [yyloop]. pose proof (yystep_ok yy la ws Hyy) as Hs. destruct (yystep yy) as [[yy'|[[ret s] p]]|]; [| |done]; cbn [result_bind step_ok] in *.
  - destruct Hs as (la' & ws' & Hyy' & Hlt). apply (IH yy' la' ws'); [done|lia].
  - by exists ret, s, p.
Qed.

Lemma start_ok : param_ok p0 -> yy_ok (mk_yy [] YYINITDEPTH None s0 p0) [] [].
Proof using Hs0.
  intros Hp. split; cbn; try done; [by constructor|]. by intros [?|?].
Qed.

Lemma yyparse_ok : param_ok p0 ->
  exists ret s p, yyparse s0 p0 = Ok (ret, s, p) /\ extends_param p0 p /\ reads s0 s /\ (ret = YYACCEPT -> accepted s0 s /\ map_returned s0 s p).
Proof using Hs0.
  intros Hp. apply yyloop_ok with [] []; [by apply start_ok|]. unfold measure, yyfuel, MAX_SHIFT_WEIGHT. cbn [yy_stack yy_scanner top_state pending].
  assert (state_weight 0 = 3) as -> by (vm_compute; reflexivity). cbn [stack_weight stack_symbols map sum_weights foldr].
  unfold stack_weight. cbn. lia.
Qed.
End automaton.

(** ** Maps of a file *)

(** The maps of a text, one call of [yyparse] for each. *)
Inductive parses : scanner -> parser_param -> list parsed_map -> Prop :=
| parses_end s p s' p' : yyparse s p = Ok (YYACCEPT, s', p') -> pp_more_maps p' = false -> parses s p []
| parses_map s p s' p' m ms : yyparse s p = Ok (YYACCEPT, s', p') -> pp_more_maps p' = true -> pp_rtrn p' = Some m ->
    parses s' (mk_param (pp_atoms p') (pp_format p') (pp_strict p') None (pp_more_maps p')) ms -> parses s p (m :: ms).

(** The map with that name; without a name, the default one, or the first. *)
Definition selected_map (map_ : option (list Z)) (ms : list parsed_map) (first : option parsed_map) : option parsed_map :=
  match map_ with
  | Some name => match List.find (fun m => streq_not_null name (pm_name m)) ms with Some m => Some m | None => first end
  | None =>
      match List.find (fun m => has_flag (pm_flags m) MAP_IS_DEFAULT) ms with
      | Some m => Some m
      | None => match first with Some m => Some m | None => head ms end
      end
  end.

Lemma restart_ok p p' : param_ok p -> extends_param p p' ->
  param_ok (mk_param (pp_atoms p') (pp_format p') (pp_strict p') None (pp_more_maps p')) /\
  extends_param p (mk_param (pp_atoms p') (pp_format p') (pp_strict p') None (pp_more_maps p')).
Proof. intros Hp ([Ha _] & Hg & Hf & Hs). by repeat split. Qed.

Lemma parse_maps_ok map_ fuel : forall s p first, scanner_bytes s -> param_ok p -> opt_map_ok (pp_atoms p) (pp_format p) first ->
  (length (scn_rest s) < fuel)%nat ->
  exists m s' atoms, parse_maps fuel map_ s p first = Ok (m, s', atoms) /\ atoms_fine atoms /\ grows (pp_atoms p) atoms /\
    opt_map_ok atoms (pp_format p) m /\ reads s s'.
Proof.
  induction fuel as [|fuel IH]; intros s p first Hs Hp Hfirst Hf; [lia|]. cbn [parse_maps].
  destruct (yyparse_ok s p Hs Hp) as (ret & s' & p' & E & Hx & Hr & Hacc). rewrite E. cbn [result_bind].
  pose proof Hx as (Hp' & Hg & Hfmt & Hst).
  assert (opt_map_ok (pp_atoms p') (pp_format p) first) as Hfirst' by by eapply grows_map.
  destruct ret; [|by exists None, s', (pp_atoms p'); split; [|split; [apply Hp'|]]..].
  destruct (Hacc eq_refl) as (_ & Hmore & Hsome).
  destruct (pp_more_maps p') eqn:Em; cbn [negb]; [|by exists first, s', (pp_atoms p'); split; [|split; [apply Hp'|]]].
  symmetry in Hmore. apply bool_decide_eq_true_1 in Hmore as [m Hm]. rewrite Hm. specialize (Hsome eq_refl).
  assert (opt_map_ok (pp_atoms p') (pp_format p) (Some m)) as Hmap by (rewrite <- Hfmt, <- Hm; apply Hp').
  destruct (restart_ok p p' Hp Hx) as [Hp'' _]. rewrite Em in Hp''.
  assert (forall first, opt_map_ok (pp_atoms p') (pp_format p) first ->
    exists m s'' atoms, parse_maps fuel map_ s' (mk_param (pp_atoms p') (pp_format p') (pp_strict p') None true) first = Ok (m, s'', atoms) /\
      atoms_fine atoms /\ grows (pp_atoms p) atoms /\ opt_map_ok atoms (pp_format p) m /\ reads s s'') as Hnext.
  { intros first' Hf'. destruct Hsome as [Hb Hlt]. destruct (IH s' _ first' Hb Hp'') as (m' & s'' & atoms & E' & Ha & Hg' & Hm' & Hr'); cbn [pp_atoms pp_format] in *; [by rewrite Hfmt|lia|].
    exists m', s'', atoms. split; [exact E'|]. split; [done|]. split; [intros a o H; by apply Hg', Hg|]. rewrite <- Hfmt. split; [done|]. by eapply reads_trans. }
  destruct map_ as [name|].
  - destruct (streq_not_null name (pm_name m)); [|by apply Hnext]. exists (Some m), s', (pp_atoms p'). by split; [|split; [apply Hp'|]].
  - destruct (has_flag (pm_flags m) MAP_IS_DEFAULT); [exists (Some m), s', (pp_atoms p'); by split; [|split; [apply Hp'|]]|]. apply Hnext. by destruct first.
Qed.

Lemma parse_maps_selects map_ ms : forall fuel s p first, scanner_bytes s -> param_ok p -> parses s p ms ->
  (length (scn_rest s) < fuel)%nat -> exists s' atoms, parse_maps fuel map_ s p first = Ok (selected_map map_ ms first, s', atoms).
Proof.
  induction ms as [|m ms IH]; intros fuel s p first Hs Hp Hms Hf; (destruct fuel as [|fuel]; [lia|]); cbn [parse_maps];
    destruct (yyparse_ok s p Hs Hp) as (ret & s' & p' & E & Hx & _ & Hacc);
    inversion Hms as [? ? ? ? E' Em|? ? ? ? ? ? E' Em Er Hms']; subst; rewrite E in E'; injection E' as -> -> ->; rewrite E; cbn [result_bind]; rewrite Em; cbn [negb].
  - eexists _, _. unfold selected_map. cbn [List.find head]. by destruct map_, first.
  - rewrite Er. destruct (Hacc eq_refl) as (_ & _ & Hsome). destruct (Hsome Em) as [Hb Hlt].
    destruct (restart_ok p _ Hp Hx) as [Hp'' _].
    pose proof (fun first => IH fuel _ _ first Hb Hp'' Hms' ltac:(lia)) as Hnext. rewrite Em in Hnext.
    unfold selected_map in *. cbn [List.find head]. destruct map_ as [name|].
    + destruct (streq_not_null name (pm_name m)); [by eexists _, _|apply Hnext].
    + destruct (has_flag (pm_flags m) MAP_IS_DEFAULT); [by eexists _, _|].
      destruct (Hnext (match first with None => Some m | Some _ => first end)) as (s'' & atoms & ->). exists s'', atoms. repeat f_equal. by destruct first.
Qed.

(** ** Texts *)

Lemma encoding_reads string s : bytes string -> XkbParseStringInit string = Some s -> reads (scanner_init string) s.
Proof.
  intros Hb. assert (scanner_bytes (scanner_init string)) as Hs by (split; [done|apply Forall_nil_2]).
  unfold XkbParseStringInit, scanner_check_supported_char_encoding. destruct (scanner_str _ _) as [s1|] eqn:E.
  - intros [= <-]. apply reads_some_reads. eapply str_reads; [exact Hs| |exact E]. done.
  - repeat case_match; intros [= <-]; by apply reads_refl.
Qed.

Lemma new_param_ok format strict atoms : atoms_fine atoms -> param_ok (mk_param atoms format strict None false).
Proof. by split. Qed.

Lemma parse_map_ok format strict atoms s map_ : atoms_fine atoms -> scanner_bytes s ->
  exists m s' atoms', parse format strict atoms s map_ = Ok (m, s', atoms') /\ atoms_fine atoms' /\ grows atoms atoms' /\
    opt_map_ok atoms' format m /\ reads s s'.
Proof. intros Ha Hs. apply (parse_maps_ok map_ _ s (mk_param atoms format strict None false) None Hs); [by apply new_param_ok|exact I|lia]. Qed.

(** A text, with its quotation marks written as apostrophes. *)
Definition quoted (s : string) : list Z := map (fun c => if c =? 39 then 34 else c) (bytes_of s).

Lemma quoted_bytes s : forallb (fun c => (0 <=? c) && (c <? 256)) (quoted s) = true -> bytes (quoted s).
Proof.
  intros H. apply list.Forall_forall. intros c Hc. rewrite forallb_forall in H. specialize (H c (proj1 (list_elem_of_In _ _) Hc)). unfold is_char. lia.
Qed.

Definition sample_text : list Z := quoted
  "xkb_keycodes 'a' { <A> = 9; alias <B> = <A>; indicator 1 = 'Caps Lock'; };
   default partial xkb_symbols 'b' {
     name[Group1] = 'b'; // a comment
     key <A> { type = 'TWO_LEVEL', [ a, { A, 'xy' } ], [ {}, SetMods(modifiers = Shift+Lock) ] };
     modifier_map Shift { <A>, Control_L };
     augment 'pc+us:2'
   };
   xkb_types { };".

Definition new_scanner (s : list Z) : scanner := scanner_init s.
Definition new_param : parser_param := mk_param atom_table_new XKB_KEYMAP_FORMAT_TEXT_V2 0 None false.

Lemma new_atoms_fine : atoms_fine atom_table_new.
Proof. exists []. apply atom_table_new_ok. Qed.

Lemma init_bytes s : bytes s -> scanner_bytes (scanner_init s).
Proof. split; [done|apply Forall_nil_2]. Qed.

(** The maps of a text: their types, names and numbers of definitions. *)
Definition shown_map (m : option parsed_map) : option (list (xkb_file_type * option (list Z) * nat)) :=
  match m with
  | Some (ParsedSection f) => Some [(xf_file_type f, xf_name f, length (xf_defs f))]
  | Some (ParsedKeymap _ l _) => Some (map (fun f => (xf_file_type f, xf_name f, length (xf_defs f))) l)
  | None => None
  end.

Lemma parse_string_fine (format strict : Z) (atoms : atom_table) (string : list Z) (s : scanner) (map_ : option (list Z)) :
  atoms_fine atoms -> bytes string -> scanner_bytes s ->
  (exists m atoms', XkbParseString format strict atoms string map_ = Ok (m, atoms') /\
     atoms_fine atoms' /\ grows atoms atoms' /\ opt_map_ok atoms' format m) /\
  (exists m s' atoms', XkbParseStringNext format strict atoms s map_ = Ok (m, s', atoms') /\
     atoms_fine atoms' /\ grows atoms atoms' /\ opt_map_ok atoms' format (default None m) /\ reads s s').
Proof.
  intros Ha Hb Hs. split.
  - unfold XkbParseString. destruct (XkbParseStringInit string) as [s1|] eqn:E; [|by exists None, atoms].
    apply encoding_reads in E as [Hs1 _]; [|done].
    destruct (parse_map_ok format strict atoms s1 map_ Ha Hs1) as (m & s' & atoms' & -> & H1 & H2 & H3 & _). by exists m, atoms'.
  - unfold XkbParseStringNext. destruct map_ as [name|].
    + destruct (parse_map_ok format strict atoms s (Some name) Ha Hs) as (m & s' & atoms' & -> & H1 & H2 & H3 & H4). cbn [result_bind].
      eexists _, s', atoms'. split; [reflexivity|]. split; [done|]. split; [done|]. by destruct m.
    + unfold parse_next. destruct (yyparse_ok s _ Hs (new_param_ok format strict atoms Ha)) as (ret & s' & p' & -> & ([H1 H2] & H3 & H4 & _) & H5 & _).
      cbn [result_bind]. eexists _, s', _. split; [reflexivity|]. split; [done|]. split; [done|]. cbn [pp_format] in H4. rewrite H4 in H2. destruct ret; [destruct (pp_more_maps p')|..]; by split.
Qed.

(** C6. Parsing any text, and going on to the next map of a text, ends within
    the steps counted by the bytes left, with no fault of the tables, of the
    stack or of the union of the values; the atoms stay as they were, and a map
    that is returned is made of trees as the compilation needs them. *)
Theorem parse_string_ok (format strict : Z) (atoms : atom_table) (string : list Z) (s : scanner) (map_ : option (list Z)) :
  atoms_fine atoms -> bytes string -> scanner_bytes s ->
  (exists m atoms', XkbParseString format strict atoms string map_ = Ok (m, atoms') /\
     atoms_fine atoms' /\ grows atoms atoms' /\ opt_map_ok atoms' format m) /\
  (exists m s' atoms', XkbParseStringNext format strict atoms s map_ = Ok (m, s', atoms') /\
     atoms_fine atoms' /\ grows atoms atoms' /\ opt_map_ok atoms' format (default None m) /\ reads s s').
Proof. apply parse_string_fine. Qed.

Lemma parse_string_ok_witness :
  exists m atoms', XkbParseString XKB_KEYMAP_FORMAT_TEXT_V2 0 atom_table_new sample_text None = Ok (m, atoms') /\
    opt_map_ok atoms' XKB_KEYMAP_FORMAT_TEXT_V2 m /\ shown_map m = Some [(FILE_TYPE_SYMBOLS, Some (bytes_of "b"), 4%nat)].
Proof.
  assert (bytes sample_text) as Hb by (apply quoted_bytes; vm_compute; reflexivity).
  destruct (parse_string_ok XKB_KEYMAP_FORMAT_TEXT_V2 0 atom_table_new sample_text (scanner_init []) None new_atoms_fine Hb
    (init_bytes [] (Forall_nil_2 _))) as [(m & atoms' & E & _ & _ & Hm) _].
  exists m, atoms'. split; [exact E|]. split; [exact Hm|].
  assert (match XkbParseString XKB_KEYMAP_FORMAT_TEXT_V2 0 atom_table_new sample_text None with
    | Ok (m, _) => shown_map m = Some [(FILE_TYPE_SYMBOLS, Some (bytes_of "b"), 4%nat)] | Fault _ => False end) as Hs by (vm_compute; reflexivity).
  rewrite E in Hs. exact Hs.
Defined.

(** C7. What the parser accepts is in the language of parser.y: the tokens that
    it reads derive from [XkbFile], with the end of the text after a keymap; a
    map that is returned is made of some bytes. *)
Theorem yyparse_sound (s : scanner) (p : parser_param) (s' : scanner) (p' : parser_param) :
  scanner_bytes s -> param_ok p -> yyparse s p = Ok (YYACCEPT, s', p') -> accepted s s' /\ map_returned s s' p'.
Proof.
  intros Hs Hp E. destruct (yyparse_ok s p Hs Hp) as (ret & s1 & p1 & E' & _ & _ & H). rewrite E in E'. injection E' as <- <- <-. by apply H.
Qed.

Lemma yyparse_sound_witness :
  exists s' p', yyparse (new_scanner sample_text) new_param = Ok (YYACCEPT, s', p') /\ accepted (new_scanner sample_text) s' /\
    reads_some (new_scanner sample_text) s'.
Proof.
  assert (bytes sample_text) as Hb by (apply quoted_bytes; vm_compute; reflexivity).
  assert (match yyparse (new_scanner sample_text) new_param with Ok (YYACCEPT, _, p') => pp_more_maps p' = true | _ => False end) as H by (vm_compute; reflexivity).
  destruct (yyparse (new_scanner sample_text) new_param) as [[[[] s'] p']|] eqn:E; try contradiction.
  exists s', p'. split; [reflexivity|].
  destruct (yyparse_sound (new_scanner sample_text) new_param s' p' (init_bytes _ Hb) (new_param_ok _ _ _ new_atoms_fine) E) as [H1 [_ H2]].
  split; [exact H1|exact (H2 H)].
Defined.

(** C8. Among the maps of a text that is parsed to its end, [parse] gives the
    first one with the name asked for; without a name, the first one flagged as
    the default, or the first of all. *)
Theorem parse_selects (format strict : Z) (atoms : atom_table) (s : scanner) (map_ : option (list Z)) (ms : list parsed_map) :
  atoms_fine atoms -> scanner_bytes s -> parses s (mk_param atoms format strict None false) ms ->
  exists s' atoms', parse format strict atoms s map_ = Ok (selected_map map_ ms None, s', atoms').
Proof. intros Ha Hs Hms. apply parse_maps_selects; [done|by apply new_param_ok|done|lia]. Qed.

Lemma parse_selects_witness :
  exists ms, map (fun m => shown_map (Some m)) ms =
      [Some [(FILE_TYPE_KEYCODES, Some (bytes_of "a"), 3%nat)]; Some [(FILE_TYPE_SYMBOLS, Some (bytes_of "b"), 4%nat)]; Some [(FILE_TYPE_TYPES, None, 0%nat)]] /\
    (exists s' t, parse XKB_KEYMAP_FORMAT_TEXT_V2 0 atom_table_new (new_scanner sample_text) (Some (bytes_of "a")) = Ok (ms !! 0%nat, s', t)) /\
    (exists s' t, parse XKB_KEYMAP_FORMAT_TEXT_V2 0 atom_table_new (new_scanner sample_text) None = Ok (ms !! 1%nat, s', t)).
Proof.
  assert (bytes sample_text) as Hb by (apply quoted_bytes; vm_compute; reflexivity).
  assert (exists ms, parses (new_scanner sample_text) new_param ms /\ map (fun m => shown_map (Some m)) ms =
      [Some [(FILE_TYPE_KEYCODES, Some (bytes_of "a"), 3%nat)]; Some [(FILE_TYPE_SYMBOLS, Some (bytes_of "b"), 4%nat)]; Some [(FILE_TYPE_TYPES, None, 0%nat)]] /\
      selected_map (Some (bytes_of "a")) ms None = ms !! 0%nat /\ selected_map None ms None = ms !! 1%nat) as (ms & Hms & Hshown & E1 & E2).
  { eexists. split.
    - eapply parses_map; [vm_compute; reflexivity|reflexivity|reflexivity|].
      eapply parses_map; [vm_compute; reflexivity|reflexivity|reflexivity|].
      eapply parses_map; [vm_compute; reflexivity|reflexivity|reflexivity|].
      eapply parses_end; [vm_compute; reflexivity|reflexivity].
    - split; [vm_compute; reflexivity|]. split; vm_compute; reflexivity. }
  exists ms. split; [exact Hshown|]. rewrite <- E1, <- E2. split; apply parse_selects; first [exact new_atoms_fine|exact (init_bytes _ Hb)|exact Hms].
Defined.
