(* ===== verification/KeymapTextSpec.v ===== *)
(** * A keymap from a text

    The trees that the parser makes of a text are what the compilation needs of
    its sections, what the user may write of lists in a field of one value, or of
    overlays, excepted. *)

From Stdlib Require Import ZArith Lia String.
From stdpp Require Import base tactics list numbers.
From S2P Require Import Prelude Numbers Atom AtomSpec Keymap KeymapSpec KeysymNames Scanner Expr ExprSpec Vmod Overlays Machine MachineInv MachineSpec Derived DerivedSpec Sections Safe Types TypesSpec Compat CompatSpec Symbols SymbolsSpec CompileKeymap CompileKeymapSpec RulesBytes KeymapNew KeymapNewSpec KeymapLexer KeymapLexerSpec KeymapParser KeymapGrammar KeymapParserValues KeymapParserSpec.

(** The definitions of the defaults, and of the keys, are of fields with the
    values that they take. *)
Definition plain_var (info : keymap_info) (v : VarDef) : Prop :=
  forall elem field ndx, var_lhs (ki_ctx info) v = Ok (Some (elem, field, ndx)) ->
    plain_field info field ndx (vr_value v) /\ (forall e, elem = Some e -> name_is e "key" = true -> is_prefix "overlay" field = false).

Definition plain_body (info : keymap_info) (v : VarDef) : Prop :=
  forall field ndx, body_field info v = Ok (Some (field, ndx)) -> plain_field info field ndx (vr_value v).

Definition plain_symbols (info : keymap_info) (stmt : statement) : Prop :=
  match stmt with
  | STMT_VAR v => plain_var info v
  | STMT_SYMBOLS _ _ symbols => Forall (plain_body info) symbols
  | _ => True
  end.

Definition plain_section (info : keymap_info) (f : XkbFile) : Prop :=
  match xf_file_type f with
  | FILE_TYPE_COMPAT => Forall plain_stmt (xf_defs f)
  | FILE_TYPE_SYMBOLS => Forall (plain_symbols info) (xf_defs f)
  | _ => True
  end.

Lemma parsed_file_wf t format f : parsed_file_ok t format f -> file_wf t f.
Proof. intros H. refine (list.Forall_impl _ _ _ H _). by intros stmt []. Qed.

Lemma parsed_symbols_ok t format flags n stmt : parsed_stmt_ok t format stmt -> plain_symbols (new_keymap_info t format flags n) stmt ->
  symbols_stmt_ok (new_keymap_info t format flags n) stmt.
Proof.
  intros [_ H2] Hp. destruct stmt; try done; cbn in *.
  apply list.Forall_forall. intros v Hv. rewrite list.Forall_forall in H2, Hp. split; [by apply H2|by apply Hp].
Qed.

Lemma parsed_section_ok t format flags n f : parsed_file_ok t format f -> plain_section (new_keymap_info t format flags n) f ->
  file_wf t f /\ (xf_file_type f = FILE_TYPE_COMPAT -> compat_file_ok t f) /\
  (xf_file_type f = FILE_TYPE_SYMBOLS -> symbols_file_ok (new_keymap_info t format flags n) f).
Proof.
  intros Hf Hp. pose proof (parsed_file_wf _ _ _ Hf) as Hw. split; [done|]. unfold plain_section in Hp.
  split; intros E; rewrite E in Hp; (split; [done|]); [done|].
  apply list.Forall_forall. intros stmt Hs. unfold parsed_file_ok in Hf. rewrite list.Forall_forall in Hf, Hp. apply parsed_symbols_ok; [by apply Hf|by apply Hp].
Qed.

Lemma fine_atoms t : atoms_fine t -> CompileKeymapSpec.atoms_ok t.
Proof. intros [ss H]. unfold CompileKeymapSpec.atoms_ok. by rewrite (ao_strings _ _ H). Qed.

Section keymap.
Context (ctx : atom_table) (parse_file : xkb_file_type -> include_item -> list (option XkbFile)) (format flags : Z).
Hypothesis Hctx : atoms_fine ctx.

(** What is needed of the sections that were parsed, and of the files that they
    include. *)
Record text_ok (string : list Z) : Prop := {
  tx_library m t : XkbParseString format (parser_strict_flags_from_keymap format flags) ctx string None = Ok (Some m, t) ->
    library_ok t parse_file format flags;
  tx_plain m t : XkbParseString format (parser_strict_flags_from_keymap format flags) ctx string None = Ok (Some m, t) ->
    Forall (plain_section (new_keymap_info t format flags 0)) (pf_sections (map_parsed_file m));
  tx_room m t : XkbParseString format (parser_strict_flags_from_keymap format flags) ctx string None = Ok (Some m, t) ->
    Z.of_nat (section_pendings parse_file (first_of FILE_TYPE_COMPAT (pf_sections (map_parsed_file m))) +
      symbols_section_pendings parse_file (first_of FILE_TYPE_SYMBOLS (pf_sections (map_parsed_file m)))) < 2 ^ 31
}.

Definition text_keymap (r : result (option compiled_keymap)) : Prop :=
  match r with
  | Ok None => True
  | Ok (Some cm) => derived_keymap (cm_info cm) /\ overlays_wf (keymap_of (cm_info cm))
  | Fault f => compat_fault f \/ f = FaultOverlap
  end.

Lemma parsed_compiled string : bytes string -> text_ok string ->
  text_keymap (let+ r := XkbParseString format (parser_strict_flags_from_keymap format flags) ctx string None in
    match fst r with None => Ok None | Some m => compile_keymap_file (snd r) parse_file format flags 0 (map_parsed_file m) end).
Proof using Hctx.
  intros Hb [Hl Hp Hr]. set (strict := parser_strict_flags_from_keymap format flags) in *.
  destruct (proj1 (parse_string_fine format strict ctx string (scanner_init []) None Hctx Hb (init_bytes [] (Forall_nil_2 _)))) as (m & t & E & Ht & _ & Hm).
  rewrite E. cbn [result_bind fst snd]. destruct m as [m|]; [|done]. specialize (Hl _ _ E). specialize (Hp _ _ E). specialize (Hr _ _ E).
  assert (Forall (parsed_file_ok t format) (pf_sections (map_parsed_file m))) as Hf by (destruct m; [apply list.Forall_nil_2|exact Hm]).
  unfold compile_keymap_file. destruct (negb _); [done|]. destruct Hl as [L1 L2 L3 L4].
  apply CompileKeymap_ok; [lia|]. split; try done; [by intros item f; apply L4|].
  apply list.Forall_forall. intros f Hin. rewrite list.Forall_forall in Hp, Hf. apply (parsed_section_ok t format flags 0); [by apply Hf|by apply Hp].
Qed.

Lemma zero_dropped buffer : bytes buffer -> bytes (drop_zero buffer).
Proof using Type. intros H. unfold drop_zero. destruct (bool_decide _); [by apply bytes_take|done]. Qed.

End keymap.

(** ** A sample *)

Definition keymap_text : list Z := quoted
  "xkb_keymap {
     xkb_keycodes { <A> = 8; <B> = 9; };
     xkb_types { type 'ONE_LEVEL' { modifiers = none; };
                 type 'TWO_LEVEL' { modifiers = Shift; map[Shift] = Level2; };
                 type 'ALPHABETIC' { modifiers = Shift; map[Shift] = Level2; }; };
     xkb_compat { interpret Shift_L { action = SetMods(modifiers = Shift); }; };
     xkb_symbols { key <A> { [ a, A ] }; key <B> { [ Shift_L ], overlay1 = <A> }; };
   };".

Definition compiled_text : result (option compiled_keymap) :=
  xkb_keymap_new_from_buffer atom_table_new no_includes (Some keymap_text) XKB_KEYMAP_FORMAT_TEXT_V2 0.

Definition parsed_text : result (option parsed_map * atom_table) :=
  XkbParseString XKB_KEYMAP_FORMAT_TEXT_V2 (parser_strict_flags_from_keymap XKB_KEYMAP_FORMAT_TEXT_V2 0) atom_table_new keymap_text None.
Definition text_sections : list XkbFile := match parsed_text with Ok (Some m, _) => pf_sections (map_parsed_file m) | _ => [] end.
Definition text_atoms : atom_table := match parsed_text with Ok (_, t) => t | Fault _ => atom_table_new end.

Lemma text_parsed m t : parsed_text = Ok (Some m, t) -> pf_sections (map_parsed_file m) = text_sections /\ t = text_atoms.
Proof. unfold text_sections, text_atoms. by intros ->. Qed.

Lemma text_library_ok : library_ok text_atoms no_includes XKB_KEYMAP_FORMAT_TEXT_V2 0.
Proof.
  split; [vm_compute; reflexivity|apply no_includes_wf|by intros item f Hin%elem_of_nil|by intros n item f Hin%elem_of_nil].
Qed.

Lemma text_plain : Forall (plain_section (new_keymap_info text_atoms XKB_KEYMAP_FORMAT_TEXT_V2 0 0)) text_sections.
Proof.
  let l := eval vm_compute in text_sections in assert (text_sections = l) as -> by (vm_compute; reflexivity).
  apply Forall_cons_2; [exact I|]. apply Forall_cons_2; [exact I|]. apply Forall_cons_2; [|apply Forall_cons_2; [|apply Forall_nil_2]].
  - repeat (apply Forall_cons_2 || apply Forall_nil_2); exact I.
  - repeat (apply Forall_cons_2 || apply Forall_nil_2); intros f ndx Hf; vm_compute in Hf; injection Hf as <- <-; (split; [exact I|]); try discriminate; intros _ [].
Qed.

Lemma keymap_text_ok : text_ok atom_table_new no_includes XKB_KEYMAP_FORMAT_TEXT_V2 0 keymap_text.
Proof.
  split; intros m t E; destruct (text_parsed m t E) as [Em ->]; rewrite ?Em; clear E Em.
  - exact text_library_ok.
  - exact text_plain.
  - vm_compute. reflexivity.
Qed.

